(* ===== verification/_CoqProject ===== *)
-Q . S2P
Prelude.v
Base64.v
Dictionary.v
HashTable.v
HashTableSpec.v
HashTableResize.v
HashTableOps.v
HashTableWalk.v
HashTableCorrect.v
Tree.v
TreeBalance.v
TreeThreads.v
TreeCorrect.v
Utf8.v
Utf8Codec.v
Utf8Text.v
Utf8Validate.v
Utf8Convert.v
Utf8Correct.v
Pattern.v
PatternGlob.v
PatternCompile.v
PatternMatch.v
PatternCorrect.v
Sort.v
SortMerge.v
SortCorrect.v
Heap.v
DList.v
DListSpec.v
DListOps.v
DQueue.v
DQueueOps.v
DListCorrect.v
DQueueCorrect.v
Threads.v
AsyncQueue.v
AsyncQueueSpec.v
AsyncQueueOps.v
AsyncQueueInv.v
AsyncQueueHold.v
AsyncQueueCorrect.v
VariantType.v
VariantSpec.v
VariantWalk.v
VariantCorrect.v
VariantInfo.v
VariantInfos.v
Serialiser.v
SerialiserRead.v
SerialiserWrite.v
SerialiserSpec.v
SerialiserStore.v
SerialiserLoad.v
SerialiserNormal.v
SerialiserTotal.v
SerialiserAccept.v
SerialiserCorrect.v
Date.v
DateCalendar.v
DateOps.v
DateMove.v
DateParse.v
DateText.v
DateCorrect.v
Digest.v
DigestBlocks.v
ChecksumBase.v
Md5.v
Md5Stream.v
Sha1.v
Sha1Stream.v
Sha256.v
Sha256Stream.v
Sha512.v
Sha512Stream.v
Checksum.v
ChecksumCorrect.v
Hmac.v
HmacCorrect.v
