(* ===== verification/Prelude.v ===== *)
(** * Verification of the xpl core library (a GLib derivative)

    The library under src/glib is a set of C components that share little but
    memory allocation. This development translates some of them function by
    function and proves what each is for. A file that carries the name of a
    component holds the translation, in the order of the source; the files named
    after it hold the lemmas, and the last of them the properties.

    ** Parts

    - [Prelude]: machine integers, buffers and their bounds, comparison
      functions, tactics and the lemmas all parts share.
    - [Base64]: src/glib/gbase64.c. The encoder and decoder steps with the state
      and save words of the source, the whole-string functions with their sizes
      and wrap-around, and the in-place decoder on one shared buffer.
    - [Dictionary]: the interface of the keyed containers. An abstract
      dictionary is a list of entries up to its order; the class [Dictionary]
      says what an implementation owes, [serve_all_ok] what a client gets from
      it. [HashTableCorrect] and [TreeCorrect] give the instances.
    - [HashTable*]: src/glib/ghash.c. A table is the record of its counters and
      three arrays, with the width of the cells, the sharing of keys and values
      in sets, tombstones, the bitmap of the in-place resize and the iterators.
      [HashTableSpec] states the invariant and is about the probing,
      [HashTableResize] the rehashing, [HashTableOps] the operations,
      [HashTableWalk] the loops over the buckets, [HashTableCorrect] the
      properties.
    - [Tree*]: src/glib/gtree.c. The threaded balanced tree; the array of
      ancestors is a zipper. [TreeBalance] is about heights and rotations,
      [TreeThreads] about the order and the threads, [TreeCorrect] holds the
      properties.
    - [Utf8*]: src/glib/gutf8.c. [Utf8Codec]: one character; [Utf8Text]: strings
      of characters; [Utf8Validate]: the validator; [Utf8Convert]: UTF-8, UTF-16
      and UCS-4; [Utf8Correct]: the properties.
    - [Pattern*]: src/glib/gpattern.c, matching with wildcards, on the strings of
      [Utf8]. [PatternGlob] says what a pattern means and proves the matcher;
      [PatternCompile] is about the compiler, [PatternMatch] about the five kinds
      of match and about comparing patterns,
      [PatternCorrect] holds the properties.
    - [Sort*]: src/glib/gqsort.c. [SortMerge] merges lists; [SortCorrect] relates
      the moves of bytes and of pointers to it.
    - [Heap]: the memory of the containers that share nodes: objects at addresses,
      programs over them and, on the proof mode of Iris, a separation logic for
      these programs. Assertions are linear, so what a postcondition does not
      mention has been freed: a specification says that nothing leaks.
    - [DList*], [DQueue*]: src/glib/glist.c and src/glib/gqueue.c as programs of
      [Heap]. [DListSpec] describes a list in memory and what its loops read;
      [DListOps] and [DQueueOps] give every function its specification, the sort
      included; [DListCorrect] and [DQueueCorrect] hold the properties. The
      queue calls the list, its sort the merge sort of the list.
    - [Threads]: a machine of threads that share the memory of [Heap], a mutex and
      a condition variable. The code of a thread is an interaction tree; an event
      is the turn of a thread, a wake-up from outside (spurious, or the time is
      up) or a tick of the clocks. The mutex and the variable behave as their
      documentation (POSIX) says: a signal wakes at least one sleeper. They stand in
      the memory, and using one that is not initialised, or is cleared or freed, is
      undefined. The clocks stay within the bounds of the class [Clocks].
    - [AsyncQueue*]: src/glib/gasyncqueue.c as code of such threads, with the
      queue of [DQueue] inside. [AsyncQueueSpec] says what the code of a thread
      owes the others, [AsyncQueueOps] that every function pays it,
      [AsyncQueueInv] and [AsyncQueueHold] that the machine then keeps its
      invariant and uses up turns, [AsyncQueueCorrect] holds the properties.
    - [Variant*]: src/glib/gvarianttype.c. [VariantType] is the code on
      unterminated strings; [VariantSpec] the language of types as trees;
      [VariantWalk] is about the functions that scan, walk over and make types;
      [VariantCorrect] holds the properties.
    - [VariantInfo], [VariantInfos]: src/glib/gvarianttypeinfo.c,
      what a type means for the layout of data. [VariantInfos] is about the four
      constants of a member by themselves, then gives every type its info.
    - [Serialiser*]: src/glib/gvariant-serialiser.c, reading ([Serialiser]),
      writing ([SerialiserWrite]) and the check for the normal form
      ([SerialiserNormal]) of containers in memory. [SerialiserSpec] is the format
      and [FillerOk], the class of what a callback owes the serialiser;
      [SerialiserRead] is about any bytes, [SerialiserStore] and [SerialiserLoad]
      about storing and reading back all kinds of containers, [SerialiserTotal] and
      [SerialiserAccept] are about the normal form, [SerialiserCorrect] holds the properties. Types
      come from [VariantType], the check of strings is that of [Utf8].
    - [Date*]: src/glib/gdate.c. [DateCalendar] is the calendar by itself;
      [DateOps] and [DateMove] relate the code to it; [DateParse]
      is [xdate_set_parse] and [DateText] what it reads; [DateCorrect] the
      properties. The parser calls the validator of [Utf8].
    - [Digest], [DigestBlocks]: the digests as the standards define them (RFC 1321,
      FIPS 180-4, RFC 2104), with the test vectors of the standards, and lemmas on
      cutting a message into blocks. No code is modelled in them.
    - [Md5*], [Sha1*], [Sha256*], [Sha512*], [Checksum*]:
      src/glib/gchecksum.c. [ChecksumBase] holds what the algorithms share,
      [Checksum] the public functions; a file named [Stream] relates one algorithm
      to its standard, for MD5 and SHA-1 through the class [BufferedSum] of sums that
      buffer in the same way. [ChecksumContract] is the class of what a checksum
      promises, with the code as its instance; [ChecksumCorrect] the properties.
    - [Hmac*]: src/glib/ghmac.c on top of two checksums. [HmacCorrect] uses of
      [Checksum] nothing but the contract.

    ** How C is read

    Integers are [Z]; where a type can wrap around, the wrapping is written out
    ([wrap], [i32], [u32]), and signed overflow is undefined behaviour. Memory is
    a list of cells and a pointer an index, or the record it points to. [None]
    is undefined behaviour: an access out of bounds, a failing assertion, a loop
    that outlives its fuel. So a theorem that gives [Some] says that the function
    ends, stays within its memory and returns that. A [g_return_if_fail] is the
    early return it is; lists and queues also log the message of it, as they do with
    [g_warning]. What an operation reports to its owner (destroy
    notifications) is part of its result, in order.

    Callbacks are parameters: hash, equality and comparison functions, visitors,
    the success of an allocation, the contents of fresh memory, the address of a
    new node, the locale of the date parser. The callbacks of lists and queues are
    programs that may change the memory, but for the comparison functions. What the code relies on is a
    hypothesis with a name: [KeysOk] for keys and their hashes, [CompareOk] for
    an order. Each property that has hypotheses
    has an instance, the lemma of the same name with [_witness].

    ** What is proved

    - Hash table and tree: any sequence of requests is answered as the abstract
      dictionary answers it; each operation on every branch, with the invariant
      (balance, order and threads for the tree; the load and the probe paths for
      the table); resizing, iterating with removals, walking, notifications, for
      tables below [2 ^ 29] nodes, from where the [int] of the resize test
      overflows; the height of the tree and with it the bound of the array of ancestors.
    - Base64: decoding inverts encoding, for any cuts into pieces, with or
      without line breaks, and in place; the bounds of the buffers, and what
      encoding does when the text has [2 ^ 31] characters or more, where the [int]
      of the source wraps around.
    - UTF-8: the validator accepts exactly the encodings of scalar values; the
      readers and writers are inverse; conversions convert the longest prefix
      they can and say why they stop, and are inverse to each other; moving,
      copying and repairing respect characters.
    - Patterns: whatever kind of match is chosen, the answer is what the pattern
      means; two compiled patterns are equal when they match the same texts; no
      text of 4 GiB is matched.
    - Sorting: a stable sorted permutation for every element size, and the
      recursion ends.
    - Lists and queues: every function keeps the links in both directions, the
      ends and the length, touches no other memory and leaks no node; the sort of
      a list agrees with the sort of an array; a queue that serves any requests
      answers as a sequence and leaves the memory as it was; what a caller gets
      for a NULL queue or a link that is in use.
    - Queues between threads: under any interleaving the calls take effect one
      after the other on one sequence, nothing is used after it is cleared or freed,
      the mutex included, and all is freed in the end; the threads come to rest, and
      who sleeps then sleeps beside an empty queue. Pops may wait for ever, for a
      timeout, or until a time on the wall clock that lies after the start of the
      monotonic clock; a timed pop with an earlier time fails an assertion.
    - Variant types: scanning accepts exactly the strings of types up to the
      nesting limit; constructors and accessors are inverse; the order is the
      structural one.
    - Serialised values: the constants of a type info lead where walking over the
      members leads; any bytes can be read as a value of any type, nothing outside
      them is touched and the depth of variants is bounded; what the serialiser
      stores for the children of a container are the bytes of the format, padding
      included, and gives them back; the check for the
      normal form always ends and accepts what the serialiser stores for normal
      children; and
      where it reads one byte too many, where unaligned data fail an assertion,
      where the limit of the depth can be passed.
    - Dates: the day number and the day of the calendar convert into each other;
      readers, weeks, setters and moves do to the day what they say; the parser
      yields a real day or the cleared date.
    - Checksums: however a message is cut into updates, and whatever is read, reset
      or copied between them, the digest is that of the standard; a checksum that has
      been read is closed; no write leaves a buffer. An update of SHA-256 is below
      [2 ^ 32] bytes and a message of SHA-384 or SHA-512 below [2 ^ 61]: beyond, the
      lengths are counted wrongly (an update of 8 GiB, a carry that SHA-512 misses). An HMAC is
      that of RFC 2104 over any sequence of requests.

    ** Fuel

    Loops are structural recursions on fuel, and no theorem assumes that a loop
    ends. Probing gets as many turns as the table has buckets: triangular probing
    meets each once. Placing a node in the resize takes one turn per bucket, as
    each turn settles one. The loops of strings get a turn per byte of the memory
    they run in. The merge sorts recurse on the number of elements. The loops over
    lists get a turn per object of the memory, for the nodes of a list are
    different objects; the specifications hold in any memory that has the list.
    Walks over
    the tree get one turn per node or more, as their theorems say. The scanner of
    variant types recurses as deep as the nesting limit allows; its loops consume
    a character per turn. An info of a type is built once per character of the type
    string. The matcher of patterns begins each turn and each call further on in
    the pattern; its inner loops run over the string. [tuple_get_child] calls itself at most once, for the end of a member;
    padding is shorter than 8 bytes; the type of a variant is searched over the
    bytes of the value; the check for the normal form recurses at most to the depth
    limit of 128. The parser of dates runs over a string. The loops of the
    checksums that work off whole blocks get a turn per byte of the data.

    ** Not modelled

    - Guards for NULL arguments (but those of the queues), and reference counts of objects whose storage is
      not modelled. The version counters of the table and its iterators are kept,
      as in a build with assertions.
    - ghash.c: [g_double_hash] and [g_double_equal] (floating point). gtree.c: the
      debugging dumps. gutf8.c: [xutf8_strchr] and [xutf8_strrchr], which are calls of
      substring searches. gvarianttype.c: [xvariant_type_free] and the check for
      NULL. glist.c: the local variable of the merge is an object of the memory,
      and of two calls among the arguments of a function the left one comes first.
      gvarianttypeinfo.c: the table that shares infos and their reference counts;
      an info is its contents. gvariant-serialiser.c:
      [xvariant_serialised_byteswap]. gchecksum.c and ghmac.c:
      [xchecksum_free] and NULL objects; the host is taken to be little-endian.
      gdate.c: [xdate_strftime], the filling of the tables of month names
      from the locale, the wrappers that read the clock.
    - The implementation of mutexes, condition variables, atomic counters and clocks
      on the system (gthread-posix.c, gatomic.c): [Threads] states what they
      promise. A program of the memory is one indivisible step there: its accesses
      are atomic operations, or are protected by the mutex, as the proof shows.
      Threads that use a queue do not create others, and each drops the
      references it has.
    - The system: main loop, processes, files, sockets and I/O (src/gio),
      memory allocators, logging and tests.
    - The run-time type system and signals (src/gobject); variants' values
      (gvariant.c, gvariant-core.c) and their text (gvariant-parser.c); key files,
      markup, options and scanners; random numbers and identifiers (grand.c,
      guuid.c); strings, quarks; singly-linked lists, arrays, sequences
      and n-ary trees. The last of these are next: they use nothing but what is
      modelled here. *)

From Stdlib Require Export ZArith Lia.
From stdpp Require Export base tactics option list numbers strings.

(** ** Machine integers

    A C integer is a [Z]; the wrap-around of its type is written out where the
    source relies on it or could hit it. *)

Declare Scope xpl_scope.
Delimit Scope xpl_scope with xpl.

(** Conversion of an integer to an unsigned [w]-bit type. *)
Definition wrap (w x : Z) : Z := x mod 2 ^ w.

(** Conversion to a signed 32-bit [int] (two's complement). *)
Definition i32 (x : Z) : Z := (x + 2 ^ 31) mod 2 ^ 32 - 2 ^ 31.

(** Conversion to a signed 64-bit integer. *)
Definition i64 (x : Z) : Z := ((x + 2 ^ 63) mod 2 ^ 64 - 2 ^ 63)%Z.

(** The result of signed 32-bit arithmetic: out of range, it is undefined behaviour. *)
Definition sint32 (x : Z) : option Z :=
  if ((- 2 ^ 31 <=? x) && (x <? 2 ^ 31))%Z then Some x else None.

Abbreviation u8 := (wrap 8).
Abbreviation u16 := (wrap 16).
Abbreviation u32 := (wrap 32).
Abbreviation u64 := (wrap 64).

Definition is_byte (b : Z) : Prop := (0 <= b < 256)%Z.

(** The C operators on integers. *)
Notation "x & y" := (Z.land x y) (at level 45, left associativity) : xpl_scope.
Notation "x 'or' y" := (Z.lor x y) (at level 47, left associativity) : xpl_scope.
Notation "x 'xor' y" := (Z.lxor x y) (at level 46, left associativity) : xpl_scope.
Notation "x << y" := (Z.shiftl x y) (at level 43, left associativity) : xpl_scope.
Notation "x >> y" := (Z.shiftr x y) (at level 43, left associativity) : xpl_scope.

(** ** C arrays and strings

    A buffer is a list, indexed by a [Z]; an access outside it is undefined
    behaviour in C and [None] here. *)

Definition rd {A} (buf : list A) (i : Z) : option A :=
  if (i <? 0)%Z then None else buf !! Z.to_nat i.

(** A table of constants, read at an index that is known to be in range. *)
Definition tbl (t : list Z) (i : Z) : Z := default 0%Z (rd t i).

(** [buf[i] = x]. *)
Definition wr {A} (buf : list A) (i : Z) (x : A) : option (list A) :=
  if (i <? 0)%Z || (Z.of_nat (length buf) <=? i)%Z then None
  else Some (<[Z.to_nat i := x]> buf).

(** [memcpy (buf + i, bytes, length bytes)]. *)
Definition write_at {A} (buf : list A) (i : Z) (bytes : list A) : option (list A) :=
  if (i <? 0)%Z || (Z.of_nat (length buf) <? i + Z.of_nat (length bytes))%Z then None
  else Some (take (Z.to_nat i) buf ++ bytes ++ drop (Z.to_nat i + length bytes) buf).

Definition zlen {A} (l : list A) : Z := Z.of_nat (length l).

(** The [n] cells at [i]. *)
Definition cells_at {A} (buf : list A) (i n : Z) : option (list A) :=
  if (i <? 0)%Z || (n <? 0)%Z || (zlen buf <? i + n)%Z then None
  else Some (take (Z.to_nat n) (drop (Z.to_nat i) buf)).

(** The bytes of the NUL-terminated string that starts a buffer. *)
Fixpoint cstr (buf : list Z) : list Z :=
  match buf with
  | [] => []
  | b :: bs => if (b =? 0)%Z then [] else b :: cstr bs
  end.

(** The bytes of a string literal. *)
Definition ascii_bytes (s : string) : list Z :=
  map (fun a => Z.of_N (Ascii.N_of_ascii a)) (String.list_ascii_of_string s).

(** ** Numbers of a given size, least significant byte first *)

Fixpoint le_value (bytes : list Z) : Z :=
  match bytes with [] => 0 | b :: bytes => (b + 256 * le_value bytes)%Z end.
Fixpoint le_bytes (n : nat) (value : Z) : list Z :=
  match n with O => [] | S n => (value mod 256 :: le_bytes n (value / 256))%Z end.

(** ** Comparison functions

    A [GCompareFunc] returns a negative, zero or positive [int]. The sorting
    and tree code relies on it being a total preorder; this is the promise the
    caller makes, and the client theorems are proved against it. *)
Class CompareOk {K} (cmp : K -> K -> Z) : Prop := {
  compare_refl : forall x, cmp x x = 0%Z;
  compare_antisym : forall x y, (cmp x y < 0 <-> 0 < cmp y x)%Z;
  compare_trans : forall x y z, (cmp x y <= 0 -> cmp y z <= 0 -> cmp x z <= 0)%Z;
}.

(** ** Tactics *)

Ltac zify_div := Z.div_mod_to_equations; lia.

(** Splits every boolean integer test of the goal. *)
Ltac zcases :=
  repeat match goal with
  | |- context [Z.ltb ?a ?b] => destruct (Z.ltb_spec a b)
  | |- context [Z.leb ?a ?b] => destruct (Z.leb_spec a b)
  | |- context [Z.eqb ?a ?b] => destruct (Z.eqb_spec a b)
  end.

(** Turns the boolean integer tests among the hypotheses into propositions. *)
Ltac zprops :=
  repeat match goal with
  | H : (_ && _) = true |- _ => apply andb_prop in H; destruct H
  | H : (_ || _) = false |- _ => apply orb_false_elim in H; destruct H
  | H : negb _ = true |- _ => apply negb_true_iff in H
  | H : negb _ = false |- _ => apply negb_false_iff in H
  | H : (_ <? _)%Z = true |- _ => apply Z.ltb_lt in H
  | H : (_ <? _)%Z = false |- _ => apply Z.ltb_ge in H
  | H : (_ <=? _)%Z = true |- _ => apply Z.leb_le in H
  | H : (_ <=? _)%Z = false |- _ => apply Z.leb_gt in H
  | H : (_ =? _)%Z = true |- _ => apply Z.eqb_eq in H
  | H : (_ =? _)%Z = false |- _ => apply Z.eqb_neq in H
  end.

(** A concrete list of bytes is one. *)
Ltac solve_bytes :=
  cbn [concat app];
  repeat (apply Forall_cons; split; [unfold is_byte; lia|]); by apply Forall_nil.

(** ** Generic lemmas *)

Create HintDb xpl discriminated.
Create Rewrite HintDb xpl.

Section integers.
Local Open Scope Z_scope.

Lemma wrap_small w x : 0 <= x < 2 ^ w -> wrap w x = x.
Proof. apply Z.mod_small. Qed.

Lemma wrap_range w x : 0 <= w -> 0 <= wrap w x < 2 ^ w.
Proof. intros. apply Z.mod_pos_bound. lia. Qed.

Lemma sint32_ok x : - 2 ^ 31 <= x < 2 ^ 31 -> sint32 x = Some x.
Proof. intros Hx. unfold sint32. by rewrite (proj2 (Z.leb_le _ _) (proj1 Hx)), (proj2 (Z.ltb_lt _ _) (proj2 Hx)). Qed.

Lemma i32_small x : - 2 ^ 31 <= x < 2 ^ 31 -> i32 x = x.
Proof. intros. unfold i32. rewrite Z.mod_small; lia. Qed.
Lemma i32_bounds x : - 2 ^ 31 <= i32 x < 2 ^ 31.
Proof. unfold i32. pose proof (Z.mod_pos_bound (x + 2 ^ 31) (2 ^ 32)). lia. Qed.
Lemma i32_le x : - 2 ^ 31 <= x -> i32 x <= x.
Proof. intros. unfold i32. pose proof (Z.mod_le (x + 2 ^ 31) (2 ^ 32)). lia. Qed.
Lemma i32_wraps x : 2 ^ 31 <= x -> i32 x <= x - 2 ^ 32.
Proof.
  intros. unfold i32. replace (x + 2 ^ 31) with (x - 2 ^ 31 + 1 * 2 ^ 32) by lia. rewrite Z.mod_add by lia.
  pose proof (Z.mod_le (x - 2 ^ 31) (2 ^ 32)). lia.
Qed.
Lemma i32_add_l x y : i32 (i32 x + y) = i32 (x + y).
Proof.
  unfold i32. replace (_ - 2 ^ 31 + y + 2 ^ 31) with ((x + 2 ^ 31) mod 2 ^ 32 + y) by lia.
  rewrite Z.add_mod_idemp_l by lia. do 2 f_equal. lia.
Qed.

(** A property of the integers of a small range, checked one by one. *)
Lemma range_check (P : Z -> bool) lo n x :
  forallb P (seqZ lo n) = true -> lo <= x < lo + n -> P x = true.
Proof.
  intros H Hx. rewrite forallb_forall in H. apply H.
  apply list_elem_of_In, elem_of_seqZ. lia.
Qed.

(** An odd factor does not help to divide by a power of two. *)
Lemma pow2_divide_odd (k : nat) m p :
  Z.odd m = true -> (2 ^ Z.of_nat k | m * p) -> (2 ^ Z.of_nat k | p).
Proof.
  intros Hm. induction k as [|k IH]; intros Hd; [apply Z.divide_1_l|].
  rewrite Nat2Z.inj_succ, Z.pow_succ_r in * by lia.
  destruct IH as [q ->].
  { eapply Z.divide_trans; [|exact Hd]. apply Z.divide_factor_r. }
  destruct Hd as [r Hr]. assert (m * q = 2 * r) as E by nia.
  apply (f_equal Z.even) in E. rewrite !Z.even_mul in E. cbn in E.
  rewrite <- Z.negb_odd, Hm in E. cbn in E. apply Z.even_spec in E as [s ->].
  exists s. ring.
Qed.

(** A bit-wise or of disjoint fields is a sum. *)
Lemma lor_shiftl_add x y k :
  0 <= k -> 0 <= y < 2 ^ k -> Z.lor (Z.shiftl x k) y = x * 2 ^ k + y.
Proof.
  intros Hk Hy. rewrite <- Z.shiftl_mul_pow2 by lia.
  assert (Z.land (Z.shiftl x k) y = 0) as Hd.
  { destruct (Z.eqb_spec y 0) as [->|Hy0]; [apply Z.land_0_r|].
    apply Z.bits_inj'. intros n Hn. rewrite Z.land_spec, Z.bits_0.
    destruct (Z.ltb_spec n k).
    - by rewrite Z.shiftl_spec_low.
    - rewrite (Z.bits_above_log2 y n); [apply andb_false_r|lia|].
      enough (Z.log2 y < k) by lia. apply Z.log2_lt_pow2; lia. }
  rewrite <- Z.lxor_lor by done. by rewrite Z.add_nocarry_lxor.
Qed.

Lemma lor_mul_add x y k :
  0 <= k -> 0 <= y < 2 ^ k -> Z.lor (x * 2 ^ k) y = x * 2 ^ k + y.
Proof. intros. rewrite <- (Z.shiftl_mul_pow2 x) at 1 by lia. by apply lor_shiftl_add. Qed.

Lemma land_low x k : 0 <= k -> Z.land x (2 ^ k - 1) = x mod 2 ^ k.
Proof. intros. rewrite <- Z.land_ones, Z.ones_equiv by lia. done. Qed.
End integers.

Section lists.
Context {A : Type}.
Implicit Types (l b : list A).

Lemma rd_ge_0 l i : (0 <= i)%Z -> rd l i = l !! Z.to_nat i.
Proof. intros. unfold rd. zcases; [lia|done]. Qed.

Lemma zlen_app l1 l2 : zlen (l1 ++ l2) = (zlen l1 + zlen l2)%Z.
Proof. unfold zlen. rewrite length_app. lia. Qed.

Lemma zlen_nil : zlen (@nil A) = 0%Z.
Proof. done. Qed.

Lemma zlen_cons x l : zlen (x :: l) = (1 + zlen l)%Z.
Proof. unfold zlen. cbn [length]. lia. Qed.

Lemma zlen_nonneg l : (0 <= zlen l)%Z.
Proof. unfold zlen. lia. Qed.

Lemma write_at_all l (bytes : list A) i :
  (0 <= i)%Z -> (i + zlen bytes <= zlen l)%Z ->
  write_at l i bytes =
  Some (take (Z.to_nat i) l ++ bytes ++ drop (Z.to_nat i + length bytes) l).
Proof.
  unfold zlen, write_at. intros.
  by rewrite (proj2 (Z.ltb_ge i 0)), (proj2 (Z.ltb_ge _ (i + _))) by lia.
Qed.

Lemma delete_insert_same l i x : delete i (<[i:=x]> l) = delete i l.
Proof. revert i. induction l as [|y l IH]; intros [|i]; [done..|]. exact (f_equal (cons y) (IH i)). Qed.

(** Replacing an element, up to the order. *)
Lemma insert_Permutation l i x y :
  l !! i = Some y -> l ≡ₚ y :: delete i l /\ <[i:=x]> l ≡ₚ x :: delete i l.
Proof.
  intros H. split; [by apply delete_Permutation|].
  rewrite (delete_Permutation (<[i:=x]> l) i x)
    by (apply list_lookup_insert_eq; by eapply lookup_lt_Some).
  by rewrite delete_insert_same.
Qed.

Lemma filter_all (P : A -> Prop) `{!forall x, Decision (P x)} l : Forall P l -> filter P l = l.
Proof. induction 1 as [|x l Hx _ IH]; [done|]. by rewrite filter_cons_True, IH. Qed.

Lemma filter_no (P : A -> Prop) `{!forall x, Decision (P x)} l :
  Forall (fun x => ~ P x) l -> filter P l = [].
Proof. induction 1 as [|x l Hx _ IH]; [done|]. by rewrite filter_cons_False. Qed.

Section filter_insert.
Context (P : A -> Prop) `{!forall x, Decision (P x)} (l : list A) (i : nat) (x y : A).
Context (Hl : l !! i = Some y).

Lemma filter_insert_split :
  filter P l ≡ₚ filter P (y :: delete i l) /\ filter P (<[i:=x]> l) ≡ₚ filter P (x :: delete i l).
Proof.
  destruct (insert_Permutation l i x y Hl) as [E1 E2].
  split; by apply (filter_Permutation P).
Qed.

Lemma filter_insert_add : ~ P y -> P x -> filter P (<[i:=x]> l) ≡ₚ x :: filter P l.
Proof.
  intros Hy Hx. destruct filter_insert_split as [-> ->].
  by rewrite filter_cons_True, filter_cons_False.
Qed.

Lemma filter_insert_remove : P y -> ~ P x -> filter P l ≡ₚ y :: filter P (<[i:=x]> l).
Proof.
  intros Hy Hx. destruct filter_insert_split as [-> ->].
  by rewrite filter_cons_True, filter_cons_False.
Qed.

Lemma filter_insert_replace :
  P y -> P x -> exists rest, filter P l ≡ₚ y :: rest /\ filter P (<[i:=x]> l) ≡ₚ x :: rest.
Proof.
  intros Hy Hx. exists (filter P (delete i l)). destruct filter_insert_split as [-> ->].
  by rewrite !filter_cons_True.
Qed.

Lemma filter_insert_none : ~ P y -> ~ P x -> filter P (<[i:=x]> l) ≡ₚ filter P l.
Proof.
  intros Hy Hx. destruct filter_insert_split as [-> ->]. by rewrite !filter_cons_False.
Qed.
End filter_insert.

Lemma wr_all l (x : A) i :
  (0 <= i < zlen l)%Z -> wr l i x = Some (<[Z.to_nat i := x]> l).
Proof.
  unfold zlen, wr. intros.
  by rewrite (proj2 (Z.ltb_ge i 0)), (proj2 (Z.leb_gt _ i)) by lia.
Qed.

(** Writing at the end of the part that is in use. *)
Lemma write_at_app l1 l2 (bytes : list A) :
  length bytes <= length l2 ->
  write_at (l1 ++ l2) (zlen l1) bytes = Some (l1 ++ bytes ++ drop (length bytes) l2).
Proof.
  intros. rewrite write_at_all.
  - unfold zlen. rewrite Nat2Z.id, take_app_length.
    by rewrite drop_app_ge, Nat.add_comm, Nat.add_sub by lia.
  - apply zlen_nonneg.
  - rewrite zlen_app. unfold zlen. lia.
Qed.

(** The cells [l] stand in [b] at [off]. *)
Definition holds b (off : Z) l : Prop := exists pre post, b = pre ++ l ++ post /\ zlen pre = off.

Lemma holds_block b off l : holds b off l -> cells_at b off (zlen l) = Some l.
Proof.
  intros (pre & post & -> & <-). pose proof (zlen_nonneg pre). pose proof (zlen_nonneg l).
  unfold cells_at. rewrite !zlen_app. pose proof (zlen_nonneg post).
  destruct (Z.ltb_spec (zlen pre) 0); [lia|]. destruct (Z.ltb_spec (zlen l) 0); [lia|].
  destruct (Z.ltb_spec (zlen pre + (zlen l + zlen post)) (zlen pre + zlen l)); [lia|].
  cbn [orb]. unfold zlen. rewrite !Nat2Z.id, drop_app_length, take_app_length. done.
Qed.

Lemma holds_app b off l1 l2 : holds b off (l1 ++ l2) -> holds b off l1 /\ holds b (off + zlen l1) l2.
Proof.
  intros (pre & post & -> & <-). split.
  - exists pre, (l2 ++ post). by rewrite <- !app_assoc.
  - exists (pre ++ l1), post. by rewrite zlen_app, <- !app_assoc.
Qed.

Lemma holds_cons b off x l : holds b off (x :: l) -> rd b off = Some x /\ holds b (off + 1) l.
Proof.
  intros Hh. destruct (holds_app b off [x] l Hh) as [H1 H2]. split; [|done].
  destruct H1 as (pre & post & -> & <-). rewrite rd_ge_0 by apply zlen_nonneg.
  unfold zlen. by rewrite Nat2Z.id, lookup_app_r, Nat.sub_diag by lia.
Qed.

Lemma holds_join b off l1 l2 : holds b off l1 -> holds b (off + zlen l1) l2 -> holds b off (l1 ++ l2).
Proof.
  intros (pre & post & E & Hp) (pre' & post' & E' & Hp').
  rewrite E, app_assoc in E'. apply app_inj_1 in E' as [_ ->].
  - exists pre, post'. by rewrite E, <- app_assoc.
  - rewrite length_app. unfold zlen in *. lia.
Qed.

Lemma rd_holds b off x : rd b off = Some x -> holds b off [x].
Proof.
  unfold rd. destruct (Z.ltb_spec off 0); [done|]. intros E.
  exists (take (Z.to_nat off) b), (drop (S (Z.to_nat off)) b). split.
  - symmetry. exact (take_drop_middle b _ x E).
  - apply lookup_lt_Some in E. unfold zlen. rewrite length_take. lia.
Qed.

Lemma holds_bounds b off l : holds b off l -> (0 <= off /\ off + zlen l <= zlen b)%Z.
Proof.
  intros (pre & post & -> & <-). rewrite !zlen_app. pose proof (zlen_nonneg pre).
  pose proof (zlen_nonneg post). lia.
Qed.

Lemma holds_all l : holds l 0 l.
Proof. exists [], []. by rewrite app_nil_r. Qed.
End lists.

Section little_endian.
Local Open Scope Z_scope.

Lemma le_bytes_length n x : length (le_bytes n x) = n.
Proof. revert x. induction n as [|n IH]; intros x; cbn [le_bytes length]; [done|]. by rewrite IH. Qed.

Lemma le_value_range l : Forall is_byte l -> 0 <= le_value l < 256 ^ zlen l.
Proof.
  induction 1 as [|b l Hb _ IH]; [done|]. cbn [le_value]. rewrite zlen_cons, Z.pow_add_r by (pose proof (zlen_nonneg l); lia).
  unfold is_byte in Hb. lia.
Qed.

Lemma zlen_le_bytes n v : zlen (le_bytes n v) = Z.of_nat n.
Proof. revert v. induction n as [|n IH]; intros v; [done|]. cbn [le_bytes]. rewrite zlen_cons, IH. lia. Qed.
Lemma le_bytes_value n v : 0 <= v < 256 ^ Z.of_nat n -> le_value (le_bytes n v) = v.
Proof.
  revert v. induction n as [|n IH]; intros v Hv; cbn [le_bytes le_value]; [cbn in Hv; lia|].
  rewrite Nat2Z.inj_succ, Z.pow_succ_r in Hv by lia. rewrite IH; [pose proof (Z.div_mod v 256); lia|].
  split; [apply Z.div_pos; lia|apply Z.div_lt_upper_bound; lia].
Qed.
Lemma le_bytes_ok n v : Forall is_byte (le_bytes n v).
Proof.
  revert v. induction n as [|n IH]; intros v; constructor; [|apply IH]. apply Z.mod_pos_bound. lia.
Qed.
End little_endian.

Lemma cstr_app_nul l rest : Forall (fun b => b <> 0%Z) l -> cstr (l ++ 0%Z :: rest) = l.
Proof.
  induction 1 as [|b l Hb _ IH]; simpl; [done|].
  destruct (Z.eqb_spec b 0); [done|]. by rewrite IH.
Qed.

#[export] Hint Rewrite @length_app @length_take @length_drop @length_replicate
  @length_insert @length_fmap @zlen_app @zlen_cons @zlen_nil : xpl.
