(* ===== verification/Base64.v ===== *)
(** * Base64 encoding and decoding: src/glib/gbase64.c

    The incremental coder: an encoder step that buffers at most two input
    bytes in [save], the closing step that pads, and the decoder step that
    buffers up to three sextets. Bytes are integers; an output buffer is the
    list of the bytes written to it. *)

From S2P Require Import Prelude.
Local Open Scope Z_scope.
Local Open Scope xpl_scope.

Definition base64_alphabet : list Z := Eval vm_compute in ascii_bytes
  "ABCDEFGHIJKLMNOPQRSTUVWXYZabcdefghijklmnopqrstuvwxyz0123456789+/".

Definition mime_base64_rank : list Z := [
  255;255;255;255;255;255;255;255;255;255;255;255;255;255;255;255;
  255;255;255;255;255;255;255;255;255;255;255;255;255;255;255;255;
  255;255;255;255;255;255;255;255;255;255;255; 62;255;255;255; 63;
   52; 53; 54; 55; 56; 57; 58; 59; 60; 61;255;255;255;  0;255;255;
  255;  0;  1;  2;  3;  4;  5;  6;  7;  8;  9; 10; 11; 12; 13; 14;
   15; 16; 17; 18; 19; 20; 21; 22; 23; 24; 25;255;255;255;255;255;
  255; 26; 27; 28; 29; 30; 31; 32; 33; 34; 35; 36; 37; 38; 39; 40;
   41; 42; 43; 44; 45; 46; 47; 48; 49; 50; 51;255;255;255;255;255;
  255;255;255;255;255;255;255;255;255;255;255;255;255;255;255;255;
  255;255;255;255;255;255;255;255;255;255;255;255;255;255;255;255;
  255;255;255;255;255;255;255;255;255;255;255;255;255;255;255;255;
  255;255;255;255;255;255;255;255;255;255;255;255;255;255;255;255;
  255;255;255;255;255;255;255;255;255;255;255;255;255;255;255;255;
  255;255;255;255;255;255;255;255;255;255;255;255;255;255;255;255;
  255;255;255;255;255;255;255;255;255;255;255;255;255;255;255;255;
  255;255;255;255;255;255;255;255;255;255;255;255;255;255;255;255].

(** ** Encoder *)

(** The [int] that [save] points to is used as four bytes: the number of
    pending input bytes, then those bytes. *)
Definition save0 : list Z := [0; 0; 0; 0].

(** One turn of the encoding loop, from the label [skip2] on: the four
    characters of a group, a line break after nineteen groups. *)
Definition encode_group (break_lines : bool) (already c1 c2 c3 : Z) : list Z * Z :=
  let group :=
    [tbl base64_alphabet (c1 >> 2);
     tbl base64_alphabet ((c2 >> 4) or ((c1 & 3) << 4));
     tbl base64_alphabet (((c2 & 15) << 2) or (c3 >> 6));
     tbl base64_alphabet (c3 & 63)] in
  if break_lines then
    let already := already + 1 in
    if 19 <=? already then (group ++ [10], 0) else (group, already)
  else (group, already).

(** [while (inptr < inend)]: at least three bytes are left. The result is the
    output, the line position and the input that is left. *)
Fixpoint encode_loop (break_lines : bool) (already : Z) (inp : list Z)
  : list Z * Z * list Z :=
  match inp with
  | c1 :: c2 :: c3 :: rest =>
      let '(o, already) := encode_group break_lines already c1 c2 c3 in
      let '(os, already, remaining) := encode_loop break_lines already rest in
      (o ++ os, already, remaining)
  | _ => ([], already, inp)
  end.

(** The jumps into the loop: the bytes of [save] stand in for the first ones. *)
Definition encode_enter (break_lines : bool) (already : Z) (save inp : list Z)
  : list Z * Z * list Z :=
  match tbl save 0, inp with
  | 1, c2 :: c3 :: rest =>
      let '(o, already) := encode_group break_lines already (tbl save 1) c2 c3 in
      let '(os, already, remaining) := encode_loop break_lines already rest in
      (o ++ os, already, remaining)
  | 2, c3 :: rest =>
      let '(o, already) := encode_group break_lines already (tbl save 1) (tbl save 2) c3 in
      let '(os, already, remaining) := encode_loop break_lines already rest in
      (o ++ os, already, remaining)
  | _, _ => encode_loop break_lines already inp
  end.

(** [switch (len)] at the end: the bytes left go to the free slots of [save]. *)
Definition encode_stash (save inp : list Z) : list Z :=
  let slot := Z.to_nat (1 + tbl save 0) in
  let save :=
    match inp with
    | [a] => <[slot := a]> save
    | [a; b] => <[S slot := b]> (<[slot := a]> save)
    | _ => save
    end in
  <[O := tbl save 0 + zlen inp]> save.

Definition g_base64_encode_step (inp : list Z) (break_lines : bool) (state : Z)
    (save : list Z) : list Z * Z * list Z :=
  if zlen inp =? 0 then ([], state, save)
  else
    let '(out, state, save, inp) :=
      if 2 <? zlen inp + tbl save 0 then
        let '(out, already, remaining) := encode_enter break_lines state save inp in
        (out, already, <[O := 0]> save, remaining)
      else ([], state, save, inp) in
    (out, state, encode_stash save inp).

Definition g_base64_encode_close (break_lines : bool) (state : Z) (save : list Z)
  : list Z * Z * list Z :=
  let c1 := tbl save 1 in
  let c2 := tbl save 2 in
  let tail (c2 out2 : Z) :=
    [tbl base64_alphabet (c1 >> 2);
     tbl base64_alphabet ((c2 >> 4) or ((c1 & 3) << 4)); out2; 61] in
  let out :=
    if tbl save 0 =? 2 then tail c2 (tbl base64_alphabet ((c2 & 15) << 2))
    else if tbl save 0 =? 1 then tail 0 61
    else [] in
  (out ++ (if break_lines then [10] else []), 0, save0).

(** The whole of [data] in one go: [None] when a write leaves the buffer,
    [Some None] for the [NULL] of input that is too long.
    [outlen] is an [int], whatever the length of the output. *)
Definition encode_limit : Z := ((2 ^ 64 - 1 - 1) / 4 - 1) * 3.
Definition g_base64_encode (data : list Z) : option (option (list Z)) :=
  let len := zlen data in
  if len <? encode_limit then
    let out := replicate (Z.to_nat ((len / 3 + 1) * 4 + 1)) 0 in
    let '(o1, state, save) := g_base64_encode_step data false 0 save0 in
    out ← write_at out 0 o1;
    let outlen := i32 (zlen o1) in
    let '(o2, _, _) := g_base64_encode_close false state save in
    out ← write_at out outlen o2;
    let outlen := i32 (outlen + zlen o2) in
    out ← write_at out outlen [0];
    Some (Some (cstr out))
  else Some None.

(** ** Decoder *)

Record decoder := Decoder { d_v : Z; d_i : Z; d_last0 : Z; d_last1 : Z }.

(** One turn of the decoding loop on the input byte [c]. *)
Definition decode_char (d : decoder) (c : Z) : list Z * decoder :=
  let rank := tbl mime_base64_rank c in
  if rank =? 255 then ([], d)
  else
    let last1 := d_last0 d in
    let last0 := c in
    let v := u32 (d_v d << 6) or rank in
    let i := d_i d + 1 in
    if i =? 4 then
      ([u8 (v >> 16)] ++ (if last1 =? 61 then [] else [u8 (v >> 8)])
                      ++ (if last0 =? 61 then [] else [u8 v]),
       Decoder v 0 last0 last1)
    else ([], Decoder v i last0 last1).

Fixpoint decode_loop (d : decoder) (inp : list Z) : list Z * decoder :=
  match inp with
  | [] => ([], d)
  | c :: inp =>
      let '(o, d) := decode_char d c in
      let '(os, d) := decode_loop d inp in
      (o ++ os, d)
  end.

(** The local variables at the start of the loop, and what is saved at its end. *)
Definition decode_open (state save : Z) : decoder :=
  if state <? 0 then Decoder save (- state) 61 0 else Decoder save state 0 0.

Definition decode_save (d : decoder) : Z * Z :=
  ((if d_last0 d =? 61 then - d_i d else d_i d), d_v d).

Definition g_base64_decode_step (inp : list Z) (state save : Z) : list Z * Z * Z :=
  if zlen inp =? 0 then ([], state, save)
  else
    let '(out, d) := decode_loop (decode_open state save) inp in
    let '(state, save) := decode_save d in
    (out, state, save).

(** [text] is the string without its terminator; [None] when the output does
    not fit the buffer that is allocated. *)
Definition g_base64_decode (text : list Z) : option (list Z) :=
  let input_length := zlen text in
  let '(out, _, _) := g_base64_decode_step text 0 0 in
  ret ← write_at (replicate (Z.to_nat (input_length / 4 * 3 + 1)) 0) 0 out;
  Some (take (length out) ret).

(** Decoding in place: the decoder loop with input and output in one buffer
    [buf], the reads at [r] and the writes at [w]. *)
Fixpoint decode_loop_inplace (n : nat) (d : decoder) (buf : list Z) (r w : Z)
  : option (list Z * Z * decoder) :=
  match n with
  | O => Some (buf, w, d)
  | S n =>
      c ← rd buf r;
      let '(o, d) := decode_char d c in
      buf ← write_at buf w o;
      decode_loop_inplace n d buf (r + 1) (w + zlen o)
  end.

(** The length of the string is stored in an [int]; [Some None] is [NULL]. A
    negative length would do nothing but fail the check. *)
Definition g_base64_decode_inplace (text : list Z) : option (option (list Z * Z)) :=
  let input_length := i32 (zlen text) in
  if 1 <? input_length then
    '(buf, w, _) ← decode_loop_inplace (Z.to_nat input_length) (decode_open 0 0) (text ++ [0]) 0 0;
    Some (Some (buf, w))
  else Some None.

(** ** What the steps compute, as specifications *)

(** The bytes an encoder holds back, and the states it can be in. *)
Definition pending (save : list Z) : list Z :=
  take (Z.to_nat (tbl save 0)) [tbl save 1; tbl save 2].

Definition save_ok (save : list Z) : Prop :=
  length save = 4%nat /\ 0 <= tbl save 0 <= 2.

(** Feeding the chunks one by one, then closing. *)
Fixpoint encode_chunks (break_lines : bool) (state : Z) (save : list Z)
    (chunks : list (list Z)) : list Z :=
  match chunks with
  | [] => (g_base64_encode_close break_lines state save).1.1
  | c :: chunks =>
      let '(o, state, save) := g_base64_encode_step c break_lines state save in
      o ++ encode_chunks break_lines state save chunks
  end.

Fixpoint decode_chunks (state save : Z) (chunks : list (list Z)) : list Z * Z * Z :=
  match chunks with
  | [] => ([], state, save)
  | c :: chunks =>
      let '(o, state, save) := g_base64_decode_step c state save in
      let '(os, state, save) := decode_chunks state save chunks in
      (o ++ os, state, save)
  end.

(** A character of the alphabet, its rank, and the characters it is not. *)
Definition sextet_ok (x : Z) : bool :=
  let a := tbl base64_alphabet x in
  (tbl mime_base64_rank a =? x) && negb (a =? 61) && negb (a =? 0).

Definition b64_char (c : Z) : Prop := c <> 0.

(** Decoders that differ only in the characters they can no longer look at. *)
Definition decoder_eq (d d' : decoder) : Prop :=
  d_v d = d_v d' /\ d_i d = d_i d' /\ 0 <= d_i d < 4 /\
  (d_i d <> 0 -> (d_last0 d =? 61) = (d_last0 d' =? 61)).

(** ** The encoder *)

Lemma list_ind3 (P : list Z -> Prop) :
  P [] -> (forall a, P [a]) -> (forall a b, P [a; b]) ->
  (forall a b c l, P l -> P (a :: b :: c :: l)) -> forall l, P l.
Proof.
  intros H0 H1 H2 H3. fix IH 1. intros [|a [|b [|c l]]]; [exact H0|apply H1|apply H2|apply H3, IH].
Qed.

Lemma encode_loop_app b al x y :
  encode_loop b al (x ++ y) =
  let '(o1, al1, r1) := encode_loop b al x in
  let '(o2, al2, r2) := encode_loop b al1 (r1 ++ y) in
  (o1 ++ o2, al2, r2).
Proof.
  revert al. induction x as [|c1|c1 c2|c1 c2 c3 x IH] using list_ind3; intros al.
  1-3: match goal with |- encode_loop ?b ?al ?l = _ =>
         change (encode_loop b al l =
           let '(o2, al2, r2) := encode_loop b al l in ([] ++ o2, al2, r2));
         by destruct (encode_loop b al l) as [[??]?] end.
  cbn [encode_loop app]. destruct (encode_group b al c1 c2 c3) as [o al']. rewrite IH.
  destruct (encode_loop b al' x) as [[o1 al1] r1]; cbn.
  destruct (encode_loop b al1 (r1 ++ y)) as [[o2 al2] r2]. by rewrite app_assoc.
Qed.

Lemma encode_loop_rest b al x : (length (encode_loop b al x).2 <= 2)%nat.
Proof.
  revert al. induction x as [| | |c1 c2 c3 x IH] using list_ind3; intros al; cbn; try lia.
  destruct (encode_group b al c1 c2 c3) as [o al']. specialize (IH al').
  by destruct (encode_loop b al' x) as [[o1 al1] r1].
Qed.

Lemma save_ok_inv save :
  save_ok save -> exists n x y z, save = [n; x; y; z] /\ (n = 0 \/ n = 1 \/ n = 2).
Proof.
  intros [Hl Hn]. destruct save as [|n [|x [|y [|z [|??]]]]]; try discriminate Hl.
  exists n, x, y, z. change (0 <= n <= 2) in Hn. split; [done|lia].
Qed.

(** Storing at most two bytes after none: they are what is then pending. *)
Lemma encode_stash_empty x y z r :
  (length r <= 2)%nat ->
  save_ok (encode_stash [0; x; y; z] r) /\ pending (encode_stash [0; x; y; z] r) = r.
Proof.
  destruct r as [|a [|b [|? ?]]]; cbn; intros; try lia; repeat split; cbn; try lia; done.
Qed.

Lemma encode_enter_loop b al n x y z inp :
  (n = 0 \/ n = 1 \/ n = 2) -> 2 < zlen inp + n ->
  encode_enter b al [n; x; y; z] inp = encode_loop b al (pending [n; x; y; z] ++ inp).
Proof.
  unfold zlen. intros [->|[->| ->]] Hlen; [done| |].
  - destruct inp as [|c2 [|c3 inp]]; cbn in *; try lia. done.
  - destruct inp as [|c3 inp]; cbn in *; try lia. done.
Qed.

(** One step is the loop on the pending bytes followed by the chunk. *)
Lemma encode_step_loop inp b st save o st' save' :
  save_ok save ->
  g_base64_encode_step inp b st save = (o, st', save') ->
  encode_loop b st (pending save ++ inp) = (o, st', pending save') /\ save_ok save'.
Proof.
  intros Hok. destruct (save_ok_inv _ Hok) as (n & x & y & z & -> & Hn).
  unfold g_base64_encode_step. destruct (Z.eqb_spec (zlen inp) 0) as [H0|H0].
  { intros [= <- <- <-]. assert (inp = []) as -> by (unfold zlen in H0; by destruct inp).
    rewrite app_nil_r. split; [|done].
    destruct Hn as [->|[->| ->]]; reflexivity. }
  change (tbl [n; x; y; z] 0) with n. destruct (Z.ltb_spec 2 (zlen inp + n)) as [H2|H2].
  - rewrite encode_enter_loop by done.
    pose proof (encode_loop_rest b st (pending [n; x; y; z] ++ inp)) as Hr.
    destruct (encode_loop _ _ _) as [[o1 al1] r1]; cbn in Hr. intros [= <- <- <-].
    destruct (encode_stash_empty x y z r1 Hr) as [Hs Hp]. cbn [insert list_insert].
    by rewrite Hp.
  - intros [= <- <- <-]. unfold zlen in *.
    destruct Hn as [->|[->| ->]]; destruct inp as [|c1 [|c2 [|??]]]; cbn in *; try lia;
      (split; [done|repeat split; by vm_compute]).
Qed.

Lemma encode_chunks_loop b st save chunks :
  save_ok save ->
  encode_chunks b st save chunks =
  let '(o, _, r) := encode_loop b st (pending save ++ concat chunks) in
  o ++ (g_base64_encode_close b 0 (encode_stash save0 r)).1.1.
Proof.
  revert st save. induction chunks as [|c chunks IH]; intros st save Hok; cbn [encode_chunks concat].
  - destruct (save_ok_inv _ Hok) as (n & x & y & z & -> & [->|[->| ->]]); done.
  - destruct (g_base64_encode_step c b st save) as [[o1 st1] save1] eqn:E.
    destruct (encode_step_loop _ _ _ _ _ _ _ Hok E) as [Hl Hok1].
    rewrite app_assoc, encode_loop_app, Hl, IH by done.
    destruct (encode_loop b st1 _) as [[o2 al2] r2]. by rewrite app_assoc.
Qed.

(** ** The decoder *)

Lemma decode_loop_app d x y :
  decode_loop d (x ++ y) =
  let '(o1, d1) := decode_loop d x in
  let '(o2, d2) := decode_loop d1 y in (o1 ++ o2, d2).
Proof.
  revert d. induction x as [|c x IH]; intros d; cbn [app decode_loop].
  - by destruct (decode_loop d y).
  - destruct (decode_char d c) as [o d']. rewrite IH.
    destruct (decode_loop d' x) as [o1 d1]. destruct (decode_loop d1 y) as [o2 d2].
    by rewrite app_assoc.
Qed.

Lemma alphabet_rank x :
  0 <= x < 64 ->
  let a := tbl base64_alphabet x in
  tbl mime_base64_rank a = x /\ a <> 61 /\ a <> 0.
Proof.
  intros Hx a. subst a.
  assert (Forall (fun n => sextet_ok (Z.of_nat n) = true) (seq 0 64)) as HF
    by (repeat constructor).
  rewrite Forall_forall in HF. specialize (HF (Z.to_nat x)).
  rewrite Z2Nat.id in HF by lia.
  assert (sextet_ok x = true) as Hs by (apply HF, elem_of_seq; lia).
  unfold sextet_ok in Hs. zprops. done.
Qed.

(** The accumulator takes in a sextet: its low bits move up by six. *)
Lemma accum_low k v r :
  0 <= k <= 26 -> 0 <= r < 64 ->
  Z.lor (u32 (Z.shiftl v 6)) r mod 2 ^ (k + 6) = v mod 2 ^ k * 64 + r.
Proof.
  intros Hk Hr. unfold wrap. rewrite Z.shiftl_mul_pow2 by lia.
  replace (v * 2 ^ 6 mod 2 ^ 32) with (v mod 2 ^ 26 * 2 ^ 6)
    by (change (2 ^ 32) with (2 ^ 26 * 2 ^ 6); by rewrite Z.mul_mod_distr_r by lia).
  rewrite lor_mul_add by lia.
  rewrite (Z.pow_add_r 2 k 6) by lia. rewrite Z.add_mod, Z.mul_mod_distr_r by lia.
  assert (0 < 2 ^ k) by lia.
  assert ((v mod 2 ^ 26) mod 2 ^ k = v mod 2 ^ k) as ->.
  { apply Z.mod_mod_divide. exists (2 ^ (26 - k)). rewrite <- Z.pow_add_r by lia. f_equal. lia. }
  pose proof (Z.mod_pos_bound v (2 ^ k) ltac:(lia)).
  rewrite (Z.mod_small r) by nia. rewrite Z.mod_small by nia. done.
Qed.

Lemma decode_char_mid d c :
  tbl mime_base64_rank c <> 255 -> d_i d + 1 <> 4 ->
  decode_char d c =
  ([], Decoder (Z.lor (u32 (Z.shiftl (d_v d) 6)) (tbl mime_base64_rank c)) (d_i d + 1) c (d_last0 d)).
Proof.
  intros Hr Hi. unfold decode_char.
  by rewrite (proj2 (Z.eqb_neq _ 255) Hr), (proj2 (Z.eqb_neq _ 4) Hi).
Qed.

(** What four characters decode to, by their ranks. *)
Lemma decode_group v l0 l1 x1 x2 x3 x4 r1 r2 r3 r4 :
  Forall2 (fun x r => tbl mime_base64_rank x = r /\ 0 <= r < 64) [x1; x2; x3; x4] [r1; r2; r3; r4] ->
  exists v',
  decode_loop (Decoder v 0 l0 l1) [x1; x2; x3; x4] =
  ([r1 * 4 + r2 / 16]
   ++ (if x3 =? 61 then [] else [r2 mod 16 * 16 + r3 / 4])
   ++ (if x4 =? 61 then [] else [r3 mod 4 * 64 + r4]), Decoder v' 0 x4 x3).
Proof.
  intros HF. rewrite !Forall2_cons in HF.
  destruct HF as ([E1 H1] & [E2 H2] & [E3 H3] & [E4 H4] & _).
  cbn [decode_loop]. rewrite !decode_char_mid by (cbn; lia). cbn [d_v d_i d_last0 app].
  unfold decode_char. cbn [d_v d_i d_last0 d_last1].
  rewrite E1, E2, E3, E4, (proj2 (Z.eqb_neq r4 255)) by lia.
  set (v1 := Z.lor (u32 (Z.shiftl v 6)) r1). set (v2 := Z.lor (u32 (Z.shiftl v1 6)) r2).
  set (v3 := Z.lor (u32 (Z.shiftl v2 6)) r3). set (v4 := Z.lor (u32 (Z.shiftl v3 6)) r4).
  assert (v4 mod 2 ^ 24 = ((r1 * 64 + r2) * 64 + r3) * 64 + r4) as Hv.
  { pose proof (accum_low 18 v3 r4 ltac:(lia) H4) as A4.
    pose proof (accum_low 12 v2 r3 ltac:(lia) H3) as A3.
    pose proof (accum_low 6 v1 r2 ltac:(lia) H2) as A2.
    pose proof (accum_low 0 v r1 ltac:(lia) H1) as A1.
    change (2 ^ 0) with 1 in A1. rewrite Z.mod_1_r in A1.
    fold v1 in A1. fold v2 in A2. fold v3 in A3. fold v4 in A4.
    change (18 + 6) with 24 in A4. change (12 + 6) with 18 in A3.
    change (6 + 6) with 12 in A2. change (0 + 6) with 6 in A1. lia. }
  exists v4. change (0 + 1 + 1 + 1 + 1 =? 4) with true. cbv iota beta.
  rewrite app_nil_r. f_equal.
  unfold wrap. rewrite !Z.shiftr_div_pow2 by lia.
  assert ((v4 / 2 ^ 16) mod 2 ^ 8 = r1 * 4 + r2 / 16) as -> by zify_div.
  assert ((v4 / 2 ^ 8) mod 2 ^ 8 = r2 mod 16 * 16 + r3 / 4) as -> by zify_div.
  assert (v4 mod 2 ^ 8 = r3 mod 4 * 64 + r4) as -> by zify_div.
  done.
Qed.

(** *** Reading back what the encoder wrote *)

Lemma land_3 x : Z.land x 3 = x mod 4.
Proof. apply (land_low x 2). lia. Qed.

Lemma land_15 x : Z.land x 15 = x mod 16.
Proof. apply (land_low x 4). lia. Qed.

Lemma land_63 x : Z.land x 63 = x mod 64.
Proof. apply (land_low x 6). lia. Qed.

Lemma shiftr_2 x : Z.shiftr x 2 = x / 4.
Proof. by rewrite Z.shiftr_div_pow2. Qed.

Lemma shiftr_4 x : Z.shiftr x 4 = x / 16.
Proof. by rewrite Z.shiftr_div_pow2. Qed.

Lemma shiftr_6 x : Z.shiftr x 6 = x / 64.
Proof. by rewrite Z.shiftr_div_pow2. Qed.

Lemma encode_group_sextets b al c1 c2 c3 :
  is_byte c1 -> is_byte c2 -> is_byte c3 ->
  exists nl al', (nl = [] \/ nl = [10]) /\ (b = false -> nl = []) /\
  encode_group b al c1 c2 c3 =
  (map (tbl base64_alphabet)
     [c1 / 4; c1 mod 4 * 16 + c2 / 16; c2 mod 16 * 4 + c3 / 64; c3 mod 64] ++ nl, al').
Proof.
  unfold is_byte, encode_group. intros H1 H2 H3. rewrite (Z.lor_comm (c2 >> 4)).
  rewrite land_3, land_15, land_63.
  rewrite shiftr_2, shiftr_4, shiftr_6, !lor_shiftl_add by zify_div.
  cbn [map]. destruct b; [destruct (19 <=? al + 1)|].
  - exists [10], 0. split_and!; auto; done.
  - exists [], (al + 1). rewrite app_nil_r. split_and!; auto; done.
  - exists [], al. rewrite app_nil_r. split_and!; auto; done.
Qed.

Lemma decode_newline d nl : nl = [] \/ nl = [10] -> decode_loop d nl = ([], d).
Proof. by intros [-> | ->]. Qed.

Local Abbreviation alpha := (tbl base64_alphabet).

Lemma decode_sextets v l0 l1 s1 s2 s3 s4 :
  0 <= s1 < 64 -> 0 <= s2 < 64 -> 0 <= s3 < 64 -> 0 <= s4 < 64 ->
  exists d', d_i d' = 0 /\
  decode_loop (Decoder v 0 l0 l1) (map (tbl base64_alphabet) [s1; s2; s3; s4]) =
  ([s1 * 4 + s2 / 16; s2 mod 16 * 16 + s3 / 4; s3 mod 4 * 64 + s4], d').
Proof.
  intros H1 H2 H3 H4.
  destruct (alphabet_rank s1 H1) as (R1 & N1 & _), (alphabet_rank s2 H2) as (R2 & N2 & _),
    (alphabet_rank s3 H3) as (R3 & N3 & _), (alphabet_rank s4 H4) as (R4 & N4 & _).
  cbn [map].
  destruct (decode_group v l0 l1 (alpha s1) (alpha s2) (alpha s3) (alpha s4) s1 s2 s3 s4)
    as [v' ->]; [by rewrite !Forall2_cons|].
  rewrite (proj2 (Z.eqb_neq _ 61) N3), (proj2 (Z.eqb_neq _ 61) N4). eexists; split; [|done]. done.
Qed.

Lemma decode_encode_group b al c1 c2 c3 d :
  is_byte c1 -> is_byte c2 -> is_byte c3 -> d_i d = 0 ->
  exists d', d_i d' = 0 /\ decode_loop d (encode_group b al c1 c2 c3).1 = ([c1; c2; c3], d').
Proof.
  intros H1 H2 H3 Hd.
  destruct (encode_group_sextets b al c1 c2 c3 H1 H2 H3) as (nl & al' & Hnl & _ & ->).
  unfold is_byte in *. destruct d as [v i l0 l1]; cbn in Hd; subst i. cbn [fst].
  edestruct (decode_sextets v l0 l1 (c1 / 4) (c1 mod 4 * 16 + c2 / 16)
    (c2 mod 16 * 4 + c3 / 64) (c3 mod 64)) as (d' & Hd' & E); try zify_div.
  exists d'. split; [done|]. rewrite decode_loop_app, E, decode_newline by done. cbn [app].
  f_equal. repeat f_equal; zify_div.
Qed.

Lemma decode_encode_loop b al x d :
  Forall is_byte x -> d_i d = 0 ->
  let '(o, _, r) := encode_loop b al x in
  exists y d', d_i d' = 0 /\ x = y ++ r /\ decode_loop d o = (y, d').
Proof.
  revert al d. induction x as [|c1|c1 c2|c1 c2 c3 x IH] using list_ind3; intros al d Hx Hd.
  1-3: by exists [], d.
  rewrite !Forall_cons in Hx. destruct Hx as (H1 & H2 & H3 & Hx). cbn [encode_loop].
  destruct (decode_encode_group b al c1 c2 c3 d H1 H2 H3 Hd) as (d1 & Hd1 & E).
  destruct (encode_group b al c1 c2 c3) as [o1 al1]. specialize (IH al1 d1 Hx Hd1).
  destruct (encode_loop b al1 x) as [[o2 al2] r].
  destruct IH as (y & d' & Hd' & -> & E2). exists (c1 :: c2 :: c3 :: y), d'.
  cbn in E. by rewrite decode_loop_app, E, E2.
Qed.

Lemma encode_close_pending b st r :
  (length r <= 2)%nat ->
  (g_base64_encode_close b st (encode_stash save0 r)).1.1 =
  match r with
  | [c1] => [alpha (c1 >> 2); alpha ((0 >> 4) or ((c1 & 3) << 4)); 61; 61]
  | [c1; c2] => [alpha (c1 >> 2); alpha ((c2 >> 4) or ((c1 & 3) << 4));
                 alpha ((c2 & 15) << 2); 61]
  | _ => []
  end ++ (if b then [10] else []).
Proof. destruct r as [|c1 [|c2 [|? ?]]]; cbn [length]; intros; try lia; reflexivity. Qed.

Lemma decode_close b st r d :
  Forall is_byte r -> (length r <= 2)%nat -> d_i d = 0 ->
  exists d', d_i d' = 0 /\
  decode_loop d (g_base64_encode_close b st (encode_stash save0 r)).1.1 = (r, d').
Proof.
  intros Hr Hl Hd. destruct d as [v i l0 l1]; cbn in Hd; subst i.
  rewrite encode_close_pending, decode_loop_app by done.
  assert (forall d', decode_loop d' (if b then [10] else []) = ([], d')) as Hnl
    by (intros; apply decode_newline; destruct b; auto).
  destruct r as [|c1 [|c2 [|? ?]]]; cbn in Hl; try lia.
  - eexists. cbn [decode_loop]. rewrite Hnl. by split; [|cbn; done].
  - rewrite Forall_singleton in Hr. unfold is_byte in Hr.
    rewrite Z.lor_0_l, land_3, shiftr_2, Z.shiftl_mul_pow2 by lia.
    destruct (alphabet_rank (c1 / 4) ltac:(zify_div)) as (R1 & _).
    destruct (alphabet_rank (c1 mod 4 * 2 ^ 4) ltac:(zify_div)) as (R2 & _).
    destruct (decode_group v l0 l1 (alpha (c1 / 4)) (alpha (c1 mod 4 * 2 ^ 4)) 61 61
      (c1 / 4) (c1 mod 4 * 2 ^ 4) 0 0) as [v' ->].
    { rewrite !Forall2_cons. split_and!; done || zify_div. }
    eexists. cbv beta iota. rewrite Hnl.
    split; [|cbn [Z.eqb Pos.eqb app]; repeat f_equal; zify_div]. done.
  - rewrite !Forall_cons in Hr. destruct Hr as (H1 & H2 & _). unfold is_byte in *.
    rewrite (Z.lor_comm (c2 >> 4)), land_3, land_15.
    rewrite shiftr_2, shiftr_4, lor_shiftl_add, Z.shiftl_mul_pow2 by zify_div.
    destruct (alphabet_rank (c1 / 4) ltac:(zify_div)) as (R1 & _).
    destruct (alphabet_rank (c1 mod 4 * 2 ^ 4 + c2 / 16) ltac:(zify_div)) as (R2 & _).
    destruct (alphabet_rank (c2 mod 16 * 2 ^ 2) ltac:(zify_div)) as (R3 & N3 & _).
    destruct (decode_group v l0 l1 (alpha (c1 / 4)) (alpha (c1 mod 4 * 2 ^ 4 + c2 / 16))
      (alpha (c2 mod 16 * 2 ^ 2)) 61 (c1 / 4) (c1 mod 4 * 2 ^ 4 + c2 / 16)
      (c2 mod 16 * 2 ^ 2) 0) as [v' ->].
    { rewrite !Forall2_cons. split_and!; done || zify_div. }
    rewrite (proj2 (Z.eqb_neq _ 61) N3).
    eexists. cbv beta iota. rewrite Hnl.
    split; [|cbn [Z.eqb Pos.eqb app]; repeat f_equal; zify_div]. done.
Qed.

(** *** Resuming a decoder from what it saved

    Decoders equal in that sense behave alike. *)

#[export] Instance decoder_eq_sym : Symmetric decoder_eq.
Proof.
  intros d d' (H1 & H2 & H3 & H4). repeat split; lia.
Qed.

#[export] Instance decoder_eq_trans : Transitive decoder_eq.
Proof.
  intros d1 d2 d3 (A1 & A2 & A3 & A4) (B1 & B2 & B3 & B4).
  repeat split; lia.
Qed.

Lemma decode_char_eq d d' c :
  decoder_eq d d' ->
  (decode_char d c).1 = (decode_char d' c).1 /\
  decoder_eq (decode_char d c).2 (decode_char d' c).2.
Proof.
  intros (Hv & Hi & Hr & Hl). unfold decode_char. rewrite <- Hv, <- Hi.
  destruct (_ =? 255); [by split_and!|].
  destruct (Z.eqb_spec (d_i d + 1) 4) as [H4|H4]; cbn.
  - rewrite Hl by lia. repeat split; cbn; lia || done.
  - repeat split; cbn; lia || done.
Qed.

Lemma decode_loop_eq d d' x :
  decoder_eq d d' ->
  (decode_loop d x).1 = (decode_loop d' x).1 /\
  decoder_eq (decode_loop d x).2 (decode_loop d' x).2.
Proof.
  revert d d'. induction x as [|c x IH]; intros d d' Hd; cbn [decode_loop]; [done|].
  destruct (decode_char_eq d d' c Hd) as [Ho Hd1].
  destruct (decode_char d c) as [o1 d1], (decode_char d' c) as [o1' d1']; cbn in Ho, Hd1; subst.
  destruct (IH _ _ Hd1) as [Ho2 Hd2].
  destruct (decode_loop d1 x), (decode_loop d1' x); cbn in *. by subst.
Qed.

Lemma decode_save_eq d d' : decoder_eq d d' -> decode_save d = decode_save d'.
Proof.
  intros (Hv & Hi & Hr & Hl). unfold decode_save. rewrite <- Hv, <- Hi. f_equal.
  destruct (Z.eqb_spec (d_i d) 0) as [->|H0]; [by repeat case_match|]. by rewrite Hl.
Qed.

Lemma decode_open_save d :
  0 <= d_i d < 4 -> decoder_eq (let '(st, sv) := decode_save d in decode_open st sv) d.
Proof.
  intros Hi. unfold decode_save, decode_open.
  destruct (Z.eqb_spec (d_last0 d) 61) as [Hl|Hl].
  - destruct (Z.ltb_spec (- d_i d) 0); repeat split; cbn; lia.
  - rewrite (proj2 (Z.ltb_ge (d_i d) 0)) by lia.
    repeat split; cbn; lia.
Qed.

Lemma decode_save_open st sv : -4 < st < 4 -> decode_save (decode_open st sv) = (st, sv).
Proof. intros. unfold decode_open, decode_save. destruct (Z.ltb_spec st 0); cbn; f_equal; lia. Qed.

Lemma decode_open_range st sv : -4 < st < 4 -> 0 <= d_i (decode_open st sv) < 4.
Proof. intros. unfold decode_open. zcases; cbn; lia. Qed.

Lemma decoder_eq_refl d : 0 <= d_i d < 4 -> decoder_eq d d.
Proof. by intros. Qed.

Lemma decode_loop_range d x : 0 <= d_i d < 4 -> 0 <= d_i (decode_loop d x).2 < 4.
Proof. intros Hd. by destruct (decode_loop_eq d d x (decoder_eq_refl d Hd)) as [_ (_ & _ & ? & _)]. Qed.

Lemma decode_step_loop inp st sv :
  -4 < st < 4 ->
  g_base64_decode_step inp st sv =
  let '(o, d) := decode_loop (decode_open st sv) inp in (o, (decode_save d).1, (decode_save d).2).
Proof.
  intros Hst. unfold g_base64_decode_step. destruct (Z.eqb_spec (zlen inp) 0) as [H0|H0].
  - destruct inp; [|done]. cbn [decode_loop]. by rewrite decode_save_open.
  - destruct (decode_loop _ inp) as [o d]. by destruct (decode_save d).
Qed.

Lemma decode_save_range d st sv : 0 <= d_i d < 4 -> decode_save d = (st, sv) -> -4 < st < 4.
Proof. intros Hd [= <- _]. destruct (_ =? 61); lia. Qed.

(** *** How much output the input can give *)

Lemma decode_char_groups d c :
  0 <= d_i d < 4 ->
  exists g, 0 <= g /\ zlen (decode_char d c).1 <= 3 * g /\
    4 * g + d_i (decode_char d c).2 <= d_i d + 1 /\ 0 <= d_i (decode_char d c).2 < 4.
Proof.
  intros Hd. unfold decode_char. destruct (_ =? 255).
  { exists 0. cbn. unfold zlen. cbn. lia. }
  destruct (Z.eqb_spec (d_i d + 1) 4).
  - exists 1. unfold zlen. cbn. repeat case_match; cbn; lia.
  - exists 0. unfold zlen. cbn. lia.
Qed.

Lemma decode_loop_groups d x :
  0 <= d_i d < 4 ->
  exists g, 0 <= g /\ zlen (decode_loop d x).1 <= 3 * g /\
    4 * g + d_i (decode_loop d x).2 <= d_i d + zlen x.
Proof.
  revert d. induction x as [|c x IH]; intros d Hd; cbn [decode_loop].
  { exists 0. cbn [fst snd]. change (@zlen Z []) with 0. lia. }
  destruct (decode_char_groups d c Hd) as (g1 & G1 & O1 & R1 & D1).
  destruct (decode_char d c) as [o1 d1]; cbn in *.
  destruct (IH d1 D1) as (g2 & G2 & O2 & R2). destruct (decode_loop d1 x) as [o2 d2]; cbn in *.
  exists (g1 + g2). rewrite zlen_app, zlen_cons. lia.
Qed.

(** Every way to cut the input of the decoder gives the same result. *)
Lemma decode_chunks_loop ks st sv d :
  -4 < st < 4 -> decoder_eq (decode_open st sv) d ->
  decode_chunks st sv ks =
  let '(o, d') := decode_loop d (concat ks) in (o, (decode_save d').1, (decode_save d').2).
Proof.
  revert st sv d. induction ks as [|k ks IH]; intros st sv d Hst Hd; cbn [decode_chunks concat].
  - cbn [decode_loop]. rewrite <- (decode_save_eq _ _ Hd), decode_save_open by done. done.
  - rewrite decode_step_loop, decode_loop_app by done.
    destruct (decode_loop_eq _ _ k Hd) as [Ho Hd1].
    pose proof (decode_loop_range _ k (decode_open_range st sv Hst)) as Hr.
    destruct (decode_loop (decode_open st sv) k) as [o1 d1], (decode_loop d k) as [o1' d1'].
    cbn in Ho, Hd1, Hr. subst o1'. pose proof (decode_open_save d1 Hr) as Hs.
    pose proof (decode_save_range d1 _ _ Hr (surjective_pairing _)) as Hst1.
    rewrite (IH _ _ d1') by (done || (destruct (decode_save d1); by transitivity d1)).
    by destruct (decode_loop d1' (concat ks)).
Qed.

Lemma decode_encode_chunks b chunks :
  Forall is_byte (concat chunks) ->
  (decode_loop (decode_open 0 0) (encode_chunks b 0 save0 chunks)).1 = concat chunks.
Proof.
  intros Hb. rewrite encode_chunks_loop by by split_and!.
  change (pending save0) with (@nil Z). cbn [app].
  pose proof (decode_encode_loop b 0 (concat chunks) (decode_open 0 0) Hb eq_refl) as HL.
  pose proof (encode_loop_rest b 0 (concat chunks)) as HR.
  destruct (encode_loop b 0 (concat chunks)) as [[o al] r]. cbn in HR.
  destruct HL as (y & d' & Hd' & Hy & E). rewrite Hy, Forall_app in Hb.
  destruct (decode_close b 0 r d' (proj2 Hb) HR Hd') as (d2 & _ & E2).
  by rewrite decode_loop_app, E, E2.
Qed.

Lemma decode_step_bounds inp st sv :
  -4 < st < 4 ->
  zlen (g_base64_decode_step inp st sv).1.1 <= 3 * ((Z.abs st + zlen inp) / 4).
Proof.
  intros Hst. rewrite decode_step_loop by done.
  destruct (decode_loop_groups _ inp (decode_open_range st sv Hst)) as (g & Hg & Ho & Hi).
  pose proof (decode_loop_range _ inp (decode_open_range st sv Hst)).
  assert (d_i (decode_open st sv) = Z.abs st) as Ha by (unfold decode_open; zcases; cbn; lia).
  destruct (decode_loop (decode_open st sv) inp) as [o d]. cbn in *. zify_div.
Qed.

(** The buffer that is allocated is large enough. *)
Lemma decode_whole text :
  g_base64_decode text = Some (decode_loop (decode_open 0 0) text).1.
Proof.
  pose proof (decode_step_bounds text 0 0 ltac:(lia)) as Hb. revert Hb.
  unfold g_base64_decode. rewrite decode_step_loop by lia.
  destruct (decode_loop (decode_open 0 0) text) as [o d]. cbn [fst snd]. intros Hb.
  rewrite write_at_all; [|done|].
  { change (Z.to_nat 0) with 0%nat. simpl. by rewrite take_app_length. }
  unfold zlen at 2. rewrite length_replicate. pose proof (zlen_nonneg text). zify_div.
Qed.

(** *** The whole-string functions *)

Lemma encode_loop_shape al x :
  Forall is_byte x ->
  let '(o, _, r) := encode_loop false al x in
  3 * zlen o = 4 * (zlen x - zlen r) /\ (length r <= 2)%nat /\ Forall b64_char o /\ Forall is_byte r.
Proof.
  revert al. induction x as [|c1|c1 c2|c1 c2 c3 x IH] using list_ind3; intros al Hx.
  1-3: cbn [encode_loop]; split_and!; [|cbn [length]; lia|constructor|done]; unfold zlen; cbn [length]; lia.
  rewrite !Forall_cons in Hx. destruct Hx as (H1 & H2 & H3 & Hx). cbn [encode_loop].
  destruct (encode_group_sextets false al c1 c2 c3 H1 H2 H3) as (nl & al' & _ & Hnl & ->).
  rewrite (Hnl eq_refl). specialize (IH al' Hx). destruct (encode_loop false al' x) as [[o al2] r].
  destruct IH as (Hl & Hr & Ho & Hb). unfold is_byte in *. cbn [map app].
  rewrite !zlen_cons. split_and!; [lia|done| |done].
  repeat (apply Forall_cons; split; [apply alphabet_rank; zify_div|]). done.
Qed.

Lemma encode_close_shape st r :
  Forall is_byte r -> (length r <= 2)%nat ->
  let o := (g_base64_encode_close false st (encode_stash save0 r)).1.1 in
  zlen o = (if zlen r =? 0 then 0 else 4) /\ Forall b64_char o.
Proof.
  intros Hr Hl. rewrite encode_close_pending by done. rewrite app_nil_r.
  destruct r as [|c1 [|c2 [|? ?]]]; cbn in Hl; try lia; [done|..];
    rewrite !Forall_cons in Hr; unfold is_byte in Hr; (split; [done|]).
  all: rewrite ?Z.lor_0_l, ?(Z.lor_comm (_ >> 4)), ?land_3, ?land_15, ?shiftr_2, ?shiftr_4.
  all: rewrite ?lor_shiftl_add, ?Z.shiftl_mul_pow2 by zify_div.
  all: repeat (apply Forall_cons; split; [done || (apply alphabet_rank; zify_div)|]); done.
Qed.

Lemma encode_oneshot b data :
  encode_chunks b 0 save0 [data] =
  let '(o1, st, save) := g_base64_encode_step data b 0 save0 in
  o1 ++ (g_base64_encode_close b st save).1.1.
Proof. cbn [encode_chunks]. by destruct (g_base64_encode_step data b 0 save0) as [[o1 st] save]. Qed.

(** The lengths of what [g_base64_encode] has to store. *)
Lemma encode_oneshot_shape data o1 st save :
  Forall is_byte data ->
  g_base64_encode_step data false 0 save0 = (o1, st, save) ->
  let o2 := (g_base64_encode_close false st save).1.1 in
  zlen o1 = 4 * (zlen data / 3) /\ zlen o2 = (if zlen data mod 3 =? 0 then 0 else 4) /\
  Forall b64_char (o1 ++ o2).
Proof.
  intros Hb E.
  destruct (encode_step_loop data false 0 save0 o1 st save ltac:(by split_and!) E) as [HL Hok].
  change (pending save0 ++ data) with data in HL.
  pose proof (encode_loop_shape 0 data Hb) as HS. rewrite HL in HS.
  destruct HS as (H1 & H2 & H3 & H4).
  pose proof (encode_close_shape st _ H4 H2) as [H5 H6].
  assert (g_base64_encode_close false st save =
    g_base64_encode_close false st (encode_stash save0 (pending save))) as Hc.
  { destruct (save_ok_inv _ Hok) as (n & x & y & z & -> & [->|[->| ->]]); done. }
  rewrite <- Hc in H5, H6. cbn zeta. rewrite H5.
  assert (0 <= zlen (pending save) <= 2) by (unfold zlen; lia).
  split_and!; [zify_div| |by apply Forall_app].
  destruct (Z.eqb_spec (zlen (pending save)) 0), (Z.eqb_spec (zlen data mod 3) 0); zify_div.
Qed.

(** Storing the two outputs and the terminator in the buffer. *)
Lemma store_outputs n (o1 o2 : list Z) :
  zlen o1 + zlen o2 + 1 <= Z.of_nat n -> Forall b64_char (o1 ++ o2) ->
  (out ← write_at (replicate n 0) 0 o1;
   out ← write_at out (zlen o1) o2;
   out ← write_at out (zlen o1 + zlen o2) [0];
   Some (Some (cstr out))) = Some (Some (o1 ++ o2)).
Proof.
  unfold zlen. intros Hn Hf.
  pose proof (write_at_app [] (replicate n 0) o1) as W1.
  rewrite length_replicate in W1. cbn [app] in W1.
  change (zlen (@nil Z)) with 0 in W1. rewrite W1 by lia. cbn [mbind option_bind].
  rewrite drop_replicate. fold (zlen o1). rewrite write_at_app by (rewrite length_replicate; lia).
  cbn [mbind option_bind]. rewrite drop_replicate, app_assoc. fold (zlen o2).
  rewrite <- zlen_app, write_at_app by (rewrite length_replicate; cbn; lia).
  cbn [mbind option_bind app]. by rewrite cstr_app_nul.
Qed.

(** *** Decoding in place *)

Lemma write_inplace (kept junk todo o : list Z) :
  (length o <= length junk)%nat ->
  write_at (kept ++ junk ++ todo) (zlen kept) o =
  Some ((kept ++ o) ++ drop (length o) junk ++ todo).
Proof.
  intros H. rewrite write_at_app by (rewrite length_app; lia).
  by rewrite drop_app_le, <- app_assoc by lia.
Qed.

(** The writes stay behind the reads: three bytes out for four in. *)
Lemma decode_loop_inplace_ok todo d kept junk g :
  0 <= d_i d < 4 -> zlen kept <= 3 * g -> 4 * g + d_i d <= zlen kept + zlen junk ->
  exists buf,
  decode_loop_inplace (length todo) d (kept ++ junk ++ todo ++ [0])
    (zlen kept + zlen junk) (zlen kept) =
    Some (buf, zlen (kept ++ (decode_loop d todo).1), (decode_loop d todo).2) /\
  take (length (kept ++ (decode_loop d todo).1)) buf = kept ++ (decode_loop d todo).1.
Proof.
  revert d kept junk g. induction todo as [|c todo IH]; intros d kept junk g Hd Hw Hr;
    cbn [length decode_loop_inplace decode_loop].
  - eexists. cbn [fst]. rewrite app_nil_r. split; [done|]. by rewrite take_app_length.
  - assert (rd (kept ++ junk ++ (c :: todo) ++ [0]) (zlen kept + zlen junk) = Some c) as ->.
    { rewrite rd_ge_0, app_assoc by (unfold zlen; lia). rewrite <- zlen_app. unfold zlen.
      rewrite Nat2Z.id. by apply list_lookup_middle. }
    cbn [mbind option_bind].
    destruct (decode_char_groups d c Hd) as (g1 & G1 & O1 & R1 & D1).
    destruct (decode_char d c) as [o d1]; cbn in O1, R1, D1.
    replace (kept ++ junk ++ (c :: todo) ++ [0]) with (kept ++ (junk ++ [c]) ++ todo ++ [0])
      by (by rewrite <- !app_assoc).
    assert (length o <= length (junk ++ [c]))%nat as Hfit
      by (rewrite length_app; unfold zlen in *; cbn [length]; lia).
    rewrite write_inplace by done. cbn [mbind option_bind].
    destruct (IH d1 (kept ++ o) (drop (length o) (junk ++ [c])) (g + g1)) as (buf & E & T).
    + done.
    + rewrite zlen_app. lia.
    + rewrite zlen_app. unfold zlen in *. rewrite length_drop, length_app in *. cbn [length] in *. lia.
    + exists buf. destruct (decode_loop d1 todo) as [os d2]. cbn [fst snd] in *.
      rewrite (app_assoc kept o os). split; [|done]. rewrite <- E, <- zlen_app.
      f_equal; unfold zlen in *; rewrite length_drop, !length_app in *; cbn [length] in *; lia.
Qed.

(** *** Writes within a buffer, at any offset *)

Lemma write_at_within (buf : list Z) i bytes :
  0 <= i -> i + zlen bytes <= zlen buf -> exists buf', write_at buf i bytes = Some buf' /\ zlen buf' = zlen buf.
Proof.
  intros Hi Hb. rewrite write_at_all by done. eexists. split; [done|]. unfold zlen in *.
  rewrite !length_app, length_take, length_drop. lia.
Qed.

Lemma write_at_negative (buf : list Z) i bytes : i < 0 -> write_at buf i bytes = None.
Proof. intros Hi. unfold write_at. by rewrite (proj2 (Z.ltb_lt _ _) Hi). Qed.

(** The string ends where a NUL was written, or before. *)
Lemma cstr_ends buf i buf' : 0 <= i -> write_at buf i [0] = Some buf' -> zlen (cstr buf') <= i.
Proof.
  intros Hi. unfold write_at. destruct (_ || _) eqn:E; [done|]. intros [= <-]. zprops. cbn [length] in *.
  assert (forall l rest : list Z, (length (cstr (l ++ 0%Z :: rest)) <= length l)%nat) as Hstr.
  { intros l rest. induction l as [|x l IH]; [done|]. cbn. destruct (x =? 0); cbn; lia. }
  unfold zlen. etransitivity; [apply inj_le, Hstr|]. rewrite length_take. lia.
Qed.

(** ** Properties *)

(** C8: feeding any data to the encoder in any chunks and what it wrote to the
    decoder in any chunks gives the data back, with and without line breaks. *)
Theorem base64_stream_roundtrip b chunks pieces :
  Forall is_byte (concat chunks) ->
  concat pieces = encode_chunks b 0 save0 chunks ->
  (decode_chunks 0 0 pieces).1.1 = concat chunks.
Proof.
  intros Hb Hp. rewrite (decode_chunks_loop _ _ _ (decode_open 0 0)) by (done || by split_and!).
  rewrite Hp, <- (decode_encode_chunks b chunks Hb). by destruct (decode_loop _ _).
Qed.

Lemma base64_stream_roundtrip_witness :
  (decode_chunks 0 0 [[97; 71; 69]; [48; 10]]).1.1 = [104; 97; 52].
Proof.
  apply (base64_stream_roundtrip true [[104]; [97; 52]]); [solve_bytes|by vm_compute].
Defined.

(** neither coder depends on how its input is cut: the text the encoder
    writes, and the bytes and the state the decoder reaches, are those of one
    step on the whole. *)
Theorem base64_chunking b st save chunks dst dsv ks :
  save_ok save -> -4 < dst < 4 ->
  encode_chunks b st save chunks = encode_chunks b st save [concat chunks] /\
  decode_chunks dst dsv ks = g_base64_decode_step (concat ks) dst dsv.
Proof.
  intros Hok Hst. split.
  - rewrite !encode_chunks_loop by done. cbn [concat]. by rewrite app_nil_r.
  - rewrite decode_step_loop by done. apply decode_chunks_loop; [done|].
    by apply decoder_eq_refl, decode_open_range.
Qed.

Lemma base64_chunking_witness :
  encode_chunks true 0 save0 [[1; 2]; [3]; [4; 5; 6; 7]] =
  encode_chunks true 0 save0 [[1; 2; 3; 4; 5; 6; 7]] /\
  decode_chunks 0 0 [[65; 65]; [10]; [61; 61]] = g_base64_decode_step [65; 65; 10; 61; 61] 0 0.
Proof. apply (base64_chunking true 0 save0 [[1; 2]; [3]; [4; 5; 6; 7]]); [by split_and!|lia]. Defined.

(** a decoder step writes at most three bytes for every four characters it
    has, so [g_base64_decode] never overruns the buffer it allocates. *)
Theorem base64_decode_bounds inp st sv :
  -4 < st < 4 ->
  zlen (g_base64_decode_step inp st sv).1.1 <= 3 * ((Z.abs st + zlen inp) / 4) /\
  is_Some (g_base64_decode inp).
Proof. intros Hst. split; [by apply decode_step_bounds|]. rewrite decode_whole. by eexists. Qed.

Lemma base64_decode_bounds_witness :
  zlen (g_base64_decode_step [65; 66; 67] (-3) 7).1.1 <= 3 /\ is_Some (g_base64_decode [65; 66; 67]).
Proof. apply (base64_decode_bounds [65; 66; 67] (-3) 7). lia. Defined.

(** [g_base64_encode] fits its buffer and [g_base64_decode] inverts it, as
    long as the length of the text is an [int]. *)
Theorem base64_roundtrip data :
  Forall is_byte data -> 4 * ((zlen data + 2) / 3) < 2 ^ 31 ->
  exists text, g_base64_encode data = Some (Some text) /\
    zlen text = 4 * ((zlen data + 2) / 3) /\ g_base64_decode text = Some data.
Proof.
  intros Hb Hlen. pose proof (zlen_nonneg data).
  destruct (g_base64_encode_step data false 0 save0) as [[o1 st] save] eqn:E.
  pose proof (encode_oneshot_shape data o1 st save Hb E) as HS.
  pose proof (encode_oneshot false data) as HO. rewrite E in HO.
  unfold g_base64_encode, encode_limit. rewrite (proj2 (Z.ltb_lt _ _)) by zify_div. rewrite E.
  destruct (g_base64_encode_close false st save) as [[o2 st2] sv2]. cbn [fst] in HS, HO.
  destruct HS as (L1 & L2 & Hc).
  assert (zlen o1 + zlen o2 = 4 * ((zlen data + 2) / 3)) as HL.
  { rewrite L1, L2. destruct (Z.eqb_spec (zlen data mod 3) 0); zify_div. }
  rewrite (i32_small (zlen o1)), i32_small by (unfold zlen in *; lia).
  exists (o1 ++ o2). split_and!.
  - apply store_outputs; [|done]. rewrite Z2Nat.id by zify_div. zify_div.
  - by rewrite zlen_app.
  - rewrite decode_whole, <- HO, decode_encode_chunks by (cbn; by rewrite app_nil_r).
    cbn. by rewrite app_nil_r.
Qed.

Lemma base64_roundtrip_witness :
  exists text, g_base64_encode [1; 2; 255; 0] = Some (Some text) /\ zlen text = 8 /\
    g_base64_decode text = Some [1; 2; 255; 0].
Proof.
  apply (base64_roundtrip [1; 2; 255; 0]); [solve_bytes|by vm_compute].
Defined.

(** C36: when the text has [2 ^ 31] characters or more, which the check of the
    input's length allows, the offsets of the closing step and of the final NUL
    wrap around. If one of them is negative, [g_base64_encode] writes before its
    buffer; else it ends the text early and returns one that is too short. *)
Theorem base64_encode_overflow data :
  Forall is_byte data -> 2 ^ 31 <= 4 * ((zlen data + 2) / 3) -> zlen data < encode_limit ->
  let close_at := i32 (4 * (zlen data / 3)) in
  let end_at := i32 (4 * ((zlen data + 2) / 3)) in
  (close_at < 0 \/ end_at < 0 -> g_base64_encode data = None) /\
  (0 <= close_at -> 0 <= end_at ->
    exists text, g_base64_encode data = Some (Some text) /\ zlen text <= end_at < 4 * ((zlen data + 2) / 3)).
Proof.
  intros Hb Hlong Hlim close_at end_at. pose proof (zlen_nonneg data).
  destruct (g_base64_encode_step data false 0 save0) as [[o1 st] save] eqn:E.
  pose proof (encode_oneshot_shape data o1 st save Hb E) as HS.
  unfold g_base64_encode. rewrite (proj2 (Z.ltb_lt _ _) Hlim), E.
  destruct (g_base64_encode_close false st save) as [[o2 st2] sv2]. cbn [fst] in HS.
  destruct HS as (L1 & L2 & _).
  assert (zlen o1 + zlen o2 = 4 * ((zlen data + 2) / 3)) as HL.
  { rewrite L1, L2. destruct (Z.eqb_spec (zlen data mod 3) 0); zify_div. }
  assert (close_at <= zlen o1) as C1 by (rewrite L1; apply i32_le; zify_div).
  assert (end_at <= 4 * ((zlen data + 2) / 3) - 2 ^ 32) as C2 by (by apply i32_wraps).
  assert (close_at = i32 (zlen o1)) as E1 by (by rewrite L1).
  assert (end_at = i32 (close_at + zlen o2)) as E2 by (by rewrite E1, i32_add_l, HL).
  set (out0 := replicate _ 0). assert (zlen out0 = (zlen data / 3 + 1) * 4 + 1) as H0.
  { unfold zlen at 1, out0. rewrite length_replicate. zify_div. }
  rewrite <- E1, <- E2. clearbody close_at end_at out0.
  destruct (write_at_within out0 0 o1) as (out1 & -> & H1); [lia|zify_div|]. cbn [mbind option_bind]. split.
  - intros [Hneg|Hneg].
    + by rewrite write_at_negative.
    + destruct (write_at out1 close_at o2) as [out2|]; [|done]. cbn [mbind option_bind].
      by rewrite write_at_negative.
  - intros Hc He. destruct (write_at_within out1 close_at o2) as (out2 & -> & H2); [lia|zify_div|]. cbn [mbind option_bind].
    destruct (write_at_within out2 end_at [0]) as (out3 & E3 & H3); [lia|change (zlen [0]) with 1; rewrite H2, H1, H0; zify_div|]. rewrite E3. cbn [mbind option_bind].
    eexists. split; [done|]. split; [|lia]. by apply (cstr_ends out2).
Qed.

Lemma base64_encode_overflow_witness :
  g_base64_encode (replicate (Z.to_nat 1610612736) 0) = None.
Proof.
  apply (base64_encode_overflow (replicate (Z.to_nat 1610612736) 0)).
  - apply Forall_replicate. by split.
  - unfold zlen. rewrite length_replicate, Z2Nat.id by lia. zify_div.
  - unfold zlen, encode_limit. rewrite length_replicate, Z2Nat.id by lia. zify_div.
  - left. unfold zlen. by rewrite length_replicate, Z2Nat.id by lia.
Defined.

(** decoding in place leaves at the front of the string exactly what
    [g_base64_decode] returns, and never writes where it has not yet read. *)
Theorem base64_decode_inplace text :
  1 < zlen text < 2 ^ 31 ->
  exists buf out, g_base64_decode_inplace text = Some (Some (buf, zlen out)) /\
    take (length out) buf = out /\ g_base64_decode text = Some out.
Proof.
  intros Ht. unfold g_base64_decode_inplace. rewrite i32_small by lia.
  rewrite (proj2 (Z.ltb_lt _ _)) by lia. unfold zlen at 1. rewrite Nat2Z.id.
  destruct (decode_loop_inplace_ok text (decode_open 0 0) [] [] 0) as (buf & E & T);
    [done..|].
  cbn [app] in E, T. change (zlen (@nil Z) + zlen (@nil Z)) with 0 in E.
  change (zlen (@nil Z)) with 0 in E. rewrite E. cbn [mbind option_bind].
  exists buf, (decode_loop (decode_open 0 0) text).1. rewrite decode_whole. done.
Qed.

Lemma base64_decode_inplace_witness :
  exists buf out, g_base64_decode_inplace [81; 85; 74; 68] = Some (Some (buf, zlen out)) /\
    take (length out) buf = out /\ g_base64_decode [81; 85; 74; 68] = Some out.
Proof. apply base64_decode_inplace. by vm_compute. Defined.
