(* ===== verification/Dictionary.v ===== *)
(** * Dictionaries: the interface of the keyed containers

    The hash table and the balanced tree both promise to be a dictionary: a
    collection of entries, no two with the same key. The abstract dictionary is
    a list of entries, up to the order; the class [Dictionary] states what an
    implementation owes; a client is proved against it. *)

From S2P Require Import Prelude.
Local Open Scope Z_scope.

(** ** The abstract dictionary *)

Section abstract.
Context (same_key : Z -> Z -> bool).

Definition dict_matches (k : Z) (e : Z * Z) : Prop := same_key e.1 k = true.
#[export] Instance dict_matches_dec k e : Decision (dict_matches k e) := decide (_ = true).

Definition dict_find (k : Z) (l : list (Z * Z)) : option (Z * Z) :=
  head (filter (dict_matches k) l).
Definition dict_remove (k : Z) (l : list (Z * Z)) : list (Z * Z) :=
  filter (fun e => ~ dict_matches k e) l.
(** Storing a pair: the key that was there stays, unless it is to be replaced. *)
Definition dict_store (keep_new_key : bool) (k v : Z) (l : list (Z * Z)) : list (Z * Z) :=
  (match dict_find k l with
   | Some (k', _) => if keep_new_key then k else k'
   | None => k
   end, v) :: dict_remove k l.

(** No two entries have the same key. *)
Definition dict_ok (l : list (Z * Z)) : Prop :=
  forall k, (length (filter (dict_matches k) l) <= 1)%nat.

(** What a client asks of a dictionary, and the answers. *)
Inductive request :=
| Lookup (k : Z)
| Insert (k v : Z)
| Replace (k v : Z)
| Remove (k : Z).

Inductive answer :=
| Entry (e : option (Z * Z))
| Done
| Removed (existed : bool).

Definition dict_answer (r : request) (l : list (Z * Z)) : list (Z * Z) * answer :=
  match r with
  | Lookup k => (l, Entry (dict_find k l))
  | Insert k v => (dict_store false k v l, Done)
  | Replace k v => (dict_store true k v l, Done)
  | Remove k => (dict_remove k l, Removed (bool_decide (is_Some (dict_find k l))))
  end.

Fixpoint dict_run (rs : list request) (l : list (Z * Z)) : list (Z * Z) * list answer :=
  match rs with
  | [] => (l, [])
  | r :: rs =>
      let '(l, a) := dict_answer r l in
      let '(l, answers) := dict_run rs l in
      (l, a :: answers)
  end.
End abstract.

(** Requests an implementation can serve: their pointers are pointers. *)
Definition is_pointer (p : Z) : Prop := 0 <= p < 2 ^ 64.
Definition request_ok (r : request) : Prop :=
  match r with
  | Lookup k | Remove k => is_pointer k
  | Insert k v | Replace k v => is_pointer k /\ is_pointer v
  end.

(** What a container reports to its owner, who may have asked for it. *)
Inductive notification :=
| KeyDestroyed (key : Z)
| ValueDestroyed (value : Z).

Definition notify_key (key_destroy_func : bool) (k : Z) : list notification :=
  if key_destroy_func then [KeyDestroyed k] else [].
Definition notify_value (value_destroy_func : bool) (v : Z) : list notification :=
  if value_destroy_func then [ValueDestroyed v] else [].

(** ** The interface *)

(** [None] is undefined behaviour, or a loop that does not end. *)
Class Dictionary (T : Type) (same_key : Z -> Z -> bool) := {
  d_contents : T -> list (Z * Z);
  d_ok : T -> Prop;
  d_capacity : Z;
  d_serve : request -> T -> option (T * answer);
  d_ok_contents : forall t, d_ok t -> dict_ok same_key (d_contents t);
  d_serve_ok : forall r t, d_ok t -> request_ok r -> zlen (d_contents t) < d_capacity ->
    exists t', d_serve r t = Some (t', snd (dict_answer same_key r (d_contents t))) /\
      d_ok t' /\ d_contents t' ≡ₚ fst (dict_answer same_key r (d_contents t))
}.
#[global] Arguments d_contents {T same_key _} t.
#[global] Arguments d_ok {T same_key _} t.
#[global] Arguments d_capacity {T same_key} _.
#[global] Arguments d_serve {T same_key _} r t.

(** A sequence of requests, and the answers. *)
Fixpoint serve_all {T} (serve : request -> T -> option (T * answer)) (rs : list request) (t : T)
  : option (T * list answer) :=
  match rs with
  | [] => Some (t, [])
  | r :: rs =>
      '(t, a) ← serve r t;
      '(t, answers) ← serve_all serve rs t;
      Some (t, a :: answers)
  end.

(** ** Lemmas *)

Section lemmas.
Context (same_key : Z -> Z -> bool).

Lemma dict_ok_perm l l' : l ≡ₚ l' -> dict_ok same_key l -> dict_ok same_key l'.
Proof. intros HP Hok k. by rewrite <- HP. Qed.

Lemma dict_find_perm k l l' :
  l ≡ₚ l' -> dict_ok same_key l -> dict_find same_key k l = dict_find same_key k l'.
Proof.
  intros HP Hok. specialize (Hok k). unfold dict_find.
  pose proof (filter_Permutation (dict_matches same_key k) l l' HP) as HF.
  destruct (filter (dict_matches same_key k) l) as [|e [|]]; cbn in Hok; [| |lia].
  - apply Permutation_nil_l in HF. by rewrite <- HF.
  - apply Permutation_singleton_l in HF. by rewrite <- HF.
Qed.

(** The answer does not depend on the order of the entries. *)
Lemma dict_answer_perm r l l' :
  l ≡ₚ l' -> dict_ok same_key l ->
  snd (dict_answer same_key r l) = snd (dict_answer same_key r l') /\
  fst (dict_answer same_key r l) ≡ₚ fst (dict_answer same_key r l').
Proof.
  intros HP Hok. pose proof (fun k => dict_find_perm k l l' HP Hok) as Hf.
  destruct r; cbn; unfold dict_store, dict_remove; rewrite ?Hf; split; done || by rewrite HP.
Qed.

Lemma dict_answer_length r l : zlen (fst (dict_answer same_key r l)) <= zlen l + 1.
Proof.
  pose proof (zlen_nonneg l).
  destruct r as [k|k v|k v|k]; cbn; unfold dict_store, dict_remove; rewrite ?zlen_cons;
    pose proof (length_filter (fun e => ~ dict_matches same_key k e) l); unfold zlen in *; lia.
Qed.
End lemmas.

(** A sequence of requests to an implementation is answered as the abstract
    dictionary answers it. *)
Lemma serve_all_ok {T same_key} `{D : !Dictionary T same_key} rs (t : T) l :
  d_ok t -> Forall request_ok rs -> d_contents t ≡ₚ l -> zlen l + zlen rs <= d_capacity D ->
  exists t', serve_all d_serve rs t = Some (t', snd (dict_run same_key rs l)) /\
    d_ok t' /\ d_contents t' ≡ₚ fst (dict_run same_key rs l).
Proof.
  intros Hok Hrs HP. revert t l Hok HP. induction Hrs as [|r rs Hr Hrs IH]; intros t l Hok HP Hcap.
  - by exists t.
  - rewrite zlen_cons in Hcap. pose proof (zlen_nonneg rs).
    assert (zlen (d_contents t) = zlen l) as El by (unfold zlen; by rewrite HP).
    destruct (d_serve_ok r t Hok Hr) as (t1 & E1 & Hok1 & P1); [lia|].
    destruct (dict_answer_perm same_key r _ l HP (d_ok_contents t Hok)) as [Ea Pa].
    pose proof (dict_answer_length same_key r l).
    cbn [serve_all dict_run]. rewrite E1, Ea. cbn [mbind option_bind]. rewrite Pa in P1.
    destruct (dict_answer same_key r l) as [l1 a]. cbn in *.
    destruct (IH t1 l1 Hok1 P1) as (t2 & E2 & Hok2 & P2); [lia|].
    rewrite E2. cbn [mbind option_bind]. destruct (dict_run same_key rs l1) as [l2 b].
    by exists t2.
Qed.
