(* ===== verification/HashTable.v ===== *)
(** * The open-addressing hash table: src/glib/ghash.c

    A table is a record of its geometry, its counters and its three arrays.
    Keys and values are pointers, that is integers below [2 ^ 64]; the arrays
    of keys and values hold 32-bit cells until a wider pointer is stored, and
    the values share the array of the keys as long as every value equals its
    key (a "set"). An access outside an array, or with the wrong cell width, is
    undefined behaviour and gives [None]; so does a loop that outlives its fuel.

    The caller's callbacks are parameters: the hash and equality functions, and
    which destroy notifications are installed. The notifications an operation
    sends are part of its result, in order. *)

From S2P Require Import Prelude Dictionary.
Local Open Scope Z_scope.
Local Open Scope xpl_scope.

Definition HASH_TABLE_MIN_SHIFT : Z := 3.
Definition UNUSED_HASH_VALUE : Z := 0.
Definition TOMBSTONE_HASH_VALUE : Z := 1.
Definition HASH_IS_UNUSED (h : Z) : bool := h =? UNUSED_HASH_VALUE.
Definition HASH_IS_TOMBSTONE (h : Z) : bool := h =? TOMBSTONE_HASH_VALUE.
Definition HASH_IS_REAL (h : Z) : bool := 2 <=? h.

Definition prime_mod : list Z := [
  1; 2; 3; 7; 13; 31; 61; 127; 251; 509; 1021; 2039; 4093; 8191; 16381; 32749;
  65521; 131071; 262139; 524287; 1048573; 2097143; 4194301; 8388593; 16777213;
  33554393; 67108859; 134217689; 268435399; 536870909; 1073741789; 2147483647].

(** An array of keys or values: its cell width and its cells. *)
Record cells := Cells { big : bool; slots : list Z }.

Record table := Table {
  size : Z;
  mod_ : Z;
  mask : Z;
  nnodes : Z;
  noccupied : Z;
  have_big_keys : bool;
  have_big_values : bool;
  keys : cells;
  hashes : list Z;
  values : option cells;  (** [None]: the array of the keys *)
  version : Z;
  ref_count : Z
}.

(** The iterator. *)
Record iter := Iter { position : Z; iter_version : Z }.

(** ** Field updates *)

Definition with_geometry (s m k : Z) (t : table) : table :=
  Table s m k (nnodes t) (noccupied t) (have_big_keys t) (have_big_values t)
    (keys t) (hashes t) (values t) (version t) (ref_count t).
Definition with_nnodes (n : Z) (t : table) : table :=
  Table (size t) (mod_ t) (mask t) n (noccupied t) (have_big_keys t) (have_big_values t)
    (keys t) (hashes t) (values t) (version t) (ref_count t).
Definition with_noccupied (n : Z) (t : table) : table :=
  Table (size t) (mod_ t) (mask t) (nnodes t) n (have_big_keys t) (have_big_values t)
    (keys t) (hashes t) (values t) (version t) (ref_count t).
Definition with_big (bk bv : bool) (t : table) : table :=
  Table (size t) (mod_ t) (mask t) (nnodes t) (noccupied t) bk bv
    (keys t) (hashes t) (values t) (version t) (ref_count t).
Definition with_keys (a : cells) (t : table) : table :=
  Table (size t) (mod_ t) (mask t) (nnodes t) (noccupied t) (have_big_keys t) (have_big_values t)
    a (hashes t) (values t) (version t) (ref_count t).
Definition with_hashes (a : list Z) (t : table) : table :=
  Table (size t) (mod_ t) (mask t) (nnodes t) (noccupied t) (have_big_keys t) (have_big_values t)
    (keys t) a (values t) (version t) (ref_count t).
Definition with_values (a : option cells) (t : table) : table :=
  Table (size t) (mod_ t) (mask t) (nnodes t) (noccupied t) (have_big_keys t) (have_big_values t)
    (keys t) (hashes t) a (version t) (ref_count t).
Definition with_version (n : Z) (t : table) : table :=
  Table (size t) (mod_ t) (mask t) (nnodes t) (noccupied t) (have_big_keys t) (have_big_values t)
    (keys t) (hashes t) (values t) n (ref_count t).
Definition with_ref_count (n : Z) (t : table) : table :=
  Table (size t) (mod_ t) (mask t) (nnodes t) (noccupied t) (have_big_keys t) (have_big_values t)
    (keys t) (hashes t) (values t) (version t) n.

Definition is_a_set (t : table) : bool := if values t is Some _ then false else true.

(** The array [hash_table->values] points to. *)
Definition values_array (t : table) : cells := default (keys t) (values t).

Definition set_values_array (a : cells) (t : table) : table :=
  match values t with
  | Some _ => with_values (Some a) t
  | None => with_keys a t
  end.

(** ** Geometry *)

Definition xhash_table_set_shift (t : table) (shift : Z) : table :=
  let size := 1 << shift in
  with_geometry size (tbl prime_mod shift) (size - 1) t.

(** [for (i = 0; n; i++) n >>= 1] on an [int]: 32 turns at most. *)
Fixpoint find_closest_shift_loop (fuel : nat) (n i : Z) : Z :=
  match fuel with
  | O => i
  | S fuel => if n =? 0 then i else find_closest_shift_loop fuel (n >> 1) (i + 1)
  end.

Definition xhash_table_find_closest_shift (n : Z) : Z := find_closest_shift_loop 32 n 0.

Definition xhash_table_set_shift_from_size (t : table) (size : Z) : table :=
  let shift := xhash_table_find_closest_shift size in
  xhash_table_set_shift t (Z.max shift HASH_TABLE_MIN_SHIFT).

(** ** The arrays of keys and values *)

Definition xhash_table_fetch_key_or_value (a : cells) (index : Z) (is_big : bool) : option Z :=
  if Bool.eqb (big a) is_big then rd (slots a) index else None.

(** What a cell of that width keeps of a pointer. *)
Definition fit (is_big : bool) (v : Z) : Z := if is_big then v else u32 v.

Definition xhash_table_assign_key_or_value (a : cells) (index : Z) (is_big : bool) (v : Z)
  : option cells :=
  if Bool.eqb (big a) is_big then
    s ← wr (slots a) index (fit is_big v); Some (Cells (big a) s)
  else None.

Definition xhash_table_evict_key_or_value (a : cells) (index : Z) (is_big : bool) (v : Z)
  : option (cells * Z) :=
  r ← xhash_table_fetch_key_or_value a index is_big;
  a ← xhash_table_assign_key_or_value a index is_big v;
  Some (a, r).

Definition entry_is_big (v : Z) : bool := negb (v >> 32 =? 0).

Definition xhash_table_maybe_make_big_keys_or_values (a : cells) (v : Z) : cells * bool :=
  if entry_is_big v then (Cells true (slots a), true) else (a, false).

Section HashTable.
(** The callbacks given to [xhash_table_new_full], and the contents of memory
    fresh from the allocator. [key_equal_func] is [None] when it is [NULL]. *)
Context (hash_func : Z -> Z) (key_equal_func : option (Z -> Z -> bool)).
Context (key_destroy_func value_destroy_func : bool) (uninit : Z).

Abbreviation notify_key := (Dictionary.notify_key key_destroy_func).
Abbreviation notify_value := (Dictionary.notify_value value_destroy_func).

(** [g_realloc] of an array of cells to [n] cells: the contents that fit, then
    whatever the memory holds. *)
Definition xhash_table_realloc_key_or_value_array (a : list Z) (n : Z) : list Z :=
  take (Z.to_nat n) a ++ replicate (Z.to_nat n - length a) uninit.

(** ** Lookup *)

Definition xhash_table_hash_to_index (t : table) (hash : Z) : Z :=
  u32 (hash * 11) mod mod_ t.

Definition hash_value_of (key : Z) : Z :=
  let hash_value := hash_func key in
  if HASH_IS_REAL hash_value then hash_value else 2.

Definition keys_match (node_key key : Z) : bool :=
  match key_equal_func with
  | Some key_equal => key_equal node_key key
  | None => node_key =? key
  end.

(** [node_index += step; node_index &= mask], after [step++]. *)
Definition next_index (t : table) (node_index step : Z) : Z :=
  u32 (node_index + step) & mask t.

Fixpoint lookup_node_loop (fuel : nat) (t : table) (key hash_value node_index step : Z)
    (first_tombstone : option Z) : option Z :=
  match fuel with
  | O => None
  | S fuel =>
      node_hash ← rd (hashes t) node_index;
      if HASH_IS_UNUSED node_hash then Some (default node_index first_tombstone)
      else
        found ←
          (if node_hash =? hash_value then
             node_key ← xhash_table_fetch_key_or_value (keys t) node_index (have_big_keys t);
             Some (keys_match node_key key)
           else Some false);
        if (found : bool) then Some node_index
        else
          let first_tombstone :=
            if negb (node_hash =? hash_value) && HASH_IS_TOMBSTONE node_hash then
              match first_tombstone with Some i => Some i | None => Some node_index end
            else first_tombstone in
          let step := step + 1 in
          lookup_node_loop fuel t key hash_value (next_index t node_index step) step first_tombstone
  end.

(** The index of the node, and the hash that goes with the key. *)
Definition xhash_table_lookup_node (t : table) (key : Z) : option (Z * Z) :=
  let hash_value := hash_value_of key in
  node_index ← lookup_node_loop (S (Z.to_nat (size t))) t key hash_value
                 (xhash_table_hash_to_index t hash_value) 0 None;
  Some (node_index, hash_value).

(** ** Removal of a node *)

Definition xhash_table_remove_node (t : table) (i : Z) (notify : bool)
  : option (table * list notification) :=
  key ← xhash_table_fetch_key_or_value (keys t) i (have_big_keys t);
  value ← xhash_table_fetch_key_or_value (values_array t) i (have_big_values t);
  hs ← wr (hashes t) i TOMBSTONE_HASH_VALUE;
  let t := with_hashes hs t in
  ks ← xhash_table_assign_key_or_value (keys t) i (have_big_keys t) 0;
  let t := with_keys ks t in
  vs ← xhash_table_assign_key_or_value (values_array t) i (have_big_values t) 0;
  let t := set_values_array vs t in
  let t := with_nnodes (nnodes t - 1) t in
  Some (t, (if notify then notify_key key else []) ++ (if notify then notify_value value else [])).

(** ** Storage *)

Definition xhash_table_setup_storage (t : table) : table :=
  let t := xhash_table_set_shift t HASH_TABLE_MIN_SHIFT in
  let t := with_big false false t in
  let t := with_keys (Cells false (xhash_table_realloc_key_or_value_array [] (size t))) t in
  let t := with_values None t in
  with_hashes (replicate (Z.to_nat (size t)) 0) t.

(** The notifications for the entries of the arrays taken over, in order. *)
Fixpoint destroy_nodes (hs ks vs : list Z) : list notification :=
  match hs, ks, vs with
  | h :: hs, k :: ks, v :: vs =>
      (if HASH_IS_REAL h then notify_key k ++ notify_value v else []) ++ destroy_nodes hs ks vs
  | _, _, _ => []
  end.

Definition xhash_table_remove_all_nodes (t : table) (notify destruction : bool)
  : table * list notification :=
  if nnodes t =? 0 then (t, [])
  else
    let t := with_noccupied 0 (with_nnodes 0 t) in
    if negb notify || (negb key_destroy_func && negb value_destroy_func) then
      if negb destruction then
        let zeros := replicate (Z.to_nat (size t)) 0 in
        let t := with_hashes zeros t in
        let t := with_keys (Cells (big (keys t)) zeros) t in
        (set_values_array (Cells (big (values_array t)) zeros) t, [])
      else (t, [])
    else
      let notes := destroy_nodes (hashes t) (slots (keys t)) (slots (values_array t)) in
      (if negb destruction then xhash_table_setup_storage t
       else with_geometry 0 0 0 (with_hashes [] (with_values None (with_keys (Cells false []) t))),
       notes).

Definition realloc_arrays (t : table) (is_a_set : bool) : table :=
  let realloc a := Cells (big a) (xhash_table_realloc_key_or_value_array (slots a) (size t)) in
  let t := with_hashes (xhash_table_realloc_key_or_value_array (hashes t) (size t)) t in
  let vs := if is_a_set then None else Some (realloc (values_array t)) in
  with_values vs (with_keys (realloc (keys t)) t).

(** ** Resizing in place *)

Definition get_status_bit (bitmap : list Z) (index : Z) : option bool :=
  w ← rd bitmap (index / 32);
  Some (negb ((w >> (index mod 32)) & 1 =? 0)).

Definition set_status_bit (bitmap : list Z) (index : Z) : option (list Z) :=
  w ← rd bitmap (index / 32);
  wr bitmap (index / 32) (w or (1 << (index mod 32))).

(** The two instances of [EVICT_KEYVAL] and [ASSIGN_KEYVAL]: the one for sets
    leaves the values alone. *)
Definition EVICT_KEYVAL (set : bool) (t : table) (i key value : Z) : option (table * Z * Z) :=
  '(ks, k) ← xhash_table_evict_key_or_value (keys t) i (have_big_keys t) key;
  let t := with_keys ks t in
  if set then Some (t, k, value)
  else
    '(vs, v) ← xhash_table_evict_key_or_value (values_array t) i (have_big_values t) value;
    Some (set_values_array vs t, k, v).

Definition ASSIGN_KEYVAL (set : bool) (t : table) (i key value : Z) : option table :=
  ks ← xhash_table_assign_key_or_value (keys t) i (have_big_keys t) key;
  let t := with_keys ks t in
  if set then Some t
  else
    vs ← xhash_table_assign_key_or_value (values_array t) i (have_big_values t) value;
    Some (set_values_array vs t).

(** [while (get_status_bit (...))]: the first free bucket for a hash. *)
Fixpoint resize_probe (fuel : nat) (t : table) (bitmap : list Z) (hash_val step : Z) : option Z :=
  match fuel with
  | O => None
  | S fuel =>
      taken ← get_status_bit bitmap hash_val;
      if (taken : bool) then
        let step := step + 1 in
        resize_probe fuel t bitmap (next_index t hash_val step) step
      else Some hash_val
  end.

(** [for (;;)]: puts an entry in place, then the one it evicts, and so on. *)
Fixpoint resize_place (fuel : nat) (set : bool) (t : table) (bitmap : list Z)
    (node_hash key value : Z) : option (table * list Z) :=
  match fuel with
  | O => None
  | S fuel =>
      hash_val ← resize_probe (S (Z.to_nat (size t))) t bitmap
                   (xhash_table_hash_to_index t node_hash) 0;
      bitmap ← set_status_bit bitmap hash_val;
      replaced_hash ← rd (hashes t) hash_val;
      hs ← wr (hashes t) hash_val node_hash;
      let t := with_hashes hs t in
      if HASH_IS_REAL replaced_hash then
        '(t, key, value) ← EVICT_KEYVAL set t hash_val key value;
        resize_place fuel set t bitmap replaced_hash key value
      else
        t ← ASSIGN_KEYVAL set t hash_val key value;
        Some (t, bitmap)
  end.

(** The body of [for (i = 0; i < old_size; i++)]. *)
Definition resize_turn (set : bool) (t : table) (bitmap : list Z) (i : Z)
  : option (table * list Z) :=
  node_hash ← rd (hashes t) i;
  if HASH_IS_REAL node_hash then
    taken ← get_status_bit bitmap i;
    if (taken : bool) then Some (t, bitmap)
    else
      hs ← wr (hashes t) i UNUSED_HASH_VALUE;
      '(t, key, value) ← EVICT_KEYVAL set (with_hashes hs t) i 0 0;
      resize_place (S (Z.to_nat (size t))) set t bitmap node_hash key value
  else
    hs ← wr (hashes t) i UNUSED_HASH_VALUE;
    Some (with_hashes hs t, bitmap).

(** [n] turns from [i]. *)
Fixpoint resize_loop (n : nat) (set : bool) (t : table) (bitmap : list Z) (i : Z)
  : option (table * list Z) :=
  match n with
  | O => Some (t, bitmap)
  | S n =>
      '(t, bitmap) ← resize_turn set t bitmap i;
      resize_loop n set t bitmap (i + 1)
  end.

(** The product of an [int] and the [double] 1.333, truncated: an integer times
    [6003298303284871 * 2 ^ -52], rounded to 53 bits, ties to even. *)
Definition round_53 (p : Z) : Z :=
  let e := Z.log2 p - 52 in
  if e <=? 0 then p
  else
    let q := p / 2 ^ e in
    let r := p mod 2 ^ e in
    let half := 2 ^ (e - 1) in
    (if (half <? r) || ((r =? half) && Z.odd q) then q + 1 else q) * 2 ^ e.

Definition times_1_333 (n : Z) : Z := round_53 (n * 6003298303284871) / 2 ^ 52.

Definition xhash_table_resize (t : table) : option table :=
  let old_size := size t in
  let set := is_a_set t in
  let t := xhash_table_set_shift_from_size t (times_1_333 (nnodes t)) in
  let '(t, bitmap) :=
    if old_size <? size t then
      let t := realloc_arrays t set in
      let hs := take (Z.to_nat old_size) (hashes t)
                  ++ replicate (Z.to_nat (size t - old_size)) 0 in
      (with_hashes hs t, replicate (Z.to_nat ((size t + 31) / 32)) 0)
    else (t, replicate (Z.to_nat ((old_size + 31) / 32)) 0) in
  '(t, _) ← resize_loop (Z.to_nat old_size) set t bitmap 0;
  let t := if size t <? old_size then realloc_arrays t set else t in
  Some (with_noccupied (nnodes t) t).

Definition xhash_table_maybe_resize (t : table) : option table :=
  let noccupied := noccupied t in
  let size := size t in
  four_times ← sint32 (nnodes t * 4);
  if ((four_times <? size) && (1 << HASH_TABLE_MIN_SHIFT <? size))
     || (size <=? noccupied + noccupied / 16)
  then xhash_table_resize t
  else Some t.

(** ** Insertion *)

Definition xhash_table_ensure_keyval_fits (t : table) (key value : Z) : table :=
  if is_a_set t && have_big_keys t then
    if negb (key =? value) then with_values (Some (keys t)) t else t
  else
    let t := if is_a_set t && negb (key =? value) then with_values (Some (keys t)) t else t in
    let t :=
      if negb (have_big_keys t) then
        let '(ks, b) := xhash_table_maybe_make_big_keys_or_values (keys t) key in
        with_big b (if is_a_set t then b else have_big_values t) (with_keys ks t)
      else t in
    if negb (is_a_set t) && negb (have_big_values t) then
      let '(vs, b) := xhash_table_maybe_make_big_keys_or_values (values_array t) value in
      with_big (have_big_keys t) b (with_values (Some vs) t)
    else t.

(** The table, the notifications, and whether the entry did not exist. *)
Definition xhash_table_insert_node (t : table) (node_index key_hash new_key new_value : Z)
    (keep_new_key reusing_key : bool) : option (table * list notification * bool) :=
  old_hash ← rd (hashes t) node_index;
  let already_exists := HASH_IS_REAL old_hash in
  '(t, key_to_free, key_to_keep, value_to_free) ←
    (if already_exists then
       value_to_free ← xhash_table_fetch_key_or_value (values_array t) node_index (have_big_values t);
       old_key ← xhash_table_fetch_key_or_value (keys t) node_index (have_big_keys t);
       Some (if keep_new_key then (t, old_key, new_key, value_to_free)
             else (t, new_key, old_key, value_to_free))
     else
       hs ← wr (hashes t) node_index key_hash;
       Some (with_hashes hs t, 0, new_key, 0));
  let t := xhash_table_ensure_keyval_fits t key_to_keep new_value in
  ks ← xhash_table_assign_key_or_value (keys t) node_index (have_big_keys t) key_to_keep;
  let t := with_keys ks t in
  vs ← xhash_table_assign_key_or_value (values_array t) node_index (have_big_values t) new_value;
  let t := set_values_array vs t in
  t ←
    (if negb already_exists then
       let t := with_nnodes (nnodes t + 1) t in
       t ←
         (if HASH_IS_UNUSED old_hash then
            xhash_table_maybe_resize (with_noccupied (noccupied t + 1) t)
          else Some t);
       Some (with_version (version t + 1) t)
     else Some t);
  let notes :=
    if already_exists then
      (if negb reusing_key then notify_key key_to_free else []) ++ notify_value value_to_free
    else [] in
  Some (t, notes, negb already_exists).

Definition xhash_table_insert_internal (t : table) (key value : Z) (keep_new_key : bool)
  : option (table * list notification * bool) :=
  '(node_index, key_hash) ← xhash_table_lookup_node t key;
  xhash_table_insert_node t node_index key_hash key value keep_new_key false.

Definition xhash_table_insert (t : table) (key value : Z) :=
  xhash_table_insert_internal t key value false.
Definition xhash_table_replace (t : table) (key value : Z) :=
  xhash_table_insert_internal t key value true.
Definition xhash_table_add (t : table) (key : Z) :=
  xhash_table_insert_internal t key key true.

(** ** Construction and destruction *)

Definition xhash_table_new_full : table :=
  xhash_table_setup_storage
    (Table 0 0 0 0 0 false false (Cells false []) [] None 0 1).

Definition xhash_table_ref (t : table) : table := with_ref_count (ref_count t + 1) t.

(** [None] when the table is freed. *)
Definition xhash_table_unref (t : table) : option table * list notification :=
  if ref_count t =? 1 then (None, snd (xhash_table_remove_all_nodes t true true))
  else (Some (with_ref_count (ref_count t - 1) t), []).

Definition bump_version_if_any (t : table) : table :=
  if nnodes t =? 0 then t else with_version (version t + 1) t.

Definition xhash_table_remove_all (t : table) : option (table * list notification) :=
  let '(t, notes) := xhash_table_remove_all_nodes (bump_version_if_any t) true false in
  t ← xhash_table_maybe_resize t;
  Some (t, notes).

Definition xhash_table_steal_all (t : table) : option (table * list notification) :=
  let '(t, notes) := xhash_table_remove_all_nodes (bump_version_if_any t) false false in
  t ← xhash_table_maybe_resize t;
  Some (t, notes).

Definition xhash_table_destroy (t : table) : option (option table * list notification) :=
  '(t, notes) ← xhash_table_remove_all t;
  let '(t, notes') := xhash_table_unref t in
  Some (t, notes ++ notes').

(** ** Queries *)

Definition xhash_table_lookup (t : table) (key : Z) : option Z :=
  '(node_index, _) ← xhash_table_lookup_node t key;
  h ← rd (hashes t) node_index;
  if HASH_IS_REAL h
  then xhash_table_fetch_key_or_value (values_array t) node_index (have_big_values t)
  else Some 0.

(** The original key and the value, when there is an entry. *)
Definition xhash_table_lookup_extended (t : table) (lookup_key : Z) : option (option (Z * Z)) :=
  '(node_index, _) ← xhash_table_lookup_node t lookup_key;
  h ← rd (hashes t) node_index;
  if HASH_IS_REAL h then
    k ← xhash_table_fetch_key_or_value (keys t) node_index (have_big_keys t);
    v ← xhash_table_fetch_key_or_value (values_array t) node_index (have_big_values t);
    Some (Some (k, v))
  else Some None.

Definition xhash_table_contains (t : table) (key : Z) : option bool :=
  '(node_index, _) ← xhash_table_lookup_node t key;
  h ← rd (hashes t) node_index;
  Some (HASH_IS_REAL h).

Definition xhash_table_size (t : table) : Z := nnodes t.

(** ** Removal *)

Definition xhash_table_remove_internal (t : table) (key : Z) (notify : bool)
  : option (table * list notification * bool) :=
  '(node_index, _) ← xhash_table_lookup_node t key;
  h ← rd (hashes t) node_index;
  if negb (HASH_IS_REAL h) then Some (t, [], false)
  else
    '(t, notes) ← xhash_table_remove_node t node_index notify;
    t ← xhash_table_maybe_resize t;
    Some (with_version (version t + 1) t, notes, true).

Definition xhash_table_remove (t : table) (key : Z) := xhash_table_remove_internal t key true.
Definition xhash_table_steal (t : table) (key : Z) := xhash_table_remove_internal t key false.

(** [want_key] and [want_value] tell which return locations are not [NULL]. *)
Definition xhash_table_steal_extended (t : table) (lookup_key : Z) (want_key want_value : bool)
  : option (table * option (Z * Z)) :=
  '(node_index, _) ← xhash_table_lookup_node t lookup_key;
  h ← rd (hashes t) node_index;
  if negb (HASH_IS_REAL h) then Some (t, None)
  else
    '(t, k) ←
      (if want_key then
         '(ks, k) ← xhash_table_evict_key_or_value (keys t) node_index (have_big_keys t) 0;
         Some (with_keys ks t, k)
       else Some (t, 0));
    '(t, v) ←
      (if want_value then
         '(vs, v) ← xhash_table_evict_key_or_value (values_array t) node_index (have_big_values t) 0;
         Some (set_values_array vs t, v)
       else Some (t, 0));
    '(t, _) ← xhash_table_remove_node t node_index false;
    t ← xhash_table_maybe_resize t;
    Some (with_version (version t + 1) t, Some (k, v)).

(** The node at index [i], if it is in use. *)
Definition node_at (t : table) (i : Z) : option (option (Z * Z)) :=
  h ← rd (hashes t) i;
  k ← xhash_table_fetch_key_or_value (keys t) i (have_big_keys t);
  v ← xhash_table_fetch_key_or_value (values_array t) i (have_big_values t);
  Some (if HASH_IS_REAL h then Some (k, v) else None).

(** [for (i = 0; i < size; i++)] with [n] turns left, removing the nodes the
    caller's function asks to; [func] is pure. *)
Fixpoint foreach_remove_loop (n : nat) (t : table) (func : Z -> Z -> bool) (notify : bool)
    (i deleted : Z) : option (table * list notification * Z) :=
  match n with
  | O => Some (t, [], deleted)
  | S n =>
      node ← node_at t i;
      match node with
      | Some (k, v) =>
          if func k v then
            '(t, notes) ← xhash_table_remove_node t i notify;
            '(t, notes', deleted) ← foreach_remove_loop n t func notify (i + 1) (deleted + 1);
            Some (t, notes ++ notes', deleted)
          else foreach_remove_loop n t func notify (i + 1) deleted
      | None => foreach_remove_loop n t func notify (i + 1) deleted
      end
  end.

Definition xhash_table_foreach_remove_or_steal (t : table) (func : Z -> Z -> bool) (notify : bool)
  : option (table * list notification * Z) :=
  '(t, notes, deleted) ← foreach_remove_loop (Z.to_nat (size t)) t func notify 0 0;
  t ← xhash_table_maybe_resize t;
  Some (if 0 <? deleted then with_version (version t + 1) t else t, notes, deleted).

Definition xhash_table_foreach_remove (t : table) (func : Z -> Z -> bool) :=
  xhash_table_foreach_remove_or_steal t func true.
Definition xhash_table_foreach_steal (t : table) (func : Z -> Z -> bool) :=
  xhash_table_foreach_remove_or_steal t func false.

(** ** Walking over the nodes *)

(** The loop shared by [foreach], [get_keys], [get_values] and
    [get_keys_as_array]: the nodes in use, in index order. *)
Fixpoint nodes_from (n : nat) (t : table) (i : Z) : option (list (Z * Z)) :=
  match n with
  | O => Some []
  | S n =>
      node ← node_at t i;
      rest ← nodes_from n t (i + 1);
      Some (match node with Some kv => kv :: rest | None => rest end)
  end.

Definition xhash_table_foreach (t : table) : option (list (Z * Z)) :=
  nodes_from (Z.to_nat (size t)) t 0.

(** Prepending reverses the order. *)
Definition xhash_table_get_keys (t : table) : option (list Z) :=
  l ← nodes_from (Z.to_nat (size t)) t 0; Some (rev (map fst l)).
Definition xhash_table_get_values (t : table) : option (list Z) :=
  l ← nodes_from (Z.to_nat (size t)) t 0; Some (rev (map snd l)).

(** [None] when the array that is allocated is too short. *)
Definition xhash_table_get_keys_as_array (t : table) : option (list Z * Z) :=
  l ← nodes_from (Z.to_nat (size t)) t 0;
  let result := replicate (Z.to_nat (nnodes t + 1)) uninit in
  result ← write_at result 0 (map fst l);
  result ← wr result (zlen l) 0;
  if zlen l =? nnodes t then Some (result, zlen l) else None.

Fixpoint find_loop (n : nat) (t : table) (predicate : Z -> Z -> bool) (i : Z) : option Z :=
  match n with
  | O => Some 0
  | S n =>
      node ← node_at t i;
      match node with
      | Some (k, v) => if predicate k v then Some v else find_loop n t predicate (i + 1)
      | None => find_loop n t predicate (i + 1)
      end
  end.

Definition xhash_table_find (t : table) (predicate : Z -> Z -> bool) : option Z :=
  find_loop (Z.to_nat (size t)) t predicate 0.

(** ** Iterators *)

Definition xhash_table_iter_init (t : table) : iter := Iter (-1) (version t).

(** [do position++ ... while (!HASH_IS_REAL (hashes[position]))] *)
Fixpoint iter_advance (fuel : nat) (t : table) (position : Z) : option (Z * bool) :=
  match fuel with
  | O => None
  | S fuel =>
      let position := position + 1 in
      if size t <=? position then Some (position, false)
      else
        h ← rd (hashes t) position;
        if HASH_IS_REAL h then Some (position, true) else iter_advance fuel t position
  end.

Definition xhash_table_iter_next (t : table) (ri : iter) : option (iter * option (Z * Z)) :=
  if negb (iter_version ri =? version t) then Some (ri, None)
  else if negb (position ri <? size t) then Some (ri, None)
  else
    '(p, found) ← iter_advance (S (Z.to_nat (size t))) t (position ri);
    let ri := Iter p (iter_version ri) in
    if (found : bool) then
      k ← xhash_table_fetch_key_or_value (keys t) p (have_big_keys t);
      v ← xhash_table_fetch_key_or_value (values_array t) p (have_big_values t);
      Some (ri, Some (k, v))
    else Some (ri, None).

Definition iter_ok (t : table) (ri : iter) : bool :=
  (iter_version ri =? version t) && (0 <=? position ri) && (position ri <? size t).

Definition iter_remove_or_steal (t : table) (ri : iter) (notify : bool)
  : option (table * iter * list notification) :=
  if iter_ok t ri then
    '(t, notes) ← xhash_table_remove_node t (position ri) notify;
    Some (with_version (version t + 1) t, Iter (position ri) (iter_version ri + 1), notes)
  else Some (t, ri, []).

Definition xhash_table_iter_remove (t : table) (ri : iter) := iter_remove_or_steal t ri true.
Definition xhash_table_iter_steal (t : table) (ri : iter) := iter_remove_or_steal t ri false.

Definition xhash_table_iter_replace (t : table) (ri : iter) (value : Z)
  : option (table * iter * list notification) :=
  if iter_ok t ri then
    node_hash ← rd (hashes t) (position ri);
    key ← xhash_table_fetch_key_or_value (keys t) (position ri) (have_big_keys t);
    '(t, notes, _) ← xhash_table_insert_node t (position ri) node_hash key value true true;
    Some (with_version (version t + 1) t, Iter (position ri) (iter_version ri + 1), notes)
  else Some (t, ri, []).
End HashTable.

(** ** Hash functions *)

(** A byte as a [signed char]. *)
Definition schar (b : Z) : Z := if b <? 128 then b else b - 256.

Fixpoint xstr_hash_loop (h : Z) (s : list Z) : Z :=
  match s with
  | [] => h
  | c :: s => xstr_hash_loop (u32 ((h << 5) + h + schar c)) s
  end.
Definition xstr_hash (s : list Z) : Z := xstr_hash_loop 5381 s.

Definition xstr_equal (s1 s2 : list Z) : bool := bool_decide (s1 = s2).

Definition g_direct_hash (v : Z) : Z := u32 v.
Definition g_direct_equal (v1 v2 : Z) : bool := v1 =? v2.

(** The integers the pointers point to. *)
Definition g_int_hash (v : Z) : Z := u32 v.
Definition g_int_equal (v1 v2 : Z) : bool := v1 =? v2.
Definition g_int64_hash (v : Z) : Z := u32 v.
Definition g_int64_equal (v1 v2 : Z) : bool := v1 =? v2.
