(* ===== verification/HashTableSpec.v ===== *)
(** * The promise of the hash table

    What a table stores, as a list of nodes; the invariant that every operation
    keeps; what the callbacks promise; what probing finds. *)

From S2P Require Import Prelude Dictionary HashTable.
Local Open Scope Z_scope.

(** ** Contents *)

(** A node: hash, key, value. *)
Abbreviation node := (Z * Z * Z)%type.
Definition node_hash (n : node) : Z := n.1.1.
Definition node_key (n : node) : Z := n.1.2.
Definition node_value (n : node) : Z := n.2.
Definition node_entry (n : node) : Z * Z := (node_key n, node_value n).

Definition real_node (n : node) : Prop := 2 <= node_hash n.
#[export] Instance real_node_dec n : Decision (real_node n) := Z_le_dec 2 (node_hash n).

(** Every bucket, then the buckets in use, then the entries of the table. *)
Definition nodes (t : table) : list node :=
  zip (zip (hashes t) (slots (keys t))) (slots (values_array t)).
Definition real_nodes (t : table) : list node := filter real_node (nodes t).
Definition entries (t : table) : list (Z * Z) := map node_entry (real_nodes t).

(** ** The invariant *)

(** The geometry for [2 ^ k] buckets. *)
Definition geometry (k : Z) (t : table) : Prop :=
  3 <= k <= 30 /\ size t = 2 ^ k /\ mod_ t = tbl prime_mod k /\ mask t = 2 ^ k - 1.

Definition cell_ok (is_big : bool) (c : Z) : Prop :=
  0 <= c < 2 ^ (if is_big then 64 else 32).

Definition array_ok (n : Z) (is_big : bool) (a : cells) : Prop :=
  big a = is_big /\ zlen (slots a) = n /\ Forall (cell_ok is_big) (slots a).

(** The arrays have [n] buckets and the widths the flags say. *)
Definition storage (n : Z) (t : table) : Prop :=
  zlen (hashes t) = n /\ Forall (fun h => 0 <= h < 2 ^ 32) (hashes t) /\
  array_ok n (have_big_keys t) (keys t) /\
  array_ok n (have_big_values t) (values_array t).

(** The [n]-th bucket that is probed for a hash. *)
Definition probe (t : table) (h n : Z) : Z :=
  (xhash_table_hash_to_index t h + n * (n + 1) / 2) mod size t.

(** Bucket [i] is reached from hash [h] through buckets that [taken] holds of. *)
Definition reached (taken : Z -> Prop) (t : table) (h i : Z) : Prop :=
  exists n, 0 <= n < size t /\ probe t h n = i /\ forall m, 0 <= m < n -> taken (probe t h m).

(** Bucket [i] has been used since the last resize. *)
Definition occupied (t : table) (i : Z) : Prop :=
  exists h, rd (hashes t) i = Some h /\ h <> UNUSED_HASH_VALUE.

(** The structure of a table: its arrays and counters agree, some bucket is
    unused, and every node is on the probe path of its hash. *)
Record structured (t : table) : Prop := Structured {
  st_geometry : exists k, geometry k t;
  st_storage : storage (size t) t;
  st_nnodes : nnodes t = zlen (real_nodes t);
  st_noccupied : noccupied t = zlen (filter (fun h => h <> UNUSED_HASH_VALUE) (hashes t));
  st_load : noccupied t + noccupied t / 16 < size t;
  st_reached : forall i n, nodes t !! i = Some n -> real_node n ->
    reached (occupied t) t (node_hash n) (Z.of_nat i)
}.

(** Tables that one more insertion cannot outgrow: [nnodes * 4] fits an [int]
    with one more node, and with one node less. *)
Definition room (t : table) : Prop := nnodes t < 2 ^ 29 - 1.
Definition room_after_removal (t : table) : Prop := nnodes t <= 2 ^ 29.

Section Spec.
Context (hash_func : Z -> Z) (key_equal_func : option (Z -> Z -> bool)).

(** What the caller's hash and equality functions promise. *)
Class KeysOk : Prop := {
  match_refl : forall a, keys_match key_equal_func a a = true;
  match_sym : forall a b, keys_match key_equal_func a b = true -> keys_match key_equal_func b a = true;
  match_trans : forall a b c, keys_match key_equal_func a b = true ->
    keys_match key_equal_func b c = true -> keys_match key_equal_func a c = true;
  match_hash : forall a b, keys_match key_equal_func a b = true -> hash_func a = hash_func b;
  hash_range : forall a, 0 <= hash_func a < 2 ^ 32
}.

Definition matches (k : Z) (n : node) : Prop := keys_match key_equal_func (node_key n) k = true.
#[export] Instance matches_dec k n : Decision (matches k n) := decide (_ = true).

(** The nodes carry the hashes of their keys and no two keys are equal. *)
Definition nodes_ok (l : list node) : Prop :=
  Forall (fun n => node_hash n = hash_value_of hash_func (node_key n)) l /\
  forall k, (length (filter (matches k) l) <= 1)%nat.

(** The invariant of the hash table. *)
Definition valid (t : table) : Prop := structured t /\ nodes_ok (real_nodes t).

Lemma nnodes_entries t : valid t -> nnodes t = zlen (entries t).
Proof. intros [[_ _ -> _ _ _] _]. unfold entries, zlen. by rewrite length_map. Qed.
End Spec.

(** ** Probing and lookup in the hash table

    Triangular probing visits every bucket of a table whose size is a power of
    two, so a lookup in a table with an unused bucket ends; what it returns. *)

(** ** Probing *)

Lemma triangle_double n : 2 * (n * (n + 1) / 2) = n * (n + 1).
Proof.
  assert (Z.even (n * (n + 1)) = true) as H
    by (rewrite Z.even_mul, Z.even_add; by destruct (Z.even n)).
  apply Z.even_spec in H as [m ->]. rewrite (Z.mul_comm 2 m), Z.div_mul; lia.
Qed.

(** Distinct triangular numbers below the size fall into distinct buckets. *)
Lemma triangle_inj k s a b :
  0 <= k -> 0 <= a < 2 ^ k -> 0 <= b < 2 ^ k ->
  (s + a * (a + 1) / 2) mod 2 ^ k = (s + b * (b + 1) / 2) mod 2 ^ k -> a = b.
Proof.
  intros Hk Ha Hb E.
  assert (2 ^ (k + 1) | (a - b) * (a + b + 1)) as Hd.
  { exists ((s + a * (a + 1) / 2) / 2 ^ k - (s + b * (b + 1) / 2) / 2 ^ k).
    rewrite Z.pow_add_r by lia. change (2 ^ 1) with 2.
    pose proof (Z.div_mod (s + a * (a + 1) / 2) (2 ^ k) ltac:(lia)).
    pose proof (Z.div_mod (s + b * (b + 1) / 2) (2 ^ k) ltac:(lia)).
    pose proof (triangle_double a). pose proof (triangle_double b). nia. }
  replace (k + 1) with (Z.of_nat (Z.to_nat (k + 1))) in Hd by lia.
  destruct (Z.odd (a + b + 1)) eqn:Ho.
  - rewrite Z.mul_comm in Hd. apply pow2_divide_odd in Hd; [|done].
    rewrite Z2Nat.id, Z.pow_add_r in Hd by lia. destruct Hd as [q Hq].
    change (2 ^ 1) with 2 in Hq. assert (q = 0) by nia. nia.
  - apply pow2_divide_odd in Hd.
    + rewrite Z2Nat.id, Z.pow_add_r in Hd by lia. destruct Hd as [q Hq].
      change (2 ^ 1) with 2 in Hq. assert (0 < q) by nia. nia.
    + replace (a + b + 1) with ((a - b + 1) + 2 * b) in Ho by lia.
      rewrite Z.odd_add_mul_2, Z.odd_add in Ho. by destruct (Z.odd (a - b)).
Qed.

Lemma prime_mod_range k : 3 <= k <= 30 -> 0 < tbl prime_mod k <= 2 ^ k.
Proof.
  intros Hk.
  pose proof (range_check (fun k => (0 <? tbl prime_mod k) && (tbl prime_mod k <=? 2 ^ k)) 3 28 k
    ltac:(by vm_compute) ltac:(lia)) as H. cbv beta in H. zprops. lia.
Qed.

Section probing.
Context (k : Z) (t : table) (Hg : geometry k t).

Lemma size_pow2 : size t = 2 ^ k /\ 8 <= size t <= 2 ^ 30.
Proof.
  destruct Hg as (Hk & -> & _). split; [done|]. split.
  - apply (Z.pow_le_mono_r 2 3 k); lia.
  - apply (Z.pow_le_mono_r 2 k 30); lia.
Qed.

Lemma start_range h : 0 <= xhash_table_hash_to_index t h < size t.
Proof.
  destruct Hg as (Hk & Hs & Hm & _). unfold xhash_table_hash_to_index. rewrite Hm, Hs.
  pose proof (prime_mod_range k Hk).
  pose proof (Z.mod_pos_bound (u32 (h * 11)) (tbl prime_mod k) ltac:(lia)). lia.
Qed.

Lemma probe_range h n : 0 <= probe t h n < size t.
Proof. apply Z.mod_pos_bound. pose proof size_pow2. lia. Qed.

Lemma probe_0 h : probe t h 0 = xhash_table_hash_to_index t h.
Proof. unfold probe. rewrite Z.add_0_r. apply Z.mod_small, start_range. Qed.

(** The index arithmetic of the loops computes the next probe. *)
Lemma next_index_probe h n :
  0 <= n < size t -> next_index t (probe t h n) (n + 1) = probe t h (n + 1).
Proof.
  intros Hn. pose proof (probe_range h n) as Hp. pose proof size_pow2 as [Hs ?].
  destruct Hg as (Hk & _ & _ & Hm). unfold next_index. rewrite wrap_small by lia.
  rewrite Hm, land_low by lia. unfold probe. rewrite <- Hs, Zplus_mod_idemp_l.
  f_equal. pose proof (triangle_double n). pose proof (triangle_double (n + 1)). lia.
Qed.

Lemma probe_inj h a b :
  0 <= a < size t -> 0 <= b < size t -> probe t h a = probe t h b -> a = b.
Proof.
  pose proof size_pow2 as [Hs ?]. unfold probe. rewrite Hs. intros.
  eapply triangle_inj; eauto. destruct Hg. lia.
Qed.

(** Every bucket is probed within [size] steps. *)
Lemma probe_surj h i : 0 <= i < size t -> exists n, 0 <= n < size t /\ probe t h n = i.
Proof.
  intros Hi. set (N := Z.to_nat (size t)).
  set (l := map (fun n => Z.to_nat (probe t h (Z.of_nat n))) (seq 0 N)).
  assert (l ≡ₚ seq 0 N) as HP.
  { apply submseteq_length_Permutation; [|unfold l; by rewrite length_map].
    apply NoDup_submseteq.
    - apply NoDup_fmap_2_strong; [|apply NoDup_seq]. intros x y Hx Hy E.
      apply elem_of_seq in Hx, Hy. pose proof (probe_range h (Z.of_nat x)).
      pose proof (probe_range h (Z.of_nat y)).
      apply Nat2Z.inj, (probe_inj h); unfold N in *; lia.
    - intros x Hx. apply list_elem_of_fmap in Hx as (n & -> & _). apply elem_of_seq.
      pose proof (probe_range h (Z.of_nat n)). unfold N. lia. }
  assert (Z.to_nat i ∈ l) as Hin by (rewrite HP; apply elem_of_seq; unfold N; lia).
  apply list_elem_of_fmap in Hin as (n & E & Hn). apply elem_of_seq in Hn.
  exists (Z.of_nat n). pose proof (probe_range h (Z.of_nat n)). unfold N in *. lia.
Qed.
End probing.

(** ** Reading buckets *)

Section reading.
Context (n : Z) (t : table) (Hs : storage n t).

Lemma nodes_zlen : zlen (nodes t) = n.
Proof.
  destruct Hs as (H1 & _ & (_ & H2 & _) & (_ & H3 & _)). unfold nodes, zlen in *.
  rewrite !length_zip_with. lia.
Qed.

(** A bucket of the table, read from the three arrays. *)
Lemma bucket i :
  0 <= i < n -> exists h k v,
    nodes t !! Z.to_nat i = Some (h, k, v) /\ rd (hashes t) i = Some h /\
    xhash_table_fetch_key_or_value (keys t) i (have_big_keys t) = Some k /\
    xhash_table_fetch_key_or_value (values_array t) i (have_big_values t) = Some v /\
    0 <= h < 2 ^ 32 /\ cell_ok (have_big_keys t) k /\ cell_ok (have_big_values t) v.
Proof.
  intros Hi. destruct Hs as (H1 & F1 & (B2 & H2 & F2) & (B3 & H3 & F3)). unfold zlen in *.
  destruct (lookup_lt_is_Some_2 (hashes t) (Z.to_nat i)) as [h Eh]; [lia|].
  destruct (lookup_lt_is_Some_2 (slots (keys t)) (Z.to_nat i)) as [k Ek]; [lia|].
  destruct (lookup_lt_is_Some_2 (slots (values_array t)) (Z.to_nat i)) as [v Ev]; [lia|].
  exists h, k, v. unfold xhash_table_fetch_key_or_value, nodes.
  rewrite B2, B3, !Bool.eqb_reflx, !rd_ge_0 by lia.
  rewrite !lookup_zip_with, Eh, Ek, Ev. rewrite Forall_lookup in F1, F2, F3.
  pose proof (F1 _ _ Eh) as [? ?]. pose proof (F2 _ _ Ek). pose proof (F3 _ _ Ev).
  by split_and!.
Qed.

Lemma bucket_range i nd : nodes t !! i = Some nd -> Z.of_nat i < n.
Proof. intros H. apply lookup_lt_Some in H. pose proof nodes_zlen. unfold zlen in *. lia. Qed.
End reading.

(** ** Lookup *)

Section lookup.
Context (hash_func : Z -> Z) (key_equal_func : option (Z -> Z -> bool)).
Context (k : Z) (t : table) (Hg : geometry k t) (Hs : storage (size t) t).
Context (key h : Z) (Hh : 2 <= h).

(** The node of bucket [i] is not the one that is looked for. *)
Definition mismatch (i : Z) : Prop :=
  forall nd, nodes t !! Z.to_nat i = Some nd -> ~ (node_hash nd = h /\ matches key_equal_func key nd).

(** The first [n] probes: all occupied, none is the node. *)
Definition passed (n : Z) : Prop :=
  forall m, 0 <= m < n -> occupied t (probe t h m) /\ mismatch (probe t h m).

(** Where the search ends: on the node, or on a bucket to put it in, once it is
    known not to be in the table. *)
Definition search_result (i : Z) : Prop :=
  (exists nd, nodes t !! Z.to_nat i = Some nd /\ node_hash nd = h /\ matches key_equal_func key nd /\
     0 <= i < size t) \/
  (exists m, 0 <= m < size t /\ passed m /\ rd (hashes t) (probe t h m) = Some 0 /\
     reached (occupied t) t h i /\ exists hi, rd (hashes t) i = Some hi /\ hi < 2).

Definition tombstone_ok (o : option Z) : Prop :=
  match o with
  | Some j => reached (occupied t) t h j /\ rd (hashes t) j = Some 1
  | None => True
  end.

Lemma passed_reached n : 0 <= n < size t -> passed n -> reached (occupied t) t h (probe t h n).
Proof. intros Hn Hp. exists n. split_and!; [lia..|done|]. intros m Hm. apply Hp. lia. Qed.

Lemma lookup_node_loop_ok fuel n o n0 :
  0 <= n <= n0 -> n0 < size t -> rd (hashes t) (probe t h n0) = Some 0 ->
  n0 - n < Z.of_nat fuel -> passed n -> tombstone_ok o ->
  exists i, lookup_node_loop key_equal_func fuel t key h (probe t h n) n o = Some i /\ search_result i.
Proof.
  revert n o. induction fuel as [|fuel IH]; intros n o Hn Hn0 H0 Hf Hp Ho; [lia|].
  destruct (bucket (size t) t Hs (probe t h n) (probe_range k t Hg h n))
    as (hi & ki & vi & En & Eh & Ek & _).
  cbn [lookup_node_loop]. rewrite Eh. cbn [mbind option_bind]. unfold HASH_IS_UNUSED.
  destruct (Z.eqb_spec hi UNUSED_HASH_VALUE) as [->|Hne].
  { eexists; split; [done|]. right. exists n. split_and!; [lia..|done|done| |].
    - destruct o as [j|]; [apply Ho|]. apply passed_reached; [lia|done].
    - destruct o as [j|]; [exists 1|exists 0]; (split; [|lia]); [apply Ho|done]. }
  assert (n < n0) as Hlt.
  { destruct (decide (n = n0)) as [->|]; [|lia]. rewrite Eh in H0. by injection H0. }
  assert (occupied t (probe t h n)) as Hocc by (by exists hi).
  assert (forall o', mismatch (probe t h n) -> tombstone_ok o' -> exists i,
    lookup_node_loop key_equal_func fuel t key h (next_index t (probe t h n) (n + 1)) (n + 1) o'
      = Some i /\ search_result i) as Hnext.
  { intros o' Hm Ho'. rewrite (next_index_probe k t Hg) by lia. apply IH; try lia; try done.
    intros m Hm'. destruct (decide (m = n)) as [->|]; [done|]. apply Hp. lia. }
  destruct (Z.eqb_spec hi h) as [->|Hh'].
  - rewrite Ek. cbn [mbind option_bind negb andb]. destruct (keys_match key_equal_func ki key) eqn:Em.
    + exists (probe t h n). split; [done|]. left. exists (h, ki, vi).
      pose proof (probe_range k t Hg h n). done.
    + apply Hnext; [|done]. intros nd End [_ Hmt]. rewrite En in End. injection End as <-.
      unfold matches in Hmt. cbn in Hmt. congruence.
  - cbn [mbind option_bind negb andb]. apply Hnext.
    + intros nd End [Hc _]. rewrite En in End. by injection End as <-.
    + unfold HASH_IS_TOMBSTONE. destruct (Z.eqb_spec hi TOMBSTONE_HASH_VALUE) as [->|]; [|done].
      destruct o as [j|]; [done|]. split; [|done]. apply passed_reached; [lia|done].
Qed.
End lookup.
