(* ===== verification/HashTableResize.v ===== *)
(** * Resizing the hash table in place

    [xhash_table_resize] rehashes the nodes inside the arrays, tracking the
    settled buckets in a bitmap. It ends, keeps the nodes, clears the
    tombstones and leaves every node on the probe path of its hash. *)

From S2P Require Import Prelude HashTable HashTableSpec.
Local Open Scope Z_scope.

(** ** Definitions of the proof *)

(** The writes of the code to bucket [i], together. *)
Definition put (t : table) (i h k v : Z) : table :=
  let upd (x : Z) (a : cells) := Cells (big a) (<[Z.to_nat i := x]> (slots a)) in
  with_values (upd v <$> values t)
    (with_keys (upd k (keys t)) (with_hashes (<[Z.to_nat i := h]> (hashes t)) t)).

(** What is stored for a value: a set has no array of values. *)
Definition stored_value (t : table) (k v : Z) : Z := if is_a_set t then k else v.

(** The settled buckets. *)
Definition fixed (bm : list Z) (i : Z) : Prop := get_status_bit bm i = Some true.

#[export] Instance fixed_dec bm i : Decision (fixed bm i) := decide (_ = _).

Definition bitmap_ok (n : Z) (bm : list Z) : Prop := n <= 32 * zlen bm.

Definition free (bm : list Z) (n : Z) : nat :=
  length (filter (fun i => get_status_bit bm i = Some false) (seqZ 0 n)).

(** During a resize: the settled buckets hold nodes, on their probe paths. *)
Definition settled (t : table) (bm : list Z) : Prop :=
  forall j, fixed bm j -> 0 <= j < size t /\
    exists nd, nodes t !! Z.to_nat j = Some nd /\ real_node nd /\
      reached (fixed bm) t (node_hash nd) j.

(** Everything but the arrays is the same. *)
Definition same_shape (t t' : table) : Prop :=
  size t' = size t /\ mod_ t' = mod_ t /\ mask t' = mask t /\ nnodes t' = nnodes t /\
  noccupied t' = noccupied t /\ have_big_keys t' = have_big_keys t /\
  have_big_values t' = have_big_values t /\ is_a_set t' = is_a_set t /\
  version t' = version t /\ ref_count t' = ref_count t.

(** ** Writing a bucket *)

Lemma same_shape_refl t : same_shape t t.
Proof. done. Qed.

Lemma same_shape_trans t1 t2 t3 : same_shape t1 t2 -> same_shape t2 t3 -> same_shape t1 t3.
Proof. unfold same_shape. intuition congruence. Qed.

Lemma put_shape t i h k v : same_shape t (put t i h k v).
Proof. unfold same_shape, put, is_a_set. cbn. by destruct (values t). Qed.

Lemma array_ok_insert n b a i x :
  array_ok n b a -> cell_ok b x -> array_ok n b (Cells (big a) (<[i := x]> (slots a))).
Proof.
  intros (Hb & Hl & Hf) Hx. split_and!; cbn; [done| |].
  - unfold zlen in *. by rewrite length_insert.
  - by apply Forall_insert.
Qed.

Lemma values_array_put t i h k v :
  values_array (put t i h k v) =
  Cells (big (values_array t)) (<[Z.to_nat i := stored_value t k v]> (slots (values_array t))).
Proof. unfold values_array, stored_value, is_a_set, put. cbn. by destruct (values t). Qed.

Lemma storage_put n t i h k v :
  storage n t -> 0 <= h < 2 ^ 32 -> cell_ok (have_big_keys t) k ->
  cell_ok (have_big_values t) (stored_value t k v) -> storage n (put t i h k v).
Proof.
  intros (H1 & F1 & K & V) Hh Hk Hv. split_and!.
  - unfold zlen in *. cbn. by rewrite length_insert.
  - cbn. by apply Forall_insert.
  - by apply array_ok_insert.
  - rewrite values_array_put. by apply array_ok_insert.
Qed.

Lemma nodes_put t i h k v :
  nodes (put t i h k v) = <[Z.to_nat i := (h, k, stored_value t k v)]> (nodes t).
Proof. unfold nodes. rewrite values_array_put. cbn. by rewrite !insert_zip_with. Qed.

Lemma fit_ok b c : cell_ok b c -> fit b c = c.
Proof. unfold cell_ok, fit. destruct b; [done|]. apply wrap_small. Qed.

Section writes.
Context (n : Z) (t : table) (Hs : storage n t) (i : Z) (Hi : 0 <= i < n).

Lemma assign_ok a b x :
  array_ok n b a -> cell_ok b x ->
  xhash_table_assign_key_or_value a i b x = Some (Cells (big a) (<[Z.to_nat i := x]> (slots a))).
Proof.
  intros (<- & Hl & _) Hx. unfold xhash_table_assign_key_or_value.
  rewrite Bool.eqb_reflx, fit_ok, wr_all by (done || lia). done.
Qed.

Lemma hash_write_ok h : wr (hashes t) i h = Some (<[Z.to_nat i := h]> (hashes t)).
Proof. destruct Hs as (H1 & _). apply wr_all. lia. Qed.

(** [EVICT_KEYVAL] after the write of the hash. *)
Lemma evict_keyval_ok h k v h0 k0 v0 :
  nodes t !! Z.to_nat i = Some (h0, k0, v0) ->
  cell_ok (have_big_keys t) k -> (is_a_set t = false -> cell_ok (have_big_values t) v) ->
  EVICT_KEYVAL (is_a_set t) (with_hashes (<[Z.to_nat i := h]> (hashes t)) t) i k v =
  Some (put t i h k v, k0, if is_a_set t then v else v0).
Proof.
  intros Hn Hk Hv. destruct (bucket n t Hs i Hi) as (h' & k' & v' & Hn' & _ & Ek & Ev & _).
  rewrite Hn in Hn'. injection Hn' as <- <- <-. destruct Hs as (_ & _ & Hks & Hvs).
  unfold EVICT_KEYVAL, xhash_table_evict_key_or_value.
  destruct t as [sz md mk nn no bk bv ks hs vs ver rc]. unfold values_array in *. simpl in *.
  rewrite Ek. simpl. rewrite (assign_ok ks) by done. destruct vs as [a|]; [|done].
  simpl in *. rewrite Ev. simpl. by rewrite (assign_ok a) by auto.
Qed.

Lemma assign_keyval_ok h k v :
  cell_ok (have_big_keys t) k -> (is_a_set t = false -> cell_ok (have_big_values t) v) ->
  ASSIGN_KEYVAL (is_a_set t) (with_hashes (<[Z.to_nat i := h]> (hashes t)) t) i k v =
  Some (put t i h k v).
Proof.
  intros Hk Hv. destruct Hs as (_ & _ & Hks & Hvs). unfold ASSIGN_KEYVAL.
  destruct t as [sz md mk nn no bk bv ks hs vs ver rc]. unfold values_array in *. simpl in *.
  rewrite (assign_ok ks) by done. destruct vs as [a|]; [|done].
  simpl in *. by rewrite (assign_ok a) by auto.
Qed.
End writes.

(** ** The bitmap *)

Lemma status_bit w b : 0 <= b -> negb (Z.land (Z.shiftr w b) 1 =? 0) = Z.testbit w b.
Proof.
  intros Hb. rewrite (land_low _ 1) by lia. change (2 ^ 1) with 2.
  rewrite <- Z.bit0_mod, Z.shiftr_spec, Z.add_0_l by lia. by destruct (Z.testbit w b).
Qed.

Section bitmap.
Context (n : Z) (bm : list Z) (Hbm : bitmap_ok n bm).

Lemma bitmap_word i : 0 <= i < n -> exists w, rd bm (i / 32) = Some w.
Proof.
  intros Hi. unfold bitmap_ok, zlen in *. rewrite rd_ge_0 by zify_div.
  destruct (lookup_lt_is_Some_2 bm (Z.to_nat (i / 32))) as [w Hw]; [zify_div|]. by exists w.
Qed.

Lemma get_status_bit_word i w : 0 <= i -> rd bm (i / 32) = Some w ->
  get_status_bit bm i = Some (Z.testbit w (i mod 32)).
Proof.
  intros Hi Hw. unfold get_status_bit. rewrite Hw. cbn [mbind option_bind].
  rewrite status_bit by zify_div. done.
Qed.

Lemma get_status_bit_total i : 0 <= i < n -> exists b, get_status_bit bm i = Some b.
Proof.
  intros Hi. destruct (bitmap_word i Hi) as [w Hw]. eexists. apply get_status_bit_word; [lia|done].
Qed.

Lemma set_status_bit_ok i :
  0 <= i < n -> exists bm', set_status_bit bm i = Some bm' /\ bitmap_ok n bm' /\
    forall j, 0 <= j -> get_status_bit bm' j = if decide (j = i) then Some true else get_status_bit bm j.
Proof.
  intros Hi. destruct (bitmap_word i Hi) as [w Hw]. unfold set_status_bit.
  rewrite Hw. cbn [mbind option_bind].
  assert (0 <= i / 32 < zlen bm) as Hr by (unfold bitmap_ok in Hbm; zify_div).
  rewrite wr_all by done. eexists. split; [done|]. split.
  { unfold bitmap_ok, zlen in *. by rewrite length_insert. }
  intros j Hj. unfold get_status_bit at 1. rewrite rd_ge_0 by zify_div.
  destruct (decide (j / 32 = i / 32)) as [E|E].
  - rewrite E, list_lookup_insert_eq by (unfold zlen in Hr; lia). cbn [mbind option_bind].
    rewrite status_bit, Z.lor_spec by zify_div. rewrite Z.shiftl_spec by zify_div.
    case_decide as Ed.
    + subst. by rewrite Z.sub_diag, orb_true_r.
    + rewrite <- E in Hw. rewrite (get_status_bit_word j w) by (done || lia).
      assert (j mod 32 - i mod 32 <> 0) as Hd by zify_div.
      enough (Z.testbit 1 (j mod 32 - i mod 32) = false) as -> by (by rewrite orb_false_r).
      destruct (Z.ltb_spec (j mod 32 - i mod 32) 0) as [Hlt|Hge]; [by apply Z.testbit_neg_r|].
      apply Z.bits_above_log2; [lia|]. change (Z.log2 1) with 0. lia.
  - rewrite list_lookup_insert_ne by zify_div. rewrite decide_False by congruence.
    unfold get_status_bit. by rewrite rd_ge_0 by zify_div.
Qed.
End bitmap.

Lemma fixed_set n bm bm' i :
  (forall j, 0 <= j -> get_status_bit bm' j = if decide (j = i) then Some true else get_status_bit bm j) ->
  0 <= i < n -> get_status_bit bm i = Some false -> (free bm' n < free bm n)%nat.
Proof.
  intros H Hi Hf. unfold free.
  assert (i :: filter (fun j => get_status_bit bm' j = Some false) (seqZ 0 n)
    ⊆+ filter (fun j => get_status_bit bm j = Some false) (seqZ 0 n)) as Hsub.
  { apply NoDup_submseteq.
    - constructor; [|apply NoDup_filter, NoDup_seqZ].
      rewrite list_elem_of_filter. intros [Hc _]. rewrite H, decide_True in Hc by (done || lia). done.
    - intros j. rewrite elem_of_cons, !list_elem_of_filter, elem_of_seqZ.
      intros [->|[Hj Hr]]; [split; [done|lia]|]. rewrite H in Hj by lia.
      case_decide; [done|]. done. }
  apply submseteq_length in Hsub. cbn in Hsub. lia.
Qed.

Lemma free_le bm n : (free bm n <= Z.to_nat n)%nat.
Proof. unfold free. etrans; [apply length_filter|]. by rewrite length_seqZ. Qed.

(** ** Finding a free bucket, and placing nodes *)

Section placing.
Context (k n : Z).

(** What the placing loop runs under: [n] buckets in the arrays, of which the
    new size are in use. *)
Definition resizing (t : table) (bm : list Z) : Prop :=
  geometry k t /\ size t <= n /\ storage n t /\ bitmap_ok n bm /\ settled t bm.

(** With a node in hand there is a bucket that is not settled. *)
Lemma free_bucket t bm :
  resizing t bm -> zlen (real_nodes t) < size t ->
  exists i, 0 <= i < size t /\ get_status_bit bm i = Some false.
Proof.
  intros (Hg & Hn & Hs & Hb & Hset) Hlen.
  destruct (decide (Exists (fun i => get_status_bit bm i = Some false) (seqZ 0 (size t)))) as [He|Hno].
  { apply Exists_exists in He as (i & Hi & E). apply elem_of_seqZ in Hi. exists i. split; [lia|done]. }
  exfalso. assert (Forall real_node (take (Z.to_nat (size t)) (nodes t))) as Hall.
  { rewrite Forall_lookup. intros j nd Hj. apply lookup_take_Some in Hj as [Hj Hlt].
    destruct (get_status_bit_total n bm Hb (Z.of_nat j) ltac:(lia)) as [[] E].
    - destruct (Hset (Z.of_nat j) E) as (_ & nd' & Hj' & Hr & _).
      rewrite Nat2Z.id, Hj in Hj'. by injection Hj' as <-.
    - exfalso. apply Hno, Exists_exists. exists (Z.of_nat j). split; [apply elem_of_seqZ; lia|done]. }
  unfold real_nodes in Hlen. rewrite <- (take_drop (Z.to_nat (size t)) (nodes t)) in Hlen.
  rewrite filter_app, zlen_app in Hlen. rewrite (filter_all _ _ Hall) in Hlen.
  pose proof (nodes_zlen n t Hs). pose proof (size_pow2 k t Hg).
  unfold zlen in *. rewrite length_take in Hlen. lia.
Qed.

Lemma resize_probe_ok fuel t bm h m i0 n0 :
  resizing t bm -> 0 <= m <= n0 -> n0 < size t -> probe t h n0 = i0 ->
  get_status_bit bm i0 = Some false -> n0 - m < Z.of_nat fuel ->
  (forall m', 0 <= m' < m -> fixed bm (probe t h m')) ->
  exists i, resize_probe fuel t bm (probe t h m) m = Some i /\ 0 <= i < size t /\
    get_status_bit bm i = Some false /\ reached (fixed bm) t h i.
Proof.
  intros (Hg & Hn & Hs & Hb & Hset) Hm Hn0 <- Hf. revert m Hm.
  induction fuel as [|fuel IH]; intros m Hm Hfu Hp; [lia|]. cbn [resize_probe].
  pose proof (probe_range k t Hg h m).
  destruct (get_status_bit_total n bm Hb (probe t h m) ltac:(lia)) as [[] E];
    rewrite E; cbn [mbind option_bind].
  - assert (m <> n0) by (intros ->; congruence).
    rewrite (next_index_probe k t Hg) by lia. apply IH; [lia..|].
    intros m' Hm'. destruct (decide (m' = m)) as [->|]; [done|]. apply Hp. lia.
  - eexists. split_and!; [done|lia|lia|done|]. exists m. split_and!; [lia..|done|done].
Qed.

Lemma resize_probe_start t bm h :
  resizing t bm -> zlen (real_nodes t) < size t ->
  exists i, resize_probe (S (Z.to_nat (size t))) t bm (xhash_table_hash_to_index t h) 0 = Some i /\
    0 <= i < size t /\ get_status_bit bm i = Some false /\ reached (fixed bm) t h i.
Proof.
  intros HR Hlen. destruct (free_bucket t bm HR Hlen) as (i0 & Hi0 & Hf).
  pose proof HR as (Hg & _). destruct (probe_surj k t Hg h i0 Hi0) as (n0 & Hn0 & Ep).
  rewrite <- (probe_0 k t Hg). apply (resize_probe_ok _ t bm h 0 i0 n0); try done; lia.
Qed.

Lemma fixed_nonneg bm j : fixed bm j -> 0 <= j.
Proof.
  unfold fixed, get_status_bit, rd. intros Hf. destruct (Z.ltb_spec (j / 32) 0); [done|].
  zify_div.
Qed.

(** Settling bucket [i] with a node that may go there. *)
Lemma resizing_put t bm bm' i h ky v :
  resizing t bm -> 0 <= i < size t -> get_status_bit bm i = Some false ->
  (forall j, 0 <= j -> get_status_bit bm' j = if decide (j = i) then Some true else get_status_bit bm j) ->
  bitmap_ok n bm' -> reached (fixed bm) t h i -> 2 <= h < 2 ^ 32 ->
  cell_ok (have_big_keys t) ky -> cell_ok (have_big_values t) (stored_value t ky v) ->
  resizing (put t i h ky v) bm'.
Proof.
  intros (Hg & Hn & Hs & Hb & Hset) Hi Hf Hbits Hb' Hr Hh Hk Hv.
  split_and!; [done|done|apply storage_put; [done|lia|done..]|done|].
  assert (forall j, fixed bm j -> fixed bm' j) as Hmono.
  { intros j Hj. pose proof (fixed_nonneg bm j Hj). unfold fixed. rewrite Hbits by lia. by case_decide. }
  assert (forall h0 j, reached (fixed bm) t h0 j -> reached (fixed bm') (put t i h ky v) h0 j) as Hreach.
  { intros h0 j (m & Hm & Hp & Hall). exists m. split_and!; [apply Hm..|done|]. intros m' Hm'.
    by apply Hmono, Hall. }
  pose proof (nodes_zlen n t Hs) as Hl. unfold zlen in Hl.
  intros j Hj. pose proof (fixed_nonneg bm' j Hj). rewrite nodes_put. cbn [size put with_values].
  unfold fixed in Hj. rewrite Hbits in Hj by lia. case_decide as E.
  - subst j. split; [done|]. exists (h, ky, stored_value t ky v).
    rewrite list_lookup_insert_eq by lia. split_and!; [done|unfold real_node; cbn; lia|by apply Hreach].
  - destruct (Hset j Hj) as (Hjr & nd & Hnd & Hreal & Hrd). split; [done|]. exists nd.
    rewrite list_lookup_insert_ne by lia. split_and!; [done|done|by apply Hreach].
Qed.

(** What placing does to the buckets. *)
Definition placed (hand : node) (t t' : table) (bm bm' : list Z) : Prop :=
  resizing t' bm' /\ (real_nodes t' ≡ₚ hand :: real_nodes t) /\ same_shape t t' /\
  (forall j, fixed bm j -> fixed bm' j) /\
  (forall j : nat, ~ fixed bm' (Z.of_nat j) -> nodes t' !! j = nodes t !! j).

Lemma set_value_key t i nd : is_a_set t = true -> nodes t !! i = Some nd -> node_value nd = node_key nd.
Proof.
  unfold is_a_set, nodes, values_array. destruct (values t); [done|]. intros _. cbn.
  rewrite !lookup_zip_with. destruct (hashes t !! i); [|done]. cbn.
  destruct (slots (keys t) !! i); [|done]. cbn. by intros [= <-].
Qed.

Lemma resize_place_ok fuel t bm h ky v :
  resizing t bm -> zlen (real_nodes t) < size t -> 2 <= h < 2 ^ 32 ->
  cell_ok (have_big_keys t) ky -> cell_ok (have_big_values t) (stored_value t ky v) ->
  (free bm (size t) < fuel)%nat ->
  exists t' bm', resize_place fuel (is_a_set t) t bm h ky v = Some (t', bm') /\
    placed (h, ky, stored_value t ky v) t t' bm bm'.
Proof.
  revert t bm h ky v. induction fuel as [|fuel IH]; intros t bm h ky v HR Hlen Hh Hk Hv Hfu; [lia|].
  cbn [resize_place]. destruct (resize_probe_start t bm h HR Hlen) as (i & Ei & Hi & Hf & Hre).
  pose proof HR as (Hg & Hn & Hs & Hb & Hset).
  rewrite Ei. cbn [mbind option_bind].
  destruct (set_status_bit_ok n bm Hb i ltac:(lia)) as (bm1 & Eb & Hb1 & Hbits).
  rewrite Eb. cbn [mbind option_bind].
  destruct (bucket n t Hs i ltac:(lia)) as (h0 & k0 & v0 & En & Eh & Ek & Ev & Hh0 & Hk0 & Hv0).
  rewrite Eh. cbn [mbind option_bind]. rewrite (hash_write_ok n t Hs i) by lia. cbn [mbind option_bind].
  pose proof (resizing_put t bm bm1 i h ky v HR Hi Hf Hbits Hb1 Hre Hh Hk Hv) as HR1.
  set (t1 := put t i h ky v) in *.
  pose proof (put_shape t i h ky v) as Hsh1. fold t1 in Hsh1.
  assert (forall j, fixed bm j -> fixed bm1 j) as Hmono.
  { intros j Hj. pose proof (fixed_nonneg bm j Hj). unfold fixed. rewrite Hbits by lia. by case_decide. }
  assert (fixed bm1 i) as Hfi by (unfold fixed; rewrite Hbits by lia; by rewrite decide_True).
  assert (forall j : nat, ~ fixed bm1 (Z.of_nat j) -> nodes t1 !! j = nodes t !! j) as Hsame.
  { intros j Hj. unfold t1. rewrite nodes_put, list_lookup_insert_ne; [done|].
    intros E. apply Hj. rewrite <- E. by rewrite Z2Nat.id by lia. }
  pose proof (filter_insert_split real_node (nodes t) (Z.to_nat i) (h, ky, stored_value t ky v) _ En)
    as [P0 P1].
  rewrite <- nodes_put in P1. fold t1 in P1. fold (real_nodes t) in P0. fold (real_nodes t1) in P1.
  rewrite filter_cons_True in P1 by (unfold real_node; cbn; lia).
  unfold HASH_IS_REAL. destruct (Z.leb_spec 2 h0) as [Hr|Hr].
  - rewrite filter_cons_True in P0 by (unfold real_node; cbn; lia).
    assert (is_a_set t = false -> cell_ok (have_big_values t) v) as Hv'.
    { intros Ens. unfold stored_value in Hv. by rewrite Ens in Hv. }
    rewrite (evict_keyval_ok n t Hs i ltac:(lia) h ky v h0 k0 v0 En Hk Hv'). cbn [mbind option_bind].
    fold t1. assert (is_a_set t1 = is_a_set t) as Eset by (by apply Hsh1).
    assert (stored_value t1 k0 (if is_a_set t then v else v0) = v0) as Est.
    { unfold stored_value. rewrite Eset. destruct (is_a_set t) eqn:Es; [|done].
      by pose proof (set_value_key t _ _ Es En). }
    destruct (IH t1 bm1 h0 k0 (if is_a_set t then v else v0)) as (t2 & bm2 & E2 & HR2 & P2 & Hsh2 & Hm2 & Hs2).
    + done.
    + assert (zlen (real_nodes t1) = zlen (real_nodes t)) as -> by (unfold zlen; by rewrite P0, P1). done.
    + lia.
    + by destruct Hsh1 as (_ & _ & _ & _ & _ & -> & _).
    + rewrite Est. by destruct Hsh1 as (_ & _ & _ & _ & _ & _ & -> & _).
    + cbn [size t1 put with_values with_keys with_hashes].
      pose proof (fixed_set (size t) bm bm1 i Hbits Hi Hf). lia.
    + rewrite Eset in E2. exists t2, bm2. split; [done|]. rewrite Est in P2. split_and!.
      * done.
      * rewrite P2, P1, P0. apply perm_swap.
      * by eapply same_shape_trans.
      * intros j Hj. by apply Hm2, Hmono.
      * intros j Hj. rewrite Hs2 by done. apply Hsame. intros Hc. by apply Hj, Hm2.
  - rewrite filter_cons_False in P0 by (unfold real_node; cbn; lia).
    rewrite (assign_keyval_ok n t Hs i ltac:(lia)); [|done|].
    2:{ intros Ens. unfold stored_value in Hv. by rewrite Ens in Hv. }
    cbn [mbind option_bind]. fold t1. exists t1, bm1. split; [done|].
    split_and!; [done|by rewrite P1, P0|done..].
Qed.
End placing.

(** ** The loop over the old buckets *)

Lemma put_hash t i h h0 k0 v0 :
  nodes t !! Z.to_nat i = Some (h0, k0, v0) ->
  with_hashes (<[Z.to_nat i := h]> (hashes t)) t = put t i h k0 v0.
Proof.
  unfold nodes, put, values_array. rewrite !lookup_zip_with.
  destruct t as [sz md mk nn no bk bv [kb ks] hs vs ver rc]. cbn. intros E.
  destruct (hs !! _) eqn:E1; [|done]. destruct (ks !! _) eqn:E2; [|done]. cbn in E.
  destruct vs as [[vb vs]|]; cbn in *; rewrite ?E2 in E; cbn in E.
  - destruct (vs !! _) eqn:E3; [|done]. injection E as <- <- <-.
    by rewrite (list_insert_id ks), (list_insert_id vs).
  - injection E as <- <- <-. by rewrite (list_insert_id ks).
Qed.

Section loop.
Context (k n : Z).

(** The buckets that no longer hold an old node. *)
Definition cleared (t : table) (bm : list Z) (seen : nat -> Prop) : Prop :=
  forall j nd, seen j -> ~ fixed bm (Z.of_nat j) -> nodes t !! j = Some nd -> node_hash nd = 0.

Lemma resizing_clear t bm i ky v :
  resizing k n t bm -> 0 <= i < n -> ~ fixed bm i ->
  cell_ok (have_big_keys t) ky -> cell_ok (have_big_values t) (stored_value t ky v) ->
  resizing k n (put t i 0 ky v) bm.
Proof.
  intros (Hg & Hn & Hs & Hb & Hset) Hi Hf Hk Hv.
  split_and!; [done|done|apply storage_put; [done|lia|done..]|done|].
  intros j Hj. destruct (Hset j Hj) as (Hjr & nd & Hnd & Hreal & Hrd). split; [done|]. exists nd.
  rewrite nodes_put, list_lookup_insert_ne; [done|]. intros E. apply Hf.
  replace i with j by lia. done.
Qed.

Lemma cleared_put t bm seen i ky v :
  0 <= i -> cleared t bm seen ->
  cleared (put t i 0 ky v) bm (fun j => seen j \/ j = Z.to_nat i).
Proof.
  intros Hi Hc j nd Hj Hf. rewrite nodes_put.
  destruct (decide (j = Z.to_nat i)) as [->|Hne].
  - intros E. destruct (decide (Z.to_nat i < length (nodes t))%nat).
    + rewrite list_lookup_insert_eq in E by done. by injection E as <-.
    + rewrite list_insert_ge in E by lia. apply lookup_lt_Some in E. lia.
  - rewrite list_lookup_insert_ne by done. apply Hc; [|done]. by destruct Hj.
Qed.

Lemma cleared_mono t t' bm bm' (seen seen' : nat -> Prop) :
  cleared t bm seen -> (forall j, fixed bm j -> fixed bm' j) ->
  (forall j : nat, ~ fixed bm' (Z.of_nat j) -> nodes t' !! j = nodes t !! j) ->
  (forall j, seen' j -> ~ fixed bm' (Z.of_nat j) -> seen j) -> cleared t' bm' seen'.
Proof.
  intros Hc Hm Hn Hs j nd Hj Hf. rewrite Hn by done. apply Hc; [by apply Hs|]. intros Hf'. by apply Hf, Hm.
Qed.

(** The buckets seen when the loop comes to bucket [i] of [old]. *)
Definition seen_at (old i : Z) (j : nat) : Prop := Z.of_nat j < i \/ old <= Z.of_nat j.

(** What the loop keeps of the table. *)
Definition reshuffled (t t' : table) : Prop := (real_nodes t' ≡ₚ real_nodes t) /\ same_shape t t'.

Lemma resize_turn_ok old t bm i :
  resizing k n t bm -> cleared t bm (seen_at old i) -> zlen (real_nodes t) < size t -> 0 <= i < n ->
  exists t' bm', resize_turn (is_a_set t) t bm i = Some (t', bm') /\
    resizing k n t' bm' /\ cleared t' bm' (seen_at old (i + 1)) /\ reshuffled t t'.
Proof.
  intros HR Hc Hlen Hi. pose proof HR as (Hg & Hn & Hs & Hb & Hset).
  destruct (bucket n t Hs i Hi) as (h & k0 & v0 & En & Eh & Ek & Ev & Hh & Hk & Hv).
  unfold resize_turn. rewrite Eh. cbn [mbind option_bind].
  assert (0 <= i) as Hi0 by lia. assert (forall b, cell_ok b 0) as H0 by (intros []; unfold cell_ok; lia).
  assert (forall ky v t2 bm2, ~ fixed bm i ->
    (forall j, fixed bm j -> fixed bm2 j) ->
    (forall j : nat, ~ fixed bm2 (Z.of_nat j) -> nodes t2 !! j = nodes (put t i 0 ky v) !! j) ->
    cleared t2 bm2 (seen_at old (i + 1))) as Hclear.
  { intros ky v t2 bm2 Hf Hm Hn2.
    eapply cleared_mono; [apply (cleared_put t bm (seen_at old i) i ky v Hi0 Hc)|done..|].
    intros j [Hj|Hj] _; [|left; by right]. destruct (decide (Z.of_nat j = i)) as [<-|].
    - right. lia.
    - left. left. lia. }
  rewrite (hash_write_ok n t Hs i Hi). cbn [mbind option_bind].
  pose proof (fun ky v => filter_insert_split real_node (nodes t) (Z.to_nat i)
    (0, ky, stored_value t ky v) _ En) as P.
  unfold HASH_IS_REAL. destruct (Z.leb_spec 2 h) as [Hr|Hr].
  - destruct (get_status_bit_total n bm Hb i Hi) as [[] Eb]; rewrite Eb; cbn [mbind option_bind].
    + exists t, bm. split_and!; try done.
      intros j nd Hj Hf. apply Hc; [|done]. destruct Hj as [Hj|Hj]; [|by right].
      destruct (decide (Z.of_nat j = i)) as [<-|]; [by destruct Hf|]. left. lia.
    + assert (~ fixed bm i) as Hf by (unfold fixed; congruence).
      rewrite (evict_keyval_ok n t Hs i Hi _ 0 0 h k0 v0 En) by done. cbn [mbind option_bind].
      set (t1 := put t i 0 0 0). pose proof (put_shape t i 0 0 0) as Hsh. fold t1 in Hsh.
      destruct (P 0 0) as [P0 P1]. rewrite <- nodes_put in P1. fold t1 (real_nodes t1) (real_nodes t) in P0, P1.
      rewrite filter_cons_True in P0 by (unfold real_node; cbn; lia).
      rewrite filter_cons_False in P1 by (unfold real_node; cbn; lia).
      assert (resizing k n t1 bm) as HR1.
      { apply resizing_clear; try done. unfold stored_value. by destruct (is_a_set t). }
      destruct (resize_place_ok k n (S (Z.to_nat (size t1))) t1 bm h k0 (if is_a_set t then 0 else v0))
        as (t2 & bm2 & E2 & HR2 & P2 & Hsh2 & Hm2 & Hn2).
      * done.
      * unfold zlen in *. change (size t1) with (size t). rewrite P0 in Hlen. rewrite P1.
        cbn [length] in Hlen. lia.
      * lia.
      * by destruct Hsh as (_ & _ & _ & _ & _ & -> & _).
      * destruct Hsh as (_ & _ & _ & _ & _ & _ & -> & Eset & _). unfold stored_value. rewrite Eset.
        destruct (is_a_set t) eqn:Es; [|done]. pose proof (set_value_key t _ _ Es En) as Ekv. cbn in Ekv.
        by rewrite <- Ekv.
      * pose proof (free_le bm (size t1)). lia.
      * assert (is_a_set t1 = is_a_set t) as Eset by (by apply Hsh). rewrite Eset in E2.
        exists t2, bm2. split; [done|]. split_and!; [done| |split; [|by eapply same_shape_trans]].
        -- by apply (Hclear 0 0).
        -- rewrite P2, P0, P1. apply Permutation_cons; [|done].
           unfold stored_value. rewrite Eset. destruct (is_a_set t) eqn:Es; [|done].
           pose proof (set_value_key t _ _ Es En) as Ekv. cbn in Ekv. by rewrite Ekv.
  - cbn [mbind option_bind]. change UNUSED_HASH_VALUE with 0. rewrite (put_hash t i 0 h k0 v0 En).
    assert (~ fixed bm i) as Hf.
    { intros Hf. destruct (Hset i Hf) as (_ & nd & End & Hrn & _). rewrite En in End.
      injection End as <-. unfold real_node in Hrn. cbn in Hrn. lia. }
    assert (stored_value t k0 v0 = v0) as Est.
    { unfold stored_value. destruct (is_a_set t) eqn:Es; [|done].
      by pose proof (set_value_key t _ _ Es En). }
    eexists _, bm. split; [done|]. split_and!; [apply resizing_clear; [done..|by rewrite Est]|by apply (Hclear k0 v0)|split; [|apply put_shape]].
    unfold real_nodes. rewrite nodes_put. apply (filter_insert_none real_node _ _ _ _ En);
      unfold real_node; cbn; lia.
Qed.

Lemma resize_loop_ok old m t bm i :
  resizing k n t bm -> cleared t bm (seen_at old i) -> zlen (real_nodes t) < size t -> 0 <= i ->
  i + Z.of_nat m = old -> old <= n ->
  exists t' bm', resize_loop m (is_a_set t) t bm i = Some (t', bm') /\
    resizing k n t' bm' /\ cleared t' bm' (fun _ => True) /\ reshuffled t t'.
Proof.
  revert t bm i. induction m as [|m IH]; intros t bm i HR Hc Hlen Hi Hm Hn.
  - exists t, bm. split_and!; try done. intros j nd _. apply Hc. unfold seen_at. lia.
  - destruct (resize_turn_ok old t bm i HR Hc Hlen ltac:(lia)) as (t1 & bm1 & E1 & HR1 & Hc1 & P1 & S1).
    cbn [resize_loop]. rewrite E1. cbn [mbind option_bind].
    destruct (IH t1 bm1 (i + 1)) as (t2 & bm2 & E2 & HR2 & Hc2 & P2 & S2); try done; try lia.
    + destruct S1 as (-> & _). unfold zlen in *. by rewrite P1.
    + assert (is_a_set t1 = is_a_set t) as Eset by (by apply S1). rewrite Eset in E2.
      exists t2, bm2. split; [done|]. split_and!; [done|done|split; [by rewrite P2|by eapply same_shape_trans]].
Qed.
End loop.

(** ** The new size *)

Lemma find_closest_shift_loop_ok fuel n i :
  0 <= n < 2 ^ Z.of_nat fuel ->
  exists b, find_closest_shift_loop fuel n i = i + b /\ 0 <= b /\ n < 2 ^ b /\
    forall m, 0 <= m -> n < 2 ^ m -> b <= m.
Proof.
  revert n i. induction fuel as [|fuel IH]; intros n i Hn.
  - exists 0. cbn. split_and!; lia.
  - cbn [find_closest_shift_loop]. destruct (Z.eqb_spec n 0) as [->|Hn0].
    { exists 0. split_and!; lia. }
    rewrite Nat2Z.inj_succ, Z.pow_succ_r in Hn by lia.
    rewrite Z.shiftr_div_pow2 by lia. change (2 ^ 1) with 2.
    destruct (IH (n / 2) (i + 1)) as (b & -> & Hb & Hlt & Hmin); [zify_div|].
    exists (b + 1). rewrite Z.pow_add_r by lia. split_and!; [lia|lia|zify_div|].
    intros m Hm Hm2. destruct (Z.eqb_spec m 0) as [->|]; [cbn in Hm2; lia|].
    enough (b <= m - 1) by lia. apply Hmin; [lia|].
    replace m with (Z.succ (m - 1)) in Hm2 by lia. rewrite Z.pow_succ_r in Hm2 by lia. zify_div.
Qed.

Lemma round_53_error p : 0 <= p -> 2 ^ 53 * Z.abs (round_53 p - p) <= p.
Proof.
  intros Hp. unfold round_53. destruct (Z.leb_spec (Z.log2 p - 52) 0) as [He|He]; [lia|].
  assert (0 < p) as Hp0 by (destruct (Z.eqb_spec p 0) as [->|]; [cbn in He|]; lia).
  pose proof (Z.log2_spec p Hp0) as [Hl _].
  set (e := Z.log2 p - 52) in *. replace (Z.log2 p) with (53 + (e - 1)) in Hl by lia.
  rewrite Z.pow_add_r in Hl by lia.
  assert (2 ^ e = 2 * 2 ^ (e - 1)) as Ee by (rewrite <- Z.pow_succ_r by lia; f_equal; lia).
  pose proof (Z.pow_pos_nonneg 2 (e - 1) ltac:(lia) ltac:(lia)).
  pose proof (Z.div_mod p (2 ^ e) ltac:(lia)). pose proof (Z.mod_pos_bound p (2 ^ e) ltac:(lia)).
  destruct ((2 ^ (e - 1) <? p mod 2 ^ e) || _) eqn:Eb.
  - assert (2 ^ (e - 1) <= p mod 2 ^ e).
    { apply orb_prop in Eb as [E|E]; zprops; lia. }
    nia.
  - zprops. nia.
Qed.

(** The next size is beyond the nodes and a sixteenth more of them. *)
Lemma times_1_333_range n : 0 <= n <= 2 ^ 29 -> n + n / 16 <= times_1_333 n < 2 ^ 30.
Proof.
  intros Hn. unfold times_1_333. pose proof (round_53_error (n * 6003298303284871) ltac:(lia)) as He.
  set (r := round_53 _) in *. split.
  - apply Z.div_le_lower_bound; [lia|]. zify_div.
  - apply Z.div_lt_upper_bound; [lia|]. lia.
Qed.

Lemma shift_from_size_ok t n :
  0 <= n <= 2 ^ 29 -> exists k,
    let t' := xhash_table_set_shift_from_size t (times_1_333 n) in
    geometry k t' /\ n + n / 16 < size t' /\
    t' = with_geometry (2 ^ k) (tbl prime_mod k) (2 ^ k - 1) t.
Proof.
  intros Hn. pose proof (times_1_333_range n Hn) as Hr.
  unfold xhash_table_set_shift_from_size, xhash_table_find_closest_shift.
  destruct (find_closest_shift_loop_ok 32 (times_1_333 n) 0) as (b & -> & Hb & Hlt & Hmin); [cbn; zify_div|].
  specialize (Hmin 30 ltac:(lia) ltac:(lia)). rewrite Z.add_0_l.
  exists (Z.max b HASH_TABLE_MIN_SHIFT). unfold HASH_TABLE_MIN_SHIFT.
  unfold xhash_table_set_shift. rewrite Z.shiftl_1_l. cbn [size with_geometry].
  assert (2 ^ b <= 2 ^ Z.max b 3) by (apply Z.pow_le_mono_r; lia).
  split_and!; [|lia|done]. unfold geometry. split_and!; try done; lia.
Qed.

(** ** The whole operation *)

Section resize.
Context (uninit : Z) (Hu : 0 <= uninit < 2 ^ 32).

Abbreviation realloc := (xhash_table_realloc_key_or_value_array uninit).

Lemma realloc_grow l n :
  zlen l <= n -> realloc l n = l ++ replicate (Z.to_nat n - length l) uninit.
Proof.
  unfold zlen, xhash_table_realloc_key_or_value_array. intros. by rewrite take_ge by lia.
Qed.

Lemma realloc_shrink l n : n <= zlen l -> realloc l n = take (Z.to_nat n) l.
Proof.
  unfold zlen, xhash_table_realloc_key_or_value_array. intros.
  replace (Z.to_nat n - length l)%nat with 0%nat by lia. apply app_nil_r.
Qed.

Lemma cell_uninit b : cell_ok b uninit.
Proof. unfold cell_ok. destruct b; lia. Qed.

Lemma array_ok_grow b m n a :
  array_ok m b a -> m <= n -> array_ok n b (Cells (big a) (realloc (slots a) n)).
Proof.
  intros (Hb & Hl & Hf) Hmn. rewrite realloc_grow by lia. split_and!; cbn; [done| |].
  - rewrite zlen_app. unfold zlen in *. rewrite length_replicate. lia.
  - apply Forall_app. split; [done|]. apply Forall_replicate, cell_uninit.
Qed.

Lemma array_ok_shrink b m n a :
  array_ok m b a -> 0 <= n <= m -> array_ok n b (Cells (big a) (realloc (slots a) n)).
Proof.
  intros (Hb & Hl & Hf) Hmn. rewrite realloc_shrink by lia. split_and!; cbn; [done| |].
  - unfold zlen in *. rewrite length_take. lia.
  - by apply Forall_take.
Qed.

(** [realloc_arrays] commutes with the choice of the array of values. *)
Lemma values_array_realloc t :
  values_array (realloc_arrays uninit t (is_a_set t)) =
  Cells (big (values_array t)) (realloc (slots (values_array t)) (size t)).
Proof. unfold values_array, realloc_arrays, is_a_set. by destruct t as [????????? []]. Qed.

Lemma nodes_shrink t n :
  storage n t -> 0 <= size t <= n ->
  nodes (realloc_arrays uninit t (is_a_set t)) = take (Z.to_nat (size t)) (nodes t).
Proof.
  intros (H1 & _ & (_ & H2 & _) & (_ & H3 & _)) Hn. unfold nodes.
  rewrite values_array_realloc. cbn. rewrite !realloc_shrink by lia.
  by rewrite !zip_with_take.
Qed.

Lemma storage_shrink t n :
  storage n t -> 0 <= size t <= n -> storage (size t) (realloc_arrays uninit t (is_a_set t)).
Proof.
  intros (H1 & F1 & K & V) Hn. split_and!.
  - cbn. rewrite realloc_shrink by lia. unfold zlen in *. rewrite length_take. lia.
  - cbn. rewrite realloc_shrink by lia. by apply Forall_take.
  - by eapply array_ok_shrink.
  - rewrite values_array_realloc. by eapply array_ok_shrink.
Qed.

(** The arrays grown to the new size, the new hashes zeroed. *)
Definition grown (t : table) (old : Z) : table :=
  let t := realloc_arrays uninit t (is_a_set t) in
  with_hashes (take (Z.to_nat old) (hashes t) ++ replicate (Z.to_nat (size t - old)) 0) t.

Lemma hashes_grown t old :
  storage old t -> old <= size t ->
  hashes (grown t old) = hashes t ++ replicate (Z.to_nat (size t - old)) 0.
Proof.
  intros (H1 & _) Hn. unfold grown. cbn. rewrite realloc_grow by lia.
  rewrite take_app_le, take_ge by (unfold zlen in *; lia). done.
Qed.

Lemma values_array_grown t old :
  values_array (grown t old) =
  Cells (big (values_array t)) (realloc (slots (values_array t)) (size t)).
Proof. rewrite <- values_array_realloc. done. Qed.

Lemma storage_grown t old : storage old t -> old <= size t -> storage (size t) (grown t old).
Proof.
  intros Hs Hn. pose proof Hs as (H1 & F1 & K & V). split_and!.
  - rewrite hashes_grown by done. rewrite zlen_app, H1. unfold zlen in *. rewrite length_replicate. lia.
  - rewrite hashes_grown by done. apply Forall_app. split; [done|]. apply Forall_replicate. lia.
  - by eapply array_ok_grow.
  - rewrite values_array_grown. by eapply array_ok_grow.
Qed.

Lemma nodes_grown t old :
  storage old t -> old <= size t -> exists rest,
    nodes (grown t old) = nodes t ++ rest /\ Forall (fun nd => node_hash nd = 0) rest.
Proof.
  intros Hs Hn. pose proof Hs as (H1 & _ & (_ & H2 & _) & (_ & H3 & _)). unfold nodes.
  rewrite hashes_grown, values_array_grown by done. cbn. rewrite !realloc_grow by lia.
  unfold zlen in *. rewrite !zip_with_app by (rewrite ?length_zip_with; lia).
  eexists. split; [done|]. apply Forall_lookup. intros i nd E. rewrite !lookup_zip_with in E.
  repeat match type of E with
  | context [replicate ?n ?x !! i] =>
      let E' := fresh in destruct (replicate n x !! i) eqn:E'; simpl in E; [|done];
      apply lookup_replicate in E' as [-> _]
  end.
  by injection E as <-.
Qed.
End resize.

(** The bitmap at the start of the loop. *)
Lemma no_fixed m i : ~ fixed (replicate m 0) i.
Proof.
  unfold fixed, get_status_bit. destruct (rd _ _) eqn:E; [|done]. unfold rd in E.
  destruct (i / 32 <? 0); [done|]. apply lookup_replicate in E as [-> _]. simpl.
  by rewrite Z.shiftr_0_l.
Qed.

Lemma bitmap_ok_start n : 0 <= n -> bitmap_ok n (replicate (Z.to_nat ((n + 31) / 32)) 0).
Proof. intros. unfold bitmap_ok, zlen. rewrite length_replicate. zify_div. Qed.

Lemma resizing_start k n t :
  geometry k t -> size t <= n -> storage n t -> 0 <= n ->
  resizing k n t (replicate (Z.to_nat ((n + 31) / 32)) 0).
Proof.
  intros. split_and!; [done..|by apply bitmap_ok_start|]. intros j Hj. by apply no_fixed in Hj.
Qed.

Lemma reached_mono (P Q : Z -> Prop) t t' h i :
  reached P t h i -> size t' = size t -> mod_ t' = mod_ t ->
  (forall j, 0 <= j < size t -> P j -> Q j) -> reached Q t' h i.
Proof.
  intros (n & Hn & Hp & Hall) Es Em Hi.
  assert (forall m, probe t' h m = probe t h m) as E.
  { intros m. unfold probe, xhash_table_hash_to_index. by rewrite Es, Em. }
  exists n. rewrite E, Es. split_and!; [lia..|done|]. intros m Hm. rewrite E. apply Hi; [|by apply Hall].
  apply Z.mod_pos_bound. lia.
Qed.

Lemma count_used hs nds :
  Forall2 (fun h nd => h = node_hash nd /\ (h = 0 \/ real_node nd)) hs nds ->
  zlen (filter (fun h => h <> UNUSED_HASH_VALUE) hs) = zlen (filter real_node nds).
Proof.
  induction 1 as [|h nd hs nds [-> Hor] _ IH]; [done|].
  destruct (decide (real_node nd)) as [Hr|Hr].
  - rewrite !filter_cons_True, !zlen_cons, IH; [done|done|]. unfold UNUSED_HASH_VALUE, real_node in *. lia.
  - rewrite !filter_cons_False, IH; [done|done|]. destruct Hor as [->|]; [|done]. by intros [].
Qed.

(** What the loop leaves in the first [size] buckets, once the arrays end there. *)
Lemma resize_finish k n t t' bm :
  resizing k n t bm -> cleared t bm (fun _ => True) -> same_shape t t' ->
  storage (size t) t' -> nodes t' = take (Z.to_nat (size t)) (nodes t) ->
  nnodes t = zlen (real_nodes t) -> nnodes t + nnodes t / 16 < size t ->
  structured (with_noccupied (nnodes t) t') /\ real_nodes t' = real_nodes t.
Proof.
  intros (Hg & Hn & Hs & Hb & Hset) Hc Hsh Hs' Hnodes Hnn Hload.
  assert (forall j nd, nodes t !! j = Some nd -> ~ fixed bm (Z.of_nat j) -> ~ real_node nd) as Hfree.
  { intros j nd Hj Hf Hr. pose proof (Hc j nd I Hf Hj). unfold real_node in Hr. lia. }
  assert (real_nodes t' = real_nodes t) as Hrn.
  { unfold real_nodes. rewrite Hnodes, <- (take_drop (Z.to_nat (size t)) (nodes t)) at 1.
    rewrite <- (take_drop (Z.to_nat (size t)) (nodes t)) at 3.
    rewrite filter_app, (filter_no _ (drop _ _)), app_nil_r; [by rewrite take_drop|].
    apply Forall_lookup. intros j nd Hj. rewrite lookup_drop in Hj. eapply Hfree; [done|].
    intros Hf. destruct (Hset _ Hf). lia. }
  destruct Hsh as (Esz & Emod & Emask & Enn & _ & Ebk & Ebv & Eset & _).
  assert (Forall2 (fun h nd => h = node_hash nd /\ (h = 0 \/ real_node nd)) (hashes t') (nodes t')) as Hh.
  { apply Forall2_same_length_lookup_2.
    - pose proof (nodes_zlen (size t) t' Hs'). destruct Hs' as (H1 & _). unfold zlen in *. lia.
    - intros j h nd Hj Hnd. destruct (bucket (size t) t' Hs' (Z.of_nat j)) as (h' & k' & v' & En & Eh & _).
      { apply lookup_lt_Some in Hj. destruct Hs' as (H1 & _). unfold zlen in *. lia. }
      rewrite Nat2Z.id in En. rewrite rd_ge_0, Nat2Z.id in Eh by lia.
      rewrite Hj in Eh. rewrite Hnd in En. injection Eh as ->. injection En as ->.
      split; [done|]. rewrite Hnodes in Hnd. apply lookup_take_Some in Hnd as [Hnd _].
      destruct (decide (real_node (h', k', v'))) as [|Hnr]; [by right|]. left.
      destruct (decide (fixed bm (Z.of_nat j))) as [Hf|Hf].
      + destruct (Hset _ Hf) as (_ & nd' & E & Hr & _). rewrite Nat2Z.id, Hnd in E.
        by injection E as <-.
      + by apply (Hc j _ I Hf Hnd). }
  split; [|done]. split.
  - exists k. destruct Hg as (? & Es & Em & Ek). unfold geometry. cbn. by rewrite Esz, Emod, Emask.
  - cbn. by rewrite Esz.
  - change (real_nodes (with_noccupied (nnodes t) t')) with (real_nodes t'). cbn. by rewrite Enn, Hrn.
  - cbn. rewrite (count_used _ _ Hh). fold (real_nodes t'). by rewrite Hrn.
  - cbn. by rewrite Esz.
  - change (nodes (with_noccupied (nnodes t) t')) with (nodes t'). intros i nd Hi Hr.
    assert (fixed bm (Z.of_nat i)) as Hf.
    { destruct (decide (fixed bm (Z.of_nat i))) as [|Hf]; [done|]. exfalso.
      rewrite Hnodes in Hi. apply lookup_take_Some in Hi as [Hi _]. by eapply Hfree. }
    destruct (Hset _ Hf) as (_ & nd' & E & _ & Hreach). rewrite Nat2Z.id in E.
    rewrite Hnodes in Hi. apply lookup_take_Some in Hi as [Hi _]. rewrite Hi in E. injection E as <-.
    eapply reached_mono; [done..|]. intros j Hj Hfj.
    destruct (Hset _ Hfj) as (_ & nd' & E & Hr' & _).
    destruct (bucket (size t) t' Hs' j Hj) as (h' & k' & v' & En & Eh & _).
    rewrite Hnodes, lookup_take_lt, E in En by lia. injection En as ->.
    exists h'. split; [done|]. unfold real_node, UNUSED_HASH_VALUE in *. cbn in Hr'. lia.
Qed.

(** What a resize leaves alone. *)
Definition kept (t t' : table) : Prop :=
  (real_nodes t' ≡ₚ real_nodes t) /\ nnodes t' = nnodes t /\
  have_big_keys t' = have_big_keys t /\ have_big_values t' = have_big_values t /\
  is_a_set t' = is_a_set t /\ version t' = version t /\ ref_count t' = ref_count t.

Lemma kept_trans t1 t2 t3 : kept t1 t2 -> kept t2 t3 -> kept t1 t3.
Proof. intros (P1 & ?) (P2 & ?). split; [by rewrite P2|]. intuition congruence. Qed.

Lemma kept_shape t t' : reshuffled t t' -> kept t t'.
Proof. intros (P & S). split; [done|]. unfold same_shape in S. intuition congruence. Qed.

Section whole.
Context (uninit : Z) (Hu : 0 <= uninit < 2 ^ 32).

Lemma is_a_set_grown t old : is_a_set (grown uninit t old) = is_a_set t.
Proof. unfold grown, realloc_arrays, is_a_set. by destruct t as [????????? []]. Qed.

(** From the start of the loop to the end of the operation. *)
Lemma resize_run k old n t :
  geometry k t -> storage n t -> n = Z.max old (size t) -> 0 <= old ->
  nnodes t = zlen (real_nodes t) -> nnodes t + nnodes t / 16 < size t ->
  cleared t (replicate (Z.to_nat ((n + 31) / 32)) 0) (fun j => old <= Z.of_nat j) ->
  exists t3 bm, resize_loop (Z.to_nat old) (is_a_set t) t
      (replicate (Z.to_nat ((n + 31) / 32)) 0) 0 = Some (t3, bm) /\ same_shape t t3 /\
    let t4 := if size t3 <? old then realloc_arrays uninit t3 (is_a_set t) else t3 in
    structured (with_noccupied (nnodes t4) t4) /\ kept t t4.
Proof.
  intros Hg Hs Hn Hold Hnn Hload Hc. pose proof (size_pow2 k t Hg) as [_ Hsz].
  destruct (resize_loop_ok k n old (Z.to_nat old) t (replicate (Z.to_nat ((n + 31) / 32)) 0) 0)
    as (t3 & bm & E & HR & Hc3 & P3 & S3); try lia.
  - apply resizing_start; done || lia.
  - intros j nd [Hj|Hj]; [lia|]. by apply Hc.
  - enough (0 <= nnodes t / 16) by lia. apply Z.div_pos; [|lia]. rewrite Hnn. apply zlen_nonneg.
  - exists t3, bm. split; [done|]. split; [done|]. cbn zeta.
    pose proof S3 as (Es3 & _ & _ & En3 & _ & _ & _ & Eset3 & _).
    pose proof HR as (_ & Hn3 & Hs3 & _).
    assert (nnodes t3 = zlen (real_nodes t3)) as Hnn3 by (unfold zlen in *; by rewrite En3, P3).
    destruct (Z.ltb_spec (size t3) old) as [Hlt|Hge].
    + rewrite <- Eset3. set (t4 := realloc_arrays uninit t3 (is_a_set t3)).
      assert (same_shape t3 t4) as S4.
      { unfold same_shape, t4, realloc_arrays, is_a_set. cbn. by destruct (values t3). }
      destruct (resize_finish k n t3 t4 bm HR Hc3 S4) as [Hst Hrn]; try done.
      * eapply storage_shrink; [done|]. lia.
      * apply (nodes_shrink uninit t3 n Hs3). lia.
      * by rewrite En3, Es3.
      * split; [exact Hst|]. apply kept_shape. split; [by rewrite Hrn|by eapply same_shape_trans].
    + assert (n = size t3) as -> by lia.
      destruct (resize_finish k (size t3) t3 t3 bm HR Hc3 (same_shape_refl t3)) as [Hst Hrn]; try done.
      * pose proof (nodes_zlen _ t3 Hs3). unfold zlen in *. rewrite take_ge by lia. done.
      * by rewrite En3, Es3.
      * split; [exact Hst|]. by apply kept_shape.
Qed.

(** After the choice of the new size. *)
Lemma resize_from t t1 k1 :
  geometry k1 t1 -> storage (size t) t1 -> kept t t1 -> nnodes t1 = zlen (real_nodes t1) ->
  nnodes t1 + nnodes t1 / 16 < size t1 -> 0 <= size t ->
  exists t',
    (let '(t2, bitmap) :=
       if size t <? size t1 then
         (grown uninit t1 (size t), replicate (Z.to_nat ((size t1 + 31) / 32)) 0)
       else (t1, replicate (Z.to_nat ((size t + 31) / 32)) 0) in
     '(t3, _) ← resize_loop (Z.to_nat (size t)) (is_a_set t1) t2 bitmap 0;
     let t4 := if size t3 <? size t then realloc_arrays uninit t3 (is_a_set t1) else t3 in
     Some (with_noccupied (nnodes t4) t4)) = Some t' /\ structured t' /\ kept t t'.
Proof.
  intros Hg1 Hs1 K1 Hnn1 Hload Hsz. pose proof (size_pow2 k1 t1 Hg1) as [_ Hsz1].
  destruct (Z.ltb_spec (size t) (size t1)) as [Hlt|Hge].
  - destruct (nodes_grown uninit t1 (size t) Hs1) as (rest & Er & Hr); [lia|].
    set (t2 := grown uninit t1 (size t)) in *.
    assert (real_nodes t2 = real_nodes t1) as Hrn.
    { unfold real_nodes. rewrite Er, filter_app, (filter_no _ rest), app_nil_r; [done|].
      eapply Forall_impl; [exact Hr|]. unfold real_node. intros nd. lia. }
    assert (is_a_set t2 = is_a_set t1) as Eset2.
    { apply is_a_set_grown. }
    assert (kept t t2) as K2.
    { eapply kept_trans; [exact K1|]. unfold kept. rewrite Hrn, Eset2. split_and!; reflexivity. }
    destruct (resize_run k1 (size t) (size t2) t2) as (t3 & bm & E & _ & Hst & K); try done.
    + change (size t2) with (size t1). apply storage_grown; [done|done|lia].
    + change (size t2) with (size t1). lia.
    + change (nnodes t2) with (nnodes t1). by rewrite Hrn.
    + intros j nd Hj _ Hnd. rewrite Er in Hnd. apply lookup_app_Some in Hnd as [Hnd|[_ Hnd]].
      * apply (bucket_range (size t) t1 Hs1) in Hnd. lia.
      * rewrite Forall_lookup in Hr. by eapply Hr.
    + rewrite Eset2 in *. change (size t2) with (size t1) in E. rewrite E. cbn [mbind option_bind].
      eexists. split; [done|]. split; [exact Hst|]. by eapply kept_trans.
  - destruct (resize_run k1 (size t) (size t) t1) as (t3 & bm & E & _ & Hst & K); try done; try lia.
    + intros j nd Hj _ Hnd. apply (bucket_range (size t) t1 Hs1) in Hnd. lia.
    + rewrite E. cbn [mbind option_bind].
      eexists. split; [done|]. split; [exact Hst|]. by eapply kept_trans.
Qed.

Lemma resize_ok t k :
  geometry k t -> storage (size t) t -> nnodes t = zlen (real_nodes t) -> nnodes t <= 2 ^ 29 ->
  exists t', xhash_table_resize uninit t = Some t' /\ structured t' /\ kept t t'.
Proof.
  intros Hg Hs Hnn Hmax. pose proof (size_pow2 k t Hg) as [_ Hsz]. unfold xhash_table_resize.
  destruct (shift_from_size_ok t (nnodes t)) as (k1 & Hg1 & Hload & E1).
  { rewrite Hnn in *. pose proof (zlen_nonneg (real_nodes t)). lia. }
  set (t1 := xhash_table_set_shift_from_size t (times_1_333 (nnodes t))) in *. clearbody t1.
  cbn zeta. assert (is_a_set t = is_a_set t1) as -> by (by rewrite E1).
  assert (nnodes t1 = nnodes t) as En by (by rewrite E1).
  apply (resize_from t t1 k1 Hg1); [by rewrite E1|by rewrite E1|by rewrite E1|by rewrite En|lia].
Qed.

(** [xhash_table_maybe_resize] also restores the load. *)
Lemma maybe_resize_ok t k :
  geometry k t -> storage (size t) t -> nnodes t = zlen (real_nodes t) ->
  nnodes t < 2 ^ 29 ->
  (noccupied t + noccupied t / 16 < size t -> structured t) ->
  exists t', xhash_table_maybe_resize uninit t = Some t' /\ structured t' /\ kept t t'.
Proof.
  intros Hg Hs Hnn Hmax Hst. unfold xhash_table_maybe_resize.
  rewrite sint32_ok by (rewrite Hnn in *; pose proof (zlen_nonneg (real_nodes t)); lia). cbn [mbind option_bind].
  destruct (_ || _) eqn:E.
  - eapply resize_ok; [done..|]. lia.
  - exists t. split; [done|]. split; [|done]. apply Hst. zprops. lia.
Qed.

(** Nothing to do but to shrink. *)
Lemma maybe_resize_structured t :
  structured t -> nnodes t < 2 ^ 29 ->
  exists t', xhash_table_maybe_resize uninit t = Some t' /\ structured t' /\ kept t t'.
Proof.
  intros Hst Hmax. pose proof Hst as [[k Hg] Hs Hnn _ Hload _]. by eapply maybe_resize_ok.
Qed.
End whole.
