(* ===== verification/HashTableOps.v ===== *)
(** * Correctness of the hash table's operations

    Every operation of a valid table ends, accesses no memory out of bounds,
    keeps the table valid, and does to the entries what the abstract dictionary
    of [HashTableSpec] does. *)

From S2P Require Import Prelude Dictionary HashTable HashTableSpec HashTableResize.
Local Open Scope Z_scope.

(** ** Writing a bucket from outside a resize *)

Lemma cell_ok_0 b : cell_ok b 0.
Proof. unfold cell_ok. destruct b; lia. Qed.

Section bucket_writes.
Context (n : Z) (t : table) (Hs : storage n t) (i : Z) (Hi : 0 <= i < n).

(** The two assignments that store a key and a value. *)
Lemma assign_both h k v :
  hashes t !! Z.to_nat i = Some h -> cell_ok (have_big_keys t) k -> cell_ok (have_big_values t) v ->
  (is_a_set t = true -> v = k) -> exists ks vs,
    xhash_table_assign_key_or_value (keys t) i (have_big_keys t) k = Some ks /\
    xhash_table_assign_key_or_value (values_array (with_keys ks t)) i (have_big_values t) v = Some vs /\
    set_values_array vs (with_keys ks t) = put t i h k v.
Proof.
  intros Hh Hk Hv Hset. destruct Hs as (_ & _ & Hks & Hvs).
  exists (Cells (big (keys t)) (<[Z.to_nat i:=k]> (slots (keys t)))).
  rewrite (assign_ok n i Hi (keys t)) by done.
  unfold put, values_array, set_values_array, is_a_set in *.
  rewrite (list_insert_id (hashes t)) by done.
  destruct t as [sz md mk nn no bk bv ks hs vs ver rc]. cbn in *.
  destruct vs as [a|]; cbn in *; eexists; (split; [reflexivity|]).
  - split; [exact (assign_ok n i Hi a bv v Hvs Hv)|]. reflexivity.
  - rewrite (Hset eq_refl) in *. pose proof (array_ok_insert n bv ks (Z.to_nat i) k Hvs Hv) as Hvs'.
    split; [by apply (assign_ok n i Hi _ bv k Hvs' Hv)|]. cbn. by rewrite list_insert_insert_eq.
Qed.

Lemma put_with_hashes h0 h k v :
  put (with_hashes (<[Z.to_nat i := h0]> (hashes t)) t) i h k v = put t i h k v.
Proof. unfold put. cbn. by rewrite list_insert_insert_eq. Qed.

End bucket_writes.

Section bucket_clears.
Context (n : Z) (t : table) (Hs : storage n t) (i : Z) (Hi : 0 <= i < n).

(** Emptying a bucket. *)
Lemma remove_node_ok kd vd notify h k v :
  nodes t !! Z.to_nat i = Some (h, k, v) ->
  xhash_table_remove_node kd vd t i notify =
  Some (with_nnodes (nnodes t - 1) (put t i TOMBSTONE_HASH_VALUE 0 0),
        if notify then notify_key kd k ++ notify_value vd v else []).
Proof.
  intros Hn. destruct (bucket n t Hs i Hi) as (h' & k' & v' & Hn' & Eh & Ek & Ev & _).
  rewrite Hn in Hn'. injection Hn' as <- <- <-.
  unfold xhash_table_remove_node. rewrite Ek, Ev. cbn [mbind option_bind].
  rewrite (hash_write_ok n t Hs i Hi). cbn [mbind option_bind].
  set (t1 := with_hashes _ t).
  assert (hashes t1 !! Z.to_nat i = Some TOMBSTONE_HASH_VALUE) as Hh1.
  { cbn. rewrite rd_ge_0 in Eh by lia. apply list_lookup_insert_eq. by eapply lookup_lt_Some. }
  assert (storage n t1) as Hs1.
  { destruct Hs as (H1 & F1 & ? & ?). split_and!; try done; cbn.
    - unfold zlen in *. by rewrite length_insert.
    - apply Forall_insert; [done|]. unfold TOMBSTONE_HASH_VALUE. lia. }
  destruct (assign_both n t1 Hs1 i Hi TOMBSTONE_HASH_VALUE 0 0) as (ks & vs & E1 & E2 & E3);
    [done|apply cell_ok_0..|done|].
  change (keys t) with (keys t1). change (have_big_keys t) with (have_big_keys t1).
  rewrite E1. cbn [mbind option_bind].
  change (have_big_values (with_keys ks t1)) with (have_big_values t1).
  rewrite E2. cbn [mbind option_bind]. rewrite E3. unfold t1. rewrite put_with_hashes.
  by destruct notify.
Qed.
End bucket_clears.

Lemma hash_at t i h k v : nodes t !! i = Some (h, k, v) -> hashes t !! i = Some h.
Proof.
  unfold nodes. rewrite !lookup_zip_with. destruct (hashes t !! i); [|done]. simpl.
  destruct (slots (keys t) !! i); [|done]. simpl.
  destruct (slots (values_array t) !! i); [|done]. simpl. congruence.
Qed.

(** ** Lookup *)

(** Some bucket was never used. *)
Lemma unused_bucket t :
  structured t -> exists i, 0 <= i < size t /\ rd (hashes t) i = Some UNUSED_HASH_VALUE.
Proof.
  intros [[k Hg] (H1 & _) _ Hno Hload _].
  pose proof (size_pow2 k t Hg) as [_ Hsz].
  destruct (decide (Exists (fun h => h = UNUSED_HASH_VALUE) (hashes t))) as [He|Hne].
  - apply Exists_exists in He as (h & Hin & ->). apply list_elem_of_lookup in Hin as [i Hi].
    exists (Z.of_nat i). apply lookup_lt_Some in Hi as Hlt. unfold zlen in *.
    split; [lia|]. by rewrite rd_ge_0, Nat2Z.id by lia.
  - exfalso. apply not_Exists_Forall in Hne; [|apply _]. rewrite filter_all in Hno by done.
    assert (0 <= noccupied t / 16) by (apply Z.div_pos; [|lia]; rewrite Hno; apply zlen_nonneg). lia.
Qed.

Section operations.
Context (hash_func : Z -> Z) (key_equal_func : option (Z -> Z -> bool)).
Context {Hkeys : KeysOk hash_func key_equal_func}.
Context (key_destroy_func value_destroy_func : bool) (uninit : Z) (Hu : 0 <= uninit < 2 ^ 32).

Abbreviation hash_of := (hash_value_of hash_func).
Abbreviation same_key := (keys_match key_equal_func).
Abbreviation matches := (matches key_equal_func).
Abbreviation valid := (valid hash_func key_equal_func).
Abbreviation nodes_ok := (nodes_ok hash_func key_equal_func).

Lemma hash_of_range k : 2 <= hash_of k < 2 ^ 32.
Proof.
  unfold hash_value_of, HASH_IS_REAL. pose proof (@hash_range _ _ Hkeys k). zcases; lia.
Qed.

Lemma hash_of_eq a b : keys_match key_equal_func a b = true -> hash_of a = hash_of b.
Proof. intros. unfold hash_value_of. by rewrite (@match_hash _ _ Hkeys a b). Qed.

(** Where the search for a key ends. *)
Inductive found_at (t : table) (key i : Z) : Prop :=
| Found nd : nodes t !! Z.to_nat i = Some nd -> real_node nd -> matches key nd -> found_at t key i
| Absent h k v : nodes t !! Z.to_nat i = Some (h, k, v) -> ~ real_node (h, k, v) ->
    reached (occupied t) t (hash_of key) i ->
    Forall (fun nd => ~ matches key nd) (real_nodes t) -> found_at t key i.

Lemma lookup_node_ok t key :
  valid t -> exists i, xhash_table_lookup_node hash_func key_equal_func t key = Some (i, hash_of key) /\
    0 <= i < size t /\ found_at t key i.
Proof.
  intros [Hst [Hhash _]]. pose proof Hst as [[k Hg] Hs _ _ _ Hreach].
  destruct (unused_bucket t Hst) as (i0 & Hi0 & H0).
  destruct (probe_surj k t Hg (hash_of key) i0 Hi0) as (n0 & Hn0 & <-).
  pose proof (hash_of_range key) as Hh.
  destruct (lookup_node_loop_ok key_equal_func k t Hg Hs key (hash_of key)
    (S (Z.to_nat (size t))) 0 None n0) as (i & E & Hr); [lia|lia|done|lia| |done|].
  { intros m Hm. lia. }
  rewrite (probe_0 k t Hg) in E. unfold xhash_table_lookup_node. rewrite E. exists i. split; [done|].
  destruct Hr as [(nd & Hnd & Eh & Hm & Hi)|(m & Hm & Hp & Hm0 & Hri & hi & Ehi & Hlt)].
  - split; [done|]. eapply Found; [done| |done]. unfold real_node. lia.
  - assert (0 <= i < size t) as Hi.
    { destruct Hri as (n & _ & <- & _). apply (probe_range k t Hg). }
    split; [done|]. destruct (bucket _ t Hs i Hi) as (h & ky & v & En & Eh & _).
    rewrite Eh in Ehi. injection Ehi as ->. eapply Absent; [done| |done|].
    { unfold real_node. cbn. lia. }
    apply Forall_forall. intros nd Hin Hmt. apply list_elem_of_filter in Hin as [Hreal Hin].
    rewrite Forall_forall in Hhash. specialize (Hhash nd) as Ehash.
    rewrite (hash_of_eq _ _ Hmt) in Ehash.
    specialize (Ehash ltac:(by apply list_elem_of_filter)).
    apply list_elem_of_lookup in Hin as [j Hj].
    destruct (Hreach j nd Hj Hreal) as (n & Hn & Ep & Hocc). rewrite Ehash in *.
    destruct (Z.lt_trichotomy n m) as [Hnm|[->|Hnm]].
    + destruct (Hp n) as [_ Hmis]; [lia|]. rewrite Ep in Hmis.
      apply (Hmis nd); [by rewrite Nat2Z.id|done].
    + rewrite Ep, rd_ge_0, Nat2Z.id in Hm0 by lia. destruct nd as [[h' k'] v'].
      apply hash_at in Hj. rewrite Hj in Hm0. injection Hm0 as ->. by unfold real_node in Hreal.
    + destruct (Hocc m) as (h' & E1 & E2); [lia|]. rewrite Hm0 in E1. by injection E1 as <-.
Qed.

(** ** The nodes of a table and the abstract dictionary *)

Lemma filter_perm_nil {A} (P : A -> Prop) `{!forall x, Decision (P x)} l :
  length (filter P l) = 0%nat -> filter P l = [].
Proof. by destruct (filter P l). Qed.

Lemma dict_matches_entry k nd : dict_matches same_key k (node_entry nd) <-> matches k nd.
Proof. done. Qed.

Lemma filter_entries k l :
  filter (dict_matches same_key k) (map node_entry l) = map node_entry (filter (matches k) l).
Proof.
  induction l as [|nd l IH]; [done|]. cbn [map].
  destruct (decide (matches k nd)); [rewrite !filter_cons_True|rewrite !filter_cons_False];
    cbn [map]; by rewrite ?IH.
Qed.

Lemma remove_entries k l :
  dict_remove same_key k (map node_entry l) = map node_entry (filter (fun nd => ~ matches k nd) l).
Proof.
  unfold dict_remove. induction l as [|nd l IH]; [done|]. cbn [map].
  destruct (decide (matches k nd)); [rewrite !filter_cons_False|rewrite !filter_cons_True];
    cbn [map]; rewrite ?IH; try done; by intros [].
Qed.

Lemma nodes_ok_perm l l' : l ≡ₚ l' -> nodes_ok l -> nodes_ok l'.
Proof. intros HP [H1 H2]. split; [by rewrite <- HP|]. intros k. by rewrite <- HP. Qed.

(** The one node of a key, and the rest. *)
Lemma nodes_ok_rest nd l k :
  nodes_ok (nd :: l) -> matches k nd -> Forall (fun nd' => ~ matches k nd') l.
Proof.
  intros [_ Hu1] Hm. apply Forall_forall. intros nd' Hin Hm'. specialize (Hu1 k).
  rewrite filter_cons_True in Hu1 by done. cbn in Hu1.
  assert (nd' ∈ filter (matches k) l) as Hc by (by apply list_elem_of_filter).
  destruct (filter (matches k) l); [by apply not_elem_of_nil in Hc|cbn in Hu1; lia].
Qed.

(** The dictionary of a table with a node for the key. *)
Lemma dict_found nd rest l k :
  nodes_ok l -> l ≡ₚ nd :: rest -> matches k nd ->
  dict_find same_key k (map node_entry l) = Some (node_entry nd) /\
  dict_remove same_key k (map node_entry l) ≡ₚ map node_entry rest.
Proof.
  intros Hok HP Hm. pose proof (nodes_ok_perm _ _ HP Hok) as Hok'.
  pose proof (nodes_ok_rest _ _ _ Hok' Hm) as Hrest. split.
  - unfold dict_find. rewrite filter_entries.
    assert (filter (matches k) l ≡ₚ [nd]) as E.
    { by rewrite HP, filter_cons_True, filter_no. }
    apply Permutation_singleton_r in E. by rewrite E.
  - rewrite remove_entries, HP, filter_cons_False by (by intros []). by rewrite filter_all.
Qed.

Lemma dict_absent l k :
  Forall (fun nd => ~ matches k nd) l ->
  dict_find same_key k (map node_entry l) = None /\
  dict_remove same_key k (map node_entry l) = map node_entry l.
Proof.
  intros H. split.
  - unfold dict_find. by rewrite filter_entries, filter_no.
  - by rewrite remove_entries, filter_all.
Qed.

(** Adding a node for a new key, changing the node of a key, removing one. *)
Lemma nodes_ok_add nd l :
  nodes_ok l -> node_hash nd = hash_of (node_key nd) ->
  Forall (fun nd' => ~ matches (node_key nd) nd') l -> nodes_ok (nd :: l).
Proof.
  intros [H1 H2] Hh Hno. split; [by constructor|]. intros k.
  destruct (decide (matches k nd)) as [Hm|Hm]; [|by rewrite filter_cons_False].
  rewrite filter_cons_True, filter_no; [done| |done].
  eapply Forall_impl; [exact Hno|]. intros nd' Hn Hm'. apply Hn.
  eapply (@match_trans _ _ Hkeys); [exact Hm'|]. by apply (@match_sym _ _ Hkeys).
Qed.

Lemma nodes_ok_remove nd l : nodes_ok (nd :: l) -> nodes_ok l.
Proof.
  intros [H1 H2]. rewrite Forall_cons in H1. split; [by destruct H1|]. intros k. specialize (H2 k).
  rewrite filter_cons in H2. case_decide; cbn in H2; lia.
Qed.

Lemma nodes_ok_change nd nd' l :
  nodes_ok (nd :: l) -> node_hash nd' = hash_of (node_key nd') -> matches (node_key nd') nd ->
  nodes_ok (nd' :: l).
Proof.
  intros H Hh Hm. apply nodes_ok_add; [by eapply nodes_ok_remove|done|]. by eapply nodes_ok_rest.
Qed.

(** ** Changing a bucket of a structured table *)

Lemma real_node_hash nd : real_node nd -> node_hash nd <> UNUSED_HASH_VALUE.
Proof. unfold real_node, UNUSED_HASH_VALUE. lia. Qed.

Lemma nodes_with_counts t n m : nodes (with_noccupied m (with_nnodes n t)) = nodes t.
Proof. done. Qed.

Lemma structured_put t i h0 k0 v0 h k v nn :
  structured t -> 0 <= i < size t -> nodes t !! Z.to_nat i = Some (h0, k0, v0) ->
  storage (size t) (put t i h k v) -> h <> UNUSED_HASH_VALUE ->
  (2 <= h -> reached (occupied t) t h i) ->
  let t' := with_noccupied (noccupied t + if h0 =? UNUSED_HASH_VALUE then 1 else 0)
              (with_nnodes nn (put t i h k v)) in
  nn = zlen (real_nodes t') -> noccupied t' + noccupied t' / 16 < size t -> structured t'.
Proof.
  intros [Hg Hs Hnn Hno Hload Hreach] Hi Hn Hs' Hh Hr t' Hnn' Hload'.
  pose proof (hash_at _ _ _ _ _ Hn) as Hh0.
  assert (forall j, 0 <= j < size t -> occupied t j -> occupied t' j) as Hocc.
  { intros j Hj (hj & Ej & Hne). unfold occupied, t'. cbn.
    rewrite rd_ge_0 in * by lia. destruct (decide (Z.to_nat j = Z.to_nat i)) as [->|E].
    - exists h. split; [|done]. apply list_lookup_insert_eq. by eapply lookup_lt_Some.
    - exists hj. by rewrite list_lookup_insert_ne. }
  split; [done|done|done| |done|].
  - unfold t'. cbn.
    destruct (filter_insert_split (fun h => h <> UNUSED_HASH_VALUE) (hashes t) (Z.to_nat i) h h0 Hh0) as [P0 P1].
    rewrite Hno. unfold zlen. rewrite P0, P1, (filter_cons_True _ h) by done.
    destruct (Z.eqb_spec h0 UNUSED_HASH_VALUE) as [->|E0].
    + rewrite filter_cons_False by (by intros []). cbn. lia.
    + rewrite filter_cons_True by done. cbn. lia.
  - intros j nd Hj Hreal. unfold t' in Hj. rewrite nodes_with_counts, nodes_put in Hj.
    destruct (decide (j = Z.to_nat i)) as [->|E].
    + rewrite list_lookup_insert_eq in Hj by (by eapply lookup_lt_Some). injection Hj as <-.
      rewrite Z2Nat.id by lia. eapply reached_mono; [by apply Hr|done..].
    + rewrite list_lookup_insert_ne in Hj by done. eapply reached_mono; [by apply Hreach|done..].
Qed.

(** ** Making the cells wide enough *)

Lemma cell_ok_pointer p : is_pointer p -> cell_ok true p.
Proof. done. Qed.

Lemma cell_ok_widen c b : cell_ok b c -> cell_ok true c.
Proof. unfold cell_ok. destruct b; lia. Qed.

Lemma array_ok_widen n b a : array_ok n b a -> array_ok n true (Cells true (slots a)).
Proof.
  intros (_ & Hl & Hf). split_and!; [done|done|]. eapply Forall_impl; [exact Hf|].
  intros c. apply cell_ok_widen.
Qed.

(** Cells that may have to grow for a pointer. *)
Lemma maybe_make_big_ok n a p :
  array_ok n false a -> is_pointer p ->
  let '(a', b) := xhash_table_maybe_make_big_keys_or_values a p in
  array_ok n b a' /\ cell_ok b p /\ slots a' = slots a.
Proof.
  intros Ha Hp. unfold xhash_table_maybe_make_big_keys_or_values, entry_is_big.
  rewrite Z.shiftr_div_pow2 by lia. destruct (Z.eqb_spec (p / 2 ^ 32) 0) as [E|E]; cbn [negb].
  - split; [done|]. split; [|done]. unfold is_pointer, cell_ok in *. zify_div.
  - split; [by eapply array_ok_widen|done].
Qed.

(** What widening keeps. *)
Definition widened (t t' : table) : Prop :=
  size t' = size t /\ mod_ t' = mod_ t /\ mask t' = mask t /\ nnodes t' = nnodes t /\
  noccupied t' = noccupied t /\ hashes t' = hashes t /\ version t' = version t /\
  ref_count t' = ref_count t /\ slots (keys t') = slots (keys t) /\
  slots (values_array t') = slots (values_array t).

Lemma widened_nodes t t' : widened t t' -> nodes t' = nodes t.
Proof. intros (_ & _ & _ & _ & _ & E1 & _ & _ & E2 & E3). unfold nodes. by rewrite E1, E2, E3. Qed.

Lemma ensure_fits_ok n t k v :
  storage n t -> is_pointer k -> is_pointer v ->
  let t' := xhash_table_ensure_keyval_fits t k v in
  storage n t' /\ widened t t' /\ cell_ok (have_big_keys t') k /\ cell_ok (have_big_values t') v /\
  (is_a_set t' = true -> v = k) /\ (is_a_set t' = true -> is_a_set t = true).
Proof.
  intros (H1 & F1 & Hks & Hvs) Hk Hv.
  destruct t as [sz md mk nn no bk bv ks hs vs ver rc]. cbn in *.
  unfold xhash_table_ensure_keyval_fits, is_a_set, values_array in *. cbn in *.
  pose proof (maybe_make_big_ok n ks k) as Mk.
  destruct vs as [a|]; cbn in *.
  - pose proof (maybe_make_big_ok n a v) as Mv.
    destruct bk, bv; cbn; try (destruct (xhash_table_maybe_make_big_keys_or_values ks k) as [ks' b]; cbn);
      try (destruct (xhash_table_maybe_make_big_keys_or_values a v) as [a' b']; cbn);
      repeat match goal with M : _ -> _ -> _ |- _ => specialize (M ltac:(done) ltac:(done)) end;
      unfold storage, widened; cbn; intuition (done || congruence).
  - assert (bv = bk) as -> by (destruct Hks as (<- & _), Hvs as (<- & _); done).
    pose proof (maybe_make_big_ok n ks v) as Mv.
    destruct bk; cbn; destruct (Z.eqb_spec k v) as [->|Hne]; cbn;
      try (destruct (xhash_table_maybe_make_big_keys_or_values ks k) as [ks' b]; cbn);
      try (destruct (xhash_table_maybe_make_big_keys_or_values ks v) as [a' b']; cbn);
      repeat match goal with M : _ -> _ -> _ |- _ => specialize (M ltac:(done) ltac:(done)) end;
      unfold storage, widened; cbn; intuition (done || congruence).
Qed.

Lemma ensure_with_hashes hs t k v :
  xhash_table_ensure_keyval_fits (with_hashes hs t) k v =
  with_hashes hs (xhash_table_ensure_keyval_fits t k v).
Proof.
  destruct t as [sz md mk nn no bk bv ks h vs ver rc].
  unfold xhash_table_ensure_keyval_fits, is_a_set, values_array, xhash_table_maybe_make_big_keys_or_values.
  cbn. destruct vs, bk, bv, (k =? v), (entry_is_big k), (entry_is_big v); reflexivity.
Qed.

Lemma structured_widened t t' :
  structured t -> widened t t' -> storage (size t') t' -> structured t'.
Proof.
  intros [[k Hg] Hs Hnn Hno Hload Hreach] Hw Hs'. pose proof (widened_nodes _ _ Hw) as HN.
  destruct Hw as (E1 & E2 & E3 & E4 & E5 & E6 & _).
  assert (real_nodes t' = real_nodes t) as HR by (unfold real_nodes; by rewrite HN).
  split.
  - exists k. unfold geometry. by rewrite E1, E2, E3.
  - done.
  - by rewrite E4, HR.
  - by rewrite E5, E6.
  - by rewrite E5, E1.
  - intros i nd Hi Hr. rewrite HN in Hi. eapply reached_mono; [by apply Hreach|done..|].
    intros j _. unfold occupied. by rewrite E6.
Qed.

Lemma counts_id t i h k v no nn :
  no = noccupied t -> nn = nnodes t -> with_noccupied no (with_nnodes nn (put t i h k v)) = put t i h k v.
Proof. intros -> ->. by destruct t. Qed.

Lemma geometry_put k0 t i h k v no nn :
  geometry k0 t -> geometry k0 (with_noccupied no (with_nnodes nn (put t i h k v))).
Proof. done. Qed.

Lemma storage_counts n t no nn : storage n t -> storage n (with_noccupied no (with_nnodes nn t)).
Proof. done. Qed.

Lemma structured_version t n : structured t -> structured (with_version n t).
Proof. by intros [? ? ? ? ? ?]. Qed.

Lemma valid_version t n : valid t -> valid (with_version n t).
Proof. intros [Hst Hok]. split; [by apply structured_version|done]. Qed.

Lemma kept_valid t t' : structured t' -> nodes_ok (real_nodes t) -> kept t t' -> valid t'.
Proof. intros Hst Hok (P & _). split; [done|]. by eapply nodes_ok_perm. Qed.

Section at_bucket.
Context (t : table) (Hst : structured t) (Hok : nodes_ok (real_nodes t)).
Context (i : Z) (Hi : 0 <= i < size t).

(** The node of the bucket replaced by another one for an equal key. *)
Lemma insert_existing nd k v keep_new_key reusing_key key_hash :
  nodes t !! Z.to_nat i = Some nd -> real_node nd -> matches k nd -> is_pointer k -> is_pointer v ->
  exists t' rest,
    xhash_table_insert_node key_destroy_func value_destroy_func uninit t i key_hash k v
      keep_new_key reusing_key =
    Some (t', (if negb reusing_key then
                 notify_key key_destroy_func (if keep_new_key then node_key nd else k) else []) ++
              notify_value value_destroy_func (node_value nd), false) /\
    valid t' /\ version t' = version t /\ nnodes t' = nnodes t /\ (real_nodes t ≡ₚ nd :: rest) /\
    real_nodes t' ≡ₚ (node_hash nd, if keep_new_key then k else node_key nd, v) :: rest.
Proof.
  intros Hn Hr Hm Hk Hv. pose proof Hst as [_ Hs Hnn _ Hload _].
  destruct (bucket _ t Hs i Hi) as (h0 & k0 & v0 & Hn' & Eh & Ek & Ev & Hh0 & Hk0 & Hv0).
  rewrite Hn in Hn'. injection Hn' as ->. unfold real_node in Hr. cbn [node_hash node_key node_value fst snd] in *.
  unfold xhash_table_insert_node. rewrite Eh, Ek, Ev. cbn [mbind option_bind].
  unfold HASH_IS_REAL. rewrite (proj2 (Z.leb_le 2 h0)) by done.
  assert ((if keep_new_key then (t, k0, k, v0) else (t, k, k0, v0)) =
    (t, if keep_new_key then k0 else k, if keep_new_key then k else k0, v0)) as ->
    by (by destruct keep_new_key).
  cbn [mbind option_bind]. set (kk := if keep_new_key then k else k0).
  assert (is_pointer kk) as Hkk.
  { unfold kk. destruct keep_new_key; [done|]. unfold is_pointer, cell_ok in *.
    destruct (have_big_keys t); lia. }
  destruct (ensure_fits_ok (size t) t kk v Hs Hkk Hv) as (Hs1 & Hw & Hc1 & Hc2 & Hset & _).
  set (t1 := xhash_table_ensure_keyval_fits t kk v) in *.
  pose proof (widened_nodes _ _ Hw) as HN. pose proof Hw as (Esz & _ & _ & Enn & Eno & Eha & Ever & _).
  assert (structured t1) as Hst1 by (eapply structured_widened; [done..|by rewrite Esz]).
  destruct (assign_both (size t) t1 Hs1 i Hi h0 kk v) as (ks & vs & E1 & E2 & E3); [|done..|].
  { rewrite Eha. rewrite rd_ge_0 in Eh by lia. done. }
  cbn zeta. fold t1. rewrite E1. cbn [mbind option_bind].
  change (have_big_values (with_keys ks t1)) with (have_big_values t1).
  rewrite E2. cbn [mbind option_bind negb]. rewrite E3.
  destruct (filter_insert_replace real_node (nodes t1) (Z.to_nat i) (h0, kk, v) (h0, k0, v0))
    as (rest & P0 & P1); [by rewrite HN|done|done|].
  rewrite HN in P0. fold (real_nodes t) in P0.
  assert (stored_value t1 kk v = v) as Est by (unfold stored_value; destruct (is_a_set t1); [by rewrite Hset|done]).
  rewrite <- Est in P1. rewrite <- nodes_put in P1. fold (real_nodes (put t1 i h0 kk v)) in P1.
  eexists _, rest. split; [done|]. split; [split|split_and!; [exact Ever|exact Enn|exact P0|by rewrite Est in P1]].
  - rewrite <- (counts_id t1 i h0 kk v (noccupied t1 + if h0 =? UNUSED_HASH_VALUE then 1 else 0) (nnodes t1)); [|..|done].
    2:{ unfold UNUSED_HASH_VALUE. zcases; lia. }
    eapply structured_put; [done|by rewrite Esz|by rewrite HN| | | | |].
    + rewrite Esz. apply storage_put; [done|lia|done|by rewrite Est].
    + unfold UNUSED_HASH_VALUE. lia.
    + intros _. destruct Hst1 as [_ _ _ _ _ Hreach]. rewrite <- (Z2Nat.id i) by lia.
      apply (Hreach _ (h0, k0, v0)); [by rewrite HN|done].
    + rewrite Enn, Hnn. unfold real_nodes at 2. rewrite nodes_with_counts.
      fold (real_nodes (put t1 i h0 kk v)). unfold zlen. by rewrite P0, P1.
    + cbn. rewrite Eno, Esz. unfold UNUSED_HASH_VALUE. zcases; [lia|]. by rewrite Z.add_0_r.
  - eapply nodes_ok_perm; [symmetry; exact P1|]. apply (nodes_ok_change (h0, k0, v0)); [exact (nodes_ok_perm _ _ P0 Hok)| |].
    + cbn. pose proof (nodes_ok_perm _ _ P0 Hok) as [Hh _]. apply Forall_cons_1 in Hh as [Hh _].
      cbn in Hh. rewrite Hh. unfold kk. destruct keep_new_key; [by apply hash_of_eq|done].
    + cbn. unfold kk. destruct keep_new_key; [done|]. apply (@match_refl _ _ Hkeys).
Qed.

(** A node for a new key, in a bucket that holds none. *)
Lemma insert_new h0 k0 v0 k v keep_new_key reusing_key :
  nodes t !! Z.to_nat i = Some (h0, k0, v0) -> ~ real_node (h0, k0, v0) ->
  reached (occupied t) t (hash_of k) i -> Forall (fun nd => ~ matches k nd) (real_nodes t) ->
  room t -> is_pointer k -> is_pointer v ->
  exists t', xhash_table_insert_node key_destroy_func value_destroy_func uninit t i (hash_of k) k v
      keep_new_key reusing_key = Some (t', [], true) /\
    valid t' /\ version t' = version t + 1 /\ nnodes t' = nnodes t + 1 /\
    real_nodes t' ≡ₚ (hash_of k, k, v) :: real_nodes t.
Proof.
  intros Hn Hr Hreach Hno Hroom Hk Hv. pose proof Hst as [[kg Hg] Hs Hnn _ Hload _].
  unfold real_node in Hr. cbn in Hr. pose proof (hash_of_range k) as Hh.
  destruct (bucket _ t Hs i Hi) as (h0' & k0' & v0' & Hn' & Eh & _ & _ & Hh0 & _).
  rewrite Hn in Hn'. injection Hn' as <- <- <-.
  unfold xhash_table_insert_node. rewrite Eh. cbn [mbind option_bind].
  unfold HASH_IS_REAL. rewrite (proj2 (Z.leb_gt 2 h0)) by lia.
  rewrite (hash_write_ok _ t Hs i Hi). cbn [mbind option_bind]. rewrite ensure_with_hashes.
  destruct (ensure_fits_ok (size t) t k v Hs Hk Hv) as (Hs1 & Hw & Hc1 & Hc2 & Hset & _).
  set (t1 := xhash_table_ensure_keyval_fits t k v) in *.
  pose proof (widened_nodes _ _ Hw) as HN.
  pose proof Hw as (Esz & Emod & Emask & Enn & Eno & Eha & Ever & _).
  assert (structured t1) as Hst1 by (eapply structured_widened; [done..|by rewrite Esz]).
  assert (stored_value t1 k v = v) as Est by (unfold stored_value; destruct (is_a_set t1); [by rewrite Hset|done]).
  rewrite <- Eha. set (t2 := with_hashes _ t1).
  assert (storage (size t) t2) as Hs2.
  { destruct Hs1 as (H1 & F1 & ? & ?). split_and!; try done; cbn.
    - unfold zlen in *. by rewrite length_insert.
    - apply Forall_insert; [done|]. lia. }
  destruct (assign_both (size t) t2 Hs2 i Hi (hash_of k) k v) as (ks & vs & E1 & E2 & E3); [|done..|].
  { cbn. apply list_lookup_insert_eq. apply lookup_lt_Some in Hn.
    pose proof (nodes_zlen _ t Hs). destruct Hs1 as (H1 & _). unfold zlen in *. lia. }
  cbn zeta. rewrite E1. cbn [mbind option_bind].
  change (have_big_values (with_keys ks t2)) with (have_big_values t2).
  rewrite E2. cbn [mbind option_bind negb]. rewrite E3. unfold t2. rewrite put_with_hashes.
  set (t3 := with_noccupied (noccupied t1 + if h0 =? UNUSED_HASH_VALUE then 1 else 0)
               (with_nnodes (nnodes t1 + 1) (put t1 i (hash_of k) k v))).
  assert (real_nodes t3 ≡ₚ (hash_of k, k, v) :: real_nodes t) as P3.
  { unfold real_nodes, t3. rewrite nodes_with_counts, nodes_put, Est, HN.
    eapply filter_insert_add; [exact Hn|..]; unfold real_node; cbn; lia. }
  assert (nnodes t3 = zlen (real_nodes t3)) as Hn3.
  { unfold zlen in *. rewrite P3. change (nnodes t3) with (nnodes t1 + 1). cbn [length]. lia. }
  assert (noccupied t3 + noccupied t3 / 16 < size t3 -> structured t3) as Hst3.
  { intros Hl. eapply structured_put; [done|by rewrite Esz|by rewrite HN| | | |done|exact Hl].
    - rewrite Esz. apply storage_put; [done|lia|done|by rewrite Est].
    - unfold UNUSED_HASH_VALUE. lia.
    - intros _. eapply reached_mono; [exact Hreach|done..|]. intros j _. unfold occupied. by rewrite Eha. }
  set (p := put t1 i (hash_of k) k v) in *.
  assert (exists t4, (if HASH_IS_UNUSED h0 then
      xhash_table_maybe_resize uninit
        (with_noccupied (noccupied (with_nnodes (nnodes p + 1) p) + 1) (with_nnodes (nnodes p + 1) p))
      else Some (with_nnodes (nnodes p + 1) p)) = Some t4 /\
      structured t4 /\ kept t3 t4) as (t4 & E4 & Hst4 & K4).
  { unfold HASH_IS_UNUSED. destruct (Z.eqb_spec h0 UNUSED_HASH_VALUE) as [->|Hne]; cbn [negb] in *.
    - apply (maybe_resize_ok uninit Hu t3 kg); try done.
      + unfold geometry. cbn. by rewrite Esz, Emod, Emask.
      + change (size t3) with (size t1). rewrite Esz.
        apply storage_put; [done|lia|done|by rewrite Est].
      + change (nnodes t3) with (nnodes t1 + 1). unfold room in Hroom. lia.
    - exists t3. assert (t3 = with_nnodes (nnodes p + 1) p) as <-.
      { unfold t3. rewrite Z.add_0_r. by destruct t1. }
      split; [done|]. split; [|done]. apply Hst3. cbn. rewrite Z.add_0_r. by rewrite Eno, Esz. }
  rewrite E4. cbn [mbind option_bind]. eexists. split; [done|].
  destruct K4 as (P4 & En4 & _ & _ & _ & Ev4 & _).
  split_and!.
  - apply valid_version. split; [done|]. apply (nodes_ok_perm ((hash_of k, k, v) :: real_nodes t)).
    + change (real_nodes (with_version _ t4)) with (real_nodes t4). by rewrite P4, P3.
    + by apply nodes_ok_add.
  - cbn. rewrite Ev4. cbn. by rewrite Ever.
  - cbn. rewrite En4. cbn. by rewrite Enn.
  - change (real_nodes (with_version _ t4)) with (real_nodes t4). by rewrite P4, P3.
Qed.

(** The node of the bucket removed. *)
Lemma remove_at nd :
  nodes t !! Z.to_nat i = Some nd -> real_node nd ->
  let t' := with_nnodes (nnodes t - 1) (put t i TOMBSTONE_HASH_VALUE 0 0) in
  valid t' /\ (real_nodes t ≡ₚ nd :: real_nodes t') /\
  nodes t' = <[Z.to_nat i := (TOMBSTONE_HASH_VALUE, 0, 0)]> (nodes t).
Proof.
  intros Hn Hr t'. pose proof Hst as [_ Hs Hnn _ Hload _].
  assert (stored_value t 0 0 = 0) as Est by (unfold stored_value; by destruct (is_a_set t)).
  assert (nodes t' = <[Z.to_nat i := (TOMBSTONE_HASH_VALUE, 0, 0)]> (nodes t)) as HN.
  { change (nodes t') with (nodes (put t i TOMBSTONE_HASH_VALUE 0 0)). by rewrite nodes_put, Est. }
  assert (real_nodes t ≡ₚ nd :: real_nodes t') as P.
  { unfold real_nodes. rewrite HN. apply (filter_insert_remove real_node _ _ _ _ Hn Hr). unfold real_node, TOMBSTONE_HASH_VALUE. cbn. lia. }
  split; [|by split]. split; [|by eapply nodes_ok_remove, nodes_ok_perm].
  destruct nd as [[h k] v]. assert (h <> UNUSED_HASH_VALUE) as Hne by exact (real_node_hash _ Hr).
  assert (t' = with_noccupied (noccupied t + if h =? UNUSED_HASH_VALUE then 1 else 0) t') as E.
  { rewrite (proj2 (Z.eqb_neq h UNUSED_HASH_VALUE)) by done. rewrite Z.add_0_r. unfold t'. by destruct t. }
  rewrite E. eapply structured_put; [done|done|done| |done| | |].
  - apply storage_put; [done|unfold TOMBSTONE_HASH_VALUE; lia|apply cell_ok_0|].
    rewrite Est. apply cell_ok_0.
  - unfold TOMBSTONE_HASH_VALUE. lia.
  - fold t'. rewrite <- E. unfold zlen in *. rewrite P in Hnn. cbn [length] in Hnn. lia.
  - fold t'. by rewrite <- E.
Qed.
End at_bucket.
End operations.

(** ** Operations on a key *)

Section operations.
Context (hash_func : Z -> Z) (key_equal_func : option (Z -> Z -> bool)).
Context {Hkeys : KeysOk hash_func key_equal_func}.
Context (key_destroy_func value_destroy_func : bool) (uninit : Z) (Hu : 0 <= uninit < 2 ^ 32).

Abbreviation hash_of := (hash_value_of hash_func).
Abbreviation same_key := (keys_match key_equal_func).
Abbreviation matches := (matches key_equal_func).
Abbreviation valid := (valid hash_func key_equal_func).
Abbreviation nodes_ok := (nodes_ok hash_func key_equal_func).
Abbreviation dict_find := (dict_find same_key).
Abbreviation dict_remove := (dict_remove same_key).
Abbreviation dict_store := (dict_store same_key).

(** The bucket a lookup ends at, read from the arrays. *)
Lemma found_bucket t key :
  valid t -> exists i h k v, xhash_table_lookup_node hash_func key_equal_func t key = Some (i, hash_of key) /\
    0 <= i < size t /\ nodes t !! Z.to_nat i = Some (h, k, v) /\ rd (hashes t) i = Some h /\
    xhash_table_fetch_key_or_value (keys t) i (have_big_keys t) = Some k /\
    xhash_table_fetch_key_or_value (values_array t) i (have_big_values t) = Some v /\
    if HASH_IS_REAL h then
      matches key (h, k, v) /\ dict_find key (entries t) = Some (k, v)
    else
      reached (occupied t) t (hash_of key) i /\
      Forall (fun nd => ~ matches key nd) (real_nodes t) /\ dict_find key (entries t) = None.
Proof.
  intros Hv. pose proof Hv as [[_ Hs _ _ _ _] Hok].
  destruct (lookup_node_ok hash_func key_equal_func t key Hv) as (i & E & Hi & Hf).
  destruct (bucket _ t Hs i Hi) as (h & k & v & En & Eh & Ek & Ev & _).
  exists i, h, k, v. do 6 (split; [done|]). unfold HASH_IS_REAL. destruct Hf as [nd Hnd Hr Hm|h' k' v' Hnd Hr Hre Hno].
  - rewrite En in Hnd. injection Hnd as <-. rewrite (proj2 (Z.leb_le 2 h)) by done. split; [done|].
    assert ((h, k, v) ∈ real_nodes t) as Hin.
    { apply list_elem_of_filter. split; [done|]. by eapply list_elem_of_lookup_2. }
    apply elem_of_Permutation in Hin as [rest HP].
    by apply (dict_found hash_func key_equal_func (h, k, v) rest (real_nodes t) key).
  - rewrite En in Hnd. injection Hnd as <- <- <-.
    rewrite (proj2 (Z.leb_gt 2 h)) by (unfold real_node in Hr; cbn in Hr; lia).
    split; [done|]. split; [done|]. by apply dict_absent.
Qed.

Lemma lookup_ok t key :
  valid t ->
  xhash_table_lookup_extended hash_func key_equal_func t key = Some (dict_find key (entries t)) /\
  xhash_table_lookup hash_func key_equal_func t key =
    Some (match dict_find key (entries t) with Some (_, v) => v | None => 0 end) /\
  xhash_table_contains hash_func key_equal_func t key =
    Some (bool_decide (is_Some (dict_find key (entries t)))).
Proof.
  intros Hv. destruct (found_bucket t key Hv) as (i & h & k & v & E & Hi & En & Eh & Ek & Ev & Hf).
  unfold xhash_table_lookup_extended, xhash_table_lookup, xhash_table_contains.
  rewrite E. cbn [mbind option_bind]. rewrite Eh. cbn [mbind option_bind].
  destruct (HASH_IS_REAL h).
  - destruct Hf as (_ & ->). rewrite Ek, Ev. done.
  - destruct Hf as (_ & _ & ->). done.
Qed.

Lemma entries_perm l1 l2 t : real_nodes t ≡ₚ l1 ++ l2 -> entries t ≡ₚ map node_entry l1 ++ map node_entry l2.
Proof. intros HP. unfold entries. by rewrite HP, map_app. Qed.

(** What an insertion reports for the entry it replaces. *)
Definition insert_notes (keep_new_key : bool) (k : Z) (old : option (Z * Z)) : list notification :=
  match old with
  | Some (k0, v0) => notify_key key_destroy_func (if keep_new_key then k0 else k)
                     ++ notify_value value_destroy_func v0
  | None => []
  end.

Lemma insert_internal_ok t k v keep_new_key :
  valid t -> room t -> is_pointer k -> is_pointer v ->
  exists t', xhash_table_insert_internal hash_func key_equal_func key_destroy_func value_destroy_func
      uninit t k v keep_new_key =
    Some (t', insert_notes keep_new_key k (dict_find k (entries t)),
          negb (bool_decide (is_Some (dict_find k (entries t))))) /\
    valid t' /\ entries t' ≡ₚ dict_store keep_new_key k v (entries t) /\
    nnodes t' <= nnodes t + 1.
Proof.
  intros Hv Hroom Hk Hvp. pose proof Hv as [Hst Hok].
  destruct (found_bucket t k Hv) as (i & h & k0 & v0 & E & Hi & En & Eh & _ & _ & Hf).
  unfold xhash_table_insert_internal. rewrite E. cbn [mbind option_bind].
  destruct (HASH_IS_REAL h) eqn:Ereal; unfold HASH_IS_REAL in Ereal; zprops.
  - destruct Hf as (Hm & Ed).
    destruct (insert_existing hash_func key_equal_func key_destroy_func value_destroy_func uninit Hu t Hst Hok
      i Hi (h, k0, v0) k v keep_new_key false (hash_of k)) as (t' & rest & E' & Hv' & _ & Hn' & P & P'); try done.
    rewrite E', Ed. exists t'. split; [done|]. split; [done|]. split; [|lia].
    unfold Dictionary.dict_store. rewrite Ed.
    destruct (dict_found hash_func key_equal_func (h, k0, v0) rest (real_nodes t) k Hok P Hm) as [_ PR].
    unfold entries at 1. rewrite P'. cbn [map]. unfold entries. by rewrite PR.
  - destruct Hf as (Hre & Hno & Ed).
    destruct (insert_new hash_func key_equal_func key_destroy_func value_destroy_func uninit Hu t Hst Hok
      i Hi h k0 v0 k v keep_new_key false) as (t' & E' & Hv' & _ & Hn' & P'); try done.
    { unfold real_node. cbn. lia. }
    rewrite E', Ed. exists t'. split; [done|]. split; [done|]. split; [|lia].
    unfold Dictionary.dict_store. rewrite Ed.
    destruct (dict_absent key_equal_func (real_nodes t) k Hno) as [_ PR].
    unfold entries at 1. rewrite P'. cbn [map]. unfold entries. by rewrite PR.
Qed.

(** What a removal reports. *)
Definition remove_notes (old : option (Z * Z)) : list notification :=
  match old with
  | Some (k0, v0) => notify_key key_destroy_func k0 ++ notify_value value_destroy_func v0
  | None => []
  end.

Lemma remove_internal_ok t k notify :
  valid t -> room_after_removal t ->
  exists t', xhash_table_remove_internal hash_func key_equal_func key_destroy_func value_destroy_func
      uninit t k notify =
    Some (t', if notify then remove_notes (dict_find k (entries t)) else [],
          bool_decide (is_Some (dict_find k (entries t)))) /\
    valid t' /\ entries t' ≡ₚ dict_remove k (entries t) /\ nnodes t' <= nnodes t.
Proof.
  intros Hv Hroom. pose proof Hv as [Hst Hok].
  destruct (found_bucket t k Hv) as (i & h & k0 & v0 & E & Hi & En & Eh & _ & _ & Hf).
  unfold xhash_table_remove_internal. rewrite E. cbn [mbind option_bind].
  rewrite Eh. cbn [mbind option_bind].
  destruct (HASH_IS_REAL h) eqn:Ereal; unfold HASH_IS_REAL in Ereal; zprops; cbn [negb].
  - destruct Hf as (Hm & Ed). pose proof Hst as [_ Hs _ _ _ _].
    rewrite (remove_node_ok (size t) t Hs i Hi _ _ _ h k0 v0 En). cbn [mbind option_bind].
    destruct (remove_at hash_func key_equal_func t Hst Hok i Hi (h, k0, v0) En Ereal) as ([Hst1 Hok1] & P1 & _).
    set (t1 := with_nnodes _ _) in *.
    destruct (maybe_resize_structured uninit Hu t1 Hst1 ltac:(cbn; unfold room_after_removal in Hroom; lia)) as (t2 & E2 & Hst2 & K2).
    rewrite E2, Ed.
    cbn [mbind option_bind]. eexists. split; [done|]. pose proof (kept_valid _ _ t1 t2 Hst2 Hok1 K2) as Hv2.
    destruct K2 as (P2 & Hn2 & _). split; [by apply valid_version|]. split.
    + change (entries (with_version _ t2)) with (entries t2).
      destruct (dict_found hash_func key_equal_func (h, k0, v0) (real_nodes t1) (real_nodes t) k Hok P1 Hm) as [_ PR].
      unfold entries. by rewrite P2, PR.
    + cbn. rewrite Hn2. cbn. lia.
  - destruct Hf as (Hre & Hno & Ed). rewrite Ed. exists t. split; [by destruct notify|].
    split; [done|]. split; [|lia]. destruct (dict_absent key_equal_func (real_nodes t) k Hno) as [_ PR].
    unfold entries. by rewrite PR.
Qed.
End operations.
