(* ===== verification/HashTableWalk.v ===== *)
(** * Walking over the hash table

    The loops over all the buckets visit exactly the entries, in index order;
    removing entries on the way, with [foreach_remove] or through an iterator,
    disturbs neither the walk nor the other entries. *)

From S2P Require Import Prelude Dictionary HashTable HashTableSpec HashTableResize.
From S2P Require Import HashTableOps.
Local Open Scope Z_scope.

(** ** Definitions of the proof *)

(** The bucket after the walk: emptied when the function asked for it. *)
Definition swept (func : Z -> Z -> bool) (nd : node) : node :=
  if decide (real_node nd) then
    if func (node_key nd) (node_value nd) then (TOMBSTONE_HASH_VALUE, 0, 0) else nd
  else nd.

Definition picked (func : Z -> Z -> bool) (e : Z * Z) : Prop := func e.1 e.2 = true.
#[export] Instance picked_dec func e : Decision (picked func e) := decide (_ = true).

(** [while (xhash_table_iter_next (...))], removing some of the entries. *)
Fixpoint iter_loop (fuel : nat) (key_destroy_func value_destroy_func : bool) (t : table) (ri : iter)
    (func : Z -> Z -> bool) (notify : bool) : option (table * list (Z * Z)) :=
  match fuel with
  | O => None
  | S fuel =>
      '(ri, node) ← xhash_table_iter_next t ri;
      match node with
      | None => Some (t, [])
      | Some (k, v) =>
          '(t, ri, _) ←
            (if func k v then iter_remove_or_steal key_destroy_func value_destroy_func t ri notify
             else Some (t, ri, []));
          '(t, l) ← iter_loop fuel key_destroy_func value_destroy_func t ri func notify;
          Some (t, (k, v) :: l)
      end
  end.

(** ** The loops that only read *)

Lemma node_at_ok n t i nd :
  storage n t -> 0 <= i < n -> nodes t !! Z.to_nat i = Some nd ->
  node_at t i = Some (if decide (real_node nd) then Some (node_entry nd) else None).
Proof.
  intros Hs Hi Hn. destruct (bucket n t Hs i Hi) as (h & k & v & Hn' & Eh & Ek & Ev & _).
  rewrite Hn in Hn'. injection Hn' as ->. unfold node_at. rewrite Eh, Ek, Ev. cbn [mbind option_bind].
  unfold HASH_IS_REAL. case_decide as Hr; unfold real_node in Hr; cbn in Hr.
  - by rewrite (proj2 (Z.leb_le 2 h)).
  - by rewrite (proj2 (Z.leb_gt 2 h)) by lia.
Qed.

Lemma drop_node t i : 0 <= i < zlen (nodes t) -> exists nd,
  nodes t !! Z.to_nat i = Some nd /\
  drop (Z.to_nat i) (nodes t) = nd :: drop (Z.to_nat (i + 1)) (nodes t).
Proof.
  intros Hi. unfold zlen in Hi. destruct (lookup_lt_is_Some_2 (nodes t) (Z.to_nat i)) as [nd Hn]; [lia|].
  exists nd. split; [done|]. rewrite (drop_S _ _ _ Hn). do 2 f_equal. lia.
Qed.

Definition entries_of (l : list node) : list (Z * Z) := map node_entry (filter real_node l).

Lemma entries_of_cons nd l :
  entries_of (nd :: l) = if decide (real_node nd) then node_entry nd :: entries_of l else entries_of l.
Proof. unfold entries_of. rewrite filter_cons. by case_decide. Qed.

Lemma nodes_from_ok N t n i :
  storage N t -> 0 <= i -> i + Z.of_nat n = N ->
  nodes_from n t i = Some (entries_of (drop (Z.to_nat i) (nodes t))).
Proof.
  intros Hs. revert i. pose proof (nodes_zlen N t Hs) as HN. induction n as [|n IH]; intros i Hi Hn.
  - rewrite drop_ge by (unfold zlen in HN; lia). done.
  - destruct (drop_node t i) as (nd & E & Ed); [lia|]. cbn [nodes_from].
    rewrite (node_at_ok N t i nd Hs) by (done || lia). cbn [mbind option_bind].
    rewrite IH by lia. cbn [mbind option_bind]. rewrite Ed, entries_of_cons. by case_decide.
Qed.

Lemma foreach_ok t k :
  storage (size t) t -> geometry k t -> nodes_from (Z.to_nat (size t)) t 0 = Some (entries t).
Proof.
  intros Hs Hg. pose proof (size_pow2 k t Hg). rewrite (nodes_from_ok (size t)) by (done || lia). done.
Qed.

Lemma find_loop_ok N t p n i :
  storage N t -> 0 <= i -> i + Z.of_nat n = N ->
  find_loop n t p i =
  Some (match head (filter (picked p) (entries_of (drop (Z.to_nat i) (nodes t)))) with
        | Some (_, v) => v
        | None => 0
        end).
Proof.
  intros Hs. revert i. pose proof (nodes_zlen N t Hs) as HN. induction n as [|n IH]; intros i Hi Hn.
  - rewrite drop_ge by (unfold zlen in HN; lia). done.
  - destruct (drop_node t i) as (nd & E & Ed); [lia|]. cbn [find_loop].
    rewrite (node_at_ok N t i nd Hs) by (done || lia). cbn [mbind option_bind].
    rewrite IH by lia. rewrite Ed, entries_of_cons. case_decide; [|done].
    unfold node_entry at 1. destruct (p _ _) eqn:Ep.
    + by rewrite filter_cons_True.
    + rewrite filter_cons_False; [done|]. unfold picked. cbn. by rewrite Ep.
Qed.

(** ** Removing on the way *)

Section walk.
Context (hash_func : Z -> Z) (key_equal_func : option (Z -> Z -> bool)).
Context {Hkeys : KeysOk hash_func key_equal_func}.
Context (key_destroy_func value_destroy_func : bool) (uninit : Z) (Hu : 0 <= uninit < 2 ^ 32).
Context (func : Z -> Z -> bool) (notify : bool).

Abbreviation valid := (valid hash_func key_equal_func).

(** The notifications for the removal of some entries. *)
Definition sweep_notes (l : list (Z * Z)) : list notification :=
  if notify then
    flat_map (fun e => notify_key key_destroy_func e.1 ++ notify_value value_destroy_func e.2)
      (filter (picked func) l)
  else [].

Lemma sweep_notes_cons k v l :
  sweep_notes ((k, v) :: l) =
  (if func k v then if notify then notify_key key_destroy_func k ++ notify_value value_destroy_func v else [] else [])
    ++ sweep_notes l.
Proof.
  unfold sweep_notes. destruct (func k v) eqn:E.
  - rewrite filter_cons_True by done. destruct notify; [done|done].
  - rewrite filter_cons_False; [by destruct notify|]. unfold picked. cbn. by rewrite E.
Qed.

Lemma sweep_turn t i h k v :
  valid t -> 0 <= i < size t -> nodes t !! Z.to_nat i = Some (h, k, v) -> 2 <= h ->
  exists t', xhash_table_remove_node key_destroy_func value_destroy_func t i notify =
    Some (t', if notify then notify_key key_destroy_func k ++ notify_value value_destroy_func v else []) /\
    valid t' /\ nodes t' = <[Z.to_nat i := (TOMBSTONE_HASH_VALUE, 0, 0)]> (nodes t) /\
    size t' = size t /\ version t' = version t.
Proof.
  intros [Hst Hok] Hi Hn Hh. pose proof Hst as [_ Hs _ _ _ _].
  rewrite (remove_node_ok (size t) t Hs i Hi _ _ _ h k v Hn).
  destruct (remove_at hash_func key_equal_func t Hst Hok i Hi (h, k, v) Hn Hh) as (Hv & _ & HN).
  eexists. split; [done|]. by split_and!.
Qed.

(** The first buckets swept, the others not yet. *)
Lemma swept_step t nodes' i nd :
  nodes t !! i = Some nd -> nodes' = <[i := swept func nd]> (nodes t) ->
  take (S i) nodes' ++ map (swept func) (drop (S i) nodes') =
  take i (nodes t) ++ map (swept func) (drop i (nodes t)).
Proof.
  intros Hn ->. rewrite (drop_insert_lt (nodes t)) by lia.
  rewrite (take_S_r _ i (swept func nd)) by (apply list_lookup_insert_eq; by eapply lookup_lt_Some).
  rewrite take_insert_ge by lia. rewrite (drop_S _ _ _ Hn). cbn [map]. by rewrite <- app_assoc.
Qed.

Lemma swept_keep nd : (real_node nd -> func (node_key nd) (node_value nd) = false) -> swept func nd = nd.
Proof. intros H. unfold swept. case_decide; [|done]. by rewrite H. Qed.

Lemma foreach_remove_loop_ok n t i d :
  valid t -> 0 <= i -> i + Z.of_nat n = size t ->
  let rest := entries_of (drop (Z.to_nat i) (nodes t)) in
  exists t', foreach_remove_loop key_destroy_func value_destroy_func n t func notify i d =
    Some (t', sweep_notes rest, d + zlen (filter (picked func) rest)) /\
    valid t' /\ size t' = size t /\ version t' = version t /\
    nodes t' = take (Z.to_nat i) (nodes t) ++ map (swept func) (drop (Z.to_nat i) (nodes t)).
Proof.
  revert t i d. induction n as [|n IH]; intros t i d Hv Hi Hn; cbn zeta;
    pose proof Hv as [[_ Hs _ _ _ _] _]; pose proof (nodes_zlen _ t Hs) as HN.
  - rewrite drop_ge, take_ge by (unfold zlen in HN; lia). exists t. cbn.
    rewrite Z.add_0_r, app_nil_r. unfold sweep_notes. by destruct notify.
  - destruct (drop_node t i) as (nd & E & Ed); [lia|]. cbn [foreach_remove_loop].
    rewrite (node_at_ok _ t i nd Hs) by (done || lia). cbn [mbind option_bind].
    destruct nd as [[h k] v]. pose proof (entries_of_cons (h, k, v) (drop (Z.to_nat (i + 1)) (nodes t))) as Ec.
    rewrite <- Ed in Ec. rewrite Ec.
    case_decide as Hr; [|].
    + unfold node_entry at 1 2. cbn [node_key node_value fst snd]. rewrite sweep_notes_cons, filter_cons.
      destruct (func k v) eqn:Ef.
      * destruct (sweep_turn t i h k v Hv) as (t1 & E1 & Hv1 & HN1 & Hsz1 & Hver1); [lia|done|done|].
        rewrite E1. cbn [mbind option_bind].
        destruct (IH t1 (i + 1) (d + 1)) as (t2 & E2 & Hv2 & Hsz2 & Hver2 & HN2); [done|lia|lia|].
        assert (drop (Z.to_nat (i + 1)) (nodes t1) = drop (Z.to_nat (i + 1)) (nodes t)) as Edrop.
        { rewrite HN1, drop_insert_lt; [done|lia]. }
        rewrite Edrop in E2. rewrite E2. cbn [mbind option_bind]. exists t2.
        rewrite decide_True by done. rewrite zlen_cons. split; [do 2 f_equal; lia|].
        split_and!; [done|lia|lia|]. rewrite HN2. replace (Z.to_nat (i + 1)) with (S (Z.to_nat i)) by lia.
        apply (swept_step t (nodes t1) (Z.to_nat i) (h, k, v)); [done|]. rewrite HN1. unfold swept.
        rewrite decide_True by done. cbn. by rewrite Ef.
      * rewrite decide_False by (unfold picked; cbn; by rewrite Ef).
        destruct (IH t (i + 1) d) as (t2 & E2 & Hv2 & Hsz2 & Hver2 & HN2); [done|lia|lia|].
        exists t2. split; [done|]. split_and!; [done|lia|lia|]. rewrite HN2.
        replace (Z.to_nat (i + 1)) with (S (Z.to_nat i)) by lia.
        apply (swept_step t (nodes t) (Z.to_nat i) (h, k, v)); [done|].
        rewrite swept_keep by done. by rewrite list_insert_id.
    + destruct (IH t (i + 1) d) as (t2 & E2 & Hv2 & Hsz2 & Hver2 & HN2); [done|lia|lia|].
      exists t2. split; [done|]. split_and!; [done|lia|lia|]. rewrite HN2.
      replace (Z.to_nat (i + 1)) with (S (Z.to_nat i)) by lia.
      apply (swept_step t (nodes t) (Z.to_nat i) (h, k, v)); [done|].
      rewrite swept_keep by done. by rewrite list_insert_id.
Qed.

Lemma entries_swept l :
  entries_of (map (swept func) l) = filter (fun e => ~ picked func e) (entries_of l).
Proof.
  induction l as [|[[h k] v] l IH]; [done|]. cbn [map]. rewrite !entries_of_cons, IH.
  destruct (decide (real_node (h, k, v))) as [Hr|Hr].
  - destruct (func k v) eqn:E.
    + assert (swept func (h, k, v) = (TOMBSTONE_HASH_VALUE, 0, 0)) as ->.
      { unfold swept. rewrite decide_True by done. cbn. by rewrite E. }
      rewrite decide_False by (unfold real_node, TOMBSTONE_HASH_VALUE; cbn; lia).
      rewrite filter_cons_False; [done|]. unfold picked, node_entry. cbn. rewrite E. by intros [].
    + rewrite swept_keep, decide_True by done. rewrite filter_cons_True; [done|].
      unfold picked, node_entry. cbn. by rewrite E.
  - rewrite swept_keep, decide_False by done. done.
Qed.

(** ** Iterators *)

(** What is left to visit after position [p]. *)
Definition remaining (t : table) (p : Z) : list (Z * Z) :=
  entries_of (drop (Z.to_nat (p + 1)) (nodes t)).

Lemma iter_advance_ok fuel t p :
  storage (size t) t -> -1 <= p < size t -> size t - p <= Z.of_nat fuel ->
  if decide (remaining t p = []) then iter_advance fuel t p = Some (size t, false)
  else exists q h k v, iter_advance fuel t p = Some (q, true) /\ p < q < size t /\
    nodes t !! Z.to_nat q = Some (h, k, v) /\ 2 <= h /\
    remaining t p = (k, v) :: remaining t q /\
    map (swept func) (drop (Z.to_nat (p + 1)) (take (Z.to_nat q) (nodes t))) =
    drop (Z.to_nat (p + 1)) (take (Z.to_nat q) (nodes t)).
Proof.
  intros Hs. revert p. pose proof (nodes_zlen _ t Hs) as HN.
  induction fuel as [|fuel IH]; intros p Hp Hf; [lia|]. cbn [iter_advance].
  destruct (Z.leb_spec (size t) (p + 1)) as [Hle|Hlt].
  { rewrite decide_True; [do 2 f_equal; lia|]. unfold remaining.
    rewrite drop_ge by (unfold zlen in HN; lia). done. }
  destruct (drop_node t (p + 1)) as (nd & E & Ed); [lia|].
  destruct (bucket _ t Hs (p + 1)) as (h & k & v & En & Eh & _); [lia|].
  rewrite E in En. injection En as ->. rewrite Eh. cbn [mbind option_bind].
  unfold HASH_IS_REAL. destruct (Z.leb_spec 2 h) as [Hr|Hr].
  - assert (remaining t p = (k, v) :: remaining t (p + 1)) as Erem.
    { unfold remaining. rewrite Ed, entries_of_cons. rewrite decide_True by done. done. }
    rewrite decide_False by (rewrite Erem; done).
    exists (p + 1), h, k, v. split_and!; try done; try lia.
    rewrite drop_ge; [done|]. rewrite length_take. lia.
  - assert (~ real_node (h, k, v)) as Hnr by (unfold real_node; cbn; lia).
    assert (remaining t p = remaining t (p + 1)) as ->.
    { unfold remaining. rewrite Ed, entries_of_cons. rewrite decide_False by done. done. }
    specialize (IH (p + 1) ltac:(lia) ltac:(lia)). case_decide; [done|].
    destruct IH as (q & h' & k' & v' & E1 & Hq & E2 & Hh & E3 & E4).
    exists q, h', k', v'. split_and!; try done; try lia.
    assert (drop (Z.to_nat (p + 1)) (take (Z.to_nat q) (nodes t)) =
      (h, k, v) :: drop (Z.to_nat (p + 1 + 1)) (take (Z.to_nat q) (nodes t))) as ->.
    { rewrite (drop_S _ (h, k, v)); [do 2 f_equal; lia|]. rewrite lookup_take_lt; [done|lia]. }
    cbn [map]. rewrite E4, swept_keep; done.
Qed.

Lemma iter_next_ok t ri :
  storage (size t) t -> iter_version ri = version t -> -1 <= position ri < size t ->
  match remaining t (position ri) with
  | [] => exists ri', xhash_table_iter_next t ri = Some (ri', None)
  | e :: rest => exists q h, position ri < q < size t /\
      xhash_table_iter_next t ri = Some (Iter q (version t), Some e) /\
      nodes t !! Z.to_nat q = Some (h, e.1, e.2) /\ 2 <= h /\ rest = remaining t q /\
      map (swept func) (drop (Z.to_nat (position ri + 1)) (take (Z.to_nat q) (nodes t))) =
      drop (Z.to_nat (position ri + 1)) (take (Z.to_nat q) (nodes t))
  end.
Proof.
  intros Hs Hver Hp. unfold xhash_table_iter_next. rewrite Hver, Z.eqb_refl. cbn [negb].
  rewrite (proj2 (Z.ltb_lt _ _)) by apply Hp. cbn [negb].
  pose proof (iter_advance_ok (S (Z.to_nat (size t))) t (position ri) Hs Hp) as H.
  specialize (H ltac:(lia)). case_decide as Er.
  - rewrite Er, H. by eexists.
  - destruct H as (q & h & k & v & E1 & Hq & E2 & Hh & -> & E4).
    exists q, h. rewrite E1. cbn [mbind option_bind].
    destruct (bucket _ t Hs q) as (h' & k' & v' & En & _ & Ek & Ev & _); [lia|].
    rewrite E2 in En. injection En as <- <- <-. rewrite Ek, Ev. done.
Qed.

Lemma swept_prefix (l : list node) a b :
  (a <= b)%nat -> map (swept func) (drop a (take b l)) = drop a (take b l) ->
  take b l ++ map (swept func) (drop b l) = take a l ++ map (swept func) (drop a l).
Proof.
  intros Hab E. rewrite <- (take_drop b l) at 4. rewrite drop_app, map_app, E.
  rewrite app_assoc. f_equal.
  - rewrite <- (take_drop a (take b l)) at 1. by rewrite take_take, Nat.min_l.
  - rewrite length_take. destruct (decide (b <= length l)%nat).
    + rewrite Nat.min_l by lia. by replace (a - b)%nat with 0%nat by lia.
    + by rewrite (drop_ge l b), drop_nil by lia.
Qed.

Lemma iter_remove_ok t q h k v :
  valid t -> 0 <= q < size t -> nodes t !! Z.to_nat q = Some (h, k, v) -> 2 <= h ->
  exists t', iter_remove_or_steal key_destroy_func value_destroy_func t (Iter q (version t)) notify =
    Some (t', Iter q (version t + 1),
          if notify then notify_key key_destroy_func k ++ notify_value value_destroy_func v else []) /\
    valid t' /\ nodes t' = <[Z.to_nat q := (TOMBSTONE_HASH_VALUE, 0, 0)]> (nodes t) /\
    size t' = size t /\ version t' = version t + 1.
Proof.
  intros Hv Hq Hn Hh. unfold iter_remove_or_steal, iter_ok. cbn [iter_version position].
  rewrite Z.eqb_refl, (proj2 (Z.leb_le 0 q)), (proj2 (Z.ltb_lt q _)) by lia. cbn [andb].
  destruct (sweep_turn t q h k v Hv Hq Hn Hh) as (t' & E & Hv' & HN & Hsz & Hver).
  rewrite E. cbn [mbind option_bind]. rewrite Hver. eexists. split; [done|].
  split; [by apply valid_version|]. by split_and!.
Qed.

Lemma iter_loop_ok fuel t ri :
  valid t -> iter_version ri = version t -> -1 <= position ri < size t ->
  (length (remaining t (position ri)) < fuel)%nat ->
  exists t', iter_loop fuel key_destroy_func value_destroy_func t ri func notify =
    Some (t', remaining t (position ri)) /\ valid t' /\
    nodes t' = take (Z.to_nat (position ri + 1)) (nodes t) ++
               map (swept func) (drop (Z.to_nat (position ri + 1)) (nodes t)).
Proof.
  revert t ri. induction fuel as [|fuel IH]; intros t ri Hv Hver Hp Hf; [lia|].
  pose proof Hv as [[_ Hs _ _ _ _] _]. cbn [iter_loop].
  pose proof (iter_next_ok t ri Hs Hver Hp) as Hnext.
  destruct (remaining t (position ri)) as [|[k v] rest] eqn:Er.
  - destruct Hnext as (ri' & ->). cbn [mbind option_bind]. exists t. split; [done|]. split; [done|].
    unfold remaining in Er. rewrite <- (take_drop (Z.to_nat (position ri + 1)) (nodes t)) at 1. f_equal.
    symmetry. apply list_eq. intros j. rewrite list_lookup_fmap.
    destruct (drop _ (nodes t) !! j) as [nd|] eqn:E; [|done]. cbn. f_equal. apply swept_keep. intros Hr.
    assert (nd ∈ filter real_node (drop (Z.to_nat (position ri + 1)) (nodes t))) as Hin.
    { apply list_elem_of_filter. split; [done|]. by eapply list_elem_of_lookup_2. }
    unfold entries_of in Er. apply map_eq_nil in Er. rewrite Er in Hin. by apply not_elem_of_nil in Hin.
  - destruct Hnext as (q & h & Hq & -> & Hn & Hh & -> & Hpre). cbn [mbind option_bind].
    cbn [fst snd] in *. rewrite <- (swept_prefix _ _ (Z.to_nat q)); [|lia|exact Hpre].
    replace (Z.to_nat (q + 1)) with (S (Z.to_nat q)) in * by lia.
    destruct (func k v) eqn:Ef.
    + destruct (iter_remove_ok t q h k v Hv ltac:(lia) Hn Hh) as (t1 & E1 & Hv1 & HN1 & Hsz1 & Hver1).
      rewrite E1. cbn [mbind option_bind].
      assert (remaining t1 q = remaining t q) as Erem.
      { unfold remaining. rewrite HN1, drop_insert_lt; [done|lia]. }
      destruct (IH t1 (Iter q (version t + 1))) as (t2 & E2 & Hv2 & HN2); cbn [position iter_version] in *;
        [done|done|lia|rewrite Erem; cbn in Hf; lia|].
      rewrite E2, Erem. cbn [mbind option_bind]. exists t2. split; [done|]. split; [done|].
      rewrite HN2. replace (Z.to_nat (q + 1)) with (S (Z.to_nat q)) by lia.
      apply (swept_step t (nodes t1) (Z.to_nat q) (h, k, v)); [done|]. rewrite HN1. unfold swept.
      rewrite decide_True by done. cbn. by rewrite Ef.
    + cbn [mbind option_bind].
      destruct (IH t (Iter q (version t))) as (t2 & E2 & Hv2 & HN2); cbn [position iter_version] in *;
        [done|done|lia|cbn in Hf; lia|].
      rewrite E2. cbn [mbind option_bind]. exists t2. split; [done|]. split; [done|].
      rewrite HN2. replace (Z.to_nat (q + 1)) with (S (Z.to_nat q)) by lia.
      apply (swept_step t (nodes t) (Z.to_nat q) (h, k, v)); [done|].
      rewrite swept_keep by done. by rewrite list_insert_id.
Qed.
End walk.
