(* ===== verification/HashTableCorrect.v ===== *)
(** * The hash table: what is proved

    The properties of the operations, each with a concrete instance, and the
    refinement: any sequence of operations on a fresh table answers as the
    abstract dictionary does. *)

From S2P Require Import Prelude Dictionary HashTable HashTableSpec HashTableResize.
From S2P Require Import HashTableOps HashTableWalk.
Local Open Scope Z_scope.

(** ** Emptying a table *)

Section emptying.
Context (hash_func : Z -> Z) (key_equal_func : option (Z -> Z -> bool)).
Context {Hkeys : KeysOk hash_func key_equal_func}.
Context (key_destroy_func value_destroy_func : bool) (uninit : Z) (Hu : 0 <= uninit < 2 ^ 32).

Abbreviation valid := (valid hash_func key_equal_func).

Lemma real_nodes_unused t : Forall (fun h => h = 0) (hashes t) -> real_nodes t = [].
Proof.
  intros Hf. apply filter_no, Forall_lookup. intros i [[h k] v] Hi Hr. apply hash_at in Hi.
  rewrite Forall_lookup in Hf. apply Hf in Hi as ->. by unfold real_node in Hr.
Qed.

Lemma empty_valid t k :
  geometry k t -> storage (size t) t -> nnodes t = 0 -> noccupied t = 0 ->
  Forall (fun h => h = 0) (hashes t) -> valid t /\ entries t = [].
Proof.
  intros Hg Hs Hn Hno Hf. pose proof (real_nodes_unused t Hf) as E. pose proof (size_pow2 k t Hg).
  split; [split; [split|]|].
  - by exists k.
  - done.
  - by rewrite Hn, E.
  - rewrite Hno, filter_no; [done|]. eapply Forall_impl; [exact Hf|]. intros h -> H1. by apply H1.
  - rewrite Hno. change (0 + 0 / 16) with 0. lia.
  - intros i nd Hi Hr. assert (nd ∈ real_nodes t) as Hin.
    { apply list_elem_of_filter. split; [done|]. by eapply list_elem_of_lookup_2. }
    rewrite E in Hin. by apply not_elem_of_nil in Hin.
  - rewrite E. split; [done|]. intros. cbn. lia.
  - unfold entries. by rewrite E.
Qed.

Lemma setup_storage_ok t :
  nnodes t = 0 -> noccupied t = 0 ->
  let t' := xhash_table_setup_storage uninit t in valid t' /\ entries t' = [].
Proof.
  intros Hn Hno. apply (empty_valid _ 3); [by unfold geometry| |done|done|by apply Forall_replicate].
  assert (array_ok 8 false (Cells false (replicate 8 uninit))) as Ha.
  { split_and!; [done|done|]. apply Forall_replicate, Hu. }
  split_and!; [done| |exact Ha..]. apply Forall_replicate. lia.
Qed.

Lemma new_ok : valid (xhash_table_new_full uninit) /\ entries (xhash_table_new_full uninit) = [].
Proof. by apply setup_storage_ok. Qed.

Lemma destroy_nodes_ok hs ks vs :
  destroy_nodes key_destroy_func value_destroy_func hs ks vs =
  flat_map (fun e => notify_key key_destroy_func e.1 ++ notify_value value_destroy_func e.2)
    (entries_of (zip (zip hs ks) vs)).
Proof.
  revert ks vs. induction hs as [|h hs IH]; intros [|k ks] [|v vs]; try done.
  cbn [zip zip_with destroy_nodes]. rewrite entries_of_cons, IH. unfold HASH_IS_REAL, real_node. cbn.
  case_decide; [rewrite (proj2 (Z.leb_le 2 h)) by done|rewrite (proj2 (Z.leb_gt 2 h)) by lia]; done.
Qed.

(** The notifications when all the entries go. *)
Definition all_notes (l : list (Z * Z)) : list notification :=
  flat_map (fun e => notify_key key_destroy_func e.1 ++ notify_value value_destroy_func e.2) l.

Lemma remove_all_nodes_ok t notify :
  valid t ->
  exists t', xhash_table_remove_all_nodes key_destroy_func value_destroy_func uninit t notify false =
    (t', if notify then all_notes (entries t) else []) /\ valid t' /\ entries t' = [].
Proof.
  intros Hv. pose proof Hv as [[[k Hg] Hs Hnn _ _ _] _]. unfold xhash_table_remove_all_nodes.
  destruct (Z.eqb_spec (nnodes t) 0) as [E|E].
  { exists t. rewrite E in Hnn. assert (real_nodes t = []) as Er by (by apply nil_length_inv, Nat2Z.inj).
    assert (entries t = []) as -> by (unfold entries; by rewrite Er). by destruct notify. }
  destruct (negb notify || _) eqn:Eb; cbn [negb].
  - set (zeros := replicate _ 0). set (t1 := with_noccupied _ _).
    eexists. split.
    { assert ((if notify then all_notes (entries t) else []) = []) as ->; [|done].
      destruct notify; [|done]. unfold all_notes. destruct key_destroy_func, value_destroy_func; try done.
      generalize (entries t). intros l. by induction l. }
    destruct Hs as (H1 & _ & (Hbk & H2 & _) & (Hbv & H3 & _)). pose proof (size_pow2 k t Hg) as [_ Hsz].
    assert (zlen zeros = size t) as Hz by (unfold zeros, zlen; rewrite length_replicate; cbn; lia).
    assert (forall b, Forall (cell_ok b) zeros) as Hc by (intros; apply Forall_replicate, cell_ok_0).
    apply (empty_valid _ k).
    + by destruct t as [sz md mk nn no bk bv ks hs vs ver rc], vs.
    + destruct t as [sz md mk nn no bk bv ks hs vs ver rc]. unfold values_array, set_values_array in *.
      cbn in *. destruct vs; cbn in *; split_and!; try done; by apply Forall_replicate.
    + destruct t as [sz md mk nn no bk bv ks hs vs ver rc]. by destruct vs.
    + destruct t as [sz md mk nn no bk bv ks hs vs ver rc]. by destruct vs.
    + destruct t as [sz md mk nn no bk bv ks hs vs ver rc]. destruct vs; cbn; by apply Forall_replicate.
  - zprops. assert (notify = true) as -> by (by destruct notify). eexists. split.
    + rewrite destroy_nodes_ok. done.
    + by apply setup_storage_ok.
Qed.

Lemma bump_valid t : valid t -> valid (bump_version_if_any t).
Proof. intros. unfold bump_version_if_any. destruct (_ =? 0); [done|]. by apply valid_version. Qed.

Lemma bump_entries t : entries (bump_version_if_any t) = entries t.
Proof. unfold bump_version_if_any. by destruct (_ =? 0). Qed.

(** [xhash_table_remove_all] and [xhash_table_steal_all]. *)
Lemma remove_all_ok t notify :
  valid t ->
  exists t', (let '(t, notes) := xhash_table_remove_all_nodes key_destroy_func value_destroy_func uninit
                 (bump_version_if_any t) notify false in
              t ← xhash_table_maybe_resize uninit t;
              Some (t, notes)) = Some (t', if notify then all_notes (entries t) else []) /\
    valid t' /\ entries t' = [].
Proof.
  intros Hv. destruct (remove_all_nodes_ok _ notify (bump_valid t Hv)) as (t1 & -> & Hv1 & E1).
  pose proof Hv1 as [Hst1 Hok1].
  assert (nnodes t1 < 2 ^ 29) as Hfew by (rewrite (nnodes_entries _ _ t1 Hv1), E1; done).
  destruct (maybe_resize_structured uninit Hu t1 Hst1 Hfew) as (t2 & -> & Hst2 & K2). cbn [mbind option_bind].
  rewrite bump_entries. exists t2. split; [done|]. split; [by apply (kept_valid _ _ t1)|].
  destruct K2 as (P & _). unfold entries in *. apply map_eq_nil in E1. rewrite E1 in P.
  apply Permutation_nil_r in P. by rewrite P.
Qed.
End emptying.

(** ** Stealing an entry with its key and value *)

Section stealing.
Context (n : Z) (t : table) (Hs : storage n t) (i : Z) (Hi : 0 <= i < n).
Context (h k v : Z) (Hn : nodes t !! Z.to_nat i = Some (h, k, v)).

(** The first eviction takes the key, and puts a zero in its place. *)
Lemma evict_key_ok :
  exists ks, xhash_table_evict_key_or_value (keys t) i (have_big_keys t) 0 = Some (ks, k) /\
    storage n (with_keys ks t) /\
    nodes (with_keys ks t) !! Z.to_nat i = Some (h, 0, if is_a_set t then 0 else v) /\
    put (with_keys ks t) i TOMBSTONE_HASH_VALUE 0 0 = put t i TOMBSTONE_HASH_VALUE 0 0.
Proof.
  destruct (bucket n t Hs i Hi) as (h' & k' & v' & Hn' & Eh & Ek & Ev & _).
  rewrite Hn in Hn'. injection Hn' as <- <- <-. pose proof Hs as (H1 & F1 & Hks & Hvs).
  unfold xhash_table_evict_key_or_value. rewrite Ek. cbn [mbind option_bind].
  rewrite (assign_ok n i Hi (keys t) _ 0 Hks (cell_ok_0 _)). cbn [mbind option_bind].
  eexists. split; [done|]. pose proof (array_ok_insert n _ _ (Z.to_nat i) 0 Hks (cell_ok_0 _)) as Hks'.
  destruct t as [sz md mk nn no bk bv ks hs vs ver rc]. unfold values_array, is_a_set, nodes, put in *.
  cbn in *. rewrite !lookup_zip_with in *. unfold zlen in *. split; [|split].
  - split_and!; try done. destruct vs; cbn in *; [done|].
    apply (array_ok_insert n bv ks); [done|apply cell_ok_0].
  - rewrite rd_ge_0 in Eh by lia. rewrite Eh in *. cbn in *.
    destruct Hks as (_ & Hl & _). unfold zlen in Hl.
    rewrite list_lookup_insert_eq by lia. cbn. destruct vs as [a|]; cbn in *.
    + destruct (slots ks !! _); [|done]. cbn in Hn. destruct (slots a !! _); [|done].
      cbn in *. by injection Hn as <- <-.
    + by rewrite list_lookup_insert_eq by lia.
  - by rewrite list_insert_insert_eq.
Qed.

Lemma evict_value_ok :
  exists vs, xhash_table_evict_key_or_value (values_array t) i (have_big_values t) 0 = Some (vs, v) /\
    storage n (set_values_array vs t) /\
    (exists k' v', nodes (set_values_array vs t) !! Z.to_nat i = Some (h, k', v')) /\
    put (set_values_array vs t) i TOMBSTONE_HASH_VALUE 0 0 = put t i TOMBSTONE_HASH_VALUE 0 0 /\
    nnodes (set_values_array vs t) = nnodes t.
Proof.
  destruct (bucket n t Hs i Hi) as (h' & k' & v' & Hn' & Eh & Ek & Ev & _).
  rewrite Hn in Hn'. injection Hn' as <- <- <-. pose proof Hs as (H1 & F1 & Hks & Hvs).
  unfold xhash_table_evict_key_or_value. rewrite Ev. cbn [mbind option_bind].
  rewrite (assign_ok n i Hi (values_array t) _ 0 Hvs (cell_ok_0 _)). cbn [mbind option_bind].
  eexists. split; [done|]. pose proof (array_ok_insert n _ _ (Z.to_nat i) 0 Hvs (cell_ok_0 _)) as Hvs'.
  assert (storage n (set_values_array (Cells (big (values_array t))
    (<[Z.to_nat i:=0]> (slots (values_array t)))) t)) as Hs2.
  { destruct t as [sz md mk nn no bk bv ks hs vs ver rc]. unfold values_array, set_values_array in *.
    cbn in *. destruct vs; cbn in *; split_and!; try done.
    apply (array_ok_insert n bk ks); [done|apply cell_ok_0]. }
  split; [done|]. split; [|split].
  - destruct (bucket n _ Hs2 i Hi) as (h2 & k2 & v2 & Hn2 & Eh2 & _). exists k2, v2. rewrite Hn2.
    assert (h2 = h) as ->; [|done]. apply (f_equal id) in Eh2.
    destruct t as [sz md mk nn no bk bv ks hs vs ver rc]. unfold set_values_array in Eh2.
    destruct vs; cbn in *; congruence.
  - destruct t as [sz md mk nn no bk bv ks hs vs ver rc]. unfold values_array, set_values_array, put.
    destruct vs; cbn; by rewrite list_insert_insert_eq.
  - unfold set_values_array. by destruct (values t).
Qed.
End stealing.

Section steal.
Context (hash_func : Z -> Z) (key_equal_func : option (Z -> Z -> bool)).
Context {Hkeys : KeysOk hash_func key_equal_func}.
Context (key_destroy_func value_destroy_func : bool) (uninit : Z) (Hu : 0 <= uninit < 2 ^ 32).

Abbreviation valid := (valid hash_func key_equal_func).
Abbreviation same_key := (keys_match key_equal_func).

(** What is stored for the caller: nothing at a [NULL] location; and, when the
    arrays are shared, the key's eviction leaves no value to read. *)
Definition stolen (t : table) (want_key want_value : bool) (e : Z * Z) : Z * Z :=
  (if want_key then e.1 else 0,
   if want_value then if want_key && is_a_set t then 0 else e.2 else 0).

Lemma steal_extended_ok t key want_key want_value :
  valid t -> room_after_removal t ->
  exists t', xhash_table_steal_extended hash_func key_equal_func key_destroy_func value_destroy_func
      uninit t key want_key want_value =
    Some (t', stolen t want_key want_value <$> dict_find same_key key (entries t)) /\
    valid t' /\ entries t' ≡ₚ dict_remove same_key key (entries t).
Proof.
  intros Hv Hroom. pose proof Hv as [Hst Hok]. pose proof Hst as [_ Hs _ _ _ _].
  destruct (found_bucket hash_func key_equal_func t key Hv) as (i & h & k & v & E & Hi & En & Eh & _ & _ & Hf).
  unfold xhash_table_steal_extended. rewrite E. cbn [mbind option_bind].
  rewrite Eh. cbn [mbind option_bind].
  destruct (HASH_IS_REAL h) eqn:Ereal; unfold HASH_IS_REAL in Ereal; zprops; cbn [negb].
  2:{ destruct Hf as (_ & Hno & Ed). exists t. rewrite Ed. split; [done|]. split; [done|].
      destruct (dict_absent key_equal_func (real_nodes t) key Hno) as [_ PR]. unfold entries. by rewrite PR. }
  destruct Hf as (Hm & Ed).
  destruct (remove_at hash_func key_equal_func t Hst Hok i Hi (h, k, v) En Ereal) as ([Hst1 Hok1] & P1 & _).
  set (t1 := with_nnodes (nnodes t - 1) (put t i TOMBSTONE_HASH_VALUE 0 0)) in *.
  assert (exists t2 : table, (if want_key then
       '(ks, k) ← xhash_table_evict_key_or_value (keys t) i (have_big_keys t) 0;
       Some (with_keys ks t, k) else Some (t, 0)) = Some (t2, if want_key then k else 0) /\
     storage (size t) t2 /\ nnodes t2 = nnodes t /\
     put t2 i TOMBSTONE_HASH_VALUE 0 0 = put t i TOMBSTONE_HASH_VALUE 0 0 /\
     exists k2, nodes t2 !! Z.to_nat i = Some (h, k2, if want_key && is_a_set t then 0 else v))
    as (t2 & -> & Hs2 & Hn2 & Hp2 & k2 & En2).
  { destruct want_key; [|exists t; split_and!; [done|done|done|done|by eexists]].
    destruct (evict_key_ok _ t Hs i Hi h k v En) as (ks & -> & ? & ? & ?).
    eexists. split; [done|]. split_and!; [done|done|done|by eexists]. }
  cbn [mbind option_bind].
  assert (exists t3 : table, (if want_value then
       '(vs, v) ← xhash_table_evict_key_or_value (values_array t2) i (have_big_values t2) 0;
       Some (set_values_array vs t2, v) else Some (t2, 0)) =
       Some (t3, if want_value then if want_key && is_a_set t then 0 else v else 0) /\
     storage (size t) t3 /\ nnodes t3 = nnodes t /\
     put t3 i TOMBSTONE_HASH_VALUE 0 0 = put t i TOMBSTONE_HASH_VALUE 0 0 /\
     exists k3 v3, nodes t3 !! Z.to_nat i = Some (h, k3, v3))
    as (t3 & -> & Hs3 & Hn3 & Hp3 & k3 & v3 & En3).
  { destruct want_value; [|exists t2; split_and!; [done|done|done|done|by do 2 eexists]].
    destruct (evict_value_ok _ t2 Hs2 i Hi _ _ _ En2) as (vs & -> & ? & (? & ? & ?) & ? & ?).
    eexists. split; [done|]. split_and!; [done|congruence|congruence|by do 2 eexists]. }
  cbn [mbind option_bind]. rewrite (remove_node_ok _ t3 Hs3 i Hi _ _ false _ _ _ En3).
  cbn [mbind option_bind]. rewrite Hn3, Hp3. fold t1.
  destruct (maybe_resize_structured uninit Hu t1 Hst1 ltac:(cbn; unfold room_after_removal in Hroom; lia)) as (t4 & -> & Hst4 & K4).
  cbn [mbind option_bind]. eexists. rewrite Ed. split; [done|].
  split; [by apply valid_version, (kept_valid _ _ t1)|]. destruct K4 as (P4 & _).
  change (entries (with_version _ t4)) with (entries t4).
  destruct (dict_found hash_func key_equal_func (h, k, v) (real_nodes t1) (real_nodes t) key Hok P1 Hm) as [_ PR].
  unfold entries. by rewrite P4, PR.
Qed.
End steal.

(** ** The hash table as a dictionary *)

Section service.
Context (hash_func : Z -> Z) (key_equal_func : option (Z -> Z -> bool)).
Context (key_destroy_func value_destroy_func : bool) (uninit : Z).

Definition hash_serve (r : request) (t : table) : option (table * answer) :=
  match r with
  | Lookup k =>
      e ← xhash_table_lookup_extended hash_func key_equal_func t k; Some (t, Entry e)
  | Insert k v =>
      '(t, _, _) ← xhash_table_insert hash_func key_equal_func key_destroy_func value_destroy_func uninit t k v;
      Some (t, Done)
  | Replace k v =>
      '(t, _, _) ← xhash_table_replace hash_func key_equal_func key_destroy_func value_destroy_func uninit t k v;
      Some (t, Done)
  | Remove k =>
      '(t, _, b) ← xhash_table_remove hash_func key_equal_func key_destroy_func value_destroy_func uninit t k;
      Some (t, Removed b)
  end.

Context {Hkeys : KeysOk hash_func key_equal_func} (Hu : 0 <= uninit < 2 ^ 32).
Abbreviation same_key := (keys_match key_equal_func).

Lemma entries_dict_ok t : valid hash_func key_equal_func t -> dict_ok same_key (entries t).
Proof.
  intros [_ [_ H]] k. unfold entries. rewrite (filter_entries key_equal_func), length_map. apply H.
Qed.

#[export, refine] Instance hash_dictionary : Dictionary table same_key := {
  d_contents := entries;
  d_ok := valid hash_func key_equal_func;
  d_capacity := 2 ^ 29 - 1;
  d_serve := hash_serve
}.
Proof.
  - exact entries_dict_ok.
  - intros r t Hv Hr Hcap.
    assert (room t) as Hroom by (unfold room; by erewrite nnodes_entries).
    destruct r as [k|k v|k v|k]; cbn [hash_serve dict_answer fst snd request_ok] in *.
    + destruct (lookup_ok hash_func key_equal_func t k Hv) as (-> & _). by eexists.
    + destruct Hr as [Hk Hvp]. unfold xhash_table_insert.
      destruct (insert_internal_ok hash_func key_equal_func key_destroy_func value_destroy_func uninit Hu
        t k v false Hv Hroom Hk Hvp) as (t' & -> & ? & ? & _). by eexists.
    + destruct Hr as [Hk Hvp]. unfold xhash_table_replace.
      destruct (insert_internal_ok hash_func key_equal_func key_destroy_func value_destroy_func uninit Hu
        t k v true Hv Hroom Hk Hvp) as (t' & -> & ? & ? & _). by eexists.
    + unfold xhash_table_remove.
      destruct (remove_internal_ok hash_func key_equal_func key_destroy_func value_destroy_func uninit Hu
        t k true Hv ltac:(unfold room, room_after_removal in *; lia)) as (t' & -> & ? & ? & _). by eexists.
Defined.
End service.

(** ** Concrete tables, for the instances of the properties *)

#[export] Instance direct_keys_ok : KeysOk g_direct_hash None.
Proof.
  split; cbn [keys_match]; intros.
  - apply Z.eqb_refl.
  - by rewrite Z.eqb_sym.
  - zprops. subst. apply Z.eqb_refl.
  - zprops. by subst.
  - by apply wrap_range.
Qed.

(** Keys that point to strings, as [xstr_hash] and [xstr_equal] read them. *)
#[export] Instance str_keys_ok (str_at : Z -> list Z) :
  KeysOk (fun k => xstr_hash (str_at k)) (Some (fun k1 k2 => xstr_equal (str_at k1) (str_at k2))).
Proof.
  split; cbn [keys_match]; intros *; unfold xstr_equal; rewrite ?bool_decide_eq_true; try congruence.
  unfold xstr_hash. enough (forall s h, 0 <= h < 2 ^ 32 -> 0 <= xstr_hash_loop h s < 2 ^ 32) as H
    by (apply H; lia).
  intros s. induction s as [|c s IH]; intros h Hh; cbn [xstr_hash_loop]; [done|].
  by apply IH, wrap_range.
Qed.

(** Two keys with the same hash, a tombstone, wide keys and values. *)
Definition sample_requests : list request :=
  [Insert 1 10; Insert (1 + 2 ^ 32) 20; Remove 1; Insert 5 50; Insert 6 (2 ^ 40); Replace 5 51; Insert 9 9].
Definition sample : table :=
  Eval vm_compute in
    match serve_all (hash_serve g_direct_hash None true true 7) sample_requests (xhash_table_new_full 7) with
    | Some (t, _) => t
    | None => xhash_table_new_full 7
    end.
(** A set. *)
Definition sample_set : table :=
  Eval vm_compute in
    match serve_all (hash_serve g_direct_hash None true true 7) [Replace 3 3; Insert 4 4] (xhash_table_new_full 7) with
    | Some (t, _) => t
    | None => xhash_table_new_full 7
    end.

Lemma served_valid rs t answers :
  forallb (fun r => match r with Lookup k | Remove k => (0 <=? k) && (k <? 2 ^ 64)
             | Insert k v | Replace k v => (0 <=? k) && (k <? 2 ^ 64) && ((0 <=? v) && (v <? 2 ^ 64)) end) rs = true ->
  zlen rs < 2 ^ 29 ->
  serve_all (hash_serve g_direct_hash None true true 7) rs (xhash_table_new_full 7) = Some (t, answers) ->
  valid g_direct_hash None t.
Proof.
  intros Hrs Hlen E.
  destruct (serve_all_ok (D := hash_dictionary g_direct_hash None true true 7 ltac:(lia)) rs
    (xhash_table_new_full 7) []) as (t' & E' & Hv & _).
  - by apply new_ok.
  - apply Forall_forall. intros r Hr. rewrite forallb_forall in Hrs. apply list_elem_of_In in Hr.
    specialize (Hrs r Hr). destruct r; unfold request_ok, is_pointer; zprops; lia.
  - change (entries (xhash_table_new_full 7) ≡ₚ []).
    by destruct (new_ok g_direct_hash None 7 ltac:(lia)) as [_ ->].
  - rewrite zlen_nil. change (d_capacity _) with (2 ^ 29 - 1). lia.
  - change (serve_all d_serve) with (serve_all (hash_serve g_direct_hash None true true 7)) in E'.
    rewrite E in E'. by injection E' as -> ->.
Qed.

Lemma sample_valid : valid g_direct_hash None sample.
Proof. eapply (served_valid sample_requests); [done|done|by vm_compute]. Qed.

Lemma sample_set_valid : valid g_direct_hash None sample_set.
Proof. eapply (served_valid [Replace 3 3; Insert 4 4]); [done|done|by vm_compute]. Qed.

(** ** The properties *)

Section properties.
Context (hash_func : Z -> Z) (key_equal_func : option (Z -> Z -> bool)).
Context {Hkeys : KeysOk hash_func key_equal_func}.
Context (key_destroy_func value_destroy_func : bool) (uninit : Z) (Hu : 0 <= uninit < 2 ^ 32).

Abbreviation valid := (valid hash_func key_equal_func).
Abbreviation same_key := (keys_match key_equal_func).


(** C28: Lookups in a valid table end and find the entry of the key, or report
    that there is none: [lookup_extended] with the stored key and the value,
    [lookup] with the value or [NULL], [contains] with a boolean. *)
Theorem hash_table_lookup t key :
  valid t ->
  xhash_table_lookup_extended hash_func key_equal_func t key = Some (dict_find same_key key (entries t)) /\
  xhash_table_lookup hash_func key_equal_func t key =
    Some (match dict_find same_key key (entries t) with Some (_, v) => v | None => 0 end) /\
  xhash_table_contains hash_func key_equal_func t key =
    Some (bool_decide (is_Some (dict_find same_key key (entries t)))).
Proof. by apply lookup_ok. Qed.


(** Removal takes the entry of the key out, reports whether there was one,
    and destroys its key and value ([remove]) or not ([steal]); the other entries
    stay, also when the table shrinks. *)
Theorem hash_table_remove t k :
  valid t -> room_after_removal t ->
  let old := dict_find same_key k (entries t) in
  (exists t', xhash_table_remove hash_func key_equal_func key_destroy_func value_destroy_func uninit t k =
      Some (t', remove_notes key_destroy_func value_destroy_func old, bool_decide (is_Some old)) /\
    valid t' /\ entries t' ≡ₚ dict_remove same_key k (entries t)) /\
  (exists t', xhash_table_steal hash_func key_equal_func key_destroy_func value_destroy_func uninit t k =
      Some (t', [], bool_decide (is_Some old)) /\
    valid t' /\ entries t' ≡ₚ dict_remove same_key k (entries t)).
Proof.
  intros Hv Hroom. cbn zeta. unfold xhash_table_remove, xhash_table_steal.
  pose proof (fun notify => remove_internal_ok hash_func key_equal_func key_destroy_func
    value_destroy_func uninit Hu t k notify Hv Hroom) as H.
  destruct (H true) as (t1 & ? & ? & ? & _), (H false) as (t2 & ? & ? & ? & _).
  split; [by exists t1|by exists t2].
Qed.

(** C34: In a table of at most [2 ^ 29] nodes, [steal_extended] removes the entry without destroying it and returns its
    key; it returns its value too unless the table is a set and both are asked
    for: the key's slot, which holds the value, is zeroed first and the value
    returned is [NULL]. *)
Theorem hash_table_steal_extended t key want_key want_value :
  valid t -> room_after_removal t ->
  exists t', xhash_table_steal_extended hash_func key_equal_func key_destroy_func value_destroy_func
      uninit t key want_key want_value =
    Some (t', stolen t want_key want_value <$> dict_find same_key key (entries t)) /\
    valid t' /\ entries t' ≡ₚ dict_remove same_key key (entries t).
Proof. by apply steal_extended_ok. Qed.

(** Removing or stealing all the entries leaves a valid empty table; the
    removal destroys every key and value once, in the order of the walk. *)
Theorem hash_table_remove_all t :
  valid t ->
  (exists t', xhash_table_remove_all key_destroy_func value_destroy_func uninit t =
      Some (t', all_notes key_destroy_func value_destroy_func (entries t)) /\
    valid t' /\ entries t' = []) /\
  (exists t', xhash_table_steal_all key_destroy_func value_destroy_func uninit t = Some (t', []) /\
    valid t' /\ entries t' = []).
Proof.
  intros Hv. pose proof (fun notify => remove_all_ok hash_func key_equal_func key_destroy_func
    value_destroy_func uninit Hu t notify Hv) as H. split; [apply (H true)|apply (H false)].
Qed.


(** The walks over a valid table visit exactly its entries, each once:
    [foreach] in index order, [get_keys] and [get_values] in the reverse order,
    [get_keys_as_array] into an array of the right length with a final [NULL],
    [find] up to the first entry that satisfies the predicate. *)
Theorem hash_table_walk t predicate :
  valid t ->
  xhash_table_foreach t = Some (entries t) /\
  xhash_table_get_keys t = Some (rev (map fst (entries t))) /\
  xhash_table_get_values t = Some (rev (map snd (entries t))) /\
  xhash_table_get_keys_as_array uninit t = Some (map fst (entries t) ++ [0], xhash_table_size t) /\
  xhash_table_find t predicate =
    Some (match head (filter (picked predicate) (entries t)) with Some (_, v) => v | None => 0 end).
Proof.
  intros Hv. pose proof (nnodes_entries _ _ t Hv) as Hnn. destruct Hv as [[[k Hg] Hs _ _ _ _] _].
  pose proof (foreach_ok t k Hs Hg) as E. pose proof (size_pow2 k t Hg) as [_ Hsz].
  unfold xhash_table_foreach, xhash_table_get_keys, xhash_table_get_values, xhash_table_get_keys_as_array.
  rewrite E. cbn [mbind option_bind]. do 3 (split; [done|]). split.
  - set (l := entries t) in *. rewrite write_at_all; [|lia|].
    2:{ unfold zlen in *. rewrite length_map, length_replicate. lia. }
    cbn [mbind option_bind]. rewrite take_0, length_map, app_nil_l, drop_replicate. rewrite Hnn.
    unfold zlen. replace (Z.to_nat (Z.of_nat (length l) + 1) - (Z.to_nat 0 + length l))%nat with 1%nat by lia.
    cbn [replicate]. rewrite wr_all.
    2:{ unfold zlen. rewrite length_app, length_map. cbn [length]. lia. }
    cbn [mbind option_bind]. rewrite Z.eqb_refl. unfold xhash_table_size. rewrite Hnn.
    unfold zlen. do 2 f_equal. rewrite Nat2Z.id, insert_app_r_alt by (rewrite length_map; lia).
    by rewrite length_map, Nat.sub_diag.
  - unfold xhash_table_find. rewrite (find_loop_ok (size t)) by (done || lia). done.
Qed.

(** Iterating, and removing or stealing entries through the iterator on the
    way, visits every entry exactly once, in index order, and leaves a valid
    table with the entries that were not removed. *)
Theorem hash_table_iterate t func notify :
  valid t ->
  exists t', iter_loop (S (length (entries t))) key_destroy_func value_destroy_func t
      (xhash_table_iter_init t) func notify = Some (t', entries t) /\
    valid t' /\ entries t' = filter (fun e => ~ picked func e) (entries t).
Proof.
  intros Hv. pose proof Hv as [[[k Hg] Hs _ _ _ _] _]. pose proof (size_pow2 k t Hg) as [_ Hsz].
  destruct (iter_loop_ok hash_func key_equal_func key_destroy_func value_destroy_func func notify
    (S (length (entries t))) t (xhash_table_iter_init t)) as (t' & E & Hv' & HN); [done|done|cbn; lia| |].
  { change (remaining t (position (xhash_table_iter_init t))) with (entries t). lia. }
  exists t'. split; [exact E|]. split; [done|]. unfold entries at 1, real_nodes. rewrite HN.
  exact (entries_swept func (nodes t)).
Qed.

(** [foreach_remove] and [foreach_steal] remove exactly the entries their
    function picks, report their number, and destroy them in order or not. *)
Theorem hash_table_foreach_remove t func notify :
  valid t -> nnodes t < 2 ^ 29 ->
  exists t', xhash_table_foreach_remove_or_steal key_destroy_func value_destroy_func uninit t func notify =
    Some (t', sweep_notes key_destroy_func value_destroy_func func notify (entries t),
          zlen (filter (picked func) (entries t))) /\
    valid t' /\ entries t' ≡ₚ filter (fun e => ~ picked func e) (entries t).
Proof.
  intros Hv Hfew. pose proof Hv as [[[k Hg] Hs _ _ _ _] _]. pose proof (size_pow2 k t Hg) as [_ Hsz].
  destruct (foreach_remove_loop_ok hash_func key_equal_func key_destroy_func value_destroy_func func notify
    (Z.to_nat (size t)) t 0 0) as (t1 & E1 & [Hst1 Hok1] & _ & _ & HN); [done|lia|lia|].
  assert (entries t1 = filter (fun e => ~ picked func e) (entries t)) as Ent.
  { unfold entries at 1, real_nodes. rewrite HN. exact (entries_swept func (nodes t)). }
  assert (nnodes t1 < 2 ^ 29) as Hfew1.
  { rewrite (nnodes_entries hash_func key_equal_func t Hv) in Hfew. rewrite (nnodes_entries hash_func key_equal_func t1 (conj Hst1 Hok1)), Ent.
    pose proof (length_filter (fun e => ~ picked func e) (entries t)). unfold zlen in *. lia. }
  unfold xhash_table_foreach_remove_or_steal. rewrite E1. cbn [mbind option_bind].
  destruct (maybe_resize_structured uninit Hu t1 Hst1 Hfew1) as (t2 & -> & Hst2 & K2). cbn [mbind option_bind].
  eexists. split; [done|]. pose proof (kept_valid _ _ t1 t2 Hst2 Hok1 K2) as Hv2. destruct K2 as (P2 & _).
  split; [destruct (0 <? _); [by apply valid_version|done]|].
  rewrite <- Ent. destruct (0 <? _); unfold entries; [change (real_nodes (with_version _ t2)) with (real_nodes t2)|]; by rewrite P2.
Qed.
End properties.

(** The buckets probed for a hash in [size] steps are all the buckets, each
    once, so a search among them ends; and the loop computes those probes. *)
Theorem hash_table_probes t k h :
  geometry k t ->
  map (fun n => probe t h (Z.of_nat n)) (seq 0 (Z.to_nat (size t))) ≡ₚ seqZ 0 (size t) /\
  probe t h 0 = xhash_table_hash_to_index t h /\
  forall n, 0 <= n < size t -> next_index t (probe t h n) (n + 1) = probe t h (n + 1).
Proof.
  intros Hg. split; [|split; [by apply (probe_0 k)|by apply (next_index_probe k)]].
  symmetry. apply submseteq_length_Permutation.
  - apply NoDup_submseteq; [apply NoDup_seqZ|]. intros i Hi. apply elem_of_seqZ in Hi.
    destruct (probe_surj k t Hg h i ltac:(lia)) as (n & Hn & <-). apply list_elem_of_fmap.
    exists (Z.to_nat n). rewrite Z2Nat.id by lia. split; [done|]. apply elem_of_seq. lia.
  - rewrite length_map, length_seq, length_seqZ. done.
Qed.

(** ** Instances *)


Lemma hash_table_lookup_witness :
  valid g_direct_hash None sample /\
  xhash_table_lookup_extended g_direct_hash None sample 5 = Some (Some (5, 51)).
Proof.
  split; [exact sample_valid|].
  rewrite (proj1 (hash_table_lookup g_direct_hash None sample 5 sample_valid)). by vm_compute.
Defined.


Lemma hash_table_remove_witness :
  exists t', xhash_table_remove g_direct_hash None true true 7 sample (1 + 2 ^ 32) =
      Some (t', [KeyDestroyed (1 + 2 ^ 32); ValueDestroyed 20], true) /\
    valid g_direct_hash None t' /\
    entries t' ≡ₚ dict_remove (keys_match None) (1 + 2 ^ 32) (entries sample).
Proof. exact (proj1 (hash_table_remove g_direct_hash None true true 7 ltac:(lia) sample (1 + 2 ^ 32) sample_valid ltac:(done))). Defined.

(** The set is asked for the member 3: its key comes back, its value is lost. *)
Lemma hash_table_steal_extended_witness :
  exists t', xhash_table_steal_extended g_direct_hash None true true 7 sample_set 3 true true =
      Some (t', Some (3, 0)) /\
    valid g_direct_hash None t' /\
    entries t' ≡ₚ dict_remove (keys_match None) 3 (entries sample_set).
Proof.
  apply (hash_table_steal_extended g_direct_hash None true true 7 ltac:(lia) sample_set 3 true true sample_set_valid ltac:(done)).
Defined.

Lemma hash_table_remove_all_witness :
  exists t', xhash_table_remove_all true true 7 sample =
      Some (t', all_notes true true (entries sample)) /\ valid g_direct_hash None t' /\ entries t' = [].
Proof. exact (proj1 (hash_table_remove_all g_direct_hash None true true 7 ltac:(lia) sample sample_valid)). Defined.


Lemma hash_table_walk_witness :
  xhash_table_foreach sample = Some (entries sample) /\
  xhash_table_get_keys_as_array 7 sample = Some (map fst (entries sample) ++ [0], 4).
Proof.
  destruct (hash_table_walk g_direct_hash None 7 sample (fun k _ => k =? 5) sample_valid)
    as (E1 & _ & _ & E2 & _). split; [exact E1|exact E2].
Defined.

Lemma hash_table_iterate_witness :
  exists t', iter_loop 5 true true sample (xhash_table_iter_init sample) (fun k _ => k <? 9) true =
      Some (t', entries sample) /\
    valid g_direct_hash None t' /\
    entries t' = filter (fun e => ~ picked (fun k _ => k <? 9) e) (entries sample).
Proof. exact (hash_table_iterate g_direct_hash None true true sample (fun k _ => k <? 9) true sample_valid). Defined.

Lemma hash_table_foreach_remove_witness :
  exists t', xhash_table_foreach_remove_or_steal true true 7 sample (fun k _ => k <? 9) true =
      Some (t', sweep_notes true true (fun k _ => k <? 9) true (entries sample), 2) /\
    valid g_direct_hash None t' /\
    entries t' ≡ₚ filter (fun e => ~ picked (fun k _ => k <? 9) e) (entries sample).
Proof.
  exact (hash_table_foreach_remove g_direct_hash None true true 7 ltac:(lia) sample
    (fun k _ => k <? 9) true sample_valid ltac:(done)).
Defined.

Lemma hash_table_probes_witness :
  map (fun n => probe sample 77 (Z.of_nat n)) (seq 0 8) ≡ₚ seqZ 0 8.
Proof. apply (hash_table_probes sample 3 77). by vm_compute. Defined.
