(* ===== verification/Tree.v ===== *)
(** * The balanced binary tree: src/glib/gtree.c

    The tree is threaded: where a node has no left child its [left] field points
    to its predecessor, where it has no right child its [right] field points to
    its successor. A [link] is such a field together with its child flag: a
    child, with the fields of the node, or a thread, which names a node by its
    address. The array [path] of ancestors is a list of frames, innermost first,
    which together with the node at hand is the whole tree (a zipper); writing a
    child of an ancestor is rebuilding its frame.

    [None] is undefined behaviour: a write outside the array [path], or a child
    that is not there. The comparison function, the callbacks and the address of
    a new node are parameters. *)

From S2P Require Import Prelude Dictionary.
Local Open Scope Z_scope.

Definition MAX_GTREE_HEIGHT : Z := 40.

Inductive link :=
| Thread (target : option Z)
| Child (id key value balance : Z) (left right : link).

(** An ancestor, with its other child: the node at hand is its left, or its
    right child. *)
Inductive frame :=
| InLeft (id key value balance : Z) (right : link)
| InRight (id key value balance : Z) (left : link).

Record xtree := XTree { root : link; tree_nnodes : Z; tree_ref_count : Z }.

(** What the API returns for a node. *)
Record tree_node := TreeNode { node_id : Z; tnode_key : Z; tnode_value : Z }.

Definition is_child (l : link) : bool := if l is Child _ _ _ _ _ _ then true else false.

(** The tree around a node. *)
Definition plug1 (f : frame) (l : link) : link :=
  match f with
  | InLeft id k v b r => Child id k v b l r
  | InRight id k v b l' => Child id k v b l' l
  end.
Fixpoint plug (path : list frame) (l : link) : link :=
  match path with
  | [] => l
  | f :: path => plug path (plug1 f l)
  end.

(** [path[++idx] = ...]: the array has [MAX_GTREE_HEIGHT] slots and the first
    one holds [NULL]. *)
Definition push (f : frame) (path : list frame) : option (list frame) :=
  if zlen path + 1 <? MAX_GTREE_HEIGHT then Some (f :: path) else None.

Definition xtree_node_new (id key value : Z) (left right : link) : link := Child id key value 0 left right.

(** ** Rotations *)

Definition xtree_node_rotate_left (node : link) : option link :=
  match node with
  | Child a ak av a_bal al (Child b bk bv b_bal bl br) =>
      let node_right := if is_child bl then bl else Thread (Some b) in
      let right_bal :=
        if b_bal <=? 0 then if 1 <=? a_bal then b_bal - 1 else a_bal + b_bal - 2
        else if a_bal <=? b_bal then a_bal - 2 else b_bal - 1 in
      let node_bal := if b_bal <=? 0 then a_bal - 1 else a_bal - b_bal - 1 in
      Some (Child b bk bv right_bal (Child a ak av node_bal al node_right) br)
  | _ => None
  end.

Definition xtree_node_rotate_right (node : link) : option link :=
  match node with
  | Child a ak av a_bal (Child b bk bv b_bal bl br) ar =>
      let node_left := if is_child br then br else Thread (Some b) in
      let left_bal :=
        if b_bal <=? 0 then if a_bal <? b_bal then b_bal + 1 else a_bal + 2
        else if a_bal <=? -1 then b_bal + 1 else a_bal + b_bal + 2 in
      let node_bal := if b_bal <=? 0 then a_bal - b_bal + 1 else a_bal + 1 in
      Some (Child b bk bv left_bal bl (Child a ak av node_bal node_left ar))
  | _ => None
  end.

Definition balance_of (l : link) : option Z :=
  match l with Child _ _ _ b _ _ => Some b | Thread _ => None end.

Definition xtree_node_balance (node : link) : option link :=
  match node with
  | Child a ak av bal l r =>
      if bal <? -1 then
        left_bal ← balance_of l;
        l ← (if 0 <? left_bal then xtree_node_rotate_left l else Some l);
        xtree_node_rotate_right (Child a ak av bal l r)
      else if 1 <? bal then
        right_bal ← balance_of r;
        r ← (if right_bal <? 0 then xtree_node_rotate_right r else Some r);
        xtree_node_rotate_left (Child a ak av bal l r)
      else Some node
  | Thread _ => None
  end.

(** [if (node->balance < -1 || node->balance > 1) node = xtree_node_balance (node)] *)
Definition rebalance_node (node : link) : option link :=
  bal ← balance_of node;
  if (bal <? -1) || (1 <? bal) then xtree_node_balance node else Some node.

(** ** First, last, next, previous *)

Definition node_of (l : link) : option tree_node :=
  match l with Child id k v _ _ _ => Some (TreeNode id k v) | Thread _ => None end.

(** [while (tmp->left_child) tmp = tmp->left] *)
Fixpoint leftmost (l : link) : link :=
  match l with
  | Child _ _ _ _ (Child _ _ _ _ _ _ as l') _ => leftmost l'
  | _ => l
  end.
Fixpoint rightmost (l : link) : link :=
  match l with
  | Child _ _ _ _ _ (Child _ _ _ _ _ _ as r') => rightmost r'
  | _ => l
  end.

Definition xtree_node_first (t : xtree) : option tree_node := node_of (leftmost (root t)).
Definition xtree_node_last (t : xtree) : option tree_node := node_of (rightmost (root t)).

(** The node at an address. *)
Fixpoint deref (l : link) (id : Z) : option link :=
  match l with
  | Thread _ => None
  | Child i _ _ _ l' r' =>
      if i =? id then Some l
      else match deref l' id with Some n => Some n | None => deref r' id end
  end.

(** A thread is followed to the node it names; [Some None] is [NULL]. *)
Definition follow (rt : link) (target : option Z) : option (option tree_node) :=
  match target with
  | None => Some None
  | Some id => n ← deref rt id; Some (node_of n)
  end.

Definition xtree_node_previous (t : xtree) (id : Z) : option (option tree_node) :=
  n ← deref (root t) id;
  match n with
  | Child _ _ _ _ (Thread target) _ => follow (root t) target
  | Child _ _ _ _ l _ => Some (node_of (rightmost l))
  | Thread _ => None
  end.
Definition xtree_node_next (t : xtree) (id : Z) : option (option tree_node) :=
  n ← deref (root t) id;
  match n with
  | Child _ _ _ _ _ (Thread target) => follow (root t) target
  | Child _ _ _ _ _ r => Some (node_of (leftmost r))
  | Thread _ => None
  end.

(** [tmp = leftmost of l; tmp->left = target], and the mirror image. *)
Fixpoint set_left_thread (l : link) (target : option Z) : link :=
  match l with
  | Child id k v b (Child _ _ _ _ _ _ as l') r => Child id k v b (set_left_thread l' target) r
  | Child id k v b (Thread _) r => Child id k v b (Thread target) r
  | Thread _ => l
  end.
Fixpoint set_right_thread (l : link) (target : option Z) : link :=
  match l with
  | Child id k v b l' (Child _ _ _ _ _ _ as r) => Child id k v b l' (set_right_thread r target)
  | Child id k v b l' (Thread _) => Child id k v b l' (Thread target)
  | Thread _ => l
  end.

Section Tree.
Context (key_compare : Z -> Z -> Z) (key_destroy_func value_destroy_func : bool).

Abbreviation notify_key := (Dictionary.notify_key key_destroy_func).
Abbreviation notify_value := (Dictionary.notify_value value_destroy_func).

Definition xtree_new_full : xtree := XTree (Thread None) 0 1.

(** ** Insertion *)

(** The second loop of [xtree_insert_internal]: restores the balance, up the
    path, until a subtree keeps its height. *)
Fixpoint insert_rebalance (path : list frame) (node : link) : option link :=
  node ← rebalance_node node;
  bal ← balance_of node;
  match path with
  | [] => Some node
  | f :: path' =>
      if bal =? 0 then Some (plug path node)
      else
        match f with
        | InLeft id k v b r => insert_rebalance path' (Child id k v (b - 1) node r)
        | InRight id k v b l => insert_rebalance path' (Child id k v (b + 1) l node)
        end
  end.

(** What the search of an insertion ends with: the whole tree, the node returned,
    the notifications, and whether a node was added. *)
Definition insert_result := (link * tree_node * list notification * bool)%type.

(** The first loop, from a node and the path to it. *)
Fixpoint insert_loop (fresh key value : Z) (replace : bool) (node : link) (path : list frame)
  : option insert_result :=
  match node with
  | Thread _ => None
  | Child id k v b l r =>
      let cmp := key_compare key k in
      if cmp =? 0 then
        let k' := if replace then key else k in
        Some (plug path (Child id k' value b l r), TreeNode id k' value,
              notify_value v ++ notify_key (if replace then k else key), false)
      else if cmp <? 0 then
        if is_child l then
          path ← push (InLeft id k v b r) path;
          insert_loop fresh key value replace l path
        else
          let child := xtree_node_new fresh key value l (Thread (Some id)) in
          t ← insert_rebalance path (Child id k v (b - 1) child r);
          Some (t, TreeNode fresh key value, [], true)
      else
        if is_child r then
          path ← push (InRight id k v b l) path;
          insert_loop fresh key value replace r path
        else
          let child := xtree_node_new fresh key value (Thread (Some id)) r in
          t ← insert_rebalance path (Child id k v (b + 1) l child);
          Some (t, TreeNode fresh key value, [], true)
  end.

Definition xtree_insert_internal (fresh : Z) (t : xtree) (key value : Z) (replace : bool)
  : option (xtree * tree_node * list notification) :=
  if is_child (root t) then
    '(rt, retnode, notes, added) ← insert_loop fresh key value replace (root t) [];
    Some (XTree rt (if (added : bool) then u32 (tree_nnodes t + 1) else tree_nnodes t) (tree_ref_count t),
          retnode, notes)
  else
    Some (XTree (xtree_node_new fresh key value (Thread None) (Thread None))
            (u32 (tree_nnodes t + 1)) (tree_ref_count t), TreeNode fresh key value, []).

Definition xtree_insert_node (fresh : Z) (t : xtree) (key value : Z) :=
  xtree_insert_internal fresh t key value false.
Definition xtree_replace_node (fresh : Z) (t : xtree) (key value : Z) :=
  xtree_insert_internal fresh t key value true.
Definition xtree_insert (fresh : Z) (t : xtree) (key value : Z) : option (xtree * list notification) :=
  '(t, _, notes) ← xtree_insert_node fresh t key value; Some (t, notes).
Definition xtree_replace (fresh : Z) (t : xtree) (key value : Z) : option (xtree * list notification) :=
  '(t, _, notes) ← xtree_replace_node fresh t key value; Some (t, notes).

(** ** Removal *)

(** The last loop of [xtree_remove_internal]: up the path, until a subtree
    keeps its height. *)
Fixpoint remove_rebalance (path : list frame) (balance : link) : option link :=
  balance ← rebalance_node balance;
  bal ← balance_of balance;
  match path with
  | [] => Some balance
  | f :: path' =>
      if negb (bal =? 0) then Some (plug path balance)
      else
        match f with
        | InLeft id k v b r => remove_rebalance path' (Child id k v (b + 1) balance r)
        | InRight id k v b l => remove_rebalance path' (Child id k v (b - 1) l balance)
        end
  end.

(** The parent's link to the node that is removed gets another target; then the
    parent is where balancing starts. *)
Definition relink (path : list frame) (l : link) : option link :=
  match path with
  | [] => Some l
  | InLeft id k v b r :: path => remove_rebalance path (Child id k v (b + 1) l r)
  | InRight id k v b l' :: path => remove_rebalance path (Child id k v (b - 1) l' l)
  end.

(** [while (next->left_child) path[++idx] = nextp = next, next = next->left]:
    the leftmost node and the path to it. *)
Fixpoint find_next (next : link) (path : list frame) : option (link * list frame) :=
  match next with
  | Child id k v b (Child _ _ _ _ _ _ as l) r =>
      path ← push (InLeft id k v b r) path;
      find_next l path
  | _ => Some (next, path)
  end.

(** The node at the end of the path has both children: its successor is taken
    out of the right subtree and replaces it. [path[old_idx]] is the frame of
    the successor, which is known once it is found; until then the frame of the
    node stands for it. *)
Fixpoint replace_frame (n : nat) (f : frame) (path : list frame) : list frame :=
  match n, path with
  | O, _ :: path => f :: path
  | S n, g :: path => g :: replace_frame n f path
  | _, [] => []
  end.

Definition remove_both (path : list frame) (id key value bal : Z) (l r : link) : option link :=
  path1 ← push (InRight id key value bal l) path;
  '(next, path2) ← find_next r path1;
  match next with
  | Thread _ => None
  | Child nid nk nv nb nl nr =>
      let depth := (length path2 - length path1)%nat in
      let left := set_right_thread l (Some nid) in
      match depth with
      | O => (* next == node->right *)
          remove_rebalance path (Child nid nk nv (bal - 1) left nr)
      | S depth =>
          match path2 with
          | InLeft pid pk pv pb pr :: path3 =>
              let nextp_left := if is_child nr then nr else Thread (Some nid) in
              remove_rebalance (replace_frame depth (InRight nid nk nv bal left) path3)
                (Child pid pk pv (pb + 1) nextp_left pr)
          | _ => None
          end
      end
  end.

Definition remove_found (path : list frame) (node : link) : option link :=
  match node with
  | Thread _ => None
  | Child id k v b l r =>
      match is_child l, is_child r with
      | false, false =>
          match path with
          | [] => Some (Thread None)
          | InLeft _ _ _ _ _ :: _ => relink path l
          | InRight _ _ _ _ _ :: _ => relink path r
          end
      | false, true =>
          if l is Thread target then relink path (set_left_thread r target) else None
      | true, false =>
          if r is Thread target then relink path (set_right_thread l target) else None
      | true, true => remove_both path id k v b l r
      end
  end.

(** [None] inside: the key is not there. *)
Fixpoint remove_loop (key : Z) (node : link) (path : list frame)
  : option (option (link * tree_node)) :=
  match node with
  | Thread _ => None
  | Child id k v b l r =>
      let cmp := key_compare key k in
      if cmp =? 0 then
        t ← remove_found path node; Some (Some (t, TreeNode id k v))
      else if cmp <? 0 then
        if negb (is_child l) then Some None
        else
          path ← push (InLeft id k v b r) path;
          remove_loop key l path
      else
        if negb (is_child r) then Some None
        else
          path ← push (InRight id k v b l) path;
          remove_loop key r path
  end.

Definition xtree_remove_internal (t : xtree) (key : Z) (steal : bool)
  : option (xtree * list notification * bool) :=
  if negb (is_child (root t)) then Some (t, [], false)
  else
    result ← remove_loop key (root t) [];
    match result with
    | None => Some (t, [], false)
    | Some (rt, node) =>
        Some (XTree rt (u32 (tree_nnodes t - 1)) (tree_ref_count t),
              if steal then [] else notify_key (tnode_key node) ++ notify_value (tnode_value node), true)
    end.

Definition xtree_remove (t : xtree) (key : Z) := xtree_remove_internal t key false.
Definition xtree_steal (t : xtree) (key : Z) := xtree_remove_internal t key true.

(** ** Lookup *)

Fixpoint find_node_loop (key : Z) (node : link) : option tree_node :=
  match node with
  | Thread _ => None
  | Child id k v b l r =>
      let cmp := key_compare key k in
      if cmp =? 0 then Some (TreeNode id k v)
      else if cmp <? 0 then (if negb (is_child l) then None else find_node_loop key l)
      else (if negb (is_child r) then None else find_node_loop key r)
  end.

Definition xtree_find_node (t : xtree) (key : Z) : option tree_node := find_node_loop key (root t).
Definition xtree_lookup_node (t : xtree) (key : Z) : option tree_node := xtree_find_node t key.
Definition xtree_lookup (t : xtree) (key : Z) : Z :=
  match xtree_lookup_node t key with Some node => tnode_value node | None => 0 end.
Definition xtree_lookup_extended (t : xtree) (lookup_key : Z) : option (Z * Z) :=
  match xtree_find_node t lookup_key with
  | Some node => Some (tnode_key node, tnode_value node)
  | None => None
  end.

Definition xtree_node_key (node : tree_node) : Z := tnode_key node.
Definition xtree_node_value (node : tree_node) : Z := tnode_value node.

(** [search_func] gets the key of a node. *)
Fixpoint xtree_node_search (search_func : Z -> Z) (node : link) : option tree_node :=
  match node with
  | Thread _ => None
  | Child id k v b l r =>
      let dir := search_func k in
      if dir =? 0 then Some (TreeNode id k v)
      else if dir <? 0 then (if negb (is_child l) then None else xtree_node_search search_func l)
      else (if negb (is_child r) then None else xtree_node_search search_func r)
  end.

Definition xtree_search_node (t : xtree) (search_func : Z -> Z) : option tree_node :=
  xtree_node_search search_func (root t).
Definition xtree_search (t : xtree) (search_func : Z -> Z) : Z :=
  match xtree_search_node t search_func with Some node => tnode_value node | None => 0 end.

Fixpoint lower_bound_loop (key : Z) (node : link) (result : option tree_node) : option tree_node :=
  match node with
  | Thread _ => result
  | Child id k v b l r =>
      if key_compare key k <=? 0 then
        let result := Some (TreeNode id k v) in
        if negb (is_child l) then result else lower_bound_loop key l result
      else if negb (is_child r) then result else lower_bound_loop key r result
  end.
Definition xtree_lower_bound (t : xtree) (key : Z) : option tree_node :=
  lower_bound_loop key (root t) None.

Fixpoint upper_bound_loop (key : Z) (node : link) (result : option tree_node) : option tree_node :=
  match node with
  | Thread _ => result
  | Child id k v b l r =>
      if key_compare key k <? 0 then
        let result := Some (TreeNode id k v) in
        if negb (is_child l) then result else upper_bound_loop key l result
      else if negb (is_child r) then result else upper_bound_loop key r result
  end.
Definition xtree_upper_bound (t : xtree) (key : Z) : option tree_node :=
  upper_bound_loop key (root t) None.

(** ** Walks *)

Section callbacks.
(** A callback with the state it keeps; it returns whether to stop. *)
Context {S : Type} (func : tree_node -> S -> S * bool).

(** [while (node)], with the successor found through the threads. *)
Fixpoint foreach_loop (fuel : nat) (t : xtree) (node : option tree_node) (s : S) : option S :=
  match node, fuel with
  | None, _ => Some s
  | _, O => None
  | Some n, Datatypes.S fuel =>
      let '(s, stop) := func n s in
      if (stop : bool) then Some s
      else
        next ← xtree_node_next t (node_id n);
        foreach_loop fuel t next s
  end.

Definition xtree_foreach_node (fuel : nat) (t : xtree) (s : S) : option S :=
  if negb (is_child (root t)) then Some s else foreach_loop fuel t (xtree_node_first t) s.
(** The callback of [xtree_foreach] sees the key and the value. *)
Definition xtree_foreach := xtree_foreach_node.

(** A recursive call is skipped when its child is missing, and what follows it
    when the callback asked to stop. *)
Definition and_then (r : S * bool) (k : S -> S * bool) : S * bool :=
  let '(s, stop) := r in if (stop : bool) then (s, true) else k s.

Fixpoint xtree_node_pre_order (node : link) (s : S) : S * bool :=
  match node with
  | Thread _ => (s, false)
  | Child id k v _ l r =>
      and_then (func (TreeNode id k v) s) (fun s =>
      and_then (if is_child l then xtree_node_pre_order l s else (s, false)) (fun s =>
      and_then (if is_child r then xtree_node_pre_order r s else (s, false)) (fun s => (s, false))))
  end.
Fixpoint xtree_node_in_order (node : link) (s : S) : S * bool :=
  match node with
  | Thread _ => (s, false)
  | Child id k v _ l r =>
      and_then (if is_child l then xtree_node_in_order l s else (s, false)) (fun s =>
      and_then (func (TreeNode id k v) s) (fun s =>
      and_then (if is_child r then xtree_node_in_order r s else (s, false)) (fun s => (s, false))))
  end.
Fixpoint xtree_node_post_order (node : link) (s : S) : S * bool :=
  match node with
  | Thread _ => (s, false)
  | Child id k v _ l r =>
      and_then (if is_child l then xtree_node_post_order l s else (s, false)) (fun s =>
      and_then (if is_child r then xtree_node_post_order r s else (s, false)) (fun s =>
      and_then (func (TreeNode id k v) s) (fun s => (s, false))))
  end.

Inductive traverse_type := G_IN_ORDER | G_PRE_ORDER | G_POST_ORDER | G_LEVEL_ORDER.

Definition xtree_traverse (t : xtree) (ty : traverse_type) (s : S) : S :=
  if negb (is_child (root t)) then s
  else
    match ty with
    | G_PRE_ORDER => fst (xtree_node_pre_order (root t) s)
    | G_IN_ORDER => fst (xtree_node_in_order (root t) s)
    | G_POST_ORDER => fst (xtree_node_post_order (root t) s)
    | G_LEVEL_ORDER => s  (* a warning *)
    end.
End callbacks.

(** ** Removing everything *)

Fixpoint remove_all_loop (fuel : nat) (t : xtree) (node : option tree_node) : option (list notification) :=
  match node, fuel with
  | None, _ => Some []
  | _, O => None
  | Some n, S fuel =>
      next ← xtree_node_next t (node_id n);
      notes ← remove_all_loop fuel t next;
      Some (notify_key (tnode_key n) ++ notify_value (tnode_value n) ++ notes)
  end.

Definition xtree_remove_all (fuel : nat) (t : xtree) : option (xtree * list notification) :=
  notes ← remove_all_loop fuel t (xtree_node_first t);
  Some (XTree (Thread None) 0 (tree_ref_count t), notes).

Definition xtree_ref (t : xtree) : xtree := XTree (root t) (tree_nnodes t) (tree_ref_count t + 1).

(** [None] when the tree is freed. *)
Definition xtree_unref (fuel : nat) (t : xtree) : option (option xtree * list notification) :=
  if tree_ref_count t =? 1 then
    '(_, notes) ← xtree_remove_all fuel t; Some (None, notes)
  else Some (Some (XTree (root t) (tree_nnodes t) (tree_ref_count t - 1)), []).

Definition xtree_destroy (fuel : nat) (t : xtree) : option (option xtree * list notification) :=
  '(t, notes) ← xtree_remove_all fuel t;
  '(t, notes') ← xtree_unref fuel t;
  Some (t, notes ++ notes').

(** ** Size and height *)

Fixpoint height_loop (node : link) (height : Z) : Z :=
  match node with
  | Thread _ => height
  | Child _ _ _ b l _ =>
      let height := height + (1 + Z.max b 0) in
      if negb (is_child l) then height else height_loop l height
  end.
Definition xtree_height (t : xtree) : Z :=
  if negb (is_child (root t)) then 0 else height_loop (root t) 0.

Definition xtree_nnodes (t : xtree) : Z := tree_nnodes t.
End Tree.
