(* ===== verification/TreeBalance.v ===== *)
(** * The balance of the tree

    Every node records the difference of the heights of its subtrees, and it is
    -1, 0 or 1. The rebalancing loops restore this after a subtree has grown or
    shrunk by one, and the height stays within the array of ancestors. *)

From S2P Require Import Prelude Dictionary Tree.
Local Open Scope Z_scope.

(** ** Definitions of the proof *)

Fixpoint ht (l : link) : Z :=
  match l with
  | Thread _ => 0
  | Child _ _ _ _ l r => 1 + Z.max (ht l) (ht r)
  end.

Fixpoint balanced (l : link) : Prop :=
  match l with
  | Thread _ => True
  | Child _ _ _ b l r => balanced l /\ balanced r /\ b = ht r - ht l /\ -1 <= b <= 1
  end.

(** The tree around a hole of height [h] is balanced. *)
Fixpoint path_balanced (path : list frame) (h : Z) : Prop :=
  match path with
  | [] => True
  | InLeft _ _ _ b r :: path =>
      balanced r /\ b = ht r - h /\ -1 <= b <= 1 /\ path_balanced path (1 + Z.max h (ht r))
  | InRight _ _ _ b l :: path =>
      balanced l /\ b = h - ht l /\ -1 <= b <= 1 /\ path_balanced path (1 + Z.max (ht l) h)
  end.

Definition leaning (l : link) : Prop := exists b, balance_of l = Some b /\ b <> 0.

(** A node whose height was [h] and one of whose subtrees has just grown. *)
Definition grown (h : Z) (node : link) : Prop :=
  match node with
  | Thread _ => False
  | Child _ _ _ b l r =>
      balanced l /\ balanced r /\ b = ht r - ht l /\
      ((b = 0 /\ ht node = h) \/
       ((b = 1 \/ b = -1) /\ ht node = h + 1) \/
       (b = 2 /\ ht r = h /\ leaning r) \/ (b = -2 /\ ht l = h /\ leaning l))
  end.

(** A node whose height was [h] and one of whose subtrees has just shrunk. *)
Definition shrunk (h : Z) (node : link) : Prop :=
  match node with
  | Thread _ => False
  | Child _ _ _ b l r =>
      balanced l /\ balanced r /\ b = ht r - ht l /\
      ((b = 0 /\ ht node = h - 1) \/ ((b = 1 \/ b = -1) /\ ht node = h) \/
       ((b = 2 \/ b = -2) /\ ht node = h))
  end.

(** ** Lemmas *)

Lemma ht_nonneg l : 0 <= ht l.
Proof. induction l; cbn; lia. Qed.

Lemma ht_child l : is_child l = true -> 1 <= ht l.
Proof. destruct l as [|? ? ? ? l r]; [done|]. pose proof (ht_nonneg l). cbn. lia. Qed.

Lemma ht_0 l : ht l = 0 -> is_child l = false.
Proof. destruct l as [|? ? ? ? l r]; [done|]. pose proof (ht_nonneg l). cbn. lia. Qed.

Lemma plug_balanced path l : path_balanced path (ht l) -> balanced l -> balanced (plug path l).
Proof.
  revert l. induction path as [|[id k v b r|id k v b l'] path IH]; intros l Hp Hb; [done|..];
    destruct Hp as (H1 & H2 & H3 & H4); cbn [plug]; by apply IH.
Qed.

(** A missing child has height 0 and is balanced, whatever its thread. *)
Lemma thread_swap (bl : link) t :
  ht (if is_child bl then bl else Thread t) = ht bl /\
  (balanced bl -> balanced (if is_child bl then bl else Thread t)).
Proof. by destruct bl. Qed.

(** A balance is one of three. *)
Ltac pick b := assert (b = -1 \/ b = 0 \/ b = 1) as [->| [->| ->]] by lia.

(** Decides the comparisons of constants. *)
Ltac zred :=
  repeat match goal with
  | |- context [Z.leb ?a ?b] => let x := eval vm_compute in (Z.leb a b) in change (Z.leb a b) with x
  | |- context [Z.ltb ?a ?b] => let x := eval vm_compute in (Z.ltb a b) in change (Z.ltb a b) with x
  end; cbv iota.

(** [xtree_node_balance] of a node that leans by two. *)
Lemma balance_right id k v l r :
  balanced l -> balanced r -> ht r = ht l + 2 ->
  exists n, xtree_node_balance (Child id k v 2 l r) = Some n /\ balanced n /\
    ((leaning r /\ ht n = ht r /\ balance_of n = Some 0) \/
     (balance_of r = Some 0 /\ ht n = ht r + 1 /\ leaning n)).
Proof.
  intros Hl Hr Hh. pose proof (ht_nonneg l).
  destruct r as [t|b bk bv rb rl rr]; [cbn in Hh; lia|].
  pose proof Hr as (Hrl & Hrr & Hrb & Hrange). cbn in Hh.
  cbn [xtree_node_balance balance_of mbind option_bind]. change (2 <? -1) with false. change (1 <? 2) with true.
  cbv iota. destruct (Z.ltb_spec rb 0) as [Hneg|Hpos].
  - destruct rl as [t|c ck cv cb cl cr]; [cbn in *; pose proof (ht_nonneg rr); lia|].
    pose proof Hrl as (Hcl & Hcr & Hcb & Hcrange). cbn in Hh, Hrb.
    cbn [xtree_node_rotate_right xtree_node_rotate_left mbind option_bind].
    destruct (thread_swap cr (Some c)) as [Er Br]. destruct (thread_swap cl (Some c)) as [El Bl].
    assert (rb = -1) as -> by lia. eexists. split; [done|].
    pick cb; cbn; rewrite Er, El; zred; (split; [split_and!; auto; lia|left]);
      (split; [by eexists|]); (split; [lia|done]).
  - cbn [xtree_node_rotate_left mbind option_bind]. destruct (thread_swap rl (Some b)) as [El Bl].
    eexists. split; [done|]. assert (rb = 0 \/ rb = 1) as [->| ->] by lia; cbn; rewrite El; zred.
    + split; [split_and!; auto; lia|right]. split; [done|]. split; [lia|]. by eexists.
    + split; [split_and!; auto; lia|left]. split; [by eexists|]. split; [lia|done].
Qed.

Lemma balance_left id k v l r :
  balanced l -> balanced r -> ht l = ht r + 2 ->
  exists n, xtree_node_balance (Child id k v (-2) l r) = Some n /\ balanced n /\
    ((leaning l /\ ht n = ht l /\ balance_of n = Some 0) \/
     (balance_of l = Some 0 /\ ht n = ht l + 1 /\ leaning n)).
Proof.
  intros Hl Hr Hh. pose proof (ht_nonneg r).
  destruct l as [t|b bk bv lb ll lr]; [cbn in Hh; lia|].
  pose proof Hl as (Hll & Hlr & Hlb & Hrange). cbn in Hh.
  cbn [xtree_node_balance balance_of mbind option_bind]. change (-2 <? -1) with true. cbv iota.
  destruct (Z.ltb_spec 0 lb) as [Hpos|Hneg].
  - destruct lr as [t|c ck cv cb cl cr]; [cbn in *; pose proof (ht_nonneg ll); lia|].
    pose proof Hlr as (Hcl & Hcr & Hcb & Hcrange). cbn in Hh, Hlb.
    cbn [xtree_node_rotate_right xtree_node_rotate_left mbind option_bind].
    destruct (thread_swap cr (Some c)) as [Er Br]. destruct (thread_swap cl (Some c)) as [El Bl].
    assert (lb = 1) as -> by lia. eexists. split; [done|].
    pick cb; cbn; rewrite Er, El; zred; (split; [split_and!; auto; lia|left]);
      (split; [by eexists|]); (split; [lia|done]).
  - cbn [xtree_node_rotate_right mbind option_bind]. destruct (thread_swap lr (Some b)) as [El Bl].
    eexists. split; [done|]. assert (lb = 0 \/ lb = -1) as [->| ->] by lia; cbn; rewrite El; zred.
    + split; [split_and!; auto; lia|right]. split; [done|]. split; [lia|]. by eexists.
    + split; [split_and!; auto; lia|left]. split; [by eexists|]. split; [lia|done].
Qed.

(** ** The rebalancing loops *)

Lemma rebalance_small id k v b l r :
  -1 <= b <= 1 -> rebalance_node (Child id k v b l r) = Some (Child id k v b l r).
Proof.
  intros H. unfold rebalance_node. cbn [balance_of mbind option_bind].
  rewrite (proj2 (Z.ltb_ge b (-1))), (proj2 (Z.ltb_ge 1 b)) by lia. done.
Qed.

Lemma grown_ok h node :
  grown h node -> exists n, rebalance_node node = Some n /\ balanced n /\
    ((balance_of n = Some 0 /\ ht n = h) \/ (leaning n /\ ht n = h + 1)).
Proof.
  destruct node as [t|id k v b l r]; [done|]. intros (Hl & Hr & Hb & Hcases).
  destruct Hcases as [[-> Hh]|[[Hb1 Hh]|[(-> & Hh & Hlean)|(-> & Hh & Hlean)]]].
  - eexists. rewrite rebalance_small by lia. split; [done|]. split; [cbn; split_and!; (done || lia)|].
    by left.
  - eexists. rewrite rebalance_small by lia. split; [done|]. split; [cbn; split_and!; (done || lia)|].
    right. split; [|done]. eexists. split; [done|lia].
  - destruct (balance_right id k v l r Hl Hr ltac:(lia)) as (n & E & Hn & [(_ & Hhn & Hb0)|(Hb0 & _)]).
    + exists n. split; [exact E|]. split; [done|]. left. split; [done|lia].
    + destruct Hlean as (b & Eb & Hne). rewrite Eb in Hb0. by injection Hb0 as ->.
  - destruct (balance_left id k v l r Hl Hr ltac:(lia)) as (n & E & Hn & [(_ & Hhn & Hb0)|(Hb0 & _)]).
    + exists n. split; [exact E|]. split; [done|]. left. split; [done|lia].
    + destruct Hlean as (b & Eb & Hne). rewrite Eb in Hb0. by injection Hb0 as ->.
Qed.

Lemma insert_rebalance_ok path node h :
  grown h node -> path_balanced path h -> exists t, insert_rebalance path node = Some t /\ balanced t.
Proof.
  revert node h. induction path as [|f path IH]; intros node h Hg Hp;
    destruct (grown_ok h node Hg) as (n & E & Hn & Hcases); cbn [insert_rebalance]; rewrite E;
    cbn [mbind option_bind].
  - destruct Hcases as [[Eb _]|[(b & Eb & _) _]]; rewrite Eb; cbn [mbind option_bind]; by eexists.
  - destruct Hcases as [[Eb Hh]|[(b' & Eb & Hne) Hh]]; rewrite Eb; cbn [mbind option_bind].
    { eexists. split; [done|]. apply plug_balanced; [by rewrite Hh|done]. }
    rewrite (proj2 (Z.eqb_neq b' 0)) by done. assert (leaning n) by (by exists b').
    destruct f as [id k v b r|id k v b l]; destruct Hp as (H1 & H2 & H3 & H4); eapply IH; try exact H4;
      cbn [grown ht]; rewrite Hh; (split_and!; [done|done|lia|]); pick b; intuition lia.
Qed.

Lemma shrunk_ok h node :
  shrunk h node -> exists n, rebalance_node node = Some n /\ balanced n /\
    ((balance_of n = Some 0 /\ ht n = h - 1) \/ (leaning n /\ ht n = h)).
Proof.
  destruct node as [t|id k v b l r]; [done|]. intros (Hl & Hr & Hb & Hcases).
  destruct Hcases as [[-> Hh]|[[Hb1 Hh]|[[->| ->] Hh]]].
  - eexists. rewrite rebalance_small by lia. split; [done|]. split; [cbn; split_and!; (done || lia)|].
    by left.
  - eexists. rewrite rebalance_small by lia. split; [done|]. split; [cbn; split_and!; (done || lia)|].
    right. split; [|done]. eexists. split; [done|lia].
  - cbn [ht] in Hh. destruct (balance_right id k v l r Hl Hr ltac:(lia)) as (n & E & Hn & Hor).
    exists n. split; [exact E|]. split; [done|].
    destruct Hor as [(_ & Hhn & Hb0)|(_ & Hhn & Hlean)]; [left|right]; (split; [done|lia]).
  - cbn [ht] in Hh. destruct (balance_left id k v l r Hl Hr ltac:(lia)) as (n & E & Hn & Hor).
    exists n. split; [exact E|]. split; [done|].
    destruct Hor as [(_ & Hhn & Hb0)|(_ & Hhn & Hlean)]; [left|right]; (split; [done|lia]).
Qed.

Lemma remove_rebalance_ok path node h :
  shrunk h node -> path_balanced path h -> exists t, remove_rebalance path node = Some t /\ balanced t.
Proof.
  revert node h. induction path as [|f path IH]; intros node h Hg Hp;
    destruct (shrunk_ok h node Hg) as (n & E & Hn & Hcases); cbn [remove_rebalance]; rewrite E;
    cbn [mbind option_bind].
  - destruct Hcases as [[Eb _]|[(b & Eb & _) _]]; rewrite Eb; cbn [mbind option_bind]; by eexists.
  - destruct Hcases as [[Eb Hh]|[(b' & Eb & Hne) Hh]]; rewrite Eb; cbn [mbind option_bind].
    2:{ rewrite (proj2 (Z.eqb_neq b' 0)) by done. eexists. split; [done|].
        apply plug_balanced; [by rewrite Hh|done]. }
    cbn [Z.eqb negb]. destruct f as [id k v b r|id k v b l]; destruct Hp as (H1 & H2 & H3 & H4);
      eapply IH; try exact H4;
      cbn [shrunk ht]; rewrite Hh; (split_and!; [done|done|lia|]); pick b; intuition lia.
Qed.

(** ** Insertion *)

Section operations.
Context (key_compare : Z -> Z -> Z) (key_destroy_func value_destroy_func : bool).

Lemma push_ok f path : zlen path + 1 < 40 -> push f path = Some (f :: path).
Proof. intros H. unfold push, MAX_GTREE_HEIGHT. by rewrite (proj2 (Z.ltb_lt _ _) H). Qed.

Lemma insert_loop_balanced fresh key value replace node path :
  is_child node = true -> balanced node -> path_balanced path (ht node) -> zlen path + ht node <= 40 ->
  exists t rest, insert_loop key_compare key_destroy_func value_destroy_func fresh key value replace
    node path = Some (t, rest.1.1, rest.1.2, rest.2) /\ balanced t.
Proof.
  revert path. induction node as [|id k v b l IHl r IHr]; intros path Hc Hb Hp Hh; [done|].
  destruct Hb as (Hl & Hr & Hb & Hrange). cbn [insert_loop]. cbn [ht] in Hh.
  pose proof (ht_nonneg l). pose proof (ht_nonneg r).
  destruct (key_compare key k =? 0).
  { eexists _, (_, _, _). split; [done|]. apply plug_balanced; [done|]. cbn. auto. }
  destruct (key_compare key k <? 0).
  - destruct (is_child l) eqn:El.
    + pose proof (ht_child l El). rewrite push_ok by lia. cbn [mbind option_bind].
      apply IHl; [done|done| |rewrite zlen_cons; lia]. cbn [path_balanced]. done.
    + destruct l as [tl|]; [|done]. cbn [ht] in *.
      destruct (insert_rebalance_ok path
        (Child id k v (b - 1) (xtree_node_new fresh key value (Thread tl) (Thread (Some id))) r)
        (1 + Z.max 0 (ht r))) as (t & E & Ht); [|exact Hp|].
      * cbn [grown ht balanced xtree_node_new]. split_and!; try done; try lia; pick b; lia.
      * rewrite E. cbn [mbind option_bind]. by eexists _, (_, _, _).
  - destruct (is_child r) eqn:Er.
    + pose proof (ht_child r Er). rewrite push_ok by lia. cbn [mbind option_bind].
      apply IHr; [done|done| |rewrite zlen_cons; lia]. cbn [path_balanced]. done.
    + destruct r as [tr|]; [|done]. cbn [ht] in *.
      destruct (insert_rebalance_ok path
        (Child id k v (b + 1) l (xtree_node_new fresh key value (Thread (Some id)) (Thread tr)))
        (1 + Z.max (ht l) 0)) as (t & E & Ht); [|exact Hp|].
      * cbn [grown ht balanced xtree_node_new]. split_and!; try done; try lia; pick b; lia.
      * rewrite E. cbn [mbind option_bind]. by eexists _, (_, _, _).
Qed.

(** ** Removal *)

Lemma set_left_thread_ht l t : ht (set_left_thread l t) = ht l /\ is_child (set_left_thread l t) = is_child l /\
  (balanced l -> balanced (set_left_thread l t)).
Proof.
  induction l as [|id k v b l IHl r _]; [done|]. destruct IHl as (E & _ & B).
  destruct l as [|i ki vi bi ll lr]; [done|]. set (l := Child i ki vi bi ll lr) in *.
  change (set_left_thread (Child id k v b l r) t) with (Child id k v b (set_left_thread l t) r).
  clearbody l. cbn [is_child balanced ht]. rewrite E. split; [done|]. split; [done|]. intros (H1 & H2). split; [by apply B|done].
Qed.

Lemma set_right_thread_ht l t : ht (set_right_thread l t) = ht l /\ is_child (set_right_thread l t) = is_child l /\
  (balanced l -> balanced (set_right_thread l t)).
Proof.
  induction l as [|id k v b l _ r IHr]; [done|]. destruct IHr as (E & _ & B).
  destruct r as [|i ki vi bi rl rr]; [done|]. set (r := Child i ki vi bi rl rr) in *.
  change (set_right_thread (Child id k v b l r) t) with (Child id k v b l (set_right_thread r t)).
  clearbody r. cbn [is_child balanced ht]. rewrite E. split; [done|]. split; [done|]. intros (H1 & H2 & H3). split; [done|]. split; [by apply B|done].
Qed.

Lemma relink_balanced path l h :
  path_balanced path h -> balanced l -> ht l = h - 1 -> exists t, relink path l = Some t /\ balanced t.
Proof.
  intros Hp Hb Hh. destruct path as [|[id k v b r|id k v b l'] path]; cbn [relink]; [by eexists|..];
    destruct Hp as (H1 & H2 & H3 & H4); (eapply remove_rebalance_ok; [|exact H4]);
    cbn [shrunk ht]; rewrite Hh; (split_and!; [done|done|lia|]); pick b; intuition lia.
Qed.

(** The path down the left edge of a tree. *)
Lemma find_next_ok next path :
  is_child next = true -> balanced next -> path_balanced path (ht next) -> zlen path + ht next <= 40 ->
  exists nid nk nv nb t nr spine,
    let n := Child nid nk nv nb (Thread t) nr in
    find_next next path = Some (n, spine ++ path) /\ balanced n /\
    path_balanced (spine ++ path) (ht n) /\ plug spine n = next /\
    Forall (fun f => if f is InLeft _ _ _ _ _ then True else False) spine.
Proof.
  revert path. induction next as [|id k v b l IHl r _]; intros path Hc Hb Hp Hh; [done|].
  destruct Hb as (Hl & Hr & Hb & Hrange). destruct l as [t|lid lk lv lb ll lr].
  - exists id, k, v, b, t, r, []. cbn [find_next app]. split; [done|].
    split; [solve [cbn; auto]|]. split; [done|]. split; [done|]. by apply Forall_nil.
  - set (l := Child lid lk lv lb ll lr) in *. pose proof (ht_child l eq_refl). cbn [ht] in Hh, Hp. fold (ht l) in *.
    destruct (IHl (InLeft id k v b r :: path)) as (nid & nk & nv & nb & t & nr & spine & E & Hn & Hpath & Hplug & Hf);
      [done|done|solve [cbn; auto]|rewrite zlen_cons; lia|].
    exists nid, nk, nv, nb, t, nr, (spine ++ [InLeft id k v b r]). cbn zeta. rewrite <- app_assoc. cbn [app].
    split; [|split; [done|split; [done|split]]].
    + unfold l at 1. cbn [find_next]. rewrite push_ok by lia. exact E.
    + rewrite <- Hplug. clear. generalize (Child nid nk nv nb (Thread t) nr).
      induction spine as [|f spine IH]; intros n; [done|]. cbn [app plug]. apply IH.
    + apply Forall_app. split; [done|]. apply Forall_cons. split; [done|]. by apply Forall_nil.
Qed.

Lemma replace_frame_app spine f g path :
  replace_frame (length spine) f (spine ++ g :: path) = spine ++ f :: path.
Proof. induction spine as [|h spine IH]; [done|]. cbn [length app replace_frame]. by rewrite IH. Qed.

Lemma path_balanced_swap spine path id k v bal l id' k' v' l' h :
  ht l' = ht l -> balanced l' ->
  path_balanced (spine ++ InRight id k v bal l :: path) h ->
  path_balanced (spine ++ InRight id' k' v' bal l' :: path) h.
Proof.
  intros Eh Hb. revert h. induction spine as [|[] spine IH]; intros h; cbn [app path_balanced].
  - rewrite Eh. intros (? & ? & ? & ?). solve [cbn; auto].
  - intros (? & ? & ? & ?). split_and!; try done; try lia; by apply IH.
  - intros (? & ? & ? & ?). split_and!; try done; try lia; by apply IH.
Qed.

Lemma remove_both_balanced path id k v b l r :
  is_child r = true -> balanced (Child id k v b l r) -> path_balanced path (ht (Child id k v b l r)) ->
  zlen path + ht (Child id k v b l r) <= 40 ->
  exists t, remove_both path id k v b l r = Some t /\ balanced t.
Proof.
  intros Hc (Hl & Hr & Hb & Hrange) Hp Hh. cbn [ht] in *. pose proof (ht_child r Hc). pose proof (ht_nonneg l).
  unfold remove_both. rewrite push_ok by lia. cbn [mbind option_bind].
  destruct (find_next_ok r (InRight id k v b l :: path)) as (nid & nk & nv & nb & t & nr & spine & E & Hn & Hpath & Hplug & Hf);
    [done|done|solve [cbn; auto]|rewrite zlen_cons; lia|].
  rewrite E. cbn [mbind option_bind]. destruct Hn as (_ & Hnr & Hnb & Hnrange). cbn [ht] in *.
  destruct (set_right_thread_ht l (Some nid)) as (Hlh & _ & Hlb). rewrite length_app, Nat.add_sub.
  destruct spine as [|f spine]; cbn [length app].
  - cbn [plug] in Hplug. subst r. cbn [ht] in *.
    eapply (remove_rebalance_ok path _ (1 + Z.max (ht l) (1 + Z.max 0 (ht nr)))); [|done].
    cbn [shrunk ht]. rewrite Hlh. pose proof (ht_nonneg nr). split_and!; [by apply Hlb|done|lia|]. pick b; intuition lia.
  - rewrite Forall_cons in Hf. destruct Hf as [Hf _]. destruct f as [pid pk pv pb pr|]; [|done].
    rewrite replace_frame_app. cbn [app path_balanced] in Hpath. destruct Hpath as (Hpr & Hpb & Hprange & Hpath).
    destruct (thread_swap nr (Some nid)) as [En Bn]. pose proof (ht_nonneg nr).
    eapply (remove_rebalance_ok _ _ (1 + Z.max (1 + Z.max 0 (ht nr)) (ht pr))).
    + cbn [shrunk ht]. rewrite En. split_and!; [by apply Bn|done|lia|]. pick pb; intuition lia.
    + eapply path_balanced_swap; [exact Hlh|by apply Hlb|exact Hpath].
Qed.

Lemma remove_found_balanced path node :
  is_child node = true -> balanced node -> path_balanced path (ht node) -> zlen path + ht node <= 40 ->
  exists t, remove_found path node = Some t /\ balanced t.
Proof.
  intros Hc Hb Hp Hh. destruct node as [|id k v b l r]; [done|]. cbn [remove_found].
  pose proof Hb as (Hl & Hr & Eb & Hrange). cbn [ht] in *.
  destruct (is_child l) eqn:El, (is_child r) eqn:Er.
  - by apply remove_both_balanced.
  - destruct r as [t|]; [|done]. destruct (set_right_thread_ht l t) as (E & _ & B).
    eapply relink_balanced; [exact Hp|by apply B|]. rewrite E. cbn [ht] in *. pose proof (ht_nonneg l). lia.
  - destruct l as [t|]; [|done]. destruct (set_left_thread_ht r t) as (E & _ & B).
    eapply relink_balanced; [exact Hp|by apply B|]. rewrite E. cbn [ht] in *. pose proof (ht_nonneg r). lia.
  - destruct l as [tl|]; [|done]. destruct r as [tr|]; [|done]. cbn [ht] in *.
    destruct path as [|[]]; [by eexists|..]; (eapply relink_balanced; [exact Hp|done|cbn; lia]).
Qed.

Lemma remove_loop_balanced key node path :
  is_child node = true -> balanced node -> path_balanced path (ht node) -> zlen path + ht node <= 40 ->
  exists res, remove_loop key_compare key node path = Some res /\
    match res with Some (t, _) => balanced t | None => True end.
Proof.
  revert path. induction node as [|id k v b l IHl r IHr]; intros path Hc Hb Hp Hh; [done|].
  pose proof Hb as (Hl & Hr & Eb & Hrange). cbn [remove_loop].
  destruct (key_compare key k =? 0).
  { destruct (remove_found_balanced path _ Hc Hb Hp Hh) as (t & -> & Ht). by eexists. }
  cbn [ht] in Hh, Hp. destruct (key_compare key k <? 0).
  - destruct (is_child l) eqn:El; cbn [negb]; [|by eexists].
    pose proof (ht_child l El). rewrite push_ok by lia. cbn [mbind option_bind].
    apply IHl; [done|done|solve [cbn; auto]|rewrite zlen_cons; lia].
  - destruct (is_child r) eqn:Er; cbn [negb]; [|by eexists].
    pose proof (ht_child r Er). rewrite push_ok by lia. cbn [mbind option_bind].
    apply IHr; [done|done|solve [cbn; auto]|rewrite zlen_cons; lia].
Qed.
End operations.
