(* ===== verification/TreeThreads.v ===== *)
(** * The order and the threads of the tree

    The nodes from left to right, and the invariant of the threads: a missing
    left child points to the predecessor, a missing right child to the
    successor. What rotating, rebalancing, inserting and removing do to them. *)

From Stdlib Require Import Sorted.
From S2P Require Import Prelude Dictionary Tree.
Local Open Scope Z_scope.

(** ** Definitions of the proof *)

Fixpoint inorder (l : link) : list tree_node :=
  match l with
  | Thread _ => []
  | Child id k v _ l r => inorder l ++ TreeNode id k v :: inorder r
  end.

(** The nodes to the left and to the right of the end of a path. *)
Fixpoint left_of (path : list frame) : list tree_node :=
  match path with
  | [] => []
  | InLeft _ _ _ _ _ :: path => left_of path
  | InRight id k v _ l :: path => left_of path ++ inorder l ++ [TreeNode id k v]
  end.
Fixpoint right_of (path : list frame) : list tree_node :=
  match path with
  | [] => []
  | InLeft id k v _ r :: path => (TreeNode id k v :: inorder r) ++ right_of path
  | InRight _ _ _ _ _ :: path => right_of path
  end.

(** A missing child points where it should. *)
Definition end_ok (l : link) (target : option Z) : Prop :=
  match l with Thread t => t = target | Child _ _ _ _ _ _ => True end.

(** The threads of a subtree between the nodes [lo] and [hi]. *)
Fixpoint threaded (lo : option Z) (l : link) (hi : option Z) : Prop :=
  match l with
  | Thread _ => True
  | Child id _ _ _ l r =>
      (threaded lo l (Some id) /\ end_ok l lo) /\ (threaded (Some id) r hi /\ end_ok r hi)
  end.

Fixpoint path_threaded (path : list frame) (lo hi : option Z) : Prop :=
  match path with
  | [] => lo = None /\ hi = None
  | InLeft id _ _ _ r :: path =>
      hi = Some id /\ exists hi', (threaded (Some id) r hi' /\ end_ok r hi') /\ path_threaded path lo hi'
  | InRight id _ _ _ l :: path =>
      lo = Some id /\ exists lo', (threaded lo' l (Some id) /\ end_ok l lo') /\ path_threaded path lo' hi
  end.

(** A link that may replace the node at the end of a path. *)
Definition fits (path : list frame) (lo : option Z) (l : link) (hi : option Z) : Prop :=
  threaded lo l hi /\
  match path with
  | [] => True
  | InLeft _ _ _ _ _ :: _ => end_ok l lo
  | InRight _ _ _ _ _ :: _ => end_ok l hi
  end.

(** What becomes of a subtree, or of the whole tree. *)
Definition same_inside (n n' : link) : Prop :=
  inorder n' = inorder n /\ is_child n' = true /\ forall lo hi, threaded lo n hi -> threaded lo n' hi.

(** ** Lemmas *)

Lemma child_fits path lo l hi : is_child l = true -> threaded lo l hi -> fits path lo l hi.
Proof. intros Hc Ht. split; [done|]. destruct l; [done|]. by destruct path as [|[]]. Qed.

Lemma inorder_plug path l : inorder (plug path l) = left_of path ++ inorder l ++ right_of path.
Proof.
  revert l. induction path as [|[id k v b r|id k v b l'] path IH]; intros l; cbn [plug left_of right_of plug1].
  - by rewrite app_nil_r.
  - rewrite IH. cbn [inorder]. by rewrite <- !app_assoc.
  - rewrite IH. cbn [inorder]. by rewrite <- !app_assoc.
Qed.

Lemma plug_threaded path lo hi l :
  path_threaded path lo hi -> fits path lo l hi -> threaded None (plug path l) None.
Proof.
  revert lo hi l. induction path as [|[id k v b r|id k v b l'] path IH]; intros lo hi l Hp [Ht He].
  - by destruct Hp as [-> ->].
  - destruct Hp as (-> & hi' & Hr & Hp). cbn [plug plug1]. apply (IH lo hi'); [done|].
    by apply child_fits.
  - destruct Hp as (-> & lo' & Hl & Hp). cbn [plug plug1]. apply (IH lo' hi); [done|].
    by apply child_fits.
Qed.

Lemma rotate_left_ok n n' : xtree_node_rotate_left n = Some n' -> same_inside n n'.
Proof.
  destruct n as [|a ak av ab al [|b bk bv bb bl br]]; [done..|]. intros [= <-]. split_and!; [|done|].
  - destruct bl; cbn [is_child inorder app]; repeat (rewrite <- app_assoc; cbn [app]); done.
  - intros lo hi ((H1 & H2) & ((H3 & H4) & (H5 & H6)) & _). destruct bl; cbn in *; by auto.
Qed.

Lemma rotate_right_ok n n' : xtree_node_rotate_right n = Some n' -> same_inside n n'.
Proof.
  destruct n as [|a ak av ab [|b bk bv bb bl br] ar]; [done..|]. intros [= <-]. split_and!; [|done|].
  - destruct br; cbn [is_child inorder app]; repeat (rewrite <- app_assoc; cbn [app]); done.
  - intros lo hi ((((H1 & H2) & (H3 & H4)) & _) & (H5 & H6)). destruct br; cbn in *; by auto.
Qed.

Lemma same_inside_refl n : is_child n = true -> same_inside n n.
Proof. done. Qed.

Lemma same_inside_trans n1 n2 n3 : same_inside n1 n2 -> same_inside n2 n3 -> same_inside n1 n3.
Proof. intros (E1 & _ & T1) (E2 & C2 & T2). split_and!; [congruence|done|auto]. Qed.

Lemma same_inside_left id k v b l l' r :
  same_inside l l' -> is_child l = true -> same_inside (Child id k v b l r) (Child id k v b l' r).
Proof.
  intros (E & C & T) Hc. destruct l; [done|]. destruct l'; [done|].
  split_and!; [cbn [inorder] in *; by rewrite E|done|].
  intros lo hi ((H1 & _) & H2). split; [|done]. split; [by apply T|done].
Qed.

Lemma same_inside_right id k v b l r r' :
  same_inside r r' -> is_child r = true -> same_inside (Child id k v b l r) (Child id k v b l r').
Proof.
  intros (E & C & T) Hc. destruct r; [done|]. destruct r'; [done|].
  split_and!; [cbn [inorder] in *; by rewrite E|done|].
  intros lo hi (H2 & (H1 & _)). split; [done|]. split; [by apply T|done].
Qed.

Lemma node_balance_ok n n' : xtree_node_balance n = Some n' -> same_inside n n'.
Proof.
  destruct n as [|a ak av ab al ar]; [done|]. cbn [xtree_node_balance].
  destruct (ab <? -1); [|destruct (1 <? ab)]; [| |by intros [= <-]].
  - destruct al as [|b bk bv bb bl br]; [done|]. cbn [balance_of mbind option_bind].
    destruct (0 <? bb); cbn [mbind option_bind]; [|apply rotate_right_ok].
    destruct (xtree_node_rotate_left _) as [al'|] eqn:E; [|done]. cbn [mbind option_bind]. intros E'.
    eapply same_inside_trans; [|by apply rotate_right_ok]. apply same_inside_left; [|done].
    by apply rotate_left_ok.
  - destruct ar as [|b bk bv bb bl br]; [done|]. cbn [balance_of mbind option_bind].
    destruct (bb <? 0); cbn [mbind option_bind]; [|apply rotate_left_ok].
    destruct (xtree_node_rotate_right _) as [ar'|] eqn:E; [|done]. cbn [mbind option_bind]. intros E'.
    eapply same_inside_trans; [|by apply rotate_left_ok]. apply same_inside_right; [|done].
    by apply rotate_right_ok.
Qed.

Lemma rebalance_node_ok n n' : rebalance_node n = Some n' -> same_inside n n'.
Proof.
  destruct n as [|a ak av ab al ar]; [done|]. unfold rebalance_node. cbn [balance_of mbind option_bind].
  destruct (_ || _); [apply node_balance_ok|by intros [= <-]].
Qed.

(** ** The rebalancing loops *)

(** The whole tree that an operation leaves: nodes in order, threads right. *)
Definition whole (t : link) (nodes : list tree_node) : Prop :=
  inorder t = nodes /\ threaded None t None.

Lemma plug_child path n : is_child n = true -> is_child (plug path n) = true.
Proof. revert n. induction path as [|[] path IH]; intros n C; [done|..]; cbn [plug plug1]; by apply IH. Qed.

Lemma plug_whole path lo hi l :
  path_threaded path lo hi -> fits path lo l hi ->
  whole (plug path l) (left_of path ++ inorder l ++ right_of path).
Proof. intros Hp Hf. split; [apply inorder_plug|by eapply plug_threaded]. Qed.

Definition with_balance (f : frame) (b : Z) : frame :=
  match f with
  | InLeft id k v _ r => InLeft id k v b r
  | InRight id k v _ l => InRight id k v b l
  end.

(** Going up by one ancestor, whose balance changes. *)
Lemma parent_step f path l lo hi b :
  path_threaded (f :: path) lo hi -> fits (f :: path) lo l hi -> exists lo' hi',
    path_threaded path lo' hi' /\ threaded lo' (plug1 (with_balance f b) l) hi' /\
    left_of path ++ inorder (plug1 (with_balance f b) l) ++ right_of path =
    left_of (f :: path) ++ inorder l ++ right_of (f :: path).
Proof.
  intros Hp [Ht He]. destruct f as [id k v fb r|id k v fb l']; cbn [with_balance plug1 inorder left_of right_of].
  - destruct Hp as (-> & x & (H1 & H2) & Hp). exists lo, x. split; [done|]. split; [by split_and!|].
    repeat (rewrite <- app_assoc; cbn [app]). done.
  - destruct Hp as (-> & x & (H1 & H2) & Hp). exists x, hi. split; [done|]. split; [by split_and!|].
    repeat (rewrite <- app_assoc; cbn [app]). done.
Qed.

Lemma insert_rebalance_whole path node lo hi t :
  insert_rebalance path node = Some t -> path_threaded path lo hi -> threaded lo node hi ->
  whole t (left_of path ++ inorder node ++ right_of path) /\ is_child t = true.
Proof.
  revert node lo hi. induction path as [|f path IH]; intros node lo hi; cbn [insert_rebalance];
    (destruct (rebalance_node node) as [n|] eqn:E; [|done]); cbn [mbind option_bind];
    (destruct (balance_of n) as [b|]; [|done]); cbn [mbind option_bind];
    apply rebalance_node_ok in E as (E & C & T).
  - intros [= <-] [-> ->] Ht. split; [|done]. cbn. rewrite app_nil_r. split; [done|by apply T].
  - intros Er Hp Ht. pose proof (child_fits (f :: path) lo n hi C (T _ _ Ht)) as Hf. rewrite <- E.
    destruct (b =? 0).
    + injection Er as <-. split; [by eapply (plug_whole (f :: path))|by apply (plug_child (f :: path))].
    + destruct f as [id k v fb r|id k v fb l].
      * destruct (parent_step _ _ _ _ _ (fb - 1) Hp Hf) as (lo' & hi' & Hp' & Ht' & <-). by eapply IH.
      * destruct (parent_step _ _ _ _ _ (fb + 1) Hp Hf) as (lo' & hi' & Hp' & Ht' & <-). by eapply IH.
Qed.

Lemma remove_rebalance_whole path node lo hi t :
  remove_rebalance path node = Some t -> path_threaded path lo hi -> threaded lo node hi ->
  whole t (left_of path ++ inorder node ++ right_of path) /\ is_child t = true.
Proof.
  revert node lo hi. induction path as [|f path IH]; intros node lo hi; cbn [remove_rebalance];
    (destruct (rebalance_node node) as [n|] eqn:E; [|done]); cbn [mbind option_bind];
    (destruct (balance_of n) as [b|]; [|done]); cbn [mbind option_bind];
    apply rebalance_node_ok in E as (E & C & T).
  - intros [= <-] [-> ->] Ht. split; [|done]. cbn. rewrite app_nil_r. split; [done|by apply T].
  - intros Er Hp Ht. pose proof (child_fits (f :: path) lo n hi C (T _ _ Ht)) as Hf. rewrite <- E.
    destruct (b =? 0); cbn [negb] in Er.
    + destruct f as [id k v fb r|id k v fb l].
      * destruct (parent_step _ _ _ _ _ (fb + 1) Hp Hf) as (lo' & hi' & Hp' & Ht' & <-). by eapply IH.
      * destruct (parent_step _ _ _ _ _ (fb - 1) Hp Hf) as (lo' & hi' & Hp' & Ht' & <-). by eapply IH.
    + injection Er as <-. split; [by eapply (plug_whole (f :: path))|by apply (plug_child (f :: path))].
Qed.

(** ** The order of the keys *)

Section order.
Context (key_compare : Z -> Z -> Z) {Hcmp : CompareOk key_compare}.

Definition before (a b : tree_node) : Prop := key_compare (tnode_key a) (tnode_key b) < 0.
Definition sorted (l : list tree_node) : Prop := StronglySorted before l.

(** A key and the nodes to its left, to its right. *)
Definition above (key : Z) (n : tree_node) : Prop := 0 < key_compare key (tnode_key n).
Definition below (key : Z) (n : tree_node) : Prop := key_compare key (tnode_key n) < 0.

Lemma compare_flip a b : key_compare a b < 0 -> 0 < key_compare b a.
Proof. apply compare_antisym. Qed.

Lemma compare_flip' a b : 0 < key_compare a b -> key_compare b a < 0.
Proof. apply compare_antisym. Qed.

Lemma compare_eq_sym a b : key_compare a b = 0 -> key_compare b a = 0.
Proof.
  intros E. destruct (Z.lt_trichotomy (key_compare b a) 0) as [H|[H|H]]; [|done|].
  - apply compare_flip in H. lia.
  - apply compare_flip' in H. lia.
Qed.

(** One strict comparison makes a chain of two strict. *)
Lemma compare_chain a b c :
  key_compare a b <= 0 -> key_compare b c <= 0 -> key_compare a b < 0 \/ key_compare b c < 0 ->
  key_compare a c < 0.
Proof.
  intros H1 H2 Hor. pose proof (compare_trans (cmp := key_compare) a b c H1 H2).
  destruct (Z.eqb_spec (key_compare a c) 0) as [E|]; [|lia]. apply compare_eq_sym in E.
  destruct Hor as [Hlt|Hlt]; apply compare_flip in Hlt.
  - pose proof (compare_trans (cmp := key_compare) b c a H2 ltac:(lia)). lia.
  - pose proof (compare_trans (cmp := key_compare) c a b ltac:(lia) H1). lia.
Qed.

Lemma sorted_app l1 l2 :
  sorted (l1 ++ l2) <-> sorted l1 /\ sorted l2 /\ forall a b, a ∈ l1 -> b ∈ l2 -> before a b.
Proof.
  unfold sorted. induction l1 as [|x l1 IH]; cbn [app].
  - split; [|by intros (_ & ? & _)]. intros. split; [constructor|]. split; [done|].
    by intros a b Ha%not_elem_of_nil.
  - split.
    + intros [HS HF]%StronglySorted_inv. apply IH in HS as (H1 & H2 & H3). rewrite Forall_app in HF.
      destruct HF as [F1 F2]. split; [by constructor|]. split; [done|].
      intros a b [->|Ha]%elem_of_cons Hb; [|by apply H3]. rewrite Forall_forall in F2. by apply F2.
    + intros (H1 & H2 & H3). apply StronglySorted_inv in H1 as [H1 F1]. constructor.
      * apply IH. split_and!; [done|done|]. intros a b Ha Hb. apply H3; [by apply elem_of_cons; right|done].
      * apply Forall_app. split; [done|]. apply Forall_forall. intros b Hb. apply H3; [by apply elem_of_cons; left|done].
Qed.

Lemma sorted_cons x l : sorted (x :: l) <-> Forall (before x) l /\ sorted l.
Proof.
  unfold sorted. split; [intros [? ?]%StronglySorted_inv; done|]. intros [? ?]. by constructor.
Qed.

(** A node in the middle: what compares with it. *)
Lemma sorted_middle l1 n l2 :
  sorted (l1 ++ n :: l2) <->
  sorted (l1 ++ l2) /\ Forall (fun a => before a n) l1 /\ Forall (before n) l2.
Proof.
  rewrite !sorted_app, sorted_cons, !Forall_forall. split.
  - intros (H1 & (H2 & H3) & H4). split_and!; try done.
    + intros a b Ha Hb. apply H4; [done|]. by apply elem_of_cons; right.
    + intros a Ha. apply H4; [done|]. by apply elem_of_cons; left.
  - intros ((H1 & H2 & H3) & H4 & H5). split_and!; try done.
    intros a b Ha [->|Hb]%elem_of_cons; auto.
Qed.

Lemma below_after key n l : key_compare key (tnode_key n) <= 0 -> Forall (before n) l -> Forall (below key) l.
Proof.
  intros Hk Hl. eapply Forall_impl; [exact Hl|]. intros m Hm. unfold before, below in *.
  eapply compare_chain; [exact Hk|lia|by right].
Qed.

Lemma above_before key n l : 0 <= key_compare key (tnode_key n) -> Forall (fun a => before a n) l -> Forall (above key) l.
Proof.
  intros Hk Hl. eapply Forall_impl; [exact Hl|]. intros m Hm. unfold before, above in *.
  apply compare_flip. eapply (compare_chain _ (tnode_key n)); [lia| |by left].
  destruct (Z.lt_trichotomy (key_compare (tnode_key n) key) 0) as [H|[H|H]]; [lia|lia|].
  apply compare_flip' in H. lia.
Qed.

(** ** Insertion *)

Section insertion.
Context (key_destroy_func value_destroy_func : bool) (fresh key value : Z) (replace : bool).

(** What an insertion does to the nodes. *)
Inductive inserted (all : list tree_node) : list tree_node -> tree_node -> list notification -> bool -> Prop :=
| InsertedNew l1 l2 :
    all = l1 ++ l2 -> Forall (above key) l1 -> Forall (below key) l2 ->
    let new := TreeNode fresh key value in
    inserted all (l1 ++ new :: l2) new [] true
| InsertedOld l1 n l2 :
    all = l1 ++ n :: l2 -> key_compare key (tnode_key n) = 0 ->
    let new := TreeNode (node_id n) (if replace then key else tnode_key n) value in
    inserted all (l1 ++ new :: l2) new
      (notify_value value_destroy_func (tnode_value n)
         ++ notify_key key_destroy_func (if replace then tnode_key n else key)) false.

Lemma insert_loop_whole node path lo hi t ret notes added :
  insert_loop key_compare key_destroy_func value_destroy_func fresh key value replace node path
    = Some (t, ret, notes, added) ->
  path_threaded path lo hi -> threaded lo node hi -> sorted (inorder node) ->
  Forall (above key) (left_of path) -> Forall (below key) (right_of path) ->
  is_child t = true /\ threaded None t None /\
  inserted (left_of path ++ inorder node ++ right_of path) (inorder t) ret notes added.
Proof.
  revert path lo hi. induction node as [|id k v b l IHl r IHr]; intros path lo hi; [done|].
  cbn [insert_loop]. intros E Hp ((Tl & El) & (Tr & Er)) Hsort Ha Hb.
  cbn [inorder] in Hsort. apply sorted_middle in Hsort as (Hsort & Fl & Fr).
  apply sorted_app in Hsort as (Sl & Sr & _).
  destruct (Z.eqb_spec (key_compare key k) 0) as [E0|E0].
  - injection E as <- <- <- <-. split; [by apply plug_child|]. split.
    + eapply plug_threaded; [exact Hp|]. by apply child_fits.
    + rewrite inorder_plug. cbn [inorder].
      assert (forall x, left_of path ++ (inorder l ++ x :: inorder r) ++ right_of path =
        (left_of path ++ inorder l) ++ x :: (inorder r ++ right_of path)) as Eq.
      { intros x. repeat (rewrite <- app_assoc; cbn [app]). done. }
      rewrite !Eq. exact (InsertedOld _ _ (TreeNode id k v) _ eq_refl E0).
  - destruct (Z.ltb_spec (key_compare key k) 0) as [Hlt|Hge].
    + assert (Forall (below key) (right_of (InLeft id k v b r :: path))) as Hb'.
      { cbn [right_of]. apply Forall_app. split; [|done]. apply Forall_cons. split; [done|].
        eapply below_after; [|exact Fr]. cbn. lia. }
      assert (path_threaded (InLeft id k v b r :: path) lo (Some id)) as Hp'.
      { split; [done|]. by exists hi. }
      assert (left_of path ++ inorder (Child id k v b l r) ++ right_of path =
        left_of (InLeft id k v b r :: path) ++ inorder l ++ right_of (InLeft id k v b r :: path)) as ->.
      { cbn [inorder left_of right_of]. repeat (rewrite <- app_assoc; cbn [app]). done. }
      destruct (is_child l) eqn:Ecl.
      * destruct (push _ _) as [path'|] eqn:Ep; [|done]. cbn [mbind option_bind] in E.
        unfold push in Ep. destruct (_ <? _); [|done]. injection Ep as <-. by eapply IHl.
      * destruct l as [tl|]; [|done]. cbn in El. subst tl.
        destruct (insert_rebalance _ _) as [t'|] eqn:Et; [|done]. cbn [mbind option_bind] in E.
        injection E as <- <- <- <-. eapply insert_rebalance_whole in Et as [[Ei Et] Ec]; [|exact Hp|by split_and!].
        split; [done|]. split; [done|]. rewrite Ei. cbn [inorder xtree_node_new app left_of right_of].
        by apply InsertedNew.
    + assert (Forall (above key) (left_of (InRight id k v b l :: path))) as Ha'.
      { cbn [left_of]. rewrite !Forall_app. split; [done|]. split.
        - eapply above_before; [|exact Fl]. cbn. lia.
        - apply Forall_singleton. unfold above. cbn. lia. }
      assert (path_threaded (InRight id k v b l :: path) (Some id) hi) as Hp'.
      { split; [done|]. by exists lo. }
      assert (left_of path ++ inorder (Child id k v b l r) ++ right_of path =
        left_of (InRight id k v b l :: path) ++ inorder r ++ right_of (InRight id k v b l :: path)) as ->.
      { cbn [inorder left_of right_of]. repeat (rewrite <- app_assoc; cbn [app]). done. }
      destruct (is_child r) eqn:Ecr.
      * destruct (push _ _) as [path'|] eqn:Ep; [|done]. cbn [mbind option_bind] in E.
        unfold push in Ep. destruct (_ <? _); [|done]. injection Ep as <-. by eapply IHr.
      * destruct r as [tr|]; [|done]. cbn in Er. subst tr.
        destruct (insert_rebalance _ _) as [t'|] eqn:Et; [|done]. cbn [mbind option_bind] in E.
        injection E as <- <- <- <-. eapply insert_rebalance_whole in Et as [[Ei Et] Ec]; [|exact Hp|by split_and!].
        split; [done|]. split; [done|]. rewrite Ei. cbn [inorder xtree_node_new app left_of right_of].
        assert (left_of path ++ (inorder l ++ [TreeNode id k v; TreeNode fresh key value]) ++ right_of path =
          (left_of path ++ inorder l ++ [TreeNode id k v]) ++ TreeNode fresh key value :: right_of path) as ->
          by (repeat (rewrite <- app_assoc; cbn [app]); done).
        by apply InsertedNew.
Qed.
End insertion.

(** ** Removal *)

Lemma set_left_thread_ok l t lo hi :
  inorder (set_left_thread l t) = inorder l /\ is_child (set_left_thread l t) = is_child l /\
  (threaded lo l hi -> threaded t (set_left_thread l t) hi) /\
  (end_ok l hi -> end_ok (set_left_thread l t) hi).
Proof.
  revert lo hi. induction l as [|id k v b l IHl r _]; intros lo hi; [done|].
  destruct l as [tl|i ki vi bi ll lr].
  - split_and!; [done|done| |done]. intros ((H1 & H2) & H3). by split.
  - set (l := Child i ki vi bi ll lr) in *.
    change (set_left_thread (Child id k v b l r) t) with (Child id k v b (set_left_thread l t) r).
    destruct (IHl lo (Some id)) as (E & C & T & _). split_and!; [cbn [inorder]; by rewrite E|done| |done].
    intros ((H1 & H2) & H3). split; [|done]. split; [by apply T|].
    destruct (set_left_thread l t); [by cbn in C|done].
Qed.

Lemma set_right_thread_ok l t lo hi :
  inorder (set_right_thread l t) = inorder l /\ is_child (set_right_thread l t) = is_child l /\
  (threaded lo l hi -> threaded lo (set_right_thread l t) t) /\
  (end_ok l lo -> end_ok (set_right_thread l t) lo).
Proof.
  revert lo hi. induction l as [|id k v b l _ r IHr]; intros lo hi; [done|].
  destruct r as [tr|i ki vi bi rl rr].
  - split_and!; [done|done| |done]. intros (H1 & H2 & H3). by split.
  - set (r := Child i ki vi bi rl rr) in *.
    change (set_right_thread (Child id k v b l r) t) with (Child id k v b l (set_right_thread r t)).
    destruct (IHr (Some id) hi) as (E & C & T & _). split_and!; [cbn [inorder]; by rewrite E|done| |done].
    intros (H1 & H2 & H3). split; [done|]. split; [by apply T|].
    destruct (set_right_thread r t); [by cbn in C|done].
Qed.

(** A tree that is empty or starts with a node. *)
Definition root_ok (t : link) : Prop := end_ok t None.

Lemma child_root t : is_child t = true -> root_ok t.
Proof. by destruct t. Qed.

Lemma relink_whole path l lo hi t :
  relink path l = Some t -> path_threaded path lo hi -> fits path lo l hi -> root_ok (plug path l) ->
  whole t (left_of path ++ inorder l ++ right_of path) /\ root_ok t.
Proof.
  intros E Hp Hf Hr. destruct path as [|f path].
  - injection E as <-. split; [|done]. by apply (plug_whole [] lo hi).
  - destruct f as [id k v b r|id k v b l']; cbn [relink] in E.
    + destruct (parent_step _ _ _ _ _ (b + 1) Hp Hf) as (lo' & hi' & Hp' & Ht' & <-).
      eapply remove_rebalance_whole in E as [E C]; [|done|exact Ht']. split; [done|by apply child_root].
    + destruct (parent_step _ _ _ _ _ (b - 1) Hp Hf) as (lo' & hi' & Hp' & Ht' & <-).
      eapply remove_rebalance_whole in E as [E C]; [|done|exact Ht']. split; [done|by apply child_root].
Qed.

Definition in_left (f : frame) : Prop := if f is InLeft _ _ _ _ _ then True else False.

Lemma left_of_spine spine path : Forall in_left spine -> left_of (spine ++ path) = left_of path.
Proof. induction 1 as [|[] spine H _ IH]; [done|done|done]. Qed.

Lemma right_of_app spine path : right_of (spine ++ path) = right_of spine ++ right_of path.
Proof.
  induction spine as [|[] spine IH]; [done|..]; cbn [app right_of]; rewrite IH; [|done].
  repeat (rewrite <- app_assoc; cbn [app]). done.
Qed.

(** The path down the left edge. *)
Lemma find_next_whole next path lo hi n path2 :
  find_next next path = Some (n, path2) -> is_child next = true ->
  path_threaded path lo hi -> threaded lo next hi -> exists spine hi2,
    path2 = spine ++ path /\ Forall in_left spine /\ path_threaded path2 lo hi2 /\ threaded lo n hi2 /\
    inorder next = inorder n ++ right_of spine /\
    match n with Child _ _ _ _ (Thread _) _ => True | _ => False end.
Proof.
  revert path hi. induction next as [|id k v b l IHl r _]; intros path hi E Hc Hp Ht; [done|].
  destruct l as [tl|i ki vi bi ll lr].
  - cbn in E. injection E as <- <-. exists [], hi. cbn [app right_of]. rewrite app_nil_r. by split_and!.
  - set (l := Child i ki vi bi ll lr) in *. destruct Ht as ((Tl & El) & Tr & Er).
    assert (E' : (path ← push (InLeft id k v b r) path; find_next l path) = Some (n, path2)) by exact E.
    unfold push in E'. destruct (_ <? _); [|done]. cbn [mbind option_bind] in E'.
    assert (path_threaded (InLeft id k v b r :: path) lo (Some id)) as Hp' by (split; [done|by exists hi]).
    destruct (IHl _ _ E' eq_refl Hp' Tl) as (spine & hi2 & -> & Hf & Hp2 & Tn & Ei & Hn).
    exists (spine ++ [InLeft id k v b r]), hi2. rewrite <- app_assoc. cbn [app]. split; [done|].
    split; [apply Forall_app; split; [done|by apply Forall_singleton]|]. split; [done|]. split; [done|].
    split; [|done]. cbn [inorder]. rewrite Ei, right_of_app. cbn [right_of]. rewrite app_nil_r.
    by rewrite <- app_assoc.
Qed.

(** Another ancestor at the turn of the path. *)
Lemma spine_turn spine f f' path lo lo' hi :
  Forall in_left spine -> path_threaded (spine ++ f :: path) lo hi ->
  (forall hi, path_threaded (f :: path) lo hi -> path_threaded (f' :: path) lo' hi) ->
  path_threaded (spine ++ f' :: path) lo' hi.
Proof.
  intros Hs. revert hi. induction Hs as [|[] spine H _ IH]; intros hi Hp Hf; [by apply Hf| |done].
  destruct Hp as (-> & x & H1 & H2). split; [done|]. exists x. split; [done|by apply IH].
Qed.

Lemma replace_frame_spine spine f g path :
  replace_frame (length spine) f (spine ++ g :: path) = spine ++ f :: path.
Proof. induction spine as [|h spine IH]; [done|]. cbn [length app replace_frame]. by rewrite IH. Qed.

Lemma push_cons f path path' : push f path = Some path' -> path' = f :: path.
Proof. unfold push. by destruct (_ <? _); [intros [= <-]|]. Qed.

Lemma remove_both_whole path id k v b l r lo hi t :
  remove_both path id k v b l r = Some t -> is_child l = true -> is_child r = true ->
  path_threaded path lo hi -> threaded lo (Child id k v b l r) hi ->
  whole t (left_of path ++ (inorder l ++ inorder r) ++ right_of path) /\ is_child t = true.
Proof.
  intros E Cl Cr Hp ((Tl & El) & (Tr & Er)). unfold remove_both in E.
  destruct (push _ _) as [path1|] eqn:Epush; [|done]. cbn [mbind option_bind] in E.
  apply push_cons in Epush as ->.
  destruct (find_next _ _) as [[next path2]|] eqn:Ef; [|done]. cbn [mbind option_bind] in E.
  assert (path_threaded (InRight id k v b l :: path) (Some id) hi) as Hp1 by (split; [done|by exists lo]).
  destruct (find_next_whole _ _ _ _ _ _ Ef Cr Hp1 Tr) as (spine & hi2 & -> & Hs & Hp2 & Tn & Ei & Hn).
  destruct next as [|nid nk nv nb nl nr]; [done|]. destruct nl as [tn|]; [|done].
  destruct Tn as ((_ & _) & (Tnr & Enr)). cbn [inorder app] in Ei.
  destruct (set_right_thread_ok l (Some nid) lo (Some id)) as (Eil & Ecl & _).
  set (left := set_right_thread l (Some nid)) in *.
  assert (forall x, threaded x l (Some id) -> threaded x left (Some nid)) as Tleft.
  { intros x Hx. by apply (set_right_thread_ok l (Some nid) x (Some id)). }
  assert (forall x, end_ok left x) as Eleft by (intros x; by destruct left; [rewrite Cl in Ecl|]).
  rewrite length_app, Nat.add_sub in E. destruct spine as [|f spine]; cbn [length app] in E.
  - destruct Hp2 as (_ & lo2 & (Tl2 & _) & Hp2). cbn [right_of] in Ei. rewrite app_nil_r in Ei.
    eapply remove_rebalance_whole in E; [|exact Hp2|cbn [threaded]; by auto].
    cbn [inorder] in E. rewrite Eil in E. by rewrite Ei.
  - rewrite Forall_cons in Hs. destruct Hs as [Hf Hs]. destruct f as [pid pk pv pb pr|]; [|done].
    rewrite replace_frame_spine in E. destruct Hp2 as (-> & x & (Tpr & Epr) & Hp2).
    assert (path_threaded (spine ++ InRight nid nk nv b left :: path) (Some nid) x) as Hp3.
    { eapply spine_turn; [done|exact Hp2|]. intros y (_ & z & (Tz & _) & Hz). split; [done|].
      exists z. by auto. }
    eapply remove_rebalance_whole in E; [|exact Hp3|].
    + rewrite left_of_spine, right_of_app in E by done. cbn [inorder left_of right_of] in *.
      assert (inorder (if is_child nr then nr else Thread (Some nid)) = inorder nr) as En by (by destruct nr).
      rewrite Eil, En in E. rewrite Ei. repeat (rewrite <- app_assoc in E; cbn [app] in E).
      repeat (rewrite <- app_assoc; cbn [app]). exact E.
    + cbn [threaded]. split; [|done]. destruct nr; cbn [is_child]; [by split|by split].
Qed.

Lemma remove_found_whole path node lo hi t :
  remove_found path node = Some t -> path_threaded path lo hi -> threaded lo node hi ->
  (path = [] -> lo = None /\ hi = None) -> exists id k v l1 l2,
    inorder node = l1 ++ TreeNode id k v :: l2 /\ node_of node = Some (TreeNode id k v) /\
    whole t (left_of path ++ (l1 ++ l2) ++ right_of path) /\ root_ok t.
Proof.
  intros E Hp Ht Hnil. destruct node as [|id k v b l r]; [done|]. exists id, k, v, (inorder l), (inorder r).
  split; [done|]. split; [done|]. pose proof Ht as ((Tl & El) & (Tr & Er)).
  cbn [remove_found] in E. destruct (is_child l) eqn:Cl, (is_child r) eqn:Cr.
  - eapply remove_both_whole in E as [Hw Hc]; [|done..]. split; [done|by apply child_root].
  - destruct r as [tr|]; [|done]. cbn in Er. subst tr. cbn [inorder]. rewrite app_nil_r.
    destruct (set_right_thread_ok l hi lo (Some id)) as (Ei & Ec & T & _). rewrite <- Ei.
    rewrite Cl in Ec. eapply relink_whole; [exact E|exact Hp| |].
    + apply child_fits; [done|by apply T].
    + by apply child_root, plug_child.
  - destruct l as [tl|]; [|done]. cbn in El. subst tl. cbn [inorder app].
    destruct (set_left_thread_ok r lo (Some id) hi) as (Ei & Ec & T & _). rewrite <- Ei.
    rewrite Cr in Ec. eapply relink_whole; [exact E|exact Hp| |].
    + apply child_fits; [done|by apply T].
    + by apply child_root, plug_child.
  - destruct l as [tl|]; [|done]. destruct r as [tr|]; [|done]. cbn in El, Er. subst tl tr. cbn [inorder app].
    destruct path as [|f path].
    + injection E as <-. done.
    + assert (forall l, is_child (plug path (plug1 f l)) = true) as Hc by (intros; apply plug_child; by destruct f).
      destruct f as [fid fk fv fb fr|fid fk fv fb fl].
      * eapply (relink_whole _ (Thread lo)) in E; [exact E|exact Hp|done|]. apply child_root, Hc.
      * eapply (relink_whole _ (Thread hi)) in E; [exact E|exact Hp|done|]. apply child_root, Hc.
Qed.

(** What a removal finds. *)
Lemma remove_loop_whole key node path lo hi res :
  remove_loop key_compare key node path = Some res ->
  path_threaded path lo hi -> threaded lo node hi -> sorted (inorder node) ->
  Forall (above key) (left_of path) -> Forall (below key) (right_of path) ->
  match res with
  | None => Forall (fun n => key_compare key (tnode_key n) <> 0)
              (left_of path ++ inorder node ++ right_of path)
  | Some (t, n) => exists l1 l2, left_of path ++ inorder node ++ right_of path = l1 ++ n :: l2 /\
      key_compare key (tnode_key n) = 0 /\ whole t (l1 ++ l2) /\ root_ok t
  end.
Proof.
  revert path lo hi. induction node as [|id k v b l IHl r IHr]; intros path lo hi; [done|].
  cbn [remove_loop]. intros E Hp Ht Hsort Ha Hb. pose proof Ht as ((Tl & El) & (Tr & Er)).
  pose proof Hsort as Hsort'. cbn [inorder] in Hsort'. apply sorted_middle in Hsort' as (Hsort' & Fl & Fr).
  apply sorted_app in Hsort' as (Sl & Sr & _).
  destruct (Z.eqb_spec (key_compare key k) 0) as [E0|E0].
  { destruct (remove_found _ _) as [t|] eqn:Et; [|done]. cbn [mbind option_bind] in E. injection E as <-.
    eapply remove_found_whole in Et as (id' & k' & v' & l1 & l2 & Ei & En & Hw & Hr); [|exact Hp|exact Ht|].
    2:{ intros ->. apply Hp. }
    injection En as <- <- <-. exists (left_of path ++ l1), (l2 ++ right_of path). rewrite Ei.
    repeat (rewrite <- app_assoc in Hw; cbn [app] in Hw). repeat (rewrite <- app_assoc; cbn [app]). done. }
  destruct (Z.ltb_spec (key_compare key k) 0) as [Hlt|Hge].
  - assert (Forall (below key) (right_of (InLeft id k v b r :: path))) as Hb'.
    { cbn [right_of]. apply Forall_app. split; [|done]. apply Forall_cons. split; [done|].
      eapply below_after; [|exact Fr]. cbn. lia. }
    assert (left_of path ++ inorder (Child id k v b l r) ++ right_of path =
      left_of (InLeft id k v b r :: path) ++ inorder l ++ right_of (InLeft id k v b r :: path)) as ->.
    { cbn [inorder left_of right_of]. repeat (rewrite <- app_assoc; cbn [app]). done. }
    destruct (is_child l) eqn:Ecl; cbn [negb] in E.
    + destruct (push _ _) as [path'|] eqn:Ep; [|done]. cbn [mbind option_bind] in E.
      apply push_cons in Ep as ->. eapply IHl; try done. split; [done|by exists hi].
    + injection E as <-. destruct l as [|]; [|done]. cbn [inorder app]. rewrite !Forall_app in *.
      split; [|]; eapply Forall_impl; try done; unfold above, below; intros; lia.
  - assert (Forall (above key) (left_of (InRight id k v b l :: path))) as Ha'.
    { cbn [left_of]. rewrite !Forall_app. split; [done|]. split.
      - eapply above_before; [|exact Fl]. cbn. lia.
      - apply Forall_singleton. unfold above. cbn. lia. }
    assert (left_of path ++ inorder (Child id k v b l r) ++ right_of path =
      left_of (InRight id k v b l :: path) ++ inorder r ++ right_of (InRight id k v b l :: path)) as ->.
    { cbn [inorder left_of right_of]. repeat (rewrite <- app_assoc; cbn [app]). done. }
    destruct (is_child r) eqn:Ecr; cbn [negb] in E.
    + destruct (push _ _) as [path'|] eqn:Ep; [|done]. cbn [mbind option_bind] in E.
      apply push_cons in Ep as ->. eapply IHr; try done. split; [done|by exists lo].
    + injection E as <-. destruct r as [|]; [|done]. cbn [inorder app]. rewrite !Forall_app in *.
      split_and!; eapply Forall_impl; try (by apply Ha' || exact Hb || idtac); unfold above, below; intros; lia.
Qed.
End order.
