(* ===== verification/TreeCorrect.v ===== *)
(** * The balanced tree: what is proved

    The invariant of the tree, the effect of every operation on the sorted list
    of its nodes, the walks along the threads, the bound on the height, and the
    tree as a dictionary. *)

From Stdlib Require Import Sorted.
From S2P Require Import Prelude Dictionary Tree TreeBalance TreeThreads.
Local Open Scope Z_scope.

(** ** Definitions of the proof *)

(** The fewest nodes of a balanced tree of height [h], and of height [h + 1]. *)
Fixpoint fewest (h : nat) : Z * Z :=
  match h with
  | O => (0, 1)
  | S h => let '(a, b) := fewest h in (b, a + b + 1)
  end.

(** The nodes of a tree of height [MAX_GTREE_HEIGHT + 1], at least. *)
Definition max_nodes : Z := 433494436.

Definition tree_nodes (t : xtree) : list tree_node := inorder (root t).
Definition node_entry (n : tree_node) : Z * Z := (tnode_key n, tnode_value n).
Definition tree_entries (t : xtree) : list (Z * Z) := map node_entry (tree_nodes t).

(** The identifiers at the ends of a list of nodes. *)
Definition first_id (l : list tree_node) (default : option Z) : option Z :=
  match l with [] => default | n :: _ => Some (node_id n) end.
Fixpoint last_id (l : list tree_node) (default : option Z) : option Z :=
  match l with [] => default | n :: l => last_id l (Some (node_id n)) end.

Section definitions.
Context (key_compare : Z -> Z -> Z).

Record tree_ok (t : xtree) : Prop := TreeOk {
  ok_balanced : balanced (root t);
  ok_sorted : sorted key_compare (tree_nodes t);
  ok_threaded : threaded None (root t) None;
  ok_root : root_ok (root t);
  ok_ids : NoDup (map node_id (tree_nodes t));
  ok_nnodes : tree_nnodes t = zlen (tree_nodes t);
  ok_size : zlen (tree_nodes t) <= max_nodes
}.

Definition tree_same_key (a b : Z) : bool := key_compare b a =? 0.

Definition matching (key : Z) (n : tree_node) : Prop := key_compare key (tnode_key n) = 0.
#[export] Instance matching_dec key n : Decision (matching key n) := decide (_ = 0).
Definition not_below (key : Z) (n : tree_node) : Prop := key_compare key (tnode_key n) <= 0.
#[export] Instance not_below_dec key n : Decision (not_below key n) := decide (_ <= 0).
#[export] Instance below_dec key n : Decision (below key_compare key n) := decide (_ < 0).
End definitions.

(** A walk that calls back for each node until it is told to stop. *)
Section walk.
Context {S : Type} (func : tree_node -> S -> S * bool).
Fixpoint walk (l : list tree_node) (s : S) : S * bool :=
  match l with
  | [] => (s, false)
  | n :: l => and_then (func n s) (walk l)
  end.
End walk.

Fixpoint preorder (l : link) : list tree_node :=
  match l with
  | Thread _ => []
  | Child id k v _ l r => TreeNode id k v :: preorder l ++ preorder r
  end.
Fixpoint postorder (l : link) : list tree_node :=
  match l with
  | Thread _ => []
  | Child id k v _ l r => postorder l ++ postorder r ++ [TreeNode id k v]
  end.

(** ** The height *)

Lemma fewest_step h : (fewest h).2 = (fewest (S h)).1 /\ 0 <= (fewest h).1 <= (fewest h).2.
Proof.
  induction h as [|h [IH1 IH2]]; [cbn; lia|]. cbn [fewest] in *. destruct (fewest h) as [a b]. cbn [fst snd] in *. lia.
Qed.

Lemma fewest_mono h h' : (h <= h')%nat -> (fewest h).1 <= (fewest h').1.
Proof.
  induction 1 as [|h' _ IH]; [done|]. pose proof (fewest_step h') as [<- ?]. lia.
Qed.

Lemma fewest_rec h : (fewest (S (S h))).1 = (fewest (S h)).1 + (fewest h).1 + 1.
Proof. cbn [fewest]. destruct (fewest h). cbn. lia. Qed.

Lemma fewest_nodes l : balanced l -> (fewest (Z.to_nat (ht l))).1 <= zlen (inorder l).
Proof.
  induction l as [|id k v b l IHl r IHr]; intros Hb; [change (0 <= 0); lia|].
  destruct Hb as (Hl & Hr & Hb & Hrange). specialize (IHl Hl). specialize (IHr Hr).
  cbn [inorder ht]. rewrite zlen_app, zlen_cons. pose proof (ht_nonneg l). pose proof (ht_nonneg r).
  set (hl := Z.to_nat (ht l)) in *. set (hr := Z.to_nat (ht r)) in *.
  pose proof (zlen_nonneg (inorder l)). pose proof (zlen_nonneg (inorder r)).
  replace (Z.to_nat (1 + Z.max (ht l) (ht r))) with (S (Nat.max hl hr)) by lia.
  assert (hl = hr \/ hl = S hr \/ hr = S hl) as [E|[E|E]] by lia; rewrite E in *.
  - rewrite Nat.max_id. destruct hr as [|h]; [cbn; lia|]. rewrite fewest_rec.
    pose proof (fewest_mono h (S h) ltac:(lia)). lia.
  - rewrite Nat.max_l, fewest_rec by lia. lia.
  - rewrite Nat.max_r, fewest_rec by lia. lia.
Qed.

Lemma height_bound l : balanced l -> zlen (inorder l) < max_nodes -> ht l <= 40.
Proof.
  intros Hb Hn. destruct (Z.leb_spec (ht l) 40) as [|Hh]; [done|]. exfalso.
  pose proof (fewest_nodes l Hb). pose proof (fewest_mono 41 (Z.to_nat (ht l)) ltac:(lia)) as H41.
  assert ((fewest 41).1 = max_nodes) as E by (by vm_compute). lia.
Qed.

Lemma height_loop_ok l h : balanced l -> is_child l = true -> height_loop l h = h + ht l.
Proof.
  revert h. induction l as [|id k v b l IHl r _]; intros h Hb Hc; [done|].
  destruct Hb as (Hl & Hr & Hb & Hrange). cbn [height_loop ht]. pose proof (ht_nonneg r).
  destruct (is_child l) eqn:El; cbn [negb].
  - rewrite IHl by done. lia.
  - destruct l; [|done]. cbn [ht] in *. lia.
Qed.

(** ** Lookup *)

Section lookup.
Context (key_compare : Z -> Z -> Z) {Hcmp : CompareOk key_compare}.

Lemma head_filter_app (P : tree_node -> Prop) `{!forall n, Decision (P n)} l1 l2 :
  Forall (fun n => ~ P n) l1 -> head (filter P (l1 ++ l2)) = head (filter P l2).
Proof. intros Hl. by rewrite filter_app, filter_no. Qed.

(** The loops that go left on one side of a threshold find the first node
    beyond it. *)
Lemma head_filter_node (P : tree_node -> Prop) `{!forall n, Decision (P n)} l n r :
  ~ P n -> Forall (fun m => ~ P m) l -> head (filter P (l ++ n :: r)) = head (filter P r).
Proof. intros Hn Hl. rewrite head_filter_app by done. by rewrite filter_cons_False. Qed.

Lemma head_filter_left (P : tree_node -> Prop) `{!forall n, Decision (P n)} l r :
  Forall (fun m => ~ P m) r -> head (filter P (l ++ r)) = head (filter P l).
Proof. intros Hr. rewrite filter_app, (filter_no P r), app_nil_r; done. Qed.

Lemma find_node_ok key node :
  sorted key_compare (inorder node) ->
  find_node_loop key_compare key node = head (filter (matching key_compare key) (inorder node)).
Proof.
  induction node as [|id k v b l IHl r IHr]; intros Hs; [done|]. cbn [find_node_loop inorder] in *.
  apply sorted_middle in Hs as (Hs & Fl & Fr). apply sorted_app in Hs as (Sl & Sr & _).
  destruct (Z.eqb_spec (key_compare key k) 0) as [E|E].
  - rewrite head_filter_app; [by rewrite filter_cons_True|].
    apply (above_before key_compare key) in Fl; [|cbn; lia]. eapply Forall_impl; [exact Fl|].
    unfold above, matching. intros; lia.
  - destruct (Z.ltb_spec (key_compare key k) 0) as [Hlt|Hge].
    + rewrite head_filter_left.
      * destruct l; [done|]. by apply IHl.
      * apply Forall_cons. split; [done|]. apply (below_after key_compare key) in Fr; [|cbn; lia].
        eapply Forall_impl; [exact Fr|]. unfold below, matching. intros; lia.
    + rewrite head_filter_node; [|done|].
      * destruct r; [done|]. by apply IHr.
      * apply (above_before key_compare key) in Fl; [|cbn; lia]. eapply Forall_impl; [exact Fl|].
        unfold above, matching. intros; lia.
Qed.

(** A node of the left subtree, or else the node itself. *)
Lemma head_filter_or (P : tree_node -> Prop) `{!forall n, Decision (P n)} l n r :
  P n -> head (filter P (l ++ n :: r)) = match head (filter P l) with Some m => Some m | None => Some n end.
Proof. intros Hn. rewrite filter_app, filter_cons_True by done. by destruct (filter P l). Qed.

Lemma lower_bound_ok key node result :
  sorted key_compare (inorder node) ->
  lower_bound_loop key_compare key node result =
  match head (filter (not_below key_compare key) (inorder node)) with Some n => Some n | None => result end.
Proof.
  revert result. induction node as [|id k v b l IHl r IHr]; intros result Hs; [done|].
  cbn [lower_bound_loop inorder] in *.
  apply sorted_middle in Hs as (Hs & Fl & Fr). apply sorted_app in Hs as (Sl & Sr & _).
  destruct (Z.leb_spec (key_compare key k) 0) as [Hle|Hgt].
  - rewrite head_filter_or by done. destruct l; [done|]. cbn [negb is_child]. rewrite IHl by done.
    by destruct (head _).
  - rewrite head_filter_node; [destruct r; [done|by apply IHr]|unfold not_below; cbn; lia|].
    apply (above_before key_compare key) in Fl; [|cbn; lia]. eapply Forall_impl; [exact Fl|].
    unfold above, not_below. intros; lia.
Qed.

Lemma upper_bound_ok key node result :
  sorted key_compare (inorder node) ->
  upper_bound_loop key_compare key node result =
  match head (filter (below key_compare key) (inorder node)) with Some n => Some n | None => result end.
Proof.
  revert result. induction node as [|id k v b l IHl r IHr]; intros result Hs; [done|].
  cbn [upper_bound_loop inorder] in *.
  apply sorted_middle in Hs as (Hs & Fl & Fr). apply sorted_app in Hs as (Sl & Sr & _).
  destruct (Z.ltb_spec (key_compare key k) 0) as [Hlt|Hge].
  - rewrite head_filter_or by done. destruct l; [done|]. cbn [negb is_child]. rewrite IHl by done.
    by destruct (head _).
  - rewrite head_filter_node; [destruct r; [done|by apply IHr]|unfold below; cbn; lia|].
    apply (above_before key_compare key) in Fl; [|cbn; lia]. eapply Forall_impl; [exact Fl|].
    unfold above, below. intros; lia.
Qed.

(** A search function that agrees with the order: it says "to the right" on a
    first part of the nodes, "to the left" on a last part, "here" in between. *)
Definition monotone (search_func : Z -> Z) (l : list tree_node) : Prop :=
  forall l1 a l2 b l3, l = l1 ++ a :: l2 ++ b :: l3 ->
    (search_func (tnode_key a) <= 0 -> search_func (tnode_key b) <= 0) /\
    (search_func (tnode_key a) < 0 -> search_func (tnode_key b) < 0).

Lemma monotone_sub search_func l1 l l2 : monotone search_func (l1 ++ l ++ l2) -> monotone search_func l.
Proof.
  intros H m1 a m2 b m3 ->. apply (H (l1 ++ m1) a m2 b (m3 ++ l2)).
  repeat (rewrite <- app_assoc; cbn [app]). done.
Qed.

Definition found (search_func : Z -> Z) (n : tree_node) : Prop := search_func (tnode_key n) = 0.
#[export] Instance found_dec search_func n : Decision (found search_func n) := decide (_ = 0).

Lemma search_ok search_func node :
  monotone search_func (inorder node) ->
  match xtree_node_search search_func node with
  | Some n => n ∈ inorder node /\ found search_func n
  | None => Forall (fun n => ~ found search_func n) (inorder node)
  end.
Proof.
  induction node as [|id k v b l IHl r IHr]; intros Hm; [by apply Forall_nil|].
  cbn [xtree_node_search inorder] in *. set (n := TreeNode id k v) in *.
  assert (monotone search_func (inorder l)) as Hml by (by apply (monotone_sub _ [] _ (n :: inorder r))).
  assert (monotone search_func (inorder r)) as Hmr.
  { apply (monotone_sub _ (inorder l ++ [n]) _ []). rewrite app_nil_r, <- app_assoc. done. }
  specialize (IHl Hml). specialize (IHr Hmr).
  destruct (Z.eqb_spec (search_func k) 0) as [E|E].
  { split; [|done]. apply elem_of_app. right. by apply elem_of_cons; left. }
  destruct (Z.ltb_spec (search_func k) 0) as [Hlt|Hge].
  - assert (Forall (fun m => ~ found search_func m) (n :: inorder r)) as Hr.
    { apply Forall_cons. split; [unfold found; cbn; lia|]. apply Forall_forall. intros m Hin.
      apply list_elem_of_split in Hin as (m1 & m2 & Er).
      destruct (Hm (inorder l) n m1 m m2) as [_ H]; [by rewrite Er|]. unfold found. specialize (H Hlt). lia. }
    assert (xtree_node_search search_func l = if negb (is_child l) then None else xtree_node_search search_func l)
      as <- by (by destruct l).
    destruct (xtree_node_search search_func l) as [m|].
    + destruct IHl as [Hin Hf]. split; [|done]. apply elem_of_app. by left.
    + apply Forall_app. by split.
  - assert (Forall (fun m => ~ found search_func m) (inorder l ++ [n])) as Hl.
    { apply Forall_app. split; [|apply Forall_singleton; unfold found; cbn; lia].
      apply Forall_forall. intros m Hin Hf. apply list_elem_of_split in Hin as (m1 & m2 & El).
      destruct (Hm m1 m m2 n (inorder r)) as [H _].
      - rewrite El. repeat (rewrite <- app_assoc; cbn [app]). done.
      - unfold found in Hf. specialize (H ltac:(lia)). cbn in H. lia. }
    assert (xtree_node_search search_func r = if negb (is_child r) then None else xtree_node_search search_func r)
      as <- by (by destruct r).
    destruct (xtree_node_search search_func r) as [m|].
    + destruct IHr as [Hin Hf]. split; [|done]. apply elem_of_app. right. by apply elem_of_cons; right.
    + change (n :: inorder r) with ([n] ++ inorder r). rewrite app_assoc. apply Forall_app. by split.
Qed.
End lookup.

(** ** Walks *)

Lemma walk_app {S} (func : tree_node -> S -> S * bool) l1 l2 s :
  walk func (l1 ++ l2) s = and_then (walk func l1 s) (walk func l2).
Proof.
  revert s. induction l1 as [|n l1 IH]; intros s; [done|]. cbn [app walk]. unfold and_then at 1 3.
  destruct (func n s) as [s' []]; [done|]. by rewrite IH.
Qed.

Lemma and_then_done {S} (r : S * bool) : and_then r (fun s => (s, false)) = r.
Proof. by destruct r as [s []]. Qed.

Lemma skip_missing {S} (f : link -> S -> S * bool) l s :
  (forall t, f (Thread t) s = (s, false)) -> (if is_child l then f l s else (s, false)) = f l s.
Proof. intros H. by destruct l. Qed.

Section traversals.
Context {S : Type} (func : tree_node -> S -> S * bool).

Lemma and_then_ext (r : S * bool) k k' : (forall s, k s = k' s) -> and_then r k = and_then r k'.
Proof. intros H. destruct r as [s []]; [done|]. apply H. Qed.

Lemma pre_order_ok l s : xtree_node_pre_order func l s = walk func (preorder l) s.
Proof.
  revert s. induction l as [|id k v b l IHl r IHr]; intros s; [done|].
  cbn [xtree_node_pre_order preorder walk]. apply and_then_ext. intros s1.
  rewrite walk_app, skip_missing, IHl by done. apply and_then_ext. intros s2.
  by rewrite skip_missing, IHr, and_then_done.
Qed.

Lemma in_order_ok l s : xtree_node_in_order func l s = walk func (inorder l) s.
Proof.
  revert s. induction l as [|id k v b l IHl r IHr]; intros s; [done|].
  cbn [xtree_node_in_order inorder]. rewrite walk_app, skip_missing, IHl by done.
  apply and_then_ext. intros s1. cbn [walk]. apply and_then_ext. intros s2.
  by rewrite skip_missing, IHr, and_then_done.
Qed.

Lemma post_order_ok l s : xtree_node_post_order func l s = walk func (postorder l) s.
Proof.
  revert s. induction l as [|id k v b l IHl r IHr]; intros s; [done|].
  cbn [xtree_node_post_order postorder]. rewrite !walk_app, skip_missing, IHl by done.
  apply and_then_ext. intros s1. rewrite walk_app, skip_missing, IHr by done.
  apply and_then_ext. intros s2. cbn [walk]. by rewrite and_then_done.
Qed.
End traversals.

(** ** Following the threads *)

Lemma first_id_app l1 l2 d : first_id (l1 ++ l2) d = first_id l1 (first_id l2 d).
Proof. by destruct l1. Qed.

Lemma last_id_app l1 l2 d : last_id (l1 ++ l2) d = last_id l2 (last_id l1 d).
Proof. revert d. induction l1 as [|n l1 IH]; intros d; [done|apply IH]. Qed.

(** The subtree of a node, with the threads at its ends. *)
Lemma deref_ok l lo hi id :
  threaded lo l hi -> NoDup (map node_id (inorder l)) ->
  match deref l id with
  | Some sub => exists n a b, node_of sub = Some n /\ node_id n = id /\
      inorder l = a ++ inorder sub ++ b /\ threaded (last_id a lo) sub (first_id b hi)
  | None => id ∉ map node_id (inorder l)
  end.
Proof.
  revert lo hi. induction l as [|i k v b l IHl r IHr]; intros lo hi Ht Hnd; [apply not_elem_of_nil|].
  pose proof Ht as ((Tl & El) & (Tr & Er)). cbn [deref].
  destruct (Z.eqb_spec i id) as [->|Hne].
  { exists (TreeNode id k v), [], []. rewrite app_nil_r. by split_and!. }
  cbn [inorder] in *. rewrite map_app in Hnd. cbn [map] in Hnd. apply NoDup_app in Hnd as (Nl & Hdis & Nr).
  apply NoDup_cons in Nr as [Hi Nr]. specialize (IHl _ _ Tl Nl). specialize (IHr _ _ Tr Nr).
  destruct (deref l id) as [sub|].
  { destruct IHl as (n & a & c & E1 & E2 & E3 & E4). exists n, a, (c ++ TreeNode i k v :: inorder r).
    split; [done|]. split; [done|]. rewrite E3, first_id_app. split; [|done].
    by rewrite <- !app_assoc. }
  destruct (deref r id) as [sub|].
  { destruct IHr as (n & a & c & E1 & E2 & E3 & E4). exists n, (inorder l ++ TreeNode i k v :: a), c.
    split; [done|]. split; [done|]. rewrite E3, last_id_app. split; [|done].
    repeat (rewrite <- app_assoc; cbn [app]). done. }
  rewrite map_app, not_elem_of_app. cbn [map]. rewrite not_elem_of_cons. split_and!; [done|cbn; congruence|done].
Qed.

Lemma node_of_head sub n : node_of sub = Some n -> n ∈ inorder sub.
Proof.
  destruct sub as [|id k v b l r]; [done|]. intros [= <-]. cbn. apply elem_of_app. right.
  by apply elem_of_cons; left.
Qed.

(** An identifier names one node. *)
Lemma same_node l n m :
  NoDup (map node_id l) -> n ∈ l -> m ∈ l -> node_id n = node_id m -> n = m.
Proof.
  intros Hnd Hn Hm E. apply list_elem_of_lookup in Hn as [i Hi]. apply list_elem_of_lookup in Hm as [j Hj].
  assert (i = j) as ->; [|congruence].
  eapply NoDup_lookup; [exact Hnd|..]; rewrite list_lookup_fmap; [by rewrite Hi|rewrite Hj; cbn; by rewrite E].
Qed.

Lemma deref_node l lo hi n :
  threaded lo l hi -> NoDup (map node_id (inorder l)) -> n ∈ inorder l ->
  exists sub a b, deref l (node_id n) = Some sub /\ node_of sub = Some n /\
    inorder l = a ++ inorder sub ++ b /\ threaded (last_id a lo) sub (first_id b hi).
Proof.
  intros Ht Hnd Hin. pose proof (deref_ok l lo hi (node_id n) Ht Hnd) as H.
  destruct (deref l (node_id n)) as [sub|].
  - destruct H as (m & a & b & E1 & E2 & E3 & E4). exists sub, a, b.
    assert (m = n) as ->; [|done]. apply (same_node (inorder l)); [done| |done|done].
    rewrite E3. apply elem_of_app. right. apply elem_of_app. left. by apply node_of_head.
  - exfalso. apply H. apply list_elem_of_fmap. by exists n.
Qed.

Lemma leftmost_head l : node_of (leftmost l) = head (inorder l).
Proof.
  induction l as [|id k v b l IHl r _]; [done|]. destruct l as [|i ki vi bi ll lr]; [done|].
  set (l := Child i ki vi bi ll lr) in *. change (leftmost (Child id k v b l r)) with (leftmost l).
  rewrite IHl. cbn [inorder]. assert (inorder l <> []) as Hne by (unfold l; cbn; by destruct (inorder ll)).
  clearbody l. by destruct (inorder l).
Qed.

Lemma rightmost_last l : node_of (rightmost l) = last (inorder l).
Proof.
  induction l as [|id k v b l _ r IHr]; [done|]. destruct r as [|i ki vi bi rl rr].
  { cbn. by rewrite last_snoc. }
  set (r := Child i ki vi bi rl rr) in *. change (rightmost (Child id k v b l r)) with (rightmost r).
  rewrite IHr. cbn [inorder]. assert (inorder r <> []) as Hne by (unfold r; cbn; by destruct (inorder rl)).
  clearbody r. rewrite last_app. destruct (inorder r) as [|n m]; [done|].
  rewrite (last_cons_cons (TreeNode id k v)). by destruct (last (n :: m)) eqn:E; [|apply last_None in E].
Qed.

(** Where a node stands among the others. *)
Lemma split_unique (l : list tree_node) l1 n l2 l1' l2' :
  NoDup (map node_id l) -> l = l1 ++ n :: l2 -> l = l1' ++ n :: l2' -> l1 = l1' /\ l2 = l2'.
Proof.
  intros Hnd E1 E2. apply NoDup_fmap_1 in Hnd.
  assert (length l1 = length l1') as El.
  { apply (NoDup_lookup l _ _ n Hnd); [rewrite E1|rewrite E2]; by apply list_lookup_middle. }
  rewrite E1 in E2. apply app_inj_1 in E2 as [? E2]; [|done]. by injection E2.
Qed.

Lemma follow_ok rt n :
  threaded None rt None -> NoDup (map node_id (inorder rt)) -> n ∈ inorder rt ->
  follow rt (Some (node_id n)) = Some (Some n).
Proof.
  intros Ht Hnd Hin. destruct (deref_node rt None None n Ht Hnd Hin) as (sub & a & b & E & En & _).
  cbn [follow]. rewrite E. cbn [mbind option_bind]. by rewrite En.
Qed.

Section walking.
Context (t : xtree) (Ht : threaded None (root t) None) (Hnd : NoDup (map node_id (tree_nodes t))).

Lemma node_next_ok l1 n l2 :
  tree_nodes t = l1 ++ n :: l2 -> xtree_node_next t (node_id n) = Some (head l2).
Proof.
  intros E. assert (n ∈ inorder (root t)) as Hin.
  { fold (tree_nodes t). rewrite E. apply elem_of_app. right. by apply elem_of_cons; left. }
  destruct (deref_node _ _ _ n Ht Hnd Hin) as (sub & a & b & Ed & En & Ei & Ts).
  unfold xtree_node_next. rewrite Ed. cbn [mbind option_bind].
  destruct sub as [|id k v bal l r]; [done|]. injection En as <-.
  destruct Ts as (_ & (_ & Er)). cbn [inorder] in Ei.
  destruct (split_unique (tree_nodes t) l1 (TreeNode id k v) l2 (a ++ inorder l) (inorder r ++ b) Hnd E) as [_ ->].
  { unfold tree_nodes. rewrite Ei. repeat (rewrite <- app_assoc; cbn [app]). done. }
  destruct r as [target|i ki vi bi rl rr].
  - cbn in Er. subst target. cbn [inorder app]. destruct b as [|m b]; [done|]. cbn [first_id head].
    apply follow_ok; [done|done|]. rewrite Ei. apply elem_of_app. right. apply elem_of_app. right.
    by apply elem_of_cons; left.
  - rewrite leftmost_head. cbn [inorder]. by destruct (inorder rl).
Qed.

Lemma last_id_last a d : last_id a d = match last a with Some n => Some (node_id n) | None => d end.
Proof.
  revert d. induction a as [|n a IH]; intros d; [done|]. cbn [last_id]. rewrite IH.
  destruct a as [|m a]; [done|]. rewrite last_cons_cons. by destruct (last (m :: a)) eqn:El; [|apply last_None in El].
Qed.

Lemma node_previous_ok l1 n l2 :
  tree_nodes t = l1 ++ n :: l2 -> xtree_node_previous t (node_id n) = Some (last l1).
Proof.
  intros E. assert (n ∈ inorder (root t)) as Hin.
  { fold (tree_nodes t). rewrite E. apply elem_of_app. right. by apply elem_of_cons; left. }
  destruct (deref_node _ _ _ n Ht Hnd Hin) as (sub & a & b & Ed & En & Ei & Ts).
  unfold xtree_node_previous. rewrite Ed. cbn [mbind option_bind].
  destruct sub as [|id k v bal l r]; [done|]. injection En as <-.
  destruct Ts as ((_ & El) & _). cbn [inorder] in Ei.
  destruct (split_unique (tree_nodes t) l1 (TreeNode id k v) l2 (a ++ inorder l) (inorder r ++ b) Hnd E) as [-> _].
  { unfold tree_nodes. rewrite Ei. repeat (rewrite <- app_assoc; cbn [app]). done. }
  destruct l as [target|i ki vi bi ll lr].
  - cbn in El. subst target. cbn [inorder]. rewrite app_nil_r, last_id_last.
    destruct (last a) as [m|] eqn:Ela; [|done].
    apply follow_ok; [done|done|]. rewrite Ei. apply elem_of_app. left. by apply last_Some_elem_of.
  - rewrite rightmost_last, last_app. set (l := Child i ki vi bi ll lr).
    assert (last (inorder l) <> None) as Hne.
    { intros El2. apply last_None in El2. unfold l in El2. cbn in El2. by destruct (inorder ll). }
    by destruct (last (inorder l)).
Qed.

Lemma foreach_loop_ok {S} (func : tree_node -> S -> S * bool) fuel l1 l2 s :
  tree_nodes t = l1 ++ l2 -> (length l2 <= fuel)%nat ->
  foreach_loop func fuel t (head l2) s = Some (fst (walk func l2 s)).
Proof.
  revert l1 l2 s. induction fuel as [|fuel IH]; intros l1 l2 s E Hf.
  - by destruct l2; [|cbn in Hf; lia].
  - destruct l2 as [|n l2]; [done|]. cbn [foreach_loop head walk]. unfold and_then.
    destruct (func n s) as [s' []]; [done|]. rewrite (node_next_ok l1 n l2 E). cbn [mbind option_bind].
    apply (IH (l1 ++ [n])); [by rewrite <- app_assoc|cbn in Hf; lia].
Qed.

Lemma remove_all_loop_ok kd vd fuel l1 l2 :
  tree_nodes t = l1 ++ l2 -> (length l2 <= fuel)%nat ->
  remove_all_loop kd vd fuel t (head l2) =
  Some (flat_map (fun n => notify_key kd (tnode_key n) ++ notify_value vd (tnode_value n)) l2).
Proof.
  revert l1 l2. induction fuel as [|fuel IH]; intros l1 l2 E Hf.
  - by destruct l2; [|cbn in Hf; lia].
  - destruct l2 as [|n l2]; [done|]. cbn [remove_all_loop head flat_map].
    rewrite (node_next_ok l1 n l2 E). cbn [mbind option_bind].
    rewrite (IH (l1 ++ [n])); [|by rewrite <- app_assoc|cbn in Hf; lia]. cbn [mbind option_bind].
    by rewrite <- app_assoc.
Qed.
End walking.

(** ** The operations keep the invariant *)

Section operations.
Context (key_compare : Z -> Z -> Z) {Hcmp : CompareOk key_compare}.
Context (key_destroy_func value_destroy_func : bool).

Abbreviation tree_ok := (tree_ok key_compare).
Abbreviation sorted := (sorted key_compare).
Abbreviation inserted := (inserted key_compare key_destroy_func value_destroy_func).

(** The list of the nodes after an insertion. *)
Lemma inserted_sorted fresh key value replace l l' ret notes added :
  inserted fresh key value replace l l' ret notes added -> sorted l -> sorted l'.
Proof.
  intros Hi Hs. destruct Hi as [l1 l2 -> Ha Hb new|l1 n l2 -> Ek new].
  - apply sorted_middle. split; [done|]. split.
    + eapply Forall_impl; [exact Ha|]. intros m Hm. unfold above, before in *. cbn. by apply compare_flip'.
    + exact Hb.
  - apply sorted_middle in Hs as (Hs & Fl & Fr). apply sorted_middle. split; [done|].
    unfold new. destruct replace; [|by split]. split.
    + eapply Forall_impl; [exact Fl|]. intros m Hm. unfold before in *. cbn.
      eapply (compare_chain key_compare _ (tnode_key n)); [lia| |by left]. pose proof (compare_eq_sym key_compare _ _ Ek). lia.
    + eapply Forall_impl; [exact Fr|]. intros m Hm. unfold before in *. cbn.
      eapply (compare_chain key_compare _ (tnode_key n)); [lia|lia|by right].
Qed.

Lemma inserted_ids fresh key value replace l l' ret notes added :
  inserted fresh key value replace l l' ret notes added -> fresh ∉ map node_id l ->
  NoDup (map node_id l) -> NoDup (map node_id l').
Proof.
  intros Hi Hf Hnd. destruct Hi as [l1 l2 -> _ _ new|l1 n l2 -> _ new].
  - rewrite map_app. cbn [map]. rewrite map_app in *. rewrite <- Permutation_middle. by apply NoDup_cons.
  - rewrite map_app in *. done.
Qed.

Lemma inserted_length fresh key value replace l l' ret notes added :
  inserted fresh key value replace l l' ret notes added -> zlen l' = zlen l + if added then 1 else 0.
Proof.
  intros [l1 l2 -> _ _ new|l1 n l2 -> _ new]; rewrite !zlen_app, !zlen_cons; lia.
Qed.

Lemma tree_insert_ok fresh t key value replace :
  tree_ok t -> zlen (tree_nodes t) < max_nodes -> fresh ∉ map node_id (tree_nodes t) ->
  exists t' ret notes added,
    xtree_insert_internal key_compare key_destroy_func value_destroy_func fresh t key value replace
      = Some (t', ret, notes) /\
    tree_ok t' /\ inserted fresh key value replace (tree_nodes t) (tree_nodes t') ret notes added.
Proof.
  intros [Hbal Hs Ht Hr Hnd Hn Hsz] Hmax Hf. unfold xtree_insert_internal.
  assert (forall n added, 0 <= n < max_nodes -> u32 (n + if (added : bool) then 1 else 0) = n + if added then 1 else 0) as Hu.
  { intros n []; intros; apply wrap_small; unfold max_nodes in *; lia. }
  pose proof (zlen_nonneg (tree_nodes t)). destruct (is_child (root t)) eqn:Ec.
  - pose proof (height_bound _ Hbal Hmax) as Hh.
    destruct (insert_loop_balanced key_compare key_destroy_func value_destroy_func fresh key value replace
      (root t) []) as (rt & ((ret & notes) & added) & E & Hb); [done|done|done|rewrite zlen_nil; lia|].
    cbn [fst snd] in E. rewrite E. cbn [mbind option_bind].
    destruct (insert_loop_whole key_compare key_destroy_func value_destroy_func fresh key value replace
      (root t) [] None None rt ret notes added E) as (Hc & Ht' & Hi); [done|done|done|by apply Forall_nil..|].
    cbn [left_of right_of app] in Hi. rewrite app_nil_r in Hi.
    eexists _, ret, notes, added. split; [done|]. split; [|exact Hi].
    pose proof (inserted_length _ _ _ _ _ _ _ _ _ Hi) as Hlen. specialize (Hu (zlen (tree_nodes t)) added ltac:(lia)).
    split; unfold tree_nodes in *; cbn [root tree_nnodes].
    + done.
    + by eapply inserted_sorted.
    + done.
    + by apply child_root.
    + by eapply inserted_ids.
    + rewrite Hlen, Hn. destruct added; [done|lia].
    + rewrite Hlen. destruct added; lia.
  - destruct (root t) as [target|] eqn:Er; [|done].
    assert (tree_nodes t = []) as En by (unfold tree_nodes; by rewrite Er).
    rewrite En in *. eexists _, _, _, true. split; [done|]. split.
    + split; unfold tree_nodes; cbn [root tree_nnodes].
      * cbn [balanced xtree_node_new ht]. split_and!; try done; lia.
      * cbn. constructor; [constructor|]. by apply Forall_nil.
      * by split_and!.
      * done.
      * cbn. apply NoDup_singleton.
      * rewrite Hn. exact (Hu 0 true ltac:(unfold max_nodes; lia)).
      * cbn [inorder xtree_node_new app]. rewrite zlen_cons, zlen_nil. unfold max_nodes. lia.
    + unfold tree_nodes. cbn [root]. by apply (InsertedNew _ _ _ _ _ _ _ _ [] []); [|apply Forall_nil..].
Qed.

(** What a removal does: nothing, or one node goes. *)
Definition removed (key : Z) (l : list tree_node) (l' : list tree_node) (n : option tree_node) : Prop :=
  match n with
  | None => l' = l /\ Forall (fun m => ~ matching key_compare key m) l
  | Some n => matching key_compare key n /\ exists l1 l2, l = l1 ++ n :: l2 /\ l' = l1 ++ l2
  end.

(** What the owner hears of the removal of a node. *)
Definition node_notes (n : tree_node) : list notification :=
  notify_key key_destroy_func (tnode_key n) ++ notify_value value_destroy_func (tnode_value n).

Lemma tree_remove_ok t key steal :
  tree_ok t -> zlen (tree_nodes t) < max_nodes ->
  exists t' n, xtree_remove_internal key_compare key_destroy_func value_destroy_func t key steal =
    Some (t', match n with Some n => if steal then [] else node_notes n | None => [] end,
          bool_decide (is_Some n)) /\
    tree_ok t' /\ removed key (tree_nodes t) (tree_nodes t') n.
Proof.
  intros Hok Hmax. pose proof Hok as [Hbal Hs Ht Hr Hnd Hn Hsz]. unfold xtree_remove_internal.
  destruct (is_child (root t)) eqn:Ec; cbn [negb].
  2:{ exists t, None. split; [done|]. split; [done|]. split; [done|]. unfold tree_nodes.
      destruct (root t); [by apply Forall_nil|done]. }
  pose proof (height_bound _ Hbal Hmax) as Hh.
  destruct (remove_loop_balanced key_compare key (root t) []) as (res & E & Hb); [done|done|done|rewrite zlen_nil; lia|].
  rewrite E. cbn [mbind option_bind].
  pose proof (remove_loop_whole key_compare key (root t) [] None None res E) as H.
  specialize (H ltac:(done) Ht Hs (proj2 (Forall_nil _) I) (proj2 (Forall_nil _) I)).
  destruct res as [[rt n]|].
  - destruct H as (l1 & l2 & El & Ek & [Ei Ht'] & Hr'). cbn [left_of right_of app] in El. rewrite app_nil_r in El.
    fold (tree_nodes t) in El. eexists _, (Some n). split; [done|]. split.
    + rewrite El in *. assert (zlen (l1 ++ n :: l2) = 1 + zlen (l1 ++ l2)) as Hlen by (rewrite !zlen_app, zlen_cons; lia).
      pose proof (zlen_nonneg (l1 ++ l2)).
      split; unfold tree_nodes; cbn [root tree_nnodes]; rewrite ?Ei; try done.
      * by apply sorted_middle in Hs as (Hs & _).
      * rewrite map_app in *. cbn [map] in Hnd. rewrite <- Permutation_middle in Hnd. by apply NoDup_cons in Hnd as [_ Hnd].
      * rewrite Hn, Hlen. rewrite wrap_small; unfold max_nodes in *; lia.
      * lia.
    + split; [done|]. exists l1, l2. split; [done|]. exact Ei.
  - exists t, None. split; [done|]. split; [done|]. split; [done|].
    cbn [left_of right_of app] in H. by rewrite app_nil_r in H.
Qed.

Lemma new_tree_ok : tree_ok xtree_new_full /\ tree_nodes xtree_new_full = [].
Proof. split; [|done]. split; try done; [constructor|apply NoDup_nil_2]. Qed.
End operations.

(** ** The tree as a dictionary *)

Section service.
Context (key_compare : Z -> Z -> Z) {Hcmp : CompareOk key_compare}.
Context (key_destroy_func value_destroy_func : bool).

(** The address of the next node. *)
Context (alloc : xtree -> Z) (alloc_fresh : forall t, alloc t ∉ map node_id (tree_nodes t)).

Abbreviation same_key := (tree_same_key key_compare).
Abbreviation matching := (matching key_compare).
Abbreviation sorted := (sorted key_compare).

Definition tree_serve (r : request) (t : xtree) : option (xtree * answer) :=
  match r with
  | Lookup k => Some (t, Entry (xtree_lookup_extended key_compare t k))
  | Insert k v =>
      '(t, _) ← xtree_insert key_compare key_destroy_func value_destroy_func (alloc t) t k v; Some (t, Done)
  | Replace k v =>
      '(t, _) ← xtree_replace key_compare key_destroy_func value_destroy_func (alloc t) t k v; Some (t, Done)
  | Remove k =>
      '(t, _, b) ← xtree_remove key_compare key_destroy_func value_destroy_func t k; Some (t, Removed b)
  end.

Lemma tree_matches k n : dict_matches same_key k (node_entry n) <-> matching k n.
Proof. unfold dict_matches, tree_same_key. cbn. by rewrite Z.eqb_eq. Qed.

Lemma tree_filter_entries k l :
  filter (dict_matches same_key k) (map node_entry l) = map node_entry (filter (matching k) l).
Proof.
  induction l as [|n l IH]; [done|]. cbn [map].
  destruct (decide (matching k n)) as [H|H];
    [rewrite !filter_cons_True|rewrite !filter_cons_False]; cbn [map]; rewrite ?IH; rewrite ?tree_matches; done.
Qed.

Lemma tree_remove_entries k l :
  Forall (fun n => ~ matching k n) l -> dict_remove same_key k (map node_entry l) = map node_entry l.
Proof.
  intros H. unfold dict_remove. apply filter_all, Forall_map. eapply Forall_impl; [exact H|].
  intros n Hn. by rewrite tree_matches.
Qed.

(** The nodes beside one that matches the key do not. *)
Lemma matching_alone k l1 n l2 :
  sorted (l1 ++ n :: l2) -> matching k n ->
  Forall (fun m => ~ matching k m) l1 /\ Forall (fun m => ~ matching k m) l2.
Proof.
  intros Hs Hk. apply sorted_middle in Hs as (_ & Fl & Fr). split.
  - apply (above_before key_compare k) in Fl; [|by rewrite Hk]. eapply Forall_impl; [exact Fl|].
    unfold above, TreeCorrect.matching. intros; lia.
  - apply (below_after key_compare k) in Fr; [|by rewrite Hk]. eapply Forall_impl; [exact Fr|].
    unfold below, TreeCorrect.matching. intros; lia.
Qed.

Lemma tree_dict_found k l1 n l2 :
  sorted (l1 ++ n :: l2) -> matching k n ->
  dict_find same_key k (map node_entry (l1 ++ n :: l2)) = Some (node_entry n) /\
  dict_remove same_key k (map node_entry (l1 ++ n :: l2)) = map node_entry (l1 ++ l2).
Proof.
  intros Hs Hk. destruct (matching_alone k l1 n l2 Hs Hk) as [H1 H2]. split.
  - unfold dict_find. rewrite tree_filter_entries, filter_app, filter_cons_True by done.
    by rewrite (filter_no _ l1).
  - rewrite !map_app. cbn [map]. unfold dict_remove. rewrite filter_app, filter_cons_False.
    2:{ rewrite tree_matches. by intros []. }
    f_equal; by apply tree_remove_entries.
Qed.

Lemma tree_dict_absent k l :
  Forall (fun n => ~ matching k n) l ->
  dict_find same_key k (map node_entry l) = None /\
  dict_remove same_key k (map node_entry l) = map node_entry l.
Proof.
  intros H. split; [|by apply tree_remove_entries].
  unfold dict_find. rewrite tree_filter_entries. by rewrite filter_no.
Qed.

Lemma tree_entries_ok t : tree_ok key_compare t -> dict_ok same_key (tree_entries t).
Proof.
  intros [_ Hs _ _ _ _ _] k. unfold tree_entries. rewrite tree_filter_entries, length_map.
  destruct (filter (matching k) (tree_nodes t)) as [|n l] eqn:E; [cbn; lia|].
  assert (n ∈ tree_nodes t /\ matching k n) as [Hin Hk].
  { assert (n ∈ filter (matching k) (tree_nodes t)) as H by (rewrite E; by apply elem_of_cons; left).
    by apply list_elem_of_filter in H as [? ?]. }
  apply list_elem_of_split in Hin as (l1 & l2 & El). rewrite El in *.
  destruct (matching_alone k l1 n l2 Hs Hk) as [H1 H2].
  rewrite <- E, filter_app, filter_cons_True, (filter_no _ l1), (filter_no _ l2) by done. done.
Qed.

Lemma inserted_entries fresh key value replace l l' ret notes added :
  inserted key_compare key_destroy_func value_destroy_func fresh key value replace l l' ret notes added ->
  sorted l -> map node_entry l' ≡ₚ dict_store same_key replace key value (map node_entry l).
Proof.
  intros Hi Hs. unfold dict_store. destruct Hi as [l1 l2 -> Ha Hb new|l1 n l2 -> Ek new].
  - destruct (tree_dict_absent key (l1 ++ l2)) as [-> ->].
    { apply Forall_app. split; [eapply Forall_impl; [exact Ha|]|eapply Forall_impl; [exact Hb|]];
        unfold above, below, TreeCorrect.matching; intros; lia. }
    rewrite !map_app. cbn [map]. by rewrite <- Permutation_middle.
  - destruct (tree_dict_found key l1 n l2 Hs Ek) as [-> ->].
    rewrite !map_app. cbn [map]. rewrite <- Permutation_middle. by destruct replace.
Qed.

Lemma lookup_extended_ok t k :
  tree_ok key_compare t -> xtree_lookup_extended key_compare t k = dict_find same_key k (tree_entries t).
Proof.
  intros [_ Hs _ _ _ _ _]. unfold xtree_lookup_extended, xtree_find_node, dict_find, tree_entries.
  rewrite find_node_ok by done. rewrite tree_filter_entries. fold (tree_nodes t).
  by destruct (filter (matching k) (tree_nodes t)).
Qed.

Lemma removed_entries key l l' n :
  removed key_compare key l l' n -> sorted l ->
  bool_decide (is_Some n) = bool_decide (is_Some (dict_find same_key key (map node_entry l))) /\
  map node_entry l' ≡ₚ dict_remove same_key key (map node_entry l).
Proof.
  intros Hr Hs. destruct n as [n|].
  - destruct Hr as (Hk & l1 & l2 & -> & ->). by destruct (tree_dict_found key l1 n l2 Hs Hk) as [-> ->].
  - destruct Hr as (-> & Hno). by destruct (tree_dict_absent key l Hno) as [-> ->].
Qed.

#[export, refine] Instance tree_dictionary : Dictionary xtree same_key := {
  d_contents := tree_entries;
  d_ok := tree_ok key_compare;
  d_capacity := max_nodes;
  d_serve := tree_serve
}.
Proof.
  - exact tree_entries_ok.
  - intros r t Hok Hr Hcap.
    assert (zlen (tree_nodes t) < max_nodes) as Hmax by (unfold tree_entries, zlen in *; by rewrite length_map in Hcap).
    pose proof (fun k v replace => tree_insert_ok key_compare key_destroy_func value_destroy_func
      (alloc t) t k v replace Hok Hmax (alloc_fresh t)) as Hins.
    pose proof Hok as [_ Hs _ _ _ _ _].
    destruct r as [k|k v|k v|k]; cbn [tree_serve dict_answer fst snd].
    + exists t. by rewrite lookup_extended_ok.
    + destruct (Hins k v false) as (t' & ret & notes & added & E & Hok' & Hi). exists t'.
      unfold xtree_insert, xtree_insert_node. rewrite E. split; [done|]. split; [done|].
      by eapply inserted_entries.
    + destruct (Hins k v true) as (t' & ret & notes & added & E & Hok' & Hi). exists t'.
      unfold xtree_replace, xtree_replace_node. rewrite E. split; [done|]. split; [done|].
      by eapply inserted_entries.
    + destruct (tree_remove_ok key_compare key_destroy_func value_destroy_func t k false Hok Hmax)
        as (t' & n & E & Hok' & Hrm). exists t'. unfold xtree_remove. rewrite E. cbn [mbind option_bind].
      destruct (removed_entries k _ _ n Hrm Hs) as [En HP]. unfold tree_entries. rewrite En.
      split; [done|]. by split.
Defined.
End service.

(** ** Concrete trees, for the instances of the properties *)

#[export] Instance sub_compare_ok : CompareOk Z.sub.
Proof. split; intros; lia. Qed.

(** An allocator: past the highest address in use. *)
Definition next_address (t : xtree) : Z := 1 + foldr Z.max 0 (map node_id (tree_nodes t)).

Lemma next_address_fresh t : next_address t ∉ map node_id (tree_nodes t).
Proof.
  unfold next_address. intros Hin.
  assert (forall l x, x ∈ l -> x <= foldr Z.max 0 l) as H.
  { intros l x. induction l as [|y l IH]; cbn; [by intros ?%not_elem_of_nil|].
    intros [->|Hx]%elem_of_cons; [lia|]. specialize (IH Hx). lia. }
  apply H in Hin. lia.
Qed.

Definition sample_inserts : list request :=
  map (fun k => Insert k (10 * k)) [5; 3; 8; 1; 4; 7; 9; 2; 6; 10; 11; 12].
Definition sample_tree : xtree :=
  Eval vm_compute in
    match serve_all (tree_serve Z.sub true true next_address) sample_inserts xtree_new_full with
    | Some (t, _) => t
    | None => xtree_new_full
    end.

Lemma sample_tree_ok : tree_ok Z.sub sample_tree.
Proof.
  destruct (serve_all_ok (D := tree_dictionary Z.sub true true next_address next_address_fresh)
    sample_inserts xtree_new_full []) as (t & E & Hok & _).
  - by apply new_tree_ok.
  - repeat (apply Forall_cons; split; [cbn; unfold is_pointer; lia|]). by apply Forall_nil.
  - done.
  - change (d_capacity _) with max_nodes. by vm_compute.
  - change (serve_all d_serve) with (serve_all (tree_serve Z.sub true true next_address)) in E.
    assert (fst <$> serve_all (tree_serve Z.sub true true next_address) sample_inserts xtree_new_full = Some sample_tree)
      as E' by (by vm_compute).
    rewrite E in E'. by injection E' as <-.
Qed.

(** ** The properties *)

Section properties.
Context (key_compare : Z -> Z -> Z) {Hcmp : CompareOk key_compare}.
Context (key_destroy_func value_destroy_func : bool).

Abbreviation tree_ok := (tree_ok key_compare).

(** C6: From an empty tree, with new nodes at fresh addresses, any sequence of
    lookups, insertions, replacements and removals (fewer than the nodes that
    the array of ancestors allows) is answered as the abstract dictionary
    answers it, and leaves a balanced, sorted, threaded tree of its entries. *)
Theorem tree_refines_dictionary alloc rs :
  (forall t, alloc t ∉ map node_id (tree_nodes t)) ->
  Forall request_ok rs -> zlen rs <= max_nodes ->
  exists t,
    serve_all (tree_serve key_compare key_destroy_func value_destroy_func alloc) rs xtree_new_full =
      Some (t, snd (dict_run (tree_same_key key_compare) rs [])) /\
    tree_ok t /\ tree_entries t ≡ₚ fst (dict_run (tree_same_key key_compare) rs []).
Proof.
  intros Halloc Hrs Hlen. destruct (new_tree_ok key_compare) as [Hok E].
  apply (serve_all_ok (D := tree_dictionary key_compare key_destroy_func value_destroy_func alloc Halloc)
    rs _ []); [done|done|done|].
  rewrite zlen_nil. change (d_capacity _) with max_nodes. lia.
Qed.

(** C29: Insertion into a tree keeps it balanced, sorted and threaded, and does
    one of two things to the nodes in order: a new node goes between those with
    smaller and those with greater keys, or the node of an equal key takes the
    new value, and the new key when replacing, at its place. The old value is
    destroyed, and the key that is not kept. *)
Theorem tree_insert fresh t key value replace :
  tree_ok t -> zlen (tree_nodes t) < max_nodes -> fresh ∉ map node_id (tree_nodes t) ->
  exists t' ret notes added,
    xtree_insert_internal key_compare key_destroy_func value_destroy_func fresh t key value replace =
      Some (t', ret, notes) /\
    tree_ok t' /\
    inserted key_compare key_destroy_func value_destroy_func fresh key value replace
      (tree_nodes t) (tree_nodes t') ret notes added.
Proof. by apply tree_insert_ok. Qed.

(** Removal takes the node with an equal key out, and only that one, keeps
    the tree balanced, sorted and threaded, reports whether there was one and
    destroys its key and value, or not when stealing. *)
Theorem tree_remove t key :
  tree_ok t -> zlen (tree_nodes t) < max_nodes ->
  (exists t' n, xtree_remove key_compare key_destroy_func value_destroy_func t key =
      Some (t', match n with Some n => node_notes key_destroy_func value_destroy_func n | None => [] end,
            bool_decide (is_Some n)) /\
    tree_ok t' /\ removed key_compare key (tree_nodes t) (tree_nodes t') n) /\
  (exists t' n, xtree_steal key_compare key_destroy_func value_destroy_func t key =
      Some (t', [], bool_decide (is_Some n)) /\
    tree_ok t' /\ removed key_compare key (tree_nodes t) (tree_nodes t') n).
Proof.
  intros Hok Hmax. pose proof (fun steal => tree_remove_ok key_compare key_destroy_func
    value_destroy_func t key steal Hok Hmax) as H. split.
  - destruct (H false) as (t' & n & ?). by exists t', n.
  - destruct (H true) as (t' & n & E & ?). exists t', n. split; [|done].
    unfold xtree_steal. rewrite E. by destruct n.
Qed.

(** Lookups go by the order of the keys: [lookup_node] finds the node with
    an equal key, [lower_bound] the first node whose key is not smaller,
    [upper_bound] the first node whose key is greater. *)
Theorem tree_lookup t key :
  tree_ok t ->
  xtree_lookup_node key_compare t key = head (filter (matching key_compare key) (tree_nodes t)) /\
  xtree_lookup key_compare t key =
    match dict_find (tree_same_key key_compare) key (tree_entries t) with Some (_, v) => v | None => 0 end /\
  xtree_lower_bound key_compare t key = head (filter (not_below key_compare key) (tree_nodes t)) /\
  xtree_upper_bound key_compare t key = head (filter (below key_compare key) (tree_nodes t)).
Proof.
  intros Hok. pose proof (lookup_extended_ok key_compare t key Hok) as E.
  destruct Hok as [_ Hs _ _ _ _ _]. split; [by apply find_node_ok|]. split.
  - rewrite <- E. unfold xtree_lookup, xtree_lookup_node, xtree_lookup_extended.
    by destruct (xtree_find_node key_compare t key).
  - unfold xtree_lower_bound, xtree_upper_bound. rewrite lower_bound_ok, upper_bound_ok by done.
    fold (tree_nodes t). split; by destruct (head _).
Qed.
End properties.

(** Searching with a function that agrees with the order of the nodes finds
    a node for which it returns 0, if there is one. *)
Theorem tree_search t search_func :
  monotone search_func (tree_nodes t) ->
  match xtree_search_node t search_func with
  | Some n => n ∈ tree_nodes t /\ found search_func n /\ xtree_search t search_func = tnode_value n
  | None => Forall (fun n => ~ found search_func n) (tree_nodes t) /\ xtree_search t search_func = 0
  end.
Proof.
  intros Hm. unfold xtree_search. pose proof (search_ok search_func (root t) Hm) as H.
  unfold xtree_search_node. destruct (xtree_node_search search_func (root t)); [|done].
  destruct H. by split_and!.
Qed.

(** The threads lead through the nodes in order: from [first], [next] visits
    every node once and ends with [NULL], [previous] is its inverse from [last];
    [foreach] calls back in that order until told to stop; [remove_all] destroys
    every node's key and value once, in that order. *)
Theorem tree_walk key_compare key_destroy_func value_destroy_func t :
  tree_ok key_compare t ->
  xtree_node_first t = head (tree_nodes t) /\ xtree_node_last t = last (tree_nodes t) /\
  (forall l1 n l2, tree_nodes t = l1 ++ n :: l2 ->
    xtree_node_next t (node_id n) = Some (head l2) /\
    xtree_node_previous t (node_id n) = Some (last l1)) /\
  (forall S (func : tree_node -> S -> S * bool) s fuel, (length (tree_nodes t) <= fuel)%nat ->
    xtree_foreach_node func fuel t s = Some (fst (walk func (tree_nodes t) s))) /\
  (forall fuel, (length (tree_nodes t) <= fuel)%nat ->
    xtree_remove_all key_destroy_func value_destroy_func fuel t =
      Some (XTree (Thread None) 0 (tree_ref_count t),
            flat_map (node_notes key_destroy_func value_destroy_func) (tree_nodes t))).
Proof.
  intros [_ _ Ht _ Hnd _ _].
  assert (xtree_node_first t = head (tree_nodes t)) as Efirst by apply leftmost_head.
  split; [done|]. split; [apply rightmost_last|]. split; [|split].
  - intros l1 n l2 E. split; [by eapply node_next_ok|by eapply node_previous_ok].
  - intros S func s fuel Hf. unfold xtree_foreach_node. rewrite Efirst.
    rewrite (foreach_loop_ok t Ht Hnd func fuel [] (tree_nodes t)) by done.
    unfold tree_nodes. by destruct (root t).
  - intros fuel Hf. unfold xtree_remove_all. rewrite Efirst.
    by rewrite (remove_all_loop_ok t Ht Hnd key_destroy_func value_destroy_func fuel [] (tree_nodes t)).
Qed.

(** The recursive traversals call back for the nodes in pre-order, in-order
    (the order of the keys) and post-order, until told to stop. *)
Theorem tree_traverse {S} (func : tree_node -> S -> S * bool) t s :
  xtree_traverse func t G_PRE_ORDER s = fst (walk func (preorder (root t)) s) /\
  xtree_traverse func t G_IN_ORDER s = fst (walk func (tree_nodes t) s) /\
  xtree_traverse func t G_POST_ORDER s = fst (walk func (postorder (root t)) s).
Proof.
  unfold xtree_traverse. rewrite pre_order_ok, in_order_ok, post_order_ok. unfold tree_nodes.
  by destruct (root t).
Qed.

(** C37: [height] is the number of levels of the tree, read off the balances
    along one path; a tree with fewer than 433494436 nodes has at most
    [MAX_GTREE_HEIGHT] levels, so the array of ancestors is never overrun. *)
Theorem tree_height key_compare t :
  tree_ok key_compare t ->
  xtree_height t = ht (root t) /\
  (zlen (tree_nodes t) < 433494436 -> xtree_height t <= MAX_GTREE_HEIGHT).
Proof.
  intros [Hb _ _ _ _ _ _].
  assert (xtree_height t = ht (root t)) as E.
  { unfold xtree_height. destruct (is_child (root t)) eqn:Ec; cbn [negb].
    - by rewrite height_loop_ok.
    - by destruct (root t). }
  split; [done|]. intros Hn. rewrite E. by apply height_bound.
Qed.

(** ** Instances *)

Lemma tree_refines_dictionary_witness :
  exists t,
    serve_all (tree_serve Z.sub true true next_address) [Insert 2 20; Insert 1 10; Insert 3 30; Remove 2; Lookup 3]
      xtree_new_full = Some (t, [Done; Done; Done; Removed true; Entry (Some (3, 30))]) /\
    tree_ok Z.sub t /\ tree_entries t ≡ₚ [(3, 30); (1, 10)].
Proof.
  apply (tree_refines_dictionary Z.sub true true next_address
    [Insert 2 20; Insert 1 10; Insert 3 30; Remove 2; Lookup 3] next_address_fresh).
  - repeat (apply Forall_cons; split; [cbn; unfold is_pointer; lia|]). by apply Forall_nil.
  - by vm_compute.
Defined.

Lemma tree_insert_witness :
  exists t' ret notes added,
    xtree_insert_internal Z.sub true true 100 sample_tree 5 55 false = Some (t', ret, notes) /\
    tree_ok Z.sub t' /\
    inserted Z.sub true true 100 5 55 false (tree_nodes sample_tree) (tree_nodes t') ret notes added.
Proof.
  apply (tree_insert Z.sub true true 100 sample_tree 5 55 false sample_tree_ok).
  - by vm_compute.
  - apply (bool_decide_unpack _). by vm_compute.
Defined.

Lemma tree_remove_witness :
  exists t' n, xtree_remove Z.sub true true sample_tree 5 =
      Some (t', match n with Some n => node_notes true true n | None => [] end, bool_decide (is_Some n)) /\
    tree_ok Z.sub t' /\ removed Z.sub 5 (tree_nodes sample_tree) (tree_nodes t') n.
Proof.
  apply (tree_remove Z.sub true true sample_tree 5 sample_tree_ok). by vm_compute.
Defined.

Lemma tree_lookup_witness :
  tree_ok Z.sub sample_tree /\ tnode_key <$> xtree_upper_bound Z.sub sample_tree 5 = Some 6.
Proof.
  split; [exact sample_tree_ok|].
  destruct (tree_lookup Z.sub sample_tree 5 sample_tree_ok) as (_ & _ & _ & ->). by vm_compute.
Defined.

Lemma tree_search_witness :
  match xtree_search_node sample_tree (fun k => 7 - k) with
  | Some n => n ∈ tree_nodes sample_tree /\ found (fun k => 7 - k) n /\
      xtree_search sample_tree (fun k => 7 - k) = tnode_value n
  | None => Forall (fun n => ~ found (fun k => 7 - k) n) (tree_nodes sample_tree) /\
      xtree_search sample_tree (fun k => 7 - k) = 0
  end.
Proof.
  apply (tree_search sample_tree (fun k => 7 - k)).
  intros l1 a l2 b l3 E. pose proof (ok_sorted _ _ sample_tree_ok) as Hs. rewrite E in Hs.
  apply sorted_middle in Hs as (_ & _ & Hs). apply Forall_app in Hs as [_ Hs].
  apply Forall_cons in Hs as [Hs _]. unfold before in Hs. lia.
Defined.

Lemma tree_walk_witness :
  tree_ok Z.sub sample_tree /\ tnode_key <$> xtree_node_first sample_tree = Some 1.
Proof.
  split; [exact sample_tree_ok|].
  destruct (tree_walk Z.sub true true sample_tree sample_tree_ok) as (-> & _). by vm_compute.
Defined.

Lemma tree_height_witness : xtree_height sample_tree <= MAX_GTREE_HEIGHT.
Proof.
  destruct (tree_height Z.sub sample_tree sample_tree_ok) as (_ & H). apply H. by vm_compute.
Defined.
