(* ===== verification/Utf8.v ===== *)
(** * UTF-8 strings: src/glib/gutf8.c

    A string is the memory from its start, a list of bytes; a pointer into it is
    an index. Reading outside the list is undefined behaviour, [None], and so is
    the overflow of an [int] counter. The loops run on fuel: one turn per byte.

    The conversions return the new array, the two counts and the error, as the
    out parameters of the source do; [try_malloc_n] is a parameter that tells
    whether an allocation succeeds. *)

From S2P Require Import Prelude.
Local Open Scope Z_scope.
Local Open Scope xpl_scope.

(** ** Characters *)

(** [UTF8_COMPUTE]: the length of the sequence and the mask of its first byte. *)
Definition UTF8_COMPUTE (c : Z) : option (Z * Z) :=
  if c <? 128 then Some (1, 0x7f)
  else if c & 0xe0 =? 0xc0 then Some (2, 0x1f)
  else if c & 0xf0 =? 0xe0 then Some (3, 0x0f)
  else if c & 0xf8 =? 0xf0 then Some (4, 0x07)
  else if c & 0xfc =? 0xf8 then Some (5, 0x03)
  else if c & 0xfe =? 0xfc then Some (6, 0x01)
  else None.

Definition UTF8_LENGTH (c : Z) : Z :=
  if c <? 0x80 then 1 else if c <? 0x800 then 2 else if c <? 0x10000 then 3
  else if c <? 0x200000 then 4 else if c <? 0x4000000 then 5 else 6.

(** The values that report a malformed and an incomplete sequence. *)
Definition malformed_sequence : Z := 2 ^ 32 - 1.
Definition partial_sequence : Z := 2 ^ 32 - 2.

(** [UTF8_GET]: [n] more bytes of the sequence at [p], from the [i]-th on. *)
Fixpoint UTF8_GET (n : nat) (s : list Z) (p i result : Z) : option Z :=
  match n with
  | O => Some result
  | S n =>
      b ← rd s (p + i);
      if negb (b & 0xc0 =? 0x80) then Some malformed_sequence
      else UTF8_GET n s p (i + 1) (u32 (result << 6) or (b & 0x3f))
  end.

Definition UNICODE_VALID (c : Z) : bool :=
  (c <? 0x110000) && negb (c & 0xFFFFF800 =? 0xD800).
Definition xunichar_validate (ch : Z) : bool := UNICODE_VALID ch.

Definition utf8_skip_data : list Z :=
  replicate 192 1 ++ replicate 32 2 ++ replicate 16 3 ++ replicate 8 4 ++ replicate 4 5 ++ [6; 6; 1; 1].
Definition xutf8_skip (b : Z) : Z := tbl utf8_skip_data b.

Definition xutf8_next_char (s : list Z) (p : Z) : option Z :=
  b ← rd s p; Some (p + xutf8_skip b).

Definition xutf8_get_char (s : list Z) (p : Z) : option Z :=
  c ← rd s p;
  match UTF8_COMPUTE c with
  | None => Some malformed_sequence
  | Some (len, mask) => UTF8_GET (Z.to_nat (len - 1)) s p 1 (c & mask)
  end.

(** [for (i = len - 1; i > 0; --i) outbuf[i] = (c & 0x3f) | 0x80, c >>= 6;
    outbuf[0] = c | first], the bytes after [i] being [out]. *)
Fixpoint unichar_bytes (i : nat) (first c : Z) (out : list Z) : list Z :=
  match i with
  | O => u8 (c or first) :: out
  | S i => unichar_bytes i first (c >> 6) (((c & 0x3f) or 0x80) :: out)
  end.

(** The length and the bytes of the sequence. *)
Definition xunichar_to_utf8 (c : Z) : Z * list Z :=
  let '(first, len) :=
    if c <? 0x80 then (0, 1) else if c <? 0x800 then (0xc0, 2) else if c <? 0x10000 then (0xe0, 3)
    else if c <? 0x200000 then (0xf0, 4) else if c <? 0x4000000 then (0xf8, 5) else (0xfc, 6) in
  (len, unichar_bytes (Z.to_nat (len - 1)) first c []).

(** [for (i = 1; i < max_len; i++)] when the sequence does not fit. *)
Fixpoint extended_truncated (n : nat) (s : list Z) (p i : Z) : option Z :=
  match n with
  | O => Some partial_sequence
  | S n =>
      b ← rd s (p + i);
      if negb (b & 0xc0 =? 0x80) then Some malformed_sequence else extended_truncated n s p (i + 1)
  end.

(** [for (i = 1; i < len; ++i)]; [inl] is a result returned from the loop. *)
Fixpoint extended_loop (n : nat) (s : list Z) (p i wc : Z) : option (Z + Z) :=
  match n with
  | O => Some (inr wc)
  | S n =>
      ch ← rd s (p + i);
      if negb (ch & 0xc0 =? 0x80) then
        Some (inl (if negb (ch =? 0) then malformed_sequence else partial_sequence))
      else extended_loop n s p (i + 1) (u32 (wc << 6) or (ch & 0x3f))
  end.

Definition xutf8_get_char_extended (s : list Z) (p max_len : Z) : option Z :=
  wc ← rd s p;
  if wc <? 0x80 then Some wc
  else if wc <? 0xc0 then Some malformed_sequence
  else
    let sequence (len mask min_code : Z) :=
      if (0 <=? max_len) && (max_len <? len) then
        extended_truncated (Z.to_nat (max_len - 1)) s p 1
      else
        r ← extended_loop (Z.to_nat (len - 1)) s p 1 (wc & mask);
        match r with
        | inl e => Some e
        | inr wc => Some (if wc <? min_code then malformed_sequence else wc)
        end in
    if wc <? 0xe0 then sequence 2 0x1f (1 << 7)
    else if wc <? 0xf0 then sequence 3 0x0f (1 << 11)
    else if wc <? 0xf8 then sequence 4 0x07 (1 << 16)
    else if wc <? 0xfc then sequence 5 0x03 (1 << 21)
    else if wc <? 0xfe then sequence 6 0x01 (1 << 26)
    else Some malformed_sequence.

Definition xutf8_get_char_validated (s : list Z) (p max_len : Z) : option Z :=
  if max_len =? 0 then Some partial_sequence
  else
    result ← xutf8_get_char_extended s p max_len;
    if (result =? 0) && (0 <? max_len) then Some partial_sequence
    else if negb (result & 0x80000000 =? 0) then Some result
    else if negb (UNICODE_VALID result) then Some malformed_sequence
    else Some result.

(** ** Moving in a string *)

Definition is_continuation (b : Z) : bool := b & 0xc0 =? 0x80.

(** [while (p > str)], [n] bytes after the start; [Some None] is [NULL]. *)
Fixpoint find_prev_loop (n : nat) (s : list Z) (p : Z) : option (option Z) :=
  match n with
  | O => Some None
  | S n =>
      let p := p - 1 in
      b ← rd s p;
      if negb (is_continuation b) then Some (Some p) else find_prev_loop n s p
  end.
Definition xutf8_find_prev_char (s : list Z) (str p : Z) : option (option Z) :=
  find_prev_loop (Z.to_nat (p - str)) s p.

Fixpoint find_next_loop (fuel : nat) (s : list Z) (p : Z) (end_ : option Z) : option Z :=
  match fuel with
  | O => None
  | S fuel =>
      if (match end_ with Some e => e <=? p | None => false end) then Some p
      else
        b ← rd s p;
        if is_continuation b then find_next_loop fuel s (p + 1) end_ else Some p
  end.
Definition xutf8_find_next_char (s : list Z) (p : Z) (end_ : option Z) : option (option Z) :=
  p ← find_next_loop (S (S (length s))) s (p + 1) end_;
  match end_ with
  | Some e => Some (if e <=? p then None else Some p)
  | None => Some (Some p)
  end.

Fixpoint prev_char_loop (fuel : nat) (s : list Z) (p : Z) : option Z :=
  match fuel with
  | O => None
  | S fuel =>
      let p := p - 1 in
      b ← rd s p;
      if negb (is_continuation b) then Some p else prev_char_loop fuel s p
  end.
Definition xutf8_prev_char (s : list Z) (p : Z) : option Z := prev_char_loop (S (length s)) s p.

(** The loops on the byte at [p], without and with the test [p - start < max]. *)
Fixpoint strlen_loop (fuel : nat) (s : list Z) (start p : Z) (max : option Z) (len : Z) : option (Z * Z) :=
  match fuel with
  | O => None
  | S fuel =>
      if (match max with Some m => m <=? p - start | None => false end) then Some (p, len)
      else
        b ← rd s p;
        if b =? 0 then Some (p, len)
        else strlen_loop fuel s start (p + xutf8_skip b) max (len + 1)
  end.

Definition xutf8_strlen (s : list Z) (p max : Z) : option Z :=
  if max <? 0 then
    '(_, len) ← strlen_loop (S (length s)) s p p None 0; Some len
  else if max =? 0 then Some 0
  else
    b ← rd s p;
    if b =? 0 then Some 0
    else
      let start := p in
      '(p, len) ← strlen_loop (S (length s)) s start (p + xutf8_skip b) (Some max) 0;
      Some (if p - start <=? max then len + 1 else len).

(** [while (s < pos)] *)
Fixpoint pointer_to_offset_loop (fuel : nat) (buf : list Z) (s pos offset : Z) : option Z :=
  if pos <=? s then Some offset
  else
    match fuel with
    | O => None
    | S fuel =>
        s ← xutf8_next_char buf s;
        pointer_to_offset_loop fuel buf s pos (offset + 1)
    end.
Definition xutf8_pointer_to_offset (buf : list Z) (str pos : Z) : option Z :=
  if pos <? str then
    offset ← pointer_to_offset_loop (length buf) buf pos str 0; Some (- offset)
  else pointer_to_offset_loop (length buf) buf str pos 0.

(** [while (offset--)] *)
Fixpoint forward_loop (offset : nat) (buf : list Z) (s : Z) : option Z :=
  match offset with
  | O => Some s
  | S offset => s ← xutf8_next_char buf s; forward_loop offset buf s
  end.

(** Back to the first byte of a character. *)
Fixpoint back_up (fuel : nat) (buf : list Z) (s : Z) : option Z :=
  match fuel with
  | O => None
  | S fuel => b ← rd buf s; if is_continuation b then back_up fuel buf (s - 1) else Some s
  end.

(** The "stutter stepping": [while (offset)]. *)
Fixpoint stutter_loop (fuel : nat) (buf : list Z) (s offset : Z) : option Z :=
  if offset =? 0 then Some s
  else
    match fuel with
    | O => None
    | S fuel =>
        let s1 := s in
        s ← back_up (S (length buf)) buf (s + offset);
        d ← xutf8_pointer_to_offset buf s s1;
        stutter_loop fuel buf s (offset + d)
    end.

Definition xutf8_offset_to_pointer (buf : list Z) (str offset : Z) : option Z :=
  if 0 <? offset then forward_loop (Z.to_nat offset) buf str
  else stutter_loop (S (length buf)) buf str offset.

(** [memcpy (out, start, end - start)], with the final NUL. *)
Definition xutf8_substring (buf : list Z) (start_pos end_pos : Z) : option (option (list Z)) :=
  if negb ((start_pos <=? end_pos) || (end_pos =? -1)) then Some None
  else
    start ← xutf8_offset_to_pointer buf 0 start_pos;
    end_ ← (if end_pos =? -1 then
              length ← xutf8_strlen buf start (-1);
              xutf8_offset_to_pointer buf start length
            else xutf8_offset_to_pointer buf start (end_pos - start_pos));
    out ← cells_at buf start (end_ - start);
    Some (Some (out ++ [0])).

(** [while (n && *s)] *)
Fixpoint strncpy_loop (n : nat) (buf : list Z) (s : Z) : option Z :=
  match n with
  | O => Some s
  | S n => b ← rd buf s; if b =? 0 then Some s else strncpy_loop n buf (s + xutf8_skip b)
  end.
(** The C function [strncpy]: the bytes up to a NUL, the rest filled with NULs. *)
Fixpoint strncpy (n : nat) (src : list Z) : option (list Z) :=
  match n with
  | O => Some []
  | S m =>
      match src with
      | [] => None
      | b :: src =>
          if b =? 0 then Some (replicate n 0)
          else rest ← strncpy m src; Some (b :: rest)
      end
  end.
Definition xutf8_strncpy (dest src : list Z) (n : nat) : option (list Z) :=
  s ← strncpy_loop n src 0;
  copied ← strncpy (Z.to_nat s) src;
  write_at dest 0 (copied ++ [0]).

(** ** Conversions

    An array is what the pointer returned points to; [items_read] is what the
    source stores when it is asked to, [want_read], and [items_written] is
    stored on success only. *)

Inductive convert_error := NO_MEMORY | PARTIAL_INPUT | ILLEGAL_SEQUENCE.
#[export] Instance convert_error_eq_dec : EqDecision convert_error.
Proof. solve_decision. Defined.

Record conversion := Conversion {
  result : option (list Z);
  items_read : Z;
  items_written : option Z;
  error : option convert_error;
}.

(** [goto err_out]. *)
Definition err_out (read : Z) (e : convert_error) : conversion :=
  Conversion None read None (Some e).

(** The sum of two [int]s. *)
Definition int_add (a b : Z) : option Z :=
  if (- 2 ^ 31 <=? a + b) && (a + b <? 2 ^ 31) then Some (a + b) else None.

(** The items written so far to an array of [size] items, and some more. *)
Definition put_items (size : Z) (out items : list Z) : option (list Z) :=
  if zlen out + zlen items <=? size then Some (out ++ items) else None.

(** [(len < 0 || str + len - in > 0)] *)
Definition more (len in_ : Z) : bool := (len <? 0) || (0 <? len - in_).

(** The number of UTF-16 words of a character. *)
Definition utf16_units (wc : Z) : option Z :=
  if wc <? 0xd800 then Some 1
  else if wc <? 0xe000 then None
  else if wc <? 0x10000 then Some 1
  else if wc <? 0x110000 then Some 2
  else None.

(** The first loop of the conversions from UTF-8: [inl] is an error and the
    place of it, [inr] the number of items to write. *)
Fixpoint utf8_scan (units : Z -> option Z) (want_read : bool) (fuel : nat)
    (str : list Z) (len in_ n : Z) : option (convert_error * Z + Z * Z) :=
  match fuel with
  | O => None
  | S fuel =>
      if negb (more len in_) then Some (inr (n, in_))
      else
        b ← rd str in_;
        if b =? 0 then Some (inr (n, in_))
        else
          wc ← xutf8_get_char_extended str in_ (if len <? 0 then 6 else len - in_);
          if negb (wc & 0x80000000 =? 0) then
            if wc =? partial_sequence then
              if want_read then Some (inr (n, in_)) else Some (inl (PARTIAL_INPUT, in_))
            else Some (inl (ILLEGAL_SEQUENCE, in_))
          else
            match units wc with
            | None => Some (inl (ILLEGAL_SEQUENCE, in_))
            | Some u =>
                n ← int_add n u;
                in_ ← xutf8_next_char str in_;
                utf8_scan units want_read fuel str len in_ n
            end
  end.

(** [for (i=0; i < n_chars; i++)] *)
Fixpoint ucs4_fill (n : nat) (size : Z) (str : list Z) (in_ : Z) (out : list Z) :
    option (list Z * Z) :=
  match n with
  | O => Some (out, in_)
  | S n =>
      wc ← xutf8_get_char str in_;
      out ← put_items size out [wc];
      in_ ← xutf8_next_char str in_;
      ucs4_fill n size str in_ out
  end.

(** The words of a character. *)
Definition utf16_words (wc : Z) : list Z :=
  if wc <? 0x10000 then [u16 wc]
  else [u16 (u32 (wc - 0x10000) `quot` 0x400 + 0xd800);
        u16 (u32 (wc - 0x10000) `rem` 0x400 + 0xdc00)].

(** [for (i = 0; i < n16;)] *)
Fixpoint utf16_fill (fuel : nat) (n16 size : Z) (str : list Z) (in_ : Z) (out : list Z) :
    option (list Z * Z) :=
  if n16 <=? zlen out then Some (out, in_)
  else
    match fuel with
    | O => None
    | S fuel =>
        wc ← xutf8_get_char str in_;
        out ← put_items size out (utf16_words wc);
        in_ ← xutf8_next_char str in_;
        utf16_fill fuel n16 size str in_ out
    end.

(** [for (i = 0; len < 0 || i < len ; i++)] *)
Fixpoint ucs4_scan (fuel : nat) (str : list Z) (len i result_length : Z) :
    option (convert_error * Z + Z * Z) :=
  match fuel with
  | O => None
  | S fuel =>
      if negb ((len <? 0) || (i <? len)) then Some (inr (result_length, i))
      else
        c ← rd str i;
        if c =? 0 then Some (inr (result_length, i))
        else if 0x80000000 <=? c then Some (inl (ILLEGAL_SEQUENCE, i))
        else
          result_length ← int_add result_length (UTF8_LENGTH c);
          i ← int_add i 1;
          ucs4_scan fuel str len i result_length
  end.

(** [while (p < result + result_length)] *)
Fixpoint ucs4_to_utf8_fill (fuel : nat) (result_length size : Z) (str : list Z) (i : Z)
    (out : list Z) : option (list Z * Z) :=
  if result_length <=? zlen out then Some (out, i)
  else
    match fuel with
    | O => None
    | S fuel =>
        c ← rd str i;
        i ← int_add i 1;
        out ← put_items size out (xunichar_to_utf8 c).2;
        ucs4_to_utf8_fill fuel result_length size str i out
    end.

(** [while ((len < 0 || i < len) && str[i])] *)
Fixpoint ucs4_utf16_scan (fuel : nat) (str : list Z) (len i n16 : Z) :
    option (convert_error * Z + Z * Z) :=
  match fuel with
  | O => None
  | S fuel =>
      if negb ((len <? 0) || (i <? len)) then Some (inr (n16, i))
      else
        wc ← rd str i;
        if wc =? 0 then Some (inr (n16, i))
        else
          match utf16_units wc with
          | None => Some (inl (ILLEGAL_SEQUENCE, i))
          | Some u =>
              n16 ← int_add n16 u;
              i ← int_add i 1;
              ucs4_utf16_scan fuel str len i n16
          end
  end.

(** [for (i = 0, j = 0; j < n16; i++)] *)
Fixpoint ucs4_to_utf16_fill (fuel : nat) (n16 size : Z) (str : list Z) (i : Z) (out : list Z) :
    option (list Z * Z) :=
  if n16 <=? zlen out then Some (out, i)
  else
    match fuel with
    | O => None
    | S fuel =>
        wc ← rd str i;
        out ← put_items size out (utf16_words wc);
        i ← int_add i 1;
        ucs4_to_utf16_fill fuel n16 size str i out
    end.

Definition SURROGATE_VALUE (h l : Z) : Z :=
  u32 (u32 (h - 0xd800) * 0x400 + l - 0xdc00 + 0x10000).
Definition is_low (c : Z) : bool := (0xdc00 <=? c) && (c <? 0xe000).
Definition is_high (c : Z) : bool := (0xd800 <=? c) && (c <? 0xdc00).

(** The first loop of the conversions from UTF-16, which adds the [size_of]
    each character with [add]: the count, the end and the pending surrogate. *)
Fixpoint utf16_scan (add : Z -> Z -> option Z) (size_of : Z -> Z) (fuel : nat)
    (str : list Z) (len in_ n high : Z) : option (convert_error * Z + Z * Z * Z) :=
  match fuel with
  | O => None
  | S fuel =>
      if negb ((len <? 0) || (in_ <? len)) then Some (inr (n, in_, high))
      else
        c ← rd str in_;
        if c =? 0 then Some (inr (n, in_, high))
        else if is_low c then
          if negb (high =? 0) then
            n ← add n (size_of (SURROGATE_VALUE high c));
            utf16_scan add size_of fuel str len (in_ + 1) n 0
          else Some (inl (ILLEGAL_SEQUENCE, in_))
        else if negb (high =? 0) then Some (inl (ILLEGAL_SEQUENCE, in_))
        else if is_high c then utf16_scan add size_of fuel str len (in_ + 1) n c
        else
          n ← add n (size_of c);
          utf16_scan add size_of fuel str len (in_ + 1) n high
  end.

(** The second one, [while (out < result + n_bytes)], which writes each
    character with [items]; [total] items are to be written. *)
Fixpoint utf16_fill_from (items : Z -> list Z) (fuel : nat) (total size : Z)
    (str : list Z) (in_ high : Z) (out : list Z) : option (list Z * Z) :=
  if total <=? zlen out then Some (out, in_)
  else
    match fuel with
    | O => None
    | S fuel =>
        c ← rd str in_;
        if is_low c then
          out ← put_items size out (items (SURROGATE_VALUE high c));
          utf16_fill_from items fuel total size str (in_ + 1) 0 out
        else if is_high c then utf16_fill_from items fuel total size str (in_ + 1) c out
        else
          out ← put_items size out (items c);
          utf16_fill_from items fuel total size str (in_ + 1) high out
    end.

Section conversions.
(** Whether [g_try_malloc_n] returns memory for the blocks asked for. *)
Variable g_try_malloc_n : Z -> Z -> bool.

(** [try_malloc_n] and the [goto err_out] of its callers. *)
Definition try_malloc_n (n_blocks n_block_bytes read : Z) (k : option conversion) :
    option conversion :=
  if g_try_malloc_n (u64 n_blocks) n_block_bytes then k else Some (err_out read NO_MEMORY).

(** The final zero, [items_written] and [items_read]. *)
Definition finish (size : Z) (out : list Z) (read written : Z) : option conversion :=
  out ← put_items size out [0];
  Some (Conversion (Some out) read (Some written) None).

Definition xutf8_to_ucs4 (str : list Z) (len : Z) (want_read : bool) : option conversion :=
  r ← utf8_scan (fun _ => Some 1) want_read (S (length str)) str len 0 0;
  match r with
  | inl (e, in_) => Some (err_out in_ e)
  | inr (n_chars, in_) =>
      size ← int_add n_chars 1;
      try_malloc_n size 4 in_ (
        '(out, in_) ← ucs4_fill (Z.to_nat n_chars) size str 0 [];
        finish size out in_ n_chars)
  end.

Definition xutf8_to_utf16 (str : list Z) (len : Z) (want_read : bool) : option conversion :=
  r ← utf8_scan utf16_units want_read (S (length str)) str len 0 0;
  match r with
  | inl (e, in_) => Some (err_out in_ e)
  | inr (n16, in_) =>
      size ← int_add n16 1;
      try_malloc_n size 2 in_ (
        '(out, in_) ← utf16_fill (length str) n16 size str 0 [];
        finish size out in_ n16)
  end.

Definition g_ucs4_to_utf8 (str : list Z) (len : Z) : option conversion :=
  r ← ucs4_scan (S (length str)) str len 0 0;
  match r with
  | inl (e, i) => Some (err_out i e)
  | inr (result_length, i) =>
      size ← int_add result_length 1;
      try_malloc_n size 1 i (
        '(out, i) ← ucs4_to_utf8_fill (length str) result_length size str 0 [];
        finish size out i (zlen out))
  end.

Definition g_ucs4_to_utf16 (str : list Z) (len : Z) : option conversion :=
  r ← ucs4_utf16_scan (S (length str)) str len 0 0;
  match r with
  | inl (e, i) => Some (err_out i e)
  | inr (n16, i) =>
      size ← int_add n16 1;
      try_malloc_n size 2 i (
        '(out, i) ← ucs4_to_utf16_fill (length str) n16 size str 0 [];
        finish size out i n16)
  end.

Definition xutf16_to_utf8 (str : list Z) (len : Z) (want_read : bool) : option conversion :=
  r ← utf16_scan int_add UTF8_LENGTH (S (length str)) str len 0 0 0;
  match r with
  | inl (e, in_) => Some (err_out in_ e)
  | inr (n_bytes, in_, high_surrogate) =>
      if negb (high_surrogate =? 0) && negb want_read then Some (err_out in_ PARTIAL_INPUT)
      else
        size ← int_add n_bytes 1;
        try_malloc_n size 1 in_ (
          '(out, in_) ← utf16_fill_from (fun wc => (xunichar_to_utf8 wc).2)
                          (length str) n_bytes size str 0 0 [];
          finish size out in_ (zlen out))
  end.

(** [n_bytes] is a multiple of 4; [n_bytes += sizeof (xunichar_t)] is computed
    without a sign and converted back. *)
Definition xutf16_to_ucs4 (str : list Z) (len : Z) (want_read : bool) : option conversion :=
  r ← utf16_scan (fun n k => Some (i32 (n + k))) (fun _ => 4) (S (length str)) str len 0 0 0;
  match r with
  | inl (e, in_) => Some (err_out in_ e)
  | inr (n_bytes, in_, high_surrogate) =>
      if negb (high_surrogate =? 0) && negb want_read then Some (err_out in_ PARTIAL_INPUT)
      else
        size ← int_add n_bytes 4;
        try_malloc_n size 1 in_ (
          '(out, in_) ← utf16_fill_from (fun wc => [wc])
                          (length str) (n_bytes / 4) (size / 4) str 0 0 [];
          finish (size / 4) out in_ (zlen out))
  end.

End conversions.

(** *** The fast conversion, for valid strings *)

(** [CONT_BYTE_FAST]: the bits of the byte, and the next place. *)
Definition CONT_BYTE_FAST (s : list Z) (p : Z) : option (Z * Z) :=
  b ← rd s p; Some (b & 0x3f, p + 1).

(** [while ((wc & mask) != 0)]: [mask] is shifted out of its 32 bits in three turns. *)
Fixpoint fast_long (fuel : nat) (s : list Z) (p wc mask : Z) : option (Z * Z) :=
  if wc & mask =? 0 then Some (wc & u32 (mask - 1), p)
  else
    match fuel with
    | O => None
    | S fuel =>
        '(b, p) ← CONT_BYTE_FAST s p;
        fast_long fuel s p (u32 (wc << 6) or b) (u32 (mask << 5))
    end.

(** A character and the place after it. *)
Definition fast_char (s : list Z) (p : Z) : option (Z * Z) :=
  first ← rd s p;
  let p := p + 1 in
  if first <? 0xc0 then Some (first, p)
  else
    '(c1, p) ← CONT_BYTE_FAST s p;
    if first <? 0xe0 then Some (((first & 0x1f) << 6) or c1, p)
    else
      '(c2, p) ← CONT_BYTE_FAST s p;
      if first <? 0xf0 then Some (((first & 0x0f) << 12) or (c1 << 6) or c2, p)
      else
        '(c3, p) ← CONT_BYTE_FAST s p;
        let wc := ((first & 0x07) << 18) or (c1 << 12) or (c2 << 6) or c3 in
        if 0xf8 <=? first then fast_long 3 s p wc (1 << 20) else Some (wc, p).

(** The loop on the byte at [p], [p < str + len] if there is a bound. *)
Fixpoint fast_count (fuel : nat) (s : list Z) (len p n_chars : Z) : option Z :=
  match fuel with
  | O => None
  | S fuel =>
      if negb ((len <? 0) || (p <? len)) then Some n_chars
      else
        b ← rd s p;
        if b =? 0 then Some n_chars
        else n_chars ← int_add n_chars 1; fast_count fuel s len (p + xutf8_skip b) n_chars
  end.

Fixpoint fast_fill (n : nat) (s : list Z) (p : Z) : option (list Z) :=
  match n with
  | O => Some []
  | S n => '(wc, p) ← fast_char s p; rest ← fast_fill n s p; Some (wc :: rest)
  end.

(** The array, with its final zero, and [items_written]. *)
Definition xutf8_to_ucs4_fast (str : list Z) (len : Z) : option (list Z * Z) :=
  n_chars ← fast_count (S (length str)) str len 0 0;
  _ ← int_add n_chars 1;
  out ← fast_fill (Z.to_nat n_chars) str 0;
  Some (out ++ [0], n_chars).

(** ** Validation *)

(** [VALIDATE_BYTE]: [false] is [goto error]. *)
Definition VALIDATE_BYTE (s : list Z) (p mask expect : Z) : option bool :=
  b ← rd s p; Some (b & mask =? expect).

(** The second byte of a sequence of three, which excludes overlong forms and
    surrogates. *)
Definition validate_second3 (s : list Z) (first p : Z) : option bool :=
  if first & 0x0f =? 0 then VALIDATE_BYTE s p 0xe0 0xa0
  else if first & 0x0f =? 0x0d then VALIDATE_BYTE s p 0xe0 0x80
  else VALIDATE_BYTE s p 0xc0 0x80.

(** That of a sequence of four: neither overlong nor above U+10FFFF. *)
Definition validate_second4 (s : list Z) (first p : Z) : option bool :=
  if first & 0x07 =? 0 then
    ok ← VALIDATE_BYTE s p 0xc0 0x80;
    if (ok : bool) then b ← rd s p; Some (negb (b & 0x30 =? 0)) else Some false
  else if first & 0x07 =? 4 then VALIDATE_BYTE s p 0xf0 0x80
  else VALIDATE_BYTE s p 0xc0 0x80.

(** The sequence that starts at [p] with a byte of 128 or more: the place of
    its last byte, [Some None] for [goto error]. [room n] tells whether [n]
    bytes are left. *)
Definition validate_sequence (s : list Z) (room : Z -> bool) (p : Z) : option (option Z) :=
  first ← rd s p;
  let last_byte (p : Z) : option (option Z) :=
    ok ← VALIDATE_BYTE s p 0xc0 0x80; Some (if (ok : bool) then Some p else None) in
  if first <? 0xe0 then
    if negb (room 2) then Some None
    else if first <? 0xc2 then Some None
    else last_byte (p + 1)
  else if first <? 0xf0 then
    if negb (room 3) then Some None
    else
      ok ← validate_second3 s first (p + 1);
      if (ok : bool) then last_byte (p + 2) else Some None
  else if first <? 0xf5 then
    if negb (room 4) then Some None
    else
      ok ← validate_second4 s first (p + 1);
      if (ok : bool) then
        ok ← VALIDATE_BYTE s (p + 2) 0xc0 0x80;
        if (ok : bool) then last_byte (p + 3) else Some None
      else Some None
  else Some None.

(** The loop on the byte at [p], [(p - str) < max_len] if there is a bound; the two
    functions are the same text less the tests of [max_len]. *)
Fixpoint validate_loop (fuel : nat) (s : list Z) (max_len : option Z) (str p : Z) : option Z :=
  match fuel with
  | O => None
  | S fuel =>
      if (match max_len with Some m => m <=? p - str | None => false end) then Some p
      else
        b ← rd s p;
        if b =? 0 then Some p
        else if b <? 128 then validate_loop fuel s max_len str (p + 1)
        else
          let room n := match max_len with Some m => negb (m - (p - str) <? n) | None => true end in
          r ← validate_sequence s room p;
          match r with
          | None => Some p
          | Some q => validate_loop fuel s max_len str (q + 1)
          end
  end.

Definition fast_validate (s : list Z) (str : Z) : option Z :=
  validate_loop (S (length s)) s None str str.
(** [xassert (max_len >= 0)] *)
Definition fast_validate_len (s : list Z) (str max_len : Z) : option Z :=
  if max_len <? 0 then None else validate_loop (S (length s)) s (Some max_len) str str.

(** The answer and [*end]. *)
Definition xutf8_validate_len (s : list Z) (str max_len : Z) : option (bool * Z) :=
  p ← fast_validate_len s str max_len;
  Some (p =? str + max_len, p).
Definition xutf8_validate (s : list Z) (str max_len : Z) : option (bool * Z) :=
  if 0 <=? max_len then xutf8_validate_len s str max_len
  else
    p ← fast_validate s str;
    b ← rd s p;
    Some (b =? 0, p).

(** ** Reversal and repair *)

(** [strlen (str)]. *)
Definition c_strlen (s : list Z) : option Z :=
  let n := length (cstr s) in if (n <? length s)%nat then Some (Z.of_nat n) else None.

(** [while (r > result)], the bytes from [r] on being [out]; [xassert] that a
    character does not start before [result]. *)
Fixpoint strreverse_loop (fuel : nat) (s : list Z) (p r : Z) (out : list Z) : option (list Z) :=
  if r <=? 0 then Some out
  else
    match fuel with
    | O => None
    | S fuel =>
        b ← rd s p;
        let skip := xutf8_skip b in
        if r - skip <? 0 then None
        else
          bytes ← cells_at s p skip;
          strreverse_loop fuel s (p + skip) (r - skip) (bytes ++ out)
    end.
Definition xutf8_strreverse (str : list Z) (len : Z) : option (list Z) :=
  len ← (if len <? 0 then c_strlen str else Some len);
  strreverse_loop (length str) str 0 len [0].

(** gstrfuncs.c *)
Definition xstrndup (str : list Z) (n : Z) : option (list Z) :=
  copied ← strncpy (Z.to_nat n) str; Some (copied ++ [0]).

(** U+FFFD REPLACEMENT CHARACTER *)
Definition replacement : list Z := [0xef; 0xbf; 0xbd].

(** [while (remaininxbytes != 0)]; the [xstring_t] is the list of its bytes. *)
Fixpoint make_valid_loop (fuel : nat) (str : list Z) (string : option (list Z))
    (remainder remaining : Z) : option (option (list Z) * Z * Z) :=
  if remaining =? 0 then Some (string, remainder, remaining)
  else
    match fuel with
    | O => None
    | S fuel =>
        '(valid, invalid) ← xutf8_validate str remainder remaining;
        if (valid : bool) then Some (string, remainder, remaining)
        else
          let valid_bytes := invalid - remainder in
          bytes ← cells_at str remainder valid_bytes;
          make_valid_loop fuel str (Some (default [] string ++ bytes ++ replacement))
            (invalid + 1) (remaining - (valid_bytes + 1))
    end.

Definition xutf8_make_valid (str : list Z) (len : Z) : option (list Z) :=
  len ← (if len <? 0 then c_strlen str else Some len);
  '(string, remainder, remaining) ← make_valid_loop (length str) str None 0 len;
  match string with
  | None => xstrndup str len
  | Some string =>
      bytes ← cells_at str remainder remaining;
      let string := string ++ bytes ++ [0] ++ [0] in
      '(valid, _) ← xutf8_validate string 0 (-1);
      if (valid : bool) then Some string else None
  end.
