(* ===== verification/Utf8Codec.v ===== *)
(** * The UTF-8 codec

    The encoding of a character in closed form: a first byte and the base-64
    digits of the rest; and what the functions that read one character do on a
    string where an encoding stands, or does not. *)

From S2P Require Import Prelude.
From S2P Require Import Utf8.
Local Open Scope Z_scope.
Local Open Scope xpl_scope.

(** ** Bytes *)

(** A decidable property of all the bytes of a range. *)
Lemma byte_range (P : Z -> Prop) `{!forall b, Decision (P b)} lo n :
  forallb (fun b => bool_decide (P b)) (seqZ lo n) = true -> forall b, lo <= b < lo + n -> P b.
Proof.
  intros Hall b Hb. eapply bool_decide_eq_true_1.
  exact (range_check (fun b => bool_decide (P b)) lo n b Hall Hb).
Qed.

(** Continuation bytes. *)
Definition cont (b : Z) : Prop := 0x80 <= b < 0xc0.
#[export] Instance cont_dec b : Decision (cont b).
Proof. unfold cont. apply _. Defined.

Lemma cont_test b : is_byte b -> (b & 0xc0 =? 0x80) = bool_decide (cont b).
Proof.
  intros Hb. refine (byte_range (fun b => (b & 0xc0 =? 0x80) = bool_decide (cont b)) 0 256 _ b Hb).
  by vm_compute.
Qed.

Lemma cont_bits b : cont b -> b & 0x3f = b - 0x80.
Proof. apply (byte_range (fun b => b & 0x3f = b - 0x80) 0x80 0x40). by vm_compute. Qed.

Lemma cont_byte b : cont b -> is_byte b.
Proof. unfold cont, is_byte. lia. Qed.

(** ** What stands at a place of a string *)

Fixpoint reads (s : list Z) (p : Z) (l : list Z) : Prop :=
  match l with
  | [] => True
  | b :: l => rd s p = Some b /\ reads s (p + 1) l
  end.

Lemma reads_app s p l1 l2 : reads s p (l1 ++ l2) <-> reads s p l1 /\ reads s (p + zlen l1) l2.
Proof.
  revert p. induction l1 as [|b l1 IH]; intros p; cbn [app reads].
  - rewrite zlen_nil, Z.add_0_r. tauto.
  - rewrite IH, zlen_cons, Z.add_assoc. tauto.
Qed.

Lemma reads_0 s l rest : s = l ++ rest -> reads s 0 l.
Proof.
  intros ->. enough (forall pre, reads (pre ++ l ++ rest) (zlen pre) l) as H by exact (H []).
  induction l as [|b l IH]; intros pre; cbn [reads]; [done|]. split.
  - rewrite rd_ge_0 by apply zlen_nonneg. unfold zlen. rewrite Nat2Z.id. cbn [app].
    by rewrite list_lookup_middle.
  - specialize (IH (pre ++ [b])). rewrite zlen_app, <- app_assoc in IH. exact IH.
Qed.

Lemma reads_lookup s p l i b : reads s p l -> l !! i = Some b -> rd s (p + Z.of_nat i) = Some b.
Proof.
  revert p i. induction l as [|c l IH]; intros p [|i] Hr Hi; try discriminate Hi; destruct Hr as [H1 H2].
  - injection Hi as ->. by rewrite Z.add_0_r.
  - rewrite <- (IH (p + 1) i H2 Hi). f_equal. lia.
Qed.

Lemma reads_prefix s p l1 l2 : reads s p l1 -> reads s p l2 -> (length l1 <= length l2)%nat -> l1 `prefix_of` l2.
Proof.
  revert p l2. induction l1 as [|b l1 IH]; intros p [|c l2] H1 H2 Hn; cbn in *; try lia.
  - apply prefix_nil.
  - apply prefix_nil.
  - destruct H1 as [E H1], H2 as [E' H2]. rewrite E in E'. injection E' as <-.
    apply prefix_cons. by apply (IH (p + 1)); [..|lia].
Qed.
Lemma reads_same s p l1 l2 : reads s p l1 -> reads s p l2 -> length l1 = length l2 -> l1 = l2.
Proof.
  intros H1 H2 E. destruct (reads_prefix s p l1 l2 H1 H2 ltac:(lia)) as [k ->].
  rewrite length_app in E. destruct k; [by rewrite app_nil_r|cbn in E; lia].
Qed.

Lemma rd_range {A} (s : list A) p b : rd s p = Some b -> 0 <= p < zlen s.
Proof.
  unfold rd. destruct (Z.ltb_spec p 0); [done|]. intros Hp%lookup_lt_Some. unfold zlen. lia.
Qed.
Lemma reads_bounds s p l : reads s p l -> l <> [] -> 0 <= p /\ p + zlen l <= zlen s.
Proof.
  revert p. induction l as [|b l IH]; intros p H Hl; [done|]. destruct H as [H%rd_range H'].
  rewrite zlen_cons. destruct l as [|c l]; [change (zlen []) with 0; lia|].
  specialize (IH (p + 1) H' ltac:(done)). lia.
Qed.
Lemma reads_block s p l : 0 <= p <= zlen s -> reads s p l -> cells_at s p (zlen l) = Some l.
Proof.
  intros Hp H. destruct l as [|b l].
  { rewrite zlen_nil. unfold cells_at. zcases; try lia. reflexivity. }
  pose proof (reads_bounds _ _ _ H ltac:(done)) as [H0 Hn]. unfold cells_at.
  pose proof (zlen_nonneg (b :: l)). zcases; try lia. cbn [orb]. f_equal.
  apply (list_eq _ _). intros i.
  destruct (decide (i < length (b :: l))%nat) as [Hi|Hi].
  - destruct (lookup_lt_is_Some_2 (b :: l) i Hi) as [x Hx].
    pose proof (reads_lookup _ _ _ _ _ H Hx) as R.
    unfold rd in R. destruct (Z.ltb_spec (p + Z.of_nat i) 0); [lia|].
    rewrite Hx, lookup_take_lt, lookup_drop by (unfold zlen; lia).
    rewrite <- R. f_equal. lia.
  - rewrite (lookup_ge_None_2 (b :: l)) by lia. apply lookup_ge_None_2.
    rewrite length_take. unfold zlen. lia.
Qed.

(** ** The digits of a character *)

(** The continuation bytes of the last [6 * n] bits. *)
Fixpoint digits (n : nat) (c : Z) : list Z :=
  match n with
  | O => []
  | S n => 0x80 + (c / 64 ^ Z.of_nat n) mod 64 :: digits n c
  end.

Definition decode (wc : Z) (ds : list Z) : Z := fold_left (fun a b => a * 64 + (b - 0x80)) ds wc.

Lemma length_digits n c : length (digits n c) = n.
Proof. induction n as [|n IH]; cbn; [done|by rewrite IH]. Qed.

Lemma digits_cont n c : Forall cont (digits n c).
Proof.
  induction n as [|n IH]; cbn [digits]; [by apply Forall_nil|]. apply Forall_cons. split; [|done].
  unfold cont. pose proof (Z.mod_pos_bound (c / 64 ^ Z.of_nat n) 64). lia.
Qed.

Lemma pow64 n : 0 < 64 ^ Z.of_nat n.
Proof. apply Z.pow_pos_nonneg; lia. Qed.
Lemma pow64_S n : 64 ^ Z.of_nat (S n) = 64 * 64 ^ Z.of_nat n.
Proof. rewrite Nat2Z.inj_succ, Z.pow_succ_r by lia. ring. Qed.

Lemma digits_snoc n c : digits (S n) c = digits n (c / 64) ++ [0x80 + c mod 64].
Proof.
  induction n as [|n IH]; [cbn; by rewrite Z.div_1_r|].
  remember (S n) as m. cbn [digits]. rewrite IH, Heqm. cbn [digits app].
  rewrite pow64_S, Z.div_div by (pose proof (pow64 n); lia). done.
Qed.

Lemma digits_ext n c d : c mod 64 ^ Z.of_nat n = d mod 64 ^ Z.of_nat n -> digits n c = digits n d.
Proof.
  revert c d. induction n as [|n IH]; intros c d H; [done|]. cbn [digits].
  pose proof (pow64 n). rewrite pow64_S in H.
  rewrite !(Z.mul_comm 64), !Z.rem_mul_r in H by lia.
  pose proof (Z.mod_pos_bound c (64 ^ Z.of_nat n) ltac:(lia)).
  pose proof (Z.mod_pos_bound d (64 ^ Z.of_nat n) ltac:(lia)).
  set (a := (c / 64 ^ Z.of_nat n) mod 64) in *. set (b := (d / 64 ^ Z.of_nat n) mod 64) in *.
  set (w := 64 ^ Z.of_nat n) in *.
  assert (a = b /\ c mod w = d mod w) as [E1 E2].
  { assert (a = b) as E by nia. split; [done|]. subst a b. nia. }
  rewrite E1. f_equal. by apply IH.
Qed.

Lemma decode_digits n wc c : decode wc (digits n c) = wc * 64 ^ Z.of_nat n + c mod 64 ^ Z.of_nat n.
Proof.
  revert wc. induction n as [|n IH]; intros wc; cbn [digits decode fold_left].
  { cbn. rewrite Z.mod_1_r. lia. }
  fold (decode (wc * 64 + (0x80 + (c / 64 ^ Z.of_nat n) mod 64 - 0x80)) (digits n c)).
  pose proof (pow64 n). rewrite IH, pow64_S, (Z.mul_comm 64), Z.rem_mul_r by lia. ring.
Qed.

Lemma decode_bounds wc ds :
  Forall cont ds ->
  wc * 64 ^ Z.of_nat (length ds) <= decode wc ds < (wc + 1) * 64 ^ Z.of_nat (length ds).
Proof.
  intros H. revert wc. induction H as [|b ds Hb _ IH]; intros wc; [cbn; lia|].
  cbn [length]. rewrite pow64_S. pose proof (pow64 (length ds)).
  change (decode wc (b :: ds)) with (decode (wc * 64 + (b - 0x80)) ds).
  specialize (IH (wc * 64 + (b - 0x80))). unfold cont in Hb. nia.
Qed.

Lemma digits_decode wc ds : Forall cont ds -> digits (length ds) (decode wc ds) = ds.
Proof.
  intros H. revert wc. induction H as [|b ds Hb Hds IH]; intros wc; [done|].
  cbn [length digits]. change (decode wc (b :: ds)) with (decode (wc * 64 + (b - 0x80)) ds).
  rewrite IH. f_equal.
  pose proof (decode_bounds (wc * 64 + (b - 0x80)) ds Hds) as B.
  pose proof (pow64 (length ds)).
  replace (decode (wc * 64 + (b - 128)) ds / 64 ^ Z.of_nat (length ds)) with (wc * 64 + (b - 0x80)).
  - unfold cont in Hb. rewrite (Z.add_comm (wc * 64)), Z_mod_plus_full, Z.mod_small by lia. lia.
  - apply Z.div_unique_pos with (decode (wc * 64 + (b - 0x80)) ds
      - (wc * 64 + (b - 0x80)) * 64 ^ Z.of_nat (length ds)); lia.
Qed.

(** ** Encodings *)

Definition enc (c : Z) : list Z := (xunichar_to_utf8 c).2.

(** The number of continuation bytes after a first byte, the marker bits of
    the first byte, and the least character the length is for. *)
Definition lead_class (b : Z) : option (nat * Z * Z) :=
  if b <? 0x80 then Some (0%nat, 0, 0)
  else if b <? 0xc0 then None
  else if b <? 0xe0 then Some (1%nat, 0xc0, 0x80)
  else if b <? 0xf0 then Some (2%nat, 0xe0, 0x800)
  else if b <? 0xf8 then Some (3%nat, 0xf0, 0x10000)
  else if b <? 0xfc then Some (4%nat, 0xf8, 0x200000)
  else if b <? 0xfe then Some (5%nat, 0xfc, 0x4000000)
  else None.

(** Those of a character. *)
Definition code_class (c : Z) : nat * Z :=
  if c <? 0x80 then (0%nat, 0) else if c <? 0x800 then (1%nat, 0xc0)
  else if c <? 0x10000 then (2%nat, 0xe0) else if c <? 0x200000 then (3%nat, 0xf0)
  else if c <? 0x4000000 then (4%nat, 0xf8) else (5%nat, 0xfc).

Lemma lor_field x k m : 0 <= k -> 0 <= x < 2 ^ k -> x or (m * 2 ^ k) = m * 2 ^ k + x.
Proof. intros. rewrite Z.lor_comm. by apply lor_mul_add. Qed.

Lemma unichar_bytes_digits n first c out :
  unichar_bytes n first c out = u8 ((c / 64 ^ Z.of_nat n) or first) :: digits n c ++ out.
Proof.
  revert c out. induction n as [|n IH]; intros c out; cbn [unichar_bytes].
  { cbn [digits app]. by rewrite Z.div_1_r. }
  rewrite IH, digits_snoc, <- app_assoc. pose proof (pow64 n).
  rewrite Z.shiftr_div_pow2 by lia. change (2 ^ 6) with 64.
  rewrite Z.div_div, <- pow64_S by lia. f_equal. f_equal. cbn [app]. f_equal.
  change 0x3f with (2 ^ 6 - 1). rewrite land_low by lia. change 0x80 with (2 * 2 ^ 6).
  rewrite lor_field; [done|lia|]. apply Z.mod_pos_bound. lia.
Qed.

(** One case per length. *)
Ltac code_cases c :=
  unfold code_class;
  destruct (Z.ltb_spec c 0x80); [|destruct (Z.ltb_spec c 0x800); [|
    destruct (Z.ltb_spec c 0x10000); [|destruct (Z.ltb_spec c 0x200000); [|
      destruct (Z.ltb_spec c 0x4000000)]]]].

Lemma to_utf8_eq c :
  0 <= c < 2 ^ 31 ->
  xunichar_to_utf8 c =
  let (n, base) := code_class c in
  (1 + Z.of_nat n, base + c / 64 ^ Z.of_nat n :: digits n c).
Proof.
  intros Hc. unfold xunichar_to_utf8. code_cases c.
  all: cbn beta iota zeta; f_equal; rewrite unichar_bytes_digits, app_nil_r.
  all: match goal with |- context [Z.to_nat ?k] => let v := eval vm_compute in (Z.to_nat k) in
    change (Z.to_nat k) with v end.
  all: f_equal.
  all: match goal with |- context [64 ^ Z.of_nat ?k] => let v := eval vm_compute in (64 ^ Z.of_nat k) in
    change (64 ^ Z.of_nat k) with v end.
  - rewrite Z.lor_0_r, Z.div_1_r. apply Z.mod_small. lia.
  - change 0xc0 with (6 * 2 ^ 5). rewrite lor_field by zify_div. apply Z.mod_small. zify_div.
  - change 0xe0 with (14 * 2 ^ 4). rewrite lor_field by zify_div. apply Z.mod_small. zify_div.
  - change 0xf0 with (30 * 2 ^ 3). rewrite lor_field by zify_div. apply Z.mod_small. zify_div.
  - change 0xf8 with (62 * 2 ^ 2). rewrite lor_field by zify_div. apply Z.mod_small. zify_div.
  - change 0xfc with (126 * 2 ^ 1). rewrite lor_field by zify_div. apply Z.mod_small. zify_div.
Qed.

(** The encoding of a character, with the facts the readers need. *)
Record encoding (c : Z) (n : nat) (base min first : Z) : Prop := {
  encoding_bytes : enc c = first :: digits n c;
  encoding_first : first = base + c / 64 ^ Z.of_nat n;
  encoding_class : lead_class first = Some (n, base, min);
  encoding_min : min <= c < 2 ^ 31;
  encoding_length : UTF8_LENGTH c = 1 + Z.of_nat n;
  encoding_byte : is_byte first;
  encoding_value : (first - base) * 64 ^ Z.of_nat n + c mod 64 ^ Z.of_nat n = c;
}.

Lemma encoding_of c : 0 <= c < 2 ^ 31 -> exists n base min first, encoding c n base min first.
Proof.
  intros Hc. pose proof (to_utf8_eq c Hc) as E. destruct (code_class c) as [n base] eqn:Ec.
  set (w := 64 ^ Z.of_nat n) in *. set (first := base + c / w).
  assert (exists min, lead_class first = Some (n, base, min) /\ min <= c /\
    UTF8_LENGTH c = 1 + Z.of_nat n /\ is_byte first) as (min & ? & ? & ? & ?).
  { unfold UTF8_LENGTH, lead_class, is_byte. subst first. revert Ec. code_cases c.
    all: intros [= <- <-].
    all: change w with (64 ^ 0) in * || change w with (64 ^ 1) in * || change w with (64 ^ 2) in *
      || change w with (64 ^ 3) in * || change w with (64 ^ 4) in * || change w with (64 ^ 5) in *.
    all: clear E; cbn [Z.pow Z.pow_pos Pos.iter Z.mul] in *.
    all: zcases; try zify_div; eexists; split_and!; try done; zify_div. }
  exists n, base, min, first. constructor; try done.
  - unfold enc. by rewrite E.
  - lia.
  - pose proof (pow64 n) as Hw. fold w in Hw |- *.
    replace (first - base) with (c / w) by (subst first; lia).
    pose proof (Z.div_mod c w ltac:(lia)). lia.
Qed.

(** Conversely, a first byte and continuation bytes that are not overlong. *)
Lemma encoding_decode b ds n base min :
  is_byte b -> lead_class b = Some (n, base, min) -> Forall cont ds -> length ds = n ->
  min <= decode (b - base) ds ->
  enc (decode (b - base) ds) = b :: ds /\ 0 <= decode (b - base) ds < 2 ^ 31.
Proof.
  intros Hb Hl Hds Hn Hmin. pose proof (decode_bounds (b - base) ds Hds) as B.
  pose proof (digits_decode (b - base) ds Hds) as D. rewrite Hn in B, D.
  set (c := decode (b - base) ds) in *.
  assert (0 <= c < 2 ^ 31 /\ code_class c = (n, base) /\ c / 64 ^ Z.of_nat n = b - base)
    as (Hc & Hcc & Hq).
  { clearbody c. clear D Hn Hds ds. revert Hl. unfold lead_class, is_byte in *.
    zcases; intros [= <- <- <-].
    all: match goal with |- context [64 ^ Z.of_nat ?k] => let v := eval vm_compute in (64 ^ Z.of_nat k) in
      change (64 ^ Z.of_nat k) with v in * end.
    all: unfold code_class; split_and!; zcases; try lia; try done; zify_div. }
  split; [|done]. unfold enc. rewrite (to_utf8_eq c Hc), Hcc. cbn [snd]. rewrite D, Hq.
  f_equal. lia.
Qed.

Lemma enc_nonempty c : 0 <= c < 2 ^ 31 -> enc c <> [].
Proof. intros Hc. destruct (encoding_of c Hc) as (n & base & min & first & [-> ? ? ? ? ? ?]). done. Qed.
Lemma zlen_enc c : 0 <= c < 2 ^ 31 -> zlen (enc c) = UTF8_LENGTH c.
Proof.
  intros Hc. destruct (encoding_of c Hc) as (n & base & min & first & E).
  rewrite (encoding_bytes _ _ _ _ _ E), (encoding_length _ _ _ _ _ E).
  unfold zlen. cbn [length]. rewrite length_digits. lia.
Qed.
Lemma UTF8_LENGTH_range c : 1 <= UTF8_LENGTH c <= 6.
Proof. unfold UTF8_LENGTH. zcases; lia. Qed.

(** Bytes that are not zero, in the encoding of a character that is not. *)
Lemma enc_nonzero c : 0 < c < 2 ^ 31 -> Forall (fun b => is_byte b /\ b <> 0) (enc c).
Proof.
  intros Hc. destruct (encoding_of c ltac:(lia)) as (n & base & min & first & [-> Ef El ? ? ? Ev]).
  apply Forall_cons. split.
  - split; [done|]. intros ->. cbn in El. injection El as <- <- <-. cbn in Ev.
    rewrite Z.mod_1_r in Ev. lia.
  - eapply Forall_impl; [apply digits_cont|]. unfold cont, is_byte. intros. lia.
Qed.

(** ** Reading an encoding *)

Definition lead_check (b : Z) : bool :=
  match lead_class b with
  | None => true
  | Some (n, base, _) =>
      (xutf8_skip b =? 1 + Z.of_nat n) &&
      match UTF8_COMPUTE b with
      | Some (len, mask) => (len =? 1 + Z.of_nat n) && (b & mask =? b - base)
      | None => false
      end
  end.

Lemma lead_tables b n base min :
  is_byte b -> lead_class b = Some (n, base, min) ->
  xutf8_skip b = 1 + Z.of_nat n /\
  exists mask, UTF8_COMPUTE b = Some (1 + Z.of_nat n, mask) /\ b & mask = b - base.
Proof.
  intros Hb E. assert (lead_check b = true) as C.
  { apply (range_check lead_check 0 256 b); [by vm_compute|exact Hb]. }
  unfold lead_check in C. rewrite E in C. destruct (UTF8_COMPUTE b) as [[len mask]|]; zprops; [|done].
  split; [done|]. exists mask. by subst len.
Qed.

Lemma next_char_enc s p c :
  0 <= c < 2 ^ 31 -> reads s p (enc c) -> xutf8_next_char s p = Some (p + zlen (enc c)).
Proof.
  intros Hc. destruct (encoding_of c Hc) as (n & base & min & first & E).
  rewrite zlen_enc, (encoding_length _ _ _ _ _ E), (encoding_bytes _ _ _ _ _ E) by done.
  intros [Hr _]. unfold xutf8_next_char. rewrite Hr. cbn.
  by rewrite (proj1 (lead_tables _ _ _ _ (encoding_byte _ _ _ _ _ E) (encoding_class _ _ _ _ _ E))).
Qed.

(** The step of the two decoding loops. *)
Lemma decode_step r b : 0 <= r < 2 ^ 26 -> cont b -> u32 (r << 6) or (b & 0x3f) = r * 64 + (b - 0x80).
Proof.
  intros Hr Hb. rewrite cont_bits by done. unfold cont in Hb.
  rewrite Z.shiftl_mul_pow2 by lia. rewrite wrap_small by lia. rewrite lor_mul_add by lia. done.
Qed.

Lemma UTF8_GET_digits n s p i r ds :
  length ds = n -> Forall cont ds -> reads s (p + i) ds -> 0 <= r -> (r + 1) * 64 ^ Z.of_nat n <= 2 ^ 32 ->
  UTF8_GET n s p i r = Some (decode r ds).
Proof.
  intros Hn Hds. revert n i r Hn. induction Hds as [|b ds Hb Hds IH]; intros n i r <- Hs Hr Hlt; [done|].
  cbn [length UTF8_GET]. destruct Hs as [Hs Hs']. rewrite Hs. cbn [mbind option_bind].
  rewrite cont_test, bool_decide_true by (done || by apply cont_byte). cbn [negb].
  cbn [length] in Hlt. rewrite pow64_S in Hlt. pose proof (pow64 (length ds)).
  rewrite decode_step by (done || nia). unfold cont in Hb.
  apply (IH (length ds)); [done|by rewrite Z.add_assoc|lia|nia].
Qed.

Lemma lead_class_width b n base min : lead_class b = Some (n, base, min) -> (n <= 5)%nat /\ 64 ^ Z.of_nat n <= 2 ^ 30.
Proof.
  unfold lead_class. zcases; intros [= <- <- <-]; split; try lia; by vm_compute.
Qed.

Lemma get_char_enc s p c : 0 <= c < 2 ^ 31 -> reads s p (enc c) -> xutf8_get_char s p = Some c.
Proof.
  intros Hc. destruct (encoding_of c Hc) as (n & base & min & first & [-> Ef El _ _ Eb Ev]).
  intros [Hr Hs]. unfold xutf8_get_char. rewrite Hr. cbn [mbind option_bind].
  destruct (lead_tables _ _ _ _ Eb El) as [_ (mask & -> & Em)]. rewrite Em.
  replace (Z.to_nat (1 + Z.of_nat n - 1)) with n by lia.
  pose proof (lead_class_width _ _ _ _ El) as [_ Hw]. pose proof (pow64 n).
  pose proof (Z.mod_pos_bound c (64 ^ Z.of_nat n) ltac:(lia)).
  rewrite (UTF8_GET_digits n s p 1 (first - base) (digits n c));
    [by rewrite decode_digits, Ev|apply length_digits|apply digits_cont|done|nia|nia].
Qed.

(** [xutf8_get_char_extended], with the class of the first byte. *)
Definition extended_by_class (s : list Z) (p max_len b : Z) : option Z :=
  match lead_class b with
  | None => Some malformed_sequence
  | Some (O, _, _) => Some b
  | Some (n, base, min) =>
      if (0 <=? max_len) && (max_len <? 1 + Z.of_nat n) then
        extended_truncated (Z.to_nat (max_len - 1)) s p 1
      else
        r ← extended_loop n s p 1 (b - base);
        match r with
        | inl e => Some e
        | inr wc => Some (if wc <? min then malformed_sequence else wc)
        end
  end.

Definition mask_check (b : Z) : bool :=
  match lead_class b with
  | Some (n, base, _) => b & nth n [0x7f; 0x1f; 0x0f; 0x07; 0x03; 0x01] 0 =? b - base
  | None => true
  end.
Lemma lead_mask b n base min :
  is_byte b -> lead_class b = Some (n, base, min) ->
  b & nth n [0x7f; 0x1f; 0x0f; 0x07; 0x03; 0x01] 0 = b - base.
Proof.
  intros Hb E. assert (mask_check b = true) as C.
  { apply (range_check mask_check 0 256 b); [by vm_compute|exact Hb]. }
  unfold mask_check in C. rewrite E in C. by zprops.
Qed.

Lemma extended_eq s p max_len b :
  rd s p = Some b -> is_byte b -> xutf8_get_char_extended s p max_len = extended_by_class s p max_len b.
Proof.
  intros Hr Hb. unfold xutf8_get_char_extended, extended_by_class. rewrite Hr. cbn [mbind option_bind].
  destruct (lead_class b) as [[[n base] min]|] eqn:E.
  - pose proof (lead_mask b n base min Hb E) as M. revert E M. unfold lead_class.
    destruct (b <? 0x80); [by intros [= <- <- <-]|].
    repeat (match goal with |- context [if ?t then _ else _] => destruct t end;
      [first [discriminate 1|intros [= <- <- <-] M; cbn [nth] in M; rewrite M; reflexivity]|]).
    discriminate 1.
  - revert E. unfold lead_class.
    repeat (match goal with |- context [if ?t then _ else _] => destruct t end; try done).
Qed.

Lemma extended_loop_digits n s p i wc ds :
  length ds = n -> Forall cont ds -> reads s (p + i) ds -> 0 <= wc -> (wc + 1) * 64 ^ Z.of_nat n <= 2 ^ 32 ->
  extended_loop n s p i wc = Some (inr (decode wc ds)).
Proof.
  intros Hn Hds. revert n i wc Hn. induction Hds as [|b ds Hb Hds IH]; intros n i r <- Hs Hr Hlt; [done|].
  cbn [length extended_loop]. destruct Hs as [Hs Hs']. rewrite Hs. cbn [mbind option_bind].
  rewrite cont_test, bool_decide_true by (done || by apply cont_byte). cbn [negb].
  cbn [length] in Hlt. rewrite pow64_S in Hlt. pose proof (pow64 (length ds)).
  rewrite decode_step by (done || nia). unfold cont in Hb.
  apply (IH (length ds)); [done|by rewrite Z.add_assoc|lia|nia].
Qed.

(** A byte that does not continue the sequence ends it. *)
Lemma extended_loop_bad n s p i wc ds x :
  (length ds < n)%nat -> Forall cont ds -> is_byte x -> ~ cont x -> reads s (p + i) (ds ++ [x]) ->
  extended_loop n s p i wc = Some (inl (if x =? 0 then partial_sequence else malformed_sequence)).
Proof.
  intros Hn Hds Hx Hnc. revert n i wc Hn.
  induction Hds as [|b ds Hb Hds IH]; intros [|n] i wc Hn [Hs Hs']; cbn [length] in Hn; try lia;
    cbn [extended_loop]; rewrite Hs; cbn [mbind option_bind].
  - rewrite cont_test, bool_decide_false by done. cbn [negb]. by destruct (x =? 0).
  - rewrite cont_test, bool_decide_true by (done || by apply cont_byte). cbn [negb].
    apply IH; [lia|by rewrite Z.add_assoc].
Qed.

Lemma extended_truncated_cont s p i ds :
  Forall cont ds -> reads s (p + i) ds ->
  extended_truncated (length ds) s p i = Some partial_sequence.
Proof.
  intros Hds. revert i. induction Hds as [|b ds Hb Hds IH]; intros i Hs; [done|].
  cbn [length extended_truncated]. destruct Hs as [Hs Hs']. rewrite Hs. cbn [mbind option_bind].
  rewrite cont_test, bool_decide_true by (done || by apply cont_byte). cbn [negb].
  apply IH. by rewrite Z.add_assoc.
Qed.

Lemma extended_truncated_bad n s p i ds x :
  (length ds < n)%nat -> Forall cont ds -> is_byte x -> ~ cont x -> reads s (p + i) (ds ++ [x]) ->
  extended_truncated n s p i = Some malformed_sequence.
Proof.
  intros Hn Hds Hx Hnc. revert n i Hn.
  induction Hds as [|b ds Hb Hds IH]; intros [|n] i Hn [Hs Hs']; cbn [length] in Hn; try lia;
    cbn [extended_truncated]; rewrite Hs; cbn [mbind option_bind].
  - rewrite cont_test, bool_decide_false by done. done.
  - rewrite cont_test, bool_decide_true by (done || by apply cont_byte). cbn [negb].
    apply IH; [lia|by rewrite Z.add_assoc].
Qed.

(** The continuation bytes a list starts with, at most [n]. *)
Lemma split_cont n t :
  (exists ds rest, t = ds ++ rest /\ length ds = n /\ Forall cont ds) \/
  (exists ds x rest, t = ds ++ x :: rest /\ (length ds < n)%nat /\ Forall cont ds /\ ~ cont x) \/
  (length t < n)%nat /\ Forall cont t.
Proof.
  revert n. induction t as [|b t IH]; intros [|n].
  1: left; exists [], []. 3: left; exists [], (b :: t).
  1, 3: split_and!; [done..|by apply Forall_nil].
  - right; right. cbn. split; [lia|by apply Forall_nil].
  - destruct (decide (cont b)) as [Hb|Hb].
    + destruct (IH n) as [(ds & rest & -> & <- & H)|[(ds & x & rest & -> & H1 & H2 & H3)|[H1 H2]]].
      * left. exists (b :: ds), rest. split_and!; [done..|by apply Forall_cons].
      * right; left. exists (b :: ds), x, rest. cbn. split_and!; [done|lia|by apply Forall_cons|done].
      * right; right. cbn. split; [lia|by apply Forall_cons].
    + right; left. exists [], b, t. cbn. split_and!; [done|lia|by apply Forall_nil|done].
Qed.

(** ** The checked reader

    The bytes it may look at are [l]: [max_len] of them, or all those up to a
    NUL when there is no bound, or none that matters. *)

Definition available (max_len : Z) (l : list Z) : Prop :=
  l <> [] /\ Forall is_byte l /\
  (zlen l = max_len \/
   (max_len < 0 \/ 6 <= max_len) /\ exists l0, l = l0 ++ [0] /\ Forall (fun b => b <> 0) l0).

Definition fits (max_len n : Z) : Prop := max_len < 0 \/ n <= max_len.

(** A sequence that is cut by the end of the bytes, or by a NUL. *)
Definition incomplete (max_len : Z) (l : list Z) : Prop :=
  exists b ds n base min,
    lead_class b = Some (n, base, min) /\ Forall cont ds /\ (length ds < n)%nat /\
    (l = b :: ds \/ fits max_len (1 + Z.of_nat n) /\ exists rest, l = b :: ds ++ 0 :: rest).

Lemma extended_enc s p c max_len :
  0 <= c < 2 ^ 31 -> reads s p (enc c) -> fits max_len (zlen (enc c)) ->
  xutf8_get_char_extended s p max_len = Some c.
Proof.
  intros Hc. rewrite zlen_enc by done.
  destruct (encoding_of c Hc) as (n & base & min & first & [-> Ef El ? -> Eb Ev]).
  intros [Hr Hs] Hf. rewrite (extended_eq _ _ _ first) by done. unfold extended_by_class. rewrite El.
  pose proof (lead_class_width _ _ _ _ El) as [_ Hw]. pose proof (pow64 n).
  pose proof (Z.mod_pos_bound c (64 ^ Z.of_nat n) ltac:(lia)).
  destruct n as [|n].
  { f_equal. revert El. unfold lead_class. zcases; intros [= <- <-]. cbn in Ev.
    rewrite Z.mod_1_r in Ev. lia. }
  assert ((0 <=? max_len) && (max_len <? 1 + Z.of_nat (S n)) = false) as ->.
  { unfold fits in Hf. zcases; try done; lia. }
  rewrite (extended_loop_digits (S n) s p 1 (first - base) (digits (S n) c));
    [|apply length_digits|apply digits_cont|done|nia|nia].
  cbn [mbind option_bind]. rewrite decode_digits, Ev. by zcases; [lia|].
Qed.

(** The end of a string is not a continuation byte. *)
Lemma available_cont max_len b t :
  available max_len (b :: t) -> Forall cont t -> t <> [] -> zlen (b :: t) = max_len.
Proof.
  intros (_ & _ & [?|(_ & l0 & E & _)]) Ht Hn; [done|]. exfalso.
  destruct l0 as [|x l0]; cbn in E; injection E as -> ->; [done|].
  apply Forall_app in Ht as [_ [H0 _]%Forall_cons]. unfold cont in H0. lia.
Qed.

Lemma cont_split ds ds' x y rest rest' :
  Forall cont ds -> Forall cont ds' -> ~ cont x -> ~ cont y ->
  ds ++ x :: rest = ds' ++ y :: rest' -> ds = ds' /\ x = y.
Proof.
  intros Hd. revert ds'. induction Hd as [|b ds Hb Hds IH]; intros [|b' ds'] Hd' Hx Hy E;
    cbn in E; injection E as -> E; try done.
  - apply Forall_cons in Hd' as [? _]. done.
  - apply Forall_cons in Hd' as [_ Hd']. by destruct (IH ds' Hd' Hx Hy E) as [-> ->].
Qed.
Lemma not_cont_0 : ~ cont 0.
Proof. unfold cont. lia. Qed.

Lemma incomplete_class max_len b t n base min :
  lead_class b = Some (n, base, min) -> incomplete max_len (b :: t) ->
  exists ds, Forall cont ds /\ (length ds < n)%nat /\
    (t = ds \/ fits max_len (1 + Z.of_nat n) /\ exists rest, t = ds ++ 0 :: rest).
Proof.
  intros E (b' & ds & n' & base' & min' & E' & Hds & Hn & H).
  assert (b' = b) as -> by (destruct H as [[= ->]|(_ & rest & [= ->])]; done).
  rewrite E in E'. injection E' as <- <- <-. exists ds. split_and!; [done..|].
  destruct H as [[= ->]|(Hf & rest & [= ->])]; [by left|right]. split; [done|]. by exists rest.
Qed.

(** What the first byte and the bytes after it say. *)
Definition extended_answer (max_len : Z) (l : list Z) (r : Z) : Prop :=
  0 <= r < 2 ^ 31 /\ enc r `prefix_of` l /\ fits max_len (zlen (enc r)) \/
  r = partial_sequence /\ incomplete max_len l \/
  r = malformed_sequence /\ ~ incomplete max_len l.

Lemma extended_single max_len b t n base min :
  is_byte b -> available max_len (b :: t) -> lead_class b = Some (n, base, min) -> n = 0%nat ->
  extended_answer max_len (b :: t) b.
Proof.
  intros Hb (_ & _ & Hm) El ->. left. revert El. unfold lead_class.
  destruct (Z.ltb_spec b 0x80) as [Hb'|]; [|zcases; discriminate 1]. intros _. unfold is_byte in Hb.
  assert (enc b = [b]) as ->.
  { unfold enc. rewrite to_utf8_eq by lia. unfold code_class.
    destruct (Z.ltb_spec b 0x80); [|lia]. cbn. by rewrite Z.div_1_r. }
  split_and!; [lia|lia|by exists t|]. unfold fits. unfold zlen in *. cbn [length] in *.
  destruct Hm as [Hm|[Hm _]]; lia.
Qed.

Lemma lead_field b n base min :
  is_byte b -> lead_class b = Some (n, base, min) -> n <> 0%nat ->
  0 <= b - base /\ (b - base + 1) * 64 ^ Z.of_nat n <= 2 ^ 31.
Proof.
  intros Hb El Hn. revert El Hb. unfold lead_class, is_byte. zcases; intros [= <- <- <-]; try done.
  all: match goal with |- context [64 ^ Z.of_nat ?k] => let v := eval vm_compute in (64 ^ Z.of_nat k) in
    change (64 ^ Z.of_nat k) with v end; lia.
Qed.

(** The loop for a sequence that is cut by [max_len]. *)
Lemma extended_short s p max_len b t n base min :
  reads s (p + 1) t -> available max_len (b :: t) ->
  lead_class b = Some (n, base, min) -> 0 <= max_len < 1 + Z.of_nat n ->
  exists r, extended_truncated (Z.to_nat (max_len - 1)) s p 1 = Some r /\ extended_answer max_len (b :: t) r.
Proof.
  intros Hs (_ & Hb & Hm) El Hlt. pose proof (lead_class_width _ _ _ _ El) as [Hn _].
  assert (zlen (b :: t) = max_len) as Hz by (destruct Hm as [?|[? _]]; lia).
  unfold zlen in Hz. cbn [length] in Hz. replace (Z.to_nat (max_len - 1)) with (length t) by lia.
  destruct (split_cont n t) as [(ds & rest & -> & Hd & H)|[(ds & x & rest & -> & H1 & H2 & H3)|[H1 H2]]].
  - rewrite length_app in Hz. lia.
  - exists malformed_sequence. split.
    + apply (extended_truncated_bad _ _ _ _ ds x); try done.
      * rewrite length_app. cbn. lia.
      * rewrite Forall_cons, Forall_app, Forall_cons in Hb. tauto.
      * rewrite cons_middle, app_assoc in Hs. by apply reads_app in Hs as [? _].
    + right; right. split; [done|]. intros Hi.
      destruct (incomplete_class _ _ _ _ _ _ El Hi) as (ds' & Hd' & Hl' & [E|[Hf _]]).
      * rewrite <- E, Forall_app, Forall_cons in Hd'. tauto.
      * unfold fits in Hf. lia.
  - exists partial_sequence. split; [by apply extended_truncated_cont|].
    right; left. split; [done|]. exists b, t, n, base, min. split_and!; try done. by left.
Qed.

(** The loop for one that is not. *)
Lemma extended_long s p max_len b t n base min :
  reads s (p + 1) t -> available max_len (b :: t) ->
  lead_class b = Some (n, base, min) -> n <> 0%nat -> fits max_len (1 + Z.of_nat n) ->
  exists r, (r ← extended_loop n s p 1 (b - base);
             match r with
             | inl e => Some e
             | inr wc => Some (if wc <? min then malformed_sequence else wc)
             end) = Some r /\ extended_answer max_len (b :: t) r.
Proof.
  intros Hs Ha El Hn Hf. pose proof Ha as (_ & [Hb Ht]%Forall_cons & _).
  pose proof (lead_field b n base min Hb El Hn) as [Hge Hw].
  destruct (split_cont n t) as [(ds & rest & -> & Hd & H)|[(ds & x & rest & -> & H1 & H2 & H3)|[H1 H2]]].
  - apply reads_app in Hs as [Hs _].
    rewrite (extended_loop_digits n s p 1 (b - base) ds) by (done || lia).
    cbn [mbind option_bind]. eexists. split; [done|].
    destruct (Z.ltb_spec (decode (b - base) ds) min) as [Hlt|Hmin].
    + right; right. split; [done|]. intros Hi.
      destruct (incomplete_class _ _ _ _ _ _ El Hi) as (ds' & Hd' & Hl' & [E|(_ & rest' & E)]).
      * rewrite <- E, length_app in Hl'. lia.
      * assert ((ds ++ rest) !! length ds' = Some 0) as E0 by (by rewrite E, list_lookup_middle).
        rewrite lookup_app_l in E0 by lia. rewrite Forall_lookup in H.
        apply H in E0. by apply not_cont_0.
    + left. destruct (encoding_decode b ds n base min Hb El H Hd Hmin) as [E Hc].
      rewrite E. split_and!; [lia|lia|by exists rest|]. unfold fits, zlen in *. cbn [length]. lia.
  - rewrite cons_middle, app_assoc in Hs. apply reads_app in Hs as [Hs _].
    rewrite (extended_loop_bad n s p 1 (b - base) ds x);
      [|done..|rewrite Forall_app, Forall_cons in Ht; tauto|done|done].
    cbn [mbind option_bind]. eexists. split; [done|].
    destruct (Z.eqb_spec x 0) as [->|Hx].
    + right; left. split; [done|]. exists b, ds, n, base, min. split_and!; try done.
      right. split; [done|]. by exists rest.
    + right; right. split; [done|]. intros Hi.
      destruct (incomplete_class _ _ _ _ _ _ El Hi) as (ds' & Hd' & Hl' & [E|(_ & rest' & E)]).
      * rewrite <- E, Forall_app, Forall_cons in Hd'. tauto.
      * destruct (cont_split _ _ _ _ _ _ H2 Hd' H3 not_cont_0 E). done.
  - assert (t <> []) as Hne.
    { intros ->. destruct Ha as (_ & _ & [Hm|(_ & l0 & E & Hl0)]).
      - unfold fits, zlen in *. cbn in *. lia.
      - destruct l0 as [|? [|]]; cbn in E; try discriminate E. injection E as ->.
        revert El. cbn. by intros [= <- _ _]. }
    pose proof (available_cont _ _ _ Ha H2 Hne) as Hz. unfold fits, zlen in *. cbn [length] in Hz. lia.
Qed.

Lemma extended_cases s p max_len l :
  reads s p l -> available max_len l ->
  exists r, xutf8_get_char_extended s p max_len = Some r /\ extended_answer max_len l r.
Proof.
  intros Hs Ha. pose proof Ha as (Hl & Hb & _). destruct l as [|b t]; [done|].
  destruct Hs as [Hr Hs]. apply Forall_cons in Hb as [Hb _].
  rewrite (extended_eq _ _ _ b) by done. unfold extended_by_class.
  destruct (lead_class b) as [[[n base] min]|] eqn:El.
  - destruct n as [|n]; [by exists b; eauto using extended_single|].
    destruct ((0 <=? max_len) && (max_len <? 1 + Z.of_nat (S n))) eqn:Et.
    + zprops. eapply extended_short; [done..|lia].
    + apply (extended_long s p max_len b t (S n) base min); try done.
      unfold fits. destruct (Z.leb_spec 0 max_len); [|lia]. cbn in Et. zprops. lia.
  - exists malformed_sequence. split; [done|]. right; right. split; [done|].
    intros (b' & ds & n & base & min & E & _ & _ & [[= -> _]|(_ & rest & [= -> _])]); congruence.
Qed.
