(* ===== verification/Utf8Text.v ===== *)
(** * Strings of characters

    The encoding of a list of characters, and the functions that move in it:
    lengths, offsets and pointers, copies, the validated reader, and the
    reversal. *)

From S2P Require Import Prelude.
From S2P Require Import Utf8.
From S2P Require Import Utf8Codec.
Local Open Scope Z_scope.
Local Open Scope xpl_scope.

Definition encs (cs : list Z) : list Z := flat_map enc cs.

(** The characters an encoding can hold; the end of a string is not one. *)
Definition code (c : Z) : Prop := 0 <= c < 2 ^ 31.
Definition char (c : Z) : Prop := 0 < c < 2 ^ 31.

Lemma char_code c : char c -> code c.
Proof. unfold char, code. lia. Qed.
Lemma chars_codes cs : Forall char cs -> Forall code cs.
Proof. intros H. eapply Forall_impl; [exact H|apply char_code]. Qed.

Lemma encs_app cs1 cs2 : encs (cs1 ++ cs2) = encs cs1 ++ encs cs2.
Proof. apply flat_map_app. Qed.
Lemma encs_cons c cs : encs (c :: cs) = enc c ++ encs cs.
Proof. done. Qed.

(** ** One character *)

Lemma enc_head c : code c ->
  exists b t, enc c = b :: t /\ is_byte b /\ ~ cont b /\ Forall cont t /\ xutf8_skip b = zlen (enc c).
Proof.
  intros Hc. destruct (encoding_of c Hc) as (n & base & min & first & [E Ef El ? En Eb Ev]).
  exists first, (digits n c). split_and!; try done.
  - intros [? ?]. revert El. unfold lead_class. zcases; (discriminate 1 || lia).
  - apply digits_cont.
  - rewrite (proj1 (lead_tables _ _ _ _ Eb El)), zlen_enc by done. done.
Qed.

Lemma zlen_enc_pos c : code c -> 1 <= zlen (enc c).
Proof. intros. rewrite zlen_enc by done. pose proof (UTF8_LENGTH_range c). lia. Qed.

Lemma next_char_head s p c rest : code c -> reads s p (take 1 (enc c ++ rest)) -> xutf8_next_char s p = Some (p + zlen (enc c)).
Proof.
  intros Hc. destruct (enc_head c Hc) as (b & t & E & _ & _ & _ & Hk). rewrite <- Hk, E.
  intros [Hr _]. unfold xutf8_next_char. by rewrite Hr.
Qed.

Lemma encs_length cs : Forall code cs -> Z.of_nat (length cs) <= zlen (encs cs).
Proof.
  induction 1 as [|c cs Hc _ IH]; [done|]. rewrite encs_cons, zlen_app. cbn [length].
  pose proof (zlen_enc_pos c Hc). lia.
Qed.

Lemma encs_take_mono cs i j : (i <= j)%nat -> zlen (encs (take i cs)) <= zlen (encs (take j cs)).
Proof.
  intros. replace j with (i + (j - i))%nat by lia. rewrite <- take_take_drop, encs_app, zlen_app.
  pose proof (zlen_nonneg (encs (take (j - i) (drop i cs)))). lia.
Qed.

(** The first bytes of the encoding of a list of characters. *)
Lemma reads_char s p cs i c :
  reads s p (encs cs) -> cs !! i = Some c -> reads s (p + zlen (encs (take i cs))) (enc c).
Proof.
  intros Hs Hi. rewrite <- (take_drop_middle cs i c Hi), encs_app, encs_cons in Hs.
  apply reads_app in Hs as [_ Hs]. by apply reads_app in Hs as [Hs _].
Qed.

(** ** Lengths *)

(** How many of the characters end in the first [room] bytes. *)
Fixpoint whole_chars (room : Z) (cs : list Z) : Z :=
  match cs with
  | [] => 0
  | c :: cs => if zlen (enc c) <=? room then 1 + whole_chars (room - zlen (enc c)) cs else 0
  end.

(** What the loops may look at: everything, or the first bytes. *)
Definition bounded (max : option Z) (l : list Z) : list Z :=
  match max with None => l | Some m => take (Z.to_nat m) l end.

Lemma bounded_drop max l1 l2 s p :
  (match max with Some m => zlen l1 <= m | None => True end) ->
  reads s p (bounded max (l1 ++ l2)) ->
  reads s p l1 /\ reads s (p + zlen l1) (bounded ((fun m => m - zlen l1) <$> max) l2).
Proof.
  intros Hm. destruct max as [m|]; cbn.
  - rewrite take_app_ge by (unfold zlen in Hm; lia). intros [H1 H2]%reads_app. split; [done|].
    replace (Z.to_nat (m - zlen l1)) with (Z.to_nat m - length l1)%nat; [done|]. unfold zlen in *. lia.
  - by intros [H1 H2]%reads_app.
Qed.

Lemma bounded_head m b l s p : reads s p (bounded (Some m) (b :: l)) -> 0 < m -> rd s p = Some b.
Proof.
  intros Hs Hm. revert Hs. cbn [bounded]. replace (Z.to_nat m) with (S (Z.to_nat (m - 1))) by lia. by intros [? _].
Qed.

Lemma enc_rest_nonzero c : char c -> exists b t, enc c = b :: t /\ b <> 0.
Proof.
  intros Hc. pose proof (enc_nonzero c Hc) as Hn. destruct (enc c) as [|b t] eqn:E.
  - by apply enc_nonempty in E; [|unfold char in Hc; lia].
  - apply Forall_cons in Hn as [[_ Hb] _]. by exists b, t.
Qed.

Lemma text_room s p l x : reads s p (l ++ [x]) -> 0 <= p < zlen s /\ p + zlen l < zlen s.
Proof.
  pose proof (zlen_nonneg l).
  intros Hs. apply reads_app in Hs as Hs2. destruct Hs2 as [_ [Hr%rd_range _]].
  apply reads_bounds in Hs; [|by destruct l]. lia.
Qed.

Lemma strlen_loop_all fuel s start p cs len :
  Forall char cs -> reads s p (encs cs ++ [0]) -> zlen s - p < Z.of_nat fuel ->
  strlen_loop fuel s start p None len = Some (p + zlen (encs cs), len + Z.of_nat (length cs)).
Proof.
  intros Hcs. revert fuel p len. induction Hcs as [|c cs Hc Hcs IH]; intros [|fuel] p len Hs Hf.
  1, 3: apply text_room in Hs; lia.
  - destruct Hs as [Hr _]. cbn [strlen_loop]. rewrite Hr. cbn [mbind option_bind].
    change (0 =? 0) with true. change (zlen (encs [])) with 0. cbn [length]. f_equal. f_equal; lia.
  - rewrite encs_cons, <- app_assoc in Hs. destruct (enc_rest_nonzero c Hc) as (b & t & E & Hb).
    destruct (enc_head c (char_code c Hc)) as (b' & t' & E' & _ & _ & _ & Hk).
    assert (b' = b) as -> by congruence. cbn [strlen_loop].
    apply reads_app in Hs as [Hs1 Hs2]. rewrite E in Hs1. destruct Hs1 as [Hr _]. rewrite Hr.
    cbn [mbind option_bind]. destruct (Z.eqb_spec b 0); [done|]. rewrite Hk.
    pose proof (zlen_enc_pos c (char_code c Hc)). rewrite IH by (done || lia).
    rewrite encs_cons, zlen_app. cbn [length]. f_equal. f_equal; lia.
Qed.

Lemma whole_chars_none room cs : Forall code cs -> room <= 0 -> whole_chars room cs = 0.
Proof.
  intros [|c cs' Hc _] Hr; [done|]. cbn. pose proof (zlen_enc_pos c Hc). by zcases; [lia|].
Qed.

(** The characters the bounded loop passes, and the one it ends with. *)
Lemma strlen_loop_bounded fuel s start p cs len m :
  Forall char cs -> (0 < fuel)%nat -> zlen s - p < Z.of_nat fuel ->
  reads s p (bounded (Some (m - (p - start))) (encs cs ++ [0])) ->
  exists q n, strlen_loop fuel s start p (Some m) len = Some (q, n) /\
    (if q - start <=? m then n + 1 else n) =
    len + (if p - start <=? m then 1 else 0) + whole_chars (m - (p - start)) cs.
Proof.
  intros Hcs. revert fuel p len. induction Hcs as [|c cs Hc Hcs IH]; intros [|fuel] p len Hf Hf' Hs;
    try lia; cbn [strlen_loop].
  - destruct (Z.leb_spec m (p - start)).
    + exists p, len. split; [done|]. cbn [whole_chars]. zcases; lia.
    + cbn [encs flat_map app] in Hs. rewrite (bounded_head _ _ _ _ _ Hs ltac:(lia)). cbn.
      exists p, len. split; [done|]. zcases; lia.
  - pose proof (zlen_enc_pos c (char_code c Hc)) as Hz.
    destruct (Z.leb_spec m (p - start)) as [Hm|Hm].
    { exists p, len. split; [done|].
      rewrite whole_chars_none by (try lia; apply chars_codes; by apply Forall_cons).
      zcases; lia. }
    destruct (enc_rest_nonzero c Hc) as (b & t & E & Hb).
    destruct (enc_head c (char_code c Hc)) as (b' & t' & E' & _ & _ & _ & Hk).
    assert (b' = b) as -> by congruence. rewrite encs_cons, <- app_assoc in Hs.
    pose proof Hs as Hs0. rewrite E in Hs0. pose proof (bounded_head _ _ _ _ _ Hs0 ltac:(lia)) as Hr.
    pose proof (rd_range _ _ _ Hr). rewrite Hr. cbn [mbind option_bind]. destruct (Z.eqb_spec b 0); [done|]. rewrite Hk.
    destruct (IH fuel (p + zlen (enc c)) (len + 1)) as (q & k & -> & Hn); [lia|lia| |].
    { destruct (Z.leb_spec (zlen (enc c)) (m - (p - start))).
      - apply bounded_drop in Hs as [_ Hs]; [|done]. cbn [fmap option_fmap option_map] in Hs.
        by replace (m - (p + zlen (enc c) - start)) with (m - (p - start) - zlen (enc c)) by lia.
      - cbn [bounded]. by replace (Z.to_nat (m - (p + zlen (enc c) - start))) with 0%nat by lia. }
    exists q, k. split; [done|]. rewrite Hn. cbn [whole_chars].
    replace (m - (p + zlen (enc c) - start)) with (m - (p - start) - zlen (enc c)) by lia.
    pose proof (whole_chars_none (m - (p - start) - zlen (enc c)) cs (chars_codes _ Hcs)).
    zcases; lia.
Qed.

Lemma strlen_spec s p max cs :
  Forall char cs ->
  reads s p (bounded (if max <? 0 then None else Some max) (encs cs ++ [0])) ->
  xutf8_strlen s p max = Some (if max <? 0 then Z.of_nat (length cs) else whole_chars max cs).
Proof.
  intros Hcs. unfold xutf8_strlen. destruct (Z.ltb_spec max 0) as [Hm|Hm]; intros Hs.
  { rewrite (strlen_loop_all _ _ _ _ cs); [done..|].
    apply text_room in Hs. unfold zlen in *. lia. }
  destruct (Z.eqb_spec max 0) as [->|Hm0].
  { by rewrite whole_chars_none by (done || by apply chars_codes). }
  destruct Hcs as [|c cs Hc Hcs].
  { cbn [encs flat_map app] in Hs. rewrite (bounded_head _ _ _ _ _ Hs ltac:(lia)). done. }
  pose proof (zlen_enc_pos c (char_code c Hc)) as Hz.
  destruct (enc_rest_nonzero c Hc) as (b & t & E & Hb).
  destruct (enc_head c (char_code c Hc)) as (b' & t' & E' & _ & _ & _ & Hk).
  assert (b' = b) as -> by congruence. rewrite encs_cons, <- app_assoc in Hs.
  pose proof Hs as Hs0. rewrite E in Hs0. pose proof (bounded_head _ _ _ _ _ Hs0 ltac:(lia)) as Hr.
  pose proof (rd_range _ _ _ Hr). rewrite Hr. cbn [mbind option_bind]. destruct (Z.eqb_spec b 0); [done|]. rewrite Hk.
  destruct (strlen_loop_bounded (S (length s)) s p (p + zlen (enc c)) cs 0 max Hcs) as (q & k & -> & Hn).
  - lia.
  - unfold zlen in *. lia.
  - destruct (Z.leb_spec (zlen (enc c)) max).
    + apply bounded_drop in Hs as [_ Hs]; [|done]. cbn [fmap option_fmap option_map] in Hs.
      by replace (max - (p + zlen (enc c) - p)) with (max - zlen (enc c)) by lia.
    + cbn [bounded]. by replace (Z.to_nat (max - (p + zlen (enc c) - p))) with 0%nat by lia.
  - cbn [mbind option_bind]. f_equal. cbn [whole_chars].
    replace (max - (p + zlen (enc c) - p)) with (max - zlen (enc c)) in Hn by lia.
    replace (p + zlen (enc c) - p) with (zlen (enc c)) in Hn by lia.
    pose proof (whole_chars_none (max - zlen (enc c)) cs (chars_codes _ Hcs)).
    revert Hn. zcases; lia.
Qed.

(** ** Offsets and pointers *)

Section positions.
Context (s : list Z) (str : Z) (cs : list Z).
Context (Hcs : Forall code cs) (Hs : reads s str (encs cs)).

(** Where the [i]-th character begins. *)
Definition position (i : nat) : Z := str + zlen (encs (take i cs)).

Lemma position_0 : position 0 = str.
Proof. unfold position. change (zlen (encs (take 0 cs))) with 0. lia. Qed.

Lemma position_split i j :
  (i <= j)%nat -> position j = position i + zlen (encs (take (j - i) (drop i cs))).
Proof.
  intros. unfold position. replace j with (i + (j - i))%nat at 1 by lia.
  rewrite <- take_take_drop, encs_app, zlen_app. lia.
Qed.

Lemma position_S i c : cs !! i = Some c -> position (S i) = position i + zlen (enc c).
Proof.
  intros Hi. unfold position. rewrite (take_S_r cs i c Hi), encs_app, zlen_app.
  cbn [encs flat_map]. rewrite app_nil_r. lia.
Qed.

Lemma segment_codes i j : Forall code (take (j - i) (drop i cs)).
Proof. apply Forall_take, Forall_drop, Hcs. Qed.

Lemma segment_length i j : (i <= j <= length cs)%nat -> length (take (j - i) (drop i cs)) = (j - i)%nat.
Proof. intros. rewrite length_take, length_drop. lia. Qed.

Lemma position_gap i j : (i <= j <= length cs)%nat -> Z.of_nat (j - i) <= position j - position i.
Proof.
  intros H. rewrite (position_split i j) by lia. pose proof (encs_length _ (segment_codes i j)) as L.
  rewrite segment_length in L by lia. lia.
Qed.

Lemma segment_reads i j :
  (i <= j)%nat -> reads s (position i) (encs (take (j - i) (drop i cs))).
Proof.
  intros H. rewrite <- (take_drop i cs), encs_app in Hs. apply reads_app in Hs as [_ Hs'].
  rewrite <- (take_drop (j - i) (drop i cs)), encs_app in Hs'. by apply reads_app in Hs' as [Hs' _].
Qed.

Lemma char_reads i c : cs !! i = Some c -> code c /\ reads s (position i) (enc c).
Proof.
  intros Hi. split; [by eapply Forall_lookup_1|]. by apply reads_char.
Qed.

(** A byte inside a character continues it, its first byte does not. *)
Lemma inside_byte i c o :
  cs !! i = Some c -> 0 <= o < zlen (enc c) ->
  exists b, rd s (position i + o) = Some b /\ is_continuation b = negb (o =? 0).
Proof.
  intros Hi Ho. destruct (char_reads i c Hi) as [Hc Hr].
  destruct (enc_head c Hc) as (b & t & E & Hb & Hn & Ht & _). rewrite E in Hr, Ho.
  assert (Z.to_nat o < length (b :: t))%nat as Hl by (unfold zlen in Ho; lia).
  destruct (lookup_lt_is_Some_2 _ _ Hl) as [x Hx]. exists x.
  pose proof (reads_lookup _ _ _ _ _ Hr Hx) as Hrd. rewrite Z2Nat.id in Hrd by lia. split; [done|].
  unfold is_continuation. destruct (Z.eqb_spec o 0) as [->|Ho0].
  - injection Hx as <-. rewrite cont_test by done. by rewrite bool_decide_false.
  - replace (Z.to_nat o) with (S (Z.to_nat (o - 1))) in Hx by lia. cbn in Hx.
    rewrite Forall_lookup in Ht. apply Ht in Hx. rewrite cont_test by by apply cont_byte.
    by rewrite bool_decide_true.
Qed.

(** The character a position is in. *)
Lemma char_at j x :
  (j <= length cs)%nat -> str <= x < position j ->
  exists i c, (i < j)%nat /\ cs !! i = Some c /\ position i <= x < position i + zlen (enc c).
Proof.
  induction j as [|j IH]; intros Hj Hx; [rewrite position_0 in Hx; lia|].
  destruct (lookup_lt_is_Some_2 cs j Hj) as [c Hc]. rewrite (position_S j c Hc) in Hx.
  destruct (Z.le_gt_cases (position j) x).
  - exists j, c. split_and!; [lia|done|lia|lia].
  - destruct IH as (i & d & ? & ? & ?); [lia..|]. exists i, d. split_and!; [lia|done|lia|lia].
Qed.

Lemma back_up_ok fuel i c o :
  cs !! i = Some c -> 0 <= o < zlen (enc c) -> o < Z.of_nat fuel ->
  back_up fuel s (position i + o) = Some (position i).
Proof.
  intros Hi. revert o. induction fuel as [|fuel IH]; intros o Ho Hf; [lia|]. cbn [back_up].
  destruct (inside_byte i c o Hi Ho) as (b & -> & E). cbn [mbind option_bind]. rewrite E.
  destruct (Z.eqb_spec o 0) as [->|]; cbn [negb]; [by rewrite Z.add_0_r|].
  replace (position i + o - 1) with (position i + (o - 1)) by lia. apply IH; lia.
Qed.

(** Walking over characters. *)
Lemma forward_loop_ok ds p :
  Forall code ds -> reads s p (encs ds) -> forward_loop (length ds) s p = Some (p + zlen (encs ds)).
Proof.
  intros H. revert p. induction H as [|c ds Hc _ IH]; intros p Hr.
  - change (zlen (encs [])) with 0. cbn [length forward_loop]. f_equal. lia.
  - rewrite encs_cons in *. apply reads_app in Hr as [H1 H2]. cbn [length forward_loop].
    rewrite (next_char_enc _ _ c) by done. cbn [mbind option_bind]. rewrite IH by done.
    rewrite zlen_app. f_equal. lia.
Qed.

Lemma pointer_loop_ok fuel ds p off :
  Forall code ds -> reads s p (encs ds) -> (length ds <= fuel)%nat ->
  pointer_to_offset_loop fuel s p (p + zlen (encs ds)) off = Some (off + Z.of_nat (length ds)).
Proof.
  intros H. revert fuel p off. induction H as [|c ds Hc _ IH]; intros fuel p off Hr Hf.
  - change (zlen (encs [])) with 0. rewrite Z.add_0_r.
    assert ((p <=? p) = true) as E by (apply Z.leb_le; lia).
    destruct fuel; cbn [pointer_to_offset_loop]; rewrite E; f_equal; cbn; lia.
  - destruct fuel as [|fuel]; [cbn in Hf; lia|]. cbn [length] in *. rewrite encs_cons in *.
    apply reads_app in Hr as [H1 H2]. rewrite zlen_app. cbn [pointer_to_offset_loop].
    pose proof (zlen_enc_pos c Hc). pose proof (zlen_nonneg (encs ds)).
    destruct (Z.leb_spec (p + (zlen (enc c) + zlen (encs ds))) p); [lia|].
    rewrite (next_char_enc _ _ c) by done. cbn [mbind option_bind].
    rewrite Z.add_assoc, IH by (done || lia). f_equal. lia.
Qed.

Lemma length_fits i j : (i <= j <= length cs)%nat -> (j - i <= length s)%nat.
Proof.
  intros H. pose proof (position_gap i j H). destruct (decide (i = j)) as [->|]; [lia|].
  pose proof (segment_reads i j ltac:(lia)) as R. apply reads_bounds in R.
  - rewrite (position_split i j) in H0 by lia. unfold zlen in *. lia.
  - intros E. rewrite (position_split i j), E in H0 by lia. change (zlen []) with 0 in H0. lia.
Qed.

Lemma pointer_to_offset_ok i j :
  (i <= length cs)%nat -> (j <= length cs)%nat ->
  xutf8_pointer_to_offset s (position i) (position j) = Some (Z.of_nat j - Z.of_nat i).
Proof.
  enough (forall i j, (i <= j <= length cs)%nat ->
    pointer_to_offset_loop (length s) s (position i) (position j) 0 = Some (Z.of_nat j - Z.of_nat i)) as Hup.
  { intros Hi Hj. unfold xutf8_pointer_to_offset. destruct (Z.ltb_spec (position j) (position i)).
    - rewrite Hup; [cbn; f_equal; lia|]. split; [|lia].
      destruct (decide (j <= i)%nat); [done|]. pose proof (position_gap i j). lia.
    - apply Hup. split; [|lia]. destruct (decide (i <= j)%nat); [done|].
      pose proof (position_gap j i). lia. }
  clear i j. intros i j H. rewrite (position_split i j) by lia.
  rewrite pointer_loop_ok; [|apply segment_codes|apply segment_reads; lia|].
  - rewrite segment_length by lia. f_equal. lia.
  - rewrite segment_length by lia. by apply length_fits.
Qed.

Lemma stutter_loop_ok fuel j k :
  (k <= j <= length cs)%nat -> (k <= fuel)%nat ->
  stutter_loop fuel s (position j) (- Z.of_nat k) = Some (position (j - k)).
Proof.
  revert j k. induction fuel as [|fuel IH]; intros j k Hj Hf.
  { replace k with 0%nat by lia. by rewrite Nat.sub_0_r. }
  cbn [stutter_loop]. destruct (Z.eqb_spec (- Z.of_nat k) 0).
  { replace k with 0%nat by lia. by rewrite Nat.sub_0_r. }
  pose proof (position_gap (j - k) j ltac:(lia)) as G.
  pose proof (position_gap 0 (j - k) ltac:(lia)) as G0. rewrite position_0 in G0.
  destruct (char_at j (position j + - Z.of_nat k)) as (i & c & Hi & Hc & Hx); [lia..|].
  assert (j - k <= i)%nat as Hik.
  { destruct (decide (j - k <= i)%nat); [done|].
    pose proof (position_gap (S i) (j - k) ltac:(lia)) as G1. rewrite (position_S i c Hc) in G1. lia. }
  replace (position j + - Z.of_nat k) with (position i + (position j + - Z.of_nat k - position i)) by lia.
  destruct (char_reads i c Hc) as [Hcc Hr].
  assert (zlen (enc c) <= zlen s) as Hl.
  { apply reads_bounds in Hr; [lia|]. by apply enc_nonempty. }
  rewrite (back_up_ok _ i c) by (done || unfold zlen in *; lia). cbn [mbind option_bind].
  rewrite pointer_to_offset_ok by lia. cbn [mbind option_bind].
  replace (- Z.of_nat k + (Z.of_nat j - Z.of_nat i)) with (- Z.of_nat (k - (j - i))) by lia.
  rewrite IH by lia. f_equal. f_equal. lia.
Qed.

Lemma offset_to_pointer_ok i j :
  (i <= length cs)%nat -> (j <= length cs)%nat ->
  xutf8_offset_to_pointer s (position i) (Z.of_nat j - Z.of_nat i) = Some (position j).
Proof.
  intros Hi Hj. unfold xutf8_offset_to_pointer. destruct (Z.ltb_spec 0 (Z.of_nat j - Z.of_nat i)).
  - rewrite (position_split i j) by lia.
    replace (Z.to_nat (Z.of_nat j - Z.of_nat i)) with (length (take (j - i) (drop i cs)))
      by (rewrite segment_length; lia).
    apply forward_loop_ok; [apply segment_codes|by apply segment_reads; lia].
  - replace (Z.of_nat j - Z.of_nat i) with (- Z.of_nat (i - j)) by lia.
    pose proof (length_fits j i ltac:(lia)).
    rewrite stutter_loop_ok by lia. f_equal. f_equal. lia.
Qed.

(** *** The previous and the next character *)

Lemma find_prev_loop_ok n i c o :
  cs !! i = Some c -> 0 < o <= zlen (enc c) -> o <= Z.of_nat n ->
  find_prev_loop n s (position i + o) = Some (Some (position i)).
Proof.
  intros Hi. revert o. induction n as [|n IH]; intros o Ho Hf; [lia|]. cbn [find_prev_loop].
  replace (position i + o - 1) with (position i + (o - 1)) by lia.
  destruct (inside_byte i c (o - 1) Hi ltac:(lia)) as (b & -> & E). cbn [mbind option_bind]. rewrite E.
  destruct (Z.eqb_spec (o - 1) 0) as [->|]; cbn [negb]; [by rewrite Z.add_0_r|]. apply IH; lia.
Qed.

Lemma prev_char_loop_ok fuel i c o :
  cs !! i = Some c -> 0 < o <= zlen (enc c) -> o <= Z.of_nat fuel ->
  prev_char_loop fuel s (position i + o) = Some (position i).
Proof.
  intros Hi. revert o. induction fuel as [|n IH]; intros o Ho Hf; [lia|]. cbn [prev_char_loop].
  replace (position i + o - 1) with (position i + (o - 1)) by lia.
  destruct (inside_byte i c (o - 1) Hi ltac:(lia)) as (b & -> & E). cbn [mbind option_bind]. rewrite E.
  destruct (Z.eqb_spec (o - 1) 0) as [->|]; cbn [negb]; [by rewrite Z.add_0_r|]. apply IH; lia.
Qed.

Lemma position_ge i : (i <= length cs)%nat -> str <= position i.
Proof. intros. pose proof (position_gap 0 i ltac:(lia)) as G. rewrite position_0 in G. lia. Qed.

Lemma prev_char_ok i c p :
  cs !! i = Some c -> position i < p <= position (S i) ->
  xutf8_prev_char s p = Some (position i) /\ xutf8_find_prev_char s str p = Some (Some (position i)).
Proof.
  intros Hi Hp. rewrite (position_S i c Hi) in Hp. destruct (char_reads i c Hi) as [Hc Hr].
  apply reads_bounds in Hr as [H0 Hr]; [|by apply enc_nonempty].
  pose proof (lookup_lt_Some _ _ _ Hi). pose proof (position_ge i ltac:(lia)).
  replace p with (position i + (p - position i)) by lia. split.
  - apply (prev_char_loop_ok _ i c); [done|lia|unfold zlen in *; lia].
  - apply (find_prev_loop_ok _ i c); [done|lia|lia].
Qed.

Lemma find_next_loop_ok fuel i c o end_ :
  cs !! i = Some c -> 0 < o <= zlen (enc c) -> zlen (enc c) - o < Z.of_nat fuel ->
  match end_ with Some e => position (S i) <= e | None => True end ->
  (match end_ with Some e => position (S i) = e | None => False end \/
   exists b, rd s (position (S i)) = Some b /\ is_continuation b = false) ->
  find_next_loop fuel s (position i + o) end_ = Some (position (S i)).
Proof.
  intros Hi Ho Hf He Hend. rewrite (position_S i c Hi) in *. revert o Ho Hf.
  induction fuel as [|fuel IH]; intros o Ho Hf; [lia|]. cbn [find_next_loop].
  destruct (Z.eqb_spec o (zlen (enc c))) as [->|Hlt].
  - destruct end_ as [e|].
    + destruct (Z.leb_spec e (position i + zlen (enc c))); [done|].
      destruct Hend as [?|(b & -> & E)]; [lia|]. cbn. by rewrite E.
    + destruct Hend as [[]|(b & -> & E)]. cbn. by rewrite E.
  - assert ((match end_ with Some e => e <=? position i + o | None => false end) = false) as ->.
    { destruct end_ as [e|]; [|done]. apply Z.leb_gt. lia. }
    destruct (inside_byte i c o Hi ltac:(lia)) as (b & -> & E). cbn [mbind option_bind]. rewrite E.
    destruct (Z.eqb_spec o 0); [lia|]. cbn [negb]. rewrite <- Z.add_assoc. apply IH; lia.
Qed.
End positions.

(** ** Copies *)

Lemma encs_nonzero cs : Forall char cs -> Forall (fun b => is_byte b /\ b <> 0) (encs cs).
Proof.
  induction 1 as [|c cs Hc _ IH]; [by apply Forall_nil|]. rewrite encs_cons. apply Forall_app.
  split; [by apply enc_nonzero|done].
Qed.

Lemma encs_bytes cs : Forall code cs -> Forall is_byte (encs cs).
Proof.
  induction 1 as [|c cs Hc _ IH]; [by apply Forall_nil|]. rewrite encs_cons. apply Forall_app. split; [|done].
  destruct (enc_head c Hc) as (b & t & -> & Hb & _ & Ht & _). apply Forall_cons. split; [done|].
  eapply Forall_impl; [exact Ht|apply cont_byte].
Qed.

Lemma block_encs s str cs i j :
  Forall code cs -> reads s str (encs cs) -> 0 <= str <= zlen s -> (i <= j <= length cs)%nat ->
  cells_at s (position str cs i) (position str cs j - position str cs i) =
  Some (encs (take (j - i) (drop i cs))).
Proof.
  intros Hcs Hs Hb H. rewrite (position_split str cs i j) by lia.
  replace (position str cs i + zlen (encs (take (j - i) (drop i cs))) - position str cs i)
    with (zlen (encs (take (j - i) (drop i cs)))) by lia.
  apply reads_block; [|by apply segment_reads; [|lia]].
  pose proof (position_ge str cs Hcs i ltac:(lia)). split; [lia|].
  destruct (decide (i = 0%nat)) as [->|]; [rewrite position_0; lia|].
  pose proof (segment_reads s str cs Hs 0 i ltac:(lia)) as R. rewrite position_0 in R.
  pose proof (position_gap str cs Hcs 0 i ltac:(lia)) as G.
  rewrite (position_split str cs 0 i), position_0 in G |- * by lia.
  apply reads_bounds in R as [_ R]; [lia|]. intros E. rewrite E in G. change (zlen []) with 0 in G. lia.
Qed.

Lemma substring_ok s cs i j :
  Forall code cs -> reads s 0 (encs cs) -> (i <= j <= length cs)%nat ->
  xutf8_substring s (Z.of_nat i) (Z.of_nat j) = Some (Some (encs (take (j - i) (drop i cs)) ++ [0])).
Proof.
  intros Hcs Hs H. unfold xutf8_substring.
  assert ((Z.of_nat i <=? Z.of_nat j) = true) as -> by (apply Z.leb_le; lia).
  cbn [orb negb]. destruct (Z.eqb_spec (Z.of_nat j) (-1)); [lia|].
  replace (Z.of_nat i) with (Z.of_nat i - Z.of_nat 0) at 1 by lia.
  rewrite <- (position_0 0 cs) at 1. rewrite offset_to_pointer_ok by (done || lia).
  cbn [mbind option_bind]. rewrite offset_to_pointer_ok by (done || lia). cbn [mbind option_bind].
  rewrite block_encs; [done..| |done]. pose proof (zlen_nonneg s). lia.
Qed.

Lemma substring_end_ok s cs i :
  Forall char cs -> reads s 0 (encs cs ++ [0]) -> (i <= length cs)%nat ->
  xutf8_substring s (Z.of_nat i) (-1) = Some (Some (encs (drop i cs) ++ [0])).
Proof.
  intros Hch Hs0 H. pose proof (chars_codes _ Hch) as Hcs. pose proof Hs0 as Hs.
  apply reads_app in Hs as [Hs Hz]. unfold xutf8_substring. rewrite orb_true_r.
  cbn [negb]. rewrite Z.eqb_refl.
  pose proof (offset_to_pointer_ok s 0 cs Hcs Hs 0 i ltac:(lia) H) as E.
  rewrite position_0, Z.sub_0_r in E. rewrite E. cbn [mbind option_bind]. rewrite (strlen_spec s _ (-1) (drop i cs)).
  - cbn [mbind option_bind]. change (-1 <? 0) with true. cbn iota. rewrite length_drop.
    replace (Z.of_nat (length cs - i)) with (Z.of_nat (length cs) - Z.of_nat i) by lia.
    rewrite offset_to_pointer_ok by (done || lia). cbn [mbind option_bind].
    rewrite block_encs; [|done|done|pose proof (zlen_nonneg s); lia|lia].
    cbn [mbind option_bind]. rewrite take_ge by (rewrite length_drop; lia). done.
  - by apply Forall_drop.
  - change (-1 <? 0) with true. cbn [bounded]. apply reads_app.
    pose proof (segment_reads s 0 cs Hs i (length cs) H) as R.
    rewrite take_ge in R by (rewrite length_drop; lia). split; [done|].
    replace (position 0 cs i + zlen (encs (drop i cs))) with (0 + zlen (encs cs)); [done|].
    unfold position. rewrite <- (take_drop i cs) at 1. rewrite encs_app, zlen_app. lia.
Qed.

Lemma strncpy_loop_ok n s p cs :
  Forall char cs -> reads s p (encs cs ++ [0]) ->
  strncpy_loop n s p = Some (p + zlen (encs (take n cs))).
Proof.
  intros H. revert n p. induction H as [|c cs Hc _ IH]; intros [|n] p Hr; cbn [strncpy_loop take].
  1, 3: f_equal; change (zlen (encs [])) with 0; lia.
  - destruct Hr as [-> _]. cbn [mbind option_bind]. rewrite Z.eqb_refl. f_equal.
    change (zlen (encs [])) with 0. lia.
  - rewrite encs_cons in Hr |- *. rewrite <- app_assoc in Hr. apply reads_app in Hr as [H1 H2].
    destruct (enc_rest_nonzero c Hc) as (b & t & E & Hb).
    destruct (enc_head c (char_code c Hc)) as (b' & t' & E' & _ & _ & _ & Hk).
    assert (b' = b) as -> by congruence. rewrite E in H1. destruct H1 as [-> _].
    cbn [mbind option_bind]. destruct (Z.eqb_spec b 0); [done|]. rewrite Hk, IH by done.
    rewrite zlen_app. f_equal. lia.
Qed.

Lemma c_strncpy_ok l rest :
  Forall (fun b => b <> 0) l -> strncpy (length l) (l ++ rest) = Some l.
Proof.
  induction 1 as [|b l Hb _ IH]; [done|]. cbn [length app strncpy].
  destruct (Z.eqb_spec b 0); [done|]. by rewrite IH.
Qed.

Lemma Forall_proj2 {A} (P Q : A -> Prop) l : Forall (fun x => P x /\ Q x) l -> Forall Q l.
Proof. intros H. eapply Forall_impl; [exact H|]. by intros x [_ ?]. Qed.

Lemma reads_whole s l : reads s 0 l -> exists rest, s = l ++ rest.
Proof.
  intros H. exists (drop (length l) s). destruct l as [|b l]; [done|].
  pose proof (reads_bounds _ _ _ H ltac:(done)) as [_ Hl].
  pose proof (reads_block s 0 (b :: l) ltac:(pose proof (zlen_nonneg s); lia) H) as E.
  unfold cells_at in E. destruct (_ || _ || _); [done|]. injection E as E.
  unfold zlen in E. rewrite Nat2Z.id in E. change (drop (Z.to_nat 0) s) with s in E.
  pose proof (take_drop (length (b :: l)) s) as T. by rewrite E in T.
Qed.

Lemma xutf8_strncpy_ok dest s cs n :
  Forall char cs -> reads s 0 (encs cs ++ [0]) -> zlen (encs (take n cs)) < zlen dest ->
  xutf8_strncpy dest s n =
  Some ((encs (take n cs) ++ [0]) ++ drop (length (encs (take n cs)) + 1) dest).
Proof.
  intros Hch Hs Hl. unfold xutf8_strncpy. rewrite (strncpy_loop_ok n s 0 cs) by done.
  cbn [mbind option_bind]. destruct (reads_whole _ _ Hs) as [rest E].
  assert (s = encs (take n cs) ++ (encs (drop n cs) ++ [0]) ++ rest) as ->.
  { rewrite E. rewrite <- (take_drop n cs) at 1. by rewrite encs_app, <- !app_assoc. }
  rewrite Z.add_0_l. unfold zlen at 1. rewrite Nat2Z.id, c_strncpy_ok.
  - cbn [mbind option_bind].
    rewrite write_at_all; [cbn [Z.to_nat take app]|lia|autorewrite with xpl; lia].
    by rewrite length_app.
  - eapply Forall_proj2, encs_nonzero, Forall_take, Hch.
Qed.

(** ** Reversal *)

Lemma strreverse_loop_ok fuel s p cs out :
  Forall code cs -> reads s p (encs cs) -> (length cs <= fuel)%nat ->
  strreverse_loop fuel s p (zlen (encs cs)) out = Some (encs (rev cs) ++ out).
Proof.
  intros H. revert fuel p out. induction H as [|c cs Hc Hcs IH]; intros fuel p out Hr Hf.
  { by destruct fuel. }
  destruct fuel as [|fuel]; [cbn in Hf; lia|]. cbn [strreverse_loop].
  rewrite encs_cons in *. apply reads_app in Hr as [H1 H2].
  pose proof (zlen_enc_pos c Hc). pose proof (zlen_nonneg (encs cs)). rewrite zlen_app.
  destruct (Z.leb_spec (zlen (enc c) + zlen (encs cs)) 0); [lia|].
  destruct (enc_head c Hc) as (b & t & E & _ & _ & _ & Hk). pose proof H1 as Hr. rewrite E in Hr.
  destruct Hr as [-> _]. cbn [mbind option_bind]. rewrite Hk.
  replace (zlen (enc c) + zlen (encs cs) - zlen (enc c)) with (zlen (encs cs)) by lia.
  destruct (Z.ltb_spec (zlen (encs cs)) 0); [lia|].
  pose proof (reads_bounds _ _ _ H1 ltac:(by apply enc_nonempty)) as [? ?].
  rewrite reads_block by (done || lia). cbn [mbind option_bind]. cbn [length] in Hf.
  rewrite IH by (done || lia). cbn [rev]. rewrite encs_app, <- app_assoc. f_equal. f_equal.
  cbn [encs flat_map]. by rewrite app_nil_r.
Qed.

Lemma cstr_nonzero l rest : Forall (fun b => b <> 0) l -> cstr (l ++ 0 :: rest) = l.
Proof. apply cstr_app_nul. Qed.
