(* ===== verification/Utf8Validate.v ===== *)
(** * Validation

    The tests of the validator on the bytes of a sequence accept exactly the
    encodings of Unicode scalar values, and its loops stop at the first place
    where none stands. *)

From S2P Require Import Prelude.
From S2P Require Import Utf8.
From S2P Require Import Utf8Codec.
From S2P Require Import Utf8Text.
Local Open Scope Z_scope.
Local Open Scope xpl_scope.

(** Unicode scalar values, and those a string can hold. *)
Definition scalar (c : Z) : Prop := 0 <= c < 0x110000 /\ ~ 0xd800 <= c < 0xe000.
Definition text_char (c : Z) : Prop := scalar c /\ c <> 0.
#[export] Instance scalar_dec c : Decision (scalar c).
Proof. unfold scalar. apply _. Defined.
#[export] Instance text_char_dec c : Decision (text_char c).
Proof. unfold text_char. apply _. Defined.

Lemma text_char_char c : text_char c -> char c.
Proof. unfold text_char, scalar, char. lia. Qed.
Lemma text_chars cs : Forall text_char cs -> Forall char cs.
Proof. intros H. eapply Forall_impl; [exact H|apply text_char_char]. Qed.

(** ** Scalar values *)

Lemma land_high_bits c m k n :
  0 <= k -> 0 <= n -> 0 <= c < 2 ^ (n + k) -> m = Z.ones n << k -> c & m = c - c mod 2 ^ k.
Proof.
  intros Hk Hn Hc ->. assert (0 < 2 ^ k) by (apply Z.pow_pos_nonneg; lia).
  replace (c - c mod 2 ^ k) with ((c >> k) << k).
  - assert (0 <= c >> k < 2 ^ n) as Hq.
    { rewrite Z.shiftr_div_pow2 by done. rewrite Z.pow_add_r in Hc by done.
      split; [apply Z.div_pos; lia|apply Z.div_lt_upper_bound; lia]. }
    rewrite <- (Z.mod_small (c >> k) (2 ^ n)) by done.
    rewrite <- Z.land_ones by done. apply Z.bits_inj'. intros i Hi.
    rewrite Z.land_spec, !Z.shiftl_spec by done. destruct (Z.ltb_spec i k).
    + rewrite !(Z.testbit_neg_r _ (i - k)) by lia. apply andb_false_r.
    + rewrite Z.land_spec, Z.shiftr_spec by lia. by rewrite Z.sub_add.
  - rewrite Z.shiftl_mul_pow2, Z.shiftr_div_pow2 by done.
    pose proof (Z.div_mod c (2 ^ k) ltac:(lia)). lia.
Qed.

Lemma UNICODE_VALID_ok c : 0 <= c < 2 ^ 32 -> UNICODE_VALID c = bool_decide (scalar c).
Proof.
  intros Hc. unfold UNICODE_VALID.
  rewrite (land_high_bits c 0xFFFFF800 11 21) by (done || lia).
  assert ((c - c mod 2 ^ 11 =? 0xd800) = bool_decide (0xd800 <= c < 0xe000)) as ->.
  { case_bool_decide; zcases; try done; zify_div. }
  unfold scalar. destruct (Z.ltb_spec c 0x110000); cbn [andb]; repeat case_bool_decide; done || lia.
Qed.

Lemma error_bit c : 0 <= c < 2 ^ 31 -> (c & 0x80000000 =? 0) = true.
Proof.
  intros Hc. rewrite (land_high_bits c 0x80000000 31 1) by (done || lia).
  rewrite Z.mod_small by lia. apply Z.eqb_eq. lia.
Qed.

(** ** Sequences *)

Lemma enc_1 c : 0 <= c < 0x80 -> enc c = [c].
Proof.
  intros H. unfold enc. rewrite to_utf8_eq by lia. code_cases c; try lia.
  cbn [snd digits]. by rewrite Z.div_1_r.
Qed.
Lemma enc_2 c : 0x80 <= c < 0x800 -> enc c = [0xc0 + c / 64; 0x80 + c mod 64].
Proof.
  intros H. unfold enc. rewrite to_utf8_eq by lia. code_cases c; try lia.
  cbn [snd digits]. by rewrite Z.div_1_r.
Qed.
Lemma enc_3 c :
  0x800 <= c < 0x10000 -> enc c = [0xe0 + c / 4096; 0x80 + (c / 64) mod 64; 0x80 + c mod 64].
Proof.
  intros H. unfold enc. rewrite to_utf8_eq by lia. code_cases c; try lia.
  cbn [snd digits]. by rewrite Z.div_1_r.
Qed.
Lemma enc_4 c :
  0x10000 <= c < 0x200000 ->
  enc c = [0xf0 + c / 262144; 0x80 + (c / 4096) mod 64; 0x80 + (c / 64) mod 64; 0x80 + c mod 64].
Proof.
  intros H. unfold enc. rewrite to_utf8_eq by lia. code_cases c; try lia.
  cbn [snd digits]. by rewrite Z.div_1_r.
Qed.

(** The second bytes of longer sequences. *)
Definition second3 (first b : Z) : Prop :=
  cont b /\ (first = 0xe0 -> 0xa0 <= b) /\ (first = 0xed -> b < 0xa0).
Definition second4 (first b : Z) : Prop :=
  cont b /\ (first = 0xf0 -> 0x90 <= b) /\ (first = 0xf4 -> b < 0x90).
#[export] Instance second3_dec first b : Decision (second3 first b).
Proof. unfold second3. apply _. Defined.
#[export] Instance second4_dec first b : Decision (second4 first b).
Proof. unfold second4. apply _. Defined.

(** The length of the sequence of two bytes or more that starts a list. *)
Definition sequence (l : list Z) : option Z :=
  match l with
  | b :: b1 :: t =>
      if decide (0xc2 <= b < 0xe0) then if decide (cont b1) then Some 2 else None
      else if decide (0xe0 <= b < 0xf0) then
        match t with
        | b2 :: _ => if decide (second3 b b1 /\ cont b2) then Some 3 else None
        | [] => None
        end
      else if decide (0xf0 <= b < 0xf5) then
        match t with
        | b2 :: b3 :: _ => if decide (second4 b b1 /\ cont b2 /\ cont b3) then Some 4 else None
        | _ => None
        end
      else None
  | _ => None
  end.

Lemma sequence_sound l k :
  sequence l = Some k -> exists c, scalar c /\ 0x80 <= c /\ enc c `prefix_of` l /\ zlen (enc c) = k.
Proof.
  destruct l as [|b [|b1 t]]; [done..|]. cbn [sequence]. unfold cont, second3, second4, cont, scalar.
  repeat case_decide; [|done| | |done].
  - intros [= <-]. exists ((b - 0xc0) * 64 + (b1 - 0x80)). rewrite enc_2 by lia.
    split_and!; try zify_div; [exists t; cbn; f_equal; [zify_div|f_equal; zify_div]|done].
  - destruct t as [|b2 t]; [done|]. case_decide; [|done]. intros [= <-].
    exists ((b - 0xe0) * 4096 + (b1 - 0x80) * 64 + (b2 - 0x80)). rewrite enc_3 by lia.
    split_and!; try zify_div; [exists t; cbn; repeat (f_equal; [zify_div|]); f_equal; zify_div|done].
  - destruct t as [|b2 [|b3 t]]; [done..|]. case_decide; [|done]. intros [= <-].
    exists ((b - 0xf0) * 262144 + (b1 - 0x80) * 4096 + (b2 - 0x80) * 64 + (b3 - 0x80)).
    rewrite enc_4 by lia.
    split_and!; try zify_div; [exists t; cbn; repeat (f_equal; [zify_div|]); f_equal; zify_div|done].
Qed.

Lemma sequence_complete c rest :
  scalar c -> 0x80 <= c -> sequence (enc c ++ rest) = Some (zlen (enc c)).
Proof.
  intros [Hc Hs] Hlo. destruct (Z.ltb_spec c 0x800); [|destruct (Z.ltb_spec c 0x10000)].
  - rewrite enc_2 by lia. cbn [app sequence]. unfold cont.
    repeat case_decide; first [done|zify_div].
  - rewrite enc_3 by lia. cbn [app sequence]. unfold second3, cont.
    repeat case_decide; first [done|zify_div].
  - rewrite enc_4 by lia. cbn [app sequence]. unfold second4, cont.
    repeat case_decide; first [done|zify_div].
Qed.

(** ** The tests of the validator *)

(** [VALIDATE_BYTE] with the masks of the source. *)
Definition byte_tests (b : Z) : bool :=
  bool_decide ((b & 0xc0 =? 0x80) = bool_decide (cont b)) &&
  bool_decide ((b & 0xe0 =? 0xa0) = bool_decide (0xa0 <= b < 0xc0)) &&
  bool_decide ((b & 0xe0 =? 0x80) = bool_decide (0x80 <= b < 0xa0)) &&
  bool_decide ((b & 0xf0 =? 0x80) = bool_decide (0x80 <= b < 0x90)) &&
  bool_decide (cont b -> (b & 0x30 =? 0) = bool_decide (b < 0x90)) &&
  bool_decide (0xe0 <= b < 0xf0 -> b & 0x0f = b - 0xe0) &&
  bool_decide (0xf0 <= b < 0xf5 -> b & 0x07 = b - 0xf0).

Lemma byte_tests_ok b :
  is_byte b ->
  (b & 0xc0 =? 0x80) = bool_decide (cont b) /\
  (b & 0xe0 =? 0xa0) = bool_decide (0xa0 <= b < 0xc0) /\
  (b & 0xe0 =? 0x80) = bool_decide (0x80 <= b < 0xa0) /\
  (b & 0xf0 =? 0x80) = bool_decide (0x80 <= b < 0x90) /\
  (cont b -> (b & 0x30 =? 0) = bool_decide (b < 0x90)) /\
  (0xe0 <= b < 0xf0 -> b & 0x0f = b - 0xe0) /\
  (0xf0 <= b < 0xf5 -> b & 0x07 = b - 0xf0).
Proof.
  intros Hb. pose proof (range_check byte_tests 0 256 b ltac:(by vm_compute) Hb) as T.
  unfold byte_tests in T. rewrite !andb_true_iff, !bool_decide_eq_true in T.
  destruct T as [[[[[[? ?] ?] ?] ?] ?] ?]. by split_and!.
Qed.

Lemma VALIDATE_BYTE_cont s p b :
  rd s p = Some b -> is_byte b -> VALIDATE_BYTE s p 0xc0 0x80 = Some (bool_decide (cont b)).
Proof. intros Hr Hb. unfold VALIDATE_BYTE. rewrite Hr. cbn. by rewrite cont_test. Qed.

Lemma validate_second3_ok s p first b :
  rd s p = Some b -> is_byte b -> is_byte first -> 0xe0 <= first < 0xf0 ->
  validate_second3 s first p = Some (bool_decide (second3 first b)).
Proof.
  intros Hr Hb Hf Hr3. unfold validate_second3, VALIDATE_BYTE. rewrite Hr. cbn [mbind option_bind].
  destruct (byte_tests_ok b Hb) as (Tc & Ta & T8 & _). destruct (byte_tests_ok first Hf) as (_ & _ & _ & _ & _ & Tf & _).
  rewrite (Tf Hr3), Tc, Ta, T8. unfold second3, cont in *.
  zcases; f_equal; repeat case_bool_decide; try done; exfalso; lia.
Qed.

Lemma validate_second4_ok s p first b :
  rd s p = Some b -> is_byte b -> is_byte first -> 0xf0 <= first < 0xf5 ->
  validate_second4 s first p = Some (bool_decide (second4 first b)).
Proof.
  intros Hr Hb Hf Hr4. unfold validate_second4, VALIDATE_BYTE. rewrite Hr. cbn [mbind option_bind].
  destruct (byte_tests_ok b Hb) as (Tc & _ & _ & Tf0 & T3 & _). destruct (byte_tests_ok first Hf) as (_ & _ & _ & _ & _ & _ & Tf).
  rewrite (Tf Hr4), Tc, Tf0. unfold second4 in *.
  destruct (Z.eqb_spec (first - 0xf0) 0).
  - destruct (decide (cont b)) as [Hc|Hc].
    + rewrite bool_decide_true by done. rewrite (T3 Hc). cbn. f_equal. unfold cont in *.
      repeat case_bool_decide; try done; exfalso; lia.
    + rewrite bool_decide_false by done. rewrite bool_decide_false; [done|tauto].
  - destruct (Z.eqb_spec (first - 0xf0) 4); f_equal; unfold cont in *;
      repeat case_bool_decide; try done; exfalso; lia.
Qed.

(** *** What the validator may look at: [l], whose size [room] tells unless it
    ends with a NUL *)

Definition nul_ended (l : list Z) : Prop := exists l0, l = l0 ++ [0].
Definition room_for (room : Z -> bool) (l : list Z) : Prop :=
  (nul_ended l /\ forall n, room n = true) \/ forall n, room n = (n <=? zlen l).

Lemma nul_ended_tail b t : nul_ended (b :: t) -> b <> 0 -> nul_ended t.
Proof. intros [[|x l0] E] Hb; cbn in E; injection E as -> ->; [done|by exists l0]. Qed.
Lemma nul_ended_cons t : nul_ended t -> exists b t', t = b :: t'.
Proof. intros [[|x l0] ->]; eauto. Qed.

Lemma room_no room l n : room_for room l -> room n = false -> zlen l < n.
Proof. intros [[_ H]|H]; rewrite H; [done|]. apply Z.leb_gt. Qed.

(** Another byte, when there is room for it or the last one is not a NUL. *)
Lemma room_next room n l l1 b t :
  room_for room l -> room n = true -> l = l1 ++ b :: t -> Forall (fun b => b <> 0) (l1 ++ [b]) ->
  zlen l1 + 1 < n -> exists b1 t1, t = b1 :: t1.
Proof.
  intros [[Hn _]|Hr] Hroom -> Hnz Hlt.
  - apply nul_ended_cons. rewrite cons_middle, app_assoc in Hn. revert Hn.
    induction Hnz as [|x l Hx _ IH]; [done|]. intros H. apply IH. by apply nul_ended_tail in H.
  - rewrite Hr, Z.leb_le, zlen_app, zlen_cons in Hroom. destruct t as [|b1 t1]; [|by eauto].
    change (zlen []) with 0 in Hroom. lia.
Qed.

Lemma cont_nonzero b : cont b -> b <> 0.
Proof. unfold cont. lia. Qed.

(** A goal whose bytes are in the wrong ranges, or in the right ones. *)
Ltac no_sequence := cbn [sequence fmap option_fmap option_map]; repeat case_decide; try done; exfalso; lia.

Section one_sequence.
Context (s : list Z) (room : Z -> bool) (p b : Z) (t : list Z).
Context (Hr : rd s p = Some b) (Hs : reads s (p + 1) t).
Context (Hb : is_byte b) (Ht : Forall is_byte t) (Hroom : room_for room (b :: t)).
Context (Hlo : 0x80 <= b).

Definition expected : option (option Z) := Some ((fun k => p + k - 1) <$> sequence (b :: t)).

Lemma last_byte_ok n q x l1 rest :
  b :: t = l1 ++ x :: rest -> q = p + zlen l1 -> l1 <> [] ->
  sequence (b :: t) = (if decide (cont x) then Some n else None) -> n = zlen l1 + 1 ->
  (ok ← VALIDATE_BYTE s q 0xc0 0x80; Some (if (ok : bool) then Some q else None)) = expected.
Proof.
  intros E -> Hl Hseq ->. unfold expected. rewrite Hseq.
  destruct l1 as [|y l1]; [done|]. injection E as <- E.
  rewrite E in Hs, Ht. apply reads_app in Hs as [_ [Hx _]]. apply Forall_app in Ht as [_ [Hbx _]%Forall_cons].
  rewrite (VALIDATE_BYTE_cont _ _ x); [|rewrite zlen_cons, Z.add_assoc; done|done].
  cbn [mbind option_bind]. case_decide as Hc.
  - rewrite bool_decide_true by done. cbn. f_equal. f_equal. lia.
  - by rewrite bool_decide_false.
Qed.

Lemma validate_2 :
  b < 0xe0 ->
  (if negb (room 2) then Some None
   else if b <? 0xc2 then Some None
   else ok ← VALIDATE_BYTE s (p + 1) 0xc0 0x80; Some (if (ok : bool) then Some (p + 1) else None)) = expected.
Proof.
  intros Hlt. destruct (room 2) eqn:H2; cbn [negb].
  - destruct (room_next room 2 (b :: t) [] b t) as (b1 & t1 & E); try done.
    { repeat apply Forall_cons_2; [lia|by apply Forall_nil]. }
    destruct (Z.ltb_spec b 0xc2).
    + unfold expected. rewrite E. no_sequence.
    + apply (last_byte_ok 2 _ b1 [b] t1); try done; [by rewrite E|].
      rewrite E. cbn [sequence]. by rewrite decide_True by lia.
  - apply (room_no _ _ _ Hroom) in H2. unfold expected. destruct t as [|b1 t1]; [no_sequence|].
    rewrite !zlen_cons in H2. pose proof (zlen_nonneg t1). lia.
Qed.

Lemma validate_3 :
  0xe0 <= b < 0xf0 ->
  (if negb (room 3) then Some None
   else
     ok ← validate_second3 s b (p + 1);
     if (ok : bool) then ok ← VALIDATE_BYTE s (p + 2) 0xc0 0x80; Some (if (ok : bool) then Some (p + 2) else None)
     else Some None) = expected.
Proof.
  intros Hb3. destruct (room 3) eqn:H3; cbn [negb].
  - destruct (room_next room 3 (b :: t) [] b t) as (b1 & t1 & E); try done.
    { repeat apply Forall_cons_2; [lia|by apply Forall_nil]. }
    pose proof Hs as Hs'. pose proof Ht as Ht'. rewrite E in Hs', Ht'.
    destruct Hs' as [Hr1 Hs']. apply Forall_cons in Ht' as [Hb1 Ht'].
    rewrite (validate_second3_ok _ _ _ b1) by done. cbn [mbind option_bind].
    destruct (decide (second3 b b1)) as [H|H].
    + rewrite bool_decide_true by done.
      destruct (room_next room 3 (b :: t) [b] b1 t1) as (b2 & t2 & E2); try done; [by rewrite E| |].
      { repeat apply Forall_cons_2; [lia|apply cont_nonzero, H|by apply Forall_nil]. }
      apply (last_byte_ok 3 _ b2 [b; b1] t2); try done; [by rewrite E, E2|].
      rewrite E, E2. cbn [sequence]. rewrite decide_False, decide_True by lia.
      repeat case_decide; tauto.
    + rewrite bool_decide_false by done. unfold expected. rewrite E. cbn [sequence].
      rewrite decide_False, decide_True by lia. destruct t1; [done|]. by rewrite decide_False by tauto.
  - apply (room_no _ _ _ Hroom) in H3. unfold expected. destruct t as [|b1 [|b2 t1]]; [no_sequence..|].
    rewrite !zlen_cons in H3. pose proof (zlen_nonneg t1). lia.
Qed.

Lemma validate_4 :
  0xf0 <= b < 0xf5 ->
  (if negb (room 4) then Some None
   else
     ok ← validate_second4 s b (p + 1);
     if (ok : bool) then
       ok ← VALIDATE_BYTE s (p + 2) 0xc0 0x80;
       if (ok : bool) then ok ← VALIDATE_BYTE s (p + 3) 0xc0 0x80; Some (if (ok : bool) then Some (p + 3) else None)
       else Some None
     else Some None) = expected.
Proof.
  intros Hb4. destruct (room 4) eqn:H4; cbn [negb].
  - destruct (room_next room 4 (b :: t) [] b t) as (b1 & t1 & E); try done.
    { repeat apply Forall_cons_2; [lia|by apply Forall_nil]. }
    pose proof Hs as Hs'. pose proof Ht as Ht'. rewrite E in Hs', Ht'.
    destruct Hs' as [Hr1 Hs']. apply Forall_cons in Ht' as [Hb1 Ht'].
    rewrite (validate_second4_ok _ _ _ b1) by done. cbn [mbind option_bind].
    destruct (decide (second4 b b1)) as [H|H].
    + rewrite bool_decide_true by done.
      destruct (room_next room 4 (b :: t) [b] b1 t1) as (b2 & t2 & E2); try done; [by rewrite E| |].
      { repeat apply Forall_cons_2; [lia|apply cont_nonzero, H|by apply Forall_nil]. }
      rewrite E2 in Hs', Ht'. destruct Hs' as [Hr2 Hs']. apply Forall_cons in Ht' as [Hb2 Ht'].
      rewrite (VALIDATE_BYTE_cont _ (p + 2) b2); [|replace (p + 2) with (p + 1 + 1) by lia; exact Hr2|exact Hb2].
      cbn [mbind option_bind]. destruct (decide (cont b2)) as [Hc2|Hc2].
      * rewrite bool_decide_true by done.
        destruct (room_next room 4 (b :: t) [b; b1] b2 t2) as (b3 & t3 & E3); try done; [by rewrite E, E2| |].
        { repeat apply Forall_cons_2; [lia|apply cont_nonzero, H|by apply cont_nonzero|by apply Forall_nil]. }
        apply (last_byte_ok 4 _ b3 [b; b1; b2] t3); try done; [by rewrite E, E2, E3|].
        rewrite E, E2, E3. cbn [sequence]. rewrite !decide_False, decide_True by lia.
        repeat case_decide; tauto.
      * rewrite bool_decide_false by done. unfold expected. rewrite E, E2. cbn [sequence].
        rewrite !decide_False, decide_True by lia. destruct t2; [done|]. by rewrite decide_False by tauto.
    + rewrite bool_decide_false by done. unfold expected. rewrite E. cbn [sequence].
      rewrite !decide_False, decide_True by lia. destruct t1 as [|? [|? ?]]; [done..|]. by rewrite decide_False by tauto.
  - apply (room_no _ _ _ Hroom) in H4. unfold expected. destruct t as [|b1 [|b2 [|b3 t1]]]; [no_sequence..|].
    rewrite !zlen_cons in H4. pose proof (zlen_nonneg t1). lia.
Qed.

Lemma validate_sequence_ok : validate_sequence s room p = expected.
Proof.
  unfold validate_sequence. rewrite Hr. cbn [mbind option_bind].
  destruct (Z.ltb_spec b 0xe0); [by apply validate_2|].
  destruct (Z.ltb_spec b 0xf0); [by apply validate_3|].
  destruct (Z.ltb_spec b 0xf5); [by apply validate_4|].
  unfold expected. destruct t as [|? ?]; no_sequence.
Qed.
End one_sequence.

(** ** The loops *)

Lemma nul_ended_app l1 l2 : nul_ended (l1 ++ l2) -> Forall (fun b => b <> 0) l1 -> nul_ended l2.
Proof.
  intros H Hl. induction Hl as [|b l1 Hb _ IH]; [done|]. apply IH. by apply nul_ended_tail in H.
Qed.

Lemma text_enc c : text_char c -> exists b t, enc c = b :: t /\ b <> 0 /\ (b < 0x80 -> c < 0x80).
Proof.
  intros Hc. destruct (enc_rest_nonzero c (text_char_char c Hc)) as (b & t & E & Hb).
  exists b, t. split_and!; [done..|]. intros Hlt. destruct (Z.lt_ge_cases c 0x80) as [|Hge]; [done|].
  destruct Hc as [Hc _]. pose proof (sequence_complete c [] Hc Hge) as H. rewrite app_nil_r, E in H.
  destruct t as [|b1 t]; [done|]. cbn [sequence] in H. rewrite !decide_False in H by lia. done.
Qed.

(** No character of a text stands at the start of the list. *)
Definition no_char (l : list Z) : Prop := forall c, text_char c -> ~ enc c `prefix_of` l.

Lemma no_char_nil : no_char [].
Proof. intros c Hc [k E]. destruct (text_enc c Hc) as (b & t & E' & _). by rewrite E' in E. Qed.
Lemma no_char_0 t : no_char (0 :: t).
Proof.
  intros c Hc [k E]. destruct (text_enc c Hc) as (b & t' & E' & Hb & _). rewrite E' in E.
  cbn in E. congruence.
Qed.
Lemma no_char_sequence b t : 0x80 <= b -> sequence (b :: t) = None -> no_char (b :: t).
Proof.
  intros Hb Hn c Hc [k E]. destruct (text_enc c Hc) as (b' & t' & E' & _ & Hlt).
  assert (b' = b) as -> by (rewrite E' in E; by injection E as -> _).
  destruct (Z.lt_ge_cases c 0x80) as [H|H].
  - destruct Hc as [[Hc _] _]. rewrite enc_1 in E' by lia. injection E' as -> _. lia.
  - rewrite E, sequence_complete in Hn; [done|apply Hc|done].
Qed.

Definition limit (max_len : option Z) (str p : Z) (l : list Z) : Prop :=
  match max_len with None => nul_ended l | Some m => zlen l = m - (p - str) end.

Lemma limit_app max_len str p l1 l2 :
  limit max_len str p (l1 ++ l2) -> Forall (fun b => b <> 0) l1 -> limit max_len str (p + zlen l1) l2.
Proof.
  intros H Hl. destruct max_len as [m|]; cbn in *; [rewrite zlen_app in H; lia|by eapply nul_ended_app].
Qed.

Lemma limit_room max_len str p l :
  limit max_len str p l ->
  room_for (fun n => match max_len with Some m => negb (m - (p - str) <? n) | None => true end) l.
Proof.
  intros H. destruct max_len as [m|]; cbn in H; [right|by left].
  intros n. rewrite H. zcases; (done || lia).
Qed.

Definition valid_prefix (l cs rest : list Z) : Prop :=
  l = encs cs ++ rest /\ Forall text_char cs /\ no_char rest.

Lemma valid_prefix_stop l : no_char l -> valid_prefix l [] l.
Proof. intros H. split_and!; [done|by apply Forall_nil|done]. Qed.
Lemma valid_prefix_cons c l cs rest :
  text_char c -> valid_prefix l cs rest -> valid_prefix (enc c ++ l) (c :: cs) rest.
Proof.
  intros Hc (-> & Hcs & Hr). split_and!; [by rewrite encs_cons, app_assoc|by apply Forall_cons|done].
Qed.

Lemma validate_loop_ok fuel s max_len str p l :
  reads s p l -> Forall is_byte l -> limit max_len str p l -> (length l < fuel)%nat ->
  exists cs rest, valid_prefix l cs rest /\
    validate_loop fuel s max_len str p = Some (p + zlen (encs cs)).
Proof.
  revert p l. induction fuel as [|fuel IH]; intros p l Hs Hb Hl Hf; [lia|]. cbn [validate_loop].
  (* after a character, the loop goes on *)
  assert (forall c l', text_char c -> l = enc c ++ l' -> exists cs rest,
    valid_prefix l cs rest /\
    validate_loop fuel s max_len str (p + zlen (enc c)) = Some (p + zlen (encs cs))) as Hgo.
  { intros c l' Hc ->. apply reads_app in Hs as [_ Hs]. apply Forall_app in Hb as [_ Hb].
    apply limit_app in Hl; [|eapply Forall_proj2, enc_nonzero, text_char_char, Hc].
    pose proof (enc_nonempty c (char_code c (text_char_char c Hc))) as Hne.
    destruct (IH (p + zlen (enc c)) l' Hs Hb Hl) as (cs & rest & Hv & E).
    { rewrite length_app in Hf. destruct (enc c); [done|]. cbn in Hf. lia. }
    exists (c :: cs), rest. split; [by apply valid_prefix_cons|].
    rewrite E, encs_cons, zlen_app. f_equal. lia. }
  assert (no_char l -> exists cs rest, valid_prefix l cs rest /\ Some p = Some (p + zlen (encs cs))) as Hstop.
  { intros H. exists [], l. split; [by apply valid_prefix_stop|]. f_equal. change (zlen (encs [])) with 0. lia. }
  destruct l as [|b t].
  { destruct max_len as [m|]; [|by destruct Hl as [[|? ?] ?]]. cbn in Hl.
    assert ((m <=? p - str) = true) as -> by (apply Z.leb_le; change (zlen []) with 0 in Hl; lia).
    apply Hstop, no_char_nil. }
  assert ((match max_len with Some m => m <=? p - str | None => false end) = false) as ->.
  { destruct max_len as [m|]; [|done]. cbn in Hl. rewrite zlen_cons in Hl.
    pose proof (zlen_nonneg t). apply Z.leb_gt. lia. }
  destruct Hs as [Hr Hs]. rewrite Hr. cbn [mbind option_bind].
  destruct (Z.eqb_spec b 0) as [->|Hb0]; [apply Hstop, no_char_0|].
  apply Forall_cons in Hb as [Hb Ht].
  destruct (Z.ltb_spec b 128) as [Hlt|Hge].
  - unfold is_byte in Hb. assert (text_char b) as Hc by (unfold text_char, scalar; lia).
    destruct (Hgo b t Hc) as (cs & rest & Hv & E); [by rewrite enc_1 by lia|].
    rewrite enc_1 in E by lia. exists cs, rest. by split.
  - rewrite (validate_sequence_ok s _ p b t) by (done || by apply limit_room).
    unfold expected. cbn [mbind option_bind].
    destruct (sequence (b :: t)) as [k|] eqn:Ek; cbn [fmap option_fmap option_map].
    + destruct (sequence_sound _ _ Ek) as (c & Hc & H80 & [l' El] & Hk).
      destruct (Hgo c l') as (cs & rest & Hv & E); [split; [done|lia]|done|].
      exists cs, rest. split; [done|]. rewrite <- E. f_equal. lia.
    + apply Hstop. by apply no_char_sequence.
Qed.

(** ** The functions *)

Lemma bool_decide_nil {A} (l : list A) : bool_decide (l = []) = (zlen l =? 0).
Proof.
  destruct l as [|x l]; [done|]. rewrite zlen_cons. pose proof (zlen_nonneg l).
  rewrite bool_decide_false by done. symmetry. apply Z.eqb_neq. lia.
Qed.

Lemma reads_length s p l : reads s p l -> (length l <= length s)%nat.
Proof.
  intros H. destruct l as [|b l]; [cbn; lia|]. apply reads_bounds in H; [|done]. unfold zlen in H. lia.
Qed.

Lemma validate_len_ok s str m l :
  reads s str l -> Forall is_byte l -> zlen l = m ->
  exists cs rest, valid_prefix l cs rest /\
    xutf8_validate_len s str m = Some (bool_decide (rest = []), str + zlen (encs cs)).
Proof.
  intros Hs Hb Hm. pose proof (zlen_nonneg l). pose proof (reads_length _ _ _ Hs).
  unfold xutf8_validate_len, fast_validate_len. destruct (Z.ltb_spec m 0); [lia|].
  destruct (validate_loop_ok (S (length s)) s (Some m) str str l) as (cs & rest & Hv & E); [done..|cbn; lia|lia|].
  exists cs, rest. split; [done|]. rewrite E. cbn [mbind option_bind]. f_equal. f_equal.
  destruct Hv as (-> & _ & _). rewrite zlen_app in Hm. rewrite bool_decide_nil.
  pose proof (zlen_nonneg rest). by zcases; lia.
Qed.

Lemma validate_nul_ok s str l :
  reads s str (l ++ [0]) -> Forall (fun b => is_byte b /\ b <> 0) l ->
  exists cs rest, valid_prefix l cs rest /\
    xutf8_validate s str (-1) = Some (bool_decide (rest = []), str + zlen (encs cs)).
Proof.
  intros Hs Hb. pose proof (reads_length _ _ _ Hs). unfold xutf8_validate, fast_validate.
  change (0 <=? -1) with false. cbn iota.
  destruct (validate_loop_ok (S (length s)) s None str str (l ++ [0])) as (cs & rest & Hv & E); [done|..].
  - apply Forall_app. split; [|by repeat constructor].
    eapply Forall_impl; [exact Hb|]. by intros x [? _].
  - by exists l.
  - lia.
  - rewrite E. cbn [mbind option_bind]. destruct Hv as (El & Hcs & Hn).
    assert (exists rest', rest = rest' ++ [0] /\ l = encs cs ++ rest') as (rest' & -> & El').
    { assert (nul_ended rest) as [r' ->].
      { apply (nul_ended_app (encs cs)); [rewrite <- El; by exists l|].
        eapply Forall_proj2, encs_nonzero, text_chars, Hcs. }
      exists r'. split; [done|]. rewrite app_assoc in El. by apply app_inj_tail in El as [-> _]. }
    exists cs, rest'. split.
    + split_and!; [done..|]. intros c Hc [k ->]. apply (Hn c Hc). exists (k ++ [0]). by rewrite app_assoc.
    + rewrite El in Hs. apply reads_app in Hs as [_ Hs].
      destruct rest' as [|b rest']; destruct Hs as [-> _]; cbn [mbind option_bind]; [done|].
      rewrite bool_decide_false by done. rewrite El' in Hb. apply Forall_app in Hb as [_ [[_ Hb] _]%Forall_cons].
      destruct (Z.eqb_spec b 0); done.
Qed.

(** ** The validated reader *)

(** An encoding is not the start of another one. *)
Lemma enc_unique c d l1 l2 : code c -> code d -> enc c ++ l1 = enc d ++ l2 -> c = d /\ l1 = l2.
Proof.
  intros Hc Hd E.
  pose proof (get_char_enc (enc c ++ l1) 0 c Hc (reads_0 _ _ _ eq_refl)) as E1.
  pose proof (get_char_enc (enc c ++ l1) 0 d Hd (reads_0 _ _ _ E)) as E2.
  rewrite E1 in E2. injection E2 as ->. split; [done|]. by apply app_inv_head in E.
Qed.

Lemma available_fits max_len l c : available max_len l -> enc c `prefix_of` l -> code c -> fits max_len (zlen (enc c)).
Proof.
  intros (_ & _ & H) [k ->] Hc. unfold fits. rewrite zlen_app in H. pose proof (zlen_nonneg k).
  rewrite zlen_enc in * by done. pose proof (UTF8_LENGTH_range c). lia.
Qed.

Lemma incomplete_no_enc max_len l c : incomplete max_len l -> code c -> ~ enc c `prefix_of` l.
Proof.
  intros Hi Hc [k ->]. destruct (encoding_of c Hc) as (n & base & min & first & [E _ El _ _ _ _]).
  rewrite E in Hi. cbn [app] in Hi.
  destruct (incomplete_class _ _ _ _ _ _ El Hi) as (ds & Hds & Hlt & [H|(_ & rest & H)]).
  - rewrite <- H, length_app, length_digits in Hlt. lia.
  - assert ((digits n c ++ k) !! length ds = Some 0) as E0 by (by rewrite H, list_lookup_middle).
    rewrite lookup_app_l in E0 by (by rewrite length_digits).
    pose proof (digits_cont n c) as D. rewrite Forall_lookup in D. apply D in E0. by apply not_cont_0.
Qed.

Lemma extended_prefix s p max_len l c :
  reads s p l -> available max_len l -> code c -> enc c `prefix_of` l ->
  xutf8_get_char_extended s p max_len = Some c.
Proof.
  intros Hs Ha Hc Hp. pose proof (available_fits _ _ _ Ha Hp Hc). destruct Hp as [k ->].
  apply reads_app in Hs as [Hs _]. by apply extended_enc.
Qed.

Lemma get_char_validated_eq s p max_len r :
  max_len <> 0 -> xutf8_get_char_extended s p max_len = Some r -> code r ->
  xutf8_get_char_validated s p max_len =
  Some (if decide (r = 0 /\ 0 < max_len) then partial_sequence
        else if decide (scalar r) then r else malformed_sequence).
Proof.
  intros Hm E Hr. unfold xutf8_get_char_validated. destruct (Z.eqb_spec max_len 0); [done|].
  rewrite E. cbn [mbind option_bind]. rewrite error_bit, UNICODE_VALID_ok by (unfold code in Hr; lia).
  destruct (Z.eqb_spec r 0), (Z.ltb_spec 0 max_len); cbn [andb negb];
    repeat case_decide; try lia; try done; by repeat case_bool_decide.
Qed.

Lemma get_char_validated_err s p max_len r :
  max_len <> 0 -> xutf8_get_char_extended s p max_len = Some r ->
  r = partial_sequence \/ r = malformed_sequence ->
  xutf8_get_char_validated s p max_len = Some r.
Proof.
  intros Hm E Hr. unfold xutf8_get_char_validated. destruct (Z.eqb_spec max_len 0); [done|].
  rewrite E. cbn [mbind option_bind]. by destruct Hr as [-> | ->].
Qed.

(** ** Repair *)

(** The characters of a text, each byte where none stands being replaced. *)
Inductive repaired : list Z -> list Z -> Prop :=
  | repaired_nil : repaired [] []
  | repaired_char c l cs : text_char c -> repaired l cs -> repaired (enc c ++ l) (c :: cs)
  | repaired_byte b l cs : no_char (b :: l) -> repaired l cs -> repaired (b :: l) (0xFFFD :: cs).

Lemma repaired_valid cs : Forall text_char cs -> repaired (encs cs) cs.
Proof. induction 1; [constructor|]. rewrite encs_cons. by constructor. Qed.
Lemma repaired_app cs l ds : Forall text_char cs -> repaired l ds -> repaired (encs cs ++ l) (cs ++ ds).
Proof.
  induction 1 as [|c cs Hc _ IH]; intros H; [done|]. rewrite encs_cons, <- app_assoc. cbn [app].
  constructor; auto.
Qed.
Lemma repaired_text l cs : repaired l cs -> Forall text_char cs.
Proof.
  induction 1; [by apply Forall_nil|apply Forall_cons; by split|apply Forall_cons; split; [|done]].
  unfold text_char, scalar. lia.
Qed.

Lemma replacement_ok : enc 0xFFFD = replacement.
Proof. by vm_compute. Qed.

(** A valid text is its own longest valid prefix. *)
Lemma valid_prefix_all cs ds rest :
  Forall text_char cs -> valid_prefix (encs cs) ds rest -> ds = cs /\ rest = [].
Proof.
  intros H. revert ds. induction H as [|c cs Hc Hcs IH]; intros ds (E & Hds & Hn).
  - symmetry in E. apply app_eq_nil in E as [E ->]. destruct Hds as [|d ds Hd _]; [done|].
    rewrite encs_cons in E. apply app_eq_nil in E as [E _].
    by apply enc_nonempty in E; [|apply char_code, text_char_char].
  - rewrite encs_cons in E. destruct Hds as [|d ds Hd Hds].
    + exfalso. apply (Hn c Hc). exists (encs cs). by symmetry.
    + rewrite encs_cons, <- app_assoc in E.
      apply enc_unique in E as [-> E]; [|by apply char_code, text_char_char..].
      destruct (IH ds) as [-> ->]; done.
Qed.

Lemma make_valid_loop_ok fuel str string r l :
  0 <= r <= zlen str -> reads str r l -> Forall is_byte l -> (length l <= fuel)%nat ->
  exists string' r' ds cs,
    make_valid_loop fuel str string r (zlen l) = Some (string', r', zlen (encs cs)) /\
    0 <= r' <= zlen str /\ reads str r' (encs cs) /\ Forall text_char cs /\ repaired l (ds ++ cs) /\
    (string' = Some (default [] string ++ encs ds) \/ string' = string /\ ds = [] /\ r' = r /\ l = encs cs).
Proof.
  revert string r l. induction fuel as [|fuel IH]; intros string r l Hr Hs Hb Hf.
  { destruct l; [|cbn in Hf; lia]. exists string, r, [], []. split_and!; try done; [lia..|constructor|].
    by right. }
  cbn [make_valid_loop]. destruct (Z.eqb_spec (zlen l) 0) as [E|E].
  { destruct l; [|rewrite zlen_cons in E; pose proof (zlen_nonneg l); lia].
    exists string, r, [], []. split_and!; try done; [lia..|constructor|by right]. }
  unfold xutf8_validate. pose proof (zlen_nonneg l). destruct (Z.leb_spec 0 (zlen l)); [|lia].
  destruct (validate_len_ok str r (zlen l) l) as (cs & rest & (El & Hcs & Hn) & ->); [done..|].
  cbn [mbind option_bind]. destruct rest as [|b rest].
  - rewrite bool_decide_true by done. rewrite app_nil_r in El. subst l.
    exists string, r, [], cs. split_and!; try done; [lia..|by apply repaired_valid|].
    by right.
  - rewrite bool_decide_false by done. rewrite El in Hs, Hb. apply reads_app in Hs as [Hs1 [Hrb Hs2]].
    apply Forall_app in Hb as [_ [_ Hb]%Forall_cons].
    replace (r + zlen (encs cs) - r) with (zlen (encs cs)) by lia.
    rewrite reads_block by done. cbn [mbind option_bind]. apply rd_range in Hrb.
    replace (zlen l - (zlen (encs cs) + 1)) with (zlen rest) by (rewrite El, zlen_app, zlen_cons; lia).
    destruct (IH (Some (default [] string ++ encs cs ++ replacement)) (r + zlen (encs cs) + 1) rest)
      as (string' & r' & ds' & cs' & -> & Hr' & Hs' & Hcs' & Hrep & Hst); [lia|done|done| |].
    { rewrite El, length_app in Hf. cbn in Hf. lia. }
    exists string', r', (cs ++ 0xFFFD :: ds'), cs'. split_and!; try done; [lia..| |].
    + rewrite El, <- app_assoc. apply repaired_app; [done|]. cbn [app]. by constructor.
    + left. rewrite encs_app, encs_cons, replacement_ok.
      destruct Hst as [->|(-> & -> & _)]; cbn [from_option id].
      * by rewrite <- !app_assoc.
      * change (encs []) with (@nil Z). by rewrite app_nil_r.
Qed.

Lemma c_strlen_ok s l :
  reads s 0 (l ++ [0]) -> Forall (fun b => b <> 0) l -> c_strlen s = Some (zlen l).
Proof.
  intros Hs Hl. destruct (reads_whole _ _ Hs) as [rest ->]. unfold c_strlen.
  rewrite <- app_assoc. cbn [app]. rewrite cstr_app_nul by done. rewrite length_app.
  cbn [length]. by rewrite (proj2 (Nat.ltb_lt _ _)) by lia.
Qed.

(** The bytes a function with a length argument works on. *)
Definition given (s : list Z) (len : Z) (l : list Z) : Prop :=
  Forall is_byte l /\
  if len <? 0 then reads s 0 (l ++ [0]) /\ Forall (fun b => b <> 0) l
  else reads s 0 l /\ zlen l = len.

Lemma given_length s len l :
  given s len l -> reads s 0 l /\ (if len <? 0 then c_strlen s else Some len) = Some (zlen l).
Proof.
  intros [_ H]. destruct (len <? 0).
  - destruct H as [H Hl]. split; [by apply reads_app in H as [H _]|by apply c_strlen_ok].
  - destruct H as [H ->]. done.
Qed.

Lemma make_valid_ok s len l :
  given s len l ->
  exists cs, repaired l cs /\
    ((l = encs cs /\ xutf8_make_valid s len = Some (encs cs ++ [0])) \/
     xutf8_make_valid s len = Some (encs cs ++ [0; 0])).
Proof.
  intros Hg. pose proof (given_length _ _ _ Hg) as [Hs E]. destruct Hg as [Hb _].
  unfold xutf8_make_valid. rewrite E. cbn [mbind option_bind].
  destruct (make_valid_loop_ok (length s) s None 0 l) as (string & r & ds & cs & -> & Hr & Hs' & Hcs & Hrep & Hst);
    [pose proof (zlen_nonneg s); lia|done..|by apply reads_length in Hs|].
  cbn [mbind option_bind]. exists (ds ++ cs). split; [done|].
  destruct Hst as [->|(-> & -> & -> & El)]; [right|left]; cbn [from_option id app].
  - rewrite reads_block by done. cbn [mbind option_bind].
    pose proof (repaired_text _ _ Hrep) as Ht. rewrite encs_app, <- app_assoc.
    set (text := encs ds ++ encs cs). assert (text = encs (ds ++ cs)) as Et by (by rewrite encs_app).
    destruct (validate_nul_ok (encs ds ++ encs cs ++ [0; 0]) 0 text) as (cs' & rest & Hv & ->).
    { apply (reads_0 _ _ [0]). subst text. by rewrite <- !app_assoc. }
    { rewrite Et. apply encs_nonzero, text_chars, Ht. }
    cbn [mbind option_bind]. rewrite Et in Hv.
    destruct (valid_prefix_all _ _ _ Ht Hv) as [_ ->].
    rewrite bool_decide_true by done. done.
  - split; [done|]. subst l. destruct (reads_whole _ _ Hs) as [rest ->]. unfold xstrndup, zlen.
    rewrite Nat2Z.id, c_strncpy_ok; [done|]. eapply Forall_proj2, encs_nonzero, text_chars, Hcs.
Qed.
