(* ===== verification/Utf8Convert.v ===== *)
(** * Conversions between UTF-8, UCS-4 and UTF-16

    Each conversion reads the longest part of its input it can convert, and the
    reason why it stops there decides the answer: the end, a partial character
    or an illegal one. *)

From S2P Require Import Prelude.
From S2P Require Import Utf8.
From S2P Require Import Utf8Codec.
From S2P Require Import Utf8Text.
From S2P Require Import Utf8Validate.
Local Open Scope Z_scope.
Local Open Scope xpl_scope.

Lemma int_add_ok a b : 0 <= a -> 0 <= b -> a + b < 2 ^ 31 -> int_add a b = Some (a + b).
Proof. intros. unfold int_add. by rewrite (proj2 (Z.leb_le _ _)), (proj2 (Z.ltb_lt _ _)) by lia. Qed.

Lemma put_items_ok size out items :
  zlen out + zlen items <= size -> put_items size out items = Some (out ++ items).
Proof. intros. unfold put_items. by rewrite (proj2 (Z.leb_le _ _)). Qed.

Lemma zlen_zero_inv {A} (l : list A) : zlen l <= 0 -> l = [].
Proof. destruct l; [done|]. rewrite zlen_cons. pose proof (zlen_nonneg l). lia. Qed.

(** Counting the characters of a list, each for the words it becomes. *)
Definition words_of (words : Z -> list Z) (cs : list Z) : list Z := flat_map words cs.

Section words.
Context (words : Z -> list Z).
Lemma words_app cs ds : words_of words (cs ++ ds) = words_of words cs ++ words_of words ds.
Proof. apply flat_map_app. Qed.
Lemma words_cons c cs : words_of words (c :: cs) = words c ++ words_of words cs.
Proof. done. Qed.
End words.

(** ** From UTF-8 *)

(** Why a conversion from UTF-8 stops: [units c] is [None] for a character that
    it rejects. *)
Inductive stops (units : Z -> option Z) (max_len : Z) : list Z -> option convert_error -> Prop :=
  | stops_end : stops units max_len [] None
  | stops_nul rest : stops units max_len (0 :: rest) None
  | stops_partial b rest :
      b <> 0 -> incomplete max_len (b :: rest) -> stops units max_len (b :: rest) (Some PARTIAL_INPUT)
  | stops_illegal b rest :
      b <> 0 -> ~ incomplete max_len (b :: rest) ->
      (forall c, char c -> enc c `prefix_of` (b :: rest) -> units c = None) ->
      stops units max_len (b :: rest) (Some ILLEGAL_SEQUENCE).

(** The bytes from [p] on that a function may look at. *)
Definition input (len p : Z) (l : list Z) : Prop :=
  if len <? 0 then exists l0, l = l0 ++ [0] /\ Forall (fun b => b <> 0) l0 else zlen l = len - p.

Definition scan_max (len p : Z) : Z := if len <? 0 then 6 else len - p.

Lemma input_available len p b t :
  input len p (b :: t) -> Forall is_byte (b :: t) -> available (scan_max len p) (b :: t).
Proof.
  unfold input, scan_max. destruct (len <? 0); intros H Hb; split_and!; try done.
  - right. split; [lia|done].
  - by left.
Qed.

Lemma input_more len p b t : input len p (b :: t) -> more len p = true.
Proof.
  unfold input, more. destruct (len <? 0); [done|]. rewrite zlen_cons. pose proof (zlen_nonneg t).
  intros. apply Z.ltb_lt. lia.
Qed.

Lemma input_nil len p : input len p [] -> more len p = false /\ 0 <= len.
Proof.
  unfold input, more. destruct (Z.ltb_spec len 0).
  - intros ([|? ?] & ? & _); discriminate.
  - change (zlen []) with 0. intros. cbn. split; [|lia]. apply Z.ltb_ge. lia.
Qed.

Lemma nonzero_tail l1 l2 l0 :
  l1 ++ l2 = l0 ++ [0] -> Forall (fun b => b <> 0) l0 -> Forall (fun b => b <> 0) l1 ->
  exists l0', l2 = l0' ++ [0] /\ Forall (fun b => b <> 0) l0'.
Proof.
  intros E H0 H1. destruct (nul_ended_app l1 l2) as [l0' ->]; [by exists l0|done|].
  exists l0'. split; [done|]. rewrite app_assoc in E. apply app_inj_tail in E as [<- _].
  by apply Forall_app in H0 as [_ H0].
Qed.

Lemma input_app len p l1 l2 :
  input len p (l1 ++ l2) -> Forall (fun b => b <> 0) l1 -> input len (p + zlen l1) l2.
Proof.
  unfold input. destruct (len <? 0).
  - intros (l0 & E & H0) H1. by eapply nonzero_tail.
  - rewrite zlen_app. lia.
Qed.

Section from_utf8.
Context (units : Z -> option Z) (words : Z -> list Z).
Context (Hunits : forall c u, char c -> units c = Some u ->
  u = zlen (words c) /\ 1 <= zlen (words c) <= zlen (enc c)).

(** The characters it reads. *)
Definition accepted (c : Z) : Prop := char c /\ is_Some (units c).

Lemma accepted_words cs : Forall accepted cs -> 0 <= zlen (words_of words cs) <= zlen (encs cs).
Proof.
  induction 1 as [|c cs [Hc [u Hu]] _ IH]; [done|].
  rewrite words_cons, encs_cons, !zlen_app. pose proof (Hunits c u Hc Hu). lia.
Qed.

Definition scan_answer (want_read : bool) (o : option convert_error) (n in_ : Z) :
    convert_error * Z + Z * Z :=
  match o with
  | None => inr (n, in_)
  | Some e => if bool_decide (e = PARTIAL_INPUT) && want_read then inr (n, in_) else inl (e, in_)
  end.

Lemma utf8_scan_ok want_read fuel s len p l n :
  reads s p l -> Forall is_byte l -> input len p l -> (length l < fuel)%nat ->
  0 <= n -> n + zlen l < 2 ^ 31 ->
  exists cs rest o, l = encs cs ++ rest /\ Forall accepted cs /\
    stops units (scan_max len (p + zlen (encs cs))) rest o /\
    utf8_scan units want_read fuel s len p n =
    Some (scan_answer want_read o (n + zlen (words_of words cs)) (p + zlen (encs cs))).
Proof.
  revert p l n. induction fuel as [|fuel IH]; intros p l n Hs Hb Hi Hf Hn Hov; [lia|]. cbn [utf8_scan].
  (* it stops here *)
  assert (forall o, stops units (scan_max len p) l o -> exists cs rest o', l = encs cs ++ rest /\
    Forall accepted cs /\ stops units (scan_max len (p + zlen (encs cs))) rest o' /\
    Some (scan_answer want_read o n p) =
    Some (scan_answer want_read o' (n + zlen (words_of words cs)) (p + zlen (encs cs)))) as Hstop.
  { intros o Ho. exists [], l, o. change (zlen (encs [])) with 0. change (zlen (words_of words [])) with 0.
    rewrite !Z.add_0_r. split_and!; try done. }
  destruct l as [|b t].
  { destruct (input_nil _ _ Hi) as [-> _]. apply (Hstop None). constructor. }
  rewrite (input_more _ _ _ _ Hi). cbn [negb]. pose proof Hs as [Hr _]. rewrite Hr. cbn [mbind option_bind].
  destruct (Z.eqb_spec b 0) as [->|Hb0]; [apply (Hstop None); constructor|].
  pose proof (input_available _ _ _ _ Hi Hb) as Ha. fold (scan_max len p).
  destruct (extended_cases s p (scan_max len p) (b :: t) Hs Ha) as (r & Er & Hr').
  rewrite Er. cbn [mbind option_bind].
  destruct Hr' as [(Hc & [l' El] & _)|[[-> Hinc]|[-> Hinc]]].
  - rewrite error_bit by done. cbn [negb].
    assert (char r) as Hch.
    { split; [|lia]. destruct (Z.eq_dec r 0) as [->|]; [|lia]. rewrite enc_1 in El by lia.
      injection El as -> _. done. }
    destruct (units r) as [u|] eqn:Eu.
    + destruct (Hunits r u Hch Eu) as [-> Hu]. rewrite El in Hs, Hb, Hi, Hf, Hov.
      apply reads_app in Hs as [Hs1 Hs2]. apply Forall_app in Hb as [_ Hb].
      rewrite zlen_app in Hov. pose proof (zlen_nonneg l').
      apply input_app in Hi; [|eapply Forall_proj2, enc_nonzero, Hch].
      rewrite int_add_ok by lia. cbn [mbind option_bind].
      rewrite (next_char_enc s p r Hc Hs1). cbn [mbind option_bind].
      destruct (IH (p + zlen (enc r)) l' (n + zlen (words r))) as (cs & rest & o & -> & Hcs & Ho & ->); try done.
      { rewrite length_app in Hf. pose proof (enc_nonempty r Hc). destruct (enc r); [done|]. cbn in Hf. lia. }
      { lia. }
      { lia. }
      exists (r :: cs), rest, o. rewrite words_cons, encs_cons, !zlen_app, !Z.add_assoc.
      split_and!; [by rewrite <- app_assoc|apply Forall_cons; split; [split; eauto|done]|done|done].
    + apply (Hstop (Some ILLEGAL_SEQUENCE)). constructor; [done| |].
      * intros Hinc. apply (incomplete_no_enc _ _ r Hinc Hc). by exists l'.
      * intros c Hcc Hp. pose proof (extended_prefix _ _ _ _ c Hs Ha (char_code c Hcc) Hp) as E.
        rewrite Er in E. injection E as ->. done.
  - assert (negb (partial_sequence & 0x80000000 =? 0) = true) as -> by done. rewrite Z.eqb_refl.
    destruct (Hstop (Some PARTIAL_INPUT)) as (cs & rest & o & ? & ? & ? & E); [by constructor|].
    exists cs, rest, o. split_and!; try done. rewrite <- E. by destruct want_read.
  - assert (negb (malformed_sequence & 0x80000000 =? 0) = true) as -> by done.
    assert ((malformed_sequence =? partial_sequence) = false) as -> by done.
    apply (Hstop (Some ILLEGAL_SEQUENCE)). constructor; [done..|].
    intros c Hcc Hp. pose proof (extended_prefix _ _ _ _ c Hs Ha (char_code c Hcc) Hp) as E.
    rewrite Er in E. injection E as E. unfold char in Hcc. unfold malformed_sequence in E. lia.
Qed.
End from_utf8.

(** *** The second loops *)

Lemma ucs4_fill_ok size s p cs out :
  Forall char cs -> reads s p (encs cs) -> zlen out + zlen cs <= size ->
  ucs4_fill (length cs) size s p out = Some (out ++ cs, p + zlen (encs cs)).
Proof.
  intros H. revert p out. induction H as [|c cs Hc _ IH]; intros p out Hs Hl.
  - change (zlen (encs [])) with 0. cbn [length ucs4_fill]. by rewrite app_nil_r, Z.add_0_r.
  - rewrite encs_cons in *. apply reads_app in Hs as [H1 H2]. rewrite zlen_cons in Hl.
    pose proof (zlen_nonneg cs). cbn [length ucs4_fill].
    rewrite (get_char_enc _ _ c), (next_char_enc _ _ c) by (done || by apply char_code).
    cbn [mbind option_bind]. rewrite put_items_ok by (rewrite zlen_cons; change (zlen []) with 0; lia).
    cbn [mbind option_bind]. rewrite IH; [|done|rewrite zlen_app, zlen_cons; change (zlen []) with 0; lia].
    by rewrite <- app_assoc, zlen_app, Z.add_assoc.
Qed.

(** The words of UTF-16, and the characters that have some. *)
Lemma utf16_units_ok c u :
  char c -> utf16_units c = Some u ->
  u = zlen (utf16_words c) /\ 1 <= zlen (utf16_words c) <= zlen (enc c).
Proof.
  intros Hc. rewrite zlen_enc by by apply char_code. unfold utf16_units, utf16_words, UTF8_LENGTH.
  unfold char in Hc. zcases; intros [= <-]; split; try done; try lia.
Qed.

Lemma utf16_units_text c : char c -> is_Some (utf16_units c) <-> text_char c.
Proof.
  intros Hc. unfold utf16_units, text_char, scalar. unfold char in Hc.
  zcases; split; intros Hx; try done; try lia; try (by destruct Hx); by eexists.
Qed.

Lemma utf16_fill_ok fuel size s p cs out :
  Forall text_char cs -> reads s p (encs cs) -> (length cs <= fuel)%nat ->
  zlen out + zlen (words_of utf16_words cs) <= size ->
  utf16_fill fuel (zlen out + zlen (words_of utf16_words cs)) size s p out =
  Some (out ++ words_of utf16_words cs, p + zlen (encs cs)).
Proof.
  intros H. revert fuel p out. induction H as [|c cs Hc Hcs IH]; intros fuel p out Hs Hf Hl.
  - change (zlen (encs [])) with 0. change (zlen (words_of utf16_words [])) with 0. rewrite !Z.add_0_r.
    assert ((zlen out <=? zlen out) = true) as E by (apply Z.leb_le; lia).
    destruct fuel; cbn [utf16_fill]; rewrite E; cbn; by rewrite app_nil_r.
  - pose proof (text_char_char c Hc) as Hch.
    destruct (proj2 (utf16_units_text c Hch) Hc) as [u Hu]. pose proof (utf16_units_ok c u Hch Hu) as [_ Hw].
    destruct fuel as [|fuel]; cbn [length] in Hf; [lia|]. rewrite encs_cons, words_cons in *.
    apply reads_app in Hs as [H1 H2]. rewrite zlen_app in Hl |- *. pose proof (zlen_nonneg (words_of utf16_words cs)).
    cbn [utf16_fill]. rewrite (proj2 (Z.leb_gt _ _)) by lia.
    rewrite (get_char_enc _ _ c), (next_char_enc _ _ c) by (done || by apply char_code).
    cbn [mbind option_bind]. rewrite put_items_ok by lia. cbn [mbind option_bind].
    rewrite Z.add_assoc, <- zlen_app, IH by (done || lia || rewrite zlen_app; lia).
    by rewrite <- app_assoc, zlen_app, Z.add_assoc.
Qed.

(** *** The functions *)

Section allocation.
Context (g_try_malloc_n : Z -> Z -> bool).

(** The answer of a conversion that has read [read] items, written [out], and
    stopped at [stop] for the reason [o]; [granted] is whether there was memory
    for [out]. *)
Definition converted (granted want_read : bool) (o : option convert_error) (read : Z) (out : list Z)
    (stop : Z) : conversion :=
  if bool_decide (o = None) || (bool_decide (o = Some PARTIAL_INPUT) && want_read) then
    if granted then Conversion (Some (out ++ [0])) read (Some (zlen out)) None
    else err_out stop NO_MEMORY
  else err_out stop (default NO_MEMORY o).

Lemma u64_small x : 0 <= x < 2 ^ 64 -> u64 x = x.
Proof. apply wrap_small. Qed.

(** The bytes a conversion is given: all of them, up to the NUL, or [len]. *)
Definition source (s : list Z) (len : Z) (l : list Z) : Prop :=
  reads s 0 l /\ input len 0 l.

Lemma finish_ok size out read written :
  zlen out < size -> finish size out read written = Some (Conversion (Some (out ++ [0])) read (Some written) None).
Proof. intros. unfold finish. by rewrite put_items_ok by (rewrite zlen_cons; change (zlen []) with 0; lia). Qed.

Lemma scan_converted units max_len rest granted want_read o read out stop n k :
  stops units max_len rest o -> k n stop = Some (converted granted true None read out stop) ->
  match scan_answer want_read o n stop with
  | inl (e, i) => Some (err_out i e)
  | inr (n, i) => k n i
  end = Some (converted granted want_read o read out stop).
Proof.
  intros Ho Hk. unfold scan_answer, converted in *.
  destruct Ho; [exact Hk..| |reflexivity]. destruct want_read; [exact Hk|reflexivity].
Qed.

Lemma utf8_to_ucs4_ok s len want_read l :
  source s len l -> Forall is_byte l -> zlen l < 2 ^ 31 - 1 ->
  exists cs rest o, l = encs cs ++ rest /\ Forall char cs /\
    stops (fun _ => Some 1) (scan_max len (zlen (encs cs))) rest o /\
    xutf8_to_ucs4 g_try_malloc_n s len want_read =
    Some (converted (g_try_malloc_n (zlen cs + 1) 4) want_read o (zlen (encs cs)) cs (zlen (encs cs))).
Proof.
  intros [Hs Hi] Hb Hov. unfold xutf8_to_ucs4.
  destruct (utf8_scan_ok (fun _ => Some 1) (fun c => [c])) with (want_read := want_read) (fuel := S (length s))
    (s := s) (len := len) (p := 0) (l := l) (n := 0) as (cs & rest & o & El & Hcs & Ho & ->); try done.
  { intros c u Hc [= <-]. split; [done|]. change (zlen [c]) with 1. pose proof (zlen_enc_pos c (char_code c Hc)). lia. }
  { apply reads_length in Hs. lia. }
  { lia. }
  assert (Forall char cs) as Hch by (eapply Forall_impl; [exact Hcs|]; by intros ? [? _]).
  assert (words_of (fun c => [c]) cs = cs) as -> by (clear; induction cs; cbn; [done|by f_equal]).
  exists cs, rest, o. rewrite Z.add_0_l in *. split_and!; try done. cbn [mbind option_bind].
  pose proof (encs_length cs (chars_codes _ Hch)) as Hle. rewrite El, zlen_app in Hov.
  pose proof (zlen_nonneg rest). rewrite El in Hs. apply reads_app in Hs as [Hs _].
  refine (scan_converted _ _ _ _ _ _ _ _ _ _ _ Ho _).
  change (Z.of_nat (length cs)) with (zlen cs) in Hle. pose proof (zlen_nonneg cs).
    rewrite int_add_ok by lia. cbn [mbind option_bind].
    unfold try_malloc_n, converted. rewrite u64_small by lia.
    cbn [bool_decide orb]. destruct (g_try_malloc_n _ _); [|done].
    replace (Z.to_nat (zlen cs)) with (length cs) by (unfold zlen; lia).
    rewrite ucs4_fill_ok; [|done|done|change (zlen []) with 0; lia]. cbn [mbind option_bind app].
    by rewrite finish_ok by lia.
Qed.

Lemma utf8_to_utf16_ok s len want_read l :
  source s len l -> Forall is_byte l -> zlen l < 2 ^ 31 - 1 ->
  exists cs rest o, l = encs cs ++ rest /\ Forall text_char cs /\
    stops utf16_units (scan_max len (zlen (encs cs))) rest o /\
    xutf8_to_utf16 g_try_malloc_n s len want_read =
    Some (converted (g_try_malloc_n (zlen (words_of utf16_words cs) + 1) 2) want_read o
            (zlen (encs cs)) (words_of utf16_words cs) (zlen (encs cs))).
Proof.
  intros [Hs Hi] Hb Hov. unfold xutf8_to_utf16.
  destruct (utf8_scan_ok utf16_units utf16_words) with (want_read := want_read) (fuel := S (length s))
    (s := s) (len := len) (p := 0) (l := l) (n := 0) as (cs & rest & o & El & Hcs & Ho & ->); try done.
  { apply utf16_units_ok. }
  { apply reads_length in Hs. lia. }
  { lia. }
  pose proof (accepted_words _ _ utf16_units_ok cs Hcs) as Hle.
  assert (Forall text_char cs) as Hch.
  { eapply Forall_impl; [exact Hcs|]. intros c [Hc Hu]. by apply utf16_units_text. }
  exists cs, rest, o. rewrite !Z.add_0_l in *. split_and!; try done. cbn [mbind option_bind].
  rewrite El, zlen_app in Hov. pose proof (zlen_nonneg rest).
  rewrite El in Hs. apply reads_app in Hs as [Hs _].
  refine (scan_converted _ _ _ _ _ _ _ _ _ _ _ Ho _).
  rewrite int_add_ok by lia. cbn [mbind option_bind].
  unfold try_malloc_n, converted. rewrite u64_small by lia.
  cbn [bool_decide orb]. destruct (g_try_malloc_n _ _); [|done].
  pose proof (utf16_fill_ok (length s) (zlen (words_of utf16_words cs) + 1) s 0 cs [] Hch Hs) as F.
  change (zlen []) with 0 in F. rewrite Z.add_0_l in F. rewrite F; [|apply reads_length in Hs|lia].
  - cbn [mbind option_bind app]. by rewrite finish_ok by lia.
  - pose proof (encs_length cs (chars_codes _ (text_chars _ Hch))). unfold zlen in *. lia.
Qed.

(** ** From UCS-4 *)

(** The words a function may look at. *)
Definition units_given (str : list Z) (len : Z) (l : list Z) : Prop := source str len l.

(** The first characters of a list that satisfy [good], and why it stops: the
    end or a zero, or a character that does not. *)
Inductive stops_at (good : Z -> Prop) : list Z -> option convert_error -> Prop :=
  | stops_at_end : stops_at good [] None
  | stops_at_nul rest : stops_at good (0 :: rest) None
  | stops_at_bad c rest : c <> 0 -> ~ good c -> stops_at good (c :: rest) (Some ILLEGAL_SEQUENCE).

(** What the bounded loops test. *)
Lemma input_test len i l :
  input len i l -> l <> [] -> (len <? 0) || (i <? len) = true.
Proof.
  unfold input. intros H Hl. destruct (len <? 0); [done|]. cbn. destruct l as [|c l]; [done|].
  rewrite zlen_cons in H. pose proof (zlen_nonneg l). apply Z.ltb_lt. lia.
Qed.
Lemma input_test_nil len i : input len i [] -> (len <? 0) || (i <? len) = false.
Proof.
  unfold input. destruct (len <? 0); [by intros ([|? ?] & ? & _)|]. change (zlen []) with 0.
  intros. apply Z.ltb_ge. lia.
Qed.
Lemma input_next len i c l : input len i (c :: l) -> c <> 0 -> input len (i + 1) l.
Proof. intros H Hc. apply (input_app len i [c] l); [done|]. by repeat constructor. Qed.

Definition plain_answer (o : option convert_error) (n i : Z) : convert_error * Z + Z * Z :=
  match o with None => inr (n, i) | Some e => inl (e, i) end.

Lemma ucs4_scan_ok fuel str len i l n :
  reads str i l -> Forall (fun c => 0 <= c) l -> input len i l -> (length l < fuel)%nat ->
  0 <= n -> 0 <= i -> n + 6 * zlen l < 2 ^ 31 -> i + zlen l < 2 ^ 31 ->
  exists cs rest o, l = cs ++ rest /\ Forall char cs /\ stops_at char rest o /\
    ucs4_scan fuel str len i n = Some (plain_answer o (n + zlen (encs cs)) (i + zlen cs)).
Proof.
  revert i l n. induction fuel as [|fuel IH]; intros i l n Hs Hp Hi Hf Hn Hi0 Hov Hov'; [lia|]. cbn [ucs4_scan].
  assert (forall o, stops_at char l o -> exists cs rest o', l = cs ++ rest /\ Forall char cs /\
    stops_at char rest o' /\
    Some (plain_answer o n i) = Some (plain_answer o' (n + zlen (encs cs)) (i + zlen cs))) as Hstop.
  { intros o Ho. exists [], l, o. change (zlen (encs [])) with 0. change (@zlen Z []) with 0.
    rewrite !Z.add_0_r. split_and!; try done. }
  destruct l as [|c l].
  { rewrite (input_test_nil _ _ Hi). apply (Hstop None). constructor. }
  rewrite (input_test _ _ _ Hi) by done. cbn [negb]. destruct Hs as [-> Hs]. cbn [mbind option_bind].
  destruct (Z.eqb_spec c 0) as [->|Hc]; [apply (Hstop None); constructor|].
  apply Forall_cons in Hp as [Hc0 Hp]. rewrite zlen_cons in Hov, Hov'. pose proof (zlen_nonneg l).
  destruct (Z.leb_spec 0x80000000 c).
  { apply (Hstop (Some ILLEGAL_SEQUENCE)). constructor; [done|]. unfold char. lia. }
  assert (char c) as Hch by (unfold char; lia). pose proof (UTF8_LENGTH_range c).
  rewrite int_add_ok by lia. cbn [mbind option_bind]. cbn [length] in Hf.
  rewrite int_add_ok by lia. cbn [mbind option_bind].
  destruct (IH (i + 1) l (n + UTF8_LENGTH c)) as (cs & rest & o & -> & Hcs & Ho & ->); try done; try lia.
  { by eapply input_next. }
  exists (c :: cs), rest, o. rewrite encs_cons, zlen_app, zlen_cons, (zlen_enc c) by (unfold char in Hch; lia).
  rewrite !Z.add_assoc. split_and!; [done|by apply Forall_cons|done|done].
Qed.

Lemma ucs4_utf16_scan_ok fuel str len i l n :
  reads str i l -> Forall (fun c => 0 <= c) l -> input len i l -> (length l < fuel)%nat ->
  0 <= n -> 0 <= i -> n + 2 * zlen l < 2 ^ 31 -> i + zlen l < 2 ^ 31 ->
  exists cs rest o, l = cs ++ rest /\ Forall text_char cs /\ stops_at text_char rest o /\
    ucs4_utf16_scan fuel str len i n =
    Some (plain_answer o (n + zlen (words_of utf16_words cs)) (i + zlen cs)).
Proof.
  revert i l n. induction fuel as [|fuel IH]; intros i l n Hs Hp Hi Hf Hn Hi0 Hov Hov'; [lia|].
  cbn [ucs4_utf16_scan].
  assert (forall o, stops_at text_char l o -> exists cs rest o', l = cs ++ rest /\ Forall text_char cs /\
    stops_at text_char rest o' /\
    Some (plain_answer o n i) =
    Some (plain_answer o' (n + zlen (words_of utf16_words cs)) (i + zlen cs))) as Hstop.
  { intros o Ho. exists [], l, o. change (zlen (words_of utf16_words [])) with 0. change (@zlen Z []) with 0.
    rewrite !Z.add_0_r. split_and!; try done. }
  destruct l as [|c l].
  { rewrite (input_test_nil _ _ Hi). apply (Hstop None). constructor. }
  rewrite (input_test _ _ _ Hi) by done. cbn [negb]. destruct Hs as [-> Hs]. cbn [mbind option_bind].
  destruct (Z.eqb_spec c 0) as [->|Hc]; [apply (Hstop None); constructor|].
  apply Forall_cons in Hp as [Hc0 Hp]. rewrite zlen_cons in Hov, Hov'. pose proof (zlen_nonneg l).
  assert (utf16_units c = if decide (text_char c) then Some (zlen (utf16_words c)) else None) as ->.
  { unfold utf16_units, utf16_words, text_char, scalar. zcases; case_decide; try done; lia. }
  destruct (decide (text_char c)) as [Hch|Hch].
  2:{ apply (Hstop (Some ILLEGAL_SEQUENCE)). by constructor. }
  assert (1 <= zlen (utf16_words c) <= 2) as Hw.
  { unfold utf16_words. zcases; rewrite !zlen_cons; change (zlen []) with 0; lia. }
  rewrite int_add_ok by lia. cbn [mbind option_bind]. cbn [length] in Hf.
  rewrite int_add_ok by lia. cbn [mbind option_bind].
  destruct (IH (i + 1) l (n + zlen (utf16_words c))) as (cs & rest & o & -> & Hcs & Ho & ->); try done; try lia.
  { by eapply input_next. }
  exists (c :: cs), rest, o. rewrite words_cons, zlen_app, zlen_cons.
  rewrite !Z.add_assoc. split_and!; [done|by apply Forall_cons|done|done].
Qed.

Lemma ucs4_to_utf8_fill_ok fuel size str i cs out :
  Forall char cs -> reads str i cs -> 0 <= i -> i + zlen cs < 2 ^ 31 -> (length cs <= fuel)%nat ->
  zlen out + zlen (encs cs) <= size ->
  ucs4_to_utf8_fill fuel (zlen out + zlen (encs cs)) size str i out = Some (out ++ encs cs, i + zlen cs).
Proof.
  intros H. revert fuel i out. induction H as [|c cs Hc Hcs IH]; intros fuel i out Hs Hi Hlt Hf Hl.
  - change (zlen (encs [])) with 0. change (@zlen Z []) with 0. rewrite !Z.add_0_r.
    assert ((zlen out <=? zlen out) = true) as E by (apply Z.leb_le; lia).
    destruct fuel; cbn [ucs4_to_utf8_fill]; rewrite E; cbn; by rewrite app_nil_r.
  - destruct fuel as [|fuel]; cbn [length] in Hf; [lia|]. rewrite encs_cons, zlen_app, zlen_cons in *.
    pose proof (zlen_enc_pos c (char_code c Hc)). pose proof (zlen_nonneg (encs cs)). pose proof (zlen_nonneg cs).
    cbn [ucs4_to_utf8_fill]. rewrite (proj2 (Z.leb_gt _ _)) by lia. destruct Hs as [-> Hs].
    cbn [mbind option_bind]. rewrite int_add_ok by lia. cbn [mbind option_bind]. fold (enc c).
    rewrite put_items_ok by lia. cbn [mbind option_bind].
    rewrite Z.add_assoc, <- zlen_app, IH by (done || lia || rewrite zlen_app; lia).
    by rewrite <- app_assoc, Z.add_assoc.
Qed.

Lemma ucs4_to_utf16_fill_ok fuel size str i cs out :
  Forall text_char cs -> reads str i cs -> 0 <= i -> i + zlen cs < 2 ^ 31 -> (length cs <= fuel)%nat ->
  zlen out + zlen (words_of utf16_words cs) <= size ->
  ucs4_to_utf16_fill fuel (zlen out + zlen (words_of utf16_words cs)) size str i out =
  Some (out ++ words_of utf16_words cs, i + zlen cs).
Proof.
  intros H. revert fuel i out. induction H as [|c cs Hc Hcs IH]; intros fuel i out Hs Hi Hlt Hf Hl.
  - change (zlen (words_of utf16_words [])) with 0. change (@zlen Z []) with 0. rewrite !Z.add_0_r.
    assert ((zlen out <=? zlen out) = true) as E by (apply Z.leb_le; lia).
    destruct fuel; cbn [ucs4_to_utf16_fill]; rewrite E; cbn; by rewrite app_nil_r.
  - destruct fuel as [|fuel]; cbn [length] in Hf; [lia|]. rewrite words_cons, zlen_app, zlen_cons in *.
    assert (1 <= zlen (utf16_words c)) as Hw.
    { unfold utf16_words. zcases; rewrite !zlen_cons; change (zlen []) with 0; lia. }
    pose proof (zlen_nonneg (words_of utf16_words cs)). pose proof (zlen_nonneg cs).
    cbn [ucs4_to_utf16_fill]. rewrite (proj2 (Z.leb_gt _ _)) by lia. destruct Hs as [-> Hs].
    cbn [mbind option_bind]. rewrite put_items_ok by lia. cbn [mbind option_bind].
    rewrite int_add_ok by lia. cbn [mbind option_bind].
    rewrite Z.add_assoc, <- zlen_app, IH by (done || lia || rewrite zlen_app; lia).
    by rewrite <- app_assoc, Z.add_assoc.
Qed.


Lemma plain_converted good rest granted o read out n k :
  stops_at good rest o -> k n read = Some (converted granted true None read out read) ->
  match plain_answer o n read with
  | inl (e, i) => Some (err_out i e)
  | inr (n, i) => k n i
  end = Some (converted granted true o read out read).
Proof. intros Ho Hk. destruct Ho; [exact Hk..|reflexivity]. Qed.

Lemma ucs4_to_utf8_ok str len l :
  source str len l -> Forall (fun c => 0 <= c) l -> 6 * zlen l < 2 ^ 31 - 1 ->
  exists cs rest o, l = cs ++ rest /\ Forall char cs /\ stops_at char rest o /\
    g_ucs4_to_utf8 g_try_malloc_n str len =
    Some (converted (g_try_malloc_n (zlen (encs cs) + 1) 1) true o (zlen cs) (encs cs) (zlen cs)).
Proof.
  intros [Hs Hi] Hp Hov. unfold g_ucs4_to_utf8. pose proof (zlen_nonneg l).
  destruct (ucs4_scan_ok (S (length str)) str len 0 l 0) as (cs & rest & o & El & Hcs & Ho & ->); try done; try lia.
  { apply reads_length in Hs. lia. }
  exists cs, rest, o. split_and!; try done. rewrite !Z.add_0_l. cbn [mbind option_bind].
  refine (plain_converted _ _ _ _ _ _ _ _ Ho _).
  assert (zlen (encs cs) <= 6 * zlen cs) as Hle.
  { clear -Hcs. induction Hcs as [|c cs Hc _ IH]; [done|]. rewrite encs_cons, zlen_app, zlen_cons.
    rewrite zlen_enc by (unfold char in Hc; lia). pose proof (UTF8_LENGTH_range c). lia. }
  rewrite El, zlen_app in Hov. pose proof (zlen_nonneg rest). pose proof (zlen_nonneg cs).
  pose proof (zlen_nonneg (encs cs)). rewrite El in Hs. apply reads_app in Hs as [Hs _].
  rewrite int_add_ok by lia. cbn [mbind option_bind].
  unfold try_malloc_n, converted. rewrite u64_small by lia.
  cbn [bool_decide orb]. destruct (g_try_malloc_n _ _); [|done].
  pose proof (ucs4_to_utf8_fill_ok (length str) (zlen (encs cs) + 1) str 0 cs [] Hcs Hs) as F.
  change (zlen []) with 0 in F. rewrite !Z.add_0_l in F. rewrite F; [|lia|lia|by apply reads_length in Hs|lia].
  cbn [mbind option_bind app]. by rewrite finish_ok by lia.
Qed.

Lemma words_bound cs : zlen (words_of utf16_words cs) <= 2 * zlen cs.
Proof.
  induction cs as [|c cs IH]; [done|]. rewrite words_cons, zlen_app, zlen_cons.
  assert (zlen (utf16_words c) <= 2) as Hw.
  { unfold utf16_words. zcases; rewrite !zlen_cons; change (zlen []) with 0; lia. }
  lia.
Qed.

Lemma ucs4_to_utf16_ok str len l :
  source str len l -> Forall (fun c => 0 <= c) l -> 2 * zlen l < 2 ^ 31 - 1 ->
  exists cs rest o, l = cs ++ rest /\ Forall text_char cs /\ stops_at text_char rest o /\
    g_ucs4_to_utf16 g_try_malloc_n str len =
    Some (converted (g_try_malloc_n (zlen (words_of utf16_words cs) + 1) 2) true o
            (zlen cs) (words_of utf16_words cs) (zlen cs)).
Proof.
  intros [Hs Hi] Hp Hov. unfold g_ucs4_to_utf16. pose proof (zlen_nonneg l).
  destruct (ucs4_utf16_scan_ok (S (length str)) str len 0 l 0) as (cs & rest & o & El & Hcs & Ho & ->); try done; try lia.
  { apply reads_length in Hs. lia. }
  exists cs, rest, o. split_and!; try done. rewrite !Z.add_0_l. cbn [mbind option_bind].
  refine (plain_converted _ _ _ _ _ _ _ _ Ho _). pose proof (words_bound cs).
  rewrite El, zlen_app in Hov. pose proof (zlen_nonneg rest). pose proof (zlen_nonneg cs).
  pose proof (zlen_nonneg (words_of utf16_words cs)). rewrite El in Hs. apply reads_app in Hs as [Hs _].
  rewrite int_add_ok by lia. cbn [mbind option_bind].
  unfold try_malloc_n, converted. rewrite u64_small by lia.
  cbn [bool_decide orb]. destruct (g_try_malloc_n _ _); [|done].
  pose proof (ucs4_to_utf16_fill_ok (length str) (zlen (words_of utf16_words cs) + 1) str 0 cs [] Hcs Hs) as F.
  change (zlen []) with 0 in F. rewrite !Z.add_0_l in F. rewrite F; [|lia|lia|by apply reads_length in Hs|lia].
  cbn [mbind option_bind app]. by rewrite finish_ok by lia.
Qed.

End allocation.

(** ** From UTF-16 *)

(** Why a conversion from UTF-16 stops, and how many words further it looks. *)
Inductive stops16 : list Z -> option convert_error -> Z -> Prop :=
  | stops16_end : stops16 [] None 0
  | stops16_nul rest : stops16 (0 :: rest) None 0
  | stops16_partial h : is_high h = true -> stops16 [h] (Some PARTIAL_INPUT) 1
  | stops16_partial_nul h rest : is_high h = true -> stops16 (h :: 0 :: rest) (Some PARTIAL_INPUT) 1
  | stops16_low c rest : is_low c = true -> stops16 (c :: rest) (Some ILLEGAL_SEQUENCE) 0
  | stops16_high h c rest :
      is_high h = true -> c <> 0 -> is_low c = false ->
      stops16 (h :: c :: rest) (Some ILLEGAL_SEQUENCE) 1.

Definition word (w : Z) : Prop := 0 <= w < 0x10000.

Lemma single_word c :
  word c -> c <> 0 -> is_low c = false -> is_high c = false -> text_char c /\ utf16_words c = [c].
Proof.
  unfold word, is_low, is_high, text_char, scalar, utf16_words. intros Hw Hc Hl Hh.
  destruct (Z.ltb_spec c 0x10000); [|lia]. rewrite wrap_small by lia. split; [|done].
  revert Hl Hh. zcases; cbn; try done; lia.
Qed.

Lemma pair_words h c :
  is_high h = true -> is_low c = true ->
  text_char (SURROGATE_VALUE h c) /\ utf16_words (SURROGATE_VALUE h c) = [h; c].
Proof.
  unfold is_low, is_high, text_char, scalar, SURROGATE_VALUE. intros Hh Hl. zprops.
  rewrite (wrap_small 32 (h - 0xd800)) by lia. rewrite wrap_small by lia. split; [lia|].
  unfold utf16_words. rewrite (proj2 (Z.ltb_ge _ _)) by lia. rewrite (wrap_small 32) by lia.
  replace ((h - 0xd800) * 0x400 + c - 0xdc00 + 0x10000 - 0x10000) with (c - 0xdc00 + (h - 0xd800) * 0x400) by lia.
  rewrite Z.quot_div_nonneg, Z.rem_mod_nonneg by lia.
  rewrite Z.div_add, Z.div_small, Z_mod_plus_full, Z.mod_small by lia.
  rewrite !wrap_small by lia. f_equal; [lia|]. f_equal. lia.
Qed.

Lemma words_of_text c :
  text_char c ->
  (utf16_words c = [c] /\ c <> 0 /\ is_low c = false /\ is_high c = false) \/
  (exists h l, utf16_words c = [h; l] /\ is_high h = true /\ is_low l = true /\ SURROGATE_VALUE h l = c).
Proof.
  unfold text_char, scalar. intros Hc. destruct (Z.ltb_spec c 0x10000) as [Hlt|Hge].
  - left. unfold utf16_words. rewrite (proj2 (Z.ltb_lt _ _)), wrap_small by lia.
    split_and!; [done|lia|..]; unfold is_low, is_high; zcases; cbn; done || lia.
  - right. unfold utf16_words. rewrite (proj2 (Z.ltb_ge _ _)) by lia. rewrite (wrap_small 32) by lia.
    rewrite Z.quot_div_nonneg, Z.rem_mod_nonneg by lia.
    exists ((c - 0x10000) / 0x400 + 0xd800), ((c - 0x10000) mod 0x400 + 0xdc00).
    rewrite !wrap_small by zify_div. split_and!; [done|..]; unfold is_high, is_low, SURROGATE_VALUE.
    + apply andb_true_intro. split; [apply Z.leb_le|apply Z.ltb_lt]; zify_div.
    + apply andb_true_intro. split; [apply Z.leb_le|apply Z.ltb_lt]; zify_div.
    + rewrite (wrap_small 32 (_ - 0xd800)) by zify_div. rewrite wrap_small by zify_div. zify_div.
Qed.


Section from_utf16.
Context (add : Z -> Z -> option Z) (size_of : Z -> Z) (bound : Z).
Context (Hadd : forall n c, text_char c -> 0 <= n -> n + 4 < bound -> add n (size_of c) = Some (n + size_of c)).
Context (Hsize : forall c, text_char c -> 1 <= size_of c <= 4).

Definition total (cs : list Z) : Z := fold_right (fun c n => size_of c + n) 0 cs.

Definition scan16_answer (o : option convert_error) (l : list Z) (n in_ : Z) :
    convert_error * Z + Z * Z * Z :=
  match o with
  | None => inr (n, in_, 0)
  | Some PARTIAL_INPUT => inr (n, in_, default 0 (head l))
  | Some e => inl (e, in_)
  end.

Lemma utf16_scan_ok fuel str len p l n :
  reads str p l -> Forall word l -> input len p l -> (length l < fuel)%nat ->
  0 <= n -> n + 4 * zlen l < bound ->
  exists cs rest o k, l = words_of utf16_words cs ++ rest /\ Forall text_char cs /\ stops16 rest o k /\
    utf16_scan add size_of fuel str len p n 0 =
    Some (scan16_answer o rest (n + total cs) (p + zlen (words_of utf16_words cs) + k)).
Proof.
  revert p l n. induction fuel as [fuel IH] using lt_wf_ind. intros p l n Hs Hw Hi Hf Hn Hov.
  assert (forall o k, stops16 l o k -> exists cs rest o' k', l = words_of utf16_words cs ++ rest /\
    Forall text_char cs /\ stops16 rest o' k' /\
    Some (scan16_answer o l n (p + k)) =
    Some (scan16_answer o' rest (n + total cs) (p + zlen (words_of utf16_words cs) + k'))) as Hstop.
  { intros o k Ho. exists [], l, o, k. change (zlen (words_of utf16_words [])) with 0.
    change (total []) with 0. rewrite !Z.add_0_r. split_and!; try done. }
  pose proof (fun o => Hstop o 0) as Hstop0. rewrite Z.add_0_r in Hstop0.
  (* and here it goes on after a character *)
  assert (forall fuel' c ws l', (fuel' < fuel)%nat -> (length l' < fuel')%nat -> text_char c ->
    utf16_words c = ws -> l = ws ++ l' -> Forall (fun w => w <> 0) ws ->
    exists cs rest o k, l = words_of utf16_words cs ++ rest /\ Forall text_char cs /\ stops16 rest o k /\
    utf16_scan add size_of fuel' str len (p + zlen ws) (n + size_of c) 0 =
    Some (scan16_answer o rest (n + total cs) (p + zlen (words_of utf16_words cs) + k))) as Hgo.
  { intros fuel' c ws l' Hf1 Hf2 Hc <- -> Hnz. pose proof (Hsize c Hc).
    apply reads_app in Hs as [_ Hs]. apply Forall_app in Hw as [_ Hw]. apply input_app in Hi; [|done].
    assert (1 <= zlen (utf16_words c)).
    { unfold utf16_words. zcases; rewrite !zlen_cons; change (zlen []) with 0; lia. }
    rewrite zlen_app in Hov.
    destruct (IH fuel' Hf1 _ l' (n + size_of c) Hs Hw Hi Hf2) as (cs & rest & o & k & -> & Hcs & Ho & ->); [lia..|].
    exists (c :: cs), rest, o, k. rewrite words_cons, zlen_app, !Z.add_assoc. cbn [total fold_right].
    fold (total cs). rewrite Z.add_assoc.
    split_and!; [by rewrite app_assoc|by apply Forall_cons|done|done]. }
  destruct fuel as [|fuel]; [lia|]. cbn [utf16_scan].
  destruct l as [|c l].
  { rewrite (input_test_nil _ _ Hi). cbn [negb]. apply (Hstop0 None). constructor. }
  rewrite (input_test _ _ _ Hi) by done. cbn [negb]. destruct Hs as [Hr Hs]. rewrite Hr. cbn [mbind option_bind].
  destruct (Z.eqb_spec c 0) as [->|Hc].
  { apply (Hstop0 None). constructor. }
  change (0 =? 0) with true. cbn [negb]. pose proof Hw as [Hwc Hwl]%Forall_cons.
  destruct (is_low c) eqn:Hlow.
  { apply (Hstop0 (Some ILLEGAL_SEQUENCE)). by constructor. }
  cbn [length] in Hf. rewrite zlen_cons in Hov. pose proof (zlen_nonneg l).
  destruct (is_high c) eqn:Hhigh.
  2:{ destruct (single_word c Hwc Hc Hlow Hhigh) as [Ht Ew].
      rewrite Hadd by (done || lia). cbn [mbind option_bind].
      apply (Hgo fuel c [c] l); [lia|lia|done|done|done|by repeat constructor]. }
  pose proof (input_next _ _ _ _ Hi Hc) as Hi'.
  destruct fuel as [|fuel]; [lia|]. cbn [utf16_scan].
  destruct l as [|d l].
  { rewrite (input_test_nil _ _ Hi'). cbn [negb]. apply (Hstop (Some PARTIAL_INPUT) 1). by constructor. }
  rewrite (input_test _ _ _ Hi') by done. cbn [negb]. destruct Hs as [Hr' Hs]. rewrite Hr'. cbn [mbind option_bind].
  destruct (Z.eqb_spec d 0) as [->|Hd]; [apply (Hstop (Some PARTIAL_INPUT) 1); by constructor|].
  assert ((c =? 0) = false) as -> by by apply Z.eqb_neq. cbn [negb].
  destruct (is_low d) eqn:Hlowd; [|apply (Hstop (Some ILLEGAL_SEQUENCE) 1); by constructor].
  destruct (pair_words c d Hhigh Hlowd) as [Ht Ew]. rewrite zlen_cons in Hov. pose proof (zlen_nonneg l).
  rewrite Hadd by (done || lia). cbn [mbind option_bind]. cbn [length] in Hf.
  replace (p + 1 + 1) with (p + zlen [c; d]) by (change (zlen [c; d]) with 2; lia).
  apply (Hgo fuel _ [c; d] l); [lia|lia|done|done|done|by repeat constructor].
Qed.
End from_utf16.

Section fill16.
Context (items : Z -> list Z).
Context (Hitems : forall c, text_char c -> 1 <= zlen (items c)).

Lemma utf16_fill_from_ok fuel size str p cs out :
  Forall text_char cs -> reads str p (words_of utf16_words cs) ->
  (length (words_of utf16_words cs) <= fuel)%nat -> zlen out + zlen (words_of items cs) <= size ->
  utf16_fill_from items fuel (zlen out + zlen (words_of items cs)) size str p 0 out =
  Some (out ++ words_of items cs, p + zlen (words_of utf16_words cs)).
Proof.
  intros H. revert fuel p out. induction H as [|c cs Hc Hcs IH]; intros fuel p out Hs Hf Hl.
  - change (zlen (words_of items [])) with 0. change (zlen (words_of utf16_words [])) with 0. rewrite !Z.add_0_r.
    assert ((zlen out <=? zlen out) = true) as E by (apply Z.leb_le; lia).
    destruct fuel; cbn [utf16_fill_from]; rewrite E; cbn; by rewrite app_nil_r.
  - rewrite !words_cons, !zlen_app in *. pose proof (Hitems c Hc). pose proof (zlen_nonneg (words_of items cs)).
    rewrite Z.add_assoc, <- zlen_app in Hl |- *. apply reads_app in Hs as [Hs1 Hs2].
    rewrite length_app in Hf.
    destruct (words_of_text c Hc) as [(Ew & Hc0 & Hlow & Hhigh)|(h & l & Ew & Hh & Hlow & Hv)]; rewrite Ew in *.
    + destruct fuel as [|fuel]; cbn [length] in Hf; [lia|]. cbn [utf16_fill_from].
      rewrite (proj2 (Z.leb_gt _ _)) by (rewrite zlen_app; lia). destruct Hs1 as [-> _]. cbn [mbind option_bind].
      rewrite Hlow, Hhigh, put_items_ok by (rewrite zlen_app in Hl; lia). cbn [mbind option_bind].
      rewrite IH; [|done|lia|done]. by rewrite <- app_assoc, Z.add_assoc.
    + destruct fuel as [|[|fuel]]; cbn [length] in Hf; [lia..|].
      assert (is_low h = false) as Hlh.
      { unfold is_low, is_high in *. zprops. apply andb_false_intro1, Z.leb_gt. lia. }
      destruct Hs1 as [Hr1 [Hr2 _]].
      assert ((zlen (out ++ items c) + zlen (words_of items cs) <=? zlen out) = false) as Ele
        by (apply Z.leb_gt; rewrite zlen_app; lia).
      cbn [utf16_fill_from]. rewrite Ele, Hr1. cbn [mbind option_bind]. rewrite Hlh, Hh, Hr2.
      cbn [mbind option_bind]. rewrite Hlow, Hv.
      rewrite put_items_ok by (rewrite zlen_app in Hl; lia). cbn [mbind option_bind].
      change (zlen [h; l]) with 2 in *. replace (p + 1 + 1) with (p + 2) by lia.
      rewrite IH; [|done|lia|done]. by rewrite <- app_assoc, Z.add_assoc.
Qed.
End fill16.

Lemma total_encs cs : Forall text_char cs -> total UTF8_LENGTH cs = zlen (encs cs).
Proof.
  induction 1 as [|c cs Hc _ IH]; [done|]. cbn [total fold_right]. fold (total UTF8_LENGTH cs).
  rewrite IH, encs_cons, zlen_app, zlen_enc; [done|]. by apply char_code, text_char_char.
Qed.
Lemma total_4 cs : total (fun _ => 4) cs = 4 * zlen cs.
Proof.
  induction cs as [|c cs IH]; [done|]. cbn [total fold_right]. fold (total (fun _ => 4) cs).
  rewrite IH, zlen_cons. lia.
Qed.

(** After the first loop: an error, or the second loop. *)
Lemma scan16_converted rest granted want_read o read out n k stop f :
  stops16 rest o k ->
  (forall high, f n stop high =
    if negb (high =? 0) && negb want_read then Some (err_out stop PARTIAL_INPUT)
    else Some (converted granted true None read out stop)) ->
  match scan16_answer o rest n stop with
  | inl (e, i) => Some (err_out i e)
  | inr (n, i, high) => f n i high
  end = Some (converted granted want_read o read out stop).
Proof.
  intros Ho Hf. destruct Ho as [|rest|h Hh|h rest Hh|c rest Hl|h c rest Hh Hc Hl];
    cbn [scan16_answer]; rewrite ?Hf; try reflexivity;
    cbn [head from_option id]; (assert ((h =? 0) = false) as -> by
      (apply Z.eqb_neq; unfold is_high in Hh; zprops; lia)); by destruct want_read.
Qed.

Lemma text_words_reads cs : Forall text_char cs -> zlen cs <= zlen (words_of utf16_words cs).
Proof.
  induction 1 as [|c cs Hc _ IH]; [done|]. rewrite words_cons, zlen_app, zlen_cons.
  destruct (words_of_text c Hc) as [(-> & _)|(h & l & -> & _)]; rewrite !zlen_cons; change (zlen []) with 0; lia.
Qed.

Lemma UTF8_LENGTH_text c : text_char c -> 1 <= UTF8_LENGTH c <= 4.
Proof. unfold text_char, scalar, UTF8_LENGTH. intros. zcases; lia. Qed.

Section allocation16.
Context (g_try_malloc_n : Z -> Z -> bool).

Lemma utf16_to_utf8_ok str len want_read l :
  source str len l -> Forall word l -> 4 * zlen l < 2 ^ 31 - 1 ->
  exists cs rest o k, l = words_of utf16_words cs ++ rest /\ Forall text_char cs /\ stops16 rest o k /\
    xutf16_to_utf8 g_try_malloc_n str len want_read =
    Some (converted (g_try_malloc_n (zlen (encs cs) + 1) 1) want_read o (zlen (words_of utf16_words cs)) (encs cs)
            (zlen (words_of utf16_words cs) + k)).
Proof.
  intros [Hs Hi] Hw Hov. unfold xutf16_to_utf8.
  destruct (utf16_scan_ok int_add UTF8_LENGTH (2 ^ 31)) with (fuel := S (length str)) (str := str) (len := len)
    (p := 0) (l := l) (n := 0) as (cs & rest & o & k & El & Hcs & Ho & ->); try done; try lia.
  { intros n c Hc Hn Hlt. pose proof (UTF8_LENGTH_text c Hc). apply int_add_ok; lia. }
  { apply UTF8_LENGTH_text. }
  { apply reads_length in Hs. lia. }
  exists cs, rest, o, k. split_and!; try done. cbn [mbind option_bind]. rewrite !Z.add_0_l, total_encs by done.
  pose proof (zlen_nonneg rest). pose proof (text_words_reads cs Hcs).
  assert (0 <= zlen (encs cs) <= 4 * zlen cs) as Hle.
  { split; [apply zlen_nonneg|]. rewrite <- total_encs by done. clear -Hcs.
    induction Hcs as [|c cs Hc _ IH]; [done|]. cbn [total fold_right]. fold (total UTF8_LENGTH cs).
    rewrite zlen_cons. pose proof (UTF8_LENGTH_text c Hc). lia. }
  rewrite El in Hs. apply reads_app in Hs as [Hs _]. rewrite El, zlen_app in Hov.
  refine (scan16_converted _ _ _ _ _ _ _ _ _ _ Ho _). intros high.
  destruct (negb (high =? 0) && negb want_read); [done|].
  rewrite int_add_ok by lia. cbn [mbind option_bind].
  unfold try_malloc_n, converted. rewrite u64_small by lia. cbn [bool_decide orb].
  destruct (g_try_malloc_n _ _); [|done].
  pose proof (utf16_fill_from_ok enc) as F. specialize (F ltac:(intros c Hc;
    apply zlen_enc_pos, char_code, text_char_char, Hc) (length str) (zlen (encs cs) + 1) str 0 cs [] Hcs Hs).
  change (zlen []) with 0 in F. change (words_of enc cs) with (encs cs) in F. rewrite !Z.add_0_l in F.
  change (fun wc => (xunichar_to_utf8 wc).2) with enc. rewrite F; [|by apply reads_length in Hs|lia].
  cbn [mbind option_bind app]. by rewrite finish_ok by lia.
Qed.

Lemma words_of_single cs : words_of (fun c => [c]) cs = cs.
Proof. induction cs as [|c cs IH]; [done|]. rewrite words_cons, IH. done. Qed.

Lemma utf16_to_ucs4_ok str len want_read l :
  source str len l -> Forall word l -> 4 * zlen l < 2 ^ 31 - 4 ->
  exists cs rest o k, l = words_of utf16_words cs ++ rest /\ Forall text_char cs /\ stops16 rest o k /\
    xutf16_to_ucs4 g_try_malloc_n str len want_read =
    Some (converted (g_try_malloc_n (4 * zlen cs + 4) 1) want_read o (zlen (words_of utf16_words cs)) cs
            (zlen (words_of utf16_words cs) + k)).
Proof.
  intros [Hs Hi] Hw Hov. unfold xutf16_to_ucs4.
  destruct (utf16_scan_ok (fun n k => Some (i32 (n + k))) (fun _ => 4) (2 ^ 31)) with (fuel := S (length str))
    (str := str) (len := len) (p := 0) (l := l) (n := 0) as (cs & rest & o & k & El & Hcs & Ho & ->); try done; try lia.
  { intros n c Hc Hn Hlt. by rewrite i32_small by lia. }
  { apply reads_length in Hs. lia. }
  exists cs, rest, o, k. split_and!; try done. cbn [mbind option_bind]. rewrite !Z.add_0_l, total_4.
  pose proof (zlen_nonneg rest). pose proof (text_words_reads cs Hcs). pose proof (zlen_nonneg cs).
  rewrite El in Hs. apply reads_app in Hs as [Hs _]. rewrite El, zlen_app in Hov.
  refine (scan16_converted _ _ _ _ _ _ _ _ _ _ Ho _). intros high.
  destruct (negb (high =? 0) && negb want_read); [done|].
  rewrite int_add_ok by lia. cbn [mbind option_bind].
  unfold try_malloc_n, converted. rewrite u64_small by lia. cbn [bool_decide orb].
  destruct (g_try_malloc_n _ _); [|done].
  replace (4 * zlen cs / 4) with (zlen cs) by (rewrite Z.mul_comm, Z.div_mul; lia).
  replace ((4 * zlen cs + 4) / 4) with (zlen cs + 1)
    by (replace (4 * zlen cs + 4) with ((zlen cs + 1) * 4) by lia; rewrite Z.div_mul; lia).
  pose proof (utf16_fill_from_ok (fun wc => [wc])) as F. specialize (F ltac:(done)
    (length str) (zlen cs + 1) str 0 cs [] Hcs Hs).
  rewrite words_of_single in F. change (zlen []) with 0 in F. rewrite !Z.add_0_l in F.
  rewrite F; [|by apply reads_length in Hs|lia].
  cbn [mbind option_bind app]. by rewrite finish_ok by lia.
Qed.

End allocation16.

(** ** The fast conversion *)

Lemma CONT_BYTE_FAST_ok s p b : rd s p = Some b -> cont b -> CONT_BYTE_FAST s p = Some (b - 0x80, p + 1).
Proof. intros Hr Hb. unfold CONT_BYTE_FAST. rewrite Hr. cbn [mbind option_bind]. by rewrite cont_bits. Qed.

Lemma cont_digit d : cont (0x80 + d mod 64).
Proof. unfold cont. pose proof (Z.mod_pos_bound d 64). lia. Qed.

Lemma lor_fields x y k : 0 <= k -> 0 <= y < 2 ^ k -> (x << k) or y = x * 2 ^ k + y.
Proof. apply lor_shiftl_add. Qed.

Lemma lor_fields6 x y : 0 <= y < 64 -> (x << 12) or (y << 6) = (x * 64 + y) << 6.
Proof.
  intros. rewrite lor_fields by (rewrite ?Z.shiftl_mul_pow2 by lia; lia).
  rewrite !Z.shiftl_mul_pow2 by lia. lia.
Qed.
Lemma lor_fields12 x y : 0 <= y < 64 -> (x << 18) or (y << 12) = (x * 64 + y) << 12.
Proof.
  intros. rewrite lor_fields by (rewrite ?Z.shiftl_mul_pow2 by lia; lia).
  rewrite !Z.shiftl_mul_pow2 by lia. lia.
Qed.

Ltac class_of_first :=
  solve [unfold is_byte; zify_div | unfold lead_class; zcases; (done || zify_div)].

Lemma fast_char_ok s p c :
  0 < c < 0x200000 -> reads s p (enc c) -> fast_char s p = Some (c, p + zlen (enc c)).
Proof.
  intros Hc Hs. unfold fast_char.
  destruct (Z.ltb_spec c 0x80); [|destruct (Z.ltb_spec c 0x800); [|destruct (Z.ltb_spec c 0x10000)]].
  - rewrite enc_1 in * by lia. destruct Hs as [-> _]. cbn [mbind option_bind].
    by rewrite (proj2 (Z.ltb_lt _ _)) by lia.
  - rewrite enc_2 in * by lia. destruct Hs as (-> & Hr1 & _). cbn [mbind option_bind].
    rewrite (proj2 (Z.ltb_ge _ _)) by zify_div.
    rewrite (CONT_BYTE_FAST_ok _ _ _ Hr1) by apply cont_digit. cbn [mbind option_bind].
    rewrite (proj2 (Z.ltb_lt _ _)) by zify_div.
    rewrite (lead_mask _ 1 0xc0 0x80) by class_of_first.
    rewrite lor_fields by zify_div. f_equal. f_equal; [zify_div|].
    change (zlen [_; _]) with 2. lia.
  - rewrite enc_3 in * by lia. destruct Hs as (-> & Hr1 & Hr2 & _). cbn [mbind option_bind].
    rewrite (proj2 (Z.ltb_ge _ _)) by zify_div.
    rewrite (CONT_BYTE_FAST_ok _ _ _ Hr1) by apply cont_digit. cbn [mbind option_bind].
    rewrite (proj2 (Z.ltb_ge _ _)) by zify_div.
    rewrite (CONT_BYTE_FAST_ok _ _ _ Hr2) by apply cont_digit. cbn [mbind option_bind].
    rewrite (proj2 (Z.ltb_lt _ _)) by zify_div.
    rewrite (lead_mask _ 2 0xe0 0x800) by class_of_first.
    rewrite lor_fields6, lor_fields by zify_div. f_equal. f_equal; [zify_div|].
    change (zlen [_; _; _]) with 3. lia.
  - rewrite enc_4 in * by lia. destruct Hs as (-> & Hr1 & Hr2 & Hr3 & _). cbn [mbind option_bind].
    rewrite (proj2 (Z.ltb_ge _ _)) by zify_div.
    rewrite (CONT_BYTE_FAST_ok _ _ _ Hr1) by apply cont_digit. cbn [mbind option_bind].
    rewrite (proj2 (Z.ltb_ge _ _)) by zify_div.
    rewrite (CONT_BYTE_FAST_ok _ _ _ Hr2) by apply cont_digit. cbn [mbind option_bind].
    rewrite (proj2 (Z.ltb_ge _ _)) by zify_div.
    rewrite (CONT_BYTE_FAST_ok _ _ _ Hr3) by apply cont_digit. cbn [mbind option_bind].
    rewrite (proj2 (Z.leb_gt _ _)) by zify_div.
    rewrite (lead_mask _ 3 0xf0 0x10000) by class_of_first.
    rewrite lor_fields12, lor_fields6, lor_fields by zify_div. f_equal. f_equal; [zify_div|].
    change (zlen [_; _; _; _]) with 4. lia.
Qed.

Lemma fast_count_ok fuel s len p cs l n :
  Forall char cs -> l = encs cs \/ l = encs cs ++ [0] -> input len p l -> reads s p l ->
  (length l < fuel)%nat -> 0 <= n -> n + zlen l < 2 ^ 31 ->
  fast_count fuel s len p n = Some (n + zlen cs).
Proof.
  intros H. revert fuel p l n. induction H as [|c cs Hc _ IH]; intros [|fuel] p l n Hl Hi Hs Hf Hn Hov; try lia;
    cbn [fast_count].
  - change (@zlen Z []) with 0. rewrite Z.add_0_r.
    destruct Hl as [->| ->]; cbn [encs flat_map app] in *.
    + by rewrite (input_test_nil _ _ Hi).
    + rewrite (input_test _ _ _ Hi) by done. destruct Hs as [-> _]. done.
  - destruct (enc_rest_nonzero c Hc) as (b & t & E & Hb).
    destruct (enc_head c (char_code c Hc)) as (b' & t' & E' & _ & _ & _ & Hk).
    assert (b' = b) as -> by congruence.
    assert (exists l', l = enc c ++ l' /\ (l' = encs cs \/ l' = encs cs ++ [0])) as (l' & -> & Hl').
    { destruct Hl as [-> | ->]; rewrite encs_cons; [by eauto|rewrite <- app_assoc; eauto]. }
    rewrite (input_test _ _ _ Hi) by (by rewrite E). cbn [negb].
    apply reads_app in Hs as [Hs1 Hs2]. rewrite E in Hs1. destruct Hs1 as [-> _].
    cbn [mbind option_bind]. destruct (Z.eqb_spec b 0); [done|].
    pose proof (zlen_enc_pos c (char_code c Hc)). rewrite zlen_app in Hov. pose proof (zlen_nonneg l').
    rewrite int_add_ok by lia. cbn [mbind option_bind]. rewrite Hk.
    apply input_app in Hi; [|eapply Forall_proj2, enc_nonzero, Hc].
    rewrite (IH fuel _ l') by (done || lia || (rewrite length_app in Hf; unfold zlen in *; lia)).
    rewrite zlen_cons. f_equal. lia.
Qed.

Lemma fast_fill_ok s p cs :
  Forall (fun c => 0 < c < 0x200000) cs -> reads s p (encs cs) -> fast_fill (length cs) s p = Some cs.
Proof.
  intros H. revert p. induction H as [|c cs Hc _ IH]; intros p Hs; [done|].
  rewrite encs_cons in Hs. apply reads_app in Hs as [H1 H2]. cbn [length fast_fill].
  rewrite (fast_char_ok _ _ c) by done. cbn [mbind option_bind]. by rewrite IH.
Qed.

Lemma utf8_to_ucs4_fast_ok s len cs l :
  Forall (fun c => 0 < c < 0x200000) cs -> source s len l -> l = encs cs \/ l = encs cs ++ [0] ->
  zlen l < 2 ^ 31 - 1 ->
  xutf8_to_ucs4_fast s len = Some (cs ++ [0], zlen cs).
Proof.
  intros Hcs [Hs Hi] Hl Hov.
  assert (Forall char cs) as Hch by (eapply Forall_impl; [exact Hcs|]; unfold char; cbn; lia).
  pose proof (encs_length cs (chars_codes _ Hch)) as Hle. change (Z.of_nat (length cs)) with (zlen cs) in Hle.
  assert (zlen (encs cs) <= zlen l /\ reads s 0 (encs cs)) as [Hz Hs'].
  { destruct Hl as [-> | ->]; [done|]. rewrite zlen_app. apply reads_app in Hs as [Hs _].
    change (zlen [0]) with 1. split; [lia|done]. }
  pose proof (zlen_nonneg cs). unfold xutf8_to_ucs4_fast.
  rewrite (fast_count_ok _ _ _ _ cs l); try done; [|apply reads_length in Hs; lia|lia].
  cbn [mbind option_bind]. rewrite Z.add_0_l, int_add_ok by lia. cbn [mbind option_bind].
  replace (Z.to_nat (zlen cs)) with (length cs) by (unfold zlen; lia). by rewrite fast_fill_ok.
Qed.
