(* ===== verification/Utf8Correct.v ===== *)
(** * What gutf8.c promises

    The claims about the UTF-8 functions: characters, the validated reader and
    the validator, moving and copying in a string, the conversions, the repair
    of invalid strings. *)

From S2P Require Import Prelude.
From S2P Require Import Utf8.
From S2P Require Import Utf8Codec.
From S2P Require Import Utf8Text.
From S2P Require Import Utf8Validate.
From S2P Require Import Utf8Convert.
Local Open Scope Z_scope.
Local Open Scope xpl_scope.

(** A string for the witnesses: "Aé€" and a NUL. *)
Definition sample : list Z := [0x41; 0xc3; 0xa9; 0xe2; 0x82; 0xac; 0].
Definition sample_chars : list Z := [0x41; 0xe9; 0x20ac].

Ltac concrete :=
  lazymatch goal with
  | |- reads _ _ _ => vm_compute; repeat split
  | |- Forall _ _ => repeat (apply Forall_cons_2; [try done; cbv; intuition (discriminate || congruence)|]); apply Forall_nil_2
  | |- _ => vm_compute; intuition (discriminate || congruence)
  end.

(** ** Characters *)

(** C30: every code below 2^31 is written as one sequence of [UTF8_LENGTH]
    bytes; wherever that sequence stands in a string the readers give back the
    code, [xutf8_next_char] moves behind it and [xutf8_prev_char] back to its
    first byte. No other code is written with the same first bytes. *)
Theorem utf8_char_round_trip s p c :
  code c -> reads s p (xunichar_to_utf8 c).2 ->
  let len := (xunichar_to_utf8 c).1 in
  len = UTF8_LENGTH c /\ len = zlen (xunichar_to_utf8 c).2 /\ Forall is_byte (xunichar_to_utf8 c).2 /\
  xutf8_get_char s p = Some c /\
  xutf8_get_char_extended s p (-1) = Some c /\ xutf8_get_char_extended s p len = Some c /\
  xutf8_next_char s p = Some (p + len) /\ xutf8_prev_char s (p + len) = Some p /\
  forall d, code d -> (xunichar_to_utf8 d).2 `prefix_of` (xunichar_to_utf8 c).2 -> d = c.
Proof.
  intros Hc Hs len. fold (enc c) in *.
  assert (len = zlen (enc c)) as El.
  { subst len. unfold enc. rewrite to_utf8_eq by done. destruct (code_class c) as [n base]. cbn [fst snd].
    rewrite zlen_cons. unfold zlen. by rewrite length_digits. }
  rewrite El. assert (reads s p (encs [c])) as Hs' by (cbn; by rewrite app_nil_r).
  assert (Forall code [c]) as Hcs by (by apply Forall_singleton).
  pose proof (encs_bytes [c] Hcs) as Hb. cbn in Hb. rewrite app_nil_r in Hb.
  split_and!; [by apply zlen_enc|done|done|by apply get_char_enc|..].
  - apply extended_enc; [done|done|by left].
  - apply extended_enc; [done|done|right; lia].
  - by apply next_char_enc.
  - pose proof (prev_char_ok s p [c] Hcs Hs' 0 c (p + zlen (enc c)) eq_refl) as [E _].
    + rewrite (position_S p [c] 0 c eq_refl), position_0. pose proof (zlen_enc_pos c Hc). lia.
    + by rewrite position_0 in E.
  - intros d Hd [k E]. fold (enc d) in E. pose proof (enc_unique c d [] k Hc Hd) as U.
    rewrite app_nil_r in U. by destruct (U E).
Qed.

Lemma utf8_char_round_trip_witness :
  xutf8_get_char sample 3 = Some 0x20ac /\ xutf8_prev_char sample 6 = Some 3.
Proof.
  pose proof (utf8_char_round_trip sample 3 0x20ac ltac:(concrete) ltac:(concrete)) as T.
  destruct T as (_ & _ & _ & H1 & _ & _ & _ & H2 & _). split; [exact H1|exact H2].
Defined.

(** [xutf8_get_char_validated] answers a code only for the encoding of a
    Unicode scalar value that stands there, which is not NUL when the length
    is given; -2 for a sequence cut by the end or by a NUL, and -1 for
    everything else, overlong sequences, surrogates and codes above U+10FFFF
    among it. It never reads outside the bytes it is given. *)
Theorem utf8_get_char_validated s p max_len l :
  reads s p l -> available max_len l ->
  exists r, xutf8_get_char_validated s p max_len = Some r /\
    (forall c, code c -> r = c <-> scalar c /\ enc c `prefix_of` l /\ (c = 0 -> max_len < 0)) /\
    (r = partial_sequence <-> incomplete max_len l \/ 0 < max_len /\ head l = Some 0) /\
    (code r \/ r = partial_sequence \/ r = malformed_sequence).
Proof.
  intros Hs Ha.
  assert (max_len <> 0) as Hm.
  { destruct Ha as (Hl & _ & [H|[H _]]); [|lia]. destruct l; [done|]. rewrite zlen_cons in H.
    pose proof (zlen_nonneg l). lia. }
  destruct (extended_cases s p max_len l Hs Ha) as (r & Er & Hr).
  assert (forall c, code c -> enc c `prefix_of` l -> r = c) as Huniq.
  { intros c Hc Hp. pose proof (extended_prefix s p max_len l c Hs Ha Hc Hp) as E. congruence. }
  assert (head l = Some 0 -> r = 0) as H0.
  { intros Hh. apply Huniq; [unfold code; lia|]. destruct l as [|b t]; [done|]. injection Hh as ->.
    rewrite enc_1 by lia. by exists t. }
  destruct Hr as [(Hc & Hp & Hf)|Hr].
  - rewrite (get_char_validated_eq s p max_len r) by done. eexists. split; [done|].
    assert (~ incomplete max_len l) as Hni by (intros Hi; by apply (incomplete_no_enc _ _ r Hi Hc)).
    assert (r = 0 -> head l = Some 0) as H0'.
    { intros ->. destruct Hp as [k ->]. by rewrite enc_1 by lia. }
    destruct (decide (r = 0 /\ 0 < max_len)) as [[H Hpos]|Hn]; [|destruct (decide (scalar r)) as [Hsc|Hsc]].
    + split_and!; [|split; [|done]; intros _; right; auto|by right; left].
      intros c Hcc. split.
      * intros <-. unfold code, partial_sequence in Hcc. lia.
      * intros (_ & Hpc & Hz). pose proof (Huniq c Hcc Hpc). lia.
    + split_and!; [| |by left].
      * intros c Hcc. split; [intros <-; split_and!; [done..|lia]|]. intros (_ & Hpc & _). by apply Huniq.
      * unfold code, partial_sequence in *. split; [lia|]. intros [?|[? ?]]; [done|]. tauto.
    + split_and!; [| |by right; right].
      * intros c Hcc. split; [intros <-; unfold code, malformed_sequence in Hcc; lia|].
        intros (Hs' & Hpc & _). by rewrite (Huniq c Hcc Hpc) in Hsc.
      * split; [done|]. intros [?|[? ?]]; [done|]. tauto.
  - assert (r = partial_sequence \/ r = malformed_sequence) as Hr' by tauto.
    exists r. split; [by apply get_char_validated_err|].
    assert (~ code r) as Hnc by (unfold code, partial_sequence, malformed_sequence in *; lia).
    split_and!; [| |tauto].
    + intros c Hcc. split; [by intros ->|]. intros (_ & Hpc & _). by apply Huniq.
    + destruct Hr as [[-> Hi]|[-> Hi]]; [tauto|]. split; [done|]. intros [?|[_ Hh]]; [done|].
      apply H0 in Hh. done.
Qed.

Lemma utf8_get_char_validated_witness :
  exists r, xutf8_get_char_validated sample 1 2 = Some r /\
    (r = 0xe9 <-> scalar 0xe9 /\ enc 0xe9 `prefix_of` [0xc3; 0xa9] /\ (0xe9 = 0 -> 2 < 0)).
Proof.
  assert (available 2 [0xc3; 0xa9]) as Ha.
  { split; [discriminate|]. split; [|left; reflexivity].
    repeat (apply Forall_cons_2; [unfold is_byte; lia|]). apply Forall_nil_2. }
  destruct (utf8_get_char_validated sample 1 2 [0xc3; 0xa9] ltac:(vm_compute; repeat split) Ha)
    as (r & Hr & Hc & _).
  exists r. split; [exact Hr|]. apply Hc. unfold code. lia.
Defined.

(** ** Validation *)

(** C7: the validators find the longest prefix of the text that is a sequence
    of encodings of Unicode scalar values other than NUL: behind it no such
    encoding stands, [*end] points behind it, and the answer is whether it is
    the whole text, up to the NUL or of the length given. An embedded NUL makes
    a text of a given length invalid. They never read outside the text, even
    when it ends in the middle of a sequence. *)
Theorem utf8_validate_correct s str l :
  (reads s str l -> Forall is_byte l ->
   exists cs rest, valid_prefix l cs rest /\
     xutf8_validate_len s str (zlen l) = Some (bool_decide (rest = []), str + zlen (encs cs)) /\
     xutf8_validate s str (zlen l) = Some (bool_decide (rest = []), str + zlen (encs cs))) /\
  (reads s str (l ++ [0]) -> Forall (fun b => is_byte b /\ b <> 0) l ->
   exists cs rest, valid_prefix l cs rest /\
     xutf8_validate s str (-1) = Some (bool_decide (rest = []), str + zlen (encs cs))) /\
  (forall cs ds rest, Forall text_char cs -> valid_prefix (encs cs) ds rest -> ds = cs /\ rest = []).
Proof.
  split_and!.
  - intros Hs Hb. destruct (validate_len_ok s str (zlen l) l Hs Hb eq_refl) as (cs & rest & Hv & E).
    exists cs, rest. split_and!; [done..|]. unfold xutf8_validate.
    by rewrite (proj2 (Z.leb_le 0 (zlen l)) (zlen_nonneg l)).
  - apply validate_nul_ok.
  - apply valid_prefix_all.
Qed.

Lemma utf8_validate_witness :
  exists cs rest, valid_prefix [0x41; 0xc3; 0xa9; 0xe2; 0x82; 0xac] cs rest /\
    xutf8_validate sample 0 (-1) = Some (bool_decide (rest = []), 0 + zlen (encs cs)).
Proof.
  refine (proj1 (proj2 (utf8_validate_correct sample 0 [0x41; 0xc3; 0xa9; 0xe2; 0x82; 0xac])) _ _).
  - vm_compute. repeat split.
  - repeat (apply Forall_cons_2; [unfold is_byte; lia|]). apply Forall_nil_2.
Defined.

(** ** Moving *)

Section moving.
Context (s : list Z) (str : Z) (cs : list Z).
Context (Hcs : Forall code cs) (Hs : reads s str (encs cs)).

Lemma find_next_char_ok i c p :
  cs !! i = Some c -> position str cs i <= p < position str cs (S i) ->
  xutf8_find_next_char s p (Some (str + zlen (encs cs))) =
    Some (if decide (S i = length cs) then None else Some (position str cs (S i))) /\
  (rd s (str + zlen (encs cs)) = Some 0 ->
   xutf8_find_next_char s p None = Some (Some (position str cs (S i)))).
Proof.
  intros Hi Hp. pose proof (lookup_lt_Some _ _ _ Hi) as Hlt.
  rewrite (position_S str cs i c Hi) in Hp. destruct (char_reads s str cs Hcs Hs i c Hi) as [Hc Hr].
  pose proof (enc_nonempty c Hc) as Hne. apply (reads_bounds _ _ _ Hr) in Hne as [H0 Hb].
  assert (str + zlen (encs cs) = position str cs (length cs)) as Eend.
  { unfold position. by rewrite firstn_all. }
  assert (position str cs (S i) <= str + zlen (encs cs)) as Hle.
  { rewrite Eend. pose proof (position_gap str cs Hcs (S i) (length cs) ltac:(lia)). lia. }
  pose proof (position_ge str cs Hcs i ltac:(lia)).
  assert (str <= position str cs i) by done.
  assert (S i <> length cs -> exists b, rd s (position str cs (S i)) = Some b /\ is_continuation b = false) as Hnext.
  { intros Hn. destruct (lookup_lt_is_Some_2 cs (S i) ltac:(lia)) as [d Hd].
    pose proof (char_reads s str cs Hcs Hs (S i) d Hd) as [Hdc _]. pose proof (zlen_enc_pos d Hdc).
    destruct (inside_byte s str cs Hcs Hs (S i) d 0 Hd ltac:(lia)) as (b & Hb' & E).
    rewrite Z.add_0_r in Hb'. by exists b. }
  unfold xutf8_find_next_char.
  replace (p + 1) with (position str cs i + (p + 1 - position str cs i)) by lia. split.
  - rewrite (find_next_loop_ok s str cs Hcs Hs _ i c); try done; [|lia|unfold zlen in *; lia|].
    + cbn [mbind option_bind]. f_equal. case_decide as E.
      * rewrite Eend, <- E. by rewrite (proj2 (Z.leb_le _ _)).
      * rewrite (proj2 (Z.leb_gt _ _)); [done|]. rewrite Eend.
        pose proof (position_gap str cs Hcs (S i) (length cs) ltac:(lia)). lia.
    + destruct (decide (S i = length cs)) as [E|E]; [left; by rewrite Eend, <- E|right; auto].
  - intros Hz. rewrite (find_next_loop_ok s str cs Hcs Hs _ i c); try done; [lia|unfold zlen in *; lia|].
    right. destruct (decide (S i = length cs)) as [E|E]; [|by apply Hnext].
    rewrite E, <- Eend. by exists 0.
Qed.
End moving.

(** in a string of characters, [position i] being where the [i]-th begins,
    [xutf8_offset_to_pointer] goes any number of characters forwards and
    backwards, its loops always ending at the right byte, and
    [xutf8_pointer_to_offset] is its inverse; from any byte the functions that
    look for the previous and the next character find their first bytes, or
    that there is none. *)
Theorem utf8_moves s str cs :
  Forall code cs -> reads s str (encs cs) ->
  (forall i j, (i <= length cs)%nat -> (j <= length cs)%nat ->
    xutf8_offset_to_pointer s (position str cs i) (Z.of_nat j - Z.of_nat i) = Some (position str cs j) /\
    xutf8_pointer_to_offset s (position str cs i) (position str cs j) = Some (Z.of_nat j - Z.of_nat i)) /\
  (forall i p, (i < length cs)%nat -> position str cs i < p <= position str cs (S i) ->
    xutf8_prev_char s p = Some (position str cs i) /\
    xutf8_find_prev_char s str p = Some (Some (position str cs i))) /\
  xutf8_find_prev_char s str str = Some None /\
  (forall i p, (i < length cs)%nat -> position str cs i <= p < position str cs (S i) ->
    xutf8_find_next_char s p (Some (str + zlen (encs cs))) =
      Some (if decide (S i = length cs) then None else Some (position str cs (S i))) /\
    (rd s (str + zlen (encs cs)) = Some 0 ->
     xutf8_find_next_char s p None = Some (Some (position str cs (S i))))).
Proof.
  intros Hcs Hs. split_and!.
  - intros i j Hi Hj. split; [by apply offset_to_pointer_ok|by apply pointer_to_offset_ok].
  - intros i p Hi Hp. destruct (lookup_lt_is_Some_2 cs i Hi) as [c Hc]. by eapply prev_char_ok.
  - unfold xutf8_find_prev_char. by rewrite Z.sub_diag.
  - intros i p Hi Hp. destruct (lookup_lt_is_Some_2 cs i Hi) as [c Hc]. by eapply find_next_char_ok.
Qed.

Lemma utf8_moves_witness :
  xutf8_offset_to_pointer sample 6 (-2) = Some 1 /\ xutf8_find_prev_char sample 0 5 = Some (Some 3).
Proof.
  assert (Forall code sample_chars) as Hc.
  { repeat (apply Forall_cons_2; [unfold code; lia|]). apply Forall_nil_2. }
  destruct (utf8_moves sample 0 sample_chars Hc ltac:(vm_compute; repeat split)) as (H1 & H2 & _).
  split.
  - exact (proj1 (H1 3%nat 1%nat ltac:(vm_compute; lia) ltac:(vm_compute; lia))).
  - exact (proj2 (H2 2%nat 5 ltac:(vm_compute; lia) ltac:(vm_compute; split; congruence))).
Defined.

(** ** Lengths and copies *)

(** on a string of characters [xutf8_strlen] counts them, or those that end
    in the first [max] bytes, looking at no byte beyond; [xutf8_substring]
    copies the characters between two offsets, and refuses an end before the
    start; [xutf8_strncpy] copies the first [n], with a NUL; and
    [xutf8_strreverse] reverses the order of the characters, not of the bytes,
    its assertion never failing. *)
Theorem utf8_copies s cs :
  Forall char cs -> reads s 0 (encs cs ++ [0]) ->
  (forall t p max, reads t p (bounded (if max <? 0 then None else Some max) (encs cs ++ [0])) ->
    xutf8_strlen t p max = Some (if max <? 0 then zlen cs else whole_chars max cs)) /\
  (forall i j, (i <= j <= length cs)%nat ->
    xutf8_substring s (Z.of_nat i) (Z.of_nat j) = Some (Some (encs (take (j - i) (drop i cs)) ++ [0]))) /\
  (forall i, (i <= length cs)%nat ->
    xutf8_substring s (Z.of_nat i) (-1) = Some (Some (encs (drop i cs) ++ [0]))) /\
  (forall i j, j < i -> j <> -1 -> xutf8_substring s i j = Some None) /\
  (forall dest n, zlen (encs (take n cs)) < zlen dest ->
    xutf8_strncpy dest s n = Some ((encs (take n cs) ++ [0]) ++ drop (length (encs (take n cs)) + 1) dest)) /\
  xutf8_strreverse s (-1) = Some (encs (rev cs) ++ [0]) /\
  xutf8_strreverse s (zlen (encs cs)) = Some (encs (rev cs) ++ [0]).
Proof.
  intros Hcs Hs. pose proof (chars_codes _ Hcs) as Hco. pose proof Hs as [Hs' _]%reads_app.
  assert (length cs <= length s)%nat as Hl.
  { pose proof (encs_length cs Hco). apply reads_length in Hs'. unfold zlen in *. lia. }
  split_and!.
  - intros. by apply strlen_spec.
  - intros. by apply substring_ok.
  - intros. by apply substring_end_ok.
  - intros i j Hlt Hj. unfold xutf8_substring. rewrite (proj2 (Z.leb_gt i j)) by done.
    by rewrite (proj2 (Z.eqb_neq j (-1))).
  - intros. by apply xutf8_strncpy_ok.
  - unfold xutf8_strreverse. change (-1 <? 0) with true. cbn iota.
    rewrite (c_strlen_ok _ (encs cs)) by (done || eapply Forall_proj2, encs_nonzero, Hcs).
    cbn [mbind option_bind]. by apply strreverse_loop_ok.
  - unfold xutf8_strreverse. rewrite (proj2 (Z.ltb_ge _ _)) by apply zlen_nonneg.
    cbn [mbind option_bind]. by apply strreverse_loop_ok.
Qed.

Lemma utf8_copies_witness :
  xutf8_strreverse sample (-1) = Some (encs (rev sample_chars) ++ [0]) /\ xutf8_strlen sample 0 5 = Some 2.
Proof.
  assert (Forall char sample_chars) as Hc.
  { repeat (apply Forall_cons_2; [unfold char; lia|]). apply Forall_nil_2. }
  destruct (utf8_copies sample sample_chars Hc ltac:(vm_compute; repeat split)) as (H1 & _ & _ & _ & _ & H2 & _).
  split; [exact H2|]. exact (H1 sample 0 5 ltac:(vm_compute; repeat split)).
Defined.

(** ** Conversions *)

(** C35: the conversions from UTF-8 decode the longest prefix of the input that
    is a sequence of characters, for UTF-16 of characters it can represent, and
    their answer is decided by what stands behind it. The end of the input: the
    converted text, zero-terminated, with the exact counts. A character cut by
    the end: PARTIAL_INPUT, or the text so far when [items_read] is asked for.
    Anything else: ILLEGAL_SEQUENCE with the place of it. No write leaves the
    array that was counted out, and a failed allocation is reported. *)
Theorem from_utf8 g_try_malloc_n s len want_read l :
  source s len l -> Forall is_byte l -> zlen l < 2 ^ 31 - 1 ->
  (exists cs rest o, l = encs cs ++ rest /\ Forall char cs /\
    stops (fun _ => Some 1) (scan_max len (zlen (encs cs))) rest o /\
    xutf8_to_ucs4 g_try_malloc_n s len want_read =
    Some (converted (g_try_malloc_n (zlen cs + 1) 4) want_read o (zlen (encs cs)) cs (zlen (encs cs)))) /\
  (exists cs rest o, l = encs cs ++ rest /\ Forall text_char cs /\
    stops utf16_units (scan_max len (zlen (encs cs))) rest o /\
    xutf8_to_utf16 g_try_malloc_n s len want_read =
    Some (converted (g_try_malloc_n (zlen (words_of utf16_words cs) + 1) 2) want_read o
            (zlen (encs cs)) (words_of utf16_words cs) (zlen (encs cs)))).
Proof. intros. split; [by apply utf8_to_ucs4_ok|by apply utf8_to_utf16_ok]. Qed.

Lemma from_utf8_witness :
  exists cs rest o, sample = encs cs ++ rest /\ Forall text_char cs /\
    stops utf16_units (scan_max (-1) (zlen (encs cs))) rest o /\
    xutf8_to_utf16 (fun _ _ => true) sample (-1) false =
    Some (converted true false o (zlen (encs cs)) (words_of utf16_words cs) (zlen (encs cs))).
Proof.
  refine (proj2 (from_utf8 (fun _ _ => true) sample (-1) false sample _ _ _)).
  - split; [vm_compute; repeat split|]. exists [0x41; 0xc3; 0xa9; 0xe2; 0x82; 0xac]. split; [reflexivity|].
    repeat (apply Forall_cons_2; [lia|]). apply Forall_nil_2.
  - repeat (apply Forall_cons_2; [unfold is_byte; lia|]). apply Forall_nil_2.
  - reflexivity.
Defined.

(** the conversions from UCS-4 write the longest prefix of the input that is
    a sequence of characters, below 2^31 for UTF-8, Unicode scalar values for
    UTF-16; they succeed with the exact counts if it ends at the end of the
    input, and otherwise report ILLEGAL_SEQUENCE and the index of the first
    character that is not one. *)
Theorem from_ucs4 g_try_malloc_n str len l :
  source str len l -> Forall (fun c => 0 <= c) l -> 6 * zlen l < 2 ^ 31 - 1 ->
  (exists cs rest o, l = cs ++ rest /\ Forall char cs /\ stops_at char rest o /\
    g_ucs4_to_utf8 g_try_malloc_n str len =
    Some (converted (g_try_malloc_n (zlen (encs cs) + 1) 1) true o (zlen cs) (encs cs) (zlen cs))) /\
  (exists cs rest o, l = cs ++ rest /\ Forall text_char cs /\ stops_at text_char rest o /\
    g_ucs4_to_utf16 g_try_malloc_n str len =
    Some (converted (g_try_malloc_n (zlen (words_of utf16_words cs) + 1) 2) true o
            (zlen cs) (words_of utf16_words cs) (zlen cs))).
Proof.
  intros Hs Hp Hov. pose proof (zlen_nonneg l).
  split; [by apply ucs4_to_utf8_ok|by apply ucs4_to_utf16_ok; [..|lia]].
Qed.

Lemma from_ucs4_witness :
  exists cs rest o, [0x41; 0x1f600; 0xd800] = cs ++ rest /\ Forall text_char cs /\ stops_at text_char rest o /\
    g_ucs4_to_utf16 (fun _ _ => true) [0x41; 0x1f600; 0xd800] 3 =
    Some (converted true true o (zlen cs) (words_of utf16_words cs) (zlen cs)).
Proof.
  refine (proj2 (from_ucs4 (fun _ _ => true) [0x41; 0x1f600; 0xd800] 3 [0x41; 0x1f600; 0xd800] _ _ _)).
  - split; [vm_compute; repeat split|reflexivity].
  - repeat (apply Forall_cons_2; [lia|]). apply Forall_nil_2.
  - reflexivity.
Defined.

(** the conversions from UTF-16 decode the longest prefix of the input that
    is the UTF-16 form of a text, pairing surrogates. A high surrogate at the
    end is a partial character: an error, or the text before it when
    [items_read] is asked for; a low surrogate alone, or a high one with
    something else behind it, is illegal, and [items_read] is the index of the
    word that shows it. *)
Theorem from_utf16 g_try_malloc_n str len want_read l :
  source str len l -> Forall word l -> 4 * zlen l < 2 ^ 31 - 4 ->
  (exists cs rest o k, l = words_of utf16_words cs ++ rest /\ Forall text_char cs /\ stops16 rest o k /\
    xutf16_to_utf8 g_try_malloc_n str len want_read =
    Some (converted (g_try_malloc_n (zlen (encs cs) + 1) 1) want_read o
            (zlen (words_of utf16_words cs)) (encs cs) (zlen (words_of utf16_words cs) + k))) /\
  (exists cs rest o k, l = words_of utf16_words cs ++ rest /\ Forall text_char cs /\ stops16 rest o k /\
    xutf16_to_ucs4 g_try_malloc_n str len want_read =
    Some (converted (g_try_malloc_n (4 * zlen cs + 4) 1) want_read o
            (zlen (words_of utf16_words cs)) cs (zlen (words_of utf16_words cs) + k))).
Proof.
  intros Hs Hp Hov. split; [by apply utf16_to_utf8_ok; [..|lia]|by apply utf16_to_ucs4_ok].
Qed.

Lemma from_utf16_witness :
  exists cs rest o k, [0x41; 0xd83d; 0xde00; 0xd83d] = words_of utf16_words cs ++ rest /\
    Forall text_char cs /\ stops16 rest o k /\
    xutf16_to_utf8 (fun _ _ => true) [0x41; 0xd83d; 0xde00; 0xd83d] 4 true =
    Some (converted true true o (zlen (words_of utf16_words cs)) (encs cs) (zlen (words_of utf16_words cs) + k)).
Proof.
  refine (proj1 (from_utf16 (fun _ _ => true) [0x41; 0xd83d; 0xde00; 0xd83d] 4 true
    [0x41; 0xd83d; 0xde00; 0xd83d] _ _ _)).
  - split; [vm_compute; repeat split|reflexivity].
  - repeat (apply Forall_cons_2; [unfold word; lia|]). apply Forall_nil_2.
  - reflexivity.
Defined.

(** *** Round trips *)

(** A whole text, of a given length, is converted whole. *)
Lemma reads_self l : reads l 0 l.
Proof. apply (reads_0 l l []). by rewrite app_nil_r. Qed.

Lemma source_self l : source l (zlen l) l.
Proof.
  split; [apply reads_self|]. unfold input. rewrite (proj2 (Z.ltb_ge _ _)) by apply zlen_nonneg. lia.
Qed.

Lemma text_words cs : Forall text_char cs -> Forall word (words_of utf16_words cs).
Proof.
  induction 1 as [|c cs Hc _ IH]; [by apply Forall_nil|]. rewrite words_cons. apply Forall_app. split; [|done].
  unfold utf16_words, word. zcases; repeat (apply Forall_cons_2; [apply (wrap_range 16); lia|]); by apply Forall_nil_2.
Qed.

Lemma words_unique cs ds rest o k :
  Forall text_char cs -> Forall text_char ds -> stops16 rest o k ->
  words_of utf16_words cs = words_of utf16_words ds ++ rest -> ds = cs /\ rest = [] /\ o = None.
Proof.
  intros Hcs Hds Ho. revert ds Hds. induction Hcs as [|c cs Hc Hcs IH]; intros ds Hds E.
  - symmetry in E. apply app_eq_nil in E as [E ->]. inversion Ho. subst. destruct Hds as [|d ds Hd _]; [done|].
    rewrite words_cons in E. apply app_eq_nil in E as [E _].
    by destruct (words_of_text d Hd) as [(Ew & _)|(h & l & Ew & _)]; rewrite Ew in E.
  - rewrite words_cons in E. destruct Hds as [|d ds Hd Hds]; [exfalso|].
    + cbn [words_of flat_map app] in E.
      destruct (words_of_text c Hc) as [(Ew & Hc0 & Hl & Hh)|(h & l & Ew & Hh & Hl & Hv)]; rewrite Ew in E;
        cbn [app] in E; subst rest; inversion Ho; subst; try congruence; try discriminate;
        unfold is_high, is_low in *; zprops; lia.
    + rewrite words_cons, <- app_assoc in E.
      assert (c = d /\ words_of utf16_words cs = words_of utf16_words ds ++ rest) as [-> E'].
      { destruct (words_of_text c Hc) as [(Ew & Hc0 & Hl & Hh)|(h & l & Ew & Hh & Hl & Hv)], 
          (words_of_text d Hd) as [(Ew' & Hc0' & Hl' & Hh')|(h' & l' & Ew' & Hh' & Hl' & Hv')];
          rewrite Ew, Ew' in E; cbn [app] in E; injection E; intros; split; congruence. }
      destruct (IH ds Hds E') as (-> & -> & ->). done.
Qed.

Lemma encs_unique units max_len cs ds rest o :
  Forall (fun c => char c /\ units c <> None) cs -> Forall char ds -> stops units max_len rest o ->
  encs cs = encs ds ++ rest -> ds = cs /\ rest = [] /\ o = None.
Proof.
  intros Hcs Hds Ho. revert ds Hds. induction Hcs as [|c cs [Hc Hu] Hcs IH]; intros ds Hds E.
  - symmetry in E. apply app_eq_nil in E as [E ->]. inversion Ho. destruct Hds as [|d ds Hd _]; [done|].
    rewrite encs_cons in E. apply app_eq_nil in E as [E _]. by apply enc_nonempty in E; [|apply char_code].
  - rewrite encs_cons in E. destruct Hds as [|d ds Hd Hds].
    + exfalso. cbn [encs flat_map app] in E. symmetry in E. pose proof (char_code c Hc) as Hcc.
      assert (enc c `prefix_of` rest) as Hp by (by exists (encs cs)).
      destruct (enc_rest_nonzero c Hc) as (b & t & Eb & Hb).
      destruct Ho as [|rest|b' rest Hb' Hi|b' rest Hb' Hi Hn].
      * by rewrite Eb in E.
      * rewrite Eb in E. injection E as E _. congruence.
      * by apply (incomplete_no_enc _ _ c Hi Hcc).
      * by apply Hu, Hn.
    + rewrite encs_cons, <- app_assoc in E. apply enc_unique in E as [-> E]; [|by apply char_code..].
      destruct (IH ds Hds E) as (-> & -> & ->). done.
Qed.

Lemma stops_at_unique (good : Z -> Prop) cs ds rest o :
  (forall c, good c -> c <> 0) -> Forall good cs -> stops_at good rest o -> cs = ds ++ rest ->
  ds = cs /\ rest = [] /\ o = None.
Proof.
  intros Hg Hcs Ho ->. apply Forall_app in Hcs as [_ Hr]. destruct Ho as [|rest|c rest Hc Hn].
  - by rewrite app_nil_r.
  - apply Forall_cons in Hr as [H0 _]. by apply Hg in H0.
  - by apply Forall_cons in Hr as [? _].
Qed.

(** What a conversion answers when all went well. *)
Definition whole (read : Z) (out : list Z) : conversion :=
  Conversion (Some (out ++ [0])) read (Some (zlen out)) None.

Lemma converted_whole want_read read out stop : converted true want_read None read out stop = whole read out.
Proof. done. Qed.

Lemma text_sizes cs :
  Forall text_char cs ->
  zlen cs <= zlen (words_of utf16_words cs) <= zlen (encs cs) /\ 0 <= zlen cs.
Proof.
  intros H. split; [|apply zlen_nonneg]. split; [by apply text_words_reads|].
  apply (accepted_words _ _ utf16_units_ok). eapply Forall_impl; [exact H|].
  intros c Hc. pose proof (text_char_char c Hc). split; [done|by apply utf16_units_text].
Qed.

(** C31: a text converted between any two of the three encodings is the same
    text: UTF-8 to UCS-4 and back, UTF-8 to UTF-16 and back, UCS-4 to UTF-16
    and back all give what they started from, with the exact counts and no
    error; [xutf8_to_ucs4_fast], which checks nothing, agrees with
    [xutf8_to_ucs4] on it. *)
Theorem conversions_round_trip g_try_malloc_n cs :
  (forall n size, g_try_malloc_n n size = true) ->
  Forall text_char cs -> 6 * zlen (encs cs) < 2 ^ 31 - 4 ->
  let utf8 := encs cs in
  let utf16 := words_of utf16_words cs in
  (forall want_read,
    xutf8_to_ucs4 g_try_malloc_n utf8 (zlen utf8) want_read = Some (whole (zlen utf8) cs) /\
    xutf8_to_utf16 g_try_malloc_n utf8 (zlen utf8) want_read = Some (whole (zlen utf8) utf16) /\
    xutf16_to_utf8 g_try_malloc_n utf16 (zlen utf16) want_read = Some (whole (zlen utf16) utf8) /\
    xutf16_to_ucs4 g_try_malloc_n utf16 (zlen utf16) want_read = Some (whole (zlen utf16) cs)) /\
  g_ucs4_to_utf8 g_try_malloc_n cs (zlen cs) = Some (whole (zlen cs) utf8) /\
  g_ucs4_to_utf16 g_try_malloc_n cs (zlen cs) = Some (whole (zlen cs) utf16) /\
  xutf8_to_ucs4_fast utf8 (zlen utf8) = Some (cs ++ [0], zlen cs).
Proof.
  intros Hm Hcs Hov utf8 utf16. pose proof (text_chars _ Hcs) as Hch.
  pose proof (encs_bytes cs (chars_codes _ Hch)) as Hb. pose proof (text_words cs Hcs) as Hw.
  pose proof (text_sizes cs Hcs) as Hz. fold utf8 in Hb, Hz, Hov. fold utf16 in Hw, Hz.
  assert (Forall (fun c => char c /\ Some 1 <> None) cs) as H1 by (eapply Forall_impl; [exact Hch|done]).
  assert (Forall (fun c => char c /\ utf16_units c <> None) cs) as H2.
  { eapply Forall_impl; [exact Hcs|]. intros c Hc. pose proof (text_char_char c Hc) as Hcc. split; [done|].
    destruct (proj2 (utf16_units_text c Hcc) Hc) as [u ->]. done. }
  assert (Forall (fun c => 0 <= c) cs) as Hp by (eapply Forall_impl; [exact Hch|]; unfold char; cbn; lia).
  split_and!; [intros want_read; split_and!|..].
  - destruct (utf8_to_ucs4_ok g_try_malloc_n utf8 (zlen utf8) want_read utf8) as (ds & rest & o & E & Hds & Ho & ->);
      [apply source_self|done|lia|].
    destruct (encs_unique _ _ _ _ _ _ H1 Hds Ho E) as (-> & -> & ->). by rewrite Hm, converted_whole.
  - destruct (utf8_to_utf16_ok g_try_malloc_n utf8 (zlen utf8) want_read utf8) as (ds & rest & o & E & Hds & Ho & ->);
      [apply source_self|done|lia|].
    destruct (encs_unique _ _ _ _ _ _ H2 (text_chars _ Hds) Ho E) as (-> & -> & ->). by rewrite Hm, converted_whole.
  - destruct (utf16_to_utf8_ok g_try_malloc_n utf16 (zlen utf16) want_read utf16) as (ds & rest & o & k & E & Hds & Ho & ->);
      [apply source_self|done|lia|].
    destruct (words_unique _ _ _ _ _ Hcs Hds Ho E) as (-> & -> & ->). by rewrite Hm, converted_whole.
  - destruct (utf16_to_ucs4_ok g_try_malloc_n utf16 (zlen utf16) want_read utf16) as (ds & rest & o & k & E & Hds & Ho & ->);
      [apply source_self|done|lia|].
    destruct (words_unique _ _ _ _ _ Hcs Hds Ho E) as (-> & -> & ->). by rewrite Hm, converted_whole.
  - destruct (ucs4_to_utf8_ok g_try_malloc_n cs (zlen cs) cs) as (ds & rest & o & E & Hds & Ho & ->);
      [apply source_self|done|lia|].
    destruct (stops_at_unique char _ _ _ _ ltac:(unfold char; lia) Hch Ho E) as (-> & -> & ->).
    by rewrite Hm, converted_whole.
  - destruct (ucs4_to_utf16_ok g_try_malloc_n cs (zlen cs) cs) as (ds & rest & o & E & Hds & Ho & ->);
      [apply source_self|done|lia|].
    destruct (stops_at_unique text_char _ _ _ _ ltac:(by intros c [_ ?]) Hcs Ho E) as (-> & -> & ->).
    by rewrite Hm, converted_whole.
  - apply (utf8_to_ucs4_fast_ok utf8 (zlen utf8) cs utf8); [|apply source_self|by left|lia].
    eapply Forall_impl; [exact Hcs|]. unfold text_char, scalar. cbn. lia.
Qed.

Lemma conversions_round_trip_witness :
  xutf8_to_ucs4_fast (encs sample_chars) (zlen (encs sample_chars)) = Some (sample_chars ++ [0], zlen sample_chars).
Proof.
  refine (proj2 (proj2 (proj2 (conversions_round_trip (fun _ _ => true) sample_chars _ _ _)))).
  - reflexivity.
  - repeat (apply Forall_cons_2; [unfold text_char, scalar; lia|]). apply Forall_nil_2.
  - reflexivity.
Defined.

(** The comment in [xutf8_to_ucs4_fast] says that it follows
    [xutf8_next_char] on sequences of five and six bytes, but it looks for the
    markers of their length one bit too low: the code it answers for U+200000
    is U+8000. *)
Lemma fast_loses_long_sequences :
  xutf8_to_ucs4_fast (enc 0x200000 ++ [0]) (-1) = Some ([0x8000; 0], 1) /\
  option_map result (xutf8_to_ucs4 (fun _ _ => true) (enc 0x200000 ++ [0]) (-1) true) =
    Some (Some [0x200000; 0]).
Proof. by vm_compute. Qed.

(** ** Repair *)

(** C32: [xutf8_make_valid] always succeeds, its final assertion never fails: it
    returns the text with U+FFFD for each byte at which no character of a text
    stands, so a valid text, and a text is unchanged if and only if it is
    valid. *)
Theorem utf8_make_valid s len l :
  given s len l ->
  exists cs out, repaired l cs /\ Forall text_char cs /\
    xutf8_make_valid s len = Some out /\ cstr out = encs cs /\
    xutf8_validate out 0 (-1) = Some (true, zlen (encs cs)) /\
    (cstr out = l <-> exists ds, Forall text_char ds /\ l = encs ds).
Proof.
  intros Hg. destruct (make_valid_ok s len l Hg) as (cs & Hr & Hout).
  pose proof (repaired_text _ _ Hr) as Hcs. pose proof (encs_nonzero cs (text_chars _ Hcs)) as Hnz.
  assert (exists out rest, xutf8_make_valid s len = Some out /\ out = encs cs ++ 0 :: rest) as (out & rest & E & Eo).
  { destruct Hout as [[_ ->]| ->]; by do 2 eexists. }
  exists cs, out.
  assert (cstr out = encs cs) as Ec.
  { rewrite Eo. apply cstr_app_nul. by eapply Forall_proj2. }
  split_and!; try done.
  - destruct (validate_nul_ok out 0 (encs cs)) as (ds & rest' & Hv & ->); [|done|].
    + apply (reads_0 _ _ rest). rewrite Eo. by rewrite <- app_assoc.
    + by destruct (valid_prefix_all _ _ _ Hcs Hv) as [-> ->].
  - rewrite Ec. split; [intros <-; by exists cs|]. intros (ds & Hds & ->). f_equal.
    clear -Hr Hds. revert cs Hr. induction Hds as [|d ds Hd Hds IH]; intros cs Hr.
    + inversion Hr as [|c l ? Hc ? E|]; [done|]. apply app_eq_nil in E as [E _].
      by apply enc_nonempty in E; [|apply char_code, text_char_char].
    + rewrite encs_cons in Hr. inversion Hr as [E|c l cs' Hc Hr' E|b l cs' Hn Hr' E].
      * symmetry in E. apply app_eq_nil in E as [E _].
        by apply enc_nonempty in E; [|apply char_code, text_char_char].
      * apply enc_unique in E as [-> ->]; [|by apply char_code, text_char_char..]. f_equal. by apply IH.
      * exfalso. apply (Hn d Hd). rewrite E. by exists (encs ds).
Qed.

Lemma utf8_make_valid_witness :
  exists cs out, repaired [0x41; 0xff; 0xe2; 0x82] cs /\ Forall text_char cs /\
    xutf8_make_valid [0x41; 0xff; 0xe2; 0x82; 0] (-1) = Some out /\ cstr out = encs cs.
Proof.
  assert (given [0x41; 0xff; 0xe2; 0x82; 0] (-1) [0x41; 0xff; 0xe2; 0x82]) as Hg.
  { split; [repeat (apply Forall_cons_2; [unfold is_byte; lia|]); apply Forall_nil_2|].
    split; [vm_compute; repeat split|]. repeat (apply Forall_cons_2; [lia|]). apply Forall_nil_2. }
  destruct (utf8_make_valid _ _ _ Hg) as (cs & out & H1 & H2 & H3 & H4 & _).
  exists cs, out. split; [exact H1|]. split; [exact H2|]. split; [exact H3|exact H4].
Defined.
