(* ===== verification/Pattern.v ===== *)
(** * Matching strings against wildcards: src/glib/gpattern.c

    A pattern and a string are bytes in buffers of their own, with pointers as
    indexes; an access outside a buffer is [None]. *)

From S2P Require Import Prelude.
From S2P Require Import Utf8.
From Stdlib Require Import Ascii.
Local Open Scope Z_scope.
Local Open Scope xpl_scope.

Local Notation "'chr' a" :=
  (ltac:(let c := eval vm_compute in (Z.of_N (N_of_ascii a%char)) in exact c)) (at level 0, a at level 0, only parsing).

Inductive GMatchType := XMATCH_ALL | XMATCH_ALL_TAIL | XMATCH_HEAD | XMATCH_TAIL | XMATCH_EXACT.
#[export] Instance GMatchType_eq_dec : EqDecision GMatchType.
Proof. solve_decision. Defined.
Record xpattern_spec_t := PatternSpec {
  match_type : GMatchType; pattern_length : Z; min_length : Z; max_length : Z; pattern : list Z }.

Definition G_MAXUINT : Z := 2 ^ 32 - 1.
(** Conversion to an [xssize_t]. *)
Definition xssize (x : Z) : Z := (x + 2 ^ 63) mod 2 ^ 64 - 2 ^ 63.

(** ** Strings of C *)

Fixpoint strncmp (n : nat) (a : list Z) (p : Z) (b : list Z) (q : Z) : option Z :=
  match n with
  | O => Some 0
  | S n =>
      x ← rd a p;
      y ← rd b q;
      if negb (x =? y) then Some (x - y) else if x =? 0 then Some 0 else strncmp n a (p + 1) b (q + 1)
  end.
(** The strings end in their buffers. *)
Definition strcmp (a : list Z) (p : Z) (b : list Z) (q : Z) : option Z := strncmp (S (length a)) a p b q.

(** ** The matcher *)

Section matching.
Context (pat str : list Z).

(** [do ... while (ch == '*' || ch == '?')]; [None] inside is the end of the string at a joker. *)
Fixpoint joker_loop (fuel : nat) (pattern string : Z) : option (option (Z * Z * Z)) :=
  match fuel with
  | O => None
  | S fuel =>
      ch ← rd pat pattern;
      let pattern := pattern + 1 in
      if ch =? chr "?" then
        c ← rd str string;
        if c =? 0 then Some None
        else string ← xutf8_next_char str string; joker_loop fuel pattern string
      else if ch =? chr "*" then joker_loop fuel pattern string
      else Some (Some (ch, pattern, string))
  end.

(** [while (ch != *string)]; [None] inside is the end of the string. *)
Fixpoint seek_loop (fuel : nat) (ch string : Z) : option (option Z) :=
  match fuel with
  | O => None
  | S fuel =>
      c ← rd str string;
      if ch =? c then Some (Some string)
      else if c =? 0 then Some None
      else string ← xutf8_next_char str string; seek_loop fuel ch string
  end.

(** [do ... while ( *string)], with the recursive call; it returns from the
    function ([inl]) or goes on at the end of the string ([inr]). *)
Fixpoint try_loop (fuel : nat) (g_pattern_ph_match : Z -> option (bool * bool)) (ch string : Z) :
    option (bool + Z) :=
  match fuel with
  | O => None
  | S fuel =>
      found ← seek_loop (S (length str)) ch string;
      match found with
      | None => Some (inl false)
      | Some string =>
          let string := string + 1 in
          '(matched, next_wildcard_reached) ← g_pattern_ph_match string;
          if (matched : bool) then Some (inl true)
          else if (next_wildcard_reached : bool) then Some (inl false)
          else
            c ← rd str string;
            if c =? 0 then Some (inr string) else try_loop fuel g_pattern_ph_match ch string
      end
  end.

(** The answer and [*wildcard_reached_p]. *)
Fixpoint ph_match (fuel : nat) (pattern string : Z) (wildcard_reached : bool) : option (bool * bool) :=
  match fuel with
  | O => None
  | S fuel =>
      ch ← rd pat pattern;
      let pattern := pattern + 1 in
      if ch =? 0 then c ← rd str string; Some (c =? 0, wildcard_reached)
      else if ch =? chr "?" then
        c ← rd str string;
        if c =? 0 then Some (false, wildcard_reached)
        else string ← xutf8_next_char str string; ph_match fuel pattern string wildcard_reached
      else if ch =? chr "*" then
        next ← joker_loop (S (length pat)) pattern string;
        match next with
        | None => Some (false, true)
        | Some (ch, pattern, string) =>
            if ch =? 0 then Some (true, true)
            else
              r ← try_loop (S (length str)) (fun string => ph_match fuel pattern string false) ch string;
              match r with
              | inl matched => Some (matched, true)
              | inr string => ph_match fuel pattern string true
              end
        end
      else
        c ← rd str string;
        if ch =? c then ph_match fuel pattern (string + 1) wildcard_reached else Some (false, wildcard_reached)
  end.
(** Each turn and each call begin further on in the pattern. *)
Definition g_pattern_ph_match : option bool :=
  '(matched, _) ← ph_match (S (length pat)) 0 0 false; Some matched.

End matching.

(** [Some _] is the reversed string of the caller. *)
Definition xpattern_spec_match (pspec : xpattern_spec_t) (string_length : Z) (string : list Z)
    (string_reversed : option (list Z)) : option bool :=
  if (string_length <? min_length pspec) || (max_length pspec <? string_length) then Some false
  else
    match match_type pspec with
    | XMATCH_ALL => g_pattern_ph_match (pattern pspec) string
    | XMATCH_ALL_TAIL =>
        match string_reversed with
        | Some string_reversed => g_pattern_ph_match (pattern pspec) string_reversed
        | None => tmp ← xutf8_strreverse string (xssize string_length); g_pattern_ph_match (pattern pspec) tmp
        end
    | XMATCH_HEAD =>
        if pattern_length pspec =? string_length then r ← strcmp (pattern pspec) 0 string 0; Some (r =? 0)
        else if negb (pattern_length pspec =? 0) then
          r ← strncmp (Z.to_nat (pattern_length pspec)) (pattern pspec) 0 string 0; Some (r =? 0)
        else Some true
    | XMATCH_TAIL =>
        if negb (pattern_length pspec =? 0) then
          r ← strcmp (pattern pspec) 0 string (string_length - pattern_length pspec); Some (r =? 0)
        else Some true
    | XMATCH_EXACT =>
        if negb (pattern_length pspec =? string_length) then Some false
        else r ← strcmp (pattern pspec) 0 string 0; Some (r =? 0)
    end.
Definition g_pattern_match (pspec : xpattern_spec_t) (string_length : Z) (string : list Z)
    (string_reversed : option (list Z)) : option bool :=
  xpattern_spec_match pspec (u32 string_length) string string_reversed.

(** ** The compiler *)

(** The local variables of [xpattern_spec_new] and the members it counts in; the
    buffer is [pspec->pattern]. *)
Record compile_state := CompileState {
  st_buffer : list Z; st_d : Z; st_i : Z; length_left : Z; least_len : Z; most_len : Z;
  hw_pos : Z; tw_pos : Z; hj_pos : Z; tj_pos : Z; follows_wildcard : bool; pending_jokers : Z }.

(** [for (; pending_jokers; pending_jokers--)], with what is added to [i] in a turn. *)
Fixpoint flush_jokers (n : nat) (step : Z) (st : compile_state) : option compile_state :=
  match n with
  | O => Some st
  | S n =>
      buffer' ← wr (st_buffer st) (st_d st) (chr "?");
      flush_jokers n step
        (CompileState buffer' (st_d st + 1) (u32 (st_i st + step)) (length_left st) (least_len st) (most_len st) (hw_pos st) (tw_pos st)
           (if hj_pos st <? 0 then i32 (st_i st) else hj_pos st) (i32 (st_i st)) (follows_wildcard st) (pending_jokers st - 1))
  end.

(** The body of the loop for the character [c]. *)
Definition compile_char (c : Z) (st : compile_state) : option compile_state :=
  let copy st :=
    buffer' ← wr (st_buffer st) (st_d st) c;
    Some (CompileState buffer' (st_d st + 1) (u32 (st_i st + 1)) (length_left st) (least_len st) (most_len st) (hw_pos st) (tw_pos st)
            (hj_pos st) (tj_pos st) (follows_wildcard st) (pending_jokers st)) in
  if c =? chr "*" then
    if follows_wildcard st then
      Some (CompileState (st_buffer st) (st_d st) (st_i st) (u32 (length_left st - 1)) (least_len st) (most_len st) (hw_pos st) (tw_pos st)
              (hj_pos st) (tj_pos st) (follows_wildcard st) (pending_jokers st))
    else
      copy (CompileState (st_buffer st) (st_d st) (st_i st) (length_left st) (least_len st) (most_len st)
              (if hw_pos st <? 0 then i32 (st_i st) else hw_pos st) (i32 (st_i st))
              (hj_pos st) (tj_pos st) true (pending_jokers st))
  else if c =? chr "?" then
    Some (CompileState (st_buffer st) (st_d st) (st_i st) (length_left st) (u32 (least_len st + 1)) (u32 (most_len st + 4)) (hw_pos st) (tw_pos st)
            (hj_pos st) (tj_pos st) (follows_wildcard st) (u32 (pending_jokers st + 1)))
  else
    st ← flush_jokers (Z.to_nat (pending_jokers st)) 1 st;
    copy (CompileState (st_buffer st) (st_d st) (st_i st) (length_left st) (u32 (least_len st + 1)) (u32 (most_len st + 1)) (hw_pos st) (tw_pos st)
            (hj_pos st) (tj_pos st) false (pending_jokers st)).

Fixpoint compile_loop (fuel : nat) (source : list Z) (s : Z) (st : compile_state) : option compile_state :=
  match fuel with
  | O => None
  | S fuel =>
      c ← rd source s;
      if c =? 0 then Some st else st ← compile_char c st; compile_loop fuel source (s + 1) st
  end.

(** [memmove (pattern, pattern + 1, n)] *)
Definition move_down (buf : list Z) (n : Z) : option (list Z) :=
  bytes ← cells_at buf 1 n; write_at buf 0 bytes.

(** Whether to match from the head or from the tail. *)
Definition choose_end (st : compile_state) (seen_wildcard : bool) (pattern_length max_length : Z) (pattern : list Z) :
    option xpattern_spec_t :=
  let tw_pos := i32 (u32 (pattern_length - 1 - tw_pos st)) in
  let tj_pos := i32 (u32 (pattern_length - 1 - tj_pos st)) in
  if (if seen_wildcard then hw_pos st <? tw_pos else hj_pos st <? tj_pos) then
    pattern ← xutf8_strreverse pattern pattern_length;
    Some (PatternSpec XMATCH_ALL_TAIL pattern_length (least_len st) max_length pattern)
  else Some (PatternSpec XMATCH_ALL pattern_length (least_len st) max_length pattern).

(** From [seen_joker = hj_pos >= 0] on, the characters being written. *)
Definition choose_match (st : compile_state) (pattern : list Z) : option xpattern_spec_t :=
  let pattern_length := length_left st in
  let seen_joker := 0 <=? hj_pos st in
  let seen_wildcard := 0 <=? hw_pos st in
  let more_wildcards := seen_wildcard && negb (hw_pos st =? tw_pos st) in
  let max_length := if seen_wildcard then G_MAXUINT else most_len st in
  if negb seen_joker && negb more_wildcards then
    first ← rd pattern 0;
    if first =? chr "*" then
      let pattern_length := u32 (pattern_length - 1) in
      pattern ← move_down pattern pattern_length;
      pattern ← wr pattern pattern_length 0;
      Some (PatternSpec XMATCH_TAIL pattern_length (least_len st) max_length pattern)
    else
      last ← (if 0 <? pattern_length then rd pattern (pattern_length - 1) else Some 0);
      if last =? chr "*" then
        let pattern_length := u32 (pattern_length - 1) in
        pattern ← wr pattern pattern_length 0;
        Some (PatternSpec XMATCH_HEAD pattern_length (least_len st) max_length pattern)
      else if negb seen_wildcard then Some (PatternSpec XMATCH_EXACT pattern_length (least_len st) max_length pattern)
      else choose_end st seen_wildcard pattern_length max_length pattern
  else choose_end st seen_wildcard pattern_length max_length pattern.

(** [fresh] is what [g_new] gives for a number of bytes. *)
Definition xpattern_spec_new (fresh : Z -> list Z) (source : list Z) : option xpattern_spec_t :=
  n ← c_strlen source;
  let n := u32 n in
  st ← compile_loop (length source) source 0
         (CompileState (fresh (u32 (n + 1))) 0 0 n 0 0 (-1) (-1) (-1) (-1) false 0);
  st ← flush_jokers (Z.to_nat (pending_jokers st)) 0 st;
  pattern ← wr (st_buffer st) (st_d st) 0;
  choose_match st pattern.

Definition xpattern_spec_copy (pspec : xpattern_spec_t) : option xpattern_spec_t :=
  pattern ← xstrndup (pattern pspec) (pattern_length pspec);
  Some (PatternSpec (match_type pspec) (pattern_length pspec) (min_length pspec) (max_length pspec) pattern).

Definition xpattern_spec_equal (pspec1 pspec2 : xpattern_spec_t) : option bool :=
  if negb (pattern_length pspec1 =? pattern_length pspec2) then Some false
  else if negb (bool_decide (match_type pspec1 = match_type pspec2)) then Some false
  else r ← strcmp (pattern pspec1) 0 (pattern pspec2) 0; Some (r =? 0).

Definition xpattern_spec_match_string (pspec : xpattern_spec_t) (string : list Z) : option bool :=
  n ← c_strlen string; xpattern_spec_match pspec n string None.
Definition g_pattern_match_string (pspec : xpattern_spec_t) (string : list Z) : option bool :=
  xpattern_spec_match_string pspec string.
Definition g_pattern_match_simple (fresh : Z -> list Z) (source string : list Z) : option bool :=
  pspec ← xpattern_spec_new fresh source;
  n ← c_strlen string;
  xpattern_spec_match pspec n string None.
