(* ===== verification/PatternGlob.v ===== *)
(** * What a pattern means, and the matcher

    A pattern is a list of characters, of which [*] stands for any characters and
    [?] for one. The matcher looks for the first place where the part up to the
    next wildcard fits; that no later place can do better is what it relies on. *)

From S2P Require Import Prelude.
From S2P Require Import Utf8.
From S2P Require Import Utf8Codec.
From S2P Require Import Utf8Text.
From S2P Require Import Pattern.
Local Open Scope Z_scope.
Local Open Scope xpl_scope.

Definition star : Z := 42.
Definition joker : Z := 63.

Inductive glob : list Z -> list Z -> Prop :=
  | glob_end : glob [] []
  | glob_star ps cs1 cs2 : glob ps cs2 -> glob (star :: ps) (cs1 ++ cs2)
  | glob_joker ps c cs : glob ps cs -> glob (joker :: ps) (c :: cs)
  | glob_literal ps c cs : c <> star -> c <> joker -> glob ps cs -> glob (c :: ps) (c :: cs).

(** ** The meaning, by the first character of the pattern *)

Lemma glob_nil cs : glob [] cs <-> cs = [].
Proof. split; [by inversion 1|intros ->; constructor]. Qed.
Lemma glob_cons_star ps cs : glob (star :: ps) cs <-> exists n, glob ps (drop n cs).
Proof.
  split.
  - inversion 1; subst; [|done]. exists (length cs1). by rewrite drop_app_length.
  - intros [n H]. rewrite <- (take_drop n cs). by constructor.
Qed.
Lemma glob_cons_joker ps cs : glob (joker :: ps) cs <-> exists c cs', cs = c :: cs' /\ glob ps cs'.
Proof.
  split.
  - inversion 1; subst; [by eexists _, _|done].
  - intros (c & cs' & -> & H). by constructor.
Qed.
Lemma glob_cons_literal p ps cs : p <> star -> p <> joker ->
  glob (p :: ps) cs <-> exists cs', cs = p :: cs' /\ glob ps cs'.
Proof.
  intros Hs Hj. split.
  - inversion 1; subst; [done..|by eexists].
  - intros (cs' & -> & H). by constructor.
Qed.

Lemma glob_stars ps cs n : glob (star :: ps) (drop n cs) -> glob (star :: ps) cs.
Proof. rewrite !glob_cons_star. intros [m H]. exists (n + m)%nat. by rewrite <- drop_drop. Qed.

#[export] Instance glob_dec ps cs : Decision (glob ps cs).
Proof.
  revert cs. induction ps as [|p ps IH]; intros cs.
  - destruct cs; [left; constructor|right; by inversion 1].
  - destruct (decide (p = star)) as [->|Hs].
    + induction cs as [|c cs IHc].
      * destruct (IH []) as [H|H]; [left; by apply (glob_star ps [] [])|right; intros [n Hn]%glob_cons_star; by rewrite drop_nil in Hn].
      * destruct (IH (c :: cs)) as [H|H]; [left; by apply (glob_star ps [] (c :: cs))|].
        destruct IHc as [H'|H']; [left; by apply (glob_stars _ _ 1)|right].
        intros [[|n] Hn]%glob_cons_star; [done|]. apply H'. apply glob_cons_star. by exists n.
    + destruct cs as [|c cs]; [right; inversion 1; subst; try done; by destruct cs1|].
      destruct (decide (p = joker)) as [->|Hj].
      * destruct (IH cs) as [H|H]; [left; by constructor|right; intros (? & ? & [= <- <-] & ?)%glob_cons_joker; done].
      * destruct (decide (p = c)) as [->|Hc]; [|right; intros (? & [= E _] & ?)%glob_cons_literal; done].
        destruct (IH cs) as [H|H]; [left; by constructor|right; intros (? & [= <-] & ?)%glob_cons_literal; done].
Defined.

(** ** Composition and reversal *)

Lemma glob_app ps qs cs : glob (ps ++ qs) cs <-> exists cs1 cs2, cs = cs1 ++ cs2 /\ glob ps cs1 /\ glob qs cs2.
Proof.
  split.
  - revert cs. induction ps as [|p ps IH]; intros cs H; [exists [], cs; split_and!; [done|constructor|done]|].
    cbn in H. inversion H as [|? c1 c2 H'|? c cs' H'|? c cs' ? ? H']; subst; apply IH in H' as (d1 & d2 & -> & Hd1 & Hd2).
    + exists (c1 ++ d1), d2. split; [by rewrite app_assoc|]. split; [by constructor|done].
    + exists (c :: d1), d2. split; [done|]. split; [by constructor|done].
    + exists (p :: d1), d2. split; [done|]. split; [by constructor|done].
  - intros (cs1 & cs2 & -> & H1 & H2). revert H2. induction H1; intros H2; cbn.
    + done.
    + rewrite <- app_assoc. constructor. by apply IHglob.
    + constructor. by apply IHglob.
    + constructor; [done..|by apply IHglob].
Qed.

Lemma glob_single p cs : glob [p] cs <-> p = star \/ (exists c, cs = [c] /\ (p = joker \/ p = c)).
Proof.
  destruct (decide (p = star)) as [->|Hs].
  - rewrite glob_cons_star. split; [by left|]. intros _. exists (length cs). rewrite drop_all. constructor.
  - destruct (decide (p = joker)) as [->|Hj].
    + rewrite glob_cons_joker. split.
      * intros (c & cs' & -> & ->%glob_nil). right. exists c. by split; [|left].
      * intros [?|(c & -> & _)]; [done|]. exists c, []. split; [done|constructor].
    + rewrite glob_cons_literal by done. split.
      * intros (cs' & -> & ->%glob_nil). right. exists p. by split; [|right].
      * intros [?|(c & -> & [? | ->])]; [done..|]. exists []. split; [done|constructor].
Qed.

Lemma glob_rev_1 ps cs : glob ps cs -> glob (rev ps) (rev cs).
Proof.
  induction 1; cbn; [constructor|..].
  - rewrite rev_app_distr. apply glob_app. exists (rev cs2), (rev cs1). split; [done|]. split; [done|]. apply glob_single. by left.
  - apply glob_app. exists (rev cs), [c]. split; [done|]. split; [done|]. apply glob_single. right. exists c. by split; [|left].
  - apply glob_app. exists (rev cs), [c]. split; [done|]. split; [done|]. apply glob_single. right. exists c. by split; [|right].
Qed.
Lemma glob_rev ps cs : glob (rev ps) (rev cs) <-> glob ps cs.
Proof. split; [|apply glob_rev_1]. intros H%glob_rev_1. by rewrite !rev_involutive in H. Qed.

Lemma glob_literals ls cs : Forall (fun p => p <> star /\ p <> joker) ls -> glob ls cs <-> cs = ls.
Proof.
  intros H. revert cs. induction H as [|p ls [Hs Hj] _ IH]; intros cs; [by rewrite glob_nil|].
  rewrite glob_cons_literal by done. split; [by intros (cs' & -> & ->%IH)|]. intros ->. exists ls. by rewrite IH.
Qed.

Lemma drop_cons_any (c : Z) cs n : exists x m, drop m (c :: cs) = x :: drop n cs.
Proof.
  destruct (decide (n <= length cs)%nat) as [Hn|Hn].
  - destruct (lookup_lt_is_Some_2 (c :: cs) n) as [x Hx]; [cbn; lia|]. exists x, n. by rewrite (drop_S _ _ _ Hx).
  - destruct (lookup_lt_is_Some_2 (c :: cs) (length cs)) as [x Hx]; [cbn; lia|]. exists x, (length cs).
    rewrite (drop_S _ _ _ Hx), (drop_ge cs n) by lia. f_equal. cbn [drop]. by rewrite drop_all.
Qed.

Lemma glob_star_star ps cs : glob (star :: star :: ps) cs <-> glob (star :: ps) cs.
Proof. rewrite (glob_cons_star (star :: ps)). split; [intros [n Hn]; by apply glob_stars in Hn|]. intros H. by exists 0%nat. Qed.
Lemma glob_star_joker ps c cs : glob (star :: joker :: ps) (c :: cs) <-> glob (star :: ps) cs.
Proof.
  rewrite !glob_cons_star. split.
  - intros [n (x & cs1 & E & Hn)%(fun H => proj1 (glob_cons_joker _ _) H)]. exists n. destruct n as [|n]; [by injection E as -> ->|].
    cbn [drop] in E. replace (drop (S n) cs) with cs1; [done|]. by rewrite <- (Nat.add_1_r n), <- drop_drop, E.
  - intros [n Hn]. destruct (drop_cons_any c cs n) as (x & m & E). exists m. rewrite E. by constructor.
Qed.
Lemma glob_star_joker_end ps : ~ glob (star :: joker :: ps) [].
Proof. intros [n Hn]%glob_cons_star. rewrite drop_nil in Hn. by apply glob_cons_joker in Hn as (? & ? & ? & _). Qed.

(** Nothing from here on can match. *)
Definition hopeless (ps cs : list Z) : Prop := forall n, ~ glob ps (drop n cs).

Lemma hopeless_star ps cs : ~ glob (star :: ps) cs -> hopeless (star :: ps) cs.
Proof. intros H n Hn. by apply H, glob_stars with n. Qed.
Lemma hopeless_tail p ps c cs : p <> star -> hopeless ps cs -> hopeless (p :: ps) (c :: cs).
Proof.
  intros Hp H n Hn. assert (exists x l, drop n (c :: cs) = x :: l /\ glob ps l) as (x & l & E & Hl).
  { destruct (decide (p = joker)) as [->|Hj]; [by apply glob_cons_joker in Hn|].
    apply glob_cons_literal in Hn as (l & E & Hl); [by eexists _, _|done..]. }
  destruct n as [|n]; cbn in E; [injection E as -> ->; by apply (H 0%nat)|].
  apply (H (S n)). replace (drop (S n) cs) with l; [done|]. by rewrite <- (Nat.add_1_r n), <- drop_drop, E.
Qed.

(** ** Bytes and characters *)

Lemma enc_small c : 0 <= c < 128 -> enc c = [c].
Proof.
  intros H. apply (range_check (fun c => bool_decide (enc c = [c])) 0 128) in H; [|by vm_compute]. by apply bool_decide_eq_true in H.
Qed.
Lemma enc_big c : code c -> 128 <= c -> Forall (fun b => 128 <= b < 256) (enc c).
Proof.
  intros Hc Hb. destruct (encoding_of c Hc) as (n & base & min & first & [-> Ef El ? ? Hby ?]). constructor.
  - unfold is_byte in Hby. revert El. unfold lead_class. zcases; try lia; intros [= <- <- <-].
    cbn in Ef. rewrite Z.div_1_r in Ef. lia.
  - eapply Forall_impl; [apply digits_cont|]. unfold cont. lia.
Qed.
Lemma enc_inj c c' : code c -> code c' -> enc c = enc c' -> c = c'.
Proof.
  intros Hc Hc' E. pose proof (get_char_enc (enc c) 0 c Hc ltac:(by apply (reads_0 _ _ []); rewrite app_nil_r)) as H.
  rewrite E in H. rewrite (get_char_enc _ 0 c' Hc') in H by (by apply (reads_0 _ _ []); rewrite app_nil_r). congruence.
Qed.

Lemma star_code : char star. Proof. done. Qed.
Lemma joker_code : char joker. Proof. done. Qed.

(** The first byte of a literal is not that of a wildcard, nor inside a character. *)
Lemma literal_head c : char c -> c <> star -> c <> joker ->
  exists b t, enc c = b :: t /\ b <> 0 /\ b <> star /\ b <> joker /\ ~ cont b /\ Forall cont t /\ is_byte b /\ xutf8_skip b = zlen (enc c).
Proof.
  intros Hc Hs Hj. destruct (enc_head c (char_code _ Hc)) as (b & t & E & Hb & Hn & Ht & Hk).
  pose proof (enc_nonzero c Hc) as H0. rewrite E in H0. apply Forall_cons in H0 as [[_ H0] _].
  assert (b <> star /\ b <> joker) as [? ?].
  { destruct (decide (c < 128)).
    - rewrite enc_small in E by (unfold char in Hc; lia). by injection E as -> _.
    - pose proof (enc_big c (char_code _ Hc) ltac:(lia)) as Hg. rewrite E in Hg. apply Forall_cons in Hg as [Hg _].
      unfold star, joker. lia. }
  exists b, t. by split_and!.
Qed.

Lemma same_first c d b t u : code c -> code d -> enc c = b :: t -> enc d = b :: u -> length t = length u.
Proof.
  intros Hc Hd E1 E2. destruct (enc_head c Hc) as (b1 & t1 & F1 & _ & _ & _ & K1). destruct (enc_head d Hd) as (b2 & t2 & F2 & _ & _ & _ & K2).
  rewrite E1 in F1, K1. rewrite E2 in F2, K2. injection F1 as <- <-. injection F2 as <- <-. rewrite K1 in K2. unfold zlen in K2. cbn [length] in K2. lia.
Qed.

Lemma skip_cont b : cont b -> xutf8_skip b = 1.
Proof.
  intros H. apply (range_check (fun b => xutf8_skip b =? 1) 128 64) in H; [by apply Z.eqb_eq in H|by vm_compute].
Qed.

(** ** The matcher *)

Section matching.
Context (pat str : list Z).

(** What the pointers are at: the rest of a character, whole characters, the end. *)
Definition pattern_at (p : Z) (t ps : list Z) : Prop := reads pat p (t ++ encs ps ++ [0]) /\ Forall cont t /\ Forall char ps.
Definition string_at (q : Z) (u cs : list Z) : Prop := reads str q (u ++ encs cs ++ [0]) /\ Forall cont u /\ Forall char cs.

Lemma string_end q : string_at q [] [] -> rd str q = Some 0.
Proof. by intros [[H _] _]. Qed.
Lemma string_inside q b u cs : string_at q (b :: u) cs -> rd str q = Some b /\ cont b /\ string_at (q + 1) u cs.
Proof. intros ([Hr Hs] & [Hb Hu]%Forall_cons & Hc). by split_and!. Qed.
Lemma string_char q c cs : string_at q [] (c :: cs) ->
  char c /\ exists b u, enc c = b :: u /\ rd str q = Some b /\ b <> 0 /\ is_byte b /\ ~ cont b /\ xutf8_next_char str q = Some (q + zlen (enc c)) /\
    string_at (q + 1) u cs /\ string_at (q + zlen (enc c)) [] cs.
Proof.
  intros (Hs & _ & [Hc Hcs]%Forall_cons). split; [done|]. cbn [app] in Hs. rewrite encs_cons, <- app_assoc in Hs.
  destruct (enc_head c (char_code _ Hc)) as (b & u & E & Hby & Hnc & Hu & _). exists b, u. split; [done|].
  pose proof (enc_nonzero c Hc) as H0. rewrite E in H0. apply Forall_cons in H0 as [[_ H0] _].
  apply reads_app in Hs as Hs'. destruct Hs' as [He Hr]. rewrite E in Hs. destruct Hs as [Hb Hs].
  split_and!; try done. by apply next_char_enc; [apply char_code|].
Qed.
Lemma string_room q u cs : string_at q u cs -> 0 <= q /\ q + zlen u + zlen (encs cs) < zlen str.
Proof.
  intros (Hs & _). rewrite app_assoc in Hs. apply reads_bounds in Hs as [? Hb]; [|by destruct (u ++ encs cs)].
  rewrite !zlen_app in Hb. change (zlen [0]) with 1 in Hb. lia.
Qed.
Lemma string_nul q u cs : string_at q u cs -> rd str q = Some 0 -> u = [] /\ cs = [].
Proof.
  intros H Hr. destruct u as [|b u].
  - destruct cs as [|c cs]; [done|]. apply string_char in H as (_ & b & u & _ & Hb & H0 & _). congruence.
  - apply string_inside in H as (Hb & Hc & _). unfold cont in Hc. rewrite Hr in Hb. injection Hb as <-. lia.
Qed.

Lemma pattern_end p : pattern_at p [] [] -> rd pat p = Some 0.
Proof. by intros [[H _] _]. Qed.
Lemma pattern_inside p b t ps : pattern_at p (b :: t) ps -> rd pat p = Some b /\ cont b /\ pattern_at (p + 1) t ps.
Proof. intros ([Hr Hs] & [Hb Hu]%Forall_cons & Hc). by split_and!. Qed.
Lemma pattern_wild p c ps : c = star \/ c = joker -> pattern_at p [] (c :: ps) -> rd pat p = Some c /\ pattern_at (p + 1) [] ps.
Proof.
  intros E (Hs & _ & [Hc Hcs]%Forall_cons). cbn [app] in Hs. rewrite encs_cons, <- app_assoc in Hs.
  assert (enc c = [c]) as Ec by (destruct E as [-> | ->]; done). rewrite Ec in Hs. destruct Hs as [Hr Hs]. by split_and!.
Qed.
Lemma pattern_literal p c ps : c <> star -> c <> joker -> pattern_at p [] (c :: ps) ->
  char c /\ exists b t, enc c = b :: t /\ rd pat p = Some b /\ b <> 0 /\ b <> star /\ b <> joker /\ is_byte b /\ ~ cont b /\ pattern_at (p + 1) t ps.
Proof.
  intros Hs Hj (Hr & _ & [Hc Hcs]%Forall_cons). split; [done|].
  destruct (literal_head c Hc Hs Hj) as (b & t & E & H0 & H1 & H2 & H3 & Ht & Hby & _). exists b, t. split; [done|].
  cbn [app] in Hr. rewrite encs_cons, <- app_assoc, E in Hr. destruct Hr as [Hb Hr]. by split_and!.
Qed.
Lemma pattern_room p t ps : pattern_at p t ps -> 0 <= p /\ p + zlen t + zlen (encs ps) < zlen pat.
Proof.
  intros (Hs & _). rewrite app_assoc in Hs. apply reads_bounds in Hs as [? Hb]; [|by destruct (t ++ encs ps)].
  rewrite !zlen_app in Hb. change (zlen [0]) with 1 in Hb. lia.
Qed.

(** The wildcards that follow a wildcard, with the characters that they take. *)
Lemma joker_loop_ok ps : forall fuel p q cs,
  pattern_at p [] ps -> string_at q [] cs -> zlen (encs ps) < Z.of_nat fuel ->
  (joker_loop pat str fuel p q = Some None /\ ~ glob (star :: ps) cs) \/
  exists ch p' q' ps' cs', joker_loop pat str fuel p q = Some (Some (ch, p', q')) /\
    string_at q' [] cs' /\ (glob (star :: ps) cs <-> glob (star :: ps') cs') /\
    ((ps' = [] /\ ch = 0) \/
     exists c t ps1, ps' = c :: ps1 /\ c <> star /\ c <> joker /\ char c /\ enc c = ch :: t /\ ch <> 0 /\ ~ cont ch /\
       pattern_at p' t ps1 /\ zlen (ch :: t) + zlen (encs ps1) <= zlen (encs ps)).
Proof.
  induction ps as [|p1 ps IH]; intros [|fuel] p q cs Hp Hq Hf; try (pose proof (zlen_nonneg (encs [])); lia);
    try (pose proof (zlen_nonneg (encs (p1 :: ps))); lia).
  - right. exists 0, (p + 1), q, [], cs. cbn [joker_loop]. rewrite (pattern_end _ Hp). cbn [mbind option_bind].
    change (0 =? 63) with false. change (0 =? 42) with false. split; [done|]. split; [done|]. split; [done|]. by left.
  - rewrite encs_cons, zlen_app in Hf |- *. cbn [joker_loop]. destruct (decide (p1 = star)) as [->|Hs]; [|destruct (decide (p1 = joker)) as [->|Hj]].
    + destruct (pattern_wild _ _ _ ltac:(by left) Hp) as [-> Hp1]. cbn [mbind option_bind]. change (star =? 63) with false. change (star =? 42) with true.
      change (zlen (enc star)) with 1 in Hf |- *. cbn iota. rewrite glob_star_star.
      destruct (IH fuel (p + 1) q cs Hp1 Hq ltac:(lia)) as [?|(ch & p' & q' & ps' & cs' & E & Hq' & Hg & Hc)]; [by left|right].
      exists ch, p', q', ps', cs'. split; [done|]. split; [done|]. split; [by rewrite glob_star_star|].
      destruct Hc as [?|(c & t & ps1 & ? & ? & ? & ? & ? & ? & ? & ? & ?)]; [by left|right]. exists c, t, ps1. split_and!; try done. lia.
    + destruct (pattern_wild _ _ _ ltac:(by right) Hp) as [-> Hp1]. cbn [mbind option_bind]. change (joker =? 63) with true. cbn iota.
      change (zlen (enc joker)) with 1 in Hf |- *. destruct cs as [|c cs].
      * left. rewrite (string_end _ Hq). split; [done|]. apply glob_star_joker_end.
      * destruct (string_char _ _ _ Hq) as (_ & b & u & _ & -> & Hb & _ & _ & -> & _ & Hq1). cbn [mbind option_bind].
        rewrite (proj2 (Z.eqb_neq b 0)) by done. rewrite glob_star_joker.
        destruct (IH fuel (p + 1) _ cs Hp1 Hq1 ltac:(lia)) as [?|(ch & p' & q' & ps' & cs' & E & Hq' & Hg & Hc)]; [by left|right].
        exists ch, p', q', ps', cs'. split; [done|]. split; [done|]. split; [by rewrite glob_star_joker|].
        destruct Hc as [?|(c' & t & ps1 & ? & ? & ? & ? & ? & ? & ? & ? & ?)]; [by left|right]. exists c', t, ps1. split_and!; try done. lia.
    + right. destruct (pattern_literal _ _ _ Hs Hj Hp) as (Hc & b & t & E & -> & H0 & H1 & H2 & _ & H3 & Hp1). cbn [mbind option_bind].
      rewrite (proj2 (Z.eqb_neq b 63)), (proj2 (Z.eqb_neq b 42)) by done. exists b, (p + 1), q, (p1 :: ps), cs.
      split; [done|]. split; [done|]. split; [done|]. right. exists p1, t, ps. rewrite E. by split_and!.
Qed.

(** ** Looking for a literal *)

(** No character begins with the byte [ch]. *)
Definition no_head (ch : Z) (cs : list Z) : Prop := Forall (fun c => forall u, enc c <> ch :: u) cs.

Lemma seek_loop_ok ch : ch <> 0 -> ~ cont ch -> forall fuel q u cs,
  string_at q u cs -> zlen str - q < Z.of_nat fuel ->
  (seek_loop str fuel ch q = Some None /\ no_head ch cs) \/
  exists q' cs1 c cs2 v, seek_loop str fuel ch q = Some (Some q') /\ cs = cs1 ++ c :: cs2 /\ no_head ch cs1 /\
    enc c = ch :: v /\ char c /\ string_at (q' + 1) v cs2 /\ q <= q'.
Proof.
  intros H0 Hn. induction fuel as [|fuel IH]; intros q u cs Hq Hf; [apply string_room in Hq; pose proof (zlen_nonneg u); pose proof (zlen_nonneg (encs cs)); lia|].
  cbn [seek_loop]. destruct u as [|b u]; [destruct cs as [|c cs]|].
  - rewrite (string_end _ Hq). cbn [mbind option_bind]. rewrite (proj2 (Z.eqb_neq ch 0)) by done. left. split; [done|constructor].
  - destruct (string_char _ _ _ Hq) as (Hc & b & u & E & -> & Hb & _ & _ & -> & Hq1 & Hq2). cbn [mbind option_bind].
    destruct (Z.eqb_spec ch b) as [->|Hne].
    + right. exists q, [], c, cs, u. split_and!; try done; constructor.
    + rewrite (proj2 (Z.eqb_neq b 0)) by done. pose proof (zlen_enc_pos c (char_code _ Hc)).
      assert (forall v, enc c <> ch :: v) as Hh by (intros v; rewrite E; congruence).
      destruct (IH _ _ _ Hq2 ltac:(lia)) as [[Es Hh']|(q' & cs1 & c1 & cs2 & v & Es & -> & Hh' & Ev & Hc1 & Hq' & Hle)].
      * left. split; [done|]. by constructor.
      * right. exists q', (c :: cs1), c1, cs2, v. split_and!; try done; [by constructor|lia].
  - destruct (string_inside _ _ _ _ Hq) as (Hb & Hcb & Hq1). rewrite Hb. cbn [mbind option_bind].
    rewrite (proj2 (Z.eqb_neq ch b)) by (intros ->; done).
    rewrite (proj2 (Z.eqb_neq b 0)) by (unfold cont in Hcb; lia). unfold xutf8_next_char. rewrite Hb. cbn [mbind option_bind].
    rewrite (skip_cont b Hcb). destruct (IH _ _ _ Hq1 ltac:(lia)) as [?|(q' & cs1 & c1 & cs2 & v & Es & -> & Hh & Ev & Hc1 & Hq' & Hle)]; [by left|right].
    exists q', cs1, c1, cs2, v. split_and!; try done; lia.
Qed.

(** What the recursive call answers: [t] and [u] are the ends of a character of
    the pattern and of the string that begin alike. *)
Definition answer (t ps u cs : list Z) (b : bool) : Prop := b = true <-> t = u /\ glob ps cs.

Lemma no_head_skip c ch t ps cs1 cs : enc c = ch :: t -> c <> star -> c <> joker -> no_head ch cs1 ->
  glob (star :: c :: ps) (cs1 ++ cs) <-> glob (star :: c :: ps) cs.
Proof.
  intros E Hs Hj Hh. induction Hh as [|x cs1 Hx _ IH]; [done|]. rewrite <- IH. cbn [app]. split; [|apply (glob_stars _ (x :: cs1 ++ cs) 1)].
  rewrite !glob_cons_star. intros [[|n] Hn]; [|by exists n]. apply glob_cons_literal in Hn as (? & [= -> _] & _); [|done..]. by destruct (Hx t).
Qed.

Lemma try_loop_ok rec c ch t ps : enc c = ch :: t -> char c -> c <> star -> c <> joker -> ch <> 0 -> ~ cont ch ->
  (forall q u cs, string_at q u cs -> length t = length u ->
    exists b r, rec q = Some (b, r) /\ answer t ps u cs b /\ (b = false -> r = true -> hopeless ps cs)) ->
  forall fuel q u cs, string_at q u cs -> zlen str - q < Z.of_nat fuel ->
  (exists b, try_loop str fuel rec ch q = Some (inl b) /\ (b = true <-> glob (star :: c :: ps) cs)) \/
  (exists q', try_loop str fuel rec ch q = Some (inr q') /\ string_at q' [] [] /\ t = [] /\ ~ glob ps [] /\ ~ glob (star :: c :: ps) cs).
Proof.
  intros E Hc Hs Hj H0 Hnc Hrec. induction fuel as [|fuel IH]; intros q u cs Hq Hf; [apply string_room in Hq; pose proof (zlen_nonneg u); pose proof (zlen_nonneg (encs cs)); lia|].
  cbn [try_loop]. pose proof (string_room _ _ _ Hq) as [Hq0 _].
  destruct (seek_loop_ok ch H0 Hnc (S (length str)) q u cs Hq ltac:(unfold zlen; lia)) as
    [[-> Hh]|(q' & cs1 & d & cs2 & v & -> & -> & Hh & Ev & Hd & Hq' & Hle)]; cbn [mbind option_bind].
  - left. exists false. split; [done|]. split; [done|]. rewrite <- (app_nil_r cs), (no_head_skip c ch t) by done.
    intros [n Hn]%glob_cons_star. rewrite drop_nil in Hn. by apply glob_cons_literal in Hn as (? & ? & _).
  - pose proof (same_first _ _ _ _ _ (char_code _ Hc) (char_code _ Hd) E Ev) as Hl.
    destruct (Hrec _ _ _ Hq' Hl) as (b & r & -> & Hb & Hr). cbn [mbind option_bind].
    pose proof (no_head_skip c ch t ps cs1 (d :: cs2) E Hs Hj Hh) as Hskip.
    assert (b = true -> glob (star :: c :: ps) (d :: cs2)) as Hyes.
    { intros ->. destruct (proj1 Hb eq_refl) as [<- Hg]. replace d with c by (apply enc_inj; [by apply char_code..|congruence]).
      apply (glob_star _ []). by constructor. }
    assert (b = false -> glob (star :: c :: ps) (d :: cs2) <-> glob (star :: c :: ps) cs2) as Hno.
    { intros ->. split; [|apply (glob_stars _ (d :: cs2) 1)]. rewrite !glob_cons_star. intros [[|n] Hn]; [|by exists n].
      apply glob_cons_literal in Hn as (x & [= -> <-] & Hg); [|done..]. exfalso. enough (false = true) by done. apply Hb. split; [congruence|done]. }
    destruct b; [left; exists true; split; [done|]; split; [by intros _; apply Hskip, Hyes|done]|].
    specialize (Hno eq_refl).
    destruct r.
    + left. exists false. split; [done|]. split; [done|]. rewrite Hskip, Hno. intros [n Hn]%glob_cons_star.
      apply glob_cons_literal in Hn as (x & Ex & Hg); [|done..]. exfalso. apply (Hr eq_refl eq_refl (n + 1)%nat). by rewrite <- drop_drop, Ex.
    + assert (exists x, rd str (q' + 1) = Some x) as [x Hx].
      { destruct v; [destruct cs2|]; [rewrite (string_end _ Hq'); eauto|destruct (string_char _ _ _ Hq') as (_ & ? & ? & _ & -> & _); eauto|
          destruct (string_inside _ _ _ _ Hq') as (-> & _); eauto]. }
      rewrite Hx. cbn [mbind option_bind]. destruct (Z.eqb_spec x 0) as [->|Hx0].
      * right. exists (q' + 1). destruct (string_nul _ _ _ Hq' Hx) as [-> ->]. destruct t; [|done].
        split; [done|]. split; [done|]. split; [done|]. rewrite Hskip, Hno.
        assert (~ glob ps []) as Hg by (intros Hg; enough (false = true) by done; by apply Hb). split; [done|].
        intros [n Hn]%glob_cons_star. rewrite drop_nil in Hn. by apply glob_cons_literal in Hn as (? & ? & _).
      * setoid_rewrite Hskip. setoid_rewrite Hno. apply (IH (q' + 1) v cs2 Hq'). lia.
Qed.

(** ** The whole matcher *)

Definition ph_answer (r0 : bool) (t ps u cs : list Z) (x : option (bool * bool)) : Prop :=
  exists b r, x = Some (b, r) /\ answer t ps u cs b /\ (b = false -> r = true -> r0 = true \/ hopeless ps cs).

Lemma ph_answer_no r0 t ps u cs : ~ (t = u /\ glob ps cs) -> ph_answer r0 t ps u cs (Some (false, r0)).
Proof. intros H. exists false, r0. split; [done|]. split; [by split|]. by left. Qed.

(** One character of the pattern for one of the string. *)
Lemma ph_answer_step r0 p ps c cs t u x : p <> star ->
  (glob (p :: ps) (c :: cs) <-> t = u /\ glob ps cs) ->
  ph_answer r0 t ps u cs x -> ph_answer r0 [] (p :: ps) [] (c :: cs) x.
Proof.
  intros Hp Hg (b & r & -> & Hb & Hr). exists b, r. split; [done|]. split; [unfold answer in *; rewrite Hg; naive_solver|].
  intros E1 E2. destruct (Hr E1 E2) as [?|Hh]; [by left|right; by apply hopeless_tail].
Qed.

Definition works (fuel : nat) : Prop := forall p t ps q u cs r0,
  pattern_at p t ps -> string_at q u cs -> length t = length u -> zlen t + zlen (encs ps) < Z.of_nat fuel ->
  ph_answer r0 t ps u cs (ph_match pat str fuel p q r0).

Lemma works_inside fuel p x t ps q y u cs r0 : works fuel ->
  pattern_at p (x :: t) ps -> string_at q (y :: u) cs -> length t = length u -> zlen (x :: t) + zlen (encs ps) < Z.of_nat (S fuel) ->
  ph_answer r0 (x :: t) ps (y :: u) cs (ph_match pat str (S fuel) p q r0).
Proof.
  intros IH Hp Hq Hl Hf. cbn [ph_match]. destruct (pattern_inside _ _ _ _ Hp) as (-> & Hx & Hp1).
  destruct (string_inside _ _ _ _ Hq) as (-> & Hy & Hq1). cbn [mbind option_bind]. unfold cont in Hx.
  rewrite (proj2 (Z.eqb_neq x 0)), (proj2 (Z.eqb_neq x 63)), (proj2 (Z.eqb_neq x 42)) by lia. rewrite zlen_cons in Hf.
  destruct (Z.eqb_spec x y) as [->|Hne]; [|by apply ph_answer_no; intros [[= ? ?] _]].
  destruct (IH _ _ _ _ _ _ r0 Hp1 Hq1 Hl ltac:(lia)) as (b & r & -> & Hb & Hr).
  exists b, r. split; [done|]. split; [|done]. unfold answer in *. rewrite Hb. split; intros [? ?]; (split; [congruence|done]).
Qed.

Lemma works_end fuel p q cs r0 : pattern_at p [] [] -> string_at q [] cs ->
  ph_answer r0 [] [] [] cs (ph_match pat str (S fuel) p q r0).
Proof.
  intros Hp Hq. cbn [ph_match]. rewrite (pattern_end _ Hp). cbn [mbind option_bind]. change (0 =? 0) with true. cbn iota. destruct cs as [|d cs].
  - rewrite (string_end _ Hq). exists true, r0. split; [done|]. split; [|done]. split; [|done]. intros _. split; [done|constructor].
  - destruct (string_char _ _ _ Hq) as (_ & b & u & _ & -> & Hb & _). cbn [mbind option_bind]. rewrite (proj2 (Z.eqb_neq b 0)) by done.
    apply ph_answer_no. by intros [_ ?%glob_nil].
Qed.

Lemma works_star fuel p ps q cs r0 : works fuel ->
  pattern_at p [] (star :: ps) -> string_at q [] cs -> zlen (encs (star :: ps)) < Z.of_nat (S fuel) ->
  ph_answer r0 [] (star :: ps) [] cs (ph_match pat str (S fuel) p q r0).
Proof.
  intros IH Hp Hq Hf. cbn [ph_match]. rewrite encs_cons, zlen_app in Hf. change (zlen (enc star)) with 1 in Hf.
  destruct (pattern_wild _ _ _ ltac:(by left) Hp) as [-> Hp1]. cbn [mbind option_bind].
  change (star =? 0) with false. change (star =? 63) with false. change (star =? 42) with true. cbn iota.
  pose proof (pattern_room _ _ _ Hp1) as [Hp0 Hroom]. pose proof (string_room _ _ _ Hq) as [Hq0 _]. change (zlen []) with 0 in Hroom.
  assert (forall b, (b = true <-> glob (star :: ps) cs) -> ph_answer r0 [] (star :: ps) [] cs (Some (b, true))) as Hans.
  { intros b Hb. exists b, true. split; [done|]. split; [unfold answer; naive_solver|]. intros -> _. right. apply hopeless_star. naive_solver. }
  destruct (joker_loop_ok ps (S (length pat)) (p + 1) q cs Hp1 Hq ltac:(unfold zlen in *; lia)) as
    [[-> Hno]|(ch & p' & q' & ps' & cs' & -> & Hq' & Hg & Hcase)]; cbn [mbind option_bind]; [by apply Hans|].
  destruct Hcase as [[-> ->]|(c & t & ps1 & -> & Hs & Hj & Hc & E & H0 & Hn & Hp' & Hlen)].
  { change (0 =? 0) with true. cbn iota. apply Hans. rewrite Hg. split; [|done]. intros _. apply glob_single. by left. }
  rewrite (proj2 (Z.eqb_neq ch 0)) by done. rewrite zlen_cons in Hlen. pose proof (string_room _ _ _ Hq') as [Hq0' _].
  destruct (try_loop_ok (fun string => ph_match pat str fuel p' string false) c ch t ps1 E Hc Hs Hj H0 Hn) with (fuel := S (length str)) (q := q') (u := @nil Z) (cs := cs')
    as [(b & -> & Hb)|(q1 & -> & Hq1 & -> & Hend & Hno)]; cbn [mbind option_bind].
  - intros q1 u1 cs1 Hq1 Hl1. destruct (IH p' t ps1 q1 u1 cs1 false Hp' Hq1 Hl1 ltac:(lia)) as (b & r & -> & Hb & Hr).
    exists b, r. split; [done|]. split; [done|]. intros E1 E2. by destruct (Hr E1 E2).
  - done.
  - unfold zlen. lia.
  - apply Hans. by rewrite Hg.
  - change (zlen []) with 0 in Hlen. destruct (IH p' [] ps1 q1 [] [] true Hp' Hq1 eq_refl ltac:(change (zlen []) with 0; lia)) as (b & r & -> & Hb & Hr).
    destruct b; [destruct (proj1 Hb eq_refl); done|]. exists false, r. split; [done|]. rewrite <- Hg in Hno.
    split; [split; [done|by intros [_ ?]]|]. intros _ _. right. by apply hopeless_star.
Qed.

Lemma works_joker fuel p ps q cs r0 : works fuel ->
  pattern_at p [] (joker :: ps) -> string_at q [] cs -> zlen (encs (joker :: ps)) < Z.of_nat (S fuel) ->
  ph_answer r0 [] (joker :: ps) [] cs (ph_match pat str (S fuel) p q r0).
Proof.
  intros IH Hp Hq Hf. cbn [ph_match]. rewrite encs_cons, zlen_app in Hf. change (zlen (enc joker)) with 1 in Hf.
  destruct (pattern_wild _ _ _ ltac:(by right) Hp) as [-> Hp1]. cbn [mbind option_bind].
  change (joker =? 0) with false. change (joker =? 63) with true. cbn iota. destruct cs as [|d cs].
  - rewrite (string_end _ Hq). cbn [mbind option_bind]. change (0 =? 0) with true. cbn iota.
    apply ph_answer_no. by intros [_ (? & ? & ? & _)%glob_cons_joker].
  - destruct (string_char _ _ _ Hq) as (_ & b & u & _ & -> & Hb & _ & _ & -> & _ & Hq2). cbn [mbind option_bind].
    rewrite (proj2 (Z.eqb_neq b 0)) by done. apply (ph_answer_step _ _ _ _ _ [] []); [done| |apply IH; try done; change (zlen []) with 0; lia].
    rewrite glob_cons_joker. split; [by intros (? & ? & [= <- <-] & ?)|]. intros [_ ?]. by exists d, cs.
Qed.

Lemma works_literal fuel p c ps q cs r0 : works fuel -> c <> star -> c <> joker ->
  pattern_at p [] (c :: ps) -> string_at q [] cs -> zlen (encs (c :: ps)) < Z.of_nat (S fuel) ->
  ph_answer r0 [] (c :: ps) [] cs (ph_match pat str (S fuel) p q r0).
Proof.
  intros IH Hs Hj Hp Hq Hf. cbn [ph_match]. rewrite encs_cons, zlen_app in Hf.
  destruct (pattern_literal _ _ _ Hs Hj Hp) as (Hc & b & t & E & -> & H0 & H1 & H2 & Hby & Hn & Hp1). cbn [mbind option_bind].
  rewrite (proj2 (Z.eqb_neq b 0)), (proj2 (Z.eqb_neq b 63)), (proj2 (Z.eqb_neq b 42)) by done. destruct cs as [|d cs].
  - rewrite (string_end _ Hq). cbn [mbind option_bind]. rewrite (proj2 (Z.eqb_neq b 0)) by done.
    apply ph_answer_no. by intros [_ (? & ? & _)%glob_cons_literal].
  - destruct (string_char _ _ _ Hq) as (Hd & b' & u & E' & -> & _ & _ & _ & _ & Hq1 & _). cbn [mbind option_bind].
    destruct (Z.eqb_spec b b') as [<-|Hne].
    + pose proof (same_first _ _ _ _ _ (char_code _ Hc) (char_code _ Hd) E E') as Hl'. rewrite E, zlen_cons in Hf.
      apply (ph_answer_step _ _ _ _ _ t u); [done| |apply IH; try done; lia].
      rewrite glob_cons_literal by done. split; [by intros (? & [= -> <-] & ?); split; [congruence|]|]. intros [<- Hg]. exists cs. split; [|done].
      f_equal. symmetry. apply enc_inj; [by apply char_code..|congruence].
    + apply ph_answer_no. intros [_ (? & [= -> _] & _)%glob_cons_literal]; [congruence|done..].
Qed.

Lemma ph_match_ok fuel : works fuel.
Proof.
  induction fuel as [|fuel IH]; intros p t ps q u cs r0 Hp Hq Hl Hf; [pose proof (zlen_nonneg t); pose proof (zlen_nonneg (encs ps)); lia|].
  destruct t as [|x t], u as [|y u]; try done; [|apply works_inside; try done; by injection Hl]. change (zlen []) with 0 in Hf.
  destruct ps as [|c ps]; [by apply works_end|].
  destruct (decide (c = star)) as [->|Hs]; [by apply works_star|]. destruct (decide (c = joker)) as [->|Hj]; [by apply works_joker|by apply works_literal].
Qed.

Lemma ph_match_total ps cs : pattern_at 0 [] ps -> string_at 0 [] cs ->
  g_pattern_ph_match pat str = Some (bool_decide (glob ps cs)).
Proof.
  intros Hp Hq. pose proof (pattern_room _ _ _ Hp) as [_ Hroom]. unfold g_pattern_ph_match. change (zlen []) with 0 in Hroom.
  destruct (ph_match_ok (S (length pat)) 0 [] ps 0 [] cs false Hp Hq eq_refl ltac:(change (zlen []) with 0; unfold zlen in *; lia)) as (b & r & -> & Hb & _).
  cbn [mbind option_bind]. f_equal. case_bool_decide as Hg; [by apply Hb|]. destruct b; [|done]. by destruct (proj1 Hb eq_refl).
Qed.

End matching.
