(* ===== verification/PatternCompile.v ===== *)
(** * The compiler of patterns

    The loop of [xpattern_spec_new] writes a canonical form: a run of wildcards
    becomes one, with its jokers behind it. Then the kind of match is chosen. *)

From S2P Require Import Prelude Utf8 Utf8Codec Utf8Text Utf8Validate Pattern PatternGlob.
Local Open Scope Z_scope.
Local Open Scope xpl_scope.

(** ** Patterns that match the same strings *)

Definition same_strings (ps qs : list Z) : Prop := forall cs, glob ps cs <-> glob qs cs.
#[export] Instance same_strings_equivalence : Equivalence same_strings.
Proof.
  split; [by intros ps cs|by intros ps qs H cs; rewrite (H cs)|by intros ps qs rs H1 H2 cs; rewrite (H1 cs)].
Qed.
#[export] Instance same_strings_app : Proper (same_strings ==> same_strings ==> same_strings) app.
Proof. intros p1 p2 Hp q1 q2 Hq cs. rewrite !glob_app. split; intros (c1 & c2 & -> & H1 & H2); exists c1, c2; (split; [done|]; split; [by apply Hp|by apply Hq]). Qed.
#[export] Instance same_strings_cons p : Proper (same_strings ==> same_strings) (cons p).
Proof. intros q1 q2 Hq. change (same_strings ([p] ++ q1) ([p] ++ q2)). by rewrite Hq. Qed.

Lemma star_twice ps : same_strings (star :: star :: ps) (star :: ps).
Proof. intros cs. apply glob_star_star. Qed.
Lemma joker_star ps : same_strings (joker :: star :: ps) (star :: joker :: ps).
Proof.
  intros [|c cs].
  - split; [by intros (? & ? & ? & _)%glob_cons_joker|by intros ?%glob_star_joker_end].
  - rewrite glob_star_joker. rewrite glob_cons_joker. split; [by intros (? & ? & [= <- <-] & ?)|]. intros ?. by exists c, cs.
Qed.

Abbreviation jokers k := (replicate k joker).
Lemma jokers_star k ps : same_strings (jokers k ++ star :: ps) (star :: jokers k ++ ps).
Proof. induction k as [|k IH]; [done|]. cbn [replicate app]. by rewrite IH, joker_star. Qed.

(** ** The canonical form *)

Definition canon_step (c : Z) (f : bool) (k : nat) : list Z * bool * nat :=
  if c =? star then if f then ([], f, k) else ([star], true, k)
  else if c =? joker then ([], f, S k)
  else (jokers k ++ [c], false, 0%nat).
Fixpoint canon_run (cs : list Z) (st : list Z * bool * nat) : list Z * bool * nat :=
  match cs with
  | [] => st
  | c :: cs => let '(out, f, k) := st in let '(e, f, k) := canon_step c f k in canon_run cs (out ++ e, f, k)
  end.
Definition canon (ps : list Z) : list Z :=
  let '(out, _, k) := canon_run ps ([], false, 0%nat) in out ++ jokers k.

Lemma canon_run_same ps : forall out f k out' f' k', canon_run ps (out, f, k) = (out', f', k') ->
  (f = true -> exists o, out = o ++ [star]) -> same_strings (out' ++ jokers k') (out ++ jokers k ++ ps).
Proof.
  induction ps as [|c ps IH]; intros out f k out' f' k'; cbn [canon_run].
  { intros [= <- <- <-] _. by rewrite app_nil_r. }
  unfold canon_step. destruct (Z.eqb_spec c star) as [->|Hs]; [destruct f|destruct (Z.eqb_spec c joker) as [->|Hj]].
  - intros E Hf. rewrite (IH _ _ _ _ _ _ E) by (by rewrite app_nil_r). rewrite app_nil_r. destruct (Hf eq_refl) as [o ->].
    rewrite <- !app_assoc. cbn [app]. by rewrite jokers_star, star_twice.
  - intros E Hf. rewrite (IH _ _ _ _ _ _ E) by (by exists out). rewrite <- app_assoc. cbn [app]. by rewrite jokers_star.
  - intros E Hf. rewrite (IH _ _ _ _ _ _ E) by (by rewrite app_nil_r). rewrite app_nil_r.
    change (joker :: ps) with (jokers 1 ++ ps). rewrite (app_assoc (jokers k)), <- replicate_add. by rewrite Nat.add_1_r.
  - intros E Hf. rewrite (IH _ _ _ _ _ _ E) by done. cbn [replicate app]. by rewrite <- !app_assoc.
Qed.
Lemma canon_same ps : same_strings (canon ps) ps.
Proof.
  unfold canon. destruct (canon_run ps _) as [[out f] k] eqn:E. by rewrite (canon_run_same _ _ _ _ _ _ _ E).
Qed.

(** ** On bytes *)

Definition plain (b : Z) : Prop := b <> star /\ b <> joker.
#[export] Instance plain_dec b : Decision (plain b).
Proof. unfold plain. apply _. Defined.

Lemma enc_plain c : char c -> plain c -> Forall plain (enc c).
Proof.
  intros Hc [Hs Hj]. destruct (decide (c < 128)).
  - rewrite enc_small by (unfold char in Hc; lia). by repeat constructor.
  - eapply Forall_impl; [apply enc_big; [by apply char_code|lia]|]. unfold plain, star, joker. lia.
Qed.

Lemma canon_run_plain bs : Forall plain bs -> forall out, canon_run bs (out, false, 0%nat) = (out ++ bs, false, 0%nat).
Proof.
  induction 1 as [|b bs [Hs Hj] _ IH]; intros out; [by rewrite app_nil_r|]. cbn [canon_run]. unfold canon_step.
  rewrite (proj2 (Z.eqb_neq b star)), (proj2 (Z.eqb_neq b joker)) by done. by rewrite IH, <- app_assoc.
Qed.
Lemma canon_run_app bs1 bs2 st : canon_run (bs1 ++ bs2) st = canon_run bs2 (canon_run bs1 st).
Proof.
  revert st. induction bs1 as [|b bs1 IH]; intros [[out f] k]; [done|]. cbn [canon_run app].
  destruct (canon_step b f k) as [[e f'] k']. by rewrite IH.
Qed.
Lemma encs_jokers k : encs (jokers k) = jokers k.
Proof. induction k as [|k IH]; [done|]. cbn [replicate]. by rewrite encs_cons, IH. Qed.

Lemma canon_run_encs ps : Forall char ps -> forall out f k,
  canon_run (encs ps) (encs out, f, k) = let '(out', f', k') := canon_run ps (out, f, k) in (encs out', f', k').
Proof.
  induction 1 as [|c ps Hc _ IH]; intros out f k; [done|]. rewrite encs_cons, canon_run_app. cbn [canon_run]. unfold canon_step.
  destruct (Z.eqb_spec c star) as [->|Hs]; [|destruct (Z.eqb_spec c joker) as [->|Hj]].
  - change (enc star) with [star]. cbn [canon_run]. unfold canon_step. change (star =? star) with true. cbn iota.
    destruct f; rewrite <- IH; [by rewrite !app_nil_r|by rewrite encs_app].
  - change (enc joker) with [joker]. cbn [canon_run]. unfold canon_step. change (joker =? star) with false. change (joker =? joker) with true. cbn iota.
    rewrite <- IH. by rewrite !app_nil_r.
  - rewrite <- IH. pose proof (enc_plain c Hc ltac:(done)) as Hp. f_equal. rewrite !encs_app, encs_jokers. cbn [encs flat_map]. rewrite app_nil_r.
    destruct (enc c) as [|b t] eqn:E; [by apply enc_nonempty in E; [|apply char_code]|]. apply Forall_cons in Hp as [[Hbs Hbj] Hp].
    cbn [canon_run]. unfold canon_step. rewrite (proj2 (Z.eqb_neq b star)), (proj2 (Z.eqb_neq b joker)) by done.
    rewrite canon_run_plain by done. by rewrite <- !app_assoc.
Qed.
Lemma canon_encs ps : Forall char ps -> canon (encs ps) = encs (canon ps).
Proof.
  intros H. unfold canon. pose proof (canon_run_encs ps H [] false 0) as E. cbn [encs flat_map] in E. rewrite E.
  destruct (canon_run ps _) as [[out f] k]. by rewrite encs_app, encs_jokers.
Qed.

(** ** Positions *)

Fixpoint first_at (c : Z) (l : list Z) : Z :=
  match l with
  | [] => -1
  | x :: l => if x =? c then 0 else if first_at c l <? 0 then -1 else first_at c l + 1
  end.
Fixpoint last_at (c : Z) (l : list Z) : Z :=
  match l with
  | [] => -1
  | x :: l => if 0 <=? last_at c l then last_at c l + 1 else if x =? c then 0 else -1
  end.

Lemma first_at_range c l : -1 <= first_at c l < zlen l \/ first_at c l = -1.
Proof. induction l as [|x l IH]; cbn [first_at]; [by right|]. rewrite zlen_cons. pose proof (zlen_nonneg l). zcases; lia. Qed.
Lemma last_at_range c l : -1 <= last_at c l < zlen l \/ last_at c l = -1.
Proof. induction l as [|x l IH]; cbn [last_at]; [by right|]. rewrite zlen_cons. pose proof (zlen_nonneg l). zcases; lia. Qed.
Lemma first_at_snoc c l x : first_at c (l ++ [x]) = if first_at c l <? 0 then if x =? c then zlen l else -1 else first_at c l.
Proof.
  induction l as [|y l IH]; cbn [app first_at]; [done|]. rewrite IH, zlen_cons. pose proof (zlen_nonneg l).
  destruct (Z.eqb_spec y c), (Z.eqb_spec x c), (Z.ltb_spec (first_at c l) 0); zcases; lia.
Qed.
Lemma last_at_snoc c l x : last_at c (l ++ [x]) = if x =? c then zlen l else last_at c l.
Proof.
  induction l as [|y l IH]; cbn [app last_at]; [by destruct (x =? c)|]. rewrite IH, zlen_cons. pose proof (zlen_nonneg l).
  destruct (Z.eqb_spec y c), (Z.eqb_spec x c), (Z.leb_spec 0 (last_at c l)); zcases; lia.
Qed.
Lemma first_at_none c l : first_at c l < 0 <-> c ∉ l.
Proof.
  induction l as [|x l IH]; cbn [first_at]; [split; [intros _; apply not_elem_of_nil|lia]|]. rewrite not_elem_of_cons, <- IH. zcases; lia.
Qed.
Lemma at_once c l : first_at c l = last_at c l -> c ∈ l -> exists l1 l2, l = l1 ++ c :: l2 /\ ~ (c ∈ l1) /\ ~ (c ∈ l2).
Proof.
  induction l as [|x l IH]; cbn [first_at last_at]; [by intros _ ?%elem_of_nil|]. intros E H.
  assert (first_at c l < 0 <-> last_at c l < 0) as Hneg.
  { clear. induction l as [|y l IH]; cbn [first_at last_at]; [done|]. zcases; lia. }
  destruct (Z.eqb_spec x c) as [->|Hx].
  - exists [], l. split; [done|]. split; [apply not_elem_of_nil|]. apply first_at_none. revert E. zcases; lia.
  - apply elem_of_cons in H as [->|H]; [done|]. destruct IH as (l1 & l2 & -> & H1 & H2); [pose proof (first_at_range c l); pose proof (last_at_range c l); revert E; zcases; lia|done|].
    exists (x :: l1), l2. split; [done|]. by rewrite not_elem_of_cons.
Qed.

(** ** The loop *)

(** The least and the greatest length of what a pattern matches. *)
Fixpoint least_of (bs : list Z) : Z :=
  match bs with [] => 0 | b :: bs => (if b =? star then 0 else 1) + least_of bs end.
Fixpoint most_of (bs : list Z) : Z :=
  match bs with [] => 0 | b :: bs => (if b =? star then 0 else if b =? joker then 4 else 1) + most_of bs end.
Lemma least_of_range bs : 0 <= least_of bs <= zlen bs.
Proof. induction bs as [|b bs IH]; cbn [least_of]; [done|]. rewrite zlen_cons. zcases; lia. Qed.
Lemma most_of_range bs : 0 <= most_of bs <= 4 * zlen bs.
Proof. induction bs as [|b bs IH]; cbn [most_of]; [done|]. rewrite zlen_cons. zcases; lia. Qed.

Lemma wr_end (l rest : list Z) x c : wr (l ++ c :: rest) (zlen l) x = Some ((l ++ [x]) ++ rest).
Proof.
  unfold wr, zlen. rewrite (proj2 (Z.ltb_ge _ _)), (proj2 (Z.leb_gt _ _)) by (rewrite ?length_app; cbn [length]; lia). cbn [orb].
  rewrite Nat2Z.id, insert_app_r_alt by lia. rewrite Nat.sub_diag, <- app_assoc. done.
Qed.

(** The state of the loop when [out] is written, with [left] more bytes to read. *)
Record compiled (room : Z) (out : list Z) (f : bool) (k : nat) (left least most : Z) (st : compile_state) : Prop := {
  compiled_buffer : exists rest, st_buffer st = out ++ rest /\ zlen (st_buffer st) = room;
  compiled_d : st_d st = zlen out;
  compiled_i : st_i st = zlen out;
  compiled_length : length_left st = zlen out + Z.of_nat k + left;
  compiled_least : least_len st = least;
  compiled_most : most_len st = most;
  compiled_hw : hw_pos st = first_at star out;
  compiled_tw : tw_pos st = last_at star out;
  compiled_hj : hj_pos st = first_at joker out;
  compiled_tj : tj_pos st = last_at joker out;
  compiled_follows : follows_wildcard st = f;
  compiled_pending : pending_jokers st = Z.of_nat k;
}.

Section loop.
Context (room : Z) (Hroom : room <= 2 ^ 29).

Lemma write_one st out f k left least most x :
  compiled room out f k left least most st -> zlen out < room ->
  exists rest, wr (st_buffer st) (st_d st) x = Some ((out ++ [x]) ++ rest) /\ zlen ((out ++ [x]) ++ rest) = room.
Proof.
  intros [(rest & Eb & Er) Ed _ _ _ _ _ _ _ _ _ _] Hl. rewrite Eb in Er |- *. rewrite Ed. rewrite zlen_app in Er.
  destruct rest as [|y rest]; [change (zlen []) with 0 in Er; lia|]. exists rest. rewrite wr_end. split; [done|].
  rewrite zlen_cons in Er. rewrite !zlen_app. change (zlen [x]) with 1. lia.
Qed.

Lemma flush_ok k : forall st out f left least most, compiled room out f k left least most st -> zlen out + Z.of_nat k < room ->
  exists st', flush_jokers k 1 st = Some st' /\ compiled room (out ++ jokers k) f 0 left least most st'.
Proof.
  induction k as [|k IH]; intros st out f left least most Hst Hr; cbn [flush_jokers]; change 63 with joker; [exists st; split; [done|]; by rewrite app_nil_r|].
  destruct (write_one _ _ _ _ _ _ _ joker Hst ltac:(lia)) as (rest & -> & Hz). cbn [mbind option_bind].
  destruct Hst as [_ Ed Ei El E1 E2 Eh Et Ej Etj Ef Ep]. pose proof (zlen_nonneg out).
  destruct (IH (CompileState ((out ++ [joker]) ++ rest) (st_d st + 1) (u32 (st_i st + 1)) (length_left st) (least_len st) (most_len st)
    (hw_pos st) (tw_pos st) (if hj_pos st <? 0 then i32 (st_i st) else hj_pos st) (i32 (st_i st)) (follows_wildcard st) (pending_jokers st - 1))
    (out ++ [joker]) f left least most) as (st' & -> & Hst').
  - rewrite (i32_small (st_i st)) by lia. rewrite (wrap_small 32 (st_i st + 1)) by lia.
    split; [by eexists|..]; cbn; rewrite ?zlen_app, ?first_at_snoc, ?last_at_snoc; change (zlen [joker]) with 1; change (joker =? star) with false; change (joker =? joker) with true; try done; try lia.
    + rewrite Eh. pose proof (first_at_range star out). zcases; lia.
    + rewrite Ej, Ei. done.
  - rewrite zlen_app. change (zlen [joker]) with 1. lia.
  - exists st'. split; [done|]. by rewrite <- app_assoc in Hst'.
Qed.

Lemma compile_char_ok c st out f k left least most : compiled room out f k (left + 1) least most st ->
  0 <= left -> zlen out + Z.of_nat k + left + 1 < room -> 0 <= least < 2 ^ 30 -> 0 <= most < 2 ^ 31 ->
  let '(e, f', k') := canon_step c f k in
  exists st', compile_char c st = Some st' /\
    compiled room (out ++ e) f' k' left ((if c =? star then 0 else 1) + least) ((if c =? star then 0 else if c =? joker then 4 else 1) + most) st'.
Proof.
  intros Hst Hleft Hr Hle Hmo. unfold canon_step, compile_char. change 42 with star. change 63 with joker. pose proof (zlen_nonneg out).
  destruct (Z.eqb_spec c star) as [->|Hs]; [|destruct (Z.eqb_spec c joker) as [->|Hj]].
  - rewrite (compiled_follows _ _ _ _ _ _ _ _ Hst). destruct f.
    + eexists. split; [done|]. destruct Hst as [Eb Ed Ei El E1 E2 Eh Et Ej Etj Ef Ep]. rewrite app_nil_r.
      split; cbn; try done. rewrite wrap_small by lia. lia.
    + cbn [st_buffer st_d]. destruct (write_one _ _ _ _ _ _ _ star Hst ltac:(lia)) as (rest & -> & Hz). cbn [mbind option_bind].
      eexists. split; [done|]. destruct Hst as [_ Ed Ei El E1 E2 Eh Et Ej Etj Ef Ep].
      split; [by eexists|..]; cbn; rewrite ?zlen_app, ?first_at_snoc, ?last_at_snoc; change (zlen [star]) with 1; change (star =? joker) with false; change (star =? star) with true;
        rewrite ?Ei, ?i32_small by lia; try done; try lia.
      * apply wrap_small. lia.
      * by rewrite Eh.
      * rewrite Ej. pose proof (first_at_range joker out). zcases; lia.
  - eexists. split; [done|]. destruct Hst as [Eb Ed Ei El E1 E2 Eh Et Ej Etj Ef Ep]. rewrite app_nil_r.
    split; cbn; try done; try (rewrite wrap_small by lia); lia.
  - rewrite (compiled_pending _ _ _ _ _ _ _ _ Hst), Nat2Z.id.
    destruct (flush_ok k _ _ _ _ _ _ Hst ltac:(lia)) as (st1 & -> & Hst1). cbn [mbind option_bind st_buffer st_d].
    assert (zlen (out ++ jokers k) = zlen out + Z.of_nat k) as Hz1 by (rewrite zlen_app; unfold zlen at 2; by rewrite length_replicate).
    destruct (write_one _ _ _ _ _ _ _ c Hst1 ltac:(lia)) as (rest & -> & Hz). cbn [mbind option_bind].
    eexists. split; [done|]. destruct Hst1 as [_ Ed Ei El E1 E2 Eh Et Ej Etj Ef Ep]. rewrite (app_assoc out).
    split; [by eexists|..]; cbn; rewrite ?(zlen_app (out ++ jokers k)), ?first_at_snoc, ?last_at_snoc; change (zlen [c]) with 1;
      rewrite ?(proj2 (Z.eqb_neq c _)) by done; try done; try lia.
    + rewrite Ei. apply wrap_small. lia.
    + rewrite E1, wrap_small by lia. lia.
    + rewrite E2, wrap_small by lia. lia.
    + rewrite Eh. pose proof (first_at_range star (out ++ jokers k)). zcases; lia.
    + rewrite Ej. pose proof (first_at_range joker (out ++ jokers k)). zcases; lia.
Qed.

Lemma compile_loop_ok source bs : forall fuel p st out f k least most,
  reads source p (bs ++ [0]) -> Forall (fun b => b <> 0) bs -> zlen bs < Z.of_nat fuel ->
  compiled room out f k (zlen bs) least most st -> zlen out + Z.of_nat k + zlen bs < room ->
  0 <= least -> least + zlen bs < 2 ^ 30 -> 0 <= most -> most + 4 * zlen bs < 2 ^ 31 ->
  let '(out', f', k') := canon_run bs (out, f, k) in
  exists st', compile_loop fuel source p st = Some st' /\ compiled room out' f' k' 0 (least_of bs + least) (most_of bs + most) st' /\
    zlen out' + Z.of_nat k' < room.
Proof.
  induction bs as [|b bs IH]; intros [|fuel] p st out f k least most Hs H0 Hf Hst Hr Hl0 Hl Hm0 Hm;
    try (pose proof (zlen_nonneg (@nil Z)); lia); try (pose proof (zlen_nonneg (b :: bs)); lia); destruct Hs as [Hb Hs].
  - cbn [canon_run compile_loop]. rewrite Hb. cbn [mbind option_bind]. exists st. split; [done|]. split; [done|]. change (zlen []) with 0 in Hr. lia.
  - apply Forall_cons in H0 as [Hb0 H0]. rewrite zlen_cons in *. pose proof (zlen_nonneg bs). cbn [canon_run compile_loop]. rewrite Hb. cbn [mbind option_bind].
    rewrite (proj2 (Z.eqb_neq b 0)) by done. pose proof (compile_char_ok b st out f k (zlen bs) least most) as Hc.
    rewrite (Z.add_comm (zlen bs) 1) in Hc. specialize (Hc Hst ltac:(lia) ltac:(lia) ltac:(lia) ltac:(lia)).
    destruct (canon_step b f k) as [[e f'] k'] eqn:Ec. destruct Hc as (st' & -> & Hst'). cbn [mbind option_bind].
    assert (zlen e + Z.of_nat k' <= Z.of_nat k + 1) as Hek.
    { unfold canon_step in Ec. revert Ec. destruct (b =? star); [destruct f|destruct (b =? joker)]; intros [= <- <- <-]; cbn [length]; unfold zlen;
        rewrite ?length_app, ?length_replicate; cbn [length]; lia. }
    specialize (IH fuel (p + 1) st' (out ++ e) f' k' _ _ Hs H0 ltac:(lia) Hst').
    rewrite zlen_app in IH. assert (0 <= (if b =? star then 0 else 1) <= 1) by (destruct (b =? star); lia).
    assert (0 <= (if b =? star then 0 else if b =? joker then 4 else 1) <= 4) by (destruct (b =? star), (b =? joker); lia).
    specialize (IH ltac:(lia) ltac:(lia) ltac:(lia) ltac:(lia) ltac:(lia)).
    destruct (canon_run bs _) as [[out' f''] k'']. destruct IH as (st'' & -> & Hst'' & Hr'). exists st''. split; [done|]. split; [|done].
    cbn [least_of most_of]. rewrite !Z.add_assoc in Hst''. by rewrite (Z.add_comm _ (least_of bs)), (Z.add_comm _ (most_of bs)).
Qed.

End loop.

(** ** What the compiler makes of a pattern

    Which of the five kinds of match is chosen, and what is stored for it. *)

(** ** The last jokers *)

Lemma zlen_jokers k : zlen (jokers k) = Z.of_nat k.
Proof. unfold zlen. by rewrite length_replicate. Qed.
Lemma jokers_snoc k : jokers (S k) = jokers k ++ [joker].
Proof. by rewrite <- Nat.add_1_r, replicate_add. Qed.
Lemma first_star_jokers l k : first_at star (l ++ jokers k) = first_at star l.
Proof.
  induction k as [|k IH]; [by rewrite app_nil_r|]. rewrite jokers_snoc, app_assoc, first_at_snoc, IH.
  change (joker =? star) with false. pose proof (first_at_range star l). zcases; lia.
Qed.
Lemma last_star_jokers l k : last_at star (l ++ jokers k) = last_at star l.
Proof. induction k as [|k IH]; [by rewrite app_nil_r|]. by rewrite jokers_snoc, app_assoc, last_at_snoc. Qed.

(** The state at the end of the loop; the position of the last joker is that of
    the first of the jokers at the end. *)
Record finished (room : Z) (out : list Z) (k : nat) (least most : Z) (st : compile_state) : Prop := {
  finished_buffer : exists rest, st_buffer st = (out ++ jokers k) ++ rest /\ zlen (st_buffer st) = room;
  finished_d : st_d st = zlen (out ++ jokers k);
  finished_length : length_left st = zlen (out ++ jokers k);
  finished_least : least_len st = least;
  finished_most : most_len st = most;
  finished_hw : hw_pos st = first_at star (out ++ jokers k);
  finished_tw : tw_pos st = last_at star (out ++ jokers k);
  finished_hj : hj_pos st = first_at joker (out ++ jokers k);
  finished_tj : tj_pos st = if (k =? 0)%nat then last_at joker out else zlen out;
}.

Lemma flush_rest room n : forall buf d' i' len least most hw tw hj tj f p l rest,
  buf = l ++ rest -> zlen buf = room -> d' = zlen l -> zlen l + Z.of_nat n < room -> 0 <= i' < 2 ^ 31 ->
  exists st rest', flush_jokers n 0 (CompileState buf d' i' len least most hw tw hj tj f p) = Some st /\
    st_buffer st = (l ++ jokers n) ++ rest' /\ zlen (st_buffer st) = room /\ st_d st = zlen (l ++ jokers n) /\
    length_left st = len /\ least_len st = least /\ most_len st = most /\ hw_pos st = hw /\ tw_pos st = tw /\
    hj_pos st = (if (n =? 0)%nat then hj else if hj <? 0 then i' else hj) /\ tj_pos st = if (n =? 0)%nat then tj else i'.
Proof.
  induction n as [|n IH]; intros buf d' i' len least most hw tw hj tj f p l rest -> Hz -> Hr Hi.
  - eexists _, rest. split; [done|]. rewrite app_nil_r. by split_and!.
  - cbn [flush_jokers st_buffer st_d]. rewrite zlen_app in Hz. destruct rest as [|y rest]; [change (zlen []) with 0 in Hz; lia|].
    rewrite wr_end. cbn [mbind option_bind st_i length_left least_len most_len hw_pos tw_pos hj_pos tj_pos follows_wildcard pending_jokers].
    rewrite Z.add_0_r, (i32_small i'), (wrap_small 32 i') by lia. rewrite zlen_cons in Hz.
    destruct (IH ((l ++ [63]) ++ rest) (zlen l + 1) i' len least most hw tw (if hj <? 0 then i' else hj) i' f (p - 1) (l ++ [63]) rest)
      as (st & rest' & -> & Eb & Ez & Ed & E1 & E2 & E3 & E4 & E5 & E6 & E7); try done.
    + rewrite !zlen_app. change (zlen [63]) with 1. lia.
    + by rewrite zlen_app.
    + rewrite zlen_app. change (zlen [63]) with 1. lia.
    + exists st, rest'. rewrite <- (app_assoc l) in Eb, Ed. split_and!; try done; [|by destruct n].
      rewrite E6. destruct n; [done|]. cbn [Nat.eqb]. zcases; lia.
Qed.

Lemma flush_end room out f k least most st : room <= 2 ^ 29 -> compiled room out f k 0 least most st -> zlen out + Z.of_nat k < room ->
  exists st', flush_jokers (Z.to_nat (pending_jokers st)) 0 st = Some st' /\ finished room out k least most st'.
Proof.
  intros Hroom Hst Hr. destruct st as [buf d' i' len least' most' hw tw hj tj f' p].
  destruct Hst as [(rest & Eb & Ez) Ed Ei El E1 E2 Eh Et Ej Etj Ef Ep]. cbn in *. pose proof (zlen_nonneg out). subst p. rewrite Nat2Z.id.
  destruct (flush_rest room k buf d' i' len least' most' hw tw hj tj f' (Z.of_nat k) out rest Eb Ez Ed Hr ltac:(lia))
    as (st & rest' & -> & Eb' & Ez' & Ed' & F1 & F2 & F3 & F4 & F5 & F6 & F7).
  exists st. split; [done|]. split; try congruence.
  - by exists rest'.
  - rewrite F1, El, zlen_app, zlen_jokers. lia.
  - by rewrite F4, Eh, first_star_jokers.
  - by rewrite F5, Et, last_star_jokers.
  - rewrite F6, Ej, Ei. clear. induction k as [|k IH]; [by rewrite app_nil_r|]. rewrite jokers_snoc, app_assoc, first_at_snoc, <- IH.
    change (joker =? joker) with true. pose proof (first_at_range joker out). pose proof (zlen_nonneg out).
    destruct k; cbn [Nat.eqb]; [rewrite app_nil_r; done|]. zcases; lia.
  - rewrite F7. by destruct k.
Qed.

(** ** The kind of match *)

Definition from_tail (out : list Z) (k : nat) : bool :=
  let full := out ++ jokers k in
  if 0 <=? first_at star full then first_at star full <? zlen full - 1 - last_at star full
  else first_at joker full <? zlen full - 1 - (if (k =? 0)%nat then last_at joker out else zlen out).
Definition general_kind (out : list Z) (k : nat) : GMatchType := if from_tail out k then XMATCH_ALL_TAIL else XMATCH_ALL.
Definition kind_of (out : list Z) (k : nat) : GMatchType :=
  let full := out ++ jokers k in
  if (first_at joker full <? 0) && negb ((0 <=? first_at star full) && negb (first_at star full =? last_at star full)) then
    if bool_decide (head full = Some star) then XMATCH_TAIL
    else if bool_decide (last full = Some star) then XMATCH_HEAD
    else if first_at star full <? 0 then XMATCH_EXACT else general_kind out k
  else general_kind out k.

(** What is stored for the canonical pattern [cs], and what [cs] then is. *)
Definition content (kind : GMatchType) (cs : list Z) : list Z :=
  match kind with
  | XMATCH_ALL | XMATCH_EXACT => cs
  | XMATCH_ALL_TAIL => rev cs
  | XMATCH_HEAD => removelast cs
  | XMATCH_TAIL => tail cs
  end.
Definition of_kind (kind : GMatchType) (cs : list Z) : Prop :=
  match kind with
  | XMATCH_ALL | XMATCH_ALL_TAIL => True
  | XMATCH_HEAD => exists l, cs = l ++ [star] /\ Forall plain l
  | XMATCH_TAIL => exists l, cs = star :: l /\ Forall plain l
  | XMATCH_EXACT => Forall plain cs
  end.

Record spec_for (out : list Z) (k : nat) (cs : list Z) (least most : Z) (spec : xpattern_spec_t) : Prop := {
  spec_kind : match_type spec = kind_of out k;
  spec_of_kind : of_kind (match_type spec) cs;
  spec_reads : reads (pattern spec) 0 (encs (content (match_type spec) cs) ++ [0]);
  spec_length : pattern_length spec = zlen (encs (content (match_type spec) cs));
  spec_min : min_length spec = least;
  spec_max : max_length spec = if 0 <=? first_at star (out ++ jokers k) then G_MAXUINT else most;
}.

Lemma zlen_encs_rev cs : zlen (encs (rev cs)) = zlen (encs cs).
Proof.
  induction cs as [|c cs IH]; [done|]. cbn [rev]. rewrite encs_app, !encs_cons, !zlen_app, IH. change (zlen (encs [])) with 0. lia.
Qed.

Lemma all_plain cs : Forall char cs -> star ∉ encs cs -> joker ∉ encs cs -> Forall plain cs.
Proof.
  intros Hc Hs Hj. induction Hc as [|c cs Hc _ IH]; [constructor|]. rewrite encs_cons, elem_of_app in Hs, Hj. constructor; [|by apply IH; tauto].
  split; intros ->; [apply Hs|apply Hj]; left; by apply list_elem_of_singleton.
Qed.
Lemma encs_head_star cs : Forall char cs -> head (encs cs) = Some star -> exists cs', cs = star :: cs'.
Proof.
  intros [|c cs' Hc _]; [done|]. rewrite encs_cons. intros H. destruct (decide (c = star)) as [->|Hs]; [by exists cs'|].
  destruct (decide (c = joker)) as [->|Hj]; [done|]. destruct (literal_head c Hc Hs Hj) as (b & t & E & _ & Hb & _). rewrite E in H. cbn in H. congruence.
Qed.
Lemma encs_last_star cs : Forall char cs -> last (encs cs) = Some star -> exists cs', cs = cs' ++ [star].
Proof.
  intros Hc. destruct cs as [|c cs _] using rev_ind; [done|]. apply Forall_app in Hc as [_ [Hc _]%Forall_cons].
  rewrite encs_app. cbn [encs flat_map]. rewrite app_nil_r. intros H. destruct (decide (c = star)) as [->|Hs]; [by exists cs|].
  destruct (decide (c = joker)) as [->|Hj]; [change (enc joker) with [joker] in H; by rewrite last_snoc in H|]. pose proof (enc_plain c Hc ltac:(done)) as Hp.
  destruct (enc c) as [|b t _] eqn:E using rev_ind; [by apply enc_nonempty in E; [|apply char_code]|].
  rewrite app_assoc, last_snoc in H. injection H as ->. apply Forall_app in Hp as [_ [[Hb _] _]%Forall_cons]. done.
Qed.

(** ** Choosing *)

Section choosing.
Context (room : Z) (out : list Z) (k : nat) (cs : list Z) (least most : Z) (st : compile_state).
Context (Hroom : room <= 2 ^ 29) (Hst : finished room out k least most st) (Hfull : out ++ jokers k = encs cs) (Hcs : Forall char cs).
Context (rest : list Z) (Hlen : zlen (encs cs) < 2 ^ 29).

Abbreviation full := (encs cs).
Abbreviation the_max := (if 0 <=? hw_pos st then G_MAXUINT else most_len st).

Lemma choose_end_ok : general_kind out k = kind_of out k ->
  exists spec, choose_end st (0 <=? hw_pos st) (length_left st) the_max (full ++ 0 :: rest) = Some spec /\ spec_for out k cs least most spec.
Proof.
  intros Hk. pose proof Hst as [_ _ El E1 E2 Eh Et Ej Etj]. pose proof (zlen_nonneg full). pose proof (zlen_nonneg out).
  assert (zlen out <= zlen full) as Hout by (rewrite <- Hfull, zlen_app; pose proof (zlen_nonneg (jokers k)); lia).
  rewrite Hfull in *. unfold choose_end. assert (forall x, -1 <= x <= zlen full -> i32 (u32 (zlen full - 1 - x)) = zlen full - 1 - x) as Hi.
  { intros x Hx. destruct (Z.eq_dec x (zlen full)) as [->|]; [replace (zlen full - 1 - zlen full) with (-1) by lia; done|].
    rewrite wrap_small by lia. apply i32_small. lia. }
  rewrite El, Eh, Et, Ej, Etj. pose proof (last_at_range star full). pose proof (last_at_range joker out).
  rewrite !Hi by (destruct (k =? 0)%nat; lia).
  assert ((if 0 <=? first_at star full then first_at star full <? zlen full - 1 - last_at star full
    else first_at joker full <? zlen full - 1 - (if (k =? 0)%nat then last_at joker out else zlen out)) = from_tail out k) as -> by (unfold from_tail; by rewrite Hfull).
  rewrite <- Hfull in Eh. rewrite E1. unfold general_kind in Hk. destruct (from_tail out k).
  - unfold xutf8_strreverse. rewrite (proj2 (Z.ltb_ge _ 0)) by done. cbn [mbind option_bind].
    rewrite strreverse_loop_ok; [|by apply chars_codes|by apply (reads_0 _ _ (0 :: rest))|].
    2: { pose proof (encs_length cs (chars_codes _ Hcs)). rewrite length_app. unfold zlen in *. lia. }
    cbn [mbind option_bind]. eexists. split; [done|]. split; try done; cbn [match_type pattern pattern_length max_length].
    + apply (reads_0 _ _ []). by rewrite app_nil_r.
    + cbn [content]. by rewrite zlen_encs_rev.
    + by rewrite Hfull, E2.
  - eexists. split; [done|]. split; try done; cbn [match_type pattern pattern_length max_length].
    + apply (reads_0 _ _ rest). by rewrite <- app_assoc.
    + by rewrite Hfull, E2.
Qed.
Lemma finish_tail cs' : cs = star :: cs' -> Forall plain cs' -> kind_of out k = XMATCH_TAIL ->
  exists spec, (let n := u32 (zlen full - 1) in pattern ← move_down (full ++ 0 :: rest) n; pattern ← wr pattern n 0;
    Some (PatternSpec XMATCH_TAIL n (least_len st) the_max pattern)) = Some spec /\ spec_for out k cs least most spec.
Proof.
  intros E Hp Hk. destruct Hst as [_ _ _ E1 E2 Eh _ _ _]. rewrite E, encs_cons in *. change (enc star) with [star] in *.
  rewrite zlen_app in Hlen |- *. change (zlen [star]) with 1 in Hlen |- *. pose proof (zlen_nonneg (encs cs')).
  replace (1 + zlen (encs cs') - 1) with (zlen (encs cs')) by lia. rewrite wrap_small by lia. cbv zeta.
  assert (exists x, move_down (([star] ++ encs cs') ++ 0 :: rest) (zlen (encs cs')) = Some (encs cs' ++ x :: 0 :: rest)) as [x ->].
  { unfold move_down. rewrite <- app_assoc. cbn [app].
    rewrite (holds_block _ 1 (encs cs')) by (exists [star], (0 :: rest); done). cbn [mbind option_bind].
    pose proof (write_at_app [] (star :: encs cs' ++ 0 :: rest) (encs cs') ltac:(cbn [length]; rewrite length_app; lia)) as Hw.
    cbn [app] in Hw. change (zlen []) with 0 in Hw. rewrite Hw.
    destruct (drop_cons_any star (encs cs' ++ 0 :: rest) 0) as (y & m & Hm).
    assert (exists x, drop (length (encs cs')) (star :: encs cs' ++ 0 :: rest) = x :: 0 :: rest) as [x ->]; [|by exists x].
    clear. generalize star. induction (encs cs') as [|z l IH]; intros s; [by exists s|]. cbn [length drop app]. apply IH. }
  cbn [mbind option_bind]. rewrite wr_end. cbn [mbind option_bind]. eexists. split; [done|].
  split; cbn [match_type pattern pattern_length min_length max_length]; try done.
  - by exists cs'.
  - cbn [content tail]. apply (reads_0 _ _ (0 :: rest)). by rewrite <- !app_assoc.
  - by rewrite Eh, E2.
Qed.

Lemma finish_head cs' : cs = cs' ++ [star] -> Forall plain cs' -> kind_of out k = XMATCH_HEAD ->
  exists spec, (let n := u32 (zlen full - 1) in pattern ← wr (full ++ 0 :: rest) n 0;
    Some (PatternSpec XMATCH_HEAD n (least_len st) the_max pattern)) = Some spec /\ spec_for out k cs least most spec.
Proof.
  intros E Hp Hk. destruct Hst as [_ _ _ E1 E2 Eh _ _ _]. rewrite E, encs_app in *. change (encs [star]) with [star] in *.
  rewrite zlen_app in Hlen |- *. change (zlen [star]) with 1 in Hlen |- *. pose proof (zlen_nonneg (encs cs')).
  replace (zlen (encs cs') + 1 - 1) with (zlen (encs cs')) by lia. rewrite wrap_small by lia. cbv zeta.
  rewrite <- app_assoc. cbn [app]. rewrite wr_end. cbn [mbind option_bind]. eexists. split; [done|].
  split; cbn [match_type pattern pattern_length min_length max_length]; try done.
  - by exists cs'.
  - cbn [content]. rewrite removelast_last. apply (reads_0 _ _ (0 :: rest)). by rewrite <- !app_assoc.
  - cbn [content]. by rewrite removelast_last.
  - by rewrite Eh, E2.
Qed.

Lemma finish_exact : Forall plain cs -> kind_of out k = XMATCH_EXACT ->
  spec_for out k cs least most (PatternSpec XMATCH_EXACT (zlen full) (least_len st) the_max (full ++ 0 :: rest)).
Proof.
  intros Hp Hk. destruct Hst as [_ _ _ E1 E2 Eh _ _ _]. split; cbn [match_type pattern pattern_length min_length max_length]; try done.
  - apply (reads_0 _ _ rest). by rewrite <- !app_assoc.
  - by rewrite Eh, E2.
Qed.

Lemma first_byte : rd (full ++ 0 :: rest) 0 = Some (default 0 (head full)).
Proof. by destruct full. Qed.
Lemma last_byte : (if 0 <? zlen full then rd (full ++ 0 :: rest) (zlen full - 1) else Some 0) = Some (default 0 (last full)).
Proof.
  destruct full as [|b l _] using rev_ind; [done|]. rewrite last_snoc, zlen_app. change (zlen [b]) with 1. pose proof (zlen_nonneg l).
  rewrite (proj2 (Z.ltb_lt 0 _)) by lia. replace (zlen l + 1 - 1) with (zlen l) by lia.
  rewrite rd_ge_0 by done. unfold zlen. rewrite Nat2Z.id, <- app_assoc. by apply list_lookup_middle.
Qed.
Lemma is_star (o : option Z) : (default 0 o =? 42) = bool_decide (o = Some star).
Proof. unfold star. case_bool_decide as H; [by subst|]. apply Z.eqb_neq. destruct o; cbn; [congruence|done]. Qed.

(** What is left of a pattern without jokers and with one wildcard, at its start or end. *)
Lemma plain_behind cs' : cs = star :: cs' -> (star ∈ full -> first_at star full = last_at star full) -> joker ∉ full -> Forall plain cs'.
Proof.
  intros E Hone Hj. rewrite E, encs_cons in *. change (enc star) with [star] in *. apply Forall_cons in Hcs as [_ Hcs'].
  destruct (at_once _ _ (Hone ltac:(by left)) ltac:(by left)) as (l1 & l2 & Es & H1 & H2).
  apply all_plain; [done| |by intros H; apply Hj; right]. intros H. destruct l1 as [|x l1]; cbn in Es.
  - injection Es as Es. by rewrite <- Es in H2.
  - injection Es as <- _. by apply H1; left.
Qed.
Lemma plain_before cs' : cs = cs' ++ [star] -> (star ∈ full -> first_at star full = last_at star full) -> joker ∉ full -> Forall plain cs'.
Proof.
  intros E Hone Hj. rewrite E, encs_app in *. change (encs [star]) with [star] in *. apply Forall_app in Hcs as [Hcs' _].
  assert (star ∈ encs cs' ++ [star]) as Hin by (apply elem_of_app; right; by left).
  destruct (at_once _ _ (Hone Hin) Hin) as (l1 & l2 & Es & H1 & H2).
  apply all_plain; [done| |by intros H; apply Hj, elem_of_app; left]. intros H. destruct l2 as [|x l2 _] using rev_ind.
  - apply app_inj_tail in Es as [<- _]. done.
  - rewrite app_comm_cons, app_assoc in Es. apply app_inj_tail in Es as [_ <-]. apply H2, elem_of_app. right. by left.
Qed.

Lemma choose_match_ok : exists spec, choose_match st (full ++ 0 :: rest) = Some spec /\ spec_for out k cs least most spec.
Proof.
  pose proof choose_end_ok as Hend. pose proof finish_tail as Htail. pose proof finish_head as Hhead. pose proof finish_exact as Hexact.
  pose proof Hst as [_ _ El E1 E2 Eh Et Ej _]. unfold choose_match. cbv zeta. rewrite first_byte.
  assert (negb (0 <=? hj_pos st) = (first_at joker full <? 0)) as -> by (rewrite Ej, Hfull; symmetry; apply Z.ltb_antisym).
  revert Hend Htail Hhead Hexact. unfold kind_of. rewrite Hfull, El, Hfull, Eh, Et, Hfull. intros Hend Htail Hhead Hexact.
  destruct (Z.ltb_spec (first_at joker full) 0) as [Hj%first_at_none|_]; cbn [andb] in *; [|by apply Hend].
  destruct (_ && negb _) eqn:Emore; cbn [negb] in *; [by apply Hend|]. cbn [mbind option_bind]. rewrite last_byte, !is_star.
  assert (star ∈ full -> first_at star full = last_at star full) as Eq.
  { intros Hin. apply andb_false_iff in Emore as [H|H]; [apply Z.leb_gt, first_at_none in H; done|]. apply negb_false_iff in H. by apply Z.eqb_eq. }
  case_bool_decide as Eh1.
  { destruct (encs_head_star cs Hcs Eh1) as [cs' Ecs]. apply (Htail cs'); [done| |done]. by apply plain_behind. }
  cbn [mbind option_bind]. rewrite is_star. case_bool_decide as Eh2.
  { destruct (encs_last_star cs Hcs Eh2) as [cs' Ecs]. apply (Hhead cs'); [done| |done]. by apply plain_before. }
  rewrite <- Z.ltb_antisym. destruct (Z.ltb_spec (first_at star full) 0) as [Hs|Hs]; [|by apply Hend].
  eexists. split; [done|]. apply Hexact; [|done]. apply all_plain; [done| |done]. by apply first_at_none.
Qed.
End choosing.

(** ** The compiler *)

(** A NUL-terminated text of characters. *)
Definition text (s : list Z) (cs : list Z) : Prop := reads s 0 (encs cs ++ [0]) /\ Forall text_char cs.
Lemma text_is_chars s cs : text s cs -> Forall char cs.
Proof. intros [_ H]. eapply Forall_impl; [exact H|apply text_char_char]. Qed.
Lemma text_strlen s cs : text s cs -> c_strlen s = Some (zlen (encs cs)).
Proof. intros H. apply c_strlen_ok; [apply H|]. eapply Forall_proj2, encs_nonzero, text_is_chars, H. Qed.

Lemma canon_run_chars (P : Z -> Prop) ps : P star -> P joker -> Forall P ps -> forall out f k, Forall P out ->
  let '(out', f', k') := canon_run ps (out, f, k) in Forall P out'.
Proof.
  intros Hs Hj. induction 1 as [|c ps Hc _ IH]; intros out f k Ho; [done|]. cbn [canon_run].
  destruct (canon_step c f k) as [[e f'] k'] eqn:E. apply IH. apply Forall_app. split; [done|]. revert E. unfold canon_step.
  destruct (c =? star); [destruct f|destruct (c =? joker)]; intros [= <- _ _]; [constructor|by repeat constructor|constructor|].
  apply Forall_app. split; [by apply Forall_replicate|by repeat constructor].
Qed.

(** Where the loop is when it ends, on bytes. *)
Definition parts (ps : list Z) : list Z * nat := let '(out, _, k) := canon_run ps ([], false, 0%nat) in (encs out, k).

Lemma xpattern_spec_new_ok fresh source ps : text source ps -> zlen (encs ps) < 2 ^ 29 - 1 -> (forall n, 0 <= n -> zlen (fresh n) = n) ->
  exists spec, xpattern_spec_new fresh source = Some spec /\
    spec_for (parts ps).1 (parts ps).2 (canon ps) (least_of (encs ps)) (most_of (encs ps)) spec.
Proof.
  intros Hs Hl Hf. pose proof (text_is_chars _ _ Hs) as Hc. pose proof (zlen_nonneg (encs ps)). unfold xpattern_spec_new.
  rewrite (text_strlen _ _ Hs). cbn [mbind option_bind]. rewrite (wrap_small 32 (zlen (encs ps))), wrap_small by lia.
  remember (zlen (encs ps) + 1) as room eqn:Eroom. pose proof (proj1 Hs) as Hr. pose proof (reads_bounds _ _ _ Hr ltac:(by destruct (encs ps))) as [_ Hb].
  rewrite zlen_app in Hb. change (zlen [0]) with 1 in Hb.
  pose proof (compile_loop_ok room ltac:(lia) source (encs ps) (length source) 0
    (CompileState (fresh room) 0 0 (zlen (encs ps)) 0 0 (-1) (-1) (-1) (-1) false 0) [] false 0 0 0 Hr) as Hloop.
  specialize (Hloop ltac:(by eapply Forall_proj2, encs_nonzero) ltac:(unfold zlen in *; lia)).
  specialize (Hloop ltac:(split; cbn; try done; exists (fresh room); split; [done|apply Hf; lia])).
  change (zlen []) with 0 in Hloop. specialize (Hloop ltac:(lia) ltac:(lia) ltac:(lia) ltac:(lia) ltac:(lia)).
  pose proof (canon_run_encs ps Hc [] false 0) as Erun. cbn [encs flat_map] in Erun. rewrite Erun in Hloop.
  unfold parts, canon. pose proof (canon_run_chars char ps star_code joker_code Hc [] false 0 ltac:(constructor)) as Hout.
  destruct (canon_run ps _) as [[out f] k]. destruct Hloop as (st & -> & Hst & Hroom). cbn [mbind option_bind].
  rewrite !Z.add_0_r in Hst. destruct (flush_end room _ _ _ _ _ _ ltac:(lia) Hst Hroom) as (st' & -> & Hst'). cbn [mbind option_bind].
  destruct (finished_buffer _ _ _ _ _ _ Hst') as (rest & -> & Hz). rewrite (finished_d _ _ _ _ _ _ Hst'). cbn [fst snd].
  rewrite zlen_app in Hz. assert (zlen (encs out ++ jokers k) < room) as Hfull by (rewrite zlen_app, zlen_jokers; lia).
  destruct rest as [|x rest]; [change (zlen []) with 0 in Hz; lia|]. rewrite wr_end. cbn [mbind option_bind].
  assert (encs out ++ jokers k = encs (out ++ jokers k)) as E by (by rewrite encs_app, encs_jokers). rewrite <- app_assoc. cbn [app].
  rewrite E. eapply choose_match_ok; [exact Hst'|done| |rewrite <- E; lia].
  apply Forall_app. split; [done|]. apply Forall_replicate. apply joker_code.
Qed.
