(* ===== verification/PatternMatch.v ===== *)
(** * Matching with a compiled pattern, and comparing patterns *)

From S2P Require Import Prelude Utf8 Utf8Codec Utf8Text Utf8Validate Pattern PatternGlob.
From S2P Require Import PatternCompile.
Local Open Scope Z_scope.
Local Open Scope xpl_scope.

(** ** Comparing strings *)

Lemma strncmp_ok n : forall a p l1 b q l2,
  reads a p (l1 ++ [0]) -> Forall (fun x => x <> 0) l1 -> reads b q (l2 ++ [0]) -> Forall (fun x => x <> 0) l2 ->
  exists r, strncmp n a p b q = Some r /\ (r = 0 <-> take n (l1 ++ [0]) = take n (l2 ++ [0])).
Proof.
  induction n as [|n IH]; intros a p l1 b q l2 H1 N1 H2 N2; cbn [strncmp]; [by exists 0|].
  destruct l1 as [|x l1], l2 as [|y l2]; destruct H1 as [-> H1], H2 as [-> H2]; cbn [mbind option_bind app take].
  - exists 0. by destruct n.
  - apply Forall_cons in N2 as [N2 _]. rewrite (proj2 (Z.eqb_neq 0 y)) by done. cbn [negb]. exists (0 - y). split; [done|].
    split; [lia|by intros [= E _]].
  - apply Forall_cons in N1 as [N1 _]. rewrite (proj2 (Z.eqb_neq x 0)) by done. cbn [negb]. exists (x - 0). split; [done|].
    split; [lia|by intros [= E _]].
  - apply Forall_cons in N1 as [Nx N1]. apply Forall_cons in N2 as [_ N2]. destruct (Z.eqb_spec x y) as [->|Hne]; cbn [negb].
    + rewrite (proj2 (Z.eqb_neq y 0)) by done. destruct (IH a (p + 1) l1 b (q + 1) l2 H1 N1 H2 N2) as (r & -> & Hr).
      exists r. split; [done|]. rewrite Hr. split; [by intros ->|by intros [= ->]].
    + exists (x - y). split; [done|]. split; [lia|by intros [= E _]].
Qed.

Lemma strcmp_ok a p l1 b q l2 :
  reads a p (l1 ++ [0]) -> Forall (fun x => x <> 0) l1 -> reads b q (l2 ++ [0]) -> Forall (fun x => x <> 0) l2 ->
  exists r, strcmp a p b q = Some r /\ (r =? 0) = bool_decide (l1 = l2).
Proof.
  intros H1 N1 H2 N2. destruct (strncmp_ok (S (length a)) a p l1 b q l2 H1 N1 H2 N2) as (r & E & Hr). exists r. split; [done|].
  apply reads_bounds in H1 as [H0 Hb]; [|by destruct l1]. unfold zlen in Hb. rewrite length_app in Hb. cbn [length] in Hb.
  rewrite (take_ge (l1 ++ [0])) in Hr by (rewrite length_app; cbn [length]; lia).
  assert (l1 ++ [0] = take (S (length a)) (l2 ++ [0]) <-> l1 = l2) as Heq.
  { split; [|intros ->; by rewrite take_ge by (rewrite length_app; cbn [length]; lia)].
    intros E2. assert (0 ∈ take (S (length a)) (l2 ++ [0])) as Hin by (rewrite <- E2; apply elem_of_app; right; by left).
    destruct (decide (length l2 < S (length a))%nat) as [Hl|Hl].
    - rewrite take_ge in E2 by (rewrite length_app; cbn [length]; lia). by apply app_inj_tail in E2 as [-> _].
    - rewrite take_app_le in Hin by lia. pose proof (Forall_take _ (S (length a)) _ N2) as N3. rewrite Forall_forall in N3. by destruct (N3 0 Hin). }
  rewrite Heq in Hr. case_bool_decide; [apply Z.eqb_eq|apply Z.eqb_neq]; tauto.
Qed.

Lemma strncmp_prefix a p l1 b q l2 :
  reads a p (l1 ++ [0]) -> Forall (fun x => x <> 0) l1 -> reads b q (l2 ++ [0]) -> Forall (fun x => x <> 0) l2 ->
  exists r, strncmp (length l1) a p b q = Some r /\ ((r =? 0) = true <-> l1 `prefix_of` l2).
Proof.
  intros H1 N1 H2 N2. destruct (strncmp_ok (length l1) a p l1 b q l2 H1 N1 H2 N2) as (r & E & Hr). exists r. split; [done|].
  rewrite take_app_length in Hr. rewrite Z.eqb_eq, Hr. split.
  - intros E2. destruct (decide (length l1 <= length l2)%nat).
    + rewrite take_app_le in E2 by done. exists (drop (length l1) l2). by rewrite E2 at 1; rewrite take_drop.
    + exfalso. rewrite take_ge in E2 by (rewrite length_app; cbn [length]; lia). rewrite E2 in N1. by apply Forall_app in N1 as [_ [? _]%Forall_cons].
  - intros [l ->]. by rewrite <- app_assoc, take_app_length.
Qed.

(** ** Encodings of texts *)

Lemma encs_prefix cs ds : Forall char cs -> Forall char ds -> encs cs `prefix_of` encs ds <-> cs `prefix_of` ds.
Proof.
  intros Hc Hd. split; [|intros [l ->]; exists (encs l); apply encs_app]. revert ds Hd.
  induction Hc as [|c cs Hc _ IH]; intros ds Hd; [intros _; apply prefix_nil|]. intros [l E]. rewrite encs_cons in E.
  destruct Hd as [|d ds Hd Hds].
  - apply char_code in Hc. destruct (enc c) eqn:Ec; [by apply enc_nonempty in Ec|done].
  - assert (d = c) as ->.
    { assert (reads (encs (d :: ds)) 0 (enc d)) as R1 by (by apply (reads_0 _ _ (encs ds))).
      assert (reads (encs (d :: ds)) 0 (enc c)) as R2 by (rewrite E, <- app_assoc; by apply (reads_0 _ _ (encs cs ++ l))).
      apply get_char_enc in R1, R2; try by apply char_code. congruence. }
    rewrite encs_cons, <- app_assoc in E. apply app_inv_head in E. apply prefix_cons, IH; [done|]. by exists l.
Qed.
Lemma encs_inj cs ds : Forall char cs -> Forall char ds -> encs cs = encs ds -> cs = ds.
Proof.
  intros Hc Hd E. destruct (proj1 (encs_prefix cs ds Hc Hd) ltac:(by rewrite E)) as [l ->]. rewrite encs_app in E.
  apply Forall_app in Hd as [_ Hl]. destruct Hl as [|c l Hl _]; [by rewrite app_nil_r|]. exfalso.
  apply (f_equal zlen) in E. rewrite zlen_app, encs_cons, zlen_app in E. pose proof (zlen_enc_pos c (char_code _ Hl)). pose proof (zlen_nonneg (encs l)). lia.
Qed.
Lemma encs_suffix cs ds : Forall char cs -> Forall char ds -> encs cs `suffix_of` encs ds <-> cs `suffix_of` ds.
Proof.
  intros Hc Hd. split; [|intros [l ->]; exists (encs l); apply encs_app]. destruct Hc as [|c cs Hc Hcs]; [intros _; by exists ds; rewrite app_nil_r|].
  induction Hd as [|d ds Hd Hds IH]; intros [l E].
  - rewrite encs_cons in E. apply char_code in Hc. destruct l; [|done]. destruct (enc c) eqn:Ec; [by apply enc_nonempty in Ec|done].
  - destruct (enc_head c (char_code _ Hc)) as (b & t & Ec & _ & Hn & _ & _). destruct (enc_head d (char_code _ Hd)) as (b' & t' & Ed & _ & _ & Ht & _).
    destruct l as [|x l].
    + exists []. apply (encs_inj (d :: ds) (c :: cs)); [by constructor..|done].
    + rewrite encs_cons in E. destruct (decide (length (enc d) <= length (x :: l))%nat) as [Hle|Hle].
      * apply suffix_cons_r, IH. exists (drop (length (enc d)) (x :: l)).
        apply (f_equal (drop (length (enc d)))) in E. by rewrite drop_app_length, drop_app_le in E.
      * exfalso. apply Hn. rewrite Forall_lookup in Ht. apply (Ht (length l)). rewrite encs_cons, Ed, Ec in E. injection E as _ E.
        rewrite Ed in Hle. cbn [length] in Hle. assert ((t' ++ encs ds) !! length l = Some b) as Hb by (rewrite E; by apply list_lookup_middle).
        by rewrite lookup_app_l in Hb by lia.
Qed.

(** ** Lengths *)

Lemma least_of_app b1 b2 : least_of (b1 ++ b2) = least_of b1 + least_of b2.
Proof. induction b1 as [|b b1 IH]; cbn [app least_of]; [done|]. rewrite IH. lia. Qed.
Lemma most_of_app b1 b2 : most_of (b1 ++ b2) = most_of b1 + most_of b2.
Proof. induction b1 as [|b b1 IH]; cbn [app most_of]; [done|]. rewrite IH. lia. Qed.
Lemma lengths_plain bs : Forall plain bs -> least_of bs = zlen bs /\ most_of bs = zlen bs.
Proof.
  induction 1 as [|b bs [Hs Hj] _ [IH1 IH2]]; [done|]. cbn [least_of most_of].
  rewrite IH1, IH2, zlen_cons, !(proj2 (Z.eqb_neq b _)) by done. done.
Qed.

Lemma glob_lengths ps cs : glob ps cs -> Forall char ps -> Forall text_char cs ->
  least_of (encs ps) <= zlen (encs cs) /\ (star ∉ encs ps -> zlen (encs cs) <= most_of (encs ps)).
Proof.
  induction 1 as [|ps cs1 cs2 _ IH|ps c cs _ IH|ps c cs Hs Hj _ IH]; intros Hp Hc; [done|..]; apply Forall_cons in Hp as [Hp1 Hp].
  - apply Forall_app in Hc as [_ Hc]. destruct (IH Hp Hc) as [H1 _]. rewrite encs_cons, encs_app, zlen_app. change (enc star) with [star].
    cbn [app least_of]. change (star =? star) with true. cbn iota. pose proof (zlen_nonneg (encs cs1)). split; [lia|]. intros Hn. by destruct Hn; left.
  - apply Forall_cons in Hc as [Hc1 Hc]. destruct (IH Hp Hc) as [H1 H2]. rewrite !encs_cons, zlen_app. change (enc joker) with [joker].
    cbn [app least_of most_of]. change (joker =? star) with false. change (joker =? joker) with true. cbn iota.
    pose proof (char_code _ (text_char_char _ Hc1)) as Hcc. pose proof (zlen_enc_pos c Hcc). rewrite zlen_enc in * by done.
    assert (UTF8_LENGTH c <= 4) by (unfold text_char, scalar in Hc1; unfold UTF8_LENGTH; zcases; lia).
    split; [lia|]. intros Hn. rewrite not_elem_of_cons in Hn. specialize (H2 (proj2 Hn)). lia.
  - apply Forall_cons in Hc as [_ Hc]. destruct (IH Hp Hc) as [H1 H2]. rewrite !encs_cons, !zlen_app, least_of_app, most_of_app.
    destruct (lengths_plain _ (enc_plain c Hp1 ltac:(done))) as [-> ->]. split; [lia|]. rewrite elem_of_app. intros Hn. specialize (H2 ltac:(tauto)). lia.
Qed.

Lemma canon_run_star bs : forall out f k, (f = true -> star ∈ out) -> star ∈ out \/ star ∈ bs ->
  let '(out', _, _) := canon_run bs (out, f, k) in star ∈ out'.
Proof.
  induction bs as [|b bs IH]; intros out f k Hf H; [destruct H as [?|H]; [done|by apply elem_of_nil in H]|]. cbn [canon_run].
  destruct (canon_step b f k) as [[e f'] k'] eqn:E. unfold canon_step in E. rewrite elem_of_cons in H. revert E.
  destruct (Z.eqb_spec b star) as [->|Hs]; [destruct f|destruct (Z.eqb_spec b joker)]; intros [= <- <- <-]; apply IH; rewrite ?app_nil_r, ?elem_of_app.
  all: rewrite ?list_elem_of_singleton; naive_solver.
Qed.
Lemma canon_keeps_star bs : star ∈ bs -> star ∈ canon bs.
Proof.
  intros H. unfold canon. pose proof (canon_run_star bs [] false 0 ltac:(done) ltac:(by right)) as Hr.
  destruct (canon_run bs _) as [[out f] k]. apply elem_of_app. by left.
Qed.

Lemma least_of_jokers k : least_of (jokers k) = Z.of_nat k.
Proof. induction k as [|k IH]; [done|]. cbn [replicate least_of]. rewrite IH. change (joker =? star) with false. cbn iota. lia. Qed.
Lemma canon_run_least bs : forall out f k, let '(out', _, k') := canon_run bs (out, f, k) in
  least_of out' + Z.of_nat k' = least_of out + Z.of_nat k + least_of bs.
Proof.
  induction bs as [|b bs IH]; intros out f k; cbn [canon_run]; [cbn [least_of]; lia|].
  destruct (canon_step b f k) as [[e f'] k'] eqn:E. specialize (IH (out ++ e) f' k'). destruct (canon_run bs _) as [[out' f''] k''].
  rewrite IH, least_of_app. cbn [least_of]. revert E. unfold canon_step. destruct (Z.eqb_spec b star) as [->|Hs]; [destruct f|destruct (Z.eqb_spec b joker)].
  all: intros [= <- _ <-]; rewrite ?least_of_app, ?least_of_jokers; cbn [least_of]; rewrite ?(proj2 (Z.eqb_neq b star)) by done; change (star =? star) with true; lia.
Qed.
Lemma canon_least bs : least_of (canon bs) = least_of bs.
Proof.
  unfold canon. pose proof (canon_run_least bs [] false 0) as H. destruct (canon_run bs _) as [[out f] k].
  rewrite least_of_app, least_of_jokers, H. cbn [least_of]. lia.
Qed.

Lemma suffix_split (l : list Z) n : 0 <= n <= zlen l -> exists l1 l2, l = l1 ++ l2 /\ zlen l1 = zlen l - n /\ zlen l2 = n.
Proof.
  intros Hn. exists (take (length l - Z.to_nat n) l), (drop (length l - Z.to_nat n) l). unfold zlen in *. rewrite take_drop, length_take, length_drop. split; [done|lia].
Qed.

(** ** The kinds of match *)

Lemma canon_chars ps : Forall char ps -> Forall char (canon ps).
Proof.
  intros Hps.
  unfold canon. pose proof (canon_run_chars char ps star_code joker_code Hps [] false 0 ltac:(constructor)) as H.
  destruct (canon_run ps _) as [[o f] n]. apply Forall_app. split; [done|]. apply Forall_replicate, joker_code.
Qed.

Lemma nonzero cs : Forall char cs -> Forall (fun b => b <> 0) (encs cs).
Proof. intros. by eapply Forall_proj2, encs_nonzero. Qed.
Lemma content_chars kind ps : Forall char ps -> Forall char (content kind (canon ps)).
Proof.
  intros Hc%canon_chars. destruct kind; cbn [content]; [done|by apply Forall_rev|..|done].
  - destruct (canon ps) as [|c cs _] using rev_ind; [constructor|]. rewrite removelast_last. by apply Forall_app in Hc as [? _].
  - destruct Hc; [constructor|done].
Qed.

Section matching.
Context (spec : xpattern_spec_t) (out : list Z) (k : nat) (ps : list Z).
Context (Hspec : spec_for out k (canon ps) (least_of (encs ps)) (most_of (encs ps)) spec).
Context (Hout : out ++ jokers k = encs (canon ps)) (Hps : Forall char ps) (Hlen : zlen (encs ps) < 2 ^ 29).

Lemma canon_star : star ∈ encs ps -> 0 <= first_at star (encs (canon ps)).
Proof.
  intros H. destruct (Z.lt_ge_cases (first_at star (encs (canon ps))) 0) as [Hn%first_at_none|?]; [exfalso|done].
  apply Hn. rewrite <- canon_encs by done. by apply canon_keeps_star.
Qed.

Lemma match_ok string cs reversed :
  text string cs -> zlen (encs cs) < 2 ^ 32 -> (forall r, reversed = Some r -> text r (rev cs)) ->
  xpattern_spec_match spec (zlen (encs cs)) string reversed = Some (bool_decide (glob ps cs)).
Proof.
  intros Hs Hl Hrev. pose proof (text_is_chars _ _ Hs) as Hcs. destruct Hspec as [_ Hof Hr Hpl Hmin Hmax]. rewrite Hout in Hmax.
  unfold xpattern_spec_match. rewrite Hmin, Hmax. pose proof (canon_chars _ Hps) as Hcc. pose proof (content_chars (match_type spec) _ Hps) as Hco. pose proof (proj1 Hs) as Hsr.
  pose proof (nonzero _ Hcs) as N2. pose proof (nonzero _ Hco) as N1.
  destruct (_ || _) eqn:Ebounds.
  { rewrite bool_decide_eq_false_2; [done|]. intros Hg. destruct (glob_lengths ps cs Hg Hps (proj2 Hs)) as [H1 H2]. 
    apply orb_true_iff in Ebounds as [H%Z.ltb_lt|H%Z.ltb_lt]; [lia|]. destruct (Z.leb_spec 0 (first_at star (encs (canon ps)))) as [H3|H3]; [unfold G_MAXUINT in H; lia|].
    specialize (H2 ltac:(intros ?%canon_star; lia)). lia. }
  assert (bool_decide (glob ps cs) = bool_decide (glob (canon ps) cs)) as -> by (apply bool_decide_ext; symmetry; apply canon_same).
  destruct (match_type spec); cbn [content of_kind] in *.
  - apply ph_match_total; split_and!; done.
  - assert (bool_decide (glob (canon ps) cs) = bool_decide (glob (rev (canon ps)) (rev cs))) as -> by (apply bool_decide_ext; symmetry; apply glob_rev).
    destruct reversed as [r|].
    + destruct (Hrev r eq_refl) as [Hr1 Hr2]. apply ph_match_total; split_and!; try done. eapply Forall_impl; [exact Hr2|apply text_char_char].
    + assert (xssize (zlen (encs cs)) = zlen (encs cs)) as -> by (unfold xssize; pose proof (zlen_nonneg (encs cs)); rewrite Z.mod_small; lia).
      unfold xutf8_strreverse. rewrite (proj2 (Z.ltb_ge _ 0)) by apply zlen_nonneg. cbn [mbind option_bind].
      rewrite strreverse_loop_ok; [|by apply chars_codes|by apply reads_app in Hsr as [? _]|].
      2: { pose proof (encs_length cs (chars_codes _ Hcs)). apply reads_bounds in Hsr as [_ Hb]; [|by destruct (encs cs)]. rewrite zlen_app in Hb. unfold zlen in *. cbn [length] in Hb. lia. }
      cbn [mbind option_bind]. apply ph_match_total; split_and!; try done; [|by apply Forall_rev]. apply (reads_0 _ _ []). by rewrite app_nil_r.
  - destruct Hof as (l & E & Hp). rewrite E in *. rewrite removelast_last in *.
    assert (glob (l ++ [star]) cs <-> l `prefix_of` cs) as Hg.
    { rewrite glob_app. split; [intros (c1 & c2 & -> & ->%glob_literals & _); [by exists c2|done]|]. intros [c2 ->]. exists l, c2.
      split; [done|]. split; [by apply glob_literals|]. apply glob_single. by left. }
    rewrite Hpl. destruct (Z.eqb_spec (zlen (encs l)) (zlen (encs cs))) as [El|Hne].
    + destruct (strcmp_ok _ _ _ _ _ _ Hr N1 Hsr N2) as (r & -> & Ez). cbn [mbind option_bind]. rewrite Ez. f_equal. apply bool_decide_ext. rewrite Hg, <- encs_prefix by done.
      split; [by intros ->|]. intros [x Ex]. rewrite Ex. rewrite Ex, zlen_app in El. destruct x; [by rewrite app_nil_r|]. rewrite zlen_cons in El. pose proof (zlen_nonneg x). lia.
    + destruct (Z.eqb_spec (zlen (encs l)) 0) as [E0|_]; cbn [negb].
      * rewrite bool_decide_eq_true_2; [done|]. rewrite Hg, <- encs_prefix by done. destruct (encs l); [apply prefix_nil|]. rewrite zlen_cons in E0. pose proof (zlen_nonneg l0). lia.
      * unfold zlen at 1. rewrite Nat2Z.id. destruct (strncmp_prefix _ _ _ _ _ _ Hr N1 Hsr N2) as (r & -> & Ez). cbn [mbind option_bind]. f_equal.
        rewrite encs_prefix, <- Hg in Ez by done. case_bool_decide; destruct (r =? 0); try done; naive_solver.
  - destruct Hof as (l & E & Hp). rewrite E in *. cbn [tail] in *.
    assert (glob (star :: l) cs <-> l `suffix_of` cs) as Hg.
    { rewrite glob_cons_star. split; [intros [n Hn%glob_literals]; [exists (take n cs); by rewrite <- Hn, take_drop|done]|].
      intros [c1 ->]. exists (length c1). rewrite drop_app_length. by apply glob_literals. }
    rewrite Hpl. destruct (Z.eqb_spec (zlen (encs l)) 0) as [E0|_]; cbn [negb].
    { rewrite bool_decide_eq_true_2; [done|]. rewrite Hg, <- encs_suffix by done. destruct (encs l) as [|x l0]; [by exists (encs cs); rewrite app_nil_r|].
      rewrite zlen_cons in E0. pose proof (zlen_nonneg l0). lia. }
    assert (zlen (encs l) <= zlen (encs cs)) as Hle.
    { assert (least_of (encs (star :: l)) = least_of (encs ps)) as El by (rewrite <- E, <- canon_encs by done; apply canon_least).
      rewrite encs_cons, least_of_app in El. change (enc star) with [star] in El. change (least_of [star]) with 0 in El.
      assert (Forall plain (encs l)) as Hpe.
      { clear -Hp Hco. induction Hp as [|c l Hc _ IH]; [constructor|]. apply Forall_cons in Hco as [? ?]. rewrite encs_cons. apply Forall_app.
        split; [by apply enc_plain|by apply IH]. }
      rewrite (proj1 (lengths_plain _ Hpe)) in El. apply orb_false_iff in Ebounds as [Hb%Z.ltb_ge _]. lia. }
    destruct (suffix_split (encs cs) (zlen (encs l)) ltac:(pose proof (zlen_nonneg (encs l)); lia)) as (b1 & b2 & Eb & El1 & El2).
    rewrite Eb, <- app_assoc in Hsr. apply reads_app in Hsr as [_ Hsr]. rewrite Z.add_0_l, El1 in Hsr. rewrite Eb in N2. apply Forall_app in N2 as [_ N2].
    destruct (strcmp_ok _ _ _ _ _ _ Hr N1 Hsr N2) as (r & -> & Ez). cbn [mbind option_bind]. rewrite Ez. f_equal. apply bool_decide_ext.
    rewrite Hg, <- encs_suffix by done. rewrite Eb. split; [intros ->; by exists b1|]. intros [x Ex]. apply app_inj_2 in Ex as [_ Ex]; [done|].
    unfold zlen in El2. lia.
  - rewrite Hpl. pose proof (glob_literals _ cs Hof) as Hg. destruct (Z.eqb_spec (zlen (encs (canon ps))) (zlen (encs cs))) as [El|Hne]; cbn [negb].
    + destruct (strcmp_ok _ _ _ _ _ _ Hr N1 Hsr N2) as (r & -> & Ez). cbn [mbind option_bind]. rewrite Ez. f_equal. apply bool_decide_ext. rewrite Hg.
      split; [intros Ee; symmetry; by apply encs_inj|by intros ->].
    + rewrite bool_decide_eq_false_2; [done|]. rewrite Hg. by intros ->.
Qed.
End matching.

(** ** Patterns that match the same strings are the same

    The canonical form is determined by the strings it matches: words in which a
    fresh character stands for the jokers tell two of them apart. *)

(** ** Canonical patterns as gaps and literals *)

Definition gap : Type := bool * nat.
Definition gap_pattern (g : gap) : list Z := (if fst g then [star] else []) ++ jokers (snd g).
Fixpoint flat (segs : list (gap * Z)) (end_ : gap) : list Z :=
  match segs with
  | [] => gap_pattern end_
  | (g, c) :: segs => gap_pattern g ++ c :: flat segs end_
  end.
(** What is before the gap that is being read. *)
Fixpoint before (segs : list (gap * Z)) : list Z :=
  match segs with [] => [] | (g, c) :: segs => gap_pattern g ++ c :: before segs end.

Lemma before_app s1 s2 : before (s1 ++ s2) = before s1 ++ before s2.
Proof. induction s1 as [|[g c] s1 IH]; [done|]. cbn [before app]. by rewrite IH, <- app_assoc. Qed.
Lemma flat_before segs g : flat segs g = before segs ++ gap_pattern g.
Proof. induction segs as [|[g' c] segs IH]; [done|]. cbn [before flat]. by rewrite IH, <- app_assoc. Qed.

Lemma canon_run_segs ps : forall segs f k, Forall (fun s => plain (snd s)) segs ->
  exists segs' f' k', canon_run ps (before segs ++ (if f : bool then [star] else []), f, k) =
    (before segs' ++ (if f' : bool then [star] else []), f', k') /\ Forall (fun s => plain (snd s)) segs' /\
    forall s, s ∈ segs' -> s ∈ segs \/ snd s ∈ ps.
Proof.
  induction ps as [|c ps IH]; intros segs f k Hs; [exists segs, f, k; split; [done|]; split; [done|]; by left|]. cbn [canon_run]. unfold canon_step.
  destruct (Z.eqb_spec c star) as [->|Hc]; [|destruct (Z.eqb_spec c joker) as [->|Hj]].
  - destruct f.
    + rewrite app_nil_r. destruct (IH segs true k Hs) as (s' & f' & k' & E & H1 & H2). exists s', f', k'. split; [exact E|]. split; [done|].
      intros s Hin. destruct (H2 s Hin); [by left|right; by right].
    + rewrite app_nil_r. destruct (IH segs true k Hs) as (s' & f' & k' & E & H1 & H2). exists s', f', k'. split; [exact E|]. split; [done|].
      intros s Hin. destruct (H2 s Hin); [by left|right; by right].
  - rewrite app_nil_r. destruct (IH segs f (S k) Hs) as (s' & f' & k' & E & H1 & H2). exists s', f', k'. split; [exact E|]. split; [done|].
    intros s Hin. destruct (H2 s Hin); [by left|right; by right].
  - destruct (IH (segs ++ [((f, k), c)]) false 0%nat) as (s' & f' & k' & E & H1 & H2); [apply Forall_app; split; [done|by repeat constructor]|].
    exists s', f', k'. split; [|split; [done|]].
    + rewrite <- E. f_equal. f_equal. f_equal. rewrite before_app, app_nil_r. cbn [before]. unfold gap_pattern. cbn [fst snd]. by rewrite <- !app_assoc.
    + intros s Hin. destruct (H2 s Hin) as [[Hin'|Hin']%elem_of_app|Hin']; [by left|right|right; by right].
      apply list_elem_of_singleton in Hin' as ->. by left.
Qed.
Lemma canon_segs ps : exists segs end_, canon ps = flat segs end_ /\ Forall (fun s => plain (snd s)) segs /\
  (forall s, s ∈ segs -> snd s ∈ ps).
Proof.
  destruct (canon_run_segs ps [] false 0 ltac:(constructor)) as (segs & f & k & E & H1 & H2). exists segs, (f, k).
  unfold canon. cbn [before app] in E. rewrite E, flat_before. unfold gap_pattern. cbn [fst snd]. rewrite app_assoc. split; [done|]. split; [done|].
  intros s Hs. by destruct (H2 s Hs) as [?%elem_of_nil|?].
Qed.

(** ** Words *)

Section words.
Context (z : Z).

(** The word of a gap: jokers as [z], a wildcard as [n] more. *)
Definition gap_word (n : nat) (g : gap) : list Z := replicate (snd g + if fst g then n else 0) z.
Fixpoint word (n : nat) (segs : list (gap * Z)) (end_ : gap) : list Z :=
  match segs with
  | [] => gap_word n end_
  | (g, c) :: segs => gap_word n g ++ c :: word n segs end_
  end.

Lemma glob_jokers k cs : glob (jokers k) cs <-> length cs = k.
Proof.
  revert cs. induction k as [|k IH]; intros cs; cbn [replicate]; [rewrite glob_nil; by destruct cs|].
  rewrite glob_cons_joker. setoid_rewrite IH. split; [intros (c & cs' & -> & <-); done|]. destruct cs as [|c cs]; [done|]. intros [= <-]. by exists c, cs.
Qed.
Lemma glob_gap g cs : glob (gap_pattern g) cs <-> if fst g then (snd g <= length cs)%nat else length cs = snd g.
Proof.
  unfold gap_pattern. destruct g as [[] k]; cbn [fst snd app]; [|apply glob_jokers]. rewrite glob_cons_star. setoid_rewrite glob_jokers. setoid_rewrite length_drop.
  split; [intros [n Hn]; lia|]. intros H. exists (length cs - k)%nat. lia.
Qed.

Lemma glob_word n segs end_ : Forall (fun s => plain (snd s)) segs -> glob (flat segs end_) (word n segs end_).
Proof.
  assert (forall g, glob (gap_pattern g) (gap_word n g)) as Hg.
  { intros g. apply glob_gap. unfold gap_word. rewrite length_replicate. destruct (fst g); lia. }
  induction 1 as [|[g c] segs [Hs Hj] _ IH]; [apply Hg|]. cbn [flat word]. apply glob_app. eexists _, _. split; [done|]. split; [apply Hg|]. by constructor.
Qed.

(** Each literal takes a character that is not [z]. *)
Definition others (l : list Z) : nat := length (filter (fun c => c <> z) l).
Lemma others_app l1 l2 : others (l1 ++ l2) = (others l1 + others l2)%nat.
Proof. unfold others. by rewrite filter_app, length_app. Qed.
Lemma others_gap n g : others (gap_word n g) = 0%nat.
Proof. unfold others, gap_word. induction (_ + _)%nat as [|m IH]; [done|]. cbn [replicate]. rewrite filter_cons_False; [done|]. by intros []. Qed.
Lemma others_word n segs end_ : Forall (fun s => snd s <> z) segs -> others (word n segs end_) = length segs.
Proof.
  induction 1 as [|[g c] segs Hc _ IH]; [apply others_gap|]. cbn [word length]. rewrite others_app, others_gap. unfold others in *. cbn [snd] in Hc.
  rewrite filter_cons_True by done. cbn [length]. by rewrite IH.
Qed.
Lemma glob_others segs end_ w : Forall (fun s => plain (snd s) /\ snd s <> z) segs -> glob (flat segs end_) w -> (length segs <= others w)%nat.
Proof.
  intros Hs. revert w. induction Hs as [|[g c] segs [[Hst Hj] Hc] _ IH]; intros w; [intros _; apply Nat.le_0_l|]. cbn [flat length]. rewrite glob_app.
  intros (w1 & w2 & -> & _ & H). apply glob_cons_literal in H as (w3 & -> & H); [|done..]. specialize (IH _ H). rewrite others_app. unfold others in *.
  rewrite filter_cons_True by done. cbn [length]. lia.
Qed.

(** How many characters a gap takes. *)
Definition gap_fits (g : gap) (m : nat) : Prop := if fst g then (snd g <= m)%nat else m = snd g.

(** With as many literals as there are other characters, they are matched in order. *)
Lemma glob_aligned n segs end_ : forall segs' end',
  Forall (fun s => plain (snd s) /\ snd s <> z) segs -> Forall (fun s => plain (snd s) /\ snd s <> z) segs' ->
  length segs = length segs' -> glob (flat segs end_) (word n segs' end') ->
  Forall2 (fun s s' => snd s = snd s' /\ gap_fits (fst s) (length (gap_word n (fst s')))) segs segs' /\ gap_fits end_ (length (gap_word n end')).
Proof.
  induction segs as [|[g c] segs IH]; intros [|[g' c'] segs'] end' H1 H2 Hl; try done; cbn [flat word].
  - intros H%glob_gap. split; [constructor|done].
  - apply Forall_cons in H1 as [[[Hst Hj] Hc] H1]. apply Forall_cons in H2 as [[_ Hc'] H2]. cbn [fst snd] in *. injection Hl as Hl.
    rewrite glob_app. intros (w1 & w2 & E & Hg & H). apply glob_cons_literal in H as (w3 & -> & H); [|done..].
    pose proof (glob_others _ _ _ H1 H) as Hn.
    assert (length w1 = length (gap_word n g')) as Hw.
    { destruct (Nat.lt_trichotomy (length w1) (length (gap_word n g'))) as [Hlt|[?|Hlt]]; [|done|]; exfalso.
      - apply (f_equal (lookup (length w1))) in E. rewrite lookup_app_l in E by done. rewrite list_lookup_middle in E by done.
        unfold gap_word in E. apply lookup_replicate in E as [E _]. congruence.
      - assert (exists w4, w1 = gap_word n g' ++ c' :: w4) as [w4 ->].
        { apply (f_equal (take (length w1))) in E. rewrite take_app_length in E. rewrite take_app_ge in E by lia.
          destruct (length w1 - length (gap_word n g'))%nat as [|m] eqn:Em; [lia|]. exists (take m (word n segs' end')). by rewrite <- E. }
        rewrite <- app_assoc in E. apply app_inv_head in E. cbn [app] in E. injection E as E.
        pose proof (others_word n segs' end' ltac:(eapply Forall_impl; [exact H2|by intros ? [_ ?]])) as Ho.
        rewrite E, others_app in Ho. unfold others in Ho, Hn. rewrite filter_cons_True in Ho by done. cbn [length] in Ho. lia. }
    apply app_inj_1 in E as [<- [= <- <-]]; [|done]. destruct (IH segs' end' H1 H2 Hl H) as [H3 H4]. split; [|done]. constructor; [|done]. split; [done|].
    by apply glob_gap in Hg.
Qed.

Lemma gap_fits_both g g' : (forall n, gap_fits g (length (gap_word n g'))) -> (forall n, gap_fits g' (length (gap_word n g))) -> g = g'.
Proof.
  intros H1 H2. pose proof (H1 0%nat) as A0. pose proof (H1 1%nat) as A1. pose proof (H2 0%nat) as B0. pose proof (H2 1%nat) as B1.
  unfold gap_fits, gap_word in *. rewrite !length_replicate in *. destruct g as [[] k], g' as [[] k']; cbn [fst snd] in *; f_equal; lia.
Qed.

(** Two canonical patterns that match the same words of text are the same. *)
Lemma flat_inj segs end_ segs' end' :
  Forall (fun s => plain (snd s) /\ snd s <> z) segs -> Forall (fun s => plain (snd s) /\ snd s <> z) segs' ->
  (forall n, glob (flat segs end_) (word n segs' end')) -> (forall n, glob (flat segs' end') (word n segs end_)) ->
  segs = segs' /\ end_ = end'.
Proof.
  intros H1 H2 G1 G2. assert (length segs = length segs') as Hl.
  { pose proof (glob_others _ _ _ H1 (G1 0%nat)) as L1. pose proof (glob_others _ _ _ H2 (G2 0%nat)) as L2.
    rewrite others_word in L1, L2 by (eapply Forall_impl; [eassumption|by intros ? [_ ?]]). lia. }
  assert (forall n, _) as A1 by (intros n; exact (glob_aligned n _ _ _ _ H1 H2 Hl (G1 n))).
  assert (forall n, _) as A2 by (intros n; exact (glob_aligned n _ _ _ _ H2 H1 (eq_sym Hl) (G2 n))).
  split; [|exact (gap_fits_both _ _ (fun n => proj2 (A1 n)) (fun n => proj2 (A2 n)))].
  apply list_eq. intros i. destruct (segs !! i) as [[g c]|] eqn:E1, (segs' !! i) as [[g' c']|] eqn:E2.
  - assert (forall n, c = c' /\ gap_fits g (length (gap_word n g'))) as B1 by (intros n; exact (Forall2_lookup_lr _ _ _ _ _ _ (proj1 (A1 n)) E1 E2)).
    assert (forall n, c' = c /\ gap_fits g' (length (gap_word n g))) as B2 by (intros n; exact (Forall2_lookup_lr _ _ _ _ _ _ (proj1 (A2 n)) E2 E1)).
    destruct (B1 0%nat) as [-> _]. by rewrite (gap_fits_both g g' (fun n => proj2 (B1 n)) (fun n => proj2 (B2 n))).
  - apply lookup_lt_Some in E1. apply lookup_ge_None in E2. lia.
  - apply lookup_lt_Some in E2. apply lookup_ge_None in E1. lia.
  - done.
Qed.

End words.

(** [P] is what the characters of strings are. *)
Lemma canon_complete (P : Z -> Prop) z ps qs : P z -> plain z -> z ∉ ps -> z ∉ qs -> Forall P ps -> Forall P qs ->
  (forall cs, Forall P cs -> glob ps cs <-> glob qs cs) -> canon ps = canon qs.
Proof.
  intros Hz Hzp Hp Hq HP HQ H. destruct (canon_segs ps) as (s1 & e1 & E1 & F1 & I1). destruct (canon_segs qs) as (s2 & e2 & E2 & F2 & I2).
  assert (forall (l : list Z) segs, Forall (fun s => plain (snd s)) segs -> (forall s : gap * Z, s ∈ segs -> snd s ∈ l) -> z ∉ l ->
    Forall (fun s : gap * Z => plain (snd s) /\ snd s <> z) segs) as Hne.
  { intros l segs F I Hl. rewrite Forall_forall in F |- *. intros s Hs. split; [by apply F|]. intros E. apply Hl. rewrite <- E. by apply I. }
  assert (forall n (l : list Z) segs e, Forall P l -> (forall s : gap * Z, s ∈ segs -> snd s ∈ l) -> Forall P (word z n segs e)) as HW.
  { intros n l segs e Hl I. rewrite Forall_forall in Hl. induction segs as [|[g c] segs IH]; cbn [word]; [by apply Forall_replicate|].
    apply Forall_app. split; [by apply Forall_replicate|]. constructor; [apply Hl, (I (g, c)); by left|]. apply IH. intros s Hs. apply I. by right. }
  destruct (flat_inj z s1 e1 s2 e2) as [-> ->]; [by eapply Hne|by eapply Hne|..|congruence].
  - intros n. rewrite <- E1. apply canon_same. apply H; [by apply (HW n qs)|]. apply canon_same. rewrite E2. by apply glob_word.
  - intros n. rewrite <- E2. apply canon_same. apply H; [by apply (HW n ps)|]. apply canon_same. rewrite E1. by apply glob_word.
Qed.
