(* ===== verification/PatternCorrect.v ===== *)
(** * Patterns: the properties *)

From S2P Require Import Prelude Utf8 Utf8Codec Utf8Text Utf8Validate Pattern PatternGlob.
From S2P Require Import PatternCompile PatternMatch.
Local Open Scope Z_scope.
Local Open Scope xpl_scope.

(** ** The parts of the canonical form *)

Lemma parts_full ps : (parts ps).1 ++ jokers (parts ps).2 = encs (canon ps).
Proof. unfold parts, canon. destruct (canon_run ps _) as [[out f] k]. by rewrite encs_app, encs_jokers. Qed.

Lemma jokers_end l1 l2 : last l1 <> Some joker -> last l2 <> Some joker -> forall k1 k2,
  l1 ++ jokers k1 = l2 ++ jokers k2 -> l1 = l2 /\ k1 = k2.
Proof.
  intros H1 H2. induction k1 as [|k1 IH]; intros [|k2]; rewrite ?jokers_snoc, ?app_nil_r, ?app_assoc; intros E.
  - done.
  - exfalso. apply H1. by rewrite E, last_snoc.
  - exfalso. apply H2. by rewrite <- E, last_snoc.
  - apply app_inj_tail in E as [E _]. destruct (IH _ E) as [-> ->]. done.
Qed.

Lemma canon_parts ps qs : canon ps = canon qs -> parts ps = parts qs.
Proof.
  assert (forall ps, let '(out, _, _) := canon_run ps ([], false, 0%nat) in last out <> Some joker) as Hlast.
  { intros l. destruct (canon_run_segs l [] false 0 ltac:(constructor)) as (segs & f & k & E & H & _). cbn [before app] in E. rewrite E.
    destruct f; [by rewrite last_snoc|]. rewrite app_nil_r. destruct segs as [|[g c] segs _] using rev_ind; [done|].
    rewrite before_app. cbn [before]. change (gap_pattern g ++ [c]) with (gap_pattern g ++ [c]). rewrite app_assoc, last_snoc.
    apply Forall_app in H as [_ [[_ Hc] _]%Forall_cons]. cbn [snd] in Hc. congruence. }
  unfold canon, parts. pose proof (Hlast ps) as L1. pose proof (Hlast qs) as L2.
  destruct (canon_run ps _) as [[o1 f1] k1], (canon_run qs _) as [[o2 f2] k2]. intros E. by destruct (jokers_end _ _ L1 L2 _ _ E) as [-> ->].
Qed.

(** What a spec keeps of a pattern. *)
Abbreviation spec_of ps spec := (spec_for (parts ps).1 (parts ps).2 (canon ps) (least_of (encs ps)) (most_of (encs ps)) spec).

Lemma spec_copy_ok ps spec : Forall char ps -> spec_of ps spec -> exists copy, xpattern_spec_copy spec = Some copy /\ spec_of ps copy.
Proof.
  intros Hps Hs. pose proof (content_chars (match_type spec) ps Hps) as Hc. destruct Hs as [Hk Ho Hr Hl Hmin Hmax].
  destruct (reads_whole _ _ Hr) as [rest Ep]. unfold xpattern_spec_copy, xstrndup. rewrite Ep, Hl. unfold zlen. rewrite Nat2Z.id, <- app_assoc.
  rewrite c_strncpy_ok by (by apply nonzero). cbn [mbind option_bind]. eexists. split; [done|]. split; try done.
  cbn [pattern match_type]. apply (reads_0 _ _ []). by rewrite app_nil_r.
Qed.

Lemma content_determines kind cs ds : of_kind kind cs -> of_kind kind ds -> content kind cs = content kind ds -> cs = ds.
Proof.
  destruct kind; cbn [of_kind content]; try done.
  - intros _ _ E. apply (f_equal (@rev Z)) in E. by rewrite !rev_involutive in E.
  - intros (l1 & -> & _) (l2 & -> & _). rewrite !removelast_last. by intros ->.
  - intros (l1 & -> & _) (l2 & -> & _). cbn [tail]. by intros ->.
Qed.

Lemma spec_equal_ok ps qs s1 s2 : Forall char ps -> Forall char qs -> spec_of ps s1 -> spec_of qs s2 ->
  exists b, xpattern_spec_equal s1 s2 = Some b /\ (b = true <-> canon ps = canon qs).
Proof.
  intros Hp Hq H1 H2. pose proof (content_chars (match_type s1) ps Hp) as C1. pose proof (content_chars (match_type s2) qs Hq) as C2.
  destruct H1 as [K1 O1 R1 L1 _ _], H2 as [K2 O2 R2 L2 _ _]. unfold xpattern_spec_equal.
  assert (canon ps = canon qs -> match_type s1 = match_type s2) as Hkind by (intros E; by rewrite K1, K2, (canon_parts _ _ E)).
  destruct (Z.eqb_spec (pattern_length s1) (pattern_length s2)) as [_|Hne]; cbn [negb].
  2: { exists false. split; [done|]. split; [done|]. intros E. destruct Hne. by rewrite L1, L2, (Hkind E), E. }
  case_bool_decide as Ek; cbn [negb]; [|exists false; split; [done|]; split; [done|]; intros E; by destruct Ek; apply Hkind].
  rewrite Ek in *. destruct (strcmp_ok _ _ _ _ _ _ R1 (nonzero _ C1) R2 (nonzero _ C2)) as (r & -> & Er). cbn [mbind option_bind].
  eexists. split; [done|]. rewrite Er, bool_decide_eq_true. split; [|by intros ->].
  intros E. apply encs_inj in E; [|done..]. by apply (content_determines (match_type s2)).
Qed.

(** ** The properties *)

(** A compiled pattern answers for every text what the pattern means. *)
Definition answers (spec : xpattern_spec_t) (ps : list Z) : Prop :=
  forall string cs, text string cs ->
    (zlen (encs cs) < 2 ^ 32 -> forall reversed, (forall r, reversed = Some r -> text r (rev cs)) ->
      xpattern_spec_match spec (zlen (encs cs)) string reversed = Some (bool_decide (glob ps cs)) /\
      g_pattern_match spec (zlen (encs cs)) string reversed = Some (bool_decide (glob ps cs))) /\
    (zlen (encs cs) < 2 ^ 32 -> xpattern_spec_match_string spec string = Some (bool_decide (glob ps cs))) /\
    (2 ^ 32 <= zlen (encs cs) -> xpattern_spec_match_string spec string = Some false).

Lemma spec_answers ps spec : Forall char ps -> zlen (encs ps) < 2 ^ 29 -> spec_of ps spec -> answers spec ps.
Proof.
  intros Hps Hl Hs string cs Ht. pose proof (match_ok spec _ _ ps Hs (parts_full ps) Hps) as Hm. unfold xpattern_spec_match_string.
  rewrite (text_strlen _ _ Ht). cbn [mbind option_bind]. split; [|split].
  - intros Hc reversed Hr. unfold g_pattern_match, wrap. rewrite Z.mod_small by (split; [apply zlen_nonneg|done]). split; by apply Hm.
  - intros Hc. by apply Hm.
  - intros Hc. unfold xpattern_spec_match. destruct Hs as [_ _ _ _ _ Hmax]. rewrite (proj2 (Z.ltb_lt (max_length spec) _)); [by rewrite orb_true_r|].
    rewrite Hmax. pose proof (most_of_range (encs ps)). destruct (0 <=? _); unfold G_MAXUINT; lia.
Qed.

(** C10: matching is what a pattern means. For every pattern and every text below
    4 GiB, whatever kind of match the compiler chooses and whether the caller has
    the reversed text or not, the answer is whether the text consists of the
    characters of the pattern, with any characters for [*] and one for [?]; a
    copied spec answers the same. A longer text is never matched, not even
    by [*]. *)
Theorem pattern_match_correct fresh source ps :
  text source ps -> zlen (encs ps) < 2 ^ 29 - 1 -> (forall n, 0 <= n -> zlen (fresh n) = n) ->
  exists spec copy, xpattern_spec_new fresh source = Some spec /\ answers spec ps /\
    xpattern_spec_copy spec = Some copy /\ answers copy ps /\
    forall string cs, text string cs -> zlen (encs cs) < 2 ^ 32 -> g_pattern_match_simple fresh source string = Some (bool_decide (glob ps cs)).
Proof.
  intros Hs Hl Hf. pose proof (text_is_chars _ _ Hs) as Hps. destruct (xpattern_spec_new_ok fresh source ps Hs Hl Hf) as (spec & E & Hspec).
  destruct (spec_copy_ok ps spec Hps Hspec) as (copy & Ec & Hcopy). exists spec, copy.
  split; [done|]. split; [apply spec_answers; [done|lia|done]|]. split; [done|]. split; [apply spec_answers; [done|lia|done]|].
  intros string cs Ht Hc. unfold g_pattern_match_simple. rewrite E, (text_strlen _ _ Ht). cbn [mbind option_bind].
  apply (proj1 (spec_answers ps spec Hps ltac:(lia) Hspec string cs Ht) Hc). intros r. discriminate 1.
Qed.

(** The pattern ["*?é"] and the text ["aéé"]. *)
Definition example_pattern : list Z := [42; 63; 0xc3; 0xa9; 0].
Definition example_text : list Z := [97; 0xc3; 0xa9; 0xc3; 0xa9; 0].
Lemma pattern_match_correct_witness :
  g_pattern_match_simple (fun n => replicate (Z.to_nat n) 1) example_pattern example_text = Some true.
Proof.
  destruct (pattern_match_correct (fun n => replicate (Z.to_nat n) 1) example_pattern [42; 63; 0xe9]) as (spec & copy & _ & _ & _ & _ & H).
  - split; [by vm_compute|]. repeat (apply Forall_cons_2; [unfold text_char, scalar; lia|]). apply Forall_nil_2.
  - by vm_compute.
  - intros n Hn. unfold zlen. rewrite length_replicate. lia.
  - refine (eq_trans (H example_text [97; 0xe9; 0xe9] _ _) _).
    + split; [by vm_compute|]. repeat (apply Forall_cons_2; [unfold text_char, scalar; lia|]). apply Forall_nil_2.
    + by vm_compute.
    + rewrite bool_decide_eq_true_2; [reflexivity|]. apply (glob_star _ [97]). apply glob_joker. apply glob_literal; [done..|]. apply glob_end.
Defined.

(** C22: equal specs are exactly those that match the same texts: comparing two
    compiled patterns answers whether there is no text that one of them matches
    and the other does not, if some character occurs in neither. *)
Theorem pattern_equal_decides fresh source1 ps spec1 source2 qs spec2 z :
  text source1 ps -> text source2 qs -> zlen (encs ps) < 2 ^ 29 - 1 -> zlen (encs qs) < 2 ^ 29 - 1 -> (forall n, 0 <= n -> zlen (fresh n) = n) ->
  text_char z -> z <> star -> z <> joker -> z ∉ ps -> z ∉ qs ->
  xpattern_spec_new fresh source1 = Some spec1 -> xpattern_spec_new fresh source2 = Some spec2 ->
  exists equal, xpattern_spec_equal spec1 spec2 = Some equal /\
    (equal = true <-> forall cs, Forall text_char cs -> glob ps cs <-> glob qs cs).
Proof.
  intros H1 H2 L1 L2 Hf Hz Hzs Hzj Hp Hq E1 E2. pose proof (text_is_chars _ _ H1) as C1. pose proof (text_is_chars _ _ H2) as C2.
  destruct (xpattern_spec_new_ok fresh source1 ps H1 L1 Hf) as (s1 & F1 & S1). destruct (xpattern_spec_new_ok fresh source2 qs H2 L2 Hf) as (s2 & F2 & S2).
  assert (s1 = spec1) as -> by congruence. assert (s2 = spec2) as -> by congruence.
  destruct (spec_equal_ok ps qs spec1 spec2 C1 C2 S1 S2) as (b & Eb & Hb). exists b. split; [done|]. rewrite Hb. split.
  - intros E cs _. rewrite <- (canon_same ps cs), <- (canon_same qs cs). by rewrite E.
  - intros H. apply (canon_complete text_char z); try done; [apply H1|apply H2].
Qed.

Lemma pattern_equal_decides_witness :
  exists spec1 spec2, xpattern_spec_new (fun n => replicate (Z.to_nat n) 1) [63; 42; 97; 0] = Some spec1 /\
    xpattern_spec_new (fun n => replicate (Z.to_nat n) 1) [42; 42; 63; 97; 0] = Some spec2 /\ xpattern_spec_equal spec1 spec2 = Some true /\
    forall cs, Forall text_char cs -> glob [63; 42; 97] cs <-> glob [42; 42; 63; 97] cs.
Proof.
  eexists _, _. split; [by vm_compute|]. split; [by vm_compute|]. split; [by vm_compute|].
  edestruct (pattern_equal_decides (fun n => replicate (Z.to_nat n) 1) [63; 42; 97; 0] [63; 42; 97]) with (source2 := [42; 42; 63; 97; 0]) (qs := [42; 42; 63; 97]) (z := 98)
    as (equal & E & H).
  - split; [by vm_compute|]. repeat (apply Forall_cons_2; [unfold text_char, scalar; lia|]). apply Forall_nil_2.
  - split; [by vm_compute|]. repeat (apply Forall_cons_2; [unfold text_char, scalar; lia|]). apply Forall_nil_2.
  - by vm_compute.
  - by vm_compute.
  - intros n Hn. unfold zlen. rewrite length_replicate. lia.
  - unfold text_char, scalar. lia.
  - done.
  - done.
  - rewrite !not_elem_of_cons. split_and!; try done. apply not_elem_of_nil.
  - rewrite !not_elem_of_cons. split_and!; try done. apply not_elem_of_nil.
  - by vm_compute.
  - by vm_compute.
  - apply H. vm_compute in E. congruence.
Defined.
