(* ===== verification/Sort.v ===== *)
(** * The merge sort: src/glib/gqsort.c

    An array is a list of cells and an element is a block of [s] of them: the
    cells are bytes, or the pointers that the indirect sort of large elements
    arranges first. A pointer into the array is an offset from its start.

    The comparison function is a parameter that sees the two blocks; so are the
    address of the array, which decides how elements are copied, and the
    contents of the temporary memory. Reading or writing outside an array is
    [None]. *)

From S2P Require Import Prelude.
Local Open Scope Z_scope.
Local Open Scope xpl_scope.

(** [memcpy (dst + d, src + off, n)]. *)
Definition copy {A} (dst : list A) (d : Z) (src : list A) (off n : Z) : option (list A) :=
  cells ← cells_at src off n; write_at dst d cells.

(** [struct msort_param], less the comparison function and the temporary array. *)
Record msort_param := MsortParam { param_s : Z; param_var : Z }.

Section msort.
Context {A : Type}.

(** The copies of one element, by [var]: a machine word of four or eight bytes,
    words of eight bytes up to the next element, a pointer, or [memcpy]. *)
Fixpoint copy_words (fuel : nat) (dst : list A) (d : Z) (src : list A) (off stop : Z) :
    option (list A) :=
  if stop <=? d then Some dst
  else
    match fuel with
    | O => None
    | S fuel => dst ← copy dst d src off 8; copy_words fuel dst (d + 8) src (off + 8) stop
    end.

(** How far [tmp] and the source move, in cells. *)
Definition element_width (p : msort_param) : Z :=
  if param_var p =? 0 then 4 else if param_var p =? 1 then 8
  else if param_var p =? 3 then 1 else param_s p.

Definition copy_element (p : msort_param) (dst : list A) (d : Z) (src : list A) (off : Z) :
    option (list A) :=
  if param_var p =? 2 then
    copy_words (Z.to_nat (param_s p)) dst d src off (d + param_s p)
  else copy dst d src off (element_width p).

(** [while (n1 > 0 && n2 > 0)]: the temporary array, the place in it and in the
    first half, and what is left of both. *)
Fixpoint merge_loop (fuel : nat) (p : msort_param) (cmp : list A -> list A -> option Z)
    (b t : list A) (b1 b2 tmp n1 n2 : Z) : option (list A * Z * Z * Z * Z) :=
  if (0 <? n1) && (0 <? n2) then
    match fuel with
    | O => None
    | S fuel =>
        x ← cells_at b b1 (param_s p);
        y ← cells_at b b2 (param_s p);
        let w := element_width p in
        order ← cmp x y;
        if order <=? 0 then
          t ← copy_element p t tmp b b1;
          merge_loop fuel p cmp b t (b1 + w) b2 (tmp + w) (n1 - 1) n2
        else
          t ← copy_element p t tmp b b2;
          merge_loop fuel p cmp b t b1 (b2 + w) (tmp + w) n1 (n2 - 1)
    end
  else Some (t, b1, tmp, n1, n2).

(** The array at [off] and the temporary array, before and after. *)
Fixpoint msort_with_tmp (fuel : nat) (p : msort_param) (cmp : list A -> list A -> option Z)
    (b t : list A) (off n : Z) : option (list A * list A) :=
  if n <=? 1 then Some (b, t)
  else
    match fuel with
    | O => None
    | S fuel =>
        let n1 := n `quot` 2 in
        let n2 := n - n1 in
        let b1 := off in
        let b2 := off + n1 * param_s p in
        '(b, t) ← msort_with_tmp fuel p cmp b t b1 n1;
        '(b, t) ← msort_with_tmp fuel p cmp b t b2 n2;
        '(t, b1, tmp, n1, n2) ← merge_loop (Z.to_nat n) p cmp b t b1 b2 0 n1 n2;
        t ← (if 0 <? n1 then copy t tmp b b1 (n1 * param_s p) else Some t);
        b ← copy b off t 0 ((n - n2) * param_s p);
        Some (b, t)
    end.
End msort.

(** ** Indirect sorting *)

(** [while ((void * ) t < tmp_storage)]: the addresses of the elements. *)
Fixpoint addresses (n : nat) (ip s : Z) : list Z :=
  match n with
  | O => []
  | S n => ip :: addresses n (ip + s) s
  end.

(** [do ... while (kp != ip)]: the array, the pointers, and the last place. *)
Fixpoint chase (fuel : nat) (s ip : Z) (b tp : list Z) (j jp kp : Z) :
    option (list Z * list Z * Z * Z) :=
  match fuel with
  | O => None
  | S fuel =>
      let k := kp `quot` s in
      tp ← wr tp j jp;
      b ← copy b jp b kp s;
      let j := k in
      let jp := kp in
      kp ← rd tp k;
      if negb (kp =? ip) then chase fuel s ip b tp j jp kp
      else Some (b, tp, j, jp)
  end.

(** [for (i = 0, ip = (char * ) b; i < n; i++, ip += s)] *)
Fixpoint place_loop (n : nat) (s i ip : Z) (b tp : list Z) : option (list Z * list Z) :=
  match n with
  | O => Some (b, tp)
  | S n =>
      kp ← rd tp i;
      '(b, tp) ←
        (if negb (kp =? ip) then
           tmp_storage ← cells_at b ip s;
           '(b, tp, j, jp) ← chase (length tp) s ip b tp i ip kp;
           tp ← wr tp j jp;
           b ← write_at b jp tmp_storage;
           Some (b, tp)
         else Some (b, tp));
      place_loop n s (i + 1) (ip + s) b tp
  end.

(** ** The whole sort *)

Section msort_r.
(** What the temporary memory holds. *)
Variable junk : nat -> Z.
(** The address of the array. *)
Variable address : Z.
Variable cmp : list Z -> list Z -> Z.

Definition junk_cells (n : Z) : list Z := map junk (seq 0 (Z.to_nat n)).

(** Comparing two elements, and those that two pointers lead to. *)
Definition cmp_direct (x y : list Z) : option Z := Some (cmp x y).
Definition cmp_pointed (b : list Z) (s : Z) (x y : list Z) : option Z :=
  match x, y with
  | [p], [q] => x ← cells_at b p s; y ← cells_at b q s; Some (cmp x y)
  | _, _ => None
  end.

Definition choose_var (s : Z) : Z :=
  if (s & 3 =? 0) && (address `rem` 4 =? 0) then
    if s =? 4 then 0
    else if (s =? 8) && (address `rem` 8 =? 0) then 1
    else if (s & 7 =? 0) && (address `rem` 8 =? 0) then 2
    else 4
  else 4.

Definition msort_r (b : list Z) (n s : Z) : option (list Z) :=
  if 32 <? s then
    let tp := addresses (Z.to_nat n) 0 s in
    '(tp, _) ← msort_with_tmp (Z.to_nat n) (MsortParam 1 3) (cmp_pointed b s) tp (junk_cells n) 0 n;
    '(b, _) ← place_loop (Z.to_nat n) s 0 0 b tp;
    Some b
  else
    '(b, _) ← msort_with_tmp (Z.to_nat n) (MsortParam s (choose_var s)) cmp_direct b (junk_cells (n * s)) 0 n;
    Some b.

(** [total_elems] is an [int], converted to [size_t]. *)
Definition g_qsort_with_data (pbase : list Z) (total_elems size : Z) : option (list Z) :=
  msort_r pbase (u64 total_elems) size.
End msort_r.
