(* ===== verification/SortMerge.v ===== *)
(** * Merging, on lists

    What merging two sorted lists gives, whatever the elements are: the same
    elements, in order if the comparison is an order on them, and with equal
    elements in the order they had. *)

From S2P Require Import Prelude.
From stdpp Require Import sorting.
Local Open Scope Z_scope.

Section merging.
Context {E : Type} (cmp : E -> E -> Z).

(** [if (cmp (b1, b2) <= 0)] take the first one. *)
Fixpoint merged (l1 : list E) : list E -> list E :=
  fix merge_into (l2 : list E) : list E :=
    match l1, l2 with
    | [], _ => l2
    | _, [] => l1
    | x :: l1', y :: l2' => if cmp x y <=? 0 then x :: merged l1' l2 else y :: merge_into l2'
    end.

Lemma merge_nil_l l2 : merged [] l2 = l2.
Proof. by destruct l2. Qed.
Lemma merge_nil_r l1 : merged l1 [] = l1.
Proof. by destruct l1. Qed.
Lemma merge_cons x y l1 l2 :
  merged (x :: l1) (y :: l2) =
  if cmp x y <=? 0 then x :: merged l1 (y :: l2) else y :: merged (x :: l1) l2.
Proof. done. Qed.

(** Induction along a merge. *)
Lemma merge_ind (P : list E -> list E -> Prop) :
  (forall l2, P [] l2) -> (forall l1, P l1 []) ->
  (forall x y l1 l2, cmp x y <= 0 -> P l1 (y :: l2) -> P (x :: l1) (y :: l2)) ->
  (forall x y l1 l2, 0 < cmp x y -> P (x :: l1) l2 -> P (x :: l1) (y :: l2)) ->
  forall l1 l2, P l1 l2.
Proof.
  intros H1 H2 H3 H4. induction l1 as [|x l1 IH1]; [done|].
  induction l2 as [|y l2 IH2]; [done|].
  destruct (Z.le_gt_cases (cmp x y) 0); auto.
Qed.

Lemma merge_perm l1 l2 : merged l1 l2 ≡ₚ l1 ++ l2.
Proof.
  revert l1 l2. apply (merge_ind (fun l1 l2 => merged l1 l2 ≡ₚ l1 ++ l2));
    [intros l2|intros l1|intros x y l1 l2 Hle IH|intros x y l1 l2 Hlt IH].
  - by rewrite merge_nil_l.
  - by rewrite merge_nil_r, app_nil_r.
  - rewrite merge_cons, (proj2 (Z.leb_le _ _)) by done. by rewrite IH.
  - rewrite merge_cons, (proj2 (Z.leb_gt _ _)) by done. rewrite IH. apply Permutation_middle.
Qed.

(** The comparison is an order, on the elements that satisfy [D]. *)
Record consistent (D : E -> Prop) : Prop := {
  consistent_refl : forall x, D x -> cmp x x = 0;
  consistent_sym : forall x y, D x -> D y -> (cmp x y < 0 <-> 0 < cmp y x);
  consistent_trans : forall x y z, D x -> D y -> D z -> cmp x y <= 0 -> cmp y z <= 0 -> cmp x z <= 0;
}.

Definition in_order : list E -> Prop := StronglySorted (fun x y => cmp x y <= 0).
(** The elements that compare equal to [x], in their order. *)
Definition equals (x : E) (l : list E) : list E := filter (fun y => cmp x y = 0) l.

Section ordered.
Context (D : E -> Prop) (Hc : consistent D).

Lemma above_merge x l1 l2 :
  Forall (fun y => cmp x y <= 0) l1 -> Forall (fun y => cmp x y <= 0) l2 ->
  Forall (fun y => cmp x y <= 0) (merged l1 l2).
Proof. intros H1 H2. rewrite merge_perm. by apply Forall_app. Qed.

Lemma above_trans x y l :
  D x -> D y -> Forall D l -> cmp x y <= 0 -> Forall (fun z => cmp y z <= 0) l ->
  Forall (fun z => cmp x z <= 0) l.
Proof.
  intros Hx Hy Hl Hxy Hyz. rewrite Forall_forall in Hl |- *. rewrite Forall_forall in Hyz.
  intros z Hz. apply (consistent_trans D Hc x y z); auto.
Qed.

Lemma merge_in_order l1 l2 :
  Forall D l1 -> Forall D l2 -> in_order l1 -> in_order l2 -> in_order (merged l1 l2).
Proof.
  revert l1 l2. apply (merge_ind (fun l1 l2 => Forall D l1 -> Forall D l2 -> in_order l1 -> in_order l2 -> in_order (merged l1 l2)));
    [intros l2 D1 D2 S1 S2|intros l1 D1 D2 S1 S2|intros x y l1 l2 Hle IH D1 D2 S1 S2|intros x y l1 l2 Hlt IH D1 D2 S1 S2].
  - by rewrite merge_nil_l.
  - by rewrite merge_nil_r.
  - rewrite merge_cons, (proj2 (Z.leb_le _ _)) by done.
    apply Forall_cons in D1 as [Dx D1]. pose proof D2 as [Dy D2']%Forall_cons.
    apply StronglySorted_inv in S1 as [S1 H1]. pose proof S2 as [S2' H2]%StronglySorted_inv.
    constructor; [by apply IH|]. apply above_merge; [done|]. apply Forall_cons. split; [done|].
    by apply (above_trans x y).
  - rewrite merge_cons, (proj2 (Z.leb_gt _ _)) by done.
    apply Forall_cons in D2 as [Dy D2]. pose proof D1 as [Dx D1']%Forall_cons.
    apply StronglySorted_inv in S2 as [S2 H2]. pose proof S1 as [S1' H1]%StronglySorted_inv.
    assert (cmp y x <= 0) as Hyx by (apply Z.lt_le_incl, (consistent_sym D Hc); done).
    constructor; [by apply IH|]. apply above_merge; [|done]. apply Forall_cons. split; [done|].
    by apply (above_trans y x).
Qed.

(** Nothing behind [x] equals an element before it. *)
Lemma equals_above x y l :
  D x -> D y -> Forall D l -> 0 < cmp x y -> Forall (fun z => cmp x z <= 0) l -> equals y (x :: l) = [].
Proof.
  intros Hx Hy Hl Hlt Ha. apply filter_no. apply Forall_cons. split.
  - intros E0. apply (consistent_sym D Hc) in Hlt; [|done..]. lia.
  - rewrite Forall_forall in Hl, Ha |- *. intros z Hz E0.
    assert (cmp z y <= 0).
    { destruct (Z.le_gt_cases (cmp z y) 0); [done|]. apply (consistent_sym D Hc) in H; [lia|auto..]. }
    pose proof (consistent_trans D Hc x z y Hx (Hl z Hz) Hy (Ha z Hz) H). lia.
Qed.

(** Equal elements keep their order: those of the first list come first. *)
Lemma merge_stable z l1 l2 :
  D z -> Forall D l1 -> Forall D l2 -> in_order l1 -> in_order l2 ->
  equals z (merged l1 l2) = equals z l1 ++ equals z l2.
Proof.
  intros Dz. revert l1 l2. apply (merge_ind (fun l1 l2 => Forall D l1 -> Forall D l2 -> in_order l1 -> in_order l2 ->
    equals z (merged l1 l2) = equals z l1 ++ equals z l2));
    [intros l2 D1 D2 S1 S2|intros l1 D1 D2 S1 S2|intros x y l1 l2 Hle IH D1 D2 S1 S2|intros x y l1 l2 Hlt IH D1 D2 S1 S2].
  - by rewrite merge_nil_l.
  - rewrite merge_nil_r. cbn. by rewrite app_nil_r.
  - rewrite merge_cons, (proj2 (Z.leb_le _ _)) by done.
    apply Forall_cons in D1 as [Dx D1]. apply StronglySorted_inv in S1 as [S1 H1].
    unfold equals in *. rewrite !(filter_cons _ x). rewrite IH by done. by case_decide.
  - rewrite merge_cons, (proj2 (Z.leb_gt _ _)) by done.
    apply Forall_cons in D2 as [Dy D2]. pose proof D1 as [Dx D1']%Forall_cons.
    apply StronglySorted_inv in S2 as [S2 H2]. pose proof S1 as [S1' H1]%StronglySorted_inv.
    unfold equals in *. rewrite (filter_cons _ y (merged _ _)), IH, (filter_cons _ y l2) by done.
    case_decide as E0; [|done].
    (* [y] equals [z], so nothing in the first list does *)
    assert (filter (fun u => cmp z u = 0) (x :: l1) = []) as ->; [|done].
    apply (equals_above x z); try done.
    destruct (Z.lt_ge_cases 0 (cmp x z)); [done|].
    assert (cmp z y <= 0) by lia. pose proof (consistent_trans D Hc x z y Dx Dz Dy). lia.
Qed.
End ordered.

(** What a stable sort does to a list. *)
Definition sorts (l l' : list E) : Prop :=
  l' ≡ₚ l /\
  forall D, consistent D -> Forall D l ->
    in_order l' /\ forall x, D x -> equals x l' = equals x l.

Lemma sorts_refl l : (length l <= 1)%nat -> sorts l l.
Proof.
  intros Hl. split; [done|]. intros D _ _. split; [|done].
  destruct l as [|x [|]]; cbn in Hl; [constructor|repeat constructor|lia].
Qed.

Lemma sorts_merge l1 l2 l1' l2' : sorts l1 l1' -> sorts l2 l2' -> sorts (l1 ++ l2) (merged l1' l2').
Proof.
  intros [P1 S1] [P2 S2]. split; [by rewrite merge_perm, P1, P2|].
  intros D Hc [D1 D2]%Forall_app. destruct (S1 D Hc D1) as [O1 E1], (S2 D Hc D2) as [O2 E2].
  assert (Forall D l1' /\ Forall D l2') as [D1' D2'] by (rewrite P1, P2; done).
  split; [by apply (merge_in_order D)|]. intros x Hx.
  rewrite (merge_stable D) by done. rewrite E1, E2 by done. unfold equals. by rewrite filter_app.
Qed.
End merging.

Lemma filter_ext_Forall {A} (P Q : A -> Prop) `{!forall x, Decision (P x), !forall x, Decision (Q x)} l :
  Forall (fun x => P x <-> Q x) l -> filter P l = filter Q l.
Proof.
  induction 1 as [|x l Hx _ IH]; [done|]. rewrite !filter_cons, IH. repeat case_decide; tauto.
Qed.

Lemma filter_map {A B} (f : A -> B) (P : B -> Prop) `{!forall x, Decision (P x)} l :
  filter P (map f l) = map f (filter (fun x => P (f x)) l).
Proof.
  induction l as [|x l IH]; [done|]. cbn [map]. rewrite !filter_cons, IH.
  by destruct (decide (P (f x))).
Qed.

(** Elements that equal each other equal the same elements. *)
Lemma equals_ext {E} (cmp : E -> E -> Z) D x y l :
  consistent cmp D -> D x -> D y -> Forall D l -> cmp x y = 0 -> equals cmp x l = equals cmp y l.
Proof.
  intros Hc Hx Hy Hl Hxy. apply filter_ext_Forall. eapply Forall_impl; [exact Hl|]. intros z Hz.
  assert (forall u v, D u -> D v -> cmp u v = 0 -> cmp v u = 0) as Hs.
  { intros u v Hu Hv E0. destruct (Z.lt_trichotomy (cmp v u) 0) as [H|[H|H]]; [|done|].
    - apply (consistent_sym cmp D Hc) in H; [lia|done..].
    - apply (consistent_sym cmp D Hc) in H; [lia|done..]. }
  assert (forall u v, D u -> D v -> cmp u v = 0 -> cmp u z = 0 -> cmp v z = 0) as Ht.
  { intros u v Hu Hv E0 E1. pose proof (Hs u v Hu Hv E0). pose proof (Hs u z Hu Hz E1).
    pose proof (consistent_trans cmp D Hc v u z Hv Hu Hz).
    pose proof (consistent_trans cmp D Hc z u v Hz Hu Hv).
    destruct (Z.lt_trichotomy (cmp v z) 0) as [H'|[H'|H']]; [|done|].
    - apply (consistent_sym cmp D Hc) in H'; [lia|done..].
    - lia. }
  split; [by apply (Ht x y)|by apply (Ht y x); auto].
Qed.

(** Sorting the keys of elements sorts the elements. *)
Lemma sorts_map {K E} (f : K -> E) (cmp : E -> E -> Z) l l' :
  sorts (fun p q => cmp (f p) (f q)) l l' -> sorts cmp (map f l) (map f l').
Proof.
  intros [P S]. split; [by rewrite P|]. intros D Hc Hl.
  destruct (S (fun p => D (f p))) as [O Heq].
  - destruct Hc as [H1 H2 H3]. constructor; eauto.
  - exact (proj1 (Forall_map f D l) Hl).
  - split.
    + unfold in_order in *.
      exact (StronglySorted_fmap f (fun p q => cmp (f p) (f q) <= 0) _ l' (fun _ _ H => H) O).
    + intros x Hx.
      assert (Forall D (map f l')) as Hl' by (by rewrite P).
      assert (forall k, equals cmp x (map f k) = map f (filter (fun q => cmp x (f q) = 0) k)) as Hf.
      { intros k. unfold equals. apply filter_map. }
      destruct (equals cmp x (map f l')) as [|y k] eqn:Ex.
      * rewrite Hf in Ex |- *. apply map_eq_nil in Ex.
        assert (filter (fun q => cmp x (f q) = 0) l ≡ₚ []) as ->%Permutation_nil_r by (by rewrite <- Ex, P).
        done.
      * assert (y ∈ equals cmp x (map f l')) as Hy by (rewrite Ex; left).
        apply list_elem_of_filter in Hy as [Hxy Hy]. pose proof Hy as (p & -> & Hp)%list_elem_of_fmap.
        assert (D (f p)) as Hfp by (rewrite Forall_forall in Hl'; by apply Hl').
        rewrite <- Ex, !(equals_ext cmp D x (f p)) by done.
        pose proof (Heq p Hfp) as Ep. unfold equals in *.
        assert (forall k, filter (fun u => cmp (f p) u = 0) (map f k) =
          map f (filter (fun q => cmp (f p) (f q) = 0) k)) as Hg.
        { intros k'. apply filter_map. }
        by rewrite !Hg, Ep.
Qed.

(** There is only one way to sort a list stably. *)
Lemma in_order_unique {E} (cmp : E -> E -> Z) D l1 l2 :
  consistent cmp D -> Forall D l1 -> l1 ≡ₚ l2 -> in_order cmp l1 -> in_order cmp l2 ->
  (forall x, D x -> equals cmp x l1 = equals cmp x l2) -> l1 = l2.
Proof.
  intros Hc. revert l2. induction l1 as [|x l1 IH]; intros l2 Hl HP O1 O2 Heq.
  - by apply Permutation_nil_l in HP.
  - destruct l2 as [|y l2]; [by apply Permutation_nil_r in HP|].
    assert (Forall D (y :: l2)) as Hl2 by (by rewrite <- HP).
    apply Forall_cons in Hl as [Hx Hl], Hl2 as [Hy Hl2].
    apply StronglySorted_inv in O1 as [O1 A1]. apply StronglySorted_inv in O2 as [O2 A2].
    assert (forall u k, D u -> Forall (fun z => cmp u z <= 0) k -> Forall (fun z => cmp u z <= 0) (u :: k)) as Hself.
    { intros u k Hu Hk. constructor; [|done]. by rewrite (consistent_refl cmp D Hc). }
    assert (cmp x y <= 0) as Hxy.
    { assert (y ∈ x :: l1) as Hin by (rewrite HP; left).
      pose proof (Hself x l1 Hx A1) as Hall. rewrite Forall_forall in Hall. by apply Hall. }
    assert (cmp y x <= 0) as Hyx.
    { assert (x ∈ y :: l2) as Hin by (rewrite <- HP; left).
      pose proof (Hself y l2 Hy A2) as Hall. rewrite Forall_forall in Hall. by apply Hall. }
    assert (cmp x y = 0) as H0.
    { destruct (Z.lt_ge_cases (cmp x y) 0) as [Hlt|]; [|lia].
      apply (consistent_sym cmp D Hc) in Hlt; [lia|done..]. }
    pose proof (Heq x Hx) as Hxs. unfold equals in Hxs. rewrite !filter_cons in Hxs.
    rewrite decide_True in Hxs by (by rewrite (consistent_refl cmp D Hc)). rewrite decide_True in Hxs by done.
    injection Hxs as <- _. f_equal. apply IH; try done.
    + by apply Permutation_cons_inv in HP.
    + intros z Hz. specialize (Heq z Hz). unfold equals in *. rewrite !filter_cons in Heq.
      case_decide; [by injection Heq|done].
Qed.

Lemma sorts_unique {E} (cmp : E -> E -> Z) D l l1 l2 :
  consistent cmp D -> Forall D l -> sorts cmp l l1 -> sorts cmp l l2 -> l1 = l2.
Proof.
  intros Hc Hl [P1 S1] [P2 S2]. destruct (S1 D Hc Hl) as [O1 E1], (S2 D Hc Hl) as [O2 E2].
  apply (in_order_unique cmp D); try done.
  - by rewrite P1.
  - by rewrite P1, P2.
  - intros x Hx. by rewrite E1, E2.
Qed.
