(* ===== verification/SortCorrect.v ===== *)
(** * What gqsort.c promises

    The merge sort on cells sorts the elements they form; the indirect sort
    moves every element to its place along the cycles of the permutation. *)

From S2P Require Import Prelude.
From S2P Require Import Sort.
From S2P Require Import SortMerge.
From stdpp Require Import sorting gmap.
Local Open Scope Z_scope.

(** ** Cells *)

Section cells.
Context {A : Type}.
Implicit Types (b t u l : list A).

Lemma copy_ok src off l m u :
  holds src off l -> zlen l <= zlen u ->
  copy (m ++ u) (zlen m) src off (zlen l) = Some (m ++ l ++ drop (length l) u).
Proof.
  intros Hs Hl. unfold copy. rewrite (holds_block _ _ _ Hs). cbn [mbind option_bind].
  apply write_at_app. unfold zlen in Hl. lia.
Qed.

Lemma copy_words_ok fuel src off l m u (k : nat) :
  holds src off l -> zlen l <= zlen u -> zlen l = 8 * Z.of_nat k -> (k <= fuel)%nat ->
  copy_words fuel (m ++ u) (zlen m) src off (zlen m + zlen l) = Some (m ++ l ++ drop (length l) u).
Proof.
  revert off l m u k. induction fuel as [|fuel IH]; intros off l m u k Hs Hu Hk Hf; cbn [copy_words].
  - destruct l; [|rewrite zlen_cons in Hk; pose proof (zlen_nonneg l); lia].
    change (@zlen A []) with 0. by rewrite (proj2 (Z.leb_le _ _)) by lia.
  - destruct (Z.leb_spec (zlen m + zlen l) (zlen m)).
    { assert (l = []) as ->; [|done]. destruct l; [done|]. rewrite zlen_cons in *. pose proof (zlen_nonneg l). lia. }
    assert (exists w l', l = w ++ l' /\ zlen w = 8) as (w & l' & -> & Hw).
    { exists (take 8 l), (drop 8 l). rewrite take_drop. split; [done|].
      unfold zlen in *. rewrite length_take. lia. }
    rewrite zlen_app in *. pose proof (zlen_nonneg l'). apply holds_app in Hs as [Hs1 Hs2].
    rewrite <- Hw at 1. rewrite copy_ok by (done || lia). cbn [mbind option_bind].
    rewrite app_assoc. replace (zlen m + 8) with (zlen (m ++ w)) by (rewrite zlen_app; lia).
    replace (zlen m + (zlen w + zlen l')) with (zlen (m ++ w) + zlen l') by (rewrite zlen_app; lia).
    rewrite <- Hw, (IH _ l' _ _ (k - 1)%nat); try done; [|unfold zlen in *; rewrite length_drop; lia|lia|lia].
    by rewrite <- !app_assoc, drop_drop, length_app.
Qed.

(** The widths that go with the ways of copying. *)
Definition param_ok (p : msort_param) : Prop :=
  0 <= param_s p /\
  (param_var p = 0 -> param_s p = 4) /\ (param_var p = 1 -> param_s p = 8) /\
  (param_var p = 2 -> (8 | param_s p)) /\ (param_var p = 3 -> param_s p = 1).

Lemma element_width_ok p : param_ok p -> element_width p = param_s p.
Proof.
  intros (_ & H0 & H1 & _ & H3). unfold element_width. zcases; symmetry; auto.
Qed.

Lemma copy_element_ok p src off l m u :
  param_ok p -> zlen l = param_s p -> holds src off l -> zlen l <= zlen u ->
  copy_element p (m ++ u) (zlen m) src off = Some (m ++ l ++ drop (length l) u).
Proof.
  intros Hp Hl Hs Hu. unfold copy_element. rewrite element_width_ok, <- Hl by done.
  destruct (Z.eqb_spec (param_var p) 2) as [Hv|]; [|by apply copy_ok].
  destruct Hp as (_ & _ & _ & H2 & _). destruct (H2 Hv) as [k Hk]. pose proof (zlen_nonneg l).
  apply (copy_words_ok _ _ _ _ _ _ (Z.to_nat k)); try done; lia.
Qed.

(** ** Elements *)

Context (s : Z).
Implicit Types (es r : list (list A)).
Definition sized es : Prop := Forall (fun e => zlen e = s) es.

Lemma zlen_concat es : sized es -> zlen (concat es) = zlen es * s.
Proof.
  induction 1 as [|e es He _ IH]; [done|]. cbn [concat]. rewrite zlen_app, zlen_cons. lia.
Qed.
Lemma length_concat es : sized es -> 0 <= s -> length (concat es) = Z.to_nat (zlen es * s).
Proof. intros H Hs. rewrite <- (zlen_concat es H). unfold zlen. by rewrite Nat2Z.id. Qed.
Lemma sized_app es1 es2 : sized (es1 ++ es2) <-> sized es1 /\ sized es2.
Proof. apply Forall_app. Qed.

(** Dropping as many cells as some elements have. *)
Lemma drop_elements es1 es2 l : sized es1 -> sized es2 -> length es1 = length es2 ->
  drop (length (concat es1)) (concat es2 ++ l) = l.
Proof.
  intros H1 H2 E. replace (length (concat es1)) with (length (concat es2)); [apply drop_app_length|].
  pose proof (zlen_concat es1 H1) as Z1. pose proof (zlen_concat es2 H2) as Z2.
  unfold zlen in Z1, Z2. rewrite E in Z1. lia.
Qed.

Section sorting.
Context (p : msort_param) (cmp : list A -> list A -> option Z) (c : list A -> list A -> Z).
Context (Hp : param_ok p) (Hs : param_s p = s).
(** The elements the comparison knows. *)
Context (known : list A -> Prop).
Context (Hcmp : forall x y, known x -> known y -> cmp x y = Some (c x y)).

Lemma merge_loop_ok fuel b m u off1 off2 r1 r2 :
  (length r1 + length r2 <= fuel)%nat ->
  sized r1 -> sized r2 -> Forall known r1 -> Forall known r2 ->
  holds b off1 (concat r1) -> holds b off2 (concat r2) ->
  zlen (concat r1) + zlen (concat r2) <= zlen u ->
  exists m' d1 d2 r1' r2' u',
    merge_loop fuel p cmp b (m ++ u) off1 off2 (zlen m) (zlen r1) (zlen r2) =
      Some (m ++ concat m' ++ u', off1 + zlen (concat d1), zlen m + zlen (concat m'), zlen r1', zlen r2') /\
    r1 = d1 ++ r1' /\ r2 = d2 ++ r2' /\ m' ≡ₚ d1 ++ d2 /\
    merged c r1 r2 = m' ++ r1' ++ r2' /\ (r1' = [] \/ r2' = []) /\
    zlen u' + zlen (concat m') = zlen u.
Proof.
  revert m u off1 off2 r1 r2. induction fuel as [|fuel IH]; intros m u off1 off2 r1 r2 Hf Z1 Z2 K1 K2 B1 B2 Hu.
  all: assert (r1 = [] \/ r2 = [] -> exists m' d1 d2 r1' r2' u',
    Some (m ++ u, off1, zlen m, zlen r1, zlen r2) =
      Some (m ++ concat m' ++ u', off1 + zlen (concat d1), zlen m + zlen (concat m'), zlen r1', zlen r2') /\
    r1 = d1 ++ r1' /\ r2 = d2 ++ r2' /\ m' ≡ₚ d1 ++ d2 /\
    merged c r1 r2 = m' ++ r1' ++ r2' /\ (r1' = [] \/ r2' = []) /\
    zlen u' + zlen (concat m') = zlen u) as Hend by
    (intros Hr; exists [], [], [], r1, r2, u; cbn [concat app]; change (@zlen A []) with 0;
     rewrite !Z.add_0_r; split_and!; try done;
     destruct Hr as [-> | ->]; [apply merge_nil_l|rewrite app_nil_r; apply merge_nil_r]).
  all: destruct r1 as [|x r1]; [cbn [merge_loop]; change (@zlen (list A) []) with 0; auto|].
  all: destruct r2 as [|y r2];
    [cbn [merge_loop]; change (@zlen (list A) []) with 0; rewrite andb_false_r; auto|].
  { cbn in Hf. lia. }
  rewrite !zlen_cons. pose proof (zlen_nonneg r1). pose proof (zlen_nonneg r2). cbn [merge_loop].
  rewrite !(proj2 (Z.ltb_lt 0 _)) by lia. cbn [andb].
  pose proof Z1 as [Hx Z1']%Forall_cons. pose proof Z2 as [Hy Z2']%Forall_cons.
  pose proof K1 as [Kx K1']%Forall_cons. pose proof K2 as [Ky K2']%Forall_cons.
  pose proof B1 as [Bx B1']%holds_app. pose proof B2 as [By B2']%holds_app.
  pose proof (holds_block _ _ _ Bx) as Ex. pose proof (holds_block _ _ _ By) as Ey.
  rewrite Hx in Ex. rewrite Hy in Ey. rewrite Hs, Ex, Ey. cbn [mbind option_bind].
  rewrite Hcmp by done. cbn [mbind option_bind]. rewrite element_width_ok, Hs by done.
  cbn [concat] in Hu. rewrite !zlen_app in Hu. pose proof (zlen_nonneg (concat r1)). pose proof (zlen_nonneg (concat r2)).
  cbn [length] in Hf. pose proof (zlen_nonneg x). rewrite merge_cons. destruct (Z.leb_spec (c x y) 0).
  - rewrite (copy_element_ok p _ _ x) by (done || lia). cbn [mbind option_bind].
    destruct (IH (m ++ x) (drop (length x) u) (off1 + zlen x) off2 r1 (y :: r2))
      as (m' & d1 & d2 & r1' & r2' & u' & E & -> & -> & P & M & Hr & Hz); try done.
    { cbn [length]. lia. }
    { cbn [concat]. rewrite zlen_app. unfold zlen in *. rewrite length_drop. lia. }
    replace (1 + zlen (d1 ++ r1') - 1) with (zlen (d1 ++ r1')) by lia.
    replace (zlen m + s) with (zlen (m ++ x)) by (rewrite zlen_app; lia).
    replace (off1 + s) with (off1 + zlen x) by lia.
    rewrite app_assoc, <- zlen_cons with (x := y), E.
    exists (x :: m'), (x :: d1), d2, r1', r2', u'. cbn [concat app]. rewrite !zlen_app, <- !app_assoc.
    split_and!; try done; [by rewrite !Z.add_assoc|by rewrite P|by rewrite M|].
    unfold zlen in *. rewrite length_drop in Hz. lia.
  - rewrite (copy_element_ok p _ _ y) by (done || lia). cbn [mbind option_bind].
    destruct (IH (m ++ y) (drop (length y) u) off1 (off2 + zlen y) (x :: r1) r2)
      as (m' & d1 & d2 & r1' & r2' & u' & E & -> & -> & P & M & Hr & Hz); try done.
    { cbn [length]. lia. }
    { cbn [concat]. rewrite zlen_app. unfold zlen in *. rewrite length_drop. lia. }
    replace (1 + zlen (d2 ++ r2') - 1) with (zlen (d2 ++ r2')) by lia.
    replace (zlen m + s) with (zlen (m ++ y)) by (rewrite zlen_app; lia).
    replace (off2 + s) with (off2 + zlen y) by lia.
    rewrite app_assoc, <- zlen_cons with (x := x), E.
    exists (y :: m'), d1, (y :: d2), r1', r2', u'. cbn [concat app]. rewrite !zlen_app, <- !app_assoc.
    split_and!; try done; [by rewrite !Z.add_assoc|by rewrite P; apply Permutation_middle|by rewrite M|].
    unfold zlen in *. rewrite length_drop in Hz. lia.
Qed.

(** The merge of two halves, written back over them. *)
Lemma merge_back_ok pre (l1 l2 : list (list A)) post t :
  sized l1 -> sized l2 -> Forall known l1 -> Forall known l2 ->
  (zlen l1 + zlen l2) * s <= zlen t ->
  let b := pre ++ concat (l1 ++ l2) ++ post in
  exists t', zlen t' = zlen t /\
    ('(t, off1, tmp, n1, n2) ←
       merge_loop (Z.to_nat (zlen l1 + zlen l2)) p cmp b t (zlen pre) (zlen pre + zlen l1 * s) 0 (zlen l1) (zlen l2);
     t ← (if 0 <? n1 then copy t tmp b off1 (n1 * s) else Some t);
     b ← copy b (zlen pre) t 0 ((zlen l1 + zlen l2 - n2) * s);
     Some (b, t)) = Some (pre ++ concat (merged c l1 l2) ++ post, t').
Proof.
  intros Z1 Z2 K1 K2 Ht b.
  assert (holds b (zlen pre) (concat l1) /\ holds b (zlen pre + zlen l1 * s) (concat l2)) as [H1 H2].
  { rewrite <- (zlen_concat l1 Z1). apply holds_app. exists pre, post.
    by rewrite <- concat_app. }
  destruct (merge_loop_ok (Z.to_nat (zlen l1 + zlen l2)) b [] t (zlen pre) (zlen pre + zlen l1 * s) l1 l2)
    as (m' & d1 & d2 & r1 & r2 & u & E & -> & -> & P & M & Hr & Hz); try done.
  { unfold zlen. lia. }
  { rewrite !zlen_concat by done. lia. }
  change (@zlen A []) with 0 in E. cbn [app] in E. rewrite E. cbn [mbind option_bind]. rewrite Z.add_0_l.
  apply sized_app in Z1 as [Zd1 Zr1]. apply sized_app in Z2 as [Zd2 Zr2].
  assert (sized m') as Zm by (unfold sized; rewrite P; by apply Forall_app).
  (* what is left of the first half joins the merged elements *)
  assert (exists u', (if 0 <? zlen r1 then copy (concat m' ++ u) (zlen (concat m')) b (zlen pre + zlen (concat d1)) (zlen r1 * s)
      else Some (concat m' ++ u)) = Some (concat (m' ++ r1) ++ u') /\
    zlen u' + zlen (concat (m' ++ r1)) = zlen t) as (u' & -> & Hu').
  { rewrite concat_app in H1. apply holds_app in H1 as [_ H1].
    destruct (Z.ltb_spec 0 (zlen r1)) as [Hn|Hn].
    - pose proof (zlen_concat r1 Zr1) as Er. rewrite <- Er.
      assert (zlen (concat r1) <= zlen u) as Hle.
      { rewrite !zlen_app in Ht. rewrite (zlen_concat m' Zm) in Hz.
        assert (zlen m' = zlen d1 + zlen d2) as Em by (unfold zlen; rewrite P, length_app; lia).
        pose proof (zlen_nonneg r2). destruct Hp as [Hp0 _]. rewrite Hs in Hp0.
        rewrite Er. nia. }
      rewrite copy_ok by done. rewrite concat_app. exists (drop (length (concat r1)) u).
      rewrite <- app_assoc. split; [done|]. rewrite zlen_app. unfold zlen in *. rewrite length_drop. lia.
    - assert (r1 = []) as -> by (destruct r1; [done|rewrite zlen_cons in Hn; pose proof (zlen_nonneg r1); lia]).
      exists u. rewrite app_nil_r. split; [done|lia]. }
  cbn [mbind option_bind].
  assert ((zlen (d1 ++ r1) + zlen (d2 ++ r2) - zlen r2) * s = zlen (concat (m' ++ r1))) as ->.
  { rewrite zlen_concat by by apply sized_app. f_equal. rewrite !zlen_app.
    unfold zlen. rewrite P, length_app. lia. }
  subst b. rewrite copy_ok.
  - exists (concat (m' ++ r1) ++ u'). rewrite zlen_app. split; [lia|]. cbn [mbind option_bind].
    rewrite M, (app_assoc m' r1 r2), (concat_app (m' ++ r1) r2), <- (app_assoc _ (concat r2) post).
    assert (drop (length (concat (m' ++ r1))) (concat ((d1 ++ r1) ++ d2 ++ r2) ++ post) = concat r2 ++ post) as ->;
      [|done].
    rewrite (app_assoc (d1 ++ r1) d2 r2), (concat_app ((d1 ++ r1) ++ d2) r2), <- (app_assoc _ (concat r2) post).
    apply drop_elements.
    + by apply sized_app.
    + rewrite !sized_app. done.
    + rewrite !length_app, P, length_app. lia.
  - by exists [], u'.
  - rewrite zlen_app, !zlen_concat by (rewrite ?sized_app; done). rewrite !zlen_app.
    assert (zlen m' = zlen d1 + zlen d2) as -> by (unfold zlen; rewrite P, length_app; lia).
    pose proof (zlen_nonneg r2). pose proof (zlen_nonneg post). destruct Hp as [Hp0 _]. rewrite Hs in Hp0. nia.
Qed.

Lemma msort_ok fuel pre es post t :
  (length es <= fuel)%nat -> sized es -> Forall known es -> zlen es * s <= zlen t ->
  exists es' t',
    msort_with_tmp fuel p cmp (pre ++ concat es ++ post) t (zlen pre) (zlen es) =
      Some (pre ++ concat es' ++ post, t') /\ sorts c es es' /\ zlen t' = zlen t.
Proof.
  revert pre es post t. induction fuel as [|fuel IH]; intros pre es post t Hf Z K Ht.
  { destruct es; [|cbn in Hf; lia]. exists [], t. split_and!; [done| |done]. apply sorts_refl. cbn. lia. }
  cbn [msort_with_tmp]. destruct (Z.leb_spec (zlen es) 1) as [Hn|Hn].
  { exists es, t. split_and!; [done| |done]. apply sorts_refl. unfold zlen in Hn. lia. }
  assert (exists (l1 l2 : list (list A)), es = l1 ++ l2 /\ zlen l1 = zlen es `quot` 2 /\
    (length l1 <= fuel)%nat /\ (length l2 <= fuel)%nat) as (l1 & l2 & -> & El & Hf1 & Hf2).
  { rewrite Z.quot_div_nonneg by lia. exists (take (length es / 2) es), (drop (length es / 2) es).
    rewrite take_drop. assert (length es / 2 < length es)%nat by (apply Nat.div_lt; unfold zlen in Hn; lia).
    assert (0 < length es / 2)%nat by (apply Nat.div_str_pos; unfold zlen in Hn; lia).
    unfold zlen. rewrite length_take, length_drop.
    split_and!; [done| |lia|lia]. rewrite Nat.min_l by lia. by rewrite Nat2Z.inj_div. }
  rewrite <- El, Hs. rewrite zlen_app in *. replace (zlen l1 + zlen l2 - zlen l1) with (zlen l2) by lia.
  apply sized_app in Z as [Z1 Z2]. apply Forall_app in K as [K1 K2].
  destruct Hp as [Hp0 _]. rewrite Hs in Hp0. pose proof (zlen_nonneg l1). pose proof (zlen_nonneg l2).
  destruct (IH pre l1 (concat l2 ++ post) t) as (l1' & t1 & E1 & S1 & T1); try done; [nia|].
  rewrite concat_app, <- app_assoc, E1. cbn [mbind option_bind].
  pose proof (proj1 S1) as P1. assert (sized l1') as Z1' by (unfold sized; by rewrite P1).
  assert (zlen l1' = zlen l1) as L1 by (unfold zlen; by rewrite P1).
  destruct (IH (pre ++ concat l1') l2 post t1) as (l2' & t2 & E2 & S2 & T2); try done; [nia|].
  rewrite zlen_app, (zlen_concat l1' Z1'), L1, <- app_assoc in E2. rewrite E2. cbn [mbind option_bind].
  pose proof (proj1 S2) as P2. assert (sized l2') as Z2' by (unfold sized; by rewrite P2).
  assert (zlen l2' = zlen l2) as L2 by (unfold zlen; by rewrite P2).
  destruct (merge_back_ok pre l1' l2' post t2) as (t3 & T3 & E3); try done.
  { by rewrite P1. }
  { by rewrite P2. }
  { nia. }
  rewrite L1, L2, concat_app, <- app_assoc in E3. rewrite <- app_assoc, E3.
  exists (merged c l1' l2'), t3. split_and!; [done|by apply sorts_merge|lia].
Qed.
End sorting.
End cells.

(** ** The indirect sort *)

(** Where the element [k] stands. *)
Definition at_pointer (s : Z) (k : nat) : Z := Z.of_nat k * s.

Section elements.
Context {A : Type}.
Implicit Types (es : list (list A)).

Lemma element_at s es k e : sized s es -> es !! k = Some e -> holds (concat es) (Z.of_nat k * s) e.
Proof.
  intros Hz He. exists (concat (take k es)), (concat (drop (S k) es)). split.
  - rewrite <- (take_drop_middle es k e He) at 1. by rewrite concat_app.
  - rewrite (zlen_concat s) by by apply Forall_take.
    unfold zlen. apply lookup_lt_Some in He. rewrite length_take. lia.
Qed.

Lemma read_element s es k e :
  sized s es -> es !! k = Some e -> cells_at (concat es) (at_pointer s k) s = Some e.
Proof.
  intros Hz He. pose proof (Forall_lookup_1 _ _ _ _ Hz He) as Hs.
  rewrite <- Hs at 2. apply holds_block. by apply element_at.
Qed.

Lemma write_element s es k e :
  sized s es -> zlen e = s -> (k < length es)%nat ->
  write_at (concat es) (at_pointer s k) e = Some (concat (<[k := e]> es)).
Proof.
  intros Hz He Hk. destruct (lookup_lt_is_Some_2 es k Hk) as [d Hd].
  pose proof (Forall_lookup_1 _ _ _ _ Hz Hd) as Hds.
  rewrite <- (take_drop_middle es k d Hd) at 1. rewrite concat_app. cbn [concat].
  replace (at_pointer s k) with (zlen (concat (take k es))).
  - rewrite write_at_app by (rewrite length_app; unfold zlen in *; lia).
    rewrite drop_app_length' by (unfold zlen in *; lia).
    rewrite insert_take_drop by done. by rewrite concat_app.
  - rewrite (zlen_concat s) by by apply Forall_take. unfold zlen, at_pointer. rewrite length_take. lia.
Qed.
End elements.

Section placing.
Context (s : Z) (Hs : 0 < s).
(** The elements, and where the one that belongs at each place is. *)
Context (es : list (list Z)) (Hes : sized s es).
Context (p : list nat) (Hp : p ≡ₚ seq 0 (length es)).
Abbreviation n := (length es).

Lemma p_length : length p = n.
Proof. by rewrite Hp, length_seq. Qed.
Lemma p_bound m k : p !! m = Some k -> (k < n)%nat.
Proof.
  intros Hk. apply list_elem_of_lookup_2 in Hk. rewrite Hp in Hk. apply elem_of_seq in Hk. lia.
Qed.
Lemma p_inj m m' k : p !! m = Some k -> p !! m' = Some k -> m = m'.
Proof.
  intros H1 H2. assert (NoDup p) as Hn by (rewrite Hp; apply NoDup_seq).
  by apply (NoDup_lookup p m m' k).
Qed.

Lemma rd_pointers t m k : t !! m = Some k -> rd (map (at_pointer s) t) (Z.of_nat m) = Some (at_pointer s k).
Proof. intros Hk. rewrite rd_ge_0, Nat2Z.id by lia. apply list_lookup_fmap_Some. eauto. Qed.
Lemma wr_pointers t m k : (m < length t)%nat ->
  wr (map (at_pointer s) t) (Z.of_nat m) (at_pointer s k) = Some (map (at_pointer s) (<[m := k]> t)).
Proof.
  intros Hm. rewrite wr_all by (unfold zlen; rewrite length_map; lia).
  rewrite Nat2Z.id. by rewrite (list_fmap_insert (at_pointer s)).
Qed.
Lemma at_pointer_inj j k : at_pointer s j = at_pointer s k -> j = k.
Proof. unfold at_pointer. nia. Qed.
Lemma at_pointer_quot k : at_pointer s k `quot` s = Z.of_nat k.
Proof. unfold at_pointer. apply Z.quot_mul. lia. Qed.

(** The places in [D] hold the elements that belong there. *)
Record placed (D : gset nat) (bs : list (list Z)) (t : list nat) : Prop := {
  placed_sized : sized s bs;
  placed_length : length bs = n;
  placed_pointers : length t = n;
  placed_in : forall m k, m ∈ D -> p !! m = Some k -> t !! m = Some m /\ bs !! m = es !! k;
  placed_out : forall m, m ∉ D -> t !! m = p !! m /\ bs !! m = es !! m;
  placed_bound : forall m, m ∈ D -> (m < n)%nat;
}.

(** Putting the element that belongs at [j] there. *)
Lemma place_one D bs t j k e :
  placed D bs t -> j ∉ D -> p !! j = Some k -> es !! k = Some e ->
  placed ({[j]} ∪ D) (<[j := e]> bs) (<[j := j]> t).
Proof.
  intros [H1 H2 H3 H4 H5 H6] Hj Hk He.
  assert (j < n)%nat as Hjn by (rewrite <- p_length; by eapply lookup_lt_Some).
  constructor.
  - apply Forall_insert; [done|]. exact (Forall_lookup_1 _ _ _ _ Hes He).
  - by rewrite length_insert.
  - by rewrite length_insert.
  - intros m k' Hm Hk'. destruct (decide (m = j)) as [->|Hne].
    + simplify_eq. rewrite !list_lookup_insert_eq by lia. done.
    + rewrite !list_lookup_insert_ne by done. apply H4; [set_solver|done].
  - intros m Hm. rewrite !list_lookup_insert_ne by set_solver. apply H5. set_solver.
  - intros m Hm. destruct (decide (m = j)) as [->|Hne]; [done|]. apply H6. set_solver.
Qed.

(** Of the cycle through [i], the places in [D] are done, and [j] comes next. *)
Record on_cycle (i : nat) (D : gset nat) (j : nat) : Prop := {
  cycle_fresh : j ∉ D;
  cycle_start : i ∈ D \/ i = j;
  cycle_back : forall m k, p !! m = Some k -> k <> i -> k ∈ D \/ k = j -> m ∈ D;
}.

Lemma on_cycle_next i D j k :
  on_cycle i D j -> p !! j = Some k -> k <> i -> on_cycle i ({[j]} ∪ D) k.
Proof.
  intros [H1 H2 H3] Hk Hi. constructor.
  - intros Hin. apply H1, (H3 j k); [done..|]. set_solver.
  - set_solver.
  - intros m k' Hm Hne Hin. destruct (decide (k' = k)) as [->|].
    + rewrite (p_inj m j k) by done. set_solver.
    + assert (m ∈ D); [|set_solver]. apply (H3 m k'); [done..|]. set_solver.
Qed.

Lemma not_all_done (D : gset nat) j :
  (forall m, m ∈ D -> (m < n)%nat) -> j ∉ D -> (j < n)%nat -> (size D < n)%nat.
Proof.
  intros Hb Hj Hjn. assert ({[j]} ∪ D ⊆ (set_seq 0 n : gset nat)) as Hsub.
  { intros m Hm. apply elem_of_set_seq. destruct (decide (m = j)) as [->|]; [lia|].
    pose proof (Hb m). set_solver by lia. }
  apply subseteq_size in Hsub. rewrite size_set_seq, size_union, size_singleton in Hsub by set_solver. lia.
Qed.

(** The loop stops at the place that the first element of the cycle goes to. *)
Lemma chase_ok fuel i D bs t j k :
  (n <= fuel + size D)%nat -> placed D bs t -> on_cycle i D j -> p !! j = Some k -> k <> i ->
  exists D' bs' t' j',
    chase fuel s (at_pointer s i) (concat bs) (map (at_pointer s) t) (Z.of_nat j) (at_pointer s j) (at_pointer s k) =
      Some (concat bs', map (at_pointer s) t', Z.of_nat j', at_pointer s j') /\
    placed D' bs' t' /\ on_cycle i D' j' /\ p !! j' = Some i /\ D ⊆ D'.
Proof.
  revert D bs t j k. induction fuel as [|fuel IH]; intros D bs t j k Hf Hpl Hcy Hk Hi.
  { assert (j < n)%nat by (rewrite <- p_length; by eapply lookup_lt_Some).
    pose proof (not_all_done D j (placed_bound _ _ _ Hpl) (cycle_fresh _ _ _ Hcy) H). lia. }
  pose proof (on_cycle_next i D j k Hcy Hk Hi) as Hcy'. pose proof (p_bound j k Hk) as Hkn.
  assert (j < n)%nat as Hjn by (rewrite <- p_length; by eapply lookup_lt_Some).
  assert (k ∉ {[j]} ∪ D) as Hkf by apply Hcy'.
  destruct (lookup_lt_is_Some_2 es k Hkn) as [e He].
  assert (bs !! k = Some e) as Hbe by (rewrite <- He; apply (placed_out _ _ _ Hpl); set_solver).
  pose proof (place_one D bs t j k e Hpl (cycle_fresh _ _ _ Hcy) Hk He) as Hpl'.
  destruct (lookup_lt_is_Some_2 p k) as [l Hl]; [by rewrite p_length|].
  assert (<[j:=j]> t !! k = Some l) as Htl by (rewrite <- Hl; by apply (placed_out _ _ _ Hpl')).
  pose proof Hpl as [Hz Hbl Htn _ _ _].
  cbn [chase]. rewrite at_pointer_quot, wr_pointers by lia. cbn [mbind option_bind].
  unfold copy. rewrite (read_element s bs k e) by done. cbn [mbind option_bind].
  rewrite (write_element s bs j e) by (done || lia || exact (Forall_lookup_1 _ _ _ _ Hz Hbe)).
  cbn [mbind option_bind]. rewrite (rd_pointers _ k l) by done. cbn [mbind option_bind].
  destruct (Z.eqb_spec (at_pointer s l) (at_pointer s i)) as [->%at_pointer_inj|Hne]; cbn [negb].
  - exists ({[j]} ∪ D), (<[j:=e]> bs), (<[j:=j]> t), k. split_and!; try done. set_solver.
  - destruct (IH ({[j]} ∪ D) (<[j:=e]> bs) (<[j:=j]> t) k l)
      as (D' & bs' & t' & j' & E & P1 & P2 & P3 & P4); try done.
    { rewrite size_union, size_singleton by (pose proof (cycle_fresh _ _ _ Hcy); set_solver). lia. }
    { by intros ->. }
    exists D', bs', t', j'. split_and!; try done. set_solver.
Qed.

(** No element outside [D] belongs to a place in [D]. *)
Definition closed (D : gset nat) : Prop := forall m k, p !! m = Some k -> k ∈ D -> m ∈ D.

Lemma closed_one i (D : gset nat) : closed D -> p !! i = Some i -> closed ({[i]} ∪ D).
Proof.
  intros Hc Hi m k Hk Hin. destruct (decide (k = i)) as [->|].
  - rewrite (p_inj m i i) by done. set_solver.
  - assert (m ∈ D); [|set_solver]. apply (Hc m k); [done|set_solver].
Qed.

(** One round of the loop: the cycle through [i]. *)
Lemma place_round i D bs t kp :
  placed D bs t -> closed D -> (i < n)%nat -> rd (map (at_pointer s) t) (Z.of_nat i) = Some kp ->
  exists D' bs' t',
    (if negb (kp =? at_pointer s i) then
       tmp_storage ← cells_at (concat bs) (at_pointer s i) s;
       '(b, tp, j, jp) ← chase (length (map (at_pointer s) t)) s (at_pointer s i) (concat bs) (map (at_pointer s) t)
                          (Z.of_nat i) (at_pointer s i) kp;
       tp ← wr tp j jp;
       b ← write_at b jp tmp_storage;
       Some (b, tp)
     else Some (concat bs, map (at_pointer s) t)) = Some (concat bs', map (at_pointer s) t') /\
    placed D' bs' t' /\ closed D' /\ D ⊆ D' /\ i ∈ D'.
Proof.
  intros Hpl Hcl Hi Hrd. pose proof Hpl as [Hz Hbl Htn Hin Hout Hbd].
  destruct (lookup_lt_is_Some_2 p i) as [k Hk]; [by rewrite p_length|].
  destruct (lookup_lt_is_Some_2 t i) as [k0 Ht]; [lia|].
  rewrite (rd_pointers t i k0 Ht) in Hrd. simplify_eq.
  destruct (Z.eqb_spec (at_pointer s k0) (at_pointer s i)) as [Heq|Hne]; cbn [negb].
  - apply at_pointer_inj in Heq. subst k0. destruct (decide (i ∈ D)) as [HiD|HiD]; [by exists D, bs, t|].
    destruct (Hout i HiD) as [E1 E2]. assert (k = i) as -> by congruence.
    destruct (lookup_lt_is_Some_2 es i Hi) as [e He]. rewrite He in E2.
    pose proof (place_one D bs t i i e Hpl HiD Hk He) as Hpl'.
    rewrite !list_insert_id in Hpl' by done.
    exists ({[i]} ∪ D), bs, t. split_and!; [done|done|by apply closed_one|set_solver..].
  - assert (i ∉ D) as HiD.
    { intros HiD. destruct (Hin i k HiD Hk) as [E _]. rewrite Ht in E. congruence. }
    destruct (Hout i HiD) as [E1 E2]. assert (k0 = k) as -> by congruence.
    destruct (lookup_lt_is_Some_2 es i Hi) as [e He]. rewrite He in E2.
    rewrite (read_element s bs i e) by done. cbn [mbind option_bind].
    destruct (chase_ok (length (map (at_pointer s) t)) i D bs t i k)
      as (D' & bs' & t' & j & E & Hpl' & Hcy & Hj & Hsub); try done.
    { rewrite length_map. lia. }
    { constructor; [done|by right|]. intros m k' Hm Hne' [Hin'|]; [by apply (Hcl m k')|done]. }
    { by intros ->. }
    rewrite E. cbn [mbind option_bind]. pose proof Hpl' as [Hz' Hbl' Htn' _ _ _].
    assert (j < n)%nat as Hjn by (rewrite <- p_length; by eapply lookup_lt_Some).
    rewrite wr_pointers by lia. cbn [mbind option_bind].
    rewrite (write_element s bs' j e) by (done || lia || exact (Forall_lookup_1 _ _ _ _ Hes He)).
    cbn [mbind option_bind].
    exists ({[j]} ∪ D'), (<[j:=e]> bs'), (<[j:=j]> t'). split_and!; [done| | |set_solver|].
    + apply (place_one D' bs' t' j i e); [done|apply Hcy|done..].
    + intros m k' Hm Hk'. destruct (decide (k' = i)) as [->|].
      * rewrite (p_inj m j i) by done. set_solver.
      * assert (m ∈ D'); [|set_solver]. apply (cycle_back _ _ _ Hcy m k'); set_solver.
    + destruct (cycle_start _ _ _ Hcy) as [|<-]; set_solver.
Qed.

Lemma place_loop_ok m i D bs t :
  (i + m = n)%nat -> placed D bs t -> closed D -> (forall m', (m' < i)%nat -> m' ∈ D) ->
  exists bs' t', place_loop m s (Z.of_nat i) (at_pointer s i) (concat bs) (map (at_pointer s) t) =
    Some (concat bs', map (at_pointer s) t') /\ sized s bs' /\ length bs' = n /\
    forall j k, p !! j = Some k -> bs' !! j = es !! k.
Proof.
  revert i D bs t. induction m as [|m IH]; intros i D bs t Hm Hpl Hcl Hall.
  - exists bs, t. pose proof Hpl as [Hz Hbl Htn Hin Hout Hbd]. split_and!; try done.
    intros j k Hk. apply Hin; [|done]. apply Hall.
    assert (j < n)%nat by (rewrite <- p_length; by eapply lookup_lt_Some). lia.
  - cbn [place_loop]. pose proof Hpl as [_ _ Htn _ _ _].
    destruct (lookup_lt_is_Some_2 t i) as [k Hk]; [lia|].
    pose proof (rd_pointers t i k Hk) as Hrd. rewrite Hrd. cbn [mbind option_bind].
    destruct (place_round i D bs t (at_pointer s k)) as (D' & bs' & t' & E & Hpl' & Hcl' & Hsub & Hi); try done; [lia|].
    rewrite E. cbn [mbind option_bind].
    replace (Z.of_nat i + 1) with (Z.of_nat (S i)) by lia.
    replace (at_pointer s i + s) with (at_pointer s (S i)) by (unfold at_pointer; lia).
    apply (IH (S i) D' bs' t'); [lia|done|done|].
    intros m' Hm'. destruct (decide (m' = i)) as [->|]; [done|]. apply Hsub, Hall. lia.
Qed.
End placing.

(** ** The whole sort *)

Lemma choose_var_ok address s : 0 <= s -> param_ok (MsortParam s (choose_var address s)).
Proof.
  intros Hs. unfold param_ok, choose_var. cbn [param_s param_var].
  destruct (Z.eqb_spec (Z.land s 3) 0); cbn [andb]; [|split_and!; (done || lia)].
  destruct (Z.eqb_spec (address `rem` 4) 0); [|split_and!; (done || lia)].
  destruct (Z.eqb_spec s 4); [split_and!; (done || lia)|].
  destruct (Z.eqb_spec s 8); cbn [andb];
    [destruct (address `rem` 8 =? 0); cbn [andb]; [split_and!; (done || lia)|]|].
  all: destruct (Z.eqb_spec (Z.land s 7) 0) as [E|]; cbn [andb]; [|split_and!; (done || lia)].
  all: destruct (Z.eqb_spec (address `rem` 8) 0); [|split_and!; (done || lia)].
  all: split_and!; try (done || lia).
  all: intros _; apply Z.mod_divide; [lia|]; rewrite <- E; symmetry; by apply (land_low s 3).
Qed.

Lemma zlen_junk junk n : 0 <= n -> zlen (junk_cells junk n) = n.
Proof. intros. unfold zlen, junk_cells. rewrite length_map, length_seq. lia. Qed.

(** The pointers, as elements of one cell. *)
Definition pointer_cells (s : Z) (l : list nat) : list (list Z) := map (fun k => [at_pointer s k]) l.

Lemma concat_pointer_cells s l : concat (pointer_cells s l) = map (at_pointer s) l.
Proof. induction l as [|k l IH]; [done|]. cbn [pointer_cells map concat app] in *. by rewrite <- IH. Qed.

Lemma addresses_pointers s n k :
  addresses n (at_pointer s k) s = map (at_pointer s) (seq k n).
Proof.
  revert k. induction n as [|n IH]; intros k; [done|]. cbn [addresses seq map]. f_equal.
  rewrite <- IH. f_equal. unfold at_pointer. lia.
Qed.

Section indirect.
Context (s : Z) (Hs : 0 < s) (es : list (list Z)) (Hes : sized s es).
Context (cmp : list Z -> list Z -> Z).

(** The element a pointer leads to. *)
Definition pointed (x : list Z) : list Z :=
  match x with [q] => default [] (cells_at (concat es) q s) | _ => [] end.
Definition known_pointer (x : list Z) : Prop := exists k, (k < length es)%nat /\ x = [at_pointer s k].

Lemma pointed_element k e : es !! k = Some e -> pointed [at_pointer s k] = e.
Proof. intros He. cbn [pointed]. by rewrite (read_element s es k e). Qed.

Lemma cmp_pointed_ok x y :
  known_pointer x -> known_pointer y ->
  cmp_pointed cmp (concat es) s x y = Some (cmp (pointed x) (pointed y)).
Proof.
  intros (j & Hj & ->) (k & Hk & ->). cbn [cmp_pointed pointed].
  destruct (lookup_lt_is_Some_2 es j Hj) as [d Hd], (lookup_lt_is_Some_2 es k Hk) as [e He].
  by rewrite (read_element s es j d), (read_element s es k e).
Qed.

Lemma map_pointed : map pointed (pointer_cells s (seq 0 (length es))) = es.
Proof.
  apply list_eq. intros k. unfold pointer_cells. rewrite map_map. rewrite !list_lookup_fmap.
  destruct (es !! k) as [e|] eqn:He.
  - rewrite lookup_seq_lt by by eapply lookup_lt_Some. cbn [fmap option_fmap option_map].
    by rewrite (pointed_element _ e).
  - apply lookup_ge_None_1 in He. by rewrite lookup_seq_ge by lia.
Qed.

Lemma indirect_ok junk address :
  32 < s ->
  exists es', msort_r junk address cmp (concat es) (zlen es) s = Some (concat es') /\
    sized s es' /\ sorts cmp es es'.
Proof.
  intros Hbig. unfold msort_r. rewrite (proj2 (Z.ltb_lt 32 s)) by done.
  set (c := fun x y => cmp (pointed x) (pointed y)).
  assert (param_ok (MsortParam 1 3)) as Hp by (unfold param_ok; cbn; split_and!; done || lia).
  assert (Z.to_nat (zlen es) = length es) as Hn by (unfold zlen; lia). rewrite Hn.
  destruct (msort_ok 1 (MsortParam 1 3) (cmp_pointed cmp (concat es) s) c Hp eq_refl known_pointer
    cmp_pointed_ok (length es) [] (pointer_cells s (seq 0 (length es))) [] (junk_cells junk (zlen es)))
    as (keys & t' & E & S & _).
  - unfold pointer_cells. by rewrite length_map, length_seq.
  - apply Forall_fmap, Forall_true. done.
  - apply Forall_fmap, Forall_forall. intros k Hk. apply elem_of_seq in Hk. exists k. split; [lia|done].
  - unfold pointer_cells. rewrite zlen_junk by apply zlen_nonneg. unfold zlen. rewrite length_map, length_seq. lia.
  - cbn [app] in E. rewrite app_nil_r, concat_pointer_cells in E. change (zlen (@nil Z)) with 0 in E.
    replace (zlen (pointer_cells s (seq 0 (length es)))) with (zlen es) in E
      by (unfold zlen, pointer_cells; by rewrite length_map, length_seq).
    pose proof (addresses_pointers s (length es) 0) as Ha. change (at_pointer s 0) with 0 in Ha.
    rewrite Ha, E. cbn [mbind option_bind].
    pose proof (proj1 S) as Pk. apply Permutation_map_inv in Pk as (q & -> & Hq). symmetry in Hq.
    fold (pointer_cells s q). rewrite app_nil_r, concat_pointer_cells.
    destruct (place_loop_ok s Hs es Hes q Hq (length es) 0 ∅ es q) as (es' & tp & E' & Z' & L' & Hall).
    + lia.
    + constructor; try set_solver. by rewrite Hq, length_seq.
    + intros m k _ Hk. set_solver.
    + lia.
    + change (at_pointer s 0) with 0 in E'. change (Z.of_nat 0) with 0 in E'.
      rewrite E'. cbn [mbind option_bind]. exists es'. split_and!; [done|done|].
      assert (es' = map pointed (pointer_cells s q)) as ->.
      { apply list_eq. intros m. unfold pointer_cells. rewrite map_map, list_lookup_fmap.
        destruct (q !! m) as [k|] eqn:Hm; cbn [fmap option_fmap option_map].
        - rewrite (Hall m k Hm). pose proof (p_bound es q Hq m k Hm) as Hk.
          destruct (lookup_lt_is_Some_2 es k Hk) as [e He]. by rewrite (pointed_element k e).
        - apply lookup_ge_None_1 in Hm. apply lookup_ge_None_2. rewrite Hq, length_seq in Hm. lia. }
      rewrite <- map_pointed at 1. by apply sorts_map.
Qed.
End indirect.

Lemma direct_ok junk address cmp s es :
  0 <= s <= 32 -> sized s es ->
  exists es', msort_r junk address cmp (concat es) (zlen es) s = Some (concat es') /\
    sized s es' /\ sorts cmp es es'.
Proof.
  intros Hs Hes. unfold msort_r. rewrite (proj2 (Z.ltb_ge 32 s)) by lia.
  pose proof (zlen_nonneg es).
  destruct (msort_ok s (MsortParam s (choose_var address s)) (cmp_direct cmp) cmp
    (choose_var_ok address s ltac:(lia)) eq_refl (fun _ => True) (fun _ _ _ _ => eq_refl)
    (Z.to_nat (zlen es)) [] es [] (junk_cells junk (zlen es * s))) as (es' & t' & E & S & _).
  - unfold zlen. lia.
  - done.
  - by apply Forall_true.
  - rewrite zlen_junk; nia.
  - cbn [app] in E. rewrite !app_nil_r in E. change (zlen (@nil Z)) with 0 in E. rewrite E.
    exists es'. split_and!; [done| |done]. unfold sized. by rewrite (proj1 S).
Qed.

Lemma qsort_ok junk address cmp s es :
  0 <= s -> sized s es -> zlen es < 2 ^ 31 ->
  exists es', g_qsort_with_data junk address cmp (concat es) (zlen es) s = Some (concat es') /\
    sized s es' /\ sorts cmp es es'.
Proof.
  intros Hs Hes Hn. unfold g_qsort_with_data. rewrite wrap_small by (pose proof (zlen_nonneg es); lia).
  destruct (Z.le_gt_cases s 32); [by apply direct_ok|apply indirect_ok; done || lia].
Qed.

(** C9: [g_qsort_with_data] sorts. Whatever the comparison function answers it
    ends, reads and writes nothing outside the array and its temporary memory,
    and leaves a permutation of the elements it was given. Where the function
    is an order on those elements, they end in order, and the elements that
    equal any given one keep the order they had: the sort is stable. This holds
    for every way of copying elements and for the indirect sort of large ones. *)
Theorem qsort_sorts_stably junk address cmp s es :
  0 <= s -> sized s es -> zlen es < 2 ^ 31 ->
  exists es', g_qsort_with_data junk address cmp (concat es) (zlen es) s = Some (concat es') /\
    es' ≡ₚ es /\
    forall D, consistent cmp D -> Forall D es ->
      in_order cmp es' /\ forall x, D x -> equals cmp x es' = equals cmp x es.
Proof.
  intros Hs Hes Hn. destruct (qsort_ok junk address cmp s es) as (es' & E & _ & P & S); eauto.
Qed.

(** Elements compared by their first byte. *)
Definition first_byte (x y : list Z) : Z := default 0 (head x) - default 0 (head y).
Lemma first_byte_consistent : consistent first_byte (fun _ => True).
Proof. constructor; unfold first_byte; lia. Qed.

Definition some_elements : list (list Z) :=
  [3 :: replicate 39 0; 1 :: replicate 39 1; 3 :: replicate 39 2; 1 :: replicate 39 3].

Lemma qsort_sorts_stably_witness :
  (exists es', g_qsort_with_data (fun _ => 0) 6 first_byte (concat some_elements) 4 40 = Some (concat es') /\
    es' ≡ₚ some_elements /\
    forall D, consistent first_byte D -> Forall D some_elements ->
      in_order first_byte es' /\ forall x, D x -> equals first_byte x es' = equals first_byte x some_elements) /\
  consistent first_byte (fun _ => True) /\
  g_qsort_with_data (fun _ => 0) 6 first_byte (concat some_elements) 4 40 =
    Some (1 :: replicate 39 1 ++ 1 :: replicate 39 3 ++ 3 :: replicate 39 0 ++ 3 :: replicate 39 2).
Proof.
  split; [|split; [apply first_byte_consistent|reflexivity]].
  apply (qsort_sorts_stably (fun _ => 0) 6 first_byte 40 some_elements); [lia|repeat constructor|done].
Defined.
