(* ===== verification/Heap.v ===== *)
(** * Shared memory

    The linked structures of the library live in one memory of typed objects
    that their pointers alias. This file holds the memory, the programs that act
    on it, and a separation logic for them: assertions are about exactly the
    objects they name, so a proved program neither touches nor loses others. *)

From iris.proofmode Require Import coq_tactics reduction environments proofmode.
From stdpp Require Import gmap.
From S2P Require Import Prelude.
Local Open Scope Z_scope.

(** ** Memory and programs *)

(** The node of a doubly-linked list, [struct _GList]. *)
Record xlist_t := XList { l_data : Z; l_next : Z; l_prev : Z }.
(** [struct _xqueue]. *)
Record xqueue_t := XQueue { q_head : Z; q_tail : Z; q_length : Z }.

(** [struct _GAsyncQueue], but for the members that are objects of their own: the
    queue, the counter of references, the mutex and the condition variable. *)
Record xasync_queue_t := XAsyncQueue { aq_item_free_func : Z; aq_waitinxthreads : Z }.

(** What stands at an address: a structure of the library, a word of a structure
    or of a caller, or a mutex or condition variable, which may be initialised. *)
Inductive object :=
| ListNode (c : xlist_t)
| Queue (q : xqueue_t)
| AsyncQueue (q : xasync_queue_t)
| Word (v : Z)
| Mutex (live : bool)
| Cond (live : bool).

Abbreviation heap := (gmap Z object).

(** The memory and the warnings issued so far. *)
Record memory := Memory { cells : heap; logged : list string }.

(** A program: [None] is undefined behaviour, or a loop that does not end. *)
Definition prog (A : Type) : Type := memory -> option (A * memory).

#[export] Instance prog_ret : MRet prog := fun A a m => Some (a, m).
#[export] Instance prog_bind : MBind prog :=
  fun A B k c m => match c m with Some (a, m') => k a m' | None => None end.

Definition undefined {A} : prog A := fun _ => None.
Definition load (p : Z) : prog object := fun m => o ← cells m !! p; Some (o, m).
Definition store (p : Z) (o : object) : prog unit :=
  fun m => _ ← cells m !! p; Some (tt, Memory (<[p:=o]> (cells m)) (logged m)).
Definition free (p : Z) : prog unit :=
  fun m => _ ← cells m !! p; Some (tt, Memory (delete p (cells m)) (logged m)).
(** [g_warning] and the message of a failed [g_return_if_fail]. *)
Definition g_warning (s : string) : prog unit :=
  fun m => Some (tt, Memory (cells m) (s :: logged m)).
(** [g_return_val_if_fail]. *)
Definition return_val_if_fail {A} (expr : bool) (text : string) (val : A) (rest : prog A) : prog A :=
  if expr then rest else g_warning text;; mret val.

(** A bound for the loops that follow pointers: the number of objects. *)
Definition loop_bound : prog nat := fun m => Some (S (size (cells m)), m).

(** The allocator finds an address that is not in use; fresh memory is not
    initialised. *)
Class Allocator := {
  new_address : heap -> Z;
  new_address_free : forall h, h !! new_address h = None;
  new_address_not_null : forall h, new_address h <> 0;
  uninitialised : Z
}.
Definition alloc `{Allocator} (o : object) : prog Z :=
  fun m => let p := new_address (cells m) in
    Some (p, Memory (<[p:=o]> (cells m)) (logged m)).

(** ** Assertions *)

Record assertion := Assertion { at_heap : heap -> Prop }.

Record same_assertion (P Q : assertion) : Prop := { same_at : forall h, at_heap P h <-> at_heap Q h }.
#[export] Instance assertion_equiv : Equiv assertion := same_assertion.
#[export] Instance assertion_equivalence : Equivalence (≡@{assertion}).
Proof.
  split; [by intros P|intros P Q [H]; split; intros h; by rw (H h)|intros P Q R [H1] [H2]].
  split. intros h. by rw (H1 h) (H2 h).
Qed.
#[warnings="-redundant-canonical-projection"]
Canonical Structure assertionO := discreteO assertion.

Section laws.
Implicit Types P Q R : assertion.

Record assertion_entails P Q : Prop := { entails_at : forall h, at_heap P h -> at_heap Q h }.
Definition assertion_emp : assertion := Assertion (fun h => h = ∅).
Definition assertion_pure (φ : Prop) : assertion := Assertion (fun _ => φ).
Definition assertion_and P Q : assertion := Assertion (fun h => at_heap P h /\ at_heap Q h).
Definition assertion_or P Q : assertion := Assertion (fun h => at_heap P h \/ at_heap Q h).
Definition assertion_impl P Q : assertion := Assertion (fun h => at_heap P h -> at_heap Q h).
Definition assertion_forall {A} (Φ : A -> assertion) : assertion :=
  Assertion (fun h => forall a, at_heap (Φ a) h).
Definition assertion_exist {A} (Φ : A -> assertion) : assertion :=
  Assertion (fun h => exists a, at_heap (Φ a) h).
(** Disjoint parts of the memory. *)
Definition assertion_sep P Q : assertion :=
  Assertion (fun h => exists h1 h2, h = h1 ∪ h2 /\ h1 ##ₘ h2 /\ at_heap P h1 /\ at_heap Q h2).
Definition assertion_wand P Q : assertion :=
  Assertion (fun h => forall h', h ##ₘ h' -> at_heap P h' -> at_heap Q (h ∪ h')).
Definition assertion_persistently P : assertion := assertion_pure (assertion_entails assertion_emp P).

Lemma assertion_bi_mixin :
  BiMixin assertion_entails assertion_emp assertion_pure assertion_and assertion_or
    assertion_impl (@assertion_forall) (@assertion_exist) assertion_sep assertion_wand.
Proof.
  split.
  - split; [done|]. intros P Q R [H1] [H2]. split; auto.
  - intros P Q. split; [intros [H]; split; split; intros h; apply H|].
    intros [[H1] [H2]]. split. intros h. split; [apply H1|apply H2].
  - intros n φ ψ H. split. intros h. apply H.
  - intros n P P' [HP] Q Q' [HQ]. split. intros h. cbn. by rw HP HQ.
  - intros n P P' [HP] Q Q' [HQ]. split. intros h. cbn. by rw HP HQ.
  - intros n P P' [HP] Q Q' [HQ]. split. intros h. cbn. by rw HP HQ.
  - intros A n Φ Ψ H. split. intros h. cbn. apply forall_proper. intros a. apply (same_at _ _ (H a)).
  - intros A n Φ Ψ H. split. intros h. cbn. split; intros [a Ha]; exists a; by apply (same_at _ _ (H a)).
  - intros n P P' [HP] Q Q' [HQ]. split. intros h. cbn. do 2 (apply exist_proper; intros ?). by rw HP HQ.
  - intros n P P' [HP] Q Q' [HQ]. split. intros h. cbn. apply forall_proper. intros h'. by rw HP HQ.
  - by intros φ P H; split; intros h _.
  - intros φ P H. split. intros h Hφ. by apply (H Hφ).
  - by intros P Q; split; intros h [].
  - by intros P Q; split; intros h [].
  - intros P Q R [H1] [H2]. split. intros h HP. split; auto.
  - by split; left.
  - by split; right.
  - intros P Q R [H1] [H2]. split. intros h [HP|HQ]; auto.
  - intros P Q R [H]. split. intros h HP HQ. by apply H.
  - intros P Q R [H]. split. intros h [HP HQ]. by apply H.
  - intros A P Ψ H. split. intros h HP a. by apply (H a).
  - intros A Ψ a. split. intros h H. apply H.
  - intros A Ψ a. split. intros h H. by exists a.
  - intros A Φ Q H. split. intros h [a Ha]. by apply (H a).
  - intros P P' Q Q' [HP] [HQ]. split. intros h (h1 & h2 & -> & Hd & H1 & H2).
    exists h1, h2. auto.
  - intros P. split. intros h HP. exists ∅, h. rw map_empty_union.
    split; [done|]. split; [apply map_disjoint_empty_l|done].
  - intros P. split. intros h (h1 & h2 & -> & _ & He & HP). cbn in He. subst. by rw map_empty_union.
  - intros P Q. split. intros h (h1 & h2 & -> & Hd & H1 & H2). exists h2, h1.
    split; [by apply map_union_comm|]. done.
  - intros P Q R. split. intros h (h12 & h3 & -> & Hd & (h1 & h2 & -> & Hd' & H1 & H2) & H3).
    apply map_disjoint_union_l in Hd as [Hd1 Hd2].
    exists h1, (h2 ∪ h3). split; [by rw map_union_assoc|].
    split; [by apply map_disjoint_union_r|]. split; [done|]. by exists h2, h3.
  - intros P Q R [H]. split. intros h HP h' Hd HQ. apply H. by exists h, h'.
  - intros P Q R [H]. split. intros h (h1 & h2 & -> & Hd & H1 & H2). by apply H.
Qed.

Lemma assertion_persistently_mixin :
  BiPersistentlyMixin assertion_entails assertion_emp assertion_and (@assertion_exist)
    assertion_sep assertion_persistently.
Proof.
  eapply bi_persistently_mixin_discrete, assertion_bi_mixin; [done| |].
  - intros A Φ H. destruct (entails_at _ _ H ∅) as [a Ha]; [done|].
    exists a. split. by intros h ->.
  - done.
Qed.

Lemma assertion_later_mixin :
  BiLaterMixin assertion_entails assertion_pure assertion_or assertion_impl
    (@assertion_forall) (@assertion_exist) assertion_sep assertion_persistently id.
Proof. by eapply bi_later_mixin_id, assertion_bi_mixin. Qed.

End laws.

Canonical Structure assertionI : bi := {|
  bi_ofe_mixin := ofe_mixin_of assertion;
  bi_bi_mixin := assertion_bi_mixin;
  bi_bi_persistently_mixin := assertion_persistently_mixin;
  bi_bi_later_mixin := assertion_later_mixin
|}.

(** An object alone. *)
Definition points_to (p : Z) (o : object) : assertion :=
  Assertion (fun h => h = {[p := o]} /\ p <> 0).
Notation "p ↦ o" := (points_to p o) (at level 20, format "p  ↦  o") : bi_scope.

(** At least so many objects. *)
Definition at_least (n : nat) : assertion := Assertion (fun h => (n <= size h)%nat).

(** The program ends, without undefined behaviour or a warning, and what it owns
    then satisfies [Q]; the rest of the memory is as it was. *)
Definition wp {A} (c : prog A) (Q : A -> assertion) : assertion :=
  Assertion (fun h => forall rest log, h ##ₘ rest ->
    exists a h', c (Memory (h ∪ rest) log) = Some (a, Memory (h' ∪ rest) log) /\
      h' ##ₘ rest /\ at_heap (Q a) h').

(** What a program does, from what it owns to what it leaves. *)
#[warnings="-closed-notation-not-level-0"]
Notation "{{ P } } c {{ r , Q } }" := (P%I ⊢ wp c (fun r => Q%I))
  (at level 20, P, c, Q at level 200, r name, format "'[hv' {{  P  } }  '/  ' c  '/' {{  r ,  Q  } } ']'") : xpl_scope.

(** ** Rules *)

Section rules.
Context {A B : Type}.

Lemma points_to_not_null p o : p ↦ o ⊢ ⌜p <> 0⌝.
Proof. split. by intros h [_ H]. Qed.

Lemma points_to_ne p o q o' : p ↦ o ∗ q ↦ o' ⊢ ⌜p <> q⌝.
Proof.
  split. intros h (h1 & h2 & -> & Hd & [-> _] & [-> _]) ->.
  by apply map_disjoint_singleton_l in Hd; rw lookup_singleton_eq in Hd.
Qed.

Lemma points_to_at_least p o : p ↦ o ⊢ at_least 1.
Proof. split. intros h [-> _]. cbn. by rw map_size_singleton. Qed.
Lemma at_least_0 P : P ⊢ at_least 0.
Proof. split. intros h _. cbn. lia. Qed.
Lemma at_least_sep n k : at_least n ∗ at_least k ⊢ at_least (n + k).
Proof. split. intros h (h1 & h2 & -> & Hd & H1 & H2). cbn in *. rw map_size_disj_union //. lia. Qed.
Lemma at_least_le n k : (k <= n)%nat -> at_least n ⊢ at_least k.
Proof. split. intros h. cbn. lia. Qed.

Lemma wp_ret (a : A) (Q : A -> assertion) : Q a ⊢ wp (mret a) Q.
Proof. split. intros h HQ rest log Hd. by exists a, h. Qed.

Lemma wp_bind (c : prog A) (k : A -> prog B) (Q : B -> assertion) : wp c (fun a => wp (k a) Q) ⊢ wp (c ≫= k) Q.
Proof.
  split. intros h H rest log Hd. destruct (H rest log Hd) as (a & h' & E & Hd' & H').
  destruct (H' rest log Hd') as (b & h'' & E' & Hd'' & H'').
  exists b, h''. split; [|done]. by rw /mbind /prog_bind E.
Qed.

Lemma wp_wand (c : prog A) (Q Q' : A -> assertion) : wp c Q ∗ (∀ a, Q a -∗ Q' a) ⊢ wp c Q'.
Proof.
  split. intros h (h1 & h2 & -> & Hd & H & HQ) rest log Hr.
  apply map_disjoint_union_l in Hr as [Hr1 Hr2].
  destruct (H (h2 ∪ rest) log) as (a & h' & E & Hd' & H'); [by apply map_disjoint_union_r|].
  apply map_disjoint_union_r in Hd' as [Hd1 Hd2].
  exists a, (h2 ∪ h'). rw -map_union_assoc E (map_union_comm h2 h') //.
  rw -map_union_assoc. split; [done|]. split; [by apply map_disjoint_union_l|].
  rw (map_union_comm h' h2) //. by apply HQ.
Qed.

(** A step that reads the object at [p], or replaces it. *)
Class Reads (c : prog A) (p : Z) (o : object) (a : A) :=
  reads : forall m, cells m !! p = Some o -> c m = Some (a, m).
Class Writes (c : prog unit) (p : Z) (o o' : object) :=
  writes : forall m, cells m !! p = Some o -> c m = Some (tt, Memory (<[p:=o']> (cells m)) (logged m)).

(** What a program does with the objects it needs, and the rest. *)
Lemma wp_small P Q (c : prog A) (a : A) (R : A -> assertion) :
  (forall h rest log, at_heap P h -> h ##ₘ rest ->
    exists h', c (Memory (h ∪ rest) log) = Some (a, Memory (h' ∪ rest) log) /\ h' ##ₘ rest /\ at_heap Q h') ->
  P ∗ (Q -∗ R a) ⊢ wp c R.
Proof.
  intros Hc. split. intros h (h1 & h2 & -> & Hd & HP & HR) rest log Hr.
  apply map_disjoint_union_l in Hr as [Hr1 Hr2].
  destruct (Hc h1 (h2 ∪ rest) log HP) as (h' & E & Hd' & HQ); [by apply map_disjoint_union_r|].
  apply map_disjoint_union_r in Hd' as [Hd1 Hd2]. exists a, (h2 ∪ h').
  split; [by rw -map_union_assoc E (map_union_comm h2 h') // -map_union_assoc|].
  split; [by apply map_disjoint_union_l|]. by apply HR.
Qed.

Lemma wp_reads (c : prog A) p o a (Q : A -> assertion) :
  Reads c p o a -> p ↦ o ∗ (p ↦ o -∗ Q a) ⊢ wp c Q.
Proof.
  intros Hc. apply wp_small. intros h rest log [-> Hp] Hd. exists {[p := o]}.
  split; [|done]. apply Hc. by apply lookup_union_Some_l, lookup_singleton_eq.
Qed.

End rules.

Lemma wp_writes (c : prog unit) p o o' (Q : unit -> assertion) :
  Writes c p o o' -> p ↦ o ∗ (p ↦ o' -∗ Q tt) ⊢ wp c Q.
Proof.
  intros Hc. apply wp_small. intros h rest log [-> Hp] Hd. exists {[p := o']}.
  apply map_disjoint_singleton_l in Hd. split; [|split; [by apply map_disjoint_singleton_l|done]].
  rw (Hc _) /=; [|by apply lookup_union_Some_l, lookup_singleton_eq].
  by rw insert_union_l insert_singleton_eq.
Qed.
Lemma wp_free p o (Q : unit -> assertion) : p ↦ o ∗ Q tt ⊢ wp (free p) Q.
Proof.
  trans (p ↦ o ∗ (emp -∗ Q tt))%I; [iIntros "[$ $]"; by iIntros|]. apply wp_small.
  intros h rest log [-> Hp] Hd. apply map_disjoint_singleton_l in Hd.
  exists ∅. split; [|split; [apply map_disjoint_empty_l|done]].
  unfold free. cbn. rw (lookup_union_Some_l _ _ _ o); [|by apply lookup_singleton_eq].
  by rw /= delete_union delete_singleton_eq delete_id.
Qed.

Lemma wp_alloc `{Allocator} o (Q : Z -> assertion) : (∀ p, p ↦ o -∗ Q p) ⊢ wp (alloc o) Q.
Proof.
  split. intros h HQ rest log Hd. set (p := new_address (h ∪ rest)).
  pose proof (new_address_free (h ∪ rest)) as Hp.
  apply lookup_union_None in Hp as [Hp1 Hp2]. fold p in Hp1, Hp2.
  exists p, (h ∪ {[p := o]}). assert (h ##ₘ {[p := o]}) as Hd' by by apply map_disjoint_singleton_r.
  split; [|split].
  - unfold alloc. cbn. fold p. by rw -insert_union_singleton_r // insert_union_l.
  - apply map_disjoint_union_l. split; [done|]. by apply map_disjoint_singleton_l.
  - apply HQ; [done|]. split; [done|]. apply new_address_not_null.
Qed.

Lemma wp_loop_bound n (Q : nat -> assertion) :
  at_least n ∧ (∀ k, ⌜(n < k)%nat⌝ → Q k) ⊢ wp loop_bound Q.
Proof.
  split. intros h [Hn HQ] rest log Hd. exists (S (size (h ∪ rest))), h.
  split; [done|]. split; [done|]. apply HQ.
  change (n < S (size (h ∪ rest)))%nat. change (n <= size h)%nat in Hn. rw map_size_disj_union //. lia.
Qed.

(** From the logic to the memory. *)
Lemma wp_sound {A} (c : prog A) P (Q : A -> assertion) :
  (P ⊢ wp c Q) ->
  forall h rest log, at_heap P h -> h ##ₘ rest ->
  exists a h', c (Memory (h ∪ rest) log) = Some (a, Memory (h' ∪ rest) log) /\
    h' ##ₘ rest /\ at_heap (Q a) h'.
Proof. intros [H] h rest log HP. by apply H. Qed.

(** ** Automation *)

Section tactics.
Context {A B : Type}.
Implicit Types (Δ : envs assertionI) (k : A -> prog B) (Q : B -> assertion).

Lemma tac_wp_reads Δ i p o (c : prog A) a k Q :
  Reads c p o a -> envs_lookup i Δ = Some (false, p ↦ o)%I ->
  envs_entails Δ (wp (k a) Q) -> envs_entails Δ (wp (c ≫= k) Q).
Proof.
  rw envs_entails_unseal=> Hc Hi HQ. rw -wp_bind -(wp_reads _ p o a) envs_lookup_split //=.
  by rw HQ.
Qed.

Lemma tac_wp_writes Δ Δ' i p o o' (c : prog unit) (k : unit -> prog B) Q :
  Writes c p o o' -> envs_lookup i Δ = Some (false, p ↦ o)%I ->
  envs_simple_replace i false (Esnoc Enil i (p ↦ o')%I) Δ = Some Δ' ->
  envs_entails Δ' (wp (k tt) Q) -> envs_entails Δ (wp (c ≫= k) Q).
Proof.
  rw envs_entails_unseal=> Hc Hi Hr HQ. rw -wp_bind -(wp_writes _ p o o').
  rw envs_simple_replace_sound // /=. rw (right_id emp%I bi_sep). by rw HQ.
Qed.

Lemma tac_wp_free Δ Δ' i p o (k : unit -> prog B) Q :
  envs_lookup_delete false i Δ = Some (false, p ↦ o, Δ')%I ->
  envs_entails Δ' (wp (k tt) Q) -> envs_entails Δ (wp (free p ≫= k) Q).
Proof.
  rw envs_entails_unseal=> Hi HQ. rw -wp_bind -(wp_free p o).
  rw envs_lookup_delete_sound //=. by rw HQ.
Qed.
End tactics.

#[export] Instance wp_mono_proper {A} (c : prog A) :
  Proper (pointwise_relation _ (⊢) ==> (⊢)) (wp c).
Proof.
  intros Q Q' HQ. iIntros "H". iApply wp_wand. iFrame "H". iIntros (a) "H". by iApply HQ.
Qed.
#[export] Instance wp_proper {A} (c : prog A) :
  Proper (pointwise_relation _ (⊣⊢) ==> (⊣⊢)) (wp c).
Proof.
  intros Q Q' HQ. apply bi.equiv_entails. split; apply wp_mono_proper; intros a; by rw HQ.
Qed.

(** Calling a program whose effect is known, or that only reads. *)
Lemma wp_call {A B} P (R : A -> assertion) (c : prog A) (k : A -> prog B) Q :
  (P ⊢ wp c R) -> P ∗ (∀ a, R a -∗ wp (k a) Q) ⊢ wp (c ≫= k) Q.
Proof. intros H. rw -wp_bind H. iIntros "H". iApply (wp_wand with "H"). Qed.

Definition reading {A} (P : assertion) (c : prog A) (v : A) : Prop := P ⊢ wp c (fun r => ⌜r = v⌝ ∧ P).

#[export] Instance reading_proper {A} : Proper ((⊣⊢) ==> (=) ==> (=) ==> iff) (@reading A).
Proof.
  intros P P' HP c ? <- v ? <-. unfold reading.
  assert (wp c (fun r => ⌜r = v⌝ ∧ P) ⊣⊢ wp c (fun r => ⌜r = v⌝ ∧ P'))%I as E
    by (apply wp_proper; intros r; by rw HP).
  rw E. by rw HP.
Qed.

Lemma wp_reading {A B} P (v : A) (c : prog A) (k : A -> prog B) Q :
  reading P c v -> P ∗ (P -∗ wp (k v) Q) ⊢ wp (c ≫= k) Q.
Proof.
  intros H. iIntros "[HP HQ]". iApply (wp_call _ _ _ _ _ H). iFrame "HP".
  iIntros (r) "[-> HP]". by iApply "HQ".
Qed.

Lemma wp_reading_end {A} P (v : A) (c : prog A) Q :
  reading P c v -> P ∗ (P -∗ Q v) ⊢ wp c Q.
Proof.
  intros H. iIntros "[HP HQ]". iApply wp_wand. iSplitL "HP"; [by iApply H|].
  iIntros (r) "[-> HP]". by iApply "HQ".
Qed.

Lemma return_true {A} text (val : A) rest : return_val_if_fail true text val rest = rest.
Proof. done. Qed.

(** Programs in the normal form of binds. *)
Lemma bind_ret {A B} (a : A) (k : A -> prog B) : mret a ≫= k = k a.
Proof. done. Qed.
Lemma wp_assoc {A B C} (c : prog A) (k : A -> prog B) (k' : B -> prog C) Q :
  wp (c ≫= fun a => k a ≫= k') Q ⊢ wp ((c ≫= k) ≫= k') Q.
Proof.
  split. intros h H rest log Hd. destruct (H rest log Hd) as (b & h' & E & H').
  exists b, h'. split; [|done]. revert E. rw /mbind /prog_bind. by destruct (c _) as [[]|].
Qed.
Lemma wp_end {A} (c : prog A) Q : wp (c ≫= fun a => mret a) Q ⊢ wp c Q.
Proof.
  split. intros h H rest log Hd. destruct (H rest log Hd) as (b & h' & E & H').
  exists b, h'. split; [|done]. revert E. rw /mbind /prog_bind. by destruct (c _) as [[]|].
Qed.

(** Reading a field of a structure. *)
Ltac wp_fields := cbn [l_data l_next l_prev q_head q_tail q_length].
(** Taking a branch. *)
Ltac wp_if :=
  change (Datatypes.negb true) with false; change (Datatypes.negb false) with true;
  rw ?return_true ?andb_true_l ?andb_true_r ?andb_false_l ?andb_false_r ?orb_true_l ?orb_true_r ?orb_false_l ?orb_false_r;
  cbv beta iota.
Ltac wp_cell := first [iAssumptionCore | fail 1 "no such object in the context"].
Ltac wp_norm :=
  wp_if;
  repeat match goal with
  | |- envs_entails _ (wp (mret _ ≫= _) _) => rw bind_ret
  | |- envs_entails _ (wp ((_ ≫= _) ≫= _) _) => iApply wp_assoc
  end; cbv beta.
(** Decides a test of two addresses that the context knows to be equal, or not. *)
Ltac wp_test :=
  match goal with
  | |- envs_entails _ (wp ?c _) =>
      match c with
      | context [?a =? ?b] =>
          first [ rw (proj2 (Z.eqb_eq a b)); [|done || lia]
                | rw (proj2 (Z.eqb_neq a b)); [|done || lia] ]
      end
  end; wp_if.
(** One step on an object of the context. *)
Ltac wp_step :=
  wp_norm;
  lazymatch goal with
  | |- envs_entails _ (wp (free _ ≫= _) _) =>
      eapply tac_wp_free; [wp_cell|cbn [envs_lookup_delete]]
  | |- envs_entails _ (wp (_ ≫= _) _) =>
      first
        [ eapply tac_wp_reads; [apply _|wp_cell|]
        | eapply tac_wp_writes; [apply _|wp_cell|reflexivity|] ]
  | |- envs_entails _ (wp (mret _) _) => iApply wp_ret
  | |- envs_entails _ (wp _ _) => iApply wp_end; wp_step
  end; cbn beta iota; wp_fields.
Ltac wp_steps := repeat (wp_step || wp_test).
