(* ===== verification/DList.v ===== *)
(** * Doubly-linked lists: src/glib/glist.c

    Lists are built of nodes of the shared memory, and a list is the address of
    a node or [NULL]. The functions are programs of [Heap]; a loop that follows
    pointers runs on as many turns as there are objects. The caller's functions
    are programs too; comparison functions are pure. *)

From iris.proofmode Require Import proofmode.
From S2P Require Import Prelude.
From S2P Require Import Heap.
Local Open Scope Z_scope.

(** ** Nodes *)

Abbreviation NULL := 0.

Definition load_node (p : Z) : prog xlist_t :=
  o ← load p; match o with ListNode c => mret c | _ => undefined end.
Definition get_data (p : Z) : prog Z := c ← load_node p; mret (l_data c).
Definition get_next (p : Z) : prog Z := c ← load_node p; mret (l_next c).
Definition get_prev (p : Z) : prog Z := c ← load_node p; mret (l_prev c).
Definition set_data (p x : Z) : prog unit :=
  c ← load_node p; store p (ListNode (XList x (l_next c) (l_prev c))).
Definition set_next (p x : Z) : prog unit :=
  c ← load_node p; store p (ListNode (XList (l_data c) x (l_prev c))).
Definition set_prev (p x : Z) : prog unit :=
  c ← load_node p; store p (ListNode (XList (l_data c) (l_next c) x)).

(** A variable of the caller. *)
Definition load_word (p : Z) : prog Z :=
  o ← load p; match o with Word v => mret v | _ => undefined end.
Definition store_word (p v : Z) : prog unit := _ ← load_word p; store p (Word v).

Section glist.
Context `{Allocator}.

Definition _xlist_alloc : prog Z := alloc (ListNode (XList uninitialised uninitialised uninitialised)).
Definition _xlist_alloc0 : prog Z := alloc (ListNode (XList 0 0 0)).
Definition _xlist_free1 (list : Z) : prog unit := if list =? NULL then mret tt else free list.
Definition xlist_alloc : prog Z := _xlist_alloc0.

(** ** Reading a list *)

Fixpoint last_loop (fuel : nat) (list : Z) : prog Z :=
  match fuel with
  | O => undefined
  | S fuel =>
      nx ← get_next list;
      if nx =? NULL then mret list else last_loop fuel nx
  end.
Definition xlist_last (list : Z) : prog Z :=
  if list =? NULL then mret list else fuel ← loop_bound; last_loop fuel list.

Fixpoint first_loop (fuel : nat) (list : Z) : prog Z :=
  match fuel with
  | O => undefined
  | S fuel =>
      pv ← get_prev list;
      if pv =? NULL then mret list else first_loop fuel pv
  end.
Definition xlist_first (list : Z) : prog Z :=
  if list =? NULL then mret list else fuel ← loop_bound; first_loop fuel list.

Fixpoint list_length_loop (fuel : nat) (list length : Z) : prog Z :=
  match fuel with
  | O => undefined
  | S fuel =>
      if list =? NULL then mret length
      else list ← get_next list; list_length_loop fuel list (wrap 32 (length + 1))
  end.
Definition xlist_length (list : Z) : prog Z := fuel ← loop_bound; list_length_loop fuel list 0.

(** [while ((n-- > 0) && list) list = list->next] *)
Fixpoint walk_loop (step : Z -> prog Z) (fuel : nat) (list n : Z) : prog Z :=
  match fuel with
  | O => undefined
  | S fuel =>
      if (0 <? n) && negb (list =? NULL)
      then list ← step list; walk_loop step fuel list (n - 1)
      else mret list
  end.
Definition xlist_nth (list n : Z) : prog Z := fuel ← loop_bound; walk_loop get_next fuel list n.
Definition xlist_nth_prev (list n : Z) : prog Z := fuel ← loop_bound; walk_loop get_prev fuel list n.
Definition xlist_nth_data (list n : Z) : prog Z :=
  fuel ← loop_bound; list ← walk_loop get_next fuel list n;
  if list =? NULL then mret NULL else get_data list.

(** The first node that [found] accepts. *)
Fixpoint list_find_loop (found : Z -> bool) (fuel : nat) (list : Z) : prog Z :=
  match fuel with
  | O => undefined
  | S fuel =>
      if list =? NULL then mret list
      else
        d ← get_data list;
        if found d then mret list
        else list ← get_next list; list_find_loop found fuel list
  end.
Definition xlist_find (list data : Z) : prog Z :=
  fuel ← loop_bound; list_find_loop (fun d => d =? data) fuel list.
Definition xlist_find_custom (list data : Z) (func : Z -> Z -> Z) : prog Z :=
  fuel ← loop_bound; list_find_loop (fun d => func d data =? 0) fuel list.

(** [i++] for an [int]. *)
Definition int_incr (i : Z) : prog Z := if i =? 2 ^ 31 - 1 then undefined else mret (i + 1).

Fixpoint position_loop (fuel : nat) (list llink i : Z) : prog Z :=
  match fuel with
  | O => undefined
  | S fuel =>
      if list =? NULL then mret (-1)
      else if list =? llink then mret i
      else i ← int_incr i; list ← get_next list; position_loop fuel list llink i
  end.
Definition xlist_position (list llink : Z) : prog Z := fuel ← loop_bound; position_loop fuel list llink 0.

Fixpoint index_loop (fuel : nat) (list data i : Z) : prog Z :=
  match fuel with
  | O => undefined
  | S fuel =>
      if list =? NULL then mret (-1)
      else
        d ← get_data list;
        if d =? data then mret i
        else i ← int_incr i; list ← get_next list; index_loop fuel list data i
  end.
Definition xlist_index (list data : Z) : prog Z := fuel ← loop_bound; index_loop fuel list data 0.

Fixpoint list_foreach_loop (func : Z -> prog unit) (fuel : nat) (list : Z) : prog unit :=
  match fuel with
  | O => undefined
  | S fuel =>
      if list =? NULL then mret tt
      else
        nx ← get_next list;
        d ← get_data list;
        func d;;
        list_foreach_loop func fuel nx
  end.
Definition xlist_foreach (list : Z) (func : Z -> prog unit) : prog unit :=
  fuel ← loop_bound; list_foreach_loop func fuel list.

(** ** Freeing *)

(** [g_slice_free_chain (xlist_t, list, next)] *)
Fixpoint free_chain (fuel : nat) (slice : Z) : prog unit :=
  match fuel with
  | O => undefined
  | S fuel =>
      if slice =? NULL then mret tt
      else nx ← get_next slice; free slice;; free_chain fuel nx
  end.
Definition xlist_free (list : Z) : prog unit := fuel ← loop_bound; free_chain fuel list.
Definition xlist_free_1 (list : Z) : prog unit := _xlist_free1 list.
Definition xlist_free_full (list : Z) (free_func : Z -> prog unit) : prog unit :=
  xlist_foreach list free_func;; xlist_free list.
Definition g_clear_list (list_ptr : Z) (destroy : option (Z -> prog unit)) : prog unit :=
  list ← load_word list_ptr;
  if list =? NULL then mret tt
  else
    store_word list_ptr NULL;;
    match destroy with
    | Some destroy => xlist_free_full list destroy
    | None => xlist_free list
    end.

(** ** Adding nodes *)

Definition xlist_append (list data : Z) : prog Z :=
  new_list ← _xlist_alloc;
  set_data new_list data;;
  set_next new_list NULL;;
  if negb (list =? NULL) then
    last ← xlist_last list;
    set_next last new_list;;
    set_prev new_list last;;
    mret list
  else
    set_prev new_list NULL;;
    mret new_list.

Definition xlist_prepend (list data : Z) : prog Z :=
  new_list ← _xlist_alloc;
  set_data new_list data;;
  set_next new_list list;;
  if negb (list =? NULL) then
    pv ← get_prev list;
    set_prev new_list pv;;
    pv ← get_prev list;
    (if negb (pv =? NULL) then pv ← get_prev list; set_next pv new_list else mret tt);;
    set_prev list new_list;;
    mret new_list
  else
    set_prev new_list NULL;;
    mret new_list.

Definition xlist_insert (list data position : Z) : prog Z :=
  if position <? 0 then xlist_append list data
  else if position =? 0 then xlist_prepend list data
  else
    tmp_list ← xlist_nth list (wrap 32 position);
    if tmp_list =? NULL then xlist_append list data
    else
      new_list ← _xlist_alloc;
      set_data new_list data;;
      pv ← get_prev tmp_list;
      set_prev new_list pv;;
      pv ← get_prev tmp_list;
      set_next pv new_list;;
      set_next new_list tmp_list;;
      set_prev tmp_list new_list;;
      mret list.

(** [for (last = list; last->next != NULL; last = last->next) {}] is the loop of
    [xlist_last]. *)
Definition xlist_insert_before_link (list sibling link_ : Z) : prog Z :=
  return_val_if_fail (negb (link_ =? NULL)) "link_ != NULL" list (
  pv ← get_prev link_;
  return_val_if_fail (pv =? NULL) "link_->prev == NULL" list (
  nx ← get_next link_;
  return_val_if_fail (nx =? NULL) "link_->next == NULL" list (
  if list =? NULL then
    return_val_if_fail (sibling =? NULL) "sibling == NULL" list (mret link_)
  else if negb (sibling =? NULL) then
    pv ← get_prev sibling;
    set_prev link_ pv;;
    set_next link_ sibling;;
    set_prev sibling link_;;
    pv ← get_prev link_;
    if negb (pv =? NULL) then
      pv ← get_prev link_;
      set_next pv link_;;
      mret list
    else
      return_val_if_fail (sibling =? list) "sibling == list" link_ (mret link_)
  else
    fuel ← loop_bound;
    last ← last_loop fuel list;
    set_next last link_;;
    nx ← get_next last;
    set_prev nx last;;
    nx ← get_next last;
    set_next nx NULL;;
    mret list))).

Definition xlist_insert_before (list sibling data : Z) : prog Z :=
  if list =? NULL then
    list ← xlist_alloc;
    set_data list data;;
    return_val_if_fail (sibling =? NULL) "sibling == NULL" list (mret list)
  else if negb (sibling =? NULL) then
    node ← _xlist_alloc;
    set_data node data;;
    pv ← get_prev sibling;
    set_prev node pv;;
    set_next node sibling;;
    set_prev sibling node;;
    pv ← get_prev node;
    if negb (pv =? NULL) then
      pv ← get_prev node;
      set_next pv node;;
      mret list
    else
      return_val_if_fail (sibling =? list) "sibling == list" node (mret node)
  else
    fuel ← loop_bound;
    last ← last_loop fuel list;
    new_list ← _xlist_alloc;
    set_next last new_list;;
    nx ← get_next last;
    set_data nx data;;
    nx ← get_next last;
    set_prev nx last;;
    nx ← get_next last;
    set_next nx NULL;;
    mret list.

Definition xlist_concat (list1 list2 : Z) : prog Z :=
  if negb (list2 =? NULL) then
    tmp_list ← xlist_last list1;
    list1 ← (if negb (tmp_list =? NULL) then set_next tmp_list list2;; mret list1 else mret list2);
    set_prev list2 tmp_list;;
    mret list1
  else mret list1.

(** ** Removing nodes *)

Definition _xlist_remove_link (list link : Z) : prog Z :=
  if link =? NULL then mret list
  else
    pv ← get_prev link;
    (if negb (pv =? NULL) then
       pv ← get_prev link;
       pn ← get_next pv;
       if pn =? link then
         pv ← get_prev link; nx ← get_next link; set_next pv nx
       else g_warning "corrupted double-linked list detected"
     else mret tt);;
    nx ← get_next link;
    (if negb (nx =? NULL) then
       nx ← get_next link;
       np ← get_prev nx;
       if np =? link then
         nx ← get_next link; pv ← get_prev link; set_prev nx pv
       else g_warning "corrupted double-linked list detected"
     else mret tt);;
    list ← (if link =? list then get_next list else mret list);
    set_next link NULL;;
    set_prev link NULL;;
    mret list.

Definition xlist_remove_link (list llink : Z) : prog Z := _xlist_remove_link list llink.
Definition xlist_delete_link (list link_ : Z) : prog Z :=
  list ← _xlist_remove_link list link_;
  _xlist_free1 link_;;
  mret list.

Fixpoint list_remove_loop (fuel : nat) (list tmp data : Z) : prog Z :=
  match fuel with
  | O => undefined
  | S fuel =>
      if tmp =? NULL then mret list
      else
        d ← get_data tmp;
        if negb (d =? data) then nx ← get_next tmp; list_remove_loop fuel list nx data
        else
          list ← _xlist_remove_link list tmp;
          _xlist_free1 tmp;;
          mret list
  end.
Definition xlist_remove (list data : Z) : prog Z := fuel ← loop_bound; list_remove_loop fuel list list data.

Fixpoint list_remove_all_loop (fuel : nat) (list tmp data : Z) : prog Z :=
  match fuel with
  | O => undefined
  | S fuel =>
      if tmp =? NULL then mret list
      else
        d ← get_data tmp;
        if negb (d =? data) then nx ← get_next tmp; list_remove_all_loop fuel list nx data
        else
          nx ← get_next tmp;
          pv ← get_prev tmp;
          list ← (if negb (pv =? NULL) then pv ← get_prev tmp; set_next pv nx;; mret list else mret nx);
          (if negb (nx =? NULL) then pv ← get_prev tmp; set_prev nx pv else mret tt);;
          _xlist_free1 tmp;;
          list_remove_all_loop fuel list nx data
  end.
Definition xlist_remove_all (list data : Z) : prog Z := fuel ← loop_bound; list_remove_all_loop fuel list list data.

(** ** Copying and reversing *)

Definition copied (func : option (Z -> prog Z)) (d : Z) : prog Z :=
  match func with Some func => func d | None => mret d end.

Fixpoint copy_loop (func : option (Z -> prog Z)) (fuel : nat) (last list : Z) : prog Z :=
  match fuel with
  | O => undefined
  | S fuel =>
      if list =? NULL then mret last
      else
        new_list ← _xlist_alloc;
        set_next last new_list;;
        nx ← get_next last;
        set_prev nx last;;
        last ← get_next last;
        d ← get_data list;
        d ← copied func d;
        set_data last d;;
        list ← get_next list;
        copy_loop func fuel last list
  end.
Definition xlist_copy_deep (list : Z) (func : option (Z -> prog Z)) : prog Z :=
  if negb (list =? NULL) then
    new_list ← _xlist_alloc;
    d ← get_data list;
    d ← copied func d;
    set_data new_list d;;
    set_prev new_list NULL;;
    list ← get_next list;
    fuel ← loop_bound;
    last ← copy_loop func fuel new_list list;
    set_next last NULL;;
    mret new_list
  else mret NULL.
Definition xlist_copy (list : Z) : prog Z := xlist_copy_deep list None.

Fixpoint reverse_loop (fuel : nat) (list last : Z) : prog Z :=
  match fuel with
  | O => undefined
  | S fuel =>
      if list =? NULL then mret last
      else
        let last := list in
        list ← get_next last;
        pv ← get_prev last;
        set_next last pv;;
        set_prev last list;;
        reverse_loop fuel list last
  end.
Definition xlist_reverse (list : Z) : prog Z := fuel ← loop_bound; reverse_loop fuel list NULL.

(** ** Order *)

Section order.
Context (func : Z -> Z -> Z).

Fixpoint insert_sorted_loop (fuel : nat) (tmp_list data cmp : Z) : prog (Z * Z) :=
  match fuel with
  | O => undefined
  | S fuel =>
      nx ← get_next tmp_list;
      if negb (nx =? NULL) && (0 <? cmp) then
        tmp_list ← get_next tmp_list;
        d ← get_data tmp_list;
        insert_sorted_loop fuel tmp_list data (func data d)
      else mret (tmp_list, cmp)
  end.
Definition xlist_insert_sorted_real (list data : Z) : prog Z :=
  if list =? NULL then
    new_list ← _xlist_alloc0;
    set_data new_list data;;
    mret new_list
  else
    d ← get_data list;
    fuel ← loop_bound;
    '(tmp_list, cmp) ← insert_sorted_loop fuel list data (func data d);
    new_list ← _xlist_alloc0;
    set_data new_list data;;
    nx ← get_next tmp_list;
    if (nx =? NULL) && (0 <? cmp) then
      set_next tmp_list new_list;;
      set_prev new_list tmp_list;;
      mret list
    else
      pv ← get_prev tmp_list;
      (if negb (pv =? NULL) then
         pv ← get_prev tmp_list;
         set_next pv new_list;;
         pv ← get_prev tmp_list;
         set_prev new_list pv
       else mret tt);;
      set_next new_list tmp_list;;
      set_prev tmp_list new_list;;
      if tmp_list =? list then mret new_list else mret list.
Definition xlist_insert_sorted (list data : Z) : prog Z := xlist_insert_sorted_real list data.
Definition xlist_insert_sorted_with_data (list data : Z) : prog Z := xlist_insert_sorted_real list data.

Fixpoint sort_merge_loop (fuel : nat) (l1 l2 l lprev : Z) : prog (Z * Z * Z) :=
  match fuel with
  | O => undefined
  | S fuel =>
      if negb (l1 =? NULL) && negb (l2 =? NULL) then
        d1 ← get_data l1;
        d2 ← get_data l2;
        '(l1, l2) ← (if func d1 d2 <=? 0
                     then set_next l l1;; l1 ← get_next l1; mret (l1, l2)
                     else set_next l l2;; l2 ← get_next l2; mret (l1, l2));
        l ← get_next l;
        set_prev l lprev;;
        let lprev := l in
        sort_merge_loop fuel l1 l2 l lprev
      else mret (l1, l2, l)
  end.
(** The local variable [list] is a node of its own. *)
Definition xlist_sort_merge (l1 l2 : Z) : prog Z :=
  list ← _xlist_alloc;
  fuel ← loop_bound;
  '(l1, l2, l) ← sort_merge_loop fuel l1 l2 list NULL;
  set_next l (if negb (l1 =? NULL) then l1 else l2);;
  nx ← get_next l;
  set_prev nx l;;
  result ← get_next list;
  free list;;
  mret result.

(** [while ((l2 = l2->next) != NULL) ...] *)
Fixpoint sort_split_loop (fuel : nat) (l1 l2 : Z) : prog Z :=
  match fuel with
  | O => undefined
  | S fuel =>
      l2 ← get_next l2;
      if l2 =? NULL then mret l1
      else
        l2 ← get_next l2;
        if l2 =? NULL then mret l1
        else l1 ← get_next l1; sort_split_loop fuel l1 l2
  end.
(** The arguments of the merge are evaluated from left to right. *)
Fixpoint sort_real (fuel : nat) (list : Z) : prog Z :=
  match fuel with
  | O => undefined
  | S fuel =>
      if list =? NULL then mret NULL
      else
        nx ← get_next list;
        if nx =? NULL then mret list
        else
          let l1 := list in
          l2 ← get_next list;
          turns ← loop_bound;
          l1 ← sort_split_loop turns l1 l2;
          l2 ← get_next l1;
          set_next l1 NULL;;
          list ← sort_real fuel list;
          l2 ← sort_real fuel l2;
          xlist_sort_merge list l2
  end.
Definition xlist_sort_real (list : Z) : prog Z := fuel ← loop_bound; sort_real fuel list.
Definition xlist_sort (list : Z) : prog Z := xlist_sort_real list.
Definition xlist_sort_with_data (list : Z) : prog Z := xlist_sort_real list.
End order.
End glist.
