(* ===== verification/DListSpec.v ===== *)
(** * Lists in memory

    A list in memory is a list of nodes, each an address and its data; the
    assertion [nodes] owns exactly them. Rules for the steps of [DList], and the
    loops that read a list. *)

From iris.proofmode Require Import proofmode.
From S2P Require Import Prelude.
From S2P Require Import Heap.
From S2P Require Import DList.
Local Open Scope Z_scope.

(** ** Rules for the fields *)

#[export] Instance reads_data p c : Reads (get_data p) p (ListNode c) (l_data c).
Proof. intros m H. by rw /get_data /load_node /load /mbind /prog_bind H. Qed.
#[export] Instance reads_next p c : Reads (get_next p) p (ListNode c) (l_next c).
Proof. intros m H. by rw /get_next /load_node /load /mbind /prog_bind H. Qed.
#[export] Instance reads_prev p c : Reads (get_prev p) p (ListNode c) (l_prev c).
Proof. intros m H. by rw /get_prev /load_node /load /mbind /prog_bind H. Qed.
#[export] Instance reads_word p v : Reads (load_word p) p (Word v) v.
Proof. intros m H. by rw /load_word /load /mbind /prog_bind H. Qed.

Ltac solve_writes H :=
  rw /load_node /load_word /load /store /mbind /prog_bind H /= /mbind /= ?H; reflexivity.
#[export] Instance writes_data p c x :
  Writes (set_data p x) p (ListNode c) (ListNode (XList x (l_next c) (l_prev c))).
Proof. intros m H. unfold set_data. solve_writes H. Qed.
#[export] Instance writes_next p c x :
  Writes (set_next p x) p (ListNode c) (ListNode (XList (l_data c) x (l_prev c))).
Proof. intros m H. unfold set_next. solve_writes H. Qed.
#[export] Instance writes_prev p c x :
  Writes (set_prev p x) p (ListNode c) (ListNode (XList (l_data c) (l_next c) x)).
Proof. intros m H. unfold set_prev. solve_writes H. Qed.
#[export] Instance writes_word p v x : Writes (store_word p x) p (Word v) (Word x).
Proof. intros m H. unfold store_word. solve_writes H. Qed.

(** ** Nodes *)

Definition first_of (l : list (Z * Z)) (nx : Z) : Z :=
  match l with [] => nx | (a, _) :: _ => a end.
Fixpoint last_of (pv : Z) (l : list (Z * Z)) : Z :=
  match l with [] => pv | (a, _) :: l => last_of a l end.

(** The nodes of [l], between the nodes [pv] and [nx]. *)
Fixpoint nodes (pv : Z) (l : list (Z * Z)) (nx : Z) : assertion :=
  match l with
  | [] => emp
  | (a, d) :: l => a ↦ ListNode (XList d (first_of l nx) pv) ∗ nodes a l nx
  end%I.

(** A whole list, and what the program that returns its address leaves. *)
Definition dlist (l : list (Z * Z)) : assertion := nodes NULL l NULL.
Definition the_list (l : list (Z * Z)) (p : Z) : assertion := (⌜p = first_of l NULL⌝ ∧ dlist l)%I.

Lemma first_of_app l1 l2 nx : first_of (l1 ++ l2) nx = first_of l1 (first_of l2 nx).
Proof. by destruct l1 as [|[]]. Qed.
Lemma last_of_app pv l1 l2 : last_of pv (l1 ++ l2) = last_of (last_of pv l1) l2.
Proof. revert pv. induction l1 as [|[a d] l1 IH]; intros pv; [done|apply IH]. Qed.
Lemma last_of_snoc pv l a d : last_of pv (l ++ [(a, d)]) = a.
Proof. by rw last_of_app. Qed.

Lemma nodes_app pv l1 l2 nx :
  nodes pv (l1 ++ l2) nx ⊣⊢ nodes pv l1 (first_of l2 nx) ∗ nodes (last_of pv l1) l2 nx.
Proof.
  revert pv. induction l1 as [|[a d] l1 IH]; intros pv; cbn.
  - by rw left_id.
  - by rw IH first_of_app assoc.
Qed.

Lemma nodes_size pv l nx : nodes pv l nx ⊢ at_least (length l).
Proof.
  revert pv. induction l as [|[a d] l IH]; intros pv; cbn; [apply at_least_0|].
  by rw IH points_to_at_least at_least_sep.
Qed.

(** The node at an end of a list is not the null pointer. *)
Lemma first_not_null pv l nx : nodes pv l nx ⊢ ⌜first_of l 0 = 0 -> l = []⌝.
Proof.
  destruct l as [|[a d] l]; cbn; iIntros "H"; [by iPureIntro|].
  iDestruct "H" as "[Ha H]". iDestruct (points_to_not_null with "Ha") as %Hn.
  by iPureIntro; intros.
Qed.
(** ** Loops that read *)

Lemma nodes_not_null pv a d l nx : nodes pv ((a, d) :: l) nx ⊢ ⌜a <> 0⌝.
Proof. iIntros "[Ha Hl]". iApply (points_to_not_null with "Ha"). Qed.

#[export] Instance into_sep_nodes pv a d l nx :
  IntoSep (nodes pv ((a, d) :: l) nx) (a ↦ ListNode (XList d (first_of l nx) pv)) (nodes a l nx).
Proof. by rw /IntoSep. Qed.
#[export] Instance from_sep_nodes pv a d l nx :
  FromSep (nodes pv ((a, d) :: l) nx) (a ↦ ListNode (XList d (first_of l nx) pv)) (nodes a l nx).
Proof. by rw /FromSep. Qed.

Lemma nodes_snoc pv l b e nx :
  nodes pv (l ++ [(b, e)]) nx ⊣⊢ nodes pv l b ∗ b ↦ ListNode (XList e nx (last_of pv l)).
Proof. by rw nodes_app /= right_id. Qed.

Lemma nodes_front pv l nx : l <> [] -> nodes pv l nx ⊢ ⌜first_of l NULL <> 0⌝.
Proof. intros Hl. destruct l as [|[a d] l]; [done|]. apply nodes_not_null. Qed.

Lemma nodes_ne pv l nx a o : nodes pv l nx ∗ a ↦ o ⊢ ⌜a ∉ l.*1⌝.
Proof.
  revert pv. induction l as [|[b e] l IH]; intros pv.
  - iIntros "_". iPureIntro. by apply not_elem_of_nil.
  - iIntros "[[Hb Hl] Ha]". iDestruct (points_to_ne with "[$Hb $Ha]") as %Hn.
    iDestruct (IH with "[$Hl $Ha]") as %Hl. iPureIntro. by apply not_elem_of_cons.
Qed.

(** Reading a field of a node inside a list. *)
Lemma read_next pv l1 a d l2 nx : reading (nodes pv (l1 ++ (a, d) :: l2) nx) (get_next a) (first_of l2 nx).
Proof. rw nodes_app. unfold reading. iIntros "[H1 [Ha H2]]". do 2 wp_step. by iFrame. Qed.
Lemma read_prev pv l1 a d l2 nx : reading (nodes pv (l1 ++ (a, d) :: l2) nx) (get_prev a) (last_of pv l1).
Proof. rw nodes_app. unfold reading. iIntros "[H1 [Ha H2]]". do 2 wp_step. by iFrame. Qed.
Lemma read_data pv l1 a d l2 nx : reading (nodes pv (l1 ++ (a, d) :: l2) nx) (get_data a) d.
Proof. rw nodes_app. unfold reading. iIntros "[H1 [Ha H2]]". do 2 wp_step. by iFrame. Qed.

(** Owning some nodes, a loop may run for as many turns as there are. *)
Lemma wp_bound pv l nx P {B} (k : nat -> prog B) Q :
  (P ⊢ nodes pv l nx ∗ True)%I ->
  (forall fuel, (length l < fuel)%nat -> P ⊢ wp (k fuel) Q) -> P ⊢ wp (loop_bound ≫= k) Q.
Proof.
  intros HP Hk. rw -wp_bind -(wp_loop_bound (length l)). iIntros "H". iSplit.
  - rw HP nodes_size (at_least_0 True%I). iDestruct (at_least_sep with "H") as "H".
    by rw Nat.add_0_r.
  - iIntros (fuel Hf). by iApply Hk.
Qed.

(** One turn of a loop that goes on with the rest of the list. *)
Ltac go_on IH := iApply (wp_reading_end _ _ _ _ IH); iFrame "Hl"; iIntros "Hl"; cbn [nodes]; iFrame; try done.

Lemma last_loop_ok fuel pv a d l :
  (length l < fuel)%nat -> reading (nodes pv ((a, d) :: l) NULL) (last_loop fuel a) (last_of a l).
Proof.
  unfold reading. revert fuel pv a d.
  induction l as [|[b e] l IH]; intros [|fuel] pv a d Hf; cbn in Hf; try lia; cbn [last_loop].
  - iIntros "[Ha _]". wp_step. wp_test. wp_step. by iFrame.
  - iIntros "[Ha Hl]". wp_step. cbn [first_of].
    iDestruct (nodes_not_null with "Hl") as %Hb. wp_test.
    assert (length l < fuel)%nat as Hf' by lia. go_on (IH fuel a b e Hf').
Qed.

Lemma length_loop_ok fuel pv l i :
  (length l < fuel)%nat -> 0 <= i < 2 ^ 32 ->
  reading (nodes pv l NULL) (list_length_loop fuel (first_of l NULL) i) (wrap 32 (i + zlen l)).
Proof.
  unfold reading. revert fuel pv i.
  induction l as [|[a d] l IH]; intros [|fuel] pv i Hf Hi; cbn in Hf; try lia; cbn [list_length_loop first_of].
  - iIntros "_". wp_test. wp_step. rw Z.add_0_r wrap_small //.
  - iIntros "[Ha Hl]". iDestruct (points_to_not_null with "Ha") as %Ha. wp_test. wp_step.
    assert (length l < fuel)%nat as Hf' by lia. go_on (IH fuel a (wrap 32 (i + 1)) Hf' (wrap_range 32 _ ltac:(lia))).
    iPureIntro. rw zlen_cons. unfold wrap. by rw Zplus_mod_idemp_l Z.add_assoc.
Qed.

Lemma walk_next_ok fuel pv l n :
  (length l < fuel)%nat ->
  reading (nodes pv l NULL) (walk_loop get_next fuel (first_of l NULL) n) (first_of (drop (Z.to_nat n) l) NULL).
Proof.
  unfold reading. revert fuel pv n.
  induction l as [|[a d] l IH]; intros [|fuel] pv n Hf; cbn in Hf; try lia; cbn [walk_loop first_of].
  - iIntros "_". wp_test. rw drop_nil. wp_step. done.
  - iIntros "[Ha Hl]". iDestruct (points_to_not_null with "Ha") as %Ha. wp_test.
    destruct (Z.ltb_spec 0 n) as [Hn|Hn]; wp_if.
    + wp_step. replace (Z.to_nat n) with (S (Z.to_nat (n - 1))) by lia. cbn [drop].
      assert (length l < fuel)%nat as Hf' by lia. go_on (IH fuel a (n - 1) Hf').
    + wp_step. replace (Z.to_nat n) with O by lia. by iFrame.
Qed.

(** The part of a list that starts where [found] is true. *)
Fixpoint from (found : Z -> bool) (l : list (Z * Z)) : list (Z * Z) :=
  match l with
  | [] => []
  | (a, d) :: l' => if found d then l else from found l'
  end.

Lemma list_find_loop_ok found fuel pv l :
  (length l < fuel)%nat ->
  reading (nodes pv l NULL) (list_find_loop found fuel (first_of l NULL)) (first_of (from found l) NULL).
Proof.
  unfold reading. revert fuel pv.
  induction l as [|[a d] l IH]; intros [|fuel] pv Hf; cbn in Hf; try lia; cbn [list_find_loop first_of from].
  - iIntros "_". wp_test. by wp_step.
  - iIntros "[Ha Hl]". iDestruct (points_to_not_null with "Ha") as %Ha. wp_test. wp_step.
    destruct (found d).
    + wp_step. by iFrame.
    + wp_step. assert (length l < fuel)%nat as Hf' by lia. go_on (IH fuel a Hf').
Qed.

(** The index of the first element for which [p] is true, from [i] on. *)
Fixpoint index_from (p : Z * Z -> bool) (i : Z) (l : list (Z * Z)) : Z :=
  match l with
  | [] => -1
  | x :: l => if p x then i else index_from p (i + 1) l
  end.

Lemma wp_int_incr i Q : i < 2 ^ 31 - 1 -> Q (i + 1) ⊢ wp (int_incr i) Q.
Proof. intros Hi. iIntros "HQ". unfold int_incr. wp_test. by wp_step. Qed.

Lemma position_loop_ok fuel pv l llink i :
  (length l < fuel)%nat -> i + zlen l < 2 ^ 31 ->
  reading (nodes pv l NULL) (position_loop fuel (first_of l NULL) llink i) (index_from (fun x => x.1 =? llink) i l).
Proof.
  unfold reading. revert fuel pv i.
  induction l as [|[a d] l IH]; intros [|fuel] pv i Hf Hi; cbn in Hf; try lia; cbn [position_loop first_of index_from fst].
  - iIntros "_". wp_test. by wp_step.
  - iIntros "[Ha Hl]". iDestruct (points_to_not_null with "Ha") as %Ha. wp_test.
    rw zlen_cons in Hi. pose proof (zlen_nonneg l). destruct (a =? llink).
    + wp_step. by iFrame.
    + iApply wp_bind. iApply wp_int_incr; [lia|]. wp_step.
      assert (length l < fuel)%nat as Hf' by lia. assert (i + 1 + zlen l < 2 ^ 31) as Hi' by lia.
      go_on (IH fuel a (i + 1) Hf' Hi').
Qed.

Lemma index_loop_ok fuel pv l data i :
  (length l < fuel)%nat -> i + zlen l < 2 ^ 31 ->
  reading (nodes pv l NULL) (index_loop fuel (first_of l NULL) data i) (index_from (fun x => x.2 =? data) i l).
Proof.
  unfold reading. revert fuel pv i.
  induction l as [|[a d] l IH]; intros [|fuel] pv i Hf Hi; cbn in Hf; try lia; cbn [index_loop first_of index_from snd].
  - iIntros "_". wp_test. by wp_step.
  - iIntros "[Ha Hl]". iDestruct (points_to_not_null with "Ha") as %Ha. wp_test. wp_step.
    rw zlen_cons in Hi. pose proof (zlen_nonneg l). destruct (d =? data).
    + wp_step. by iFrame.
    + iApply wp_bind. iApply wp_int_incr; [lia|]. wp_step.
      assert (length l < fuel)%nat as Hf' by lia. assert (i + 1 + zlen l < 2 ^ 31) as Hi' by lia.
      go_on (IH fuel a (i + 1) Hf' Hi').
Qed.

(** Going backwards: the list up to a node is what counts. *)
Lemma first_loop_ok fuel l a d nx :
  (length l < fuel)%nat ->
  reading (nodes NULL (l ++ [(a, d)]) nx) (first_loop fuel a) (first_of (l ++ [(a, d)]) NULL).
Proof.
  revert fuel a d nx.
  induction l as [|[b e] l IH] using rev_ind; intros [|fuel] a d nx Hf; rw ?length_app /= in Hf; try lia; cbn [first_loop].
  - unfold reading. iIntros "[Ha _]". wp_step. wp_test. wp_step. by iFrame.
  - rw nodes_app /= last_of_snoc. unfold reading. iIntros "[Hl [Ha _]]". wp_step.
    iDestruct (nodes_app with "Hl") as "[Hl Hb]". iDestruct (nodes_not_null with "Hb") as %Hb. wp_test.
    iCombine "Hl Hb" as "Hl". rw -nodes_app.
    assert (length l < fuel)%nat as Hf' by lia. go_on (IH fuel b e a Hf').
    by rw -!app_assoc !first_of_app.
Qed.

Lemma walk_prev_ok fuel l nx n :
  (length l < fuel)%nat ->
  reading (nodes NULL l nx) (walk_loop get_prev fuel (last_of NULL l) n)
    (last_of NULL (take (length l - Z.to_nat n) l)).
Proof.
  revert fuel nx n.
  induction l as [|[b e] l IH] using rev_ind; intros [|fuel] nx n Hf; rw ?length_app /= in Hf; try lia; cbn [walk_loop].
  - unfold reading. iIntros "_". cbn [last_of]. wp_test. rw take_nil. by wp_step.
  - rw nodes_app last_of_snoc length_app. unfold reading. iIntros "[Hl [Hb _]]".
    iDestruct (points_to_not_null with "Hb") as %Hb. wp_test.
    destruct (Z.ltb_spec 0 n) as [Hn|Hn]; wp_if.
    + wp_step. assert (length l < fuel)%nat as Hf' by lia. go_on (IH fuel b (n - 1) Hf').
      iPureIntro. split; [|done]. change (length [(b, e)]) with 1%nat. rw take_app_le; [|lia].
      do 2 f_equal. lia.
    + wp_step. iFrame. iPureIntro. rw take_ge ?last_of_snoc //. rw length_app /=. lia.
Qed.

(** Freeing takes every node. *)
Lemma free_chain_ok fuel pv l Q :
  (length l < fuel)%nat -> nodes pv l NULL ∗ Q tt ⊢ wp (free_chain fuel (first_of l NULL)) Q.
Proof.
  revert fuel pv. induction l as [|[a d] l IH]; intros [|fuel] pv Hf; cbn in Hf; try lia; cbn [free_chain first_of].
  - iIntros "[_ HQ]". wp_test. by wp_step.
  - iIntros "[[Ha Hl] HQ]". iDestruct (points_to_not_null with "Ha") as %Ha. wp_test.
    do 2 wp_step. iApply (IH fuel a); [lia|iFrame].
Qed.

(** A callback sees every element in order. It may do what it likes with the
    nodes behind, and with the current one, as long as the list goes on behind
    it; [S] is what it has done and owns, and the node that the rest follows. *)
Lemma list_foreach_loop_ok fuel func (S : list (Z * Z) -> Z -> assertion) l pv :
  (forall before a d after pv, l = before ++ (a, d) :: after ->
    nodes pv ((a, d) :: after) NULL ∗ S before pv ⊢
    wp (func d) (fun _ => ∃ pv', nodes pv' after NULL ∗ S (before ++ [(a, d)]) pv')) ->
  (length l < fuel)%nat ->
  nodes pv l NULL ∗ S [] pv ⊢ wp (list_foreach_loop func fuel (first_of l NULL)) (fun _ => ∃ pv', S l pv').
Proof.
  intros Hfunc.
  assert (forall after before fuel pv, l = before ++ after -> (length after < fuel)%nat ->
    nodes pv after NULL ∗ S before pv ⊢
    wp (list_foreach_loop func fuel (first_of after NULL)) (fun _ => ∃ pv', S l pv')) as IH;
    [|intros Hf; by apply IH].
  induction after as [|[a d] after IH]; intros before [|fuel'] pv0 El Hf; cbn in Hf; try lia; cbn [list_foreach_loop first_of].
  - iIntros "[_ HS]". wp_test. wp_step. iExists pv0. by rw El app_nil_r.
  - iIntros "[[Ha Hl] HS]". iDestruct (points_to_not_null with "Ha") as %Ha. wp_test.
    do 2 wp_step. iApply (wp_call _ _ _ _ _ (Hfunc before a d after pv0 El)). iFrame "Ha Hl HS".
    iIntros (_) "(%pv' & Hl & HS)". iApply (IH (before ++ [(a, d)]) fuel' pv'); [by rw -app_assoc|lia|iFrame].
Qed.

(** ** Functions that read *)

Lemma bound_nodes pv l nx {B} (k : nat -> prog B) R Q :
  (forall fuel, (length l < fuel)%nat -> nodes pv l nx ∗ R ⊢ wp (k fuel) Q) ->
  nodes pv l nx ∗ R ⊢ wp (loop_bound ≫= k) Q.
Proof. intros Hk. apply (wp_bound pv l nx); [iIntros "[$ _]"|done]. Qed.

Lemma reading_bound pv l nx {B} (k : nat -> prog B) v :
  (forall fuel, (length l < fuel)%nat -> reading (nodes pv l nx) (k fuel) v) ->
  reading (nodes pv l nx) (loop_bound ≫= k) v.
Proof. intros Hk. apply (wp_bound pv l nx); [iIntros "$"|done]. Qed.

(** What is read in the front of a list is read in the whole list. *)
Lemma reading_prefix {A} pv l1 l2 nx (c : prog A) v :
  reading (nodes pv l1 (first_of l2 nx)) c v -> reading (nodes pv (l1 ++ l2) nx) c v.
Proof.
  intros Hc. rw nodes_app. unfold reading. iIntros "[H1 H2]".
  iApply (wp_reading_end _ _ _ _ Hc). iFrame "H1". iIntros "H1". by iFrame.
Qed.

Lemma xlist_last_ok pv l : reading (nodes pv l NULL) (xlist_last (first_of l NULL)) (last_of NULL l).
Proof.
  unfold xlist_last. destruct l as [|[a d] l]; cbn [first_of].
  - unfold reading. iIntros "_". by wp_steps.
  - unfold reading. iIntros "Hl". iDestruct (nodes_not_null with "Hl") as %Ha.
     wp_test. iStopProof. apply reading_bound. intros fuel Hf.
    apply (last_loop_ok fuel pv a d l). cbn in Hf. lia.
Qed.

Lemma xlist_first_ok l a d nx :
  reading (nodes NULL (l ++ [(a, d)]) nx) (xlist_first a) (first_of (l ++ [(a, d)]) NULL).
Proof.
  unfold reading. iIntros "Hl". iDestruct (nodes_app with "Hl") as "[Hl Ha]".
  iDestruct (nodes_not_null with "Ha") as %Ha. iCombine "Hl Ha" as "Hl". rw -nodes_app.
  unfold xlist_first. wp_test. iStopProof. apply reading_bound. intros fuel Hf.
  apply first_loop_ok. rw length_app in Hf. cbn in Hf. lia.
Qed.

Lemma xlist_length_ok pv l : reading (nodes pv l NULL) (xlist_length (first_of l NULL)) (wrap 32 (zlen l)).
Proof. apply reading_bound. intros fuel Hf. by apply (length_loop_ok fuel pv l 0). Qed.

Lemma xlist_nth_ok pv l n :
  reading (nodes pv l NULL) (xlist_nth (first_of l NULL) n) (first_of (drop (Z.to_nat n) l) NULL).
Proof. apply reading_bound. intros fuel Hf. by apply walk_next_ok. Qed.

Lemma xlist_nth_prev_ok l nx n :
  reading (nodes NULL l nx) (xlist_nth_prev (last_of NULL l) n) (last_of NULL (take (length l - Z.to_nat n) l)).
Proof. apply reading_bound. intros fuel Hf. by apply walk_prev_ok. Qed.

(** The data of the first element, [NULL] if there is none. *)
Definition first_data (l : list (Z * Z)) : Z := match l with [] => NULL | (_, d) :: _ => d end.

(** Reading the node at the front of the rest of a list. *)
Lemma read_at pv l1 l2 :
  reading (nodes pv (l1 ++ l2) NULL)
    (if first_of l2 NULL =? NULL then mret NULL else get_data (first_of l2 NULL)) (first_data l2).
Proof.
  rw nodes_app. unfold reading. iIntros "[H1 H2]". destruct l2 as [|[a d] l2]; cbn [first_of first_data].
  - wp_steps. by iFrame.
  - iDestruct (nodes_not_null with "H2") as %Ha. iDestruct "H2" as "[Ha H2]".
    wp_steps. by iFrame.
Qed.

Lemma xlist_nth_data_ok pv l n :
  reading (nodes pv l NULL) (xlist_nth_data (first_of l NULL) n) (first_data (drop (Z.to_nat n) l)).
Proof.
  apply reading_bound. intros fuel Hf. unfold reading. iIntros "Hl".
  iApply (wp_reading _ _ _ _ _ (walk_next_ok fuel pv l n Hf)). iFrame "Hl". iIntros "Hl".
  iStopProof. pose proof (read_at pv (take (Z.to_nat n) l) (drop (Z.to_nat n) l)) as Hr.
  by rw take_drop in Hr.
Qed.

Lemma first_data_drop l n : first_data (drop n l) = default NULL (l.*2 !! n).
Proof. revert n. by induction l as [|[a d] l IH]; intros [|n]; cbn. Qed.

Lemma xlist_find_ok pv l data :
  reading (nodes pv l NULL) (xlist_find (first_of l NULL) data) (first_of (from (fun d => d =? data) l) NULL).
Proof. apply reading_bound. intros fuel Hf. by apply list_find_loop_ok. Qed.

Lemma xlist_find_custom_ok pv l data func :
  reading (nodes pv l NULL) (xlist_find_custom (first_of l NULL) data func)
    (first_of (from (fun d => func d data =? 0) l) NULL).
Proof. apply reading_bound. intros fuel Hf. by apply list_find_loop_ok. Qed.

Lemma xlist_position_ok pv l llink :
  zlen l < 2 ^ 31 ->
  reading (nodes pv l NULL) (xlist_position (first_of l NULL) llink) (index_from (fun x => x.1 =? llink) 0 l).
Proof. intros Hl. apply reading_bound. intros fuel Hf. by apply position_loop_ok. Qed.

Lemma xlist_index_ok pv l data :
  zlen l < 2 ^ 31 ->
  reading (nodes pv l NULL) (xlist_index (first_of l NULL) data) (index_from (fun x => x.2 =? data) 0 l).
Proof. intros Hl. apply reading_bound. intros fuel Hf. by apply index_loop_ok. Qed.

(** ** Freeing *)

Lemma xlist_free_ok pv l Q : nodes pv l NULL ∗ Q tt ⊢ wp (xlist_free (first_of l NULL)) Q.
Proof. apply bound_nodes. intros fuel Hf. by apply free_chain_ok. Qed.
