(* ===== verification/DListOps.v ===== *)
(** * The operations on lists

    What the functions of glist.c that change a list do to its nodes, and the
    merge sort. *)

From iris.proofmode Require Import proofmode.
From S2P Require Import Prelude SortMerge Heap DList DListSpec.
Local Open Scope Z_scope.
Local Open Scope xpl_scope.

Section alloc.
Context `{Allocator}.

Lemma wp_new Q : (∀ p c, p ↦ ListNode c -∗ Q p) ⊢ wp _xlist_alloc Q.
Proof. iIntros "HQ". iApply wp_alloc. iIntros (p) "Hp". iApply ("HQ" with "Hp"). Qed.

Lemma wp_free1 a o Q : a ↦ o ∗ Q tt ⊢ wp (_xlist_free1 a) Q.
Proof.
  iIntros "[Ha HQ]". iDestruct (points_to_not_null with "Ha") as %Hn. unfold _xlist_free1. wp_test.
  iApply wp_free. iFrame.
Qed.

End alloc.

(** Allocating and freeing in the middle of a program. *)
Tactic Notation "wp_new" ident(a) constr(Ha) :=
  let c := fresh "junk" in let Hn := fresh "Hn" in
  wp_norm; iApply wp_bind; iApply wp_new; iIntros (a c) Ha;
  iDestruct (points_to_not_null with Ha) as %Hn.

Ltac wp_free1 H := wp_norm; iApply wp_bind; iApply wp_free1; iFrame H.

Section ops.
Context `{Allocator}.

(** ** Adding nodes *)

Lemma append_ok pv l d :
  (l = [] -> pv = NULL) ->
  {{ nodes pv l NULL }} xlist_append (first_of l NULL) d
  {{ p, ∃ a, ⌜p = first_of (l ++ [(a, d)]) NULL⌝ ∧ nodes pv (l ++ [(a, d)]) NULL }}.
Proof.
  intros Hpv. iIntros "Hl". unfold xlist_append. wp_new a "Ha". do 2 wp_step.
  destruct l as [|[b e] l _] using rev_ind.
  - wp_steps. iExists a. cbn. rw Hpv //. by iFrame.
  - iDestruct (nodes_front with "Hl") as %Hb; [by destruct l|]. wp_test.
    iApply (wp_reading _ _ _ _ _ (xlist_last_ok pv (l ++ [(b, e)]))). iFrame "Hl". iIntros "Hl".
    rw last_of_snoc nodes_snoc. iDestruct "Hl" as "[Hl Hb]". do 3 wp_step.
    iExists a. rw nodes_snoc (nodes_snoc pv l) last_of_snoc. iFrame. iPureIntro. by rw -app_assoc !first_of_app.
Qed.

Lemma prepend_ok l1 l2 d :
  (l2 = [] -> l1 = []) ->
  {{ dlist (l1 ++ l2) }} xlist_prepend (first_of l2 NULL) d
  {{ p, ∃ a, ⌜p = a⌝ ∧ dlist (l1 ++ (a, d) :: l2) }}.
Proof.
  intros Hl. unfold dlist. rw nodes_app. iIntros "[H1 H2]". unfold xlist_prepend. wp_new a "Ha". do 2 wp_step.
  destruct l2 as [|[b e] l2]; cbn [first_of].
  - rw (Hl eq_refl). wp_steps. iExists a. by iFrame.
  - iDestruct (nodes_not_null with "H2") as %Hb. iDestruct "H2" as "[Hb H2]". wp_test. do 3 wp_step.
    destruct l1 as [|[c f] l1 _] using rev_ind.
    + wp_steps. iExists a. cbn. by iFrame.
    + rw last_of_snoc nodes_snoc. iDestruct "H1" as "[H1 Hc]".
      iDestruct (points_to_not_null with "Hc") as %Hc. wp_test. wp_steps.
      iExists a. rw nodes_app nodes_snoc last_of_snoc. by iFrame.
Qed.
Lemma last_loop_start fuel pv l :
  l <> [] -> (length l < fuel)%nat -> reading (nodes pv l NULL) (last_loop fuel (first_of l NULL)) (last_of pv l).
Proof. intros Hl Hf. destruct l as [|[a d] l]; [done|]. apply (last_loop_ok fuel pv a d l). cbn in Hf. lia. Qed.

Lemma insert_before_ok l1 l2 d :
  {{ dlist (l1 ++ l2) }} xlist_insert_before (first_of (l1 ++ l2) NULL) (first_of l2 NULL) d
  {{ p, ∃ a, the_list (l1 ++ (a, d) :: l2) p }}.
Proof.
  iIntros "Hl". unfold xlist_insert_before, the_list.
  destruct (decide (l1 ++ l2 = [])) as [[-> ->]%app_eq_nil|Hl]; cbn [app first_of].
  - wp_test. wp_norm. iApply wp_bind. iApply wp_alloc. iIntros (a) "Ha". wp_steps.
    iExists a. iSplit; [done|]. cbn. by iFrame.
  - iDestruct (nodes_front with "Hl") as %Hf; [done|]. wp_test. unfold dlist.
    destruct l2 as [|[b e] l2]; cbn [first_of].
    + rw app_nil_r in Hl, Hf |- *. destruct l1 as [|[c f] l1 _] using rev_ind; [done|].
      wp_test. iStopProof. apply (wp_bound NULL (l1 ++ [(c, f)]) NULL); [iIntros "$"|]. intros fuel Hn.
      iIntros "Hl". iApply (wp_reading _ _ _ _ _ (last_loop_start fuel NULL _ Hl Hn)). iFrame "Hl". iIntros "Hl".
      wp_new a "Ha". rw nodes_snoc last_of_snoc. iDestruct "Hl" as "[Hl Hc]". wp_steps.
      iExists a. rw nodes_snoc nodes_snoc last_of_snoc -app_assoc !first_of_app. by iFrame.
    + rw nodes_app. iDestruct "Hl" as "[H1 [Hb H2]]". iDestruct (points_to_not_null with "Hb") as %Hb. wp_test.
      wp_new a "Ha". do 6 wp_step. destruct l1 as [|[c f] l1 _] using rev_ind.
      * wp_steps. iExists a. cbn. by iFrame.
      * rw last_of_snoc nodes_snoc. iDestruct "H1" as "[H1 Hc]".
        iDestruct (points_to_not_null with "Hc") as %Hc. wp_steps.
        iExists a. rw nodes_app nodes_snoc last_of_snoc -!app_assoc !first_of_app. by iFrame.
Qed.

Lemma insert_before_link_ok l1 l2 a d :
  {{ dlist (l1 ++ l2) ∗ dlist [(a, d)] }} xlist_insert_before_link (first_of (l1 ++ l2) NULL) (first_of l2 NULL) a
  {{ p, the_list (l1 ++ (a, d) :: l2) p }}.
Proof.
  iIntros "[Hl [Ha _]]". unfold xlist_insert_before_link, the_list. cbn [first_of].
  iDestruct (points_to_not_null with "Ha") as %Ha.
  destruct (decide (l1 ++ l2 = [])) as [[-> ->]%app_eq_nil|Hl]; cbn [app first_of].
  - wp_steps. cbn. by iFrame.
  - iDestruct (nodes_front with "Hl") as %Hf; [done|]. do 6 (wp_test || wp_step). unfold dlist.
    destruct l2 as [|[b e] l2]; cbn [first_of].
    + rw app_nil_r in Hl, Hf |- *. destruct l1 as [|[c f] l1 _] using rev_ind; [done|].
      wp_test. iStopProof. apply bound_nodes. intros fuel Hn.
      iIntros "[Hl Ha]". iApply (wp_reading _ _ _ _ _ (last_loop_start fuel NULL _ Hl Hn)). iFrame "Hl". iIntros "Hl".
      rw nodes_snoc last_of_snoc. iDestruct "Hl" as "[Hl Hc]". wp_steps.
      rw nodes_snoc nodes_snoc last_of_snoc -app_assoc !first_of_app. by iFrame.
    + rw nodes_app. iDestruct "Hl" as "[H1 [Hb H2]]". iDestruct (points_to_not_null with "Hb") as %Hb. wp_test.
      do 5 wp_step. destruct l1 as [|[c f] l1 _] using rev_ind.
      * wp_steps. cbn. by iFrame.
      * rw last_of_snoc nodes_snoc. iDestruct "H1" as "[H1 Hc]".
        iDestruct (points_to_not_null with "Hc") as %Hc. wp_steps.
        rw nodes_app nodes_snoc last_of_snoc -!app_assoc !first_of_app. by iFrame.
Qed.

(** [position] counts from the front; one that is negative or too large is the end. *)
Definition place (l : list (Z * Z)) (position : Z) : nat :=
  if position <? 0 then length l else Z.to_nat position.

Lemma insert_ok l d position :
  position < 2 ^ 31 ->
  {{ dlist l }} xlist_insert (first_of l NULL) d position
  {{ p, ∃ a, the_list (take (place l position) l ++ (a, d) :: drop (place l position) l) p }}.
Proof.
  intros Hp. unfold xlist_insert, place, the_list. destruct (Z.ltb_spec position 0) as [Hn|Hn].
  { rw take_ge // drop_ge //. by apply append_ok. }
  destruct (Z.eqb_spec position 0) as [->|H0].
  { iIntros "Hl". iApply wp_wand. iSplitL "Hl"; [by iApply (prepend_ok [] l)|].
    iIntros (p) "(%a & -> & Hl)". iExists a. by iFrame. }
  rw wrap_small; [|lia]. set (n := Z.to_nat position).
  iIntros "Hl". iApply (wp_reading _ _ _ _ _ (xlist_nth_ok NULL l position)). iFrame "Hl". iIntros "Hl".
  fold n. pose proof (take_drop n l) as El. assert (n > 0)%nat as Hn0 by lia. clearbody n.
  destruct (drop n l) as [|[b e] l2] eqn:Ed; cbn [first_of].
  - rw app_nil_r in El. rw El. wp_test. by iApply append_ok.
  - destruct (take n l) as [|[c f] l1 _] eqn:Et using rev_ind.
    { apply (f_equal length) in Et, Ed. rw length_take in Et. rw length_drop in Ed. cbn in Et, Ed. lia. }
    clear Et Ed. rw -El nodes_app nodes_snoc !last_of_snoc. iDestruct "Hl" as "[[H1 Hc] [Hb H2]]".
    iDestruct (points_to_not_null with "Hb") as %Hb. iDestruct (points_to_not_null with "Hc") as %Hc. wp_test.
    wp_new a "Ha". wp_steps. iExists a. unfold dlist. rw nodes_app nodes_snoc last_of_snoc. rw -!app_assoc !first_of_app. by iFrame.
Qed.

Lemma concat_ok l1 l2 :
  {{ dlist l1 ∗ dlist l2 }} xlist_concat (first_of l1 NULL) (first_of l2 NULL)
  {{ p, the_list (l1 ++ l2) p }}.
Proof.
  iIntros "[H1 H2]". unfold xlist_concat, the_list. destruct l2 as [|[b e] l2]; cbn [first_of].
  - wp_steps. rw app_nil_r. by iFrame.
  - iDestruct (nodes_not_null with "H2") as %Hb. iDestruct "H2" as "[Hb H2]". wp_test.
    iApply (wp_reading _ _ _ _ _ (xlist_last_ok NULL l1)). iFrame "H1". iIntros "H1". unfold dlist.
    destruct l1 as [|[c f] l1 _] using rev_ind.
    + wp_steps. cbn. by iFrame.
    + rw last_of_snoc nodes_snoc. iDestruct "H1" as "[H1 Hc]".
      iDestruct (points_to_not_null with "Hc") as %Hc. wp_steps.
      rw nodes_app nodes_snoc last_of_snoc -!app_assoc !first_of_app. by iFrame.
Qed.

(** ** Removing nodes *)

Lemma _remove_link_ok l1 a d l2 :
  {{ dlist (l1 ++ (a, d) :: l2) }} _xlist_remove_link (first_of (l1 ++ (a, d) :: l2) NULL) a
  {{ p, the_list (l1 ++ l2) p ∗ dlist [(a, d)] }}.
Proof.
  unfold the_list, dlist. rw nodes_app. iIntros "[H1 [Ha H2]]". unfold _xlist_remove_link.
  iDestruct (points_to_not_null with "Ha") as %Ha. wp_test. wp_step.
  destruct l1 as [|[c f] l1 _] using rev_ind.
  - destruct l2 as [|[b e] l2]; [wp_steps; cbn; by iFrame|]. cbn [first_of].
    iDestruct (nodes_not_null with "H2") as %Hb. iDestruct "H2" as "[Hb H2]". wp_steps. cbn. by iFrame.
  - iDestruct (nodes_ne with "[$H1 $Ha]") as %Hn. rw last_of_snoc nodes_snoc. iDestruct "H1" as "[H1 Hc]".
    iDestruct (points_to_not_null with "Hc") as %Hc.
    assert (first_of ((l1 ++ [(c, f)]) ++ (a, d) :: l2) NULL <> a) as Hf.
    { intros E. apply Hn. destruct l1 as [|[]]; cbn in *; set_solver. }
    rw -app_assoc !first_of_app in Hf |- *.
    destruct l2 as [|[b e] l2]; cbn [first_of].
    + wp_steps. rw app_nil_r nodes_snoc. cbn. by iFrame.
    + iDestruct (nodes_not_null with "H2") as %Hb. iDestruct "H2" as "[Hb H2]". wp_steps.
      rw nodes_app nodes_snoc last_of_snoc. cbn. by iFrame.
Qed.

Lemma delete_link_ok l1 a d l2 :
  {{ dlist (l1 ++ (a, d) :: l2) }} xlist_delete_link (first_of (l1 ++ (a, d) :: l2) NULL) a
  {{ p, the_list (l1 ++ l2) p }}.
Proof.
  iIntros "Hl". unfold xlist_delete_link. iApply (wp_call _ _ _ _ _ (_remove_link_ok l1 a d l2)). iFrame "Hl".
  iIntros (p) "[Hl [Ha _]]". wp_free1 "Ha". by wp_step.
Qed.

(** The list without the first element that is [data]. *)
Fixpoint remove_data (data : Z) (l : list (Z * Z)) : list (Z * Z) :=
  match l with
  | [] => []
  | (a, d) :: l => if d =? data then l else (a, d) :: remove_data data l
  end.

(** One step of a loop over the nodes of a list. *)
Lemma split_at l1 a d l2 :
  dlist (l1 ++ (a, d) :: l2) ⊣⊢
  nodes NULL l1 a ∗ a ↦ ListNode (XList d (first_of l2 NULL) (last_of NULL l1)) ∗ nodes a l2 NULL.
Proof. unfold dlist. by rw nodes_app. Qed.

Lemma app_snoc (l1 : list (Z * Z)) x l2 : l1 ++ x :: l2 = (l1 ++ [x]) ++ l2.
Proof. by rw -app_assoc. Qed.

Lemma remove_loop_ok fuel l1 l2 data :
  (length l2 < fuel)%nat ->
  {{ dlist (l1 ++ l2) }} list_remove_loop fuel (first_of (l1 ++ l2) NULL) (first_of l2 NULL) data
  {{ p, the_list (l1 ++ remove_data data l2) p }}.
Proof.
  revert fuel l1. induction l2 as [|[a d] l2 IH]; intros [|fuel] l1 Hf; cbn in Hf; try lia; cbn [list_remove_loop first_of remove_data].
  - iIntros "Hl". wp_steps. by iFrame.
  - rw split_at. iIntros "(H1 & Ha & H2)". iDestruct (points_to_not_null with "Ha") as %Ha. wp_test. wp_step.
    destruct (d =? data); wp_if.
    + iCombine "H1 Ha H2" as "Hl". rw -split_at.
      iApply (wp_call _ _ _ _ _ (_remove_link_ok l1 a d l2)). iFrame "Hl".
      iIntros (p) "[Hl [Ha _]]". wp_free1 "Ha". by wp_step.
    + wp_step. iCombine "H1 Ha H2" as "Hl". rw -split_at !(app_snoc l1 (a, d) l2) (app_snoc l1 (a, d) (remove_data data l2)).
      iApply IH; [lia|done].
Qed.

Lemma remove_ok l data :
  {{ dlist l }} xlist_remove (first_of l NULL) data {{ p, the_list (remove_data data l) p }}.
Proof.
  apply (wp_bound NULL l NULL); [iIntros "$"|]. intros fuel Hf. by apply (remove_loop_ok fuel [] l data).
Qed.

(** The list without the elements that are [data]. *)
Definition without (data : Z) (l : list (Z * Z)) : list (Z * Z) := filter (fun x => x.2 <> data) l.

Lemma list_remove_all_loop_ok fuel l1 l2 data :
  (length l2 < fuel)%nat ->
  {{ dlist (l1 ++ l2) }} list_remove_all_loop fuel (first_of (l1 ++ l2) NULL) (first_of l2 NULL) data
  {{ p, the_list (l1 ++ without data l2) p }}.
Proof.
  revert fuel l1. induction l2 as [|[a d] l2 IH]; intros [|fuel] l1 Hf; cbn in Hf; try lia; cbn [list_remove_all_loop first_of].
  - iIntros "Hl". wp_steps. by iFrame.
  - rw split_at. iIntros "(H1 & Ha & H2)". iDestruct (points_to_not_null with "Ha") as %Ha. wp_test. wp_step.
    unfold without. rw filter_cons. cbn [snd]. destruct (Z.eqb_spec d data) as [->|Hd]; wp_if.
    + rw decide_False; [|by intros []]. do 2 wp_step.
      destruct l1 as [|[c f] l1 _] using rev_ind; [|rw last_of_snoc nodes_snoc; iDestruct "H1" as "[H1 Hc]";
        iDestruct (points_to_not_null with "Hc") as %Hc];
      (destruct l2 as [|[b e] l2]; cbn [first_of]; [|iDestruct (nodes_not_null with "H2") as %Hb; iDestruct "H2" as "[Hb H2]"]);
      wp_steps; wp_free1 "Ha".
      * iApply (IH fuel []); [lia|done].
      * iApply (IH fuel []); [lia|]. by iFrame.
      * rw -!app_assoc !first_of_app. cbn [first_of app].
        iPoseProof (IH fuel (l1 ++ [(c, f)])) as "IH"; [cbn; lia|].
        rw app_nil_r first_of_app. iApply "IH". unfold dlist. rw nodes_snoc. by iFrame.
      * rw -!app_assoc !first_of_app. cbn [first_of app].
        iPoseProof (IH fuel (l1 ++ [(c, f)])) as "IH"; [cbn in *; lia|].
        rw -!app_assoc first_of_app. iApply "IH". unfold dlist. rw nodes_app /=. by iFrame.
    + rw decide_True; [|done]. wp_step. iCombine "H1 Ha H2" as "Hl".
      rw -split_at !(app_snoc l1 (a, d) l2) (app_snoc l1 (a, d) (filter _ l2)).
      iApply IH; [lia|done].
Qed.

Lemma dlist_remove_all_ok l data :
  {{ dlist l }} xlist_remove_all (first_of l NULL) data {{ p, the_list (without data l) p }}.
Proof.
  apply (wp_bound NULL l NULL); [iIntros "$"|]. intros fuel Hf. by apply (list_remove_all_loop_ok fuel [] l data).
Qed.

(** ** Reversing *)

(** The nodes that were passed are linked backwards already. *)
Lemma reverse_loop_ok fuel r l :
  (length l < fuel)%nat ->
  {{ nodes (first_of l NULL) r NULL ∗ nodes (first_of r NULL) l NULL }}
  reverse_loop fuel (first_of l NULL) (first_of r NULL)
  {{ p, the_list (rev l ++ r) p }}.
Proof.
  revert fuel r. induction l as [|[a d] l IH]; intros [|fuel] r Hf; cbn in Hf; try lia; cbn [reverse_loop first_of rev].
  - iIntros "[Hr _]". wp_steps. by iFrame.
  - iIntros "[Hr [Ha Hl]]". iDestruct (points_to_not_null with "Ha") as %Ha. wp_test. do 4 wp_step.
    rw -app_assoc. iApply (IH fuel ((a, d) :: r)); [lia|]. cbn. iFrame.
Qed.

Lemma reverse_ok l : {{ dlist l }} xlist_reverse (first_of l NULL) {{ p, the_list (rev l) p }}.
Proof.
  apply (wp_bound NULL l NULL); [iIntros "$"|]. intros fuel Hf. rw -(app_nil_r (rev l)).
  iIntros "Hl". iApply (reverse_loop_ok fuel [] l Hf). by iFrame.
Qed.

(** ** Order *)

Section order.
Context (func : Z -> Z -> Z).

(** Where [data] belongs: before the first element that it is not above. *)
Definition not_above (data : Z) (e : Z) : bool := func data e <=? 0.

(** The part of a list before the first element for which [found] is true. *)
Fixpoint upto (found : Z -> bool) (l : list (Z * Z)) : list (Z * Z) :=
  match l with
  | [] => []
  | (a, d) :: l => if found d then [] else (a, d) :: upto found l
  end.

Lemma upto_from found l : upto found l ++ from found l = l.
Proof. induction l as [|[a d] l IH]; [done|]. cbn. destruct (found d); [done|]. cbn. by rw IH. Qed.

Lemma upto_split found l1 l2 :
  Forall (fun x => found x.2 = false) l1 -> upto found (l1 ++ l2) = l1 ++ upto found l2.
Proof. induction 1 as [|[a d] l1 Hd _ IH]; [done|]. cbn in *. by rw Hd IH. Qed.
Lemma from_split found l1 l2 :
  Forall (fun x => found x.2 = false) l1 -> from found (l1 ++ l2) = from found l2.
Proof. induction 1 as [|[a d] l1 Hd _ IH]; [done|]. cbn in *. by rw Hd IH. Qed.

(** Where the loop stops. *)
Definition stopped (data : Z) (l : list (Z * Z)) (r : Z * Z) : Prop :=
  exists l1 a e l2, l = l1 ++ (a, e) :: l2 /\ r = (a, func data e) /\
    Forall (fun x => not_above data x.2 = false) l1 /\ (func data e <= 0 \/ l2 = []).

Lemma insert_sorted_loop_ok fuel data l1 a e l2 :
  (length l2 < fuel)%nat -> Forall (fun x => not_above data x.2 = false) l1 ->
  {{ dlist (l1 ++ (a, e) :: l2) }} insert_sorted_loop func fuel a data (func data e)
  {{ r, ⌜stopped data (l1 ++ (a, e) :: l2) r⌝ ∧ dlist (l1 ++ (a, e) :: l2) }}.
Proof.
  revert fuel l1 a e. induction l2 as [|[b f] l2 IH]; intros [|fuel] l1 a e Hf Hl; cbn in Hf; try lia; cbn [insert_sorted_loop].
  - rw {1}split_at. iIntros "(H1 & Ha & H2)". wp_step. wp_test. wp_step. iSplit.
    + iPureIntro. exists l1, a, e, []. auto.
    + rw split_at. iFrame.
  - rw {1}split_at. iIntros "(H1 & Ha & H2)". cbn [first_of]. iDestruct (nodes_not_null with "H2") as %Hb.
    wp_step. wp_test. destruct (Z.ltb_spec 0 (func data e)) as [Hc|Hc]; wp_if.
    + wp_step. iDestruct "H2" as "[Hb H2]". wp_step. iCombine "Hb H2" as "H2". iCombine "H1 Ha H2" as "Hl".
      rw -(split_at l1 a e ((b, f) :: l2)) (app_snoc l1 (a, e) ((b, f) :: l2)).
      iApply IH; [lia| |done]. apply Forall_app. split; [done|]. constructor; [|done]. apply Z.leb_gt. cbn. lia.
    + wp_step. iSplit.
      * iPureIntro. exists l1, a, e, ((b, f) :: l2). auto.
      * rw split_at. iFrame.
Qed.

Lemma insert_sorted_ok l data :
  {{ dlist l }} xlist_insert_sorted_real func (first_of l NULL) data
  {{ p, ∃ a, the_list (upto (not_above data) l ++ (a, data) :: from (not_above data) l) p }}.
Proof.
  unfold xlist_insert_sorted_real. destruct l as [|[b f] l]; cbn [first_of].
  - iIntros "_". wp_test. wp_norm. iApply wp_bind. iApply wp_alloc. iIntros (a) "Ha". wp_steps.
    iExists a. cbn. by iFrame.
  - iIntros "Hl". iDestruct (nodes_not_null with "Hl") as %Hb. iDestruct "Hl" as "[Hb Hl]". wp_test. wp_step.
    iCombine "Hb Hl" as "Hl". iStopProof.
    apply (wp_bound NULL ((b, f) :: l) NULL); [by iIntros "$"|]. intros fuel Hf. iIntros "Hl".
    iApply (wp_call _ _ _ _ _ (insert_sorted_loop_ok fuel data [] b f l ltac:(cbn in Hf; lia) (Forall_nil_2 _))).
    iFrame "Hl". iIntros (r) "[%Hs Hl]". destruct Hs as (l1 & a & e & l2 & El & -> & Hl1 & Hstop). cbn [app] in El.
    rw El split_at upto_split // from_split //. cbn [upto from]. iDestruct "Hl" as "(H1 & Ha & H2)".
    change b with (first_of ((b, f) :: l) NULL). rw El.
    iDestruct (points_to_not_null with "Ha") as %Ha.
    wp_norm. iApply wp_bind. iApply wp_alloc. iIntros (p) "Hp". do 2 wp_step. unfold not_above.
    destruct (Z.leb_spec (func data e) 0) as [Hc|Hc].
    + rw app_nil_r (proj2 (Z.ltb_ge 0 (func data e))) //. wp_if. wp_step.
      destruct l1 as [|[c g] l1 _] using rev_ind.
      * wp_steps. iExists p. cbn. by iFrame.
      * iDestruct (nodes_ne with "[$H1 $Ha]") as %Hn. rw last_of_snoc nodes_snoc. iDestruct "H1" as "[H1 Hc]".
        iDestruct (points_to_not_null with "Hc") as %Hcn.
        assert (a <> first_of ((l1 ++ [(c, g)]) ++ (a, e) :: l2) NULL) as Hfa.
        { intros E. apply Hn. rw {1}E. destruct l1 as [|[]]; cbn; set_solver. }
        wp_steps. iExists p. unfold the_list, dlist. rw nodes_app nodes_snoc last_of_snoc -!app_assoc !first_of_app. by iFrame.
    + destruct Hstop as [| ->]; [lia|]. rw (proj2 (Z.ltb_lt 0 (func data e))) //. wp_steps. iExists p.
      cbn. unfold the_list, dlist. rw nodes_snoc nodes_snoc last_of_snoc -!app_assoc !first_of_app. by iFrame.
Qed.
End order.

(** ** Copying

    The caller's function makes the copies one by one; [S] is what it has done,
    as the list of the originals with their copies. *)
Section copy.
Context (func : option (Z -> prog Z)) (S : list (Z * Z) -> assertion).
Context (Hfunc : forall done d, {{ S done }} copied func d {{ d', S (done ++ [(d, d')]) }}).

Definition copies (l l' : list (Z * Z)) : list (Z * Z) := zip l.*2 l'.*2.

Lemma copies_snoc l1 l2 a d b d' :
  length l1 = length l2 -> copies (l1 ++ [(a, d)]) (l2 ++ [(b, d')]) = copies l1 l2 ++ [(d, d')].
Proof. intros Hl. unfold copies. rw !fmap_app zip_with_app ?length_fmap //. Qed.

(** The copy grows at its last node, whose [next] is not set yet. *)
Definition growing (n : list (Z * Z)) (last d : Z) : assertion :=
  (∃ nx, nodes NULL n last ∗ last ↦ ListNode (XList d nx (last_of NULL n)))%I.

Lemma copy_loop_ok fuel l1 a d l2 n last d0 :
  (length l2 < fuel)%nat -> length n = length l1 ->
  {{ dlist (l1 ++ (a, d) :: l2) ∗ growing n last d0 ∗ S (copies (l1 ++ [(a, d)]) (n ++ [(last, d0)])) }}
  copy_loop func fuel last (first_of l2 NULL)
  {{ last', ∃ n' d', ⌜length (n' ++ [(last', d')]) = length (l1 ++ (a, d) :: l2) /\
                      first_of (n' ++ [(last', d')]) NULL = first_of (n ++ [(last, d0)]) NULL⌝ ∧
      dlist (l1 ++ (a, d) :: l2) ∗ growing n' last' d' ∗ S (copies (l1 ++ (a, d) :: l2) (n' ++ [(last', d')])) }}.
Proof.
  revert fuel l1 a d n last d0. induction l2 as [|[b e] l2 IH]; intros [|fuel] l1 a d n last d0 Hf Hn; cbn in Hf; try lia; cbn [copy_loop first_of].
  - iIntros "(Hl & Hn & HS)". wp_steps. iExists n, d0. iFrame. iPureIntro. by rw !length_app Hn.
  - rw {1}split_at. iIntros "((H1 & Ha & H2) & (%nx & Hn & Hlast) & HS)". iDestruct (nodes_not_null with "H2") as %Hb.
    wp_test. wp_new p "Hp". iDestruct "H2" as "[Hb H2]". do 5 wp_step.
    wp_norm. iApply (wp_call _ _ _ _ _ (Hfunc _ e)). iFrame "HS". iIntros (d1) "HS". do 2 wp_step.
    rw (app_snoc l1 (a, d) ((b, e) :: l2)). iApply wp_wand. iSplitL.
    + iApply (IH fuel (l1 ++ [(a, d)]) b e (n ++ [(last, d0)]) p d1); [lia|rw !length_app Hn //|].
      rw (copies_snoc (l1 ++ [(a, d)])); [|rw !length_app Hn //]. iFrame "HS". iSplitL "H1 Ha Hb H2".
      * rw split_at nodes_snoc last_of_snoc. iFrame.
      * iExists _. rw nodes_snoc last_of_snoc. iFrame.
    + iIntros (r) "(%n' & %d' & %Hr & H)". iExists n', d'. iFrame "H". iPureIntro.
      destruct Hr as [Hr1 Hr2]. split; [|done]. split; [done|]. by rw Hr2 -app_assoc !first_of_app.
Qed.

Lemma copy_deep_ok l :
  {{ dlist l ∗ S [] }} xlist_copy_deep (first_of l NULL) func
  {{ p, ∃ l', ⌜length l' = length l⌝ ∧ dlist l ∗ the_list l' p ∗ S (copies l l') }}.
Proof.
  unfold xlist_copy_deep. destruct l as [|[a d] l]; cbn [first_of].
  - iIntros "[Hl HS]". wp_steps. iExists []. cbn. unfold the_list. by iFrame.
  - iIntros "[Hl HS]". iDestruct (nodes_not_null with "Hl") as %Ha. iDestruct "Hl" as "[Ha Hl]". wp_test.
    wp_new p "Hp". wp_step. wp_norm. iApply (wp_call _ _ _ _ _ (Hfunc [] d)). iFrame "HS". iIntros (d') "HS".
    do 3 wp_step. iCombine "Ha Hl" as "Hl". iCombine "Hl HS Hp" as "H". iStopProof.
    apply (wp_bound NULL ((a, d) :: l) NULL); [iIntros "[$ _]"|]. intros fuel Hf. iIntros "(Hl & HS & Hp)".
    iApply (wp_call _ _ _ _ _ (copy_loop_ok fuel [] a d l [] p d' ltac:(cbn in Hf; lia) eq_refl)).
    iFrame "Hl HS". iSplitL "Hp"; [iExists _; cbn; by iFrame|].
    iIntros (last) "(%n & %d1 & %Hr & Hl & (%nx & Hn & Hlast) & HS)". destruct Hr as [Hlen Hfirst]. wp_steps.
    iExists (n ++ [(last, d1)]). unfold the_list, dlist. rw (nodes_snoc NULL n). iFrame. by rw Hfirst.
Qed.
End copy.

Lemma list_copy_ok l :
  {{ dlist l }} xlist_copy (first_of l NULL) {{ p, ∃ l', ⌜l'.*2 = l.*2⌝ ∧ dlist l ∗ the_list l' p }}.
Proof.
  set (S := fun done : list (Z * Z) => (⌜Forall (fun x => x.1 = x.2) done⌝ ∧ emp)%I : assertion).
  assert (forall done d, {{ S done }} copied None d {{ d', S (done ++ [(d, d')]) }}) as Hc.
  { intros done d. iIntros "[%HS _]". cbn [copied]. wp_step. iSplit; [|done]. iPureIntro.
    apply Forall_app. split; [done|]. by constructor. }
  iIntros "Hl". iApply wp_wand. iSplitL.
  - iApply (copy_deep_ok None S Hc l). iFrame. iSplit; [|done]. by iPureIntro.
  - iIntros (p) "(%l' & %Hlen & Hl & Hl' & [%HS _])". iExists l'. iFrame. iPureIntro. split; [|done].
    clear -Hlen HS. unfold copies in HS. revert l Hlen HS.
    induction l' as [|x l' IH]; intros [|y l] Hlen HS; try done. cbn in *.
    apply Forall_cons in HS as [Hx HS]. cbn in Hx. f_equal; [done|]. apply IH; [lia|done].
Qed.

(** ** Visiting and destroying every element *)

(** The function may read and write what it owns, but not the list. *)
Section visit.
Context (func : Z -> prog unit) (S : list Z -> assertion).
Context (Hfunc : forall done d, {{ S done }} func d {{ _r, S (done ++ [d]) }}).

Lemma dlist_foreach_ok l : {{ dlist l ∗ S [] }} xlist_foreach (first_of l NULL) func {{ _r, dlist l ∗ S l.*2 }}.
Proof.
  unfold xlist_foreach, dlist. apply bound_nodes. intros fuel Hf.
  set (T := fun (before : list (Z * Z)) pv => (⌜pv = last_of NULL before⌝ ∧
    nodes NULL before (first_of (drop (length before) l) NULL) ∗ S before.*2)%I : assertion).
  iIntros "[Hl HS]". iApply wp_wand. iSplitL.
  - iApply (list_foreach_loop_ok fuel func T l NULL); [|done|by iFrame].
    intros before a d after pv ->. iIntros "[[Ha Hl] [-> [Hb HS]]]".
    iApply wp_wand. iSplitL "HS"; [iApply (Hfunc with "HS")|]. iIntros (_) "HS".
    iExists a. iFrame "Hl". unfold T. rw last_of_snoc. iSplit; [done|].
    rw fmap_app nodes_snoc length_app drop_app_add drop_app_length. iFrame.
  - iIntros (_) "(%pv & _ & Hl & HS)". rw drop_all. iFrame.
Qed.

Lemma free_full_ok l : {{ dlist l ∗ S [] }} xlist_free_full (first_of l NULL) func {{ _r, S l.*2 }}.
Proof.
  unfold xlist_free_full. iIntros "H". iApply (wp_call _ _ _ _ _ (dlist_foreach_ok l)). iFrame "H".
  iIntros (_) "[Hl HS]". iApply xlist_free_ok. iFrame "Hl HS".
Qed.

Lemma clear_list_ok ptr l :
  {{ ptr ↦ Word (first_of l NULL) ∗ dlist l ∗ S [] }} g_clear_list ptr (Some func)
  {{ _r, ptr ↦ Word NULL ∗ S l.*2 }}.
Proof.
  iIntros "(Hp & Hl & HS)". unfold g_clear_list. wp_step. destruct l as [|[a d] l]; cbn [first_of].
  - wp_steps. by iFrame.
  - iDestruct (nodes_not_null with "Hl") as %Ha. wp_test. wp_step.
    iApply wp_wand. iSplitL "Hl HS"; [iApply (free_full_ok ((a, d) :: l)); iFrame|].
    iIntros (_) "HS". iFrame.
Qed.
End visit.

Lemma clear_list_none_ok ptr l :
  {{ ptr ↦ Word (first_of l NULL) ∗ dlist l }} g_clear_list ptr None {{ _r, ptr ↦ Word NULL }}.
Proof.
  iIntros "(Hp & Hl)". unfold g_clear_list. wp_step. destruct l as [|[a d] l]; cbn [first_of].
  - wp_steps. by iFrame.
  - iDestruct (nodes_not_null with "Hl") as %Ha. wp_test. wp_step.
    iApply (xlist_free_ok NULL ((a, d) :: l)). iFrame.
Qed.
End ops.

(** ** Sorting a list

    The merge sort of glist.c relinks the nodes: its merge is that of
    [SortMerge], and so its result is a stable sort of the nodes by their data. *)

Section sort.
Context `{Allocator} (func : Z -> Z -> Z).

Definition by_data (x y : Z * Z) : Z := func x.2 y.2.

(** ** Merging *)

(** What is merged already hangs at the local node [local]; [l] is its last node,
    the link of which is not set yet. *)
Definition merging (local : Z) (m : list (Z * Z)) (l lprev : Z) : assertion :=
  match m with
  | [] => ⌜l = local /\ lprev = NULL⌝ ∧ ∃ c, local ↦ ListNode c
  | _ => ∃ m' f nx d p, ⌜m = m' ++ [(l, f)] /\ lprev = l⌝ ∧
      (local ↦ ListNode (XList d (first_of m NULL) p) ∗
       nodes NULL m' l ∗ l ↦ ListNode (XList f nx (last_of NULL m')))
  end%I.

Lemma merging_snoc local m l f lprev :
  merging local (m ++ [(l, f)]) l lprev ⊣⊢
  ∃ nx d p, ⌜lprev = l⌝ ∧
    (local ↦ ListNode (XList d (first_of (m ++ [(l, f)]) NULL) p) ∗
     nodes NULL m l ∗ l ↦ ListNode (XList f nx (last_of NULL m))).
Proof.
  unfold merging. destruct (m ++ [(l, f)]) as [|x m0] eqn:E; [by destruct m|]. rw -E. iSplit.
  - iIntros "(%m' & %f' & %nx & %d & %p & %Hm & H)". destruct Hm as [Hm ->].
    apply app_inj_tail in Hm as [-> [= ->]]. iExists nx, d, p. by iFrame.
  - iIntros "(%nx & %d & %p & -> & H)". iExists m, f, nx, d, p. by iFrame.
Qed.

Lemma merging_last local m l b f lprev : merging local (m ++ [(b, f)]) l lprev ⊢ ⌜b = l⌝.
Proof.
  unfold merging. destruct (m ++ [(b, f)]) as [|x m0] eqn:E; [by destruct m|]. rw -E.
  iIntros "(%m' & %f' & %nx & %d & %p & %Hm & _)". iPureIntro. destruct Hm as [Hm _].
  by apply app_inj_tail in Hm as [_ [= ->]].
Qed.

(** The last node, to which the next one is appended. *)
Lemma merging_open local m l lprev :
  merging local m l lprev ⊢ ∃ c, l ↦ ListNode c ∗
    ∀ a d nx, l ↦ ListNode (XList (l_data c) a (l_prev c)) -∗ a ↦ ListNode (XList d nx lprev) -∗
      merging local (m ++ [(a, d)]) a a.
Proof.
  destruct m as [|[b f] m _] using rev_ind.
  - iIntros "[%Hl (%c & Hc)]". destruct Hl as [-> ->]. iExists c. iFrame. iIntros (a d nx) "Hl Ha".
    iApply (merging_snoc local []). iExists nx, _, _. by iFrame.
  - iIntros "H". iAssert (⌜b = l⌝)%I as %->; [by iApply merging_last|].
    rw merging_snoc. iDestruct "H" as (nx d p) "(-> & Hloc & Hm & Hl)". iExists _. iFrame "Hl".
    iIntros (a e nx') "Hl Ha". rw merging_snoc. iExists nx', d, p. iSplit; [done|].
    rw nodes_snoc last_of_snoc -!app_assoc !first_of_app. iFrame.
Qed.

(** The local node is left behind with the address of the result. *)
Lemma merging_close local m l lprev :
  m <> [] -> merging local m l lprev ⊢ ∃ c c', l ↦ ListNode c ∗
    ∀ r, l ↦ ListNode (XList (l_data c) (first_of r NULL) (l_prev c)) -∗ nodes l r NULL -∗
      local ↦ ListNode (XList (l_data c') (first_of (m ++ r) NULL) (l_prev c')) ∗ nodes NULL (m ++ r) NULL.
Proof.
  intros Hm. destruct m as [|[b f] m _] using rev_ind; [done|].
  iIntros "H". iAssert (⌜b = l⌝)%I as %->; [by iApply merging_last|].
  rw merging_snoc. iDestruct "H" as (nx d p) "(-> & Hloc & Hm & Hl)". iExists _, (XList d 0 p). iFrame "Hl".
  iIntros (r) "Hl Hr". rw nodes_app nodes_snoc last_of_snoc -!app_assoc !first_of_app. iFrame.
Qed.

(** Where the loop of the merge stops: one list is used up, the other is the rest. *)
Definition merge_rest (m l1 l2 : list (Z * Z)) (l1' l2' : Z) (m' r : list (Z * Z)) : Prop :=
  m' ++ r = m ++ merged by_data l1 l2 /\ r <> [] /\
  (if negb (l1' =? NULL) then l1' else l2') = first_of r NULL /\
  (m <> [] \/ l1 <> [] /\ l2 <> [] -> m' <> []).

Lemma merge_rest_first a d b e m l1 l2 l1' l2' m' r :
  func d e <= 0 -> merge_rest (m ++ [(a, d)]) l1 ((b, e) :: l2) l1' l2' m' r ->
  merge_rest m ((a, d) :: l1) ((b, e) :: l2) l1' l2' m' r.
Proof.
  intros Hc (E & Hr & Hfst & Hm). unfold merge_rest. rw merge_cons (proj2 (Z.leb_le _ _)) //.
  rw -app_assoc in E. repeat split; try done. intros _. apply Hm. left. by destruct m.
Qed.
Lemma merge_rest_second b e a d m l1 l2 l1' l2' m' r :
  0 < func d e -> merge_rest (m ++ [(b, e)]) ((a, d) :: l1) l2 l1' l2' m' r ->
  merge_rest m ((a, d) :: l1) ((b, e) :: l2) l1' l2' m' r.
Proof.
  intros Hc (E & Hr & Hfst & Hm). unfold merge_rest. rw merge_cons (proj2 (Z.leb_gt _ _)) //.
  rw -app_assoc in E. repeat split; try done. intros _. apply Hm. left. by destruct m.
Qed.

Lemma sort_merge_loop_ok fuel local m l lprev pv1 l1 pv2 l2 :
  (length l1 + length l2 < fuel)%nat -> l1 <> [] \/ l2 <> [] ->
  {{ merging local m l lprev ∗ nodes pv1 l1 NULL ∗ nodes pv2 l2 NULL }}
  sort_merge_loop func fuel (first_of l1 NULL) (first_of l2 NULL) l lprev
  {{ res, ∃ m' r pv l1' l2' l' lprev', ⌜res = (l1', l2', l') /\ merge_rest m l1 l2 l1' l2' m' r⌝ ∧
      (merging local m' l' lprev' ∗ nodes pv r NULL) }}.
Proof.
  revert m l lprev pv1 l1 pv2 l2.
  induction fuel as [|fuel IH]; intros m l lprev pv1 l1 pv2 l2 Hf Hne; [lia|]. cbn [sort_merge_loop].
  destruct l1 as [|[a d] l1].
  - iIntros "(Hm & _ & H2)". iDestruct (nodes_front with "H2") as %Hn; [naive_solver|]. cbn [first_of]. wp_test. wp_step.
    iExists m, l2, pv2, NULL, (first_of l2 NULL), l, lprev. iFrame. iPureIntro. unfold merge_rest. rw merge_nil_l. naive_solver.
  - iIntros "(Hm & H1 & H2)". iDestruct (nodes_not_null with "H1") as %Ha. cbn [first_of]. wp_test.
    destruct l2 as [|[b e] l2]; cbn [first_of].
    + wp_test. wp_step. iExists m, ((a, d) :: l1), pv1, a, NULL, l, lprev. iFrame. iPureIntro.
      unfold merge_rest. rw merge_nil_r (proj2 (Z.eqb_neq a 0)) //. naive_solver.
    + iDestruct (nodes_not_null with "H2") as %Hb. wp_test. iDestruct "H1" as "[Ha H1]". iDestruct "H2" as "[Hb H2]".
      do 2 wp_step. iDestruct (merging_open with "Hm") as (c) "[Hl Hm]".
      destruct (Z.leb_spec (func d e) 0) as [Hc|Hc]; wp_if.
      * do 4 wp_step. iSpecialize ("Hm" with "Hl Ha").
        iCombine "Hb H2" as "H2". iApply wp_wand. iSplitL.
        -- iApply (IH (m ++ [(a, d)]) a a a l1 pv2 ((b, e) :: l2)); [cbn in *; lia|by right|]. iFrame.
        -- iIntros (res) "(%m' & %r & %pv & %l1' & %l2' & %l' & %lp & %Hr & H)".
           iExists m', r, pv, l1', l2', l', lp. iFrame "H". iPureIntro. split; [|done].
           destruct Hr as [-> Hr]. split; [done|]. by apply (merge_rest_first a d).
      * do 4 wp_step. iSpecialize ("Hm" with "Hl Hb").
        iCombine "Ha H1" as "H1". iApply wp_wand. iSplitL.
        -- iApply (IH (m ++ [(b, e)]) b b pv1 ((a, d) :: l1) b l2); [cbn in *; lia|by left|]. iFrame.
        -- iIntros (res) "(%m' & %r & %pv & %l1' & %l2' & %l' & %lp & %Hr & H)".
           iExists m', r, pv, l1', l2', l', lp. iFrame "H". iPureIntro. split; [|done].
           destruct Hr as [-> Hr]. split; [done|]. by apply (merge_rest_second b e).
Qed.

Lemma sort_merge_ok pv1 l1 pv2 l2 :
  l1 <> [] -> l2 <> [] ->
  {{ nodes pv1 l1 NULL ∗ nodes pv2 l2 NULL }}
  xlist_sort_merge func (first_of l1 NULL) (first_of l2 NULL)
  {{ p, the_list (merged by_data l1 l2) p }}.
Proof.
  intros Hl1 Hl2. iIntros "[H1 H2]". unfold xlist_sort_merge. wp_new local "Hloc".
  iCombine "H1 H2 Hloc" as "H". iStopProof.
  rw -wp_bind -(wp_loop_bound (length l1 + length l2)). iIntros "H". iSplit.
  { rw !nodes_size points_to_at_least. rw (at_least_sep (length l2)) at_least_sep.
    iApply (at_least_le with "H"). lia. }
  iIntros (fuel Hf) "". iDestruct "H" as "(H1 & H2 & Hloc)".
  iApply (wp_call _ _ _ _ _ (sort_merge_loop_ok fuel local [] local NULL pv1 l1 pv2 l2 Hf (or_introl Hl1))).
  iFrame "H1 H2". iSplitL "Hloc"; [iSplit; [done|by iExists _]|].
  iIntros (res) "(%m & %r & %pv & %l1' & %l2' & %l & %lp & %Hr & Hm & Hrest)".
  destruct Hr as [-> (E & Hr & Hfst & Hm)]. cbn [app] in E. rw -E.
  iDestruct (merging_close with "Hm") as (c c') "[Hl Hm]"; [by apply Hm; right|].
  rw Hfst. destruct r as [|[a d] r]; [done|]. cbn [first_of]. iDestruct "Hrest" as "[Ha Hr]".
  do 3 wp_step. iDestruct ("Hm" $! ((a, d) :: r) with "Hl [$Ha $Hr]") as "[Hloc Hn]".
  do 3 wp_step. iSplit; [done|]. iFrame.
Qed.

(** ** Splitting

    One pointer goes twice as fast as the other, which stops before the end. *)

Definition split_place (l : list (Z * Z)) (r : Z) : Prop :=
  exists x d y, l = x ++ (r, d) :: y /\ y <> [].

Lemma sort_split_loop_ok fuel pv x a d y1 b e y2 :
  (length y2 < fuel)%nat ->
  {{ nodes pv (x ++ (a, d) :: y1 ++ (b, e) :: y2) NULL }} sort_split_loop fuel a b
  {{ r, ⌜split_place (x ++ (a, d) :: y1 ++ (b, e) :: y2) r⌝ ∧ nodes pv (x ++ (a, d) :: y1 ++ (b, e) :: y2) NULL }}.
Proof.
  revert x a d y1 b e y2. induction fuel as [|fuel IH]; intros x a d y1 b e y2 Hf; [lia|]. cbn [sort_split_loop].
  set (l := x ++ (a, d) :: y1 ++ (b, e) :: y2).
  assert (split_place l a) as Ha by (exists x, d, (y1 ++ (b, e) :: y2); split; [done|by destruct y1]).
  assert (l = (x ++ (a, d) :: y1) ++ (b, e) :: y2) as El by (by unfold l; rw -app_assoc).
  iIntros "Hl". rw {1}El. iApply (wp_reading _ _ _ _ _ (read_next pv (x ++ (a, d) :: y1) b e y2 NULL)). iFrame "Hl". iIntros "Hl".
  destruct y2 as [|[c f] y2]; cbn [first_of].
  { wp_steps. rw -El. by iFrame. }
  iAssert (⌜c <> 0⌝)%I as %Hc.
  { iDestruct (nodes_app with "Hl") as "[_ [_ Hl]]". iApply (nodes_not_null with "Hl"). }
  wp_test. rw (app_snoc (x ++ (a, d) :: y1) (b, e) ((c, f) :: y2)) in El |- *.
  iApply (wp_reading _ _ _ _ _ (read_next pv _ c f y2 NULL)). iFrame "Hl". iIntros "Hl".
  destruct y2 as [|[c' f'] y2]; cbn [first_of].
  { wp_steps. rw -El. by iFrame. }
  iAssert (⌜c' <> 0⌝)%I as %Hc'.
  { iDestruct (nodes_app with "Hl") as "[_ [_ Hl]]". iApply (nodes_not_null with "Hl"). }
  wp_test. rw -El. unfold l at 1. iApply (wp_reading _ _ _ _ _ (read_next pv x a d _ NULL)). iFrame "Hl". iIntros "Hl".
  assert (exists a2 d2 y3, first_of (y1 ++ (b, e) :: (c, f) :: (c', f') :: y2) NULL = a2 /\
    l = (x ++ [(a, d)]) ++ (a2, d2) :: y3 ++ (c', f') :: y2) as (a2 & d2 & y3 & E2 & El2).
  { unfold l. destruct y1 as [|[a2 d2] y1].
    - exists b, e, [(c, f)]. by rw -app_assoc.
    - exists a2, d2, (y1 ++ [(b, e); (c, f)]). by rw -!app_assoc. }
  rw E2. change (x ++ (a, d) :: y1 ++ (b, e) :: (c, f) :: (c', f') :: y2) with l. rw El2.
  iApply IH; [cbn in Hf; lia|done].
Qed.

(** ** The sort *)

Lemma sort_real_ok fuel pv l :
  (length l < fuel)%nat ->
  {{ nodes pv l NULL }} sort_real func fuel (first_of l NULL)
  {{ p, ∃ l' pv', ⌜p = first_of l' NULL /\ sorts by_data l l' /\ (pv = NULL -> pv' = NULL)⌝ ∧ nodes pv' l' NULL }}.
Proof.
  revert pv l. induction fuel as [|fuel IH]; intros pv l Hf; [lia|]. cbn [sort_real].
  destruct l as [|[a d] l]; cbn [first_of].
  { iIntros "_". wp_steps. iExists [], NULL. iSplit; [|done]. iPureIntro. split; [done|]. split; [|done].
    apply sorts_refl. cbn. lia. }
  iIntros "[Ha Hl]". iDestruct (points_to_not_null with "Ha") as %Ha. wp_test. wp_step.
  destruct l as [|[b e] l]; cbn [first_of].
  { wp_steps. iExists [(a, d)], pv. iSplit; [|iFrame]. iPureIntro. split; [done|]. split; [|done].
    apply sorts_refl. cbn. lia. }
  iDestruct (nodes_not_null with "Hl") as %Hb. wp_test. wp_step. iCombine "Ha Hl" as "Hl". iStopProof.
  apply (wp_bound pv ((a, d) :: (b, e) :: l) NULL); [by iIntros "$"|]. intros turns Ht. iIntros "Hl".
  iApply (wp_call _ _ _ _ _ (sort_split_loop_ok turns pv [] a d [] b e l ltac:(cbn in Ht; lia))). iFrame "Hl".
  iIntros (r) "[%Hr Hl]". destruct Hr as (x & f & y & El & Hy). cbn [app] in El.
  assert (a = first_of (x ++ [(r, f)]) NULL) as Efst.
  { apply (f_equal (fun l => first_of l NULL)) in El. by rw first_of_app in El; rw first_of_app. }
  rw El in Hf |- *. rw length_app /= in Hf. assert (0 < length y)%nat by (destruct y; [done|cbn; lia]).
  iDestruct (nodes_app pv x ((r, f) :: y) NULL with "Hl") as "[Hx [Hr Hy]]". do 2 wp_step.
  iAssert (nodes pv (x ++ [(r, f)]) NULL) with "[Hx Hr]" as "Hx"; [by rw nodes_snoc; iFrame|].
  rw {1}Efst. iApply (wp_call _ _ _ _ _ (IH pv (x ++ [(r, f)]) ltac:(rw length_app /=; lia))). iFrame "Hx".
  iIntros (p1) "(%l1 & %pv1 & %H1 & Hx)". destruct H1 as (-> & S1 & _).
  iApply (wp_call _ _ _ _ _ (IH r y ltac:(lia))). iFrame "Hy".
  iIntros (p2) "(%l2 & %pv2 & %H2 & Hy)". destruct H2 as (-> & S2 & _).
  assert (l1 <> []) as Hl1 by (intros ->; destruct S1 as [S1 _]; apply Permutation_length in S1; rw length_app /= in S1; lia).
  assert (l2 <> []) as Hl2 by (intros ->; destruct S2 as [S2 _]; apply Permutation_length in S2; cbn in S2; lia).
  iApply wp_wand. iSplitL; [iApply (sort_merge_ok pv1 l1 pv2 l2 Hl1 Hl2); iFrame|].
  iIntros (p) "[-> Hl]". iExists (merged by_data l1 l2), NULL. iFrame. iPureIntro. split; [|done].
  split; [done|]. split; [|done]. rw app_snoc. by apply sorts_merge.
Qed.

Lemma sort_ok l :
  {{ dlist l }} xlist_sort_real func (first_of l NULL) {{ p, ∃ l', ⌜sorts by_data l l'⌝ ∧ the_list l' p }}.
Proof.
  apply (wp_bound NULL l NULL); [iIntros "$"|]. intros fuel Hf.
  iIntros "Hl". iApply wp_wand. iSplitL; [by iApply sort_real_ok|].
  iIntros (p) "(%l' & %pv & %Hp & Hl)". destruct Hp as (-> & Hs & Hpv). rw (Hpv eq_refl).
  iExists l'. by iFrame.
Qed.
End sort.
