(* ===== verification/DQueue.v ===== *)
(** * Double-ended queues: src/glib/gqueue.c

    A queue is an object of the shared memory that holds both ends of a list of
    [DList] and its length. The functions are programs of [Heap] that take its
    address. *)

From iris.proofmode Require Import proofmode.
From S2P Require Import Prelude.
From S2P Require Import Heap.
From S2P Require Import DList.
Local Open Scope Z_scope.

(** ** Fields *)

Definition load_queue (p : Z) : prog xqueue_t :=
  o ← load p; match o with Queue q => mret q | _ => undefined end.
Definition get_head (p : Z) : prog Z := q ← load_queue p; mret (q_head q).
Definition get_tail (p : Z) : prog Z := q ← load_queue p; mret (q_tail q).
Definition get_length (p : Z) : prog Z := q ← load_queue p; mret (q_length q).
Definition set_head (p x : Z) : prog unit :=
  q ← load_queue p; store p (Queue (XQueue x (q_tail q) (q_length q))).
Definition set_tail (p x : Z) : prog unit :=
  q ← load_queue p; store p (Queue (XQueue (q_head q) x (q_length q))).
Definition set_length (p x : Z) : prog unit :=
  q ← load_queue p; store p (Queue (XQueue (q_head q) (q_tail q) x)).

Section gqueue.
Context `{Allocator}.

(** [queue->length++] and [queue->length--]. *)
Definition longer (queue : Z) : prog unit := n ← get_length queue; set_length queue (wrap 32 (n + 1)).
Definition shorter (queue : Z) : prog unit := n ← get_length queue; set_length queue (wrap 32 (n - 1)).

(** [g_return_if_fail (queue != NULL)], [g_return_val_if_fail (...)]. *)
Definition with_queue {A} (queue : Z) (val : A) (rest : prog A) : prog A :=
  return_val_if_fail (negb (queue =? NULL)) "queue != NULL" val rest.

(** ** Making and freeing *)

Definition g_queue_new : prog Z := alloc (Queue (XQueue NULL NULL 0)).

Definition g_queue_init (queue : Z) : prog unit :=
  with_queue queue tt (
  set_tail queue NULL;;
  set_head queue NULL;;
  set_length queue 0).

Definition g_queue_free (queue : Z) : prog unit :=
  with_queue queue tt (
  hd ← get_head queue;
  xlist_free hd;;
  free queue).

Definition g_queue_foreach (queue : Z) (func : Z -> prog unit) : prog unit :=
  with_queue queue tt (
  list ← get_head queue;
  fuel ← loop_bound;
  list_foreach_loop func fuel list).

Definition g_queue_free_full (queue : Z) (free_func : Z -> prog unit) : prog unit :=
  g_queue_foreach queue free_func;;
  g_queue_free queue.

Definition g_queue_clear (queue : Z) : prog unit :=
  with_queue queue tt (
  hd ← get_head queue;
  xlist_free hd;;
  g_queue_init queue).

Definition g_queue_clear_full (queue : Z) (free_func : option (Z -> prog unit)) : prog unit :=
  with_queue queue tt (
  (match free_func with Some free_func => g_queue_foreach queue free_func | None => mret tt end);;
  g_queue_clear queue).

(** ** Reading *)

Definition g_queue_is_empty (queue : Z) : prog bool :=
  with_queue queue true (hd ← get_head queue; mret (hd =? NULL)).
Definition g_queue_get_length (queue : Z) : prog Z := with_queue queue 0 (get_length queue).
Definition g_queue_peek_head_link (queue : Z) : prog Z := with_queue queue NULL (get_head queue).
Definition g_queue_peek_tail_link (queue : Z) : prog Z := with_queue queue NULL (get_tail queue).
Definition g_queue_peek_head (queue : Z) : prog Z :=
  with_queue queue NULL (hd ← get_head queue; if negb (hd =? NULL) then get_data hd else mret NULL).
Definition g_queue_peek_tail (queue : Z) : prog Z :=
  with_queue queue NULL (tl ← get_tail queue; if negb (tl =? NULL) then get_data tl else mret NULL).

(** [for (i = 0; i < n; ++i) link = link->next] *)
Fixpoint step_loop (step : Z -> prog Z) (fuel : nat) (link i n : Z) : prog Z :=
  match fuel with
  | O => undefined
  | S fuel =>
      if i <? n then link ← step link; step_loop step fuel link (i + 1) n
      else mret link
  end.
Definition g_queue_peek_nth_link (queue n : Z) : prog Z :=
  with_queue queue NULL (
  len ← get_length queue;
  if len <=? n then mret NULL
  else
    fuel ← loop_bound;
    if len / 2 <? n then
      let n := wrap 32 (len - n - 1) in
      link ← get_tail queue;
      step_loop get_prev fuel link 0 n
    else
      link ← get_head queue;
      step_loop get_next fuel link 0 n).
Definition g_queue_peek_nth (queue n : Z) : prog Z :=
  with_queue queue NULL (
  link ← g_queue_peek_nth_link queue n;
  if negb (link =? NULL) then get_data link else mret NULL).

Definition g_queue_find (queue data : Z) : prog Z :=
  with_queue queue NULL (hd ← get_head queue; xlist_find hd data).
Definition g_queue_find_custom (queue data : Z) (func : Z -> Z -> Z) : prog Z :=
  with_queue queue NULL (hd ← get_head queue; xlist_find_custom hd data func).
Definition g_queue_link_index (queue link_ : Z) : prog Z :=
  with_queue queue (-1) (hd ← get_head queue; xlist_position hd link_).
Definition g_queue_index (queue data : Z) : prog Z :=
  with_queue queue (-1) (hd ← get_head queue; xlist_index hd data).

(** ** Pushing *)

Definition g_queue_push_head (queue data : Z) : prog unit :=
  with_queue queue tt (
  hd ← get_head queue;
  hd ← xlist_prepend hd data;
  set_head queue hd;;
  tl ← get_tail queue;
  (if tl =? NULL then hd ← get_head queue; set_tail queue hd else mret tt);;
  longer queue).

Definition g_queue_push_tail (queue data : Z) : prog unit :=
  with_queue queue tt (
  tl ← get_tail queue;
  tl ← xlist_append tl data;
  set_tail queue tl;;
  tl ← get_tail queue;
  nx ← get_next tl;
  (if negb (nx =? NULL) then
     tl ← get_tail queue; nx ← get_next tl; set_tail queue nx
   else tl ← get_tail queue; set_head queue tl);;
  longer queue).

(** The checks of a link that is to be added. *)
Definition with_link (name : string) (link : Z) (rest : prog unit) : prog unit :=
  return_val_if_fail (negb (link =? NULL)) (name +:+ " != NULL") tt (
  pv ← get_prev link;
  return_val_if_fail (pv =? NULL) (name +:+ "->prev == NULL") tt (
  nx ← get_next link;
  return_val_if_fail (nx =? NULL) (name +:+ "->next == NULL") tt rest)).

Definition g_queue_push_head_link (queue link : Z) : prog unit :=
  with_queue queue tt (with_link "link" link (
  hd ← get_head queue;
  set_next link hd;;
  hd ← get_head queue;
  (if negb (hd =? NULL) then hd ← get_head queue; set_prev hd link else set_tail queue link);;
  set_head queue link;;
  longer queue)).

Definition g_queue_push_tail_link (queue link : Z) : prog unit :=
  with_queue queue tt (with_link "link" link (
  tl ← get_tail queue;
  set_prev link tl;;
  tl ← get_tail queue;
  (if negb (tl =? NULL) then tl ← get_tail queue; set_next tl link else set_head queue link);;
  set_tail queue link;;
  longer queue)).

Definition g_queue_insert_before (queue sibling data : Z) : prog unit :=
  with_queue queue tt (
  if sibling =? NULL then g_queue_push_tail queue data
  else
    hd ← get_head queue;
    hd ← xlist_insert_before hd sibling data;
    set_head queue hd;;
    longer queue).

Definition g_queue_insert_before_link (queue sibling link_ : Z) : prog unit :=
  with_queue queue tt (with_link "link_" link_ (
  if sibling =? NULL then g_queue_push_tail_link queue link_
  else
    hd ← get_head queue;
    hd ← xlist_insert_before_link hd sibling link_;
    set_head queue hd;;
    longer queue)).

Definition g_queue_insert_after (queue sibling data : Z) : prog unit :=
  with_queue queue tt (
  if sibling =? NULL then g_queue_push_head queue data
  else nx ← get_next sibling; g_queue_insert_before queue nx data).

Definition g_queue_insert_after_link (queue sibling link_ : Z) : prog unit :=
  with_queue queue tt (with_link "link_" link_ (
  if sibling =? NULL then g_queue_push_head_link queue link_
  else nx ← get_next sibling; g_queue_insert_before_link queue nx link_)).

(** [n < 0 || (xuint_t) n >= queue->length] *)
Definition past_end (n len : Z) : bool := (n <? 0) || (len <=? wrap 32 n).

Definition g_queue_push_nth (queue data n : Z) : prog unit :=
  with_queue queue tt (
  len ← get_length queue;
  if past_end n len then g_queue_push_tail queue data
  else
    link ← g_queue_peek_nth_link queue (wrap 32 n);
    g_queue_insert_before queue link data).

(** [xassert]. *)
Definition xassert (b : bool) : prog unit := if b then mret tt else undefined.

Definition g_queue_push_nth_link (queue n link_ : Z) : prog unit :=
  with_queue queue tt (
  return_val_if_fail (negb (link_ =? NULL)) "link_ != NULL" tt (
  len ← get_length queue;
  if past_end n len then g_queue_push_tail_link queue link_
  else
    hd ← get_head queue; xassert (negb (hd =? NULL));;
    tl ← get_tail queue; xassert (negb (tl =? NULL));;
    nx ← g_queue_peek_nth_link queue (wrap 32 n);
    pv ← get_prev nx;
    (if negb (pv =? NULL) then set_next pv link_ else mret tt);;
    set_prev nx link_;;
    set_next link_ nx;;
    set_prev link_ pv;;
    hd ← get_head queue;
    hp ← get_prev hd;
    (if negb (hp =? NULL) then
       hd ← get_head queue; hp ← get_prev hd; set_head queue hp
     else mret tt);;
    tl ← get_tail queue;
    tn ← get_next tl;
    xassert (tn =? NULL);;
    longer queue)).

(** [while (list && func (list->data, data, user_data) < 0)] *)
Fixpoint sorted_loop (func : Z -> Z -> Z) (fuel : nat) (list data : Z) : prog Z :=
  match fuel with
  | O => undefined
  | S fuel =>
      if list =? NULL then mret list
      else
        d ← get_data list;
        if func d data <? 0 then list ← get_next list; sorted_loop func fuel list data
        else mret list
  end.
Definition g_queue_insert_sorted (queue data : Z) (func : Z -> Z -> Z) : prog unit :=
  with_queue queue tt (
  list ← get_head queue;
  fuel ← loop_bound;
  list ← sorted_loop func fuel list data;
  g_queue_insert_before queue list data).

(** ** Popping and removing *)

Definition g_queue_pop_head (queue : Z) : prog Z :=
  with_queue queue NULL (
  hd ← get_head queue;
  if negb (hd =? NULL) then
    node ← get_head queue;
    data ← get_data node;
    nx ← get_next node;
    set_head queue nx;;
    hd ← get_head queue;
    (if negb (hd =? NULL) then hd ← get_head queue; set_prev hd NULL else set_tail queue NULL);;
    xlist_free_1 node;;
    shorter queue;;
    mret data
  else mret NULL).

Definition g_queue_pop_head_link (queue : Z) : prog Z :=
  with_queue queue NULL (
  hd ← get_head queue;
  if negb (hd =? NULL) then
    node ← get_head queue;
    nx ← get_next node;
    set_head queue nx;;
    hd ← get_head queue;
    (if negb (hd =? NULL) then
       hd ← get_head queue; set_prev hd NULL;; set_next node NULL
     else set_tail queue NULL);;
    shorter queue;;
    mret node
  else mret NULL).

Definition g_queue_pop_tail (queue : Z) : prog Z :=
  with_queue queue NULL (
  tl ← get_tail queue;
  if negb (tl =? NULL) then
    node ← get_tail queue;
    data ← get_data node;
    pv ← get_prev node;
    set_tail queue pv;;
    tl ← get_tail queue;
    (if negb (tl =? NULL) then tl ← get_tail queue; set_next tl NULL else set_head queue NULL);;
    shorter queue;;
    xlist_free_1 node;;
    mret data
  else mret NULL).

Definition g_queue_pop_tail_link (queue : Z) : prog Z :=
  with_queue queue NULL (
  tl ← get_tail queue;
  if negb (tl =? NULL) then
    node ← get_tail queue;
    pv ← get_prev node;
    set_tail queue pv;;
    tl ← get_tail queue;
    (if negb (tl =? NULL) then
       tl ← get_tail queue; set_next tl NULL;; set_prev node NULL
     else set_head queue NULL);;
    shorter queue;;
    mret node
  else mret NULL).

Definition g_queue_unlink (queue link_ : Z) : prog unit :=
  with_queue queue tt (
  return_val_if_fail (negb (link_ =? NULL)) "link_ != NULL" tt (
  tl ← get_tail queue;
  (if link_ =? tl then
     tl ← get_tail queue; pv ← get_prev tl; set_tail queue pv
   else mret tt);;
  hd ← get_head queue;
  hd ← xlist_remove_link hd link_;
  set_head queue hd;;
  shorter queue)).

Definition g_queue_delete_link (queue link_ : Z) : prog unit :=
  with_queue queue tt (
  return_val_if_fail (negb (link_ =? NULL)) "link_ != NULL" tt (
  g_queue_unlink queue link_;;
  xlist_free link_)).

Definition g_queue_pop_nth (queue n : Z) : prog Z :=
  with_queue queue NULL (
  len ← get_length queue;
  if len <=? n then mret NULL
  else
    nth_link ← g_queue_peek_nth_link queue n;
    result ← get_data nth_link;
    g_queue_delete_link queue nth_link;;
    mret result).

Definition g_queue_pop_nth_link (queue n : Z) : prog Z :=
  with_queue queue NULL (
  len ← get_length queue;
  if len <=? n then mret NULL
  else
    link ← g_queue_peek_nth_link queue n;
    g_queue_unlink queue link;;
    mret link).

Definition g_queue_remove (queue data : Z) : prog bool :=
  with_queue queue false (
  hd ← get_head queue;
  link ← xlist_find hd data;
  (if negb (link =? NULL) then g_queue_delete_link queue link else mret tt);;
  mret (negb (link =? NULL))).

Fixpoint queue_remove_all_loop (fuel : nat) (queue list data : Z) : prog unit :=
  match fuel with
  | O => undefined
  | S fuel =>
      if list =? NULL then mret tt
      else
        nx ← get_next list;
        d ← get_data list;
        (if d =? data then g_queue_delete_link queue list else mret tt);;
        queue_remove_all_loop fuel queue nx data
  end.
Definition g_queue_remove_all (queue data : Z) : prog Z :=
  with_queue queue 0 (
  old_length ← get_length queue;
  list ← get_head queue;
  fuel ← loop_bound;
  queue_remove_all_loop fuel queue list data;;
  len ← get_length queue;
  mret (wrap 32 (old_length - len))).

(** ** Reordering and copying *)

Definition g_queue_reverse (queue : Z) : prog unit :=
  with_queue queue tt (
  hd ← get_head queue;
  set_tail queue hd;;
  hd ← get_head queue;
  hd ← xlist_reverse hd;
  set_head queue hd).

Definition g_queue_sort (queue : Z) (compare_func : Z -> Z -> Z) : prog unit :=
  with_queue queue tt (
  hd ← get_head queue;
  hd ← xlist_sort_with_data compare_func hd;
  set_head queue hd;;
  hd ← get_head queue;
  tl ← xlist_last hd;
  set_tail queue tl).

Fixpoint queue_copy_loop (fuel : nat) (result list : Z) : prog unit :=
  match fuel with
  | O => undefined
  | S fuel =>
      if list =? NULL then mret tt
      else
        d ← get_data list;
        g_queue_push_tail result d;;
        list ← get_next list;
        queue_copy_loop fuel result list
  end.
Definition g_queue_copy (queue : Z) : prog Z :=
  with_queue queue NULL (
  result ← g_queue_new;
  list ← get_head queue;
  fuel ← loop_bound;
  queue_copy_loop fuel result list;;
  mret result).
End gqueue.
