(* ===== verification/DQueueOps.v ===== *)
(** * The operations on queues

    A queue owns its object and the nodes of its list; what every function of
    gqueue.c does to the list. *)

From iris.proofmode Require Import proofmode.
From S2P Require Import Prelude SortMerge Heap DList DListSpec DListOps DQueue.
Local Open Scope Z_scope.
Local Open Scope xpl_scope.

(** ** Rules for the fields *)

#[export] Instance reads_head p q : Reads (get_head p) p (Queue q) (q_head q).
Proof. intros m H. by rw /get_head /load_queue /load /mbind /prog_bind H. Qed.
#[export] Instance reads_tail p q : Reads (get_tail p) p (Queue q) (q_tail q).
Proof. intros m H. by rw /get_tail /load_queue /load /mbind /prog_bind H. Qed.
#[export] Instance reads_length p q : Reads (get_length p) p (Queue q) (q_length q).
Proof. intros m H. by rw /get_length /load_queue /load /mbind /prog_bind H. Qed.
#[export] Instance writes_head p q x :
  Writes (set_head p x) p (Queue q) (Queue (XQueue x (q_tail q) (q_length q))).
Proof. intros m H. unfold set_head, load_queue. solve_writes H. Qed.
#[export] Instance writes_tail p q x :
  Writes (set_tail p x) p (Queue q) (Queue (XQueue (q_head q) x (q_length q))).
Proof. intros m H. unfold set_tail, load_queue. solve_writes H. Qed.
#[export] Instance writes_length p q x :
  Writes (set_length p x) p (Queue q) (Queue (XQueue (q_head q) (q_tail q) x)).
Proof. intros m H. unfold set_length, load_queue. solve_writes H. Qed.
#[export] Instance longer_writes p q :
  Writes (longer p) p (Queue q) (Queue (XQueue (q_head q) (q_tail q) (wrap 32 (q_length q + 1)))).
Proof. intros m H. rw /longer /mbind /prog_bind (reads_length p q m H). apply (writes_length p q _ m H). Qed.
#[export] Instance shorter_writes p q :
  Writes (shorter p) p (Queue q) (Queue (XQueue (q_head q) (q_tail q) (wrap 32 (q_length q - 1)))).
Proof. intros m H. rw /shorter /mbind /prog_bind (reads_length p q m H). apply (writes_length p q _ m H). Qed.

(** The queue [q] with the nodes [l]. *)
Definition queue_cell (l : list (Z * Z)) : object := Queue (XQueue (first_of l NULL) (last_of NULL l) (wrap 32 (zlen l))).
Definition queue_at (q : Z) (l : list (Z * Z)) : assertion := (q ↦ queue_cell l ∗ dlist l)%I.

Section ops.
Context `{Allocator}.

Lemma queue_not_null q l : queue_at q l ⊢ ⌜q <> 0⌝.
Proof. iIntros "[Hq _]". iApply (points_to_not_null with "Hq"). Qed.

Lemma queue_new_ok : {{ emp }} g_queue_new {{ q, queue_at q [] }}.
Proof. iIntros "_". iApply wp_alloc. iIntros (q) "Hq". by iFrame. Qed.

(** Where every function starts. *)
Ltac queue_start :=
  iIntros "Hq"; let Hn := fresh "Hn" in iDestruct (queue_not_null with "Hq") as %Hn;
  iDestruct "Hq" as "[Hq Hl]"; unfold queue_cell, with_queue; wp_test.

Lemma wrap_succ n : wrap 32 (wrap 32 n + 1) = wrap 32 (n + 1).
Proof. unfold wrap. by rw Zplus_mod_idemp_l. Qed.
Lemma wrap_pred n : wrap 32 (wrap 32 n - 1) = wrap 32 (n - 1).
Proof. unfold wrap. by rw Zminus_mod_idemp_l. Qed.

Lemma last_null l : last_of NULL l = 0 -> dlist l ⊢ ⌜l = []⌝.
Proof.
  intros Hl. destruct l as [|[a d] l _] using rev_ind; [iIntros "_"; done|].
  unfold dlist. rw last_of_snoc in Hl. rw nodes_snoc. iIntros "[_ Ha]".
  by iDestruct (points_to_not_null with "Ha") as %Ha.
Qed.

Lemma nodes_last_not_null pv l b e nx : nodes pv (l ++ [(b, e)]) nx ⊢ ⌜b <> 0⌝.
Proof. rw nodes_snoc. iIntros "[_ Hb]". iApply (points_to_not_null with "Hb"). Qed.

(** The object of a queue, field by field. *)
Lemma queue_at_intro q l hd tl n :
  hd = first_of l NULL -> tl = last_of NULL l -> n = wrap 32 (zlen l) ->
  q ↦ Queue (XQueue hd tl n) ∗ dlist l ⊢ queue_at q l.
Proof. by intros -> -> ->. Qed.

Ltac queue_simpl :=
  cbn [last_of first_of app];
  repeat first [rw last_of_snoc | rw last_of_app | rw first_of_app | rw zlen_app | rw zlen_cons
    | rw zlen_nil | rw wrap_succ | rw wrap_pred | progress cbn [last_of first_of app]];
  try done; try (f_equal; lia).
Ltac queue_end := iApply (queue_at_intro with "[$Hq $Hl]"); queue_simpl.

Lemma push_head_ok q l d : {{ queue_at q l }} g_queue_push_head q d {{ _r, ∃ a, queue_at q ((a, d) :: l) }}.
Proof.
  unfold g_queue_push_head. queue_start. wp_step.
  iApply (wp_call _ _ _ _ _ (prepend_ok [] l d (fun _ => eq_refl))). iFrame "Hl".
  iIntros (p) "(%a & -> & Hl)". do 2 wp_step. iDestruct (nodes_not_null NULL a d l with "Hl") as %Ha.
  destruct l as [|[b e] l _] using rev_ind.
  - wp_steps. iExists a. queue_end.
  - iDestruct (nodes_last_not_null NULL ((a, d) :: l) b e NULL with "Hl") as %Hb.
    rw last_of_snoc. wp_steps. iExists a. queue_end.
Qed.

Lemma push_tail_ok q l d : {{ queue_at q l }} g_queue_push_tail q d {{ _r, ∃ a, queue_at q (l ++ [(a, d)]) }}.
Proof.
  unfold g_queue_push_tail. queue_start. wp_step.
  destruct l as [|[b e] l _] using rev_ind; cbn [last_of].
  - iApply (wp_call _ _ _ _ _ (append_ok NULL [] d (fun _ => eq_refl))). iFrame "Hl".
    iIntros (p) "(%a & -> & Hl)". iDestruct (nodes_not_null NULL a d [] with "Hl") as %Ha. cbn. iDestruct "Hl" as "[Ha _]".
    wp_steps. iExists a. iAssert (dlist [(a, d)]) with "[$Ha]" as "Hl". queue_end.
  - rw last_of_snoc. unfold dlist. rw nodes_snoc. iDestruct "Hl" as "[Hl Hb]".
    iDestruct (points_to_not_null with "Hb") as %Hb.
    iApply (wp_call _ _ _ _ _ (append_ok (last_of NULL l) [(b, e)] d ltac:(done))). cbn [nodes first_of].
    iFrame "Hb". iIntros (p) "(%a & -> & Hb & Ha & _)". iDestruct (points_to_not_null with "Ha") as %Ha. cbn [first_of app].
    wp_steps. iExists a. iAssert (dlist ((l ++ [(b, e)]) ++ [(a, d)])) with "[Hl Hb Ha]" as "Hl".
    { unfold dlist. rw !nodes_snoc last_of_snoc. iFrame. }
    queue_end.
Qed.

(** ** Popping *)

Lemma no_nodes pv nx : nodes pv [] nx ⊢ dlist [].
Proof. done. Qed.

Lemma pop_head_ok q l :
  {{ queue_at q l }} g_queue_pop_head q {{ r, ⌜r = first_data l⌝ ∧ queue_at q (tail l) }}.
Proof.
  unfold g_queue_pop_head. queue_start. wp_step. destruct l as [|[a d] l]; cbn [first_of first_data tail].
  - wp_steps. iSplit; [done|]. queue_end.
  - iDestruct (nodes_not_null with "Hl") as %Ha. iDestruct "Hl" as "[Ha Hl]". wp_test. do 5 wp_step.
    destruct l as [|[b e] l]; cbn [first_of].
    + iDestruct (no_nodes with "Hl") as "Hl". wp_test. wp_step. wp_free1 "Ha". wp_steps. iSplit; [done|]. queue_end.
    + iDestruct (nodes_not_null with "Hl") as %Hb. iDestruct "Hl" as "[Hb Hl]". wp_test. do 2 wp_step.
      wp_free1 "Ha". wp_steps. iSplit; [done|]. iCombine "Hb Hl" as "Hl".
      iAssert (dlist ((b, e) :: l)) with "[$Hl]" as "Hl". queue_end.
Qed.

Lemma pop_head_link_ok q a d l :
  {{ queue_at q ((a, d) :: l) }} g_queue_pop_head_link q {{ r, ⌜r = a⌝ ∧ queue_at q l ∗ dlist [(a, d)] }}.
Proof.
  unfold g_queue_pop_head_link. queue_start. wp_step. cbn [first_of].
  iDestruct (nodes_not_null with "Hl") as %Ha. iDestruct "Hl" as "[Ha Hl]". wp_test. do 4 wp_step.
  destruct l as [|[b e] l]; cbn [first_of].
  - iDestruct (no_nodes with "Hl") as "Hl". wp_steps. iSplit; [done|]. iSplitR "Ha"; [queue_end|by iFrame].
  - iDestruct (nodes_not_null with "Hl") as %Hb. iDestruct "Hl" as "[Hb Hl]". wp_test. wp_steps.
    iSplit; [done|]. iSplitR "Ha"; [|by iFrame]. iCombine "Hb Hl" as "Hl".
    iAssert (dlist ((b, e) :: l)) with "[$Hl]" as "Hl". queue_end.
Qed.

Lemma pop_empty_ok q :
  {{ queue_at q [] }} g_queue_pop_head_link q {{ r, ⌜r = NULL⌝ ∧ queue_at q [] }}.
Proof. unfold g_queue_pop_head_link. queue_start. wp_steps. iSplit; [done|]. queue_end. Qed.

(** The data of the last element. *)
Definition last_data (l : list (Z * Z)) : Z := default NULL (snd <$> last l).

Lemma pop_tail_ok q l :
  {{ queue_at q l }} g_queue_pop_tail q {{ r, ⌜r = last_data l⌝ ∧ queue_at q (take (length l - 1) l) }}.
Proof.
  unfold g_queue_pop_tail. queue_start. wp_step. destruct l as [|[a d] l _] using rev_ind.
  - wp_steps. iSplit; [done|]. queue_end.
  - rw length_app Nat.add_sub take_app_length. unfold last_data. rw last_snoc. cbn [fmap option_fmap option_map default snd].
    rw last_of_snoc. unfold dlist. rw nodes_snoc. iDestruct "Hl" as "[Hl Ha]".
    iDestruct (points_to_not_null with "Ha") as %Ha. wp_test. do 5 wp_step.
    destruct l as [|[b e] l _] using rev_ind.
    + iDestruct (no_nodes with "Hl") as "Hl". wp_test. do 2 wp_step. wp_free1 "Ha". wp_steps. iSplit; [done|]. queue_end.
    + iDestruct (nodes_last_not_null with "Hl") as %Hb. rw last_of_snoc nodes_snoc. iDestruct "Hl" as "[Hl Hb]".
      wp_test. do 3 wp_step. wp_free1 "Ha". wp_steps. iSplit; [done|].
      iAssert (dlist (l ++ [(b, e)])) with "[Hl Hb]" as "Hl"; [unfold dlist; rw nodes_snoc; iFrame|]. queue_end.
Qed.

Lemma pop_tail_link_ok q l a d :
  {{ queue_at q (l ++ [(a, d)]) }} g_queue_pop_tail_link q {{ r, ⌜r = a⌝ ∧ queue_at q l ∗ dlist [(a, d)] }}.
Proof.
  unfold g_queue_pop_tail_link. queue_start. wp_step. rw last_of_snoc. unfold dlist. rw nodes_snoc.
  iDestruct "Hl" as "[Hl Ha]". iDestruct (points_to_not_null with "Ha") as %Ha. wp_test. do 4 wp_step.
  destruct l as [|[b e] l _] using rev_ind.
  - iDestruct (no_nodes with "Hl") as "Hl". wp_steps. iSplit; [done|]. iSplitR "Ha"; [queue_end|by iFrame].
  - iDestruct (nodes_last_not_null with "Hl") as %Hb. rw last_of_snoc nodes_snoc. iDestruct "Hl" as "[Hl Hb]".
    wp_test. wp_steps. iSplit; [done|]. iSplitR "Ha"; [|by iFrame].
    iAssert (dlist (l ++ [(b, e)])) with "[Hl Hb]" as "Hl"; [unfold dlist; rw nodes_snoc; iFrame|]. queue_end.
Qed.

(** ** Reading *)

(** A function of the list, on the queue. *)
Lemma queue_reading {A} q l (c : Z -> prog A) val v :
  reading (dlist l) (c (first_of l NULL)) v ->
  reading (queue_at q l) (with_queue q val (hd ← get_head q; c hd)) v.
Proof.
  intros Hc. unfold reading. queue_start. wp_step. iApply (wp_reading_end _ _ _ _ Hc). iFrame "Hl".
  iIntros "Hl". iSplit; [done|]. queue_end.
Qed.

Lemma queue_is_empty_ok q l : reading (queue_at q l) (g_queue_is_empty q) (match l with [] => true | _ => false end).
Proof.
  unfold g_queue_is_empty. apply queue_reading. unfold reading. iIntros "Hl". destruct l as [|[a d] l]; cbn [first_of].
  - wp_steps. iSplit; [done|iFrame].
  - iDestruct (nodes_not_null with "Hl") as %Ha. wp_steps. iSplit; [iPureIntro; by apply Z.eqb_neq|iFrame].
Qed.

Lemma queue_get_length_ok q l : reading (queue_at q l) (g_queue_get_length q) (wrap 32 (zlen l)).
Proof. unfold reading, g_queue_get_length. queue_start. do 2 wp_step. iSplit; [done|]. queue_end. Qed.

Lemma peek_head_link_ok q l : reading (queue_at q l) (g_queue_peek_head_link q) (first_of l NULL).
Proof. unfold reading, g_queue_peek_head_link. queue_start. do 2 wp_step. iSplit; [done|]. queue_end. Qed.
Lemma peek_tail_link_ok q l : reading (queue_at q l) (g_queue_peek_tail_link q) (last_of NULL l).
Proof. unfold reading, g_queue_peek_tail_link. queue_start. do 2 wp_step. iSplit; [done|]. queue_end. Qed.

Lemma peek_head_ok q l : reading (queue_at q l) (g_queue_peek_head q) (first_data l).
Proof.
  unfold g_queue_peek_head. apply queue_reading. unfold reading. iIntros "Hl". destruct l as [|[a d] l]; cbn [first_of first_data].
  - wp_steps. by iFrame.
  - iDestruct (nodes_not_null with "Hl") as %Ha. iDestruct "Hl" as "[Ha Hl]". wp_steps. by iFrame.
Qed.

Lemma peek_tail_ok q l : reading (queue_at q l) (g_queue_peek_tail q) (last_data l).
Proof.
  unfold reading, g_queue_peek_tail. queue_start. wp_step. destruct l as [|[a d] l _] using rev_ind.
  - wp_steps. iSplit; [done|]. queue_end.
  - iDestruct (nodes_last_not_null with "Hl") as %Ha. rw last_of_snoc. wp_test.
    iApply (wp_reading_end _ _ _ _ (read_data NULL l a d [] NULL)). iFrame "Hl". iIntros "Hl".
    iSplit; [by rw /last_data last_snoc|]. queue_end.
Qed.

Lemma find_ok q l data : reading (queue_at q l) (g_queue_find q data) (first_of (from (fun d => d =? data) l) NULL).
Proof. apply (queue_reading q l (fun hd => xlist_find hd data)), xlist_find_ok. Qed.
Lemma find_custom_ok q l data func :
  reading (queue_at q l) (g_queue_find_custom q data func) (first_of (from (fun d => func d data =? 0) l) NULL).
Proof. apply (queue_reading q l (fun hd => xlist_find_custom hd data func)), xlist_find_custom_ok. Qed.
Lemma link_index_ok q l link_ :
  zlen l < 2 ^ 31 -> reading (queue_at q l) (g_queue_link_index q link_) (index_from (fun x => x.1 =? link_) 0 l).
Proof. intros Hl. by apply (queue_reading q l (fun hd => xlist_position hd link_)), xlist_position_ok. Qed.
Lemma queue_index_ok q l data :
  zlen l < 2 ^ 31 -> reading (queue_at q l) (g_queue_index q data) (index_from (fun x => x.2 =? data) 0 l).
Proof. intros Hl. by apply (queue_reading q l (fun hd => xlist_index hd data)), xlist_index_ok. Qed.

(** ** Walking from the nearer end *)

Lemma step_next_ok fuel pv l i n :
  (length l < fuel)%nat -> i <= n < i + zlen l ->
  reading (nodes pv l NULL) (step_loop get_next fuel (first_of l NULL) i n) (first_of (drop (Z.to_nat (n - i)) l) NULL).
Proof.
  unfold reading. revert fuel pv i. induction l as [|[a d] l IH]; intros [|fuel] pv i Hf Hi; cbn in Hf; try lia; rw ?zlen_cons ?zlen_nil in Hi; try lia.
  cbn [step_loop first_of]. iIntros "[Ha Hl]". destruct (Z.ltb_spec i n) as [Hn|Hn]; wp_if.
  - wp_step. replace (Z.to_nat (n - i)) with (S (Z.to_nat (n - (i + 1)))) by lia. cbn [drop].
    assert (length l < fuel)%nat as Hf' by lia. assert (i + 1 <= n < i + 1 + zlen l) as Hi' by lia.
    go_on (IH fuel a (i + 1) Hf' Hi').
  - wp_step. replace (Z.to_nat (n - i)) with O by lia. by iFrame.
Qed.

Lemma step_prev_ok fuel l nx i n :
  (length l < fuel)%nat -> i <= n < i + zlen l ->
  reading (nodes NULL l nx) (step_loop get_prev fuel (last_of NULL l) i n)
    (last_of NULL (take (length l - Z.to_nat (n - i)) l)).
Proof.
  revert fuel nx i. induction l as [|[a d] l IH] using rev_ind; intros [|fuel] nx i Hf Hi; rw ?length_app /= in Hf; try lia; rw ?zlen_app ?zlen_cons ?zlen_nil in Hi; try lia.
  cbn [step_loop]. rw nodes_snoc last_of_snoc. unfold reading. iIntros "[Hl Ha]".
  destruct (Z.ltb_spec i n) as [Hn|Hn]; wp_if.
  - wp_step. assert (length l < fuel)%nat as Hf' by lia. assert (i + 1 <= n < i + 1 + zlen l) as Hi' by lia.
    iApply (wp_reading_end _ _ _ _ (IH fuel a (i + 1) Hf' Hi')). iFrame "Hl". iIntros "Hl". iFrame.
    iPureIntro. split; [|done]. rw length_app /= take_app_le; [|unfold zlen in *; lia]. do 2 f_equal. lia.
  - wp_step. iFrame. iPureIntro. split; [|done]. rw take_ge ?last_of_snoc //. rw length_app /=. lia.
Qed.

Lemma last_of_take k l : (k < length l)%nat -> last_of NULL (take (S k) l) = first_of (drop k l) NULL.
Proof.
  revert k. generalize NULL at 1. induction l as [|[a d] l IH]; intros pv [|k] Hk; cbn in *; try lia; [done|].
  apply (IH a). lia.
Qed.

Lemma peek_nth_link_ok q l n :
  0 <= n -> zlen l < 2 ^ 32 ->
  reading (queue_at q l) (g_queue_peek_nth_link q n) (first_of (drop (Z.to_nat n) l) NULL).
Proof.
  intros Hn Hl. unfold reading, g_queue_peek_nth_link. queue_start. wp_step. pose proof (zlen_nonneg l).
  assert (zlen l = Z.of_nat (length l)) as El by done.
  rw (wrap_small 32 (zlen l)); [|lia]. destruct (Z.leb_spec (zlen l) n) as [Hge|Hlt]; wp_if.
  - wp_step. rw drop_ge; [|lia]. iSplit; [done|].
    iApply (queue_at_intro with "[$Hq $Hl]"); [done..|]. by rw wrap_small.
  - iCombine "Hl Hq" as "H". iStopProof. apply bound_nodes. intros fuel Hf. iIntros "[Hl Hq]".
    rw (wrap_small 32 (zlen l - n - 1)); [|lia].
    destruct (Z.ltb_spec (zlen l / 2) n) as [Hh|Hh]; wp_if; wp_step.
    + assert (0 <= zlen l - n - 1 < 0 + zlen l) as Hi by lia.
      iApply (wp_reading_end _ _ _ _ (step_prev_ok fuel l NULL 0 _ Hf Hi)). iFrame "Hl". iIntros "Hl". iSplit.
      * iPureIntro. rw -last_of_take; [|lia]. do 2 f_equal. lia.
      * iApply (queue_at_intro with "[$Hq $Hl]"); [done..|]. by rw wrap_small.
    + assert (0 <= n < 0 + zlen l) as Hi by lia.
      iApply (wp_reading_end _ _ _ _ (step_next_ok fuel NULL l 0 n Hf Hi)). iFrame "Hl". iIntros "Hl". iSplit.
      * iPureIntro. by rw Z.sub_0_r.
      * iApply (queue_at_intro with "[$Hq $Hl]"); [done..|]. by rw wrap_small.
Qed.

Lemma peek_nth_ok q l n :
  0 <= n -> zlen l < 2 ^ 32 -> reading (queue_at q l) (g_queue_peek_nth q n) (first_data (drop (Z.to_nat n) l)).
Proof.
  intros Hn Hl. unfold reading. iIntros "Hq". iDestruct (queue_not_null with "Hq") as %Hq.
  unfold g_queue_peek_nth, with_queue. wp_test.
  iApply (wp_reading _ _ _ _ _ (peek_nth_link_ok q l n Hn Hl)). iFrame "Hq". iIntros "[Hq Hl]".
  pose proof (read_at NULL (take (Z.to_nat n) l) (drop (Z.to_nat n) l)) as Hr. rw take_drop in Hr.
  assert (forall (b : bool) (x y : prog Z), (if negb b then x else y) = if b then y else x) as -> by by intros [].
  iApply (wp_reading_end _ _ _ _ Hr). iFrame "Hl". iIntros "Hl". iSplit; [done|]. iFrame.
Qed.

(** ** Inserting *)

Lemma queue_insert_before_ok q l1 l2 d :
  {{ queue_at q (l1 ++ l2) }} g_queue_insert_before q (first_of l2 NULL) d {{ _r, ∃ a, queue_at q (l1 ++ (a, d) :: l2) }}.
Proof.
  unfold g_queue_insert_before. destruct l2 as [|[b e] l2]; cbn [first_of].
  - iIntros "Hq". iDestruct (queue_not_null with "Hq") as %Hq. unfold with_queue. wp_test.
    rw app_nil_r. iApply push_tail_ok. done.
  - queue_start. iAssert (⌜b <> 0⌝)%I as %Hb.
    { unfold dlist. rw nodes_app. iDestruct "Hl" as "[_ H2]". iApply (nodes_not_null with "H2"). }
    wp_test. wp_step. iApply (wp_call _ _ _ _ _ (insert_before_ok l1 ((b, e) :: l2) d)). iFrame "Hl".
    iIntros (p) "(%a & -> & Hl)". wp_steps. iExists a. queue_end.
Qed.

Lemma queue_insert_after_ok q l1 b e l2 d :
  {{ queue_at q (l1 ++ (b, e) :: l2) }} g_queue_insert_after q b d {{ _r, ∃ a, queue_at q (l1 ++ (b, e) :: (a, d) :: l2) }}.
Proof.
  unfold g_queue_insert_after. queue_start. iAssert (⌜b <> 0⌝)%I as %Hb.
  { unfold dlist. rw nodes_app. iDestruct "Hl" as "[_ H2]". iApply (nodes_not_null with "H2"). }
  wp_test. iApply (wp_reading _ _ _ _ _ (read_next NULL l1 b e l2 NULL)). iFrame "Hl". iIntros "Hl".
  iApply wp_wand. iSplitL.
  - iApply (queue_insert_before_ok q (l1 ++ [(b, e)]) l2 d). rw -app_assoc. by iFrame.
  - iIntros (_) "(%a & Hq)". iExists a. by rw -app_assoc.
Qed.

Lemma queue_insert_first_ok q l d :
  {{ queue_at q l }} g_queue_insert_after q NULL d {{ _r, ∃ a, queue_at q ((a, d) :: l) }}.
Proof.
  unfold g_queue_insert_after. iIntros "Hq". iDestruct (queue_not_null with "Hq") as %Hq. unfold with_queue.
  wp_test. by iApply push_head_ok.
Qed.

(** A link that is in no list. *)
Lemma wp_with_link name a d rest Q :
  dlist [(a, d)] ∗ (dlist [(a, d)] -∗ wp rest Q) ⊢ wp (with_link name a rest) Q.
Proof.
  iIntros "[[Ha _] HQ]". iDestruct (points_to_not_null with "Ha") as %Ha. cbn [first_of].
  unfold with_link. wp_test. wp_step. wp_test. wp_step. wp_test. iApply "HQ". by iFrame.
Qed.

Lemma push_head_link_ok q l a d :
  {{ queue_at q l ∗ dlist [(a, d)] }} g_queue_push_head_link q a {{ _r, queue_at q ((a, d) :: l) }}.
Proof.
  unfold g_queue_push_head_link. iIntros "[Hq Ha]". iDestruct (queue_not_null with "Hq") as %Hq.
  iDestruct "Hq" as "[Hq Hl]". unfold queue_cell, with_queue. wp_test.
  iApply wp_with_link. iFrame "Ha". iIntros "[Ha _]". do 3 wp_step. cbn [first_of].
  destruct l as [|[b e] l]; cbn [first_of].
  - wp_steps. iAssert (dlist [(a, d)]) with "[Ha Hl]" as "Hl"; [unfold dlist; cbn; by iFrame|]. queue_end.
  - iDestruct (nodes_not_null with "Hl") as %Hb. iDestruct "Hl" as "[Hb Hl]". wp_steps.
    iCombine "Ha Hb Hl" as "Hl". iAssert (dlist ((a, d) :: (b, e) :: l)) with "[$Hl]" as "Hl". queue_end.
Qed.

Lemma push_tail_link_ok q l a d :
  {{ queue_at q l ∗ dlist [(a, d)] }} g_queue_push_tail_link q a {{ _r, queue_at q (l ++ [(a, d)]) }}.
Proof.
  unfold g_queue_push_tail_link. iIntros "[Hq Ha]". iDestruct (queue_not_null with "Hq") as %Hq.
  iDestruct "Hq" as "[Hq Hl]". unfold queue_cell, with_queue. wp_test.
  iApply wp_with_link. iFrame "Ha". iIntros "[Ha _]". do 3 wp_step. cbn [first_of].
  destruct l as [|[b e] l _] using rev_ind; cbn [last_of].
  - wp_steps. iAssert (dlist [(a, d)]) with "[Ha Hl]" as "Hl"; [unfold dlist; cbn; by iFrame|]. queue_end.
  - iDestruct (nodes_last_not_null with "Hl") as %Hb. unfold dlist. rw last_of_snoc nodes_snoc.
    iDestruct "Hl" as "[Hl Hb]". wp_steps.
    iAssert (dlist ((l ++ [(b, e)]) ++ [(a, d)])) with "[Hl Hb Ha]" as "Hl".
    { unfold dlist. rw !nodes_snoc last_of_snoc. iFrame. }
    queue_end.
Qed.

Lemma queue_insert_before_link_ok q l1 l2 a d :
  {{ queue_at q (l1 ++ l2) ∗ dlist [(a, d)] }} g_queue_insert_before_link q (first_of l2 NULL) a
  {{ _r, queue_at q (l1 ++ (a, d) :: l2) }}.
Proof.
  unfold g_queue_insert_before_link. iIntros "[Hq Ha]". iDestruct (queue_not_null with "Hq") as %Hq.
  unfold with_queue. wp_test. iApply wp_with_link. iFrame "Ha". iIntros "Ha".
  destruct l2 as [|[b e] l2]; cbn [first_of].
  - wp_test. rw app_nil_r. iApply push_tail_link_ok. iFrame.
  - iDestruct "Hq" as "[Hq Hl]". iAssert (⌜b <> 0⌝)%I as %Hb.
    { unfold dlist. rw nodes_app. iDestruct "Hl" as "[_ H2]". iApply (nodes_not_null with "H2"). }
    wp_test. unfold queue_cell. wp_step.
    iApply (wp_call _ _ _ _ _ (insert_before_link_ok l1 ((b, e) :: l2) a d)). iFrame "Hl Ha".
    iIntros (p) "(-> & Hl)". wp_steps. queue_end.
Qed.

Lemma queue_insert_after_link_ok q l1 b e l2 a d :
  {{ queue_at q (l1 ++ (b, e) :: l2) ∗ dlist [(a, d)] }} g_queue_insert_after_link q b a
  {{ _r, queue_at q (l1 ++ (b, e) :: (a, d) :: l2) }}.
Proof.
  unfold g_queue_insert_after_link. iIntros "[Hq Ha]". iDestruct (queue_not_null with "Hq") as %Hq.
  unfold with_queue. wp_test. iApply wp_with_link. iFrame "Ha". iIntros "Ha".
  iDestruct "Hq" as "[Hq Hl]". iAssert (⌜b <> 0⌝)%I as %Hb.
  { unfold dlist. rw nodes_app. iDestruct "Hl" as "[_ H2]". iApply (nodes_not_null with "H2"). }
  wp_test. iApply (wp_reading _ _ _ _ _ (read_next NULL l1 b e l2 NULL)). iFrame "Hl". iIntros "Hl".
  rw (app_snoc l1 (b, e) l2) (app_snoc l1 (b, e) ((a, d) :: l2)).
  iApply queue_insert_before_link_ok. iFrame.
Qed.

(** ** At an index *)

Definition at_index (l : list (Z * Z)) (n : Z) : nat := if past_end n (zlen l) then length l else Z.to_nat n.

Lemma at_index_found l n :
  n < 2 ^ 31 -> past_end n (zlen l) = false -> 0 <= n < zlen l /\ at_index l n = Z.to_nat n /\ wrap 32 n = n.
Proof.
  intros Hn Hp. unfold at_index. rw Hp. unfold past_end in Hp. apply orb_false_iff in Hp as [H1 H2].
  apply Z.ltb_ge in H1. rw wrap_small in H2; [|lia]. apply Z.leb_gt in H2. rw wrap_small; [|lia]. lia.
Qed.

Lemma push_nth_ok q l d n :
  n < 2 ^ 31 -> zlen l < 2 ^ 32 ->
  {{ queue_at q l }} g_queue_push_nth q d n
  {{ _r, ∃ a, queue_at q (take (at_index l n) l ++ (a, d) :: drop (at_index l n) l) }}.
Proof.
  intros Hn Hl. unfold g_queue_push_nth. queue_start. wp_step. pose proof (zlen_nonneg l).
  rw (wrap_small 32 (zlen l)); [|lia]. iAssert (queue_at q l) with "[$Hl Hq]" as "Hq"; [by rw /queue_cell wrap_small|].
  destruct (past_end n (zlen l)) eqn:Hp; wp_if.
  - unfold at_index. rw Hp take_ge // drop_ge //. by iApply push_tail_ok.
  - destruct (at_index_found l n Hn Hp) as (Hi & -> & ->).
    iApply (wp_reading _ _ _ _ _ (peek_nth_link_ok q l n ltac:(lia) Hl)). iFrame "Hq". iIntros "Hq".
    iApply queue_insert_before_ok. by rw take_drop.
Qed.

(** The node before a place, if there is one, is linked to [a]. *)
Lemma relink_before l1 b a :
  {{ nodes NULL l1 b }} (if negb (last_of NULL l1 =? NULL) then set_next (last_of NULL l1) a else mret tt)
  {{ _r, nodes NULL l1 a }}.
Proof.
  destruct l1 as [|[c f] l1 _] using rev_ind; iIntros "Hl".
  - cbn [last_of]. wp_steps. done.
  - iDestruct (nodes_last_not_null with "Hl") as %Hc. rw last_of_snoc nodes_snoc. iDestruct "Hl" as "[Hl Hc]".
    wp_steps. rw nodes_snoc. iFrame.
Qed.

(** The head moves back to a node that was put before it. *)
Lemma move_head q l1 b e l2 a d tl n {B} (k : prog B) Q :
  a <> 0 ->
  q ↦ Queue (XQueue (first_of (l1 ++ (b, e) :: l2) NULL) tl n) ∗ dlist (l1 ++ (a, d) :: (b, e) :: l2) ∗
  (q ↦ Queue (XQueue (first_of (l1 ++ (a, d) :: (b, e) :: l2) NULL) tl n) -∗
   dlist (l1 ++ (a, d) :: (b, e) :: l2) -∗ wp k Q) ⊢
  wp (hd ← get_head q; hp ← get_prev hd;
      (if negb (hp =? NULL) then hd ← get_head q; hp ← get_prev hd; set_head q hp else mret tt);; k) Q.
Proof.
  intros Ha. iIntros "(Hq & Hl & HQ)". wp_step. destruct l1 as [|[c f] l1]; cbn [app first_of].
  - iApply (wp_reading _ _ _ _ _ (read_prev NULL [(a, d)] b e l2 NULL)). iFrame "Hl". iIntros "Hl". cbn [last_of].
    wp_test. wp_step. wp_norm.
    iApply (wp_reading _ _ _ _ _ (read_prev NULL [(a, d)] b e l2 NULL)). iFrame "Hl". iIntros "Hl". cbn [last_of].
    wp_step. iApply ("HQ" with "Hq Hl").
  - iApply (wp_reading _ _ _ _ _ (read_prev NULL [] c f _ NULL)). iFrame "Hl". iIntros "Hl". cbn [last_of].
    wp_test. wp_norm. iApply ("HQ" with "Hq Hl").
Qed.

Lemma push_nth_link_ok q l a d n :
  n < 2 ^ 31 -> zlen l < 2 ^ 32 ->
  {{ queue_at q l ∗ dlist [(a, d)] }} g_queue_push_nth_link q n a
  {{ _r, queue_at q (take (at_index l n) l ++ (a, d) :: drop (at_index l n) l) }}.
Proof.
  intros Hn Hl. unfold g_queue_push_nth_link. iIntros "[Hq Ha]". iDestruct (queue_not_null with "Hq") as %Hq.
  iDestruct (nodes_not_null with "Ha") as %Ha. unfold with_queue, xassert. do 2 wp_test.
  iDestruct "Hq" as "[Hq Hl]". unfold queue_cell. wp_step. pose proof (zlen_nonneg l). rw (wrap_small 32 (zlen l)); [|lia].
  destruct (past_end n (zlen l)) eqn:Hp; wp_if.
  { unfold at_index. rw Hp take_ge // drop_ge //. iApply push_tail_link_ok. iFrame. by rw /queue_cell wrap_small. }
  destruct (at_index_found l n Hn Hp) as (Hi & -> & ->).
  assert (l <> []) as Hne by (intros ->; rw zlen_nil in Hi; lia).
  iDestruct (nodes_front with "Hl") as %Hf; [done|].
  iAssert (⌜last_of NULL l <> 0⌝)%I as %Hlast.
  { destruct l as [|[c f] l0 _] using rev_ind; [done|]. rw last_of_snoc. iApply (nodes_last_not_null with "Hl"). }
  do 2 (wp_step; wp_test). wp_norm.
  iAssert (queue_at q l) with "[$Hl Hq]" as "Hq"; [by rw /queue_cell wrap_small|].
  iApply (wp_reading _ _ _ _ _ (peek_nth_link_ok q l n ltac:(lia) Hl)). iFrame "Hq". iIntros "[Hq Hl]".
  assert (exists l1 b e l2, l = l1 ++ (b, e) :: l2 /\ take (Z.to_nat n) l = l1 /\ drop (Z.to_nat n) l = (b, e) :: l2)
    as (l1 & b & e & l2 & El & -> & ->).
  { destruct (drop (Z.to_nat n) l) as [|[b e] l2] eqn:Ed.
    - apply (f_equal length) in Ed. rw length_drop in Ed. unfold zlen in *. cbn in Ed. lia.
    - exists (take (Z.to_nat n) l), b, e, l2. split; [|done]. by rw -Ed take_drop. }
  clear n Hn Hp Hi. subst l. cbn [first_of]. rw split_at. iDestruct "Hl" as "(H1 & Hb & H2)".
  iDestruct (points_to_not_null with "Hb") as %Hb. iDestruct "Ha" as "[Ha _]". wp_step.
  iApply (wp_call _ _ _ _ _ (relink_before l1 b a)). iFrame "H1". iIntros (_) "H1". unfold queue_cell. do 3 wp_step. wp_norm.
  iAssert (dlist (l1 ++ (a, d) :: (b, e) :: l2)) with "[H1 Ha Hb H2]" as "Hl"; [rw split_at; iFrame|].
  iApply (move_head q l1 b e l2 a d); [done|]. iFrame "Hq Hl". iIntros "Hq Hl". wp_step.
  assert (exists x t f, l1 ++ (b, e) :: l2 = x ++ [(t, f)] /\ exists x', l1 ++ (a, d) :: (b, e) :: l2 = x' ++ [(t, f)])
    as (x & t & f & Ex & x' & Ex').
  { destruct l2 as [|[t f] l2 _] using rev_ind.
    - exists l1, b, e. split; [done|]. exists (l1 ++ [(a, d)]). by rw -app_assoc.
    - exists (l1 ++ (b, e) :: l2), t, f. split; [by rw -app_assoc|]. exists (l1 ++ (a, d) :: (b, e) :: l2). by rw -app_assoc. }
  rw Ex' Ex last_of_snoc. iApply (wp_reading _ _ _ _ _ (read_next NULL x' t f [] NULL)). iFrame "Hl". iIntros "Hl".
  wp_test. wp_steps. iApply (queue_at_intro with "[$Hq $Hl]"); [done|by rw last_of_snoc|].
  rw wrap_succ -Ex -Ex' !zlen_app !zlen_cons. f_equal. lia.
Qed.

Lemma sorted_loop_ok func fuel pv l data :
  (length l < fuel)%nat ->
  reading (nodes pv l NULL) (sorted_loop func fuel (first_of l NULL) data)
    (first_of (from (fun d => negb (func d data <? 0)) l) NULL).
Proof.
  unfold reading. revert fuel pv.
  induction l as [|[a d] l IH]; intros [|fuel] pv Hf; cbn in Hf; try lia; cbn [sorted_loop first_of from].
  - iIntros "_". wp_test. by wp_step.
  - iIntros "[Ha Hl]". iDestruct (points_to_not_null with "Ha") as %Ha. wp_test. wp_step.
    destruct (func d data <? 0); cbn [negb].
    + wp_step. assert (length l < fuel)%nat as Hf' by lia. go_on (IH fuel a Hf').
    + wp_step. by iFrame.
Qed.

(** [data] goes before the first element that is not below it. *)
Lemma queue_insert_sorted_ok q l data func :
  {{ queue_at q l }} g_queue_insert_sorted q data func
  {{ _r, ∃ a, let found := fun d => negb (func d data <? 0) in
         queue_at q (upto found l ++ (a, data) :: from found l) }}.
Proof.
  unfold g_queue_insert_sorted. queue_start. wp_step. iCombine "Hl Hq" as "H". iStopProof.
  apply bound_nodes. intros fuel Hf. iIntros "[Hl Hq]".
  iApply (wp_reading _ _ _ _ _ (sorted_loop_ok func fuel NULL l data Hf)). iFrame "Hl". iIntros "Hl".
  iApply queue_insert_before_ok. rw upto_from. iFrame.
Qed.

(** ** Removing *)

Lemma unlink_ok q l1 a d l2 :
  {{ queue_at q (l1 ++ (a, d) :: l2) }} g_queue_unlink q a {{ _r, queue_at q (l1 ++ l2) ∗ dlist [(a, d)] }}.
Proof.
  unfold g_queue_unlink. queue_start. iAssert (⌜a <> 0⌝)%I as %Ha.
  { unfold dlist. rw nodes_app. iDestruct "Hl" as "[_ H2]". iApply (nodes_not_null with "H2"). }
  wp_test. wp_step.
  iApply (wp_call (q ↦ Queue (XQueue (first_of (l1 ++ (a, d) :: l2) NULL) (last_of NULL (l1 ++ (a, d) :: l2)) (wrap 32 (zlen (l1 ++ (a, d) :: l2)))) ∗ dlist (l1 ++ (a, d) :: l2))%I
    (fun _ => q ↦ Queue (XQueue (first_of (l1 ++ (a, d) :: l2) NULL) (last_of NULL (l1 ++ l2)) (wrap 32 (zlen (l1 ++ (a, d) :: l2)))) ∗ dlist (l1 ++ (a, d) :: l2))%I).
  { iIntros "[Hq Hl]". destruct l2 as [|[b e] l2 _] using rev_ind.
    - rw last_of_snoc. wp_test. wp_step.
      iApply (wp_reading _ _ _ _ _ (read_prev NULL l1 a d [] NULL)). iFrame "Hl". iIntros "Hl".
      do 2 wp_step. rw app_nil_r. iFrame.
    - rw {1}split_at. iDestruct "Hl" as "(H1 & Ha & H2)". iDestruct (nodes_ne with "[$H2 $Ha]") as %Hne.
      assert (a <> b) as Hab by (intros ->; apply Hne; rw fmap_app; set_solver).
      iCombine "H1 Ha H2" as "Hl". rw -split_at. rw !app_comm_cons !app_assoc !last_of_snoc. wp_test. wp_step. iFrame. }
  iFrame "Hq Hl". iIntros (_) "[Hq Hl]". wp_step.
  iApply (wp_call _ _ _ _ _ (_remove_link_ok l1 a d l2)). iFrame "Hl". iIntros (p) "[[-> Hl] Ha]".
  wp_steps. iFrame "Ha". queue_end.
Qed.

Lemma queue_delete_link_ok q l1 a d l2 :
  {{ queue_at q (l1 ++ (a, d) :: l2) }} g_queue_delete_link q a {{ _r, queue_at q (l1 ++ l2) }}.
Proof.
  unfold g_queue_delete_link. iIntros "Hq". iDestruct (queue_not_null with "Hq") as %Hq. unfold with_queue. wp_test.
  iAssert (⌜a <> 0⌝)%I as %Ha.
  { iDestruct "Hq" as "[_ Hl]". unfold dlist. rw nodes_app. iDestruct "Hl" as "[_ H2]". iApply (nodes_not_null with "H2"). }
  wp_test. iApply (wp_call _ _ _ _ _ (unlink_ok q l1 a d l2)). iFrame "Hq". iIntros (_) "[Hq Ha]".
  iApply (xlist_free_ok NULL [(a, d)]). iFrame.
Qed.

(** The element at an index, within the list. *)
Lemma nth_split_list (l : list (Z * Z)) n :
  0 <= n < zlen l ->
  exists l1 a d l2, l = l1 ++ (a, d) :: l2 /\ zlen l1 = n /\ drop (Z.to_nat n) l = (a, d) :: l2 /\ take (Z.to_nat n) l = l1.
Proof.
  intros Hn. unfold zlen in *. destruct (drop (Z.to_nat n) l) as [|[a d] l2] eqn:Ed.
  - apply (f_equal length) in Ed. rw length_drop in Ed. cbn in Ed. lia.
  - exists (take (Z.to_nat n) l), a, d, l2. split; [by rw -Ed take_drop|]. rw length_take. repeat split; lia.
Qed.

(** The data at index [n], and the list without it. *)
Definition nth_data (l : list (Z * Z)) (n : Z) : Z := first_data (drop (Z.to_nat n) l).
Definition delete_nth (l : list (Z * Z)) (n : Z) : list (Z * Z) := take (Z.to_nat n) l ++ tail (drop (Z.to_nat n) l).

Lemma delete_nth_past l n : zlen l <= n -> delete_nth l n = l.
Proof. intros Hn. unfold delete_nth, zlen in *. rw take_ge ?drop_ge ?app_nil_r //; lia. Qed.

Lemma pop_nth_ok q l n :
  0 <= n -> zlen l < 2 ^ 32 ->
  {{ queue_at q l }} g_queue_pop_nth q n {{ r, ⌜r = nth_data l n⌝ ∧ queue_at q (delete_nth l n) }}.
Proof.
  intros Hn Hl. pose proof (zlen_nonneg l). unfold g_queue_pop_nth. queue_start. wp_step.
  iAssert (queue_at q l) with "[$Hl $Hq]" as "Hq". rw wrap_small; [|lia].
  destruct (Z.leb_spec (zlen l) n) as [Hge|Hlt]; wp_if.
  - wp_step. rw delete_nth_past //. iFrame. by rw /nth_data drop_ge; [|unfold zlen in *; lia].
  - iApply (wp_reading _ _ _ _ _ (peek_nth_link_ok q l n Hn Hl)). iFrame "Hq". iIntros "[Hq Hl]".
    destruct (nth_split_list l n ltac:(lia)) as (l1 & a & d & l2 & El & _ & Ed & Et).
    unfold nth_data, delete_nth. rw Ed Et El. cbn [first_of first_data tail].
    iApply (wp_reading _ _ _ _ _ (read_data NULL l1 a d l2 NULL)). iFrame "Hl". iIntros "Hl".
    iApply (wp_call _ _ _ _ _ (queue_delete_link_ok q l1 a d l2)). iFrame "Hq Hl". iIntros (_) "Hq".
    wp_step. by iFrame.
Qed.

Lemma pop_nth_link_ok q l1 a d l2 :
  zlen (l1 ++ (a, d) :: l2) < 2 ^ 32 ->
  {{ queue_at q (l1 ++ (a, d) :: l2) }} g_queue_pop_nth_link q (zlen l1)
  {{ r, ⌜r = a⌝ ∧ queue_at q (l1 ++ l2) ∗ dlist [(a, d)] }}.
Proof.
  intros Hl. pose proof (zlen_nonneg l1). pose proof (zlen_nonneg l2).
  assert (zlen l1 < zlen (l1 ++ (a, d) :: l2)) as Hlt by (rw zlen_app zlen_cons; lia).
  unfold g_queue_pop_nth_link. queue_start. wp_step.
  iAssert (queue_at q (l1 ++ (a, d) :: l2)) with "[$Hl $Hq]" as "Hq". rw wrap_small; [|lia].
  rw (proj2 (Z.leb_gt _ _) Hlt). wp_if.
  iApply (wp_reading _ _ _ _ _ (peek_nth_link_ok q _ (zlen l1) ltac:(lia) Hl)). iFrame "Hq". iIntros "Hq".
  unfold zlen. rw Nat2Z.id drop_app_length. cbn [first_of].
  iApply (wp_call _ _ _ _ _ (unlink_ok q l1 a d l2)). iFrame "Hq". iIntros (_) "[Hq Ha]".
  wp_step. by iFrame.
Qed.

(** [data] is in the list. *)
Definition has_data (data : Z) (l : list (Z * Z)) : bool := existsb (fun x => x.2 =? data) l.

Lemma from_data data l :
  match from (fun d => d =? data) l with
  | [] => has_data data l = false /\ remove_data data l = l
  | (a, d) :: l2 => has_data data l = true /\ remove_data data l = upto (fun d => d =? data) l ++ l2
  end.
Proof.
  induction l as [|[a d] l IH]; [done|]. unfold has_data in *. cbn [from remove_data upto existsb snd].
  destruct (d =? data); [done|]. destruct (from _ l) as [|[b e] l2]; destruct IH as [IH1 IH2]; cbn [orb]; rw IH1 IH2 //.
Qed.

Lemma queue_remove_ok q l data :
  {{ queue_at q l }} g_queue_remove q data {{ r, ⌜r = has_data data l⌝ ∧ queue_at q (remove_data data l) }}.
Proof.
  unfold g_queue_remove. queue_start. wp_step.
  iApply (wp_reading _ _ _ _ _ (xlist_find_ok NULL l data)). iFrame "Hl". iIntros "Hl".
  iAssert (queue_at q l) with "[$Hl $Hq]" as "Hq". pose proof (from_data data l) as Hd.
  pose proof (upto_from (fun d => d =? data) l) as El.
  destruct (from _ l) as [|[a d] l2]; destruct Hd as [-> ->]; cbn [first_of].
  - wp_test. wp_norm. wp_steps. by iFrame.
  - rw -{1}El. iAssert (⌜a <> 0⌝)%I as %Ha.
    { iDestruct "Hq" as "[_ Hl]". unfold dlist. rw nodes_app. iDestruct "Hl" as "[_ H2]". iApply (nodes_not_null with "H2"). }
    wp_test. iApply (wp_call _ _ _ _ _ (queue_delete_link_ok q _ a d l2)). iFrame "Hq". iIntros (_) "Hq".
    wp_step. by iFrame.
Qed.

Lemma queue_remove_all_loop_ok fuel q l1 l2 data :
  (length l2 < fuel)%nat ->
  {{ queue_at q (l1 ++ l2) }} queue_remove_all_loop fuel q (first_of l2 NULL) data
  {{ _r, queue_at q (l1 ++ without data l2) }}.
Proof.
  revert fuel l1. induction l2 as [|[a d] l2 IH]; intros [|fuel] l1 Hf; cbn in Hf; try lia; cbn [queue_remove_all_loop first_of].
  - iIntros "Hq". wp_steps. done.
  - iIntros "[Hq Hl]". iAssert (⌜a <> 0⌝)%I as %Ha.
    { unfold dlist. rw nodes_app. iDestruct "Hl" as "[_ H2]". iApply (nodes_not_null with "H2"). }
    wp_test. iApply (wp_reading _ _ _ _ _ (read_next NULL l1 a d l2 NULL)). iFrame "Hl". iIntros "Hl".
    iApply (wp_reading _ _ _ _ _ (read_data NULL l1 a d l2 NULL)). iFrame "Hl". iIntros "Hl".
    iAssert (queue_at q (l1 ++ (a, d) :: l2)) with "[$Hl $Hq]" as "Hq".
    unfold without. rw filter_cons. cbn [snd]. destruct (Z.eqb_spec d data) as [->|Hd]; wp_if.
    + rw decide_False; [|by intros []].
      iApply (wp_call _ _ _ _ _ (queue_delete_link_ok q l1 a data l2)). iFrame "Hq". iIntros (_) "Hq".
      iApply (IH fuel l1); [lia|done].
    + rw decide_True; [|done]. wp_norm. rw (app_snoc l1 (a, d) l2) (app_snoc l1 (a, d) (filter _ l2)).
      iApply IH; [lia|done].
Qed.

Lemma queue_remove_all_ok q l data :
  zlen l < 2 ^ 32 ->
  {{ queue_at q l }} g_queue_remove_all q data
  {{ r, ⌜r = zlen l - zlen (without data l)⌝ ∧ queue_at q (without data l) }}.
Proof.
  intros Hl. unfold g_queue_remove_all. queue_start. do 2 wp_step. iCombine "Hl Hq" as "H". iStopProof.
  apply bound_nodes. intros fuel Hf. iIntros "[Hl Hq]". iAssert (queue_at q ([] ++ l)) with "[$Hl $Hq]" as "Hq".
  iApply (wp_call _ _ _ _ _ (queue_remove_all_loop_ok fuel q [] l data Hf)). iFrame "Hq". iIntros (_) "[Hq Hl]".
  unfold queue_cell. do 2 wp_step. iSplit; [|queue_end]. iPureIntro.
  pose proof (length_filter (fun x : Z * Z => x.2 <> data) l) as Hlen. fold (without data l) in Hlen.
  pose proof (zlen_nonneg l). pose proof (zlen_nonneg (without data l)). cbn [app].
  rw !wrap_small //; unfold zlen in *; lia.
Qed.

(** ** Reordering and copying *)

Lemma last_of_rev l : last_of NULL (rev l) = first_of l NULL.
Proof. destruct l as [|[a d] l]; [done|]. cbn [rev]. apply last_of_snoc. Qed.

Lemma queue_reverse_ok q l : {{ queue_at q l }} g_queue_reverse q {{ _r, queue_at q (rev l) }}.
Proof.
  unfold g_queue_reverse. queue_start. do 3 wp_step.
  iApply (wp_call _ _ _ _ _ (reverse_ok l)). iFrame "Hl". iIntros (p) "[-> Hl]". wp_steps.
  iApply (queue_at_intro with "[$Hq $Hl]"); [done|by rw last_of_rev|]. unfold zlen. by rw length_rev.
Qed.

Lemma queue_sort_ok q l func :
  {{ queue_at q l }} g_queue_sort q func {{ _r, ∃ l', ⌜sorts (by_data func) l l'⌝ ∧ queue_at q l' }}.
Proof.
  unfold g_queue_sort. queue_start. wp_step.
  iApply (wp_call _ _ _ _ _ (sort_ok func l)). iFrame "Hl". iIntros (p) "(%l' & %Hs & -> & Hl)". do 2 wp_step.
  iApply (wp_reading _ _ _ _ _ (xlist_last_ok NULL l')). iFrame "Hl". iIntros "Hl". wp_steps.
  iExists l'. iSplit; [done|]. iApply (queue_at_intro with "[$Hq $Hl]"); [done..|].
  destruct Hs as [Hp _]. unfold zlen. by rw Hp.
Qed.

Lemma queue_copy_loop_ok fuel pv r l' l :
  (length l < fuel)%nat ->
  {{ queue_at r l' ∗ nodes pv l NULL }} queue_copy_loop fuel r (first_of l NULL)
  {{ _r, ∃ l2, ⌜l2.*2 = l.*2⌝ ∧ queue_at r (l' ++ l2) ∗ nodes pv l NULL }}.
Proof.
  revert fuel pv l'. induction l as [|[a d] l IH]; intros [|fuel] pv l' Hf; cbn in Hf; try lia; cbn [queue_copy_loop first_of].
  - iIntros "[Hr Hl]". wp_steps. iExists []. rw app_nil_r. by iFrame.
  - iIntros "[Hr [Ha Hl]]". iDestruct (points_to_not_null with "Ha") as %Ha. wp_test. wp_step.
    iApply (wp_call _ _ _ _ _ (push_tail_ok r l' d)). iFrame "Hr". iIntros (_) "(%b & Hr)". wp_step.
    iApply wp_wand. iSplitL "Hr Hl"; [iApply (IH fuel a (l' ++ [(b, d)])); [lia|iFrame]|].
    iIntros (_) "(%l2 & %E & Hr & Hl)". iExists ((b, d) :: l2). rw -app_assoc. iFrame. iPureIntro. cbn. by rw E.
Qed.

Lemma queue_copy_ok q l :
  {{ queue_at q l }} g_queue_copy q {{ r, ∃ l', ⌜l'.*2 = l.*2⌝ ∧ queue_at q l ∗ queue_at r l' }}.
Proof.
  unfold g_queue_copy. iIntros "Hq". iDestruct (queue_not_null with "Hq") as %Hq. unfold with_queue. wp_test.
  iApply wp_bind. iApply wp_wand. iSplitR; [by iApply queue_new_ok|]. iIntros (r) "Hr".
  iDestruct "Hq" as "[Hq Hl]". unfold queue_cell at 1. wp_step. iCombine "Hl Hq Hr" as "H". iStopProof.
  apply bound_nodes. intros fuel Hf. iIntros "(Hl & Hq & Hr)".
  iApply (wp_call _ _ _ _ _ (queue_copy_loop_ok fuel NULL r [] l Hf)). iFrame "Hr Hl".
  iIntros (_) "(%l2 & %E & Hr & Hl)". wp_step. iExists l2. by iFrame.
Qed.

(** ** Visiting and freeing *)

Lemma queue_init_ok q o : {{ q ↦ Queue o }} g_queue_init q {{ _r, queue_at q [] }}.
Proof.
  iIntros "Hq". iDestruct (points_to_not_null with "Hq") as %Hq. unfold g_queue_init, with_queue. wp_steps.
  iAssert (dlist []) as "Hl"; [done|]. queue_end.
Qed.

Lemma queue_free_ok q l : {{ queue_at q l }} g_queue_free q {{ _r, emp }}.
Proof.
  unfold g_queue_free. queue_start. wp_step. iApply wp_bind. iApply xlist_free_ok. iFrame "Hl". by wp_steps.
Qed.

Lemma queue_clear_ok q l : {{ queue_at q l }} g_queue_clear q {{ _r, queue_at q [] }}.
Proof.
  unfold g_queue_clear. queue_start. wp_step. iApply wp_bind. iApply xlist_free_ok. iFrame "Hl".
  by iApply queue_init_ok.
Qed.

Section visit.
Context (func : Z -> prog unit) (S : list Z -> assertion).
Context (Hfunc : forall done d, {{ S done }} func d {{ _r, S (done ++ [d]) }}).

Lemma queue_foreach_ok q l : {{ queue_at q l ∗ S [] }} g_queue_foreach q func {{ _r, queue_at q l ∗ S l.*2 }}.
Proof.
  unfold g_queue_foreach. iIntros "[Hq HS]". iDestruct (queue_not_null with "Hq") as %Hq. unfold with_queue. wp_test.
  iDestruct "Hq" as "[Hq Hl]". unfold queue_cell. wp_step.
  iApply wp_wand. iSplitL "Hl HS"; [iApply (dlist_foreach_ok func S Hfunc l); iFrame|].
  iIntros (_) "[Hl HS]". iFrame.
Qed.

Lemma queue_free_full_ok q l : {{ queue_at q l ∗ S [] }} g_queue_free_full q func {{ _r, S l.*2 }}.
Proof.
  unfold g_queue_free_full. iIntros "H". iApply (wp_call _ _ _ _ _ (queue_foreach_ok q l)). iFrame "H".
  iIntros (_) "[Hq HS]". iApply wp_wand. iSplitL "Hq"; [by iApply queue_free_ok|]. by iIntros (_) "_".
Qed.

Lemma queue_clear_full_ok q l :
  {{ queue_at q l ∗ S [] }} g_queue_clear_full q (Some func) {{ _r, queue_at q [] ∗ S l.*2 }}.
Proof.
  unfold g_queue_clear_full. iIntros "[Hq HS]". iDestruct (queue_not_null with "Hq") as %Hq. unfold with_queue. wp_test.
  iApply (wp_call _ _ _ _ _ (queue_foreach_ok q l)). iFrame "Hq HS". iIntros (_) "[Hq HS]".
  iApply wp_wand. iSplitL "Hq"; [by iApply queue_clear_ok|]. iIntros (_) "Hq". iFrame.
Qed.
End visit.

Lemma queue_clear_full_none_ok q l : {{ queue_at q l }} g_queue_clear_full q None {{ _r, queue_at q [] }}.
Proof.
  unfold g_queue_clear_full. iIntros "Hq". iDestruct (queue_not_null with "Hq") as %Hq. unfold with_queue. wp_test.
  wp_norm. by iApply queue_clear_ok.
Qed.
End ops.
