(* ===== verification/DListCorrect.v ===== *)
(** * What glist.c promises

    The properties of lists, as triples: from the nodes a function is given to
    the nodes it leaves. A triple says that the function ends, touches no other
    memory, issues no warning, and neither loses nor leaks a node. *)

From iris.proofmode Require Import proofmode.
From stdpp Require Import gmap sorting.
From S2P Require Import Prelude Sort SortMerge SortCorrect Heap DList DListSpec DListOps.
Local Open Scope Z_scope.
Local Open Scope xpl_scope.

(** ** An allocator for the examples: the first address above all that are in use *)

Definition above_all (h : heap) : Z := 1 + map_fold (fun k _ n => Z.max k n) 0 h.

Lemma below_above_all h k o : h !! k = Some o -> k < above_all h.
Proof.
  revert k o. unfold above_all. apply (map_fold_weak_ind (fun n h => forall k o, h !! k = Some o -> k < 1 + n)).
  - intros k o Hk. by rw lookup_empty in Hk.
  - intros i x m n Hi IH k o Hk. destruct (decide (i = k)) as [<-|Hne]; [lia|].
    rw lookup_insert_ne // in Hk. specialize (IH k o Hk). lia.
Qed.

Lemma above_all_positive h : 0 < above_all h.
Proof.
  unfold above_all. enough (0 <= map_fold (fun k (_ : object) n => Z.max k n) 0 h) by lia.
  apply (map_fold_weak_ind (fun n _ => 0 <= n)); [done|lia].
Qed.

#[global, program] Instance bump_allocator : Allocator := {| new_address := above_all; uninitialised := -7 |}.
Next Obligation. intros h. destruct (h !! above_all h) eqn:E; [|done]. apply below_above_all in E. lia. Qed.
Next Obligation. intros h. pose proof (above_all_positive h). lia. Qed.

(** The memory of a list, for the examples. *)
Fixpoint chain (pv : Z) (l : list (Z * Z)) : heap :=
  match l with
  | [] => ∅
  | (a, d) :: l => <[a:=ListNode (XList d (first_of l NULL) pv)]> (chain a l)
  end.
Definition in_memory (l : list (Z * Z)) : memory := Memory (chain NULL l) [].

(** What a program returns and the memory it leaves. *)
Definition outcome {A} (c : prog A) (m : memory) : option (A * list (Z * object) * list string) :=
  match c m with Some (a, m') => Some (a, map_to_list (cells m'), logged m') | None => None end.

Definition three : list (Z * Z) := [(10, 3); (20, 1); (30, 2)].
Definition minus (x y : Z) : Z := x - y.

(** ** Reading *)

(** The functions that read a list leave it as it is and answer what they
    are named for: the first and last node from anywhere, the length, the node
    or data at an index in either direction, the first node with some data or
    accepted by a function, the index of a node or of data, with [NULL] or -1
    where there is none. *)
Theorem list_reads (l1 : list (Z * Z)) (a d : Z) (l2 : list (Z * Z)) (n x : Z) (func : Z -> Z -> Z) :
  let l := l1 ++ (a, d) :: l2 in
  zlen l < 2 ^ 31 ->
  let answers (c : prog Z) (v : Z) := {{ dlist l }} c {{ r, ⌜r = v⌝ ∧ dlist l }} in
  answers (xlist_first a) (first_of l NULL) /\
  answers (xlist_last (first_of l NULL)) (last_of NULL l) /\
  answers (xlist_length (first_of l NULL)) (zlen l) /\
  answers (xlist_nth (first_of l NULL) n) (first_of (drop (Z.to_nat n) l) NULL) /\
  answers (xlist_nth_data (first_of l NULL) n) (default NULL (l.*2 !! Z.to_nat n)) /\
  answers (xlist_nth_prev a n) (last_of NULL (take (length l1 + 1 - Z.to_nat n) l)) /\
  answers (xlist_find (first_of l NULL) x) (first_of (from (fun e => e =? x) l) NULL) /\
  answers (xlist_find_custom (first_of l NULL) x func) (first_of (from (fun e => func e x =? 0) l) NULL) /\
  answers (xlist_position (first_of l NULL) x) (index_from (fun e => e.1 =? x) 0 l) /\
  answers (xlist_index (first_of l NULL) x) (index_from (fun e => e.2 =? x) 0 l).
Proof.
  intros l Hl answers. pose proof (zlen_nonneg l).
  assert (l = (l1 ++ [(a, d)]) ++ l2) as El by (by unfold l; rw -app_assoc).
  split; [|split; [|split; [|split; [|split; [|split; [|split; [|split; [|split]]]]]]]].
  - assert (first_of l NULL = first_of (l1 ++ [(a, d)]) NULL) as -> by (by unfold l; rw !first_of_app).
    unfold answers, dlist. rw El. apply reading_prefix, xlist_first_ok.
  - apply xlist_last_ok.
  - rw -(wrap_small 32 (zlen l)); [|lia]. apply xlist_length_ok.
  - apply xlist_nth_ok.
  - rw -first_data_drop. apply xlist_nth_data_ok.
  - pose proof (xlist_nth_prev_ok (l1 ++ [(a, d)]) (first_of l2 NULL) n) as Hp. rw last_of_snoc length_app in Hp.
    assert (take (length l1 + 1 - Z.to_nat n) l = take (length l1 + 1 - Z.to_nat n) (l1 ++ [(a, d)])) as ->
      by (rw El take_app_le //; rw length_app /=; lia).
    unfold answers, dlist. rw El. by apply reading_prefix.
  - apply xlist_find_ok.
  - apply xlist_find_custom_ok.
  - by apply xlist_position_ok.
  - by apply xlist_index_ok.
Qed.

Lemma list_reads_witness :
  zlen three < 2 ^ 31 /\
  {{ dlist three }} xlist_index 10 2 {{ r, ⌜r = 2⌝ ∧ dlist three }} /\
  outcome (xlist_index 10 2) (in_memory three) =
    Some (2, map_to_list (chain NULL three), []).
Proof.
  split; [done|]. split; [|vm_compute; reflexivity].
  pose proof (list_reads [(10, 3)] 20 1 [(30, 2)] 0 2 minus) as H. cbv zeta in H.
  destruct (H ltac:(done)) as (_ & _ & _ & _ & _ & _ & _ & _ & _ & Hi). exact Hi.
Defined.

(** ** Adding *)

(** A new node goes where the caller asks, with the data it was given: at
    the end, before the first node or any other, at an index (a negative one, or
    one past the end, being the end), before a node or at the end if that is
    [NULL], before the first element that it is not above; a link of the caller
    goes in by itself. Joining two lists appends the second. The nodes
    that were there stay, in their order, and the address of the first one is
    returned. *)
Theorem list_insertions (l1 l2 : list (Z * Z)) (link d position : Z) (func : Z -> Z -> Z) :
  let l := l1 ++ l2 in
  let found := fun e => func d e <=? 0 in
  position < 2 ^ 31 ->
  {{ dlist l }} xlist_append (first_of l NULL) d {{ p, ∃ a, the_list (l ++ [(a, d)]) p }} /\
  {{ dlist l }} xlist_prepend (first_of l NULL) d {{ p, ∃ a, the_list ((a, d) :: l) p }} /\
  ((l2 = [] -> l1 = []) ->
   {{ dlist l }} xlist_prepend (first_of l2 NULL) d {{ p, dlist (l1 ++ (p, d) :: l2) }}) /\
  {{ dlist l }} xlist_insert (first_of l NULL) d position
    {{ p, ∃ a, the_list (take (place l position) l ++ (a, d) :: drop (place l position) l) p }} /\
  {{ dlist l }} xlist_insert_before (first_of l NULL) (first_of l2 NULL) d
    {{ p, ∃ a, the_list (l1 ++ (a, d) :: l2) p }} /\
  {{ dlist l ∗ dlist [(link, d)] }} xlist_insert_before_link (first_of l NULL) (first_of l2 NULL) link
    {{ p, the_list (l1 ++ (link, d) :: l2) p }} /\
  {{ dlist l }} xlist_insert_sorted func (first_of l NULL) d
    {{ p, ∃ a, the_list (upto found l ++ (a, d) :: from found l) p }} /\
  {{ dlist l1 ∗ dlist l2 }} xlist_concat (first_of l1 NULL) (first_of l2 NULL) {{ p, the_list l p }}.
Proof.
  intros l found Hp.
  split; [|split; [|split; [|split; [|split; [|split; [|split]]]]]].
  - by apply append_ok.
  - iIntros "Hl". iApply wp_wand. iSplitL; [by iApply (prepend_ok [] l)|].
    iIntros (p) "(%a & -> & Hl)". iExists a. by iFrame.
  - intros He. iIntros "Hl". iApply wp_wand. iSplitL; [by iApply (prepend_ok l1 l2)|].
    iIntros (p) "(%a & -> & Hl)". iFrame.
  - by apply insert_ok.
  - apply insert_before_ok.
  - apply insert_before_link_ok.
  - apply insert_sorted_ok.
  - apply concat_ok.
Qed.

Lemma list_insertions_witness :
  {{ dlist three }} xlist_insert 10 9 2 {{ p, ∃ a, the_list [(10, 3); (20, 1); (a, 9); (30, 2)] p }} /\
  outcome (xlist_insert 10 9 2) (in_memory three) =
    Some (10, map_to_list (chain NULL [(10, 3); (20, 1); (31, 9); (30, 2)]), []) /\
  outcome (xlist_insert_sorted minus 10 2) (in_memory [(10, 1); (20, 2); (30, 4)]) =
    Some (10, map_to_list (chain NULL [(10, 1); (31, 2); (20, 2); (30, 4)]), []).
Proof.
  split; [|split; vm_compute; reflexivity].
  pose proof (list_insertions [] three 0 9 2 minus) as H. cbv zeta in H.
  destruct (H ltac:(done)) as (_ & _ & _ & Hi & _). exact Hi.
Defined.

(** ** Removing *)

(** C40: Removing takes out exactly one node, or every node, with the given data,
    or the given link, and frees them; [remove_link] hands the link back, with
    nothing before and behind it. What remains keeps its order. Freeing a list
    frees all its nodes, after its elements, in order, if they are to be
    destroyed, and clearing resets the caller's variable. *)
Theorem list_removals (l1 : list (Z * Z)) (a d : Z) (l2 : list (Z * Z)) (x ptr : Z) (destroy : Z -> prog unit)
    (destroyed : list Z -> assertion) :
  (forall done e, {{ destroyed done }} destroy e {{ _r, destroyed (done ++ [e]) }}) ->
  let l := l1 ++ (a, d) :: l2 in
  {{ dlist l }} xlist_remove (first_of l NULL) x {{ p, the_list (remove_data x l) p }} /\
  {{ dlist l }} xlist_remove_all (first_of l NULL) x {{ p, the_list (without x l) p }} /\
  {{ dlist l }} xlist_remove_link (first_of l NULL) a {{ p, the_list (l1 ++ l2) p ∗ dlist [(a, d)] }} /\
  {{ dlist l }} xlist_delete_link (first_of l NULL) a {{ p, the_list (l1 ++ l2) p }} /\
  {{ dlist l }} xlist_free (first_of l NULL) {{ _r, emp }} /\
  {{ dlist l ∗ destroyed [] }} xlist_free_full (first_of l NULL) destroy {{ _r, destroyed l.*2 }} /\
  {{ ptr ↦ Word (first_of l NULL) ∗ dlist l }} g_clear_list ptr None {{ _r, ptr ↦ Word NULL }} /\
  {{ ptr ↦ Word (first_of l NULL) ∗ dlist l ∗ destroyed [] }} g_clear_list ptr (Some destroy)
    {{ _r, ptr ↦ Word NULL ∗ destroyed l.*2 }}.
Proof.
  intros Hd l. split; [|split; [|split; [|split; [|split; [|split; [|split]]]]]].
  - apply remove_ok.
  - apply dlist_remove_all_ok.
  - apply _remove_link_ok.
  - apply delete_link_ok.
  - iIntros "Hl". iApply xlist_free_ok. by iFrame.
  - by apply free_full_ok.
  - apply clear_list_none_ok.
  - by apply clear_list_ok.
Qed.

(** A callback that counts in a word of its own. *)
Definition count_at (counter : Z) (_ : Z) : prog unit := n ← load_word counter; store_word counter (n + 1).
Definition counted (counter : Z) (done : list Z) : assertion := (counter ↦ Word (zlen done))%I.

Lemma count_at_ok counter done e : {{ counted counter done }} count_at counter e {{ _r, counted counter (done ++ [e]) }}.
Proof.
  unfold counted, count_at. iIntros "Hc". wp_step. wp_steps. by rw zlen_app zlen_cons zlen_nil.
Qed.

Lemma list_removals_witness :
  {{ dlist three ∗ counted 5 [] }} xlist_free_full 10 (count_at 5) {{ _r, counted 5 [3; 1; 2] }} /\
  outcome (xlist_free_full 10 (count_at 5)) (Memory (<[5 := Word 0]> (chain NULL three)) []) =
    Some (tt, [(5, Word 3)], []) /\
  outcome (xlist_remove 10 1) (in_memory three) = Some (10, map_to_list (chain NULL [(10, 3); (30, 2)]), []).
Proof.
  split; [|split; vm_compute; reflexivity].
  pose proof (list_removals [(10, 3)] 20 1 [(30, 2)] 0 0 (count_at 5) (counted 5) (count_at_ok 5)) as H. cbv zeta in H.
  destruct H as (_ & _ & _ & _ & _ & Hi & _). exact Hi.
Defined.

(** ** Copying, reversing, visiting *)

(** A copy has nodes of its own with the same data in the same order, or with
    what the caller's function makes of each element, asked in order; the
    original stays. Reversing relinks the same nodes backwards. A visitor sees
    every element once, in order, and may meanwhile unlink or free the nodes it
    has been shown, as long as the list behind them is left to go on with. *)
Theorem list_copies (l : list (Z * Z)) (func : option (Z -> prog Z)) (made : list (Z * Z) -> assertion)
    (visit : Z -> prog unit) (visited : list (Z * Z) -> Z -> assertion) :
  (forall done d, {{ made done }} copied func d {{ d', made (done ++ [(d, d')]) }}) ->
  (forall before a d after pv, l = before ++ (a, d) :: after ->
    {{ nodes pv ((a, d) :: after) NULL ∗ visited before pv }} visit d
    {{ _r, ∃ pv', nodes pv' after NULL ∗ visited (before ++ [(a, d)]) pv' }}) ->
  {{ dlist l }} xlist_copy (first_of l NULL) {{ p, ∃ l', ⌜l'.*2 = l.*2⌝ ∧ dlist l ∗ the_list l' p }} /\
  {{ dlist l ∗ made [] }} xlist_copy_deep (first_of l NULL) func
    {{ p, ∃ l', ⌜length l' = length l⌝ ∧ dlist l ∗ the_list l' p ∗ made (zip l.*2 l'.*2) }} /\
  {{ dlist l }} xlist_reverse (first_of l NULL) {{ p, the_list (rev l) p }} /\
  {{ dlist l ∗ visited [] NULL }} xlist_foreach (first_of l NULL) visit {{ _r, ∃ pv, visited l pv }}.
Proof.
  intros Hm Hv. split; [apply list_copy_ok|]. split; [by apply copy_deep_ok|]. split; [apply reverse_ok|].
  apply bound_nodes. intros fuel Hf. by apply list_foreach_loop_ok.
Qed.

(** A visitor that removes the first element from the list in the variable [var]. *)
Definition drop_first (var : Z) (d : Z) : prog unit :=
  list ← load_word var; list ← xlist_remove list d; store_word var list.
Definition dropped (var : Z) (l before : list (Z * Z)) (pv : Z) : assertion :=
  (⌜pv = NULL⌝ ∧ var ↦ Word (first_of (drop (length before) l) NULL))%I.

Lemma drop_first_ok var l before a d after pv :
  l = before ++ (a, d) :: after ->
  {{ nodes pv ((a, d) :: after) NULL ∗ dropped var l before pv }} drop_first var d
  {{ _r, ∃ pv', nodes pv' after NULL ∗ dropped var l (before ++ [(a, d)]) pv' }}.
Proof.
  intros ->. unfold dropped. rw length_app -drop_drop drop_app_length. cbn [first_of drop length].
  iIntros "[Hl [-> Hv]]". unfold drop_first. wp_step.
  iApply (wp_call _ _ _ _ _ (remove_ok ((a, d) :: after) d)). iFrame "Hl". iIntros (p) "[-> Hl]".
  cbn [remove_data]. rw Z.eqb_refl. wp_steps. iExists NULL. by iFrame.
Qed.

Lemma list_copies_witness :
  {{ dlist three ∗ dropped 5 three [] NULL }} xlist_foreach 10 (drop_first 5) {{ _r, ∃ pv, dropped 5 three three pv }} /\
  outcome (xlist_foreach 10 (drop_first 5)) (Memory (<[5 := Word 10]> (chain NULL three)) []) =
    Some (tt, [(5, Word 0)], []) /\
  outcome (xlist_copy 10) (in_memory [(10, 3); (20, 1)]) =
    Some (21, map_to_list (chain NULL [(10, 3); (20, 1)] ∪ chain NULL [(21, 3); (22, 1)]), []) /\
  outcome (xlist_reverse 10) (in_memory three) = Some (30, map_to_list (chain NULL (rev three)), []).
Proof.
  split; [|split; [|split]; vm_compute; reflexivity].
  assert (forall (done : list (Z * Z)) d, {{ (emp : assertion) }} copied None d {{ d', emp }}) as Hc by (intros _ d; iIntros "_"; cbn [copied]; by wp_step).
  destruct (list_copies three None (fun _ => emp%I) (drop_first 5) (dropped 5 three) Hc (drop_first_ok 5 three)) as (_ & _ & _ & Hi).
  exact Hi.
Defined.

(** ** Sorting *)

(** C4: Sorting a list relinks its nodes in a stable order of their data. Whatever
    the comparison answers, the sort ends and the nodes are those that were
    there; where it is an order on the data, they end in order, and elements
    that equal any given one keep their order. It then agrees with the array
    sort of gqsort.c: on an array of the same elements, however they are
    encoded, [g_qsort_with_data] leaves the same sequence. *)
Theorem list_sort (cmp : list Z -> list Z -> Z) (encode : Z -> list Z) (s : Z) (l : list (Z * Z)) :
  let func := fun x y => cmp (encode x) (encode y) in
  let compare := fun x y : Z * Z => func x.2 y.2 in
  let array := fun l : list (Z * Z) => concat (map encode l.*2) in
  {{ dlist l }} xlist_sort func (first_of l NULL)
  {{ p, ∃ l', ⌜l' ≡ₚ l /\
       (forall D, consistent compare D -> Forall D l ->
         in_order compare l' /\ forall x, D x -> equals compare x l' = equals compare x l) /\
       (forall D junk address, consistent cmp D -> Forall (fun x => D (encode x)) l.*2 ->
         0 <= s -> (forall x, zlen (encode x) = s) -> zlen l < 2 ^ 31 ->
         g_qsort_with_data junk address cmp (array l) (zlen l) s = Some (array l'))⌝ ∧
     the_list l' p }}.
Proof.
  intros func compare array. iIntros "Hl". iApply wp_wand. iSplitL; [by iApply sort_ok|].
  iIntros (p) "(%l' & %Hs & Hl)". iExists l'. iFrame. iPureIntro. split; [|done].
  split; [apply Hs|]. split; [apply Hs|]. intros D junk address Hc HD Hs0 Henc Hlen.
  set (es := map encode l.*2). assert (Forall D es) as HDe by (by apply Forall_map).
  assert (sized s es) as Hes by (apply Forall_map, Forall_true; intros x; apply Henc).
  assert (zlen es = zlen l) as Elen by (unfold es, zlen; by rw length_map length_fmap).
  destruct (qsort_ok junk address cmp s es Hs0 Hes) as (es' & E & _ & Hes'); [by rw Elen|].
  unfold array. rw -Elen E. do 2 f_equal. apply (sorts_unique cmp D es); try done.
  pose proof (sorts_map (fun p : Z * Z => encode p.2) cmp l l' Hs) as Hm.
  assert (forall k : list (Z * Z), map encode k.*2 = map (fun p => encode p.2) k) as Em by (intros k; apply map_map).
  unfold es. by rw !Em.
Qed.

Lemma list_sort_witness :
  let compare := fun x y : Z * Z => x.2 - y.2 in
  {{ dlist three }} xlist_sort (fun x y => x - y) 10
  {{ p, ∃ l', ⌜l' ≡ₚ three /\
       (forall D, consistent compare D -> Forall D three ->
         in_order compare l' /\ forall x, D x -> equals compare x l' = equals compare x three) /\
       (forall D junk address, consistent first_byte D -> Forall (fun x => D [x]) [3; 1; 2] ->
         0 <= 1 -> (forall x : Z, zlen [x] = 1) -> 3 < 2 ^ 31 ->
         g_qsort_with_data junk address first_byte [3; 1; 2] 3 1 = Some (concat (map (fun x => [x]) l'.*2)))⌝ ∧
     the_list l' p }} /\
  outcome (xlist_sort (fun x y => x - y) 10) (in_memory three) =
    Some (20, map_to_list (chain NULL [(20, 1); (30, 2); (10, 3)]), []) /\
  g_qsort_with_data (fun _ => 0) 6 first_byte [3; 1; 2] 3 1 = Some [1; 2; 3].
Proof.
  split; [|split; vm_compute; reflexivity].
  exact (list_sort first_byte (fun x => [x]) 1 three).
Defined.
