(* ===== verification/DQueueCorrect.v ===== *)
(** * What gqueue.c promises

    A queue is a sequence: the abstract specification, the refinement, and the
    functions that hand over links. *)

From iris.proofmode Require Import proofmode.
From stdpp Require Import gmap sorting.
From S2P Require Import Prelude SortMerge Heap DList DListSpec DListOps DQueue DQueueOps.
From S2P Require Import DListCorrect.
Local Open Scope Z_scope.
Local Open Scope xpl_scope.

(** ** The abstract sequence *)

Inductive queue_request :=
| PushHead (d : Z) | PushTail (d : Z) | PushNth (d n : Z) | InsertSorted (d : Z)
| PopHead | PopTail | PopNth (n : Z)
| RemoveOne (d : Z) | RemoveAll (d : Z)
| Reverse | SortAll | Clear
| PeekHead | PeekTail | PeekNth (n : Z) | GetLength | IsEmpty | IndexOf (d : Z).

Inductive reply := Nothing | Data (d : Z) | Count (n : Z) | Truth (b : bool).

(** The arguments are those of the C types. *)
Definition queue_request_ok (r : queue_request) : Prop :=
  match r with
  | PushNth _ n => - 2 ^ 31 <= n < 2 ^ 31
  | PopNth n | PeekNth n => 0 <= n < 2 ^ 32
  | _ => True
  end.

(** The sequence without the first [d]. *)
Fixpoint remove_first (d : Z) (l : list Z) : list Z :=
  match l with
  | [] => []
  | e :: l => if decide (e = d) then l else e :: remove_first d l
  end.

Section sequence.
Context (func : Z -> Z -> Z).

(** What a request does to a sequence, and the reply. *)
Definition seq_step (r : queue_request) (l l' : list Z) (a : reply) : Prop :=
  match r with
  | PushHead d => l' = d :: l /\ a = Nothing
  | PushTail d => l' = l ++ [d] /\ a = Nothing
  | PushNth d n =>
      let k := if (n <? 0) || (zlen l <=? n) then length l else Z.to_nat n in
      l' = take k l ++ d :: drop k l /\ a = Nothing
  | InsertSorted d =>
      (exists l1 l2, l = l1 ++ l2 /\ Forall (fun e => func e d < 0) l1 /\
        (forall e, head l2 = Some e -> 0 <= func e d) /\ l' = l1 ++ d :: l2) /\ a = Nothing
  | PopHead => l' = tail l /\ a = Data (default NULL (head l))
  | PopTail => l' = take (length l - 1) l /\ a = Data (default NULL (last l))
  | PopNth n => l' = delete (Z.to_nat n) l /\ a = Data (default NULL (l !! Z.to_nat n))
  | RemoveOne d => l' = remove_first d l /\ a = Truth (bool_decide (d ∈ l))
  | RemoveAll d => l' = filter (fun e => e <> d) l /\ a = Count (zlen l - zlen l')
  | Reverse => l' = rev l /\ a = Nothing
  | SortAll => sorts func l l' /\ a = Nothing
  | Clear => l' = [] /\ a = Nothing
  | PeekHead => l' = l /\ a = Data (default NULL (head l))
  | PeekTail => l' = l /\ a = Data (default NULL (last l))
  | PeekNth n => l' = l /\ a = Data (default NULL (l !! Z.to_nat n))
  | GetLength => l' = l /\ a = Count (zlen l)
  | IsEmpty => l' = l /\ a = Truth (bool_decide (l = []))
  | IndexOf d => l' = l /\ a = Count (default (-1) (Z.of_nat ∘ fst <$> list_find (fun e => e = d) l))
  end.

Inductive seq_run : list queue_request -> list Z -> list Z -> list reply -> Prop :=
| run_done l : seq_run [] l l []
| run_step r rs l l1 l2 a answers :
    seq_step r l l1 a -> seq_run rs l1 l2 answers -> seq_run (r :: rs) l l2 (a :: answers).
End sequence.

(** ** The queue *)

Section queue.
Context `{Allocator} (func : Z -> Z -> Z).

Definition queue_serve (q : Z) (r : queue_request) : prog reply :=
  match r with
  | PushHead d => g_queue_push_head q d;; mret Nothing
  | PushTail d => g_queue_push_tail q d;; mret Nothing
  | PushNth d n => g_queue_push_nth q d n;; mret Nothing
  | InsertSorted d => g_queue_insert_sorted q d func;; mret Nothing
  | PopHead => d ← g_queue_pop_head q; mret (Data d)
  | PopTail => d ← g_queue_pop_tail q; mret (Data d)
  | PopNth n => d ← g_queue_pop_nth q n; mret (Data d)
  | RemoveOne d => b ← g_queue_remove q d; mret (Truth b)
  | RemoveAll d => n ← g_queue_remove_all q d; mret (Count n)
  | Reverse => g_queue_reverse q;; mret Nothing
  | SortAll => g_queue_sort q func;; mret Nothing
  | Clear => g_queue_clear q;; mret Nothing
  | PeekHead => d ← g_queue_peek_head q; mret (Data d)
  | PeekTail => d ← g_queue_peek_tail q; mret (Data d)
  | PeekNth n => d ← g_queue_peek_nth q n; mret (Data d)
  | GetLength => n ← g_queue_get_length q; mret (Count n)
  | IsEmpty => b ← g_queue_is_empty q; mret (Truth b)
  | IndexOf d => n ← g_queue_index q d; mret (Count n)
  end.

Fixpoint queue_serve_all (q : Z) (rs : list queue_request) : prog (list reply) :=
  match rs with
  | [] => mret []
  | r :: rs => a ← queue_serve q r; answers ← queue_serve_all q rs; mret (a :: answers)
  end.

(** A queue's whole life. *)
Definition queue_life (rs : list queue_request) : prog (list reply) :=
  q ← g_queue_new;
  answers ← queue_serve_all q rs;
  g_queue_free q;;
  mret answers.

(** ** What the operations do to the data *)

Lemma data_upto found l : (upto found l).*2 ++ (from found l).*2 = l.*2.
Proof. by rw -fmap_app upto_from. Qed.
Lemma data_upto_all found l : Forall (fun e => found e = false) (upto found l).*2.
Proof.
  induction l as [|[a d] l IH]; [constructor|]. cbn. destruct (found d) eqn:E; [constructor|]. by constructor.
Qed.
Lemma data_from_head found l e : head (from found l).*2 = Some e -> found e = true.
Proof.
  induction l as [|[a d] l IH]; [done|]. cbn. destruct (found d) eqn:E; [|done]. cbn. by intros [= <-].
Qed.
Lemma data_first l : first_data l = default NULL (head l.*2).
Proof. by destruct l as [|[a d] l]. Qed.
Lemma data_last l : last_data l = default NULL (last l.*2).
Proof. unfold last_data. by rw fmap_last. Qed.
Lemma data_remove d l : (remove_data d l).*2 = remove_first d l.*2.
Proof.
  induction l as [|[a e] l IH]; [done|]. cbn. destruct (Z.eqb_spec e d) as [->|Hd].
  - by rw decide_True.
  - rw decide_False //. cbn. by rw IH.
Qed.
Lemma data_has d l : has_data d l = bool_decide (d ∈ l.*2).
Proof.
  induction l as [|[a e] l IH]; [done|]. unfold has_data in *. cbn. rw IH. apply eq_bool_prop_intro.
  rw orb_True !bool_decide_spec Is_true_true Z.eqb_eq. set_solver.
Qed.
Lemma data_without d l : (without d l).*2 = filter (fun e => e <> d) l.*2.
Proof.
  unfold without. induction l as [|[a e] l IH]; [done|].
  rw fmap_cons !filter_cons. cbn [snd]. destruct (decide (e <> d)); [rw fmap_cons; by rw IH|done].
Qed.
Lemma tail_of_drop (k : list Z) n : tail (drop n k) = drop (S n) k.
Proof. revert k. induction n as [|n IH]; intros [|x k]; try done. apply (IH k). Qed.
Lemma data_delete n l : (delete_nth l n).*2 = delete (Z.to_nat n) l.*2.
Proof. unfold delete_nth. rw fmap_app fmap_take fmap_tail fmap_drop delete_take_drop. by rw tail_of_drop. Qed.
Lemma data_index d l i :
  index_from (fun x => x.2 =? d) i l = default (-1) ((fun k => i + Z.of_nat k.1) <$> list_find (fun e => e = d) l.*2).
Proof.
  revert i. induction l as [|[a e] l IH]; intros i; [done|]. cbn. destruct (Z.eqb_spec e d) as [->|Hd].
  - rw decide_True //=. lia.
  - rw decide_False // IH. destruct (list_find _ l.*2) as [[k x]|]; [|done]. cbn. lia.
Qed.

(** ** Every request *)

Lemma serve_pushes q l r a (c : prog unit) (f : Z -> list (Z * Z)) :
  {{ queue_at q l }} c {{ _r, ∃ p, queue_at q (f p) }} ->
  (forall p, seq_step func r l.*2 (f p).*2 a) ->
  {{ queue_at q l }} c;; mret a {{ a, ∃ l', ⌜seq_step func r l.*2 l'.*2 a⌝ ∧ queue_at q l' }}.
Proof.
  intros Hc Hs. iIntros "Hq". iApply (wp_call _ _ _ _ _ Hc). iFrame "Hq". iIntros (_) "(%p & Hq)".
  wp_step. iExists (f p). by iFrame.
Qed.

Lemma serve_answers {B} q l l' r (c : prog B) v (f : B -> reply) :
  {{ queue_at q l }} c {{ b, ⌜b = v⌝ ∧ queue_at q l' }} ->
  seq_step func r l.*2 l'.*2 (f v) ->
  {{ queue_at q l }} b ← c; mret (f b) {{ a, ∃ l', ⌜seq_step func r l.*2 l'.*2 a⌝ ∧ queue_at q l' }}.
Proof.
  intros Hc Hs. iIntros "Hq". iApply (wp_call _ _ _ _ _ Hc). iFrame "Hq". iIntros (b) "[-> Hq]".
  wp_step. iExists l'. by iFrame.
Qed.

Lemma serve_ok q l r :
  queue_request_ok r -> zlen l < 2 ^ 31 ->
  {{ queue_at q l }} queue_serve q r {{ a, ∃ l', ⌜seq_step func r l.*2 l'.*2 a⌝ ∧ queue_at q l' }}.
Proof.
  intros Hr Hl. assert (forall k : list (Z * Z), zlen k.*2 = zlen k) as Ez by (intros k; unfold zlen; by rw length_fmap).
  assert (zlen l < 2 ^ 32) as Hl' by lia. pose proof (zlen_nonneg l).
  destruct r as [d|d|d n|d| | |n|d|d| | | | | |n| | |d]; cbn [queue_serve queue_request_ok] in Hr |- *.
  - eapply serve_pushes; [apply push_head_ok|]. done.
  - eapply serve_pushes; [apply push_tail_ok|]. intros p. split; [by rw fmap_app|done].
  - eapply serve_pushes; [apply push_nth_ok; lia|]. intros p. split; [|done]. rw Ez length_fmap.
    unfold at_index, past_end. rw fmap_app fmap_cons fmap_take fmap_drop.
    destruct (Z.ltb_spec n 0); [done|]. rw (wrap_small 32 n) //. lia.
  - eapply serve_pushes; [apply queue_insert_sorted_ok|]. intros p. cbv zeta. split; [|done].
    set (found := fun e => negb (func e d <? 0)). exists (upto found l).*2, (from found l).*2.
    split; [by rw data_upto|]. split; [|split].
    + eapply Forall_impl; [apply data_upto_all|]. intros e He. unfold found in He. apply negb_false_iff, Z.ltb_lt in He. done.
    + intros e He. apply data_from_head in He. unfold found in He. apply negb_true_iff, Z.ltb_ge in He. done.
    + by rw fmap_app.
  - apply (serve_answers _ _ _ _ _ _ Data (pop_head_ok q l)). rw data_first fmap_tail. done.
  - apply (serve_answers _ _ _ _ _ _ Data (pop_tail_ok q l)). rw data_last /= fmap_take length_fmap. done.
  - apply (serve_answers _ _ _ _ _ _ Data (pop_nth_ok q l n ltac:(lia) Hl')).
    rw /nth_data first_data_drop data_delete. done.
  - apply (serve_answers _ _ _ _ _ _ Truth (queue_remove_ok q l d)). rw data_has data_remove. done.
  - apply (serve_answers _ _ _ _ _ _ Count (queue_remove_all_ok q l d Hl')). split; [apply data_without|].
    by rw !Ez.
  - iIntros "Hq". iApply (wp_call _ _ _ _ _ (queue_reverse_ok q l)). iFrame "Hq". iIntros (_) "Hq". wp_step.
    iExists (rev l). iFrame. iPureIntro. split; [|done]. split; [|done]. apply map_rev.
  - iIntros "Hq". iApply (wp_call _ _ _ _ _ (queue_sort_ok q l func)). iFrame "Hq". iIntros (_) "(%l' & %Hs & Hq)". wp_step.
    iExists l'. iFrame. iPureIntro. split; [|done]. split; [|done]. apply (sorts_map snd func l l' Hs).
  - iIntros "Hq". iApply (wp_call _ _ _ _ _ (queue_clear_ok q l)). iFrame "Hq". iIntros (_) "Hq". wp_step.
    iExists []. by iFrame.
  - apply (serve_answers _ _ _ _ _ _ Data (peek_head_ok q l)). by rw data_first.
  - apply (serve_answers _ _ _ _ _ _ Data (peek_tail_ok q l)). by rw data_last.
  - apply (serve_answers _ _ _ _ _ _ Data (peek_nth_ok q l n ltac:(lia) Hl')). by rw first_data_drop.
  - apply (serve_answers _ _ _ _ _ _ Count (queue_get_length_ok q l)). rw wrap_small; [|lia]. by rw /= Ez.
  - apply (serve_answers _ _ _ _ _ _ Truth (queue_is_empty_ok q l)). split; [done|]. by destruct l as [|[]].
  - apply (serve_answers _ _ _ _ _ _ Count (queue_index_ok q l d Hl)). split; [done|]. rw data_index.
    by destruct (list_find _ _).
Qed.

Lemma seq_step_length r l l' a : seq_step func r l l' a -> zlen l' <= zlen l + 1.
Proof.
  unfold zlen. destruct r; cbn; intros [Hs _]; try (subst; cbn; lia).
  - subst. rw length_app /=. lia.
  - subst. rw length_app /= length_take length_drop. lia.
  - destruct Hs as (l1 & l2 & -> & _ & _ & ->). rw !length_app /=. lia.
  - subst. destruct l; cbn; lia.
  - subst. rw length_take. lia.
  - subst. rw delete_take_drop length_app length_take length_drop. lia.
  - subst. clear. induction l as [|e l IH]; [done|]. cbn. case_decide; cbn; lia.
  - subst. pose proof (length_filter (fun e => e <> d) l). lia.
  - subst. rw length_rev. lia.
  - destruct Hs as [Hp _]. apply Permutation_length in Hp. lia.
Qed.

Lemma serve_all_queue_ok q l rs :
  Forall queue_request_ok rs -> zlen l + zlen rs <= 2 ^ 31 ->
  {{ queue_at q l }} queue_serve_all q rs
  {{ answers, ∃ l', ⌜seq_run func rs l.*2 l'.*2 answers⌝ ∧ queue_at q l' }}.
Proof.
  intros Hrs. revert l. induction Hrs as [|r rs Hr _ IH]; intros l Hl; cbn [queue_serve_all].
  - iIntros "Hq". wp_step. iExists l. iFrame. iPureIntro. split; [constructor|done].
  - rw zlen_cons in Hl. pose proof (zlen_nonneg rs). iIntros "Hq".
    iApply (wp_call _ _ _ _ _ (serve_ok q l r Hr ltac:(lia))). iFrame "Hq". iIntros (a) "(%l1 & %Hs & Hq)".
    apply seq_step_length in Hs as Hlen. unfold zlen in Hlen. rw !length_fmap in Hlen.
    iApply (wp_call _ _ _ _ _ (IH l1 ltac:(unfold zlen in *; lia))). iFrame "Hq". iIntros (answers) "(%l2 & %Hrun & Hq)".
    wp_step. iExists l2. iFrame. iPureIntro. split; [by eapply run_step|done].
Qed.

(** C3: A queue is a sequence. From a new queue, any sequence of pushes and pops
    at both ends and at an index, sorted insertions, removals of one or all
    equal elements, reversals, sorts, clearings, peeks, searches and counts, up
    to [2 ^ 31] of them, and then freeing the queue, ends without undefined
    behaviour and without a warning; the answers are those of the abstract
    sequence, and the memory is afterwards exactly what it was before: nothing
    else was touched, and no node leaked. *)
Theorem queue_refines_sequence rs rest log :
  Forall queue_request_ok rs -> zlen rs <= 2 ^ 31 ->
  exists answers l,
    queue_life rs (Memory rest log) = Some (answers, Memory rest log) /\
    seq_run func rs [] l answers.
Proof.
  intros Hrs Hn.
  assert ({{ emp }} queue_life rs {{ answers, ⌜exists l, seq_run func rs [] l answers⌝ ∧ emp }}) as Hlife.
  { unfold queue_life. iIntros "_". iApply wp_bind. iApply wp_wand. iSplitR; [by iApply queue_new_ok|]. iIntros (q) "Hq".
    iApply (wp_call _ _ _ _ _ (serve_all_queue_ok q [] rs Hrs ltac:(rw zlen_nil; lia))). iFrame "Hq".
    iIntros (answers) "(%l & %Hrun & Hq)". iApply (wp_call _ _ _ _ _ (queue_free_ok q l)). iFrame "Hq". iIntros (_) "_".
    wp_step. iSplit; [|done]. iPureIntro. by exists l.*2. }
  destruct (wp_sound _ _ _ Hlife ∅ rest log) as (answers & h & E & _ & [l Hrun] & Hh); [done|apply map_disjoint_empty_l|].
  change (h = ∅) in Hh. subst h. rw !map_empty_union in E. by exists answers, l.
Qed.
End queue.

Definition some_requests : list queue_request :=
  [PushTail 5; PushTail 3; PushHead 9; InsertSorted 4; PushNth 7 2; SortAll; PeekNth 1; PopHead; RemoveOne 7;
   IndexOf 5; Reverse; PopTail; GetLength].

Lemma queue_refines_sequence_witness :
  (exists answers l,
    queue_life minus some_requests (Memory {[5 := Word 1]} []) = Some (answers, Memory {[5 := Word 1]} []) /\
    seq_run minus some_requests [] l answers) /\
  queue_life minus some_requests (Memory {[5 := Word 1]} []) =
    Some ([Nothing; Nothing; Nothing; Nothing; Nothing; Nothing; Data 4; Data 3; Truth true; Count 1; Nothing; Data 4; Count 2],
          Memory {[5 := Word 1]} []).
Proof.
  split; [|vm_compute; reflexivity].
  apply (queue_refines_sequence minus some_requests); [|done]. by repeat constructor.
Defined.

(** ** Links *)

(** C39: The functions on links move nodes, not data: a link the caller owns is put
    at either end, at an index, before or after a node, and a link that is
    popped or unlinked is handed back with no neighbours, so that no node is
    allocated, freed or lost; the ends and the length of the queue follow.
    Deleting a link frees it. Links are found by index, by data and by
    a function, and their index is found. *)
Theorem queue_links `{Allocator} q l1 a d l2 link e n x func :
  let l := l1 ++ (a, d) :: l2 in
  let mine := dlist [(link, e)] in
  let finds (c : prog Z) (v : Z) := {{ queue_at q l }} c {{ r, ⌜r = v⌝ ∧ queue_at q l }} in
  zlen l < 2 ^ 31 -> - 2 ^ 31 <= n < 2 ^ 31 ->
  ({{ queue_at q l ∗ mine }} g_queue_push_head_link q link {{ _r, queue_at q ((link, e) :: l) }} /\
   {{ queue_at q l ∗ mine }} g_queue_push_tail_link q link {{ _r, queue_at q (l ++ [(link, e)]) }} /\
   {{ queue_at q l ∗ mine }} g_queue_push_nth_link q n link
     {{ _r, queue_at q (take (at_index l n) l ++ (link, e) :: drop (at_index l n) l) }} /\
   {{ queue_at q l ∗ mine }} g_queue_insert_before_link q a link {{ _r, queue_at q (l1 ++ (link, e) :: (a, d) :: l2) }} /\
   {{ queue_at q l ∗ mine }} g_queue_insert_after_link q a link {{ _r, queue_at q (l1 ++ (a, d) :: (link, e) :: l2) }}) /\
  ({{ queue_at q ((a, d) :: l2) }} g_queue_pop_head_link q {{ r, ⌜r = a⌝ ∧ queue_at q l2 ∗ dlist [(a, d)] }} /\
   {{ queue_at q (l1 ++ [(a, d)]) }} g_queue_pop_tail_link q {{ r, ⌜r = a⌝ ∧ queue_at q l1 ∗ dlist [(a, d)] }} /\
   {{ queue_at q l }} g_queue_pop_nth_link q (zlen l1) {{ r, ⌜r = a⌝ ∧ queue_at q (l1 ++ l2) ∗ dlist [(a, d)] }} /\
   {{ queue_at q [] }} g_queue_pop_head_link q {{ r, ⌜r = NULL⌝ ∧ queue_at q [] }} /\
   {{ queue_at q l }} g_queue_unlink q a {{ _r, queue_at q (l1 ++ l2) ∗ dlist [(a, d)] }} /\
   {{ queue_at q l }} g_queue_delete_link q a {{ _r, queue_at q (l1 ++ l2) }}) /\
  (finds (g_queue_peek_head_link q) (first_of l NULL) /\
   finds (g_queue_peek_tail_link q) (last_of NULL l) /\
   (0 <= n -> finds (g_queue_peek_nth_link q n) (first_of (drop (Z.to_nat n) l) NULL)) /\
   finds (g_queue_find q x) (first_of (from (fun k => k =? x) l) NULL) /\
   finds (g_queue_find_custom q x func) (first_of (from (fun k => func k x =? 0) l) NULL) /\
   finds (g_queue_link_index q x) (index_from (fun k => k.1 =? x) 0 l)).
Proof.
  intros l mine finds Hl Hn. assert (zlen l < 2 ^ 32) as Hl' by lia.
  split; [|split].
  - split; [apply push_head_link_ok|]. split; [apply push_tail_link_ok|]. split; [apply push_nth_link_ok; lia|].
    split; [apply (queue_insert_before_link_ok q l1 ((a, d) :: l2))|apply queue_insert_after_link_ok].
  - split; [apply pop_head_link_ok|]. split; [apply pop_tail_link_ok|]. split; [by apply pop_nth_link_ok|].
    split; [apply pop_empty_ok|]. split; [apply unlink_ok|apply queue_delete_link_ok].
  - split; [apply peek_head_link_ok|]. split; [apply peek_tail_link_ok|]. split; [intros H0; by apply peek_nth_link_ok|].
    split; [apply find_ok|]. split; [apply find_custom_ok|by apply link_index_ok].
Qed.

Lemma queue_links_witness :
  {{ queue_at 5 three ∗ dlist [(40, 7)] }} g_queue_push_nth_link 5 1 40
    {{ _r, queue_at 5 [(10, 3); (40, 7); (20, 1); (30, 2)] }} /\
  outcome (g_queue_push_nth_link 5 1 40)
    (Memory (<[5 := queue_cell three]> (chain NULL three ∪ chain NULL [(40, 7)])) []) =
  Some (tt, map_to_list (<[5 := queue_cell [(10, 3); (40, 7); (20, 1); (30, 2)]]>
    (chain NULL [(10, 3); (40, 7); (20, 1); (30, 2)])), []).
Proof.
  split; [|vm_compute; reflexivity].
  pose proof (queue_links 5 [(10, 3)] 20 1 [(30, 2)] 40 7 1 0 minus) as H. cbv zeta in H.
  destruct (H ltac:(done) ltac:(lia)) as [(_ & _ & Hi & _) _]. exact Hi.
Defined.

(** ** Misuse *)

(** The program only complains, and returns [v]. *)
Definition complains {A} (c : prog A) (m : memory) (text : string) (v : A) : Prop :=
  c m = Some (v, Memory (cells m) (text :: logged m)).

Lemma with_queue_ok {A} queue (val : A) rest : queue <> NULL -> with_queue queue val rest = rest.
Proof. intros H. unfold with_queue. by rw (proj2 (Z.eqb_neq _ _) H). Qed.

(** The checks of a link look at both its neighbours. *)
Lemma with_link_complains m link c name rest :
  link <> NULL -> cells m !! link = Some (ListNode c) ->
  (l_prev c <> NULL -> complains (with_link name link rest) m (name +:+ "->prev == NULL") tt) /\
  (l_prev c = NULL -> l_next c <> NULL -> complains (with_link name link rest) m (name +:+ "->next == NULL") tt).
Proof.
  intros Hl Hc.
  assert (load_node link m = Some (c, m)) as Hn by (unfold load_node, load, mbind, prog_bind; cbn; by rw Hc).
  assert (get_prev link m = Some (l_prev c, m)) as Hp by (unfold get_prev, mbind, prog_bind; by rw Hn).
  assert (get_next link m = Some (l_next c, m)) as Hx by (unfold get_next, mbind, prog_bind; by rw Hn).
  unfold complains, with_link, return_val_if_fail, mbind, prog_bind. rw (proj2 (Z.eqb_neq _ _) Hl). cbv beta iota delta [negb].
  rw Hp. cbv iota beta. split.
  - intros Hpv. by rw (proj2 (Z.eqb_neq _ _) Hpv).
  - intros -> Hnx. rw Z.eqb_refl. cbv iota beta. rw Hx. cbv iota beta. by rw (proj2 (Z.eqb_neq _ _) Hnx).
Qed.

(** A queue that is [NULL] is reported and nothing is done; so is a link to be
    added that is [NULL] or still has a neighbour. A node whose neighbours do
    not point back to it is reported too when it is unlinked, and the
    neighbours are left alone. *)
Theorem queue_misuse `{Allocator} m d n link q c func visit :
  let null {A} (f : prog A) v := complains f m "queue != NULL" v in
  (null (g_queue_init NULL) tt /\ null (g_queue_free NULL) tt /\ null (g_queue_clear NULL) tt /\
   null (g_queue_clear_full NULL (Some visit)) tt /\ null (g_queue_foreach NULL visit) tt /\
   null (g_queue_is_empty NULL) true /\ null (g_queue_get_length NULL) 0 /\
   null (g_queue_reverse NULL) tt /\ null (g_queue_copy NULL) NULL /\ null (g_queue_sort NULL func) tt /\
   null (g_queue_find NULL d) NULL /\ null (g_queue_find_custom NULL d func) NULL /\
   null (g_queue_link_index NULL link) (-1) /\ null (g_queue_index NULL d) (-1) /\
   null (g_queue_push_head NULL d) tt /\ null (g_queue_push_tail NULL d) tt /\ null (g_queue_push_nth NULL d n) tt /\
   null (g_queue_push_head_link NULL link) tt /\ null (g_queue_push_tail_link NULL link) tt /\
   null (g_queue_push_nth_link NULL n link) tt /\ null (g_queue_pop_head NULL) NULL /\
   null (g_queue_pop_tail NULL) NULL /\ null (g_queue_pop_nth NULL n) NULL /\
   null (g_queue_pop_head_link NULL) NULL /\ null (g_queue_pop_tail_link NULL) NULL /\
   null (g_queue_pop_nth_link NULL n) NULL /\ null (g_queue_peek_head NULL) NULL /\
   null (g_queue_peek_tail NULL) NULL /\ null (g_queue_peek_nth NULL n) NULL /\
   null (g_queue_peek_head_link NULL) NULL /\ null (g_queue_peek_tail_link NULL) NULL /\
   null (g_queue_peek_nth_link NULL n) NULL /\ null (g_queue_unlink NULL link) tt /\
   null (g_queue_delete_link NULL link) tt /\ null (g_queue_remove NULL d) false /\
   null (g_queue_remove_all NULL d) 0 /\ null (g_queue_insert_before NULL link d) tt /\
   null (g_queue_insert_after NULL link d) tt /\ null (g_queue_insert_sorted NULL d func) tt) /\
  (q <> NULL ->
   complains (g_queue_push_tail_link q NULL) m "link != NULL" tt /\
   complains (g_queue_unlink q NULL) m "link_ != NULL" tt /\
   (link <> NULL -> cells m !! link = Some (ListNode c) ->
    (l_prev c <> NULL ->
     complains (g_queue_push_head_link q link) m "link->prev == NULL" tt /\
     complains (g_queue_push_tail_link q link) m "link->prev == NULL" tt /\
     complains (g_queue_insert_before_link q d link) m "link_->prev == NULL" tt /\
     complains (g_queue_insert_after_link q d link) m "link_->prev == NULL" tt) /\
    (l_prev c = NULL -> l_next c <> NULL ->
     complains (g_queue_push_head_link q link) m "link->next == NULL" tt /\
     complains (g_queue_push_tail_link q link) m "link->next == NULL" tt /\
     complains (g_queue_insert_before_link q d link) m "link_->next == NULL" tt /\
     complains (g_queue_insert_after_link q d link) m "link_->next == NULL" tt))).
Proof.
  intros null. split; [split_and!; reflexivity|].
  intros Hq. unfold g_queue_push_head_link, g_queue_push_tail_link, g_queue_unlink, g_queue_insert_before_link,
    g_queue_insert_after_link. rw !(with_queue_ok _ _ _ Hq).
  split; [reflexivity|]. split; [reflexivity|]. intros Hl Hc.
  split; intros; split_and!; by apply (with_link_complains m link c).
Qed.

Lemma queue_misuse_witness :
  let m := in_memory [(10, 3); (20, 1)] in
  complains (g_queue_pop_head NULL) m "queue != NULL" NULL /\
  complains (g_queue_push_head_link 5 20) m "link->prev == NULL" tt /\
  complains (g_queue_insert_before_link 5 0 10) m "link_->next == NULL" tt.
Proof.
  intros m.
  pose proof (queue_misuse m 0 0 20 5 (XList 1 NULL 10) minus (fun _ => mret tt)) as [Hn H20]. cbv zeta in Hn.
  pose proof (queue_misuse m 0 0 10 5 (XList 3 20 NULL) minus (fun _ => mret tt)) as [_ H10].
  split; [apply Hn|]. split.
  - apply H20; done.
  - apply H10; done.
Defined.
