(* ===== verification/Threads.v ===== *)
(** * Threads that share the memory, a mutex and a condition variable

    The code of a thread is an interaction tree. Its events are programs of
    [Heap], each one indivisible, the operations on the mutex and the condition
    variable, and the clocks. The machine interleaves threads step by step:
    a signal wakes at least one of the threads that wait, a thread may also wake
    up for no reason or because its time is up, and a thread that wakes up needs
    the mutex to go on. The mutex and the variable stand in the memory; using
    one that is not initialised, or not there any more, is undefined. *)

From iris.proofmode Require Import proofmode.
From ITree Require Import ITree ITreeFacts.
From S2P Require Import Prelude.
From S2P Require Import Heap.
Local Open Scope Z_scope.

Variant threadE : Type -> Type :=
| Run {A} (c : prog A) : threadE A
| Lock : threadE unit
| Unlock : threadE unit
| Signal : threadE unit
| Wait (end_time : option Z) : threadE bool
| ClearMutex : threadE unit
| ClearCond : threadE unit
| MonotonicTime : threadE Z
| RealTime : threadE Z.

Abbreviation code := (itree threadE).

#[export] Instance code_ret : MRet code := fun A a => Ret a.
#[export] Instance code_bind : MBind code := fun A B k t => ITree.bind t k.

Definition run {A} (c : prog A) : code A := ITree.trigger (Run c).
Definition g_mutex_lock : code unit := ITree.trigger Lock.
Definition g_mutex_unlock : code unit := ITree.trigger Unlock.
Definition g_cond_signal : code unit := ITree.trigger Signal.
(** [TRUE] if the variable was signalled, [FALSE] if the time is up. *)
Definition g_cond_wait : code unit := _ ← ITree.trigger (Wait None); mret tt.
Definition g_cond_wait_until (end_time : Z) : code bool := ITree.trigger (Wait (Some end_time)).
Definition g_mutex_clear : code unit := ITree.trigger ClearMutex.
Definition g_cond_clear : code unit := ITree.trigger ClearCond.
Definition g_mutex_init (mutex : Z) : prog unit := store mutex (Mutex true).
Definition g_cond_init (cond : Z) : prog unit := store cond (Cond true).
Definition g_get_monotonic_time : code Z := ITree.trigger MonotonicTime.
Definition g_get_real_time : code Z := ITree.trigger RealTime.

(** Code in the normal form of binds. *)
Section code_facts.
Context {A B C : Type}.
Lemma code_bind_bind (t : code A) (k : A -> code B) (k' : B -> code C) :
  (t ≫= k) ≫= k' ≅ t ≫= (fun a => k a ≫= k').
Proof. apply bind_bind. Qed.
Lemma code_ret_bind (a : A) (k : A -> code B) : mret a ≫= k ≅ k a.
Proof. apply bind_ret_l. Qed.
Lemma code_trigger_bind (e : threadE A) (k : A -> code B) : ITree.trigger e ≫= k ≅ Vis e k.
Proof. apply bind_trigger. Qed.
Lemma code_bind_ret (t : code A) : t ≅ t ≫= (fun a => mret a).
Proof. symmetry. apply bind_ret_r. Qed.
Lemma code_tau_bind (t : code A) (k : A -> code B) : ITree.bind (Tau t) k ≅ Tau (t ≫= k).
Proof. apply bind_tau. Qed.
End code_facts.

#[export] Instance code_bind_proper {A B} :
  Proper (pointwise_relation A (eq_itree eq) ==> eq_itree eq ==> eq_itree eq) (@mbind code _ A B).
Proof. intros k k' Hk t t' Ht. apply eqit_bind; done. Qed.

(** ** The clocks *)

(** Bounds of what the clocks show while the threads run. *)
Class Clocks := {
  clock_from : Z;
  wall_from : Z;
  wall_to : Z;
  clock_positive : 0 < clock_from
}.
(** The monotonic clock counts microseconds and does not reach [2 ^ 62]. *)
Definition clock_ok `{Clocks} (now : Z) : Prop := clock_from <= now < 2 ^ 62.
Definition wall_ok `{Clocks} (wall : Z) : Prop := wall_from <= wall <= wall_to.

(** ** The machine *)

Definition live_mutex (p : Z) (m : memory) : bool := match cells m !! p with Some (Mutex live) => live | _ => false end.
Definition live_cond (p : Z) (m : memory) : bool := match cells m !! p with Some (Cond live) => live | _ => false end.

Section machine.
Context `{Hclocks : Clocks}.
(** Where the mutex and the condition variable are. *)
Context (mutex_at cond_at : Z).
(** What a thread is asked to do, and what it answers. *)
Context {C A : Type} (code_of : C -> code (list A)).

Inductive status :=
| Idle
| Running (t : code (list A))
| Sleeping (end_time : option Z) (k : bool -> code (list A))
| Woken (k : bool -> code (list A)) (signalled : bool).

Record thread := Thread { calls : list C; answers : list A; status_of : status }.

Record machine := Machine {
  mem : memory;
  monotonic : Z;
  real : Z;
  mutex : option nat;
  threads : list thread
}.

(** What happens next: the turn of a thread, with the sleepers that a signal
    wakes up; a sleeper wakes up by itself; its time is up; the clocks move. *)
Inductive event :=
| Turn (i : nat) (woken : list nat)
| Spurious (i : nat)
| Expired (i : nat)
| Tick (now wall : Z).

Definition with_status (i : nat) (s : status) (c : machine) : machine :=
  Machine (mem c) (monotonic c) (real c) (mutex c)
    (alter (fun th => Thread (calls th) (answers th) s) i (threads c)).
Definition with_mem (m : memory) (c : machine) : machine :=
  Machine m (monotonic c) (real c) (mutex c) (threads c).
Definition with_mutex (o : option nat) (c : machine) : machine :=
  Machine (mem c) (monotonic c) (real c) o (threads c).

(** A sleeper stops waiting for the condition variable. *)
Definition wake (signalled : bool) (i : nat) (c : machine) : option machine :=
  th ← threads c !! i;
  match status_of th with
  | Sleeping _ k => Some (with_status i (Woken k signalled) c)
  | _ => None
  end.
Fixpoint wake_all (woken : list nat) (c : machine) : option machine :=
  match woken with [] => Some c | i :: woken => c ← wake true i c; wake_all woken c end.
Definition is_sleeping (th : thread) : bool := match status_of th with Sleeping _ _ => true | _ => false end.
Definition is_woken (th : thread) : bool := match status_of th with Woken _ _ => true | _ => false end.

(** The event a thread performs, and what follows it. *)
Definition perform {B} (i : nat) (woken : list nat) (e : threadE B) (k : B -> code (list A)) (c : machine) :
    option machine :=
  match e in threadE B return (B -> code (list A)) -> option machine with
  | Run p => fun k => '(a, m) ← p (mem c); Some (with_status i (Running (k a)) (with_mem m c))
  | Lock => fun k =>
      if live_mutex mutex_at (mem c) then
        match mutex c with
        | None => Some (with_status i (Running (k tt)) (with_mutex (Some i) c))
        | Some _ => None
        end
      else None
  | Unlock => fun k =>
      if live_mutex mutex_at (mem c) && bool_decide (mutex c = Some i)
      then Some (with_status i (Running (k tt)) (with_mutex None c)) else None
  | Signal => fun k =>
      if negb (live_cond cond_at (mem c)) || existsb is_sleeping (threads c) && bool_decide (woken = []) then None
      else wake_all woken (with_status i (Running (k tt)) c)
  | Wait end_time => fun k =>
      if live_mutex mutex_at (mem c) && live_cond cond_at (mem c) && bool_decide (mutex c = Some i)
      then Some (with_status i (Sleeping end_time k) (with_mutex None c)) else None
  | ClearMutex => fun k =>
      if live_mutex mutex_at (mem c) && bool_decide (mutex c = None) then
        '(_, m) ← store mutex_at (Mutex false) (mem c); Some (with_status i (Running (k tt)) (with_mem m c))
      else None
  | ClearCond => fun k =>
      if live_cond cond_at (mem c) && negb (existsb is_sleeping (threads c)) then
        '(_, m) ← store cond_at (Cond false) (mem c); Some (with_status i (Running (k tt)) (with_mem m c))
      else None
  | MonotonicTime => fun k => Some (with_status i (Running (k (monotonic c))) c)
  | RealTime => fun k => Some (with_status i (Running (k (real c))) c)
  end k.

Definition turn (i : nat) (woken : list nat) (c : machine) : option machine :=
  th ← threads c !! i;
  match status_of th with
  | Idle =>
      match calls th with
      | [] => None
      | r :: _ => Some (with_status i (Running (code_of r)) c)
      end
  | Running t =>
      match observe t with
      | RetF a =>
          Some (Machine (mem c) (monotonic c) (real c) (mutex c)
            (<[i := Thread (tail (calls th)) (answers th ++ a) Idle]> (threads c)))
      | TauF t => Some (with_status i (Running t) c)
      | VisF e k => perform i woken e k c
      end
  | Sleeping _ _ => None
  | Woken k signalled =>
      if live_mutex mutex_at (mem c) then
        match mutex c with
        | None => Some (with_status i (Running (k signalled)) (with_mutex (Some i) c))
        | Some _ => None
        end
      else None
  end.

Definition expire (i : nat) (c : machine) : option machine :=
  th ← threads c !! i;
  match status_of th with
  | Sleeping (Some end_time) _ => if end_time <=? monotonic c then wake false i c else None
  | _ => None
  end.

Definition step (e : event) (c : machine) : option machine :=
  match e with
  | Turn i woken => turn i woken c
  | Spurious i => wake true i c
  | Expired i => expire i c
  | Tick now wall =>
      if bool_decide (monotonic c <= now < 2 ^ 62 /\ wall_ok wall) then Some (Machine (mem c) now wall (mutex c) (threads c))
      else None
  end.

Fixpoint steps (es : list event) (c : machine) : option machine :=
  match es with [] => Some c | e :: es => c ← step e c; steps es c end.

Definition start (m : memory) (now wall : Z) (programs : list (list C)) : machine :=
  Machine m now wall None (map (fun p => Thread p [] Idle) programs).

(** What the thread does next has no defined behaviour: its program of the memory
    has none; it uses a mutex or a condition variable that is not initialised or
    is gone; it gives up a mutex that it does not hold; it clears a mutex that is
    locked or a variable that somebody waits for. *)
Definition undefined_next (c : machine) (i : nat) : bool :=
  match threads c !! i with
  | Some (Thread _ _ (Running t)) =>
      match observe t with
      | VisF e _ =>
          match e with
          | Run p => match p (mem c) with None => true | _ => false end
          | Lock => negb (live_mutex mutex_at (mem c))
          | Unlock => negb (live_mutex mutex_at (mem c) && bool_decide (mutex c = Some i))
          | Signal => negb (live_cond cond_at (mem c))
          | Wait _ => negb (live_mutex mutex_at (mem c) && live_cond cond_at (mem c) && bool_decide (mutex c = Some i))
          | ClearMutex => negb (live_mutex mutex_at (mem c) && bool_decide (mutex c = None))
          | ClearCond => negb (live_cond cond_at (mem c) && negb (existsb is_sleeping (threads c)))
          | MonotonicTime | RealTime => false
          end
      | _ => false
      end
  | Some (Thread _ _ (Woken _ _)) => negb (live_mutex mutex_at (mem c))
  | _ => false
  end.
End machine.
Arguments thread : clear implicits.
Arguments status : clear implicits.
Arguments machine : clear implicits.
