(* ===== verification/AsyncQueue.v ===== *)
(** * Queues between threads: src/glib/gasyncqueue.c

    The functions are code of threads ([Threads]); the queue in the structure is
    one of [DQueue]. The mutex and the condition variable of the machine are those
    at [mutex_of] and [cond_of] the structure. *)

From iris.proofmode Require Import proofmode.
From ITree Require Import ITree.
From S2P Require Import Prelude.
From S2P Require Import Heap.
From S2P Require Import DList.
From S2P Require Import DQueue.
From S2P Require Import Threads.
Local Open Scope Z_scope.

(** ** The structure *)

(** The members that are objects of their own stand next to the structure. *)
Definition queue_of (queue : Z) : Z := queue + 1.
Definition ref_count_of (queue : Z) : Z := queue + 2.
Definition mutex_of (queue : Z) : Z := queue + 3.
Definition cond_of (queue : Z) : Z := queue + 4.

(** The allocator of whole structures. *)
Class BlockAllocator := {
  new_block : heap -> Z;
  new_block_free : forall h p, new_block h <= p < new_block h + 5 -> h !! p = None;
  new_block_positive : forall h, 0 < new_block h
}.

Definition load_async (p : Z) : prog xasync_queue_t :=
  o ← load p; match o with AsyncQueue q => mret q | _ => undefined end.
Definition get_free_func (p : Z) : prog Z := q ← load_async p; mret (aq_item_free_func q).
Definition set_free_func (p x : Z) : prog unit :=
  q ← load_async p; store p (AsyncQueue (XAsyncQueue x (aq_waitinxthreads q))).
Definition get_waiting (p : Z) : prog Z := q ← load_async p; mret (aq_waitinxthreads q).
Definition set_waiting (p x : Z) : prog unit :=
  q ← load_async p; store p (AsyncQueue (XAsyncQueue (aq_item_free_func q) x)).

(** [queue->waitinxthreads++] and [queue->waitinxthreads--]. *)
Definition one_more_waits (queue : Z) : prog unit := n ← get_waiting queue; set_waiting queue (wrap 32 (n + 1)).
Definition one_less_waits (queue : Z) : prog unit := n ← get_waiting queue; set_waiting queue (wrap 32 (n - 1)).

(** The atomic operations on a counter. *)
Definition g_atomic_int_inc (atomic : Z) : prog unit := n ← load_word atomic; store_word atomic (i32 (n + 1)).
Definition g_atomic_int_dec_and_test (atomic : Z) : prog bool :=
  n ← load_word atomic; store_word atomic (i32 (n - 1));; mret (i32 (n - 1) =? 0).

(** [g_return_if_fail] and [g_return_val_if_fail]. *)
Definition check {A} (expr : bool) (text : string) (val : A) (rest : code A) : code A :=
  if expr then rest else run (g_warning text);; mret val.

Section gasyncqueue.
Context `{Allocator} `{BlockAllocator}.
(** The function of the caller at an address. *)
Context (call_destroy : Z -> Z -> prog unit).

(** ** Life *)

Definition g_async_queue_new_full (item_free_func : Z) : prog Z := fun m =>
  let queue := new_block (cells m) in
  let fresh := <[queue := AsyncQueue (XAsyncQueue uninitialised uninitialised)]>
    (<[queue_of queue := Queue (XQueue uninitialised uninitialised uninitialised)]>
    (<[ref_count_of queue := Word uninitialised]>
    (<[mutex_of queue := Mutex false]>
    (<[cond_of queue := Cond false]> (cells m))))) in
  (g_mutex_init (mutex_of queue);;
   g_cond_init (cond_of queue);;
   g_queue_init (queue_of queue);;
   set_waiting queue 0;;
   store_word (ref_count_of queue) 1;;
   set_free_func queue item_free_func;;
   mret queue) (Memory fresh (logged m)).
Definition g_async_queue_new : prog Z := g_async_queue_new_full NULL.

Definition g_async_queue_ref (queue : Z) : code Z :=
  check (negb (queue =? NULL)) "queue" NULL (
  run (g_atomic_int_inc (ref_count_of queue));;
  mret queue).
Definition g_async_queue_ref_unlocked (queue : Z) : code unit :=
  check (negb (queue =? NULL)) "queue" tt (
  run (g_atomic_int_inc (ref_count_of queue))).

(** [g_free (queue)]: the structure and its members. *)
Definition g_free (queue : Z) : prog unit :=
  free (queue_of queue);; free (ref_count_of queue);; free (mutex_of queue);; free (cond_of queue);; free queue.

Definition g_async_queue_unref (queue : Z) : code unit :=
  check (negb (queue =? NULL)) "queue" tt (
  last ← run (g_atomic_int_dec_and_test (ref_count_of queue));
  if last : bool then
    waiting ← run (get_waiting queue);
    check (waiting =? 0) "queue->waitinxthreads == 0" tt (
    g_mutex_clear;;
    g_cond_clear;;
    item_free_func ← run (get_free_func queue);
    (if negb (item_free_func =? NULL)
     then run (g_queue_foreach (queue_of queue) (call_destroy item_free_func)) else mret tt);;
    run (g_queue_clear (queue_of queue));;
    run (g_free queue))
  else mret tt).
Definition g_async_queue_unref_and_unlock (queue : Z) : code unit :=
  check (negb (queue =? NULL)) "queue" tt (
  g_mutex_unlock;;
  g_async_queue_unref queue).

Definition g_async_queue_lock (queue : Z) : code unit := check (negb (queue =? NULL)) "queue" tt g_mutex_lock.
Definition g_async_queue_unlock (queue : Z) : code unit := check (negb (queue =? NULL)) "queue" tt g_mutex_unlock.

(** ** Pushing *)

(** [if (queue->waitinxthreads > 0) g_cond_signal (&queue->cond);] *)
Definition signal_waiting (queue : Z) : code unit :=
  waiting ← run (get_waiting queue);
  if 0 <? waiting then g_cond_signal else mret tt.

Definition g_async_queue_push_unlocked (queue data : Z) : code unit :=
  check (negb (queue =? NULL)) "queue" tt (
  check (negb (data =? NULL)) "data" tt (
  run (g_queue_push_head (queue_of queue) data);;
  signal_waiting queue)).
Definition g_async_queue_push (queue data : Z) : code unit :=
  check (negb (queue =? NULL)) "queue" tt (
  check (negb (data =? NULL)) "data" tt (
  g_mutex_lock;;
  g_async_queue_push_unlocked queue data;;
  g_mutex_unlock)).

Definition g_async_queue_push_front_unlocked (queue item : Z) : code unit :=
  check (negb (queue =? NULL)) "queue != NULL" tt (
  check (negb (item =? NULL)) "item != NULL" tt (
  run (g_queue_push_tail (queue_of queue) item);;
  signal_waiting queue)).
Definition g_async_queue_push_front (queue item : Z) : code unit :=
  check (negb (queue =? NULL)) "queue != NULL" tt (
  check (negb (item =? NULL)) "item != NULL" tt (
  g_mutex_lock;;
  g_async_queue_push_front_unlocked queue item;;
  g_mutex_unlock)).

Definition g_async_queue_invert_compare (func : Z -> Z -> Z) (v1 v2 : Z) : Z := i32 (- func v1 v2).

Definition g_async_queue_push_sorted_unlocked (queue data : Z) (func : Z -> Z -> Z) : code unit :=
  check (negb (queue =? NULL)) "queue != NULL" tt (
  run (g_queue_insert_sorted (queue_of queue) data (g_async_queue_invert_compare func));;
  signal_waiting queue).
Definition g_async_queue_push_sorted (queue data : Z) (func : Z -> Z -> Z) : code unit :=
  check (negb (queue =? NULL)) "queue != NULL" tt (
  g_mutex_lock;;
  g_async_queue_push_sorted_unlocked queue data func;;
  g_mutex_unlock).

(** ** Popping *)

(** [while (!g_queue_peek_tail_link (&queue->queue))] *)
Definition pop_wait_loop (queue end_time : Z) : code unit :=
  ITree.iter (fun _ : unit =>
    link ← run (g_queue_peek_tail_link (queue_of queue));
    if link =? NULL then
      if end_time =? -1 then g_cond_wait;; mret (inl tt)
      else
        signalled ← g_cond_wait_until end_time;
        if signalled : bool then mret (inl tt) else mret (inr tt)
    else mret (inr tt)) tt.

Definition g_async_queue_pop_intern_unlocked (queue : Z) (wait : bool) (end_time : Z) : code Z :=
  link ← run (g_queue_peek_tail_link (queue_of queue));
  (if (link =? NULL) && wait then
     run (one_more_waits queue);;
     pop_wait_loop queue end_time;;
     run (one_less_waits queue)
   else mret tt);;
  retval ← run (g_queue_pop_tail (queue_of queue));
  run (xassert (negb (retval =? NULL) || negb wait || (0 <? end_time)));;
  mret retval.

Definition g_async_queue_pop_unlocked (queue : Z) : code Z :=
  check (negb (queue =? NULL)) "queue" NULL (g_async_queue_pop_intern_unlocked queue true (-1)).
Definition g_async_queue_pop (queue : Z) : code Z :=
  check (negb (queue =? NULL)) "queue" NULL (
  g_mutex_lock;;
  retval ← g_async_queue_pop_intern_unlocked queue true (-1);
  g_mutex_unlock;;
  mret retval).

Definition g_async_queue_try_pop_unlocked (queue : Z) : code Z :=
  check (negb (queue =? NULL)) "queue" NULL (g_async_queue_pop_intern_unlocked queue false (-1)).
Definition g_async_queue_try_pop (queue : Z) : code Z :=
  check (negb (queue =? NULL)) "queue" NULL (
  g_mutex_lock;;
  retval ← g_async_queue_pop_intern_unlocked queue false (-1);
  g_mutex_unlock;;
  mret retval).

Definition g_async_queue_timeout_pop_unlocked (queue timeout : Z) : code Z :=
  now ← g_get_monotonic_time;
  let end_time := i64 (now + timeout) in
  check (negb (queue =? NULL)) "queue != NULL" NULL (g_async_queue_pop_intern_unlocked queue true end_time).
Definition g_async_queue_timeout_pop (queue timeout : Z) : code Z :=
  now ← g_get_monotonic_time;
  let end_time := i64 (now + timeout) in
  check (negb (queue =? NULL)) "queue != NULL" NULL (
  g_mutex_lock;;
  retval ← g_async_queue_pop_intern_unlocked queue true end_time;
  g_mutex_unlock;;
  mret retval).

Record GTimeVal := TimeVal { tv_sec : Z; tv_usec : Z }.
(** Signed arithmetic on 64 bits. *)
Definition sint64_t (x : Z) : prog Z := if (- 2 ^ 63 <=? x) && (x <? 2 ^ 63) then mret x else undefined.
(** The end time on the monotonic clock. *)
Definition monotonic_end_time (end_time : option GTimeVal) : code Z :=
  match end_time with
  | Some tv =>
      now ← g_get_monotonic_time;
      wall ← g_get_real_time;
      sec ← run (sint64_t (tv_sec tv * 1000000));
      usec ← run (sint64_t (sec + tv_usec tv));
      span ← run (sint64_t (usec - wall));
      run (sint64_t (now + span))
  | None => mret (-1)
  end.
Definition g_async_queue_timed_pop_unlocked (queue : Z) (end_time : option GTimeVal) : code Z :=
  check (negb (queue =? NULL)) "queue" NULL (
  m_end_time ← monotonic_end_time end_time;
  g_async_queue_pop_intern_unlocked queue true m_end_time).
Definition g_async_queue_timed_pop (queue : Z) (end_time : option GTimeVal) : code Z :=
  check (negb (queue =? NULL)) "queue" NULL (
  m_end_time ← monotonic_end_time end_time;
  g_mutex_lock;;
  retval ← g_async_queue_pop_intern_unlocked queue true m_end_time;
  g_mutex_unlock;;
  mret retval).

(** ** The rest *)

Definition g_async_queue_length_unlocked (queue : Z) : code Z :=
  check (negb (queue =? NULL)) "queue" 0 (
  length ← run (get_length (queue_of queue));
  waiting ← run (get_waiting queue);
  mret (i32 (length - waiting))).
Definition g_async_queue_length (queue : Z) : code Z :=
  check (negb (queue =? NULL)) "queue" 0 (
  g_mutex_lock;;
  length ← run (get_length (queue_of queue));
  waiting ← run (get_waiting queue);
  let retval := i32 (length - waiting) in
  g_mutex_unlock;;
  mret retval).

Definition g_async_queue_sort_unlocked (queue : Z) (func : Z -> Z -> Z) : code unit :=
  check (negb (queue =? NULL)) "queue != NULL" tt (
  run (g_queue_sort (queue_of queue) (g_async_queue_invert_compare func))).
Definition g_async_queue_sort (queue : Z) (func : Z -> Z -> Z) : code unit :=
  check (negb (queue =? NULL)) "queue != NULL" tt (
  g_mutex_lock;;
  g_async_queue_sort_unlocked queue func;;
  g_mutex_unlock).

Definition g_async_queue_remove_unlocked (queue item : Z) : code bool :=
  check (negb (queue =? NULL)) "queue != NULL" false (
  check (negb (item =? NULL)) "item != NULL" false (
  run (g_queue_remove (queue_of queue) item))).
Definition g_async_queue_remove (queue item : Z) : code bool :=
  check (negb (queue =? NULL)) "queue != NULL" false (
  check (negb (item =? NULL)) "item != NULL" false (
  g_mutex_lock;;
  ret ← g_async_queue_remove_unlocked queue item;
  g_mutex_unlock;;
  mret ret)).
End gasyncqueue.
