(* ===== verification/AsyncQueueSpec.v ===== *)
(** * Queues between threads: what the code of a thread owes the others

    A thread may do any sequence of calls. [outside] is code that does not hold
    the mutex, [critical] code that holds it and owns the queue, [parked] the
    rest of a wait; between them they say what holds whenever the mutex changes
    hands. The first argument bounds the number of turns the code takes, the
    turns of the threads it wakes up included, if nobody wakes up by himself. *)

From iris.proofmode Require Import proofmode.
From ITree Require Import ITree ITreeFacts.
From S2P Require Import Prelude.
From S2P Require Import Heap.
From S2P Require Import DList.
From S2P Require Import DQueue.
From S2P Require Import SortMerge.
From S2P Require Import DListSpec.
From S2P Require Import DQueueOps.
From S2P Require Import Threads.
From S2P Require Import AsyncQueue.
Local Open Scope Z_scope.
Local Open Scope xpl_scope.

(** ** Calls *)

Inductive op :=
| Push (data : Z)
| PushFront (data : Z)
| PushSorted (data : Z)
| Pop
| TryPop
| TimeoutPop (timeout : Z)
| TimedPop (end_time : option GTimeVal)
| Remove (data : Z)
| SortAll
| Length.

Definition is_pop (o : op) : bool := match o with Pop | TryPop | TimeoutPop _ | TimedPop _ => true | _ => false end.
(** A pop that may find nothing. *)
Definition may_fail (o : op) : bool := match o with TryPop | TimeoutPop _ | TimedPop (Some _) => true | _ => false end.

Inductive reply := Nothing | Data (v : Z) | Truth (b : bool) | Count (n : Z).

(** A call of a function, or several calls of the unlocked functions between
    [g_async_queue_lock] and the end: [g_async_queue_unlock], or
    [g_async_queue_unref_and_unlock]. *)
Inductive call :=
| Call (o : op)
| Session (os : list op) (unref : bool)
| Ref
| Unref.

Section spec.
Context `{Allocator} `{BlockAllocator} `{Hclocks : Clocks}.
Context (call_destroy : Z -> Z -> prog unit) (func : Z -> Z -> Z) (q : Z).

Definition serve (o : op) : code reply :=
  match o with
  | Push d => g_async_queue_push q d;; mret Nothing
  | PushFront d => g_async_queue_push_front q d;; mret Nothing
  | PushSorted d => g_async_queue_push_sorted q d func;; mret Nothing
  | Pop => v ← g_async_queue_pop q; mret (Data v)
  | TryPop => v ← g_async_queue_try_pop q; mret (Data v)
  | TimeoutPop timeout => v ← g_async_queue_timeout_pop q timeout; mret (Data v)
  | TimedPop end_time => v ← g_async_queue_timed_pop q end_time; mret (Data v)
  | Remove d => b ← g_async_queue_remove q d; mret (Truth b)
  | SortAll => g_async_queue_sort q func;; mret Nothing
  | Length => n ← g_async_queue_length q; mret (Count n)
  end.
Definition serve_unlocked (o : op) : code reply :=
  match o with
  | Push d => g_async_queue_push_unlocked q d;; mret Nothing
  | PushFront d => g_async_queue_push_front_unlocked q d;; mret Nothing
  | PushSorted d => g_async_queue_push_sorted_unlocked q d func;; mret Nothing
  | Pop => v ← g_async_queue_pop_unlocked q; mret (Data v)
  | TryPop => v ← g_async_queue_try_pop_unlocked q; mret (Data v)
  | TimeoutPop timeout => v ← g_async_queue_timeout_pop_unlocked q timeout; mret (Data v)
  | TimedPop end_time => v ← g_async_queue_timed_pop_unlocked q end_time; mret (Data v)
  | Remove d => b ← g_async_queue_remove_unlocked q d; mret (Truth b)
  | SortAll => g_async_queue_sort_unlocked q func;; mret Nothing
  | Length => n ← g_async_queue_length_unlocked q; mret (Count n)
  end.
Fixpoint serve_all_unlocked (os : list op) : code (list reply) :=
  match os with
  | [] => mret []
  | o :: os => a ← serve_unlocked o; rest ← serve_all_unlocked os; mret (a :: rest)
  end.

Definition serve_call (c : call) : code (list reply) :=
  match c with
  | Call o => a ← serve o; mret [a]
  | Session os unref =>
      g_async_queue_lock q;;
      answers ← serve_all_unlocked os;
      (if unref then g_async_queue_unref_and_unlock call_destroy q else g_async_queue_unlock q);;
      mret answers
  | Ref => g_async_queue_ref q;; mret []
  | Unref => g_async_queue_unref call_destroy q;; mret []
  end.

Definition ops_of (c : call) : list op :=
  match c with Call o => [o] | Session os _ => os | Ref | Unref => [] end.

(** An end time on the wall clock: in microseconds it fits 64 bits, and on the
    monotonic clock, which is as old as the system, it lies after the start,
    whatever the clocks show. It may be past. *)
Definition end_time_fits (tv : GTimeVal) : Prop :=
  let e := tv_sec tv * 1000000 + tv_usec tv in
  - 2 ^ 63 <= tv_sec tv * 1000000 < 2 ^ 63 /\ - 2 ^ 63 <= e < 2 ^ 63 /\
  wall_to - clock_from < e < wall_from + 2 ^ 62.

(** Data is not [NULL], timeouts are below [2 ^ 62] microseconds. *)
Definition op_ok (o : op) : Prop :=
  match o with
  | Push d | PushFront d | PushSorted d | Remove d => d <> NULL
  | TimeoutPop timeout => 0 <= timeout < 2 ^ 62
  | TimedPop (Some tv) => end_time_fits tv
  | _ => True
  end.

(** ** The abstract sequence *)

(** One operation on the elements in the order in which they are to leave. *)
Inductive fifo_step (n_threads : nat) : op -> reply -> list Z -> list Z -> Prop :=
| fifo_push d r : fifo_step n_threads (Push d) Nothing r (r ++ [d])
| fifo_push_front d r : fifo_step n_threads (PushFront d) Nothing r (d :: r)
| fifo_push_sorted d r1 r2 :
    (forall e, last r1 = Some e -> func e d <= 0) -> Forall (fun e => 0 < func e d) r2 ->
    fifo_step n_threads (PushSorted d) Nothing (r1 ++ r2) (r1 ++ d :: r2)
| fifo_pop o d r : is_pop o = true -> fifo_step n_threads o (Data d) (d :: r) r
| fifo_pop_empty o : may_fail o = true -> fifo_step n_threads o (Data NULL) [] []
| fifo_remove d r1 r2 : d ∉ r2 -> fifo_step n_threads (Remove d) (Truth true) (r1 ++ d :: r2) (r1 ++ r2)
| fifo_remove_none d r : d ∉ r -> fifo_step n_threads (Remove d) (Truth false) r r
| fifo_sort r r' : sorts func r r' -> fifo_step n_threads SortAll Nothing r r'
| fifo_length r waiting :
    (waiting < n_threads)%nat -> fifo_step n_threads Length (Count (zlen r - Z.of_nat waiting)) r r.

(** ** The queue in memory *)

Context (free_func : Z) (n_threads : nat).

(** What the mutex protects: the structure, with the number of threads that
    wait, and the queue. *)
Definition protected (r : list Z) (waiting : nat) : assertion :=
  (q ↦ AsyncQueue (XAsyncQueue free_func (Z.of_nat waiting)) ∗
   ∃ l, ⌜l.*2 = rev r⌝ ∧ queue_at (queue_of q) l)%I.

(** The other members: any thread with a reference may use them. *)
Definition members (n : Z) : assertion :=
  (ref_count_of q ↦ Word n ∗ mutex_of q ↦ Mutex true ∗ cond_of q ↦ Cond true)%I.

(** The elements and the threads in the wait, asleep or on the way out. *)
Record view := View { items : list Z; sleeping : nat; woken : nat }.

(** While nobody holds the mutex, every element that a sleeper could take is
    matched by a thread that is waking up. *)
Record released (v : view) (h : heap) : Prop := {
  released_heap : at_heap (protected (items v) (sleeping v + woken v)) h;
  released_items : Forall (fun d => d <> NULL) (items v);
  released_signals : (0 < sleeping v -> length (items v) <= woken v)%nat
}.

(** There is room for what is still to come, and the thread itself may wait. *)
Definition fits (v : view) (todo : list op) : Prop :=
  zlen (items v) + zlen todo <= 2 ^ 31 /\ (sleeping v + woken v < n_threads)%nat.

(** ** Code *)

(** The turns a thread takes from waking up to sleeping again. *)
Definition wake_cost : nat := 4.

Inductive effect := Keep | Gain | Drop.

(** The destruction, to the end. *)
Inductive destroying (gone : assertion) (res : list reply) : nat -> heap -> code (list reply) -> Prop :=
| destroying_ret m n h t : (n < m)%nat -> t ≅ Ret res -> at_heap gone h -> destroying gone res m h t
| destroying_tau m n h t t' : (n < m)%nat -> t ≅ Tau t' -> destroying gone res n h t' -> destroying gone res m h t
| destroying_run m n h t {B} (c : prog B) k (Q : B -> assertion) :
    (n < m)%nat -> t ≅ Vis (Run c) k -> at_heap (wp c Q) h ->
    (forall b h', at_heap (Q b) h' -> destroying gone res n h' (k b)) -> destroying gone res m h t
| destroying_clear_mutex m n h t k P :
    (n < m)%nat -> t ≅ Vis ClearMutex k -> at_heap (mutex_of q ↦ Mutex true ∗ P)%I h ->
    (forall h', at_heap (mutex_of q ↦ Mutex false ∗ P)%I h' -> destroying gone res n h' (k tt)) -> destroying gone res m h t
| destroying_clear_cond m n h t k P :
    (n < m)%nat -> t ≅ Vis ClearCond k -> at_heap (cond_of q ↦ Cond true ∗ P)%I h ->
    (forall h', at_heap (cond_of q ↦ Cond false ∗ P)%I h' -> destroying gone res n h' (k tt)) -> destroying gone res m h t.

(** A thread that woke up for nothing goes back to the same wait. *)
Inductive back (u : option Z) (w : bool -> code (list reply)) (v : view) : nat -> heap -> code (list reply) -> Prop :=
| back_wait m n h t k :
    (n < m)%nat -> t ≅ Vis (Wait u) k -> (forall b, k b ≅ w b) ->
    released (View [] (S (sleeping v)) (woken v)) h -> back u w v m h t
| back_tau m n h t t' : (n < m)%nat -> t ≅ Tau t' -> back u w v n h t' -> back u w v m h t
| back_run m n h t {B} (c : prog B) k (Q : B -> assertion) :
    (n < m)%nat -> t ≅ Vis (Run c) k -> at_heap (wp c Q) h ->
    (forall b h', at_heap (Q b) h' -> back u w v n h' (k b)) -> back u w v m h t.

(** [locks] says that the mutex is still to be taken, the effect what is still to
    happen to the references; then come the operations of the call that are
    still to be done and those that are done, with their replies. *)
Inductive outside (destroyed : list Z -> assertion) : nat -> bool -> effect -> list op -> list (op * reply) -> code (list reply) -> Prop :=
| outside_ret m n locks done t : (n < m)%nat -> t ≅ Ret done.*2 -> outside destroyed m locks Keep [] done t
| outside_tau m n locks eff todo done t t' :
    (n < m)%nat -> t ≅ Tau t' -> outside destroyed n locks eff todo done t' -> outside destroyed m locks eff todo done t
| outside_now m n locks eff todo done t k :
    (n < m)%nat -> t ≅ Vis MonotonicTime k -> (forall now, clock_ok now -> outside destroyed n locks eff todo done (k now)) ->
    outside destroyed m locks eff todo done t
| outside_wall m n locks eff todo done t k :
    (n < m)%nat -> t ≅ Vis RealTime k -> (forall wall, wall_ok wall -> outside destroyed n locks eff todo done (k wall)) ->
    outside destroyed m locks eff todo done t
| outside_pure m n locks eff todo done t {B} (c : prog B) (b : B) k :
    (n < m)%nat -> t ≅ Vis (Run c) k -> (forall mem, c mem = Some (b, mem)) -> outside destroyed n locks eff todo done (k b) ->
    outside destroyed m locks eff todo done t
| outside_gain m n done t k :
    (n < m)%nat -> t ≅ Vis (Run (g_atomic_int_inc (ref_count_of q))) k -> outside destroyed n false Keep [] done (k tt) ->
    outside destroyed m false Gain [] done t
| outside_drop m n done t k :
    (n < m)%nat -> t ≅ Vis (Run (g_atomic_int_dec_and_test (ref_count_of q))) k -> outside destroyed n false Keep [] done (k false) ->
    (forall r h, at_heap (protected r 0 ∗ members 0 ∗ destroyed [])%I h ->
      destroying (destroyed (rev r)) done.*2 n h (k true)) ->
    outside destroyed m false Drop [] done t
| outside_lock m n eff todo t k :
    (n < m)%nat -> t ≅ Vis Lock k ->
    (forall v h, released v h -> fits v todo -> critical destroyed n v h eff todo [] (k tt)) ->
    outside destroyed m true eff todo [] t
with critical (destroyed : list Z -> assertion) : nat -> view -> heap -> effect -> list op -> list (op * reply) -> code (list reply) -> Prop :=
| critical_tau m n v h eff todo done t t' :
    (n < m)%nat -> t ≅ Tau t' -> critical destroyed n v h eff todo done t' -> critical destroyed m v h eff todo done t
| critical_now m n v h eff todo done t k :
    (n < m)%nat -> t ≅ Vis MonotonicTime k -> (forall now, clock_ok now -> critical destroyed n v h eff todo done (k now)) ->
    critical destroyed m v h eff todo done t
| critical_wall m n v h eff todo done t k :
    (n < m)%nat -> t ≅ Vis RealTime k -> (forall wall, wall_ok wall -> critical destroyed n v h eff todo done (k wall)) ->
    critical destroyed m v h eff todo done t
| critical_run m n v h eff todo done t {B} (c : prog B) k (Q : B -> assertion) :
    (n < m)%nat -> t ≅ Vis (Run c) k -> at_heap (wp c Q) h ->
    (forall b h', at_heap (Q b) h' -> critical destroyed n v h' eff todo done (k b)) ->
    critical destroyed m v h eff todo done t
| critical_op n v h eff o a r todo done t :
    fifo_step n_threads o a (items v) r ->
    critical destroyed n (View r (sleeping v) (woken v)) h eff todo (done ++ [(o, a)]) t ->
    critical destroyed n v h eff (o :: todo) done t
| critical_signal m n v h eff todo done t k :
    (n + wake_cost * n_threads < m)%nat -> t ≅ Vis Signal k ->
    (forall s, (s <= sleeping v)%nat -> (0 < sleeping v -> 0 < s)%nat ->
      critical destroyed n (View (items v) (sleeping v - s) (woken v + s)) h eff todo done (k tt)) ->
    critical destroyed m v h eff todo done t
| critical_unlock m n v h eff done t k :
    (n < m)%nat -> t ≅ Vis Unlock k -> released v h -> outside destroyed n false eff [] done (k tt) ->
    critical destroyed m v h eff [] done t
| critical_wait m n v h eff todo done t u k :
    (n < m)%nat -> t ≅ Vis (Wait u) k -> items v = [] -> released (View [] (S (sleeping v)) (woken v)) h ->
    parked destroyed n u eff todo done k -> critical destroyed m v h eff todo done t
with parked (destroyed : list Z -> assertion) : nat -> option Z -> effect -> list op -> list (op * reply) -> (bool -> code (list reply)) -> Prop :=
| park m n u eff todo done k :
    (n < m)%nat -> (forall v h, released (View [] (sleeping v) (S (woken v))) h -> back u k v 3 h (k true)) ->
    (forall v h, released (View (items v) (sleeping v) (S (woken v))) h -> fits v todo ->
      items v <> [] -> critical destroyed n v h eff todo done (k true)) ->
    (u <> None -> forall v h, released (View (items v) (sleeping v) (S (woken v))) h -> fits v todo ->
      critical destroyed n v h eff todo done (k false)) ->
    parked destroyed m u eff todo done k.
End spec.
