(* ===== verification/AsyncQueueOps.v ===== *)
(** * Queues between threads: every function keeps its promise *)

From stdpp Require Import sorting.
From iris.proofmode Require Import proofmode.
From ITree Require Import ITree ITreeFacts.
From S2P Require Import Prelude SortMerge Heap DList DListSpec DListOps DQueue DQueueOps.
From S2P Require Import Threads AsyncQueue AsyncQueueSpec.
Local Open Scope Z_scope.
Local Open Scope xpl_scope.

(** ** Code that is the same up to silent steps of binds *)

Section proper.
Context `{Hclocks : Clocks}.
Context (func : Z -> Z -> Z) (q free_func : Z) (n_threads : nat) (destroyed : list Z -> assertion).

#[export] Instance destroying_proper gone res n h : Proper (eq_itree eq ==> iff) (destroying q gone res n h).
Proof.
  apply proper_sym_impl_iff; [apply _|]. intros t t' E. destruct 1.
  - eapply destroying_ret; [done|by rw -E|done].
  - eapply destroying_tau; [done|by rw -E|done].
  - eapply destroying_run; [done|by rw -E|done..].
  - eapply destroying_clear_mutex; [done|by rw -E|done..].
  - eapply destroying_clear_cond; [done|by rw -E|done..].
Qed.

#[export] Instance back_proper u w v n h : Proper (eq_itree eq ==> iff) (back q free_func u w v n h).
Proof.
  apply proper_sym_impl_iff; [apply _|]. intros t t' E. destruct 1.
  - eapply back_wait; [done|by rw -E|done..].
  - eapply back_tau; [done|by rw -E|done].
  - eapply back_run; [done|by rw -E|done..].
Qed.

#[export] Instance outside_proper n locks eff todo done :
  Proper (eq_itree eq ==> iff) (outside func q free_func n_threads destroyed n locks eff todo done).
Proof.
  apply proper_sym_impl_iff; [apply _|]. intros t t' E. destruct 1.
  - eapply outside_ret; [done|by rw -E].
  - eapply outside_tau; [done|by rw -E|done].
  - eapply outside_now; [done|by rw -E|done].
  - eapply outside_wall; [done|by rw -E|done].
  - eapply outside_pure; [done|by rw -E|done..].
  - eapply outside_gain; [done|by rw -E|done].
  - eapply outside_drop; [done|by rw -E|done..].
  - eapply outside_lock; [done|by rw -E|done].
Qed.

#[export] Instance critical_proper n v h eff todo done :
  Proper (eq_itree eq ==> iff) (critical func q free_func n_threads destroyed n v h eff todo done).
Proof.
  apply proper_sym_impl_iff; [apply _|]. intros t t' E Hc. revert t' E. induction Hc; intros t1 E.
  - eapply critical_tau; [done|by rw -E|done].
  - eapply critical_now; [done|by rw -E|done].
  - eapply critical_wall; [done|by rw -E|done].
  - eapply critical_run; [done|by rw -E|done..].
  - eapply critical_op; eauto.
  - eapply critical_signal; [done|by rw -E|done].
  - eapply critical_unlock; [done|by rw -E|done..].
  - eapply critical_wait; [done|by rw -E|done..].
Qed.
End proper.

Section ops.
Context `{Allocator} `{BlockAllocator} `{Hclocks : Clocks}.
Context (call_destroy : Z -> Z -> prog unit) (func : Z -> Z -> Z) (q free_func : Z) (n_threads : nat).
Context (Hfunc : forall x y, - 2 ^ 31 < func x y < 2 ^ 31) (Hthreads : Z.of_nat n_threads < 2 ^ 31) (Hq : q <> 0).

Abbreviation protected := (protected q free_func).
Abbreviation members := (members q).
Abbreviation released := (released q free_func).
Abbreviation fits := (fits n_threads).

(** ** Programs on what the mutex protects *)

Lemma rev_reverse {X} (l : list X) : rev l = reverse l.
Proof. apply rev_alt. Qed.
Lemma last_rev {X} (l : list X) : last (rev l) = head l.
Proof. rw rev_reverse. apply last_reverse. Qed.
Lemma elem_of_rev {X} (x : X) l : x ∈ rev l <-> x ∈ l.
Proof. rw rev_reverse. apply elem_of_reverse. Qed.

Lemma rev_last (l : list (Z * Z)) r : l.*2 = rev r -> last_data l = default NULL (head r).
Proof.
  intros E. unfold last_data. rw -fmap_last E. destruct r as [|x r]; [done|]. cbn [rev]. by rw last_snoc.
Qed.

Lemma peek_tail_protected r w :
  {{ protected r w }} g_queue_peek_tail_link (queue_of q) {{ x, ⌜x = NULL <-> r = []⌝ ∧ protected r w }}.
Proof.
  iIntros "[Hq (%l & %El & Hl)]". iAssert (⌜last_of NULL l = NULL <-> r = []⌝)%I as %Hl.
  { destruct l as [|[a d] l _] using rev_ind.
    - iPureIntro. destruct r; [done|]. cbn in El. by destruct (rev r).
    - iDestruct "Hl" as "[_ Hl]". iDestruct (nodes_last_not_null with "Hl") as %Ha. iPureIntro.
      rw last_of_snoc. split; [done|]. intros ->. by destruct l. }
  iApply (wp_reading_end _ _ _ _ (peek_tail_link_ok _ l)). iFrame "Hl". iIntros "Hl". iSplit; [done|].
  iFrame "Hq". iExists l. by iFrame.
Qed.

Lemma at_and φ P h : at_heap (⌜φ⌝ ∧ P)%I h -> φ /\ at_heap P h.
Proof. done. Qed.
Lemma at_exist {X} (Φ : X -> assertion) h : at_heap (∃ x, Φ x)%I h -> exists x, at_heap (Φ x) h.
Proof. done. Qed.

(** From the queue to its elements in the order in which they leave. *)
Lemma queue_protected {B} (c : prog B) r w (R : B -> list Z -> Prop) :
  (forall l, l.*2 = rev r -> {{ queue_at (queue_of q) l }} c {{ b, ∃ l', ⌜R b (rev l'.*2)⌝ ∧ queue_at (queue_of q) l' }}) ->
  {{ protected r w }} c {{ b, ∃ r', ⌜R b r'⌝ ∧ protected r' w }}.
Proof.
  intros Hc. iIntros "[Hq (%l & %El & Hl)]". iApply wp_wand. iSplitL "Hl"; [by iApply (Hc l)|].
  iIntros (b) "(%l' & %HR & Hl)". iExists (rev l'.*2). iSplit; [done|]. iFrame "Hq". iExists l'.
  rw rev_involutive. by iFrame.
Qed.

Abbreviation fifo := (fifo_step func n_threads).

Lemma push_protected r w d :
  {{ protected r w }} g_queue_push_head (queue_of q) d {{ _b, ∃ r', ⌜fifo (Push d) Nothing r r'⌝ ∧ protected r' w }}.
Proof.
  apply (queue_protected _ r w (fun _ => fifo (Push d) Nothing r)). intros l El. iIntros "Hl".
  iApply wp_wand. iSplitL; [by iApply push_head_ok|]. iIntros (_) "(%a & Hl)". iExists ((a, d) :: l).
  iFrame "Hl". iPureIntro. rw fmap_cons El /= rev_involutive. split; [constructor|done].
Qed.

Lemma push_front_protected r w d :
  {{ protected r w }} g_queue_push_tail (queue_of q) d {{ _b, ∃ r', ⌜fifo (PushFront d) Nothing r r'⌝ ∧ protected r' w }}.
Proof.
  apply (queue_protected _ r w (fun _ => fifo (PushFront d) Nothing r)). intros l El. iIntros "Hl".
  iApply wp_wand. iSplitL; [by iApply push_tail_ok|]. iIntros (_) "(%a & Hl)". iExists (l ++ [(a, d)]).
  iFrame "Hl". iPureIntro. rw fmap_app El rev_app_distr rev_involutive. split; [constructor|done].
Qed.

Lemma invert_compare x y : g_async_queue_invert_compare func x y = - func x y.
Proof using Hfunc. clear Hthreads. unfold g_async_queue_invert_compare. pose proof (Hfunc x y). apply i32_small. lia. Qed.

Lemma upto_splits (f : Z -> bool) (l : list (Z * Z)) :
  l = upto f l ++ from f l /\ Forall (fun x => f x.2 = false) (upto f l) /\
  (forall x, head (from f l) = Some x -> f x.2 = true).
Proof.
  induction l as [|[a d] l (IH1 & IH2 & IH3)]; [split_and!; [done|constructor|done]|].
  cbn [upto from]. destruct (f d) eqn:Ef; split_and!; try done.
  - intros x [= <-]. done.
  - by rw /= -IH1.
  - by constructor.
Qed.

Lemma push_sorted_protected r w d :
  {{ protected r w }} g_queue_insert_sorted (queue_of q) d (g_async_queue_invert_compare func)
  {{ _b, ∃ r', ⌜fifo (PushSorted d) Nothing r r'⌝ ∧ protected r' w }}.
Proof.
  apply (queue_protected _ r w (fun _ => fifo (PushSorted d) Nothing r)). intros l El. iIntros "Hl".
  iApply wp_wand. iSplitL; [by iApply queue_insert_sorted_ok|]. iIntros (_) "(%a & Hl)". cbv zeta.
  set (found := fun e => _). iExists _. iFrame "Hl". iPureIntro.
  destruct (upto_splits found l) as (E & Hu & Hf). split; [|done].
  assert (r = rev (from found l).*2 ++ rev (upto found l).*2) as -> by (rw -(rev_involutive r) -El E fmap_app rev_app_distr -E; done).
  rw fmap_app fmap_cons rev_app_distr /= -app_assoc. constructor.
  - intros e He. rw last_rev in He. destruct (from found l) as [|x l2]; [done|].
    injection He as <-. specialize (Hf x eq_refl). unfold found in Hf. rw invert_compare in Hf.
    apply negb_true_iff, Z.ltb_ge in Hf. lia.
  - apply Forall_rev, Forall_fmap. eapply Forall_impl; [exact Hu|]. intros x Hx. unfold found in Hx. cbn.
    rw invert_compare in Hx. apply negb_false_iff, Z.ltb_lt in Hx. lia.
Qed.

Lemma pop_protected r w :
  {{ protected r w }} g_queue_pop_tail (queue_of q) {{ x, ⌜x = default NULL (head r)⌝ ∧ protected (tail r) w }}.
Proof.
  iIntros "[Hq (%l & %El & Hl)]". iApply wp_wand. iSplitL "Hl"; [by iApply pop_tail_ok|].
  iIntros (x) "[-> Hl]". iSplit; [iPureIntro; by apply rev_last|]. iFrame "Hq". iExists _. iFrame "Hl".
  iPureIntro. split; [|done]. rw fmap_take El. assert (length l = length r) as ->.
  { rw -(length_fmap snd l) El. apply length_rev. }
  destruct r as [|x r]; [done|]. cbn [rev tail length]. replace (S (length r) - 1)%nat with (length (rev r)).
  - by rw take_app_length.
  - rw length_rev. lia.
Qed.

Lemma remove_data_split d (l : list (Z * Z)) :
  if has_data d l then exists l1 a l2, l = l1 ++ (a, d) :: l2 /\ remove_data d l = l1 ++ l2 /\ d ∉ l1.*2
  else remove_data d l = l /\ d ∉ l.*2.
Proof.
  induction l as [|[a e] l IH]; [split; [done|apply not_elem_of_nil]|]. cbn [has_data existsb remove_data snd].
  unfold has_data in IH. destruct (Z.eqb_spec e d) as [->|Hne]; cbn [orb].
  - exists [], a, l. split_and!; [done..|apply not_elem_of_nil].
  - destruct (existsb _ l).
    + destruct IH as (l1 & b & l2 & -> & -> & Hd). exists ((a, e) :: l1), b, l2. split_and!; [done..|].
      cbn. rw elem_of_cons. naive_solver.
    + destruct IH as [-> Hd]. split; [done|]. cbn. rw elem_of_cons. naive_solver.
Qed.

Lemma remove_protected r w d :
  {{ protected r w }} g_queue_remove (queue_of q) d {{ b, ∃ r', ⌜fifo (Remove d) (Truth b) r r'⌝ ∧ protected r' w }}.
Proof.
  apply (queue_protected _ r w (fun b => fifo (Remove d) (Truth b) r)). intros l El. iIntros "Hl".
  iApply wp_wand. iSplitL; [by iApply queue_remove_ok|]. iIntros (b) "[-> Hl]". iExists _. iFrame "Hl".
  iPureIntro. split; [|done]. pose proof (remove_data_split d l) as Hd. rw -(rev_involutive r) -El. clear El r.
  destruct (has_data d l).
  - destruct Hd as (l1 & a & l2 & -> & -> & Hd). rw !fmap_app !rev_app_distr /= -app_assoc. apply fifo_remove.
    by rw elem_of_rev.
  - destruct Hd as [-> Hd]. apply fifo_remove_none. by rw elem_of_rev.
Qed.

Lemma sorts_inverted (l l' : list (Z * Z)) :
  sorts (by_data (g_async_queue_invert_compare func)) l l' -> sorts func (rev l.*2) (rev l'.*2).
Proof.
  intros [Hp Hs]. split; [by rw !rev_reverse !reverse_Permutation Hp|]. intros D Hc HD.
  rw rev_reverse Forall_reverse Forall_fmap in HD.
  destruct (Hs (fun x => D x.2)) as [Ho He]; [|exact HD|].
  { destruct Hc as [H1 H2 H3]. split; unfold by_data; intros *; rw !invert_compare.
    - intros Hx. rw H1 //.
    - intros Hx Hy. pose proof (H2 _ _ Hx Hy). pose proof (H2 _ _ Hy Hx). lia.
    - intros Hx Hy Hz ??. pose proof (H2 _ _ Hx Hy). pose proof (H2 _ _ Hy Hz). pose proof (H2 _ _ Hx Hz).
      pose proof (H2 _ _ Hy Hx). pose proof (H2 _ _ Hz Hy). pose proof (H2 _ _ Hz Hx).
      assert (func z.2 x.2 <= 0); [|lia]. apply (H3 _ y.2); [done..|lia|lia]. }
  split.
  - unfold in_order in *. rw -Hp in HD. clear -Ho Hc HD Hfunc. destruct Hc as [_ H2 _].
    induction Ho as [|x k Hl IH Hx]; [constructor|]. apply Forall_cons in HD as [Dx Dl]. cbn [fmap list_fmap rev].
    apply StronglySorted_app_2; [|by apply IH|by repeat constructor].
    intros y z Hy Hz. rw elem_of_rev in Hy. apply list_elem_of_fmap in Hy as (e & -> & Hy). apply list_elem_of_singleton in Hz as ->.
    rw Forall_forall in Hx. rw Forall_forall in Dl. specialize (Hx _ Hy). unfold by_data in Hx. rw invert_compare in Hx.
    pose proof (H2 _ _ Dx (Dl _ Hy)). pose proof (H2 _ _ (Dl _ Hy) Dx). lia.
  - intros x Dx. specialize (He (0, x) Dx). unfold equals in *. unfold by_data in He.
    assert (forall k : list (Z * Z), filter (fun y => func x y = 0) k.*2 =
      (filter (fun y : Z * Z => g_async_queue_invert_compare func x y.2 = 0) k).*2) as E.
    { clear -Hfunc. induction k as [|[a e] k IH]; [done|]. cbn [fmap list_fmap snd]. rw !filter_cons /= IH invert_compare.
      destruct (decide (func x e = 0)), (decide (- func x e = 0)); (done || lia). }
    rw !rev_reverse !filter_reverse !E. cbn in He. by rw He.
Qed.

Lemma sort_protected r w :
  {{ protected r w }} g_queue_sort (queue_of q) (g_async_queue_invert_compare func)
  {{ _b, ∃ r', ⌜fifo SortAll Nothing r r'⌝ ∧ protected r' w }}.
Proof.
  apply (queue_protected _ r w (fun _ => fifo SortAll Nothing r)). intros l El. iIntros "Hl".
  iApply wp_wand. iSplitL; [by iApply queue_sort_ok|]. iIntros (_) "(%l' & %Hs & Hl)". iExists l'. iFrame "Hl".
  iPureIntro. split; [|done]. rw -(rev_involutive r) -El. constructor. by apply sorts_inverted.
Qed.

Lemma length_protected r w :
  zlen r < 2 ^ 32 -> reading (protected r w) (get_length (queue_of q)) (zlen r).
Proof.
  intros Hr. iIntros "[Hq (%l & %El & [Hh Hl])]". unfold queue_cell. wp_steps.
  assert (zlen l = zlen r) as -> by (unfold zlen; rw -(length_fmap snd l) El length_rev; done).
  pose proof (zlen_nonneg r). rw wrap_small; [|lia]. iSplit; [done|]. iFrame "Hq". iExists l. iSplit; [done|].
  iFrame. unfold queue_cell. assert (zlen l = zlen r) as -> by (unfold zlen; rw -(length_fmap snd l) El length_rev; done).
  by rw wrap_small; [|lia].
Qed.

#[export] Instance reads_free_func p a : Reads (get_free_func p) p (AsyncQueue a) (aq_item_free_func a).
Proof. intros m E. unfold get_free_func, load_async, load, mbind, prog_bind. by rw E. Qed.
#[export] Instance reads_waiting p a : Reads (get_waiting p) p (AsyncQueue a) (aq_waitinxthreads a).
Proof. intros m E. unfold get_waiting, load_async, load, mbind, prog_bind. by rw E. Qed.
#[export] Instance writes_waiting p a x :
  Writes (set_waiting p x) p (AsyncQueue a) (AsyncQueue (XAsyncQueue (aq_item_free_func a) x)).
Proof. intros m E. unfold set_waiting, load_async, load, store, mbind, prog_bind. by rw E /= E. Qed.

Lemma waiting_protected r w : reading (protected r w) (get_waiting q) (Z.of_nat w).
Proof. iIntros "[Hq Hl]". wp_steps. iSplit; [done|]. iFrame. Qed.
Lemma one_more_protected r w :
  Z.of_nat w + 1 < 2 ^ 32 -> {{ protected r w }} one_more_waits q {{ _b, protected r (S w) }}.
Proof.
  intros Hw. iIntros "[Hq Hl]". unfold one_more_waits. wp_steps. cbn [aq_item_free_func aq_waitinxthreads].
  rw wrap_small; [|lia]. replace (Z.of_nat w + 1) with (Z.of_nat (S w)) by lia. iFrame.
Qed.
Lemma one_less_protected r w :
  Z.of_nat w + 1 < 2 ^ 32 -> {{ protected r (S w) }} one_less_waits q {{ _b, protected r w }}.
Proof.
  intros Hw. iIntros "[Hq Hl]". unfold one_less_waits. wp_steps. cbn [aq_item_free_func aq_waitinxthreads].
  rw wrap_small; [|lia]. replace (Z.of_nat (S w) - 1) with (Z.of_nat w) by lia. iFrame.
Qed.

(** ** Rules *)

Section rules.
Context (destroyed : list Z -> assertion).
Abbreviation critical := (critical func q free_func n_threads destroyed).
Abbreviation outside := (outside func q free_func n_threads destroyed).
Abbreviation parked := (parked func q free_func n_threads destroyed).

Lemma critical_le n m v h eff todo done t : (n <= m)%nat -> critical n v h eff todo done t -> critical m v h eff todo done t.
Proof.
  intros Hm Hc. revert m Hm. induction Hc; intros m1 Hm.
  - eapply critical_tau; [|done..]; lia.
  - eapply critical_now; [|done..]; lia.
  - eapply critical_wall; [|done..]; lia.
  - eapply critical_run; [|done..]; lia.
  - eapply critical_op; eauto.
  - eapply critical_signal; [|done..]; lia.
  - eapply critical_unlock; [|done..]; lia.
  - eapply critical_wait; [|done..]; lia.
Qed.

(** Binds, one at a time. *)
Section binds.
Context (n : nat) (v : view) (h : heap) (locks : bool) (eff : effect) (todo : list op) (done : list (op * reply)).
Context (gone : assertion) (res : list reply) (u : option Z) (w : bool -> code (list reply)).
Context {X Y : Type}.
Lemma critical_assoc (t : code X) (k : X -> code Y) (k' : Y -> code (list reply)) :
  critical n v h eff todo done (t ≫= fun a => k a ≫= k') -> critical n v h eff todo done ((t ≫= k) ≫= k').
Proof. apply critical_proper, code_bind_bind. Qed.
Lemma critical_ret (a : X) (r : X -> code (list reply)) : critical n v h eff todo done (r a) -> critical n v h eff todo done (mret a ≫= r).
Proof. apply critical_proper, code_ret_bind. Qed.
Lemma outside_assoc (t : code X) (k : X -> code Y) (k' : Y -> code (list reply)) :
  outside n locks eff todo done (t ≫= fun a => k a ≫= k') -> outside n locks eff todo done ((t ≫= k) ≫= k').
Proof. apply outside_proper, code_bind_bind. Qed.
Lemma outside_bind_ret (a : X) (r : X -> code (list reply)) : outside n locks eff todo done (r a) -> outside n locks eff todo done (mret a ≫= r).
Proof. apply outside_proper, code_ret_bind. Qed.
Lemma destroying_assoc (t : code X) (k : X -> code Y) (k' : Y -> code (list reply)) :
  destroying q gone res n h (t ≫= fun a => k a ≫= k') -> destroying q gone res n h ((t ≫= k) ≫= k').
Proof. apply destroying_proper, code_bind_bind. Qed.
Lemma destroying_bind_ret (a : X) (r : X -> code (list reply)) : destroying q gone res n h (r a) -> destroying q gone res n h (mret a ≫= r).
Proof. apply destroying_proper, code_ret_bind. Qed.
Lemma back_assoc (t : code X) (k : X -> code Y) (k' : Y -> code (list reply)) :
  back q free_func u w v n h (t ≫= fun a => k a ≫= k') -> back q free_func u w v n h ((t ≫= k) ≫= k').
Proof. apply back_proper, code_bind_bind. Qed.
Lemma back_bind_ret (a : X) (r : X -> code (list reply)) : back q free_func u w v n h (r a) -> back q free_func u w v n h (mret a ≫= r).
Proof. apply back_proper, code_ret_bind. Qed.
Lemma bind_head (t t' : code X) (k : X -> code Y) : t ≅ t' -> t ≫= k ≅ t' ≫= k.
Proof. intros E. by apply code_bind_proper. Qed.
End binds.

Ltac code_step :=
  first [apply critical_assoc | apply critical_ret | apply outside_assoc | apply outside_bind_ret
        | apply destroying_assoc | apply destroying_bind_ret | apply back_assoc | apply back_bind_ret]; cbv beta.
Ltac code_steps := repeat code_step.

Lemma critical_runs {B} n m P (Q : B -> assertion) (c : prog B) v h eff todo done k :
  (P ⊢ wp c Q) -> at_heap P h -> (n < m)%nat ->
  (forall b h', at_heap (Q b) h' -> critical n v h' eff todo done (k b)) ->
  critical m v h eff todo done (run c ≫= k).
Proof.
  intros [Hc] HP Hm Hk. eapply critical_run; [done|apply code_trigger_bind|by apply Hc|done].
Qed.

Lemma critical_reads {B} n m P (a : B) (c : prog B) v h eff todo done k :
  reading P c a -> at_heap P h -> (n < m)%nat ->
  (forall h', at_heap P h' -> critical n v h' eff todo done (k a)) ->
  critical m v h eff todo done (run c ≫= k).
Proof.
  intros Hc HP Hm Hk. eapply critical_runs; [exact Hc|done..|]. intros b h' [-> Hb]. by apply Hk.
Qed.

(** Code that does an operation, for the continuation that gets its result. *)
Definition op_cost : nat := 23 + wake_cost * n_threads.
Definition does {B} (o : op) (answer : B -> reply) (c : code B) : Prop :=
  forall n v h eff todo done k,
    op_ok o -> released v h -> fits v (o :: todo) ->
    (forall b v' h', released v' h' -> fits v' todo -> critical n v' h' eff todo (done ++ [(o, answer b)]) (k b)) ->
    critical (op_cost + n) v h eff (o :: todo) done (c ≫= k).

Lemma fifo_items o a r r' :
  op_ok o -> fifo o a r r' -> Forall (fun d => d <> NULL) r -> Forall (fun d => d <> NULL) r' /\ zlen r' <= zlen r + 1.
Proof.
  intros Ho Hs Hr. destruct Hs; cbn in Ho; rw ?zlen_app ?zlen_cons ?zlen_nil ?Forall_app ?Forall_cons in Hr |- *;
    try (split; [naive_solver|lia]).
  destruct H1 as [Hp _]. split; [by rw Hp|]. unfold zlen. rw Hp. lia.
Qed.

Lemma fits_step v r o a todo :
  op_ok o -> Forall (fun d => d <> NULL) (items v) -> fifo o a (items v) r -> fits v (o :: todo) ->
  fits (View r (sleeping v) (woken v)) todo.
Proof.
  intros Ho Hr Hs [H1 H2]. destruct (fifo_items _ _ _ _ Ho Hs Hr) as [_ Hl]. rw zlen_cons in H1.
  split; [cbn; lia|done].
Qed.

Lemma signal_ok n v h eff todo done k :
  at_heap (protected (items v) (sleeping v + woken v)) h -> Forall (fun d => d <> NULL) (items v) ->
  (0 < sleeping v -> length (items v) <= S (woken v))%nat -> fits v todo ->
  (forall v' h', released v' h' -> fits v' todo -> critical n v' h' eff todo done (k tt)) ->
  critical (4 + wake_cost * n_threads + n) v h eff todo done (signal_waiting q ≫= k).
Proof.
  intros Hh Hi Hs Hf Hk. unfold signal_waiting. code_steps.
  eapply (critical_reads (3 + wake_cost * n_threads + n)); [apply waiting_protected|done|lia|]. intros h' Hh'. cbv beta.
  destruct (Z.ltb_spec 0 (sleeping v + woken v)%nat) as [Hw|Hw].
  - eapply (critical_signal _ _ _ _ _ _ n); [lia|apply code_trigger_bind|]. intros s Hs1 Hs2. apply Hk.
    + split; cbn; [by replace (_ + _)%nat with (sleeping v + woken v)%nat by lia|done|lia].
    + destruct Hf as [H1 H2]. split; cbn; [done|lia].
  - code_steps. eapply critical_le; [|apply Hk; [split; [done..|lia]|done]]. lia.
Qed.

(** Pushing wakes a sleeper. *)
Lemma pushes_ok o (c : prog unit) :
  (forall r w, {{ protected r w }} c {{ _b, ∃ r', ⌜fifo o Nothing r r'⌝ ∧ protected r' w }}) ->
  (forall a r r', fifo o a r r' -> zlen r' = zlen r + 1) ->
  does o (fun _ => Nothing) (run c;; signal_waiting q).
Proof.
  intros Hc Hlen n v h eff todo done k Ho [Hh Hi Hs] Hf Hk. code_steps.
  eapply (critical_runs (5 + wake_cost * n_threads + n)); [apply Hc|done|unfold op_cost; lia|].
  intros _ h' (r & Hr & Hh'). eapply critical_op; [exact Hr|].
  eapply critical_le; [|eapply signal_ok]; [| |by destruct (fifo_items _ _ _ _ Ho Hr Hi)| |exact (fits_step _ _ _ _ _ Ho Hi Hr Hf)|].
  4: { intros v' h1 Hv' Hf'. by apply Hk. }
  - lia.
  - done.
  - cbn. specialize (Hlen _ _ _ Hr). unfold zlen in Hlen. intros H1. specialize (Hs H1). lia.
Qed.

(** Other programs leave at most as many elements as there were. *)
Lemma changes_ok {B} o (answer : B -> reply) (c : prog B) :
  (forall r w, {{ protected r w }} c {{ b, ∃ r', ⌜fifo o (answer b) r r'⌝ ∧ protected r' w }}) ->
  (forall a r r', fifo o a r r' -> zlen r' <= zlen r) ->
  does o answer (run c).
Proof.
  intros Hc Hlen n v h eff todo done k Ho [Hh Hi Hs] Hf Hk.
  eapply (critical_runs n); [apply Hc|done|unfold op_cost; lia|].
  intros b h' (r & Hr & Hh'). eapply critical_op; [exact Hr|]. apply Hk; [|exact (fits_step _ _ _ _ _ Ho Hi Hr Hf)].
  split; [done|by destruct (fifo_items _ _ _ _ Ho Hr Hi)|]. cbn. specialize (Hlen _ _ _ Hr). unfold zlen in Hlen. intros H1.
  specialize (Hs H1). lia.
Qed.

Lemma outside_le n m locks eff todo done t : (n <= m)%nat -> outside n locks eff todo done t -> outside m locks eff todo done t.
Proof.
  intros Hm Ho. destruct Ho.
  - by eapply (outside_ret _ _ _ _ _ _ n); [lia|].
  - eapply outside_tau; [|done..]; lia.
  - eapply outside_now; [|done..]; lia.
  - eapply outside_wall; [|done..]; lia.
  - eapply outside_pure; [|done..]; lia.
  - eapply outside_gain; [|done..]; lia.
  - eapply outside_drop; [|done..]; lia.
  - eapply outside_lock; [|done..]; lia.
Qed.

(** ** Popping *)

(** The deadline of the wait. *)
Definition deadline (end_time : Z) : option Z := if end_time =? -1 then None else Some end_time.
(** What follows the wait in the loop. *)
Definition after_wait (end_time : Z) (signalled : bool) : code unit :=
  if (end_time =? -1) || signalled then Tau (pop_wait_loop q end_time) else mret tt.

Lemma pop_wait_loop_unfold end_time :
  pop_wait_loop q end_time ≅
  (link ← run (g_queue_peek_tail_link (queue_of q));
   if link =? NULL then signalled ← ITree.trigger (Wait (deadline end_time)); after_wait end_time signalled
   else mret tt).
Proof.
  unfold pop_wait_loop at 1. set (body := fun _ : unit => _). rw unfold_iter.
  assert (forall l, ITree.iter body l = pop_wait_loop q end_time) as Hloop by (by intros []). unfold body at 1. clearbody body.
  change (ITree.bind ?t ?k) with (t ≫= k). rw code_bind_bind.
  apply code_bind_proper; [|done]. intros link. unfold after_wait, deadline, g_cond_wait, g_cond_wait_until.
  assert (forall A (k : () + () -> code A) x, mret (M := code) x ≫= k ≅ k x) as Hret by (intros; apply code_ret_bind).
  destruct (link =? NULL); [|by rw Hret].
  destruct (end_time =? -1); rw !code_bind_bind; apply code_bind_proper; try done; intros b.
  - by rw code_ret_bind Hret Hloop.
  - by destruct b; rw Hret ?Hloop.
Qed.

(** How each operation calls [g_async_queue_pop_intern_unlocked]. *)
Inductive pop_mode : op -> bool -> Z -> Prop :=
| mode_pop : pop_mode Pop true (-1)
| mode_timed : pop_mode (TimedPop None) true (-1)
| mode_until tv end_time : 0 < end_time -> pop_mode (TimedPop (Some tv)) true end_time
| mode_try : pop_mode TryPop false (-1)
| mode_timeout t end_time : 0 < end_time -> pop_mode (TimeoutPop t) true end_time.

Lemma pop_answer o wait end_time r :
  pop_mode o wait end_time -> Forall (fun d => d <> NULL) r -> (r = [] -> may_fail o = true) ->
  let d := default NULL (head r) in
  fifo o (Data d) r (tail r) /\ negb (d =? NULL) || negb wait || (0 <? end_time) = true.
Proof.
  intros Hm Hr Hf. destruct r as [|d r]; cbn.
  - split; [constructor; by apply Hf|]. specialize (Hf eq_refl). destruct Hm; cbn in *; (done || lia).
  - apply Forall_cons in Hr as [Hd _]. split; [constructor; by destruct Hm|].
    by rw (proj2 (Z.eqb_neq _ _) Hd).
Qed.

Lemma take_ok o wait end_time n v h eff todo done k :
  pop_mode o wait end_time -> op_ok o ->
  at_heap (protected (items v) (sleeping v + woken v)) h -> Forall (fun d => d <> NULL) (items v) ->
  (0 < sleeping v -> length (items v) <= S (woken v))%nat -> fits v (o :: todo) -> (items v = [] -> may_fail o = true) ->
  (forall b v' h', released v' h' -> fits v' todo -> critical n v' h' eff todo (done ++ [(o, Data b)]) (k b)) ->
  critical (4 + n) v h eff (o :: todo) done
    ((retval ← run (g_queue_pop_tail (queue_of q));
      run (xassert (negb (retval =? NULL) || negb wait || (0 <? end_time)));;
      mret retval) ≫= k).
Proof.
  intros Hm Ho Hh Hi Hs Hf He Hk. destruct (pop_answer _ _ _ _ Hm Hi He) as [Hr Ht]. code_steps.
  eapply (critical_runs (3 + n)); [apply pop_protected|done|lia|]. intros x h1 [-> Hh1]%at_and. code_steps. rw Ht.
  eapply (critical_reads (2 + n)); [|exact Hh1|lia|].
  { instantiate (1 := tt). iIntros "H". unfold xassert. wp_steps. by iFrame. }
  intros h2 Hh2. code_steps. eapply critical_op; [exact Hr|]. eapply critical_le; [|apply Hk].
  - lia.
  - split; [done|by destruct (fifo_items _ _ _ _ Ho Hr Hi)|]. cbn. rw length_tl. lia.
  - exact (fits_step _ _ _ _ _ Ho Hi Hr Hf).
Qed.

(** The end of a wait. *)
Lemma resume_ok o wait end_time n v h eff todo done k :
  pop_mode o wait end_time -> op_ok o ->
  released (View (items v) (sleeping v) (S (woken v))) h -> fits v (o :: todo) -> (items v = [] -> may_fail o = true) ->
  (forall b v' h', released v' h' -> fits v' todo -> critical n v' h' eff todo (done ++ [(o, Data b)]) (k b)) ->
  critical (5 + n) v h eff (o :: todo) done
    (run (one_less_waits q);;
     (retval ← run (g_queue_pop_tail (queue_of q));
      run (xassert (negb (retval =? NULL) || negb wait || (0 <? end_time)));;
      mret retval) ≫= k).
Proof.
  intros Hm Ho [Hh Hi Hs] Hf He Hk. cbn in Hh, Hi, Hs. rw Nat.add_succ_r in Hh.
  eapply (critical_runs (4 + n) _ (protected (items v) (S (sleeping v + woken v))));
    [apply one_less_protected; destruct Hf; lia|exact Hh|lia|].
  intros [] h1 Hh1. by eapply take_ok.
Qed.

(** Back in the loop: the test of the loop decides. *)
Lemma parked_ok o end_time n eff todo done (k : unit -> code (list reply)) :
  pop_mode o true end_time ->
  (forall v h, released (View (items v) (sleeping v) (S (woken v))) h -> fits v (o :: todo) ->
    (items v = [] -> may_fail o = true) -> critical n v h eff (o :: todo) done (k tt)) ->
  parked (3 + n) (deadline end_time) eff (o :: todo) done (fun signalled => after_wait end_time signalled ≫= k).
Proof.
  intros Hm Hk.
  assert (after_wait end_time true ≫= k ≅ Tau (pop_wait_loop q end_time ≫= k)) as Htau.
  { unfold after_wait. rw orb_true_r. apply code_tau_bind. }
  apply (park _ _ _ _ _ _ (2 + n)); [lia|..].
  - intros v h Hr. eapply (back_tau _ _ _ _ _ 3 2); [lia|exact Htau|].
    eapply back_proper; [apply bind_head, pop_wait_loop_unfold|]. code_step.
    eapply (back_run _ _ _ _ _ 2 1); [lia|apply code_trigger_bind| |].
    { eapply entails_at; [apply peek_tail_protected|]. apply Hr. }
    intros link h' [Hl Hh]%at_and. rw (proj2 Hl eq_refl) Z.eqb_refl. code_step.
    eapply (back_wait _ _ _ _ _ 1 0); [lia|apply code_trigger_bind|done|]. destruct Hr as [Hr1 Hr2 Hr3]. cbn in *.
    split; cbn; [by replace (S (_ + _))%nat with (sleeping v + S (woken v))%nat by lia|done|lia].
  - intros v h Hr Hf Hi. eapply (critical_tau _ _ _ _ _ _ (1 + n)); [lia|exact Htau|].
    eapply critical_proper; [apply bind_head, pop_wait_loop_unfold|]. code_step.
    eapply (critical_runs n); [apply peek_tail_protected|apply Hr|lia|]. intros link h' [Hl Hh]%at_and.
    destruct (Z.eqb_spec link NULL) as [E|_]; [by apply Hl in E|]. code_steps. destruct Hr as [_ Hr2 Hr3].
    by apply Hk.
  - intros Hu v h Hr Hf. unfold after_wait. unfold deadline in Hu. destruct (end_time =? -1) eqn:E; [done|].
    cbn [orb]. code_steps. eapply critical_le; [|apply Hk; [done..|]]; [lia|]. intros _. destruct Hm; (done || lia).
Qed.

Lemma pop_intern_ok o wait end_time n v h eff todo done k :
  pop_mode o wait end_time -> op_ok o -> released v h -> fits v (o :: todo) ->
  (forall b v' h', released v' h' -> fits v' todo -> critical n v' h' eff todo (done ++ [(o, Data b)]) (k b)) ->
  critical (16 + wake_cost * n_threads + n) v h eff (o :: todo) done
    (g_async_queue_pop_intern_unlocked q wait end_time ≫= k).
Proof.
  intros Hm Ho [Hh Hi Hs] Hf Hk. unfold g_async_queue_pop_intern_unlocked. code_step.
  eapply (critical_runs (15 + wake_cost * n_threads + n)); [apply peek_tail_protected|done|lia|].
  intros link h1 [Hl Hh1]%at_and. destruct (Z.eqb_spec link NULL) as [E|Hne]; cbn [andb].
  2: { do 2 code_step. eapply critical_le; [|eapply take_ok; try done]; [lia|lia|].
       intros E. by apply Hl in E. }
  apply Hl in E. destruct wait; cbn [andb].
  2: { do 2 code_step. eapply critical_le; [|eapply take_ok; try done]; [lia|lia|]. intros _. by inversion Hm. }
  do 2 code_step. eapply (critical_runs (14 + wake_cost * n_threads + n)); [apply one_more_protected|exact Hh1|lia|].
  { destruct Hf. lia. }
  intros [] h2 Hh2. code_step. eapply critical_proper; [apply bind_head, pop_wait_loop_unfold|]. code_step. eapply (critical_runs (13 + wake_cost * n_threads + n)); [apply peek_tail_protected|exact Hh2|lia|].
  intros link' h3 [Hl' Hh3]%at_and. rw (proj2 Hl' E) Z.eqb_refl. code_step.
  eapply (critical_wait _ _ _ _ _ _ (8 + n)); [lia|apply code_trigger_bind|done| |].
  { rw E in Hh3. by split; [exact Hh3|constructor|cbn; lia]. }
  apply (parked_ok o end_time (5 + n)); [done|]. intros v1 h4 Hr1 Hf1 He1. by apply resume_ok.
Qed.

(** ** The unlocked functions *)

Lemma check_ok {A} expr text (val : A) rest : expr = true -> check expr text val rest = rest.
Proof. by intros ->. Qed.
Lemma not_null (x : Z) : x <> 0 -> negb (x =? NULL) = true.
Proof. intros Hx. by rw (proj2 (Z.eqb_neq _ _) Hx). Qed.

Lemma does_pop o wait end_time : pop_mode o wait end_time -> does o Data (g_async_queue_pop_intern_unlocked q wait end_time).
Proof.
  intros Hm n v h eff todo done k Ho Hr Hf Hk. eapply critical_le; [|by eapply pop_intern_ok]. unfold op_cost. lia.
Qed.

Lemma end_time_ok now timeout : clock_ok now -> 0 <= timeout < 2 ^ 62 -> 0 < i64 (now + timeout).
Proof.
  intros Hn Ht. pose proof clock_positive. unfold clock_ok in Hn. unfold i64. rw Z.mod_small; lia.
Qed.

Lemma sint64_pure x m : - 2 ^ 63 <= x < 2 ^ 63 -> sint64_t x m = Some (x, m).
Proof. intros Hx. unfold sint64_t. by rw (proj2 (Z.leb_le _ _) (proj1 Hx)) (proj2 (Z.ltb_lt _ _) (proj2 Hx)). Qed.
Lemma sint64_ok P x : - 2 ^ 63 <= x < 2 ^ 63 -> reading P (sint64_t x) x.
Proof.
  intros Hx. unfold sint64_t, reading. rw (proj2 (Z.leb_le _ _) (proj1 Hx)) (proj2 (Z.ltb_lt _ _) (proj2 Hx)). iIntros "H". wp_steps. by iFrame.
Qed.

(** The arithmetic of an end time stays within 64 bits, and its result is
    positive. *)
Lemma until_ok now wall tv :
  clock_ok now -> wall_ok wall -> end_time_fits tv ->
  let e := tv_sec tv * 1000000 + tv_usec tv in
  - 2 ^ 63 <= tv_sec tv * 1000000 < 2 ^ 63 /\ - 2 ^ 63 <= e < 2 ^ 63 /\ - 2 ^ 63 <= e - wall < 2 ^ 63 /\
  - 2 ^ 63 <= now + (e - wall) < 2 ^ 63 /\ 0 < now + (e - wall).
Proof.
  intros Hn Hw (H1 & H2 & H3). pose proof clock_positive. unfold clock_ok in Hn. unfold wall_ok in Hw. split_and!; lia.
Qed.

Lemma does_length : does Length Count (g_async_queue_length_unlocked q).
Proof.
  intros n v h eff todo done k Ho Hr Hf Hk. unfold g_async_queue_length_unlocked. rw check_ok; [|by apply not_null].
  destruct Hf as [Hf1 Hf2]. rw zlen_cons in Hf1. pose proof (zlen_nonneg (items v)). pose proof (zlen_nonneg todo).
  code_step. eapply (critical_reads (2 + n) _ (protected (items v) (sleeping v + woken v))); [apply length_protected; lia|apply Hr|unfold op_cost; lia|]. intros h1 Hh1.
  code_step. eapply (critical_reads (1 + n)); [apply waiting_protected|exact Hh1|lia|]. intros h2 Hh2. code_step.
  rw i32_small; [|lia]. eapply critical_op; [by constructor|].
  eapply critical_le; [|apply Hk; [split; [done|apply Hr..]|split; [cbn; lia|done]]]. lia.
Qed.

Lemma does_map {B} o (answer : B -> reply) (c : code B) : does o answer c -> does o id (b ← c; mret (answer b)).
Proof.
  intros Hc n v h eff todo done k Ho Hr Hf Hk. code_step. apply Hc; [done..|].
  intros b v' h' Hr' Hf'. code_step. by apply Hk.
Qed.

Lemma fifo_shorter o a r r' :
  fifo o a r r' -> match o with Push _ | PushFront _ | PushSorted _ => zlen r' = zlen r + 1 | _ => zlen r' <= zlen r end.
Proof.
  intros Hs. destruct Hs; rw ?zlen_app ?zlen_cons ?zlen_nil; try lia.
  - destruct o; (done || lia).
  - destruct o; (done || lia).
  - destruct H1 as [Hp _]. unfold zlen. rw Hp. lia.
Qed.

Lemma serve_unlocked_ok o : does o id (serve_unlocked func q o).
Proof.
  intros n v h eff todo done k Ho. revert n v h eff todo done k Ho.
  destruct o; cbn [serve_unlocked]; apply does_map; intros n v h eff todo done k Ho.
  all: unfold g_async_queue_push_unlocked, g_async_queue_push_front_unlocked, g_async_queue_push_sorted_unlocked,
    g_async_queue_pop_unlocked, g_async_queue_try_pop_unlocked, g_async_queue_timeout_pop_unlocked,
    g_async_queue_timed_pop_unlocked, g_async_queue_remove_unlocked, g_async_queue_sort_unlocked.
  all: rw ?check_ok; try (by apply not_null).
  - apply pushes_ok; [intros; apply push_protected|apply fifo_shorter|done].
  - apply pushes_ok; [intros; apply push_front_protected|apply fifo_shorter|done].
  - apply pushes_ok; [intros; apply push_sorted_protected|apply fifo_shorter|done].
  - by apply (does_pop _ _ _ mode_pop).
  - by apply (does_pop _ _ _ mode_try).
  - intros Hr Hf Hk. code_step. eapply (critical_now _ _ _ _ _ _ (16 + wake_cost * n_threads + n));
      [unfold op_cost; lia|apply code_trigger_bind|]. intros now Hnow. cbv beta zeta. rw check_ok; [|by apply not_null].
    eapply pop_intern_ok; [by apply mode_timeout, end_time_ok|done..].
  - intros Hr Hf Hk. destruct end_time as [tv|]; cbn [monotonic_end_time]; do 2 code_step; [|by apply (does_pop _ _ _ mode_timed)].
    eapply (critical_now _ _ _ _ _ _ (22 + wake_cost * n_threads + n)); [unfold op_cost; lia|apply code_trigger_bind|]. intros now Hnow. cbv beta. code_step.
    eapply (critical_wall _ _ _ _ _ _ (21 + wake_cost * n_threads + n)); [lia|apply code_trigger_bind|]. intros wall Hwall. cbv beta. code_step.
    destruct (until_ok now wall tv Hnow Hwall Ho) as (B1 & B2 & B3 & B4 & Hpos). pose proof Hr as [Hh Hi Hs].
    eapply (critical_reads (20 + wake_cost * n_threads + n)); [by apply sint64_ok|exact Hh|lia|]. intros h1 Hh1. code_step.
    eapply (critical_reads (19 + wake_cost * n_threads + n)); [by apply sint64_ok|exact Hh1|lia|]. intros h2 Hh2. code_step.
    eapply (critical_reads (18 + wake_cost * n_threads + n)); [by apply sint64_ok|exact Hh2|lia|]. intros h3 Hh3.
    eapply (critical_reads (17 + wake_cost * n_threads + n)); [by apply sint64_ok|exact Hh3|lia|]. intros h4 Hh4.
    eapply critical_le; [|eapply pop_intern_ok; [by apply mode_until|done|by split|done..]]. lia.
  - apply changes_ok; [intros; apply remove_protected|intros ??? Hs; by apply fifo_shorter in Hs|done].
  - apply changes_ok; [intros; apply sort_protected|intros ??? Hs; by apply fifo_shorter in Hs|done].
  - by apply does_length.
Qed.

(** ** Calls *)

Lemma serve_session_ok os n v h eff todo done k :
  Forall op_ok os -> released v h -> fits v (os ++ todo) ->
  (forall answers v' h', length answers = length os -> released v' h' -> fits v' todo ->
    critical n v' h' eff todo (done ++ zip os answers) (k answers)) ->
  critical (op_cost * length os + n) v h eff (os ++ todo) done (serve_all_unlocked func q os ≫= k).
Proof.
  revert n v h done k. induction os as [|o os IH]; intros n v h done k Hos Hr Hf Hk; cbn [serve_all_unlocked app].
  - code_step. eapply critical_le; [|rw -(app_nil_r done); by apply (Hk [])]. cbn. lia.
  - apply Forall_cons in Hos as [Ho Hos]. code_step. cbn [length].
    replace (op_cost * S (length os) + n)%nat with (op_cost + (op_cost * length os + n))%nat by lia.
    apply serve_unlocked_ok; [done..|]. intros a v1 h1 Hr1 Hf1. code_step. apply IH; [done..|].
    intros answers v2 h2 Hl Hr2 Hf2. code_step. rw -app_assoc. apply (Hk (a :: answers)); [cbn; lia|done..].
Qed.

Context (Hkeep : free_func = NULL -> forall l, destroyed [] ⊢ destroyed l).
Context (Hdestroy : free_func <> NULL -> forall l d, {{ destroyed l }} call_destroy free_func d {{ _b, destroyed (l ++ [d]) }}).

Lemma destroying_runs {B} n m gone res P (Q : B -> assertion) (c : prog B) h k :
  (P ⊢ wp c Q) -> at_heap P h -> (n < m)%nat ->
  (forall b h', at_heap (Q b) h' -> destroying q gone res n h' (k b)) -> destroying q gone res m h (run c ≫= k).
Proof. intros [Hc] HP Hm Hk. eapply destroying_run; [done|apply code_trigger_bind|by apply Hc|done]. Qed.

Lemma destroying_le n m gone res h t : (n <= m)%nat -> destroying q gone res n h t -> destroying q gone res m h t.
Proof.
  intros Hm Hd. destruct Hd.
  - by eapply (destroying_ret _ _ _ _ n); [lia|..].
  - eapply destroying_tau; [|done..]; lia.
  - eapply destroying_run; [|done..]; lia.
  - eapply destroying_clear_mutex; [|done..]; lia.
  - eapply destroying_clear_cond; [|done..]; lia.
Qed.

(** The members of the queue that nobody else refers to; the mutex and the
    condition variable may have been cleared. *)
Definition last_one (live_m live_c : bool) (r : list Z) : assertion :=
  (protected r 0 ∗ ref_count_of q ↦ Word 0 ∗ mutex_of q ↦ Mutex live_m ∗ cond_of q ↦ Cond live_c)%I.
Definition last_empty : assertion :=
  (q ↦ AsyncQueue (XAsyncQueue free_func 0) ∗ queue_at (queue_of q) [] ∗ ref_count_of q ↦ Word 0 ∗
   mutex_of q ↦ Mutex false ∗ cond_of q ↦ Cond false)%I.

Lemma clear_queue_ok r : {{ last_one false false r }} g_queue_clear (queue_of q) {{ _b, last_empty }}.
Proof.
  iIntros "[[Hq (%l & %El & Hl)] Hc]". iApply wp_wand. iSplitL "Hl"; [by iApply queue_clear_ok|].
  iIntros (_) "Hl". iFrame.
Qed.

Lemma g_free_ok : {{ last_empty }} g_free q {{ _b, emp }}.
Proof. iIntros "(Hq & [Hl _] & Hc & Hm & Hv)". unfold g_free, queue_cell. wp_steps. done. Qed.

Lemma foreach_queue_ok r :
  free_func <> NULL ->
  {{ last_one false false r ∗ destroyed [] }} g_queue_foreach (queue_of q) (call_destroy free_func)
  {{ _b, last_one false false r ∗ destroyed (rev r) }}.
Proof.
  intros Hne. iIntros "[[[Hq (%l & %El & Hl)] Hc] HS]". iApply wp_wand. iSplitL "Hl HS".
  - iApply (queue_foreach_ok (call_destroy free_func) destroyed (Hdestroy Hne)). iFrame.
  - iIntros (_) "[Hl HS]". rw El. by iFrame.
Qed.

(** The end of the destruction: the queue is emptied and its block freed. *)
Lemma destroy_rest_ok r res h (k : unit -> code (list reply)) :
  k tt ≅ Ret res -> at_heap (last_one false false r ∗ destroyed (rev r))%I h ->
  destroying q (destroyed (rev r)) res 4 h ((run (g_queue_clear (queue_of q));; run (g_free q)) ≫= k).
Proof.
  intros Hk Hh. code_step.
  eapply (destroying_runs 3 _ _ _ _ (fun _ => last_empty ∗ destroyed (rev r))%I); [|exact Hh|lia|].
  { iIntros "[Hq HS]". iApply wp_wand. iSplitL "Hq"; [by iApply clear_queue_ok|]. iIntros (_) "Hq". iFrame. }
  intros [] h4 Hh4.
  eapply (destroying_runs 2 _ _ _ _ (fun _ => destroyed (rev r))); [|exact Hh4|lia|].
  { iIntros "[Hq HS]". iApply wp_wand. iSplitL "Hq"; [by iApply g_free_ok|]. by iIntros (_) "_". }
  intros [] h5 Hh5. by eapply (destroying_ret _ _ _ _ 1); [lia|exact Hk|].
Qed.

Lemma destroy_ok r res h (k : unit -> code (list reply)) :
  at_heap (protected r 0 ∗ members 0 ∗ destroyed [])%I h -> k tt ≅ Ret res ->
  destroying q (destroyed (rev r)) res 9 h
    ((waiting ← run (get_waiting q);
      check (waiting =? 0) "queue->waitinxthreads == 0" tt (
      g_mutex_clear;;
      g_cond_clear;;
      item_free_func ← run (get_free_func q);
      (if negb (item_free_func =? NULL)
       then run (g_queue_foreach (queue_of q) (call_destroy item_free_func)) else mret tt);;
      run (g_queue_clear (queue_of q));;
      run (g_free q))) ≫= k).
Proof.
  intros Hh Hk. code_step.
  eapply (destroying_runs 8 _ _ _ (last_one true true r ∗ destroyed [])%I (fun w => (⌜w = 0⌝ ∧ last_one true true r ∗ destroyed [])%I)); [|
    by eapply entails_at; [|exact Hh]; iIntros "(? & (? & ? & ?) & ?)"; iFrame|lia|].
  { iIntros "[[[Hq Hl] Hc] HS]". wp_steps. cbn [aq_waitinxthreads]. iSplit; [done|]. iFrame. }
  intros w h1 [-> Hh1]%at_and. cbn [Z.eqb]. rw check_ok //. code_step.
  eapply (destroying_clear_mutex _ _ _ _ 7 _ _ _ (protected r 0 ∗ ref_count_of q ↦ Word 0 ∗ cond_of q ↦ Cond true ∗ destroyed [])%I); [lia|apply code_trigger_bind| |].
  { eapply entails_at; [|exact Hh1]. iIntros "[($ & $ & $ & $) $]". }
  intros h2 Hh2. cbv beta. code_step.
  eapply (destroying_clear_cond _ _ _ _ 6 _ _ _ (protected r 0 ∗ ref_count_of q ↦ Word 0 ∗ mutex_of q ↦ Mutex false ∗ destroyed [])%I); [lia|apply code_trigger_bind| |].
  { eapply entails_at; [|exact Hh2]. iIntros "($ & $ & $ & $ & $)". }
  intros h3 Hh3. cbv beta. code_step.
  eapply (destroying_runs 5 _ _ _ (last_one false false r ∗ destroyed [])%I (fun f => (⌜f = free_func⌝ ∧ last_one false false r ∗ destroyed [])%I)); [|
    by eapply entails_at; [|exact Hh3]; iIntros "($ & $ & $ & $ & $)"|lia|].
  { iIntros "[[[Hq Hl] Hc] HS]". wp_steps. cbn [aq_item_free_func]. iSplit; [done|]. iFrame. }
  intros f h4 [-> Hh4]%at_and. code_step.
  destruct (Z.eqb_spec free_func NULL) as [E|Hne]; cbn [negb].
  - code_step. eapply (destroying_le 4); [lia|]. apply destroy_rest_ok; [done|]. eapply entails_at; [|exact Hh4]. iIntros "[$ HS]". by iApply Hkeep.
  - eapply (destroying_runs 4 _ _ _ _ (fun _ => (last_one false false r ∗ destroyed (rev r))%I)); [by apply foreach_queue_ok|exact Hh4|lia|].
    intros [] h5 Hh5. by apply destroy_rest_ok.
Qed.

Lemma unref_ok n done (k : unit -> code (list reply)) :
  outside n false Keep [] done (k tt) -> (9 <= n)%nat -> k tt ≅ Ret done.*2 ->
  outside (S n) false Drop [] done (g_async_queue_unref call_destroy q ≫= k).
Proof.
  intros Hk Hn Hret. unfold g_async_queue_unref. rw check_ok; [|by apply not_null]. code_step.
  eapply (outside_drop _ _ _ _ _ _ n); [lia|apply code_trigger_bind| |].
  - cbv beta iota. by code_step.
  - intros r h Hh. eapply (destroying_le 9); [done|]. by apply destroy_ok.
Qed.

(** ** The functions that lock *)

(** What holds for every call: how often it may run, and what it does. *)
Definition takes_mutex (c : call) : bool := match c with Call _ | Session _ _ => true | _ => false end.
Definition effect_of (c : call) : effect := match c with Ref => Gain | Unref | Session _ true => Drop | _ => Keep end.
Definition call_ok (c : call) : Prop := Forall op_ok (ops_of c).
Definition call_cost (c : call) : nat := 13 + op_cost * length (ops_of c).

Ltac code_eq := repeat setoid_rewrite code_bind_bind; repeat setoid_rewrite code_ret_bind; try reflexivity.

Lemma locked_ok o (c : code reply) t :
  op_ok o -> does o id c -> t ≅ (g_mutex_lock;; b ← c; g_mutex_unlock;; mret [b]) ->
  outside (4 + op_cost) true Keep [o] [] t.
Proof.
  intros Ho Hc Ht. eapply outside_proper; [exact Ht|].
  eapply (outside_lock _ _ _ _ _ _ (3 + op_cost)); [lia|apply code_trigger_bind|].
  intros v h Hr Hf. cbv beta. replace (3 + op_cost)%nat with (op_cost + 3)%nat by lia. apply Hc; [done..|].
  intros b v1 h1 Hr1 Hf1. eapply (critical_unlock _ _ _ _ _ _ 2); [lia|apply code_trigger_bind|done|].
  by eapply (outside_ret _ _ _ _ _ _ 1); [lia|].
Qed.

(** The two kinds of pops that read the clocks before they lock. *)
Lemma serve_timeout_ok timeout :
  op_ok (TimeoutPop timeout) -> outside (13 + op_cost) true Keep [TimeoutPop timeout] [] (a ← serve func q (TimeoutPop timeout); mret [a]).
Proof.
  intros Ho. cbn [serve]. unfold g_async_queue_timeout_pop. cbv zeta.
  do 2 code_step. eapply (outside_now _ _ _ _ _ _ (12 + op_cost)); [lia|apply code_trigger_bind|].
  intros now Hnow. cbv beta. rw check_ok; [|by apply not_null].
  assert (does (TimeoutPop timeout) id (v ← g_async_queue_pop_intern_unlocked q true (i64 (now + timeout)); mret (Data v))) as Hd.
  { apply does_map. apply (does_pop _ _ _ (mode_timeout timeout _ (end_time_ok _ _ Hnow Ho))). }
  eapply outside_le; [|eapply (locked_ok _ _ _ Ho Hd)]; [lia|by code_eq].
Qed.

Lemma serve_until_ok tv :
  op_ok (TimedPop (Some tv)) -> outside (13 + op_cost) true Keep [TimedPop (Some tv)] [] (a ← serve func q (TimedPop (Some tv)); mret [a]).
Proof.
  intros Ho. cbn [serve]. unfold g_async_queue_timed_pop. rw check_ok; [|by apply not_null]. cbn [monotonic_end_time].
  do 3 code_step. eapply (outside_now _ _ _ _ _ _ (12 + op_cost)); [lia|apply code_trigger_bind|]. intros now Hnow. cbv beta. code_step.
  eapply (outside_wall _ _ _ _ _ _ (11 + op_cost)); [lia|apply code_trigger_bind|]. intros wall Hwall. cbv beta. code_step.
  destruct (until_ok now wall tv Hnow Hwall Ho) as (B1 & B2 & B3 & B4 & Hpos).
  eapply (outside_pure _ _ _ _ _ _ (10 + op_cost)); [lia|apply code_trigger_bind|intros m; by apply sint64_pure|]. cbv beta. code_step.
  eapply (outside_pure _ _ _ _ _ _ (9 + op_cost)); [lia|apply code_trigger_bind|intros m; by apply sint64_pure|]. cbv beta. code_step.
  eapply (outside_pure _ _ _ _ _ _ (8 + op_cost)); [lia|apply code_trigger_bind|intros m; by apply sint64_pure|]. cbv beta.
  eapply (outside_pure _ _ _ _ _ _ (7 + op_cost)); [lia|apply code_trigger_bind|intros m; by apply sint64_pure|]. cbv beta.
  set (until := now + _) in *.
  assert (does (TimedPop (Some tv)) id (v ← g_async_queue_pop_intern_unlocked q true until; mret (Data v))) as Hd.
  { apply does_map. by apply (does_pop _ _ _ (mode_until tv until Hpos)). }
  eapply outside_le; [|eapply (locked_ok _ _ _ Ho Hd)]; [lia|by code_eq].
Qed.

Lemma serve_one_ok o : op_ok o -> outside (13 + op_cost) true Keep [o] [] (a ← serve func q o; mret [a]).
Proof.
  intros Ho. assert (q <> NULL /\ op_ok o) as [Hq' Ho'] by done.
  assert (forall t, t ≅ (g_mutex_lock;; b ← serve_unlocked func q o; g_mutex_unlock;; mret [b]) ->
    outside (13 + op_cost) true Keep [o] [] t) as Hsame.
  { intros t Ht. eapply outside_le; [|eapply locked_ok; [done|apply serve_unlocked_ok|exact Ht]]. lia. }
  destruct o as [| | | | |timeout|[tv|]| | |]; [..|by apply serve_timeout_ok|by apply serve_until_ok| | | |].
  all: cbn [serve]; apply Hsame; cbn [serve_unlocked].
  all: unfold g_async_queue_push, g_async_queue_push_front, g_async_queue_push_sorted, g_async_queue_pop, g_async_queue_try_pop,
    g_async_queue_timed_pop, g_async_queue_remove, g_async_queue_sort, g_async_queue_length,
    g_async_queue_push_sorted_unlocked, g_async_queue_pop_unlocked, g_async_queue_try_pop_unlocked, monotonic_end_time,
    g_async_queue_timed_pop_unlocked, g_async_queue_length_unlocked, g_async_queue_sort_unlocked;
    rw ?check_ok; try (by apply not_null); by code_eq.
Qed.

Lemma serve_call_ok c :
  call_ok c -> outside (call_cost c) (takes_mutex c) (effect_of c) (ops_of c) [] (serve_call call_destroy func q c).
Proof.
  unfold call_ok, call_cost. intros Hc. destruct c as [o|os unref| |]; cbn [ops_of takes_mutex effect_of serve_call length] in *.
  - rw Nat.mul_1_r. apply serve_one_ok. by apply Forall_cons in Hc as [Ho _].
  - unfold g_async_queue_lock, g_async_queue_unlock, g_async_queue_unref_and_unlock. rw !check_ok; try by apply not_null.
    eapply (outside_lock _ _ _ _ _ _ (12 + op_cost * length os)); [lia|apply code_trigger_bind|].
    intros v h Hr Hf. cbv beta. rw Nat.add_comm.
    eapply (eq_ind (os ++ []) (fun todo => critical _ v h _ todo [] _)); [|apply app_nil_r].
    rw -(app_nil_r os) in Hf. apply serve_session_ok; [done..|]. intros answers v1 h1 Hl Hr1 Hf1. rw app_nil_l.
    assert ((zip os answers).*2 = answers) as Ez by (apply snd_zip; lia).
    destruct unref.
    + code_step. eapply (critical_unlock _ _ _ _ _ _ 11); [lia|apply code_trigger_bind|done|].
      eapply (outside_le 10); [lia|]. apply (unref_ok 9); [|lia|by rw Ez].
      by eapply (outside_ret _ _ _ _ _ _ 1); [lia|rw Ez].
    + eapply (critical_unlock _ _ _ _ _ _ 11); [lia|apply code_trigger_bind|done|].
      by eapply (outside_ret _ _ _ _ _ _ 1); [lia|rw Ez].
  - unfold g_async_queue_ref. rw check_ok; [|by apply not_null]. code_step.
    eapply (outside_gain _ _ _ _ _ _ 11); [lia|apply code_trigger_bind|]. cbv beta. code_step.
    by eapply (outside_ret _ _ _ _ _ _ 1); [lia|].
  - eapply (outside_le 11); [lia|]. apply (unref_ok 10); [|lia|done].
    by eapply (outside_ret _ _ _ _ _ _ 1); [lia|].
Qed.
End rules.
End ops.
