(* ===== verification/AsyncQueueInv.v ===== *)
(** * Queues between threads: the invariant of the machine

    A [world] says what the threads have done so far and who owns what; every
    step of the machine keeps it, and every turn makes the turns that are left
    fewer. *)

From iris.proofmode Require Import proofmode.
From ITree Require Import ITree ITreeFacts.
From S2P Require Import Prelude.
From S2P Require Import Heap.
From S2P Require Import DList.
From S2P Require Import DQueue.
From S2P Require Import DListSpec.
From S2P Require Import DQueueOps.
From S2P Require Import Threads.
From S2P Require Import AsyncQueue.
From S2P Require Import AsyncQueueSpec.
From S2P Require Import AsyncQueueOps.
Local Open Scope Z_scope.
Local Open Scope xpl_scope.

(** ** Clients *)

Definition all_ops (cs : list call) : list op := concat (map ops_of cs).
Definition after (eff : effect) (refs : nat) : nat :=
  match eff with Keep => refs | Gain => S refs | Drop => pred refs end.
(** A thread has a reference at every call, and none at the end. *)
Fixpoint balanced (refs : nat) (cs : list call) : Prop :=
  match cs with
  | [] => refs = O
  | c :: cs => (0 < refs)%nat /\ balanced (after (effect_of c) refs) cs
  end.
(** Operations and references that calls ask for. *)
Definition gains (eff : effect) : nat := match eff with Gain => 1 | _ => 0 end.
Fixpoint work (cs : list call) : nat :=
  match cs with [] => O | c :: cs => (length (ops_of c) + gains (effect_of c) + work cs)%nat end.
(** What a thread did, out of what all did. *)
Definition done_by (i : nat) (hist : list (nat * (op * reply))) : list (op * reply) :=
  (filter (fun e => e.1 = i) hist).*2.

Lemma done_by_app i h1 h2 : done_by i (h1 ++ h2) = done_by i h1 ++ done_by i h2.
Proof. unfold done_by. by rw filter_app fmap_app. Qed.
Lemma done_by_mine i e : done_by i [(i, e)] = [e].
Proof. unfold done_by. by rw filter_cons_True. Qed.
Lemma done_by_other i j e : i <> j -> done_by j [(i, e)] = [].
Proof. intros Hne. unfold done_by. by rw filter_cons_False. Qed.

(** The operations one after the other. *)
Inductive fifo_run (func : Z -> Z -> Z) (n_threads : nat) : list (op * reply) -> list Z -> Prop :=
| fifo_start : fifo_run func n_threads [] []
| fifo_next es o a r r' :
    fifo_run func n_threads es r -> fifo_step func n_threads o a r r' -> fifo_run func n_threads (es ++ [(o, a)]) r'.

(** Sums over the threads. *)
Definition count {A} (p : A -> bool) (l : list A) : nat := sum_list_with (fun x => Nat.b2n (p x)) l.

Lemma sum_list_with_insert {A} (f : A -> nat) l i x y :
  l !! i = Some x -> (sum_list_with f (<[i:=y]> l) + f x = sum_list_with f l + f y)%nat.
Proof.
  revert i. induction l as [|z l IH]; intros [|i] Hi; try done.
  - injection Hi as ->. cbn. lia.
  - specialize (IH i Hi). change (<[S i:=y]> (z :: l)) with (z :: <[i:=y]> l). cbn [sum_list_with]. lia.
Qed.
Lemma sum_list_with_lookup {A} (f : A -> nat) l i x : l !! i = Some x -> (f x <= sum_list_with f l)%nat.
Proof.
  revert i. induction l as [|z l IH]; intros [|i] Hi; cbn in Hi |- *; try done.
  - injection Hi as ->. lia.
  - specialize (IH i Hi). lia.
Qed.
Lemma count_le {A} (p : A -> bool) l : (count p l <= length l)%nat.
Proof. induction l as [|x l IH]; cbn; [done|]. unfold count in IH. destruct (p x); cbn; lia. Qed.
Lemma count_insert {A} (p : A -> bool) l i x y :
  l !! i = Some x -> (count p (<[i:=y]> l) + Nat.b2n (p x) = count p l + Nat.b2n (p y))%nat.
Proof. apply (sum_list_with_insert (fun x => Nat.b2n (p x))). Qed.
Lemma alter_lookup {A} (f : A -> A) (l : list A) i x : l !! i = Some x -> alter f i l = <[i:=f x]> l.
Proof. revert i. induction l as [|y l IH]; intros [|i] Hi; cbn in *; try done; [by injection Hi as ->|by rw -IH]. Qed.

Section invariant.
Context `{Allocator} `{BlockAllocator} `{Hclocks : Clocks}.
Context (func : Z -> Z -> Z) (q free_func : Z).
Context (destroyed : list Z -> assertion) (rest : heap) (log : list string) (programs : list (list call)).
Abbreviation n_threads := (length programs).

Definition op_cost : nat := AsyncQueueOps.op_cost n_threads.
Fixpoint cost (cs : list call) : nat :=
  match cs with [] => O | c :: cs => (call_cost n_threads c + 2 + cost cs)%nat end.

Abbreviation outside := (outside func q free_func n_threads destroyed).
Abbreviation critical := (critical func q free_func n_threads destroyed).
Abbreviation parked := (parked func q free_func n_threads destroyed).
Abbreviation back := (back q free_func).
Abbreviation released := (released q free_func).
Abbreviation turn := (turn (mutex_of q) (cond_of q)).
Abbreviation undefined_next := (undefined_next (mutex_of q) (cond_of q)).
Abbreviation machine := (machine call reply).
Abbreviation thread := (thread call reply).

(** What a thread holds: references, turns it may still take, operations and
    references that are still to come. *)
Record info := Info { refs : nat; turns : nat; left_work : nat }.

(** Who owns the queue: nobody, the thread with the mutex, the thread that dropped
    the last reference; in the end it is gone. *)
Inductive ownership := Free | Held (i : nat) | Dying (i : nat) | Gone.
Definition owner_of (o : ownership) : option nat := match o with Held i | Dying i => Some i | _ => None end.

(** In the middle of a call: [cs] are the calls after it. *)
Record in_call (prog : list call) (mine : list (op * reply)) (th : thread) (inf : info)
    (eff : effect) (todo : list op) (cur : list (op * reply)) (cs : list call) : Prop := {
  call_calls : exists c, calls th = c :: cs /\ ops_of c = cur.*1 ++ todo;
  call_mine : exists past, mine = past ++ cur /\ answers th = past.*2 /\
    all_ops prog = past.*1 ++ cur.*1 ++ todo ++ all_ops cs;
  call_refs : balanced (after eff (refs inf)) cs;
  call_oks : Forall call_ok cs;
  call_left : left_work inf = (length todo + gains eff + work cs)%nat
}.

(** A thread that does not own the queue. *)
Inductive quiet (prog : list call) (mine : list (op * reply)) (th : thread) (inf : info) : Prop :=
| quiet_idle :
    status_of th = Idle -> answers th = mine.*2 -> all_ops prog = mine.*1 ++ all_ops (calls th) ->
    balanced (refs inf) (calls th) -> Forall call_ok (calls th) -> turns inf = cost (calls th) ->
    left_work inf = work (calls th) -> quiet prog mine th inf
| quiet_running t n locks eff todo cur cs :
    status_of th = Running t -> in_call prog mine th inf eff todo cur cs ->
    outside n locks eff todo cur t -> (locks = true \/ eff <> Keep -> 0 < refs inf)%nat ->
    turns inf = (n + 1 + cost cs)%nat -> quiet prog mine th inf
| quiet_sleeping u k n eff todo cur cs :
    status_of th = Sleeping u k -> in_call prog mine th inf eff todo cur cs ->
    parked n u eff todo cur k -> (0 < refs inf)%nat ->
    turns inf = (n + 1 + cost cs)%nat -> quiet prog mine th inf
| quiet_woken k b u n eff todo cur cs :
    status_of th = Woken k b -> in_call prog mine th inf eff todo cur cs ->
    parked n u eff todo cur k -> (b = false -> u <> None) -> (0 < refs inf)%nat ->
    turns inf = (n + wake_cost + 1 + cost cs)%nat -> quiet prog mine th inf.

(** The thread with the mutex. *)
Inductive holding (v : view) (h : heap) (prog : list call) (mine : list (op * reply)) (th : thread) (inf : info) : Prop :=
| holding_critical t n eff todo cur cs :
    status_of th = Running t -> in_call prog mine th inf eff todo cur cs ->
    critical n v h eff todo cur t -> (0 < refs inf)%nat ->
    turns inf = (n + 1 + cost cs)%nat -> holding v h prog mine th inf
| holding_back t u k n m eff todo cur cs :
    status_of th = Running t -> in_call prog mine th inf eff todo cur cs ->
    items v = [] -> back u k v m h t -> parked n u eff todo cur k -> (0 < refs inf)%nat ->
    turns inf = (n + m + 1 + cost cs)%nat -> holding v h prog mine th inf.

(** The thread that destroys the queue. *)
Definition dying (v : view) (h : heap) (prog : list call) (mine : list (op * reply)) (th : thread) (inf : info) : Prop :=
  exists t n cur, status_of th = Running t /\ in_call prog mine th inf Keep [] cur [] /\
    destroying q (destroyed (rev (items v))) cur.*2 n h t /\ refs inf = O /\ turns inf = (n + 1)%nat.

Record world := World {
  hist : list (nat * (op * reply));
  shared : view;
  owned : heap;
  apart : heap;
  infos : list info;
  owner : ownership
}.

Definition thread_ok (w : world) (i : nat) (prog : list call) (th : thread) (inf : info) : Prop :=
  let mine := done_by i (hist w) in
  match owner w with
  | Held j => if decide (i = j) then holding (shared w) (owned w) prog mine th inf else quiet prog mine th inf
  | Dying j => if decide (i = j) then dying (shared w) (owned w) prog mine th inf else quiet prog mine th inf
  | _ => quiet prog mine th inf
  end.

(** What lies beside the protected part while the queue lives. *)
Definition beside (n : nat) : assertion := (members q (Z.of_nat n) ∗ destroyed [])%I.
Definition total (f : info -> nat) (l : list info) : nat := sum_list_with f l.

Definition owner_ok (w : world) (c : machine) : Prop :=
  match owner w with
  | Free => mutex c = None /\ released (shared w) (owned w) /\ at_heap (beside (total refs (infos w))) (apart w) /\ (0 < total refs (infos w))%nat
  | Held i => mutex c = Some i /\ at_heap (beside (total refs (infos w))) (apart w) /\ (i < n_threads)%nat
  | Dying i => mutex c = None /\ apart w = ∅ /\ total refs (infos w) = O /\ (i < n_threads)%nat
  | Gone => mutex c = None /\ apart w = ∅ /\ total refs (infos w) = O /\ at_heap (destroyed (rev (items (shared w)))) (owned w)
  end.

(** The world may be ahead of the machine by the wake-ups of a signal that are due. *)
Record inv (due : nat) (w : world) (c : machine) : Prop := {
  inv_hist : fifo_run func n_threads (hist w).*2 (items (shared w));
  inv_mem : mem c = Memory (owned w ∪ (apart w ∪ rest)) log;
  inv_disjoint : owned w ##ₘ apart w /\ owned w ##ₘ rest /\ apart w ##ₘ rest;
  inv_clock : clock_ok (monotonic c) /\ wall_ok (real c);
  inv_length : length (threads c) = n_threads /\ length (infos w) = n_threads;
  inv_left : Z.of_nat (length (hist w) + total refs (infos w) + total left_work (infos w)) < 2 ^ 31;
  inv_sleeping : (sleeping (shared w) + due)%nat = count is_sleeping (threads c);
  inv_woken : woken (shared w) = (count is_woken (threads c) + due)%nat;
  inv_threads : forall i prog th inf, programs !! i = Some prog -> threads c !! i = Some th -> infos w !! i = Some inf ->
    thread_ok w i prog th inf;
  inv_owner : owner_ok w c
}.

(** ** Waking up *)

(** A sleeper that wakes up counts as such. *)
Definition wakes (v : view) : view := View (items v) (sleeping v - 1) (S (woken v)).

Lemma released_wakes v h : (0 < sleeping v)%nat -> released v h -> released (wakes v) h.
Proof.
  intros Hs [H1 H2 H3]. split; cbn; [|done|lia].
  by replace (sleeping v - 1 + S (woken v))%nat with (sleeping v + woken v)%nat by lia.
Qed.

Lemma released_sleeps v h :
  (0 < sleeping v)%nat -> released (View [] (S (sleeping v)) (woken v)) h ->
  released (View [] (S (sleeping (wakes v))) (woken (wakes v))) h.
Proof.
  intros Hs [H1 H2 H3]. cbn in *. split; cbn; [|done|lia].
  by replace (sleeping v - 1 + S (woken v))%nat with (sleeping v + woken v)%nat by lia.
Qed.

Lemma critical_wakes n v h eff todo cur t :
  critical n v h eff todo cur t -> (0 < sleeping v)%nat -> critical n (wakes v) h eff todo cur t.
Proof.
  intros Hc. induction Hc; intros Hs.
  - eapply critical_tau; eauto.
  - eapply critical_now; eauto.
  - eapply critical_wall; eauto.
  - eapply critical_run; eauto.
  - eapply critical_op; [done|]. by apply IHHc.
  - eapply critical_signal; [done..|]. cbn. intros s Hs1 Hs2.
    replace (sleeping v - 1 - s)%nat with (sleeping v - S s)%nat by lia.
    replace (S (woken v + s))%nat with (woken v + S s)%nat by lia. apply H3; lia.
  - eapply critical_unlock; [done..| |done]. by apply released_wakes.
  - eapply critical_wait; [done..| |done]. by apply released_sleeps.
Qed.

Lemma back_wakes u k v n h t : back u k v n h t -> (0 < sleeping v)%nat -> back u k (wakes v) n h t.
Proof.
  intros Hb. induction Hb; intros Hs.
  - eapply back_wait; [done..|]. by apply released_sleeps.
  - eapply back_tau; eauto.
  - eapply back_run; eauto.
Qed.

(** ** Changing one thread *)

Definition others (i : nat) (w w' : world) : Prop :=
  (owner w' = owner w /\ shared w' = shared w /\ owned w' = owned w /\ owner_of (owner w) <> Some i) \/
  ((owner_of (owner w) = None \/ owner_of (owner w) = Some i) /\ (owner_of (owner w') = None \/ owner_of (owner w') = Some i)).

Lemma thread_ok_quiet w i prog th inf :
  owner_of (owner w) <> Some i -> thread_ok w i prog th inf <-> quiet prog (done_by i (hist w)) th inf.
Proof.
  intros Ho. unfold thread_ok. destruct (owner w) as [|j|j|]; cbn in Ho; try done; by rw decide_False; [|naive_solver].
Qed.

Lemma thread_ok_others i w w' es j prog th inf :
  others i w w' -> hist w' = hist w ++ map (pair i) es -> j <> i ->
  thread_ok w j prog th inf -> thread_ok w' j prog th inf.
Proof.
  intros Ho Hh Hne Hth. assert (done_by j (hist w') = done_by j (hist w)) as Ed.
  { rw Hh done_by_app. assert (done_by j (map (pair i) es) = []) as ->; [|by rw app_nil_r].
    clear -Hne. unfold done_by. induction es as [|e es IH]; [done|]. change (map (pair i) (e :: es)) with ((i, e) :: map (pair i) es). by rw filter_cons_False. }
  destruct Ho as [(Eo & Ev & Eh & _)|[H1 H2]].
  - unfold thread_ok in *. by rw Eo Ev Eh Ed.
  - apply thread_ok_quiet; [destruct H2 as [->| ->]; congruence|]. rw Ed.
    apply thread_ok_quiet; [destruct H1 as [->| ->]; congruence|done].
Qed.

Lemma inv_change due due' w c i prog th inf th' inf' es v' h' a' own' now' wall' mu' :
  inv due w c -> programs !! i = Some prog -> threads c !! i = Some th -> infos w !! i = Some inf ->
  let w' := World (hist w ++ map (pair i) es) v' h' a' (<[i:=inf']> (infos w)) own' in
  let c' := Machine (Memory (h' ∪ (a' ∪ rest)) log) now' wall' mu' (<[i:=th']> (threads c)) in
  fifo_run func n_threads (hist w').*2 (items v') ->
  h' ##ₘ a' /\ h' ##ₘ rest /\ a' ##ₘ rest -> clock_ok now' /\ wall_ok wall' ->
  (length es + refs inf' + left_work inf' <= refs inf + left_work inf)%nat ->
  (sleeping v' + due' + Nat.b2n (is_sleeping th) = sleeping (shared w) + due + Nat.b2n (is_sleeping th'))%nat ->
  (woken v' + due + Nat.b2n (is_woken th) = woken (shared w) + due' + Nat.b2n (is_woken th'))%nat ->
  others i w w' -> thread_ok w' i prog th' inf' -> owner_ok w' c' -> inv due' w' c'.
Proof.
  intros Hinv Hp Ht Hi w' c' Hrun Hd Hnow Hwork Hs Hwk Ho Hth Hown. destruct Hinv as [_ _ _ _ [L1 L2] Hl H1 H2 Hall _].
  split; try done; cbn -[count].
  - by rw !length_insert.
  - pose proof (sum_list_with_insert refs _ _ _ inf' Hi). pose proof (sum_list_with_insert left_work _ _ _ inf' Hi).
    unfold total in *. cbn. rw length_app length_map. lia.
  - pose proof (count_insert is_sleeping _ _ _ th' Ht). lia.
  - pose proof (count_insert is_woken _ _ _ th' Ht). lia.
  - intros j prog' th1 inf1 Hp' Ht' Hi'. destruct (decide (j = i)) as [->|Hne].
    + rw list_lookup_insert_eq in Ht'; [|by eapply lookup_lt_Some]. rw list_lookup_insert_eq in Hi'; [|by eapply lookup_lt_Some].
      injection Ht' as <-. injection Hi' as <-. by simplify_eq.
    + rw list_lookup_insert_ne // in Ht'. rw list_lookup_insert_ne // in Hi'.
      eapply thread_ok_others; [done|done|done|]. by apply Hall.
Qed.

Lemma total_change f l i inf inf' :
  l !! i = Some inf -> (total f (<[i:=inf']> l) + f inf = total f l + f inf')%nat.
Proof. apply sum_list_with_insert. Qed.

(** ** Turns *)

Context (call_destroy : Z -> Z -> prog unit).

Definition finished (th : thread) : Prop := status_of th = Idle /\ calls th = [].
(** A turn leads to another world, where the thread may have done more, and uses up turns, is defined, and is possible
    unless the thread is finished, asleep or waits for the mutex. *)
Definition good_turn (w : world) (c : machine) (i : nat) (th : thread) : Prop :=
  (forall woken c', turn (serve_call call_destroy func q) i woken c = Some c' ->
    exists w', inv 0 w' c' /\ (total turns (infos w') < total turns (infos w))%nat /\
      exists es, hist w' = hist w ++ map (pair i) es) /\
  undefined_next c i = false /\
  ((exists woken c', turn (serve_call call_destroy func q) i woken c = Some c') \/
   finished th \/ is_sleeping th = true \/ exists j, owner w = Held j /\ j <> i).

Lemma with_status_eq (c : machine) i th s :
  threads c !! i = Some th ->
  with_status i s c = Machine (mem c) (monotonic c) (real c) (mutex c) (<[i := Thread (calls th) (answers th) s]> (threads c)).
Proof. intros Ht. unfold with_status. by rw (alter_lookup _ _ _ _ Ht). Qed.

Lemma inv_quiet due w c i prog th inf th' inf' :
  inv due w c -> programs !! i = Some prog -> threads c !! i = Some th -> infos w !! i = Some inf ->
  owner_of (owner w) <> Some i -> quiet prog (done_by i (hist w)) th' inf' ->
  refs inf' = refs inf -> (left_work inf' <= left_work inf)%nat ->
  is_sleeping th' = is_sleeping th -> is_woken th' = is_woken th ->
  inv due (World (hist w) (shared w) (owned w) (apart w) (<[i:=inf']> (infos w)) (owner w))
    (Machine (mem c) (monotonic c) (real c) (mutex c) (<[i:=th']> (threads c))).
Proof.
  intros Hinv Hp Ht Hi Ho Hq Hr Hl Es Ew. pose proof Hinv as [Hrun Hm Hd Hn _ _ _ _ _ Hown].
  rw Hm. rw -(app_nil_r (hist w)). eapply (inv_change due due w c i prog th inf th' inf' []); try done; cbn -[total].
  - by rw app_nil_r.
  - lia.
  - rw Es. lia.
  - rw Ew. lia.
  - by left.
  - apply thread_ok_quiet; [done|]. cbn. by rw app_nil_r.
  - unfold owner_ok in *. cbn -[total].
    assert (total refs (<[i:=inf']> (infos w)) = total refs (infos w)) as ->; [|done].
    pose proof (total_change refs _ i inf inf' Hi). lia.
Qed.

Lemma no_more i w w' : hist w' = hist w -> exists es, hist w' = hist w ++ map (pair i) es.
Proof. intros E. exists []. by rw E app_nil_r. Qed.

(** The turn of a thread that does something by itself. *)
Lemma good_quiet w c i prog th inf th' inf' :
  inv 0 w c -> programs !! i = Some prog -> threads c !! i = Some th -> infos w !! i = Some inf ->
  owner_of (owner w) <> Some i -> quiet prog (done_by i (hist w)) th' inf' ->
  refs inf' = refs inf -> (left_work inf' <= left_work inf)%nat ->
  is_sleeping th' = is_sleeping th -> is_woken th' = is_woken th -> (turns inf' < turns inf)%nat ->
  (forall woken, turn (serve_call call_destroy func q) i woken c =
    Some (Machine (mem c) (monotonic c) (real c) (mutex c) (<[i:=th']> (threads c)))) ->
  undefined_next c i = false -> good_turn w c i th.
Proof.
  intros Hinv Hp Ht Hi Ho Hq Hr Hl Es Ew Hc Hturn Hu. split; [|split; [done|left; exists []; by eexists]].
  intros woken c' Hc'. rw Hturn in Hc'. injection Hc' as <-. eexists. split; [by eapply inv_quiet|].
  split; [|by apply no_more]. pose proof (total_change turns _ i inf inf' Hi). cbn -[total]. lia.
Qed.

Context (Hfunc : forall x y, - 2 ^ 31 < func x y < 2 ^ 31) (Hthreads : Z.of_nat n_threads < 2 ^ 31) (Hq : q <> 0).
Context (Hkeep : free_func = NULL -> forall l, destroyed [] ⊢ destroyed l).
Context (Hdestroy : free_func <> NULL -> forall l d, {{ destroyed l }} call_destroy free_func d {{ _b, destroyed (l ++ [d]) }}).

Lemma undefined_running (c : machine) i (th : thread) t :
  threads c !! i = Some th -> status_of th = Running t ->
  undefined_next c i = match observe t with
    | VisF e _ => match e with
                  | Run p => match p (mem c) with None => true | _ => false end
                  | Lock => negb (live_mutex (mutex_of q) (mem c))
                  | Unlock => negb (live_mutex (mutex_of q) (mem c) && bool_decide (mutex c = Some i))
                  | Signal => negb (live_cond (cond_of q) (mem c))
                  | Wait _ => negb (live_mutex (mutex_of q) (mem c) && live_cond (cond_of q) (mem c) && bool_decide (mutex c = Some i))
                  | ClearMutex => negb (live_mutex (mutex_of q) (mem c) && bool_decide (mutex c = None))
                  | ClearCond => negb (live_cond (cond_of q) (mem c) && negb (existsb is_sleeping (threads c)))
                  | MonotonicTime | RealTime => false
                  end
    | _ => false
    end.
Proof. intros Ht Hs. unfold Threads.undefined_next. rw Ht. destruct th as [cs a s]. cbn in Hs. by rw Hs. Qed.
Lemma undefined_other (c : machine) i (th : thread) :
  threads c !! i = Some th -> status_of th = Idle \/ is_sleeping th = true -> undefined_next c i = false.
Proof.
  intros Ht Hs. unfold Threads.undefined_next, is_sleeping in *. rw Ht. destruct th as [cs a []]; try done; by destruct Hs.
Qed.
Lemma undefined_woken (c : machine) i (th : thread) k b :
  threads c !! i = Some th -> status_of th = Woken k b -> undefined_next c i = negb (live_mutex (mutex_of q) (mem c)).
Proof. intros Ht Hs. unfold Threads.undefined_next. rw Ht. destruct th as [cs a s]. cbn in Hs. by rw Hs. Qed.

Lemma good_idle w c i prog th inf :
  inv 0 w c -> programs !! i = Some prog -> threads c !! i = Some th -> infos w !! i = Some inf ->
  owner_of (owner w) <> Some i -> quiet prog (done_by i (hist w)) th inf -> status_of th = Idle -> good_turn w c i th.
Proof.
  intros Hinv Hp Ht Hi Ho Hqt Hs. destruct Hqt as [Hs' Ha Hops Hb Hok Htu Hle|?????????|?????????|?????????]; try congruence.
  destruct (calls th) as [|c0 cs] eqn:Ec.
  - assert (forall ws, turn (serve_call call_destroy func q) i ws c = None) as Hn.
    { intros ws. unfold Threads.turn. rw Ht /= Hs Ec. done. }
    split; [by intros ws c'; rw Hn|]. split; [eapply undefined_other; [done|by left]|]. right. left. done.
  - apply Forall_cons in Hok as [Hc0 Hok]. destruct Hb as [Hr Hb].
    eapply (good_quiet w c i prog th inf (Thread (c0 :: cs) (answers th) (Running (serve_call call_destroy func q c0)))
      (Info (refs inf) (call_cost n_threads c0 + 1 + cost cs) (left_work inf))); try done.
    + eapply (quiet_running _ _ _ _ _ (call_cost n_threads c0) (takes_mutex c0) (effect_of c0) (ops_of c0) [] cs); try done; cbn.
      * split; cbn; [by eexists| |done|done|]; [|rw Hle; cbn; lia].
        exists (done_by i (hist w)). rw app_nil_r. split; [done|]. split; [done|]. done.
      * by apply serve_call_ok.
    + unfold is_sleeping. by rw Hs.
    + unfold is_woken. by rw Hs.
    + rw Htu. cbn. lia.
    + intros ws. unfold Threads.turn. rw Ht /= Hs Ec. rw (with_status_eq _ _ _ _ Ht) Ec. done.
    + eapply undefined_other; [done|by left].
Qed.

(** The thread goes on in the same call. *)
Lemma in_call_status prog mine (th : thread) inf eff todo cur cs s n :
  in_call prog mine th inf eff todo cur cs ->
  in_call prog mine (Thread (calls th) (answers th) s) (Info (refs inf) n (left_work inf)) eff todo cur cs.
Proof. intros [H1 H2 H3 H4 H5]. by split. Qed.

Lemma good_silent w c i prog th inf t t' n' locks eff todo cur cs :
  inv 0 w c -> programs !! i = Some prog -> threads c !! i = Some th -> infos w !! i = Some inf ->
  owner_of (owner w) <> Some i -> status_of th = Running t ->
  in_call prog (done_by i (hist w)) th inf eff todo cur cs ->
  (locks = true \/ eff <> Keep -> 0 < refs inf)%nat -> (n' + 1 + cost cs < turns inf)%nat ->
  outside n' locks eff todo cur t' ->
  (forall woken, turn (serve_call call_destroy func q) i woken c = Some (with_status i (Running t') c)) ->
  undefined_next c i = false -> good_turn w c i th.
Proof.
  intros Hinv Hp Ht Hi Ho Hs Hc Hr Htu Ho' Hturn Hu.
  eapply (good_quiet w c i prog th inf (Thread (calls th) (answers th) (Running t')) (Info (refs inf) (n' + 1 + cost cs) (left_work inf))); try done.
  - by eapply quiet_running; [done|by apply in_call_status|..].
  - unfold is_sleeping. by rw Hs.
  - unfold is_woken. by rw Hs.
  - intros ws. by rw Hturn (with_status_eq _ _ _ _ Ht).
Qed.

Lemma good_return w c i prog th inf t n cur cs :
  inv 0 w c -> programs !! i = Some prog -> threads c !! i = Some th -> infos w !! i = Some inf ->
  owner_of (owner w) <> Some i -> status_of th = Running t ->
  in_call prog (done_by i (hist w)) th inf Keep [] cur cs -> turns inf = (n + 1 + cost cs)%nat ->
  observe t = RetF cur.*2 -> good_turn w c i th.
Proof.
  intros Hinv Hp Ht Hi Ho Hs Hc Htu Hob. destruct Hc as [(c0 & Ec & _) (past & Em & Ea & Eo) Hb Hok Hl]. cbn in Hb.
  eapply (good_quiet w c i prog th inf (Thread cs (answers th ++ cur.*2) Idle) (Info (refs inf) (cost cs) (work cs))); try done.
  - eapply quiet_idle; try done; cbn; [by rw Em Ea fmap_app|by rw Em fmap_app Eo -app_assoc].
  - cbn. rw Hl. cbn. lia.
  - unfold is_sleeping. by rw Hs.
  - unfold is_woken. by rw Hs.
  - cbn. lia.
  - intros ws. unfold Threads.turn. by rw Ht /= Hs Hob Ec.
  - rw (undefined_running _ _ _ _ Ht Hs). by rw Hob.
Qed.

(** ** The memory *)

Lemma run_frame {B} (Q : B -> assertion) (p : prog B) h rest' :
  at_heap (wp p Q) h -> h ##ₘ rest' ->
  exists b h', p (Memory (h ∪ rest') log) = Some (b, Memory (h' ∪ rest') log) /\ h' ##ₘ rest' /\ at_heap (Q b) h'.
Proof. intros Hp Hd. exact (Hp rest' log Hd). Qed.

Lemma run_owned {B} w c (Q : B -> assertion) (p : prog B) due :
  inv due w c -> at_heap (wp p Q) (owned w) ->
  exists b h', p (mem c) = Some (b, Memory (h' ∪ (apart w ∪ rest)) log) /\
    (h' ##ₘ apart w /\ h' ##ₘ rest /\ apart w ##ₘ rest) /\ at_heap (Q b) h'.
Proof.
  intros Hinv Hp. destruct Hinv as [_ Hm (D1 & D2 & D3) _ _ _ _ _ _ _].
  destruct (run_frame Q p _ (apart w ∪ rest) Hp) as (b & h' & E & Hd & HQ); [by apply map_disjoint_union_r|].
  exists b, h'. rw Hm. split; [done|]. by apply map_disjoint_union_r in Hd as [].
Qed.

Lemma run_apart {B} w c P (Q : B -> assertion) (p : prog B) due :
  inv due w c -> (P ⊢ wp p Q) -> at_heap P (apart w) ->
  exists b a', p (mem c) = Some (b, Memory (owned w ∪ (a' ∪ rest)) log) /\
    (owned w ##ₘ a' /\ owned w ##ₘ rest /\ a' ##ₘ rest) /\ at_heap (Q b) a'.
Proof.
  intros Hinv [Hp] HP. destruct Hinv as [_ Hm (D1 & D2 & D3) _ _ _ _ _ _ _].
  destruct (run_frame Q p (apart w) (owned w ∪ rest) (Hp _ HP)) as (b & a' & E & Hd & HQ);
    [by apply map_disjoint_union_r|].
  apply map_disjoint_union_r in Hd as [Hd1 Hd2]. exists b, a'. rw Hm.
  rw !map_union_assoc (map_union_comm (owned w) (apart w)) // -map_union_assoc E.
  by rw (map_union_comm (owned w) a') // -map_union_assoc.
Qed.

(** The mutex and the condition variable are there as long as somebody has a
    reference. *)
Lemma members_live n (w : world) c due :
  inv due w c -> at_heap (beside n) (apart w) ->
  live_mutex (mutex_of q) (mem c) = true /\ live_cond (cond_of q) (mem c) = true.
Proof.
  intros Hinv Hb. destruct Hinv as [_ Hm (D1 & D2 & D3) _ _ _ _ _ _ _].
  assert (forall p o (P : assertion), (beside n ⊢ p ↦ o ∗ P) -> cells (mem c) !! p = Some o) as Hlook.
  { intros p o P [HP]. destruct (HP _ Hb) as (h1 & h2 & E & D & [-> _] & _). rw Hm E. cbn [cells].
    rw E in D1. apply map_disjoint_union_r in D1 as [D1 _].
    rw lookup_union_r; [|by eapply map_disjoint_Some_r; [done|apply lookup_singleton_eq]].
    rw -map_union_assoc. apply lookup_union_Some_l, lookup_singleton_eq. }
  unfold live_mutex, live_cond. split.
  - rw (Hlook (mutex_of q) (Mutex true) (ref_count_of q ↦ Word (Z.of_nat n) ∗ cond_of q ↦ Cond true ∗ destroyed [])%I); [done|].
    iIntros "[($ & $ & $) $]".
  - rw (Hlook (cond_of q) (Cond true) (ref_count_of q ↦ Word (Z.of_nat n) ∗ mutex_of q ↦ Mutex true ∗ destroyed [])%I); [done|].
    iIntros "[($ & $ & $) $]".
Qed.

Lemma inc_beside n : Z.of_nat n + 1 < 2 ^ 31 -> {{ beside n }} g_atomic_int_inc (ref_count_of q) {{ _b, beside (S n) }}.
Proof.
  intros Hn. iIntros "[(Hc & Hm & Hv) HS]". unfold g_atomic_int_inc. wp_steps. rw i32_small; [|lia].
  replace (Z.of_nat n + 1) with (Z.of_nat (S n)) by lia. iFrame.
Qed.
Lemma dec_beside n : Z.of_nat n + 1 < 2 ^ 31 ->
  {{ beside (S n) }} g_atomic_int_dec_and_test (ref_count_of q) {{ b, ⌜b = (n =? 0)%nat⌝ ∧ beside n }}.
Proof.
  intros Hn. iIntros "[(Hc & Hm & Hv) HS]". unfold g_atomic_int_dec_and_test. wp_steps.
  rw i32_small; [|lia]. replace (Z.of_nat (S n) - 1) with (Z.of_nat n) by lia. iSplit; [|iFrame].
  iPureIntro. by destruct n.
Qed.

(** ** Counting *)

Lemma refs_alive w c i inf due : inv due w c -> infos w !! i = Some inf -> (0 < refs inf)%nat ->
  (owner w = Free /\ mutex c = None) \/ exists j, owner w = Held j /\ mutex c = Some j.
Proof.
  intros Hinv Hi Hr. destruct Hinv as [_ _ _ _ _ _ _ _ _ Ho]. unfold owner_ok in Ho.
  pose proof (sum_list_with_lookup refs _ _ _ Hi). unfold total in Ho.
  destruct (owner w); naive_solver lia.
Qed.

Lemma refs_beside w c i inf due : inv due w c -> infos w !! i = Some inf -> (0 < refs inf)%nat ->
  at_heap (beside (total refs (infos w))) (apart w).
Proof.
  intros Hinv Hi Hr. destruct (refs_alive _ _ _ _ _ Hinv Hi Hr) as [[E _]|(j & E & _)];
    destruct Hinv as [_ _ _ _ _ _ _ _ _ Ho]; unfold owner_ok in Ho; rw E in Ho; apply Ho.
Qed.

Lemma refs_live w c i inf due : inv due w c -> infos w !! i = Some inf -> (0 < refs inf)%nat ->
  live_mutex (mutex_of q) (mem c) = true /\ live_cond (cond_of q) (mem c) = true.
Proof. intros Hinv Hi Hr. eapply members_live; [done|by eapply refs_beside]. Qed.

(** An atomic operation on the references. *)
Lemma good_gain w c i prog th inf t k n' cur cs :
  inv 0 w c -> programs !! i = Some prog -> threads c !! i = Some th -> infos w !! i = Some inf ->
  owner_of (owner w) <> Some i -> status_of th = Running t ->
  in_call prog (done_by i (hist w)) th inf Gain [] cur cs ->
  (0 < refs inf)%nat -> (n' + 1 + cost cs < turns inf)%nat ->
  observe t = VisF (Run (g_atomic_int_inc (ref_count_of q))) k -> outside n' false Keep [] cur (k tt) ->
  good_turn w c i th.
Proof.
  intros Hinv Hp Ht Hi Ho Hs Hc Hr Htu Hob Hk. pose proof Hinv as [Hrun Hm _ Hnow _ Hbud Hsl Hwk _ _].
  pose proof (sum_list_with_lookup left_work _ _ _ Hi). pose proof (call_left _ _ _ _ _ _ _ _ Hc) as Hl. cbn in Hl.
  destruct (run_apart w c (beside (total refs (infos w))) (fun _ => beside (S (total refs (infos w)))) (g_atomic_int_inc (ref_count_of q)) 0)
    as ([] & a' & E & Hd & Ha); [done| |by eapply refs_beside|].
  { apply inc_beside. unfold total in *. lia. }
  assert (forall ws, turn (serve_call call_destroy func q) i ws c = Some (with_status i (Running (k tt))
    (with_mem (Memory (owned w ∪ (a' ∪ rest)) log) c))) as Hturn.
  { intros ws. unfold Threads.turn. rw Ht /= Hs Hob /= E. done. }
  split; [|split; [rw (undefined_running _ _ _ _ Ht Hs) Hob; by rw E|left; exists []; by eexists]].
  intros ws c' Hc'. rw Hturn (with_status_eq (with_mem _ c) i th) // in Hc'. injection Hc' as <-.
  set (inf' := Info (S (refs inf)) (n' + 1 + cost cs) (work cs)).
  set (th' := Thread (calls th) (answers th) (Running (k tt))).
  pose proof (total_change refs _ i inf inf' Hi) as Htot. pose proof (total_change turns _ i inf inf' Hi) as Htot'.
  cbn [refs turns inf'] in Htot, Htot'.
  eexists. split.
  - eapply (inv_change 0 0 w c i prog th inf th' inf' [] (shared w) (owned w) a' (owner w)); try done; cbn -[total].
    + by rw app_nil_r.
    + rw Hl. lia.
    + unfold is_sleeping. rw Hs. cbn. lia.
    + unfold is_woken. rw Hs. cbn. lia.
    + by left.
    + apply thread_ok_quiet; [done|]. cbn. rw app_nil_r. destruct Hc as [Hc1 Hc2 Hc3 Hc4 Hc5].
      eapply (quiet_running _ _ _ _ (k tt) n' false Keep [] cur cs); [done|by split|done| |done]. intros _. cbn. lia.
    + destruct (refs_alive _ _ _ _ _ Hinv Hi Hr) as [[E1 E2]|(j & E1 & E2)]; pose proof (inv_owner _ _ _ Hinv) as Hown;
        unfold owner_ok in *; rw E1 in Hown; cbn -[total]; rw E1.
      * replace (total refs (<[i:=inf']> _)) with (S (total refs (infos w))) by lia. naive_solver lia.
      * replace (total refs (<[i:=inf']> _)) with (S (total refs (infos w))) by lia. naive_solver.
  - split; [cbn -[total]; lia|by eexists].
Qed.

(** The others, when this thread holds the last reference. *)
Lemma sum_list_with_two {A} (f : A -> nat) l i j x y :
  i <> j -> l !! i = Some x -> l !! j = Some y -> (f x + f y <= sum_list_with f l)%nat.
Proof.
  revert i j. induction l as [|z l IH]; intros [|i] [|j] Hne Hi Hj; try done; cbn [sum_list_with].
  - change (l !! j = Some y) in Hj. injection Hi as ->. pose proof (sum_list_with_lookup f _ _ _ Hj). lia.
  - change (l !! i = Some x) in Hi. injection Hj as ->. pose proof (sum_list_with_lookup f _ _ _ Hi). lia.
  - assert (i <> j) as Hne' by congruence. specialize (IH i j Hne' Hi Hj). lia.
Qed.
Lemma count_zero {A} (p : A -> bool) l : (forall i x, l !! i = Some x -> p x = false) -> count p l = O.
Proof.
  intros Hp. induction l as [|x l IH]; [done|]. change (count p (x :: l)) with (Nat.b2n (p x) + count p l)%nat.
  rw (Hp O x eq_refl) IH; [done|]. intros i y Hy. exact (Hp (S i) y Hy).
Qed.

Lemma lookup_both due w c j th :
  inv due w c -> threads c !! j = Some th -> exists prog inf, programs !! j = Some prog /\ infos w !! j = Some inf.
Proof.
  intros Hinv Ht. pose proof (inv_length _ _ _ Hinv) as [L1 L2]. apply lookup_lt_Some in Ht.
  destruct (lookup_lt_is_Some_2 programs j) as [prog Hp]; [lia|].
  destruct (lookup_lt_is_Some_2 (infos w) j) as [inf Hi]; [lia|]. by exists prog, inf.
Qed.

(** A thread in the wait has a reference. *)
Lemma waiting_refs prog mine th inf :
  quiet prog mine th inf -> is_sleeping th = true \/ is_woken th = true -> (0 < refs inf)%nat.
Proof.
  clear Hfunc Hthreads Hq Hkeep Hdestroy call_destroy. intros Hq' Hw. unfold is_sleeping, is_woken in Hw. destruct Hq' as [E|?????? ? E|?????? ? E|?????? ?? E]; rw ?E in Hw; naive_solver.
Qed.

Lemma last_alone w c i inf :
  inv 0 w c -> infos w !! i = Some inf -> refs inf = 1%nat -> total refs (infos w) = 1%nat -> owner_of (owner w) <> Some i ->
  (forall th, threads c !! i = Some th -> is_sleeping th = false /\ is_woken th = false) ->
  owner w = Free /\ sleeping (shared w) = O /\ woken (shared w) = O.
Proof.
  intros Hinv Hi Hr Hone Ho Hmine.
  assert (forall j infj, j <> i -> infos w !! j = Some infj -> refs infj = O) as Hz.
  { intros j infj Hne Hj. pose proof (sum_list_with_two refs _ _ _ _ _ Hne Hj Hi). unfold total in Hone. lia. }
  assert (owner w = Free) as Hf.
  { destruct (refs_alive _ _ _ _ _ Hinv Hi) as [[E _]|(j & E & _)]; [lia|done|].
    rw E in Ho. cbn in Ho. assert (j <> i) as Hne by congruence.
    pose proof (inv_owner _ _ _ Hinv) as Hown. unfold owner_ok in Hown. rw E in Hown. destruct Hown as (_ & _ & Hlt).
    pose proof (inv_length _ _ _ Hinv) as [L1 L2].
    destruct (lookup_lt_is_Some_2 (threads c) j) as [th Hth]; [lia|].
    destruct (lookup_both _ _ _ _ _ Hinv Hth) as (prog & infj & Hp & Hij).
    pose proof (inv_threads _ _ _ Hinv j prog th infj Hp Hth Hij) as Hok. unfold thread_ok in Hok. rw E decide_True in Hok; [|done].
    specialize (Hz _ _ Hne Hij). destruct Hok; lia. }
  split; [done|].
  assert (forall j th, threads c !! j = Some th -> is_sleeping th = false /\ is_woken th = false) as Hall.
  { intros j th Hth. destruct (decide (j = i)) as [->|Hne]; [by apply Hmine|].
    destruct (lookup_both _ _ _ _ _ Hinv Hth) as (prog & infj & Hp & Hij).
    pose proof (inv_threads _ _ _ Hinv j prog th infj Hp Hth Hij) as Hok. apply thread_ok_quiet in Hok; [|by rw Hf].
    specialize (Hz _ _ Hne Hij). pose proof (waiting_refs _ _ _ _ Hok) as Hw.
    destruct (is_sleeping th), (is_woken th); split; try done; exfalso; (assert (0 < refs infj)%nat by naive_solver); lia. }
  pose proof (inv_sleeping _ _ _ Hinv) as Hs. pose proof (inv_woken _ _ _ Hinv) as Hw.
  rw (count_zero is_sleeping) in Hs; [|intros j th Hj; by apply (Hall j th)].
  rw (count_zero is_woken) in Hw; [|intros j th Hj; by apply (Hall j th)]. lia.
Qed.

Lemma good_drop w c i prog th inf t k n' cur cs :
  inv 0 w c -> programs !! i = Some prog -> threads c !! i = Some th -> infos w !! i = Some inf ->
  owner_of (owner w) <> Some i -> status_of th = Running t ->
  in_call prog (done_by i (hist w)) th inf Drop [] cur cs ->
  (0 < refs inf)%nat -> (n' + 1 + cost cs < turns inf)%nat ->
  observe t = VisF (Run (g_atomic_int_dec_and_test (ref_count_of q))) k -> outside n' false Keep [] cur (k false) ->
  (forall r h, at_heap (protected q free_func r 0 ∗ members q 0 ∗ destroyed [])%I h ->
    destroying q (destroyed (rev r)) cur.*2 n' h (k true)) ->
  good_turn w c i th.
Proof.
  intros Hinv Hp Ht Hi Ho Hs Hc Hr Htu Hob Hk Hdie. pose proof Hinv as [Hrun Hm _ Hnow _ Hbud Hsl Hwk _ _].
  pose proof (sum_list_with_lookup refs _ _ _ Hi) as Hrt. change (sum_list_with refs (infos w)) with (total refs (infos w)) in Hrt.
  destruct (total refs (infos w)) as [|R] eqn:ER; [lia|].
  pose proof (call_left _ _ _ _ _ _ _ _ Hc) as Hl. cbn in Hl.
  destruct (run_apart w c (beside (S R)) (fun b => ⌜b = (R =? 0)%nat⌝ ∧ beside R)%I (g_atomic_int_dec_and_test (ref_count_of q)) 0)
    as (b & a' & E & Hd & [-> Ha]%at_and); [done|apply dec_beside; lia| |].
  { rw -ER. by eapply refs_beside. }
  assert (forall ws, turn (serve_call call_destroy func q) i ws c = Some (with_status i (Running (k (R =? 0)%nat))
    (with_mem (Memory (owned w ∪ (a' ∪ rest)) log) c))) as Hturn.
  { intros ws. unfold Threads.turn. rw Ht /= Hs Hob /= E. done. }
  split; [|split; [rw (undefined_running _ _ _ _ Ht Hs) Hob; by rw E|left; exists []; by eexists]].
  intros ws c' Hc'. rw Hturn (with_status_eq (with_mem _ c) i th) // in Hc'. injection Hc' as <-.
  set (inf' := Info (pred (refs inf)) (n' + 1 + cost cs) (work cs)).
  set (th' := Thread (calls th) (answers th) (Running (k (R =? 0)%nat))).
  pose proof (total_change refs _ i inf inf' Hi) as Htot. pose proof (total_change turns _ i inf inf' Hi) as Htot'.
  cbn [refs turns inf'] in Htot, Htot'. assert (is_sleeping th = false /\ is_woken th = false) as [Hns Hnw].
  { unfold is_sleeping, is_woken. by rw Hs. }
  destruct (decide (R = O)) as [->|HR].
  - destruct (last_alone w c i inf Hinv Hi) as (Ef & Es & Ew); [lia|lia|done|intros th1 Hth1; by simplify_eq|].
    pose proof (inv_owner _ _ _ Hinv) as Hown. unfold owner_ok in Hown. rw Ef in Hown. destruct Hown as (Hmu & [Hrel _ _] & _ & _).
    rw Es Ew in Hrel. destruct Hd as (D1 & D2 & D3).
    exists (World (hist w ++ map (pair i) []) (shared w) (owned w ∪ a') ∅ (<[i:=inf']> (infos w)) (Dying i)). split.
    + replace (owned w ∪ (a' ∪ rest)) with ((owned w ∪ a') ∪ (∅ ∪ rest)) by by rw map_empty_union map_union_assoc.
      eapply (inv_change 0 0 w c i prog th inf th' inf' [] (shared w) (owned w ∪ a') ∅ (Dying i)); try done; cbn -[total].
      * by rw app_nil_r.
      * split; [apply map_disjoint_empty_r|]. split; [by apply map_disjoint_union_l|apply map_disjoint_empty_l].
      * rw Hl. lia.
      * rw Hns. done.
      * rw Hnw. done.
      * right. rw Ef. cbn. naive_solver.
      * unfold thread_ok. cbn. rw decide_True // app_nil_r. destruct Hc as [Hc1 Hc2 Hc3 Hc4 Hc5].
        assert (pred (refs inf) = O) as Hz by lia. cbn [after] in Hc3. rw Hz in Hc3. destruct cs as [|? ?]; [|by destruct Hc3; lia].
        exists (k true), n', cur. split; [done|]. split; [by split|]. split; [|split; [done|cbn; lia]].
        apply Hdie. exists (owned w), a'. done.
      * unfold owner_ok. cbn -[total]. split; [done|]. split; [done|]. split; [lia|]. apply lookup_lt_Some in Hp. done.
    + split; [cbn -[total]; lia|by eexists].
  - rw (proj2 (Nat.eqb_neq R 0) HR) in th' Hturn |- *.
    eexists. split.
    + eapply (inv_change 0 0 w c i prog th inf th' inf' [] (shared w) (owned w) a' (owner w)); try done; cbn -[total].
      * by rw app_nil_r.
      * rw Hl. lia.
      * rw Hns. done.
      * rw Hnw. done.
      * by left.
      * apply thread_ok_quiet; [done|]. cbn. rw app_nil_r. destruct Hc as [Hc1 Hc2 Hc3 Hc4 Hc5].
        eapply (quiet_running _ _ _ _ (k false) n' false Keep [] cur cs); [done|by split|done| |done]. intros [|]; done.
      * destruct (refs_alive _ _ _ _ _ Hinv Hi Hr) as [[E1 E2]|(j & E1 & E2)]; pose proof (inv_owner _ _ _ Hinv) as Hown;
          unfold owner_ok in *; rw E1 in Hown; cbn -[total]; rw E1.
        -- replace (total refs (<[i:=inf']> _)) with R by lia. naive_solver lia.
        -- replace (total refs (<[i:=inf']> _)) with R by lia. naive_solver.
    + split; [cbn -[total]; lia|by eexists].
Qed.

(** ** Taking the mutex *)

Lemma fifo_run_length es r : fifo_run func n_threads es r -> zlen r <= zlen es.
Proof.
  intros Hr. induction Hr as [|es o a r r' _ IH Hs]; [done|]. rw zlen_app zlen_cons zlen_nil.
  apply fifo_shorter in Hs. destruct o; lia.
Qed.

Lemma counts_le {A} (p p' : A -> bool) l i x :
  (forall x, p x && p' x = false) -> l !! i = Some x -> (count p l + count p' l + 1 <= length l + Nat.b2n (p x) + Nat.b2n (p' x))%nat.
Proof.
  intros Hpp. revert i. induction l as [|y l IH]; intros i Hi; [done|].
  change (count p (y :: l)) with (Nat.b2n (p y) + count p l)%nat. change (count p' (y :: l)) with (Nat.b2n (p' y) + count p' l)%nat.
  pose proof (Hpp y) as Hy. destruct i as [|i].
  - injection Hi as ->. assert (count p l + count p' l <= length l)%nat; [|cbn; lia]. clear -Hpp.
    induction l as [|z l IH]; [done|]. change (count p (z :: l)) with (Nat.b2n (p z) + count p l)%nat.
    change (count p' (z :: l)) with (Nat.b2n (p' z) + count p' l)%nat. pose proof (Hpp z). cbn [length].
    destruct (p z), (p' z); cbn in *; (done || lia).
  - change (l !! i = Some x) in Hi. specialize (IH i Hi). cbn [length]. destruct (p y), (p' y); cbn in *; (done || lia).
Qed.

(** The thread's own wait is over when it has the mutex. *)
Definition without_me (th : thread) (v : view) : view :=
  if is_woken th then View (items v) (sleeping v) (pred (woken v)) else v.

Lemma fits_now w c i th inf prog eff todo cur cs :
  inv 0 w c -> threads c !! i = Some th -> infos w !! i = Some inf -> is_sleeping th = false ->
  in_call prog (done_by i (hist w)) th inf eff todo cur cs -> fits n_threads (without_me th (shared w)) todo.
Proof.
  intros Hinv Ht Hi Hs Hc. pose proof Hinv as [Hrun _ _ _ [L1 _] Hbud Hsl Hwk _ _].
  pose proof (sum_list_with_lookup left_work _ _ _ Hi) as Hle. pose proof (call_left _ _ _ _ _ _ _ _ Hc) as Hl.
  apply fifo_run_length in Hrun. unfold zlen in Hrun. rw length_fmap in Hrun. unfold total in Hbud.
  pose proof (counts_le is_sleeping is_woken (threads c) i th) as Hcount. rw Hs in Hcount.
  assert (forall x : thread, is_sleeping x && is_woken x = false) as Hx by (intros [? ? []]; done).
  specialize (Hcount Hx Ht). unfold fits, without_me, zlen.
  assert (is_woken th = true -> 0 < count is_woken (threads c))%nat as Hpos.
  { intros E. pose proof (sum_list_with_lookup (fun x : thread => Nat.b2n (is_woken x)) _ _ _ Ht) as Hx'. cbn in Hx'. rw E in Hx'.
    unfold count. cbn in Hx'. lia. }
  destruct (is_woken th); cbn [items sleeping woken Nat.b2n] in *; [specialize (Hpos eq_refl)|]; lia.
Qed.

Lemma take_mutex w c i prog th inf th' inf' :
  inv 0 w c -> programs !! i = Some prog -> threads c !! i = Some th -> infos w !! i = Some inf ->
  owner w = Free -> is_sleeping th = false -> is_sleeping th' = false -> is_woken th' = false ->
  holding (without_me th (shared w)) (owned w) prog (done_by i (hist w)) th' inf' ->
  refs inf' = refs inf -> (left_work inf' <= left_work inf)%nat ->
  inv 0 (World (hist w) (without_me th (shared w)) (owned w) (apart w) (<[i:=inf']> (infos w)) (Held i))
    (Machine (mem c) (monotonic c) (real c) (Some i) (<[i:=th']> (threads c))).
Proof.
  intros Hinv Hp Ht Hi Ho Hs Hs' Hw' Hhold Hr Hl. pose proof Hinv as [Hrun Hm Hd Hn _ _ _ Hwk _ Hown].
  rw Hm. rw -(app_nil_r (hist w)). unfold owner_ok in Hown. rw Ho in Hown. destruct Hown as (Hmu & _ & Hbe & _).
  pose proof (total_change refs _ i inf inf' Hi) as Htot.
  assert (is_woken th = true -> 0 < count is_woken (threads c))%nat as Hpos.
  { intros E. pose proof (sum_list_with_lookup (fun x : thread => Nat.b2n (is_woken x)) _ _ _ Ht) as Hx'. cbn in Hx'. rw E in Hx'.
    unfold count. cbn in Hx'. lia. }
  eapply (inv_change 0 0 w c i prog th inf th' inf' []); try done; cbn -[total without_me].
  - rw app_nil_r. unfold without_me. by destruct (is_woken th).
  - lia.
  - rw Hs Hs'. unfold without_me. by destruct (is_woken th).
  - rw Hw'. unfold without_me. destruct (is_woken th); cbn; [specialize (Hpos eq_refl)|]; lia.
  - right. rw Ho. cbn. naive_solver.
  - unfold thread_ok. cbn -[without_me]. by rw decide_True // app_nil_r.
  - unfold owner_ok. cbn -[total]. replace (total refs _) with (total refs (infos w)) by lia.
    split_and!; [done..|]. by apply lookup_lt_Some in Hp.
Qed.

Lemma good_lock w c i prog th inf t k n' eff todo cs :
  inv 0 w c -> programs !! i = Some prog -> threads c !! i = Some th -> infos w !! i = Some inf ->
  owner_of (owner w) <> Some i -> status_of th = Running t ->
  in_call prog (done_by i (hist w)) th inf eff todo [] cs ->
  (0 < refs inf)%nat -> (n' + 1 + cost cs < turns inf)%nat -> observe t = VisF Lock k ->
  (forall v h, released v h -> fits n_threads v todo -> critical n' v h eff todo [] (k tt)) ->
  good_turn w c i th.
Proof.
  intros Hinv Hp Ht Hi Ho Hs Hc Hr Htu Hob Hk.
  destruct (refs_live _ _ _ _ _ Hinv Hi Hr) as [Hlive _].
  assert (undefined_next c i = false) as Hu by by rw (undefined_running _ _ _ _ Ht Hs) Hob Hlive.
  assert (forall ws, turn (serve_call call_destroy func q) i ws c = match mutex c with
    None => Some (with_status i (Running (k tt)) (with_mutex (Some i) c)) | Some _ => None end) as Hturn.
  { intros ws. unfold Threads.turn. by rw Ht /= Hs Hob /= Hlive. }
  destruct (refs_alive _ _ _ _ _ Hinv Hi Hr) as [[E1 E2]|(j & E1 & E2)].
  2: { split; [by intros ws c'; rw Hturn E2|]. split; [done|]. do 3 right. exists j. split; [done|]. intros ->. by rw E1 in Ho. }
  split; [|split; [done|left; exists []; rw Hturn E2; by eexists]].
  intros ws c' Hc'. rw Hturn E2 (with_status_eq (with_mutex _ c) i th) // in Hc'. injection Hc' as <-.
  set (inf' := Info (refs inf) (n' + 1 + cost cs) (left_work inf)).
  assert (is_sleeping th = false /\ is_woken th = false) as [Hns Hnw] by (unfold is_sleeping, is_woken; by rw Hs).
  eexists. split.
  - apply (take_mutex w c i prog th inf _ inf'); try done.
    eapply (holding_critical _ _ _ _ _ _ (k tt) n' eff todo [] cs); [done|by apply in_call_status| |done..].
    pose proof (inv_owner _ _ _ Hinv) as Hown. unfold owner_ok in Hown. rw E1 in Hown.
    apply Hk; [unfold without_me; rw Hnw; apply Hown|]. by eapply fits_now.
  - split; [|by apply no_more]. pose proof (total_change turns _ i inf inf' Hi). cbn -[total] in *. lia.
Qed.

Lemma good_woken w c i prog th inf u k b n eff todo cur cs :
  inv 0 w c -> programs !! i = Some prog -> threads c !! i = Some th -> infos w !! i = Some inf ->
  owner_of (owner w) <> Some i -> status_of th = Woken k b ->
  in_call prog (done_by i (hist w)) th inf eff todo cur cs -> parked n u eff todo cur k -> (b = false -> u <> None) ->
  (0 < refs inf)%nat -> turns inf = (n + wake_cost + 1 + cost cs)%nat -> good_turn w c i th.
Proof.
  intros Hinv Hp Ht Hi Ho Hs Hc Hk Hb Hr Htu.
  destruct (refs_live _ _ _ _ _ Hinv Hi Hr) as [Hlive _].
  assert (undefined_next c i = false) as Hu by by rw (undefined_woken _ _ _ _ _ Ht Hs) Hlive.
  assert (forall ws, turn (serve_call call_destroy func q) i ws c = match mutex c with
    None => Some (with_status i (Running (k b)) (with_mutex (Some i) c)) | Some _ => None end) as Hturn.
  { intros ws. unfold Threads.turn. by rw Ht /= Hs Hlive. }
  destruct (refs_alive _ _ _ _ _ Hinv Hi Hr) as [[E1 E2]|(j & E1 & E2)].
  2: { split; [by intros ws c'; rw Hturn E2|]. split; [done|]. do 3 right. exists j. split; [done|]. intros ->. by rw E1 in Ho. }
  split; [|split; [done|left; exists []; rw Hturn E2; by eexists]].
  intros ws c' Hc'. rw Hturn E2 (with_status_eq (with_mutex _ c) i th) // in Hc'. injection Hc' as <-.
  assert (is_sleeping th = false /\ is_woken th = true) as [Hns Hw] by (unfold is_sleeping, is_woken; by rw Hs).
  pose proof (fits_now _ _ _ _ _ _ _ _ _ _ Hinv Ht Hi Hns Hc) as Hf.
  pose proof (inv_owner _ _ _ Hinv) as Hown. unfold owner_ok in Hown. rw E1 in Hown. destruct Hown as (_ & Hrel & _).
  set (v := without_me th (shared w)) in *.
  assert (shared w = View (items v) (sleeping v) (S (woken v))) as Ev.
  { subst v. unfold without_me. rw Hw. cbn. pose proof (inv_woken _ _ _ Hinv).
    pose proof (sum_list_with_lookup (fun x : thread => Nat.b2n (is_woken x)) _ _ _ Ht) as Hx'. cbn in Hx'. rw Hw in Hx'.
    unfold count in *. destruct (shared w); cbn in *. f_equal. lia. }
  rw Ev in Hrel. set (inf' := Info (refs inf) (n + 3 + 1 + cost cs) (left_work inf)).
  eexists. split.
  - apply (take_mutex w c i prog th inf _ inf'); try done.
    destruct Hk as [m n1 u eff todo cur k Hm H1 H2 H3]. destruct b; [destruct (items v) as [|x r] eqn:Ei|].
    + eapply (holding_back _ _ _ _ _ _ (k true) u k m 3 eff todo cur cs); try done.
      * by apply in_call_status.
      * by apply H1.
      * by eapply park.
    + eapply (holding_critical _ _ _ _ _ _ (k true) (m + 3) eff todo cur cs); try done; [by apply in_call_status|].
      eapply critical_le; [|apply H2; [by rw Ei|done|by rw Ei]]. lia.
    + eapply (holding_critical _ _ _ _ _ _ (k false) (m + 3) eff todo cur cs); try done; [by apply in_call_status|].
      eapply critical_le; [|apply H3; [by apply Hb|done|done]]. lia.
  - split; [|by apply no_more]. pose proof (total_change turns _ i inf inf' Hi). cbn -[total] in *. unfold wake_cost in Htu. lia.
Qed.

Lemma good_quiet_turn w c i prog th inf :
  inv 0 w c -> programs !! i = Some prog -> threads c !! i = Some th -> infos w !! i = Some inf ->
  owner_of (owner w) <> Some i -> good_turn w c i th.
Proof.
  intros Hinv Hp Ht Hi Ho. pose proof (inv_threads _ _ _ Hinv i prog th inf Hp Ht Hi) as Hok.
  apply thread_ok_quiet in Hok; [|done]. pose proof Hok as Hok'.
  destruct Hok as [Hs|t n locks eff todo cur cs Hs Hc Hout Hr Htu|u k n eff todo cur cs Hs|k b u n eff todo cur cs Hs Hc Hk Hb Hr Htu].
  - by eapply good_idle.
  - assert (forall t1, observe t = TauF t1 -> forall n', outside n' locks eff todo cur t1 -> (n' < n)%nat -> good_turn w c i th) as Htau.
    { intros t1 Hob n' Ho1 Hn'. eapply good_silent; try done; [lia|intros ws; unfold Threads.turn; by rw Ht /= Hs Hob|].
      rw (undefined_running _ _ _ _ Ht Hs). by rw Hob. }
    destruct Hout as [m n locks done t Hm Et|m n locks eff todo done t t' Hm Et Ho1|m n locks eff todo done t k Hm Et Ho1|
      m n locks eff todo done t k Hm Et Ho1|m n locks eff todo done t B p b k Hm Et Hpure Ho1|
      m n done t k Hm Et Ho1|m n done t k Hm Et Ho1 Hd|m n eff todo t k Hm Et Hl].
    + apply eqitree_inv_Ret_r in Et. by eapply good_return.
    + apply eqitree_inv_Tau_r in Et as (t1 & Et & E1). eapply Htau; [done| |done]. by rw E1.
    + apply eqitree_inv_Vis_r in Et as (k' & Et & Ek). pose proof (inv_clock _ _ _ Hinv) as [Hn _].
      eapply (good_silent _ _ _ _ _ _ t (k' (monotonic c)) n); try done; [lia|by rw Ek; apply Ho1|intros ws; unfold Threads.turn; by rw Ht /= Hs Et|].
      rw (undefined_running _ _ _ _ Ht Hs). by rw Et.
    + apply eqitree_inv_Vis_r in Et as (k' & Et & Ek). pose proof (inv_clock _ _ _ Hinv) as [_ Hn].
      eapply (good_silent _ _ _ _ _ _ t (k' (real c)) n); try done; [lia|by rw Ek; apply Ho1|intros ws; unfold Threads.turn; by rw Ht /= Hs Et|].
      rw (undefined_running _ _ _ _ Ht Hs). by rw Et.
    + apply eqitree_inv_Vis_r in Et as (k' & Et & Ek).
      eapply (good_silent _ _ _ _ _ _ t (k' b) n); try done; [lia|by rw Ek| |rw (undefined_running _ _ _ _ Ht Hs); by rw Et Hpure].
      intros ws. unfold Threads.turn. rw Ht /= Hs Et /= Hpure. by destruct c.
    + apply eqitree_inv_Vis_r in Et as (k' & Et & Ek).
      eapply (good_gain _ _ _ _ _ _ t k' n); try done; [by apply Hr; right|lia|by rw Ek].
    + apply eqitree_inv_Vis_r in Et as (k' & Et & Ek).
      eapply (good_drop _ _ _ _ _ _ t k' n); try done; [by apply Hr; right|lia|by rw Ek|]. intros r h Hh. rw Ek. by apply Hd.
    + apply eqitree_inv_Vis_r in Et as (k' & Et & Ek).
      eapply (good_lock _ _ _ _ _ _ t k' n); try done; [by apply Hr; left|lia|]. intros v h Hv Hf. rw Ek. by apply Hl.
  - split; [|split; [eapply undefined_other; [done|right; unfold is_sleeping; by rw Hs]|]].
    + intros ws c'. unfold Threads.turn. by rw Ht /= Hs.
    + right. right. left. unfold is_sleeping. by rw Hs.
  - by eapply good_woken.
Qed.
End invariant.
