(* ===== verification/AsyncQueueHold.v ===== *)
(** * Queues between threads: the turns of the owner

    The thread that holds the mutex, or that destroys the queue, keeps the
    invariant too; so do the threads that wake up. Turns get used up. *)

From iris.proofmode Require Import proofmode.
From ITree Require Import ITree ITreeFacts.
From S2P Require Import Prelude Heap DList DListSpec DQueue DQueueOps Threads AsyncQueue.
From S2P Require Import AsyncQueueSpec AsyncQueueOps AsyncQueueInv.
Local Open Scope Z_scope.
Local Open Scope xpl_scope.

#[export] Instance writes_store p o o' : Writes (store p o') p o o'.
Proof. intros m E. unfold store. by rw E. Qed.

Section hold.
Context `{Allocator} `{BlockAllocator} `{Hclocks : Clocks}.
Context (call_destroy : Z -> Z -> prog unit) (func : Z -> Z -> Z) (q free_func : Z).
Context (destroyed : list Z -> assertion) (rest : heap) (log : list string) (programs : list (list call)).
Abbreviation n_threads := (length programs).
Abbreviation cost := (cost programs).
Abbreviation critical := (critical func q free_func n_threads destroyed).
Abbreviation parked := (parked func q free_func n_threads destroyed).
Abbreviation back := (back q free_func).
Abbreviation released := (released q free_func).
Abbreviation machine := (machine call reply).
Abbreviation thread := (thread call reply).
Abbreviation inv := (inv func q free_func destroyed rest log programs).
Abbreviation quiet := (quiet func q free_func destroyed programs).
Abbreviation holding := (holding func q free_func destroyed programs).
Abbreviation dying := (dying q destroyed).
Abbreviation good_turn := (good_turn func q free_func destroyed rest log programs call_destroy).
Abbreviation beside := (beside q destroyed).
Abbreviation turn := (turn (mutex_of q) (cond_of q)).
Abbreviation perform := (perform (mutex_of q) (cond_of q)).
Abbreviation undefined_next := (undefined_next (mutex_of q) (cond_of q)).

(** ** Waking up *)

Lemma inv_wake due b i w (c c' : machine) :
  inv (S due) w c -> wake b i c = Some c' ->
  (b = false -> exists th u k, threads c !! i = Some th /\ status_of th = Sleeping (Some u) k) ->
  exists w', inv due w' c' /\ total turns (infos w') = (total turns (infos w) + wake_cost)%nat /\
    hist w' = hist w /\ owner w' = owner w.
Proof.
  intros Hinv Hw Hb. unfold wake in Hw. destruct (threads c !! i) as [th|] eqn:Ht; [|done]. cbn in Hw.
  destruct (status_of th) as [|t|u k|k' b'] eqn:Hs; try done. rw (with_status_eq _ _ _ _ Ht) in Hw. injection Hw as <-.
  destruct (lookup_both _ _ _ _ _ _ _ _ _ _ _ _ Hinv Ht) as (prog & inf & Hp & Hi).
  pose proof Hinv as [Hrun Hm Hd Hn _ _ _ _ Hall Hown]. specialize (Hall i prog th inf Hp Ht Hi).
  assert (owner_of (owner w) <> Some i) as Ho.
  { unfold thread_ok in Hall. intros E. destruct (owner w); cbn in E; simplify_eq; rw decide_True // in Hall.
    - destruct Hall; congruence.
    - destruct Hall as (? & ? & ? & ? & _). congruence. }
  apply thread_ok_quiet in Hall; [|done]. destruct Hall as [|?????? ? E|u0 k0 n eff todo cur cs E Hc Hk Hr Htu|]; try congruence.
  rw Hs in E. injection E as <- <-.
  set (inf' := Info (refs inf) (n + wake_cost + 1 + cost cs) (left_work inf)).
  eexists. split; [|split; [|split]].
  - rw Hm. eapply (inv_change _ _ _ _ _ _ _ (S due) due w c i prog th inf (Thread (calls th) (answers th) (Woken k b)) inf' [] (shared w) (owned w) (apart w) (owner w));
      try done; cbn -[total].
    + by rw app_nil_r.
    + unfold is_sleeping. rw Hs. cbn. lia.
    + unfold is_woken. rw Hs. cbn. lia.
    + by left.
    + apply thread_ok_quiet; [done|]. cbn. rw app_nil_r. eapply quiet_woken; [done|by apply in_call_status|done| |done..].
      intros ->. destruct (Hb eq_refl) as (th1 & u1 & k1 & E1 & E2). simplify_eq. by rw Hs in E2; simplify_eq.
    + unfold owner_ok in *. cbn -[total].
      assert (total refs (<[i:=inf']> (infos w)) = total refs (infos w)) as ->; [|done].
      pose proof (total_change refs _ i inf inf' Hi). cbn in *. lia.
  - cbn -[total]. pose proof (total_change turns _ i inf inf' Hi). cbn -[total] in *. lia.
  - cbn. by rw app_nil_r.
  - done.
Qed.

Lemma inv_wake_all due ws w (c c' : machine) :
  inv (length ws + due) w c -> wake_all ws c = Some c' ->
  exists w', inv due w' c' /\ (total turns (infos w') = total turns (infos w) + wake_cost * length ws)%nat /\ hist w' = hist w.
Proof.
  revert w c. induction ws as [|i ws IH]; intros w c Hinv Hw; cbn in Hw.
  - injection Hw as <-. exists w. split; [done|]. cbn. by split; [lia|].
  - destruct (wake true i c) as [c1|] eqn:E; [|done]. cbn in Hw.
    destruct (inv_wake _ _ _ _ _ _ Hinv E) as (w1 & H1 & T1 & E1 & _); [done|].
    destruct (IH _ _ H1 Hw) as (w2 & H2 & T2 & E2). exists w2. split; [done|]. cbn [length]. split; [lia|by rw E2].
Qed.

Lemma wake_count b i (c c' : machine) :
  wake b i c = Some c' -> count is_sleeping (threads c) = S (count is_sleeping (threads c')).
Proof.
  unfold wake. destruct (threads c !! i) as [th|] eqn:Ht; [|done]. cbn. destruct (status_of th) eqn:Hs; try done.
  rw (with_status_eq _ _ _ _ Ht). intros [= <-].
  pose proof (count_insert is_sleeping _ _ _ (Thread (calls th) (answers th) (Woken k b)) Ht) as E.
  unfold is_sleeping in E at 2. rw Hs in E. cbn -[count] in *. lia.
Qed.
Lemma wake_all_count ws (c c' : machine) :
  wake_all ws c = Some c' -> count is_sleeping (threads c) = (length ws + count is_sleeping (threads c'))%nat.
Proof.
  revert c. induction ws as [|i ws IH]; intros c Hw; cbn in Hw; [by injection Hw as <-|].
  destruct (wake true i c) as [c1|] eqn:E; [|done]. apply wake_count in E. apply IH in Hw. cbn [length]. lia.
Qed.

Lemma existsb_count {A} (p : A -> bool) (l : list A) : existsb p l = negb (count p l =? 0)%nat.
Proof.
  induction l as [|x l IH]; [done|]. change (count p (x :: l)) with (Nat.b2n (p x) + count p l)%nat. cbn [existsb].
  rw IH. by destruct (p x).
Qed.

(** A sleeper may be counted as woken before it wakes up. *)
Lemma inv_ahead w (c : machine) :
  inv 0 w c -> (0 < count is_sleeping (threads c))%nat ->
  exists w', inv 1 w' c /\ infos w' = infos w /\ hist w' = hist w.
Proof.
  intros [H1 H2 H3 H4 H5 H6 H7 H8 H9 H10] Hs. assert (0 < sleeping (shared w))%nat as Hpos by lia.
  exists (World (hist w) (wakes (shared w)) (owned w) (apart w) (infos w) (owner w)). split; [|done].
  split; try done; cbn -[count]; [lia|lia| |].
  - intros i prog th inf Hp Ht Hi. specialize (H9 i prog th inf Hp Ht Hi). unfold thread_ok in *. cbn.
    destruct (owner w); try done. case_decide; [|done]. destruct H9 as [t n eff todo cur cs E1 E2 E3|t u k n m eff todo cur cs E1 E2 E3 E4].
    + eapply holding_critical; [done..| |done|done]. by apply critical_wakes.
    + eapply holding_back; [done..| |done|done|done]. by apply back_wakes.
  - unfold owner_ok in *. cbn. destruct (owner w); try done. destruct H10 as (? & Hr & ? & ?). split_and!; try done.
    by apply released_wakes.
Qed.

(** ** The owner *)

Lemma back_ext u (k k' : bool -> code (list reply)) v n h t :
  (forall b, k' b ≅ k b) -> back u k v n h t -> back u k' v n h t.
Proof.
  intros E. induction 1 as [m n h t k1 Hm Et Ek Hr|m n h t t' Hm Et _ IH|m n h t B c k1 Q Hm Et Hp _ IH].
  - eapply back_wait; [done..| |done]. intros b. rw Ek. by rw E.
  - eapply back_tau; eauto.
  - eapply back_run; eauto.
Qed.
Lemma parked_ext n u eff todo cur k k' :
  (forall b, k' b ≅ k b) -> parked n u eff todo cur k -> parked n u eff todo cur k'.
Proof.
  intros E Hk. destruct Hk as [m n u eff todo cur k Hm H1 H2 H3]. eapply park; [done|..]; intros; rw E.
  - by apply (back_ext u k); [|apply H1].
  - by apply H2.
  - by apply H3.
Qed.

(** The owner moves; the mutex stays as it is, or is given up. *)
Lemma owner_moves due w (c : machine) i prog th inf th' inf' es v' h' own' mu' :
  inv 0 w c -> programs !! i = Some prog -> threads c !! i = Some th -> infos w !! i = Some inf ->
  owner_of (owner w) = Some i -> owner_of own' = None \/ owner_of own' = Some i ->
  is_sleeping th = false -> is_woken th = false ->
  fifo_run func n_threads ((hist w).*2 ++ es) (items v') -> h' ##ₘ apart w /\ h' ##ₘ rest ->
  refs inf' = refs inf -> (length es + left_work inf' <= left_work inf)%nat ->
  (sleeping v' + due = sleeping (shared w) + Nat.b2n (is_sleeping th'))%nat ->
  woken v' = (woken (shared w) + due)%nat -> is_woken th' = false ->
  let w' := World (hist w ++ map (pair i) es) v' h' (apart w) (<[i:=inf']> (infos w)) own' in
  let c' := Machine (Memory (h' ∪ (apart w ∪ rest)) log) (monotonic c) (real c) mu' (<[i:=th']> (threads c)) in
  (total refs (infos w') = total refs (infos w) -> thread_ok func q free_func destroyed programs w' i prog th' inf' /\ owner_ok q free_func destroyed programs w' c') ->
  inv due w' c' /\ (total turns (infos w') + turns inf = total turns (infos w) + turns inf')%nat.
Proof.
  intros Hinv Hp Ht Hi Ho Ho' Hs Hw Hrun Hd Hr Hl Hsl Hwk Hw' w' c' Hok.
  assert (total refs (infos w') = total refs (infos w)) as Hrefs.
  { pose proof (total_change refs _ i inf inf' Hi). unfold w'. cbn -[total]. lia. }
  destruct (Hok Hrefs) as [Hth Hown]. pose proof (inv_disjoint _ _ _ _ _ _ _ _ _ _ Hinv) as (_ & _ & D3).
  pose proof (inv_clock _ _ _ _ _ _ _ _ _ _ Hinv) as Hnow.
  split; [|by apply total_change].
  eapply (inv_change _ _ _ _ _ _ _ 0 due w c i prog th inf th' inf' es v' h' (apart w) own'); try done.
  - cbn. rw fmap_app. by rw -list_fmap_compose /= list_fmap_id.
  - naive_solver.
  - lia.
  - rw Hs. cbn. lia.
  - rw Hw Hw'. cbn. lia.
  - right. naive_solver.
Qed.

Lemma good_owner w (c : machine) i prog th inf th' inf' v' h' own' mu' :
  inv 0 w c -> programs !! i = Some prog -> threads c !! i = Some th -> infos w !! i = Some inf ->
  owner_of (owner w) = Some i -> owner_of own' = None \/ owner_of own' = Some i ->
  is_sleeping th = false -> is_woken th = false -> items v' = items (shared w) -> h' ##ₘ apart w /\ h' ##ₘ rest ->
  refs inf' = refs inf -> (left_work inf' <= left_work inf)%nat -> (turns inf' < turns inf)%nat ->
  sleeping v' = (sleeping (shared w) + Nat.b2n (is_sleeping th'))%nat -> woken v' = woken (shared w) -> is_woken th' = false ->
  (forall ws, turn (serve_call call_destroy func q) i ws c =
    Some (Machine (Memory (h' ∪ (apart w ∪ rest)) log) (monotonic c) (real c) mu' (<[i:=th']> (threads c)))) ->
  undefined_next c i = false ->
  (let w' := World (hist w) v' h' (apart w) (<[i:=inf']> (infos w)) own' in
   let c' := Machine (Memory (h' ∪ (apart w ∪ rest)) log) (monotonic c) (real c) mu' (<[i:=th']> (threads c)) in
   total refs (infos w') = total refs (infos w) -> thread_ok func q free_func destroyed programs w' i prog th' inf' /\ owner_ok q free_func destroyed programs w' c') ->
  good_turn w c i th.
Proof.
  intros Hinv Hp Ht Hi Ho Ho' Hs Hw Hv Hd Hr Hl Htu Hsl Hwk Hw' Hturn Hu Hok.
  split; [|split; [done|left; exists []; by eexists]]. intros ws c' Hc'. rw Hturn in Hc'. injection Hc' as <-.
  pose proof (inv_hist _ _ _ _ _ _ _ _ _ _ Hinv) as Hrun.
  exists (World (hist w) v' h' (apart w) (<[i:=inf']> (infos w)) own'). split.
  - rw -(app_nil_r (hist w)). eapply (owner_moves 0 w c i prog th inf th' inf' []); try done.
    + by rw app_nil_r Hv.
    + by rw Nat.add_0_r.
    + by rw Nat.add_0_r.
    + cbn -[total] in *. by rw app_nil_r.
  - split; [|by apply no_more]. pose proof (total_change turns _ i inf inf' Hi). cbn -[total]. lia.
Qed.

Lemma owner_held w (c : machine) i : inv 0 w c -> owner w = Held i ->
  mutex c = Some i /\ at_heap (beside (total refs (infos w))) (apart w) /\ (i < n_threads)%nat.
Proof. intros Hinv E. pose proof (inv_owner _ _ _ _ _ _ _ _ _ _ Hinv) as Hown. unfold owner_ok in Hown. by rw E in Hown. Qed.

Lemma held_live w (c : machine) i : inv 0 w c -> owner w = Held i ->
  live_mutex (mutex_of q) (mem c) = true /\ live_cond (cond_of q) (mem c) = true.
Proof. intros Hinv E. eapply members_live; [done|by eapply owner_held]. Qed.

(** The thread with the mutex goes on. *)
Lemma good_goes_on w (c : machine) i prog th inf t t' h' n' :
  inv 0 w c -> programs !! i = Some prog -> threads c !! i = Some th -> infos w !! i = Some inf ->
  owner w = Held i -> status_of th = Running t -> h' ##ₘ apart w /\ h' ##ₘ rest -> (n' < turns inf)%nat ->
  (forall ws, turn (serve_call call_destroy func q) i ws c =
    Some (with_status i (Running t') (with_mem (Memory (h' ∪ (apart w ∪ rest)) log) c))) ->
  undefined_next c i = false ->
  holding (shared w) h' prog (done_by i (hist w)) (Thread (calls th) (answers th) (Running t')) (Info (refs inf) n' (left_work inf)) ->
  good_turn w c i th.
Proof.
  intros Hinv Hp Ht Hi Ho Hs Hd Hn Hturn Hu Hhold. destruct (owner_held _ _ _ Hinv Ho) as (Hmu & Hbe & Hlt).
  assert (is_sleeping th = false /\ is_woken th = false) as [Hns Hnw] by (unfold is_sleeping, is_woken; by rw Hs).
  eapply (good_owner w c i prog th inf (Thread (calls th) (answers th) (Running t')) (Info (refs inf) n' (left_work inf)) (shared w) h' (Held i) (Some i)); try done.
  - by rw Ho.
  - by right.
  - intros ws. rw Hturn (with_status_eq (with_mem _ c) i th) //. cbn. by rw Hmu.
  - intros w' c' Hrefs. unfold thread_ok, owner_ok. cbn -[total] in *. rw decide_True //. by rw Hrefs.
Qed.

Lemma turn_running (c : machine) i (th : thread) t ws :
  threads c !! i = Some th -> status_of th = Running t ->
  turn (serve_call call_destroy func q) i ws c = match observe t with
    | RetF a => Some (Machine (mem c) (monotonic c) (real c) (mutex c)
            (<[i := Thread (tail (calls th)) (answers th ++ a) Idle]> (threads c)))
    | TauF t => Some (with_status i (Running t) c)
    | VisF e k => perform i ws e k c
    end.
Proof. intros Ht Hs. unfold Threads.turn. rw Ht. cbn. by rw Hs. Qed.

(** It gives the mutex up. *)
Lemma good_gives_up w (c : machine) i prog th inf t s n' v' :
  inv 0 w c -> programs !! i = Some prog -> threads c !! i = Some th -> infos w !! i = Some inf ->
  owner w = Held i -> status_of th = Running t -> (n' < turns inf)%nat -> (0 < refs inf)%nat ->
  let th' := Thread (calls th) (answers th) s in
  items v' = items (shared w) -> sleeping v' = (sleeping (shared w) + Nat.b2n (is_sleeping th'))%nat -> woken v' = woken (shared w) ->
  is_woken th' = false -> released v' (owned w) ->
  (forall ws, turn (serve_call call_destroy func q) i ws c = Some (with_status i s (with_mutex None c))) ->
  undefined_next c i = false ->
  quiet prog (done_by i (hist w)) th' (Info (refs inf) n' (left_work inf)) ->
  good_turn w c i th.
Proof.
  intros Hinv Hp Ht Hi Ho Hs Hn Hr th' Hv Hsl Hwk Hw' Hrel Hturn Hu Hqt. destruct (owner_held _ _ _ Hinv Ho) as (Hmu & Hbe & Hlt).
  assert (is_sleeping th = false /\ is_woken th = false) as [Hns Hnw] by (unfold is_sleeping, is_woken; by rw Hs).
  pose proof (inv_disjoint _ _ _ _ _ _ _ _ _ _ Hinv) as (D1 & D2 & _).
  eapply (good_owner w c i prog th inf th' (Info (refs inf) n' (left_work inf)) v' (owned w) Free None); try done.
  - by rw Ho.
  - by left.
  - intros ws. rw Hturn (with_status_eq (with_mutex _ c) i th) //. cbn. by rw (inv_mem _ _ _ _ _ _ _ _ _ _ Hinv).
  - intros w' c' Hrefs. unfold thread_ok, owner_ok. split; [done|]. cbn -[total] in *. rw Hrefs. split_and!; try done.
    pose proof (sum_list_with_lookup refs _ _ _ Hi). unfold total. lia.
Qed.

Lemma good_back w (c : machine) i prog th inf u k t n m eff todo cur cs :
  inv 0 w c -> programs !! i = Some prog -> threads c !! i = Some th -> infos w !! i = Some inf ->
  owner w = Held i -> status_of th = Running t -> in_call prog (done_by i (hist w)) th inf eff todo cur cs ->
  items (shared w) = [] -> back u k (shared w) m (owned w) t -> parked n u eff todo cur k -> (0 < refs inf)%nat ->
  turns inf = (n + m + 1 + cost cs)%nat -> good_turn w c i th.
Proof.
  intros Hinv Hp Ht Hi Ho Hs Hc Hv Hb Hk Hr Htu. destruct (owner_held _ _ _ Hinv Ho) as (Hmu & Hbe & Hlt).
  destruct (held_live _ _ _ Hinv Ho) as [Lm Lc].
  pose proof (turn_running c i th t) as Hturn. pose proof (undefined_running q c i th t Ht Hs) as Hu.
  pose proof (inv_mem _ _ _ _ _ _ _ _ _ _ Hinv) as Hm. pose proof (inv_disjoint _ _ _ _ _ _ _ _ _ _ Hinv) as (D1 & D2 & _).
  remember (owned w) as h0 eqn:Eh. destruct Hb as [m m' h t k' Hlt' Et Ek Hrel|m m' h t t' Hlt' Et Hb|m m' h t B p k' Q Hlt' Et Hpre Hb]; subst h.
  - apply eqitree_inv_Vis_r in Et as (k1 & Et & Ek1).
    eapply (good_gives_up _ _ _ _ _ _ t (Sleeping u k1) (n + 1 + cost cs) (View [] (S (sleeping (shared w))) (woken (shared w)))); try done; cbn.
    + lia.
    + lia.
    + intros ws. rw Hturn // Et. cbn. by rw Lm ?Lc bool_decide_eq_true_2.
    + rw Hu Et. by rw Lm ?Lc bool_decide_eq_true_2.
    + eapply quiet_sleeping; [done|by apply in_call_status| |done..]. eapply parked_ext; [|done]. intros b. by rw Ek1 Ek.
  - apply eqitree_inv_Tau_r in Et as (t1 & Et & E1).
    eapply (good_goes_on _ _ _ _ _ _ t t1 (owned w) (n + m' + 1 + cost cs)); try done.
    + lia.
    + intros ws. by rw Hturn // Et -Hm.
    + by rw Hu Et.
    + eapply (holding_back _ _ _ _ _ _ _ _ _ _ _ t1 u k n m' eff todo cur cs); try done; [by apply in_call_status|by rw E1].
  - apply eqitree_inv_Vis_r in Et as (k1 & Et & Ek1).
    destruct (run_owned _ _ _ _ _ _ _ _ _ _ _ _ Hinv Hpre) as (b & h' & E & (Hd1 & Hd2 & _) & HQ).
    eapply (good_goes_on _ _ _ _ _ _ t (k1 b) h' (n + m' + 1 + cost cs)); try done.
    + lia.
    + intros ws. rw Hturn // Et. cbn. by rw E.
    + by rw Hu Et E.
    + eapply (holding_back _ _ _ _ _ _ _ _ _ _ _ (k1 b) u k n m' eff todo cur cs); try done; [by apply in_call_status|rw Ek1; by apply Hb].
Qed.

(** An operation takes effect. *)
Lemma takes_effect w (c : machine) i prog th inf t n o a r eff todo cur cs :
  inv 0 w c -> programs !! i = Some prog -> threads c !! i = Some th -> infos w !! i = Some inf ->
  owner w = Held i -> status_of th = Running t -> (0 < refs inf)%nat -> turns inf = (n + 1 + cost cs)%nat ->
  in_call prog (done_by i (hist w)) th inf eff (o :: todo) cur cs -> fifo_step func n_threads o a (items (shared w)) r ->
  let v' := View r (sleeping (shared w)) (woken (shared w)) in
  let inf' := Info (refs inf) (turns inf) (pred (left_work inf)) in
  let w' := World (hist w ++ [(i, (o, a))]) v' (owned w) (apart w) (<[i := inf']> (infos w)) (Held i) in
  critical n v' (owned w) eff todo (cur ++ [(o, a)]) t ->
  inv 0 w' c /\ in_call prog (done_by i (hist w')) th inf' eff todo (cur ++ [(o, a)]) cs /\
  total turns (infos w') = total turns (infos w).
Proof.
  intros Hinv Hp Ht Hi Ho Hs Hr Htu [Hc1 (past & Em & Ea & Eo) Hb Hok Hl] Hstep v' inf' w' Hcr.
  destruct (owner_held _ _ _ Hinv Ho) as (Hmu & Hbe & Hlt).
  assert (is_sleeping th = false /\ is_woken th = false) as [Hns Hnw] by (unfold is_sleeping, is_woken; by rw Hs).
  pose proof (inv_disjoint _ _ _ _ _ _ _ _ _ _ Hinv) as (D1 & D2 & _).
  assert (in_call prog (done_by i (hist w')) th inf' eff todo (cur ++ [(o, a)]) cs) as Hc'.
  { split; [destruct Hc1 as (c0 & E1 & E2); exists c0; by rw E2 fmap_app -app_assoc| |done|done|cbn in *; lia].
    exists past. change (hist w') with (hist w ++ [(i, (o, a))]). rw done_by_app done_by_mine Em -app_assoc.
    split_and!; [done..|]. rw Eo fmap_app -!app_assoc. done. }
  assert (c = Machine (Memory (owned w ∪ (apart w ∪ rest)) log) (monotonic c) (real c) (Some i) (<[i:=th]> (threads c))) as Ec.
  { rw list_insert_id // -Hmu -(inv_mem _ _ _ _ _ _ _ _ _ _ Hinv). by destruct c. }
  split; [|split; [done|pose proof (total_change turns _ i inf inf' Hi); unfold w'; cbn -[total] in *; lia]].
  rw Ec. eapply (owner_moves 0 w c i prog th inf th inf' [(o, a)] v' (owned w) (Held i) (Some i)); try done.
  - by rw Ho.
  - by right.
  - eapply fifo_next; [|done]. apply (inv_hist _ _ _ _ _ _ _ _ _ _ Hinv).
  - cbn in *. lia.
  - unfold v'. rw Hns. cbn. lia.
  - intros Hrefs. unfold thread_ok, owner_ok. cbn -[total] in *. rw decide_True //. split; [|by rw Hrefs].
    by eapply holding_critical.
Qed.

(** The number of threads that a signal wakes up. *)
Lemma signal_possible (c : machine) i (th : thread) t k :
  threads c !! i = Some th -> status_of th = Running t -> observe t = VisF Signal k ->
  live_cond (cond_of q) (mem c) = true ->
  exists ws c', turn (serve_call call_destroy func q) i ws c = Some c'.
Proof.
  intros Ht Hs Hob Hlive. destruct (existsb is_sleeping (threads c)) eqn:E.
  - pose proof (proj1 (existsb_exists _ _) E) as (thj & Hj & Hsl). apply list_elem_of_In, list_elem_of_lookup in Hj as [j Hj].
    exists [j]. rw (turn_running _ _ _ _ _ Ht Hs) Hob. cbn [Threads.perform]. rw Hlive E. cbn.
    unfold is_sleeping in Hsl. destruct (status_of thj) eqn:Ej; try done.
    assert (i <> j) as Hne by (intros ->; rw Ht in Hj; simplify_eq; congruence).
    unfold wake. rw (with_status_eq _ _ _ _ Ht) /= list_lookup_insert_ne //. rw Hj. cbn. rw Ej. by eexists.
  - exists []. rw (turn_running _ _ _ _ _ Ht Hs) Hob. cbn [Threads.perform]. rw Hlive E. cbn. by eexists.
Qed.

Lemma good_signal w (c : machine) i prog th inf t k n m eff todo cur cs :
  inv 0 w c -> programs !! i = Some prog -> threads c !! i = Some th -> infos w !! i = Some inf ->
  owner w = Held i -> status_of th = Running t -> in_call prog (done_by i (hist w)) th inf eff todo cur cs ->
  (0 < refs inf)%nat -> turns inf = (m + 1 + cost cs)%nat -> (n + wake_cost * n_threads < m)%nat -> observe t = VisF Signal k ->
  (forall s, (s <= sleeping (shared w))%nat -> (0 < sleeping (shared w) -> 0 < s)%nat ->
    critical n (View (items (shared w)) (sleeping (shared w) - s) (woken (shared w) + s)) (owned w) eff todo cur (k tt)) ->
  good_turn w c i th.
Proof.
  intros Hinv Hp Ht Hi Ho Hs Hc Hr Htu Hn Hob Hk. destruct (owner_held _ _ _ Hinv Ho) as (Hmu & Hbe & Hlt).
  assert (is_sleeping th = false /\ is_woken th = false) as [Hns Hnw] by (unfold is_sleeping, is_woken; by rw Hs).
  destruct (held_live _ _ _ Hinv Ho) as [_ Lc].
  split; [|split; [by rw (undefined_running _ _ _ _ _ Ht Hs) Hob Lc|left; by eapply signal_possible]].
  intros ws c' Hc'. rw (turn_running _ _ _ _ _ Ht Hs) Hob in Hc'. cbn [Threads.perform] in Hc'. rw Lc in Hc'. cbn [negb orb] in Hc'.
  destruct (existsb is_sleeping (threads c) && bool_decide (ws = [])) eqn:Ews; [done|].
  set (th' := Thread (calls th) (answers th) (Running (k tt))).
  set (inf' := Info (refs inf) (n + 1 + cost cs) (left_work inf)).
  rw (with_status_eq _ _ _ _ Ht) in Hc'. fold th' in Hc'. pose proof (wake_all_count _ _ _ Hc') as Hcount.
  pose proof (count_insert is_sleeping _ _ _ th' Ht) as Hins. rw Hns in Hins. cbn -[count] in Hcount, Hins.
  pose proof (inv_sleeping _ _ _ _ _ _ _ _ _ _ Hinv) as Hsl. pose proof (count_le is_sleeping (threads c)) as Hle.
  pose proof (inv_length _ _ _ _ _ _ _ _ _ _ Hinv) as [Hlen _]. pose proof (inv_disjoint _ _ _ _ _ _ _ _ _ _ Hinv) as (D1 & D2 & _).
  pose proof (inv_hist _ _ _ _ _ _ _ _ _ _ Hinv) as Hrun.
  destruct (owner_moves (length ws) w c i prog th inf th' inf' [] (View (items (shared w)) (sleeping (shared w) - length ws) (woken (shared w) + length ws))
    (owned w) (Held i) (Some i)) as [Hinv' Hturns]; try done.
  - by rw Ho.
  - by right.
  - by rw app_nil_r.
  - cbn. lia.
  - intros Hrefs. unfold thread_ok, owner_ok. cbn -[total] in *. rw decide_True // app_nil_r. split; [|by rw Hrefs].
    eapply (holding_critical _ _ _ _ _ _ _ _ _ _ _ (k tt) n eff todo cur cs); try done; [by apply in_call_status|].
    apply Hk; [lia|]. intros Hpos. destruct ws as [|x ws]; [|cbn; lia]. rw existsb_count bool_decide_eq_true_2 // andb_true_r in Ews.
    apply negb_false_iff, Nat.eqb_eq in Ews. lia.
  - rw -(inv_mem _ _ _ _ _ _ _ _ _ _ Hinv) -Hmu in Hinv'. rw -(Nat.add_0_r (length ws)) in Hinv'.
    destruct (inv_wake_all _ _ _ _ _ Hinv' Hc') as (w' & H1 & H2 & H3). exists w'. split; [done|].
    split; [cbn -[total] in *; unfold wake_cost in *; lia|by exists []].
Qed.

Lemma good_critical n v h eff todo cur t :
  critical n v h eff todo cur t -> forall w (c : machine) i prog th inf cs,
  inv 0 w c -> programs !! i = Some prog -> threads c !! i = Some th -> infos w !! i = Some inf ->
  owner w = Held i -> shared w = v -> owned w = h -> status_of th = Running t ->
  in_call prog (done_by i (hist w)) th inf eff todo cur cs ->
  (0 < refs inf)%nat -> turns inf = (n + 1 + cost cs)%nat -> good_turn w c i th.
Proof.
  intros Hcr. induction Hcr as [m n v h eff todo cur t t' Hm Et Hk _|m n v h eff todo cur t k Hm Et Hk _|m n v h eff todo cur t k Hm Et Hk _|m n v h eff todo cur t B p k Q Hm Et Hpre Hk _|
    n v h eff o a r todo cur t Hst Hk IH|m n v h eff todo cur t k Hm Et Hk _|m n v h eff cur t k Hm Et Hrel Hk|m n v h eff todo cur t u k Hm Et Hv Hrel Hk];
    intros w c i prog th inf cs Hinv Hp Ht Hi Ho Ev Eh Hs Hc Hr Htu;
    destruct (owner_held _ _ _ Hinv Ho) as (Hmu & Hbe & Hlt); destruct (held_live _ _ _ Hinv Ho) as [Lm Lc]; pose proof (turn_running c i th t) as Hturn;
    pose proof (undefined_running q c i th t Ht Hs) as Hu; pose proof (inv_mem _ _ _ _ _ _ _ _ _ _ Hinv) as Hmem;
    pose proof (inv_disjoint _ _ _ _ _ _ _ _ _ _ Hinv) as (D1 & D2 & _); subst v h.
  - apply eqitree_inv_Tau_r in Et as (t1 & Et & E1).
    eapply (good_goes_on _ _ _ _ _ _ t t1 (owned w) (n + 1 + cost cs)); try done; [lia| |by rw Hu Et|].
    + intros ws. by rw Hturn // Et -Hmem.
    + eapply (holding_critical _ _ _ _ _ _ _ _ _ _ _ t1 n eff todo cur cs); try done; [by apply in_call_status|by rw E1].
  - apply eqitree_inv_Vis_r in Et as (k1 & Et & E1).
    eapply (good_goes_on _ _ _ _ _ _ t (k1 (monotonic c)) (owned w) (n + 1 + cost cs)); try done; [lia| |by rw Hu Et|].
    + intros ws. by rw Hturn // Et -Hmem.
    + eapply (holding_critical _ _ _ _ _ _ _ _ _ _ _ (k1 (monotonic c)) n eff todo cur cs); try done; [by apply in_call_status|].
      rw E1. apply Hk. apply (inv_clock _ _ _ _ _ _ _ _ _ _ Hinv).
  - apply eqitree_inv_Vis_r in Et as (k1 & Et & E1).
    eapply (good_goes_on _ _ _ _ _ _ t (k1 (real c)) (owned w) (n + 1 + cost cs)); try done; [lia| |by rw Hu Et|].
    + intros ws. by rw Hturn // Et -Hmem.
    + eapply (holding_critical _ _ _ _ _ _ _ _ _ _ _ (k1 (real c)) n eff todo cur cs); try done; [by apply in_call_status|].
      rw E1. apply Hk. apply (inv_clock _ _ _ _ _ _ _ _ _ _ Hinv).
  - apply eqitree_inv_Vis_r in Et as (k1 & Et & E1).
    destruct (run_owned _ _ _ _ _ _ _ _ _ _ _ _ Hinv Hpre) as (b & h' & E & (Hd1 & Hd2 & _) & HQ).
    eapply (good_goes_on _ _ _ _ _ _ t (k1 b) h' (n + 1 + cost cs)); try done; [lia| |by rw Hu Et E|].
    + intros ws. rw Hturn // Et. cbn. by rw E.
    + eapply (holding_critical _ _ _ _ _ _ _ _ _ _ _ (k1 b) n eff todo cur cs); try done; [by apply in_call_status|rw E1; by apply Hk].
  - destruct (takes_effect _ _ _ _ _ _ _ _ _ _ _ _ _ _ _ Hinv Hp Ht Hi Ho Hs Hr Htu Hc Hst Hk) as (Hinv' & Hc' & Etot).
    assert (good_turn (World (hist w ++ [(i, (o, a))]) (View r (sleeping (shared w)) (woken (shared w))) (owned w) (apart w)
      (<[i := Info (refs inf) (turns inf) (pred (left_work inf))]> (infos w)) (Held i)) c i th) as (G1 & G2 & G3).
    { eapply IH; try done. cbn. rw list_lookup_insert_eq //. by eapply lookup_lt_Some. }
    split; [|split; [done|destruct G3 as [G3|[G3|[G3|(j & E & Hj)]]]; [by left|by right; left|by right; right; left|by injection E as ->]]].
    intros ws c' Hc1. destruct (G1 ws c' Hc1) as (w' & H1 & H2 & es & H3). exists w'. split; [done|].
    split; [by rw Etot in H2|]. exists ((o, a) :: es). by rw H3 -app_assoc.
  - apply eqitree_inv_Vis_r in Et as (k1 & Et & E1).
    eapply (good_signal _ _ _ _ _ _ t k1 n m); try done. intros s H1 H2. rw E1. by apply Hk.
  - apply eqitree_inv_Vis_r in Et as (k1 & Et & E1).
    eapply (good_gives_up _ _ _ _ _ _ t (Running (k1 tt)) (n + 1 + cost cs) (shared w)); try done; try (cbn; lia).
    + intros ws. rw Hturn // Et. cbn. by rw Lm ?Lc bool_decide_eq_true_2.
    + rw Hu Et. by rw Lm ?Lc bool_decide_eq_true_2.
    + eapply (quiet_running _ _ _ _ _ _ _ _ _ (k1 tt) n false eff [] cur cs); try done; [by apply in_call_status|by rw E1].
  - apply eqitree_inv_Vis_r in Et as (k1 & Et & E1).
    eapply (good_gives_up _ _ _ _ _ _ t (Sleeping u k1) (n + 1 + cost cs) (View [] (S (sleeping (shared w))) (woken (shared w)))); try done; try (cbn; lia).
    + intros ws. rw Hturn // Et. cbn. by rw Lm ?Lc bool_decide_eq_true_2.
    + rw Hu Et. by rw Lm ?Lc bool_decide_eq_true_2.
    + eapply quiet_sleeping; [done|by apply in_call_status| |done..]. eapply parked_ext; [|done]. intros b. by rw E1.
Qed.
End hold.

(** ** Queues between threads: every step of the machine

    The destruction, the events of the world around the threads, and the start. *)

(** A sleeper wakes up by himself. *)
Definition is_wake_up (e : event) : bool := match e with Spurious _ | Expired _ => true | _ => false end.
Definition is_turn (e : event) : bool := match e with Turn _ _ => true | _ => false end.

Section run.
Context `{Allocator} `{BlockAllocator} `{Hclocks : Clocks}.
Context (call_destroy : Z -> Z -> prog unit) (func : Z -> Z -> Z) (q free_func : Z).
Context (destroyed : list Z -> assertion) (rest : heap) (log : list string) (programs : list (list call)).
Abbreviation n_threads := (length programs).
Abbreviation cost := (cost programs).
Abbreviation machine := (machine call reply).
Abbreviation thread := (thread call reply).
Abbreviation inv := (inv func q free_func destroyed rest log programs).
Abbreviation good_turn := (good_turn func q free_func destroyed rest log programs call_destroy).
Abbreviation thread_ok := (thread_ok func q free_func destroyed programs).
Abbreviation owner_ok := (owner_ok q free_func destroyed programs).
Abbreviation turn := (turn (mutex_of q) (cond_of q)).
Abbreviation undefined_next := (undefined_next (mutex_of q) (cond_of q)).
Abbreviation step := (step (mutex_of q) (cond_of q) (serve_call call_destroy func q)).

(** ** What holds at any time *)

(** What a thread did and answered: whole calls in the order of its program, and
    in a call some of its operations; between calls nothing is open. *)
Definition accounted (prog : list call) (mine : list (op * reply)) (th : thread) : Prop :=
  exists past cur, mine = past ++ cur /\ answers th = past.*2 /\ all_ops prog = past.*1 ++ all_ops (calls th) /\
    cur.*1 `prefix_of` match status_of th, calls th with Idle, _ | _, [] => [] | _, c :: _ => ops_of c end.

(** The queue is gone, its elements are with the function of the caller. *)
Definition freed (r : list Z) (c : machine) : Prop :=
  exists h, mem c = Memory (h ∪ rest) log /\ h ##ₘ rest /\ at_heap (destroyed (rev r)) h.

(** The operations have taken effect one after the other, and nothing undefined
    comes next. *)
Record linearized (c : machine) (hist : list (nat * (op * reply))) : Prop := {
  lin_defined : forall i, undefined_next c i = false;
  lin_threads : length (threads c) = n_threads /\ forall i prog th, programs !! i = Some prog -> threads c !! i = Some th -> accounted prog (done_by i hist) th;
  lin_run : exists r, fifo_run func n_threads hist.*2 r /\ (Forall finished (threads c) -> freed r c)
}.

(** Nobody holds the mutex, and who is not finished sleeps beside an empty queue. *)
Definition at_rest (c : machine) : Prop :=
  mutex c = None /\ Forall (fun th => finished th \/ is_sleeping th = true) (threads c) /\
  (Forall finished (threads c) \/
   exists h h', mem c = Memory (h ∪ h') log /\ h ##ₘ h' /\ at_heap (protected q free_func [] (count is_sleeping (threads c))) h).

(** ** The destruction *)

(** Nobody waits when there are no more references. *)
Lemma nobody_sleeps w (c : machine) i :
  inv 0 w c -> total refs (infos w) = O -> owner w = Dying i -> existsb is_sleeping (threads c) = false.
Proof.
  intros Hinv Href Ho. rw existsb_count. apply negb_false_iff, Nat.eqb_eq. apply count_zero. intros j th Hj.
  destruct (lookup_both _ _ _ _ _ _ _ _ _ _ _ _ Hinv Hj) as (prog & inf & Hp & Hi).
  pose proof (inv_threads _ _ _ _ _ _ _ _ _ _ Hinv j prog th inf Hp Hj Hi) as Hok. unfold AsyncQueueInv.thread_ok in Hok. rw Ho in Hok.
  destruct (is_sleeping th) eqn:Es; [|done]. exfalso. case_decide as Hij.
  - destruct Hok as (t & n & cur & Hs & _). unfold is_sleeping in Es. by rw Hs in Es.
  - pose proof (waiting_refs _ _ _ _ _ _ _ _ _ Hok (or_introl Es)). pose proof (sum_list_with_lookup refs _ _ _ Hi).
    unfold total in Href. lia.
Qed.

(** The owner changes a cell. *)
Lemma run_owned_store w (c : machine) p o P o' :
  inv 0 w c -> at_heap (p ↦ o ∗ P)%I (owned w) ->
  exists h', cells (mem c) !! p = Some o /\ store p o' (mem c) = Some (tt, Memory (h' ∪ (apart w ∪ rest)) log) /\
    (h' ##ₘ apart w /\ h' ##ₘ rest /\ apart w ##ₘ rest) /\ at_heap (p ↦ o' ∗ P)%I h'.
Proof.
  intros Hinv HP.
  destruct (run_owned _ _ _ _ _ _ _ _ _ (fun _ => p ↦ o' ∗ P)%I (store p o') _ Hinv) as ([] & h' & E & Hd & HQ).
  { assert (p ↦ o ∗ P ⊢ wp (store p o') (fun _ => p ↦ o' ∗ P)) as [Hwp]; [|by apply Hwp]. iIntros "[Hp HP]".
    iApply wp_writes. iFrame "Hp". iIntros "Hp". iFrame. }
  exists h'. split; [|done]. rw (inv_mem _ _ _ _ _ _ _ _ _ _ Hinv). cbn [cells].
  destruct HP as (h1 & h2 & E1 & _ & [-> _] & _). rw E1 -map_union_assoc. apply lookup_union_Some_l, lookup_singleton_eq.
Qed.

Lemma good_dying w (c : machine) i prog th inf :
  inv 0 w c -> programs !! i = Some prog -> threads c !! i = Some th -> infos w !! i = Some inf ->
  owner w = Dying i -> good_turn w c i th.
Proof.
  intros Hinv Hp Ht Hi Ho. pose proof (inv_threads _ _ _ _ _ _ _ _ _ _ Hinv i prog th inf Hp Ht Hi) as Hok.
  unfold AsyncQueueInv.thread_ok in Hok. rw Ho decide_True // in Hok. destruct Hok as (t & n & cur & Hs & Hc & Hd & Hr & Htu).
  pose proof (inv_owner _ _ _ _ _ _ _ _ _ _ Hinv) as Hown. unfold AsyncQueueInv.owner_ok in Hown. rw Ho in Hown. destruct Hown as (Hmu & Hap & Href & Hlt).
  pose proof (turn_running call_destroy func q c i th t) as Hturn. pose proof (undefined_running q c i th t Ht Hs) as Hu.
  pose proof (inv_mem _ _ _ _ _ _ _ _ _ _ Hinv) as Hm. pose proof (inv_disjoint _ _ _ _ _ _ _ _ _ _ Hinv) as (D1 & D2 & _).
  assert (is_sleeping th = false /\ is_woken th = false) as [Hns Hnw] by (unfold is_sleeping, is_woken; by rw Hs).
  assert (existsb is_sleeping (threads c) = false) as Hnone by by apply (nobody_sleeps w c i).
  assert (forall t' h' n', (n' < n)%nat -> destroying q (destroyed (rev (items (shared w)))) cur.*2 n' h' t' -> h' ##ₘ rest ->
    (forall ws, turn (serve_call call_destroy func q) i ws c =
      Some (with_status i (Running t') (with_mem (Memory (h' ∪ (apart w ∪ rest)) log) c))) ->
    undefined_next c i = false -> good_turn w c i th) as Hgo.
  { intros t' h' n' Hn' Hd' Hh' Hturn' Hu'.
    eapply (good_owner _ _ _ _ _ _ _ _ _ _ i prog th inf (Thread (calls th) (answers th) (Running t')) (Info (refs inf) (n' + 1) (left_work inf)) (shared w) h' (Dying i) None); try done.
    - by rw Ho.
    - by right.
    - split; [|done]. rw Hap. apply map_disjoint_empty_r.
    - cbn. lia.
    - intros ws. rw Hturn' (with_status_eq (with_mem _ c) i th) //. cbn. by rw Hmu.
    - intros w' c' Hrefs. unfold AsyncQueueInv.thread_ok, AsyncQueueInv.owner_ok. cbn -[total] in *. rw decide_True // Hrefs.
      split; [|done]. exists t', n', cur. split; [done|]. split; [by apply in_call_status|]. done. }
  remember (owned w) as h0 eqn:Eh. destruct Hd as [m m' h t Hm' Et Hh|m m' h t t' Hm' Et Hd|m m' h t B p k Q Hm' Et Hpre Hk|m m' h t k P Hm' Et HP Hk|m m' h t k P Hm' Et HP Hk]; subst h.
  - apply eqitree_inv_Ret_r in Et. destruct Hc as [(c0 & Ec & _) (past & Em & Ea & Eo) Hb Hok Hl].
    eapply (good_owner _ _ _ _ _ _ _ _ _ _ i prog th inf (Thread [] (answers th ++ cur.*2) Idle) (Info (refs inf) 0 0) (shared w) (owned w) Gone None); try done.
    + by rw Ho.
    + by left.
    + cbn. lia.
    + cbn. lia.
    + intros ws. rw Hturn // Et. by rw Ec Hm Hmu.
    + by rw Hu Et.
    + intros w' c' Hrefs. unfold AsyncQueueInv.thread_ok, AsyncQueueInv.owner_ok. cbn -[total done_by] in *. rw Hrefs. split; [|done].
      apply quiet_idle; try done; cbn [answers calls]; [by rw Em Ea fmap_app|by rw Eo Em fmap_app /= !app_nil_r].
  - apply eqitree_inv_Tau_r in Et as (t1 & Et & E1).
    eapply (Hgo t1 (owned w) m'); try done; [by rw E1| |by rw Hu Et]. intros ws. by rw Hturn // Et -Hm.
  - apply eqitree_inv_Vis_r in Et as (k1 & Et & E1).
    destruct (run_owned _ _ _ _ _ _ _ _ _ _ _ _ Hinv Hpre) as (b & h' & E & (Hd1 & Hd2 & _) & HQ).
    eapply (Hgo (k1 b) h' m'); try done; [rw E1; by apply Hk| |by rw Hu Et E].
    intros ws. rw Hturn // Et. cbn. by rw E.
  - apply eqitree_inv_Vis_r in Et as (k1 & Et & E1).
    destruct (run_owned_store _ _ _ _ _ (Mutex false) Hinv HP) as (h' & L & E & (Hd1 & Hd2 & _) & HQ).
    assert (live_mutex (mutex_of q) (mem c) = true) as Hlive by by rw /live_mutex L.
    eapply (Hgo (k1 tt) h' m'); try done; [rw E1; by apply Hk| |by rw Hu Et Hlive Hmu].
    intros ws. rw Hturn // Et. cbn. by rw Hlive Hmu E.
  - apply eqitree_inv_Vis_r in Et as (k1 & Et & E1).
    destruct (run_owned_store _ _ _ _ _ (Cond false) Hinv HP) as (h' & L & E & (Hd1 & Hd2 & _) & HQ).
    assert (live_cond (cond_of q) (mem c) = true) as Hlive by by rw /live_cond L.
    eapply (Hgo (k1 tt) h' m'); try done; [rw E1; by apply Hk| |by rw Hu Et Hlive Hnone].
    intros ws. rw Hturn // Et. cbn. by rw Hlive Hnone E.
Qed.

Context (Hfunc : forall x y, - 2 ^ 31 < func x y < 2 ^ 31) (Hthreads : Z.of_nat n_threads < 2 ^ 31) (Hq : q <> 0).
Context (Hkeep : free_func = NULL -> forall l, destroyed [] ⊢ destroyed l).
Context (Hdestroy : free_func <> NULL -> forall l d, {{ destroyed l }} call_destroy free_func d {{ _b, destroyed (l ++ [d]) }}).

Lemma good_thread w (c : machine) i th : inv 0 w c -> threads c !! i = Some th -> good_turn w c i th.
Proof.
  intros Hinv Ht. destruct (lookup_both _ _ _ _ _ _ _ _ _ _ _ _ Hinv Ht) as (prog & inf & Hp & Hi).
  pose proof (inv_threads _ _ _ _ _ _ _ _ _ _ Hinv i prog th inf Hp Ht Hi) as Hok. unfold AsyncQueueInv.thread_ok in Hok.
  destruct (decide (owner_of (owner w) = Some i)) as [Ho|Ho]; [|by eapply good_quiet_turn].
  destruct (owner w) as [|j|j|] eqn:E; try done; injection Ho as ->; [|by eapply good_dying].
  rw decide_True // in Hok. destruct Hok; [by eapply good_critical|by eapply good_back].
Qed.

(** One step: the world goes along, the turns that are left become fewer. *)
Lemma inv_step w (c : machine) e c' :
  inv 0 w c -> step e c = Some c' ->
  exists w', inv 0 w' c' /\
    (total turns (infos w') + Nat.b2n (is_turn e) <= total turns (infos w) + wake_cost * Nat.b2n (is_wake_up e))%nat /\
    exists i es, hist w' = hist w ++ map (pair i) es /\ (es <> [] -> exists ws, e = Turn i ws).
Proof.
  intros Hinv Hstep.
  assert (forall b i, wake b i c = Some c' -> (b = false -> exists th u k, threads c !! i = Some th /\ status_of th = Sleeping (Some u) k) ->
    exists w', inv 0 w' c' /\ (total turns (infos w') = total turns (infos w) + wake_cost)%nat /\ hist w' = hist w) as Hwake.
  { intros b i Hw Hb. destruct (inv_ahead _ _ _ _ _ _ _ _ _ Hinv) as (w1 & H1 & E1 & E2); [apply wake_count in Hw; lia|].
    destruct (inv_wake _ _ _ _ _ _ _ _ _ _ _ _ _ H1 Hw Hb) as (w2 & H2 & E3 & E4 & _). exists w2. by rw E3 E4 E1 E2. }
  destruct e as [i ws|i|i|now wall]; cbn [is_turn is_wake_up Nat.b2n] in *.
  - assert (exists th, threads c !! i = Some th) as [th Ht].
    { cbn in Hstep. unfold Threads.turn in Hstep. destruct (threads c !! i); [by eexists|done]. }
    destruct (good_thread _ _ _ _ Hinv Ht) as [Hgood _]. destruct (Hgood _ _ Hstep) as (w' & H1 & H2 & es & H3).
    exists w'. split; [done|]. split; [lia|]. exists i, es. split; [done|]. intros _. by exists ws.
  - destruct (Hwake true i Hstep) as (w' & H1 & H2 & H3); [done|]. exists w'. split; [done|]. split; [lia|]. exists i, []. by rw H3 app_nil_r.
  - cbn in Hstep. unfold expire in Hstep. destruct (threads c !! i) as [th|] eqn:Ht; [|done]. cbn in Hstep.
    destruct (status_of th) as [|t|[u|] k|k b] eqn:Hs; try done. destruct (u <=? monotonic c); [|done].
    destruct (Hwake false i Hstep) as (w' & H1 & H2 & H3); [intros _; by exists th, u, k|].
    exists w'. split; [done|]. split; [lia|]. exists i, []. by rw H3 app_nil_r.
  - cbn in Hstep. case_bool_decide as Hnow; [|done]. injection Hstep as <-. exists w.
    split; [|split; [lia|exists 0%nat, []; by rw app_nil_r]].
    destruct Hinv as [H1 H2 H3 H4 H5 H6 H7 H8 H9 H10]. split; try done. cbn. unfold clock_ok in *. split; [lia|apply Hnow].
Qed.

Lemma inv_defined w (c : machine) i : inv 0 w c -> undefined_next c i = false.
Proof.
  intros Hinv. destruct (threads c !! i) as [th|] eqn:Ht; [by apply (good_thread _ _ _ _ Hinv Ht)|].
  unfold Threads.undefined_next. by rw Ht.
Qed.

Lemma in_call_accounted prog mine (th : thread) inf eff todo cur cs :
  in_call prog mine th inf eff todo cur cs -> status_of th <> Idle -> accounted prog mine th.
Proof.
  intros [(c0 & Ec & Eops) (past & Em & Ea & Eo) _ _ _] Hs. exists past, cur. split_and!; [done|done| |].
  - rw Ec Eo /all_ops /= Eops. by rw -!app_assoc.
  - rw Ec. destruct (status_of th); [done|..]; rw Eops; by apply prefix_app_r.
Qed.

Lemma thread_accounted w (c : machine) i prog th :
  inv 0 w c -> programs !! i = Some prog -> threads c !! i = Some th -> accounted prog (done_by i (hist w)) th.
Proof.
  intros Hinv Hp Ht. destruct (lookup_both _ _ _ _ _ _ _ _ _ _ _ _ Hinv Ht) as (prog' & inf & Hp' & Hi). simplify_eq.
  pose proof (inv_threads _ _ _ _ _ _ _ _ _ _ Hinv i prog th inf Hp Ht Hi) as Hok. unfold AsyncQueueInv.thread_ok in Hok.
  assert (forall mine, quiet func q free_func destroyed programs prog mine th inf -> accounted prog mine th) as Hqt.
  { intros mine. destruct 1 as [Hs Ha Ho|?????? ? Hs Hc|?????? ? Hs Hc|?????? ?? Hs Hc]; try (eapply in_call_accounted; [done|by rw Hs]).
    exists mine, []. rw app_nil_r. split_and!; try done. by rw Hs. }
  destruct (owner w) as [|j|j|]; try by apply Hqt. all: case_decide; [|by apply Hqt].
  - destruct Hok as [???????Hs Hc|????????? Hs Hc]; (eapply in_call_accounted; [done|by rw Hs]).
  - destruct Hok as (t & n & cur & Hs & Hc & _). eapply in_call_accounted; [done|by rw Hs].
Qed.

Lemma inv_finished w (c : machine) : inv 0 w c -> Forall finished (threads c) -> owner w = Gone.
Proof.
  intros Hinv Hf.
  assert (forall i th inf, threads c !! i = Some th -> infos w !! i = Some inf -> owner_of (owner w) <> Some i /\ refs inf = O) as Hz.
  { intros i th inf Ht Hi. pose proof (Forall_lookup_1 _ _ _ _ Hf Ht) as [Hs Hc].
    destruct (lookup_both _ _ _ _ _ _ _ _ _ _ _ _ Hinv Ht) as (prog & inf' & Hp & Hi'). simplify_eq.
    pose proof (inv_threads _ _ _ _ _ _ _ _ _ _ Hinv i prog th inf Hp Ht Hi) as Hok.
    assert (owner_of (owner w) <> Some i) as Ho.
    { unfold AsyncQueueInv.thread_ok in Hok. intros E. destruct (owner w); try done; injection E as ->; rw decide_True // in Hok.
      - destruct Hok; congruence.
      - destruct Hok as (? & ? & ? & ? & _). congruence. }
    split; [done|]. apply thread_ok_quiet in Hok; [|done]. destruct Hok as [_ _ _ Hb _ _ _|?????? ? E|?????? ? E|?????? ?? E]; try congruence.
    by rw Hc in Hb. }
  pose proof (inv_owner _ _ _ _ _ _ _ _ _ _ Hinv) as Hown. unfold AsyncQueueInv.owner_ok in Hown.
  pose proof (inv_length _ _ _ _ _ _ _ _ _ _ Hinv) as [L1 L2].
  assert (total refs (infos w) = O) as Htot.
  { clear -Hz L1 L2. assert (forall i inf, infos w !! i = Some inf -> refs inf = O) as Hz'.
    { intros i inf Hi. destruct (lookup_lt_is_Some_2 (threads c) i) as [th Ht]; [apply lookup_lt_Some in Hi; lia|]. by eapply Hz. }
    clear -Hz'. induction (infos w) as [|x l IH]; [done|]. change (total refs (x :: l)) with (refs x + total refs l)%nat.
    rw (Hz' O x eq_refl) IH; [done|]. intros i y Hy. exact (Hz' (S i) y Hy). }
  destruct (owner w) as [|j|j|] eqn:E; [lia| | |done].
  all: assert (j < n_threads)%nat as Hj by naive_solver.
  all: destruct (lookup_lt_is_Some_2 (threads c) j) as [th Ht]; [lia|]; destruct (lookup_lt_is_Some_2 (infos w) j) as [inf Hi]; [lia|].
  all: by destruct (Hz _ _ _ Ht Hi).
Qed.

Lemma inv_linearized w (c : machine) : inv 0 w c -> linearized c (hist w).
Proof.
  intros Hinv. split.
  - intros i. by eapply inv_defined.
  - split; [apply (inv_length _ _ _ _ _ _ _ _ _ _ Hinv)|]. intros i prog th Hp Ht. by eapply thread_accounted.
  - exists (items (shared w)). split; [apply (inv_hist _ _ _ _ _ _ _ _ _ _ Hinv)|]. intros Hf.
    pose proof (inv_finished _ _ Hinv Hf) as E. pose proof (inv_owner _ _ _ _ _ _ _ _ _ _ Hinv) as Hown. unfold AsyncQueueInv.owner_ok in Hown.
    rw E in Hown. destruct Hown as (_ & Hap & _ & Hd). exists (owned w). pose proof (inv_mem _ _ _ _ _ _ _ _ _ _ Hinv) as Hm.
    rw Hap map_empty_union in Hm. split; [done|]. split; [|done]. apply (inv_disjoint _ _ _ _ _ _ _ _ _ _ Hinv).
Qed.

Lemma inv_rest w (c : machine) :
  inv 0 w c -> (forall i ws, turn (serve_call call_destroy func q) i ws c = None) -> at_rest c.
Proof.
  intros Hinv Hstuck. pose proof (inv_owner _ _ _ _ _ _ _ _ _ _ Hinv) as Hown. unfold AsyncQueueInv.owner_ok in Hown.
  pose proof (inv_length _ _ _ _ _ _ _ _ _ _ Hinv) as [L1 L2].
  assert (forall i th, threads c !! i = Some th -> finished th \/ is_sleeping th = true \/ exists j, owner w = Held j /\ j <> i) as Hgood.
  { intros i th Ht. destruct (good_thread _ _ _ _ Hinv Ht) as (_ & _ & [(ws & c' & E)|G]); [by rw Hstuck in E|done]. }
  assert (owner_of (owner w) = None) as Ho.
  { destruct (owner_of (owner w)) as [j|] eqn:E; [|done]. assert (j < n_threads)%nat as Hj.
    { destruct (owner w); try done; injection E as ->; naive_solver. }
    destruct (lookup_lt_is_Some_2 (threads c) j) as [th Ht]; [lia|].
    destruct (lookup_both _ _ _ _ _ _ _ _ _ _ _ _ Hinv Ht) as (prog & inf & Hp & Hi).
    pose proof (inv_threads _ _ _ _ _ _ _ _ _ _ Hinv j prog th inf Hp Ht Hi) as Hok. unfold AsyncQueueInv.thread_ok in Hok.
    assert (exists t, status_of th = Running t) as [t Hs].
    { destruct (owner w); try done; injection E as ->; rw decide_True // in Hok; [destruct Hok; by eexists|].
      destruct Hok as (t & ? & ? & Hs & _). by exists t. }
    destruct (Hgood _ _ Ht) as [[Hs' _]|[Hs'|(i & Ei & Hne)]]; [congruence|unfold is_sleeping in Hs'; by rw Hs in Hs'|].
    rw Ei in E. cbn in E. congruence. }
  assert (forall i th, threads c !! i = Some th -> finished th \/ is_sleeping th = true) as Hall.
  { intros i th Ht. destruct (Hgood i th Ht) as [|[|(j & Ej & _)]]; [by left|by right|by rw Ej in Ho]. }
  split; [by destruct (owner w); try done; apply Hown|]. split; [by apply Forall_lookup_2|].
  destruct (owner w) as [| | |] eqn:Eo; try done.
  - right. destruct Hown as (_ & [Hr _ Hsig] & _ & Hpos). exists (owned w), (apart w ∪ rest).
    pose proof (inv_disjoint _ _ _ _ _ _ _ _ _ _ Hinv) as (D1 & D2 & _).
    split; [apply (inv_mem _ _ _ _ _ _ _ _ _ _ Hinv)|]. split; [by apply map_disjoint_union_r|].
    pose proof (inv_sleeping _ _ _ _ _ _ _ _ _ _ Hinv) as Hsl. pose proof (inv_woken _ _ _ _ _ _ _ _ _ _ Hinv) as Hwk.
    rw (count_zero is_woken) in Hwk.
    2: { intros i th Ht. unfold is_woken. destruct (Hall _ _ Ht) as [[Hs _]|Hs]; [by rw Hs|]. unfold is_sleeping in Hs. by destruct (status_of th). }
    rw Hwk !Nat.add_0_r in Hr Hsl Hsig. rw -Hsl. replace (items (shared w)) with (@nil Z) in Hr; [done|].
    assert (0 < sleeping (shared w))%nat as Hs; [|specialize (Hsig Hs); destruct (items (shared w)); cbn in *; [done|lia]].
    destruct (decide (sleeping (shared w) = O)) as [E|]; [|lia]. exfalso.
    assert (Forall finished (threads c)) as Hf; [|by rw (inv_finished _ _ Hinv Hf) in Eo].
    apply Forall_lookup_2. intros i th Ht. destruct (Hall _ _ Ht) as [|Hs]; [done|].
    pose proof (sum_list_with_lookup (fun x : thread => Nat.b2n (is_sleeping x)) _ _ _ Ht) as Hx. cbn in Hx. rw Hs in Hx. unfold count in Hsl.
    cbn in Hx. lia.
  - left. destruct Hown as (_ & _ & Htot & _). apply Forall_lookup_2. intros i th Ht. destruct (Hall _ _ Ht) as [|Hs]; [done|].
    destruct (lookup_both _ _ _ _ _ _ _ _ _ _ _ _ Hinv Ht) as (prog & inf & Hp & Hi).
    pose proof (inv_threads _ _ _ _ _ _ _ _ _ _ Hinv i prog th inf Hp Ht Hi) as Hok.
    apply thread_ok_quiet in Hok; [|by rw Eo]. pose proof (waiting_refs _ _ _ _ _ _ _ _ _ Hok (or_introl Hs)).
    pose proof (sum_list_with_lookup refs _ _ _ Hi). unfold total in Htot. lia.
Qed.

(** ** The start *)

Definition all_turns : nat := sum_list_with cost programs.
Definition start_info (p : list call) : info := Info 1 (cost p) (work p).

Lemma total_start f g ps : (forall p, f (start_info p) = g p) -> total f (map start_info ps) = sum_list_with g ps.
Proof. intros Hfg. unfold total. induction ps as [|p ps IH]; [done|]. cbn [map sum_list_with]. by rw Hfg IH. Qed.

Lemma sum_ones {A} (l : list A) : sum_list_with (fun _ => 1%nat) l = length l.
Proof. induction l; cbn; auto. Qed.

Lemma inv_start h1 h2 now wall :
  at_heap (protected q free_func [] 0) h1 -> at_heap (beside q destroyed n_threads) h2 -> h1 ##ₘ h2 -> h1 ##ₘ rest -> h2 ##ₘ rest ->
  clock_ok now -> wall_ok wall -> programs <> [] -> Forall (fun p => balanced 1 p /\ Forall call_ok p) programs ->
  Z.of_nat (length programs + sum_list_with work programs) < 2 ^ 31 ->
  inv 0 (World [] (View [] 0 0) h1 h2 (map start_info programs) Free) (start (Memory (h1 ∪ (h2 ∪ rest)) log) now wall programs).
Proof.
  intros H1 H2 D1 D2 D3 Hnow Hwall Hne Hok Hwork.
  assert (total refs (map start_info programs) = n_threads) as Href by (rw (total_start _ (fun _ => 1%nat)) // sum_ones; done).
  assert (forall p : thread -> bool, (forall x, p (Thread x [] Idle) = false) -> count p (map (fun x => Thread x [] Idle) programs) = O) as Hz.
  { intros p Hp. apply count_zero. intros i x Hx. change (map ?f ?l) with (f <$> l) in Hx. rw list_lookup_fmap in Hx.
    destruct (programs !! i); [|done]. injection Hx as <-. apply Hp. }
  split; cbn -[count total]; try done.
  - constructor.
  - by rw !length_map.
  - rw Href (total_start left_work work) //.
  - by rw Hz.
  - by rw Hz.
  - intros i prog th inf Hp Ht Hi. change (map ?f ?l) with (f <$> l) in Ht, Hi. rw list_lookup_fmap Hp in Ht. rw list_lookup_fmap Hp in Hi.
    injection Ht as <-. injection Hi as <-. pose proof (Forall_lookup_1 _ _ _ _ Hok Hp) as [Hb Hc]. by apply quiet_idle.
  - unfold AsyncQueueInv.owner_ok. cbn -[total]. rw Href. split; [done|]. split; [by split; cbn; [|constructor|lia]|]. split; [done|].
    by destruct programs; [|cbn; lia].
Qed.
End run.
