(* ===== verification/AsyncQueueCorrect.v ===== *)
(** * What gasyncqueue.c promises

    Threads share a queue. Whatever the order of their steps, the calls take
    effect one after the other on one sequence, and no thread that could go on
    stays asleep. *)

From stdpp Require Import gmap.
From iris.proofmode Require Import proofmode.
From ITree Require Import ITree ITreeFacts.
From S2P Require Import Prelude Heap DList DListSpec DQueue DQueueOps DListCorrect Threads.
From S2P Require Import AsyncQueue AsyncQueueSpec AsyncQueueOps AsyncQueueInv AsyncQueueHold.
Local Open Scope Z_scope.
Local Open Scope xpl_scope.

(** ** The start *)

#[local] Instance writes_free_func p a x :
  Writes (set_free_func p x) p (AsyncQueue a) (AsyncQueue (XAsyncQueue x (aq_waitinxthreads a))).
Proof. intros m E. unfold set_free_func, load_async, load, store, mbind, prog_bind. by rw E /= E. Qed.

Section start.
Context `{Allocator} `{BlockAllocator} `{Hclocks : Clocks}.

(** A reference for each of the threads that are to be started. *)
Fixpoint references (n : nat) (queue : Z) : prog unit :=
  match n with O => mret tt | S n => g_atomic_int_inc (ref_count_of queue);; references n queue end.
(** The thread that makes the queue has a reference from the start. *)
Definition set_up (item_free_func : Z) (n_threads : nat) : prog Z :=
  queue ← g_async_queue_new_full item_free_func;
  references (pred n_threads) queue;;
  mret queue.

Lemma at_cell p o (P : assertion) h : p <> 0 -> h !! p = None -> at_heap P h -> at_heap (p ↦ o ∗ P)%I (<[p:=o]> h).
Proof.
  intros Hp Hn HP. exists {[p := o]}, h. split_and!; [by rw insert_union_singleton_l|by apply map_disjoint_singleton_l|done|done].
Qed.

Lemma new_full_ok f :
  {{ emp }} g_async_queue_new_full f {{ q, ⌜q <> 0⌝ ∧ (protected q f [] 0 ∗ members q 1) }}.
Proof.
  set (body := fun queue : Z => g_mutex_init (mutex_of queue);; g_cond_init (cond_of queue);;
     g_queue_init (queue_of queue);; set_waiting queue 0;; store_word (ref_count_of queue) 1;; set_free_func queue f;; mret queue).
  set (u := uninitialised).
  assert (forall q, {{ q ↦ AsyncQueue (XAsyncQueue u u) ∗ queue_of q ↦ Queue (XQueue u u u) ∗ ref_count_of q ↦ Word u ∗
      mutex_of q ↦ Mutex false ∗ cond_of q ↦ Cond false ∗ emp }}
    body q {{ q', ⌜q' = q /\ q <> 0⌝ ∧ (protected q f [] 0 ∗ members q 1) }}) as Hbody.
  { intros q. iIntros "(Hq & Hl & Hc & Hm & Hv & _)". iDestruct (points_to_not_null with "Hq") as %Hq. unfold body, g_mutex_init, g_cond_init.
    wp_steps. iApply (wp_call _ _ _ _ _ (queue_init_ok _ _)). iFrame "Hl". iIntros (_) "Hl".
    wp_steps. iSplit; [done|]. iFrame. by iSplit. }
  split. intros h Hh rest log Hd. change (h = ∅) in Hh. subst h. rw map_empty_union.
  set (q := new_block rest). pose proof (new_block_free rest) as Hfree. pose proof (new_block_positive rest) as Hpos. fold q in Hfree, Hpos.
  set (h := <[q := AsyncQueue (XAsyncQueue u u)]> (<[queue_of q := Queue (XQueue u u u)]> (<[ref_count_of q := Word u]>
    (<[mutex_of q := Mutex false]> (<[cond_of q := Cond false]> ∅)))) : heap).
  destruct (wp_sound _ _ _ (Hbody q) h rest log) as (q' & h' & Er & Hd' & [[-> _] Hp]%at_and).
  { unfold h. repeat (apply at_cell; [unfold queue_of, ref_count_of, mutex_of, cond_of; lia| |]); try done.
    all: rw !lookup_insert_ne ?lookup_empty //; unfold queue_of, ref_count_of, mutex_of, cond_of; lia. }
  { unfold h. rw !map_disjoint_insert_l. split_and!; try apply Hfree; try apply map_disjoint_empty_l;
      unfold queue_of, ref_count_of, mutex_of, cond_of; lia. }
  assert (q <> 0) by lia. exists q, h'. split; [|done]. unfold g_async_queue_new_full. cbn [cells logged]. fold q. fold u.
  rw -Er /h. by rw -!insert_union_l map_empty_union.
Qed.

Lemma references_ok q n k : Z.of_nat (n + k) < 2 ^ 31 ->
  {{ members q (Z.of_nat k) }} references n q {{ _b, members q (Z.of_nat (n + k)) }}.
Proof.
  revert k. induction n as [|n IH]; intros k Hn; iIntros "(Hc & Hm & Hv)"; cbn [references]; [wp_steps; iFrame|].
  unfold g_atomic_int_inc. wp_steps. rw i32_small; [|lia]. replace (Z.of_nat k + 1) with (Z.of_nat (S k)) by lia.
  replace (S n + k)%nat with (n + S k)%nat by lia. iApply (IH (S k)); [lia|iFrame].
Qed.

Lemma set_up_ok f n : (0 < n)%nat -> Z.of_nat n < 2 ^ 31 ->
  {{ emp }} set_up f n {{ q, ⌜q <> 0⌝ ∧ (protected q f [] 0 ∗ members q (Z.of_nat n)) }}.
Proof.
  intros H1 H2. iIntros "_". unfold set_up. iApply (wp_call emp _ _ _ _ (new_full_ok f)). iSplit; [done|].
  iIntros (q) "(%Hq & Hp & Hc)". iApply (wp_call _ _ _ _ _ (references_ok q (pred n) 1 ltac:(lia))). iFrame "Hc". iIntros (_) "Hc".
  wp_steps. iSplit; [done|]. iFrame. by replace (pred n + 1)%nat with n by lia.
Qed.
End start.

(** ** The threads *)

Section threads.
Context `{Allocator} `{BlockAllocator} `{Hclocks : Clocks}.
Context (call_destroy : Z -> Z -> prog unit) (func : Z -> Z -> Z) (free_func : Z).
Context (destroyed : list Z -> assertion) (rest : heap) (log : list string) (programs : list (list call)).
Abbreviation n_threads := (length programs).

(** What the threads may do: each uses the queue while it has a reference and
    drops it in the end, what it asks for is [op_ok], the comparison fits an [int] and can be negated, the
    function that frees an element does that, and the operations and references
    are fewer than [2 ^ 31]. *)
Record clients_ok : Prop := {
  clients_compare : forall x y, - 2 ^ 31 < func x y < 2 ^ 31;
  clients_keep : free_func = NULL -> forall l, destroyed [] ⊢ destroyed l;
  clients_destroy : free_func <> NULL -> forall l d, {{ destroyed l }} call_destroy free_func d {{ _b, destroyed (l ++ [d]) }};
  clients_some : programs <> [];
  clients_calls : Forall (fun p => balanced 1 p /\ Forall call_ok p) programs;
  clients_size : Z.of_nat (n_threads + sum_list_with work programs) < 2 ^ 31
}.

Lemma started h now wall :
  clients_ok -> at_heap (destroyed []) h -> h ##ₘ rest -> clock_ok now -> wall_ok wall ->
  exists q m w, set_up free_func n_threads (Memory (h ∪ rest) log) = Some (q, m) /\ q <> 0 /\
    inv func q free_func destroyed rest log programs 0 w (start m now wall programs) /\
    hist w = [] /\ total turns (infos w) = all_turns programs.
Proof.
  intros [_ _ _ Hne Hok Hsize] Hh Hd Hnow Hwall. assert (0 < n_threads)%nat as Hpos by (destruct programs; [done|cbn; lia]).
  destruct (wp_sound _ _ _ (set_up_ok free_func n_threads Hpos ltac:(lia)) ∅ (h ∪ rest) log) as (q & h' & E & Hd' & Hp);
    [done|apply map_disjoint_empty_l|]. apply at_and in Hp as [Hq (h1 & h2 & -> & D & H1 & H2)].
  apply map_disjoint_union_r in Hd' as [D1 D2]. apply map_disjoint_union_l in D1 as [D11 D12], D2 as [D21 D22].
  exists q, (Memory (h1 ∪ (h2 ∪ h ∪ rest)) log). eexists. split; [|split; [done|split; [|split]]].
  - rw map_empty_union in E. by rw E -!map_union_assoc.
  - apply inv_start; try done.
    + lia.
    + by exists h2, h.
    + by apply map_disjoint_union_r.
    + by apply map_disjoint_union_l.
  - done.
  - cbn -[total]. by rw (total_start _ turns (cost programs)).
Qed.

(** C1: Whatever the order of the steps of the threads, signals, spurious
    wake-ups, expired waits and clocks, no step has undefined behaviour, and the
    operations of all the calls take effect one after the other on one sequence,
    each in a turn of its own thread during its own call: at any time what a
    thread has answered is what that history says, and the end leaves the
    elements that are left to the function that frees them and nothing else. In
    particular nobody uses the mutex or the condition variable when they are
    cleared or freed. The calls are those of [clients_ok] and [op_ok]: data is not
    [NULL], timeouts are below [2 ^ 62] microseconds, and the end time of a timed
    pop, past or not, lies after the start of the monotonic clock. *)
Theorem async_queue_linearizable h now wall :
  clients_ok -> at_heap (destroyed []) h -> h ##ₘ rest -> clock_ok now -> wall_ok wall ->
  exists q m, set_up free_func n_threads (Memory (h ∪ rest) log) = Some (q, m) /\
  exists simulates : machine call reply -> list (nat * (op * reply)) -> Prop,
    simulates (start m now wall programs) [] /\
    forall c hist, simulates c hist ->
      linearized func q destroyed rest log programs c hist /\
      forall e c', step (mutex_of q) (cond_of q) (serve_call call_destroy func q) e c = Some c' ->
        exists i es, simulates c' (hist ++ map (pair i) es) /\ (es <> [] -> exists ws, e = Turn i ws).
Proof.
  intros Hok Hh Hd Hnow Hwall. destruct (started h now wall Hok Hh Hd Hnow Hwall) as (q & m & w & E & Hq & Hinv & Hhist & _).
  destruct Hok as [Hfunc Hkeep Hdestroy _ _ Hsize]. exists q, m. split; [done|].
  exists (fun c hist => exists w, inv func q free_func destroyed rest log programs 0 w c /\ AsyncQueueInv.hist w = hist).
  split; [by exists w|]. intros c hist (w' & Hw' & <-). split.
  - eapply inv_linearized; try done; lia.
  - intros e c' Hstep. destruct (inv_step call_destroy func q free_func destroyed rest log programs Hfunc ltac:(lia) Hq Hkeep Hdestroy _ _ _ _ Hw' Hstep)
      as (w1 & H1 & _ & i & es & H3 & H4). exists i, es. split; [by exists w1|done].
Qed.

(** C2: The threads come to rest: however they are scheduled, they take no more
    than a number of turns that the calls determine, and four for each time one
    of them wakes up for no reason or because its time is up. When no thread can
    take a turn the mutex is free, and either all threads are finished, or those
    that are not sleep and the queue is empty: no wake-up is lost. *)
Theorem async_queue_comes_to_rest h now wall :
  clients_ok -> at_heap (destroyed []) h -> h ##ₘ rest -> clock_ok now -> wall_ok wall ->
  exists q m, set_up free_func n_threads (Memory (h ∪ rest) log) = Some (q, m) /\
  forall es c, steps (mutex_of q) (cond_of q) (serve_call call_destroy func q) es (start m now wall programs) = Some c ->
    (count is_turn es <= all_turns programs + wake_cost * count is_wake_up es)%nat /\
    ((forall i ws, turn (mutex_of q) (cond_of q) (serve_call call_destroy func q) i ws c = None) -> at_rest q free_func log c).
Proof.
  intros Hok Hh Hd Hnow Hwall. destruct (started h now wall Hok Hh Hd Hnow Hwall) as (q & m & w & E & Hq & Hinv & _ & Ht).
  destruct Hok as [Hfunc Hkeep Hdestroy _ _ Hsize]. exists q, m. split; [done|]. intros es c Hsteps.
  assert (exists w', inv func q free_func destroyed rest log programs 0 w' c /\
    (total turns (infos w') + count is_turn es <= total turns (infos w) + wake_cost * count is_wake_up es)%nat) as (w' & Hw' & Hle).
  { clear E Ht. revert w Hinv Hsteps. generalize (@start call reply m now wall programs). induction es as [|e es IH]; intros c0 w Hinv Hsteps.
    - injection Hsteps as ->. exists w. split; [done|]. cbn. lia.
    - cbn in Hsteps. destruct (step _ _ _ e c0) as [c1|] eqn:Estep; [|done].
      destruct (inv_step call_destroy func q free_func destroyed rest log programs Hfunc ltac:(lia) Hq Hkeep Hdestroy _ _ _ _ Hinv Estep)
        as (w1 & H1 & H2 & _). destruct (IH c1 w1 H1 Hsteps) as (w2 & H3 & H4). exists w2. split; [done|].
      change (count is_turn (e :: es)) with (Nat.b2n (is_turn e) + count is_turn es)%nat.
      change (count is_wake_up (e :: es)) with (Nat.b2n (is_wake_up e) + count is_wake_up es)%nat. lia. }
  split; [lia|]. intros Hstuck. eapply inv_rest; try done; lia.
Qed.
End threads.

(** ** Pops that come too late *)

Section late.
Context `{Allocator} `{Hclocks : Clocks}.
Context (q free_func now wall : Z).



Abbreviation steps := (steps (mutex_of q) (cond_of q)).
Abbreviation step := (step (mutex_of q) (cond_of q)).
Abbreviation undefined_next := (undefined_next (mutex_of q) (cond_of q)).
Abbreviation alone rest log t held h cs answers :=
  (Machine (Memory (h ∪ rest) log) now wall (if held : bool then Some 0%nat else None) [Thread cs answers (Running t)]).






End late.

(** ** An example *)

#[global, program] Instance bump_block_allocator : BlockAllocator := {| new_block := above_all |}.
Next Obligation. intros h p Hp. destruct (h !! p) eqn:E; [|done]. apply below_above_all in E. lia. Qed.
Next Obligation. intros h. apply above_all_positive. Qed.

(** The system has been up for a second, and it is not 2027 yet. *)
#[global, program] Instance example_clocks : Clocks := {|
  clock_from := 1000000;
  wall_from := 1600000000000000;
  wall_to := 1800000000000000
|}.
Next Obligation. lia. Qed.

(** One thread pops what the other pushes, and waits until a time on the wall clock. *)
Definition two_threads : list (list call) :=
  [[Call (Push 7); Call (TryPop); Unref];
   [Call Pop; Call (TimedPop (Some (TimeVal 1800000000 0))); Session [Length; TimeoutPop 5] true]].

Lemma two_threads_ok : clients_ok (fun _ _ => mret tt) (fun _ _ => 0) NULL (fun _ => emp%I) two_threads.
Proof.
  split; try done.
  - repeat (apply Forall_cons; split); try apply Forall_nil; split; cbn; try lia; repeat (apply Forall_cons; split); try apply Forall_nil;
      unfold call_ok; cbn; repeat (apply Forall_cons; split); try apply Forall_nil; cbn; lia || done.
Qed.

Lemma async_queue_linearizable_witness :
  exists q m, set_up NULL 2 (Memory ∅ []) = Some (q, m) /\
    linearized (fun _ _ => 0) q (fun _ => emp%I) ∅ [] two_threads (start m 5000000 1700000000000000 two_threads) [].
Proof.
  destruct (async_queue_linearizable (fun _ _ => mret tt) (fun _ _ => 0) NULL (fun _ => emp%I) ∅ [] two_threads ∅ 5000000 1700000000000000
    two_threads_ok eq_refl (map_disjoint_empty_l ∅) ltac:(done) ltac:(done)) as (q & m & E & R & Hstart & HR).
  exists q, m. split; [done|]. by apply HR.
Defined.

Lemma async_queue_comes_to_rest_witness :
  exists q m, set_up NULL 2 (Memory ∅ []) = Some (q, m) /\
    forall es c, steps (mutex_of q) (cond_of q) (serve_call (fun _ _ => mret tt) (fun _ _ => 0) q) es (start m 5000000 1700000000000000 two_threads) = Some c ->
      (count is_turn es <= 1000 + 4 * count is_wake_up es)%nat.
Proof.
  destruct (async_queue_comes_to_rest (fun _ _ => mret tt) (fun _ _ => 0) NULL (fun _ => emp%I) ∅ [] two_threads ∅ 5000000 1700000000000000
    two_threads_ok eq_refl (map_disjoint_empty_l ∅) ltac:(done) ltac:(done)) as (q & m & E & Hrest).
  exists q, m. split; [done|]. intros es c Hsteps. destruct (Hrest es c Hsteps) as [H _].
  assert (all_turns two_threads <= 1000)%nat by (vm_compute; lia). unfold wake_cost in H. lia.
Defined.



