(* ===== verification/VariantType.v ===== *)
(** * The type strings of variants: src/glib/gvarianttype.c

    A type is a pointer to its type string, which need not be terminated: a
    buffer and a place in it. Reading outside a buffer, and a failing assertion,
    is [None]. *)

From S2P Require Import Prelude.
From S2P Require Import Utf8.
From Stdlib Require Import Ascii.
Local Open Scope Z_scope.
Local Open Scope xpl_scope.

(** A character constant. *)
Local Notation "'chr' a" :=
  ltac:(let v := eval vm_compute in (Z.of_N (N_of_ascii a%char)) in exact v)
  (at level 10, a constr, only parsing).

(** [strchr (set, c) != NULL]: a string contains its terminator. *)
Definition strchr_found (set : list Z) (c : Z) : bool := existsb (Z.eqb c) (set ++ [0]).

(** ** Scanning: gvarianttype.c *)

Definition G_VARIANT_MAX_RECURSION_DEPTH : nat := 128.

Definition at_limit (limit : option Z) (p : Z) : bool :=
  match limit with Some l => p =? l | None => false end.

(** The characters of the types that are not containers. *)
Definition basic_chars : list Z := Eval vm_compute in ascii_bytes "bynqiuxtdsogvr*?h".
Definition key_chars : list Z := Eval vm_compute in ascii_bytes "bynqihuxtdsog?".

(** [while (string == limit || *string != ')')], with what scans one type: the
    place behind the closing bracket and the depth. *)
Fixpoint tuple_loop (child : Z -> option (option (Z * Z))) (fuel : nat) (string : list Z)
    (limit : option Z) (p max_depth : Z) : option (option (Z * Z)) :=
  more ← (if at_limit limit p then Some true
          else c ← rd string p; Some (negb (c =? chr ")")));
  if (more : bool) then
    match fuel with
    | O => None
    | S fuel =>
        r ← child p;
        match r with
        | None => Some None
        | Some (p, child_depth) =>
            tuple_loop child fuel string limit p (Z.max max_depth (child_depth + 1))
        end
    end
  else Some (Some (p + 1, max_depth)).

(** The function, with what scans a child: [depth_limit == 0] or the function
    itself. [Some None] is [FALSE]; else the end pointer and the depth. *)
Definition scan_type (child : Z -> option (option (Z * Z))) (depth_limit : nat) (string : list Z)
    (limit : option Z) (p : Z) : option (option (Z * Z)) :=
  if at_limit limit p then Some None
  else
    c ← rd string p;
    if c =? 0 then Some None
    else
      let p := p + 1 in
      if c =? chr "(" then tuple_loop child (length string) string limit p 0
      else if c =? chr "{" then
        if (Nat.eqb depth_limit 0) || at_limit limit p then Some None
        else
          k ← rd string p;
          if (k =? 0) || negb (strchr_found key_chars k) then Some None
          else
            r ← child (p + 1);
            match r with
            | None => Some None
            | Some (p, child_depth) =>
                if at_limit limit p then Some None
                else
                  e ← rd string p;
                  if negb (e =? chr "}") then Some None
                  else Some (Some (p + 1, Z.max 0 (child_depth + 1)))
            end
      else if (c =? chr "m") || (c =? chr "a") then
        r ← child p;
        match r with
        | None => Some None
        | Some (p, child_depth) => Some (Some (p, Z.max 0 (child_depth + 1)))
        end
      else if existsb (Z.eqb c) basic_chars then Some (Some (p, Z.max 0 1))
      else Some None.

Fixpoint variant_type_string_scan_internal (depth_limit : nat) (string : list Z)
    (limit : option Z) (p : Z) : option (option (Z * Z)) :=
  scan_type
    (fun p =>
       match depth_limit with
       | O => Some None
       | S depth_limit => variant_type_string_scan_internal depth_limit string limit p
       end) depth_limit string limit p.

Definition xvariant_type_string_scan (string : list Z) (limit : option Z) (p : Z) :
    option (option Z) :=
  r ← variant_type_string_scan_internal G_VARIANT_MAX_RECURSION_DEPTH string limit p;
  Some (option_map fst r).

Definition xvariant_type_string_get_depth_ (string : list Z) (p : Z) : option Z :=
  r ← variant_type_string_scan_internal G_VARIANT_MAX_RECURSION_DEPTH string None p;
  match r with
  | None => Some 0
  | Some (endptr, depth) => c ← rd string endptr; Some (if negb (c =? 0) then 0 else depth)
  end.

Definition xvariant_type_string_is_valid (string : list Z) (p : Z) : option bool :=
  r ← xvariant_type_string_scan string None p;
  match r with
  | None => Some false
  | Some endptr => c ← rd string endptr; Some (c =? 0)
  end.

Definition xvariant_type_checked_ (string : list Z) (p : Z) : option (option Z) :=
  valid ← xvariant_type_string_is_valid string p;
  Some (if (valid : bool) then Some p else None).

(** ** Looking at a type *)

(** [while (type_string[index] == 'a' || type_string[index] == 'm')] *)
Fixpoint skip_prefixes (fuel : nat) (s : list Z) (p : Z) : option Z :=
  c ← rd s p;
  if (c =? chr "a") || (c =? chr "m") then
    match fuel with O => None | S fuel => skip_prefixes fuel s (p + 1) end
  else Some p.

(** [do ... while (brackets)]. The counter is an [int]; its overflow is undefined. *)
Fixpoint length_loop (fuel : nat) (s : list Z) (p brackets : Z) : option Z :=
  match fuel with
  | O => None
  | S fuel =>
      p ← skip_prefixes (length s) s p;
      c ← rd s p;
      let brackets :=
        if (c =? chr "(") || (c =? chr "{") then brackets + 1
        else if (c =? chr ")") || (c =? chr "}") then brackets - 1
        else brackets in
      if negb (i32 brackets =? brackets) then None
      else if negb (brackets =? 0) then length_loop fuel s (p + 1) brackets
      else Some (p + 1)
  end.

Definition xvariant_type_get_string_length (s : list Z) (p : Z) : option Z :=
  e ← length_loop (length s) s p 0; Some (e - p).

Definition xvariant_type_copy (s : list Z) (p : Z) : option (list Z) :=
  length ← xvariant_type_get_string_length s p;
  bytes ← cells_at s p length;
  Some (bytes ++ [0]).

(** [G_VARIANT_TYPE] checks the string; a failed check logs and gives [NULL],
    which [xvariant_type_copy] turns into [NULL] again. *)
Definition xvariant_type_new (s : list Z) (p : Z) : option (option (list Z)) :=
  type ← xvariant_type_checked_ s p;
  match type with
  | None => Some None
  | Some p => new ← xvariant_type_copy s p; Some (Some new)
  end.

Definition xvariant_type_peek_string (p : Z) : Z := p.

Definition xvariant_type_dup_string (s : list Z) (p : Z) : option (list Z) :=
  length ← xvariant_type_get_string_length s p;
  xstrndup (drop (Z.to_nat (xvariant_type_peek_string p)) s) length.

(** [for (i = 0; i < type_length; i++)] *)
Fixpoint definite_loop (n : nat) (s : list Z) (p : Z) : option bool :=
  match n with
  | O => Some true
  | S n =>
      c ← rd s p;
      if (c =? chr "*") || (c =? chr "?") || (c =? chr "r") then Some false
      else definite_loop n s (p + 1)
  end.

Definition xvariant_type_is_definite (s : list Z) (p : Z) : option bool :=
  type_length ← xvariant_type_get_string_length s p;
  definite_loop (Z.to_nat type_length) s p.

Definition xvariant_type_is_container (s : list Z) (p : Z) : option bool :=
  c ← rd s p; Some (existsb (Z.eqb c) (ascii_bytes "amr({v")).
Definition xvariant_type_is_basic (s : list Z) (p : Z) : option bool :=
  c ← rd s p; Some (existsb (Z.eqb c) (ascii_bytes "bynqihutxdsog?")).
Definition xvariant_type_is_maybe (s : list Z) (p : Z) : option bool :=
  c ← rd s p; Some (c =? chr "m").
Definition xvariant_type_is_array (s : list Z) (p : Z) : option bool :=
  c ← rd s p; Some (c =? chr "a").
Definition xvariant_type_is_tuple (s : list Z) (p : Z) : option bool :=
  c ← rd s p; Some ((c =? chr "r") || (c =? chr "(")).
Definition xvariant_type_is_dict_entry (s : list Z) (p : Z) : option bool :=
  c ← rd s p; Some (c =? chr "{").
Definition xvariant_type_is_variant (s : list Z) (p : Z) : option bool :=
  c ← rd s p; Some (c =? chr "v").

(** Characters are signed. *)
Definition i8 (c : Z) : Z := if c <? 0x80 then c else c - 0x100.

Fixpoint type_hash_loop (n : nat) (s : list Z) (p value : Z) : option Z :=
  match n with
  | O => Some value
  | S n => c ← rd s p; type_hash_loop n s (p + 1) (u32 (u32 (value << 5) - value + i8 c))
  end.

Definition xvariant_type_hash (s : list Z) (p : Z) : option Z :=
  length ← xvariant_type_get_string_length s p;
  type_hash_loop (Z.to_nat length) s p 0.

(** Two types in their buffers; [same] tells whether the pointers are equal. *)
Definition xvariant_type_equal (same : bool) (s1 : list Z) (p1 : Z) (s2 : list Z) (p2 : Z) :
    option bool :=
  if same then Some true
  else
    size1 ← xvariant_type_get_string_length s1 p1;
    size2 ← xvariant_type_get_string_length s2 p2;
    if negb (size1 =? size2) then Some false
    else
      string1 ← cells_at s1 p1 size1;
      string2 ← cells_at s2 p2 size1;
      Some (bool_decide (string1 = string2)).

(** [while (supertype_string < supertype_end)] *)
Fixpoint subtype_loop (fuel : nat) (s : list Z) (p : Z) (super : list Z) (q supertype_end : Z) :
    option bool :=
  if q <? supertype_end then
    match fuel with
    | O => None
    | S fuel =>
        supertype_char ← rd super q;
        type_char ← rd s p;
        let q := q + 1 in
        if supertype_char =? type_char then subtype_loop fuel s (p + 1) super q supertype_end
        else if type_char =? chr ")" then Some false
        else
          ok ← (if supertype_char =? chr "r" then xvariant_type_is_tuple s p
                else if supertype_char =? chr "*" then Some true
                else if supertype_char =? chr "?" then xvariant_type_is_basic s p
                else Some false);
          if (ok : bool) then
            length ← xvariant_type_get_string_length s p;
            subtype_loop fuel s (p + length) super q supertype_end
          else Some false
    end
  else Some true.

Definition xvariant_type_is_subtype_of (s : list Z) (p : Z) (super : list Z) (q : Z) : option bool :=
  length ← xvariant_type_get_string_length super q;
  subtype_loop (Z.to_nat length) s p super q (q + length).

(** ** Taking a type apart *)

Definition assert_then {B} (b : bool) (x : option B) : option B := if b then x else None.

Definition xvariant_type_element (s : list Z) (p : Z) : option Z :=
  c ← rd s p; assert_then ((c =? chr "a") || (c =? chr "m")) (Some (p + 1)).

Definition xvariant_type_first (s : list Z) (p : Z) : option (option Z) :=
  c ← rd s p;
  assert_then ((c =? chr "(") || (c =? chr "{"))
    (d ← rd s (p + 1); Some (if d =? chr ")" then None else Some (p + 1))).

Definition xvariant_type_next (s : list Z) (p : Z) : option (option Z) :=
  length ← xvariant_type_get_string_length s p;
  c ← rd s (p + length);
  Some (if (c =? chr ")") || (c =? chr "}") then None else Some (p + length)).

(** [for (type = xvariant_type_first (type); type; type = xvariant_type_next (type))] *)
Fixpoint n_items_loop (fuel : nat) (s : list Z) (type : option Z) (count : Z) : option Z :=
  match type with
  | None => Some count
  | Some p =>
      match fuel with
      | O => None
      | S fuel => type ← xvariant_type_next s p; n_items_loop fuel s type (count + 1)
      end
  end.

Definition xvariant_type_n_items (s : list Z) (p : Z) : option Z :=
  type ← xvariant_type_first s p; n_items_loop (length s) s type 0.

Definition xvariant_type_key (s : list Z) (p : Z) : option Z :=
  c ← rd s p; assert_then (c =? chr "{") (Some (p + 1)).

Definition xvariant_type_value (s : list Z) (p : Z) : option (option Z) :=
  c ← rd s p;
  assert_then (c =? chr "{") (key ← xvariant_type_key s p; xvariant_type_next s key).

(** ** Making types

    The result is a new buffer, which only some functions terminate. *)

Definition xvariant_type_new_array (s : list Z) (p : Z) : option (list Z) :=
  size ← xvariant_type_get_string_length s p;
  bytes ← cells_at s p size;
  Some (chr "a" :: bytes).

Definition xvariant_type_new_maybe (s : list Z) (p : Z) : option (list Z) :=
  size ← xvariant_type_get_string_length s p;
  bytes ← cells_at s p size;
  Some (chr "m" :: bytes).

Definition xvariant_type_new_dict_entry (s1 : list Z) (key : Z) (s2 : list Z) (value : Z) :
    option (list Z) :=
  keysize ← xvariant_type_get_string_length s1 key;
  valsize ← xvariant_type_get_string_length s2 value;
  k ← cells_at s1 key keysize;
  v ← cells_at s2 value valsize;
  Some ([chr "{"] ++ k ++ v ++ [chr "}"]).

(** An array of types; [None] is [NULL]. *)
Abbreviation type_array := (list (option (list Z * Z))).

(** The [xstring_t] is the list of its bytes. *)
Fixpoint new_tuple_slow_loop (n : nat) (items : type_array) (i : Z) (string : list Z) :
    option (option (list Z)) :=
  match n with
  | O => Some (Some string)
  | S n =>
      item ← rd items i;
      match item with
      | None => Some None
      | Some (s, p) =>
          size ← xvariant_type_get_string_length s p;
          bytes ← cells_at s p size;
          new_tuple_slow_loop n items (i + 1) (string ++ bytes)
      end
  end.

Definition xvariant_type_new_tuple_slow (items : type_array) (length : Z) :
    option (option (list Z)) :=
  string ← new_tuple_slow_loop (Z.to_nat length) items 0 [chr "("];
  Some (option_map (fun string => string ++ [chr ")"] ++ [0]) string).

(** [for (length_unsigned = 0; items[length_unsigned] != NULL; length_unsigned++);] *)
Fixpoint count_items (fuel : nat) (items : type_array) (i : Z) : option Z :=
  item ← rd items i;
  match item with
  | None => Some i
  | Some _ => match fuel with O => None | S fuel => count_items fuel items (i + 1) end
  end.

(** The loop of the fast way: the buffer and the place in it; [inl] is what the
    function returns from inside the loop. *)
Fixpoint new_tuple_loop (n : nat) (items : type_array) (length_unsigned i : Z) (buffer : list Z)
    (offset : Z) : option (option (list Z) + list Z * Z) :=
  match n with
  | O => Some (inr (buffer, offset))
  | S n =>
      item ← rd items i;
      match item with
      | None => Some (inl None)
      | Some (s, p) =>
          size ← xvariant_type_get_string_length s p;
          if zlen buffer <=? offset + size then
            r ← xvariant_type_new_tuple_slow items (i32 length_unsigned);
            Some (inl r)
          else
            bytes ← cells_at s p size;
            buffer ← write_at buffer offset bytes;
            new_tuple_loop n items length_unsigned (i + 1) buffer (offset + size)
      end
  end.

Section new_tuple.
(** What the stack buffer holds. *)
Variable junk : nat -> Z.

Definition xvariant_type_new_tuple (items : type_array) (length_ : Z) : option (option (list Z)) :=
  let buffer := map junk (seq 0 1024) in
  length_unsigned ← (if length_ <? 0 then count_items (length items) items 0 else Some length_);
  buffer ← wr buffer 0 (chr "(");
  r ← new_tuple_loop (Z.to_nat length_unsigned) items length_unsigned 0 buffer 1;
  match r with
  | inl r => Some r
  | inr (buffer, offset) =>
      assert_then (offset <? zlen buffer)
        (buffer ← wr buffer offset (chr ")");
         new ← cells_at buffer 0 (offset + 1);
         Some (Some new))
  end.
End new_tuple.
