(* ===== verification/VariantSpec.v ===== *)
(** * The language of type strings

    Types as trees, the string of each, and the order between them; and what
    the functions of gvarianttype.c that only walk over a string do on it. *)

From S2P Require Import Prelude.
From S2P Require Import VariantType.
Local Open Scope Z_scope.

(** A type of one character, [m], [a], a tuple, a dictionary entry. *)
#[warnings="-register-all"]
Inductive vtype :=
  | Leaf (c : Z)
  | Maybe (t : vtype)
  | Array (t : vtype)
  | Tuple (ts : list vtype)
  | Entry (key : Z) (value : vtype).

Section vtype_ind.
Context (P : vtype -> Prop).
Context (HL : forall c, P (Leaf c)) (HM : forall t, P t -> P (Maybe t)) (HA : forall t, P t -> P (Array t)).
Context (HT : forall ts, Forall P ts -> P (Tuple ts)) (HE : forall k v, P v -> P (Entry k v)).

(** Induction that reaches the items of a tuple. *)
Fixpoint vtype_ind' (t : vtype) : P t :=
  match t with
  | Leaf c => HL c
  | Maybe t => HM t (vtype_ind' t)
  | Array t => HA t (vtype_ind' t)
  | Tuple ts =>
      HT ts ((fix go ts : Forall P ts :=
                match ts with
                | [] => Forall_nil_2 P
                | t :: ts => Forall_cons_2 P t ts (vtype_ind' t) (go ts)
                end) ts)
  | Entry k v => HE k v (vtype_ind' v)
  end.
End vtype_ind.

(** The type string: [m] is 109, [a] 97; then the brackets. *)
Fixpoint print (t : vtype) : list Z :=
  match t with
  | Leaf c => [c]
  | Maybe t => 109 :: print t
  | Array t => 97 :: print t
  | Tuple ts => 40 :: concat (map print ts) ++ [41]
  | Entry k v => 123 :: k :: print v ++ [125]
  end.
Definition prints (ts : list vtype) : list Z := concat (map print ts).

(** The characters are those of types. *)
Fixpoint valid (t : vtype) : bool :=
  match t with
  | Leaf c => existsb (Z.eqb c) basic_chars
  | Maybe t | Array t => valid t
  | Tuple ts => forallb valid ts
  | Entry k v => existsb (Z.eqb k) key_chars && valid v
  end.

(** The depth the scanner reports, and how many containers are nested. *)
Fixpoint depth (t : vtype) : Z :=
  match t with
  | Leaf _ => 1
  | Maybe t | Array t | Entry _ t => depth t + 1
  | Tuple ts => foldr (fun t d => Z.max (depth t + 1) d) 0 ts
  end.
Fixpoint nesting (t : vtype) : nat :=
  match t with
  | Leaf _ => 0
  | Maybe t | Array t | Entry _ t => S (nesting t)
  | Tuple ts => foldr (fun t d => Nat.max (S (nesting t)) d) 0%nat ts
  end.
Definition depths (ts : list vtype) : Z := foldr (fun t d => Z.max (depth t + 1) d) 0 ts.

(** A type at [p]. *)
Definition denotes (s : list Z) (p : Z) (t : vtype) : Prop := valid t = true /\ holds s p (print t).

(** ** The characters *)

(** What is known of a character of a set: a disjunction. *)
Lemma existsb_eqb c l : existsb (Z.eqb c) l = true <-> In c l.
Proof.
  rewrite existsb_exists. split; [intros (x & Hx & ->%Z.eqb_eq); done|].
  intros Hc. exists c. split; [done|apply Z.eqb_refl].
Qed.

Ltac known_char H :=
  apply existsb_eqb in H; repeat (destruct H as [H|H]; [symmetry in H; subst|]); [..|destruct H].

(** The first character of a type, and the rest. *)
Definition head_char (t : vtype) : Z :=
  match t with Leaf c => c | Maybe _ => 109 | Array _ => 97 | Tuple _ => 40 | Entry _ _ => 123 end.
Definition tail_chars (t : vtype) : list Z :=
  match t with
  | Leaf _ => [] | Maybe t | Array t => print t
  | Tuple ts => prints ts ++ [41] | Entry k v => k :: print v ++ [125]
  end.
Lemma print_head t : print t = head_char t :: tail_chars t.
Proof. by destruct t. Qed.

Lemma head_valid t : valid t = true -> head_char t <> 0 /\ head_char t <> 41 /\ head_char t <> 125.
Proof.
  destruct t as [c|t|t|ts|k v]; cbn [valid head_char]; try (intros; lia).
  intros Hc. known_char Hc; lia.
Qed.

Lemma key_basic k : existsb (Z.eqb k) key_chars = true -> existsb (Z.eqb k) basic_chars = true.
Proof. intros Hk. known_char Hk; reflexivity. Qed.

Lemma print_nonempty t : 1 <= zlen (print t).
Proof. rewrite print_head, zlen_cons. pose proof (zlen_nonneg (tail_chars t)). lia. Qed.
Lemma prints_cons t ts : prints (t :: ts) = print t ++ prints ts.
Proof. done. Qed.
Lemma print_tuple ts : print (Tuple ts) = 40 :: prints ts ++ [41].
Proof. done. Qed.
Lemma length_prints ts : (length ts <= length (prints ts))%nat.
Proof.
  induction ts as [|t ts IH]; [done|]. rewrite prints_cons, length_app. cbn [length].
  pose proof (print_nonempty t). unfold zlen in *. lia.
Qed.

Lemma valid_tuple ts : valid (Tuple ts) = true <-> Forall (fun t => valid t = true) ts.
Proof. cbn [valid]. rewrite forallb_forall, Forall_forall. setoid_rewrite <- list_elem_of_In. done. Qed.
Lemma nesting_tuple n ts : (nesting (Tuple ts) <= n)%nat <-> Forall (fun t => (nesting t < n)%nat) ts.
Proof.
  cbn [nesting]. induction ts as [|t ts IH]; cbn [foldr]; [split; [done|lia]|].
  rewrite Forall_cons, <- IH. lia.
Qed.
Lemma depth_tuple ts : depth (Tuple ts) = depths ts.
Proof. done. Qed.
Lemma depths_nonneg ts : 0 <= depths ts.
Proof. unfold depths. induction ts; cbn [foldr]; lia. Qed.
Lemma depth_nonneg t : 0 <= depth t.
Proof.
  induction t as [c|t IH|t IH|ts IH|k v IH] using vtype_ind'; cbn [depth]; try lia. apply depths_nonneg.
Qed.

(** No character of a type string ends a string. *)
Lemma print_no_nul t : valid t = true -> Forall (fun c => c <> 0) (print t).
Proof.
  induction t as [c|t IH|t IH|ts IH|k v IH] using vtype_ind'; intros Hv.
  - apply Forall_cons. split; [|done]. by apply (head_valid (Leaf c)).
  - apply Forall_cons. split; [lia|auto].
  - apply Forall_cons. split; [lia|auto].
  - apply valid_tuple in Hv. rewrite print_tuple. apply Forall_cons. split; [lia|].
    apply Forall_app. split; [|by repeat constructor].
    induction Hv as [|t ts Ht Hv IHv]; [done|]. apply Forall_cons in IH as [IHt IH].
    rewrite prints_cons. apply Forall_app. auto.
  - cbn [valid] in Hv. zprops. apply Forall_cons. split; [lia|]. apply Forall_cons. split.
    + apply (head_valid (Leaf k)). by apply key_basic.
    + apply Forall_app. split; [auto|by repeat constructor].
Qed.

(** The items of a tuple, one after the other. *)
Lemma holds_item s p t ts l :
  holds s p (prints (t :: ts) ++ l) ->
  holds s p (print t) /\ holds s (p + zlen (print t)) (prints ts ++ l).
Proof. rewrite prints_cons, <- app_assoc. apply holds_app. Qed.

(** ** The order between types

    [*] is 42, [?] 63 and [r] 114. *)
#[warnings="-register-all"]
Inductive subtype : vtype -> vtype -> Prop :=
  | sub_leaf c : subtype (Leaf c) (Leaf c)
  | sub_any t : subtype t (Leaf 42)
  | sub_basic c : existsb (Z.eqb c) key_chars = true -> subtype (Leaf c) (Leaf 63)
  | sub_tuples ts : subtype (Tuple ts) (Leaf 114)
  | sub_maybe t u : subtype t u -> subtype (Maybe t) (Maybe u)
  | sub_array t u : subtype t u -> subtype (Array t) (Array u)
  | sub_tuple ts us : Forall2 subtype ts us -> subtype (Tuple ts) (Tuple us)
  | sub_entry k l t u : subtype (Leaf k) (Leaf l) -> subtype t u -> subtype (Entry k t) (Entry l u).

(** No character of the type stands for more than one type. *)
Definition definite_char (c : Z) : bool := negb ((c =? 42) || (c =? 63) || (c =? 114)).
Fixpoint definite (t : vtype) : bool :=
  match t with
  | Leaf c => definite_char c
  | Maybe t | Array t => definite t
  | Tuple ts => forallb definite ts
  | Entry k v => definite_char k && definite v
  end.

Lemma subtype_refl t : subtype t t.
Proof.
  induction t as [c|t IH|t IH|ts IH|k v IH] using vtype_ind'; constructor; try done; [|constructor].
  by induction IH; constructor.
Qed.

Lemma subtype_leaf_trans t c d : subtype t (Leaf c) -> subtype (Leaf c) (Leaf d) -> subtype t (Leaf d).
Proof.
  intros H1 H2. inversion H2 as [| |c' Hc| | | | | ]; subst; [done|constructor|].
  inversion H1 as [| |c'' Hc'| | | | | ]; subst; done || by constructor.
Qed.

Lemma subtype_trans t u v : valid u = true -> subtype t u -> subtype u v -> subtype t v.
Proof.
  revert t u. induction v as [c|v IH|v IH|vs IH|k v IH] using vtype_ind'; intros t u Hv H1 H2;
    [|inversion H2; subst..].
  - inversion H2 as [|u'|c' Hc|us| | | | ]; subst; [done|constructor|by apply (subtype_leaf_trans t c')|].
    inversion H1; subst; constructor.
  - inversion H1; subst. constructor. cbn [valid] in Hv. eapply IH; eassumption.
  - inversion H1; subst. constructor. cbn [valid] in Hv. eapply IH; eassumption.
  - inversion H1 as [| | | | | |ts0 us' Hts| ]; subst. constructor. apply valid_tuple in Hv.
    match goal with H : Forall2 subtype _ vs |- _ => rename H into Hvs end.
    clear H1 H2. rename ts into us. revert ts0 us Hts Hv Hvs.
    induction IH as [|v vs Hv1 _ IHvs]; intros ts us Hts Hv Hvs.
    + apply Forall2_nil_inv_r in Hvs as ->. by apply Forall2_nil_inv_r in Hts as ->.
    + apply Forall2_cons_inv_r in Hvs as (u & us' & Hu & Hus & ->).
      apply Forall2_cons_inv_r in Hts as (t & ts' & Ht & Hts & ->). apply Forall_cons in Hv as [].
      constructor; [eapply Hv1; eassumption|eapply IHvs; eassumption].
  - inversion H1; subst. cbn [valid] in Hv. zprops. constructor; [eapply subtype_leaf_trans; eassumption|eapply IH; eassumption].
Qed.

(** Only indefinite types have other subtypes. *)
Lemma subtype_definite t u : definite u = true -> subtype t u -> t = u.
Proof.
  revert t. induction u as [c|u IH|u IH|us IH|k v IH] using vtype_ind'; intros t Hd Hs; inversion Hs; subst; try done.
  - f_equal. auto.
  - f_equal. auto.
  - f_equal. cbn [definite] in Hd.
    match goal with H : Forall2 subtype _ us |- _ => rename H into Hts end.
    clear Hs. revert ts Hts. induction IH as [|u us Hu _ IHus]; intros ts Hts.
    + by apply Forall2_nil_inv_r in Hts.
    + apply Forall2_cons_inv_r in Hts as (t & ts' & Ht & Hts & ->). cbn [forallb] in Hd. zprops.
      f_equal; auto.
  - cbn [definite] in Hd. apply andb_prop in Hd as [Hk Hv]. f_equal; [|by apply IH].
    match goal with H : subtype (Leaf _) (Leaf _) |- _ => inversion H; subst; done end.
Qed.

(** ** A type string is the string of one type *)

Lemma print_prefix t : forall u x y, valid t = true -> valid u = true ->
  print t ++ x = print u ++ y -> t = u /\ x = y.
Proof.
  induction t as [c|t IH|t IH|ts IH|k v IH] using vtype_ind'; intros u x y Hv Hw E.
  all: pose proof E as Eh; rewrite !print_head in Eh; injection Eh as Eh Et; cbn [head_char tail_chars] in Eh, Et.
  - assert (u = Leaf c) as ->; [|done].
    destruct u; cbn [head_char] in Eh; [by subst|subst; by vm_compute in Hv..].
  - destruct u; cbn [head_char] in Eh; try done; [subst; by vm_compute in Hw|].
    destruct (IH u x y Hv Hw Et) as [-> ->]. done.
  - destruct u; cbn [head_char] in Eh; try done; [subst; by vm_compute in Hw|].
    destruct (IH u x y Hv Hw Et) as [-> ->]. done.
  - destruct u as [| | |us|]; cbn [head_char] in Eh; try done; [subst; by vm_compute in Hw|].
    cbn [tail_chars] in Et. rewrite <- !app_assoc in Et. apply valid_tuple in Hv, Hw.
    assert (ts = us /\ x = y) as [-> ->]; [|done]. clear E Eh.
    revert us Hw Et. induction IH as [|t ts Ht _ IHts]; intros [|u us] Hw Et.
    + by injection Et.
    + apply Forall_cons in Hw as [Hw _]. apply head_valid in Hw.
      rewrite prints_cons, <- app_assoc, print_head in Et. injection Et as Et _. lia.
    + apply Forall_cons in Hv as [Hv _]. apply head_valid in Hv.
      rewrite prints_cons, <- app_assoc, print_head in Et. injection Et as Et _. lia.
    + apply Forall_cons in Hv as [Hv Hvs]. apply Forall_cons in Hw as [Hw Hws].
      rewrite !prints_cons, <- !app_assoc in Et. destruct (Ht u _ _ Hv Hw Et) as [-> Es].
      by destruct (IHts Hvs us Hws Es) as [-> ->].
  - destruct u as [| | | |k' v']; cbn [head_char] in Eh; try done; [subst; by vm_compute in Hw|].
    cbn [tail_chars] in Et. injection Et as -> Et. rewrite <- !app_assoc in Et. cbn [valid] in Hv, Hw. zprops.
    destruct (IH v' ([125] ++ x) ([125] ++ y)) as [-> Es]; [done..|]. by injection Es as ->.
Qed.

Lemma print_inj t u : valid t = true -> valid u = true -> print t = print u -> t = u.
Proof. intros Hv Hw E. by apply (print_prefix t u [] []); rewrite ?E. Qed.

(** The types in a buffer are unique. *)
Lemma denotes_inj s p t u : denotes s p t -> denotes s p u -> t = u.
Proof.
  intros [Hv (pre & post & -> & Hp)] [Hw (pre' & post' & E & Hp')].
  apply app_inj_1 in E as [_ E]; [|unfold zlen in *; lia]. by apply (print_prefix t u post post').
Qed.
