(* ===== verification/VariantWalk.v ===== *)
(** * Scanning, walking over and making types

    The functions of gvarianttype.c, one kind after the other. First the scanner
    against the language of VariantSpec.v: what it accepts is the string of a
    type, every string of a type within the recursion limit is accepted, and
    nothing outside the text is read. *)

From S2P Require Import Prelude Utf8 Utf8Text VariantType VariantSpec.
Local Open Scope Z_scope.

(** A limit that is behind the text from [p] to [e], or before it. *)
Definition within (limit : option Z) (p e : Z) : Prop :=
  match limit with Some l => l < p \/ e <= l | None => True end.

Lemma within_not_at limit p e q : within limit p e -> p <= q < e -> at_limit limit q = false.
Proof. destruct limit as [l|]; cbn; [|done]. intros. apply Z.eqb_neq. lia. Qed.
Lemma within_sub limit p e q f : within limit p e -> p <= q -> f <= e -> within limit q f.
Proof. destruct limit as [l|]; cbn; [|done]. lia. Qed.
Lemma within_join limit p q e : within limit p q -> within limit q e -> within limit p e.
Proof. destruct limit as [l|]; cbn; [|done]. lia. Qed.

(** ** The strings of types are accepted *)

Lemma tuple_loop_complete child fuel s limit ts p m :
  Forall (fun t => forall p, holds s p (print t) -> within limit p (p + zlen (print t)) ->
    child p = Some (Some (p + zlen (print t), depth t))) ts ->
  Forall (fun t => valid t = true) ts -> (length ts <= fuel)%nat ->
  holds s p (prints ts ++ [41]) -> within limit p (p + zlen (prints ts) + 1) -> 0 <= m ->
  tuple_loop child fuel s limit p m = Some (Some (p + zlen (prints ts) + 1, Z.max m (depths ts))).
Proof.
  revert fuel p m. induction ts as [|t ts IH]; intros fuel p m Hc Hv Hf Hh Hw Hm.
  - change (zlen (prints [])) with 0 in *. apply holds_cons in Hh as [Hr _].
    destruct fuel; cbn [tuple_loop]; rewrite (within_not_at _ _ _ p Hw), Hr by lia;
      cbn [mbind option_bind negb Z.eqb Pos.eqb]; change (depths []) with 0; do 3 f_equal; lia.
  - destruct fuel as [|fuel]; [cbn in Hf; lia|]. cbn [tuple_loop]. pose proof (zlen_nonneg (prints ts)).
    pose proof (holds_item _ _ _ _ _ Hh) as [Ht Hrest].
    apply Forall_cons in Hc as [Hc1 Hc]. apply Forall_cons in Hv as [Hv1 Hv].
    pose proof Ht as Hr. rewrite print_head in Hr. apply holds_cons in Hr as [Hr _].
    pose proof (print_nonempty t). rewrite prints_cons, zlen_app in Hw |- *.
    rewrite (within_not_at _ _ _ p Hw), Hr by lia. cbn [mbind option_bind].
    rewrite (proj2 (Z.eqb_neq (head_char t) 41)) by by apply head_valid. cbn [negb].
    rewrite Hc1 by (done || (eapply within_sub; [exact Hw|lia|lia])). cbn [mbind option_bind].
    rewrite IH; try done; try lia.
    + change (depths (t :: ts)) with (Z.max (depth t + 1) (depths ts)). do 3 f_equal; lia.
    + cbn in Hf. lia.
    + eapply within_sub; [exact Hw|lia|lia].
Qed.

(** What scans a child at a given depth limit. *)
Definition scan_child (d : nat) s limit (p : Z) : option (option (Z * Z)) :=
  match d with O => Some None | S d => variant_type_string_scan_internal d s limit p end.
Lemma scan_unfold d s limit p :
  variant_type_string_scan_internal d s limit p = scan_type (scan_child d s limit) d s limit p.
Proof. by destruct d. Qed.

Lemma scan_complete t d s limit p :
  valid t = true -> (nesting t <= d)%nat -> holds s p (print t) ->
  within limit p (p + zlen (print t)) ->
  variant_type_string_scan_internal d s limit p = Some (Some (p + zlen (print t), depth t)).
Proof.
  revert d p. induction t as [c|t IH|t IH|ts IH|k v IH] using vtype_ind'; intros d p Hv Hn Hh Hw; rewrite scan_unfold; unfold scan_type;
    pose proof (head_valid _ Hv) as (Hz & _ & _); pose proof Hh as Hr; rewrite print_head in Hr;
    apply holds_cons in Hr as [Hr Hrest]; cbn [head_char tail_chars] in *.
  - change (zlen (print (Leaf c))) with 1 in *. rewrite (within_not_at _ _ _ p Hw), Hr by lia; cbn [mbind option_bind].
    rewrite (proj2 (Z.eqb_neq c 0)) by done.
    cbn [valid] in Hv; known_char Hv; reflexivity.
  - destruct d as [|d]; [cbn in Hn; lia|]. cbn [scan_child nesting valid print depth] in *. pose proof (print_nonempty t).
    rewrite zlen_cons in *.
    rewrite (within_not_at _ _ _ p Hw), Hr by lia. cbn [mbind option_bind Z.eqb Pos.eqb orb].
    rewrite IH by (done || lia || (eapply within_sub; [exact Hw|lia|lia])).
    cbn [mbind option_bind]. pose proof (depth_nonneg t). do 3 f_equal; lia.
  - destruct d as [|d]; [cbn in Hn; lia|]. cbn [scan_child nesting valid print depth] in *. pose proof (print_nonempty t).
    rewrite zlen_cons in *.
    rewrite (within_not_at _ _ _ p Hw), Hr by lia. cbn [mbind option_bind Z.eqb Pos.eqb orb].
    rewrite IH by (done || lia || (eapply within_sub; [exact Hw|lia|lia])).
    cbn [mbind option_bind]. pose proof (depth_nonneg t). do 3 f_equal; lia.
  - rewrite print_tuple, depth_tuple in *. rewrite zlen_cons, zlen_app in *. change (zlen [41]) with 1 in *.
    pose proof (zlen_nonneg (prints ts)). pose proof (holds_bounds _ _ _ Hh) as [Hp Hb].
    rewrite zlen_cons, zlen_app in Hb. apply valid_tuple in Hv. apply nesting_tuple in Hn.
    assert (forall child, Forall (fun t => forall p, holds s p (print t) -> within limit p (p + zlen (print t)) ->
      child p = Some (Some (p + zlen (print t), depth t))) ts ->
      tuple_loop child (length s) s limit (p + 1) 0 = Some (Some (p + (1 + (zlen (prints ts) + 1)), depths ts))) as Hloop.
    { intros child Hc. rewrite (tuple_loop_complete child _ s limit ts); try done.
      - pose proof (depths_nonneg ts). do 3 f_equal; lia.
      - pose proof (length_prints ts). unfold zlen in *. lia.
      - eapply within_sub; [exact Hw|lia|lia]. }
    rewrite (within_not_at _ _ _ p Hw), Hr by lia; cbn [mbind option_bind Z.eqb Pos.eqb orb].
    apply Hloop. destruct d as [|d].
    + destruct ts; [done|]. apply Forall_cons in Hn as [Hn _]. lia.
    + rewrite Forall_forall in IH, Hv, Hn |- *. intros t Ht q Hq Hwq. cbn [scan_child]. apply IH; try done; [by apply Hv|].
      specialize (Hn t Ht). cbn in Hn. lia.
  - destruct d as [|d]; [cbn in Hn; lia|]. cbn [scan_child nesting valid print depth] in *. zprops. pose proof (print_nonempty v).
    rewrite !zlen_cons, zlen_app in *. change (zlen [125]) with 1 in *.
    apply holds_cons in Hrest as [Hk Hrest]. apply holds_app in Hrest as [Hv' He].
    apply holds_cons in He as [He _].
   
    rewrite (within_not_at _ _ _ p Hw), Hr by lia. cbn [mbind option_bind Z.eqb Pos.eqb orb Nat.eqb].
    rewrite (within_not_at _ _ _ (p + 1) Hw), Hk by lia. cbn [mbind option_bind].
    assert ((k =? 0) = false) as -> by (apply Z.eqb_neq, (head_valid (Leaf k)), key_basic; done).
    assert (strchr_found key_chars k = true) as ->.
    { unfold strchr_found. rewrite existsb_app. apply orb_true_iff. by left. }
    cbn [negb orb].
    rewrite IH by (done || lia || (eapply within_sub; [exact Hw|lia|lia])).
    cbn [mbind option_bind]. rewrite (within_not_at _ _ _ _ Hw), He by lia.
    cbn [mbind option_bind Z.eqb Pos.eqb negb]. pose proof (depth_nonneg v). do 3 f_equal; lia.
Qed.

(** ** What is accepted is the string of a type *)

(** A type stands between [p] and [e]. *)
Definition scanned (s : list Z) (limit : option Z) (n : nat) (p e dep : Z) : Prop :=
  exists t, valid t = true /\ (nesting t <= n)%nat /\ holds s p (print t) /\
    e = p + zlen (print t) /\ within limit p e /\ dep = depth t.

Lemma within_one limit p : at_limit limit p = false -> within limit p (p + 1).
Proof. destruct limit as [l|]; cbn; [|done]. intros ?%Z.eqb_neq. lia. Qed.

Lemma tuple_loop_inv child fuel s limit p m e dep :
  tuple_loop child fuel s limit p m = Some (Some (e, dep)) ->
  at_limit limit p = false /\ rd s p = Some 41 /\ e = p + 1 /\ dep = m \/
  exists fuel' q d, child p = Some (Some (q, d)) /\ fuel = S fuel' /\
    tuple_loop child fuel' s limit q (Z.max m (d + 1)) = Some (Some (e, dep)).
Proof.
  assert (forall f, match child p with Some (Some (p, d)) => tuple_loop child f s limit p (Z.max m (d + 1)) | Some None => Some None | None => None end
      = Some (Some (e, dep)) -> exists q d, child p = Some (Some (q, d)) /\
        tuple_loop child f s limit q (Z.max m (d + 1)) = Some (Some (e, dep))) as Hone.
  { intros f. destruct (child p) as [[[q d]|]|]; [|done..]. by exists q, d. }
  destruct fuel as [|fuel]; cbn [tuple_loop]; destruct (at_limit limit p); cbn [mbind option_bind]; [done| | |].
  2: { intros Hl. right. destruct (Hone fuel) as (q & d & E1 & E2); [|by exists fuel, q, d].
       by destruct (child p) as [[[]|]|]. }
  all: destruct (rd s p) as [c|]; cbn [mbind option_bind]; [|done].
  all: destruct (Z.eqb_spec c 41) as [->|Hne]; cbn [negb]; [intros [= <- <-]; by left|].
  - done.
  - intros Hl. right. destruct (Hone fuel) as (q & d & E1 & E2); [|by exists fuel, q, d].
    by destruct (child p) as [[[]|]|].
Qed.

Lemma tuple_loop_sound child fuel s limit n p m e dep :
  (forall p e dep, child p = Some (Some (e, dep)) -> exists n', n = S n' /\ scanned s limit n' p e dep) ->
  0 <= m -> tuple_loop child fuel s limit p m = Some (Some (e, dep)) ->
  exists ts, Forall (fun t => valid t = true) ts /\ Forall (fun t => (nesting t < n)%nat) ts /\
    holds s p (prints ts ++ [41]) /\ e = p + zlen (prints ts) + 1 /\ within limit p e /\
    dep = Z.max m (depths ts).
Proof.
  intros Hc. revert p m. induction fuel as [fuel IH] using (well_founded_induction lt_wf); intros p m Hm Hl.
  apply tuple_loop_inv in Hl as [(Hl & Hr & -> & ->)|(fuel' & q & d & Eq & -> & Hl)].
  - exists []. split_and!; [done|done|by apply rd_holds| |by apply within_one|];
      change (zlen (prints [])) with 0; change (depths []) with 0; lia.
  - destruct (Hc p q d Eq) as (n' & -> & t & Hv & Hn & Hh & -> & Hw & ->).
    apply IH in Hl as (ts & Hvs & Hns & Hhs & -> & Hws & ->); [|lia|lia].
    exists (t :: ts). rewrite prints_cons, <- app_assoc, zlen_app.
    change (depths (t :: ts)) with (Z.max (depth t + 1) (depths ts)).
    split_and!; [by apply Forall_cons|by apply Forall_cons; split; [lia|]|by apply holds_join|lia| |lia].
    replace (p + (zlen (print t) + zlen (prints ts)) + 1) with (p + zlen (print t) + zlen (prints ts) + 1) by lia.
    by eapply within_join.
Qed.


(** One more container around a type. *)
Lemma scanned_prefix s limit n p e dep c (f : vtype -> vtype) :
  (forall t, print (f t) = c :: print t) -> (forall t, valid (f t) = valid t) ->
  (forall t, nesting (f t) = S (nesting t)) -> (forall t, depth (f t) = depth t + 1) ->
  at_limit limit p = false -> rd s p = Some c -> scanned s limit n (p + 1) e dep ->
  scanned s limit (S n) p e (Z.max 0 (dep + 1)).
Proof.
  intros H1 H2 H3 H4 Hl Hr (t & Hv & Hn & Hh & -> & Hw & ->). exists (f t).
  rewrite H1, H2, H3, H4, zlen_cons. pose proof (depth_nonneg t).
  split_and!; [done|lia|by apply (holds_join s p [c]); [apply rd_holds|]|lia| |lia].
  eapply within_join; [by apply within_one|]. done.
Qed.

Lemma scan_type_sound child s limit d p e dep :
  (forall p e dep, child p = Some (Some (e, dep)) -> exists n, d = S n /\ scanned s limit n p e dep) ->
  scan_type child d s limit p = Some (Some (e, dep)) -> scanned s limit d p e dep.
Proof.
  intros Hc. unfold scan_type. destruct (at_limit limit p) eqn:Hl; [done|].
  destruct (rd s p) as [c|] eqn:Hr; cbn [mbind option_bind]; [|done].
  destruct (Z.eqb_spec c 0); [done|].
  destruct (Z.eqb_spec c 40) as [->|].
  { intros Ht. apply (tuple_loop_sound child _ s limit d) in Ht as (ts & Hv & Hn & Hh & -> & Hw & ->); [|done|done].
    exists (Tuple ts). rewrite valid_tuple, nesting_tuple, print_tuple, depth_tuple, zlen_cons, zlen_app.
    change (zlen [41]) with 1. pose proof (depths_nonneg ts).
    split_and!; [done|done|by apply (holds_join s p [40]); [apply rd_holds|]|lia| |lia].
    eapply within_join; [by apply within_one|]. done. }
  destruct (Z.eqb_spec c 123) as [->|].
  { destruct (Nat.eqb_spec d 0); cbn [orb]; [done|]. destruct (at_limit limit (p + 1)) eqn:Hl1; [done|].
    destruct (rd s (p + 1)) as [k|] eqn:Hk; cbn [mbind option_bind]; [|done].
    destruct (Z.eqb_spec k 0) as [|Hk0]; cbn [orb]; [done|].
    destruct (strchr_found key_chars k) eqn:Hkc; cbn [negb]; [|done].
    destruct (child (p + 1 + 1)) as [[[q d']|]|] eqn:Hq; cbn [mbind option_bind]; [|done..].
    destruct (at_limit limit q) eqn:Hl2; [done|].
    destruct (rd s q) as [x|] eqn:Hx; cbn [mbind option_bind]; [|done].
    destruct (Z.eqb_spec x 125) as [->|]; cbn [negb]; [|done]. intros [= <- <-].
    destruct (Hc _ _ _ Hq) as (n' & -> & v & Hv & Hn & Hh & -> & Hw & ->).
    exists (Entry k v). cbn [valid nesting print depth]. rewrite !zlen_cons, zlen_app. change (zlen [125]) with 1.
    pose proof (depth_nonneg v).
    split_and!; [|lia| |lia| |lia].
    - rewrite Hv, andb_true_r. apply existsb_eqb. unfold strchr_found in Hkc. apply existsb_eqb in Hkc.
      apply in_app_or in Hkc as [|[<-|[]]]; done.
    - apply (holds_join s p [123]); [by apply rd_holds|]. apply (holds_join s _ [k]); [by apply rd_holds|].
      apply holds_join; [done|]. by apply rd_holds.
    - eapply within_join; [by apply within_one|]. eapply within_join; [by apply within_one|].
      eapply within_join; [exact Hw|]. by apply within_one. }
  destruct (Z.eqb_spec c 109) as [->|]; cbn [orb].
  { destruct (child (p + 1)) as [[[q d']|]|] eqn:Hq; cbn [mbind option_bind]; [|done..]. intros [= <- <-].
    destruct (Hc _ _ _ Hq) as (n' & -> & Hs). by apply (scanned_prefix s limit n' p q d' 109 Maybe). }
  destruct (Z.eqb_spec c 97) as [->|].
  { destruct (child (p + 1)) as [[[q d']|]|] eqn:Hq; cbn [mbind option_bind]; [|done..]. intros [= <- <-].
    destruct (Hc _ _ _ Hq) as (n' & -> & Hs). by apply (scanned_prefix s limit n' p q d' 97 Array). }
  destruct (existsb (Z.eqb c) basic_chars) eqn:Hb; [|done]. intros [= <- <-].
  exists (Leaf c). cbn [valid nesting print depth]. change (zlen [c]) with 1.
  split_and!; [done|lia|by apply rd_holds|lia|by apply within_one|done].
Qed.

Lemma scan_sound d s limit p e dep :
  variant_type_string_scan_internal d s limit p = Some (Some (e, dep)) -> scanned s limit d p e dep.
Proof.
  revert p e dep. induction d as [|d IH]; intros p e dep; rewrite scan_unfold; apply scan_type_sound;
    cbn [scan_child]; [done|].
  intros q e' dep' Hq. exists d. auto.
Qed.

(** ** Nothing outside the text is read *)

(** A text at [p]: up to the limit, or to the end of the string. *)
Definition text (s : list Z) (limit : option Z) (p : Z) : Prop :=
  0 <= p /\ match limit with Some l => p <= l <= zlen s | None => 0 ∈ drop (Z.to_nat p) s end.

Lemma text_read s limit p :
  text s limit p -> at_limit limit p = false ->
  exists c, rd s p = Some c /\ p < zlen s /\ (c <> 0 -> text s limit (p + 1)).
Proof.
  intros [Hp Ht] Hl. unfold text. destruct limit as [l|]; cbn in Hl.
  - apply Z.eqb_neq in Hl. unfold zlen in *. destruct (lookup_lt_is_Some_2 s (Z.to_nat p)) as [c Hc]; [lia|].
    exists c. rewrite rd_ge_0 by done. split_and!; [done|lia|lia].
  - destruct (drop (Z.to_nat p) s) as [|c l] eqn:Ed; [by apply not_elem_of_nil in Ht|].
    assert (s !! Z.to_nat p = Some c) as Hc.
    { rewrite <- (Nat.add_0_r (Z.to_nat p)), <- lookup_drop, Ed. done. }
    exists c. rewrite rd_ge_0 by done. split_and!; [done|apply lookup_lt_Some in Hc; unfold zlen; lia|].
    intros Hz. split; [lia|]. apply elem_of_cons in Ht as [|Ht]; [done|].
    replace (Z.to_nat (p + 1)) with (S (Z.to_nat p)) by lia.
    by rewrite <- (Nat.add_1_r (Z.to_nat p)), <- drop_drop, Ed.
Qed.

Lemma text_bound s limit p : text s limit p -> p <= zlen s.
Proof.
  intros [Hp Ht]. destruct limit; [lia|]. destruct (Z.le_gt_cases p (zlen s)); [done|].
  rewrite drop_ge in Ht by (unfold zlen in *; lia). by apply not_elem_of_nil in Ht.
Qed.

(** A scan ends, and the text goes on behind what it found. *)
Definition safe (s : list Z) limit (p : Z) (r : option (option (Z * Z))) : Prop :=
  exists r', r = Some r' /\ forall e dep, r' = Some (e, dep) -> text s limit e /\ p < e.

Lemma safe_none s limit p : safe s limit p (Some None).
Proof. by exists None. Qed.
Lemma safe_some s limit p e dep : text s limit e -> p < e -> safe s limit p (Some (Some (e, dep))).
Proof. intros. exists (Some (e, dep)). split; [done|]. by intros ? ? [= <- <-]. Qed.

Lemma tuple_loop_safe child fuel s limit p m :
  (forall p, text s limit p -> safe s limit p (child p)) ->
  text s limit p -> zlen s < p + Z.of_nat fuel -> safe s limit p (tuple_loop child fuel s limit p m).
Proof.
  intros Hc. revert p m. induction fuel as [|fuel IH]; intros p m Ht Hf; [pose proof (text_bound _ _ _ Ht); lia|].
  assert (safe s limit p
    (r ← child p; match r with
     | None => Some None
     | Some (p, child_depth) => tuple_loop child fuel s limit p (Z.max m (child_depth + 1))
     end)) as Hone.
  { destruct (Hc p Ht) as (r & -> & Hr). cbn [mbind option_bind].
    destruct r as [[q d]|]; [|apply safe_none]. destruct (Hr q d eq_refl) as [Hq Hpq].
    destruct (IH q (Z.max m (d + 1)) Hq) as (r & -> & Hr'); [lia|]. exists r. split; [done|].
    intros e dep E. destruct (Hr' e dep E). split; [done|lia]. }
  cbn [tuple_loop]. destruct (at_limit limit p) eqn:Hl; [exact Hone|].
  destruct (text_read s limit p Ht Hl) as (c & -> & _ & Hnext). cbn [mbind option_bind].
  destruct (Z.eqb_spec c 41) as [->|]; cbn [negb]; [|exact Hone].
  apply safe_some; [by apply Hnext|lia].
Qed.

Lemma scan_type_safe child d s limit p :
  (forall p, text s limit p -> safe s limit p (child p)) ->
  text s limit p -> safe s limit p (scan_type child d s limit p).
Proof.
  intros Hc Ht. unfold scan_type. destruct (at_limit limit p) eqn:Hl; [apply safe_none|].
  destruct (text_read s limit p Ht Hl) as (c & -> & Hpl & Hnext). cbn [mbind option_bind].
  destruct (Z.eqb_spec c 0) as [|Hc0]; [apply safe_none|]. specialize (Hnext Hc0).
  assert (forall (f : Z -> Z), safe s limit p (r ← child (p + 1);
    match r with None => Some None | Some (q, d) => Some (Some (q, f d)) end)) as Hone.
  { intros f. destruct (Hc _ Hnext) as (r & -> & Hr). cbn [mbind option_bind].
    destruct r as [[q dd]|]; [|apply safe_none]. destruct (Hr q dd eq_refl). apply safe_some; [done|lia]. }
  destruct (c =? 40).
  { destruct (tuple_loop_safe child (length s) s limit (p + 1) 0 Hc Hnext) as (r & -> & Hr).
    - destruct Ht. unfold zlen in *. lia.
    - exists r. split; [done|]. intros e dep E. destruct (Hr e dep E). split; [done|lia]. }
  destruct (c =? 123); [|destruct ((c =? 109) || (c =? 97)); [apply (Hone (fun d => Z.max 0 (d + 1)))|]].
  - destruct ((d =? 0)%nat || at_limit limit (p + 1)) eqn:Hb; [apply safe_none|]. zprops.
    destruct (text_read s limit (p + 1)) as (k & -> & _ & Hk); [done..|]. cbn [mbind option_bind].
    destruct (Z.eqb_spec k 0) as [|Hk0]; cbn [orb]; [apply safe_none|]. specialize (Hk Hk0).
    destruct (negb (strchr_found key_chars k)); [apply safe_none|].
    destruct (Hc _ Hk) as (r & -> & Hr). cbn [mbind option_bind].
    destruct r as [[q dd]|]; [|apply safe_none]. destruct (Hr q dd eq_refl) as [Hq Hlt].
    destruct (at_limit limit q) eqn:Hlq; [apply safe_none|].
    destruct (text_read s limit q Hq Hlq) as (x & -> & _ & Hx). cbn [mbind option_bind].
    destruct (Z.eqb_spec x 125) as [->|]; cbn [negb]; [|apply safe_none].
    apply safe_some; [by apply Hx|lia].
  - destruct (existsb (Z.eqb c) basic_chars); [|apply safe_none]. apply safe_some; [done|lia].
Qed.

Lemma scan_safe d s limit p :
  text s limit p -> safe s limit p (variant_type_string_scan_internal d s limit p).
Proof.
  revert p. induction d as [|d IH]; intros p Ht; rewrite scan_unfold; apply scan_type_safe;
    [intros; apply safe_none|done|exact IH|done].
Qed.

(** ** Walking over type strings

    On the string of a type, the functions of gvarianttype.c that only look for
    prefixes and brackets do what they would do on the type itself. *)

Lemma denotes_leaf s p c : existsb (Z.eqb c) basic_chars = true -> rd s p = Some c -> denotes s p (Leaf c).
Proof. intros Hc Hr. split; [done|by apply rd_holds]. Qed.

Lemma denotes_head s p t : denotes s p t -> rd s p = Some (head_char t).
Proof. intros [_ Hh]. rewrite print_head in Hh. by apply holds_cons in Hh as [Hr _]. Qed.

Lemma denotes_maybe s p t : denotes s p (Maybe t) -> denotes s (p + 1) t.
Proof. intros [Hv Hh]. by apply holds_cons in Hh as [_ Hh]. Qed.
Lemma denotes_array s p t : denotes s p (Array t) -> denotes s (p + 1) t.
Proof. intros [Hv Hh]. by apply holds_cons in Hh as [_ Hh]. Qed.

Lemma denotes_entry s p k v :
  denotes s p (Entry k v) ->
  denotes s (p + 1) (Leaf k) /\ denotes s (p + 1 + 1) v /\ rd s (p + 1 + 1 + zlen (print v)) = Some 125 /\
  existsb (Z.eqb k) key_chars = true.
Proof.
  intros [Hv Hh]. cbn [valid] in Hv. zprops. cbn [print] in Hh.
  apply holds_cons in Hh as [_ Hh]. apply holds_cons in Hh as [Hk Hh]. apply holds_app in Hh as [Hv' Hh].
  apply holds_cons in Hh as [He _]. split_and!; try done. apply denotes_leaf; [by apply key_basic|done].
Qed.

(** The items of a tuple, up to its closing bracket. *)
Definition items (s : list Z) (p : Z) (ts : list vtype) : Prop :=
  Forall (fun t => valid t = true) ts /\ holds s p (prints ts ++ [41]).

Lemma items_nil s p : items s p [] -> rd s p = Some 41.
Proof. intros [_ Hh]. by apply holds_cons in Hh as [Hr _]. Qed.
Lemma items_cons s p t ts :
  items s p (t :: ts) -> denotes s p t /\ items s (p + zlen (print t)) ts.
Proof.
  intros [Hv Hh]. apply Forall_cons in Hv as [Hv1 Hv]. apply holds_item in Hh as [H1 H2]. done.
Qed.
Lemma denotes_tuple s p ts : denotes s p (Tuple ts) -> items s (p + 1) ts.
Proof.
  intros [Hv Hh]. rewrite valid_tuple in Hv. rewrite print_tuple in Hh. by apply holds_cons in Hh as [_ Hh].
Qed.
Lemma items_end s p ts : items s p ts -> rd s (p + zlen (prints ts)) = Some 41.
Proof. intros [_ Hh]. apply holds_app in Hh as [_ Hh]. by apply holds_cons in Hh as [Hr _]. Qed.

Lemma print_bound s p t : denotes s p t -> 0 <= p /\ p + zlen (print t) <= zlen s.
Proof. intros [_ Hh]. by apply holds_bounds. Qed.

(** ** The length of a type string *)

(** How many prefixes a type string starts with. *)
Fixpoint prefixes (t : vtype) : Z :=
  match t with Maybe t | Array t => 1 + prefixes t | _ => 0 end.

Lemma skip_none fuel s p c : rd s p = Some c -> c <> 97 -> c <> 109 -> skip_prefixes fuel s p = Some p.
Proof.
  intros Hr H1 H2. destruct fuel; cbn [skip_prefixes]; rewrite Hr; cbn [mbind option_bind];
    by rewrite !(proj2 (Z.eqb_neq c _)) by done.
Qed.

Lemma skip_denotes t fuel s p :
  denotes s p t -> zlen (print t) <= Z.of_nat fuel -> skip_prefixes fuel s p = Some (p + prefixes t).
Proof.
  revert fuel p. induction t as [c|t IH|t IH|ts _|k v _] using vtype_ind'; intros fuel p Hd Hf;
    pose proof (denotes_head _ _ _ Hd) as Hr; cbn [prefixes head_char] in *; rewrite ?Z.add_0_r.
  - destruct Hd as [Hv _]. apply (skip_none _ _ _ c Hr); cbn [valid] in Hv; known_char Hv; lia.
  - destruct fuel; cbn [skip_prefixes print] in *; rewrite zlen_cons in Hf; [pose proof (zlen_nonneg (print t)); lia|].
    rewrite Hr. cbn [mbind option_bind Z.eqb Pos.eqb orb]. rewrite IH by (by apply denotes_maybe || lia). f_equal. lia.
  - destruct fuel; cbn [skip_prefixes print] in *; rewrite zlen_cons in Hf; [pose proof (zlen_nonneg (print t)); lia|].
    rewrite Hr. cbn [mbind option_bind Z.eqb Pos.eqb orb]. rewrite IH by (by apply denotes_array || lia). f_equal. lia.
  - by apply (skip_none _ _ _ 40 Hr).
  - by apply (skip_none _ _ _ 123 Hr).
Qed.

Section length.
Context (s : list Z).

Lemma skip_fuel t p : denotes s p t -> skip_prefixes (length s) s p = Some (p + prefixes t).
Proof. intros Hd. apply skip_denotes; [done|]. pose proof (print_bound s p t Hd). unfold zlen in *. lia. Qed.

(** The loop at a character that is no prefix, with the brackets behind it. *)
Lemma length_loop_char fuel p b b' c :
  rd s p = Some c -> c <> 97 -> c <> 109 ->
  b' = (if (c =? 40) || (c =? 123) then b + 1 else if (c =? 41) || (c =? 125) then b - 1 else b) ->
  0 <= b' < 2 ^ 31 ->
  length_loop (S fuel) s p b = if b' =? 0 then Some (p + 1) else length_loop fuel s (p + 1) b'.
Proof.
  intros Hr H1 H2 Hb Hb'. cbn [length_loop]. rewrite (skip_none _ _ _ c Hr H1 H2). cbn [mbind option_bind].
  rewrite Hr. cbn [mbind option_bind]. rewrite <- Hb, i32_small, Z.eqb_refl by lia. cbn [negb].
  by destruct (b' =? 0).
Qed.

Lemma length_loop_prefix fuel p b t t' :
  denotes s p t -> denotes s (p + 1) t' -> prefixes t = 1 + prefixes t' ->
  length_loop (S fuel) s p b = length_loop (S fuel) s (p + 1) b.
Proof.
  intros H1 H2 Hp. cbn [length_loop]. rewrite (skip_fuel t p H1), (skip_fuel t' (p + 1) H2), Hp.
  by replace (p + (1 + prefixes t')) with (p + 1 + prefixes t') by lia.
Qed.

(** The loop passes over a type; it ends there if no bracket is open. *)
Definition passes (p b len : Z) : Prop :=
  exists k, (1 <= k)%nat /\ Z.of_nat k <= len /\ forall fuel,
    length_loop (k + fuel) s p b = if b =? 0 then Some (p + len) else length_loop fuel s (p + len) b.

Lemma passes_items ts p b :
  Forall (fun t => forall p b, denotes s p t -> 0 <= b -> b + Z.of_nat (nesting t) + 1 < 2 ^ 31 -> passes p b (zlen (print t))) ts ->
  items s p ts -> 0 < b -> Forall (fun t => b + Z.of_nat (nesting t) + 1 < 2 ^ 31) ts -> b < 2 ^ 31 ->
  exists k, Z.of_nat k <= zlen (prints ts) /\ forall fuel,
    length_loop (k + fuel) s p b = length_loop fuel s (p + zlen (prints ts)) b.
Proof.
  intros Hall. revert p. induction Hall as [|t ts Ht _ IH]; intros p Hi Hb Hlen Hb'.
  - exists 0%nat. change (zlen (prints [])) with 0. split; [lia|]. intros fuel. by rewrite Z.add_0_r.
  - apply items_cons in Hi as [Hd Hi]. rewrite prints_cons, zlen_app in *.
    pose proof (zlen_nonneg (prints ts)). pose proof (zlen_nonneg (print t)).
    apply Forall_cons in Hlen as [Hl Hlen].
    destruct (Ht p b Hd) as (k1 & _ & Hk1 & E1); [lia|lia|].
    destruct (IH _ Hi) as (k2 & Hk2 & E2); [lia|done|lia|].
    exists (k1 + k2)%nat. split; [lia|]. intros fuel.
    rewrite <- Nat.add_assoc, E1, (proj2 (Z.eqb_neq b 0)), E2, Z.add_assoc by lia. done.
Qed.

Lemma passes_type t p b :
  denotes s p t -> 0 <= b -> b + Z.of_nat (nesting t) + 1 < 2 ^ 31 -> passes p b (zlen (print t)).
Proof.
  revert p b. induction t as [c|t IH|t IH|ts IH|k v IH] using vtype_ind'; intros p b Hd Hb Hlen;
    pose proof (denotes_head _ _ _ Hd) as Hr; cbn [head_char] in Hr.
  - exists 1%nat. change (zlen (print (Leaf c))) with 1 in *. split_and!; [lia|lia|]. intros fuel. cbn [Nat.add].
    destruct Hd as [Hv _]. cbn [valid] in Hv.
    rewrite (length_loop_char _ _ _ b c Hr); [done|..|lia]; known_char Hv; done.
  - cbn [print] in *. rewrite zlen_cons in *. cbn [nesting] in Hlen. pose proof (denotes_maybe _ _ _ Hd) as Hd'.
    destruct (IH (p + 1) b Hd') as ([|k] & Hk1 & Hk2 & E); [lia|lia|lia|].
    exists (S k). split_and!; [lia|lia|]. intros fuel. cbn [Nat.add] in *.
    rewrite (length_loop_prefix _ _ _ (Maybe t) t), E by done. by rewrite Z.add_assoc.
  - cbn [print] in *. rewrite zlen_cons in *. cbn [nesting] in Hlen. pose proof (denotes_array _ _ _ Hd) as Hd'.
    destruct (IH (p + 1) b Hd') as ([|k] & Hk1 & Hk2 & E); [lia|lia|lia|].
    exists (S k). split_and!; [lia|lia|]. intros fuel. cbn [Nat.add] in *.
    rewrite (length_loop_prefix _ _ _ (Array t) t), E by done. by rewrite Z.add_assoc.
  - apply denotes_tuple in Hd. rewrite print_tuple, zlen_cons, zlen_app in *. change (zlen [41]) with 1 in *.
    pose proof (zlen_nonneg (prints ts)).
    destruct (passes_items ts (p + 1) (b + 1) IH Hd) as (k & Hk & E); [lia|..].
    { apply Forall_impl with (P := fun t => (nesting t < nesting (Tuple ts))%nat); [by apply nesting_tuple|intros; lia]. }
    { lia. }
    exists (S (k + 1)). split_and!; [lia|lia|]. intros fuel. cbn [Nat.add].
    rewrite (length_loop_char _ _ _ (b + 1) 40 Hr), (proj2 (Z.eqb_neq (b + 1) 0)) by (done || lia).
    rewrite <- Nat.add_assoc, E. cbn [Nat.add].
    rewrite (length_loop_char _ _ _ b 41 (items_end _ _ _ Hd)) by (cbn; done || lia).
    by replace (p + (1 + (zlen (prints ts) + 1))) with (p + 1 + zlen (prints ts) + 1) by lia.
  - apply denotes_entry in Hd as (Hk & Hd & He & Hkey). cbn [print] in *.
    rewrite !zlen_cons, zlen_app in *. change (zlen [125]) with 1 in *. pose proof (zlen_nonneg (print v)).
    cbn [nesting] in Hlen. destruct (IH _ (b + 1) Hd) as (n & Hn1 & Hn2 & E); [lia|lia|].
    exists (S (S (n + 1))). split_and!; [lia|lia|]. intros fuel. cbn [Nat.add].
    rewrite (length_loop_char _ _ _ (b + 1) 123 Hr), (proj2 (Z.eqb_neq (b + 1) 0)) by (done || lia).
    rewrite (length_loop_char _ _ _ (b + 1) k (denotes_head _ _ _ Hk)), (proj2 (Z.eqb_neq (b + 1) 0));
      [|lia|known_char Hkey; done..|lia].
    rewrite <- Nat.add_assoc, E, (proj2 (Z.eqb_neq (b + 1) 0)) by lia. cbn [Nat.add].
    rewrite (length_loop_char _ _ _ b 125 He) by (cbn; done || lia).
    by replace (p + (1 + (1 + (zlen (print v) + 1)))) with (p + 1 + 1 + zlen (print v) + 1) by lia.
Qed.

(** No counter of brackets overflows. *)
Definition shallow (t : vtype) : Prop := Z.of_nat (nesting t) + 1 < 2 ^ 31.

Lemma shallow_leaf c : shallow (Leaf c).
Proof. done. Qed.
Lemma shallow_maybe t : shallow (Maybe t) -> shallow t.
Proof. unfold shallow. cbn [nesting]. lia. Qed.
Lemma shallow_array t : shallow (Array t) -> shallow t.
Proof. unfold shallow. cbn [nesting]. lia. Qed.
Lemma shallow_entry k t : shallow (Entry k t) -> shallow t.
Proof. unfold shallow. cbn [nesting]. lia. Qed.
Lemma shallow_tuple ts : shallow (Tuple ts) -> Forall shallow ts.
Proof.
  intros Hs. eapply Forall_impl; [by apply (nesting_tuple (nesting (Tuple ts)) ts)|].
  unfold shallow in *. cbv beta. intros. lia.
Qed.

Lemma string_length_ok p t : shallow t -> denotes s p t -> xvariant_type_get_string_length s p = Some (zlen (print t)).
Proof.
  intros Hs Hd. unfold shallow in Hs. pose proof (print_bound s p t Hd) as [H1 H2].
  destruct (passes_type t p 0 Hd) as (k & _ & Hk & E); [lia|lia|].
  unfold xvariant_type_get_string_length. replace (length s) with (k + (length s - k))%nat by (unfold zlen in *; lia).
  rewrite E. cbn [Z.eqb mbind option_bind]. f_equal. lia.
Qed.

Lemma string_bytes p t : denotes s p t -> cells_at s p (zlen (print t)) = Some (print t).
Proof. intros [_ Hh]. by apply holds_block. Qed.
End length.

(** ** Subtypes *)

Section subtypes.
Context (s super : list Z) (supertype_end : Z).

(** From a type and the supertype the loop goes on behind both, or answers no. *)
Definition compares (p q len len' : Z) (P : Prop) : Prop :=
  exists b : bool, (b = true <-> P) /\ exists k, Z.of_nat k <= len' /\ forall fuel,
    subtype_loop (k + fuel) s p super q supertype_end =
      if b then subtype_loop fuel s (p + len) super (q + len') supertype_end else Some false.

(** A character of the supertype that stands for itself only. *)
Lemma loop_char fuel p q x y :
  rd super q = Some x -> rd s p = Some y -> x <> 42 -> x <> 63 -> x <> 114 -> q < supertype_end ->
  subtype_loop (S fuel) s p super q supertype_end =
    if x =? y then subtype_loop fuel s (p + 1) super (q + 1) supertype_end else Some false.
Proof.
  intros Hx Hy H1 H2 H3 Hq. cbn [subtype_loop]. rewrite (proj2 (Z.ltb_lt q _)) by done.
  rewrite Hx, Hy. cbn [mbind option_bind]. destruct (x =? y); [done|].
  destruct (y =? 41); [done|]. by rewrite !(proj2 (Z.eqb_neq x _)) by done.
Qed.

Lemma compares_no p q len len' P x y :
  rd super q = Some x -> rd s p = Some y -> x <> 42 -> x <> 63 -> x <> 114 -> q < supertype_end ->
  x <> y -> 1 <= len' -> ~ P -> compares p q len len' P.
Proof.
  intros Hx Hy H1 H2 H3 Hq Hne Hlen HP. exists false. split; [split; [done|tauto]|].
  exists 1%nat. split; [lia|]. intros fuel. cbn [Nat.add].
  by rewrite (loop_char fuel p q x y), (proj2 (Z.eqb_neq x y)).
Qed.

(** The same character on both sides, before the rest is compared. *)
Lemma compares_char p q len len' P Q x :
  rd super q = Some x -> rd s p = Some x -> x <> 42 -> x <> 63 -> x <> 114 -> q < supertype_end ->
  compares (p + 1) (q + 1) len len' P -> (P <-> Q) -> compares p q (1 + len) (1 + len') Q.
Proof.
  intros Hx Hy H1 H2 H3 Hq (b & Hb & k & Hk & E) HPQ. exists b. split; [by rewrite Hb|].
  exists (S k). split; [lia|]. intros fuel. cbn [Nat.add].
  rewrite (loop_char _ p q x x), Z.eqb_refl, E by done. by rewrite !Z.add_assoc.
Qed.

(** One part after the other. *)
Lemma compares_seq p q len1 len1' len2 len2' P Q R :
  compares p q len1 len1' P -> compares (p + len1) (q + len1') len2 len2' Q -> 0 <= len2' ->
  (P /\ Q <-> R) -> compares p q (len1 + len2) (len1' + len2') R.
Proof.
  intros (b & Hb & k & Hk & E) (b' & Hb' & k' & Hk' & E') Hlen HR. exists (b && b').
  split; [rewrite andb_true_iff, Hb, Hb'; done|]. exists (k + k')%nat. split; [lia|]. intros fuel.
  rewrite <- Nat.add_assoc, E. destruct b; cbn [andb]; [|done]. by rewrite E', !Z.add_assoc.
Qed.

Lemma is_basic_key c : existsb (Z.eqb c) (ascii_bytes "bynqihutxdsog?") = existsb (Z.eqb c) key_chars.
Proof.
  apply eq_true_iff_eq. rewrite !existsb_eqb. cbv [key_chars]. cbn [In].
  change (In c (ascii_bytes "bynqihutxdsog?")) with
    (98 = c \/ 121 = c \/ 110 = c \/ 113 = c \/ 105 = c \/ 104 = c \/ 117 = c \/ 116 = c \/ 120 = c \/ 100 = c \/
     115 = c \/ 111 = c \/ 103 = c \/ 63 = c \/ False). tauto.
Qed.

(** A type of one character as the supertype. *)
Lemma compares_leaf p q t c :
  shallow t -> denotes s p t -> existsb (Z.eqb c) basic_chars = true -> rd super q = Some c -> q < supertype_end ->
  compares p q (zlen (print t)) 1 (subtype t (Leaf c)).
Proof.
  intros Hs Hd Hc Hq Hlt. pose proof (denotes_head _ _ _ Hd) as Hr. pose proof Hd as [Hv _].
  pose proof (head_valid t Hv) as (_ & H41 & _).
  assert (forall b : bool, (b = true <-> subtype t (Leaf c)) ->
    (forall fuel, subtype_loop (S fuel) s p super q supertype_end =
      if b then subtype_loop fuel s (p + zlen (print t)) super (q + 1) supertype_end else Some false) ->
    compares p q (zlen (print t)) 1 (subtype t (Leaf c))) as Hgoal.
  { intros b Hb E. exists b. split; [done|]. exists 1%nat. split; [lia|]. exact E. }
  destruct (Z.eq_dec c (head_char t)) as [->|Hne].
  { assert (t = Leaf (head_char t)) as Et.
    { destruct t; [done|..]; cbn [head_char] in Hc; exfalso; by vm_compute in Hc. }
    apply (Hgoal true); [split; [intros _; rewrite Et; constructor|done]|]. intros fuel. cbn [subtype_loop].
    rewrite (proj2 (Z.ltb_lt q _)), Hq, Hr by done. cbn [mbind option_bind]. rewrite Z.eqb_refl.
    rewrite Et. done. }
  assert (forall b : bool, (b = true <-> subtype t (Leaf c)) ->
    (if c =? 114 then xvariant_type_is_tuple s p else if c =? 42 then Some true
     else if c =? 63 then xvariant_type_is_basic s p else Some false) = Some b ->
    compares p q (zlen (print t)) 1 (subtype t (Leaf c))) as Hgoal'.
  { intros b Hb E. apply (Hgoal b Hb). intros fuel. cbn [subtype_loop].
    rewrite (proj2 (Z.ltb_lt q _)), Hq, Hr by done. cbn [mbind option_bind].
    rewrite (proj2 (Z.eqb_neq c _)), (proj2 (Z.eqb_neq (head_char t) 41)), E by done. cbn [mbind option_bind].
    destruct b; [|done]. rewrite (string_length_ok s p t Hs Hd). done. }
  destruct (Z.eqb_spec c 114) as [->|H1]; [|destruct (Z.eqb_spec c 42) as [->|H2]; [|destruct (Z.eqb_spec c 63) as [->|H3]]].
  - apply (Hgoal' ((head_char t =? 114) || (head_char t =? 40))).
    + rewrite (proj2 (Z.eqb_neq (head_char t) 114)) by done. cbn [orb]. rewrite Z.eqb_eq. split.
      * destruct t; cbn [head_char]; try lia; [intros ->; by vm_compute in Hv|constructor].
      * intros Hs'. inversion Hs'; subst; done.
    + unfold xvariant_type_is_tuple. by rewrite Hr.
  - apply (Hgoal' true); [|done]. split; [constructor|done].
  - apply (Hgoal' (existsb (Z.eqb (head_char t)) key_chars)).
    + split.
      * destruct t; cbn [head_char]; intros Hk; [by constructor|exfalso; by vm_compute in Hk..].
      * intros Hs'. inversion Hs'; subst; done.
    + unfold xvariant_type_is_basic. rewrite Hr. cbn [mbind option_bind]. by rewrite is_basic_key.
  - apply (Hgoal' false); [|done]. split; [done|]. intros Hs'. inversion Hs'; subst; done.
Qed.

(** The items of two tuples and the bracket behind them. *)
Lemma compares_items us : forall ts p q,
  Forall (fun u => forall t p q, shallow t -> denotes s p t -> denotes super q u -> q + zlen (print u) <= supertype_end ->
    compares p q (zlen (print t)) (zlen (print u)) (subtype t u)) us ->
  Forall shallow ts -> items s p ts -> items super q us -> q + zlen (prints us) + 1 <= supertype_end ->
  compares p q (zlen (prints ts) + 1) (zlen (prints us) + 1) (Forall2 subtype ts us).
Proof.
  induction us as [|u us IH]; intros ts p q Hall Hs Hts Hus Hend.
  - change (zlen (prints [])) with 0 in *. pose proof (items_nil _ _ Hus) as Hq.
    destruct ts as [|t ts].
    + change (zlen (prints [])) with 0. pose proof (items_nil _ _ Hts) as Hp.
      exists true. split; [split; [constructor|done]|]. exists 1%nat. split; [lia|]. intros fuel. cbn [Nat.add].
      by rewrite (loop_char _ p q 41 41) by (done || lia).
    + apply items_cons in Hts as [Hd _]. pose proof (denotes_head _ _ _ Hd) as Hp. destruct Hd as [Hv _].
      eapply compares_no; try done; try lia; [|by intros ?%Forall2_nil_inv_r].
      apply head_valid in Hv. lia.
  - apply items_cons in Hus as [Hdu Hus]. apply Forall_cons in Hall as [Hu Hall].
    pose proof (zlen_nonneg (prints us)). pose proof (print_nonempty u). rewrite prints_cons, zlen_app in *.
    destruct ts as [|t ts].
    + pose proof (items_nil _ _ Hts) as Hp. change (zlen (prints [])) with 0.
      pose proof (denotes_head _ _ _ Hdu) as Hq. destruct Hdu as [Hv _]. apply head_valid in Hv.
      exists false. split; [split; [done|by intros ?%Forall2_nil_inv_l]|]. exists 1%nat. split; [lia|].
      intros fuel. cbn [Nat.add subtype_loop].
      rewrite (proj2 (Z.ltb_lt q _)), Hq, Hp by lia. cbn [mbind option_bind].
      by rewrite (proj2 (Z.eqb_neq (head_char u) 41)) by lia.
    + apply items_cons in Hts as [Hdt Hts]. rewrite prints_cons, zlen_app in *.
      pose proof (zlen_nonneg (prints ts)). pose proof (zlen_nonneg (print t)). apply Forall_cons in Hs as [Hs1 Hs].
      rewrite <- !Z.add_assoc. eapply compares_seq; [apply Hu; done || lia|apply IH; done || lia|lia|].
      split; [intros []; by constructor|]. intros Hf. by inversion Hf.
Qed.

Lemma compares_type u t p q :
  shallow t -> denotes s p t -> denotes super q u -> q + zlen (print u) <= supertype_end ->
  compares p q (zlen (print t)) (zlen (print u)) (subtype t u).
Proof.
  revert t p q. induction u as [c|u IH|u IH|us IH|k v IH] using vtype_ind'; intros t p q Hs Hd Hdu Hend;
    pose proof (denotes_head _ _ _ Hdu) as Hq; cbn [head_char] in Hq;
    pose proof (denotes_head _ _ _ Hd) as Hp.
  - change (zlen (print (Leaf c))) with 1 in *. apply compares_leaf; try done; [apply Hdu|lia].
  - destruct (Z.eq_dec 109 (head_char t)) as [E|Hne].
    + assert (exists t', t = Maybe t') as [t' ->].
      { destruct t; try done; [|by eexists]. cbn [head_char] in E. subst. destruct Hd as [Hd _]. by vm_compute in Hd. }
      cbn [print] in *. rewrite !zlen_cons in *. pose proof (zlen_nonneg (print u)).
      eapply (compares_char _ _ _ _ (subtype t' u)); try done; try lia.
      * apply IH; [by apply shallow_maybe|by apply denotes_maybe|by apply denotes_maybe|lia].
      * split; [by constructor|]. by inversion 1.
    + pose proof (print_nonempty (Maybe u)). eapply compares_no; try done; try lia. by inversion 1; subst.
  - destruct (Z.eq_dec 97 (head_char t)) as [E|Hne].
    + assert (exists t', t = Array t') as [t' ->].
      { destruct t; try done; [|by eexists]. cbn [head_char] in E. subst. destruct Hd as [Hd _]. by vm_compute in Hd. }
      cbn [print] in *. rewrite !zlen_cons in *. pose proof (zlen_nonneg (print u)).
      eapply (compares_char _ _ _ _ (subtype t' u)); try done; try lia.
      * apply IH; [by apply shallow_array|by apply denotes_array|by apply denotes_array|lia].
      * split; [by constructor|]. by inversion 1.
    + pose proof (print_nonempty (Array u)). eapply compares_no; try done; try lia. by inversion 1; subst.
  - rewrite print_tuple, zlen_cons, zlen_app in *. change (zlen [41]) with 1 in *. pose proof (zlen_nonneg (prints us)).
    destruct (Z.eq_dec 40 (head_char t)) as [E|Hne].
    + assert (exists ts, t = Tuple ts) as [ts ->].
      { destruct t; try done; [|by eexists]. cbn [head_char] in E. subst. destruct Hd as [Hd _]. by vm_compute in Hd. }
      rewrite print_tuple, zlen_cons, zlen_app in *. change (zlen [41]) with 1 in *.
      eapply (compares_char _ _ _ _ (Forall2 subtype ts us)); try done; try lia.
      * apply compares_items; [done|by apply shallow_tuple|by apply denotes_tuple|by apply denotes_tuple|lia].
      * split; [by constructor|]. by inversion 1.
    + eapply compares_no; try done; try lia. by inversion 1; subst.
  - destruct (Z.eq_dec 123 (head_char t)) as [E|Hne].
    + assert (exists k' v', t = Entry k' v') as (k' & v' & ->).
      { destruct t; try done; [|by eauto]. cbn [head_char] in E. subst. destruct Hd as [Hd _]. by vm_compute in Hd. }
      apply denotes_entry in Hd as (Hk & Hv & He & Hkey), Hdu as (Hk' & Hv' & He' & Hkey').
      cbn [print] in *. rewrite !zlen_cons, !zlen_app in *. change (zlen [125]) with 1 in *. pose proof (zlen_nonneg (print v)).
      eapply (compares_char _ _ _ _ (subtype (Leaf k') (Leaf k) /\ subtype v' v)); try done; try lia.
      * eapply (compares_seq _ _ 1 1); [| |lia|reflexivity].
        -- change 1 with (zlen (print (Leaf k'))) at 3. apply compares_leaf; [done|done|by apply key_basic| |lia].
           by apply denotes_head in Hk'.
        -- eapply (compares_seq _ _ _ _ 1 1 _ True); [apply IH; (by eapply shallow_entry) || done || lia| |lia|tauto].
           exists true. split; [done|]. exists 1%nat. split; [lia|]. intros fuel. cbn [Nat.add].
           by rewrite (loop_char _ _ _ 125 125) by (done || lia).
      * split; [intros []; by constructor|]. by inversion 1.
    + pose proof (print_nonempty (Entry k v)). eapply compares_no; try done; try lia. by inversion 1; subst.
Qed.
End subtypes.

Lemma is_subtype_ok s p t super q u :
  shallow t -> shallow u -> denotes s p t -> denotes super q u ->
  exists b, xvariant_type_is_subtype_of s p super q = Some b /\ (b = true <-> subtype t u).
Proof.
  intros Hs Hsuper Hd Hdu. unfold xvariant_type_is_subtype_of.
  rewrite (string_length_ok super q u Hsuper Hdu). cbn [mbind option_bind].
  destruct (compares_type s super (q + zlen (print u)) u t p q Hs Hd Hdu) as (b & Hb & k & Hk & E); [lia|].
  exists b. split; [|done]. replace (Z.to_nat (zlen (print u))) with (k + (Z.to_nat (zlen (print u)) - k))%nat by lia.
  rewrite E. destruct b; [|done]. destruct (_ - k)%nat; cbn [subtype_loop]; by rewrite Z.ltb_irrefl.
Qed.

(** ** Single characters and whole strings *)

Lemma definite_loop_ok s p l :
  holds s p l -> definite_loop (length l) s p = Some (forallb definite_char l).
Proof.
  revert p. induction l as [|c l IH]; intros p Hh; [done|]. apply holds_cons in Hh as [Hr Hh].
  cbn [length definite_loop forallb]. rewrite Hr. cbn [mbind option_bind]. unfold definite_char at 1.
  destruct ((c =? 42) || (c =? 63) || (c =? 114)); cbn [negb andb]; [done|]. by apply IH.
Qed.

Lemma definite_print t : forallb definite_char (print t) = definite t.
Proof.
  induction t as [c|t IH|t IH|ts IH|k v IH] using vtype_ind'.
  - cbn. by rewrite andb_true_r.
  - cbn [print forallb definite]. by rewrite IH.
  - cbn [print forallb definite]. by rewrite IH.
  - rewrite print_tuple. cbn [forallb definite]. change (definite_char 40) with true. cbn [andb].
    rewrite forallb_app. change (forallb definite_char [41]) with true. rewrite andb_true_r.
    induction IH as [|t ts Ht _ IHts]; [done|]. rewrite prints_cons, forallb_app, Ht.
    cbn [forallb]. by rewrite IHts.
  - cbn [print forallb definite]. change (definite_char 123) with true. cbn [andb].
    rewrite forallb_app, IH. change (forallb definite_char [125]) with true. by rewrite andb_true_r.
Qed.

(** The hash of a string of characters. *)
Definition hash_bytes (value : Z) (l : list Z) : Z :=
  fold_left (fun value c => u32 (u32 (Z.shiftl value 5) - value + i8 c)) l value.
Lemma type_hash_loop_ok s p l value :
  holds s p l -> type_hash_loop (length l) s p value = Some (hash_bytes value l).
Proof.
  revert p value. induction l as [|c l IH]; intros p value Hh; [done|]. apply holds_cons in Hh as [Hr Hh].
  cbn [length type_hash_loop]. rewrite Hr. cbn [mbind option_bind]. by rewrite IH.
Qed.

Section whole.
Context (s : list Z).

Lemma is_definite_ok p t : shallow t -> denotes s p t -> xvariant_type_is_definite s p = Some (definite t).
Proof.
  intros Hs Hd. unfold xvariant_type_is_definite. rewrite (string_length_ok s p t Hs Hd). cbn [mbind option_bind].
  rewrite <- definite_print. rewrite <- (definite_loop_ok s p) by apply Hd. unfold zlen. by rewrite Nat2Z.id.
Qed.

Lemma hash_ok p t : shallow t -> denotes s p t -> xvariant_type_hash s p = Some (hash_bytes 0 (print t)).
Proof.
  intros Hs Hd. unfold xvariant_type_hash. rewrite (string_length_ok s p t Hs Hd). cbn [mbind option_bind].
  rewrite <- (type_hash_loop_ok s p) by apply Hd. unfold zlen. by rewrite Nat2Z.id.
Qed.

Lemma equal_ok s' p t p' u :
  shallow t -> shallow u -> denotes s p t -> denotes s' p' u ->
  exists b, xvariant_type_equal false s p s' p' = Some b /\ (b = true <-> t = u).
Proof.
  intros Hs Hs' Hd Hd'. unfold xvariant_type_equal.
  rewrite (string_length_ok s p t Hs Hd), (string_length_ok s' p' u Hs' Hd'). cbn [mbind option_bind].
  destruct (Z.eqb_spec (zlen (print t)) (zlen (print u))) as [E|Hne]; cbn [negb].
  - rewrite (string_bytes s p t Hd). rewrite E, (string_bytes s' p' u Hd'). cbn [mbind option_bind].
    eexists. split; [done|]. rewrite bool_decide_eq_true. split; [|by intros ->].
    apply print_inj; [apply Hd|apply Hd'].
  - exists false. split; [done|]. split; [done|]. by intros ->.
Qed.

(** ** From a type to its parts *)

Lemma next_in_tuple p t ts :
  shallow t -> items s p (t :: ts) ->
  xvariant_type_next s p = Some (match ts with [] => None | _ => Some (p + zlen (print t)) end) /\
  items s (p + zlen (print t)) ts.
Proof.
  intros Hs Hi. apply items_cons in Hi as [Hd Hi]. split; [|done]. unfold xvariant_type_next.
  rewrite (string_length_ok s p t Hs Hd). cbn [mbind option_bind]. destruct ts as [|u us].
  - by rewrite (items_nil _ _ Hi).
  - apply items_cons in Hi as [Hu _]. rewrite (denotes_head _ _ _ Hu). cbn [mbind option_bind].
    destruct Hu as [Hv _]. apply head_valid in Hv. by rewrite !(proj2 (Z.eqb_neq (head_char u) _)) by lia.
Qed.

Lemma n_items_loop_ok fuel p ts count :
  Forall shallow ts -> items s p ts -> (length ts <= fuel)%nat ->
  n_items_loop fuel s (match ts with [] => None | _ => Some p end) count = Some (count + zlen ts).
Proof.
  revert p ts count. induction fuel as [|fuel IH]; intros p [|t ts] count Hs Hi Hf; cbn [n_items_loop].
  1,3: change (zlen []) with 0; f_equal; lia.
  - cbn in Hf. lia.
  - apply Forall_cons in Hs as [Hs1 Hs]. apply next_in_tuple in Hi as [-> Hi]; [|done]. cbn [mbind option_bind]. rewrite (IH _ ts) by (done || (cbn in Hf; lia)).
    rewrite zlen_cons. f_equal. lia.
Qed.

Lemma first_tuple p ts :
  denotes s p (Tuple ts) ->
  xvariant_type_first s p = Some (match ts with [] => None | _ => Some (p + 1) end).
Proof.
  intros Hd. unfold xvariant_type_first. rewrite (denotes_head _ _ _ Hd). cbn [mbind option_bind head_char Z.eqb Pos.eqb orb assert_then].
  apply denotes_tuple in Hd. destruct ts as [|t ts]; [by rewrite (items_nil _ _ Hd)|].
  apply items_cons in Hd as [Hd _]. rewrite (denotes_head _ _ _ Hd). cbn [mbind option_bind].
  destruct Hd as [Hv _]. apply head_valid in Hv. by rewrite (proj2 (Z.eqb_neq (head_char t) 41)) by lia.
Qed.

Lemma n_items_tuple p ts : shallow (Tuple ts) -> denotes s p (Tuple ts) -> xvariant_type_n_items s p = Some (zlen ts).
Proof.
  intros Hs Hd. unfold xvariant_type_n_items. rewrite (first_tuple p ts Hd). cbn [mbind option_bind].
  pose proof (print_bound _ _ _ Hd) as [Hp Hb]. rewrite print_tuple, zlen_cons, zlen_app in Hb. apply shallow_tuple in Hs.
  apply denotes_tuple in Hd. rewrite (n_items_loop_ok _ (p + 1) ts 0) by
    (done || (pose proof (length_prints ts); unfold zlen in *; cbn [length] in *; lia)).
  f_equal.
Qed.

(** The parts of a dictionary entry. *)
Lemma entry_ok p k v :
  shallow (Entry k v) -> denotes s p (Entry k v) ->
  xvariant_type_key s p = Some (p + 1) /\ denotes s (p + 1) (Leaf k) /\
  xvariant_type_value s p = Some (Some (p + 2)) /\ denotes s (p + 2) v /\
  xvariant_type_first s p = Some (Some (p + 1)) /\ xvariant_type_next s (p + 1) = Some (Some (p + 2)) /\
  xvariant_type_next s (p + 2) = Some None /\ xvariant_type_n_items s p = Some 2.
Proof.
  intros Hs Hd. pose proof (denotes_head _ _ _ Hd) as Hr. cbn [head_char] in Hr.
  pose proof (print_bound _ _ _ Hd) as [Hp Hb]. cbn [print] in Hb. rewrite !zlen_cons, zlen_app in Hb. apply shallow_entry in Hs.
  pose proof (zlen_nonneg (print v)). change (zlen [125]) with 1 in Hb.
  pose proof (denotes_entry _ _ _ _ Hd) as (Hk & Hv & He & Hkey).
  assert (xvariant_type_key s p = Some (p + 1)) as Ek by (unfold xvariant_type_key; by rewrite Hr).
  assert (xvariant_type_first s p = Some (Some (p + 1))) as Ef.
  { unfold xvariant_type_first. rewrite Hr. cbn [mbind option_bind Z.eqb Pos.eqb orb assert_then].
    rewrite (denotes_head _ _ _ Hk). cbn [mbind option_bind head_char].
    rewrite (proj2 (Z.eqb_neq k 41)); [done|]. apply (head_valid (Leaf k)), Hk. }
  assert (xvariant_type_next s (p + 1) = Some (Some (p + 2))) as En.
  { unfold xvariant_type_next. rewrite (string_length_ok s (p + 1) (Leaf k) eq_refl Hk). cbn [mbind option_bind].
    change (zlen (print (Leaf k))) with 1. rewrite (denotes_head _ _ _ Hv). cbn [mbind option_bind].
    pose proof Hv as [Hvv _]. apply head_valid in Hvv. rewrite !(proj2 (Z.eqb_neq (head_char v) _)) by lia.
    cbn [orb]. do 2 f_equal. lia. }
  replace (p + 1 + 1) with (p + 2) in Hv, He by lia.
  assert (xvariant_type_next s (p + 2) = Some None) as Ee.
  { unfold xvariant_type_next. rewrite (string_length_ok s (p + 2) v Hs Hv). cbn [mbind option_bind]. by rewrite He. }
  split_and!; try done.
  - unfold xvariant_type_value. rewrite Hr. cbn [mbind option_bind Z.eqb Pos.eqb assert_then]. rewrite Ek. exact En.
  - unfold xvariant_type_n_items. rewrite Ef. cbn [mbind option_bind].
    assert (exists fuel, length s = S (S fuel)) as [fuel ->].
    { exists (length s - 2)%nat. unfold zlen in *. lia. }
    cbn [n_items_loop]. rewrite En. cbn [mbind option_bind]. rewrite Ee. by destruct fuel.
Qed.
End whole.

(** ** Which type it is *)

Definition basic (t : vtype) : bool := match t with Leaf c => existsb (Z.eqb c) key_chars | _ => false end.
Definition container (t : vtype) : bool := negb (basic t) && negb (bool_decide (head_char t = 42)).
Definition is_maybe (t : vtype) : bool := match t with Maybe _ => true | _ => false end.
Definition is_array (t : vtype) : bool := match t with Array _ => true | _ => false end.
Definition is_entry (t : vtype) : bool := match t with Entry _ _ => true | _ => false end.
Definition is_tuple (t : vtype) : bool :=
  match t with Tuple _ => true | Leaf c => c =? 114 | _ => false end.
Definition is_variant (t : vtype) : bool := match t with Leaf c => c =? 118 | _ => false end.

Lemma kinds_ok s p t :
  denotes s p t ->
  xvariant_type_is_basic s p = Some (basic t) /\ xvariant_type_is_container s p = Some (container t) /\
  xvariant_type_is_maybe s p = Some (is_maybe t) /\ xvariant_type_is_array s p = Some (is_array t) /\
  xvariant_type_is_tuple s p = Some (is_tuple t) /\ xvariant_type_is_dict_entry s p = Some (is_entry t) /\
  xvariant_type_is_variant s p = Some (is_variant t).
Proof.
  intros Hd. pose proof (denotes_head _ _ _ Hd) as Hr. destruct Hd as [Hv _].
  unfold xvariant_type_is_basic, xvariant_type_is_container, xvariant_type_is_maybe, xvariant_type_is_array,
    xvariant_type_is_tuple, xvariant_type_is_dict_entry, xvariant_type_is_variant.
  rewrite Hr. cbn [mbind option_bind]. destruct t as [c|t|t|ts|k v]; cbn [head_char]; [|done..].
  cbn [valid] in Hv. known_char Hv; split_and!; reflexivity.
Qed.

(** ** Making types from types

    Every constructor of gvarianttype.c leaves a new buffer that holds the type
    it is named after, however long its parts are. *)

(** A type in a buffer, not nested deeper than an [int] can count. *)
Definition type_at (s : list Z) (p : Z) (t : vtype) : Prop := shallow t /\ denotes s p t.

Lemma type_length s p t : type_at s p t -> xvariant_type_get_string_length s p = Some (zlen (print t)).
Proof. intros [Hs Hd]. by apply string_length_ok. Qed.
Lemma type_bytes s p t : type_at s p t -> cells_at s p (zlen (print t)) = Some (print t).
Proof. intros [Hs Hd]. by apply string_bytes. Qed.

Lemma denotes_print t rest : valid t = true -> denotes (print t ++ rest) 0 t.
Proof. intros Hv. split; [done|]. by exists [], rest. Qed.

Lemma new_array_ok s p t :
  type_at s p t -> xvariant_type_new_array s p = Some (print (Array t)) /\ valid (Array t) = true.
Proof.
  intros Ht. unfold xvariant_type_new_array. rewrite (type_length _ _ _ Ht). cbn [mbind option_bind].
  rewrite (type_bytes _ _ _ Ht). split; [done|apply Ht].
Qed.
Lemma new_maybe_ok s p t :
  type_at s p t -> xvariant_type_new_maybe s p = Some (print (Maybe t)) /\ valid (Maybe t) = true.
Proof.
  intros Ht. unfold xvariant_type_new_maybe. rewrite (type_length _ _ _ Ht). cbn [mbind option_bind].
  rewrite (type_bytes _ _ _ Ht). split; [done|apply Ht].
Qed.
Lemma new_dict_entry_ok s p k s' p' v :
  type_at s p (Leaf k) -> existsb (Z.eqb k) key_chars = true -> type_at s' p' v ->
  xvariant_type_new_dict_entry s p s' p' = Some (print (Entry k v)) /\ valid (Entry k v) = true.
Proof.
  intros Hk Hkey Hv. unfold xvariant_type_new_dict_entry.
  rewrite (type_length _ _ _ Hk). cbn [mbind option_bind]. rewrite (type_length _ _ _ Hv). cbn [mbind option_bind].
  rewrite (type_bytes _ _ _ Hk). cbn [mbind option_bind]. rewrite (type_bytes _ _ _ Hv). cbn [mbind option_bind].
  split; [done|]. cbn [valid]. rewrite Hkey. apply Hv.
Qed.

Lemma type_copy_ok s p t : type_at s p t -> xvariant_type_copy s p = Some (print t ++ [0]).
Proof.
  intros Ht. unfold xvariant_type_copy. rewrite (type_length _ _ _ Ht). cbn [mbind option_bind].
  by rewrite (type_bytes _ _ _ Ht).
Qed.

Lemma dup_string_ok s p t : type_at s p t -> xvariant_type_dup_string s p = Some (print t ++ [0]).
Proof.
  intros Ht. unfold xvariant_type_dup_string. rewrite (type_length _ _ _ Ht). cbn [mbind option_bind].
  destruct Ht as [_ [Hv (pre & post & -> & <-)]]. unfold xvariant_type_peek_string, xstrndup, zlen.
  rewrite !Nat2Z.id, drop_app_length, c_strncpy_ok by by apply print_no_nul. done.
Qed.

(** ** Tuples *)

(** An array of pointers to types. *)
Definition types_in : type_array -> list vtype -> Prop :=
  Forall2 (fun item t => exists s p, item = Some (s, p) /\ type_at s p t).

Lemma types_in_rd its ts rest i t :
  types_in its ts -> ts !! i = Some t ->
  exists s p, rd (its ++ rest) (Z.of_nat i) = Some (Some (s, p)) /\ type_at s p t.
Proof.
  intros Ht Hi. destruct (Forall2_lookup_r _ _ _ _ _ Ht Hi) as (item & Hit & s & p & -> & Hst).
  exists s, p. split; [|done]. rewrite rd_ge_0, Nat2Z.id by lia. by apply lookup_app_l_Some.
Qed.

Lemma prints_snoc ts t : prints (ts ++ [t]) = prints ts ++ print t.
Proof. unfold prints. rewrite map_app, concat_app. cbn [map concat]. by rewrite app_nil_r. Qed.

Lemma new_tuple_slow_loop_ok its rest before after string :
  types_in its (before ++ after) ->
  new_tuple_slow_loop (length after) (its ++ rest) (zlen before) string = Some (Some (string ++ prints after)).
Proof.
  revert before string. induction after as [|t after IH]; intros before string Ht; cbn [length new_tuple_slow_loop].
  - change (prints []) with (@nil Z). by rewrite app_nil_r.
  - destruct (types_in_rd its _ rest (length before) t Ht) as (s & p & Hr & Hst).
    { by rewrite lookup_app_r, Nat.sub_diag by lia. }
    change (Z.of_nat (length before)) with (zlen before) in Hr. rewrite Hr. cbn [mbind option_bind].
    rewrite (type_length _ _ _ Hst). cbn [mbind option_bind]. rewrite (type_bytes _ _ _ Hst). cbn [mbind option_bind].
    replace (zlen before + 1) with (zlen (before ++ [t])) by (rewrite zlen_app, zlen_cons, zlen_nil; lia).
    rewrite IH by by rewrite <- app_assoc. by rewrite prints_cons, app_assoc.
Qed.

Lemma new_tuple_slow_ok its rest ts :
  types_in its ts -> zlen ts < 2 ^ 31 ->
  xvariant_type_new_tuple_slow (its ++ rest) (i32 (zlen ts)) = Some (Some (print (Tuple ts) ++ [0])).
Proof.
  intros Ht Hl. unfold xvariant_type_new_tuple_slow. rewrite i32_small by (pose proof (zlen_nonneg ts); lia).
  unfold zlen. rewrite Nat2Z.id. change 0 with (zlen (@nil vtype)) at 1.
  rewrite (new_tuple_slow_loop_ok its rest [] ts) by done. cbn [mbind option_bind option_map].
  rewrite print_tuple. cbn [app]. by rewrite <- app_assoc.
Qed.

(** The fast way, from the items before [after] on: the buffer holds them, or
    the result is that of the slow way. *)
Lemma new_tuple_loop_ok its rest before after tail :
  types_in its (before ++ after) -> zlen (before ++ after) < 2 ^ 31 -> 0 < zlen tail ->
  (exists tail', 0 < zlen tail' /\
    new_tuple_loop (length after) (its ++ rest) (zlen (before ++ after)) (zlen before)
      ((40 :: prints before) ++ tail) (zlen (40 :: prints before)) =
    Some (inr ((40 :: prints (before ++ after)) ++ tail', zlen (40 :: prints (before ++ after))))) \/
  new_tuple_loop (length after) (its ++ rest) (zlen (before ++ after)) (zlen before)
      ((40 :: prints before) ++ tail) (zlen (40 :: prints before)) =
    Some (inl (Some (print (Tuple (before ++ after)) ++ [0]))).
Proof.
  revert before tail. induction after as [|t after IH]; intros before tail Ht Hl Htail; cbn [length new_tuple_loop].
  { left. exists tail. by rewrite app_nil_r. }
  destruct (types_in_rd its _ rest (length before) t Ht) as (s & p & Hr & Hst).
  { by rewrite lookup_app_r, Nat.sub_diag by lia. }
  change (Z.of_nat (length before)) with (zlen before) in Hr. rewrite Hr. cbn [mbind option_bind].
  rewrite (type_length _ _ _ Hst). cbn [mbind option_bind].
  rewrite (zlen_app (40 :: prints before) tail). destruct (Z.leb_spec (zlen (40 :: prints before) + zlen tail)
    (zlen (40 :: prints before) + zlen (print t))) as [Hslow|Hfast].
  - right. rewrite (new_tuple_slow_ok its rest) by done. done.
  - rewrite (type_bytes _ _ _ Hst). cbn [mbind option_bind].
    rewrite write_at_app by (unfold zlen in *; lia). cbn [mbind option_bind].
    assert ((40 :: prints before) ++ print t = 40 :: prints (before ++ [t])) as E by (by rewrite prints_snoc).
    rewrite app_assoc, E, <- zlen_app, E.
    replace (zlen before + 1) with (zlen (before ++ [t])) by (rewrite zlen_app, zlen_cons, zlen_nil; lia).
    rewrite cons_middle, (app_assoc before [t] after) in Ht, Hl |- *. apply IH; try done.
    unfold zlen in *. rewrite length_drop. lia.
Qed.

Lemma count_items_ok its ts rest fuel i :
  types_in its ts -> (i <= length ts)%nat -> (length ts < i + fuel)%nat ->
  count_items fuel (its ++ None :: rest) (Z.of_nat i) = Some (zlen ts).
Proof.
  intros Ht. pose proof (Forall2_length _ _ _ Ht) as El. revert i. induction fuel as [|fuel IH]; intros i Hi Hf; [lia|].
  cbn [count_items]. destruct (Nat.eq_dec i (length ts)) as [->|].
  - rewrite rd_ge_0, Nat2Z.id, lookup_app_r, El, Nat.sub_diag by lia. cbn [lookup list_lookup mbind option_bind]. done.
  - destruct (lookup_lt_is_Some_2 ts i) as [t Hti]; [lia|].
    destruct (types_in_rd its ts (None :: rest) i t Ht Hti) as (s & p & -> & _). cbn [mbind option_bind].
    replace (Z.of_nat i + 1) with (Z.of_nat (S i)) by lia. apply IH; lia.
Qed.

Lemma new_tuple_ok junk its ts rest length_ :
  types_in its ts -> zlen ts < 2 ^ 31 -> length_ = zlen ts \/ length_ < 0 /\ (exists more, rest = None :: more) ->
  exists new, xvariant_type_new_tuple junk (its ++ rest) length_ = Some (Some new) /\ denotes new 0 (Tuple ts).
Proof.
  intros Ht Hl Hlen. unfold xvariant_type_new_tuple. pose proof (Forall2_length _ _ _ Ht) as El.
  assert ((if length_ <? 0 then count_items (length (its ++ rest)) (its ++ rest) 0 else Some length_) = Some (zlen ts)) as ->.
  { pose proof (zlen_nonneg ts). destruct Hlen as [->|[Hneg [more ->]]].
    - by rewrite (proj2 (Z.ltb_ge _ 0)).
    - rewrite (proj2 (Z.ltb_lt _ 0)) by done. apply (count_items_ok its ts more _ 0); [done|lia|].
      rewrite length_app. cbn. lia. }
  cbn [mbind option_bind]. replace (Z.to_nat (zlen ts)) with (length ts) by (unfold zlen; lia).
  assert (valid (Tuple ts) = true) as Hv.
  { apply valid_tuple, Forall_forall. intros t Hti. apply list_elem_of_lookup in Hti as [i Hti].
    by destruct (types_in_rd its ts [] i t Ht Hti) as (s & p & _ & _ & Hv & _). }
  assert (wr (map junk (seq 0 1024)) 0 40 = Some ((40 :: prints []) ++ map junk (seq 1 1023))) as -> by reflexivity.
  cbn [mbind option_bind].
  destruct (new_tuple_loop_ok its rest [] ts (map junk (seq 1 1023))) as [(tail & Htail & E)|E]; [done|done|done| |];
    change (zlen (@nil vtype)) with 0 in E; change (zlen (40 :: prints [])) with 1 in E;
    cbn [app] in E |- *; rewrite E; cbn [mbind option_bind].
  - rewrite (proj2 (Z.ltb_lt _ _)) by (rewrite zlen_cons, (zlen_cons 40 (prints ts ++ tail)), zlen_app; lia).
    cbn [assert_then]. destruct tail as [|x tail]; [done|].
    assert (wr (40 :: prints ts ++ x :: tail) (zlen (40 :: prints ts)) 41 = Some (print (Tuple ts) ++ tail)) as ->.
    { rewrite wr_all by (rewrite !zlen_cons, zlen_app, zlen_cons; pose proof (zlen_nonneg (prints ts)); pose proof (zlen_nonneg tail); lia).
      unfold zlen. rewrite Nat2Z.id. rewrite (app_comm_cons (prints ts) (x :: tail) 40), insert_app_r_alt, Nat.sub_diag by lia.
      cbn [insert list_insert]. rewrite print_tuple. cbn [app]. by rewrite <- app_assoc. }
    cbn [mbind option_bind].
    replace (zlen (40 :: prints ts) + 1) with (zlen (print (Tuple ts)))
      by (rewrite print_tuple, !zlen_cons, zlen_app, zlen_cons, zlen_nil; lia).
    rewrite holds_block by by exists [], tail. cbn [mbind option_bind].
    exists (print (Tuple ts)). split; [done|]. rewrite <- (app_nil_r (print (Tuple ts))) at 1. by apply denotes_print.
  - exists (print (Tuple ts) ++ [0]). split; [done|]. by apply denotes_print.
Qed.
