(* ===== verification/VariantCorrect.v ===== *)
(** * What gvarianttype.c promises

    Scanning, taking types apart and putting them together, and the order and
    equality between them, stated on the types that the strings denote. *)

From S2P Require Import Prelude VariantType VariantSpec VariantWalk.
Local Open Scope Z_scope.

(** ** Scanning *)

Lemma scan_exact s limit p :
  text s limit p ->
  exists r, variant_type_string_scan_internal G_VARIANT_MAX_RECURSION_DEPTH s limit p = Some r /\
    forall e dep, r = Some (e, dep) <->
      exists t, denotes s p t /\ (nesting t <= 128)%nat /\ within limit p e /\ e = p + zlen (print t) /\ dep = depth t.
Proof.
  intros Ht. destruct (scan_safe G_VARIANT_MAX_RECURSION_DEPTH s limit p Ht) as (r & E & _).
  exists r. split; [done|]. intros e dep. split.
  - intros ->. apply scan_sound in E as (t & Hv & Hn & Hh & He & Hw & Hd). by exists t.
  - intros (t & [Hv Hh] & Hn & Hw & -> & ->). rewrite (scan_complete t) in E by done. by injection E.
Qed.

(** The terminated string at [p] is the string of [t]. *)
Definition type_string (s : list Z) (p : Z) (t : vtype) : Prop :=
  valid t = true /\ holds s p (print t ++ [0]).

Lemma type_string_iff s p t : type_string s p t <-> denotes s p t /\ rd s (p + zlen (print t)) = Some 0.
Proof.
  split.
  - intros [Hv Hh]. apply holds_app in Hh as [H1 H2]. by apply holds_cons in H2 as [H2 _].
  - intros [[Hv Hh] Hr]. split; [done|]. apply holds_join; [done|]. by apply rd_holds.
Qed.

Lemma is_valid_exact s p :
  text s None p ->
  exists b d, xvariant_type_string_is_valid s p = Some b /\ xvariant_type_string_get_depth_ s p = Some d /\
    (b = true <-> exists t, type_string s p t /\ (nesting t <= 128)%nat) /\
    (b = false -> d = 0) /\ (forall t, type_string s p t -> b = true -> d = depth t).
Proof.
  intros Ht. destruct (scan_exact s None p Ht) as (r & E & Hr).
  destruct (scan_safe G_VARIANT_MAX_RECURSION_DEPTH s None p Ht) as (r' & E' & Hsafe).
  rewrite E in E'. injection E' as <-.
  unfold xvariant_type_string_is_valid, xvariant_type_string_get_depth_, xvariant_type_string_scan.
  rewrite E. cbn [mbind option_bind]. destruct r as [[e dep]|]; cbn [option_map fst].
  - destruct (proj1 (Hr e dep) eq_refl) as (t & Hd & Hn & _ & He & Hdep).
    destruct (Hsafe e dep eq_refl) as [Hte _].
    destruct (text_read s None e Hte) as (c & Hc & _); [done|]. rewrite Hc. cbn [mbind option_bind].
    assert (forall u, type_string s p u -> u = t /\ c = 0) as Huniq.
    { intros u [Hu Hz]%type_string_iff. pose proof (denotes_inj _ _ _ _ Hd Hu) as <-.
      split; [done|]. rewrite <- He, Hc in Hz. congruence. }
    exists (c =? 0), (if negb (c =? 0) then 0 else dep). split_and!; [done|done| | |].
    + rewrite Z.eqb_eq. split.
      * intros ->. exists t. rewrite type_string_iff, <- He. done.
      * intros (u & Hu & _). by apply Huniq in Hu as [_ ->].
    + by intros ->.
    + intros u Hu ->. apply Huniq in Hu as [-> _]. done.
  - exists false, 0. split_and!; try done. split; [done|]. intros (t & [Hd _]%type_string_iff & Hn).
    assert (None = Some (p + zlen (print t), depth t)) as ?; [|done]. apply Hr. by exists t.
Qed.

(** C14: scanning a text (up to a limit, or terminated) reads nothing outside it
    and finds exactly the types: it succeeds if and only if the string of a type
    with at most 128 nested containers starts there and ends before the limit,
    and leaves the place behind it. A whole string is valid if and only if it
    is the string of such a type, and its depth is that of the type. *)
Theorem variant_type_scan s limit p :
  text s limit p ->
  (exists r, xvariant_type_string_scan s limit p = Some r /\
    forall e, r = Some e <->
      exists t, denotes s p t /\ (nesting t <= 128)%nat /\ within limit p e /\ e = p + zlen (print t)) /\
  (limit = None ->
    exists b d, xvariant_type_string_is_valid s p = Some b /\ xvariant_type_string_get_depth_ s p = Some d /\
      (b = true <-> exists t, type_string s p t /\ (nesting t <= 128)%nat) /\
      (b = false -> d = 0) /\ (forall t, type_string s p t -> b = true -> d = depth t)).
Proof.
  intros Ht. split; [|intros ->; by apply is_valid_exact].
  destruct (scan_exact s limit p Ht) as (r & E & Hr). unfold xvariant_type_string_scan. rewrite E.
  cbn [mbind option_bind]. eexists. split; [done|]. intros e. split.
  - destruct r as [[e' dep]|]; [|done]. intros [= <-].
    destruct (proj1 (Hr e' dep) eq_refl) as (t & H1 & H2 & H3 & H4 & _). by exists t.
  - intros (t & H1 & H2 & H3 & ->). rewrite (proj2 (Hr (p + zlen (print t)) (depth t))); [done|]. by exists t.
Qed.

Definition some_types : list Z := ascii_bytes "a{s(iv)}(i" ++ [0].
Definition dict_type : vtype := Array (Entry 115 (Tuple [Leaf 105; Leaf 118])).

Lemma variant_type_scan_witness :
  ((exists r, xvariant_type_string_scan some_types None 0 = Some r /\
    forall e, r = Some e <->
      exists t, denotes some_types 0 t /\ (nesting t <= 128)%nat /\ within None 0 e /\ e = 0 + zlen (print t)) /\
  (@None Z = None ->
    exists b d, xvariant_type_string_is_valid some_types 0 = Some b /\ xvariant_type_string_get_depth_ some_types 0 = Some d /\
      (b = true <-> exists t, type_string some_types 0 t /\ (nesting t <= 128)%nat) /\
      (b = false -> d = 0) /\ (forall t, type_string some_types 0 t -> b = true -> d = depth t))) /\
  xvariant_type_string_scan some_types None 0 = Some (Some 8) /\
  xvariant_type_string_is_valid some_types 0 = Some false /\
  xvariant_type_string_scan some_types None 8 = Some None /\
  xvariant_type_string_get_depth_ (ascii_bytes "a{s(iv)}" ++ [0]) 0 = Some 4.
Proof.
  split; [apply (variant_type_scan some_types None 0)|split_and!; reflexivity].
  split; [lia|]. change (0 ∈ some_types). unfold some_types. apply elem_of_app. right. by left.
Defined.

(** ** Making types and taking them apart *)

Lemma type_new_ok s p t :
  type_string s p t -> (nesting t <= 128)%nat ->
  xvariant_type_new s p = Some (Some (print t ++ [0])).
Proof.
  intros [Hd Hz]%type_string_iff Hn. assert (shallow t) as Hs by (unfold shallow; lia). pose proof Hd as [Hv Hh].
  unfold xvariant_type_new, xvariant_type_checked_, xvariant_type_string_is_valid, xvariant_type_string_scan.
  rewrite (scan_complete t) by done. cbn [mbind option_bind option_map fst]. rewrite Hz. cbn [mbind option_bind Z.eqb].
  by rewrite (type_copy_ok s p t).
Qed.

(** A function that makes a type has left it in a new buffer. *)
Definition makes (r : option (list Z)) (t : vtype) : Prop :=
  exists new, r = Some new /\ denotes new 0 t.

Lemma makes_print r t : r = Some (print t) /\ valid t = true -> makes r t.
Proof.
  intros [-> Hv]. exists (print t). split; [done|]. rewrite <- (app_nil_r (print t)). by apply denotes_print.
Qed.

(** C20: types are made of types. On any types, [new_array], [new_maybe],
    [new_dict_entry] (of a basic key) and [new_tuple] (of any number of items,
    counted or ended by [NULL], whatever their size and the contents of the
    stack) leave the type of that name in a new buffer, and copying leaves the
    same type, terminated; so does [new], of a valid string. [element], [first], [next], [key] and [value] lead
    from such a type to its parts, each a type again, [n_items] counts them,
    and the predicates tell which type it is. *)
Theorem variant_type_parts junk :
  (forall s p t, type_at s p t ->
    makes (xvariant_type_new_array s p) (Array t) /\ makes (xvariant_type_new_maybe s p) (Maybe t) /\
    xvariant_type_copy s p = Some (print t ++ [0]) /\ xvariant_type_dup_string s p = Some (print t ++ [0]) /\
    xvariant_type_get_string_length s p = Some (zlen (print t))) /\
  (forall s p t, type_string s p t -> (nesting t <= 128)%nat ->
    xvariant_type_new s p = Some (Some (print t ++ [0]))) /\
  (forall s p t, type_at s p t ->
    xvariant_type_is_basic s p = Some (basic t) /\ xvariant_type_is_container s p = Some (container t) /\
    xvariant_type_is_maybe s p = Some (is_maybe t) /\ xvariant_type_is_array s p = Some (is_array t) /\
    xvariant_type_is_tuple s p = Some (is_tuple t) /\ xvariant_type_is_dict_entry s p = Some (is_entry t) /\
    xvariant_type_is_variant s p = Some (is_variant t)) /\
  (forall s p k s' p' v, type_at s p (Leaf k) -> existsb (Z.eqb k) key_chars = true -> type_at s' p' v ->
    makes (xvariant_type_new_dict_entry s p s' p') (Entry k v)) /\
  (forall its ts rest n, types_in its ts -> zlen ts < 2 ^ 31 ->
    n = zlen ts \/ n < 0 /\ (exists more, rest = None :: more) ->
    exists new, xvariant_type_new_tuple junk (its ++ rest) n = Some (Some new) /\ denotes new 0 (Tuple ts)) /\
  (forall s p t, type_at s p (Array t) \/ type_at s p (Maybe t) ->
    xvariant_type_element s p = Some (p + 1) /\ type_at s (p + 1) t) /\
  (forall s p ts, type_at s p (Tuple ts) ->
    xvariant_type_n_items s p = Some (zlen ts) /\
    xvariant_type_first s p = Some (match ts with [] => None | _ => Some (p + 1) end) /\
    forall before t after, ts = before ++ t :: after ->
      let q := p + 1 + zlen (prints before) in
      type_at s q t /\
      xvariant_type_next s q = Some (match after with [] => None | _ => Some (q + zlen (print t)) end)) /\
  (forall s p k v, type_at s p (Entry k v) ->
    xvariant_type_key s p = Some (p + 1) /\ type_at s (p + 1) (Leaf k) /\
    xvariant_type_value s p = Some (Some (p + 2)) /\ type_at s (p + 2) v /\
    xvariant_type_first s p = Some (Some (p + 1)) /\ xvariant_type_next s (p + 1) = Some (Some (p + 2)) /\
    xvariant_type_next s (p + 2) = Some None /\ xvariant_type_n_items s p = Some 2).
Proof.
  split_and!.
  - intros s p t Ht. split_and!; [by apply makes_print, new_array_ok|by apply makes_print, new_maybe_ok|
      by apply type_copy_ok|by apply dup_string_ok|by apply type_length].
  - apply type_new_ok.
  - intros s p t [_ Hd]. by apply kinds_ok.
  - intros s p k s' p' v Hk Hkey Hv. by apply makes_print, new_dict_entry_ok.
  - intros its ts rest n. apply new_tuple_ok.
  - intros s p t [[Hs Hd]|[Hs Hd]]; pose proof (denotes_head _ _ _ Hd) as Hr; unfold xvariant_type_element; rewrite Hr;
      (split; [done|split]); [by apply shallow_array|by apply denotes_array|by apply shallow_maybe|by apply denotes_maybe].
  - intros s p ts [Hs Hd]. split_and!; [by apply n_items_tuple|by apply first_tuple|].
    intros before t after ->. apply denotes_tuple in Hd. cbn zeta.
    apply shallow_tuple, Forall_app in Hs as [_ [Ht _]%Forall_cons].
    assert (items s (p + 1 + zlen (prints before)) (t :: after)) as Hi.
    { revert Hd. generalize (p + 1). induction before as [|u before IH]; intros q Hd.
      - change (zlen (prints [])) with 0. by rewrite Z.add_0_r.
      - apply items_cons in Hd as [_ Hd]. rewrite prints_cons, zlen_app, Z.add_assoc. by apply IH. }
    pose proof Hi as [Hu _]%items_cons. split; [done|]. by apply next_in_tuple.
  - intros s p k v [Hs Hd]. pose proof (entry_ok s p k v Hs Hd) as Hok. apply shallow_entry in Hs.
    pose proof (shallow_leaf k). unfold type_at. tauto.
Qed.

(** [a{sv}], [a{?*}] and [(a{sv}i)]. *)
Definition vardict : vtype := Array (Entry 115 (Leaf 118)).
Definition any_dict : vtype := Array (Entry 63 (Leaf 42)).
Definition some_tuple : vtype := Tuple [vardict; Leaf 105].

Lemma print_type_at t : valid t = true -> shallow t -> type_at (print t) 0 t.
Proof. intros Hv Hl. split; [done|]. split; [done|apply holds_all]. Qed.

Lemma variant_type_parts_witness :
  makes (xvariant_type_new_array (print vardict) 0) (Array vardict) /\
  makes (xvariant_type_new_dict_entry [115] 0 (print vardict) 0) (Entry 115 vardict) /\
  (exists new, xvariant_type_new_tuple (fun _ => 7) ([Some (print vardict, 0); Some ([105], 0)] ++ [None]) (-1) = Some (Some new) /\
    denotes new 0 some_tuple) /\
  (xvariant_type_element (print vardict) 0 = Some 1 /\ type_at (print vardict) 1 (Entry 115 (Leaf 118))) /\
  xvariant_type_n_items (print some_tuple) 0 = Some 2.
Proof.
  destruct (variant_type_parts (fun _ => 7)) as (H1 & _ & _ & H2 & H3 & H4 & H5 & _).
  refine (conj _ (conj _ (conj _ (conj _ _)))).
  - by apply (H1 (print vardict) 0 vardict), print_type_at.
  - apply (H2 [115] 0 115 (print vardict) 0 vardict); [by apply (print_type_at (Leaf 115))|reflexivity|by apply print_type_at].
  - apply (H3 [Some (print vardict, 0); Some ([105], 0)] [vardict; Leaf 105] [None] (-1));
      [|reflexivity|right; split; [lia|by exists []]].
    repeat constructor; do 2 eexists; (split; [reflexivity|]);
      [by apply (print_type_at vardict)|by apply (print_type_at (Leaf 105))].
  - apply (H4 (print vardict) 0). left. by apply print_type_at.
  - apply (H5 (print some_tuple) 0 [vardict; Leaf 105]). by apply (print_type_at some_tuple).
Defined.

(** ** Equality and order *)

(** C21: on types, [is_subtype_of] ends, reads nothing outside them and decides
    the order in which [*] is above every type, [?] above the basic ones, [r]
    above the tuples, and containers are ordered as their parts. That order is
    reflexive and transitive, and only types that are not definite have proper
    subtypes; [is_definite] decides which they are. [equal] decides equality,
    and equal types have the same hash. *)
Theorem variant_type_order s p t s' p' u :
  type_at s p t -> type_at s' p' u ->
  (exists b, xvariant_type_is_subtype_of s p s' p' = Some b /\ (b = true <-> subtype t u)) /\
  (exists b, xvariant_type_equal false s p s' p' = Some b /\ (b = true <-> t = u)) /\
  (exists h h', xvariant_type_hash s p = Some h /\ xvariant_type_hash s' p' = Some h' /\ (t = u -> h = h')) /\
  xvariant_type_is_definite s p = Some (definite t) /\
  subtype t t /\ (forall v, subtype t u -> subtype u v -> subtype t v) /\
  (definite u = true -> subtype t u -> t = u).
Proof.
  intros [Hs Hd] [Hs' Hd']. split_and!.
  - by apply is_subtype_ok.
  - by apply equal_ok.
  - rewrite (hash_ok s p t Hs Hd), (hash_ok s' p' u Hs' Hd'). do 2 eexists. split_and!; [done|done|]. by intros ->.
  - by apply is_definite_ok.
  - apply subtype_refl.
  - intros v H1 H2. eapply subtype_trans; [apply Hd'|done|done].
  - apply subtype_definite.
Qed.

Lemma variant_type_order_witness :
  let s := print vardict in let s' := print any_dict in
  (exists b, xvariant_type_is_subtype_of s 0 s' 0 = Some b /\ (b = true <-> subtype vardict any_dict)) /\
  (exists b, xvariant_type_equal false s 0 s' 0 = Some b /\ (b = true <-> vardict = any_dict)) /\
  (exists h h', xvariant_type_hash s 0 = Some h /\ xvariant_type_hash s' 0 = Some h' /\ (vardict = any_dict -> h = h')) /\
  xvariant_type_is_definite s 0 = Some (definite vardict) /\
  subtype vardict vardict /\
  (forall v, subtype vardict any_dict -> subtype any_dict v -> subtype vardict v) /\
  (definite any_dict = true -> subtype vardict any_dict -> vardict = any_dict).
Proof.
  apply (variant_type_order (print vardict) 0 vardict (print any_dict) 0 any_dict).
  - by apply (print_type_at vardict).
  - by apply (print_type_at any_dict).
Defined.
