(* ===== verification/VariantInfo.v ===== *)
(** * What a type means for the layout of data: src/glib/gvarianttypeinfo.c

    The infos of containers are shared through a table and counted; here an info
    is its contents, so a reference is the info itself. *)

From S2P Require Import Prelude.
From S2P Require Import VariantType.
From Stdlib Require Import Ascii.
Local Open Scope Z_scope.
Local Open Scope xpl_scope.

Local Notation "'chr' a" :=
  ltac:(let v := eval vm_compute in (Z.of_N (N_of_ascii a%char)) in exact v)
  (at level 10, a constr, only parsing).

(** The complement of an [xsize_t]. *)
Definition lnot64 (x : Z) : Z := u64 (Z.lnot x).

(** [GVariantMemberInfo] without its type info. *)
Record GVariantMemberInfo := MemberInfo { m_i : Z; m_a : Z; m_b : Z; m_c : Z; ending_type : Z }.
Definition G_VARIANT_MEMBER_ENDING_FIXED : Z := 0.
Definition G_VARIANT_MEMBER_ENDING_LAST : Z := 1.
Definition G_VARIANT_MEMBER_ENDING_OFFSET : Z := 2.

(** A pointer into the table of basic types, an [ArrayInfo] for arrays and
    maybes, a [TupleInfo] for tuples and dictionary entries. *)
#[warnings="-register-all"]
Inductive GVariantTypeInfo :=
| BasicInfo (index : Z)
| ArrayInfo (alignment : Z) (type_string : list Z) (element : GVariantTypeInfo)
| TupleInfo (alignment fixed_size : Z) (type_string : list Z) (members : list (GVariantTypeInfo * GVariantMemberInfo)).

(** ** The table of basic types *)

Definition fixed_aligned (x : Z) : Z * Z := (x, x - 1).
Definition not_a_type : Z * Z := (0, 0).
Definition unaligned : Z * Z := (0, 0).
Definition aligned (x : Z) : Z * Z := (0, x - 1).
(** Fixed size and alignment, from ['b'] on. *)
Definition xvariant_type_info_basic_table : list (Z * Z) :=
  [fixed_aligned 1; not_a_type; fixed_aligned 8; not_a_type; not_a_type; unaligned; fixed_aligned 4; fixed_aligned 4;
   not_a_type; not_a_type; not_a_type; not_a_type; fixed_aligned 2; unaligned; not_a_type; fixed_aligned 2; not_a_type;
   unaligned; fixed_aligned 8; fixed_aligned 4; aligned 8; not_a_type; fixed_aligned 8; fixed_aligned 1].
Definition xvariant_type_info_basic_chars : list Z := Eval vm_compute in ascii_bytes "b d  ghi    no q stuv xy".

Definition basic_info (index : Z) : Z * Z := default (0, 0) (rd xvariant_type_info_basic_table index).
Definition fixed_size_of (info : GVariantTypeInfo) : Z :=
  match info with BasicInfo index => fst (basic_info index) | ArrayInfo _ _ _ => 0 | TupleInfo _ size _ _ => size end.
Definition alignment_of (info : GVariantTypeInfo) : Z :=
  match info with BasicInfo index => snd (basic_info index) | ArrayInfo d _ _ | TupleInfo d _ _ _ => d end.

(** The assertions; [container_class] is ['a'], ['r'] or 0. *)
Definition container_class_of (info : GVariantTypeInfo) : Z :=
  match info with BasicInfo _ => 0 | ArrayInfo _ _ _ => chr "a" | TupleInfo _ _ _ _ => chr "r" end.
Definition xvariant_type_info_check (info : GVariantTypeInfo) (container_class : Z) : bool :=
  ((container_class =? 0) || (container_class_of info =? container_class)) &&
  existsb (Z.eqb (alignment_of info)) [0; 1; 3; 7] &&
  match info with
  | BasicInfo index =>
      (0 <=? index) && (index <? 24) && negb (tbl xvariant_type_info_basic_chars index =? chr " ")
  | _ => true
  end.

Definition xvariant_type_info_get_type_string (info : GVariantTypeInfo) : option (list Z) :=
  assert_then (xvariant_type_info_check info 0)
    (Some match info with
          | BasicInfo index => [tbl xvariant_type_info_basic_chars index; 0]
          | ArrayInfo _ type_string _ | TupleInfo _ _ type_string _ => type_string
          end).
Definition xvariant_type_info_get_type_char (info : GVariantTypeInfo) : option Z :=
  type_string ← xvariant_type_info_get_type_string info; rd type_string 0.

(** Alignment and fixed size. *)
Definition xvariant_type_info_query (info : GVariantTypeInfo) : option (Z * Z) :=
  assert_then (xvariant_type_info_check info 0) (Some (alignment_of info, fixed_size_of info)).

Definition xvariant_type_info_query_depth (info : GVariantTypeInfo) : option Z :=
  assert_then (xvariant_type_info_check info 0)
    match info with
    | BasicInfo _ => Some 1
    | ArrayInfo _ type_string _ | TupleInfo _ _ type_string _ => xvariant_type_string_get_depth_ type_string 0
    end.

(** ** Arrays *)

Definition GV_ARRAY_INFO_CLASS : Z := chr "a".

Definition array_info_new (type_string : list Z) (element : GVariantTypeInfo) : GVariantTypeInfo :=
  ArrayInfo (alignment_of element) type_string element.

Definition xvariant_type_info_element (info : GVariantTypeInfo) : option GVariantTypeInfo :=
  assert_then (xvariant_type_info_check info GV_ARRAY_INFO_CLASS)
    match info with ArrayInfo _ _ element => Some element | _ => None end.
Definition xvariant_type_info_query_element (info : GVariantTypeInfo) : option (Z * Z) :=
  element ← xvariant_type_info_element info; xvariant_type_info_query element.

(** ** Tuples *)

Definition GV_TUPLE_INFO_CLASS : Z := chr "r".

(** [while (item_type)], with what gets the info of a type. *)
Fixpoint allocate_members (get : Z -> option GVariantTypeInfo) (fuel : nat) (s : list Z) (item_type : option Z) :
    option (list (GVariantTypeInfo * Z)) :=
  match item_type with
  | None => Some []
  | Some p =>
      match fuel with
      | O => None
      | S fuel =>
          type_info ← get p;
          item_type ← xvariant_type_next s p;
          let ending :=
            if negb (fixed_size_of type_info =? 0) then G_VARIANT_MEMBER_ENDING_FIXED
            else match item_type with
                 | None => G_VARIANT_MEMBER_ENDING_LAST
                 | Some _ => G_VARIANT_MEMBER_ENDING_OFFSET
                 end in
          members ← allocate_members get fuel s item_type;
          Some ((type_info, ending) :: members)
      end
  end.
Definition tuple_allocate_members (get : Z -> option GVariantTypeInfo) (s : list Z) (type : Z) :
    option (list (GVariantTypeInfo * Z)) :=
  n_members ← xvariant_type_n_items s type;
  item_type ← xvariant_type_first s type;
  members ← allocate_members get (length s) s item_type;
  assert_then (zlen members =? n_members) (Some members).

(** Conversion to a [gint8], and back to an [xsize_t]. *)
Definition gint8 (x : Z) : Z := i8 (u8 x).

Definition tuple_table_append (i a b c ending : Z) : GVariantMemberInfo :=
  let a := u64 (a + (lnot64 b & c)) in
  let c := c & b in
  MemberInfo i (u64 (a + b)) (gint8 (lnot64 b)) (gint8 c) ending.

Definition tuple_align (offset alignment : Z) : Z := u64 (offset + (u64 (- offset) & alignment)).

(** [while (tuple_get_item (info, items, &d, &e))] *)
Fixpoint generate_table (items : list (GVariantTypeInfo * Z)) (i a b c : Z) :
    list (GVariantTypeInfo * GVariantMemberInfo) :=
  match items with
  | [] => []
  | (type_info, ending) :: items =>
      let d := alignment_of type_info in
      let e := fixed_size_of type_info in
      let '(a, b, c) := if d <=? b then (a, b, tuple_align c d) else (u64 (a + tuple_align c b), d, 0) in
      (type_info, tuple_table_append i a b c ending) ::
      (if e =? 0 then generate_table items (u64 (i + 1)) 0 0 0 else generate_table items i a b (u64 (c + e)))
  end.
Definition tuple_generate_table (items : list (GVariantTypeInfo * Z)) : list (GVariantTypeInfo * GVariantMemberInfo) :=
  generate_table items (u64 (-1)) 0 0 0.

(** [((prev_end + a) & b) | c]; the constants are converted to [xsize_t]. *)
Definition member_start (prev_end : Z) (m : GVariantMemberInfo) : Z :=
  (u64 (prev_end + m_a m) & u64 (m_b m)) or u64 (m_c m).

(** Alignment and fixed size. *)
Definition tuple_set_base_info (members : list (GVariantTypeInfo * GVariantMemberInfo)) : Z * Z :=
  match last members with
  | None => (0, 1)
  | Some (type_info, m) =>
      let alignment := foldl (fun d m => d or alignment_of (fst m)) 0 members in
      (alignment,
       if (m_i m =? u64 (-1)) && negb (fixed_size_of type_info =? 0) then
         tuple_align (u64 (member_start 0 m + fixed_size_of type_info)) alignment
       else 0)
  end.

Definition tuple_info_new (type_string : list Z) (items : list (GVariantTypeInfo * Z)) : GVariantTypeInfo :=
  let members := tuple_generate_table items in
  let '(alignment, fixed_size) := tuple_set_base_info members in
  TupleInfo alignment fixed_size type_string members.

Definition tuple_members (info : GVariantTypeInfo) : option (list (GVariantTypeInfo * GVariantMemberInfo)) :=
  assert_then (xvariant_type_info_check info GV_TUPLE_INFO_CLASS)
    match info with TupleInfo _ _ _ members => Some members | _ => None end.
Definition xvariant_type_info_n_members (info : GVariantTypeInfo) : option Z :=
  members ← tuple_members info; Some (zlen members).
(** [Some None] is [NULL]. *)
Definition xvariant_type_info_member_info (info : GVariantTypeInfo) (index : Z) :
    option (option (GVariantTypeInfo * GVariantMemberInfo)) :=
  members ← tuple_members info; Some (rd members index).

(** ** The info of a type *)

Fixpoint type_info_get (fuel : nat) (s : list Z) (type : Z) : option GVariantTypeInfo :=
  match fuel with
  | O => None
  | S fuel =>
      type_char ← rd s (xvariant_type_peek_string type);
      if existsb (Z.eqb type_char) [chr "m"; chr "a"; chr "("; chr "{"] then
        type_string ← xvariant_type_dup_string s type;
        info ← (if (type_char =? chr "m") || (type_char =? chr "a") then
                  p ← xvariant_type_element s type;
                  element ← type_info_get fuel s p;
                  Some (array_info_new type_string element)
                else
                  items ← tuple_allocate_members (type_info_get fuel s) s type;
                  Some (tuple_info_new type_string items));
        assert_then (xvariant_type_info_check info 0) (Some info)
      else
        let index := type_char - chr "b" in
        assert_then ((0 <=? index) && (index <? 24) && xvariant_type_info_check (BasicInfo index) 0) (Some (BasicInfo index))
  end.
(** Each level takes a character of the type string. *)
Definition xvariant_type_info_get (s : list Z) (type : Z) : option GVariantTypeInfo :=
  type_info_get (S (length s)) s type.
