(* ===== verification/VariantInfos.v ===== *)
(** * The layout of data: what the constants of a tuple mean

    The plain description, one item after the other, and the constants of
    gvarianttypeinfo.c that find an item in one go. Then the info of every type. *)

From S2P Require Import Prelude VariantType VariantSpec VariantWalk VariantInfo.
Local Open Scope Z_scope.
Local Open Scope xpl_scope.

(** ** Alignment *)

(** One less than an alignment. *)
Definition is_mask (d : Z) : Prop := d = 0 \/ d = 1 \/ d = 3 \/ d = 7.
(** The next multiple of [d + 1]. *)
Definition up (d x : Z) : Z := x + (- x) mod (d + 1).

Lemma land_mask x d : is_mask d -> x & d = x mod (d + 1).
Proof.
  intros [->|[->|[->| ->]]]; [rewrite Z.land_0_r; symmetry; apply Z.mod_1_r|..].
  - exact (land_low x 1 ltac:(lia)).
  - exact (land_low x 2 ltac:(lia)).
  - exact (land_low x 3 ltac:(lia)).
Qed.

Ltac masks := repeat match goal with H : is_mask _ |- _ => destruct H as [->|[->|[->| ->]]] end.

Lemma mask_range d : is_mask d -> 0 <= d <= 7.
Proof. intros Hd. masks; lia. Qed.
Lemma up_bounds d x : is_mask d -> x <= up d x <= x + d.
Proof. intros Hd. unfold up. masks; zify_div. Qed.
Lemma up_aligned d x : is_mask d -> up d x mod (d + 1) = 0.
Proof. intros Hd. unfold up. masks; zify_div. Qed.
Lemma up_least d x y : is_mask d -> x <= y -> y mod (d + 1) = 0 -> up d x <= y.
Proof. intros Hd. unfold up. masks; cbn [Z.add]; intros; zify_div. Qed.
Lemma up_id d x : is_mask d -> x mod (d + 1) = 0 -> up d x = x.
Proof. intros Hd. unfold up. masks; cbn [Z.add Pos.add]; intros; zify_div. Qed.
Lemma up_mono d x y : is_mask d -> x <= y -> up d x <= up d y.
Proof. intros Hd Hxy. unfold up. masks; zify_div. Qed.
(** Alignments divide each other. *)
Lemma pad_step d n : is_mask d -> n mod (d + 1) <> 0 -> up d n = up d (n + 1).
Proof. intros Hd. unfold up. masks; cbn [Z.add Pos.add]; intros; zify_div. Qed.
Lemma mask_divides d e x : is_mask d -> is_mask e -> d <= e -> x mod (e + 1) = 0 -> x mod (d + 1) = 0.
Proof. intros Hd He. masks; cbn [Z.add Pos.add]; intros; try lia; zify_div. Qed.
Lemma up_below d b x c : is_mask d -> is_mask b -> d <= b -> up d (up b x + c) = up b x + up d c.
Proof.
  intros Hd Hb Hdb. pose proof (mask_divides d b (up b x) Hd Hb Hdb (up_aligned b x Hb)) as E. revert E.
  generalize (up b x) as y. intros y. unfold up. masks; cbn [Z.add Pos.add]; intros; zify_div.
Qed.
Lemma up_above d b x c : is_mask d -> is_mask b -> b < d -> up d (up b x + c) = up d (x + up b c).
Proof.
  intros Hd Hb Hbd. unfold up. masks; try lia; cbn [Z.add Pos.add]; zify_div.
Qed.

Lemma align_offset d x : is_mask d -> 0 <= x < 2 ^ 63 -> u64 (x + (u64 (- x) & d)) = up d x.
Proof.
  intros Hd Hx. rewrite land_mask by done. unfold wrap, up.
  assert (((- x) mod 2 ^ 64) mod (d + 1) = (- x) mod (d + 1)) as ->.
  { masks; cbn [Z.add Pos.add]; zify_div. }
  apply Z.mod_small. masks; cbn [Z.add Pos.add]; zify_div.
Qed.
Lemma tuple_align_ok d x : is_mask d -> 0 <= x < 2 ^ 63 -> tuple_align x d = up d x.
Proof. intros Hd Hx. unfold tuple_align. by apply align_offset. Qed.

(** ** The start of a member *)

Lemma round_down b y : is_mask b -> 0 <= y < 2 ^ 64 -> y & u64 (gint8 (lnot64 b)) = y / (b + 1) * (b + 1).
Proof.
  intros Hb Hy.
  assert (u64 (gint8 (lnot64 b)) = Z.land (Z.lnot b) (Z.ones 64)) as -> by (masks; done).
  rewrite Z.land_comm, <- Z.land_assoc, (Z.land_comm _ y), (Z.land_ones y), (Z.mod_small y), Z.land_comm, <- Z.ldiff_land by lia.
  assert (exists k, 0 <= k /\ b = Z.ones k /\ b + 1 = 2 ^ k) as (k & Hk & -> & ->).
  { masks; [exists 0|exists 1|exists 2|exists 3]; repeat split; lia. }
  rewrite Z.ldiff_ones_r, Z.shiftl_mul_pow2, Z.shiftr_div_pow2 by lia. done.
Qed.

Lemma or_low b y c : is_mask b -> 0 <= c <= b -> y * (b + 1) or c = y * (b + 1) + c.
Proof.
  intros Hb Hc. assert (exists k, 0 <= k /\ b + 1 = 2 ^ k) as (k & Hk & E).
  { masks; [exists 0|exists 1|exists 2|exists 3]; repeat split; lia. }
  rewrite E. apply lor_mul_add; lia.
Qed.

Lemma low_part b c : is_mask b -> 0 <= c -> u64 (gint8 (c & b)) = c mod (b + 1) /\ 0 <= c mod (b + 1) <= b.
Proof.
  intros Hb Hc. rewrite land_mask by done.
  assert (0 <= c mod (b + 1) <= b) as Hr by (masks; cbn [Z.add Pos.add]; zify_div). split; [|done].
  pose proof (mask_range b Hb). revert Hr. generalize (c mod (b + 1)). intros r Hr.
  pose proof (range_check (fun r => u64 (gint8 r) =? r) 0 8 r eq_refl ltac:(lia)) as Hc'. by apply Z.eqb_eq in Hc'.
Qed.

(** Whatever the end of the item before, the start is aligned. *)
Lemma table_append_aligned i a b c ending d x :
  is_mask b -> is_mask d -> d <= b -> 0 <= c -> c mod (d + 1) = 0 ->
  member_start x (tuple_table_append i a b c ending) mod (d + 1) = 0 /\
  0 <= member_start x (tuple_table_append i a b c ending) < 2 ^ 64.
Proof.
  intros Hb Hd Hdb Hc Hcd. unfold member_start, tuple_table_append. cbn [m_a m_b m_c].
  destruct (low_part b c Hb Hc) as [-> Hr].
  set (y := u64 (x + _)). assert (0 <= y < 2 ^ 64) as Hy by (apply wrap_range; lia). clearbody y.
  rewrite round_down, or_low by done. revert Hdb Hcd Hr. masks; cbn [Z.add Pos.add]; intros; try lia; zify_div.
Qed.

(** The stored constants stand for: add [a], align to [b], add [c]. *)
Lemma table_append_start i a b c ending x :
  is_mask b -> 0 <= a < 2 ^ 61 -> 0 <= c < 2 ^ 61 -> 0 <= x < 2 ^ 61 ->
  member_start x (tuple_table_append i a b c ending) = up b (x + a) + c.
Proof.
  intros Hb Ha Hc Hx. unfold member_start, tuple_table_append. cbn [m_a m_b m_c].
  assert (lnot64 b & c = c / (b + 1) * (b + 1)) as E.
  { rewrite <- (round_down b c Hb) by lia. rewrite (Z.land_comm c). f_equal. masks; done. }
  rewrite E. destruct (low_part b c Hb ltac:(lia)) as [-> _].
  assert (0 <= c / (b + 1) * (b + 1) <= c) as Hq by (masks; cbn [Z.add Pos.add]; zify_div).
  rewrite (wrap_small 64 (a + _)), (wrap_small 64 (_ + b)), (wrap_small 64 (x + _)) by (masks; lia).
  rewrite round_down by (done || masks; lia). rewrite or_low by (done || masks; cbn [Z.add Pos.add]; zify_div).
  unfold up. masks; cbn [Z.add Pos.add]; zify_div.
Qed.

(** ** The items of a tuple, one after the other *)

(** Alignment and fixed size. *)
Abbreviation shape := (Z * Z)%type.
Definition shape_of (info : GVariantTypeInfo) : shape := (alignment_of info, fixed_size_of info).
Definition shape_ok (s : shape) : Prop := is_mask (fst s) /\ 0 <= snd s.
Definition step (offset : Z) (s : shape) : Z := up (fst s) offset + snd s.
Definition ends (offset : Z) (l : list shape) : Z := foldl step offset l.
(** More than the items can take. *)
Definition weight (l : list shape) : Z := foldr (fun s n => snd s + 7 + n) 0 l.

Lemma ends_snoc x l s : ends x (l ++ [s]) = step (ends x l) s.
Proof. unfold ends. by rewrite foldl_snoc. Qed.
Lemma weight_nonneg l : Forall shape_ok l -> 0 <= weight l.
Proof. induction 1 as [|[d e] l [_ He] _ IH]; cbn [weight foldr snd] in *; [done|]. unfold weight in IH. lia. Qed.
Lemma ends_bounds x l : Forall shape_ok l -> x <= ends x l <= x + weight l.
Proof.
  intros Hl. revert x. induction Hl as [|[d e] l [Hd He] Hl IH]; intros x; [cbn; lia|].
  specialize (IH (step x (d, e))). cbn [ends foldl weight foldr fst snd] in *. unfold ends, weight in IH |- *.
  unfold step in IH |- *. cbn [fst snd] in *. pose proof (up_bounds d x Hd). assert (d <= 7) by (masks; lia). lia.
Qed.

(** What the table says of each item: how many offsets lie before it, less one,
    and where it starts after the item of variable size before it. *)
Fixpoint table_ok (vars : Z) (before : list shape) (items : list (GVariantTypeInfo * Z))
    (members : list (GVariantTypeInfo * GVariantMemberInfo)) : Prop :=
  match items, members with
  | [], [] => True
  | (info, ending) :: items, (info', m) :: members =>
      info' = info /\ ending_type m = ending /\ m_i m = u64 (vars - 1) /\
      (forall x, 0 <= x < 2 ^ 61 -> member_start x m = up (alignment_of info) (ends x before)) /\
      (forall x, member_start x m mod (alignment_of info + 1) = 0 /\ 0 <= member_start x m < 2 ^ 64) /\
      (if fixed_size_of info =? 0 then table_ok (vars + 1) [] items members
       else table_ok vars (before ++ [shape_of info]) items members)
  | _, _ => False
  end.

Lemma generate_table_ok items vars before a b c :
  Forall (fun x => shape_ok (shape_of (fst x))) items ->
  is_mask b -> 0 <= a -> 0 <= c -> a + c + weight (map (fun x => shape_of (fst x)) items) < 2 ^ 61 ->
  (forall x, ends x before = up b (x + a) + c) -> 0 <= vars < 2 ^ 63 ->
  Z.of_nat (length items) + vars < 2 ^ 63 ->
  table_ok vars before items (generate_table items (u64 (vars - 1)) a b c).
Proof.
  intros Hit. revert vars before a b c. induction Hit as [|[info ending] items [Hd He] Hit IH]; intros vars before a b c Hb Ha Hc Hw Hx Hv Hn; [done|].
  cbn [generate_table]. set (d := alignment_of info) in *. set (e := fixed_size_of info) in *.
  change (is_mask d) in Hd. change (0 <= e) in He.
  cbn [map fst weight foldr snd shape_of] in Hw. fold (weight (map (fun x => shape_of (fst x)) items)) in Hw.
  change (fixed_size_of info) with e in Hw. cbn [length] in Hn.
  assert (0 <= weight (map (fun x => shape_of (fst x)) items)) as Hw0 by (apply weight_nonneg, Forall_map; done).
  set (abc := if d <=? b then _ else _).
  assert (exists a' b' c', abc = (a', b', c') /\ is_mask b' /\ 0 <= a' /\ 0 <= c' /\ a' + c' <= a + c + 7 /\ d <= b' /\ c' mod (d + 1) = 0 /\
    forall x, up d (ends x before) = up b' (x + a') + c') as (a' & b' & c' & -> & Hb' & Ha' & Hc' & Hac & Hdb & Hcd & Hx').
  { unfold abc. destruct (Z.leb_spec d b) as [Hdb|Hdb].
    - rewrite tuple_align_ok by (done || lia). pose proof (up_bounds d c Hd) as Hup. pose proof (mask_range d Hd) as Hdr.
      exists a, b, (up d c). split; [done|]. split; [done|]. split; [done|]. split; [lia|]. split; [lia|]. split; [done|].
      split; [by apply up_aligned|]. intros x. by rewrite Hx, up_below.
    - rewrite tuple_align_ok by (done || lia). pose proof (up_bounds b c Hb) as Hup. pose proof (mask_range b Hb) as Hbr.
      rewrite wrap_small by lia. exists (a + up b c), d, 0. split; [done|]. split; [done|]. split; [lia|]. split; [lia|]. split; [lia|]. split; [lia|].
      split; [apply Z.mod_0_l; lia|]. intros x. rewrite Hx, up_above by done. rewrite Z.add_0_r. f_equal. lia. }
  cbn [table_ok]. split; [done|]. split; [done|]. split; [done|]. split.
  { intros x Hx0. rewrite table_append_start by (done || lia). by rewrite <- Hx'. }
  split; [intros x; by apply table_append_aligned|].
  change (fixed_size_of info) with e. destruct (Z.eqb_spec e 0) as [E|E].
  - assert (u64 (u64 (vars - 1) + 1) = u64 (vars + 1 - 1)) as ->.
    { unfold wrap. rewrite Z.add_mod_idemp_l by lia. f_equal. lia. }
    apply IH; try done; try lia; [by left|]. intros x. unfold up. cbn. rewrite Z.mod_1_r. lia.
  - rewrite (wrap_small 64 (c' + e)) by lia. apply IH; try done; try lia.
    intros x. rewrite ends_snoc. unfold step, shape_of. cbn [fst snd]. fold d e. rewrite Hx'. lia.
Qed.

(** ** The table of a whole tuple *)

(** How many of the items are of variable size, and those after the last of them. *)
Definition vars (l : list shape) : Z := zlen (filter (fun s : shape => snd s = 0) l).
Definition add_run (run : list shape) (s : shape) : list shape := if snd s =? 0 then [] else run ++ [s].
Definition run (l : list shape) : list shape := foldl add_run [] l.

Lemma vars_snoc l s : vars (l ++ [s]) = vars l + (if snd s =? 0 then 1 else 0).
Proof.
  unfold vars. rewrite filter_app, zlen_app. f_equal. destruct (Z.eqb_spec (snd s) 0).
  - by rewrite filter_cons_True.
  - by rewrite filter_cons_False.
Qed.
Lemma run_snoc l s : run (l ++ [s]) = add_run (run l) s.
Proof. unfold run. by rewrite foldl_snoc. Qed.
Lemma vars_nonneg l : 0 <= vars l.
Proof. apply zlen_nonneg. Qed.
Lemma vars_app l k : vars (l ++ k) = vars l + vars k.
Proof. unfold vars. by rewrite filter_app, zlen_app. Qed.
Lemma vars_le l : vars l <= zlen l.
Proof. unfold vars, zlen. pose proof (length_filter (fun s : shape => snd s = 0) l). lia. Qed.

Lemma weight_app l k : weight (l ++ k) = weight l + weight k.
Proof. induction l as [|s l IH]; cbn [app weight foldr]; [done|]. unfold weight in IH |- *. rewrite IH. lia. Qed.
Lemma run_suffix l : exists l0, l = l0 ++ run l.
Proof.
  induction l as [|s l [l0 IH]] using rev_ind; [by exists []|]. rewrite run_snoc. unfold add_run.
  destruct (snd s =? 0); [exists (l ++ [s]); by rewrite app_nil_r|]. exists l0. by rewrite app_assoc, <- IH.
Qed.

(** What the constants of the item behind [before] have to say. *)
Definition member_ok (before : list shape) (s : shape) (m : GVariantMemberInfo) : Prop :=
  m_i m = u64 (vars before - 1) /\
  (forall x, 0 <= x < 2 ^ 61 -> member_start x m = up (fst s) (ends x (run before))) /\
  forall x, member_start x m mod (fst s + 1) = 0 /\ 0 <= member_start x m < 2 ^ 64.

Lemma table_ok_lookup before items members k info m :
  table_ok (vars before) (run before) items members -> members !! k = Some (info, m) ->
  items !! k = Some (info, ending_type m) /\
  member_ok (before ++ map (fun x => shape_of (fst x)) (take k items)) (shape_of info) m.
Proof.
  revert before members k. induction items as [|[info0 ending] items IH]; intros before [|[info' m'] members] k Ht Hk; try done.
  destruct Ht as (-> & He & Hi & Hs & Hal & Ht). destruct k as [|k].
  - injection Hk as -> ->. cbn [take map]. rewrite app_nil_r. split; [cbn; by rewrite He|]. by split.
  - cbn [take map]. change (shape_of (fst (info0, ending)) :: map (fun x => shape_of (fst x)) (take k items))
      with ([shape_of info0] ++ map (fun x => shape_of (fst x)) (take k items)).
    rewrite app_assoc. apply (IH (before ++ [shape_of info0]) members k); [|done].
    rewrite vars_snoc, run_snoc. unfold add_run, shape_of. cbn [snd]. destruct (fixed_size_of info0 =? 0); [done|].
    by rewrite Z.add_0_r.
Qed.
Lemma table_ok_length n before items members : table_ok n before items members -> length members = length items.
Proof.
  revert n before members. induction items as [|[info ending] items IH]; intros n before [|[info' m] members] Ht; try done.
  destruct Ht as (_ & _ & _ & _ & _ & Ht). cbn [length]. f_equal. destruct (fixed_size_of info =? 0); eauto.
Qed.
Lemma table_ok_infos n before items members : table_ok n before items members -> map fst members = map fst items.
Proof.
  revert n before members. induction items as [|[info ending] items IH]; intros n before [|[info' m] members] Ht; try done.
  destruct Ht as (-> & _ & _ & _ & _ & Ht). cbn [map fst]. f_equal. destruct (fixed_size_of info =? 0); eauto.
Qed.

(** The infos of the items and how the items end. *)
Fixpoint with_endings (infos : list GVariantTypeInfo) : list (GVariantTypeInfo * Z) :=
  match infos with
  | [] => []
  | info :: infos =>
      (info,
       if negb (fixed_size_of info =? 0) then G_VARIANT_MEMBER_ENDING_FIXED
       else match infos with [] => G_VARIANT_MEMBER_ENDING_LAST | _ => G_VARIANT_MEMBER_ENDING_OFFSET end)
      :: with_endings infos
  end.
Lemma with_endings_infos infos : map fst (with_endings infos) = infos.
Proof. induction infos as [|info infos IH]; [done|]. cbn [with_endings map fst]. by rewrite IH. Qed.

(** The alignment and the fixed size of a tuple. *)
Definition masks_of (l : list shape) : Z := foldr (fun s d => Z.max (fst s) d) 0 l.
Definition tuple_shape (l : list shape) : shape :=
  (masks_of l,
   if forallb (fun s => negb (snd s =? 0)) l then match l with [] => 1 | _ => up (masks_of l) (ends 0 l) end else 0).

Lemma max_mask d e : is_mask d -> is_mask e -> is_mask (Z.max d e) /\ d or e = Z.max d e.
Proof. intros Hd He. unfold is_mask. masks; cbn; (split; [lia|done]). Qed.
Lemma masks_of_ok l : Forall shape_ok l -> is_mask (masks_of l).
Proof.
  induction 1 as [|s l [Hs _] _ IH]; [by left|]. cbn [masks_of foldr]. by apply max_mask.
Qed.
Lemma masks_of_above l s : s ∈ l -> fst s <= masks_of l.
Proof. induction 1 as [s l|s s' l _ IH]; cbn [masks_of foldr]; unfold masks_of in *; lia. Qed.

Lemma or_alignments (members : list (GVariantTypeInfo * GVariantMemberInfo)) d :
  is_mask d -> Forall (fun x => shape_ok (shape_of (fst x))) members ->
  foldl (fun d m => d or alignment_of (fst m)) d members = Z.max d (masks_of (map (fun x => shape_of (fst x)) members)).
Proof.
  intros Hd Hm. revert d Hd. induction Hm as [|m members [Hm _] Hms IH]; intros d Hd; cbn [foldl map masks_of foldr].
  - masks; done.
  - cbn [shape_of fst] in Hm |- *. destruct (max_mask d _ Hd Hm) as [Hd' ->]. rewrite (IH _ Hd').
    unfold masks_of. lia.
Qed.

Lemma all_fixed l : forallb (fun s : shape => negb (snd s =? 0)) l = true -> vars l = 0 /\ run l = l.
Proof.
  induction l as [|s l IH] using rev_ind; [done|]. rewrite forallb_app. cbn [forallb]. rewrite andb_true_r.
  intros [Hl Hs]%andb_prop. rewrite vars_snoc, run_snoc. unfold add_run. destruct (IH Hl) as [-> ->].
  destruct (snd s =? 0); done.
Qed.
Lemma not_all_fixed l : forallb (fun s : shape => negb (snd s =? 0)) l = false -> 0 < vars l.
Proof.
  induction l as [|s l IH] using rev_ind; [done|]. rewrite forallb_app. cbn [forallb]. rewrite andb_true_r, vars_snoc.
  pose proof (vars_nonneg l). intros [Hl|Hs]%andb_false_iff; [specialize (IH Hl); destruct (snd s =? 0); lia|].
  destruct (snd s =? 0); [lia|done].
Qed.

Section tuple_info.
Context (infos : list GVariantTypeInfo).
Let shapes : list shape := map shape_of infos.
Let members := tuple_generate_table (with_endings infos).
Context (Hok : Forall shape_ok shapes) (Hw : weight shapes < 2 ^ 60) (Hn : zlen infos < 2 ^ 60).

Lemma shapes_of_items : map (fun x => shape_of (fst x)) (with_endings infos) = shapes.
Proof. rewrite <- (map_map fst shape_of), with_endings_infos. done. Qed.
Lemma take_shapes k : map (fun x => shape_of (fst x)) (take k (with_endings infos)) = take k shapes.
Proof. rewrite <- shapes_of_items. apply (fmap_take (fun x : GVariantTypeInfo * Z => shape_of (fst x))). Qed.

Lemma members_ok : table_ok 0 [] (with_endings infos) members.
Proof.
  assert (length (with_endings infos) = length infos) as El by (rewrite <- (length_map fst), with_endings_infos; done).
  unfold zlen in *. apply generate_table_ok; try lia.
  - apply Forall_map with (f := fun x => shape_of (fst x)). by rewrite shapes_of_items.
  - by left.
  - rewrite shapes_of_items. lia.
  - intros x. unfold up. cbn. rewrite Z.mod_1_r. lia.
Qed.
Lemma members_infos : map fst members = infos.
Proof. rewrite (table_ok_infos _ _ _ _ members_ok). apply with_endings_infos. Qed.

Lemma member_lookup k info m :
  members !! k = Some (info, m) ->
  with_endings infos !! k = Some (info, ending_type m) /\ member_ok (take k shapes) (shape_of info) m.
Proof.
  intros Hk. pose proof (table_ok_lookup [] _ _ k info m members_ok Hk) as [H1 H2]. cbn [app] in H2.
  by rewrite take_shapes in H2.
Qed.

Lemma set_base_info_ok : tuple_set_base_info members = tuple_shape shapes.
Proof.
  unfold tuple_set_base_info. destruct (last members) as [[info m]|] eqn:El.
  2:{ apply last_None in El. pose proof members_infos as E. rewrite El in E. unfold shapes. by rewrite <- E. }
  assert (map (fun x => shape_of (fst x)) members = shapes) as Es.
  { rewrite <- (map_map fst shape_of), members_infos. done. }
  rewrite last_lookup in El. assert (exists k, length members = S k) as [k Ek].
  { apply lookup_lt_Some in El. exists (pred (length members)). lia. }
  rewrite Ek in El. cbn [pred] in El. destruct (member_lookup k info m El) as [_ (Hi & Hs & _)].
  assert (length shapes = S k) as Els by (rewrite <- Es, length_map; exact Ek).
  assert (shapes = take k shapes ++ [shape_of info]) as Esh.
  { rewrite <- (take_S_r shapes k (shape_of info)); [by rewrite firstn_all2 by lia|]. rewrite <- Es.
    apply (list_lookup_fmap_Some_2 (fun x => shape_of (fst x)) members k (info, m) El). }
  assert (length (take k shapes) = k) as Elk.
  { rewrite length_take, Els. lia. }
  assert (0 <= vars (take k shapes) < 2 ^ 60) as Hv.
  { split; [apply vars_nonneg|]. pose proof (vars_le (take k shapes)) as Hv. unfold zlen in Hv, Hn.
    rewrite Elk in Hv. rewrite <- members_infos, length_map, Ek in Hn. lia. }
  rewrite or_alignments; [|by left|apply Forall_map with (f := fun x => shape_of (fst x)); by rewrite Es].
  rewrite Es, Z.max_r by (pose proof (mask_range _ (masks_of_ok _ Hok)); lia).
  unfold tuple_shape. f_equal.
  set (d := masks_of shapes). set (e := ends 0 shapes). rewrite Esh.
  rewrite forallb_app. cbn [forallb]. rewrite andb_true_r. unfold d, e. clear d e.
  change (snd (shape_of info)) with (fixed_size_of info).
  destruct (forallb _ (take k shapes)) eqn:Ef; cbn [andb].
  - apply all_fixed in Ef as [Ev Er]. rewrite Hi, Ev, Z.eqb_refl. cbn [andb].
    destruct (fixed_size_of info =? 0); [done|]. cbn [negb].
    rewrite Hs, Er by lia.
    assert (up (fst (shape_of info)) (ends 0 (take k shapes)) + fixed_size_of info = ends 0 shapes) as ->.
    { rewrite Esh at 2. by rewrite ends_snoc. }
    pose proof (ends_bounds 0 shapes Hok). rewrite wrap_small by lia.
    rewrite tuple_align_ok by (lia || by apply masks_of_ok). by destruct (take k shapes).
  - apply not_all_fixed in Ef. rewrite Hi. destruct (Z.eqb_spec (u64 (vars (take k shapes) - 1)) (u64 (-1))) as [E|]; [|done].
    rewrite wrap_small in E by lia. change (u64 (-1)) with (2 ^ 64 - 1) in E. lia.
Qed.
End tuple_info.

(** ** The info of each type

    What gvarianttypeinfo.c computes for a type string is the info of the type
    it stands for, with the alignment and the size its layout has. *)

(** ** Types of values *)

(** Types that values have: with an info. *)
Fixpoint info_of (t : vtype) : GVariantTypeInfo :=
  let type_string := print t ++ [0] in
  match t with
  | Leaf c => BasicInfo (c - 98)
  | Maybe t | Array t => array_info_new type_string (info_of t)
  | Tuple ts => tuple_info_new type_string (with_endings (map info_of ts))
  | Entry k v => tuple_info_new type_string (with_endings [BasicInfo (k - 98); info_of v])
  end.

(** The types of the items of a tuple or a dictionary entry. *)
Definition item_types (t : vtype) : list vtype :=
  match t with Tuple ts => ts | Entry k v => [Leaf k; v] | _ => [] end.

Definition tuple_type (t : vtype) : Prop := match t with Tuple _ | Entry _ _ => True | _ => False end.

(** Alignment and fixed size. *)
Fixpoint type_shape (t : vtype) : shape :=
  match t with
  | Leaf c => shape_of (BasicInfo (c - 98))
  | Maybe t | Array t => (fst (type_shape t), 0)
  | Tuple ts => tuple_shape (map type_shape ts)
  | Entry k v => tuple_shape [shape_of (BasicInfo (k - 98)); type_shape v]
  end.

Definition fixed (t : vtype) : bool := negb (snd (type_shape t) =? 0).
Definition mask (t : vtype) : Z := fst (type_shape t).

(** A type that values have; its string is in memory, and it is not nested deeper
    than an [int] can count. *)
Definition good (t : vtype) : Prop := valid t = true /\ definite t = true /\ zlen (print t) < 2 ^ 55 /\ shallow t.

Lemma good_leaf c : existsb (Z.eqb c) basic_chars = true -> definite_char c = true -> good (Leaf c).
Proof. intros H1 H2. by split. Qed.
Lemma good_maybe t : good (Maybe t) -> good t.
Proof. intros (H1 & H2 & H3 & H4). cbn [print] in H3. rewrite zlen_cons in H3. split_and!; try done; [lia|by apply shallow_maybe]. Qed.
Lemma good_array t : good (Array t) -> good t.
Proof. intros (H1 & H2 & H3 & H4). cbn [print] in H3. rewrite zlen_cons in H3. split_and!; try done; [lia|by apply shallow_array]. Qed.

Lemma prints_item t ts : t ∈ ts -> zlen (print t) <= zlen (prints ts).
Proof.
  intros (l1 & l2 & ->)%list_elem_of_split. unfold prints. rewrite map_app, concat_app. cbn [map concat].
  rewrite !zlen_app. pose proof (zlen_nonneg (concat (map print l1))). pose proof (zlen_nonneg (concat (map print l2))). lia.
Qed.
Lemma good_items t : good t -> Forall good (item_types t).
Proof.
  intros (H1 & H2 & H3 & H4). destruct t as [c|t|t|ts|k v]; try by constructor.
  - apply valid_tuple in H1. cbn [definite] in H2. rewrite print_tuple, zlen_cons, zlen_app in H3.
    rewrite forallb_forall in H2. apply Forall_forall. intros t Ht. split_and!.
    + by apply (proj1 (Forall_forall _ _) H1).
    + by apply H2, list_elem_of_In.
    + pose proof (prints_item t ts Ht). change (zlen [41]) with 1 in H3. lia.
    + by apply (proj1 (Forall_forall _ _) (shallow_tuple ts H4)).
  - cbn [valid definite print] in *. zprops. rewrite !zlen_cons, zlen_app in H3. change (zlen [125]) with 1 in H3.
    pose proof (zlen_nonneg (print v)).
    repeat constructor; try done; [by apply (key_basic k)|lia|by apply shallow_entry in H4].
Qed.

(** The characters of values of one character. *)
Lemma leaf_cases (P : Z -> Prop) c :
  good (Leaf c) -> Forall P [98; 121; 110; 113; 105; 117; 120; 116; 100; 115; 111; 103; 118; 104] -> P c.
Proof.
  intros (H1 & H2 & _) HP. cbn [valid] in H1.
  repeat (apply Forall_cons in HP as [? HP]). known_char H1; done.
Qed.

Lemma leaf_shape_ok c : good (Leaf c) -> shape_ok (shape_of (BasicInfo (c - 98))) /\ snd (shape_of (BasicInfo (c - 98))) <= 8.
Proof.
  intros Hc. apply (leaf_cases (fun c => shape_ok (shape_of (BasicInfo (c - 98))) /\ snd (shape_of (BasicInfo (c - 98))) <= 8) c Hc).
  repeat match goal with |- Forall _ (_ :: _) => apply Forall_cons; split | |- Forall _ [] => constructor end;
    cbv beta; match goal with |- context [shape_of ?x] => let v := eval vm_compute in (shape_of x) in change (shape_of x) with v end;
    unfold shape_ok, is_mask; cbn [fst snd]; lia.
Qed.

(** ** Sizes do not overflow *)

Lemma ends_nonneg l : Forall shape_ok l -> 0 <= ends 0 l <= weight l.
Proof. intros Hl. pose proof (ends_bounds 0 l Hl). lia. Qed.

Lemma tuple_shape_ok l : Forall shape_ok l -> shape_ok (tuple_shape l) /\ snd (tuple_shape l) <= weight l + 7.
Proof.
  intros Hl. pose proof (masks_of_ok l Hl) as Hm. pose proof (ends_nonneg l Hl).
  unfold tuple_shape. split; [split; [done|]|]; cbn [snd]; (match goal with |- context [if ?b then _ else _] => destruct b end; [|lia]); destruct l as [|s l]; try lia;
    pose proof (up_bounds _ (ends 0 (s :: l)) Hm); pose proof (mask_range _ Hm); lia.
Qed.

Definition sized (t : vtype) : Prop := shape_ok (type_shape t) /\ snd (type_shape t) <= 16 * zlen (print t) - 7.

Lemma weight_types ts : Forall sized ts -> weight (map type_shape ts) <= 16 * zlen (prints ts).
Proof.
  induction 1 as [|t ts [_ Ht] _ IH]; [done|]. cbn [map weight foldr]. unfold weight in IH.
  rewrite prints_cons, zlen_app. lia.
Qed.

Lemma tuple_type_shape ts :
  Forall sized ts ->
  shape_ok (tuple_shape (map type_shape ts)) /\
  snd (tuple_shape (map type_shape ts)) <= 16 * (2 + zlen (prints ts)) - 7.
Proof.
  intros Hs. destruct (tuple_shape_ok (map type_shape ts)) as [H1 H2].
  { apply Forall_map. eapply Forall_impl; [exact Hs|]. by intros t []. }
  split; [done|]. pose proof (weight_types ts Hs). pose proof (zlen_nonneg (prints ts)). lia.
Qed.

Lemma type_shape_ok t : good t -> sized t.
Proof.
  induction t as [c|t IH|t IH|ts IH|k v IH] using vtype_ind'; intros Hg; unfold sized.
  - change (type_shape (Leaf c)) with (shape_of (BasicInfo (c - 98))). destruct (leaf_shape_ok c Hg). split; [done|].
    change (zlen (print (Leaf c))) with 1. lia.
  - destruct (IH (good_maybe _ Hg)) as [[H1 H2] _]. pose proof (print_nonempty (Maybe t)).
    split; [split; [exact H1|cbn [type_shape snd]; lia]|cbn [type_shape snd]; lia].
  - destruct (IH (good_array _ Hg)) as [[H1 H2] _]. pose proof (print_nonempty (Array t)).
    split; [split; [exact H1|cbn [type_shape snd]; lia]|cbn [type_shape snd]; lia].
  - pose proof (good_items _ Hg) as Hi. cbn [item_types] in Hi.
    destruct (tuple_type_shape ts) as [H1 H2]; [apply Forall_forall; intros t Ht; apply (proj1 (Forall_forall _ _) IH t Ht), (proj1 (Forall_forall _ _) Hi t Ht)|].
    split; [exact H1|]. rewrite print_tuple, zlen_cons, zlen_app. change (zlen [41]) with 1.
    cbn [type_shape]. lia.
  - pose proof (good_items _ Hg) as Hi. cbn [item_types] in Hi. apply Forall_cons in Hi as [Hk Hi].
    apply Forall_cons in Hi as [Hv _].
    assert (sized (Leaf k)) as Hsk.
    { destruct (leaf_shape_ok k Hk) as [H1 H2]. split; [exact H1|]. change (zlen (print (Leaf k))) with 1. cbn [type_shape]. lia. }
    destruct (tuple_type_shape [Leaf k; v]) as [H1 H2]; [by repeat (constructor; auto)|].
    split; [exact H1|]. cbn [print]. rewrite !zlen_cons, zlen_app. change (zlen [125]) with 1.
    rewrite prints_cons, prints_cons, !zlen_app in H2. change (zlen (print (Leaf k))) with 1 in H2.
    change (zlen (prints [])) with 0 in H2. cbn [type_shape map] in *. lia.
Qed.

(** ** The info of a type *)

Section fit.
Context (ts : list vtype) (Hg : Forall good ts) (Hl : zlen (prints ts) < 2 ^ 55).
Context (Hs : Forall (fun t => shape_of (info_of t) = type_shape t) ts).

Lemma item_shapes : map shape_of (map info_of ts) = map type_shape ts.
Proof. rewrite map_map. by apply map_ext_Forall. Qed.
Lemma items_sized : Forall sized ts.
Proof. eapply Forall_impl; [exact Hg|apply type_shape_ok]. Qed.
Lemma items_ok : Forall shape_ok (map shape_of (map info_of ts)).
Proof.
  rewrite item_shapes. apply Forall_map. eapply Forall_impl; [exact items_sized|]. by intros t [].
Qed.
Lemma items_weight : weight (map shape_of (map info_of ts)) < 2 ^ 60.
Proof. rewrite item_shapes. pose proof (weight_types ts items_sized). lia. Qed.
Lemma items_count : zlen (map info_of ts) < 2 ^ 60.
Proof. unfold zlen in *. rewrite length_map. pose proof (length_prints ts). lia. Qed.

Lemma tuple_info_fit type_string :
  tuple_info_new type_string (with_endings (map info_of ts)) =
  TupleInfo (fst (tuple_shape (map type_shape ts))) (snd (tuple_shape (map type_shape ts))) type_string
    (tuple_generate_table (with_endings (map info_of ts))).
Proof.
  unfold tuple_info_new. rewrite (set_base_info_ok (map info_of ts) items_ok items_weight items_count), item_shapes.
  by destruct (tuple_shape (map type_shape ts)).
Qed.
End fit.

Lemma prints_items t : zlen (prints (item_types t)) <= zlen (print t).
Proof.
  destruct t as [c|t|t|ts|k v]; try apply zlen_nonneg; cbn [item_types].
  - rewrite print_tuple, zlen_cons, zlen_app. change (zlen [41]) with 1. lia.
  - rewrite !prints_cons. cbn [print]. rewrite !zlen_app, !zlen_cons, !zlen_app. change (zlen (prints [])) with 0.
    change (zlen [125]) with 1. change (zlen (@nil Z)) with 0. lia.
Qed.

Lemma info_shape_tuple ts t :
  item_types t = ts -> good t -> type_shape t = tuple_shape (map type_shape ts) ->
  info_of t = tuple_info_new (print t ++ [0]) (with_endings (map info_of ts)) ->
  Forall (fun t => good t -> shape_of (info_of t) = type_shape t) ts -> shape_of (info_of t) = type_shape t.
Proof.
  intros Ei Hg Et -> IH. pose proof (good_items _ Hg) as Hi. pose proof (prints_items t) as Hp. rewrite Ei in Hi, Hp.
  rewrite (tuple_info_fit ts Hi), Et; [by destruct (tuple_shape _)|destruct Hg as (_ & _ & ? & _); lia|].
  apply Forall_forall; intros u Hu; apply (proj1 (Forall_forall _ _) IH u Hu), (proj1 (Forall_forall _ _) Hi u Hu).
Qed.

Lemma info_shape t : good t -> shape_of (info_of t) = type_shape t.
Proof.
  induction t as [c|t IH|t IH|ts IH|k v IH] using vtype_ind'; intros Hg.
  - done.
  - cbn [info_of array_info_new type_shape]. rewrite <- (IH (good_maybe _ Hg)). done.
  - cbn [info_of array_info_new type_shape]. rewrite <- (IH (good_array _ Hg)). done.
  - by apply (info_shape_tuple ts).
  - apply (info_shape_tuple [Leaf k; v]); try done. by repeat constructor.
Qed.

(** ** Finding it in the type string *)

Lemma mask_existsb d : is_mask d -> existsb (Z.eqb d) [0; 1; 3; 7] = true.
Proof. intros Hd. by masks. Qed.

Lemma info_mask t : good t -> is_mask (alignment_of (info_of t)).
Proof. intros Hg. pose proof (info_shape t Hg) as E. apply type_shape_ok in Hg as [[H _] _]. rewrite <- E in H. done. Qed.

Lemma info_check_ok t : good t -> xvariant_type_info_check (info_of t) 0 = true.
Proof.
  intros Hg. unfold xvariant_type_info_check. rewrite (mask_existsb _ (info_mask t Hg)). cbn [orb Z.eqb andb].
  destruct t as [c|t|t|ts|k v]; cbn [info_of array_info_new]; try done.
  - apply (leaf_cases (fun c => (0 <=? c - 98) && (c - 98 <? 24) && negb (tbl xvariant_type_info_basic_chars (c - 98) =? 32) = true) c Hg).
    by repeat constructor.
  - unfold tuple_info_new. by destruct (tuple_set_base_info _).
  - unfold tuple_info_new. by destruct (tuple_set_base_info _).
Qed.

Lemma allocate_members_ok get fuel s p ts :
  Forall (fun t => good t /\ forall q, denotes s q t -> get q = Some (info_of t)) ts -> items s p ts ->
  (length ts <= fuel)%nat ->
  allocate_members get fuel s (match ts with [] => None | _ => Some p end) = Some (with_endings (map info_of ts)).
Proof.
  intros Hts. revert fuel p. induction Hts as [|t ts [Hg Hget] Hts IH]; intros fuel p Hi Hf; [by destruct fuel|].
  destruct fuel as [|fuel]; [cbn in Hf; lia|]. cbn [allocate_members].
  pose proof Hi as [Hd _]%items_cons. rewrite (Hget p Hd). cbn [mbind option_bind].
  apply next_in_tuple in Hi as [-> Hi]; [|apply Hg]. cbn [mbind option_bind].
  rewrite (IH fuel _ Hi) by (cbn in Hf; lia). cbn [mbind option_bind map with_endings]. by destruct ts.
Qed.

(** What finds the infos of the items. *)
Lemma tuple_members_ok get s p t :
  denotes s p t -> good t -> tuple_type t ->
  Forall (fun t => forall q, denotes s q t -> get q = Some (info_of t)) (item_types t) ->
  tuple_allocate_members get s p = Some (with_endings (map info_of (item_types t))).
Proof.
  intros Hd Hg Ht Hget. pose proof (good_items t Hg) as Hi. pose proof Hg as (_ & _ & _ & Hl).
  unfold tuple_allocate_members. pose proof (print_bound s p t Hd) as [Hp Hb].
  assert (forall infos, zlen (with_endings infos) = zlen infos) as Hlen.
  { intros infos. rewrite <- (with_endings_infos infos) at 2. unfold zlen. by rewrite length_map. }
  destruct t as [c|t|t|ts|k v]; try done; cbn [item_types] in *.
  - rewrite (n_items_tuple s p ts Hl Hd), (first_tuple s p ts Hd). cbn [mbind option_bind].
    rewrite (allocate_members_ok get (length s) s (p + 1) ts).
    + cbn [mbind option_bind]. rewrite Hlen. unfold zlen. by rewrite length_map, Z.eqb_refl.
    + by apply Forall_and.
    + by apply denotes_tuple.
    + rewrite print_tuple, zlen_cons, zlen_app in Hb. pose proof (length_prints ts). unfold zlen in *. cbn [length] in Hb. lia.
  - destruct (entry_ok s p k v Hl Hd) as (_ & Hk & _ & Hv & -> & Hnk & Hnv & ->). cbn [mbind option_bind].
    apply Forall_cons in Hget as [Hgk Hgv]. apply Forall_cons in Hgv as [Hgv _].
    assert (exists fuel, length s = S (S fuel)) as [fuel ->].
    { exists (length s - 2)%nat. cbn [print] in Hb. rewrite !zlen_cons, zlen_app in Hb.
      pose proof (zlen_nonneg (print v)). change (zlen [125]) with 1 in Hb. unfold zlen in *. lia. }
    cbn [allocate_members]. rewrite (Hgk _ Hk). cbn [mbind option_bind]. rewrite Hnk. cbn [mbind option_bind].
    rewrite (Hgv _ Hv). cbn [mbind option_bind]. rewrite Hnv. cbn [mbind option_bind]. by destruct fuel.
Qed.

Lemma leaf_get fuel s p c :
  denotes s p (Leaf c) -> good (Leaf c) -> type_info_get (S fuel) s p = Some (info_of (Leaf c)).
Proof.
  intros Hd Hg. pose proof (info_check_ok _ Hg) as Hck. cbn [info_of] in Hck.
  cbn [type_info_get]. unfold xvariant_type_peek_string. rewrite (denotes_head _ _ _ Hd). cbn [mbind option_bind head_char].
  rewrite Hck, andb_true_r.
  assert (existsb (Z.eqb c) [109; 97; 40; 123] = false /\ (0 <=? c - 98) && (c - 98 <? 24) = true) as [-> ->]; [|done].
  apply (leaf_cases (fun c => existsb (Z.eqb c) [109; 97; 40; 123] = false /\ (0 <=? c - 98) && (c - 98 <? 24) = true) c Hg).
  by repeat constructor.
Qed.

Lemma type_info_get_ok t fuel s p :
  denotes s p t -> good t -> (length (print t) <= fuel)%nat -> type_info_get fuel s p = Some (info_of t).
Proof.
  revert fuel p. induction t as [c|t IH|t IH|ts IH|k v IH] using vtype_ind'; intros fuel p Hd Hg Hf;
    (destruct fuel as [|fuel]; [rewrite print_head in Hf; cbn in Hf; lia|]);
    pose proof (info_check_ok _ Hg) as Hck; pose proof Hg as (_ & _ & _ & Hl);
    [by apply leaf_get|..];
    cbn [type_info_get]; unfold xvariant_type_peek_string; rewrite (denotes_head _ _ _ Hd); cbn [mbind option_bind head_char].
  - rewrite (dup_string_ok s p (Maybe t)) by done. cbn [existsb Z.eqb Pos.eqb orb mbind option_bind].
    unfold xvariant_type_element. rewrite (denotes_head _ _ _ Hd). cbn [mbind option_bind head_char].
    cbn [Z.eqb Pos.eqb orb assert_then mbind option_bind].
    rewrite (IH fuel) by (by apply denotes_maybe || by apply good_maybe || (cbn in Hf; lia)).
    cbn [mbind option_bind]. change (array_info_new _ _) with (info_of (Maybe t)). by rewrite Hck.
  - rewrite (dup_string_ok s p (Array t)) by done. cbn [existsb Z.eqb Pos.eqb orb mbind option_bind].
    unfold xvariant_type_element. rewrite (denotes_head _ _ _ Hd). cbn [mbind option_bind head_char].
    cbn [Z.eqb Pos.eqb orb assert_then mbind option_bind].
    rewrite (IH fuel) by (by apply denotes_array || by apply good_array || (cbn in Hf; lia)).
    cbn [mbind option_bind]. change (array_info_new _ _) with (info_of (Array t)). by rewrite Hck.
  - rewrite (dup_string_ok s p (Tuple ts)) by done. cbn [existsb Z.eqb Pos.eqb orb mbind option_bind].
    rewrite (tuple_members_ok _ s p (Tuple ts) Hd Hg I).
    { cbn [mbind option_bind]. change (tuple_info_new _ _) with (info_of (Tuple ts)). by rewrite Hck. }
    pose proof (good_items _ Hg) as Hi. cbn [item_types] in *. apply Forall_forall. intros u Hu q Hq.
    apply (proj1 (Forall_forall _ _) IH u Hu); [done|by apply (proj1 (Forall_forall _ _) Hi)|].
    pose proof (prints_item u ts Hu). rewrite print_tuple in Hf. cbn [length] in Hf. rewrite length_app in Hf. unfold zlen in *. lia.
  - rewrite (dup_string_ok s p (Entry k v)) by done. cbn [existsb Z.eqb Pos.eqb orb mbind option_bind].
    rewrite (tuple_members_ok _ s p (Entry k v) Hd Hg I).
    { cbn [mbind option_bind]. change (tuple_info_new _ _) with (info_of (Entry k v)). by rewrite Hck. }
    pose proof (good_items _ Hg) as Hi. cbn [item_types] in *. apply Forall_cons in Hi as [Hk Hi]. apply Forall_cons in Hi as [Hv _].
    cbn [print length] in Hf. rewrite length_app in Hf.
    repeat constructor; intros q Hq; [|by apply IH; [..|lia]].
    destruct fuel as [|fuel]; [lia|]. by apply leaf_get.
Qed.

(** The info of a type, and what can be asked of it. *)
Lemma info_get_ok s p t : denotes s p t -> good t -> xvariant_type_info_get s p = Some (info_of t).
Proof.
  intros Hd Hg. apply type_info_get_ok; [done..|]. pose proof (print_bound s p t Hd). unfold zlen in *. lia.
Qed.

(** ** What the info says *)

Definition members_of (t : vtype) : list (GVariantTypeInfo * GVariantMemberInfo) :=
  tuple_generate_table (with_endings (map info_of (item_types t))).
(** The kind of the end of item [k] of [n]. *)
Definition ending (s : shape) (k n : nat) : Z :=
  if negb (snd s =? 0) then G_VARIANT_MEMBER_ENDING_FIXED
  else if (S k =? n)%nat then G_VARIANT_MEMBER_ENDING_LAST else G_VARIANT_MEMBER_ENDING_OFFSET.

Lemma with_endings_lookup infos k info :
  infos !! k = Some info -> with_endings infos !! k = Some (info, ending (shape_of info) k (length infos)).
Proof.
  revert k. induction infos as [|i infos IH]; intros [|k] Hk; try done.
  - injection Hk as ->. cbn [with_endings lookup list_lookup length]. unfold ending, shape_of. cbn [snd]. by destruct infos.
  - cbn [with_endings]. exact (IH k Hk).
Qed.

Section tuple.
Context (t : vtype) (Hg : good t) (Ht : tuple_type t).

Local Lemma item_facts : Forall good (item_types t) /\ zlen (prints (item_types t)) < 2 ^ 55 /\
  Forall (fun t => shape_of (info_of t) = type_shape t) (item_types t).
Proof.
  pose proof (good_items t Hg) as Hi. pose proof (prints_items t). destruct Hg as (_ & _ & Hl & _).
  split_and!; [done|lia|]. eapply Forall_impl; [exact Hi|apply info_shape].
Qed.
Lemma tuple_type_eq : type_shape t = tuple_shape (map type_shape (item_types t)).
Proof. by destruct t. Qed.
Lemma tuple_info_of :
  info_of t = TupleInfo (fst (type_shape t)) (snd (type_shape t)) (print t ++ [0]) (members_of t).
Proof.
  destruct item_facts as (Hi & Hl & Hs). rewrite tuple_type_eq. unfold members_of.
  rewrite <- (tuple_info_fit _ Hi Hl Hs). by destruct t.
Qed.
Lemma item_shapes_of : map shape_of (map info_of (item_types t)) = map type_shape (item_types t).
Proof. destruct item_facts as (_ & _ & Hs). by apply item_shapes. Qed.

Lemma members_length : length (members_of t) = length (item_types t).
Proof.
  destruct item_facts as (Hi & Hl & Hs).
  unfold members_of. rewrite <- (length_map fst), (members_infos _ (items_ok _ Hi Hs) (items_weight _ Hi Hl Hs) (items_count _ Hl)).
  apply length_map.
Qed.
Lemma members_lookup k u :
  item_types t !! k = Some u ->
  exists m, members_of t !! k = Some (info_of u, m) /\
    member_ok (map type_shape (take k (item_types t))) (type_shape u) m /\
    ending_type m = ending (type_shape u) k (length (item_types t)).
Proof.
  intros Hk. destruct item_facts as (Hi & Hl & Hs).
  pose proof (items_ok _ Hi Hs) as H1. pose proof (items_weight _ Hi Hl Hs) as H2. pose proof (items_count _ Hl) as H3.
  assert (map info_of (item_types t) !! k = Some (info_of u)) as Hk' by exact (list_lookup_fmap_Some_2 info_of _ _ _ Hk).
  pose proof (members_infos _ H1 H2 H3) as Em. rewrite <- Em in Hk'.
  apply list_lookup_fmap_Some in Hk' as ([i m] & E & Hm). cbn in E. subst i. exists m. split; [done|].
  destruct (member_lookup _ H1 H2 H3 k _ m Hm) as [He Hok].
  pose proof (info_shape u (proj1 (Forall_lookup _ _) Hi k u Hk)) as Eu.
  rewrite Eu, item_shapes_of in Hok. rewrite (with_endings_lookup _ k (info_of u)) in He.
  - injection He as <-. rewrite Eu, length_map. split; [|done].
    replace (map type_shape (take k (item_types t))) with (take k (map type_shape (item_types t))); [done|].
    symmetry. apply (fmap_take type_shape).
  - exact (list_lookup_fmap_Some_2 info_of _ _ _ Hk).
Qed.
End tuple.
