(* ===== verification/Serialiser.v ===== *)
(** * Reading and writing the data of containers: src/glib/gvariant-serialiser.c

    Memory is one block [mem] at the address [base]; addresses and sizes are
    64-bit integers and [NULL] is 0. A failed assertion, an access outside the
    block or through [NULL], and [xerror], are [None]. *)

From S2P Require Import Prelude.
From S2P Require Import Utf8.
From S2P Require Import VariantType.
From S2P Require Import VariantInfo.
From Stdlib Require Import Ascii.
Local Open Scope Z_scope.
Local Open Scope xpl_scope.

Local Notation "'chr' a" :=
  ltac:(let v := eval vm_compute in (Z.of_N (N_of_ascii a%char)) in exact v)
  (at level 10, a constr, only parsing).

(** [GVariantSerialised]. *)
Record GVariantSerialised :=
  Serialised { type_info : option GVariantTypeInfo; data : Z; size : Z; nested : Z }.

Definition max_depth : Z := Z.of_nat G_VARIANT_MAX_RECURSION_DEPTH.

(** The macros that find the handler of a container. [None] falls out of the switch. *)
Inductive kind := FixedMaybe | VariableMaybe | FixedArray | VariableArray | TupleKind | VariantKind.
Definition DISPATCH_FIXED {A} (info : GVariantTypeInfo) (fixed variable : A) : option A :=
  '(_, fixed_size) ← xvariant_type_info_query_element info;
  Some (if negb (fixed_size =? 0) then fixed else variable).
Definition DISPATCH_CASES (info : GVariantTypeInfo) : option (option kind) :=
  c ← xvariant_type_info_get_type_char info;
  if c =? chr "m" then k ← DISPATCH_FIXED info FixedMaybe VariableMaybe; Some (Some k)
  else if c =? chr "a" then k ← DISPATCH_FIXED info FixedArray VariableArray; Some (Some k)
  else if (c =? chr "{") || (c =? chr "(") then Some (Some TupleKind)
  else if c =? chr "v" then Some (Some VariantKind)
  else Some None.

Definition xvariant_serialised_check (serialised : GVariantSerialised) : option bool :=
  match type_info serialised with
  | None => Some false
  | Some info =>
      '(alignment, fixed_size) ← xvariant_type_info_query info;
      if negb (fixed_size =? 0) && negb (size serialised =? fixed_size) then Some false
      else if (fixed_size =? 0) && negb ((size serialised =? 0) || negb (data serialised =? 0)) then Some false
      else
        (* the size of a [char] and an 8-byte union is 16 *)
        let alignment := alignment & (16 - 9) in
        Some ((size serialised <=? alignment) || (alignment & data serialised =? 0))
  end.

(** [xassert (b)] for a condition that is computed. *)
Definition assert_ok {B} (b : option bool) (x : option B) : option B :=
  b ← b; assert_then b x.

Definition gvs_get_offset_size (size : Z) : Z :=
  if 2 ^ 32 - 1 <? size then 8
  else if 2 ^ 16 - 1 <? size then 4
  else if 2 ^ 8 - 1 <? size then 2
  else if 0 <? size then 1
  else 0.

Definition gvs_calculate_total_size (body_size offsets : Z) : Z :=
  if u64 (body_size + u64 (1 * offsets)) <=? 2 ^ 8 - 1 then u64 (body_size + u64 (1 * offsets))
  else if u64 (body_size + u64 (2 * offsets)) <=? 2 ^ 16 - 1 then u64 (body_size + u64 (2 * offsets))
  else if u64 (body_size + u64 (4 * offsets)) <=? 2 ^ 32 - 1 then u64 (body_size + u64 (4 * offsets))
  else u64 (body_size + u64 (8 * offsets)).

Section memory.
Context (base : Z).

Section reading.
Context (mem : list Z).

(** [*p], for a byte. *)
Definition load (p : Z) : option Z := rd mem (p - base).

Definition gvs_read_unaligned_le (bytes size : Z) : option Z :=
  if bytes =? 0 then Some 0
  else l ← cells_at mem (bytes - base) size; Some (le_value l).

(** ** Maybe *)

Definition gvs_fixed_sized_maybe_n_children (value : GVariantSerialised) : option Z :=
  info ← type_info value;
  '(_, element_fixed_size) ← xvariant_type_info_query_element info;
  Some (if element_fixed_size =? size value then 1 else 0).
Definition gvs_fixed_sized_maybe_get_child (value : GVariantSerialised) (index_ : Z) : option GVariantSerialised :=
  info ← type_info value;
  element ← xvariant_type_info_element info;
  Some (Serialised (Some element) (data value) (size value) (u64 (nested value + 1))).

Definition gvs_variable_sized_maybe_n_children (value : GVariantSerialised) : option Z :=
  Some (if 0 <? size value then 1 else 0).
Definition gvs_variable_sized_maybe_get_child (value : GVariantSerialised) (index_ : Z) : option GVariantSerialised :=
  info ← type_info value;
  element ← xvariant_type_info_element info;
  let size := u64 (size value - 1) in
  let data := if size =? 0 then 0 else data value in
  Some (Serialised (Some element) data size (u64 (nested value + 1))).

(** ** Arrays *)

Definition gvs_fixed_sized_array_n_children (value : GVariantSerialised) : option Z :=
  info ← type_info value;
  '(_, element_fixed_size) ← xvariant_type_info_query_element info;
  Some (if size value mod element_fixed_size =? 0 then size value / element_fixed_size else 0).
Definition gvs_fixed_sized_array_get_child (value : GVariantSerialised) (index_ : Z) : option GVariantSerialised :=
  info ← type_info value;
  element ← xvariant_type_info_element info;
  '(_, size) ← xvariant_type_info_query element;
  Some (Serialised (Some element) (u64 (data value + u64 (size * index_))) size (u64 (nested value + 1))).

Definition gvs_variable_sized_array_n_children (value : GVariantSerialised) : option Z :=
  if size value =? 0 then Some 0
  else
    let offset_size := gvs_get_offset_size (size value) in
    last_end ← gvs_read_unaligned_le (u64 (data value + size value - offset_size)) offset_size;
    if size value <? last_end then Some 0
    else
      let offsets_array_size := u64 (size value - last_end) in
      if negb (offsets_array_size mod offset_size =? 0) then Some 0
      else Some (offsets_array_size / offset_size).
Definition gvs_variable_sized_array_get_child (value : GVariantSerialised) (index_ : Z) : option GVariantSerialised :=
  info ← type_info value;
  element ← xvariant_type_info_element info;
  let child := Serialised (Some element) 0 0 (u64 (nested value + 1)) in
  let offset_size := gvs_get_offset_size (size value) in
  last_end ← gvs_read_unaligned_le (u64 (data value + size value - offset_size)) offset_size;
  start ← (if 0 <? index_ then
             start ← gvs_read_unaligned_le (u64 (data value + last_end + u64 (offset_size * u64 (index_ - 1)))) offset_size;
             '(alignment, _) ← xvariant_type_info_query element;
             Some (u64 (start + (u64 (- start) & alignment)))
           else Some 0);
  end_ ← gvs_read_unaligned_le (u64 (data value + last_end + u64 (offset_size * index_))) offset_size;
  Some (if (start <? end_) && (end_ <=? size value) && (end_ <=? last_end) then
          Serialised (Some element) (u64 (data value + start)) (u64 (end_ - start)) (nested child)
        else child).

(** ** Tuples *)

Definition gvs_tuple_n_children (value : GVariantSerialised) : option Z :=
  info ← type_info value; xvariant_type_info_n_members info.

(** It calls itself for the last child, which does not. *)
Fixpoint tuple_get_child (fuel : nat) (value : GVariantSerialised) (index_ : Z) : option GVariantSerialised :=
  match fuel with
  | O => None
  | S fuel =>
      info ← type_info value;
      member ← xvariant_type_info_member_info info index_;
      '(child_info, member_info) ← member;
      let depth := u64 (nested value + 1) in
      let child := Serialised (Some child_info) 0 0 depth in
      let offset_size := gvs_get_offset_size (size value) in
      if (data value =? 0) && negb (size value =? 0) then
        '(_, size) ← xvariant_type_info_query child_info;
        assert_then (negb (size =? 0)) (Some (Serialised (Some child_info) 0 size depth))
      else if (ending_type member_info =? G_VARIANT_MEMBER_ENDING_OFFSET) &&
              (size value <? u64 (offset_size * u64 (m_i member_info + 2))) then Some child
      else if negb (ending_type member_info =? G_VARIANT_MEMBER_ENDING_OFFSET) &&
              (size value <? u64 (offset_size * u64 (m_i member_info + 1))) then
        '(_, size) ← xvariant_type_info_query child_info;
        Some (Serialised (Some child_info) 0 size depth)
      else
        start ← (if negb (u64 (m_i member_info + 1) =? 0) then
                   gvs_read_unaligned_le
                     (u64 (data value + size value - u64 (offset_size * u64 (m_i member_info + 1)))) offset_size
                 else Some 0);
        let start := member_start start member_info in
        '(end_, child_size) ←
          (if ending_type member_info =? G_VARIANT_MEMBER_ENDING_LAST then
             Some (u64 (size value - u64 (offset_size * u64 (m_i member_info + 1))), 0)
           else if ending_type member_info =? G_VARIANT_MEMBER_ENDING_FIXED then
             '(_, fixed_size) ← xvariant_type_info_query child_info;
             Some (u64 (start + fixed_size), fixed_size)
           else
             end_ ← gvs_read_unaligned_le
                      (u64 (data value + size value - u64 (offset_size * u64 (m_i member_info + 2)))) offset_size;
             Some (end_, 0));
        n_members ← xvariant_type_info_n_members info;
        last_end ← (if negb (index_ =? u64 (n_members - 1)) then
                      last_child ← tuple_get_child fuel value (u64 (n_members - 1));
                      Some (u64 (data last_child + size last_child - data value))
                    else Some end_);
        Some (if (start <? end_) && (end_ <=? size value) && (end_ <=? last_end) then
                Serialised (Some child_info) (u64 (data value + start)) (u64 (end_ - start)) depth
              else Serialised (Some child_info) 0 child_size depth)
  end.
Definition gvs_tuple_get_child : GVariantSerialised -> Z -> option GVariantSerialised := tuple_get_child 2.

(** ** Variants *)

Definition gvs_variant_n_children (value : GVariantSerialised) : option Z := Some 1.

(** [for (...; child.size; child.size--)] *)
Fixpoint find_nul (fuel : nat) (value : GVariantSerialised) (child_size : Z) : option Z :=
  if child_size =? 0 then Some child_size
  else
    c ← load (data value + child_size);
    if c =? 0 then Some child_size
    else match fuel with O => None | S fuel => find_nul fuel value (child_size - 1) end.

Definition unit_type : list Z := ascii_bytes "()" ++ [0].

(** What the data says its type is, as an address, and the size in front of it. *)
Definition variant_type_string (value : GVariantSerialised) : option (option (Z * Z)) :=
  if size value =? 0 then Some None
  else
    child_size ← find_nul (Z.to_nat (size value)) value (size value - 1);
    c ← load (data value + child_size);
    if negb (c =? 0) then Some None
    else
      let type_string := data value + child_size + 1 in
      let limit := data value + size value in
      end_ ← xvariant_type_string_scan mem (Some (limit - base)) (type_string - base);
      match end_ with
      | None => Some None
      | Some end_ =>
          if negb (end_ =? limit - base) then Some None
          else
            definite ← xvariant_type_is_definite mem (type_string - base);
            Some (if (definite : bool) then Some (type_string, child_size) else None)
      end.

Definition gvs_variant_get_child (value : GVariantSerialised) (index_ : Z) : option GVariantSerialised :=
  found ← variant_type_string value;
  child ← match found with
          | None => Some None
          | Some (type_string, child_size) =>
              info ← xvariant_type_info_get mem (type_string - base);
              '(_, fixed_size) ← xvariant_type_info_query info;
              child_type_depth ← xvariant_type_info_query_depth info;
              Some (if ((fixed_size =? 0) || (fixed_size =? child_size)) &&
                       (nested value <? u64 (max_depth - child_type_depth)) then
                      Some (Serialised (Some info) (if negb (child_size =? 0) then data value else 0) child_size
                              (u64 (nested value + 1)))
                    else None)
          end;
  match child with
  | Some child => Some child
  | None =>
      info ← xvariant_type_info_get unit_type 0;
      Some (Serialised (Some info) 0 1 (u64 (nested value + 1)))
  end.

(** ** Entry points *)

Definition n_children_of (k : kind) : GVariantSerialised -> option Z :=
  match k with
  | FixedMaybe => gvs_fixed_sized_maybe_n_children
  | VariableMaybe => gvs_variable_sized_maybe_n_children
  | FixedArray => gvs_fixed_sized_array_n_children
  | VariableArray => gvs_variable_sized_array_n_children
  | TupleKind => gvs_tuple_n_children
  | VariantKind => gvs_variant_n_children
  end.
Definition get_child_of (k : kind) : GVariantSerialised -> Z -> option GVariantSerialised :=
  match k with
  | FixedMaybe => gvs_fixed_sized_maybe_get_child
  | VariableMaybe => gvs_variable_sized_maybe_get_child
  | FixedArray => gvs_fixed_sized_array_get_child
  | VariableArray => gvs_variable_sized_array_get_child
  | TupleKind => gvs_tuple_get_child
  | VariantKind => gvs_variant_get_child
  end.

Definition xvariant_serialised_n_children (serialised : GVariantSerialised) : option Z :=
  assert_ok (xvariant_serialised_check serialised)
    (info ← type_info serialised; k ← DISPATCH_CASES info; k ← k; n_children_of k serialised).

Definition xvariant_serialised_get_child (serialised : GVariantSerialised) (index_ : Z) : option GVariantSerialised :=
  assert_ok (xvariant_serialised_check serialised)
    (n_children ← xvariant_serialised_n_children serialised;
     if index_ <? n_children then
       info ← type_info serialised;
       k ← DISPATCH_CASES info;
       k ← k;
       child ← get_child_of k serialised index_;
       assert_then (negb (size child =? 0) || (data child =? 0))
         (assert_ok (xvariant_serialised_check child) (Some child))
     else None).
End reading.
End memory.
