(* ===== verification/SerialiserRead.v ===== *)
(** * Reading any bytes

    Whatever the bytes of a value, counting and getting its children fails no
    assertion and reads nothing outside the value; a child is a value again,
    inside its container. *)

From S2P Require Import Prelude VariantType VariantSpec VariantWalk VariantCorrect VariantInfo.
From S2P Require Import VariantInfos Serialiser.
Local Open Scope Z_scope.
Local Open Scope xpl_scope.

(** ** Asking an info *)

Lemma query_ok t : good t -> xvariant_type_info_query (info_of t) = Some (type_shape t).
Proof. intros Hg. unfold xvariant_type_info_query. rewrite (info_check_ok t Hg). rewrite <- (info_shape t Hg). done. Qed.

Lemma type_string_ok t : good t -> xvariant_type_info_get_type_string (info_of t) = Some (print t ++ [0]).
Proof.
  intros Hg. unfold xvariant_type_info_get_type_string. rewrite (info_check_ok t Hg). cbn [assert_then].
  destruct t as [c|t|t|ts|k v]; try done.
  - cbn [info_of print app]. do 2 f_equal.
    apply (leaf_cases (fun c => tbl xvariant_type_info_basic_chars (c - 98) = c) c Hg). by repeat constructor.
  - by rewrite (tuple_info_of _ Hg I).
  - by rewrite (tuple_info_of _ Hg I).
Qed.

Lemma type_char_ok t : good t -> xvariant_type_info_get_type_char (info_of t) = Some (head_char t).
Proof. intros Hg. unfold xvariant_type_info_get_type_char. rewrite (type_string_ok t Hg). by rewrite print_head. Qed.

Lemma query_depth_ok t : good t -> (nesting t <= 128)%nat -> xvariant_type_info_query_depth (info_of t) = Some (depth t).
Proof.
  intros Hg Hn. unfold xvariant_type_info_query_depth. rewrite (info_check_ok t Hg). cbn [assert_then].
  assert (xvariant_type_string_get_depth_ (print t ++ [0]) 0 = Some (depth t)) as E.
  { unfold xvariant_type_string_get_depth_. destruct Hg as (Hv & _).
    rewrite (scan_complete t) by (done || by apply denotes_print). cbn [mbind option_bind].
    rewrite rd_ge_0 by (pose proof (zlen_nonneg (print t)); lia). unfold zlen. rewrite Z.add_0_l, Nat2Z.id.
    by rewrite lookup_app_r, Nat.sub_diag by lia. }
  destruct t as [c|t|t|ts|k v]; try done.
  - by rewrite (tuple_info_of _ Hg I).
  - by rewrite (tuple_info_of _ Hg I).
Qed.

Lemma info_class t : container_class_of (info_of t) =
  match t with Leaf _ => 0 | Maybe _ | Array _ => GV_ARRAY_INFO_CLASS | _ => GV_TUPLE_INFO_CLASS end.
Proof. destruct t; try done; cbn [info_of]; unfold tuple_info_new; by destruct (tuple_set_base_info _). Qed.
Lemma check_class t c :
  good t -> container_class_of (info_of t) = c -> xvariant_type_info_check (info_of t) c = true.
Proof.
  intros Hg E. pose proof (info_check_ok t Hg) as Hc. unfold xvariant_type_info_check in *. by rewrite E, Z.eqb_refl, orb_true_r.
Qed.

(** The element of a maybe or an array. *)
Definition element_type (t u : vtype) : Prop := t = Maybe u \/ t = Array u.
Lemma element_good t u : element_type t u -> good t -> good u.
Proof. intros [-> | ->]; [apply good_maybe|apply good_array]. Qed.
Lemma element_ok t u : element_type t u -> good t -> xvariant_type_info_element (info_of t) = Some (info_of u).
Proof.
  intros Ht Hg. unfold xvariant_type_info_element. rewrite check_class by (done || by destruct Ht as [-> | ->]).
  by destruct Ht as [-> | ->].
Qed.
Lemma query_element_ok t u :
  element_type t u -> good t -> xvariant_type_info_query_element (info_of t) = Some (type_shape u).
Proof.
  intros Ht Hg. unfold xvariant_type_info_query_element. rewrite (element_ok t u Ht Hg). cbn [mbind option_bind].
  apply query_ok. by eapply element_good.
Qed.

Lemma tuple_class t : tuple_type t -> container_class_of (info_of t) = GV_TUPLE_INFO_CLASS.
Proof. rewrite info_class. by destruct t. Qed.
Lemma n_members_ok t : tuple_type t -> good t -> xvariant_type_info_n_members (info_of t) = Some (zlen (item_types t)).
Proof.
  intros Ht Hg. unfold xvariant_type_info_n_members, tuple_members.
  rewrite check_class by (done || by apply tuple_class). rewrite (tuple_info_of t Hg Ht).
  cbn [assert_then mbind option_bind]. unfold zlen. by rewrite (members_length t Hg).
Qed.
Lemma member_info_ok t i : tuple_type t -> good t -> xvariant_type_info_member_info (info_of t) i = Some (rd (members_of t) i).
Proof.
  intros Ht Hg. unfold xvariant_type_info_member_info, tuple_members.
  rewrite check_class by (done || by apply tuple_class). by rewrite (tuple_info_of t Hg Ht).
Qed.

(** The handlers of a type. *)
Definition kind_of (t : vtype) : option kind :=
  match t with
  | Leaf c => if c =? 118 then Some VariantKind else None
  | Maybe u => Some (if fixed u then FixedMaybe else VariableMaybe)
  | Array u => Some (if fixed u then FixedArray else VariableArray)
  | Tuple _ | Entry _ _ => Some TupleKind
  end.
Lemma dispatch_ok t : good t -> DISPATCH_CASES (info_of t) = Some (kind_of t).
Proof.
  intros Hg. unfold DISPATCH_CASES. rewrite (type_char_ok t Hg). cbn [mbind option_bind].
  destruct t as [c|u|u|ts|k v]; try done.
  - cbn [head_char kind_of].
    apply (leaf_cases (fun c => (if c =? 109 then _ else if c =? 97 then _ else
      if (c =? 123) || (c =? 40) then _ else if c =? 118 then _ else _) =
        Some (if c =? 118 then Some VariantKind else None)) c Hg). by repeat constructor.
  - cbn [head_char Z.eqb Pos.eqb]. unfold DISPATCH_FIXED. rewrite (query_element_ok _ u) by (done || by left).
    unfold kind_of, fixed. by destruct (type_shape u).
  - cbn [head_char Z.eqb Pos.eqb]. unfold DISPATCH_FIXED. rewrite (query_element_ok _ u) by (done || by right).
    unfold kind_of, fixed. by destruct (type_shape u).
Qed.

(** A fixed size is a multiple of the alignment. *)
Lemma fixed_aligned_size t : good t -> fixed t = true -> snd (type_shape t) mod (fst (type_shape t) + 1) = 0.
Proof.
  intros Hg Hf. pose proof (type_shape_ok t Hg) as [[Hm _] _].
  assert (tuple_type t -> snd (type_shape t) mod (fst (type_shape t) + 1) = 0) as Htuple.
  { intros Ht. revert Hm Hf. unfold fixed. rewrite (tuple_type_eq t Hg Ht). unfold tuple_shape. cbn [fst snd].
    destruct (forallb _ _); [|done]. intros Hm _. destruct (map type_shape (item_types t)); [done|].
    by apply up_aligned. }
  destruct t as [c|u|u|ts|k v]; try done; try (by apply Htuple).
  apply (leaf_cases (fun c => snd (type_shape (Leaf c)) mod (fst (type_shape (Leaf c)) + 1) = 0) c Hg).
  by repeat constructor.
Qed.

(** ** Values in memory *)

Section reading.
Context (base : Z) (mem : list Z).

(** The block is not at [NULL] and not larger than an address space. *)
Definition block : Prop := 0 < base /\ base + zlen mem < 2 ^ 64 /\ zlen mem < 2 ^ 55 /\ Forall is_byte mem.

(** A value of type [t]: in the block and aligned, or of no size, or a value of
    fixed size without data. *)
Record value_ok (s : GVariantSerialised) (t : vtype) : Prop := {
  value_info : type_info s = Some (info_of t);
  value_good : good t;
  value_size : 0 <= size s;
  value_fixed : if fixed t then size s = snd (type_shape t) else size s = 0 \/ data s <> 0;
  value_place : data s = 0 \/
    base <= data s /\ data s + size s <= base + zlen mem /\ data s mod (fst (type_shape t) + 1) = 0;
}.

(** The bytes of [c] are among those of [s]. *)
Definition inside (s c : GVariantSerialised) : Prop :=
  data c = 0 \/ data s <= data c /\ data c + size c <= data s + size s.

Lemma shape_range t : good t -> 0 <= fst (type_shape t) <= 7 /\ 0 <= snd (type_shape t) < 2 ^ 60.
Proof.
  intros Hg. pose proof (type_shape_ok t Hg) as [[H1 H2] H3]. split; [by apply mask_range|].
  destruct Hg as (_ & _ & Hl & _). lia.
Qed.
Lemma land_7 d : 0 <= d <= 7 -> d & 7 = d.
Proof. intros Hd. change 7 with (2 ^ 3 - 1). rewrite land_low by lia. apply Z.mod_small. lia. Qed.

(** The program's own test. *)
Lemma serialised_check_ok s t : value_ok s t -> xvariant_serialised_check s = Some true.
Proof.
  intros [Hi Hg Hs Hf Hp]. unfold xvariant_serialised_check. rewrite Hi, (query_ok t Hg).
  pose proof (type_shape_ok t Hg) as [[Hm _] _]. pose proof (shape_range t Hg) as [Hr _]. unfold fixed in Hf.
  cbn [mbind option_bind]. destruct (type_shape t) as [d e]. cbn [fst snd] in *.
  change (16 - 9) with 7. rewrite (land_7 d Hr). destruct (Z.eqb_spec e 0) as [E|He]; cbn [negb] in Hf |- *; cbn [andb].
  - assert ((size s =? 0) || negb (data s =? 0) = true) as ->.
    { destruct Hf as [->|Hd]; [done|]. rewrite (proj2 (Z.eqb_neq _ _) Hd). by rewrite orb_true_r. }
    cbn [negb]. f_equal. apply orb_true_iff. rewrite Z.land_comm, (land_mask _ d Hm).
    destruct Hp as [-> |(_ & _ & ->)]; right; done.
  - rewrite Hf, Z.eqb_refl. cbn [negb]. f_equal. apply orb_true_iff. rewrite Z.land_comm, (land_mask _ d Hm).
    destruct Hp as [-> |(_ & _ & ->)]; right; done.
Qed.

Lemma cells_at_some i n : 0 <= i -> 0 <= n -> i + n <= zlen mem -> exists l, cells_at mem i n = Some l /\ zlen l = n.
Proof.
  intros Hi Hn Hl. unfold cells_at.
  destruct (Z.ltb_spec i 0); [lia|]. destruct (Z.ltb_spec n 0); [lia|]. destruct (Z.ltb_spec (zlen mem) (i + n)); [lia|].
  eexists. split; [done|]. unfold zlen in *. rewrite length_take, length_drop. lia.
Qed.
Lemma cells_at_bytes i n l : Forall is_byte mem -> cells_at mem i n = Some l -> Forall is_byte l.
Proof.
  intros Hb. unfold cells_at. destruct (_ || _ || _); [done|]. intros [= <-]. by apply Forall_take, Forall_drop.
Qed.

Context (Hblock : block).

Lemma read_ok bytes n :
  0 <= n <= 8 -> bytes = 0 \/ base <= bytes /\ bytes + n <= base + zlen mem ->
  exists v, gvs_read_unaligned_le base mem bytes n = Some v /\ 0 <= v < 2 ^ 64.
Proof.
  intros Hn Hb. destruct Hblock as (H0 & _ & _ & Hbytes). unfold gvs_read_unaligned_le.
  destruct (Z.eqb_spec bytes 0) as [|Hne]; [by exists 0|]. destruct Hb as [|[H1 H2]]; [done|].
  destruct (cells_at_some (bytes - base) n) as (l & El & Hl); [lia..|]. rewrite El. cbn [mbind option_bind].
  eexists. split; [done|]. pose proof (le_value_range l (cells_at_bytes _ _ _ Hbytes El)) as Hr. rewrite Hl in Hr.
  split; [lia|]. eapply Z.lt_le_trans; [apply Hr|]. change (2 ^ 64) with (256 ^ 8). apply Z.pow_le_mono_r; lia.
Qed.

Lemma load_ok p : base <= p < base + zlen mem -> exists c, load base mem p = Some c /\ 0 <= c < 256.
Proof.
  intros Hp. destruct Hblock as (_ & _ & _ & Hbytes). unfold load. rewrite rd_ge_0 by lia.
  destruct (lookup_lt_is_Some_2 mem (Z.to_nat (p - base))) as [c Hc]; [unfold zlen in Hp; lia|].
  exists c. split; [done|]. by apply (proj1 (Forall_lookup _ _) Hbytes _ _ Hc).
Qed.
(** ** Maybes and arrays *)

Implicit Types (s c : GVariantSerialised) (t u : vtype).

(** What a child has to be. *)
Definition child_ok s c u : Prop :=
  value_ok c u /\ inside s c /\ nested c = u64 (nested s + 1) /\ (data c = 0 \/ size c <> 0).

Lemma fixed_eq t : fixed t = true -> snd (type_shape t) <> 0.
Proof. unfold fixed. intros H. by apply negb_true_iff, Z.eqb_neq in H. Qed.
Lemma not_fixed t : fixed t = false -> snd (type_shape t) = 0.
Proof. unfold fixed. intros H. by apply negb_false_iff, Z.eqb_eq in H. Qed.
Lemma element_shape t u : element_type t u -> type_shape t = (fst (type_shape u), 0).
Proof. by intros [-> | ->]. Qed.
Lemma element_fixed t u : element_type t u -> fixed t = false.
Proof. intros Ht. unfold fixed. by rewrite (element_shape t u Ht). Qed.

(** A value of a container type: no data means no bytes. *)
Lemma container_place s t :
  value_ok s t -> fixed t = false ->
  size s = 0 \/ 0 < size s /\ base <= data s /\ data s + size s <= base + zlen mem /\
    data s mod (fst (type_shape t) + 1) = 0.
Proof. intros [_ _ Hs Hf Hp] E. rewrite E in Hf. lia. Qed.

Lemma fixed_maybe_safe s u :
  value_ok s (Maybe u) -> fixed u = true ->
  exists n, gvs_fixed_sized_maybe_n_children s = Some n /\ 0 <= n <= 1 /\
    forall i, 0 <= i < n -> exists c, gvs_fixed_sized_maybe_get_child s i = Some c /\ child_ok s c u.
Proof.
  intros Hs Hf. pose proof (value_good _ _ Hs) as Hg. pose proof (good_maybe _ Hg) as Hu.
  assert (element_type (Maybe u) u) as He by by left.
  pose proof (container_place s _ Hs (element_fixed _ _ He)) as Hp. rewrite (element_shape _ _ He) in Hp. cbn [fst] in Hp.
  pose proof (fixed_eq u Hf) as Hne.
  unfold gvs_fixed_sized_maybe_n_children, gvs_fixed_sized_maybe_get_child. rewrite (value_info _ _ Hs).
  cbn [mbind option_bind]. rewrite (query_element_ok _ _ He Hg), (element_ok _ _ He Hg).
  destruct (type_shape u) as [d e] eqn:Esh. cbn [mbind option_bind fst snd] in *.
  eexists. split; [done|]. destruct (Z.eqb_spec e (size s)) as [E|E]; (split; [lia|]); intros i Hi; [|lia].
  eexists. split; [done|]. split; [|split_and!; [right; cbn; lia|done|right; cbn; lia]].
  constructor; cbn [type_info data size nested]; try done; [lia|rewrite Hf, Esh; by subst|].
  right. rewrite Esh. cbn [fst]. lia.
Qed.

Lemma variable_maybe_safe s u :
  value_ok s (Maybe u) -> fixed u = false ->
  exists n, gvs_variable_sized_maybe_n_children s = Some n /\ 0 <= n <= 1 /\
    forall i, 0 <= i < n -> exists c, gvs_variable_sized_maybe_get_child s i = Some c /\ child_ok s c u.
Proof.
  intros Hs Hf. pose proof (value_good _ _ Hs) as Hg. pose proof (good_maybe _ Hg) as Hu.
  assert (element_type (Maybe u) u) as He by by left.
  pose proof (container_place s _ Hs (element_fixed _ _ He)) as Hp. rewrite (element_shape _ _ He) in Hp. cbn [fst] in Hp.
  unfold gvs_variable_sized_maybe_n_children, gvs_variable_sized_maybe_get_child. rewrite (value_info _ _ Hs).
  cbn [mbind option_bind]. rewrite (element_ok _ _ He Hg). cbn [mbind option_bind].
  eexists. split; [done|]. destruct (Z.ltb_spec 0 (size s)) as [Hlt|Hlt]; (split; [lia|]); intros i Hi; [|lia].
  destruct Hblock as (H0 & Hend & Hl & _). rewrite wrap_small by lia.
  eexists. split; [done|]. destruct (Z.eqb_spec (size s - 1) 0) as [E|E].
  - split; [|split_and!; [by left|done|by left]].
    constructor; cbn [type_info data size nested]; try done; [lia|rewrite Hf; by left|by left].
  - split; [|split_and!; [right; cbn; lia|done|right; done]].
    constructor; cbn [type_info data size nested]; try done; [lia|rewrite Hf; lia|]. right. lia.
Qed.

Lemma fixed_array_safe s u :
  value_ok s (Array u) -> fixed u = true ->
  exists n, gvs_fixed_sized_array_n_children s = Some n /\ 0 <= n <= size s /\
    forall i, 0 <= i < n -> exists c, gvs_fixed_sized_array_get_child s i = Some c /\ child_ok s c u.
Proof.
  intros Hs Hf. pose proof (value_good _ _ Hs) as Hg. pose proof (good_array _ Hg) as Hu.
  assert (element_type (Array u) u) as He by by right.
  pose proof (container_place s _ Hs (element_fixed _ _ He)) as Hp. rewrite (element_shape _ _ He) in Hp. cbn [fst] in Hp.
  pose proof (fixed_eq u Hf) as Hne. pose proof (shape_range u Hu) as [Hd Hsz]. pose proof (fixed_aligned_size u Hu Hf) as Hal.
  unfold gvs_fixed_sized_array_n_children, gvs_fixed_sized_array_get_child. rewrite (value_info _ _ Hs).
  cbn [mbind option_bind]. rewrite (query_element_ok _ _ He Hg), (element_ok _ _ He Hg). cbn [mbind option_bind].
  rewrite (query_ok u Hu). cbn [mbind option_bind].
  destruct (type_shape u) as [d e] eqn:Esh. cbn [mbind option_bind fst snd] in *.
  pose proof (value_size _ _ Hs) as H0. destruct Hblock as (Hb0 & Hend & Hl & _).
  eexists. split; [done|]. destruct (Z.eqb_spec (size s mod e) 0) as [E|E]; (split; [|intros i Hi; try lia]); [| |lia].
  { split; [apply Z.div_pos; lia|]. apply Z.div_le_upper_bound; nia. }
  assert (size s = e * (size s / e)) as Es by (apply Z.div_exact; lia).
  set (k := size s / e) in *. assert (0 <= e * i /\ e * i + e <= size s) as Hei by nia.
  rewrite (wrap_small 64 (e * i)), wrap_small by lia.
  eexists. split; [done|]. split; [|split_and!; [right; cbn; lia|done|by right]].
  constructor; cbn [type_info data size nested]; try done; [lia|by rewrite Hf, Esh|].
  right. rewrite Esh. cbn [fst]. split_and!; [lia..|].
  rewrite Z.add_mod, (Z.mul_mod e i), Hal, Z.mul_0_l by lia. rewrite (Z.mod_0_l (d + 1)) by lia.
  rewrite Z.add_0_r, Z.mod_mod by lia. lia.
Qed.
Lemma offset_size_ok n :
  0 <= n -> 0 <= gvs_get_offset_size n <= 8 /\ gvs_get_offset_size n <= n /\ (0 < n -> 1 <= gvs_get_offset_size n).
Proof. intros Hn. unfold gvs_get_offset_size. zcases; lia. Qed.

Lemma align_any d x :
  is_mask d -> 0 <= x < 2 ^ 64 ->
  u64 (x + (u64 (- x) & d)) mod (d + 1) = 0 /\ 0 <= u64 (x + (u64 (- x) & d)) < 2 ^ 64.
Proof.
  intros Hd Hx. split; [|apply wrap_range; lia]. rewrite land_mask by done. unfold wrap.
  masks; cbn [Z.add Pos.add]; zify_div.
Qed.

(** A child that is a part of the data of [s], or without data. *)
Lemma part_ok s u start end_ b n :
  good u -> base <= data s -> data s + size s <= base + zlen mem ->
  data s mod (fst (type_shape u) + 1) = 0 -> 0 <= start -> start mod (fst (type_shape u) + 1) = 0 -> n = u64 (nested s + 1) ->
  (fixed u = true -> start < end_ -> end_ = start + snd (type_shape u)) ->
  child_ok s (if (start <? end_) && (end_ <=? size s) && b
              then Serialised (Some (info_of u)) (u64 (data s + start)) (u64 (end_ - start)) n
              else Serialised (Some (info_of u)) 0 (snd (type_shape u)) n) u.
Proof.
  intros Hu Hb Hend Hal H0 Hst -> Hf. pose proof Hblock as (Hb0 & Htop & Hl & _).
  pose proof (shape_range u Hu) as [Hd Hsz].
  assert (child_ok s (Serialised (Some (info_of u)) 0 (snd (type_shape u)) (u64 (nested s + 1))) u) as Hnone.
  { split; [|split_and!; [by left|done|by left]]. constructor; cbn [type_info data size nested]; try done; [lia| |by left].
    destruct (fixed u) eqn:E; [done|]. left. by apply not_fixed. }
  destruct (Z.ltb_spec start end_) as [H1|H1]; [|done]. destruct (Z.leb_spec end_ (size s)) as [H2|H2]; [|done].
  destruct b; [|done]. cbn [andb].
  rewrite !wrap_small by lia. split; [|split_and!; [right; cbn; lia|done|right; cbn; lia]].
  constructor; cbn [type_info data size nested]; try done; [lia|destruct (fixed u); [rewrite Hf; lia|right; lia]|].
  right. split_and!; [lia..|]. rewrite Z.add_mod, Hal, Hst by lia. by rewrite Z.mod_0_l by lia.
Qed.

Lemma variable_array_safe s u :
  value_ok s (Array u) -> fixed u = false ->
  exists n, gvs_variable_sized_array_n_children base mem s = Some n /\ 0 <= n <= size s /\
    forall i, 0 <= i < n -> exists c, gvs_variable_sized_array_get_child base mem s i = Some c /\ child_ok s c u.
Proof.
  intros Hs Hf. pose proof (value_good _ _ Hs) as Hg. pose proof (good_array _ Hg) as Hu.
  assert (element_type (Array u) u) as He by by right.
  pose proof (container_place s _ Hs (element_fixed _ _ He)) as Hp. rewrite (element_shape _ _ He) in Hp. cbn [fst] in Hp.
  pose proof (value_size _ _ Hs) as H0. pose proof (offset_size_ok (size s) H0) as (Hos & Hos' & Hos1).
  pose proof Hblock as (Hb0 & Hend & Hl & _). pose proof (type_shape_ok u Hu) as [[Hm _] _].
  unfold gvs_variable_sized_array_n_children.
  destruct (Z.eqb_spec (size s) 0) as [E|Hne]; [exists 0; split; [done|]; split; [lia|]; intros; lia|].
  destruct Hp as [|(Hlt & Hb & He' & Hal)]; [done|]. specialize (Hos1 Hlt). set (os := gvs_get_offset_size (size s)) in *.
  rewrite (wrap_small 64 (data s + size s - os)) by lia.
  destruct (read_ok (data s + size s - os) os) as (last_end & El & Hlast); [lia|right; lia|].
  rewrite El. cbn [mbind option_bind]. destruct (Z.ltb_spec (size s) last_end) as [Hbig|Hle].
  { exists 0. split; [done|]. split; [lia|]. intros; lia. }
  rewrite (wrap_small 64 (size s - last_end)) by lia.
  destruct (Z.eqb_spec ((size s - last_end) mod os) 0) as [Em|Em]; cbn [negb].
  2:{ exists 0. split; [done|]. split; [lia|]. intros; lia. }
  assert (size s - last_end = os * ((size s - last_end) / os)) as Ek by (apply Z.div_exact; lia).
  set (k := (size s - last_end) / os) in *. eexists. split; [done|]. split; [nia|]. intros i Hi.
  assert (os * i + os <= size s - last_end /\ 0 <= os * i) as Hoi by nia.
  unfold gvs_variable_sized_array_get_child. fold os. rewrite (value_info _ _ Hs). cbn [mbind option_bind].
  rewrite (element_ok _ _ He Hg). cbn [mbind option_bind].
  rewrite (wrap_small 64 (data s + size s - os)) by lia. rewrite El. cbn [mbind option_bind].
  rewrite (wrap_small 64 (os * i)) by lia. rewrite (wrap_small 64 (data s + last_end + os * i)) by lia.
  destruct (read_ok (data s + last_end + os * i) os) as (end_ & Ee & Hend'); [lia|right; lia|].
  assert (exists start, (if 0 <? i then
      start ← gvs_read_unaligned_le base mem (u64 (data s + last_end + u64 (os * u64 (i - 1)))) os;
      '(alignment, _) ← xvariant_type_info_query (info_of u);
      Some (u64 (start + (u64 (- start) & alignment))) else Some 0) = Some start /\
    0 <= start /\ start mod (fst (type_shape u) + 1) = 0) as (start & -> & Hst0 & Hst).
  { destruct (Z.ltb_spec 0 i) as [Hi0|Hi0].
    - rewrite (wrap_small 64 (i - 1)) by lia. assert (os * (i - 1) = os * i - os) as Ei by lia. assert (0 <= os * (i - 1)) by nia.
      rewrite (wrap_small 64 (os * (i - 1))), (wrap_small 64 (data s + last_end + _)) by lia.
      destruct (read_ok (data s + last_end + os * (i - 1)) os) as (start & Es & Hst); [lia|right; lia|].
      rewrite Es, (query_ok u Hu). cbn [mbind option_bind]. destruct (type_shape u) as [d e]. cbn [fst] in *.
      eexists. split; [done|]. destruct (align_any d start Hm Hst). split; [lia|done].
    - exists 0. split; [done|]. split; [lia|]. apply Z.mod_0_l. pose proof (shape_range u Hu). lia. }
  cbn [mbind option_bind]. rewrite Ee. cbn [mbind option_bind]. eexists. split; [done|].
  pose proof (part_ok s u start end_ (end_ <=? last_end) _ Hu Hb He' Hal Hst0 Hst eq_refl) as Hn.
  rewrite (not_fixed u Hf) in Hn. apply Hn. by rewrite Hf.
Qed.

(** ** Tuples *)

Lemma all_fixed_items t : good t -> tuple_type t -> fixed t = true -> Forall (fun u => fixed u = true) (item_types t).
Proof.
  intros Hg Ht. unfold fixed at 1. rewrite (tuple_type_eq t Hg Ht). unfold tuple_shape. cbn [snd].
  destruct (forallb _ _) eqn:E; [|done]. intros _. rewrite forallb_forall in E. apply Forall_forall. intros u Hu.
  apply (E (type_shape u)). apply in_map. by apply list_elem_of_In.
Qed.
Lemma items_aligned t u : good t -> tuple_type t -> u ∈ item_types t -> fst (type_shape u) <= fst (type_shape t).
Proof.
  intros Hg Ht Hu. rewrite (tuple_type_eq t Hg Ht). cbn [tuple_shape fst]. apply masks_of_above.
  by apply (list_elem_of_fmap_2 type_shape).
Qed.
Lemma items_short t : good t -> zlen (item_types t) < 2 ^ 55.
Proof.
  intros (_ & _ & Hl & _). pose proof (prints_items t). pose proof (length_prints (item_types t)). unfold zlen in *. lia.
Qed.
Lemma no_data_ok s u : good u -> fixed u = true -> child_ok s (Serialised (Some (info_of u)) 0 (snd (type_shape u)) (u64 (nested s + 1))) u.
Proof.
  intros Hu Hf. pose proof (shape_range u Hu). split; [|split_and!; [by left|done|by left]].
  constructor; cbn [type_info data size nested]; try done; [lia|by rewrite Hf|by left].
Qed.
Lemma nothing_ok s u : good u -> child_ok s (Serialised (Some (info_of u)) 0 (snd (type_shape u)) (u64 (nested s + 1))) u.
Proof.
  intros Hu. destruct (fixed u) eqn:Hf; [by apply no_data_ok|]. rewrite (not_fixed u Hf).
  split; [|split_and!; [by left|done|by left]]. constructor; cbn [type_info data size nested]; try done; [rewrite Hf; by left|by left].
Qed.

Section member.
Context (s : GVariantSerialised) (t : vtype) (Hs : value_ok s t) (Ht : tuple_type t) (k : nat) (u : vtype).
Context (Hk : item_types t !! k = Some u) (fuel : nat).
Context (Hlast : S k = length (item_types t) \/
  exists c, tuple_get_child base mem fuel s (u64 (zlen (item_types t) - 1)) = Some c).

Lemma tuple_member_safe : exists c, tuple_get_child base mem (S fuel) s (Z.of_nat k) = Some c /\ child_ok s c u.
Proof.
  pose proof (value_good _ _ Hs) as Hg. pose proof (proj1 (Forall_lookup _ _) (good_items t Hg) k u Hk) as Hu.
  destruct (members_lookup t Hg k u Hk) as (m & Hm & (Hi & _ & Hal) & He). pose proof (items_short t Hg) as Hshort.
  pose proof (list_elem_of_lookup_2 _ _ _ Hk) as Hin. pose proof (shape_range u Hu) as [Hd Hsz].
  set (n := vars (map type_shape (take k (item_types t)))) in *.
  assert (0 <= n < 2 ^ 55) as Hn.
  { split; [apply vars_nonneg|]. pose proof (vars_le (map type_shape (take k (item_types t)))) as Hv. fold n in Hv.
    unfold zlen in *. rewrite length_map, length_take in Hv. lia. }
  assert (u64 (m_i m + 1) = n /\ u64 (m_i m + 2) = n + 1) as [Hi1 Hi2].
  { rewrite Hi. unfold wrap. rewrite !Z.add_mod_idemp_l by lia. split; rewrite Z.mod_small; lia. }
  pose proof (value_size _ _ Hs) as H0. pose proof (offset_size_ok (size s) H0) as (Hos & Hos' & Hos1).
  cbn [tuple_get_child]. rewrite (value_info _ _ Hs). cbn [mbind option_bind].
  rewrite (member_info_ok t _ Ht Hg). cbn [mbind option_bind]. rewrite rd_ge_0, Nat2Z.id, Hm by lia. cbn [mbind option_bind].
  rewrite (n_members_ok t Ht Hg), (query_ok u Hu), Hi1, Hi2.
  set (os := gvs_get_offset_size (size s)) in *. set (depth := u64 (nested s + 1)).
  destruct ((data s =? 0) && negb (size s =? 0)) eqn:Enull.
  { zprops. pose proof (value_fixed _ _ Hs) as Hf.
    assert (fixed u = true) as Hfu.
    { destruct (fixed t) eqn:Eft; [|lia]. by apply (proj1 (Forall_lookup _ _) (all_fixed_items t Hg Ht Eft) k u). }
    pose proof (fixed_eq u Hfu) as Hne. cbn [mbind option_bind]. destruct (type_shape u) as [d e] eqn:Esh. cbn [snd] in *.
    cbn [mbind option_bind]. rewrite (proj2 (Z.eqb_neq e 0)) by done. eexists. split; [done|].
    pose proof (no_data_ok s u Hu Hfu) as Hok. by rewrite Esh in Hok. }
  assert (data s = 0 /\ size s = 0 \/ base <= data s /\ data s + size s <= base + zlen mem /\
    data s mod (fst (type_shape t) + 1) = 0) as Hplace.
  { pose proof (value_place _ _ Hs). destruct (Z.eqb_spec (data s) 0), (Z.eqb_spec (size s) 0); cbn in Enull; try done; lia. }
  assert (forall j, 1 <= j <= n + 1 -> os * j <= size s ->
    exists v, gvs_read_unaligned_le base mem (u64 (data s + size s - u64 (os * j))) os = Some v /\ 0 <= v < 2 ^ 64) as Hread.
  { intros j Hj Hle. pose proof Hblock as (Hb0 & Htop & Hl & _). assert (0 <= os * j /\ os <= os * j) as [Hoj Hoj'] by nia.
    destruct Hplace as [[E1 E2]|(Hb & Hb' & _)]; rewrite (wrap_small 64 (os * j)), (wrap_small 64 (data s + _ - _)) by lia; apply read_ok; lia. }
  assert (forall start end_ b, 0 <= start -> start mod (fst (type_shape u) + 1) = 0 ->
    (fixed u = true -> start < end_ -> end_ = start + snd (type_shape u)) ->
    child_ok s (if (start <? end_) && (end_ <=? size s) && b
      then Serialised (Some (info_of u)) (u64 (data s + start)) (u64 (end_ - start)) depth
      else Serialised (Some (info_of u)) 0 (snd (type_shape u)) depth) u) as Hfinal.
  { intros start end_ b Hst0 Hst Hend. destruct Hplace as [[E1 E2]|(Hb & Hb' & Hal')].
    - assert ((start <? end_) && (end_ <=? size s) = false) as -> by (zcases; done || lia). by apply nothing_ok.
    - apply part_ok; try done. eapply (mask_divides _ (fst (type_shape t))); [apply type_shape_ok, Hu|apply type_shape_ok, Hg| |done].
      by apply items_aligned. }
  assert (forall end_, exists last_end, (if negb (Z.of_nat k =? u64 (zlen (item_types t) - 1)) then
      last_child ← tuple_get_child base mem fuel s (u64 (zlen (item_types t) - 1));
      Some (u64 (data last_child + size last_child - data s)) else Some end_) = Some last_end) as Hle.
  { intros end_. assert (u64 (zlen (item_types t) - 1) = zlen (item_types t) - 1) as Ew.
    { apply lookup_lt_Some in Hk. unfold zlen in *. rewrite wrap_small; lia. }
    destruct Hlast as [El|[c Ec]].
    - rewrite Ew. unfold zlen. rewrite (proj2 (Z.eqb_eq _ _)) by lia. by eexists.
    - rewrite Ec. cbn [mbind option_bind]. match goal with |- context [if ?b then _ else _] => destruct b end; eexists; reflexivity. }
  cbn [mbind option_bind] in Hle.
  assert (exists start, (if negb (n =? 0) then gvs_read_unaligned_le base mem (u64 (data s + size s - u64 (os * n))) os else Some 0) = Some start
    \/ size s < os * n) as [start Hstart].
  { destruct (Z.eqb_spec n 0); [by exists 0; left|]. destruct (Z.le_gt_cases (os * n) (size s)); [|exists 0; right; lia].
    destruct (Hread n) as (v & -> & _); [lia|done|]. exists v. by left. }
  assert (0 <= os * n < 2 ^ 60 /\ os * (n + 1) = os * n + os) as [Hon Hon1] by nia.
  rewrite (wrap_small 64 (os * n)), (wrap_small 64 (os * (n + 1))) in * by lia.
  rewrite He. unfold ending, G_VARIANT_MEMBER_ENDING_FIXED, G_VARIANT_MEMBER_ENDING_LAST, G_VARIANT_MEMBER_ENDING_OFFSET.
  fold (fixed u). destruct (fixed u) eqn:Hf; cbn [Z.eqb andb negb].
  - assert (size s < os * n \/ os * n <= size s) as [Hlt|Hle'] by lia.
    + rewrite (proj2 (Z.ltb_lt _ _) Hlt). pose proof (nothing_ok s u Hu) as Hok.
      destruct (type_shape u) as [d e]. cbn [mbind option_bind]. eexists. by split.
    + destruct Hstart as [Hstart|]; [|lia]. rewrite (proj2 (Z.ltb_ge _ _) Hle'), Hstart. cbn [mbind option_bind].
      destruct (Hal start) as [Ha Hr].
      destruct (type_shape u) as [d e]. cbn [mbind option_bind fst snd] in *.
      destruct (Hle (u64 (member_start start m + e))) as [last_end ->]. cbn [mbind option_bind]. eexists. split; [done|].
      rewrite <- andb_assoc, (andb_comm (_ <=? _)), andb_assoc. rewrite <- andb_assoc, (andb_comm (_ <=? last_end)), andb_assoc.
      apply Hfinal; [lia|done|]. intros _ Hlt. unfold wrap in *. zify_div.
  - rewrite (not_fixed u Hf) in Hfinal. pose proof (nothing_ok s u Hu) as Hok. rewrite (not_fixed u Hf) in Hok.
    destruct (S k =? length (item_types t))%nat; cbn [Z.eqb Pos.eqb andb negb].
    + assert (size s < os * n \/ os * n <= size s) as [Hlt|Hle'] by lia.
      * rewrite (proj2 (Z.ltb_lt _ _) Hlt). pose proof (not_fixed u Hf) as Hz. destruct (type_shape u) as [d e].
        cbn [mbind option_bind snd] in *. rewrite Hz. eexists. by split.
      * destruct Hstart as [Hstart|]; [|lia]. rewrite (proj2 (Z.ltb_ge _ _) Hle'), Hstart. cbn [mbind option_bind].
        destruct (Hal start) as [Ha Hr]. destruct (Hle (u64 (size s - os * n))) as [last_end ->]. cbn [mbind option_bind].
        eexists. split; [done|]. apply Hfinal; [lia|done|done].
    + assert (size s < os * n + os \/ os * n + os <= size s) as [Hlt|Hle'] by lia.
      * rewrite Hon1, (proj2 (Z.ltb_lt _ _) Hlt). eexists. by split.
      * destruct Hstart as [Hstart|]; [|lia].
        destruct (Hread (n + 1)) as (end_ & Ee & _); [lia|lia|].
        rewrite Hon1 in Ee |- *. rewrite (proj2 (Z.ltb_ge _ _) Hle'), Hstart. cbn [mbind option_bind].
        destruct (Hal start) as [Ha Hr]. rewrite (wrap_small 64 (os * n + os)) in Ee by lia. rewrite Ee. cbn [mbind option_bind].
        destruct (Hle end_) as [last_end ->]. cbn [mbind option_bind].
        eexists. split; [done|]. apply Hfinal; [lia|done|done].
Qed.
End member.

Lemma tuple_safe s t :
  value_ok s t -> tuple_type t ->
  gvs_tuple_n_children s = Some (zlen (item_types t)) /\
  forall k u, item_types t !! k = Some u ->
    exists c, gvs_tuple_get_child base mem s (Z.of_nat k) = Some c /\ child_ok s c u.
Proof.
  intros Hs Ht. pose proof (value_good _ _ Hs) as Hg. split.
  - unfold gvs_tuple_n_children. rewrite (value_info _ _ Hs). cbn [mbind option_bind]. by apply n_members_ok.
  - intros k u Hk. unfold gvs_tuple_get_child. apply tuple_member_safe with (t := t); try done. right.
    assert (exists n, length (item_types t) = S n) as [n En].
    { apply lookup_lt_Some in Hk. exists (pred (length (item_types t))). lia. }
    destruct (lookup_lt_is_Some_2 (item_types t) n) as [v Hv]; [lia|].
    destruct (tuple_member_safe s t Hs Ht n v Hv 0) as (c & Hc & _); [left; lia|]. exists c. rewrite <- Hc. f_equal.
    pose proof (items_short t Hg). unfold zlen in *. rewrite wrap_small by lia. lia.
Qed.

(** ** Variants *)

Lemma find_nul_safe s fuel n :
  base <= data s -> data s + size s <= base + zlen mem -> 0 <= n < size s -> (Z.to_nat n <= fuel)%nat ->
  exists m, find_nul base mem fuel s n = Some m /\ 0 <= m <= n.
Proof.
  intros H1 H2. revert n. induction fuel as [|fuel IH]; intros n Hn Hf; cbn [find_nul];
    (destruct (Z.eqb_spec n 0); [exists n; split; [done|lia]|]); [lia|].
  destruct (load_ok (data s + n)) as (c & -> & _); [lia|]. cbn [mbind option_bind].
  destruct (c =? 0); [exists n; split; [done|lia]|]. destruct (IH (n - 1)) as (m & Hm & Hr); [lia..|].
  exists m. split; [done|lia].
Qed.

(** A definite type of at most 128 nested containers that memory has room for. *)
Lemma scanned_good p t : denotes mem p t -> definite t = true -> (nesting t <= 128)%nat -> good t.
Proof.
  intros Hd Hdef Hn. pose proof (print_bound mem p t Hd). destruct Hblock as (_ & _ & Hl & _).
  split_and!; [apply Hd|done|lia|unfold shallow; lia].
Qed.

Lemma variant_type_safe s :
  value_ok s (Leaf 118) ->
  exists r, variant_type_string base mem s = Some r /\ forall p n, r = Some (p, n) ->
    0 <= n < size s /\ exists t, denotes mem (p - base) t /\ good t /\ (nesting t <= 128)%nat /\ p = data s + n + 1 /\
      p + zlen (print t) = data s + size s.
Proof.
  intros Hs. pose proof (container_place s _ Hs eq_refl) as Hp. unfold variant_type_string.
  destruct (Z.eqb_spec (size s) 0) as [E|Hne]; [by exists None|]. destruct Hp as [|(Hlt & Hb & He & _)]; [done|].
  destruct (find_nul_safe s (Z.to_nat (size s)) (size s - 1)) as (n & En & Hn); [lia..|]. rewrite En. cbn [mbind option_bind].
  destruct (load_ok (data s + n)) as (c & -> & _); [lia|]. cbn [mbind option_bind].
  destruct (c =? 0); cbn [negb]; [|by exists None].
  destruct (scan_exact mem (Some (data s + size s - base)) (data s + n + 1 - base)) as (r & Er & Hr).
  { split; [lia|]. lia. }
  unfold xvariant_type_string_scan. rewrite Er. cbn [mbind option_bind].
  destruct r as [[e dep]|]; cbn [option_map fst]; [|by exists None].
  destruct (Z.eqb_spec e (data s + size s - base)) as [Ee|]; cbn [negb]; [|by exists None].
  destruct (proj1 (Hr e dep) eq_refl) as (t & Hd & Hnest & _ & Hlen & _).
  rewrite (is_definite_ok mem _ t) by (done || unfold shallow; lia). cbn [mbind option_bind].
  eexists. split; [done|]. intros p m. destruct (definite t) eqn:Hdef; [|done]. intros [= <- <-]. split; [lia|].
  exists t. split_and!; [done|by eapply scanned_good|done|done|lia].
Qed.

Lemma good_unit : good (Tuple []).
Proof. by split_and!. Qed.

(** The depth of a type is checked against what the recursion limit leaves; a
    type of depth 129, which the scanner accepts, makes the difference wrap around. *)
Definition within_limit s u : Prop :=
  (nesting u <= 128)%nat /\ (u = Tuple [] \/ nested s + depth u < 128 \/ depth u = 129).

Lemma depth_nesting t : depth t <= Z.of_nat (nesting t) + 1.
Proof.
  induction t as [c|t IH|t IH|ts IH|k v IH] using vtype_ind'; cbn [depth nesting]; try lia.
  induction IH as [|t ts Ht _ IHts]; cbn [foldr]; lia.
Qed.

Lemma variant_safe s i :
  value_ok s (Leaf 118) -> 0 <= nested s ->
  exists c u, gvs_variant_get_child base mem s i = Some c /\ child_ok s c u /\ within_limit s u.
Proof.
  intros Hs Hns. pose proof (container_place s _ Hs eq_refl) as Hp. unfold gvs_variant_get_child.
  destruct (variant_type_safe s Hs) as (r & -> & Hr). cbn [mbind option_bind].
  assert (exists c u, (info ← xvariant_type_info_get unit_type 0;
      Some (Serialised (Some info) 0 1 (u64 (nested s + 1)))) = Some c /\ child_ok s c u /\ within_limit s u) as Hunit.
  { rewrite (info_get_ok unit_type 0 (Tuple [])); [|by split; [done|by exists [], [0]]|apply good_unit].
    cbn [mbind option_bind].  eexists. exists (Tuple []). split; [done|]. split; [|split; [cbn [nesting foldr]; lia|by left]]. by apply (no_data_ok s (Tuple []) good_unit). }
  destruct r as [[p n]|]; [|exact Hunit].
  destruct (Hr p n eq_refl) as (Hn & t & Hd & Hg & Hnest & -> & Hlen).
  rewrite (info_get_ok mem _ t Hd Hg). cbn [mbind option_bind]. rewrite (query_ok t Hg), (query_depth_ok t Hg Hnest).
  destruct (type_shape t) as [d e] eqn:Esh. cbn [mbind option_bind].
  destruct (((e =? 0) || (e =? n)) && (nested s <? u64 (max_depth - depth t))) eqn:Eok; [|exact Hunit].
  apply andb_prop in Eok as [Ef Edep]. do 2 eexists. split; [done|].
  pose proof (type_shape_ok t Hg) as [[Hm _] _]. rewrite Esh in Hm. cbn [fst] in Hm.
  pose proof (depth_nesting t). pose proof (depth_nonneg t). destruct Hblock as (Hb0 & _).
  destruct Hp as [|(Hlt & Hb & He & Hal)]; [lia|]. cbn in Hal. split.
  - split; [|split_and!; [|done|]]; cbn [data size].
    + constructor; cbn [type_info data size nested]; try done; [lia| |].
      * unfold fixed. rewrite Esh. cbn [snd]. destruct (Z.eqb_spec e 0) as [->|]; cbn [negb orb] in *; [|lia].
        destruct (Z.eqb_spec n 0); cbn [negb]; [by left|right; lia].
      * destruct (Z.eqb_spec n 0); cbn [negb]; [by left|right]. split_and!; [lia..|].
        rewrite Esh. cbn [fst]. apply (mask_divides d 7); [done|by right; right; right|apply mask_range in Hm; lia|done].
    + unfold inside. cbn [data size]. destruct (Z.eqb_spec n 0); cbn [negb]; [by left|right; lia].
    + destruct (Z.eqb_spec n 0); cbn [negb]; [by left|by right].
  - split; [done|]. right. change max_depth with 128 in Edep. destruct (Z.eq_dec (depth t) 129); [by right|left].
    rewrite wrap_small in Edep by lia. lia.
Qed.
End reading.
