(* ===== verification/SerialiserWrite.v ===== *)
(** * Writing the data of containers: src/glib/gvariant-serialiser.c

    The children are told what to do by a callback, which fills in the
    description of a child and stores it; it works on memory and on a state of
    its own. *)

From S2P Require Import Prelude.
From S2P Require Import VariantType.
From S2P Require Import VariantInfo.
From S2P Require Import Serialiser.
Local Open Scope Z_scope.
Local Open Scope xpl_scope.

Section writing.
Context (base : Z).

(** [*p = x] and [memcpy (p, bytes, length bytes)]. *)
Definition store (mem : list Z) (p x : Z) : option (list Z) := wr mem (p - base) x.
Definition store_bytes (mem : list Z) (p : Z) (bytes : list Z) : option (list Z) := write_at mem (p - base) bytes.

Definition gvs_write_unaligned_le (mem : list Z) (bytes value size : Z) : option (list Z) :=
  store_bytes mem bytes (take (Z.to_nat size) (le_bytes 8 value)).

(** Children and the callback's state; [GVariantSerialisedFiller]. *)
Context {A W : Type} (gvs_filler : GVariantSerialised -> A -> list Z * W -> option (GVariantSerialised * (list Z * W))).

(** [{ 0, }] *)
Definition no_value : GVariantSerialised := Serialised None 0 0 0.

(** ** Sizes *)

Definition gvs_fixed_sized_maybe_needed_size (info : GVariantTypeInfo) (children : list A) (st : list Z * W) :
    option (Z * (list Z * W)) :=
  if negb (zlen children =? 0) then
    '(_, element_fixed_size) ← xvariant_type_info_query_element info;
    Some (element_fixed_size, st)
  else Some (0, st).

Definition gvs_variable_sized_maybe_needed_size (info : GVariantTypeInfo) (children : list A) (st : list Z * W) :
    option (Z * (list Z * W)) :=
  match children with
  | [] => Some (0, st)
  | x :: _ => '(child, st) ← gvs_filler no_value x st; Some (u64 (size child + 1), st)
  end.

Definition gvs_fixed_sized_array_needed_size (info : GVariantTypeInfo) (children : list A) (st : list Z * W) :
    option (Z * (list Z * W)) :=
  '(_, element_fixed_size) ← xvariant_type_info_query_element info;
  Some (u64 (element_fixed_size * zlen children), st).

(** [offset += (-offset) & alignment] *)
Definition align_to (offset alignment : Z) : Z := u64 (offset + (u64 (- offset) & alignment)).

Fixpoint array_size_loop (alignment : Z) (children : list A) (offset : Z) (st : list Z * W) : option (Z * (list Z * W)) :=
  match children with
  | [] => Some (offset, st)
  | x :: children =>
      let offset := align_to offset alignment in
      '(child, st) ← gvs_filler no_value x st;
      array_size_loop alignment children (u64 (offset + size child)) st
  end.
Definition gvs_variable_sized_array_needed_size (info : GVariantTypeInfo) (children : list A) (st : list Z * W) :
    option (Z * (list Z * W)) :=
  '(alignment, _) ← xvariant_type_info_query info;
  '(offset, st) ← array_size_loop alignment children 0 st;
  Some (gvs_calculate_total_size offset (zlen children), st).

(** The loop also leaves the last member's [i]. *)
Fixpoint tuple_size_loop (info : GVariantTypeInfo) (children : list A) (i offset : Z) (last : option Z) (st : list Z * W) :
    option (Z * option Z * (list Z * W)) :=
  match children with
  | [] => Some (offset, last, st)
  | x :: children =>
      member ← xvariant_type_info_member_info info i;
      '(child_info, member_info) ← member;
      '(alignment, fixed_size) ← xvariant_type_info_query child_info;
      let offset := align_to offset alignment in
      '(offset, st) ← (if negb (fixed_size =? 0) then Some (u64 (offset + fixed_size), st)
                       else '(child, st) ← gvs_filler no_value x st; Some (u64 (offset + size child), st));
      tuple_size_loop info children (i + 1) offset (Some (m_i member_info)) st
  end.
Definition gvs_tuple_needed_size (info : GVariantTypeInfo) (children : list A) (st : list Z * W) :
    option (Z * (list Z * W)) :=
  '(_, fixed_size) ← xvariant_type_info_query info;
  if negb (fixed_size =? 0) then Some (fixed_size, st)
  else
    '(offset, last, st) ← tuple_size_loop info children 0 0 None st;
    i ← last;
    Some (gvs_calculate_total_size offset (u64 (i + 1)), st).

(** [strlen] of a string that is terminated. *)
Definition strlen (l : list Z) : Z := zlen (cstr l).

Definition gvs_variant_needed_size (info : GVariantTypeInfo) (children : list A) (st : list Z * W) :
    option (Z * (list Z * W)) :=
  x ← head children;
  '(child, st) ← gvs_filler no_value x st;
  child_info ← type_info child;
  type_string ← xvariant_type_info_get_type_string child_info;
  Some (u64 (size child + 1 + strlen type_string), st).

Definition needed_size_of (k : kind) : GVariantTypeInfo -> list A -> list Z * W -> option (Z * (list Z * W)) :=
  match k with
  | FixedMaybe => gvs_fixed_sized_maybe_needed_size
  | VariableMaybe => gvs_variable_sized_maybe_needed_size
  | FixedArray => gvs_fixed_sized_array_needed_size
  | VariableArray => gvs_variable_sized_array_needed_size
  | TupleKind => gvs_tuple_needed_size
  | VariantKind => gvs_variant_needed_size
  end.
Definition xvariant_serialiser_needed_size (info : GVariantTypeInfo) (children : list A) (st : list Z * W) :
    option (Z * (list Z * W)) :=
  k ← DISPATCH_CASES info; k ← k; needed_size_of k info children st.

(** ** Data *)

Definition gvs_fixed_sized_maybe_serialise (value : GVariantSerialised) (children : list A) (st : list Z * W) :
    option (list Z * W) :=
  match children with
  | [] => Some st
  | x :: _ =>
      '(_, st) ← gvs_filler (Serialised None (data value) (size value) (u64 (nested value + 1))) x st;
      Some st
  end.

Definition gvs_variable_sized_maybe_serialise (value : GVariantSerialised) (children : list A) (st : list Z * W) :
    option (list Z * W) :=
  match children with
  | [] => Some st
  | x :: _ =>
      '(child, (mem, w)) ← gvs_filler (Serialised None (data value) (u64 (size value - 1)) (u64 (nested value + 1))) x st;
      mem ← store mem (data value + size child) 0;
      Some (mem, w)
  end.

(** The callback works on the same [child] again and again. *)
Fixpoint fixed_array_loop (children : list A) (child : GVariantSerialised) (st : list Z * W) : option (list Z * W) :=
  match children with
  | [] => Some st
  | x :: children =>
      '(child, st) ← gvs_filler child x st;
      fixed_array_loop children
        (Serialised (type_info child) (u64 (data child + size child)) (size child) (nested child)) st
  end.
Definition gvs_fixed_sized_array_serialise (value : GVariantSerialised) (children : list A) (st : list Z * W) :
    option (list Z * W) :=
  info ← type_info value;
  element ← xvariant_type_info_element info;
  '(_, size) ← xvariant_type_info_query element;
  fixed_array_loop children (Serialised (Some element) (data value) size (u64 (nested value + 1))) st.

(** [while (offset & alignment) value.data[offset++] = '\0'] *)
Fixpoint pad (fuel : nat) (mem : list Z) (data offset alignment : Z) : option (Z * list Z) :=
  if offset & alignment =? 0 then Some (offset, mem)
  else
    match fuel with
    | O => None
    | S fuel => mem ← store mem (data + offset) 0; pad fuel mem data (offset + 1) alignment
    end.
(** An alignment is at most 8. *)
Definition pad_fuel : nat := 8.

Fixpoint array_write_loop (value : GVariantSerialised) (alignment offset_size : Z) (children : list A)
    (offset offset_ptr : Z) (st : list Z * W) : option (list Z * W) :=
  match children with
  | [] => Some st
  | x :: children =>
      let '(mem, w) := st in
      '(offset, mem) ← pad pad_fuel mem (data value) offset alignment;
      '(child, (mem, w)) ← gvs_filler (Serialised None (u64 (data value + offset)) 0 0) x (mem, w);
      let offset := u64 (offset + size child) in
      mem ← gvs_write_unaligned_le mem offset_ptr offset offset_size;
      array_write_loop value alignment offset_size children offset (offset_ptr + offset_size) (mem, w)
  end.
Definition gvs_variable_sized_array_serialise (value : GVariantSerialised) (children : list A) (st : list Z * W) :
    option (list Z * W) :=
  info ← type_info value;
  '(alignment, _) ← xvariant_type_info_query info;
  let offset_size := gvs_get_offset_size (size value) in
  let offset_ptr := u64 (data value + size value - u64 (offset_size * zlen children)) in
  array_write_loop value alignment offset_size children 0 offset_ptr st.

(** The loop leaves the offset and [value.size]. *)
Fixpoint tuple_write_loop (value : GVariantSerialised) (info : GVariantTypeInfo) (offset_size : Z) (children : list A)
    (i offset value_size : Z) (st : list Z * W) : option (Z * Z * (list Z * W)) :=
  match children with
  | [] => Some (offset, value_size, st)
  | x :: children =>
      let '(mem, w) := st in
      member ← xvariant_type_info_member_info info i;
      '(child_info, member_info) ← member;
      '(alignment, _) ← xvariant_type_info_query child_info;
      '(offset, mem) ← pad pad_fuel mem (data value) offset alignment;
      '(child, (mem, w)) ← gvs_filler (Serialised None (u64 (data value + offset)) 0 0) x (mem, w);
      let offset := u64 (offset + size child) in
      '(value_size, mem) ←
        (if ending_type member_info =? G_VARIANT_MEMBER_ENDING_OFFSET then
           let value_size := u64 (value_size - offset_size) in
           mem ← gvs_write_unaligned_le mem (u64 (data value + value_size)) offset offset_size;
           Some (value_size, mem)
         else Some (value_size, mem));
      tuple_write_loop value info offset_size children (i + 1) offset value_size (mem, w)
  end.
(** [while (offset < value.size) value.data[offset++] = '\0'] *)
Fixpoint fill_zero (n : nat) (mem : list Z) (data offset value_size : Z) : option (list Z) :=
  if offset <? value_size then
    match n with
    | O => None
    | S n => mem ← store mem (data + offset) 0; fill_zero n mem data (offset + 1) value_size
    end
  else Some mem.
Definition gvs_tuple_serialise (value : GVariantSerialised) (children : list A) (st : list Z * W) :
    option (list Z * W) :=
  info ← type_info value;
  '(offset, value_size, (mem, w)) ←
    tuple_write_loop value info (gvs_get_offset_size (size value)) children 0 0 (size value) st;
  mem ← fill_zero (Z.to_nat (value_size - offset)) mem (data value) offset value_size;
  Some (mem, w).

Definition gvs_variant_serialise (value : GVariantSerialised) (children : list A) (st : list Z * W) :
    option (list Z * W) :=
  x ← head children;
  '(child, (mem, w)) ← gvs_filler (Serialised None (data value) 0 0) x st;
  child_info ← type_info child;
  type_string ← xvariant_type_info_get_type_string child_info;
  mem ← store mem (data value + size child) 0;
  mem ← store_bytes mem (data value + size child + 1) (cstr type_string);
  Some (mem, w).

Definition serialise_of (k : kind) : GVariantSerialised -> list A -> list Z * W -> option (list Z * W) :=
  match k with
  | FixedMaybe => gvs_fixed_sized_maybe_serialise
  | VariableMaybe => gvs_variable_sized_maybe_serialise
  | FixedArray => gvs_fixed_sized_array_serialise
  | VariableArray => gvs_variable_sized_array_serialise
  | TupleKind => gvs_tuple_serialise
  | VariantKind => gvs_variant_serialise
  end.
Definition xvariant_serialiser_serialise (serialised : GVariantSerialised) (children : list A) (st : list Z * W) :
    option (list Z * W) :=
  assert_ok (xvariant_serialised_check serialised)
    (info ← type_info serialised; k ← DISPATCH_CASES info; k ← k; serialise_of k serialised children st).
End writing.
