(* ===== verification/SerialiserSpec.v ===== *)
(** * The format of serialised containers

    What the bytes of a container are, from those of its children: laid out one
    after the other, each aligned with zero bytes, and behind them the ends of
    those whose size the type does not tell, in as few bytes as will do. *)

From S2P Require Import Prelude VariantType VariantSpec VariantInfo VariantInfos Serialiser.
Local Open Scope Z_scope.

(** A child: its type and its bytes. *)
Abbreviation item := (vtype * list Z)%type.

Definition zeros (n : Z) : list Z := replicate (Z.to_nat n) 0.
(** Zero bytes up to the next multiple of [d + 1]. *)
Definition padding (d n : Z) : list Z := zeros (up d n - n).
Definition place (acc : list Z) (x : item) : list Z := acc ++ padding (mask (fst x)) (zlen acc) ++ snd x.
(** The children, one after the other. *)
Definition body (l : list item) : list Z := foldl place [] l.
(** Where each ends. *)
Fixpoint ends_from (acc : list Z) (l : list item) : list Z :=
  match l with [] => [] | x :: l => zlen (place acc x) :: ends_from (place acc x) l end.
Definition body_ends (l : list item) : list Z := ends_from [] l.

(** As few bytes for each of [n] offsets as will do for the whole. *)
Definition width (size n : Z) : Z :=
  if size + n <? 2 ^ 8 then 1 else if size + 2 * n <? 2 ^ 16 then 2 else if size + 4 * n <? 2 ^ 32 then 4 else 8.
Definition offsets (w : Z) (l : list Z) : list Z := concat (map (le_bytes (Z.to_nat w)) l).

(** The ends a tuple has to store: of the items of variable size, but for the last item. *)
Definition var_ends (l : list item) : list Z :=
  concat (zip_with (fun x e => if fixed (fst x) then [] else [e]) l (body_ends l)).
Definition stored_ends (l : list item) : list Z := var_ends (removelast l).

(** The bytes of a container of type [t]. *)
Definition container_bytes (t : vtype) (l : list item) : list Z :=
  let chunks := map snd l in
  match t with
  | Maybe u => match l with [] => [] | (_, b) :: _ => b ++ (if fixed u then [] else [0]) end
  | Array u =>
      if fixed u then concat chunks
      else let b := body l in b ++ offsets (width (zlen b) (zlen l)) (body_ends l)
  | Tuple _ | Entry _ _ =>
      let b := body l in
      if fixed t then match l with [] => [0] | _ => b ++ padding (mask t) (zlen b) end
      else let e := stored_ends l in b ++ offsets (width (zlen b) (zlen e)) (rev e)
  | Leaf _ => match l with [] => [] | (u, b) :: _ => b ++ [0] ++ print u end
  end.

(** Children a container can have: bytes that are as long as their type says. *)
Definition item_ok (x : item) : Prop :=
  good (fst x) /\ Forall is_byte (snd x) /\ (fixed (fst x) = true -> zlen (snd x) = snd (type_shape (fst x))).
Definition children_ok (t : vtype) (l : list item) : Prop :=
  Forall item_ok l /\
  match t with
  | Maybe u => (length l <= 1)%nat /\ Forall (fun x => fst x = u) l
  | Array u => Forall (fun x => fst x = u) l
  | Tuple _ | Entry _ _ => map fst l = item_types t
  | Leaf c => c = 118 /\ length l = 1%nat
  end.

(** ** Numbers *)

Lemma take_le_bytes n v : (n <= 8)%nat -> take n (le_bytes 8 v) = le_bytes n v.
Proof.
  generalize 8%nat. revert v. induction n as [|n IH]; intros v m Hn; [done|]. destruct m as [|m]; [lia|].
  cbn [le_bytes take]. f_equal. apply IH. lia.
Qed.

(** ** Offsets *)

Lemma width_cases size n : width size n = 1 \/ width size n = 2 \/ width size n = 4 \/ width size n = 8.
Proof. unfold width. zcases; lia. Qed.
(** The program finds the width from the size alone. *)
Lemma width_of_total size n :
  0 <= size -> 0 < n -> gvs_get_offset_size (size + width size n * n) = width size n.
Proof. intros Hs Hn. unfold gvs_get_offset_size, width. zcases; lia. Qed.
Lemma calculate_total_ok size n :
  0 <= size -> 0 <= n -> size + 8 * n < 2 ^ 64 -> gvs_calculate_total_size size n = size + width size n * n.
Proof.
  intros Hs Hn Hl. unfold gvs_calculate_total_size, width.
  rewrite (wrap_small 64 (1 * n)), (wrap_small 64 (2 * n)), (wrap_small 64 (4 * n)), (wrap_small 64 (8 * n)) by lia.
  rewrite (wrap_small 64 (size + 1 * n)), (wrap_small 64 (size + 2 * n)), (wrap_small 64 (size + 4 * n)),
    (wrap_small 64 (size + 8 * n)) by lia.
  zcases; lia.
Qed.
(** Offsets into the whole fit. *)
Lemma width_fits size n e : 0 <= n -> 0 <= e <= size -> size < 2 ^ 60 -> 0 <= e < 256 ^ width size n.
Proof.
  intros Hn He Hs. unfold width.
  destruct (Z.ltb_spec (size + n) (2 ^ 8)); [change (256 ^ 1) with (2 ^ 8); lia|].
  destruct (Z.ltb_spec (size + 2 * n) (2 ^ 16)); [change (256 ^ 2) with (2 ^ 16); lia|].
  destruct (Z.ltb_spec (size + 4 * n) (2 ^ 32)); [change (256 ^ 4) with (2 ^ 32)|change (256 ^ 8) with (2 ^ 64)]; lia.
Qed.

Lemma zlen_offsets w l : 0 <= w -> zlen (offsets w l) = w * zlen l.
Proof.
  intros Hw. unfold offsets. induction l as [|e l IH]; [change (0 = w * 0); lia|]. cbn [map concat].
  rewrite zlen_app, zlen_le_bytes, IH, zlen_cons. lia.
Qed.
Lemma offsets_app w l k : offsets w (l ++ k) = offsets w l ++ offsets w k.
Proof. unfold offsets. by rewrite map_app, concat_app. Qed.

Lemma offsets_one w e : offsets w [e] = le_bytes (Z.to_nat w) e.
Proof. unfold offsets. cbn [map concat]. by rewrite app_nil_r. Qed.

Lemma offsets_cons w e l : offsets w (e :: l) = le_bytes (Z.to_nat w) e ++ offsets w l.
Proof. done. Qed.

(** ** The body *)

Lemma zlen_zeros n : 0 <= n -> zlen (zeros n) = n.
Proof. intros Hn. unfold zlen, zeros. rewrite length_replicate. lia. Qed.
Lemma zlen_padding d n : is_mask d -> zlen (padding d n) = up d n - n.
Proof. intros Hd. apply zlen_zeros. pose proof (up_bounds d n Hd). lia. Qed.
Lemma zlen_place acc x : is_mask (mask (fst x)) -> zlen (place acc x) = up (mask (fst x)) (zlen acc) + zlen (snd x).
Proof. intros Hd. unfold place. rewrite !zlen_app, zlen_padding by done. lia. Qed.
Lemma body_snoc l x : body (l ++ [x]) = place (body l) x.
Proof. unfold body. by rewrite foldl_snoc. Qed.
Lemma body_app l k : exists rest, body (l ++ k) = body l ++ rest.
Proof.
  induction k as [|x k IH] using rev_ind; [exists []; by rewrite !app_nil_r|]. destruct IH as [rest E].
  rewrite app_assoc, body_snoc. unfold place at 1. rewrite E. eexists. by rewrite <- app_assoc.
Qed.
Lemma ends_from_snoc acc l x : ends_from acc (l ++ [x]) = ends_from acc l ++ [zlen (foldl place acc (l ++ [x]))].
Proof. revert acc. induction l as [|y l IH]; intros acc; cbn [app ends_from foldl]; [done|]. by rewrite IH. Qed.
Lemma body_ends_snoc l x : body_ends (l ++ [x]) = body_ends l ++ [zlen (body (l ++ [x]))].
Proof. apply ends_from_snoc. Qed.
Lemma length_body_ends l : length (body_ends l) = length l.
Proof. induction l as [|x l IH] using rev_ind; [done|]. by rewrite body_ends_snoc, !length_app, IH. Qed.
Lemma var_ends_snoc l x :
  var_ends (l ++ [x]) = var_ends l ++ (if fixed (fst x) then [] else [zlen (body (l ++ [x]))]).
Proof.
  unfold var_ends. rewrite body_ends_snoc, zip_with_app, concat_app by (by rewrite length_body_ends).
  cbn [zip_with concat]. by rewrite app_nil_r.
Qed.
Lemma stored_ends_snoc l x : stored_ends (l ++ [x]) = var_ends l.
Proof. unfold stored_ends. by rewrite removelast_last. Qed.
Lemma zlen_var_ends l : zlen (var_ends l) = vars (map type_shape (map fst l)).
Proof.
  induction l as [|x l IH] using rev_ind; [done|].
  rewrite var_ends_snoc, !map_app, vars_app, zlen_app, IH. f_equal. cbn [map].
  change [type_shape (fst x)] with ([] ++ [type_shape (fst x)]). rewrite vars_snoc. unfold fixed.
  by destruct (snd (type_shape (fst x)) =? 0).
Qed.

Lemma body_ends_app (l k : list item) : exists e, body_ends (l ++ k) = body_ends l ++ e.
Proof.
  induction k as [|x k [e IH]] using rev_ind; [exists []; by rewrite !app_nil_r|].
  rewrite app_assoc, body_ends_snoc, IH. eexists. by rewrite <- app_assoc.
Qed.
Lemma var_ends_app (l k : list item) : exists e, var_ends (l ++ k) = var_ends l ++ e.
Proof.
  induction k as [|x k [e IH]] using rev_ind; [exists []; by rewrite !app_nil_r|].
  rewrite app_assoc, var_ends_snoc, IH. eexists. by rewrite <- app_assoc.
Qed.

Lemma stored_fixed (l : list item) : Forall (fun x : item => fixed (fst x) = true) l -> stored_ends l = [].
Proof.
  assert (forall k : list item, Forall (fun x : item => fixed (fst x) = true) k -> var_ends k = []) as Hv.
  { intros k. induction k as [|x k IH] using rev_ind; [done|]. intros [Hk' [Hx _]%Forall_cons]%Forall_app.
    rewrite var_ends_snoc, (IH Hk'). cbv beta in Hx. by rewrite Hx. }
  intros Hl. unfold stored_ends. apply Hv. destruct l as [|x l _] using rev_ind; [done|].
  rewrite removelast_last. by apply Forall_app in Hl as [Hl _].
Qed.

(** A body only grows. *)
Lemma place_grows acc x : is_mask (mask (fst x)) -> zlen acc <= up (mask (fst x)) (zlen acc) <= zlen (place acc x).
Proof.
  intros Hd. rewrite zlen_place by done. pose proof (up_bounds _ (zlen acc) Hd). pose proof (zlen_nonneg (snd x)). lia.
Qed.
Lemma item_mask x : item_ok x -> is_mask (mask (fst x)).
Proof. intros [Hg _]. apply type_shape_ok, Hg. Qed.
Lemma fold_grows acc l : Forall item_ok l -> zlen acc <= zlen (foldl place acc l).
Proof.
  intros Hl. revert acc. induction Hl as [|x l Hx _ IH]; intros acc; cbn [foldl]; [lia|].
  pose proof (place_grows acc x (item_mask x Hx)). specialize (IH (place acc x)). lia.
Qed.
Lemma place_bytes acc x : item_ok x -> Forall is_byte acc -> Forall is_byte (place acc x).
Proof.
  intros (_ & Hx & _) Ha. unfold place, padding, zeros. rewrite !Forall_app. split_and!; [done| |done].
  apply Forall_replicate. unfold is_byte. lia.
Qed.

Lemma print_bytes t : valid t = true -> Forall is_byte (print t).
Proof.
  induction t as [c|t IH|t IH|ts IH|k v IH] using vtype_ind'; intros Hv; cbn [print].
  - constructor; [|constructor]. cbn [valid] in Hv. unfold is_byte. known_char Hv; lia.
  - constructor; [done|auto].
  - constructor; [done|auto].
  - constructor; [done|]. apply Forall_app. split; [|by repeat constructor].
    cbn [valid] in Hv. induction IH as [|t ts Ht _ IHts]; [constructor|]. cbn [forallb concat map] in *.
    apply andb_prop in Hv as [Hv Hvs]. apply Forall_app. auto.
  - cbn [valid] in Hv. apply andb_prop in Hv as [Hk Hv]. constructor; [done|]. constructor.
    + unfold is_byte. known_char Hk; lia.
    + apply Forall_app. split; [auto|by repeat constructor].
Qed.
Lemma body_bytes (l : list item) : Forall item_ok l -> Forall is_byte (body l).
Proof.
  intros Hl. unfold body. assert (Forall is_byte []) as Ha by constructor. revert Ha. generalize (@nil Z).
  induction Hl as [|x l Hx _ IH]; intros acc Ha; cbn [foldl]; [done|]. apply IH. by apply place_bytes.
Qed.
Lemma offsets_bytes w l : Forall is_byte (offsets w l).
Proof. induction l as [|e l IH]; [constructor|]. rewrite offsets_cons. apply Forall_app. split; [apply le_bytes_ok|done]. Qed.
Lemma container_is_bytes t (l : list item) : children_ok t l -> Forall is_byte (container_bytes t l).
Proof.
  intros [Hi Hc]. pose proof (body_bytes l Hi) as Hb.
  assert (Forall is_byte (concat (map snd l))) as Hcat.
  { clear Hc Hb. induction Hi as [|x l (_ & Hx & _) _ IH]; [constructor|]. cbn [map concat]. by apply Forall_app. }
  assert (tuple_type t -> Forall is_byte (container_bytes t l)) as Htuple.
  { intros Ht. destruct t; try done; cbn [container_bytes]; (destruct (fixed _);
      [destruct l; [by repeat constructor|apply Forall_app; split; [done|apply Forall_replicate; done]]|
       apply Forall_app; split; [done|apply offsets_bytes]]). }
  destruct t as [c|u|u|ts|k v]; try (by apply Htuple); cbn [container_bytes].
  - destruct l as [|[u b] l]; [constructor|]. apply Forall_cons in Hi as [(Hg & Hbb & _) _]. apply Forall_app. split; [done|].
    constructor; [done|]. apply print_bytes, Hg.
  - destruct l as [|[u' b] l]; [constructor|]. apply Forall_cons in Hi as [(Hg & Hbb & _) _]. apply Forall_app. split; [done|].
    destruct (fixed u); [constructor|by repeat constructor].
  - destruct (fixed u); [done|]. apply Forall_app. split; [done|apply offsets_bytes].
Qed.
