(* ===== verification/SerialiserStore.v ===== *)
(** * Storing children makes the container

    For any callback that keeps its promise, the sizes the serialiser computes
    are those of the format, and what it leaves in memory are the bytes of the
    format, with nothing around them touched. *)

From S2P Require Import Prelude VariantType VariantSpec VariantInfo VariantInfos Serialiser.
From S2P Require Import SerialiserRead SerialiserWrite SerialiserSpec.
Local Open Scope Z_scope.
Local Open Scope xpl_scope.

(** ** Writing into a region *)

Lemma empty_region (l : list Z) : zlen l = 0 -> l = [].
Proof. destruct l; [done|]. rewrite zlen_cons. pose proof (zlen_nonneg l). lia. Qed.

Section region.
Context (base : Z).

(** The block is not at [NULL] and not larger than an address space. *)
Definition room (mem : list Z) : Prop := 0 < base /\ base + zlen mem < 2 ^ 64 /\ zlen mem < 2 ^ 55.
(** The region behind [pre] is at [data], which may be [NULL] if it is empty. *)
Definition placed (data : Z) (pre region : list Z) : Prop :=
  data = base + zlen pre \/ data = 0 /\ region = [].

Lemma placed_nonempty data pre region : placed data pre region -> 0 < zlen region -> data = base + zlen pre.
Proof. intros [->|[_ ->]] Hr; [done|]. change (zlen (@nil Z)) with 0 in Hr. lia. Qed.
Lemma placed_prefix data pre l r : placed data pre (l ++ r) -> placed data pre l.
Proof. intros [Hd|[Hd E]]; [by left|right]. by apply app_nil in E as [-> _]. Qed.
(** A part of the region. *)
Lemma placed_part data pre l r k :
  placed data pre (l ++ r ++ k) -> room (pre ++ l ++ r ++ k) ->
  placed (u64 (data + zlen l)) (pre ++ l) r.
Proof.
  intros [->|[-> E]] (H0 & Hb & Hl).
  - left. rewrite !zlen_app in *. pose proof (zlen_nonneg r). pose proof (zlen_nonneg k). pose proof (zlen_nonneg l).
    pose proof (zlen_nonneg pre). rewrite wrap_small; lia.
  - right. apply app_nil in E as [-> E]. by apply app_nil in E as [-> _].
Qed.

Lemma store_bytes_ok p pre old bytes post :
  p = base + zlen pre -> zlen old = zlen bytes ->
  store_bytes base (pre ++ old ++ post) p bytes = Some (pre ++ bytes ++ post).
Proof.
  intros -> E. unfold store_bytes. replace (base + zlen pre - base) with (zlen pre) by lia.
  rewrite write_at_app by (rewrite length_app; unfold zlen in E; lia).
  do 3 f_equal. unfold zlen in E. rewrite drop_app_le, drop_ge by lia. done.
Qed.
Lemma store_ok p pre y x post :
  p = base + zlen pre -> store base (pre ++ y :: post) p x = Some (pre ++ x :: post).
Proof.
  intros ->. unfold store. replace (base + zlen pre - base) with (zlen pre) by lia.
  rewrite wr_all by (rewrite zlen_app, zlen_cons; pose proof (zlen_nonneg pre); pose proof (zlen_nonneg post); lia).
  unfold zlen. by rewrite Nat2Z.id, insert_app_r_alt, Nat.sub_diag by lia.
Qed.
Lemma write_le_ok p pre old v w post :
  p = base + zlen pre -> 0 <= w <= 8 -> zlen old = w ->
  gvs_write_unaligned_le base (pre ++ old ++ post) p v w = Some (pre ++ le_bytes (Z.to_nat w) v ++ post).
Proof.
  intros Hp Hw Ho. unfold gvs_write_unaligned_le. rewrite take_le_bytes by lia.
  apply store_bytes_ok; [done|]. rewrite zlen_le_bytes. lia.
Qed.

(** The first [n] bytes of what is left. *)
Lemma split_region (l : list Z) n : 0 <= n <= zlen l -> exists a b, l = a ++ b /\ zlen a = n.
Proof.
  intros Hn. exists (take (Z.to_nat n) l), (drop (Z.to_nat n) l). split; [by rewrite take_drop|].
  unfold zlen in *. rewrite length_take. lia.
Qed.

Lemma zeros_snoc n : 0 <= n -> zeros n ++ [0] = zeros (n + 1).
Proof.
  intros Hn. unfold zeros. replace (Z.to_nat (n + 1)) with (Z.to_nat n + 1)%nat by lia.
  by rewrite replicate_add.
Qed.
Lemma zeros_snoc_l n : 0 <= n -> [0] ++ zeros n = zeros (n + 1).
Proof. intros Hn. unfold zeros. by replace (Z.to_nat (n + 1)) with (S (Z.to_nat n)) by lia. Qed.

Lemma pad_ok fuel data d pre cur gap post :
  is_mask d -> zlen gap = up d (zlen cur) - zlen cur -> placed data pre (cur ++ gap) ->
  up d (zlen cur) - zlen cur <= Z.of_nat fuel ->
  pad base fuel (pre ++ cur ++ gap ++ post) data (zlen cur) d =
    Some (up d (zlen cur), pre ++ (cur ++ padding d (zlen cur)) ++ post).
Proof.
  intros Hd. revert cur gap. induction fuel as [|fuel IH]; intros cur gap Hg Hp Hf; cbn [pad]; rewrite (land_mask _ d Hd);
    (destruct (Z.eqb_spec (zlen cur mod (d + 1)) 0) as [E|E];
      [pose proof (up_id d _ Hd E) as Eu; unfold padding; rewrite Eu in *; assert (zlen gap = 0) as Hg0 by lia;
       destruct gap; [rewrite Z.sub_diag; by rewrite !app_nil_r|pose proof (zlen_nonneg gap); rewrite zlen_cons in Hg0; lia]|]).
  - pose proof (up_bounds d (zlen cur) Hd). assert (up d (zlen cur) = zlen cur) as Eu by lia. rewrite <- Eu in E.
    by rewrite up_aligned in E.
  - pose proof (up_bounds d (zlen cur + 1) Hd) as Hu. rewrite (pad_step d _ Hd E) in *.
    destruct gap as [|y gap]; [change (zlen (@nil Z)) with 0 in Hg; lia|]. rewrite zlen_cons in Hg.
    assert (data = base + zlen pre) as ->.
    { apply (placed_nonempty _ _ _ Hp). rewrite zlen_app, zlen_cons. pose proof (zlen_nonneg cur).
      pose proof (zlen_nonneg gap). lia. }
    rewrite app_assoc. cbn [app]. rewrite store_ok by (rewrite zlen_app; lia). cbn [mbind option_bind].
    assert (zlen (cur ++ [0]) = zlen cur + 1) as El by (rewrite zlen_app; done).
    rewrite <- El. replace ((pre ++ cur) ++ 0 :: gap ++ post) with (pre ++ (cur ++ [0]) ++ gap ++ post) by (by rewrite <- !app_assoc).
    rewrite (IH (cur ++ [0]) gap); [|rewrite El; lia|by left|rewrite El; lia].
    do 3 f_equal. rewrite <- !app_assoc. f_equal. unfold padding. rewrite El.
    rewrite (app_assoc [0]). rewrite zeros_snoc_l, (pad_step d _ Hd E) by lia. do 2 f_equal. lia.
Qed.

Lemma fill_zero_ok n data pre cur gap post :
  zlen gap <= Z.of_nat n -> placed data pre (cur ++ gap) ->
  fill_zero base n (pre ++ cur ++ gap ++ post) data (zlen cur) (zlen cur + zlen gap) =
    Some (pre ++ cur ++ zeros (zlen gap) ++ post).
Proof.
  revert cur gap. induction n as [|n IH]; intros cur gap Hn Hp; cbn [fill_zero].
  - destruct gap; [|rewrite zlen_cons in Hn; pose proof (zlen_nonneg gap); lia].
    change (zlen (@nil Z)) with 0. by rewrite Z.add_0_r, Z.ltb_irrefl.
  - destruct gap as [|y gap]; [change (zlen (@nil Z)) with 0; by rewrite Z.add_0_r, Z.ltb_irrefl|].
    rewrite zlen_cons in *. pose proof (zlen_nonneg gap). rewrite (proj2 (Z.ltb_lt _ _)) by lia.
    assert (data = base + zlen pre) as ->.
    { apply (placed_nonempty _ _ _ Hp). rewrite !zlen_app, zlen_cons. pose proof (zlen_nonneg cur). lia. }
    rewrite app_assoc. cbn [app]. rewrite store_ok by (rewrite zlen_app; lia). cbn [mbind option_bind].
    assert (zlen (cur ++ [0]) = zlen cur + 1) as El by (rewrite zlen_app; done).
    rewrite <- El. replace ((pre ++ cur) ++ 0 :: gap ++ post) with (pre ++ (cur ++ [0]) ++ gap ++ post) by (by rewrite <- !app_assoc).
    replace (zlen cur + (1 + zlen gap)) with (zlen (cur ++ [0]) + zlen gap) by lia.
    rewrite IH; [|lia|by left]. by rewrite <- !app_assoc, (app_assoc [0]), zeros_snoc_l, (Z.add_comm (zlen gap)) by lia.
Qed.
End region.

(** ** Sizes of containers *)

Section sizes.
Implicit Types (t u : vtype) (l : list item).

Lemma print_strlen t : good t -> cstr (print t ++ [0]) = print t.
Proof. intros [Hv _]. by apply cstr_app_nul, print_no_nul. Qed.

(** The part of the offsets in the size. *)
Lemma offsets_size size (ends : list Z) :
  zlen (offsets (width size (zlen ends)) ends) = width size (zlen ends) * zlen ends /\
  zlen ends <= zlen (offsets (width size (zlen ends)) ends).
Proof.
  pose proof (width_cases size (zlen ends)). pose proof (zlen_nonneg ends). rewrite zlen_offsets by lia. split; [done|nia].
Qed.
Lemma zlen_body_ends l : zlen (body_ends l) = zlen l.
Proof. unfold zlen. by rewrite length_body_ends. Qed.

Lemma fixed_concat u l :
  Forall item_ok l -> Forall (fun x : item => fst x = u) l -> fixed u = true ->
  zlen (concat (map snd l)) = snd (type_shape u) * zlen l.
Proof.
  intros Hi Hu Hf. induction Hu as [|x l Hx Hu IH]; [change (0 = snd (type_shape u) * 0); lia|]. apply Forall_cons in Hi as [(_ & _ & Hs) Hi].
  cbn [map concat]. rewrite zlen_app, zlen_cons, IH, Hs by (done || by rewrite Hx). rewrite Hx. lia.
Qed.

(** A tuple or a dictionary entry. *)
Lemma tuple_container t l : tuple_type t ->
  container_bytes t l =
    let b := body l in
    if fixed t then match l with [] => [0] | _ => b ++ padding (mask t) (zlen b) end
    else b ++ offsets (width (zlen b) (zlen (stored_ends l))) (rev (stored_ends l)).
Proof. by destruct t. Qed.
Lemma rev_zlen (l : list Z) : zlen (rev l) = zlen l.
Proof. unfold zlen. by rewrite length_rev. Qed.
Lemma children_tuple t l : tuple_type t -> children_ok t l -> map fst l = item_types t.
Proof. intros Ht [_ H]. by destruct t. Qed.

(** Items of fixed size lie where the layout of the type has them. *)
Lemma fixed_body l :
  Forall item_ok l -> Forall (fun x : item => fixed (fst x) = true) l -> zlen (body l) = ends 0 (map type_shape (map fst l)).
Proof.
  induction l as [|x l IH] using rev_ind; intros Hi Hf; [done|].
  apply Forall_app in Hi as [Hi [Hx _]%Forall_cons], Hf as [Hf [Hfx _]%Forall_cons].
  rewrite body_snoc, zlen_place by (by apply item_mask). rewrite IH by done. rewrite !map_app. cbn [map].
  rewrite ends_snoc. destruct Hx as (_ & _ & Hs). by rewrite (Hs Hfx).
Qed.
Lemma tuple_items_fixed t l :
  good t -> tuple_type t -> map fst l = item_types t -> fixed t = true -> Forall (fun x : item => fixed (fst x) = true) l.
Proof.
  intros Hg Ht E Hf. pose proof (all_fixed_items t Hg Ht Hf) as Hi. rewrite <- E in Hi. by apply Forall_map in Hi.
Qed.
Lemma fixed_tuple_size t l :
  good t -> tuple_type t -> Forall item_ok l -> map fst l = item_types t -> fixed t = true -> zlen (container_bytes t l) = snd (type_shape t).
Proof.
  intros Hg Ht Hi E Hf. rewrite (tuple_container t l Ht). cbv zeta. rewrite Hf.
  pose proof (fixed_body l Hi (tuple_items_fixed t l Hg Ht E Hf)) as Eb.
  pose proof (type_shape_ok t Hg) as [[Hm _] _]. pose proof (all_fixed_items t Hg Ht Hf) as Hall. rewrite E in Eb.
  destruct l as [|x l].
  - rewrite (tuple_type_eq t Hg Ht), <- E. done.
  - rewrite zlen_app, zlen_padding by done. rewrite Eb. unfold mask. rewrite (tuple_type_eq t Hg Ht) at 1 2. unfold tuple_shape. cbn [fst snd].
    match goal with |- context [forallb ?f ?l] => assert (forallb f l = true) as -> end.
    { apply forallb_forall. intros s [u [<- Hu]]%in_map_iff. apply list_elem_of_In in Hu.
      exact (proj1 (Forall_forall _ _) Hall u Hu). }
    destruct (map type_shape (item_types t)) eqn:En; [by rewrite <- E in En|lia].
Qed.
Lemma variable_tuple_items t l : good t -> tuple_type t -> map fst l = item_types t -> fixed t = false -> l <> [].
Proof. intros Hg Ht E Hf ->. unfold fixed in Hf. rewrite (tuple_type_eq t Hg Ht), <- E in Hf. done. Qed.

End sizes.

(** ** The promise of the callback *)

(** It fills in the type and the size of child [x], whose type and bytes are
    [kid x], checks what was filled in before, and stores the bytes at [data]
    unless that is [NULL]. Its own state keeps [inv]. *)
Class FillerOk {A W} (base : Z) (gvs_filler : GVariantSerialised -> A -> list Z * W -> option (GVariantSerialised * (list Z * W)))
    (inv : W -> Prop) (known : A -> Prop) (kid : A -> item) : Prop := {
  filler_size : forall s x mem w,
    inv w -> known x -> type_info s = None \/ type_info s = Some (info_of (fst (kid x))) ->
    size s = 0 \/ size s = zlen (snd (kid x)) -> data s = 0 ->
    exists n w', gvs_filler s x (mem, w) =
      Some (Serialised (Some (info_of (fst (kid x)))) 0 (zlen (snd (kid x))) n, (mem, w')) /\ inv w';
  filler_data : forall s x pre old post w,
    inv w -> known x -> type_info s = None \/ type_info s = Some (info_of (fst (kid x))) ->
    size s = 0 \/ size s = zlen (snd (kid x)) ->
    data s = base + zlen pre -> zlen old = zlen (snd (kid x)) -> data s mod (mask (fst (kid x)) + 1) = 0 ->
    room base (pre ++ old ++ post) ->
    exists n w', gvs_filler s x (pre ++ old ++ post, w) =
      Some (Serialised (Some (info_of (fst (kid x)))) (data s) (zlen (snd (kid x))) n, (pre ++ snd (kid x) ++ post, w')) /\
      inv w';
}.

Section callback.
Context {A W : Type} (base : Z) (gvs_filler : GVariantSerialised -> A -> list Z * W -> option (GVariantSerialised * (list Z * W))).
Context (inv : W -> Prop) (known : A -> Prop) (kid : A -> item) `{HF : !FillerOk base gvs_filler inv known kid}.

Lemma fill_placed s x pre old post w :
  inv w -> known x -> type_info s = None \/ type_info s = Some (info_of (fst (kid x))) ->
  size s = 0 \/ size s = zlen (snd (kid x)) -> placed base (data s) pre old -> zlen old = zlen (snd (kid x)) ->
  data s mod (mask (fst (kid x)) + 1) = 0 -> room base (pre ++ old ++ post) ->
  exists n w', gvs_filler s x (pre ++ old ++ post, w) =
    Some (Serialised (Some (info_of (fst (kid x)))) (data s) (zlen (snd (kid x))) n, (pre ++ snd (kid x) ++ post, w')) /\
    inv w'.
Proof.
  intros Hw Hx Ht Hs [Hd|[Hd ->]] Ho Ha Hr; [by apply filler_data|].
  destruct (filler_size s x (pre ++ [] ++ post) w Hw Hx Ht Hs Hd) as (n & w' & -> & Hw'). exists n, w'.
  destruct (snd (kid x)); [|rewrite zlen_cons in Ho; pose proof (zlen_nonneg l); change (zlen (@nil Z)) with 0 in Ho; lia].
  by rewrite Hd.
Qed.

(** ** Sizes *)

Lemma align_to_ok d n : is_mask d -> 0 <= n < 2 ^ 63 -> align_to n d = up d n.
Proof. apply align_offset. Qed.

Lemma array_size_loop_ok d xs acc mem w :
  inv w -> Forall known xs -> Forall (fun x => item_ok (kid x) /\ mask (fst (kid x)) = d) xs ->
  zlen (foldl place acc (map kid xs)) < 2 ^ 60 ->
  exists w', array_size_loop gvs_filler d xs (zlen acc) (mem, w) = Some (zlen (foldl place acc (map kid xs)), (mem, w')) /\ inv w'.
Proof.
  intros Hw Hk Hi. revert acc w Hw Hk. induction Hi as [|x xs [Hx Hd] Hi IH]; intros acc w Hw Hk Hl; [by exists w|].
  apply Forall_cons in Hk as [Hkx Hk]. cbn [array_size_loop map foldl] in *.
  destruct (filler_size no_value x mem w Hw Hkx) as (n & w' & E & Hw'); [by left..|done|].
  pose proof (item_mask _ Hx) as Hm.
  pose proof (place_grows acc (kid x) Hm) as Hg. pose proof (fold_grows (place acc (kid x)) (map kid xs)) as Hf.
  assert (Forall item_ok (map kid xs)) as Hi' by (apply Forall_map; eapply Forall_impl; [exact Hi|]; by intros ? []).
  specialize (Hf Hi').
  pose proof (zlen_nonneg acc). rewrite E. cbn [mbind option_bind size]. subst d.
  rewrite align_to_ok by (done || lia). rewrite <- (zlen_place acc (kid x) Hm).
  rewrite wrap_small by lia. by apply IH.
Qed.

Lemma known_items xs : Forall item_ok (map kid xs) <-> Forall (fun x => item_ok (kid x)) xs.
Proof. apply Forall_map. Qed.

(** The member of a tuple behind the items [l0]. *)
Lemma next_member t (l0 : list item) (x : item) (l : list item) :
  good t -> tuple_type t -> map fst (l0 ++ x :: l) = item_types t ->
  exists m, xvariant_type_info_member_info (info_of t) (zlen l0) = Some (Some (info_of (fst x), m)) /\
    m_i m = u64 (zlen (var_ends l0) - 1) /\
    ending_type m = ending (type_shape (fst x)) (length l0) (length (l0 ++ x :: l)).
Proof.
  intros Hg Ht E. rewrite (member_info_ok t _ Ht Hg), rd_ge_0 by apply zlen_nonneg. unfold zlen at 1. rewrite Nat2Z.id.
  assert (item_types t !! length l0 = Some (fst x)) as Hk.
  { rewrite <- E, map_app. cbn [map]. apply list_lookup_middle. by rewrite length_map. }
  destruct (members_lookup t Hg (length l0) (fst x) Hk) as (m & -> & (Hi & _) & He). exists m. split_and!; [done| |].
  - rewrite Hi, zlen_var_ends. do 4 f_equal. rewrite <- E, map_app, take_app_le, firstn_all2 by (rewrite length_map; lia). done.
  - rewrite He, <- E. by rewrite length_map.
Qed.

Lemma tuple_size_loop_ok t xs (l0 : list item) last mem w :
  good t -> tuple_type t -> map fst (l0 ++ map kid xs) = item_types t ->
  inv w -> Forall known xs -> Forall item_ok (map kid xs) -> zlen (body (l0 ++ map kid xs)) < 2 ^ 60 ->
  exists w', tuple_size_loop gvs_filler (info_of t) xs (zlen l0) (zlen (body l0)) last (mem, w) =
    Some (zlen (body (l0 ++ map kid xs)),
          match xs with [] => last | _ => Some (u64 (zlen (stored_ends (l0 ++ map kid xs)) - 1)) end, (mem, w')) /\ inv w'.
Proof.
  intros Hg Ht. revert l0 last w. induction xs as [|x xs IH]; intros l0 last w E Hw Hk Hi Hl.
  { exists w. cbn [map tuple_size_loop]. by rewrite app_nil_r. }
  apply Forall_cons in Hk as [Hkx Hk]. cbn [map] in *. apply Forall_cons in Hi as [Hx Hi]. pose proof (item_mask _ Hx) as Hm.
  cbn [tuple_size_loop]. destruct (next_member t l0 (kid x) (map kid xs) Hg Ht E) as (m & -> & Hmi & _).
  cbn [mbind option_bind]. rewrite (query_ok (fst (kid x))) by apply Hx.
  pose proof (body_snoc l0 (kid x)) as Eb. pose proof (place_grows (body l0) (kid x) Hm) as Hgr.
  pose proof (fold_grows (body (l0 ++ [kid x])) (map kid xs) Hi) as Hf. unfold body at 2 in Hf. rewrite <- foldl_app in Hf.
  rewrite <- app_assoc in Hf. cbn [app] in Hf. fold (body (l0 ++ kid x :: map kid xs)) in Hf.
  pose proof (zlen_nonneg (body l0)). rewrite Eb in Hf.
  assert (forall w', inv w' -> exists w'',
    tuple_size_loop gvs_filler (info_of t) xs (zlen l0 + 1) (zlen (body (l0 ++ [kid x]))) (Some (m_i m)) (mem, w') =
    Some (zlen (body (l0 ++ kid x :: map kid xs)),
      Some (u64 (zlen (stored_ends (l0 ++ kid x :: map kid xs)) - 1)), (mem, w'')) /\ inv w'') as Hrest.
  { intros w' Hw'. destruct (IH (l0 ++ [kid x]) (Some (m_i m)) w') as (w'' & E' & Hw''); try done.
    { by rewrite <- app_assoc. }
    { by rewrite <- app_assoc. }
    exists w''. rewrite zlen_app, <- app_assoc in E'. change (zlen [kid x]) with 1 in E'. cbn [app] in E'. split; [|done]. rewrite E'. do 3 f_equal. rewrite Hmi.
    destruct xs; [|done]. cbn [map]. by rewrite stored_ends_snoc. }
  rewrite Eb in Hrest. rewrite (zlen_place (body l0) (kid x) Hm) in Hrest, Hf, Hgr.
  pose proof (align_to_ok (mask (fst (kid x))) (zlen (body l0)) Hm) as Ha.
  destruct Hx as (_ & _ & Hx). unfold fixed, mask in *. destruct (type_shape (fst (kid x))) as [d e]. cbn [fst snd mbind option_bind] in *.
  rewrite Ha by lia. destruct (e =? 0); cbn [negb] in *.
  - destruct (filler_size no_value x mem w Hw Hkx) as (n & w' & E' & Hw'); [by left..|done|]. rewrite E'.
    cbn [mbind option_bind size]. rewrite wrap_small by lia. by apply Hrest.
  - rewrite <- (Hx eq_refl), wrap_small by lia. by apply Hrest.
Qed.

Section container.
Implicit Types (l : list item).
Context (t : vtype) (xs : list A) (Hg : good t) (Hc : children_ok t (map kid xs)) (Hk : Forall known xs).
Context (Hl : zlen (container_bytes t (map kid xs)) < 2 ^ 55).

Lemma kids_ok : Forall item_ok (map kid xs).
Proof. apply Hc. Qed.

Lemma tuple_needed_size_ok mem w :
  tuple_type t -> inv w ->
  exists w', gvs_tuple_needed_size gvs_filler (info_of t) xs (mem, w) =
    Some (zlen (container_bytes t (map kid xs)), (mem, w')) /\ inv w'.
Proof.
  intros Ht Hw. pose proof kids_ok as Hi. pose proof (type_shape_ok t Hg) as [[Hm _] _].
  pose proof (children_tuple t _ Ht Hc) as E.
  pose proof Hl as Hsz. rewrite (tuple_container t _ Ht) in Hsz |- *. cbv zeta in Hsz |- *. unfold gvs_tuple_needed_size. rewrite (query_ok t Hg).
  destruct (fixed t) eqn:Hf.
  - pose proof (fixed_tuple_size t _ Hg Ht Hi E Hf) as Es. rewrite (tuple_container t _ Ht), Hf in Es. cbv zeta in Es. rewrite Es.
    pose proof (fixed_eq t Hf) as Hne. destruct (type_shape t) as [d e]. cbn [snd mbind option_bind] in *.
    rewrite (proj2 (Z.eqb_neq _ _) Hne). by exists w.
  - pose proof (not_fixed t Hf) as Hz. destruct (type_shape t) as [d e]. cbn [snd mbind option_bind] in *. rewrite Hz.
    cbn [Z.eqb negb].
    destruct (offsets_size (zlen (body (map kid xs))) (rev (stored_ends (map kid xs)))) as [E1 E2]. rewrite rev_zlen in E1, E2.
    rewrite zlen_app in Hsz |- *. pose proof (zlen_nonneg (body (map kid xs))). pose proof (zlen_nonneg (stored_ends (map kid xs))).
    destruct (tuple_size_loop_ok t xs [] None mem w Hg Ht E Hw Hk Hi) as (w' & E' & Hw'); [cbn [app]; lia|].
    cbn [app] in E'. change (zlen (@nil item)) with 0 in E'. change (zlen (body [])) with 0 in E'. rewrite E'. cbn [mbind option_bind]. exists w'. split; [|done].
    pose proof (variable_tuple_items t _ Hg Ht E Hf) as Hne. destruct xs as [|x xs']; [done|]. cbn [mbind option_bind].
    set (n := zlen (stored_ends (map kid (x :: xs')))) in *. assert (0 <= n) by apply zlen_nonneg.
    assert (u64 (u64 (n - 1) + 1) = n) as ->.
    { unfold wrap. rewrite Z.add_mod_idemp_l by lia. rewrite Z.mod_small; lia. }
    rewrite calculate_total_ok by lia. by rewrite E1.
Qed.

Lemma needed_size_ok mem w :
  inv w ->
  exists w', xvariant_serialiser_needed_size gvs_filler (info_of t) xs (mem, w) =
    Some (zlen (container_bytes t (map kid xs)), (mem, w')) /\ inv w'.
Proof.
  intros Hw. unfold xvariant_serialiser_needed_size. rewrite (dispatch_ok t Hg). cbn [mbind option_bind].
  pose proof kids_ok as Hi. pose proof (type_shape_ok t Hg) as [[Hm _] _]. pose proof Hl as Hsz.
  pose proof (tuple_needed_size_ok mem w) as Htuple.
  destruct t as [c|u|u|ts|k v]; cbn [kind_of].
  - destruct Hc as [_ [-> Hlen]]. destruct xs as [|x [|]]; try done. cbn [Z.eqb Pos.eqb mbind option_bind needed_size_of].
    unfold gvs_variant_needed_size. cbn [head mbind option_bind]. apply Forall_cons in Hk as [Hkx _]. apply Forall_cons in Hi as [Hx _].
    destruct (filler_size no_value x mem w Hw Hkx) as (n & w' & -> & Hw'); [by left..|done|]. cbn [mbind option_bind type_info].
    rewrite (type_string_ok _ (proj1 Hx)). cbn [mbind option_bind size]. exists w'. split; [|done]. unfold strlen.
    rewrite (print_strlen _ (proj1 Hx)). cbn [map container_bytes] in Hl |- *. destruct (kid x) as [u b]. cbn [fst snd] in *.
    rewrite !zlen_app in *. change (zlen [0]) with 1 in *. pose proof (zlen_nonneg b). pose proof (zlen_nonneg (print u)).
    rewrite wrap_small by lia. do 2 f_equal. lia.
  - destruct Hc as [_ [Hlen Hu]]. assert (element_type (Maybe u) u) as He by by left.
    destruct xs as [|x [|]]; [|..|cbn in Hlen; lia].
    + exists w. by destruct (fixed u).
    + apply Forall_cons in Hk as [Hkx _]. apply Forall_cons in Hi as [Hx _]. apply Forall_cons in Hu as [Hu _].
      cbn [map container_bytes] in *. destruct (kid x) as [u' b] eqn:Ex. cbn [fst] in Hu. subst u'.
      rewrite zlen_app in *. destruct (fixed u) eqn:Hf; cbn [mbind option_bind needed_size_of].
      * unfold gvs_fixed_sized_maybe_needed_size. change (zlen [x] =? 0) with false. cbn [negb].
        rewrite (query_element_ok _ _ He Hg). destruct Hx as (_ & _ & Hs). specialize (Hs Hf). cbn [fst snd] in Hs.
        destruct (type_shape u) as [d e]. cbn [mbind option_bind snd] in *. exists w. split; [|done]. rewrite Hs.
        change (zlen (@nil Z)) with 0. by rewrite Z.add_0_r.
      * unfold gvs_variable_sized_maybe_needed_size.
        destruct (filler_size no_value x mem w Hw Hkx) as (n & w' & -> & Hw'); [by left..|done|]. cbn [mbind option_bind size].
        rewrite Ex in *. cbn [snd]. change (zlen [0]) with 1 in *. pose proof (zlen_nonneg b). rewrite wrap_small by lia. by exists w'.
  - destruct Hc as [_ Hu]. assert (element_type (Array u) u) as He by by right. cbn [container_bytes] in *.
    destruct (fixed u) eqn:Hf; cbn [mbind option_bind needed_size_of].
    + rewrite (fixed_concat u) in Hsz by done. rewrite (fixed_concat u) by done. unfold gvs_fixed_sized_array_needed_size. rewrite (query_element_ok _ _ He Hg).
      pose proof (type_shape_ok u (good_array _ Hg)) as [[_ He0] _]. destruct (type_shape u) as [d e]. cbn [mbind option_bind snd] in *.
      assert (zlen (map kid xs) = zlen xs) as El by (unfold zlen; by rewrite length_map). rewrite El in Hsz |- *.
      exists w. split; [|done]. rewrite wrap_small; [done|]. split; [|lia]. pose proof (zlen_nonneg xs). nia.
    + unfold gvs_variable_sized_array_needed_size. rewrite (query_ok _ Hg). cbn [type_shape mbind option_bind].
      destruct (offsets_size (zlen (body (map kid xs))) (body_ends (map kid xs))) as [E1 E2]. rewrite zlen_body_ends in E1, E2.
      rewrite zlen_app in Hsz |- *. pose proof (zlen_nonneg (body (map kid xs))). pose proof (zlen_nonneg (map kid xs)).
      destruct (array_size_loop_ok (fst (type_shape u)) xs [] mem w Hw Hk) as (w' & E' & Hw').
      { apply known_items in Hi. rewrite Forall_map in Hu. apply Forall_and. split; [done|].
        eapply Forall_impl; [exact Hu|]. cbv beta. by intros x ->. }
      { fold (body (map kid xs)). lia. }
      change (zlen (@nil Z)) with 0 in E'. fold (body (map kid xs)) in E'. rewrite E'. cbn [mbind option_bind].
      exists w'. split; [|done]. assert (zlen (map kid xs) = zlen xs) as El by (unfold zlen; by rewrite length_map).
      rewrite <- El. rewrite calculate_total_ok by lia. by rewrite E1.
  - by apply Htuple.
  - by apply Htuple.
Qed.
End container.

(** ** One child more *)

Lemma room_length m m' : zlen m = zlen m' -> room base m -> room base m'.
Proof. unfold room. by intros ->. Qed.

Lemma place_step D pre cur gap post x w :
  item_ok (kid x) -> known x -> inv w -> D mod (mask (fst (kid x)) + 1) = 0 ->
  room base (pre ++ cur ++ gap ++ post) -> placed base D pre (cur ++ gap) ->
  zlen (place cur (kid x)) <= zlen cur + zlen gap ->
  exists mem gap' n w',
    pad base pad_fuel (pre ++ cur ++ gap ++ post) D (zlen cur) (mask (fst (kid x))) = Some (up (mask (fst (kid x))) (zlen cur), mem) /\
    gvs_filler (Serialised None (u64 (D + up (mask (fst (kid x))) (zlen cur))) 0 0) x (mem, w) =
      Some (Serialised (Some (info_of (fst (kid x)))) (u64 (D + up (mask (fst (kid x))) (zlen cur))) (zlen (snd (kid x))) n,
            (pre ++ place cur (kid x) ++ gap' ++ post, w')) /\
    zlen gap' = zlen cur + zlen gap - zlen (place cur (kid x)) /\ inv w' /\
    u64 (up (mask (fst (kid x))) (zlen cur) + zlen (snd (kid x))) = zlen (place cur (kid x)).
Proof.
  intros Hx Hkx Hw Hal Hroom Hp Hfit. pose proof (item_mask _ Hx) as Hm. set (d := mask (fst (kid x))) in *.
  pose proof (up_bounds d (zlen cur) Hm) as Hu. pose proof (mask_range d Hm) as Hd. rewrite (zlen_place _ _ Hm) in *. fold d in Hfit |- *.
  pose proof (zlen_nonneg (snd (kid x))). pose proof (zlen_nonneg cur). pose proof Hroom as (Hbase & Hb & Hlen). rewrite !zlen_app in Hb, Hlen.
  pose proof (zlen_nonneg pre). pose proof (zlen_nonneg post).
  destruct (split_region gap (up d (zlen cur) - zlen cur)) as (g1 & g & -> & Hg1); [lia|]. rewrite zlen_app in *.
  destruct (split_region g (zlen (snd (kid x)))) as (g2 & g3 & -> & Hg2); [lia|]. rewrite zlen_app in *.
  exists (pre ++ (cur ++ padding d (zlen cur)) ++ (g2 ++ g3) ++ post), g3.
  rewrite <- (app_assoc g1). rewrite (pad_ok base pad_fuel D d pre cur g1); [|done|lia|by apply placed_prefix with (r := g2 ++ g3); rewrite <- app_assoc|unfold pad_fuel; lia].
  pose proof (zlen_padding d (zlen cur) Hm) as Hpad.
  assert (zlen (cur ++ padding d (zlen cur)) = up d (zlen cur)) as Ecur by (rewrite zlen_app; lia).
  assert (placed base (u64 (D + up d (zlen cur))) (pre ++ cur ++ padding d (zlen cur)) g2) as Hp2.
  { destruct Hp as [-> |[-> E]].
    - left. rewrite zlen_app, Ecur. rewrite wrap_small; lia.
    - apply app_nil in E as [-> E]. apply app_nil in E as [-> E]. apply app_nil in E as [-> ->].
      right. split; [|done]. change (zlen (@nil Z)) with 0 in *. by replace (up d 0) with 0 by lia. }
  destruct (fill_placed (Serialised None (u64 (D + up d (zlen cur))) 0 0) x (pre ++ cur ++ padding d (zlen cur)) g2 (g3 ++ post) w
    Hw Hkx (or_introl eq_refl) (or_introl eq_refl) Hp2 Hg2) as (n & w' & E & Hw').
  { cbn [data]. assert (u64 (D + up d (zlen cur)) = D + up d (zlen cur)) as ->.
    { destruct Hp as [-> |[-> E]]; rewrite wrap_small; try lia. }
    fold d. rewrite Z.add_mod, Hal, up_aligned by (done || lia). apply Z.mod_0_l. lia. }
  { eapply room_length; [|exact Hroom]. rewrite !zlen_app. lia. }
  exists n, w'. split_and!; [done| |lia|done|].
  - rewrite <- !app_assoc in *. rewrite E. unfold place. fold d. by rewrite <- !app_assoc.
  - rewrite wrap_small by lia. done.
Qed.

Lemma body_mono (l k : list item) : Forall item_ok k -> zlen (body l) <= zlen (body (l ++ k)).
Proof. intros Hk. unfold body. rewrite foldl_app. by apply fold_grows. Qed.

(** ** Arrays *)

Lemma fixed_array_loop_ok u xs pre old post n w :
  good u -> fixed u = true -> Forall known xs -> Forall (fun x => item_ok (kid x) /\ fst (kid x) = u) xs -> inv w ->
  placed base (base + zlen pre) pre old -> zlen old = snd (type_shape u) * zlen xs ->
  (base + zlen pre) mod (mask u + 1) = 0 -> room base (pre ++ old ++ post) ->
  exists w', fixed_array_loop gvs_filler xs (Serialised (Some (info_of u)) (base + zlen pre) (snd (type_shape u)) n)
    (pre ++ old ++ post, w) = Some (pre ++ concat (map snd (map kid xs)) ++ post, w') /\ inv w'.
Proof.
  intros Hu Hf Hk Hi. revert pre old n w. induction Hi as [|x xs [Hx Ex] Hi IH]; intros pre old n w Hw Hp Ho Hal Hroom.
  { exists w. change (zlen (@nil A)) with 0 in Ho. destruct old; [done|]. rewrite zlen_cons in Ho. pose proof (zlen_nonneg old). lia. }
  apply Forall_cons in Hk as [Hkx Hk]. cbn [fixed_array_loop map concat]. rewrite zlen_cons in Ho.
  pose proof (zlen_nonneg xs). pose proof (type_shape_ok u Hu) as [[Hm He] _].
  assert (zlen (snd (kid x)) = snd (type_shape u)) as Es by (destruct Hx as (_ & _ & Hx); rewrite <- Ex; apply Hx; by rewrite Ex).
  destruct (split_region old (snd (type_shape u))) as (o1 & o2 & -> & Ho1); [nia|]. rewrite zlen_app in Ho.
  rewrite <- app_assoc in *.
  destruct (filler_data (Serialised (Some (info_of u)) (base + zlen pre) (snd (type_shape u)) n) x pre o1 (o2 ++ post) w Hw Hkx)
    as (n' & w' & -> & Hw'); [right; by rewrite Ex|right; by rewrite Es|done|lia|by rewrite Ex|done|].
  cbn [mbind option_bind type_info data size nested]. rewrite Es, Ex.
  pose proof Hroom as (H0 & Hb & Hl). rewrite !zlen_app in Hb, Hl. pose proof (zlen_nonneg pre). pose proof (zlen_nonneg post).
  pose proof (zlen_nonneg o2).
  rewrite wrap_small by lia. replace (base + zlen pre + snd (type_shape u)) with (base + zlen (pre ++ snd (kid x))) by (rewrite zlen_app; lia).
  rewrite app_assoc. destruct (IH Hk (pre ++ snd (kid x)) o2 n' w' Hw') as (w'' & E & Hw''); [by left|lia| | |].
  - unfold mask in Hal |- *. pose proof (mask_range _ Hm). rewrite zlen_app, Es, Z.add_assoc, Z.add_mod by lia.
    rewrite Hal, (fixed_aligned_size u Hu Hf). apply Z.mod_0_l. lia.
  - eapply room_length; [|exact Hroom]. rewrite !zlen_app. lia.
  - exists w''. rewrite E. split; [|done]. by rewrite <- !app_assoc.
Qed.

Lemma array_write_loop_ok v d os pre post xs l0 gap orest w :
  data v = base + zlen pre -> 1 <= os <= 8 -> data v mod (d + 1) = 0 ->
  Forall known xs -> Forall (fun x => item_ok (kid x) /\ mask (fst (kid x)) = d) xs -> inv w ->
  zlen (body l0) + zlen gap = zlen (body (l0 ++ map kid xs)) -> zlen orest = os * zlen xs ->
  room base (pre ++ body l0 ++ gap ++ offsets os (body_ends l0) ++ orest ++ post) ->
  exists w', array_write_loop base gvs_filler v d os xs (zlen (body l0)) (data v + zlen (body l0) + zlen gap + os * zlen l0)
      (pre ++ body l0 ++ gap ++ offsets os (body_ends l0) ++ orest ++ post, w) =
    Some (pre ++ body (l0 ++ map kid xs) ++ offsets os (body_ends (l0 ++ map kid xs)) ++ post, w') /\ inv w'.
Proof.
  intros Hv Hos Hal Hk Hi. revert l0 gap orest w. induction Hi as [|x xs [Hx Ex] Hi IH]; intros l0 gap orest w Hw Hg Ho Hroom.
  { exists w. cbn [map array_write_loop] in *. rewrite app_nil_r in *. change (zlen (@nil A)) with 0 in Ho.
    destruct gap; [|rewrite zlen_cons in Hg; pose proof (zlen_nonneg gap); lia].
    destruct orest; [|rewrite zlen_cons in Ho; pose proof (zlen_nonneg orest); lia]. done. }
  apply Forall_cons in Hk as [Hkx Hk]. cbn [map array_write_loop] in *. rewrite zlen_cons in Ho. pose proof (zlen_nonneg xs).
  assert (Forall item_ok (map kid xs)) as Hi' by (apply Forall_map; eapply Forall_impl; [exact Hi|]; by intros ? []).
  pose proof (body_mono (l0 ++ [kid x]) (map kid xs) Hi') as Hmono. rewrite <- app_assoc in Hmono. cbn [app] in Hmono.
  rewrite body_snoc in Hmono.
  destruct (place_step (data v) pre (body l0) gap (offsets os (body_ends l0) ++ orest ++ post) x w) as (mem & gap' & n & w' & Epad & Efill & Hg' & Hw' & Eoff);
    try done; [by rewrite Ex|by left|lia|]. rewrite Ex in Epad, Efill, Eoff. rewrite Epad. cbn [mbind option_bind]. rewrite Efill.
  cbn [mbind option_bind size]. rewrite Eoff, <- body_snoc.
  destruct (split_region orest os) as (o1 & o2 & -> & Ho1); [nia|]. rewrite zlen_app in Ho.
  assert (pre ++ body (l0 ++ [kid x]) ++ gap' ++ offsets os (body_ends l0) ++ (o1 ++ o2) ++ post =
    (pre ++ body (l0 ++ [kid x]) ++ gap' ++ offsets os (body_ends l0)) ++ o1 ++ (o2 ++ post)) as -> by by rewrite <- !app_assoc.
  rewrite write_le_ok; [|rewrite !zlen_app, zlen_offsets, zlen_body_ends, body_snoc, Hv by lia; lia|lia|done].
  cbn [mbind option_bind].
  destruct (IH Hk (l0 ++ [kid x]) gap' o2 w' Hw') as (w'' & E & Hw'').
  - rewrite <- app_assoc. cbn [app]. rewrite body_snoc. lia.
  - lia.
  - eapply room_length; [|exact Hroom]. rewrite !zlen_app, !zlen_offsets, !zlen_body_ends, !zlen_app, body_snoc by lia.
    change (zlen [kid x]) with 1. lia.
  - exists w''. split; [|done]. rewrite body_ends_snoc, offsets_app, offsets_one in E. rewrite <- !app_assoc in E. cbn [app] in E.
    rewrite <- E, body_snoc, zlen_app, <- !app_assoc. change (zlen [kid x]) with 1. f_equal. lia.
Qed.

(** ** Tuples *)

(** The ends stored before the items [k] are placed. *)
Definition stored_before (l0 k : list item) : list Z := match k with [] => stored_ends l0 | _ => var_ends l0 end.
Lemma var_ends_mono (l k : list item) : zlen (var_ends l) <= zlen (var_ends (l ++ k)).
Proof.
  induction k as [|x k IH] using rev_ind; [by rewrite app_nil_r|]. rewrite app_assoc, var_ends_snoc, zlen_app.
  etransitivity; [exact IH|]. match goal with |- ?a <= ?a + zlen ?b => pose proof (zlen_nonneg b); lia end.
Qed.
Lemma stored_before_le (l0 k : list item) : zlen (stored_before l0 k) <= zlen (stored_ends (l0 ++ k)).
Proof.
  destruct k as [|x k] using rev_ind; [rewrite app_nil_r; done|]. clear IHk.
  rewrite app_assoc, stored_ends_snoc. unfold stored_before. destruct (k ++ [x]) eqn:E; [by destruct k|].
  apply var_ends_mono.
Qed.
Lemma stored_step (l0 k : list item) (x : item) :
  stored_before (l0 ++ [x]) k = stored_before l0 (x :: k) ++
    (if negb (fixed (fst x)) && negb (bool_decide (k = [])) then [zlen (body (l0 ++ [x]))] else []).
Proof.
  unfold stored_before. destruct k as [|y k].
  - rewrite bool_decide_true by done. by rewrite stored_ends_snoc, andb_false_r, app_nil_r.
  - rewrite bool_decide_false by done. rewrite var_ends_snoc. cbn [negb]. rewrite andb_true_r. by destruct (fixed (fst x)).
Qed.

Lemma tuple_write_loop_ok t v os pre post xs (l0 : list item) gap w :
  good t -> tuple_type t -> map fst (l0 ++ map kid xs) = item_types t -> 0 <= os <= 8 ->
  stored_ends (l0 ++ map kid xs) = [] \/ 1 <= os ->
  placed base (data v) pre (body l0 ++ gap) -> data v mod (mask t + 1) = 0 ->
  Forall known xs -> Forall item_ok (map kid xs) -> inv w ->
  zlen (body (l0 ++ map kid xs)) + os * (zlen (stored_ends (l0 ++ map kid xs)) - zlen (stored_before l0 (map kid xs)))
    <= zlen (body l0) + zlen gap ->
  room base (pre ++ body l0 ++ gap ++ offsets os (rev (stored_before l0 (map kid xs))) ++ post) ->
  exists gap' w', tuple_write_loop base gvs_filler v (info_of t) os xs (zlen l0) (zlen (body l0)) (zlen (body l0) + zlen gap)
      (pre ++ body l0 ++ gap ++ offsets os (rev (stored_before l0 (map kid xs))) ++ post, w) =
    Some (zlen (body (l0 ++ map kid xs)), zlen (body (l0 ++ map kid xs)) + zlen gap',
      (pre ++ body (l0 ++ map kid xs) ++ gap' ++ offsets os (rev (stored_ends (l0 ++ map kid xs))) ++ post, w')) /\ inv w' /\
    zlen (body (l0 ++ map kid xs)) + zlen gap' + os * zlen (stored_ends (l0 ++ map kid xs)) =
      zlen (body l0) + zlen gap + os * zlen (stored_before l0 (map kid xs)).
Proof.
  intros Hg Ht. revert l0 gap w. induction xs as [|x xs IH]; intros l0 gap w E Hos Hst Hp Hal Hk Hi Hw Hfit Hroom.
  { exists gap, w. cbn [map tuple_write_loop stored_before]. rewrite app_nil_r. by split_and!. }
  apply Forall_cons in Hk as [Hkx Hk]. cbn [map] in *. apply Forall_cons in Hi as [Hx Hi].
  cbn [tuple_write_loop]. destruct (next_member t l0 (kid x) (map kid xs) Hg Ht E) as (m & -> & _ & Hend).
  cbn [mbind option_bind]. rewrite (query_ok (fst (kid x))) by apply Hx.
  pose proof (body_mono (l0 ++ [kid x]) (map kid xs) Hi) as Hmono. rewrite <- app_assoc in Hmono. cbn [app] in Hmono.
  rewrite body_snoc in Hmono. pose proof (stored_before_le (l0 ++ [kid x]) (map kid xs)) as Hsb.
  rewrite <- app_assoc in Hsb. cbn [app] in Hsb. rewrite stored_step in Hsb.
  set (sb := stored_before l0 (kid x :: map kid xs)) in *. set (s := stored_ends (l0 ++ kid x :: map kid xs)) in *.
  pose proof (zlen_nonneg (map kid xs)) as _.
  assert (mask (fst (kid x)) <= mask t) as Hmle.
  { apply items_aligned; [done..|]. rewrite <- E. apply (list_elem_of_fmap_2 fst). apply elem_of_app. right. by left. }
  assert (data v mod (mask (fst (kid x)) + 1) = 0) as Hal'.
  { eapply mask_divides; [by apply item_mask|apply type_shape_ok, Hg|exact Hmle|exact Hal]. }
  set (push := negb (fixed (fst (kid x))) && negb (bool_decide (map kid xs = []))) in *.
  assert ((ending_type m =? G_VARIANT_MEMBER_ENDING_OFFSET) = push) as Epush.
  { rewrite Hend. unfold ending, push, fixed. rewrite negb_involutive. destruct (snd _ =? 0); cbn [negb andb]; [|done].
    rewrite length_app. cbn [length]. destruct (map kid xs) as [|y k]; cbn [length].
    - by rewrite bool_decide_true, (proj2 (Nat.eqb_eq _ _)) by (done || lia).
    - by rewrite bool_decide_false, (proj2 (Nat.eqb_neq _ _)) by (done || lia). }
  rewrite Epush. rewrite zlen_app in Hsb.
  assert (zlen (if push then [zlen (body (l0 ++ [kid x]))] else []) = if push then 1 else 0) as Ep by by destruct push.
  rewrite Ep in Hsb.
  assert (push = true -> 1 <= os) as Hos1.
  { intros Ept. rewrite Ept in Hsb. destruct Hst as [Es|]; [|done]. rewrite Es in Hsb. change (zlen (@nil Z)) with 0 in Hsb.
    pose proof (zlen_nonneg sb). lia. }
  assert (0 <= os * (zlen s - zlen sb - (if push then 1 else 0))) as Hleft by (apply Z.mul_nonneg_nonneg; lia).
  assert (os * (zlen s - zlen sb) = os * (zlen s - zlen sb - (if push then 1 else 0)) + (if push then os else 0)) as Hsplit by (destruct push; lia).
  destruct (place_step (data v) pre (body l0) gap (offsets os (rev sb) ++ post) x w) as (mem & gap1 & n & w' & Epad & Efill & Hg1 & Hw' & Eoff);
    try done; [destruct push; lia|].
  unfold mask in Epad, Efill, Eoff. destruct (type_shape (fst (kid x))) as [d e]. cbn [fst mbind option_bind] in *.
  rewrite Epad. cbn [mbind option_bind]. rewrite Efill. cbn [mbind option_bind size]. rewrite Eoff, <- body_snoc.
  rewrite <- body_snoc in Hmono, Hg1.
  assert (exists gap2, (if push then
      mem ← gvs_write_unaligned_le base (pre ++ body (l0 ++ [kid x]) ++ gap1 ++ offsets os (rev sb) ++ post)
              (u64 (data v + u64 (zlen (body l0) + zlen gap - os))) (zlen (body (l0 ++ [kid x]))) os;
      Some (u64 (zlen (body l0) + zlen gap - os), mem)
    else Some (zlen (body l0) + zlen gap, pre ++ body (l0 ++ [kid x]) ++ gap1 ++ offsets os (rev sb) ++ post)) =
    Some (zlen (body (l0 ++ [kid x])) + zlen gap2,
      pre ++ body (l0 ++ [kid x]) ++ gap2 ++ offsets os (rev (stored_before (l0 ++ [kid x]) (map kid xs))) ++ post) /\
    zlen (body (l0 ++ [kid x])) + zlen gap2 + (if push then os else 0) = zlen (body l0) + zlen gap) as (gap2 & Ew & Hg2).
  { rewrite stored_step. fold sb push. destruct push.
    - specialize (Hos1 eq_refl). destruct (split_region gap1 (zlen gap1 - os)) as (g1 & g2 & -> & Hgl); [lia|].
      rewrite zlen_app in Hg1, Hgl. pose proof (zlen_nonneg g1). pose proof (zlen_nonneg (body l0)). pose proof (zlen_nonneg gap).
      assert (zlen g2 = os) as Hgs by lia. pose proof (zlen_nonneg (body (l0 ++ [kid x]))).
      assert (data v = base + zlen pre) as Hv by (apply (placed_nonempty _ _ _ _ Hp); rewrite zlen_app; lia).
      pose proof Hroom as (Hb0 & Hb & Hbl). rewrite !zlen_app in Hb, Hbl. pose proof (zlen_nonneg (offsets os (rev sb))).
      pose proof (zlen_nonneg post). pose proof (zlen_nonneg pre).
      rewrite (wrap_small 64 (zlen (body l0) + zlen gap - os)), (wrap_small 64 (data v + _)) by lia.
      assert (pre ++ body (l0 ++ [kid x]) ++ (g1 ++ g2) ++ offsets os (rev sb) ++ post =
        (pre ++ body (l0 ++ [kid x]) ++ g1) ++ g2 ++ (offsets os (rev sb) ++ post)) as -> by by rewrite <- !app_assoc.
      rewrite write_le_ok; [|rewrite !zlen_app; lia|lia|done]. cbn [mbind option_bind]. exists g1. split.
      + rewrite rev_app_distr. cbn [rev app]. rewrite (offsets_cons os). rewrite <- !app_assoc. do 2 f_equal. lia.
      + lia.
    - exists gap1. rewrite app_nil_r. split; [|lia]. do 2 f_equal. lia. }
  assert (zlen (stored_before (l0 ++ [kid x]) (map kid xs)) = zlen sb + (if push then 1 else 0)) as Esl.
  { rewrite stored_step. fold sb push. by rewrite zlen_app, Ep. }
  assert (os * zlen (stored_before (l0 ++ [kid x]) (map kid xs)) = os * zlen sb + (if push then os else 0)) as Eosl.
  { rewrite Esl. destruct push; lia. }
  rewrite Ew. cbn [mbind option_bind].
  destruct (IH (l0 ++ [kid x]) gap2 w') as (gap' & w'' & E' & Hw'' & Hsz).
  - by rewrite <- app_assoc.
  - done.
  - by rewrite <- app_assoc.
  - destruct Hp as [Hp|[Hp Eq]]; [by left|right]. split; [done|]. apply app_nil in Eq as [Eq1 Eq2].
    rewrite Eq1, Eq2 in Hg2. change (zlen (@nil Z)) with 0 in Hg2.
    pose proof (zlen_nonneg (body (l0 ++ [kid x]))). pose proof (zlen_nonneg gap2).
    destruct (body (l0 ++ [kid x])); [|rewrite zlen_cons in Hg2; pose proof (zlen_nonneg l); destruct push; lia].
    destruct gap2; [done|rewrite zlen_cons in Hg2; pose proof (zlen_nonneg gap2); destruct push; lia].
  - done.
  - done.
  - done.
  - done.
  - rewrite <- app_assoc. cbn [app]. fold s. rewrite Esl, Z.sub_add_distr. destruct push; lia.
  - eapply room_length; [|exact Hroom]. rewrite !zlen_app, !zlen_offsets, !rev_zlen by lia. lia.
  - exists gap', w''. rewrite <- app_assoc in E', Hsz. cbn [app] in E', Hsz. rewrite zlen_app in E'. change (zlen [kid x]) with 1 in E'.
    split_and!; [exact E'|done|]. fold s in Hsz |- *. lia.
Qed.

(** ** The whole container *)

(** Where the data of a container goes. *)
Record target (s : GVariantSerialised) (t : vtype) (pre old post : list Z) : Prop := {
  target_info : type_info s = Some (info_of t);
  target_size : size s = zlen old;
  target_place : placed base (data s) pre old;
  target_aligned : data s mod (mask t + 1) = 0;
  target_room : room base (pre ++ old ++ post);
}.

Section write.
Context (t : vtype) (xs : list A) (Hg : good t) (Hc : children_ok t (map kid xs)) (Hk : Forall known xs).
Context (s : GVariantSerialised) (pre old post : list Z) (Ht : target s t pre old post).
Context (Hsize : zlen old = zlen (container_bytes t (map kid xs))).

Lemma container_fixed_size : fixed t = true -> zlen (container_bytes t (map kid xs)) = snd (type_shape t).
Proof.
  intros Hf. assert (tuple_type t -> zlen (container_bytes t (map kid xs)) = snd (type_shape t)) as Htuple.
  { intros Htt. apply fixed_tuple_size; [done..|apply Hc|by apply children_tuple|done]. }
  destruct t as [c|u|u|ts|k v]; try done; [|by apply Htuple|by apply Htuple].
  destruct Hc as [_ [-> _]]. done.
Qed.

Lemma target_value new : zlen new = zlen old -> value_ok base (pre ++ new ++ post) s t.
Proof.
  intros En. destruct Ht as [Hi Hs Hp Ha Hr]. pose proof Hr as (H0 & Hb & Hl). constructor; try done.
  - rewrite Hs. apply zlen_nonneg.
  - destruct (fixed t) eqn:Hf; [by rewrite Hs, Hsize, container_fixed_size|]. rewrite Hs.
    destruct Hp as [Hp|[_ ->]]; [|by left]. right. pose proof (zlen_nonneg pre). lia.
  - destruct Hp as [Hp|[Hp _]]; [|by left]. right. rewrite !zlen_app, Hs. pose proof (zlen_nonneg pre). pose proof (zlen_nonneg post).
    split_and!; [lia|lia|done].
Qed.
Lemma target_check : xvariant_serialised_check s = Some true.
Proof. by apply (serialised_check_ok base (pre ++ old ++ post) s t), target_value. Qed.

Lemma variant_serialise_ok w x :
  t = Leaf 118 -> xs = [x] -> inv w ->
  exists w', gvs_variant_serialise base gvs_filler s xs (pre ++ old ++ post, w) =
    Some (pre ++ container_bytes t (map kid xs) ++ post, w') /\ inv w'.
Proof.
  intros -> -> Hw. destruct Ht as [_ Hs Hp Ha Hr]. destruct Hc as [Hi _]. cbn [map container_bytes] in *.
  apply Forall_cons in Hi as [Hx _]. apply Forall_cons in Hk as [Hkx _]. destruct (kid x) as [u b] eqn:Ex.
  rewrite !zlen_app in Hsize. change (zlen [0]) with 1 in Hsize. pose proof (zlen_nonneg b). pose proof (zlen_nonneg (print u)).
  destruct (split_region old (zlen b)) as (o1 & o & -> & Ho1); [lia|]. rewrite zlen_app in Hsize.
  destruct o as [|y o2]; [change (zlen (@nil Z)) with 0 in Hsize; lia|]. rewrite zlen_cons in Hsize.
  unfold gvs_variant_serialise. cbn [head mbind option_bind].
  assert (data s = base + zlen pre) as Hd.
  { apply (placed_nonempty _ _ _ _ Hp). rewrite zlen_app, zlen_cons. lia. }
  rewrite <- app_assoc in *.
  destruct (filler_data (Serialised None (data s) 0 0) x pre o1 ((y :: o2) ++ post) w Hw Hkx) as (n & w' & -> & Hw').
  - by left.
  - by left.
  - done.
  - by rewrite Ex.
  - cbn [data]. rewrite Ex. cbn [fst]. change (mask (Leaf 118)) with 7 in Ha. destruct Hx as [Hgu _].
    pose proof (type_shape_ok u Hgu) as [[Hm _] _]. apply (mask_divides _ 7); [exact Hm|by right; right; right|apply mask_range, Hm|exact Ha].
  - done.
  - rewrite Ex. cbn [fst snd mbind option_bind type_info size]. rewrite (type_string_ok u (proj1 Hx)). cbn [mbind option_bind].
    cbn [app]. rewrite app_assoc, store_ok by (rewrite zlen_app; lia). cbn [mbind option_bind].
    replace ((pre ++ b) ++ 0 :: o2 ++ post) with ((pre ++ b ++ [0]) ++ o2 ++ post) by (by rewrite <- !app_assoc).
    rewrite (print_strlen u (proj1 Hx)), store_bytes_ok; [|rewrite !zlen_app; change (zlen [0]) with 1; lia|lia].
    cbn [mbind option_bind]. exists w'. split; [|done]. by rewrite <- !app_assoc.
Qed.

Lemma fixed_maybe_serialise_ok w u :
  t = Maybe u -> fixed u = true -> inv w ->
  exists w', gvs_fixed_sized_maybe_serialise gvs_filler s xs (pre ++ old ++ post, w) =
    Some (pre ++ container_bytes t (map kid xs) ++ post, w') /\ inv w'.
Proof.
  intros -> Hf Hw. destruct Ht as [_ Hs Hp Ha Hr]. destruct Hc as (Hi & Hlen & Hu). unfold gvs_fixed_sized_maybe_serialise.
  destruct xs as [|x [|]]; [|..|cbn in Hlen; lia]; cbn [map container_bytes] in *.
  - exists w. split; [|done]. destruct old; [done|rewrite zlen_cons in Hsize; pose proof (zlen_nonneg l); change (zlen (@nil Z)) with 0 in Hsize; lia].
  - apply Forall_cons in Hu as [Hu _], Hi as [Hx _], Hk as [Hkx _]. destruct (kid x) as [u' b] eqn:Ex. cbn [fst] in Hu. subst u'.
    rewrite Hf, app_nil_r in *.
    destruct (fill_placed (Serialised None (data s) (size s) (u64 (nested s + 1))) x pre old post w Hw Hkx) as (n & w' & -> & Hw');
      [by left|right; cbn [size]; rewrite Ex; cbn [snd]; lia|done|by rewrite Ex|by rewrite Ex|done|].
    exists w'. split; [|done]. cbn [mbind option_bind]. by rewrite Ex.
Qed.

Lemma variable_maybe_serialise_ok w u :
  t = Maybe u -> fixed u = false -> inv w ->
  exists w', gvs_variable_sized_maybe_serialise base gvs_filler s xs (pre ++ old ++ post, w) =
    Some (pre ++ container_bytes t (map kid xs) ++ post, w') /\ inv w'.
Proof.
  intros -> Hf Hw. destruct Ht as [_ Hs Hp Ha Hr]. destruct Hc as (Hi & Hlen & Hu). unfold gvs_variable_sized_maybe_serialise.
  destruct xs as [|x [|]]; [|..|cbn in Hlen; lia]; cbn [map container_bytes] in *.
  - exists w. split; [|done]. destruct old; [done|rewrite zlen_cons in Hsize; pose proof (zlen_nonneg l); change (zlen (@nil Z)) with 0 in Hsize; lia].
  - apply Forall_cons in Hu as [Hu _], Hi as [Hx _], Hk as [Hkx _]. destruct (kid x) as [u' b] eqn:Ex. cbn [fst] in Hu. subst u'.
    rewrite Hf in *. rewrite zlen_app in Hsize. change (zlen [0]) with 1 in Hsize. pose proof (zlen_nonneg b).
    destruct (split_region old (zlen b)) as (o1 & o & -> & Ho1); [lia|]. rewrite zlen_app in Hsize, Hs.
    destruct o as [|y [|]]; [change (zlen (@nil Z)) with 0 in Hsize; lia| |rewrite !zlen_cons in Hsize; pose proof (zlen_nonneg l); lia].
    assert (data s = base + zlen pre) as Hd.
    { apply (placed_nonempty _ _ _ _ Hp). rewrite zlen_app, zlen_cons. change (zlen (@nil Z)) with 0. lia. }
    pose proof Hr as (Hb0 & Hb & Hl). rewrite !zlen_app in Hl. pose proof (zlen_nonneg pre). pose proof (zlen_nonneg post).
    rewrite wrap_small by lia. rewrite <- app_assoc in *.
    destruct (filler_data (Serialised None (data s) (size s - 1) (u64 (nested s + 1))) x pre o1 ([y] ++ post) w Hw Hkx) as (n & w' & -> & Hw');
      [by left|right; cbn [size]; rewrite Ex; cbn [snd]; lia|done|by rewrite Ex|by rewrite Ex|done|].
    rewrite Ex. cbn [snd mbind option_bind size app]. rewrite app_assoc, store_ok by (rewrite zlen_app; lia).
    cbn [mbind option_bind]. exists w'. split; [|done]. by rewrite <- !app_assoc.
Qed.

Lemma fixed_array_serialise_ok w u :
  t = Array u -> fixed u = true -> inv w ->
  exists w', gvs_fixed_sized_array_serialise gvs_filler s xs (pre ++ old ++ post, w) =
    Some (pre ++ container_bytes t (map kid xs) ++ post, w') /\ inv w'.
Proof.
  intros -> Hf Hw. destruct Ht as [Hinfo Hs Hp Ha Hr]. destruct Hc as (Hi & Hu). unfold gvs_fixed_sized_array_serialise.
  assert (element_type (Array u) u) as He by by right. pose proof (good_array _ Hg) as Hgu.
  rewrite Hinfo. cbn [mbind option_bind]. rewrite (element_ok _ _ He Hg). cbn [mbind option_bind]. rewrite (query_ok u Hgu).
  cbn [container_bytes] in *. rewrite Hf in *. rewrite (fixed_concat u _ Hi Hu Hf) in Hsize.
  assert (zlen (map kid xs) = zlen xs) as El by (unfold zlen; by rewrite length_map). rewrite El in Hsize.
  pose proof (fixed_eq u Hf) as Hne. pose proof (type_shape_ok u Hgu) as [[_ He0] _].
  destruct (decide (xs = [])) as [-> |Hxs].
  { change (zlen (@nil A)) with 0 in Hsize. rewrite (empty_region old) by lia. exists w.
    destruct (type_shape u). by cbn. }
  assert (0 < zlen xs) as Hn by (destruct xs; [done|]; rewrite zlen_cons; pose proof (zlen_nonneg l); lia).
  assert (data s = base + zlen pre) as Hd by (apply (placed_nonempty _ _ _ _ Hp); nia).
  rewrite Hd in *. destruct (fixed_array_loop_ok u xs pre old post (u64 (nested s + 1)) w) as (w' & E & Hw'); try done.
  - apply known_items in Hi. rewrite Forall_map in Hu. by apply Forall_and.
  - exists w'. split; [|done]. destruct (type_shape u) as [d e]. exact E.
Qed.

Lemma variable_array_serialise_ok w u :
  t = Array u -> fixed u = false -> inv w ->
  exists w', gvs_variable_sized_array_serialise base gvs_filler s xs (pre ++ old ++ post, w) =
    Some (pre ++ container_bytes t (map kid xs) ++ post, w') /\ inv w'.
Proof.
  intros -> Hf Hw. destruct Ht as [Hinfo Hs Hp Ha Hr]. destruct Hc as (Hi & Hu). unfold gvs_variable_sized_array_serialise.
  rewrite Hinfo. cbn [mbind option_bind]. rewrite (query_ok _ Hg). cbn [type_shape mbind option_bind].
  cbn [container_bytes] in *. rewrite Hf in *. set (l := map kid xs) in *. rewrite zlen_app in Hsize.
  assert (zlen l = zlen xs) as El by (unfold l, zlen; by rewrite length_map).
  destruct (decide (xs = [])) as [-> |Hxs].
  { change (zlen (body l) + zlen (offsets (width (zlen (body l)) (zlen l)) (body_ends l))) with 0 in Hsize.
    rewrite (empty_region old) by lia. by exists w. }
  assert (0 < zlen xs) as Hn by (destruct xs; [done|]; rewrite zlen_cons; pose proof (zlen_nonneg l0); lia).
  pose proof (width_cases (zlen (body l)) (zlen l)) as Hwd. pose proof (zlen_nonneg (body l)).
  rewrite zlen_offsets, zlen_body_ends in Hsize by lia.
  assert (gvs_get_offset_size (size s) = width (zlen (body l)) (zlen l)) as ->.
  { rewrite Hs, Hsize. apply width_of_total; lia. }
  set (os := width (zlen (body l)) (zlen l)) in *.
  assert (data s = base + zlen pre) as Hd by (apply (placed_nonempty _ _ _ _ Hp); nia).
  destruct (split_region old (zlen (body l))) as (gap & orest & -> & Hgap); [nia|]. rewrite zlen_app in Hsize, Hs.
  assert (os * zlen l = os * zlen xs) as Eol by (by rewrite El).
  assert (0 <= os * zlen xs) by nia.
  pose proof Hr as (Hb0 & Hb & Hlen). rewrite !zlen_app in Hb, Hlen. pose proof (zlen_nonneg pre). pose proof (zlen_nonneg post).
  rewrite (wrap_small 64 (os * zlen xs)), (wrap_small 64 (data s + size s - _)) by lia.
  destruct (array_write_loop_ok s (fst (type_shape u)) os pre post xs [] gap orest w) as (w' & E & Hw'); try done; try lia.
  - apply known_items in Hi. unfold l in Hu. rewrite Forall_map in Hu. apply Forall_and. split; [done|].
    eapply Forall_impl; [exact Hu|]. cbv beta. by intros x ->.
  - change (offsets os (body_ends [])) with (@nil Z). change (body []) with (@nil Z). cbn [app]. by rewrite <- app_assoc in Hr.
  - exists w'. split; [|done]. change (offsets os (body_ends [])) with (@nil Z) in E. change (body []) with (@nil Z) in E.
    cbn [app] in E. change (zlen (@nil Z)) with 0 in E. change (zlen (@nil item)) with 0 in E. fold l in E.
    rewrite <- !app_assoc. rewrite <- E. f_equal. lia.
Qed.

Lemma tuple_serialise_ok w :
  tuple_type t -> inv w ->
  exists w', gvs_tuple_serialise base gvs_filler s xs (pre ++ old ++ post, w) =
    Some (pre ++ container_bytes t (map kid xs) ++ post, w') /\ inv w'.
Proof.
  intros Htt Hw. destruct Ht as [Hinfo Hs Hp Ha Hr]. pose proof (children_tuple t _ Htt Hc) as E. pose proof (kids_ok t xs Hc) as Hi.
  unfold gvs_tuple_serialise. rewrite Hinfo. cbn [mbind option_bind].
  rewrite (tuple_container t _ Htt) in Hsize |- *. cbv zeta in Hsize |- *. set (l := map kid xs) in *.
  pose proof (zlen_nonneg (body l)). pose proof (zlen_nonneg old) as H0. pose proof (offset_size_ok (zlen old) H0) as (Hos & _).
  pose proof (width_cases (zlen (body l)) (zlen (stored_ends l))) as Hwd. pose proof (zlen_nonneg (stored_ends l)).
  assert (zlen (body l) + gvs_get_offset_size (size s) * zlen (stored_ends l) <= zlen old /\
    (fixed t = true -> stored_ends l = []) /\ (stored_ends l = [] \/ 1 <= gvs_get_offset_size (size s)) /\
    (fixed t = false -> stored_ends l <> [] -> gvs_get_offset_size (size s) = width (zlen (body l)) (zlen (stored_ends l))) /\
    (fixed t = false -> zlen old = zlen (body l) + gvs_get_offset_size (size s) * zlen (stored_ends l)))
    as (Hfit & Hfs & Hso & Hwidth & Hexact).
  { rewrite Hs. destruct (fixed t) eqn:Hf.
    - rewrite (stored_fixed l) by by apply (tuple_items_fixed t). change (zlen (@nil Z)) with 0. rewrite Z.mul_0_r.
      split_and!; try done; [|by left]. destruct l as [|x l'] eqn:El; [change (zlen (body [])) with 0; lia|].
      rewrite zlen_app in Hsize. pose proof (zlen_nonneg (padding (mask t) (zlen (body (x :: l'))))). lia.
    - rewrite zlen_app, zlen_offsets, rev_zlen in Hsize by lia.
      destruct (decide (stored_ends l = [])) as [En|Hne].
      + rewrite En in *. change (zlen (@nil Z)) with 0 in *. rewrite Z.mul_0_r in *. split_and!; try done; try lia; by left.
      + assert (0 < zlen (stored_ends l)) as Hpos by (destruct (stored_ends l); [done|]; rewrite zlen_cons; pose proof (zlen_nonneg l0); lia).
        assert (gvs_get_offset_size (zlen old) = width (zlen (body l)) (zlen (stored_ends l))) as ->.
        { rewrite Hsize. by apply width_of_total. }
        split_and!; try done; [lia|right; lia]. }
  rewrite Hs in *. set (os := gvs_get_offset_size (zlen old)) in *.
  assert (stored_before [] l = []) as Esb by by destruct l.
  destruct (tuple_write_loop_ok t s os pre post xs [] old w Hg Htt E) as (gap' & w' & El & Hw' & Hgap); try done.
  - cbn [app]. fold l. rewrite Esb. change (zlen (@nil Z)) with 0. change (zlen (body [])) with 0. lia.
  - fold l. by rewrite Esb.
  - cbn [app] in El, Hgap. fold l in El, Hgap. rewrite Esb in El, Hgap. change (zlen (@nil Z)) with 0 in Hgap.
    change (zlen (body [])) with 0 in El, Hgap. change (zlen (@nil item)) with 0 in El.
    change (offsets os (rev [])) with (@nil Z) in El. change (body []) with (@nil Z) in El. cbn [app] in El.
    change (0 + zlen old) with (zlen old) in El. rewrite El. cbn [mbind option_bind]. exists w'. pose proof (zlen_nonneg gap').
    destruct (fixed t) eqn:Hf.
    + rewrite (Hfs eq_refl) in *. change (offsets os (rev [])) with (@nil Z). cbn [app].
      change (zlen (@nil Z)) with 0 in Hgap.
      rewrite (fill_zero_ok base _ (data s) pre (body l) gap' post); [|lia|].
      * split; [|done]. cbn [mbind option_bind]. do 3 f_equal. rewrite app_assoc. f_equal.
        destruct l as [|x l'].
        -- change (body []) with (@nil Z) in *. change (zlen (@nil Z)) with 0 in *. change (zlen [0]) with 1 in Hsize.
           by replace (zlen gap') with 1 by lia.
        -- f_equal. rewrite zlen_app, zlen_padding in Hsize by apply type_shape_ok, Hg. unfold padding. f_equal. lia.
      * destruct Hp as [Hp|[Hp ->]]; [by left|right]. split; [done|]. change (zlen (@nil Z)) with 0 in Hgap.
        by rewrite (empty_region (body l)), (empty_region gap') by lia.
    + specialize (Hexact eq_refl). rewrite (empty_region gap') in * by lia. change (zlen (@nil Z)) with 0.
      rewrite !Z.add_0_r, Z.sub_diag. change (Z.to_nat 0) with 0%nat. unfold fill_zero. rewrite Z.ltb_irrefl. cbn [mbind option_bind app].
      split; [|done]. assert (offsets os (rev (stored_ends l)) =
        offsets (width (zlen (body l)) (zlen (stored_ends l))) (rev (stored_ends l))) as ->; [|by rewrite <- app_assoc].
      destruct (decide (stored_ends l = [])) as [En|Hne]; [by rewrite En|by rewrite <- Hwidth].
Qed.

Lemma serialise_ok w :
  inv w ->
  exists w', xvariant_serialiser_serialise base gvs_filler s xs (pre ++ old ++ post, w) =
    Some (pre ++ container_bytes t (map kid xs) ++ post, w') /\ inv w'.
Proof.
  intros Hw. unfold xvariant_serialiser_serialise. rewrite target_check. cbn [assert_ok mbind option_bind assert_then].
  pose proof (target_info _ _ _ _ _ Ht) as ->. cbn [mbind option_bind]. rewrite (dispatch_ok t Hg). cbn [mbind option_bind].
  pose proof (variant_serialise_ok w) as Hv. pose proof (fixed_maybe_serialise_ok w) as Hfm.
  pose proof (variable_maybe_serialise_ok w) as Hvm. pose proof (fixed_array_serialise_ok w) as Hfa.
  pose proof (variable_array_serialise_ok w) as Hva. pose proof (tuple_serialise_ok w) as Htp.
  destruct t as [c|u|u|ts|k v]; cbn [kind_of].
  - destruct Hc as [_ [-> Hlen]]. destruct xs as [|x [|]]; try done. by apply (Hv x).
  - destruct (fixed u) eqn:Hf; [by apply (Hfm u)|by apply (Hvm u)].
  - destruct (fixed u) eqn:Hf; [by apply (Hfa u)|by apply (Hva u)].
  - by apply Htp.
  - by apply Htp.
Qed.
End write.
End callback.
