(* ===== verification/SerialiserLoad.v ===== *)
(** * Reading what was stored

    From the bytes of a container the program gets back as many children as were
    stored, each with its type and its bytes; then for all kinds of containers. *)

From S2P Require Import Prelude VariantType VariantSpec VariantWalk VariantCorrect VariantInfo.
From S2P Require Import VariantInfos Serialiser SerialiserRead SerialiserWrite SerialiserSpec.
From S2P Require Import SerialiserStore.
Local Open Scope Z_scope.
Local Open Scope xpl_scope.

(** ** Where things are *)

Lemma body_split (l1 : list item) (x : item) (l2 : list item) :
  exists rest, body (l1 ++ x :: l2) = (body l1 ++ padding (mask (fst x)) (zlen (body l1))) ++ snd x ++ rest /\
    body (l1 ++ x :: l2) = body (l1 ++ [x]) ++ rest.
Proof.
  destruct (body_app (l1 ++ [x]) l2) as [rest E]. rewrite <- app_assoc in E. cbn [app] in E. exists rest.
  split; [|done]. rewrite E, body_snoc. unfold place. by rewrite <- !app_assoc.
Qed.
Lemma body_ends_lookup (l1 : list item) (x : item) (l2 : list item) :
  exists e1 e2, body_ends (l1 ++ x :: l2) = e1 ++ zlen (body (l1 ++ [x])) :: e2 /\ length e1 = length l1 /\
    (l1 <> [] -> exists e0, e1 = e0 ++ [zlen (body l1)]).
Proof.
  destruct (body_ends_app (l1 ++ [x]) l2) as [e2 E]. rewrite <- app_assoc in E. cbn [app] in E.
  rewrite body_ends_snoc, <- app_assoc in E. exists (body_ends l1), e2. split_and!; [done|apply length_body_ends|].
  intros Hne. destruct l1 as [|y l1 _] using rev_ind; [done|]. exists (body_ends l1). apply body_ends_snoc.
Qed.

(** The last end before an item, and what is between. *)
Definition last_var_end (l : list item) : Z := default 0 (last (var_ends l)).
Lemma run_body (l : list item) :
  Forall item_ok l -> ends (last_var_end l) (run (map type_shape (map fst l))) = zlen (body l).
Proof.
  induction l as [|x l IH] using rev_ind; intros Hi; [done|]. apply Forall_app in Hi as [Hi [Hx _]%Forall_cons].
  rewrite !map_app. cbn [map]. rewrite run_snoc. unfold add_run, last_var_end. rewrite var_ends_snoc.
  specialize (IH Hi). destruct Hx as (Hg & Hb & Hs). unfold fixed in Hs |- *.
  destruct (snd (type_shape (fst x)) =? 0) eqn:E; cbn [negb] in *.
  - by rewrite last_snoc.
  - rewrite app_nil_r, ends_snoc. fold (last_var_end l). rewrite IH, body_snoc, zlen_place by (by apply type_shape_ok).
    unfold step. by rewrite Hs.
Qed.
Lemma last_var_end_range (l : list item) : Forall item_ok l -> 0 <= last_var_end l <= zlen (body l).
Proof.
  induction l as [|x l IH] using rev_ind; intros Hi; [done|]. apply Forall_app in Hi as [Hi [Hx _]%Forall_cons].
  specialize (IH Hi). unfold last_var_end in *. rewrite var_ends_snoc.
  pose proof (place_grows (body l) x (item_mask x Hx)) as Hg. rewrite <- body_snoc in Hg.
  destruct (fixed (fst x)); [rewrite app_nil_r; lia|]. rewrite last_snoc. simpl. pose proof (zlen_nonneg (body l)). lia.
Qed.

(** The stored ends begin with those of the items before. *)
Lemma stored_ends_split (l1 : list item) (x : item) (l2 : list item) :
  l2 <> [] -> fixed (fst x) = false ->
  exists e, stored_ends (l1 ++ x :: l2) = var_ends l1 ++ zlen (body (l1 ++ [x])) :: e.
Proof.
  intros Hl2 Hf. destruct l2 as [|y l2 _] using rev_ind; [done|].
  change (l1 ++ x :: l2 ++ [y]) with (l1 ++ (x :: l2) ++ [y]). rewrite app_assoc, stored_ends_snoc.
  destruct (var_ends_app (l1 ++ [x]) l2) as [e E]. rewrite <- app_assoc in E. cbn [app] in E. exists e.
  rewrite E, var_ends_snoc, Hf, <- app_assoc. done.
Qed.
Lemma stored_ends_prefix (l1 : list item) (x : item) (l2 : list item) :
  exists e, stored_ends (l1 ++ x :: l2) = var_ends l1 ++ e /\ (l2 = [] -> e = []).
Proof.
  destruct l2 as [|y l2 _] using rev_ind.
  - exists []. by rewrite stored_ends_snoc, app_nil_r.
  - change (l1 ++ x :: l2 ++ [y]) with (l1 ++ (x :: l2) ++ [y]). rewrite app_assoc, stored_ends_snoc.
    destruct (var_ends_app l1 (x :: l2)) as [e ->]. exists e. split; [done|]. by destruct l2.
Qed.

Lemma holds_mid {B} (b : list B) off l1 l2 l3 : holds b off (l1 ++ l2 ++ l3) -> holds b (off + zlen l1) l2.
Proof. intros [_ H]%holds_app. by apply holds_app in H as [H _]. Qed.

(** ** The children *)

Section load.
Context (base : Z) (mem : list Z) (Hblock : block base mem) (s : GVariantSerialised) (t : vtype) (l : list item).
Context (Hs : value_ok base mem s t) (Hc : children_ok t l) (Hsize : size s = zlen (container_bytes t l)).
Context (Hbytes : size s = 0 \/ holds mem (data s - base) (container_bytes t l)).

(** A child with the type and the bytes of [x]; without bytes it is without data. *)
Definition child_is (c : GVariantSerialised) (x : item) : Prop :=
  type_info c = Some (info_of (fst x)) /\ size c = zlen (snd x) /\ nested c = u64 (nested s + 1) /\
  (data c = 0 /\ snd x = [] \/ data c <> 0 /\ snd x <> [] /\ holds mem (data c - base) (snd x)).

Lemma read_le p w v :
  0 < base -> holds mem (p - base) (le_bytes (Z.to_nat w) v) -> 0 <= w -> 0 <= v < 256 ^ w ->
  gvs_read_unaligned_le base mem p w = Some v.
Proof.
  intros Hb Hh Hw Hv. unfold gvs_read_unaligned_le. pose proof (holds_bounds _ _ _ Hh). rewrite (proj2 (Z.eqb_neq p 0)) by lia.
  apply holds_block in Hh. rewrite zlen_le_bytes, Z2Nat.id in Hh by done. rewrite Hh. cbn [mbind option_bind].
  rewrite le_bytes_value; [done|]. by rewrite Z2Nat.id.
Qed.

(** A container that has bytes is in the block. *)
Lemma loaded : size s <> 0 ->
  holds mem (data s - base) (container_bytes t l) /\ base <= data s /\ data s + size s <= base + zlen mem.
Proof.
  intros Hne. destruct Hbytes as [|Hh]; [done|]. pose proof (holds_bounds _ _ _ Hh). rewrite <- Hsize in *. split_and!; [done|lia|lia].
Qed.

Lemma fixed_maybe_loads u :
  t = Maybe u -> fixed u = true ->
  gvs_fixed_sized_maybe_n_children s = Some (zlen l) /\
  forall k x, l !! k = Some x -> exists c, gvs_fixed_sized_maybe_get_child s (Z.of_nat k) = Some c /\ child_is c x.
Proof.
  intros Et Hf. pose proof loaded as Hld. pose proof (value_good _ _ _ _ Hs) as Hg. rewrite Et in Hg, Hc, Hsize, Hld.
  assert (element_type (Maybe u) u) as He by by left. destruct Hc as (Hi & Hlen & Hu).
  unfold gvs_fixed_sized_maybe_n_children, gvs_fixed_sized_maybe_get_child. rewrite (value_info _ _ _ _ Hs), Et. cbn [mbind option_bind].
  rewrite (query_element_ok _ _ He Hg), (element_ok _ _ He Hg). cbn [mbind option_bind]. pose proof (fixed_eq u Hf) as Hne.
  destruct l as [|[u' b] [|]]; [|..|cbn in Hlen; lia]; cbn [container_bytes] in *.
  - split; [|done]. rewrite Hsize. destruct (type_shape u) as [d e]. cbn [mbind option_bind snd] in *. change (zlen (@nil Z)) with 0.
    by rewrite (proj2 (Z.eqb_neq e 0)).
  - apply Forall_cons in Hu as [Hu _]. cbn in Hu. subst u'. rewrite Hf, app_nil_r in *. apply Forall_cons in Hi as [(_ & _ & Hx) _].
    specialize (Hx Hf). cbn [fst snd] in Hx. split.
    + destruct (type_shape u) as [d e]. cbn [mbind option_bind snd] in *. rewrite Hsize, Hx, Z.eqb_refl. done.
    + intros [|k] x [= <-]. eexists. split; [done|]. destruct Hld as (Hh & Hb & _); [lia|]. split_and!; try done.
      right. cbn [data snd]. destruct Hblock as (H0 & _). split_and!; [lia| |done]. intros ->. by change (zlen (@nil Z)) with 0 in Hx.
Qed.

Lemma variable_maybe_loads u :
  t = Maybe u -> fixed u = false ->
  gvs_variable_sized_maybe_n_children s = Some (zlen l) /\
  forall k x, l !! k = Some x -> exists c, gvs_variable_sized_maybe_get_child s (Z.of_nat k) = Some c /\ child_is c x.
Proof.
  intros Et Hf. pose proof loaded as Hld. pose proof (value_good _ _ _ _ Hs) as Hg. rewrite Et in Hg, Hc, Hsize, Hld.
  assert (element_type (Maybe u) u) as He by by left. destruct Hc as (Hi & Hlen & Hu).
  unfold gvs_variable_sized_maybe_n_children, gvs_variable_sized_maybe_get_child. rewrite (value_info _ _ _ _ Hs), Et. cbn [mbind option_bind].
  rewrite (element_ok _ _ He Hg). cbn [mbind option_bind].
  destruct l as [|[u' b] [|]]; [|..|cbn in Hlen; lia]; cbn [container_bytes] in *.
  - split; [|done]. by rewrite Hsize.
  - apply Forall_cons in Hu as [Hu _]. cbn in Hu. subst u'. rewrite Hf, zlen_app in *. change (zlen [0]) with 1 in *.
    pose proof (zlen_nonneg b). split; [by rewrite (proj2 (Z.ltb_lt _ _)) by lia|].
    intros [|k] x [= <-]. eexists. split; [done|]. destruct Hld as (Hh & Hb & Hb'); [lia|]. destruct Hblock as (H0 & _ & Hl & _).
    rewrite wrap_small by lia. apply holds_app in Hh as [Hh _]. replace (size s - 1) with (zlen b) by lia.
    split_and!; try done. cbn [data snd]. destruct (Z.eqb_spec (zlen b) 0) as [E|E].
    + left. split; [done|]. by apply empty_region.
    + right. split_and!; [lia| |done]. by intros ->.
Qed.

(** A child between two offsets. *)
Lemma part_is x start end_ ok e n pre post :
  container_bytes t l = pre ++ snd x ++ post -> start = zlen pre -> end_ = start + zlen (snd x) -> ok = true ->
  (snd x = [] -> e = 0) -> n = u64 (nested s + 1) ->
  child_is (if (start <? end_) && (end_ <=? size s) && ok
            then Serialised (Some (info_of (fst x))) (u64 (data s + start)) (u64 (end_ - start)) n
            else Serialised (Some (info_of (fst x))) 0 e n) x.
Proof.
  intros Eb -> -> -> He ->. pose proof loaded as Hld. rewrite Hsize, Eb, !zlen_app in *. pose proof (zlen_nonneg pre).
  pose proof (zlen_nonneg (snd x)). pose proof (zlen_nonneg post).
  destruct (Z.ltb_spec (zlen pre) (zlen pre + zlen (snd x))) as [Hlt|Hlt]; cbn [andb].
  - rewrite (proj2 (Z.leb_le _ _)) by lia. cbn [andb]. destruct Hld as (Hh & Hb & Hb'); [lia|].
    destruct Hblock as (Hb0 & Htop & Hl & _). rewrite !wrap_small by lia.
    split_and!; [done|cbn [size]; lia|done|right]. cbn [data]. split_and!; [lia|by intros E; rewrite E in Hlt; change (zlen (@nil Z)) with 0 in Hlt; lia|].
    apply holds_mid in Hh. by replace (data s + zlen pre - base) with (data s - base + zlen pre) by lia.
  - assert (snd x = []) as E by (apply empty_region; lia). unfold child_is. rewrite (He E), E. split_and!; [done..|]. left. by split.
Qed.

Lemma fixed_array_loads u :
  t = Array u -> fixed u = true ->
  gvs_fixed_sized_array_n_children s = Some (zlen l) /\
  forall k x, l !! k = Some x -> exists c, gvs_fixed_sized_array_get_child s (Z.of_nat k) = Some c /\ child_is c x.
Proof.
  intros Et Hf. pose proof loaded as Hld. pose proof (value_good _ _ _ _ Hs) as Hg. rewrite Et in Hg, Hc, Hsize, Hld.
  assert (element_type (Array u) u) as He by by right. destruct Hc as (Hi & Hu). pose proof (good_array _ Hg) as Hgu.
  unfold gvs_fixed_sized_array_n_children, gvs_fixed_sized_array_get_child. rewrite (value_info _ _ _ _ Hs), Et. cbn [mbind option_bind].
  rewrite (query_element_ok _ _ He Hg), (element_ok _ _ He Hg). cbn [mbind option_bind]. pose proof (fixed_eq u Hf) as Hne.
  rewrite (query_ok u Hgu). pose proof (type_shape_ok u Hgu) as [[_ H0] _].
  cbn [container_bytes] in *. rewrite Hf in *. rewrite (fixed_concat u l Hi Hu Hf) in Hsize.
  split.
  - destruct (type_shape u) as [d e]. cbn [mbind option_bind snd] in *.
    by rewrite Hsize, Z.mul_comm, Z.mod_mul, Z.div_mul by done.
  - intros k x Hk. apply list_elem_of_split_length in Hk as (l1 & l2 & -> & ->).
    apply Forall_app in Hi as [Hi1 [Hx Hi2]%Forall_cons]. apply Forall_app in Hu as [Hu1 [Hux Hu2]%Forall_cons].
    destruct Hx as (_ & _ & Hx). rewrite Hux in Hx. specialize (Hx Hf). cbv beta in Hux.
    rewrite map_app, concat_app in Hld. cbn [map concat] in Hld.
    pose proof (fixed_concat u l1 Hi1 Hu1 Hf) as El1. rewrite zlen_app, zlen_cons in Hsize.
    pose proof (zlen_nonneg l1). pose proof (zlen_nonneg l2).
    destruct (type_shape u) as [d e]. cbn [mbind option_bind snd] in *. change (Z.of_nat (length l1)) with (zlen l1).
    assert (0 < e /\ 0 <= e * zlen l1 /\ e * zlen l1 + e <= size s) as (He0 & Hel & Hel') by nia.
    destruct Hld as (Hh & Hb & Hb'); [lia|]. destruct Hblock as (Hb0 & Htop & Hl & _).
    rewrite (wrap_small 64 (e * zlen l1)), (wrap_small 64 (data s + _)) by lia. eexists. split; [done|].
    split_and!; [by rewrite Hux|by rewrite Hx|done|right]. cbn [data]. split_and!; [lia|by intros E; rewrite E in Hx; change (zlen (@nil Z)) with 0 in Hx; lia|].
    apply holds_mid in Hh. rewrite El1 in Hh. by replace (data s + e * zlen l1 - base) with (data s - base + e * zlen l1) by lia.
Qed.

(** One of the offsets behind the body. *)
Lemma offset_is b w e1 e e2 p :
  container_bytes t l = b ++ offsets w (e1 ++ e :: e2) -> 0 < w -> 0 <= e < 256 ^ w ->
  p = data s + zlen b + w * zlen e1 -> gvs_read_unaligned_le base mem p w = Some e.
Proof.
  intros Eb Hw He ->. pose proof Hblock as (Hb0 & _). pose proof loaded as Hld. rewrite Hsize, Eb in Hld.
  rewrite offsets_app, offsets_cons in Hld. destruct Hld as (Hh & _).
  { rewrite !zlen_app, zlen_le_bytes. pose proof (zlen_nonneg b). pose proof (zlen_nonneg (offsets w e1)).
    pose proof (zlen_nonneg (offsets w e2)). lia. }
  apply read_le; [done| |lia|done]. apply holds_app in Hh as [_ Hh]. apply holds_mid in Hh. rewrite zlen_offsets in Hh by lia.
  by replace (data s + zlen b + w * zlen e1 - base) with (data s - base + zlen b + w * zlen e1) by lia.
Qed.

Lemma body_upto (l1 l2 : list item) : zlen (body l1) <= zlen (body (l1 ++ l2)).
Proof. destruct (body_app l1 l2) as [rest ->]. rewrite zlen_app. pose proof (zlen_nonneg rest). lia. Qed.

Lemma variable_array_loads u :
  t = Array u -> fixed u = false ->
  gvs_variable_sized_array_n_children base mem s = Some (zlen l) /\
  forall k x, l !! k = Some x -> exists c, gvs_variable_sized_array_get_child base mem s (Z.of_nat k) = Some c /\ child_is c x.
Proof.
  intros Et Hf. pose proof (value_good _ _ _ _ Hs) as Hg. pose proof Hc as Hi. rewrite Et in Hg, Hi. destruct Hi as [Hi Hu].
  assert (element_type (Array u) u) as He by by right. pose proof (good_array _ Hg) as Hgu.
  assert (container_bytes t l = body l ++ offsets (width (zlen (body l)) (zlen l)) (body_ends l)) as Ebytes.
  { rewrite Et. cbn [container_bytes]. by rewrite Hf. }
  pose proof Hsize as Hsz. rewrite Ebytes, zlen_app in Hsz.
  pose proof (width_cases (zlen (body l)) (zlen l)) as Hwd. pose proof (width_fits (zlen (body l)) (zlen l)) as Hfit.
  set (w := width (zlen (body l)) (zlen l)) in *. rewrite zlen_offsets in Hsz by lia.
  assert (zlen (body_ends l) = zlen l) as Een by (unfold zlen; by rewrite length_body_ends). rewrite Een in Hsz.
  pose proof (zlen_nonneg (body l)) as H0.
  assert (l = [] \/ 0 < zlen l) as [El|Hpos].
  { destruct l; [by left|right]. rewrite zlen_cons. pose proof (zlen_nonneg l0). lia. }
  { unfold gvs_variable_sized_array_n_children. rewrite El in *. change (zlen (body [])) with 0 in Hsz. change (zlen (@nil item)) with 0 in *.
    rewrite Hsz, Z.mul_0_r. split; [done|]. by intros []. }
  assert (gvs_get_offset_size (size s) = w) as Eos by (rewrite Hsz; by apply width_of_total).
  assert (0 < w * zlen l /\ w <= w * zlen l) as [Hwl Hwl'] by nia.
  destruct loaded as (Hh & Hb & Hb'); [lia|]. pose proof Hblock as (Hb0 & Htop & Hl & _).
  specialize (fun e => Hfit e (zlen_nonneg l)).
  assert (gvs_read_unaligned_le base mem (u64 (data s + size s - w)) w = Some (zlen (body l))) as Elast.
  { rewrite wrap_small by lia. destruct (exists_last (l := l)) as (l0 & x & E); [by destruct l|].
    assert (body_ends l = body_ends l0 ++ zlen (body l) :: []) as Eb by (rewrite E at 1; by rewrite body_ends_snoc, <- E).
    rewrite Eb in Ebytes. eapply (offset_is (body l) w (body_ends l0)); [exact Ebytes|lia|apply Hfit; lia|].
    rewrite <- Een, Eb, zlen_app in Hsz. change (zlen [zlen (body l)]) with 1 in Hsz. lia. }
  unfold gvs_variable_sized_array_n_children, gvs_variable_sized_array_get_child. rewrite (value_info _ _ _ _ Hs), Et, Eos. cbn [mbind option_bind].
  rewrite (element_ok _ _ He Hg), Elast. cbn [mbind option_bind]. split.
  - rewrite (proj2 (Z.eqb_neq _ _)), (proj2 (Z.ltb_ge _ _)), wrap_small by lia.
    replace (size s - zlen (body l)) with (zlen l * w) by lia. by rewrite Z.mod_mul, Z.div_mul by lia.
  - intros k x Hk. apply list_elem_of_split_length in Hk as (l1 & l2 & El & ->).
    destruct (body_ends_lookup l1 x l2) as (e1 & e2 & Ee & Hl1 & Hprev). rewrite <- El in Ee.
    destruct (body_split l1 x l2) as (rest & Esplit & _). rewrite <- El in Esplit.
    rewrite El in Hi, Hu. apply Forall_app in Hi as [Hi1 [Hx Hi2]%Forall_cons]. apply Forall_app in Hu as [_ [Hux _]%Forall_cons].
    cbv beta in Hux. pose proof (item_mask x Hx) as Hm. pose proof (zlen_place (body l1) x Hm) as Hpl. rewrite <- body_snoc in Hpl.
    pose proof (body_upto (l1 ++ [x]) l2) as Hle. rewrite <- app_assoc in Hle. cbn [app] in Hle. rewrite <- El in Hle.
    pose proof (zlen_nonneg (body l1)). pose proof (zlen_nonneg (snd x)). pose proof (up_bounds _ (zlen (body l1)) Hm) as Hup.
    assert (zlen e1 = Z.of_nat (length l1)) as Ee1 by (unfold zlen; lia). set (k := Z.of_nat (length l1)) in *.
    assert (w * k + w <= w * zlen l /\ 0 <= k /\ 0 <= w * k) as (Hwk & Hk0 & Hwk0).
    { rewrite <- Een, Ee, zlen_app, zlen_cons. pose proof (zlen_nonneg e1). pose proof (zlen_nonneg e2). nia. }
    assert ((if 0 <? k then
        start ← gvs_read_unaligned_le base mem (u64 (data s + zlen (body l) + u64 (w * u64 (k - 1)))) w;
        '(alignment, _) ← xvariant_type_info_query (info_of u); Some (u64 (start + (u64 (- start) & alignment)))
      else Some 0) = Some (up (mask (fst x)) (zlen (body l1)))) as ->.
    { destruct (Z.ltb_spec 0 k) as [Hk|Hk].
      - destruct Hprev as [e0 He0]; [by intros ->|]. rewrite He0, zlen_app in Ee1. change (zlen [zlen (body l1)]) with 1 in Ee1.
        assert (w * (k - 1) = w * k - w) as Ek by lia. assert (0 <= w * (k - 1)) by nia.
        rewrite (wrap_small 64 (k - 1)), (wrap_small 64 (w * (k - 1))), (wrap_small 64 (data s + _ + _)) by lia.
        erewrite (offset_is (body l) w e0 (zlen (body l1))); [|rewrite Ebytes, Ee, He0, <- app_assoc; done|lia|apply Hfit; lia|].
        2:{ replace (zlen e0) with (k - 1) by lia. done. }
        cbn [mbind option_bind]. rewrite (query_ok u Hgu). rewrite Hux in Hm |- *. unfold mask in Hm |- *. destruct (type_shape u) as [d e]. cbn [mbind option_bind fst] in *.
        rewrite align_offset by (lia || done). done.
      - assert (l1 = []) as -> by (destruct l1; [done|cbn in *; lia]). change (zlen (body [])) with 0. rewrite (up_id (mask (fst x)) 0); [done..|]. apply Z.mod_0_l.
        pose proof (mask_range _ Hm). lia. }
    cbn [mbind option_bind]. rewrite (wrap_small 64 (w * k)), (wrap_small 64 (data s + _ + _)) by lia.
    erewrite (offset_is (body l) w e1 (zlen (body (l1 ++ [x])))); [|by rewrite Ebytes, Ee|lia|apply Hfit; lia|lia].
    cbn [mbind option_bind]. eexists. split; [done|]. rewrite <- Hux.
    apply (part_is x _ _ _ _ _ (body l1 ++ padding (mask (fst x)) (zlen (body l1))) (rest ++ offsets w (body_ends l))).
    + by rewrite Ebytes, Esplit, <- !app_assoc.
    + rewrite zlen_app, zlen_padding by done. lia.
    + exact Hpl.
    + by apply Z.leb_le.
    + done.
    + done.
Qed.

(** *** Tuples *)

Section tuple.
Context (Ht : tuple_type t).
Let os := gvs_get_offset_size (size s).

Record tuple_data_ok : Prop := {
  td_types : map fst l = item_types t;
  td_items : Forall item_ok l;
  td_width : 0 <= os <= 8;
  td_body : exists rest, container_bytes t l = body l ++ rest;
  td_fits : zlen (body l) + os * zlen (stored_ends l) <= size s;
  td_fixed : fixed t = true -> stored_ends l = [] /\ Forall (fun x : item => fixed (fst x) = true) l;
  td_exact : fixed t = false -> size s = zlen (body l) + os * zlen (stored_ends l);
  td_stored : stored_ends l <> [] -> container_bytes t l = body l ++ offsets os (rev (stored_ends l)) /\
    0 < os /\ forall e, 0 <= e <= zlen (body l) -> 0 <= e < 256 ^ os;
}.

Lemma tuple_data : tuple_data_ok.
Proof.
  pose proof (value_good _ _ _ _ Hs) as Hg. pose proof (children_tuple t l Ht Hc) as E.
  pose proof (offset_size_ok (size s) (value_size _ _ _ _ Hs)) as (Hos & _). pose proof loaded as Hld.
  pose proof Hsize as Hsz. pose proof (tuple_container t l Ht) as Eb. cbv zeta in Eb. rewrite Eb in Hsz.
  pose proof (zlen_nonneg (body l)). pose proof (zlen_nonneg (stored_ends l)).
  pose proof (width_cases (zlen (body l)) (zlen (stored_ends l))) as Hwd.
  pose proof Hblock as (Hb0 & Htop & Hl & _).
  destruct (fixed t) eqn:Hf.
  - pose proof (tuple_items_fixed t l Hg Ht E Hf) as Hfi. pose proof (stored_fixed l Hfi) as Ef.
    assert (exists rest, container_bytes t l = body l ++ rest) as [rest Er].
    { rewrite Eb. destruct l; [by exists [0]|by eexists]. }
    constructor; try done; [by apply Hc|by exists rest| |by rewrite Hf].
    rewrite Ef, Hsize, Er, zlen_app. change (zlen (@nil Z)) with 0. pose proof (zlen_nonneg rest). lia.
  - rewrite zlen_app, zlen_offsets, rev_zlen in Hsz by lia.
    assert (stored_ends l = [] \/ 0 < zlen (stored_ends l)) as [En|Hpos].
    { destruct (stored_ends l); [by left|right]. rewrite zlen_cons. pose proof (zlen_nonneg l0). lia. }
    + assert (size s = zlen (body l) + os * zlen (stored_ends l)) as Ex.
      { rewrite Hsz, En. change (zlen (@nil Z)) with 0. lia. }
      constructor; try done; [by apply Hc|by eexists|lia|by rewrite Hf].
    + assert (os = width (zlen (body l)) (zlen (stored_ends l))) as Eos.
      { unfold os. rewrite Hsz. by apply width_of_total. }
      rewrite <- Eos in *. constructor; try done; [by apply Hc|by eexists|lia|by rewrite Hf|].
      intros _. split_and!; [done|lia|]. intros e He. rewrite Eos. apply width_fits; [lia|done|]. assert (0 <= os * zlen (stored_ends l)) by nia.
      destruct Hld as (_ & ? & ?); [nia|]. lia.
Qed.

(** The end with [zlen e1] before it. *)
Lemma stored_end_read e1 e e2 :
  stored_ends l = e1 ++ e :: e2 -> 0 <= e <= zlen (body l) ->
  gvs_read_unaligned_le base mem (u64 (data s + size s - u64 (os * (zlen e1 + 1)))) os = Some e.
Proof.
  intros Ee He. destruct tuple_data as [_ _ Hos _ Hfits Hfx Hex Hst].
  destruct Hst as (Eb & Hos0 & Hfit); [by rewrite Ee; destruct e1|].
  assert (fixed t = false) as Hf by (destruct (fixed t); [|done]; destruct Hfx as [Hn _]; [done|]; rewrite Hn in Ee; by destruct e1).
  specialize (Hex Hf). rewrite Ee, zlen_app, zlen_cons in Hex. rewrite Ee, rev_app_distr in Eb. cbn [rev] in Eb. rewrite <- app_assoc in Eb. cbn [app] in Eb.
  pose proof (zlen_nonneg e1). pose proof (zlen_nonneg e2). pose proof (zlen_nonneg (body l)).
  assert (0 <= os * (zlen e1 + 1) /\ os * (zlen e1 + (1 + zlen e2)) = os * (zlen e1 + 1) + os * zlen e2 /\ 0 <= os * zlen e2 /\ 0 < os * (zlen e1 + 1)) as (? & Em & ? & ?) by nia.
  pose proof Hblock as (Hb0 & Htop & Hl & _). destruct loaded as (_ & Hb & Hb'); [nia|].
  rewrite (wrap_small 64 (os * _)), (wrap_small 64 (data s + size s - _)) by nia.
  apply (offset_is (body l) os (rev e2) e (rev e1)); [done|done|by apply Hfit|]. rewrite rev_zlen. lia.
Qed.

Section member.
Context (l1 : list item) (x : item) (l2 : list item) (El : l = l1 ++ x :: l2).
Let start := up (mask (fst x)) (zlen (body l1)).
Let end_ := zlen (body (l1 ++ [x])).

Lemma member_range :
  0 <= zlen (body l1) <= start /\ end_ = start + zlen (snd x) /\ end_ <= zlen (body l) /\ zlen (body l) <= size s /\ size s < 2 ^ 55.
Proof.
  destruct tuple_data as [_ Hi _ _ Hfits _ _ _]. rewrite El in Hi. apply Forall_app in Hi as [_ [Hx _]%Forall_cons].
  pose proof (item_mask x Hx) as Hm. pose proof (up_bounds _ (zlen (body l1)) Hm). pose proof (zlen_nonneg (body l1)).
  pose proof (offset_size_ok (size s) (value_size _ _ _ _ Hs)) as (Hos & _). pose proof (zlen_nonneg (stored_ends l)).
  pose proof (body_upto (l1 ++ [x]) l2) as Hle. rewrite <- app_assoc in Hle. cbn [app] in Hle. rewrite <- El in Hle.
  pose proof Hblock as (Hb0 & Htop & Hl & _). unfold os in Hfits. unfold start, end_. rewrite body_snoc, zlen_place by done.
  rewrite body_snoc, zlen_place in Hle by done. 
  assert (0 <= gvs_get_offset_size (size s) * zlen (stored_ends l)) by nia.
  assert (size s < 2 ^ 55); [|split_and!; lia].
  destruct (Z.eq_dec (size s) 0); [lia|]. destruct loaded as (_ & ? & ?); [done|lia].
Qed.

(** Where the member starts, from the end of the last item of variable size before it. *)
Lemma member_start_read m n :
  member_ok (map type_shape (take (length l1) (item_types t))) (type_shape (fst x)) m -> n = zlen (var_ends l1) ->
  os * n <= size s /\
  exists p, (if negb (n =? 0) then gvs_read_unaligned_le base mem (u64 (data s + size s - u64 (os * n))) os else Some 0) = Some p /\
    member_start p m = start.
Proof.
  intros (_ & Hst & _) ->. destruct tuple_data as [E Hi Hos _ Hfits _ _ _]. pose proof member_range as Hr.
  destruct (stored_ends_prefix l1 x l2) as (e & Ee & _). rewrite <- El in Ee.
  rewrite El in Hi. apply Forall_app in Hi as [Hi1 _]. pose proof (last_var_end_range l1 Hi1) as Hlast.
  assert (take (length l1) (item_types t) = map fst l1) as Et.
  { rewrite <- E, El, map_app, <- (length_map fst l1). apply take_app_length. }
  rewrite Et in Hst. pose proof (zlen_nonneg (var_ends l1)). pose proof (zlen_nonneg e).
  rewrite Ee, zlen_app in Hfits. pose proof (zlen_nonneg (snd x)). assert (zlen (body l1) <= zlen (body l)) by lia.
  split; [nia|]. exists (last_var_end l1). split.
  - destruct (Z.eqb_spec (zlen (var_ends l1)) 0) as [E0|Hne]; cbn [negb].
    + unfold last_var_end. by rewrite (empty_region _ E0).
    + destruct (exists_last (l := var_ends l1)) as (v & y & Ev); [by intros E0; rewrite E0 in Hne|].
      assert (last_var_end l1 = y) as Ey by (unfold last_var_end; by rewrite Ev, last_snoc).
      rewrite Ev, zlen_app. change (zlen [y]) with 1. rewrite Ey in *.
      apply (stored_end_read v y e); [by rewrite Ee, Ev, <- app_assoc|lia].
  - rewrite Hst by lia. unfold start, mask. f_equal. by apply run_body.
Qed.

Lemma tuple_member_loads fuel :
  (l2 = [] \/ exists c, tuple_get_child base mem fuel s (u64 (zlen (item_types t) - 1)) = Some c /\
    end_ <= u64 (data c + size c - data s)) ->
  exists ok, ok = true /\ tuple_get_child base mem (S fuel) s (zlen l1) =
    Some (if (start <? end_) && (end_ <=? size s) && ok
          then Serialised (Some (info_of (fst x))) (u64 (data s + start)) (u64 (end_ - start)) (u64 (nested s + 1))
          else Serialised (Some (info_of (fst x))) 0 (snd (type_shape (fst x))) (u64 (nested s + 1))).
Proof.
  intros Hlast. pose proof (value_good _ _ _ _ Hs) as Hg. destruct tuple_data as [E Hi Hos _ Hfits Hfx Hex _].
  pose proof member_range as (H0 & Hend & Hle & Hle' & Hsm). pose proof member_start_read as Hstart.
  assert (item_types t !! length l1 = Some (fst x)) as Hk.
  { rewrite <- E, El, map_app. cbn [map]. rewrite <- (length_map fst l1). apply list_lookup_middle. done. }
  destruct (members_lookup t Hg _ _ Hk) as (m & Hm & Hmok & He). pose proof (proj1 Hmok) as Hmi. specialize (Hstart m _ Hmok eq_refl).
  pose proof (items_short t Hg) as Hshort. pose proof (f_equal zlen E) as Elen. unfold zlen in Elen at 1. rewrite length_map in Elen. fold (zlen l) in Elen.
  assert (vars (map type_shape (take (length l1) (item_types t))) = zlen (var_ends l1)) as Hvars.
  { rewrite zlen_var_ends. do 2 f_equal. rewrite <- E, El, map_app, <- (length_map fst l1). apply take_app_length. }
  rewrite Hvars in Hmi. set (n := zlen (var_ends l1)) in *. rewrite <- Elen in *.
  assert (0 <= n <= zlen l1) as Hn.
  { split; [apply zlen_nonneg|]. unfold n. rewrite zlen_var_ends. pose proof (vars_le (map type_shape (map fst l1))) as Hv.
    unfold zlen in *. by rewrite !length_map in Hv. }
  assert (zlen l = zlen l1 + 1 + zlen l2) as Ell by (rewrite El, zlen_app, zlen_cons; lia).
  pose proof (zlen_nonneg l1). pose proof (zlen_nonneg l2). pose proof (zlen_nonneg (snd x)).
  assert (u64 (m_i m + 1) = n /\ u64 (m_i m + 2) = n + 1) as [Hi1 Hi2].
  { rewrite Hmi. unfold wrap. rewrite !Z.add_mod_idemp_l by lia. split; rewrite Z.mod_small; lia. }
  destruct Hstart as (Hon & p & Hp & Hst). rewrite El in Hi. apply Forall_app in Hi as [Hix1 [Hx Hix2]%Forall_cons].
  destruct Hx as (Hgx & _ & Hfs).
  assert ((data s =? 0) && negb (size s =? 0) = false) as Hnull.
  { destruct (Z.eqb_spec (size s) 0); [by rewrite andb_false_r|]. destruct loaded as (_ & ? & _); [done|]. destruct Hblock as (? & _).
    by rewrite (proj2 (Z.eqb_neq (data s) 0)) by lia. }
  cbn [tuple_get_child]. rewrite (value_info _ _ _ _ Hs). cbn [mbind option_bind].
  rewrite (member_info_ok t _ Ht Hg). cbn [mbind option_bind]. rewrite rd_ge_0 by done. replace (Z.to_nat (zlen l1)) with (length l1) by (unfold zlen; lia). rewrite Hm. cbn [mbind option_bind].
  rewrite (n_members_ok t Ht Hg), <- Elen, (query_ok (fst x) Hgx), Hi1, Hi2, Hnull. fold os.
  assert (0 <= os * n /\ os * (n + 1) = os * n + os) as [Hon0 Hon1] by nia.
  rewrite (wrap_small 64 (os * n)), (wrap_small 64 (os * (n + 1))) in * by lia.
  assert (exists last_end, end_ <= last_end /\ (if negb (zlen l1 =? u64 (zlen l - 1)) then
      last_child ← tuple_get_child base mem fuel s (u64 (zlen l - 1));
      Some (u64 (data last_child + size last_child - data s)) else Some end_) = Some last_end) as (last_end & Hlend & Hlcode).
  { rewrite (wrap_small 64 (zlen l - 1)) in * by lia. destruct Hlast as [-> |(c & Ec & Hcl)].
    - change (zlen (@nil item)) with 0 in Ell. rewrite (proj2 (Z.eqb_eq _ _)) by lia. exists end_. split; [lia|done].
    - rewrite Ec. cbn [mbind option_bind]. destruct (negb (zlen l1 =? zlen l - 1)); eexists; (split; [|reflexivity]); [done|lia]. }
  cbn [mbind option_bind] in Hlcode, Hp. exists (end_ <=? last_end). split; [by apply Z.leb_le|].
  rewrite He. unfold ending, G_VARIANT_MEMBER_ENDING_FIXED, G_VARIANT_MEMBER_ENDING_LAST, G_VARIANT_MEMBER_ENDING_OFFSET.
  fold (fixed (fst x)). destruct (fixed (fst x)) eqn:Hf; cbn [Z.eqb andb negb].
  - rewrite (proj2 (Z.ltb_ge _ _)), Hp by done. cbn [mbind option_bind]. rewrite Hst. specialize (Hfs eq_refl).
    destruct (type_shape (fst x)) as [d e]. cbn [mbind option_bind snd] in *. rewrite (wrap_small 64 (start + e)) by lia.
    replace (start + e) with end_ by lia. rewrite Hlcode. done.
  - rewrite (not_fixed (fst x) Hf). assert (fixed t = false) as Hft.
    { destruct (fixed t); [|done]. destruct Hfx as [_ Hall]; [done|]. rewrite El in Hall. apply Forall_app in Hall as [_ [Hfx' _]%Forall_cons].
      cbv beta in Hfx'. by rewrite Hfx' in Hf. }
    specialize (Hex Hft). destruct (Nat.eqb_spec (S (length l1)) (length (item_types t))) as [Hlst|Hlst]; cbn [Z.eqb Pos.eqb andb negb].
    + assert (l2 = []) as ->.
      { destruct l2; [done|]. rewrite <- E, length_map, El, length_app in Hlst. cbn in Hlst. lia. }
      rewrite (proj2 (Z.ltb_ge _ _)), Hp by done. cbn [mbind option_bind]. rewrite Hst.
      assert (size s - os * n = end_) as ->.
      { rewrite Hex, El, stored_ends_snoc. unfold end_, n. ring. }
      rewrite (wrap_small 64 end_) by lia. by rewrite Hlcode.
    + assert (l2 <> []) as Hl2.
      { intros ->. rewrite <- E, length_map, El, length_app in Hlst. cbn in Hlst. lia. }
      destruct (stored_ends_split l1 x l2 Hl2 Hf) as [e Ee]. rewrite <- El in Ee. fold end_ in Ee.
      assert (os * (n + 1) <= size s) as Hon2.
      { rewrite Hex, Ee, zlen_app, zlen_cons. fold n. pose proof (zlen_nonneg e). nia. }
      rewrite (proj2 (Z.ltb_ge _ _)), Hp by done. cbn [mbind option_bind]. rewrite Hst.
      pose proof (stored_end_read (var_ends l1) end_ e Ee) as Hread. fold n in Hread. rewrite (wrap_small 64 (os * (n + 1))) in Hread by lia.
      rewrite Hread by lia. cbn [mbind option_bind]. by rewrite Hlcode.
Qed.
End member.

(** The last child ends behind the others, for the program that counts modulo 2^64. *)
Lemma last_child_end l1 y :
  l = l1 ++ [y] -> exists c, tuple_get_child base mem 1 s (zlen l1) = Some c /\
    forall e, 0 <= e <= zlen (body l) -> e <= u64 (data c + size c - data s).
Proof.
  intros El. destruct (tuple_member_loads l1 y [] El 0) as (ok & -> & E); [by left|].
  pose proof (member_range l1 y [] El) as (H0 & Hend & Hle & Hle' & Hsm). destruct tuple_data as [_ Hi _ _ _ _ _ _].
  rewrite El in Hi. apply Forall_app in Hi as [_ [(_ & _ & Hfs) _]%Forall_cons].
  set (start := up (mask (fst y)) (zlen (body l1))) in *. rewrite E. clear E. eexists. split; [done|]. intros e He. rewrite <- El in *.
  pose proof (value_place _ _ _ _ Hs) as Hp. pose proof Hblock as (Hb0 & Htop & Hl & _). pose proof (zlen_nonneg (snd y)).
  rewrite (proj2 (Z.leb_le _ (size s))), andb_true_r, andb_true_r by done.
  destruct (Z.ltb_spec start (zlen (body l))) as [Hlt|Hge]; cbn [data size].
  - destruct loaded as (_ & ? & ?); [lia|]. rewrite (wrap_small 64 (data s + start)), (wrap_small 64 (_ - start)), wrap_small by lia. lia.
  - assert (zlen (snd y) = 0) as Ey by lia. destruct (fixed (fst y)) eqn:Hf.
    + exfalso. pose proof (fixed_eq _ Hf). specialize (Hfs eq_refl). lia.
    + rewrite (not_fixed _ Hf). unfold wrap. destruct (Z.eq_dec (size s) 0); [zify_div|]. destruct loaded as (_ & ? & ?); [done|]. zify_div.
Qed.

Lemma tuple_loads :
  gvs_tuple_n_children s = Some (zlen l) /\
  forall k x, l !! k = Some x -> exists c, gvs_tuple_get_child base mem s (Z.of_nat k) = Some c /\ child_is c x.
Proof.
  pose proof (value_good _ _ _ _ Hs) as Hg. pose proof tuple_data as [E Hi _ [rest Er] _ _ _ _].
  pose proof (f_equal zlen E) as Elen. unfold zlen in Elen at 1. rewrite length_map in Elen. fold (zlen l) in Elen. split.
  { unfold gvs_tuple_n_children. rewrite (value_info _ _ _ _ Hs). cbn [mbind option_bind]. rewrite Elen. by apply n_members_ok. }
  intros k x Hk. apply list_elem_of_split_length in Hk as (l1 & l2 & El & ->). fold (zlen l1).
  pose proof (member_range l1 x l2 El) as (H0 & Hend & Hle & Hle' & Hsm). pose proof (items_short t Hg) as Hshort. pose proof (zlen_nonneg (snd x)).
  destruct (tuple_member_loads l1 x l2 El 1) as (ok & Eok & Ec).
  { destruct l2 as [|y l2 _] using rev_ind; [by left|right]. rewrite <- Elen in *.
    assert (l = (l1 ++ x :: l2) ++ [y]) as El' by (rewrite El, <- app_assoc; done).
    destruct (last_child_end _ y El') as (c & Ec & Hc'). exists c. split; [|apply Hc'; lia]. rewrite <- Ec. f_equal.
    pose proof (f_equal zlen El') as Ez. rewrite zlen_app in Ez. change (zlen [y]) with 1 in Ez. pose proof (zlen_nonneg (l1 ++ x :: l2)).
    rewrite wrap_small by lia. lia. }
  unfold gvs_tuple_get_child. rewrite Ec. clear Ec. eexists. split; [done|].
  rewrite El in Hi. apply Forall_app in Hi as [_ [Hx _]%Forall_cons]. destruct (body_split l1 x l2) as (rest' & Eb & _). rewrite <- El in Eb.
  apply (part_is x _ _ _ _ _ (body l1 ++ padding (mask (fst x)) (zlen (body l1))) (rest' ++ rest)); try done.
  - by rewrite Er, Eb, <- !app_assoc.
  - rewrite zlen_app, zlen_padding by by apply item_mask. lia.
  - intros Ee. destruct (fixed (fst x)) eqn:Hf; [|by apply not_fixed]. destruct Hx as (_ & _ & Hfs). rewrite <- (Hfs Hf), Ee. done.
Qed.
End tuple.

(** *** Variants *)

Lemma find_nul_ok b u fuel n :
  container_bytes t l = b ++ [0] ++ print u -> good u -> zlen b <= n < size s -> (Z.to_nat n <= fuel)%nat ->
  find_nul base mem fuel s n = Some (zlen b).
Proof.
  intros Eb Hgu. pose proof Hsize as Hsz. rewrite Eb in Hsz. destruct loaded as (Hh & _).
  { rewrite !zlen_app in Hsz. change (zlen [0]) with 1 in Hsz. pose proof (zlen_nonneg b). pose proof (zlen_nonneg (print u)). lia. }
  rewrite Eb in Hh. revert n. induction fuel as [|fuel IH]; intros n Hn Hf; pose proof (zlen_nonneg b); cbn [find_nul].
  - assert (n = 0) as -> by lia. cbn. f_equal. lia.
  - destruct (Z.eqb_spec n 0); [f_equal; lia|]. unfold load.
    destruct (Z.eq_dec n (zlen b)) as [->|Hne].
    + apply holds_mid, holds_cons in Hh as [Hr _]. replace (data s + zlen b - base) with (data s - base + zlen b) by lia. by rewrite Hr.
    + pose proof (print_no_nul u (proj1 Hgu)) as Hnn. rewrite !zlen_app in Hsz. change (zlen [0]) with 1 in Hsz.
      destruct (lookup_lt_is_Some_2 (print u) (Z.to_nat (n - zlen b - 1))) as [c Hcu]; [unfold zlen in *; lia|].
      pose proof (proj1 (Forall_lookup _ _) Hnn _ _ Hcu) as Hc0. cbv beta in Hc0. apply list_elem_of_split_length in Hcu as (p1 & p2 & Ep & Elp).
      rewrite Ep, !app_assoc in Hh. apply holds_app in Hh as [_ Hh]. apply holds_cons in Hh as [Hr _].
      rewrite !zlen_app in Hr. change (zlen [0]) with 1 in Hr.
      replace (data s + n - base) with (data s - base + (zlen b + 1 + zlen p1)) by (unfold zlen in *; lia). rewrite Hr. cbn [mbind option_bind].
      rewrite (proj2 (Z.eqb_neq c 0)) by done. apply IH; lia.
Qed.

Lemma nesting_depth u : Z.of_nat (nesting u) <= depth u + 1.
Proof.
  induction u as [c|u IH|u IH|ts IH|k v IH] using vtype_ind'; cbn [depth nesting]; try lia.
  induction IH as [|u ts Hu _ IHts]; cbn [foldr]; lia.
Qed.

(** The recursion limit has to leave room for the type. *)
Lemma variant_loads u b :
  t = Leaf 118 -> l = [(u, b)] -> 0 <= nested s -> nested s + depth u < 128 ->
  exists c, gvs_variant_get_child base mem s 0 = Some c /\ child_is c (u, b).
Proof.
  intros Et El Hns Hdep. pose proof Hc as Hi. rewrite El in Hi. destruct Hi as [[(Hgu & Hbb & Hfs) _]%Forall_cons _]. cbn [fst snd] in *.
  assert (container_bytes t l = b ++ [0] ++ print u) as Eb by by rewrite Et, El.
  pose proof Hsize as Hsz. rewrite Eb, !zlen_app in Hsz. change (zlen [0]) with 1 in Hsz. pose proof (zlen_nonneg b). pose proof (zlen_nonneg (print u)).
  destruct loaded as (Hh & Hb & Hb'); [lia|]. rewrite Eb in Hh. pose proof Hblock as (Hb0 & Htop & Hl & _).
  pose proof (nesting_depth u) as Hnd. pose proof (depth_nonneg u) as Hd0.
  assert (holds mem (data s - base + zlen b + 1) (print u)) as Hpr.
  { apply holds_app in Hh as [_ Hh]. by apply holds_app in Hh as [_ Hh]. }
  assert (variant_type_string base mem s = Some (Some (data s + zlen b + 1, zlen b))) as Efound.
  { unfold variant_type_string. rewrite (proj2 (Z.eqb_neq (size s) 0)), (find_nul_ok b u) by (done || lia). cbn [mbind option_bind].
    apply holds_mid, holds_cons in Hh as [Hr _]. unfold load. replace (data s + zlen b - base) with (data s - base + zlen b) by lia.
    rewrite Hr. cbn [mbind option_bind Z.eqb negb]. unfold xvariant_type_string_scan.
    replace (data s + zlen b + 1 - base) with (data s - base + zlen b + 1) by lia.
    rewrite (scan_complete u); [|apply Hgu|unfold G_VARIANT_MAX_RECURSION_DEPTH; lia|done|cbn; lia].
    cbn [mbind option_bind option_map fst]. rewrite (proj2 (Z.eqb_eq _ (data s + size s - base))) by lia. cbn [negb].
    rewrite (is_definite_ok mem _ u); [|apply Hgu|split; [apply Hgu|done]]. cbn [mbind option_bind]. by rewrite (proj1 (proj2 Hgu)). }
  unfold gvs_variant_get_child. rewrite Efound. cbn [mbind option_bind].
  replace (data s + zlen b + 1 - base) with (data s - base + zlen b + 1) by lia.
  rewrite (info_get_ok mem _ u) by (done || (split; [apply Hgu|done])). cbn [mbind option_bind].
  rewrite (query_ok u Hgu), (query_depth_ok u Hgu) by lia. unfold fixed in Hfs. destruct (type_shape u) as [d e] eqn:Esh. cbn [mbind option_bind snd] in *.
  change max_depth with 128. rewrite (wrap_small 64 (128 - depth u)), (proj2 (Z.ltb_lt (nested s) _)), andb_true_r by lia.
  assert ((e =? 0) || (e =? zlen b) = true) as ->.
  { destruct (Z.eqb_spec e 0); [done|]. cbn [negb] in Hfs. rewrite Hfs by done. cbn. apply Z.eqb_refl. }
  cbn [mbind option_bind]. eexists. split; [done|]. split_and!; try done. cbn [data fst snd].
  destruct (Z.eqb_spec (zlen b) 0) as [E0|Hne]; cbn [negb]; [left; split; [done|by apply empty_region]|].
  right. split_and!; [lia|by intros ->|]. by apply holds_app in Hh as [Hh _].
Qed.
End load.

(** ** The entry points, whatever the kind of the container *)

(** The types child [i] of a container of type [t] can have; that of the child
    of a variant is in the data. *)
Definition child_type (t : vtype) (i : Z) (u : vtype) : Prop :=
  match t with
  | Leaf _ => good u
  | Maybe v | Array v => u = v
  | Tuple _ | Entry _ _ => rd (item_types t) i = Some u
  end.
Definition container (t : vtype) : Prop := match t with Leaf c => c = 118 | _ => True end.

Lemma container_kind t : container t -> exists k, kind_of t = Some k.
Proof. destruct t; cbn; try (intros _; by eexists). intros ->. by eexists. Qed.

Section entry.
Context (base : Z) (mem : list Z) (Hblock : block base mem).

Lemma n_children_entry s t k :
  value_ok base mem s t -> kind_of t = Some k -> xvariant_serialised_n_children base mem s = n_children_of base mem k s.
Proof.
  intros Hs Hk. unfold xvariant_serialised_n_children. rewrite (serialised_check_ok base mem s t Hs).
  cbn [assert_ok mbind option_bind assert_then]. rewrite (value_info _ _ _ _ Hs). cbn [mbind option_bind].
  rewrite (dispatch_ok t (value_good _ _ _ _ Hs)), Hk. done.
Qed.
Lemma get_child_entry s t k i n :
  value_ok base mem s t -> kind_of t = Some k -> n_children_of base mem k s = Some n ->
  (n <= i -> xvariant_serialised_get_child base mem s i = None) /\
  forall c u, i < n -> get_child_of base mem k s i = Some c -> value_ok base mem c u -> data c = 0 \/ size c <> 0 ->
    xvariant_serialised_get_child base mem s i = Some c.
Proof.
  intros Hs Hk Hn. unfold xvariant_serialised_get_child. rewrite (serialised_check_ok base mem s t Hs), (n_children_entry s t k Hs Hk), Hn.
  cbn [assert_ok mbind option_bind assert_then]. rewrite (value_info _ _ _ _ Hs). cbn [mbind option_bind].
  rewrite (dispatch_ok t (value_good _ _ _ _ Hs)), Hk. cbn [mbind option_bind]. split.
  - intros Hi. by rewrite (proj2 (Z.ltb_ge _ _)).
  - intros c u Hi Hc Hcu Hd. rewrite (proj2 (Z.ltb_lt _ _)), Hc by done. cbn [mbind option_bind].
    rewrite (serialised_check_ok base mem c u Hcu). destruct Hd as [->|Hd].
    + by rewrite orb_true_r.
    + by rewrite (proj2 (Z.eqb_neq _ _) Hd).
Qed.

(** What each handler does for any bytes. *)
Lemma kind_safe s t k :
  value_ok base mem s t -> kind_of t = Some k -> 0 <= nested s ->
  exists n, n_children_of base mem k s = Some n /\ 0 <= n /\
    forall i, 0 <= i < n -> exists c u, get_child_of base mem k s i = Some c /\ child_ok base mem s c u /\ child_type t i u /\
      (t = Leaf 118 -> within_limit s u).
Proof.
  intros Hs Hk Hns. pose proof (value_good _ _ _ _ Hs) as Hg.
  assert (forall u, (exists n, n_children_of base mem k s = Some n /\ 0 <= n /\
      forall i, 0 <= i < n -> exists c, get_child_of base mem k s i = Some c /\ child_ok base mem s c u) ->
    t <> Leaf 118 -> (forall i, child_type t i u) -> exists n, n_children_of base mem k s = Some n /\ 0 <= n /\
    forall i, 0 <= i < n -> exists c u, get_child_of base mem k s i = Some c /\ child_ok base mem s c u /\ child_type t i u /\
      (t = Leaf 118 -> within_limit s u)) as Helement.
  { intros u (n & En & Hn & Hc) Ht Hu. exists n. split_and!; [done..|]. intros i Hi. destruct (Hc i Hi) as (c & Ec & Hcc).
    exists c, u. by split_and!. }
  destruct t as [c|u|u|ts|kt v]; cbn [kind_of] in Hk.
  - destruct (Z.eqb_spec c 118) as [->|]; [|done]. injection Hk as <-. exists 1. split_and!; [done..|]. intros i _.
    destruct (variant_safe base mem Hblock s i Hs Hns) as (c & u & Ec & Hc & Hl). exists c, u. split_and!; try done. apply Hc.
  - injection Hk as <-. apply (Helement u); [|done..]. destruct (fixed u) eqn:Hf; cbn [n_children_of get_child_of].
    + destruct (fixed_maybe_safe base mem s u Hs Hf) as (n & En & Hn & Hc). exists n. split_and!; [done|lia|done].
    + destruct (variable_maybe_safe base mem Hblock s u Hs Hf) as (n & En & Hn & Hc). exists n. split_and!; [done|lia|done].
  - injection Hk as <-. apply (Helement u); [|done..]. destruct (fixed u) eqn:Hf; cbn [n_children_of get_child_of].
    + destruct (fixed_array_safe base mem Hblock s u Hs Hf) as (n & En & Hn & Hc). exists n. split_and!; [done|lia|done].
    + destruct (variable_array_safe base mem Hblock s u Hs Hf) as (n & En & Hn & Hc). exists n. split_and!; [done|lia|done].
  - injection Hk as <-. destruct (tuple_safe base mem Hblock s _ Hs I) as [En Hc]. eexists. split_and!; [exact En|apply zlen_nonneg|].
    intros i Hi. destruct (lookup_lt_is_Some_2 (item_types (Tuple ts)) (Z.to_nat i)) as [u Hu]; [unfold zlen in Hi; lia|].
    destruct (Hc _ u Hu) as (c & Ec & Hcc). rewrite Z2Nat.id in Ec by lia. exists c, u. split_and!; [done..| |done].
    cbn [child_type]. by rewrite rd_ge_0 by lia.
  - injection Hk as <-. destruct (tuple_safe base mem Hblock s _ Hs I) as [En Hc]. eexists. split_and!; [exact En|apply zlen_nonneg|].
    intros i Hi. destruct (lookup_lt_is_Some_2 (item_types (Entry kt v)) (Z.to_nat i)) as [u Hu]; [unfold zlen in Hi; lia|].
    destruct (Hc _ u Hu) as (c & Ec & Hcc). rewrite Z2Nat.id in Ec by lia. exists c, u. split_and!; [done..| |done].
    cbn [child_type]. by rewrite rd_ge_0 by lia.
Qed.

(** What each handler finds in the bytes of a container. *)
Lemma kind_loads s t k l :
  value_ok base mem s t -> kind_of t = Some k -> 0 <= nested s -> children_ok t l ->
  (t = Leaf 118 -> Forall (fun x : item => nested s + depth (fst x) < 128) l) ->
  size s = zlen (container_bytes t l) -> size s = 0 \/ holds mem (data s - base) (container_bytes t l) ->
  n_children_of base mem k s = Some (zlen l) /\
  forall j x, l !! j = Some x -> exists c, get_child_of base mem k s (Z.of_nat j) = Some c /\ child_is base mem s c x.
Proof.
  intros Hs Hk Hns Hc Hlim Hsize Hbytes. destruct t as [c|u|u|ts|kt v]; cbn [kind_of] in Hk.
  - destruct (Z.eqb_spec c 118) as [->|]; [|done]. injection Hk as <-. pose proof Hc as (_ & _ & Hlen).
    destruct l as [|[u b] [|]]; try done. split; [done|]. intros [|j] x [= <-]. cbn [get_child_of]. specialize (Hlim eq_refl).
    apply Forall_cons in Hlim as [Hlim _]. by apply (variant_loads base mem Hblock s (Leaf 118) [(u, b)] Hc Hsize Hbytes u b).
  - injection Hk as <-. destruct (fixed u) eqn:Hf.
    + by apply (fixed_maybe_loads base mem Hblock s (Maybe u) l Hs Hc Hsize Hbytes u).
    + by apply (variable_maybe_loads base mem Hblock s (Maybe u) l Hs Hc Hsize Hbytes u).
  - injection Hk as <-. destruct (fixed u) eqn:Hf.
    + by apply (fixed_array_loads base mem Hblock s (Array u) l Hs Hc Hsize Hbytes u).
    + by apply (variable_array_loads base mem Hblock s (Array u) l Hs Hc Hsize Hbytes u).
  - injection Hk as <-. by apply (tuple_loads base mem Hblock s (Tuple ts) l Hs Hc Hsize Hbytes).
  - injection Hk as <-. by apply (tuple_loads base mem Hblock s (Entry kt v) l Hs Hc Hsize Hbytes).
Qed.

(** Getting children through the entry points. *)
Lemma entry_safe s t :
  value_ok base mem s t -> container t -> 0 <= nested s ->
  exists n, xvariant_serialised_n_children base mem s = Some n /\ 0 <= n /\
    (forall i, n <= i -> xvariant_serialised_get_child base mem s i = None) /\
    forall i, 0 <= i < n -> exists c u, xvariant_serialised_get_child base mem s i = Some c /\ child_ok base mem s c u /\
      child_type t i u /\ (t = Leaf 118 -> within_limit s u).
Proof.
  intros Hs Ht Hns. destruct (container_kind t Ht) as [k Hk]. destruct (kind_safe s t k Hs Hk Hns) as (n & En & Hn & Hc).
  exists n. split; [by rewrite (n_children_entry s t k)|]. split; [done|]. split.
  - intros i Hi. by apply (get_child_entry s t k i n).
  - intros i Hi. destruct (Hc i Hi) as (c & u & Ec & Hcc & Hcu). exists c, u. split; [|done].
    destruct Hcc as (Hcv & _ & _ & Hd). apply (get_child_entry s t k i n Hs Hk En) with (u := u); try done. lia.
Qed.
Lemma entry_loads s t l :
  value_ok base mem s t -> container t -> 0 <= nested s -> children_ok t l ->
  (t = Leaf 118 -> Forall (fun x : item => nested s + depth (fst x) < 128) l) ->
  size s = zlen (container_bytes t l) -> size s = 0 \/ holds mem (data s - base) (container_bytes t l) ->
  xvariant_serialised_n_children base mem s = Some (zlen l) /\
  forall j x, l !! j = Some x -> exists c, xvariant_serialised_get_child base mem s (Z.of_nat j) = Some c /\ child_is base mem s c x.
Proof.
  intros Hs Ht Hns Hcl Hlim Hsize Hbytes. destruct (container_kind t Ht) as [k Hk].
  destruct (kind_loads s t k l Hs Hk Hns Hcl Hlim Hsize Hbytes) as [En Hc].
  destruct (kind_safe s t k Hs Hk Hns) as (n & En' & _ & Hsafe). rewrite En in En'. injection En' as <-.
  split; [by rewrite (n_children_entry s t k)|]. intros j x Hj. pose proof (lookup_lt_Some _ _ _ Hj).
  destruct (Hc j x Hj) as (c & Ec & Hcx). destruct (Hsafe (Z.of_nat j)) as (c' & u & Ec' & Hcc & _); [unfold zlen; lia|].
  rewrite Ec in Ec'. injection Ec' as <-. exists c. split; [|done]. destruct Hcc as (Hcv & _ & _ & Hd).
  apply (get_child_entry s t k (Z.of_nat j) (zlen l) Hs Hk En) with (u := u); try done. unfold zlen. lia.
Qed.
End entry.
