(* ===== verification/SerialiserNormal.v ===== *)
(** * Checking for the normal form: src/glib/gvariant-serialiser.c

    The handlers of [xvariant_serialised_is_normal] and the checks of strings.
    The handler of a container takes the function that checks a child; the
    recursion stops at a depth of [G_VARIANT_MAX_RECURSION_DEPTH]. *)

From S2P Require Import Prelude.
From S2P Require Import Utf8.
From S2P Require Import VariantType.
From S2P Require Import VariantInfo.
From S2P Require Import Serialiser.
From Stdlib Require Import Ascii.
Local Open Scope Z_scope.
Local Open Scope xpl_scope.

Local Notation "'chr' a" :=
  ltac:(let v := eval vm_compute in (Z.of_N (N_of_ascii a%char)) in exact v)
  (at level 10, a constr, only parsing).

(** [g_ascii_table], in src/glib/gstrfuncs.c, and [g_ascii_isalnum]. *)
Definition ascii_table_data : list Z := [
  0x004; 0x004; 0x004; 0x004; 0x004; 0x004; 0x004; 0x004;
  0x004; 0x104; 0x104; 0x004; 0x104; 0x104; 0x004; 0x004;
  0x004; 0x004; 0x004; 0x004; 0x004; 0x004; 0x004; 0x004;
  0x004; 0x004; 0x004; 0x004; 0x004; 0x004; 0x004; 0x004;
  0x140; 0x0d0; 0x0d0; 0x0d0; 0x0d0; 0x0d0; 0x0d0; 0x0d0;
  0x0d0; 0x0d0; 0x0d0; 0x0d0; 0x0d0; 0x0d0; 0x0d0; 0x0d0;
  0x459; 0x459; 0x459; 0x459; 0x459; 0x459; 0x459; 0x459;
  0x459; 0x459; 0x0d0; 0x0d0; 0x0d0; 0x0d0; 0x0d0; 0x0d0;
  0x0d0; 0x653; 0x653; 0x653; 0x653; 0x653; 0x653; 0x253;
  0x253; 0x253; 0x253; 0x253; 0x253; 0x253; 0x253; 0x253;
  0x253; 0x253; 0x253; 0x253; 0x253; 0x253; 0x253; 0x253;
  0x253; 0x253; 0x253; 0x0d0; 0x0d0; 0x0d0; 0x0d0; 0x0d0;
  0x0d0; 0x473; 0x473; 0x473; 0x473; 0x473; 0x473; 0x073;
  0x073; 0x073; 0x073; 0x073; 0x073; 0x073; 0x073; 0x073;
  0x073; 0x073; 0x073; 0x073; 0x073; 0x073; 0x073; 0x073;
  0x073; 0x073; 0x073; 0x0d0; 0x0d0; 0x0d0; 0x0d0; 0x004
].
Definition G_ASCII_ALNUM : Z := 1.
(** The upper half of the table is zero. *)
Definition g_ascii_isalnum (c : Z) : bool := negb (tbl ascii_table_data c & G_ASCII_ALNUM =? 0).

Section normal.
Context (base : Z) (mem : list Z).

(** ** Strings *)

Definition xvariant_serialiser_is_string (data size : Z) : option bool :=
  if size =? 0 then Some false
  else
    let expected_end := data + size - 1 in
    c ← load base mem expected_end;
    if negb (c =? 0) then Some false
    else
      '(_, end_) ← xutf8_validate_len mem (data - base) size;
      Some (end_ =? expected_end - base).

(** The loop over [string[i]] from 1 on; it leaves [i] unless it returns [FALSE]. *)
Fixpoint object_path_loop (fuel : nat) (string i : Z) : option (option Z) :=
  c ← load base mem (string + i);
  if c =? 0 then Some (Some i)
  else
    match fuel with
    | O => None
    | S fuel =>
        if g_ascii_isalnum c || (c =? chr "_") then object_path_loop fuel string (i + 1)
        else if c =? chr "/" then
          before ← load base mem (string + i - 1);
          if before =? chr "/" then Some None else object_path_loop fuel string (i + 1)
        else Some None
    end.
Definition xvariant_serialiser_is_object_path (data size : Z) : option bool :=
  is_string ← xvariant_serialiser_is_string data size;
  if negb is_string then Some false
  else
    first ← load base mem data;
    if negb (first =? chr "/") then Some false
    else
      i ← object_path_loop (Z.to_nat size) data 1;
      match i with
      | None => Some false
      | Some i =>
          if 1 <? i then before ← load base mem (data + i - 1); Some (negb (before =? chr "/"))
          else Some true
      end.

(** [strspn (string, accept)] *)
Fixpoint strspn (fuel : nat) (accept : list Z) (string n : Z) : option Z :=
  c ← load base mem (string + n);
  if negb (c =? 0) && existsb (Z.eqb c) accept then
    match fuel with O => None | S fuel => strspn fuel accept string (n + 1) end
  else Some n.
Definition signature_chars : list Z := ascii_bytes "ybnqiuxthdvasog(){}".

Fixpoint signature_loop (fuel : nat) (string : Z) : option bool :=
  c ← load base mem string;
  if c =? 0 then Some true
  else
    match fuel with
    | O => None
    | S fuel =>
        end_ ← xvariant_type_string_scan mem None (string - base);
        match end_ with
        | None => Some false
        | Some end_ => signature_loop fuel (end_ + base)
        end
    end.
Definition xvariant_serialiser_is_signature (data size : Z) : option bool :=
  is_string ← xvariant_serialiser_is_string data size;
  if negb is_string then Some false
  else
    first_invalid ← strspn (Z.to_nat size) signature_chars data 0;
    c ← load base mem (data + first_invalid);
    if negb (c =? 0) then Some false else signature_loop (Z.to_nat size) data.

(** ** Containers *)

Section children.
Context (is_normal : GVariantSerialised -> option bool).

Definition gvs_fixed_sized_maybe_is_normal (value : GVariantSerialised) : option bool :=
  if 0 <? size value then
    info ← type_info value;
    '(_, element_fixed_size) ← xvariant_type_info_query_element info;
    if negb (size value =? element_fixed_size) then Some false
    else
      element ← xvariant_type_info_element info;
      is_normal (Serialised (Some element) (data value) (size value) (u64 (nested value + 1)))
  else Some true.

Definition gvs_variable_sized_maybe_is_normal (value : GVariantSerialised) : option bool :=
  if size value =? 0 then Some true
  else
    c ← load base mem (data value + size value - 1);
    if negb (c =? 0) then Some false
    else
      info ← type_info value;
      element ← xvariant_type_info_element info;
      is_normal (Serialised (Some element) (data value) (u64 (size value - 1)) (u64 (nested value + 1))).

(** [for (child.data = value.data; child.data < value.data + value.size; child.data += child.size)] *)
Fixpoint fixed_array_normal_loop (fuel : nat) (limit : Z) (child : GVariantSerialised) : option bool :=
  if data child <? limit then
    match fuel with
    | O => None
    | S fuel =>
        normal ← is_normal child;
        if negb normal then Some false
        else fixed_array_normal_loop fuel limit
               (Serialised (type_info child) (u64 (data child + size child)) (size child) (nested child))
    end
  else Some true.
Definition gvs_fixed_sized_array_is_normal (value : GVariantSerialised) : option bool :=
  info ← type_info value;
  element ← xvariant_type_info_element info;
  '(_, child_size) ← xvariant_type_info_query element;
  if negb (size value mod child_size =? 0) then Some false
  else fixed_array_normal_loop (Z.to_nat (size value)) (data value + size value)
         (Serialised (Some element) (data value) child_size (u64 (nested value + 1))).

(** The padding in front of an element that ends at [this_end]: its end, or nothing
    where the function returns [FALSE]. *)
Fixpoint array_skip_padding (fuel : nat) (data this_end offset alignment : Z) : option (option Z) :=
  if offset & alignment =? 0 then Some (Some offset)
  else
    match fuel with
    | O => None
    | S fuel =>
        if offset <? this_end then
          c ← load base mem (data + offset);
          if c =? 0 then array_skip_padding fuel data this_end (offset + 1) alignment else Some None
        else Some None
    end.
Fixpoint array_normal_loop (n : nat) (value : GVariantSerialised) (element : GVariantTypeInfo)
    (alignment offset_size offsets_array last_end i offset : Z) : option (option Z) :=
  match n with
  | O => Some (Some offset)
  | S n =>
      this_end ← gvs_read_unaligned_le base mem (u64 (offsets_array + offset_size * i)) offset_size;
      if (this_end <? offset) || (last_end <? this_end) then Some None
      else
        skipped ← array_skip_padding 8 (data value) this_end offset alignment;
        match skipped with
        | None => Some None
        | Some offset =>
            let child_size := u64 (this_end - offset) in
            let child_data := if child_size =? 0 then 0 else u64 (data value + offset) in
            normal ← is_normal (Serialised (Some element) child_data child_size (u64 (nested value + 1)));
            if (normal : bool) then
              array_normal_loop n value element alignment offset_size offsets_array last_end (i + 1) this_end
            else Some None
        end
  end.
Definition gvs_variable_sized_array_is_normal (value : GVariantSerialised) : option bool :=
  if size value =? 0 then Some true
  else
    let offset_size := gvs_get_offset_size (size value) in
    last_end ← gvs_read_unaligned_le base mem (u64 (data value + size value - offset_size)) offset_size;
    if size value <? last_end then Some false
    else
      let offsets_array_size := u64 (size value - last_end) in
      if negb (offsets_array_size mod offset_size =? 0) then Some false
      else
        let offsets_array := u64 (data value + size value - offsets_array_size) in
        let length := offsets_array_size / offset_size in
        if length =? 0 then Some false
        else
          info ← type_info value;
          element ← xvariant_type_info_element info;
          '(alignment, _) ← xvariant_type_info_query element;
          offset ← array_normal_loop (Z.to_nat length) value element alignment offset_size offsets_array last_end 0 0;
          match offset with
          | None => Some false
          | Some offset => assert_then (offset =? last_end) (Some true)
          end.

Fixpoint tuple_skip_padding (fuel : nat) (data size offset alignment : Z) : option (option Z) :=
  if offset & alignment =? 0 then Some (Some offset)
  else
    match fuel with
    | O => None
    | S fuel =>
        if size <? offset then Some None
        else
          c ← load base mem (data + offset);
          if negb (c =? 0) then Some None else tuple_skip_padding fuel data size (offset + 1) alignment
    end.
(** Where a member that starts at [offset] ends, by its [ending_type], and the new [offset_ptr]. *)
Definition member_end (value : GVariantSerialised) (offset_size ending fixed_size offset offset_ptr : Z) : option (option (Z * Z)) :=
  if ending =? G_VARIANT_MEMBER_ENDING_FIXED then Some (Some (u64 (offset + fixed_size), offset_ptr))
  else if ending =? G_VARIANT_MEMBER_ENDING_LAST then Some (Some (offset_ptr, offset_ptr))
  else if offset_ptr <? offset_size then Some None
  else
    let offset_ptr := offset_ptr - offset_size in
    if offset_ptr <? offset then Some None
    else end_ ← gvs_read_unaligned_le base mem (u64 (data value + offset_ptr)) offset_size;
         Some (Some (end_, offset_ptr)).
(** It leaves [offset] and [offset_ptr]. *)
Fixpoint tuple_normal_loop (n : nat) (value : GVariantSerialised) (info : GVariantTypeInfo) (offset_size i offset offset_ptr : Z) :
    option (option (Z * Z)) :=
  match n with
  | O => Some (Some (offset, offset_ptr))
  | S n =>
      member ← xvariant_type_info_member_info info i;
      '(child_info, member_info) ← member;
      '(alignment, fixed_size) ← xvariant_type_info_query child_info;
      skipped ← tuple_skip_padding 8 (data value) (size value) offset alignment;
      match skipped with
      | None => Some None
      | Some offset =>
          ends ← member_end value offset_size (ending_type member_info) fixed_size offset offset_ptr;
          match ends with
          | None => Some None
          | Some (end_, offset_ptr) =>
              if (end_ <? offset) || (offset_ptr <? end_) then Some None
              else
                let child_size := u64 (end_ - offset) in
                let child_data := if child_size =? 0 then 0 else u64 (data value + offset) in
                normal ← is_normal (Serialised (Some child_info) child_data child_size (u64 (nested value + 1)));
                if (normal : bool) then tuple_normal_loop n value info offset_size (i + 1) end_ offset_ptr
                else Some None
          end
      end
  end.
(** [while (offset & alignment) if (value.data[offset++] != '\0') return FALSE] *)
Fixpoint end_padding (fuel : nat) (data offset alignment : Z) : option (option Z) :=
  if offset & alignment =? 0 then Some (Some offset)
  else
    match fuel with
    | O => None
    | S fuel =>
        c ← load base mem (data + offset);
        if negb (c =? 0) then Some None else end_padding fuel data (offset + 1) alignment
    end.
Definition gvs_tuple_is_normal (value : GVariantSerialised) : option bool :=
  if (data value =? 0) && negb (size value =? 0) then Some false
  else
    info ← type_info value;
    length ← xvariant_type_info_n_members info;
    ends ← tuple_normal_loop (Z.to_nat length) value info (gvs_get_offset_size (size value)) 0 0 (size value);
    match ends with
    | None => Some false
    | Some (offset, offset_ptr) =>
        '(alignment, fixed_size) ← xvariant_type_info_query info;
        if negb (fixed_size =? 0) then
          assert_then ((fixed_size =? size value) && (offset_ptr =? size value))
            (padded ← (if length =? 0 then
                         c ← load base mem (data value + offset);
                         Some (if negb (c =? 0) then None else Some (offset + 1))
                       else end_padding 8 (data value) offset alignment);
             match padded with
             | None => Some false
             | Some offset => assert_then (offset =? size value) (Some (offset_ptr =? offset))
             end)
        else Some (offset_ptr =? offset)
    end.

Definition gvs_variant_is_normal (value : GVariantSerialised) : option bool :=
  child ← gvs_variant_get_child base mem value 0;
  child_info ← type_info child;
  child_type_depth ← xvariant_type_info_query_depth child_info;
  if (nested value <? u64 (max_depth - child_type_depth)) && (negb (data child =? 0) || (size child =? 0)) then is_normal child
  else Some false.

Definition is_normal_of (k : kind) : GVariantSerialised -> option bool :=
  match k with
  | FixedMaybe => gvs_fixed_sized_maybe_is_normal
  | VariableMaybe => gvs_variable_sized_maybe_is_normal
  | FixedArray => gvs_fixed_sized_array_is_normal
  | VariableArray => gvs_variable_sized_array_is_normal
  | TupleKind => gvs_tuple_is_normal
  | VariantKind => gvs_variant_is_normal
  end.
End children.

(** The terminal cases. *)
Definition leaf_is_normal (value : GVariantSerialised) : option bool :=
  if data value =? 0 then Some false
  else
    info ← type_info value;
    c ← xvariant_type_info_get_type_char info;
    if c =? chr "b" then first ← load base mem (data value); Some (first <? 2)
    else if c =? chr "s" then xvariant_serialiser_is_string (data value) (size value)
    else if c =? chr "o" then xvariant_serialiser_is_object_path (data value) (size value)
    else if c =? chr "g" then xvariant_serialiser_is_signature (data value) (size value)
    else Some true.

Fixpoint is_normal_fuel (fuel : nat) (serialised : GVariantSerialised) : option bool :=
  if max_depth <=? nested serialised then Some false
  else
    match fuel with
    | O => None
    | S fuel =>
        info ← type_info serialised;
        k ← DISPATCH_CASES info;
        match k with
        | Some k => is_normal_of (is_normal_fuel fuel) k serialised
        | None => leaf_is_normal serialised
        end
    end.
(** The depth grows from call to call. *)
Definition xvariant_serialised_is_normal : GVariantSerialised -> option bool :=
  is_normal_fuel G_VARIANT_MAX_RECURSION_DEPTH.
End normal.
