(* ===== verification/SerialiserTotal.v ===== *)
(** * The check for the normal form

    What strings, object paths and signatures are in normal form; then, that the
    check ends on any bytes. *)

From S2P Require Import Prelude Utf8 Utf8Codec Utf8Text Utf8Validate VariantType VariantSpec.
From S2P Require Import VariantWalk VariantCorrect VariantInfo VariantInfos Serialiser.
From S2P Require Import SerialiserRead SerialiserNormal.
Local Open Scope Z_scope.
Local Open Scope xpl_scope.

(** ** The languages *)

(** UTF-8, with a NUL at the end and only there. *)
Definition string_bytes (l : list Z) : Prop := exists cs, Forall text_char cs /\ l = encs cs ++ [0].

(** [A-Z], [a-z], [0-9] or [_]. *)
Definition path_char (c : Z) : bool :=
  (65 <=? c) && (c <=? 90) || (97 <=? c) && (c <=? 122) || (48 <=? c) && (c <=? 57) || (c =? 95).
(** A slash, or elements that each follow a slash. *)
Definition object_path (l : list Z) : Prop :=
  l = [47] \/ exists es, es <> [] /\ Forall (fun e => e <> [] /\ Forall (fun c => path_char c = true) e) es /\
    l = concat (map (cons 47) es).
Definition object_path_bytes (l : list Z) : Prop := exists p, object_path p /\ l = p ++ [0].

(** Types one after the other, of the characters that D-Bus has. *)
Definition signature_bytes (l : list Z) : Prop := exists ts,
  Forall (fun t => valid t = true /\ (nesting t <= 128)%nat) ts /\ Forall (fun c => c ∈ signature_chars) (prints ts) /\
  l = prints ts ++ [0].

(** ** Lemmas *)

Lemma holds_reads s p l : holds s p l -> reads s p l.
Proof.
  revert p. induction l as [|b l IH]; intros p H; [done|]. apply holds_cons in H as [Hr H]. split; [done|auto].
Qed.

Lemma valid_prefix_unique l cs ds r1 r2 : valid_prefix l cs r1 -> valid_prefix l ds r2 -> cs = ds /\ r1 = r2.
Proof.
  intros (-> & Hcs & Hn1). revert ds. induction Hcs as [|c cs Hc Hcs IH]; intros ds (E & Hds & Hn2).
  - destruct Hds as [|d ds Hd _]; [by cbn in E|]. exfalso. rewrite encs_cons, <- app_assoc in E. cbn [encs map concat app] in E.
    apply (Hn1 d Hd). exists (encs ds ++ r2). exact E.
  - rewrite encs_cons, <- app_assoc in E. destruct Hds as [|d ds Hd Hds].
    + exfalso. apply (Hn2 c Hc). exists (encs cs ++ r1). by symmetry.
    + rewrite encs_cons, <- app_assoc in E.
      apply enc_unique in E as [-> E]; [|by apply char_code, text_char_char..].
      destruct (IH ds) as [-> ->]; done.
Qed.
Lemma string_bytes_prefix l cs rest : valid_prefix l cs rest -> string_bytes l <-> rest = [0].
Proof.
  intros Hv. split.
  - intros (ds & Hds & E). assert (valid_prefix l ds [0]) as Hv' by (split_and!; [done..|apply no_char_0]).
    by destruct (valid_prefix_unique _ _ _ _ _ Hv Hv').
  - intros ->. destruct Hv as (E & Hcs & _). by exists cs.
Qed.

(** What the loop over the characters of a path decides. *)
Fixpoint path_rest (before : Z) (l : list Z) : bool :=
  match l with
  | [] => true
  | c :: l => if path_char c then path_rest c l else (c =? 47) && negb (before =? 47) && path_rest c l
  end.

Lemma isalnum_path c : is_byte c -> g_ascii_isalnum c || (c =? 95) = path_char c.
Proof.
  intros Hc. unfold is_byte in Hc.
  assert (forallb (fun n => Bool.eqb (g_ascii_isalnum (Z.of_nat n) || (Z.of_nat n =? 95)) (path_char (Z.of_nat n))) (seq 0 256) = true) as H
    by by vm_compute.
  rewrite forallb_forall in H. specialize (H (Z.to_nat c)). rewrite Z2Nat.id in H by lia. apply Bool.eqb_prop, H.
  apply in_seq. lia.
Qed.
Lemma path_char_nonzero c : path_char c = true -> c <> 0 /\ c <> 47.
Proof. unfold path_char. intros H. split; by intros ->. Qed.

(** Paths by their characters. *)
Lemma object_path_rest l :
  object_path l <-> exists r, l = 47 :: r /\ path_rest 47 r = true /\ (r = [] \/ last (47 :: r) <> Some 47).
Proof.
  assert (forall e x r, Forall (fun c => path_char c = true) e -> path_rest x (e ++ r) = path_rest (default x (last e)) r) as Hword.
  { intros e x r He. revert x. induction He as [|c e Hc _ IH]; intros x; [done|]. cbn [app path_rest]. rewrite Hc, IH.
    by destruct e as [|d e _] using rev_ind; [|rewrite last_snoc, app_comm_cons, last_snoc]. }
  assert (forall e, e <> [] -> Forall (fun c => path_char c = true) e -> exists d, last e = Some d /\ d <> 47) as Hlast.
  { intros e Hne He. destruct e as [|d e _] using rev_ind; [done|]. rewrite last_snoc. apply Forall_app in He as [_ [Hd _]%Forall_cons].
    exists d. split; [done|]. by apply path_char_nonzero. }
  split.
  - intros [-> |(es & Hne & Hes & ->)]; [exists []; by split_and!; [..|left]|].
    destruct Hes as [|e es (He0 & He) Hes]; [done|]. cbn [map concat app]. eexists. split; [done|].
    enough (forall x, path_rest x (e ++ concat (map (cons 47) es)) = true /\
      exists d, last (e ++ concat (map (cons 47) es)) = Some d /\ d <> 47) as H.
    { destruct (H 47) as [H1 (d & Hd & Hd')]. split; [done|right]. rewrite last_cons, Hd. by intros [= ->]. }
    clear Hne. revert e He0 He. induction Hes as [|e' es (He0' & He') Hes IH]; intros e He0 He x; rewrite (Hword _ _ _ He).
    + split; [done|]. cbn [map concat]. rewrite app_nil_r. by apply Hlast.
    + cbn [map concat app path_rest]. destruct (Hlast e He0 He) as (d & -> & Hd). cbn [from_option id].
      change (path_char 47) with false. cbn [Z.eqb Pos.eqb andb]. rewrite (proj2 (Z.eqb_neq d 47) Hd). cbn [negb andb].
      destruct (IH e' He0' He' 47) as [IH1 (z & Hz & Hz')]. split; [done|]. exists z. split; [|done].
      rewrite last_app, last_cons, Hz. done.
  - intros (r & -> & Hr & Hl). destruct Hl as [->|Hl]; [by left|right].
    enough (forall e x, Forall (fun c => path_char c = true) e -> default x (last e) = x \/ True -> path_rest (default 47 (last e)) r = true ->
      last (47 :: e ++ r) <> Some 47 -> exists es, es <> [] /\ Forall (fun e => e <> [] /\ Forall (fun c => path_char c = true) e) es /\
        47 :: e ++ r = concat (map (cons 47) es)) as H.
    { by apply (H [] 0); [constructor|right|..]. }
    clear Hr Hl. induction r as [|c r IH]; intros e x He _ Hr Hl.
    + rewrite app_nil_r in *. exists [e]. split_and!; [done| |by cbn; rewrite app_nil_r]. constructor; [|constructor]. split; [|done].
      by intros ->.
    + cbn [path_rest] in Hr. destruct (path_char c) eqn:Ec.
      * destruct (IH (e ++ [c]) 0) as (es & H1 & H2 & H3); [apply Forall_app; by repeat constructor|by right|by rewrite last_snoc|by rewrite <- app_assoc|].
        exists es. split_and!; [done..|]. by rewrite <- H3, <- app_assoc.
      * apply andb_prop in Hr as [[Hc Hb]%andb_prop Hr]. apply Z.eqb_eq in Hc. subst c. apply negb_true_iff, Z.eqb_neq in Hb.
        destruct (IH [] 0) as (es & H1 & H2 & H3); [constructor|by right|done| |].
        { intros E. apply Hl. rewrite app_comm_cons, last_app. cbn [app] in E. by rewrite E. }
        exists (e :: es). split_and!; [done| |by cbn [map concat app] in *; rewrite <- H3]. constructor; [|done]. split; [|done].
        intros ->. by cbn in Hb.
Qed.

(** ASCII text is UTF-8. *)
Lemma ascii_string p : Forall (fun c => 0 < c < 128) p -> string_bytes (p ++ [0]).
Proof.
  intros Ha. exists p. induction Ha as [|c p Hc _ [IH1 IH2]]; [done|]. split.
  - constructor; [|done]. unfold text_char, scalar. lia.
  - rewrite encs_cons, enc_1 by lia. cbn [app] in *. by rewrite <- IH2.
Qed.
Lemma object_path_string l : object_path_bytes l -> string_bytes l.
Proof.
  intros (p & Hp & ->). apply ascii_string. destruct Hp as [-> |(es & _ & Hes & ->)]; [by repeat constructor|].
  induction Hes as [|e es [_ He] _ IH]; cbn [map concat]; [constructor|]. apply Forall_app. split; [|done]. constructor; [lia|].
  eapply Forall_impl; [exact He|]. intros c Hc. unfold path_char in Hc. lia.
Qed.

Lemma signature_string l : signature_bytes l -> string_bytes l.
Proof.
  intros (ts & _ & Hc & ->). apply ascii_string. eapply Forall_impl; [exact Hc|]. intros c H.
  assert (forallb (fun c => (0 <? c) && (c <? 128)) signature_chars = true) as Ha by by vm_compute.
  rewrite forallb_forall in Ha. apply list_elem_of_In, Ha in H. lia.
Qed.

Section strings.
Context (base : Z) (mem : list Z) (Hblock : block base mem).

Lemma load_holds p x : holds mem (p - base) [x] -> load base mem p = Some x.
Proof. intros H. apply holds_cons in H as [Hr _]. exact Hr. Qed.
Lemma load_inside data i l x :
  holds mem (data - base) l -> 0 <= i -> l !! Z.to_nat i = Some x -> load base mem (data + i) = Some x.
Proof.
  intros Hh Hi Hx. unfold load. apply holds_reads in Hh. pose proof (reads_lookup _ _ _ _ _ Hh Hx) as Hr.
  by replace (data + i - base) with (data - base + Z.of_nat (Z.to_nat i)) by lia.
Qed.

Section text.
Context (data : Z) (l : list Z) (Hh : holds mem (data - base) l).

Lemma block_bytes : Forall is_byte l.
Proof. destruct Hblock as (_ & _ & _ & Hb). destruct Hh as (pre & post & -> & _). rewrite !Forall_app in Hb. tauto. Qed.

Lemma is_string_ok :
  exists b, xvariant_serialiser_is_string base mem data (zlen l) = Some b /\ (b = true <-> string_bytes l).
Proof.
  unfold xvariant_serialiser_is_string. pose proof (zlen_nonneg l) as H0. destruct (Z.eqb_spec (zlen l) 0) as [E|Hne].
  { exists false. split; [done|]. split; [done|]. intros (cs & _ & ->). rewrite zlen_app in E. pose proof (zlen_nonneg (encs cs)).
    change (zlen [0]) with 1 in E. lia. }
  destruct (exists_last (l := l)) as (l0 & z & El); [by intros E; rewrite E in Hne|].
  assert (zlen l = zlen l0 + 1) as Elen by (rewrite El, zlen_app; done). pose proof (zlen_nonneg l0).
  replace (data + zlen l - 1) with (data + zlen l0) by lia. erewrite (load_inside data (zlen l0) l z); [|done..|].
  2:{ rewrite El. unfold zlen. rewrite Nat2Z.id. by apply list_lookup_middle. }
  cbn [mbind option_bind]. destruct (Z.eqb_spec z 0) as [->|Hz]; cbn [negb].
  2:{ exists false. split; [done|]. split; [done|]. intros (cs & _ & E). rewrite El in E. apply app_inj_tail in E as [_ E]. done. }
  destruct (validate_len_ok mem (data - base) (zlen l) l (holds_reads _ _ _ Hh) block_bytes eq_refl) as (cs & rest & Hv & ->).
  cbn [mbind option_bind]. eexists. split; [done|]. rewrite (string_bytes_prefix _ _ _ Hv). rewrite Z.eqb_eq.
  destruct Hv as (E & _ & _). assert (zlen l = zlen (encs cs) + zlen rest) as Er by (rewrite E, zlen_app; done). split.
  - intros Ee. assert (zlen rest = 1) as E1 by lia. destruct rest as [|x [|]]; try done.
    + rewrite El in E. by apply app_inj_tail in E as [_ <-].
    + rewrite !zlen_cons in E1. pose proof (zlen_nonneg l1). lia.
  - intros ->. change (zlen [0]) with 1 in Er. lia.
Qed.

Lemma object_path_loop_ok fuel p1 before r :
  l = p1 ++ r ++ [0] -> last p1 = Some before -> Forall (fun c => c <> 0) r -> (length r <= fuel)%nat ->
  object_path_loop base mem fuel data (zlen p1) = Some (if path_rest before r then Some (zlen (p1 ++ r)) else None).
Proof.
  revert p1 before r. induction fuel as [|fuel IH]; intros p1 before r El Hb Hr Hf; cbn [object_path_loop];
    (destruct r as [|c r]; cbn [app] in El;
      [rewrite (load_inside data (zlen p1) l 0) by
         (done || apply zlen_nonneg || (rewrite El; unfold zlen; rewrite Nat2Z.id; by apply list_lookup_middle));
       cbn; by rewrite app_nil_r|]); [cbn in Hf; lia|].
  apply Forall_cons in Hr as [Hc Hr]. cbn in Hf. rewrite (load_inside data (zlen p1) l c) by
    (done || apply zlen_nonneg || (rewrite El; unfold zlen; rewrite Nat2Z.id; by apply list_lookup_middle)).
  cbn [mbind option_bind]. rewrite (proj2 (Z.eqb_neq c 0)) by done.
  assert (is_byte c) as Hbc by (pose proof block_bytes as Hbb; rewrite El in Hbb; apply Forall_app in Hbb as [_ Hbb]; by apply Forall_cons in Hbb as [? _]).
  rewrite (isalnum_path c Hbc). cbn [path_rest].
  assert (l = (p1 ++ [c]) ++ r ++ [0]) as El' by by rewrite El, <- app_assoc.
  assert (object_path_loop base mem fuel data (zlen p1 + 1) = Some (if path_rest c r then Some (zlen (p1 ++ c :: r)) else None)) as Enext.
  { specialize (IH (p1 ++ [c]) c r El'). rewrite last_snoc, zlen_app, <- app_assoc in IH. change (zlen [c]) with 1 in IH. apply IH; [done..|lia]. }
  destruct (path_char c); [done|]. destruct (c =? 47); cbn [andb]; [|done].
  assert (p1 <> []) as Hne by by intros ->. destruct (exists_last Hne) as (p0 & x & E1). rewrite E1, last_snoc in Hb. injection Hb as ->.
  rewrite E1 in El |- *. rewrite zlen_app. change (zlen [before]) with 1. replace (data + (zlen p0 + 1) - 1) with (data + zlen p0) by lia.
  rewrite (load_inside data (zlen p0) l before); [|done|apply zlen_nonneg|].
  2:{ rewrite El. unfold zlen. rewrite Nat2Z.id, <- app_assoc. by apply list_lookup_middle. }
  cbn [mbind option_bind]. destruct (before =? 47); [done|]. cbn [negb andb]. rewrite E1, zlen_app in Enext. exact Enext.
Qed.

Lemma is_object_path_ok :
  exists b, xvariant_serialiser_is_object_path base mem data (zlen l) = Some b /\ (b = true <-> object_path_bytes l).
Proof.
  unfold xvariant_serialiser_is_object_path. destruct is_string_ok as (b & -> & Hb). cbn [mbind option_bind].
  destruct b; cbn [negb].
  2:{ exists false. split; [done|]. split; [done|]. intros H%object_path_string%Hb. done. }
  destruct (proj1 Hb eq_refl) as (cs & Hcs & El). clear Hb.
  assert (Forall (fun c => c <> 0) (encs cs)) as Hnz by (eapply Forall_proj2, encs_nonzero, text_chars, Hcs).
  assert (forall p, l = p ++ [0] -> p = encs cs) as Hp by (intros p E; rewrite El in E; by apply app_inj_tail in E as [-> _]).
  assert (object_path_bytes l <-> object_path (encs cs)) as Hiff.
  { split; [intros (p & H & E); by rewrite <- (Hp p E)|by exists (encs cs)]. }
  setoid_rewrite Hiff. clear Hiff. set (p := encs cs) in *. setoid_rewrite object_path_rest.
  assert (forall c r, l = c :: r -> load base mem data = Some c) as H0.
  { intros c r E. rewrite <- (Z.add_0_r data). apply (load_inside data 0 l c); [done..|]. by rewrite E. }
  destruct p as [|x r]; cbn [app] in El.
  - rewrite (H0 0 []) by done. exists false. split; [done|]. split; [done|]. by intros (r & E & _).
  - rewrite (H0 x (r ++ [0])) by done. cbn [mbind option_bind]. destruct (Z.eqb_spec x 47) as [->|Hx]; cbn [negb].
    2:{ exists false. split; [done|]. split; [done|]. by intros (r' & [= E] & _). }
    apply Forall_cons in Hnz as [_ Hnz]. pose proof (object_path_loop_ok (Z.to_nat (zlen l)) [47] 47 r) as Hloop.
    change (zlen [47]) with 1 in Hloop. rewrite Hloop by (done || (rewrite El; unfold zlen; cbn; rewrite length_app; lia)).
    cbn [mbind option_bind app]. destruct (path_rest 47 r) eqn:Er.
    2:{ exists false. split; [done|]. split; [done|]. intros (r' & [= <-] & E & _). by rewrite E in Er. }
    rewrite zlen_cons. destruct r as [|c r _] using rev_ind.
    + exists true. split; [done|]. split; [|done]. intros _. exists []. by split_and!; [..|left].
    + rewrite zlen_app. change (zlen [c]) with 1. change (zlen [47]) with 1. pose proof (zlen_nonneg r). rewrite (proj2 (Z.ltb_lt 1 _)) by lia.
      replace (data + (1 + (zlen r + 1)) - 1) with (data + (zlen r + 1)) by lia.
      rewrite (load_inside data _ l c); [|done|lia|].
      2:{ rewrite El. replace (Z.to_nat (zlen r + 1)) with (length (47 :: r)) by (unfold zlen; cbn; lia).
        rewrite <- app_assoc. cbn [app]. by apply (list_lookup_middle (47 :: r)). }
      cbn [mbind option_bind]. eexists. split; [done|]. rewrite negb_true_iff, Z.eqb_neq. split.
      * intros Hc. exists (r ++ [c]). split_and!; [done..|]. right. rewrite app_comm_cons, last_snoc. by intros [= ->].
      * intros (r' & [= <-] & _ & [E|E]); [by destruct r|]. rewrite app_comm_cons, last_snoc in E. by intros ->.
Qed.

Lemma load_at p1 x r : l = p1 ++ x :: r -> load base mem (data + zlen p1) = Some x.
Proof.
  intros El. apply (load_inside data (zlen p1) l x); [done|apply zlen_nonneg|]. rewrite El. unfold zlen. rewrite Nat2Z.id.
  by apply list_lookup_middle.
Qed.

Lemma strspn_ok fuel accept p1 r :
  l = p1 ++ r ++ [0] -> Forall (fun c => c <> 0) r -> (length r <= fuel)%nat ->
  exists n c, strspn base mem fuel accept data (zlen p1) = Some n /\ load base mem (data + n) = Some c /\
    (c = 0 <-> Forall (fun c => c ∈ accept) r).
Proof.
  revert p1 r. induction fuel as [|fuel IH]; intros p1 r El Hr Hf; cbn [strspn];
    (destruct r as [|c r]; cbn [app] in El; rewrite (load_at _ _ _ El); cbn [mbind option_bind];
      [exists (zlen p1), 0; split_and!; [done|by apply (load_at _ _ _ El)|by split; [constructor|]]|]); [cbn in Hf; lia|].
  apply Forall_cons in Hr as [Hc Hr]. cbn in Hf. rewrite (proj2 (Z.eqb_neq c 0)) by done. cbn [negb andb].
  destruct (existsb (Z.eqb c) accept) eqn:Ec.
  - apply existsb_eqb in Ec. destruct (IH (p1 ++ [c]) r) as (n & x & En & Ex & Hx); [by rewrite El, <- app_assoc|done|lia|].
    rewrite zlen_app in En. change (zlen [c]) with 1 in En. exists n, x. split; [done|]. split; [done|]. split.
    + intros H. constructor; [by apply list_elem_of_In|by apply Hx].
    + intros [_ H]%Forall_cons. by apply Hx.
  - exists (zlen p1), c. split; [done|]. split; [by apply (load_at _ _ _ El)|]. split; [done|]. intros [H _]%Forall_cons.
    apply list_elem_of_In, existsb_eqb in H. by rewrite H in Ec.
Qed.

Definition types_text (r : list Z) : Prop :=
  exists ts, Forall (fun t => valid t = true /\ (nesting t <= 128)%nat) ts /\ r = prints ts.

Lemma signature_loop_ok fuel p1 r :
  l = p1 ++ r ++ [0] -> Forall (fun c => c <> 0) r -> (length r <= fuel)%nat ->
  exists b, signature_loop base mem fuel (data + zlen p1) = Some b /\ (b = true <-> types_text r).
Proof.
  revert p1 r. induction fuel as [|fuel IH]; intros p1 r El Hr Hf; cbn [signature_loop];
    (destruct r as [|c r]; cbn [app] in El; rewrite (load_at _ _ _ El); cbn [mbind option_bind];
      [exists true; split; [done|]; split; [|done]; intros _; by exists []|]); [cbn in Hf; lia|].
  pose proof Hr as Hnz. apply Forall_cons in Hr as [Hc Hr]. rewrite (proj2 (Z.eqb_neq c 0)) by done.
  assert (holds mem (data + zlen p1 - base) ((c :: r) ++ [0])) as Hhr.
  { pose proof Hh as Hh'. rewrite El in Hh'. apply holds_app in Hh' as [_ Hh']. cbn [app] in Hh' |- *.
    by replace (data + zlen p1 - base) with (data - base + zlen p1) by lia. }
  set (q := data + zlen p1 - base) in *. pose proof (holds_bounds _ _ _ Hhr) as [Hq _].
  destruct (scan_exact mem None q) as (res & Eres & Hres).
  { split; [done|]. destruct Hhr as (pre & post & -> & Epre). rewrite <- Epre. unfold zlen. rewrite Nat2Z.id, drop_app_length.
    rewrite <- app_assoc. apply elem_of_app. right. left. }
  unfold xvariant_type_string_scan. rewrite Eres. cbn [mbind option_bind].
  assert (forall t ts, Forall (fun t => valid t = true /\ (nesting t <= 128)%nat) (t :: ts) -> c :: r = prints (t :: ts) ->
    res = Some (q + zlen (print t), depth t)) as Hfirst.
  { intros t ts [[Hv Hn] _]%Forall_cons E. apply Hres. exists t. split_and!; try done. rewrite E, prints_cons in Hhr.
    rewrite <- app_assoc in Hhr. apply holds_app in Hhr as [Hhr _]. by split. }
  destruct res as [[e dep]|]; cbn [option_map fst].
  2:{ exists false. split; [done|]. split; [done|]. intros ([|t ts] & Hts & E); [done|]. by specialize (Hfirst t ts Hts E). }
  destruct (proj1 (Hres e dep) eq_refl) as (t & [Hv Ht] & Hn & _ & He & _).
  assert (exists r', c :: r = print t ++ r') as [r' Er].
  { pose proof (print_no_nul t Hv) as Htn. destruct (reads_prefix mem q (print t) ((c :: r) ++ [0])) as [k Ek].
    - by apply holds_reads.
    - by apply holds_reads.
    - destruct (Nat.le_gt_cases (length (print t)) (length ((c :: r) ++ [0]))) as [|Hgt]; [done|exfalso].
      destruct (reads_prefix mem q ((c :: r) ++ [0]) (print t)) as [k Ek]; [by apply holds_reads..|lia|].
      rewrite Ek in Htn. apply Forall_app in Htn as [Htn _]. apply Forall_app in Htn as [_ Htn]. by apply Forall_cons in Htn as [? _].
    - destruct k as [|z k _] using rev_ind.
      + rewrite app_nil_r in Ek. rewrite <- Ek in Htn. apply Forall_app in Htn as [_ Htn]. by apply Forall_cons in Htn as [? _].
      + rewrite app_assoc in Ek. apply app_inj_tail in Ek as [Ek _]. by exists k. }
  assert (types_text (c :: r) <-> types_text r') as Hiff.
  { split.
    - intros ([|t' ts] & Hts & E); [done|]. specialize (Hfirst t' ts Hts E). injection Hfirst as Ee _.
      exists ts. split; [by apply Forall_cons in Hts as [_ ?]|]. rewrite Er, prints_cons in E.
      assert (length (print t) = length (print t')) as Elen by (unfold zlen in *; lia).
      apply app_inj_1 in E as [_ E]; [done|exact Elen].
    - intros (ts & Hts & ->). exists (t :: ts). rewrite prints_cons. split; [by constructor|done]. }
  setoid_rewrite Hiff. replace (e + base) with (data + zlen (p1 ++ print t)) by (rewrite zlen_app; unfold q in *; lia).
  apply IH.
  - rewrite El, <- app_assoc. f_equal. rewrite app_comm_cons, Er. by rewrite <- app_assoc.
  - rewrite Er in Hnz. by apply Forall_app in Hnz as [_ ?].
  - apply (f_equal length) in Er. rewrite length_app in Er. cbn in Er, Hf. pose proof (print_nonempty t). unfold zlen in *. lia.
Qed.

Lemma is_signature_ok :
  exists b, xvariant_serialiser_is_signature base mem data (zlen l) = Some b /\ (b = true <-> signature_bytes l).
Proof.
  unfold xvariant_serialiser_is_signature. destruct is_string_ok as (b & -> & Hb). cbn [mbind option_bind].
  destruct b; cbn [negb].
  2:{ exists false. split; [done|]. split; [done|]. intros H%signature_string%Hb. done. }
  destruct (proj1 Hb eq_refl) as (cs & Hcs & El). clear Hb.
  assert (Forall (fun c => c <> 0) (encs cs)) as Hnz by (eapply Forall_proj2, encs_nonzero, text_chars, Hcs).
  set (p := encs cs) in *. assert (length p <= Z.to_nat (zlen l))%nat as Hlen by (rewrite El; unfold zlen; rewrite length_app; lia).
  destruct (strspn_ok (Z.to_nat (zlen l)) signature_chars [] p El Hnz Hlen) as (n & c & En & Ec & Hcc). change (zlen (@nil Z)) with 0 in En.
  rewrite En. cbn [mbind option_bind]. rewrite Ec. cbn [mbind option_bind].
  destruct (signature_loop_ok (Z.to_nat (zlen l)) [] p El Hnz Hlen) as (b & Eb & Hb). change (zlen (@nil Z)) with 0 in Eb. rewrite Z.add_0_r in Eb.
  assert (signature_bytes l <-> types_text p /\ Forall (fun c => c ∈ signature_chars) p) as Hiff.
  { split.
    - intros (ts & Hts & Hch & E). rewrite El in E. apply app_inj_tail in E as [E _]. rewrite E. split; [by exists ts|done].
    - intros [(ts & Hts & E) Hch]. exists ts. rewrite <- E. by split_and!. }
  setoid_rewrite Hiff. destruct (Z.eqb_spec c 0) as [E|Hne]; cbn [negb].
  - exists b. split; [done|]. rewrite Hb. split; [|tauto]. intros H. split; [done|]. by apply Hcc.
  - exists false. split; [done|]. split; [done|]. intros [_ H]. by apply Hcc in H.
Qed.
End text.
End strings.

(** ** Checking for the normal form always ends

    For any bytes, the check answers: the recursion is bounded by the depth, no
    assertion fails, and nothing is read but the bytes of the value and the one
    byte behind them. *)

Section total.
Context (base : Z) (mem : list Z) (Hblock : block base mem).

Local Abbreviation value_ok := (value_ok base mem).

(** There is a byte behind the data. *)
Definition roomy (s : GVariantSerialised) : Prop := data s = 0 \/ data s + size s < base + zlen mem.

Lemma region_holds p n : base <= p -> 0 <= n -> p + n <= base + zlen mem -> exists l, holds mem (p - base) l /\ zlen l = n.
Proof.
  intros Hp Hn He. exists (take (Z.to_nat n) (drop (Z.to_nat (p - base)) mem)). split.
  - exists (take (Z.to_nat (p - base)) mem), (drop (Z.to_nat n) (drop (Z.to_nat (p - base)) mem)). split.
    + by rewrite !take_drop.
    + unfold zlen in *. rewrite length_take. lia.
  - unfold zlen in *. rewrite length_take, length_drop. lia.
Qed.

(** The part of the data of [s] from [o] to [e]: a value if it is aligned. *)
Definition part (s : GVariantSerialised) (u : vtype) (o e : Z) : GVariantSerialised :=
  Serialised (Some (info_of u)) (if u64 (e - o) =? 0 then 0 else u64 (data s + o)) (u64 (e - o)) (u64 (nested s + 1)).
Lemma part_value s u o e :
  good u -> base <= data s -> data s + size s <= base + zlen mem -> data s mod (fst (type_shape u) + 1) = 0 ->
  0 <= o <= e -> e <= size s -> o mod (fst (type_shape u) + 1) = 0 -> (fixed u = true -> e = o + snd (type_shape u)) ->
  value_ok (part s u o e) u.
Proof.
  intros Hg Hb Hb' Hal Ho He Hoal Hf. pose proof Hblock as (Hb0 & Htop & Hl & _). unfold part.
  rewrite (wrap_small 64 (e - o)), (wrap_small 64 (data s + o)) by lia. pose proof (shape_range u Hg) as [Hd _].
  constructor; cbn [type_info data size]; [done|done|lia| |].
  - destruct (fixed u) eqn:Efix; [rewrite Hf; lia|]. destruct (Z.eqb_spec (e - o) 0); [by left|right; lia].
  - destruct (Z.eqb_spec (e - o) 0); [by left|right]. split_and!; [lia..|].
    rewrite Z.add_mod, Hal, Hoal by lia. rewrite Z.add_0_l. apply Z.mod_0_l. lia.
Qed.

(** ** Leaves *)

Lemma leaf_total s c : value_ok s (Leaf c) -> kind_of (Leaf c) = None -> exists b, leaf_is_normal base mem s = Some b.
Proof.
  intros Hs Hk. pose proof (value_good _ _ _ _ Hs) as Hg. unfold leaf_is_normal.
  destruct (Z.eqb_spec (data s) 0) as [|Hd]; [by eexists|]. rewrite (value_info _ _ _ _ Hs). cbn [mbind option_bind].
  rewrite (type_char_ok _ Hg). cbn [mbind option_bind head_char].
  destruct (value_place _ _ _ _ Hs) as [|(Hb & He & _)]; [done|]. pose proof (value_size _ _ _ _ Hs) as H0.
  destruct (region_holds (data s) (size s) Hb H0 He) as (l & Hl & El). rewrite <- El.
  destruct (Z.eqb_spec c 98) as [->|].
  { pose proof (value_fixed _ _ _ _ Hs) as Hf. change (size s = 1) in Hf.
    destruct (load_ok base mem Hblock (data s)) as (x & -> & _); [lia|]. by eexists. }
  destruct (is_string_ok base mem Hblock (data s) l Hl) as (b1 & E1 & _).
  destruct (is_object_path_ok base mem Hblock (data s) l Hl) as (b2 & E2 & _).
  destruct (is_signature_ok base mem Hblock (data s) l Hl) as (b3 & E3 & _).
  destruct (c =? 115); [by exists b1|]. destruct (c =? 111); [by exists b2|]. destruct (c =? 103); [by exists b3|]. by eexists.
Qed.

(** ** Containers *)

Section handlers.
Context (is_normal : GVariantSerialised -> option bool) (s : GVariantSerialised).
Context (Hns : 0 <= nested s < 128) (Hroom : roomy s).
Context (Hrec : forall c u, value_ok c u -> roomy c -> nested c = nested s + 1 -> exists b, is_normal c = Some b).

Lemma next_depth : u64 (nested s + 1) = nested s + 1.
Proof. apply wrap_small. lia. Qed.

Lemma child_total c u :
  value_ok c u -> data c = 0 \/ data s <> 0 /\ data c + size c <= data s + size s -> nested c = u64 (nested s + 1) ->
  exists b, is_normal c = Some b.
Proof.
  intros Hc Hin Hn. apply (Hrec c u Hc); [|by rewrite Hn, next_depth]. unfold roomy in *.
  destruct Hin as [|[? ?]]; [by left|]. destruct Hroom as [|]; [done|right; lia].
Qed.

Lemma fixed_maybe_total u :
  value_ok s (Maybe u) -> fixed u = true -> exists b, gvs_fixed_sized_maybe_is_normal is_normal s = Some b.
Proof.
  intros Hs Hf. unfold gvs_fixed_sized_maybe_is_normal. destruct (Z.ltb_spec 0 (size s)) as [Hpos|]; [|by eexists].
  pose proof (value_good _ _ _ _ Hs) as Hg. assert (element_type (Maybe u) u) as He by by left.
  rewrite (value_info _ _ _ _ Hs). cbn [mbind option_bind]. rewrite (query_element_ok _ _ He Hg), (element_ok _ _ He Hg).
  pose proof (container_place base mem s _ Hs (element_fixed _ _ He)) as Hp. rewrite (element_shape _ _ He) in Hp. cbn [fst] in Hp.
  pose proof Hblock as (Hb0 & Htop & Hl & _).
  destruct (type_shape u) as [d e] eqn:Esh. cbn [mbind option_bind fst] in *. destruct (Z.eqb_spec (size s) e) as [E|]; cbn [negb]; [|by eexists].
  eapply (child_total _ u); [|right; cbn; lia|done].
  constructor; cbn [type_info data size nested]; [done|by apply good_maybe|lia|by rewrite Hf, Esh|]. right. rewrite Esh. cbn [fst]. lia.
Qed.

Lemma variable_maybe_total u :
  value_ok s (Maybe u) -> fixed u = false -> exists b, gvs_variable_sized_maybe_is_normal base mem is_normal s = Some b.
Proof.
  intros Hs Hf. unfold gvs_variable_sized_maybe_is_normal. destruct (Z.eqb_spec (size s) 0) as [|Hne]; [by eexists|].
  pose proof (value_good _ _ _ _ Hs) as Hg. assert (element_type (Maybe u) u) as He by by left.
  pose proof (container_place base mem s _ Hs (element_fixed _ _ He)) as Hp. rewrite (element_shape _ _ He) in Hp. cbn [fst] in Hp.
  destruct Hp as [|(Hpos & Hb & Hb' & Hal)]; [done|]. pose proof Hblock as (Hb0 & Htop & Hl & _).
  destruct (load_ok base mem Hblock (data s + size s - 1)) as (c & -> & _); [lia|]. cbn [mbind option_bind].
  destruct (negb (c =? 0)); [by eexists|]. rewrite (value_info _ _ _ _ Hs). cbn [mbind option_bind].
  rewrite (element_ok _ _ He Hg). cbn [mbind option_bind]. rewrite (wrap_small 64 (size s - 1)) by lia.
  eapply (child_total _ u); [|right; cbn; lia|done].
  constructor; cbn [type_info data size nested]; [done|by apply good_maybe|lia|rewrite Hf; right; lia|]. right. lia.
Qed.

Lemma fixed_array_loop_total u e fuel i :
  good u -> snd (type_shape u) = e -> 0 < e -> fixed u = true -> e mod (fst (type_shape u) + 1) = 0 ->
  base <= data s -> data s + size s <= base + zlen mem -> data s mod (fst (type_shape u) + 1) = 0 ->
  0 <= i -> size s mod e = 0 -> e * i <= size s -> size s - e * i <= Z.of_nat fuel ->
  exists b, fixed_array_normal_loop is_normal fuel (data s + size s)
    (Serialised (Some (info_of u)) (data s + e * i) e (u64 (nested s + 1))) = Some b.
Proof.
  intros Hg Ee He Hf Hea Hb Hb' Hal. revert i. pose proof Hblock as (Hb0 & Htop & Hl & _).
  assert (0 < fst (type_shape u) + 1) as Hd by (pose proof (shape_range u Hg); lia).
  induction fuel as [|fuel IH]; intros i Hi Hmod Hei Hfuel; cbn [fixed_array_normal_loop data];
    (destruct (Z.ltb_spec (data s + e * i) (data s + size s)) as [Hlt|]; [|by eexists]); [lia|].
  assert (size s = e * (size s / e)) as Ediv by (apply Z.div_exact; lia).
  assert (e * i + e <= size s) as Hnext.
  { assert (i < size s / e) by nia. nia. }
  edestruct (child_total (Serialised (Some (info_of u)) (data s + e * i) e (u64 (nested s + 1))) u) as [b Eb];
    [|right; cbn; lia|done|].
  { constructor; cbn [type_info data size nested]; [done|done|lia|by rewrite Hf|]. right. split_and!; [nia|lia|].
    rewrite Z.add_mod, (Z.mul_mod e i), Hea, Hal by lia. rewrite Z.mul_0_l, (Z.mod_0_l (fst (type_shape u) + 1)), Z.add_0_l by lia.
    apply Z.mod_0_l. lia. }
  rewrite Eb. cbn [mbind option_bind]. destruct b; cbn [negb]; [|by eexists].
  cbn [type_info size nested]. rewrite wrap_small by nia. replace (data s + e * i + e) with (data s + e * (i + 1)) by lia.
  apply IH; nia.
Qed.
Lemma fixed_array_total u :
  value_ok s (Array u) -> fixed u = true -> exists b, gvs_fixed_sized_array_is_normal is_normal s = Some b.
Proof.
  intros Hs Hf. pose proof (value_good _ _ _ _ Hs) as Hg. assert (element_type (Array u) u) as He by by right.
  pose proof (good_array _ Hg) as Hgu. unfold gvs_fixed_sized_array_is_normal. rewrite (value_info _ _ _ _ Hs). cbn [mbind option_bind].
  rewrite (element_ok _ _ He Hg). cbn [mbind option_bind]. rewrite (query_ok u Hgu).
  pose proof (container_place base mem s _ Hs (element_fixed _ _ He)) as Hp. rewrite (element_shape _ _ He) in Hp. cbn [fst] in Hp.
  pose proof (fixed_eq u Hf) as Hne. pose proof (shape_range u Hgu) as [_ Hsz]. pose proof (fixed_aligned_size u Hgu Hf) as Hea.
  destruct (type_shape u) as [d e] eqn:Esh. cbn [mbind option_bind fst snd] in *.
  destruct (Z.eqb_spec (size s mod e) 0) as [Em|]; cbn [negb]; [|by eexists].
  destruct Hp as [E|(Hpos & Hb & Hb' & Hal)].
  - rewrite E. change (Z.to_nat 0) with O. cbn [fixed_array_normal_loop data]. rewrite Z.add_0_r, Z.ltb_irrefl. by eexists.
  - pose proof (fixed_array_loop_total u e (Z.to_nat (size s)) 0) as H. rewrite Z.mul_0_r, Z.add_0_r, Esh in H. apply H; try done; lia.
Qed.

(** Padding that has to be zero. *)
Lemma array_skip_total fuel p this_end off d :
  is_mask d -> up d off - off <= Z.of_nat fuel -> (forall k, off <= k < this_end -> base <= p + k < base + zlen mem) ->
  exists r, array_skip_padding base mem fuel p this_end off d = Some r /\
    forall o, r = Some o -> o = up d off /\ (off <= this_end -> o <= this_end).
Proof.
  intros Hd. revert off. induction fuel as [|fuel IH]; intros off Hf Hread; cbn [array_skip_padding]; rewrite (land_mask _ d Hd);
    (destruct (Z.eqb_spec (off mod (d + 1)) 0) as [E|E];
      [eexists; split; [done|]; intros o [= <-]; rewrite (up_id d off Hd E); split; [done|lia]|]).
  - exfalso. apply E. pose proof (up_bounds d off Hd). replace off with (up d off) by lia. by apply up_aligned.
  - destruct (Z.ltb_spec off this_end) as [Hlt|]; [|by exists None].
    destruct (load_ok base mem Hblock (p + off)) as (c & -> & _); [by apply Hread; lia|]. cbn [mbind option_bind].
    destruct (c =? 0); [|by exists None]. pose proof (pad_step d off Hd E) as Eu.
    destruct (IH (off + 1)) as (r & Er & Hr); [lia|by intros k Hk; apply Hread; lia|]. exists r. split; [done|].
    intros o Ho. destruct (Hr o Ho) as [-> Hle]. split; [done|]. intros _. apply Hle. lia.
Qed.
Lemma tuple_skip_total fuel p n off d :
  is_mask d -> up d off - off <= Z.of_nat fuel -> (forall k, off <= k <= n -> base <= p + k < base + zlen mem) \/ off mod (d + 1) = 0 ->
  exists r, tuple_skip_padding base mem fuel p n off d = Some r /\ forall o, r = Some o -> o = up d off.
Proof.
  intros Hd. revert off. induction fuel as [|fuel IH]; intros off Hf Hread; cbn [tuple_skip_padding]; rewrite (land_mask _ d Hd);
    (destruct (Z.eqb_spec (off mod (d + 1)) 0) as [E|E];
      [eexists; split; [done|]; intros o [= <-]; by rewrite (up_id d off Hd E)|]).
  - exfalso. apply E. pose proof (up_bounds d off Hd). replace off with (up d off) by lia. by apply up_aligned.
  - destruct Hread as [Hread|]; [|done]. destruct (Z.ltb_spec n off) as [|Hlt]; [by exists None|].
    destruct (load_ok base mem Hblock (p + off)) as (c & -> & _); [by apply Hread; lia|]. cbn [mbind option_bind].
    destruct (c =? 0); cbn [negb]; [|by exists None]. pose proof (pad_step d off Hd E) as Eu. rewrite Eu in *.
    apply IH; [lia|]. left. intros k Hk. apply Hread; lia.
Qed.
Lemma end_padding_total fuel p off d :
  is_mask d -> up d off - off <= Z.of_nat fuel -> (forall k, off <= k < up d off -> base <= p + k < base + zlen mem) ->
  exists r, end_padding base mem fuel p off d = Some r /\ forall o, r = Some o -> o = up d off.
Proof.
  intros Hd. revert off. induction fuel as [|fuel IH]; intros off Hf Hread; cbn [end_padding]; rewrite (land_mask _ d Hd);
    (destruct (Z.eqb_spec (off mod (d + 1)) 0) as [E|E];
      [eexists; split; [done|]; intros o [= <-]; by rewrite (up_id d off Hd E)|]).
  - exfalso. apply E. pose proof (up_bounds d off Hd). replace off with (up d off) by lia. by apply up_aligned.
  - assert (off < up d off) as Hlt.
    { pose proof (up_bounds d off Hd). destruct (Z.eq_dec (up d off) off) as [Eo|]; [|lia]. exfalso. apply E. rewrite <- Eo. by apply up_aligned. }
    destruct (load_ok base mem Hblock (p + off)) as (c & -> & _); [by apply Hread; lia|]. cbn [mbind option_bind].
    destruct (c =? 0); cbn [negb]; [|by exists None]. pose proof (pad_step d off Hd E) as Eu. rewrite Eu in *.
    apply IH; [lia|]. intros k Hk. apply Hread. lia.
Qed.

Lemma part_total u o e :
  good u -> base <= data s -> data s + size s <= base + zlen mem -> data s mod (fst (type_shape u) + 1) = 0 ->
  0 <= o <= e -> e <= size s -> o mod (fst (type_shape u) + 1) = 0 -> (fixed u = true -> e = o + snd (type_shape u)) ->
  exists b, is_normal (part s u o e) = Some b.
Proof.
  intros Hg Hb Hb' Hal Ho He Hoal Hf. pose proof Hblock as (Hb0 & Htop & Hl & _). apply (child_total _ u); [by apply part_value| |done].
  unfold part. cbn [data size]. rewrite (wrap_small 64 (e - o)), (wrap_small 64 (data s + o)) by lia.
  destruct (Z.eqb_spec (e - o) 0); [by left|right; lia].
Qed.

Lemma array_loop_total u os arr last_end n i off :
  good u -> base <= data s -> data s + size s <= base + zlen mem -> data s mod (fst (type_shape u) + 1) = 0 ->
  0 <= os <= 8 -> base <= arr -> arr + os * (i + Z.of_nat n) <= base + zlen mem -> 0 <= i -> 0 <= off <= last_end -> last_end <= size s ->
  fixed u = false ->
  exists r, array_normal_loop base mem is_normal n s (info_of u) (fst (type_shape u)) os arr last_end i off = Some r /\
    (n <> O -> forall o, r = Some o -> gvs_read_unaligned_le base mem (arr + os * (i + Z.of_nat n - 1)) os = Some o).
Proof.
  intros Hg Hb Hb' Hal Hos Harr. revert i off. pose proof (type_shape_ok u Hg) as [[Hm _] _]. pose proof Hblock as (Hb0 & Htop & Hl & _).
  induction n as [|n IH]; intros i off Hend Hi Hoff Hlast Hf; cbn [array_normal_loop]; [by exists (Some off)|].
  assert (0 <= os * i /\ os * i + os <= os * (i + Z.of_nat (S n))) as [Hoi Hoi'] by nia.
  rewrite (wrap_small 64 (arr + os * i)) by lia. destruct (read_ok base mem Hblock (arr + os * i) os) as (v & Ev & Hv); [lia|right; lia|].
  rewrite Ev. cbn [mbind option_bind]. destruct (Z.ltb_spec v off) as [|Hvo]; [by exists None|].
  destruct (Z.ltb_spec last_end v) as [|Hvl]; cbn [orb]; [by exists None|].
  pose proof (up_bounds _ off Hm) as Hup. pose proof (mask_range _ Hm).
  destruct (array_skip_total 8 (data s) v off (fst (type_shape u)) Hm) as (r & Er & Hr); [lia|intros k Hk; lia|].
  rewrite Er. cbn [mbind option_bind]. destruct r as [o|]; [|by exists None]. destruct (Hr o eq_refl) as [-> Hov]. specialize (Hov ltac:(lia)).
  destruct (part_total u (up (fst (type_shape u)) off) v) as [b Ebn]; try done; [lia..|by apply up_aligned|by rewrite Hf|].
  unfold part in Ebn. rewrite Ebn. cbn [mbind option_bind]. destruct b; [|by exists None].
  destruct (IH (i + 1) v) as (r & Er' & Hr'); [by replace (i + 1 + Z.of_nat n) with (i + Z.of_nat (S n)) by lia|lia..|done|].
  exists r. split; [done|]. intros _ o' Ho'. destruct n as [|n].
  - cbn [array_normal_loop] in Er'. injection Er' as <-. injection Ho' as <-. by replace (i + Z.of_nat 1 - 1) with i by lia.
  - rewrite <- (Hr' ltac:(done) o' Ho'). do 3 f_equal. lia.
Qed.
Lemma variable_array_total u :
  value_ok s (Array u) -> fixed u = false -> exists b, gvs_variable_sized_array_is_normal base mem is_normal s = Some b.
Proof.
  intros Hs Hf. unfold gvs_variable_sized_array_is_normal. destruct (Z.eqb_spec (size s) 0) as [|Hne]; [by eexists|].
  pose proof (value_good _ _ _ _ Hs) as Hg. assert (element_type (Array u) u) as He by by right. pose proof (good_array _ Hg) as Hgu.
  pose proof (container_place base mem s _ Hs (element_fixed _ _ He)) as Hp. rewrite (element_shape _ _ He) in Hp. cbn [fst] in Hp.
  destruct Hp as [|(Hpos & Hb & Hb' & Hal)]; [done|]. pose proof Hblock as (Hb0 & Htop & Hl & _).
  pose proof (offset_size_ok (size s)) as (Hos & Hos' & Hos1); [lia|]. specialize (Hos1 Hpos). set (os := gvs_get_offset_size (size s)) in *.
  rewrite (wrap_small 64 (data s + size s - os)) by lia.
  destruct (read_ok base mem Hblock (data s + size s - os) os) as (last_end & El & Hlast); [lia|right; lia|].
  rewrite El. cbn [mbind option_bind]. destruct (Z.ltb_spec (size s) last_end); [by eexists|].
  rewrite (wrap_small 64 (size s - last_end)) by lia.
  destruct (Z.eqb_spec ((size s - last_end) mod os) 0) as [Em|]; cbn [negb]; [|by eexists].
  destruct (Z.eqb_spec ((size s - last_end) / os) 0) as [|Hn]; [by eexists|].
  assert (size s - last_end = os * ((size s - last_end) / os)) as Ek by (apply Z.div_exact; lia).
  assert (0 <= (size s - last_end) / os) by (apply Z.div_pos; lia). set (n := (size s - last_end) / os) in *.
  rewrite (wrap_small 64 (data s + size s - _)) by lia. rewrite (value_info _ _ _ _ Hs). cbn [mbind option_bind].
  rewrite (element_ok _ _ He Hg). cbn [mbind option_bind]. rewrite (query_ok u Hgu).
  destruct (array_loop_total u os (data s + size s - (size s - last_end)) last_end (Z.to_nat n) 0 0) as (r & Er & Hr);
    try done; rewrite ?(Z2Nat.id n) by done; try lia.
  destruct (type_shape u) as [d e]. cbn [mbind option_bind fst] in *. rewrite Er. cbn [mbind option_bind]. destruct r as [o|]; [|by eexists].
  specialize (Hr ltac:(lia) o eq_refl). rewrite Z2Nat.id in Hr by done.
  replace (data s + size s - (size s - last_end) + os * (0 + n - 1)) with (data s + size s - os) in Hr by lia.
  rewrite El in Hr. injection Hr as <-. rewrite Z.eqb_refl. by eexists.
Qed.

(** *** Tuples *)

Section tuple.
Context (t : vtype) (Hs : value_ok s t) (Ht : tuple_type t).
Let os := gvs_get_offset_size (size s).
Let shapes := map type_shape (item_types t).
Context (Hplace : data s = 0 /\ size s = 0 \/
  base <= data s /\ data s + size s < base + zlen mem /\ data s mod (fst (type_shape t) + 1) = 0).

(** What the loop keeps. *)
Definition at_member (k : nat) (off ptr : Z) : Prop :=
  0 <= off <= ptr /\ ptr <= size s /\ (fixed t = true -> ptr = size s /\ off = ends 0 (take k shapes)).

Lemma tuple_size : 0 <= size s < 2 ^ 55.
Proof. pose proof (value_size _ _ _ _ Hs). pose proof Hblock as (Hb0 & Htop & Hl & _). lia. Qed.

(** Where the member at [o] ends, and what is left of the offsets. *)
Lemma member_end_total k u m o ptr :
  item_types t !! k = Some u -> ending_type m = ending (type_shape u) k (length (item_types t)) ->
  0 <= o < 2 ^ 55 + 8 -> 0 <= ptr <= size s ->
  exists r, member_end base mem s os (ending_type m) (snd (type_shape u)) o ptr = Some r /\
    forall e p, r = Some (e, p) -> 0 <= p <= ptr /\ 0 <= e /\ (fixed u = true -> e = o + snd (type_shape u) /\ p = ptr).
Proof.
  intros Hk He Ho Hptr. pose proof (value_good _ _ _ _ Hs) as Hg. pose proof (proj1 (Forall_lookup _ _) (good_items t Hg) k u Hk) as Hu.
  pose proof (shape_range u Hu) as [_ Hsz]. pose proof tuple_size as Hss. pose proof (offset_size_ok (size s)) as (Hos & _); [lia|].
  rewrite He. unfold member_end, ending, G_VARIANT_MEMBER_ENDING_FIXED, G_VARIANT_MEMBER_ENDING_LAST, G_VARIANT_MEMBER_ENDING_OFFSET.
  fold (fixed u). destruct (fixed u) eqn:Hf; cbn [Z.eqb].
  { eexists. split; [done|]. intros e p [= <- <-]. rewrite wrap_small by lia. split; [lia|]. split; [lia|]. by intros _. }
  destruct (_ =? _)%nat; cbn [Z.eqb Pos.eqb]; [eexists; split; [done|]; intros e p [= <- <-]; split; [lia|]; split; [lia|done]|].
  change (2 =? 1) with false. cbv iota.
  destruct (Z.ltb_spec ptr os) as [|Hpo]; [by exists None|]. destruct (Z.ltb_spec (ptr - os) o); [by exists None|].
  pose proof Hblock as (Hb0 & Htop & Hl & _). fold os in Hos. rewrite (wrap_small 64 (data s + _)) by lia.
  destruct (read_ok base mem Hblock (data s + (ptr - os)) os) as (v & Ev & Hv); [done|lia|]. rewrite Ev. cbn [mbind option_bind].
  eexists. split; [done|]. intros e p [= <- <-]. split; [lia|]. split; [lia|done].
Qed.

Lemma tuple_loop_total n k off ptr :
  length (item_types t) = (k + n)%nat -> at_member k off ptr ->
  exists r, tuple_normal_loop base mem is_normal n s (info_of t) os (Z.of_nat k) off ptr = Some r /\
    forall o p, r = Some (o, p) -> at_member (length (item_types t)) o p.
Proof.
  pose proof (value_good _ _ _ _ Hs) as Hg. pose proof tuple_size as Hss. pose proof Hblock as (Hb0 & Htop & Hl & _).
  revert k off ptr. induction n as [|n IH]; intros k off ptr Hlen Hat; cbn [tuple_normal_loop].
  { eexists. split; [done|]. intros o p [= <- <-]. by rewrite Hlen, Nat.add_0_r. }
  destruct (lookup_lt_is_Some_2 (item_types t) k) as [u Hk]; [lia|].
  pose proof (proj1 (Forall_lookup _ _) (good_items t Hg) k u Hk) as Hu. pose proof (type_shape_ok u Hu) as [[Hm _] _].
  destruct (members_lookup t Hg k u Hk) as (m & Hmem & _ & He).
  rewrite (member_info_ok t _ Ht Hg). cbn [mbind option_bind]. rewrite rd_ge_0, Nat2Z.id, Hmem by lia. cbn [mbind option_bind].
  rewrite (query_ok u Hu). destruct Hat as (Hoff & Hptr & Hfix). pose proof (up_bounds _ off Hm) as Hup. pose proof (mask_range _ Hm).
  destruct (tuple_skip_total 8 (data s) (size s) off (fst (type_shape u)) Hm) as (r & Er & Hr); [lia| |].
  { destruct Hplace as [[_ E]|(Hb & Hb' & _)]; [right|left; intros; lia]. assert (off = 0) as -> by lia. apply Z.mod_0_l. lia. }
  destruct (member_end_total k u m (up (fst (type_shape u)) off) ptr Hk He) as (r' & Er' & Hr'); [lia..|]. specialize (IH (S k)).
  pose proof (part_total u (up (fst (type_shape u)) off)) as Hpart. pose proof (shape_range u Hu) as [_ Hsz].
  pose proof (items_aligned t u Hg Ht (list_elem_of_lookup_2 _ _ _ Hk)) as Hle.
  assert (take (S k) shapes = take k shapes ++ [type_shape u]) as Etake.
  { apply take_S_r. unfold shapes. exact (list_lookup_fmap_Some_2 type_shape _ _ _ Hk). }
  assert (fixed t = true -> fixed u = true) as Hfixed.
  { intros Hf. by apply (proj1 (Forall_lookup _ _) (all_fixed_items t Hg Ht Hf) k u). }
  unfold fixed in Hr', Hpart, Hfixed. rewrite Etake in IH || idtac.
  destruct (type_shape u) as [d e] eqn:Esh. cbn [mbind option_bind fst snd] in *.
  rewrite Er. cbn [mbind option_bind]. destruct r as [o|]; [|by exists None]. rewrite (Hr o eq_refl). rewrite Er'. cbn [mbind option_bind].
  destruct r' as [[e' p]|]; [|by exists None]. destruct (Hr' e' p eq_refl) as (Hp & He0 & Hfu).
  destruct (Z.ltb_spec e' (up d off)) as [|Hge]; [by exists None|]. destruct (Z.ltb_spec p e') as [|Hpe]; cbn [orb]; [by exists None|].
  assert (exists b, is_normal (Serialised (Some (info_of u)) (if u64 (e' - up d off) =? 0 then 0 else u64 (data s + up d off))
    (u64 (e' - up d off)) (u64 (nested s + 1))) = Some b) as [b Eb].
  { destruct Hplace as [[E1 E2]|(Hb & Hb' & Hal)].
    - assert (e' = up d off) as -> by lia. rewrite Z.sub_diag. change (u64 0 =? 0) with true. cbv iota.
      apply (child_total _ u); [|by left|done]. constructor; cbn [type_info data size]; [done|done|done| |by left].
      unfold fixed. rewrite Esh. cbn [snd]. destruct (Z.eqb_spec e 0) as [->|Hne]; cbn [negb]; [by left|]. specialize (Hfu eq_refl). lia.
    - apply Hpart; try done; [lia|apply (mask_divides d (fst (type_shape t))); try done; apply type_shape_ok, Hg|lia|lia|by apply up_aligned|].
      intros Hf. by apply Hfu. }
  rewrite Eb. cbn [mbind option_bind]. destruct b; [|by exists None].
  destruct (IH e' p) as (r & Erest & Hrest); [lia| |].
  { split; [lia|]. split; [lia|]. intros Hf. destruct (Hfix Hf) as [-> ->]. destruct (Hfu (Hfixed Hf)) as [-> ->]. split; [done|].
    rewrite Etake, ends_snoc. unfold step. cbn [fst snd]. done. }
  exists r. split; [|done]. rewrite <- Erest. f_equal. lia.
Qed.
End tuple.

Lemma tuple_total t : value_ok s t -> tuple_type t -> exists b, gvs_tuple_is_normal base mem is_normal s = Some b.
Proof.
  intros Hs Ht. unfold gvs_tuple_is_normal. destruct ((data s =? 0) && negb (size s =? 0)) eqn:Enull; [by eexists|].
  pose proof (value_good _ _ _ _ Hs) as Hg. pose proof Hblock as (Hb0 & Htop & Hl & _). pose proof (value_size _ _ _ _ Hs) as H0.
  assert (data s = 0 /\ size s = 0 \/
    base <= data s /\ data s + size s < base + zlen mem /\ data s mod (fst (type_shape t) + 1) = 0) as Hplace.
  { destruct (value_place _ _ _ _ Hs) as [E|(? & ? & ?)].
    - left. rewrite E in Enull. cbn in Enull. split; [done|]. by apply negb_false_iff, Z.eqb_eq in Enull.
    - right. destruct Hroom; [lia|]. by split_and!. }
  rewrite (value_info _ _ _ _ Hs). cbn [mbind option_bind]. rewrite (n_members_ok t Ht Hg). cbn [mbind option_bind].
  replace (Z.to_nat (zlen (item_types t))) with (length (item_types t)) by (unfold zlen; lia).
  destruct (tuple_loop_total t Hs Ht Hplace (length (item_types t)) 0 0 (size s)) as (r & Er & Hr); [done| |].
  { split; [lia|]. split; [lia|]. intros _. by split. }
  change (Z.of_nat 0) with 0 in Er. rewrite Er. cbn [mbind option_bind]. destruct r as [[o p]|]; [|by eexists].
  destruct (Hr o p eq_refl) as (Ho & Hp & Hfix). rewrite (query_ok t Hg). pose proof (value_fixed _ _ _ _ Hs) as Hvf.
  pose proof (type_shape_ok t Hg) as [[Hm _] _]. unfold fixed in *. pose proof (tuple_type_eq t Hg Ht) as Esh. unfold tuple_shape in Esh.
  destruct (type_shape t) as [d e] eqn:Et. cbn [mbind option_bind fst snd] in *.
  destruct (negb (e =? 0)) eqn:Efix; [|by eexists]. destruct (Hfix eq_refl) as [-> ->]. rewrite Hvf, !Z.eqb_refl. cbn [andb assert_then].
  rewrite firstn_all2 in * by (by rewrite length_map).
  apply negb_true_iff, Z.eqb_neq in Efix. injection Esh as Ed Ee. rewrite <- Ed in Ee.
  destruct (forallb _ _); [|done].
  destruct Hplace as [|(Hb & Hb' & Hal)]; [lia|].
  destruct (item_types t) as [|u us] eqn:Ei.
  - change (zlen (@nil vtype) =? 0) with true. cbn [map ends foldl] in *. cbn in Ee. subst e.
    destruct (load_ok base mem Hblock (data s + 0)) as (c & -> & _); [lia|]. cbn [mbind option_bind].
    destruct (negb (c =? 0)); [by eexists|]. change (0 + 1) with 1. rewrite Ee. by eexists.
  - assert ((zlen (u :: us) =? 0) = false) as ->. { rewrite zlen_cons. pose proof (zlen_nonneg us). apply Z.eqb_neq. lia. }
    pose proof (up_bounds d (ends 0 (map type_shape (u :: us))) Hm) as Hup. pose proof (mask_range _ Hm). cbn [map] in *.
    destruct (end_padding_total 8 (data s) (ends 0 (type_shape u :: map type_shape us)) d Hm) as (r & Er' & Hr'); [lia|intros k Hk; lia|].
    rewrite Er'. cbn [mbind option_bind]. destruct r as [o'|]; [|by eexists]. rewrite (Hr' o' eq_refl), <- Ee, Z.eqb_refl. by eexists.
Qed.

Lemma variant_total : value_ok s (Leaf 118) -> exists b, gvs_variant_is_normal base mem is_normal s = Some b.
Proof.
  intros Hs. unfold gvs_variant_is_normal. destruct (variant_safe base mem Hblock s 0 Hs) as (c & u & Ec & Hc & Hlim); [lia|].
  rewrite Ec. cbn [mbind option_bind]. destruct Hc as (Hcv & Hin & Hn & _). rewrite (value_info _ _ _ _ Hcv). cbn [mbind option_bind].
  rewrite (query_depth_ok u (value_good _ _ _ _ Hcv) (proj1 Hlim)). cbn [mbind option_bind].
  destruct (_ && _); [|by eexists]. apply (child_total c u Hcv); [|done]. destruct Hin as [|[? ?]]; [by left|].
  destruct (Z.eq_dec (data c) 0); [by left|right]. pose proof Hblock as (Hb0 & _). split; [|lia].
  pose proof (container_place base mem s _ Hs eq_refl) as Hp. pose proof (value_size _ _ _ _ Hcv) as Hc0.
  destruct (value_place _ _ _ _ Hcv) as [|(? & ? & _)]; [done|]. lia.
Qed.

End handlers.

(** ** The recursion *)

Lemma kind_total is_normal s t k :
  value_ok s t -> roomy s -> 0 <= nested s < 128 -> kind_of t = Some k ->
  (forall c u, value_ok c u -> roomy c -> nested c = nested s + 1 -> exists b, is_normal c = Some b) ->
  exists b, is_normal_of base mem is_normal k s = Some b.
Proof.
  intros Hs Hr Hns Hk Hrec. destruct t as [c|u|u|ts|kt v]; cbn [kind_of] in Hk.
  - destruct (Z.eqb_spec c 118) as [->|]; [|done]. injection Hk as <-. by apply variant_total.
  - injection Hk as <-. destruct (fixed u) eqn:Hf; [by eapply fixed_maybe_total|by eapply variable_maybe_total].
  - injection Hk as <-. destruct (fixed u) eqn:Hf; [by eapply fixed_array_total|by eapply variable_array_total].
  - injection Hk as <-. by eapply tuple_total.
  - injection Hk as <-. by eapply tuple_total.
Qed.

Lemma normal_total fuel s t :
  value_ok s t -> roomy s -> 0 <= nested s -> 128 - nested s <= Z.of_nat fuel ->
  exists b, is_normal_fuel base mem fuel s = Some b.
Proof.
  revert s t. induction fuel as [|fuel IH]; intros s t Hs Hr Hns Hf; cbn [is_normal_fuel]; change max_depth with 128;
    (destruct (Z.leb_spec 128 (nested s)) as [|Hlt]; [by eexists|]); [lia|].
  rewrite (value_info _ _ _ _ Hs). cbn [mbind option_bind]. rewrite (dispatch_ok t (value_good _ _ _ _ Hs)). cbn [mbind option_bind].
  destruct (kind_of t) as [k|] eqn:Hk.
  - apply (kind_total _ s t k Hs Hr ltac:(lia) Hk). intros c u Hc Hcr Hn. apply (IH c u Hc Hcr); lia.
  - destruct t as [c|u|u|ts|kt v]; try done. by eapply leaf_total.
Qed.
End total.
