(* ===== verification/SerialiserAccept.v ===== *)
(** * What is stored is in normal form

    The values in normal form by their structure, and that the check accepts them. *)

From S2P Require Import Prelude VariantType VariantSpec VariantCorrect VariantInfo.
From S2P Require Import VariantInfos Serialiser SerialiserRead SerialiserWrite SerialiserSpec.
From S2P Require Import SerialiserStore SerialiserLoad SerialiserNormal SerialiserTotal.
Local Open Scope Z_scope.
Local Open Scope xpl_scope.

(** ** Values in normal form *)

(** Values that are not containers. *)
Definition leaf_bytes (c : Z) (b : list Z) : Prop :=
  if c =? 98 then exists x, b = [x] /\ x < 2
  else if c =? 115 then string_bytes b
  else if c =? 111 then object_path_bytes b
  else if c =? 103 then signature_bytes b
  else zlen b = snd (type_shape (Leaf c)).

(** At most [n] levels of containers and leaves, variants included. *)
Fixpoint normal_bytes (n : nat) (t : vtype) (b : list Z) : Prop :=
  match n with
  | O => False
  | S n =>
      (exists c, t = Leaf c /\ c <> 118 /\ leaf_bytes c b) \/
      exists l : list item,
        kind_of t <> None /\ children_ok t l /\
        (t = Leaf 118 -> Forall (fun x => depth (fst x) < Z.of_nat (S n)) l) /\
        Forall (fun x => normal_bytes n (fst x) (snd x)) l /\ b = container_bytes t l
  end.

Section accept.
Context (base : Z) (mem : list Z) (Hblock : block base mem).

Local Abbreviation value_ok := (value_ok base mem).

(** The bytes of [s]. *)
Definition has_bytes (s : GVariantSerialised) (b : list Z) : Prop :=
  size s = zlen b /\ (size s = 0 \/ holds mem (data s - base) b).

(** ** Leaves *)

Lemma leaf_sized c : good (Leaf c) -> c <> 118 -> c <> 115 -> c <> 111 -> c <> 103 -> snd (type_shape (Leaf c)) <> 0.
Proof.
  intros Hg H1 H2 H3 H4.
  enough ((c =? 118) || (c =? 115) || (c =? 111) || (c =? 103) || fixed (Leaf c) = true) as H.
  { rewrite !(proj2 (Z.eqb_neq _ _)) in H by done. by apply fixed_eq. }
  apply (leaf_cases (fun c => (c =? 118) || (c =? 115) || (c =? 111) || (c =? 103) || fixed (Leaf c) = true) c Hg). by repeat constructor.
Qed.
Lemma leaf_bytes_nonempty c b : good (Leaf c) -> c <> 118 -> leaf_bytes c b -> b <> [].
Proof.
  intros Hg Hc Hl ->. unfold leaf_bytes in Hl.
  destruct (Z.eqb_spec c 98); [by destruct Hl as (x & ? & _)|].
  destruct (Z.eqb_spec c 115); [destruct Hl as (cs & _ & E); symmetry in E; by apply app_nil in E as [_ E]|].
  destruct (Z.eqb_spec c 111); [destruct Hl as (p & _ & E); symmetry in E; by apply app_nil in E as [_ E]|].
  destruct (Z.eqb_spec c 103); [destruct Hl as (ts & _ & _ & E); symmetry in E; by apply app_nil in E as [_ E]|].
  by apply (leaf_sized c).
Qed.

Lemma leaf_accept s c b :
  value_ok s (Leaf c) -> c <> 118 -> has_bytes s b -> leaf_bytes c b -> leaf_is_normal base mem s = Some true.
Proof.
  intros Hs Hc [Hsz Hb] Hl. pose proof (value_good _ _ _ _ Hs) as Hg. unfold leaf_is_normal.
  pose proof (leaf_bytes_nonempty c b Hg Hc Hl) as Hne.
  assert (size s <> 0) as Hs0 by (rewrite Hsz; intros E; by apply Hne, empty_region).
  destruct Hb as [|Hb]; [done|]. pose proof (holds_bounds _ _ _ Hb). pose proof Hblock as (Hb0 & _).
  rewrite (proj2 (Z.eqb_neq (data s) 0)) by lia. rewrite (value_info _ _ _ _ Hs). cbn [mbind option_bind].
  rewrite (type_char_ok _ Hg). cbn [mbind option_bind head_char]. rewrite Hsz. unfold leaf_bytes in Hl.
  destruct (c =? 98).
  { destruct Hl as (x & -> & Hx). rewrite (load_holds base mem (data s) x Hb). cbn [mbind option_bind].
    by rewrite (proj2 (Z.ltb_lt x 2)). }
  destruct (c =? 115). { destruct (is_string_ok base mem Hblock (data s) b Hb) as ([] & -> & E); [done|]. by apply E in Hl. }
  destruct (c =? 111). { destruct (is_object_path_ok base mem Hblock (data s) b Hb) as ([] & -> & E); [done|]. by apply E in Hl. }
  destruct (c =? 103). { destruct (is_signature_ok base mem Hblock (data s) b Hb) as ([] & -> & E); [done|]. by apply E in Hl. }
  done.
Qed.

Lemma leaf_exact s c b :
  value_ok s (Leaf c) -> c <> 118 -> has_bytes s b -> leaf_is_normal base mem s = Some true -> leaf_bytes c b.
Proof.
  intros Hs Hc [Hsz Hb]. pose proof (value_good _ _ _ _ Hs) as Hg. unfold leaf_is_normal.
  destruct (Z.eqb_spec (data s) 0) as [|Hd]; [done|]. rewrite (value_info _ _ _ _ Hs). cbn [mbind option_bind].
  rewrite (type_char_ok _ Hg). cbn [mbind option_bind head_char]. pose proof (value_fixed _ _ _ _ Hs) as Hf. rewrite Hsz in *. unfold leaf_bytes.
  assert (holds mem (data s - base) b) as Hh.
  { destruct Hb as [E|]; [|done]. rewrite (empty_region b E). destruct (value_place _ _ _ _ Hs) as [|(Hb1 & Hb2 & _)]; [done|].
    rewrite Hsz, E in Hb2. exists (take (Z.to_nat (data s - base)) mem), (drop (Z.to_nat (data s - base)) mem).
    cbn [app]. rewrite take_drop. split; [done|]. unfold zlen in *. rewrite length_take. lia. }
  destruct (Z.eqb_spec c 98) as [->|H98].
  { change (zlen b = 1) in Hf. destruct b as [|x [|y b']]; try done; [|rewrite !zlen_cons in Hf; pose proof (zlen_nonneg b'); lia].
    rewrite (load_holds base mem (data s) x Hh). cbn [mbind option_bind]. intros [= Hx%Z.ltb_lt]. by exists x. }
  destruct (Z.eqb_spec c 115). { destruct (is_string_ok base mem Hblock (data s) b Hh) as (r & -> & E). intros [= ->]. by apply E. }
  destruct (Z.eqb_spec c 111). { destruct (is_object_path_ok base mem Hblock (data s) b Hh) as (r & -> & E). intros [= ->]. by apply E. }
  destruct (Z.eqb_spec c 103). { destruct (is_signature_ok base mem Hblock (data s) b Hh) as (r & -> & E). intros [= ->]. by apply E. }
  intros _. pose proof (leaf_sized c Hg Hc) as Hz. unfold fixed in Hf. rewrite (proj2 (Z.eqb_neq _ _)) in Hf by auto. exact Hf.
Qed.

(** ** Containers *)

Section container.
Context (is_normal : GVariantSerialised -> option bool) (s : GVariantSerialised) (t : vtype) (l : list item).
Context (Hs : value_ok s t) (Hc : children_ok t l) (Hb : has_bytes s (container_bytes t l)).
Context (Hrec : forall c x, x ∈ l -> value_ok c (fst x) -> nested c = u64 (nested s + 1) -> has_bytes c (snd x) -> is_normal c = Some true).

Lemma child_accept c x : x ∈ l -> value_ok c (fst x) -> child_is base mem s c x -> is_normal c = Some true.
Proof.
  intros Hx Hcv (_ & Hsz & Hn & Hd). apply (Hrec c x Hx Hcv Hn). split; [done|].
  destruct Hd as [[_ E]|(_ & _ & Hh)]; [left|by right]. by rewrite Hsz, E.
Qed.

Lemma fixed_maybe_accept u : t = Maybe u -> fixed u = true -> gvs_fixed_sized_maybe_is_normal is_normal s = Some true.
Proof.
  intros Et Hf. destruct Hb as [Hsz Hbb]. unfold gvs_fixed_sized_maybe_is_normal.
  pose proof Hs as Hs'. rewrite Et in Hs'. pose proof (value_good _ _ _ _ Hs') as Hg.
  destruct (fixed_maybe_loads base mem Hblock s t l Hs Hc Hsz Hbb u Et Hf) as [En Hx].
  destruct (fixed_maybe_safe base mem s u Hs' Hf) as (n & En' & _ & Hsafe). rewrite En in En'. injection En' as <-.
  pose proof Hc as Hcl. rewrite Et in Hcl. destruct Hcl as (Hi & Hlen & Hu).
  assert (element_type (Maybe u) u) as He by by left.
  destruct (Z.ltb_spec 0 (size s)) as [Hpos|]; [|done]. rewrite (value_info _ _ _ _ Hs'). cbn [mbind option_bind].
  rewrite (query_element_ok _ _ He Hg), (element_ok _ _ He Hg).
  assert (exists x, l = [x]) as [x El].
  { destruct l as [|x [|]]; [rewrite Hsz, Et in Hpos; done|by exists x|cbn in Hlen; lia]. }
  destruct (Hx 0%nat x) as (c & Ec & Hcx); [by rewrite El|]. destruct (Hsafe 0) as (c' & Ec' & Hcc & _); [by rewrite El|].
  change (Z.of_nat 0) with 0 in Ec. rewrite Ec in Ec'. injection Ec' as <-.
  assert (x ∈ l) as Hin by (rewrite El; left). rewrite El in Hu, Hi. apply Forall_cons in Hu as [Hu _], Hi as [(_ & _ & Hfs) _].
  unfold gvs_fixed_sized_maybe_get_child in Ec. rewrite (value_info _ _ _ _ Hs') in Ec. cbn [mbind option_bind] in Ec.
  rewrite (element_ok _ _ He Hg) in Ec. cbn [mbind option_bind] in Ec. injection Ec as <-.
  rewrite Hu in Hfs. specialize (Hfs Hf). pose proof Hcx as (_ & Hcs & _). cbn [size] in Hcs.
  destruct (type_shape u) as [d e]. cbn [mbind option_bind snd] in *. rewrite (proj2 (Z.eqb_eq (size s) e)) by lia. cbn [negb].
  apply (child_accept _ x Hin); [by rewrite Hu|done].
Qed.

Lemma variable_maybe_accept u : t = Maybe u -> fixed u = false -> gvs_variable_sized_maybe_is_normal base mem is_normal s = Some true.
Proof.
  intros Et Hf. destruct Hb as [Hsz Hbb]. pose proof (value_good _ _ _ _ Hs) as Hg. pose proof Hc as Hcl. pose proof Hs as Hs'.
  rewrite Et in Hg, Hcl, Hsz, Hbb, Hs'. destruct Hcl as (Hi & Hlen & Hu). assert (element_type (Maybe u) u) as He by by left.
  pose proof (container_place base mem s _ Hs' (element_fixed _ _ He)) as Hp. rewrite (element_shape _ _ He) in Hp. cbn [fst] in Hp.
  unfold gvs_variable_sized_maybe_is_normal. destruct (Z.eqb_spec (size s) 0) as [|Hne]; [done|].
  assert (exists x, l = [x]) as [x El].
  { destruct l as [|x [|]]; [done|by exists x|cbn in Hlen; lia]. }
  destruct Hp as [|(Hpos & Hbs & Hbe & Hal)]; [done|]. pose proof Hblock as (Hb0 & Htop & Hl & _).
  rewrite El in Hu, Hi, Hsz, Hbb. apply Forall_cons in Hu as [Hu _], Hi as [(Hgx & _ & _) _].
  cbn [container_bytes] in Hsz, Hbb. destruct x as [u' b]. cbn [fst snd] in *. subst u'. rewrite Hf in *.
  destruct Hbb as [|Hh]; [done|]. rewrite zlen_app in Hsz. change (zlen [0]) with 1 in Hsz.
  apply holds_app in Hh as [Hh H0]. replace (data s + size s - 1) with (data s + zlen b) by lia.
  rewrite (load_holds base mem _ 0) by (by replace (data s + zlen b - base) with (data s - base + zlen b) by lia).
  cbn [mbind option_bind Z.eqb negb]. rewrite (value_info _ _ _ _ Hs'). cbn [mbind option_bind].
  rewrite (element_ok _ _ He Hg). cbn [mbind option_bind]. rewrite (wrap_small 64 (size s - 1)) by lia.
  apply (Hrec _ (u, b)); [rewrite El; left| |done|split; cbn [size data snd]; [lia|by right]].
  constructor; cbn [type_info data size nested fst]; [done|done|lia|rewrite Hf; right; lia|right; lia].
Qed.

Lemma has_data : size s <> 0 ->
  holds mem (data s - base) (container_bytes t l) /\ base <= data s /\ data s + size s <= base + zlen mem.
Proof. destruct Hb as [Hsz Hbb]. by apply loaded. Qed.

Lemma fixed_array_loop_accept u l1 l2 fuel :
  t = Array u -> fixed u = true -> l = l1 ++ l2 -> (length l2 <= fuel)%nat ->
  fixed_array_normal_loop is_normal fuel (data s + size s)
    (Serialised (Some (info_of u)) (data s + snd (type_shape u) * zlen l1) (snd (type_shape u)) (u64 (nested s + 1))) = Some true.
Proof.
  intros Et Hf. pose proof (value_good _ _ _ _ Hs) as Hg. pose proof Hc as Hcl. pose proof Hb as [Hsz _].
  rewrite Et in Hg, Hcl, Hsz. destruct Hcl as (Hi & Hu). cbn [container_bytes] in Hsz. rewrite Hf, (fixed_concat u l Hi Hu Hf) in Hsz.
  pose proof (good_array _ Hg) as Hgu. pose proof (fixed_eq u Hf) as Hne. pose proof (shape_range u Hgu) as [Hd He0].
  pose proof (value_place _ _ _ _ Hs) as Hpl. rewrite Et in Hpl. cbn [type_shape fst] in Hpl. pose proof (fixed_aligned_size u Hgu Hf) as Hea.
  pose proof Hblock as (Hb0 & Htop & Hl & _). revert l1 l2. set (e := snd (type_shape u)) in *.
  induction fuel as [|fuel IH]; intros l1 l2 El Hfuel; cbn [fixed_array_normal_loop data type_info nested size];
    (destruct l2 as [|x l2];
      [rewrite app_nil_r in El; rewrite Hsz, El, Z.ltb_irrefl; done|]); [cbn in Hfuel; lia|].
  assert (zlen l = zlen l1 + 1 + zlen l2) as Ell by (rewrite El, zlen_app, zlen_cons; lia).
  pose proof (zlen_nonneg l1) as Hn1. pose proof (zlen_nonneg l2) as Hn2.
  assert (0 <= e * zlen l1 /\ e * zlen l = e * zlen l1 + e + e * zlen l2 /\ 0 <= e * zlen l2) as (He1 & Hel & He2) by nia.
  rewrite (proj2 (Z.ltb_lt _ _)) by lia. destruct has_data as (Hh & Hbs & Hbe); [lia|].
  assert (x ∈ l) as Hin by (rewrite El; apply elem_of_app; right; left).
  pose proof (proj1 (Forall_forall _ _) Hu x Hin) as Hux. cbv beta in Hux.
  pose proof (proj1 (Forall_forall _ _) Hi x Hin) as (_ & _ & Hfs). rewrite Hux in Hfs. specialize (Hfs Hf).
  assert (holds mem (data s + e * zlen l1 - base) (snd x)) as Hhx.
  { rewrite Et in Hh. cbn [container_bytes] in Hh. rewrite Hf, El, map_app, concat_app in Hh. cbn [map concat] in Hh.
    apply holds_mid in Hh. rewrite El in Hi, Hu. apply Forall_app in Hi as [Hi _], Hu as [Hu _].
    rewrite (fixed_concat u l1 Hi Hu Hf) in Hh. fold e in Hh. by replace (data s + e * zlen l1 - base) with (data s - base + e * zlen l1) by lia. }
  assert (is_normal (Serialised (Some (info_of u)) (data s + e * zlen l1) e (u64 (nested s + 1))) = Some true) as ->.
  { apply (Hrec _ x Hin); [|done|split; [done|by right]]. rewrite Hux.
    constructor; cbn [type_info data size]; [done|done|lia|by rewrite Hf|]. right. split_and!; [lia|lia|].
    destruct Hpl as [|(_ & _ & Hal)]; [lia|].
    rewrite Z.add_mod, (Z.mul_mod e (zlen l1)), Hea, Hal by lia.
    rewrite Z.mul_0_l, (Z.mod_0_l (fst (type_shape u) + 1)), Z.add_0_l by lia. apply Z.mod_0_l. lia. }
  cbn [mbind option_bind negb]. rewrite wrap_small by lia. specialize (IH (l1 ++ [x]) l2).
  rewrite zlen_app in IH. change (zlen [x]) with 1 in IH. rewrite <- app_assoc in IH.
  replace (data s + e * zlen l1 + e) with (data s + e * (zlen l1 + 1)) by lia. apply IH; [done|cbn in Hfuel; lia].
Qed.
Lemma fixed_array_accept u : t = Array u -> fixed u = true -> gvs_fixed_sized_array_is_normal is_normal s = Some true.
Proof.
  intros Et Hf. pose proof (value_good _ _ _ _ Hs) as Hg. pose proof Hc as Hcl. pose proof Hb as [Hsz _].
  rewrite Et in Hg, Hcl, Hsz. destruct Hcl as (Hi & Hu). cbn [container_bytes] in Hsz. rewrite Hf, (fixed_concat u l Hi Hu Hf) in Hsz.
  assert (element_type (Array u) u) as He by by right. pose proof (good_array _ Hg) as Hgu. pose proof (fixed_eq u Hf) as Hne.
  pose proof (shape_range u Hgu) as [_ He0].
  unfold gvs_fixed_sized_array_is_normal. rewrite (value_info _ _ _ _ Hs), Et. cbn [mbind option_bind].
  rewrite (element_ok _ _ He Hg). cbn [mbind option_bind]. rewrite (query_ok u Hgu).
  pose proof (fixed_array_loop_accept u [] l (Z.to_nat (size s)) Et Hf eq_refl) as Hloop. change (zlen (@nil item)) with 0 in Hloop.
  rewrite Z.mul_0_r, Z.add_0_r in Hloop. destruct (type_shape u) as [d e]. cbn [mbind option_bind snd] in *.
  rewrite Hsz at 1. rewrite Z.mul_comm, Z.mod_mul by done. cbn [Z.eqb negb]. apply Hloop. unfold zlen in Hsz. nia.
Qed.

(** Padding that was stored. *)
Lemma padding_next off d : is_mask d -> off mod (d + 1) <> 0 -> padding d off = 0 :: padding d (off + 1).
Proof.
  intros Hd E. unfold padding, zeros. rewrite <- (pad_step d off Hd E). pose proof (up_bounds d (off + 1) Hd) as Hu.
  rewrite <- (pad_step d off Hd E) in Hu. by replace (Z.to_nat (up d off - off)) with (S (Z.to_nat (up d off - (off + 1)))) by lia.
Qed.
Lemma array_skip_accept fuel p this_end off d :
  is_mask d -> up d off - off <= Z.of_nat fuel -> up d off <= this_end -> holds mem (p + off - base) (padding d off) ->
  array_skip_padding base mem fuel p this_end off d = Some (Some (up d off)).
Proof.
  intros Hd. revert off. induction fuel as [|fuel IH]; intros off Hf Hle Hh; cbn [array_skip_padding]; rewrite (land_mask _ d Hd);
    (destruct (Z.eqb_spec (off mod (d + 1)) 0) as [E|E]; [by rewrite (up_id d off Hd E)|]).
  - exfalso. apply E. pose proof (up_bounds d off Hd). replace off with (up d off) by lia. by apply up_aligned.
  - rewrite (padding_next off d Hd E) in Hh. apply holds_cons in Hh as [Hr Hh]. pose proof (pad_step d off Hd E) as Eu.
    pose proof (up_bounds d (off + 1) Hd). rewrite (proj2 (Z.ltb_lt off this_end)) by lia. unfold load. rewrite Hr. cbn [mbind option_bind Z.eqb].
    rewrite Eu in *. apply IH; [lia|done|]. by replace (p + (off + 1) - base) with (p + off - base + 1) by lia.
Qed.
Lemma tuple_skip_accept fuel p n off d :
  is_mask d -> up d off - off <= Z.of_nat fuel -> up d off <= n -> holds mem (p + off - base) (padding d off) ->
  tuple_skip_padding base mem fuel p n off d = Some (Some (up d off)).
Proof.
  intros Hd. revert off. induction fuel as [|fuel IH]; intros off Hf Hle Hh; cbn [tuple_skip_padding]; rewrite (land_mask _ d Hd);
    (destruct (Z.eqb_spec (off mod (d + 1)) 0) as [E|E]; [by rewrite (up_id d off Hd E)|]).
  - exfalso. apply E. pose proof (up_bounds d off Hd). replace off with (up d off) by lia. by apply up_aligned.
  - rewrite (padding_next off d Hd E) in Hh. apply holds_cons in Hh as [Hr Hh]. pose proof (pad_step d off Hd E) as Eu.
    pose proof (up_bounds d (off + 1) Hd). rewrite (proj2 (Z.ltb_ge n off)) by lia. unfold load. rewrite Hr. cbn [mbind option_bind Z.eqb negb].
    rewrite Eu in *. apply IH; [lia|done|]. by replace (p + (off + 1) - base) with (p + off - base + 1) by lia.
Qed.
Lemma end_padding_accept fuel p off d :
  is_mask d -> up d off - off <= Z.of_nat fuel -> holds mem (p + off - base) (padding d off) ->
  end_padding base mem fuel p off d = Some (Some (up d off)).
Proof.
  intros Hd. revert off. induction fuel as [|fuel IH]; intros off Hf Hh; cbn [end_padding]; rewrite (land_mask _ d Hd);
    (destruct (Z.eqb_spec (off mod (d + 1)) 0) as [E|E]; [by rewrite (up_id d off Hd E)|]).
  - exfalso. apply E. pose proof (up_bounds d off Hd). replace off with (up d off) by lia. by apply up_aligned.
  - rewrite (padding_next off d Hd E) in Hh. apply holds_cons in Hh as [Hr Hh]. pose proof (pad_step d off Hd E) as Eu.
    unfold load. rewrite Hr. cbn [mbind option_bind Z.eqb negb].
    rewrite Eu in *. apply IH; [lia|]. by replace (p + (off + 1) - base) with (p + off - base + 1) by lia.
Qed.

(** An item in the body. *)
Section item.
Context (l1 : list item) (x : item) (l2 : list item) (El : l = l1 ++ x :: l2) (rest : list Z) (Er : container_bytes t l = body l ++ rest).
Let start := up (mask (fst x)) (zlen (body l1)).
Let end_ := zlen (body (l1 ++ [x])).

Lemma item_in : x ∈ l.
Proof. rewrite El. apply elem_of_app. right. left. Qed.
Lemma child_facts : item_ok x /\ is_mask (mask (fst x)).
Proof. pose proof (proj1 (Forall_forall _ _) (proj1 Hc) x item_in) as Hx. split; [done|by apply item_mask]. Qed.
Lemma item_range :
  0 <= zlen (body l1) <= start /\ start <= end_ /\ end_ = start + zlen (snd x) /\ end_ <= zlen (body l) /\ zlen (body l) <= size s /\ size s < 2 ^ 55.
Proof.
  destruct child_facts as [_ Hm]. pose proof (up_bounds _ (zlen (body l1)) Hm). pose proof (zlen_nonneg (body l1)).
  pose proof (body_upto (l1 ++ [x]) l2) as Hle. rewrite <- app_assoc in Hle. cbn [app] in Hle. rewrite <- El in Hle.
  pose proof Hblock as (Hb0 & Htop & Hl & _). unfold start, end_. rewrite body_snoc, zlen_place by done. rewrite body_snoc, zlen_place in Hle by done.
  pose proof (proj1 Hb) as Hsz. rewrite Er, zlen_app in Hsz. pose proof (zlen_nonneg rest). pose proof (zlen_nonneg (snd x)).
  assert (size s < 2 ^ 55); [|split_and!; lia]. destruct (Z.eq_dec (size s) 0); [lia|]. destruct has_data as (_ & ? & ?); [done|lia].
Qed.
Lemma item_padding : size s <> 0 -> holds mem (data s + zlen (body l1) - base) (padding (mask (fst x)) (zlen (body l1))).
Proof.
  intros Hne. destruct has_data as (Hh & _); [done|]. destruct (body_split l1 x l2) as (r & E & _). rewrite <- El in E.
  rewrite Er, E, <- !app_assoc in Hh. apply holds_mid in Hh. by replace (data s + zlen (body l1) - base) with (data s - base + zlen (body l1)) by lia.
Qed.
Lemma item_accept :
  data s mod (mask (fst x) + 1) = 0 ->
  is_normal (part s (fst x) start end_) = Some true.
Proof.
  intros Hal. pose proof item_range as (H1 & H2 & Hend & H3 & H4 & H5). destruct child_facts as [(Hg & Hbb & Hfs) Hm].
  assert (size s <> 0 -> holds mem (data s - base + start) (snd x)) as Hh.
  { intros Hne. destruct has_data as (Hh & _); [done|]. destruct (body_split l1 x l2) as (r & E & _). rewrite <- El in E.
    rewrite Er, E, <- (app_assoc _ (snd x ++ r)), <- (app_assoc (snd x)) in Hh. apply holds_mid in Hh.
    rewrite zlen_app, zlen_padding in Hh by done. by replace (data s - base + start) with (data s - base + (zlen (body l1) + (up (mask (fst x)) (zlen (body l1)) - zlen (body l1)))) by (unfold start; lia). }
  assert (size s = 0 \/ base <= data s /\ data s + size s <= base + zlen mem) as Hin.
  { destruct (Z.eq_dec (size s) 0); [by left|right]. by destruct has_data as (_ & ? & ?). }
  pose proof Hblock as (Hb0 & Htop & Hl & _). assert (start mod (mask (fst x) + 1) = 0) as Hsal by by apply up_aligned.
  apply (Hrec _ x item_in); [|done|].
  - destruct Hin as [E0|[Hbs Hbe]].
    + unfold part. assert (end_ - start = 0) as -> by lia. change (u64 0 =? 0) with true. cbv iota. change (u64 0) with 0.
      constructor; cbn [type_info data size]; [done|done|done| |by left].
      destruct (fixed (fst x)) eqn:Hf; [|by left]. rewrite <- (Hfs eq_refl). lia.
    + apply part_value; try done; [lia|lia|]. intros Hf. rewrite <- (Hfs Hf). lia.
  - unfold part, has_bytes. cbn [data size]. rewrite (wrap_small 64 (end_ - start)) by lia. split; [lia|].
    destruct (Z.eqb_spec (end_ - start) 0) as [|Hne]; [by left|right]. destruct Hin as [|[Hbs Hbe]]; [lia|].
    rewrite (wrap_small 64 (data s + start)) by lia. replace (data s + start - base) with (data s - base + start) by lia. apply Hh. lia.
Qed.
End item.

Lemma array_loop_accept u l1 l2 :
  t = Array u -> fixed u = false -> l = l1 ++ l2 -> size s <> 0 ->
  array_normal_loop base mem is_normal (length l2) s (info_of u) (mask u) (width (zlen (body l)) (zlen l)) (data s + zlen (body l)) (zlen (body l))
    (zlen l1) (zlen (body l1)) = Some (Some (zlen (body l))).
Proof.
  intros Et Hf El Hne. pose proof Hc as Hcl. rewrite Et in Hcl. destruct Hcl as (Hi & Hu).
  assert (container_bytes t l = body l ++ offsets (width (zlen (body l)) (zlen l)) (body_ends l)) as Ebytes.
  { rewrite Et. cbn [container_bytes]. by rewrite Hf. }
  pose proof (width_cases (zlen (body l)) (zlen l)) as Hwd. pose proof (width_fits (zlen (body l)) (zlen l)) as Hfit.
  pose proof (proj1 Hb) as Hsz. rewrite Ebytes, zlen_app in Hsz. set (w := width (zlen (body l)) (zlen l)) in *.
  rewrite zlen_offsets, zlen_body_ends in Hsz by lia. destruct has_data as (Hh & Hbs & Hbe); [done|].
  pose proof Hblock as (Hb0 & Htop & Hl & _). pose proof (zlen_nonneg l) as Hl0. pose proof (zlen_nonneg (body l)) as Hbl0.
  assert (0 <= w * zlen l) as Hwl by nia.
  pose proof (value_place _ _ _ _ Hs) as Hal. rewrite Et in Hal. cbn [type_shape fst] in Hal. destruct Hal as [|(_ & _ & Hal)]; [lia|].
  revert l1 El. induction l2 as [|x l2 IH]; intros l1 El; cbn [length array_normal_loop].
  { rewrite app_nil_r in El. by rewrite El. }
  assert (fst x = u) as Hux by apply (proj1 (Forall_forall _ _) Hu x (item_in l1 x l2 El)).
  pose proof (item_range l1 x l2 El _ Ebytes) as (H1 & H2 & Hend & H3 & H4 & H5). destruct (child_facts l1 x l2 El) as [_ Hm].
  pose proof (item_padding l1 x l2 El _ Ebytes Hne) as Hpad. pose proof (item_accept l1 x l2 El _ Ebytes) as Hacc. rewrite Hux in *.
  destruct (body_ends_lookup l1 x l2) as (e1 & e2 & Ee & Hl1 & _). rewrite <- El in Ee.
  assert (zlen l = zlen l1 + 1 + zlen l2) as Ell by (rewrite El, zlen_app, zlen_cons; lia).
  pose proof (zlen_nonneg l1). pose proof (zlen_nonneg l2). assert (zlen e1 = zlen l1) as Ee1 by (unfold zlen; lia).
  assert (0 <= w * zlen l1 <= w * zlen l) as [Hw1 Hw2] by nia. rewrite (wrap_small 64 (data s + _ + _)) by lia.
  pose proof (mask_range _ Hm). pose proof (up_bounds _ (zlen (body l1)) Hm) as Hup.
  rewrite (offset_is base mem Hblock s t l (proj1 Hb) (proj2 Hb) (body l) w e1 (zlen (body (l1 ++ [x]))) e2);
    [|by rewrite Ebytes, Ee|lia|apply Hfit; lia|by rewrite Ee1].
  cbn [mbind option_bind]. rewrite (proj2 (Z.ltb_ge _ (zlen (body l1)))), (proj2 (Z.ltb_ge (zlen (body l)) _)) by lia. cbn [orb].
  rewrite array_skip_accept by (done || lia). cbn [mbind option_bind]. unfold part in Hacc. rewrite Hacc by done. cbn [mbind option_bind].
  specialize (IH (l1 ++ [x])). rewrite <- app_assoc, zlen_app in IH. change (zlen [x]) with 1 in IH. by apply IH.
Qed.
Lemma variable_array_accept u : t = Array u -> fixed u = false -> gvs_variable_sized_array_is_normal base mem is_normal s = Some true.
Proof.
  intros Et Hf. unfold gvs_variable_sized_array_is_normal. destruct (Z.eqb_spec (size s) 0) as [|Hne]; [done|].
  pose proof (value_good _ _ _ _ Hs) as Hg. rewrite Et in Hg. assert (element_type (Array u) u) as He by by right. pose proof (good_array _ Hg) as Hgu.
  assert (container_bytes t l = body l ++ offsets (width (zlen (body l)) (zlen l)) (body_ends l)) as Ebytes.
  { rewrite Et. cbn [container_bytes]. by rewrite Hf. }
  pose proof (width_cases (zlen (body l)) (zlen l)) as Hwd. pose proof (width_fits (zlen (body l)) (zlen l)) as Hfit.
  pose proof (proj1 Hb) as Hsz. rewrite Ebytes, zlen_app, zlen_offsets, zlen_body_ends in Hsz by lia.
  pose proof (zlen_nonneg (body l)) as Hbl0. pose proof (zlen_nonneg l) as Hl0.
  assert (0 < zlen l) as Hpos.
  { destruct l as [|y l']; [exfalso; change (zlen (body [])) with 0 in Hsz; change (zlen (@nil item)) with 0 in Hsz; lia|].
    rewrite zlen_cons in *. pose proof (zlen_nonneg l'). lia. }
  assert (gvs_get_offset_size (size s) = width (zlen (body l)) (zlen l)) as Eos by (rewrite Hsz; by apply width_of_total).
  pose proof (array_loop_accept u [] l Et Hf eq_refl Hne) as Hloop. change (zlen (@nil item)) with 0 in Hloop. change (zlen (body [])) with 0 in Hloop.
  set (w := width (zlen (body l)) (zlen l)) in *. assert (w <= w * zlen l) as Hwl by nia.
  destruct has_data as (Hh & Hbs & Hbe); [done|]. pose proof Hblock as (Hb0 & Htop & Hl & _). rewrite Eos.
  rewrite (wrap_small 64 (data s + size s - w)) by lia. destruct (exists_last (l := l)) as (l0 & x & E); [by intros E; rewrite E in Hpos|].
  assert (body_ends l = body_ends l0 ++ zlen (body l) :: []) as Ebe by (rewrite E at 1; by rewrite body_ends_snoc, <- E).
  rewrite (offset_is base mem Hblock s t l (proj1 Hb) (proj2 Hb) (body l) w (body_ends l0) (zlen (body l)) []);
    [|by rewrite Ebytes, Ebe|lia|apply Hfit; lia|].
  2:{ rewrite zlen_body_ends. pose proof (f_equal zlen E) as Ez. rewrite zlen_app in Ez. change (zlen [x]) with 1 in Ez. nia. }
  cbn [mbind option_bind]. rewrite (proj2 (Z.ltb_ge (size s) _)), (wrap_small 64 (size s - _)) by lia.
  replace (size s - zlen (body l)) with (zlen l * w) by lia. rewrite Z.mod_mul, Z.div_mul by lia. cbn [Z.eqb negb].
  rewrite (proj2 (Z.eqb_neq (zlen l) 0)) by lia. rewrite (wrap_small 64 (data s + size s - _)) by lia. rewrite (value_info _ _ _ _ Hs), Et. cbn [mbind option_bind].
  rewrite (element_ok _ _ He Hg). cbn [mbind option_bind]. rewrite (query_ok u Hgu). unfold mask in Hloop. destruct (type_shape u) as [d e].
  cbn [mbind option_bind fst] in *. replace (data s + size s - zlen l * w) with (data s + zlen (body l)) by lia.
  replace (Z.to_nat (zlen l)) with (length l) by (unfold zlen; lia). rewrite Hloop. cbn [mbind option_bind]. by rewrite Z.eqb_refl.
Qed.

(** *** Tuples *)

Section tuple.
Context (Ht : tuple_type t).
Let os := gvs_get_offset_size (size s).

(** How many offsets the members [l1] in front of [l2] have used up. *)
Definition used (l1 l2 : list item) : Z := zlen (match l2 with [] => stored_ends l1 | _ => var_ends l1 end).

Lemma data_of : tuple_data_ok s t l.
Proof. exact (tuple_data base mem Hblock s t l Hs Hc (proj1 Hb) (proj2 Hb) Ht). Qed.

Lemma member_end_accept l1 x l2 m :
  l = l1 ++ x :: l2 -> item_types t !! length l1 = Some (fst x) ->
  ending_type m = ending (type_shape (fst x)) (length l1) (length (item_types t)) ->
  exists ptr, ptr = size s - os * used (l1 ++ [x]) l2 /\ zlen (body (l1 ++ [x])) <= ptr /\
    member_end base mem s os (ending_type m) (snd (type_shape (fst x))) (up (mask (fst x)) (zlen (body l1))) (size s - os * zlen (var_ends l1)) =
      Some (Some (zlen (body (l1 ++ [x])), ptr)).
Proof.
  intros El Hk He. destruct data_of as [E Hi Hos [rest Er] Hfits Hfx Hex _]. pose proof Hblock as (Hb0 & Htop & Hl & _).
  pose proof (item_range l1 x l2 El _ Er) as (H1 & H2 & Hend & H3 & H4 & H5). destruct (child_facts l1 x l2 El) as [(Hgx & _ & Hfs) Hm].
  set (start := up (mask (fst x)) (zlen (body l1))) in *. set (end_ := zlen (body (l1 ++ [x]))) in *.
  pose proof (shape_range _ Hgx) as [_ Hsz]. fold os in Hfits, Hos, Hex.
  assert (used (l1 ++ [x]) l2 = zlen (var_ends l1) + (if fixed (fst x) then 0 else match l2 with [] => 0 | _ => 1 end)) as Eused.
  { unfold used. destruct l2; [rewrite stored_ends_snoc; destruct (fixed (fst x)); by rewrite Z.add_0_r|]. rewrite var_ends_snoc, zlen_app.
    by destruct (fixed (fst x)). }
  destruct (stored_ends_prefix l1 x l2) as (e & Ee & He0). rewrite <- El in Ee. pose proof (zlen_nonneg e) as Hen. pose proof (zlen_nonneg (var_ends l1)) as Hvn.
  assert (zlen (stored_ends l) = zlen (var_ends l1) + zlen e) as Est by (rewrite Ee, zlen_app; done).
  assert (0 <= os * zlen (var_ends l1) /\ os * zlen (stored_ends l) = os * zlen (var_ends l1) + os * zlen e /\ 0 <= os * zlen e)
    as (Hov & Hos' & Hoe) by nia.
  rewrite He, Eused. unfold member_end, ending, G_VARIANT_MEMBER_ENDING_FIXED, G_VARIANT_MEMBER_ENDING_LAST, G_VARIANT_MEMBER_ENDING_OFFSET.
  fold (fixed (fst x)). destruct (fixed (fst x)) eqn:Hf; cbn [Z.eqb].
  { eexists. split; [done|]. rewrite <- (Hfs eq_refl), wrap_small by lia. split; [lia|]. do 2 f_equal. f_equal; lia. }
  assert (fixed t = false) as Hft.
  { destruct (fixed t); [|done]. destruct Hfx as [_ Hall]; [done|]. rewrite El in Hall. apply Forall_app in Hall as [_ [Hfx' _]%Forall_cons].
    cbv beta in Hfx'. by rewrite Hfx' in Hf. }
  specialize (Hex Hft). pose proof (f_equal length E) as Elen. rewrite length_map, El, length_app in Elen. cbn [length] in Elen.
  destruct l2 as [|y l2].
  - rewrite (proj2 (Nat.eqb_eq _ _)) by (cbn in Elen; lia). cbn [Z.eqb Pos.eqb]. eexists. split; [done|].
    assert (e = []) as -> by by apply He0. change (zlen (@nil Z)) with 0 in *. unfold end_ in *. rewrite <- El in *. split; [lia|]. do 3 f_equal; lia.
  - rewrite (proj2 (Nat.eqb_neq _ _)) by (cbn in Elen; lia). change (2 =? 0) with false. change (2 =? 1) with false. cbv iota.
    destruct (stored_ends_split l1 x (y :: l2)) as [e' Ee']; [done|done|]. rewrite <- El in Ee'. fold end_ in Ee'.
    assert (1 <= zlen e) as He1.
    { rewrite Ee' in Ee. apply app_inv_head in Ee. rewrite <- Ee, zlen_cons. pose proof (zlen_nonneg e'). lia. }
    assert (os <= os * zlen e) as Hose by nia. assert (os * (zlen (var_ends l1) + 1) = os * zlen (var_ends l1) + os) as Hos1 by lia.
    pose proof (zlen_nonneg (snd x)).
    rewrite (proj2 (Z.ltb_ge (_ - _) os)), (proj2 (Z.ltb_ge (_ - _ - _) start)) by lia.
    pose proof (stored_end_read base mem Hblock s t l Hs Hc (proj1 Hb) (proj2 Hb) Ht (var_ends l1) end_ e' Ee' ltac:(lia)) as Hread. fold os in Hread.
    rewrite Hos1, (wrap_small 64 (os * _ + os)) in Hread by lia.
    replace (data s + (size s - os * zlen (var_ends l1) - os)) with (data s + size s - (os * zlen (var_ends l1) + os)) by lia.
    rewrite Hread. cbn [mbind option_bind]. eexists. split; [done|]. split; [lia|]. do 2 f_equal. f_equal. lia.
Qed.

Lemma tuple_loop_accept l1 l2 :
  l = l1 ++ l2 ->
  tuple_normal_loop base mem is_normal (length l2) s (info_of t) os (zlen l1) (zlen (body l1)) (size s - os * used l1 l2) =
    Some (Some (zlen (body l), size s - os * zlen (stored_ends l))).
Proof.
  pose proof (value_good _ _ _ _ Hs) as Hg. destruct data_of as [E Hi Hos [rest Er] Hfits Hfx Hex _]. pose proof Hblock as (Hb0 & Htop & Hl & _).
  revert l1. induction l2 as [|x l2 IH]; intros l1 El; cbn [length tuple_normal_loop].
  { rewrite app_nil_r in El. by rewrite El. }
  pose proof (item_range l1 x l2 El _ Er) as (H1 & H2 & Hend & H3 & H4 & H5). destruct (child_facts l1 x l2 El) as [(Hgx & _ & Hfs) Hm].
  pose proof (item_padding l1 x l2 El _ Er) as Hpad. pose proof (item_accept l1 x l2 El _ Er) as Hacc.
  assert (item_types t !! length l1 = Some (fst x)) as Hk.
  { rewrite <- E, El, map_app. cbn [map]. rewrite <- (length_map fst l1). by apply list_lookup_middle. }
  destruct (members_lookup t Hg _ _ Hk) as (m & Hmem & _ & He). rewrite (member_info_ok t _ Ht Hg). cbn [mbind option_bind].
  rewrite rd_ge_0 by apply zlen_nonneg. replace (Z.to_nat (zlen l1)) with (length l1) by (unfold zlen; lia). rewrite Hmem. cbn [mbind option_bind].
  rewrite (query_ok (fst x) Hgx). pose proof (items_aligned t (fst x) Hg Ht (list_elem_of_lookup_2 _ _ _ Hk)) as Hle.
  set (start := up (mask (fst x)) (zlen (body l1))) in *. set (end_ := zlen (body (l1 ++ [x]))) in *. pose proof (mask_range _ Hm).
  pose proof (up_bounds _ (zlen (body l1)) Hm) as Hup. pose proof (shape_range _ Hgx) as [_ Hsz].
  assert (tuple_skip_padding base mem 8 (data s) (size s) (zlen (body l1)) (mask (fst x)) = Some (Some start)) as Hskip.
  { destruct (Z.eq_dec (size s) 0) as [E0|Hne]; [|apply tuple_skip_accept; auto; lia].
    unfold start. assert (zlen (body l1) = 0) as -> by lia. assert (up (mask (fst x)) 0 = 0) as ->.
    { apply up_id; [done|]. apply Z.mod_0_l. lia. }
    cbn [tuple_skip_padding]. by rewrite Z.land_0_l. }
  assert (data s mod (mask (fst x) + 1) = 0) as Hal.
  { destruct (value_place _ _ _ _ Hs) as [->|(_ & _ & Hal)]; [apply Z.mod_0_l; lia|].
    apply (mask_divides _ (fst (type_shape t))); [done|apply type_shape_ok, Hg|done|done]. }
  specialize (Hacc Hal). pose proof (zlen_nonneg (stored_ends l)) as Hst0.
  specialize (IH (l1 ++ [x])). rewrite <- app_assoc, zlen_app in IH. change (zlen [x]) with 1 in IH. specialize (IH El). fold end_ in IH.
  destruct (stored_ends_prefix l1 x l2) as (e & Ee & He0). rewrite <- El in Ee. pose proof (zlen_nonneg e) as Hen.
  change (used l1 (x :: l2)) with (zlen (var_ends l1)). pose proof (zlen_nonneg (var_ends l1)) as Hvn.
  assert (zlen (stored_ends l) = zlen (var_ends l1) + zlen e) as Est by (rewrite Ee, zlen_app; done).
  assert (0 <= os * zlen (var_ends l1) /\ os * zlen (stored_ends l) = os * zlen (var_ends l1) + os * zlen e /\ 0 <= os * zlen e)
    as (Hov & Hos' & Hoe) by nia.
  destruct (member_end_accept l1 x l2 m El Hk He) as (ptr & Eptr & Hptr & Ecode). fold start end_ in Hptr, Ecode.
  destruct (type_shape (fst x)) as [d e0] eqn:Esh. cbn [mbind option_bind snd] in *.
  assert (d = mask (fst x)) as -> by (unfold mask; by rewrite Esh). rewrite Hskip. cbn [mbind option_bind]. rewrite Ecode. cbn [mbind option_bind].
  rewrite (proj2 (Z.ltb_ge end_ start)), (proj2 (Z.ltb_ge ptr end_)) by lia. cbn [orb].
  unfold part in Hacc. rewrite Hacc. cbn [mbind option_bind]. rewrite Eptr. exact IH.
Qed.

Lemma tuple_accept : gvs_tuple_is_normal base mem is_normal s = Some true.
Proof.
  pose proof (value_good _ _ _ _ Hs) as Hg. destruct data_of as [E Hi Hos _ Hfits Hfx Hex _]. pose proof Hblock as (Hb0 & Htop & Hl & _).
  unfold gvs_tuple_is_normal.
  assert ((data s =? 0) && negb (size s =? 0) = false) as ->.
  { destruct (Z.eqb_spec (size s) 0); [by rewrite andb_false_r|]. destruct has_data as (_ & ? & _); [done|].
    by rewrite (proj2 (Z.eqb_neq (data s) 0)) by lia. }
  rewrite (value_info _ _ _ _ Hs). cbn [mbind option_bind]. rewrite (n_members_ok t Ht Hg). cbn [mbind option_bind].
  assert (length l = length (item_types t)) as Elen by by rewrite <- E, length_map.
  replace (Z.to_nat (zlen (item_types t))) with (length l) by (unfold zlen; lia).
  pose proof (tuple_loop_accept [] l eq_refl) as Hloop. change (zlen (@nil item)) with 0 in Hloop. change (zlen (body [])) with 0 in Hloop.
  assert (used [] l = 0) as Eu by by destruct l. rewrite Eu, Z.mul_0_r, Z.sub_0_r in Hloop. fold os. rewrite Hloop. cbn [mbind option_bind].
  rewrite (query_ok t Hg). pose proof (value_fixed _ _ _ _ Hs) as Hvf. pose proof (tuple_container t l Ht) as Eb. cbv zeta in Eb.
  pose proof (type_shape_ok t Hg) as [[Hm _] _]. destruct (fixed t) eqn:Hf.
  - destruct (Hfx eq_refl) as [Es _]. rewrite Es. change (zlen (@nil Z)) with 0. rewrite Z.mul_0_r, Z.sub_0_r.
    pose proof (fixed_eq t Hf) as Hne. destruct has_data as (Hh & Hbs & Hbe); [lia|]. rewrite Eb in Hh. pose proof (proj1 Hb) as Hsz. rewrite Eb in Hsz.
    unfold mask in *. destruct (type_shape t) as [d e]. cbn [mbind option_bind fst snd] in *. rewrite (proj2 (Z.eqb_neq e 0)) by done. cbn [negb].
    rewrite Hvf, !Z.eqb_refl. cbn [andb assert_then].
    destruct l as [|x l'] eqn:El.
    + rewrite (proj2 (Z.eqb_eq (zlen (item_types t)) 0)) by (unfold zlen; cbn in Elen; lia). change (zlen (body [])) with 0.
      rewrite Z.add_0_r, (load_holds base mem (data s) 0 Hh). cbn [mbind option_bind Z.eqb negb]. change (zlen [0]) with 1 in Hsz.
      change (0 + 1) with 1. assert (e = 1) as -> by lia. done.
    + rewrite (proj2 (Z.eqb_neq (zlen (item_types t)) 0)) by (unfold zlen; cbn in Elen; lia). rewrite <- El in *.
      rewrite zlen_app, zlen_padding in Hsz by done. apply holds_app in Hh as [_ Hh].
      pose proof (up_bounds d (zlen (body l)) Hm). pose proof (mask_range _ Hm).
      rewrite end_padding_accept; [|done|lia|by replace (data s + zlen (body l) - base) with (data s - base + zlen (body l)) by lia].
      cbn [mbind option_bind]. assert (up d (zlen (body l)) = e) as -> by lia. by rewrite Z.eqb_refl.
  - specialize (Hex eq_refl). fold os in Hex. pose proof (not_fixed t Hf) as H0. destruct (type_shape t) as [d e]. cbn [mbind option_bind snd] in *. rewrite H0. cbn [Z.eqb negb].
    f_equal. apply Z.eqb_eq. lia.
Qed.
End tuple.

(** *** Variants *)

Lemma variant_accept u b :
  t = Leaf 118 -> l = [(u, b)] -> 0 <= nested s -> nested s + depth u < 128 ->
  gvs_variant_is_normal base mem is_normal s = Some true.
Proof.
  intros Et El Hns Hdep. destruct Hb as [Hsz Hbb]. pose proof Hs as Hs'. rewrite Et in Hs'.
  destruct (variant_loads base mem Hblock s t l Hc Hsz Hbb u b Et El Hns Hdep) as (c & Ec & Hcx).
  destruct (variant_safe base mem Hblock s 0 Hs' Hns) as (c' & u' & Ec' & (Hcv & _) & (Hnest & _)). rewrite Ec in Ec'. injection Ec' as <-.
  unfold gvs_variant_is_normal. rewrite Ec. cbn [mbind option_bind].
  assert (u' = u) as ->.
  { destruct Hcx as (E1 & _). pose proof (value_info _ _ _ _ Hcv) as E2. rewrite E1 in E2. injection E2 as E2. cbn [fst] in E2.
    pose proof (type_string_ok u' (value_good _ _ _ _ Hcv)) as P2. rewrite <- E2 in P2.
    assert (good u) as Hgu. { pose proof Hc as [Hi _]. rewrite El in Hi. apply Forall_cons in Hi as [(Hgu & _) _]. exact Hgu. }
    rewrite (type_string_ok u Hgu) in P2. injection P2 as P2. apply app_inj_tail in P2 as [P2 _].
    symmetry. apply print_inj; [apply Hgu|apply (value_good _ _ _ _ Hcv)|done]. }
  rewrite (value_info _ _ _ _ Hcv). cbn [mbind option_bind]. rewrite (query_depth_ok u (value_good _ _ _ _ Hcv) Hnest). cbn [mbind option_bind].
  pose proof (depth_nonneg u). change max_depth with 128. rewrite (wrap_small 64 (128 - depth u)), (proj2 (Z.ltb_lt (nested s) _)) by lia. cbn [andb].
  assert (negb (data c =? 0) || (size c =? 0) = true) as ->.
  { destruct Hcx as (_ & E & _ & [[_ E0]|[E0 _]]); [cbn [snd] in *; rewrite E, E0; by rewrite orb_true_r|]. by rewrite (proj2 (Z.eqb_neq _ _) E0). }
  apply (child_accept c (u, b)); [rewrite El; left|done|done].
Qed.
End container.

(** ** The recursion *)

Lemma normal_accept n fuel s t b :
  normal_bytes n t b -> value_ok s t -> has_bytes s b -> 0 <= nested s -> nested s + Z.of_nat n <= 128 -> 128 - nested s <= Z.of_nat fuel ->
  is_normal_fuel base mem fuel s = Some true.
Proof.
  revert fuel s t b. induction n as [|n IH]; intros fuel s t b Hn Hs Hb Hns Hlim Hf; [done|].
  destruct fuel as [|fuel]; [lia|]. cbn [is_normal_fuel]. change max_depth with 128. rewrite (proj2 (Z.leb_gt _ _)) by lia.
  rewrite (value_info _ _ _ _ Hs). cbn [mbind option_bind]. rewrite (dispatch_ok t (value_good _ _ _ _ Hs)). cbn [mbind option_bind].
  destruct Hn as [(c & -> & Hc & Hl)|(l & Hk & Hcl & Hdep & Hch & ->)].
  { cbn [kind_of]. rewrite (proj2 (Z.eqb_neq c 118)) by done. by eapply leaf_accept. }
  assert (forall c x, x ∈ l -> value_ok c (fst x) -> nested c = u64 (nested s + 1) -> has_bytes c (snd x) ->
    is_normal_fuel base mem fuel c = Some true) as Hrec.
  { intros c x Hx Hcv Hnc Hcb. rewrite wrap_small in Hnc by lia.
    apply (IH fuel c (fst x) (snd x) (proj1 (Forall_forall _ _) Hch x Hx) Hcv Hcb); lia. }
  destruct t as [c|u|u|ts|kt v]; cbn [kind_of] in *.
  - destruct (Z.eqb_spec c 118) as [->|]; [|done]. pose proof Hcl as (_ & _ & Hlen). destruct l as [|[u b] [|]] eqn:El; try done.
    specialize (Hdep eq_refl). apply Forall_cons in Hdep as [Hdep _]. cbn [fst] in Hdep.
    apply (variant_accept (is_normal_fuel base mem fuel) s (Leaf 118) [(u, b)] Hs Hcl Hb Hrec u b); try done. lia.
  - destruct (fixed u) eqn:Hf'; [by eapply fixed_maybe_accept|by eapply variable_maybe_accept].
  - destruct (fixed u) eqn:Hf'; [by eapply fixed_array_accept|by eapply variable_array_accept].
  - by eapply tuple_accept.
  - by eapply tuple_accept.
Qed.
End accept.
