(* ===== verification/SerialiserCorrect.v ===== *)
(** * Serialised values: the properties

    The layouts of types, reading any bytes, storing and reading back, and the
    check for the normal form. *)

From S2P Require Import Prelude Utf8Validate VariantType VariantSpec VariantInfo VariantInfos.
From S2P Require Import Serialiser SerialiserRead SerialiserWrite SerialiserSpec.
From S2P Require Import SerialiserStore SerialiserLoad SerialiserNormal SerialiserTotal.
From S2P Require Import SerialiserAccept.
Local Open Scope Z_scope.
Local Open Scope xpl_scope.

(** ** A callback for the examples: children are given by their types and bytes *)

Definition item_filler (base : Z) (s : GVariantSerialised) (x : item) (st : list Z * unit) :
    option (GVariantSerialised * (list Z * unit)) :=
  let '(mem, w) := st in
  let s := Serialised (Some (info_of (fst x))) (data s) (zlen (snd x)) (nested s) in
  if data s =? 0 then Some (s, (mem, w))
  else mem ← store_bytes base mem (data s) (snd x); Some (s, (mem, w)).
#[export] Instance item_filler_ok base : FillerOk base (item_filler base) (fun _ => True) (fun _ => True) id.
Proof.
  split; intros s x; unfold item_filler, id; cbn [data].
  - intros mem w _ _ _ _ ->. rewrite Z.eqb_refl. by do 2 eexists.
  - intros pre old post w _ _ _ _ Hd Ho _ Hr. pose proof Hr as (H0 & _). pose proof (zlen_nonneg pre).
    rewrite (proj2 (Z.eqb_neq (data s) 0)) by lia. rewrite store_bytes_ok by done. cbn [mbind option_bind]. by do 2 eexists.
Qed.

(** ** Layouts *)

(** C18: the constants of type infos are those of the plain layout. The info of a
    type string is made by its structure; its alignment and fixed size are those
    of [type_shape]; and for each member of a tuple the table's four constants
    compute, from the end of the last member of variable size before it, where
    walking over the members in between arrives, aligned. *)
Theorem type_infos_lay_out s p t :
  denotes s p t -> good t ->
  xvariant_type_info_get s p = Some (info_of t) /\
  xvariant_type_info_query (info_of t) = Some (type_shape t) /\
  (forall u, element_type t u -> xvariant_type_info_element (info_of t) = Some (info_of u)) /\
  (tuple_type t -> xvariant_type_info_n_members (info_of t) = Some (zlen (item_types t)) /\
    forall k u, item_types t !! k = Some u ->
      exists m, xvariant_type_info_member_info (info_of t) (Z.of_nat k) = Some (Some (info_of u, m)) /\
        let before := map type_shape (take k (item_types t)) in
        m_i m = u64 (vars before - 1) /\
        ending_type m = ending (type_shape u) k (length (item_types t)) /\
        forall x, 0 <= x < 2 ^ 61 -> member_start x m = up (fst (type_shape u)) (ends x (run before))).
Proof.
  intros Hd Hg. split_and!; [by apply info_get_ok|by apply query_ok|by intros; apply element_ok|]. intros Ht. split; [by apply n_members_ok|].
  intros k u Hk. destruct (members_lookup t Hg k u Hk) as (m & Hm & (Hi & Hx & _) & He). exists m. split; [|done].
  rewrite (member_info_ok t _ Ht Hg), rd_ge_0, Nat2Z.id, Hm by lia. done.
Qed.

(** The type [(yxs(qi)s)]. *)
Definition example_type : vtype := Tuple [Leaf 121; Leaf 120; Leaf 115; Tuple [Leaf 113; Leaf 105]; Leaf 115].
Lemma example_good : good example_type.
Proof. by split_and!. Qed.
Lemma type_infos_lay_out_witness :
  exists m, xvariant_type_info_member_info (info_of example_type) 3 = Some (Some (info_of (Tuple [Leaf 113; Leaf 105]), m)) /\
    m_i m = 0 /\ member_start 21 m = 24.
Proof.
  destruct (type_infos_lay_out (print example_type) 0 example_type) as (_ & _ & _ & H).
  - split; [done|apply holds_all].
  - by split_and!.
  - destruct (H I) as [_ Hm]. destruct (Hm 3%nat (Tuple [Leaf 113; Leaf 105]) eq_refl) as (m & Em & Hi & _ & Hx).
    exists m. split; [exact Em|]. split; [rewrite Hi; vm_compute; reflexivity|rewrite (Hx 21) by lia; vm_compute; reflexivity].
Defined.

(** ** Reading *)

(** C16: whatever the bytes of a value of container type are, the program counts
    its children and gives each of them without a failed assertion or an access
    outside the block; each child has the type the container's type says (for
    variants, a definite type), is again a well-placed value of it, and its bytes
    are among those of the container. An index out of range is refused. The
    placement matters: data that [xvariant_serialised_check] accepts because it
    is not longer than the alignment can make [xvariant_serialised_get_child]
    fail its own assertion. *)
Theorem serialised_read_safe :
  (forall base mem s t,
    block base mem -> value_ok base mem s t -> container t -> 0 <= nested s ->
    exists n, xvariant_serialised_n_children base mem s = Some n /\ 0 <= n /\
      (forall i, n <= i -> xvariant_serialised_get_child base mem s i = None) /\
      forall i, 0 <= i < n -> exists c u, xvariant_serialised_get_child base mem s i = Some c /\
        child_type t i u /\ value_ok base mem c u /\ inside s c /\ nested c = u64 (nested s + 1) /\
        (t = Leaf 118 -> u = Tuple [] \/ nested s + depth u < 128 \/ depth u = 129)) /\
  (exists base mem s t,
    block base mem /\ type_info s = Some (info_of t) /\ base <= data s /\ data s + size s <= base + zlen mem /\
    xvariant_serialised_check s = Some true /\ xvariant_serialised_n_children base mem s = Some 2 /\
    xvariant_serialised_get_child base mem s 0 = None) /\
  exists base mem s u,
    value_ok base mem s (Leaf 118) /\ nested s = 0 /\ depth u = 129 /\
    option_map (fun c => (type_info c, data c, size c)) (xvariant_serialised_get_child base mem s 0) = Some (Some (info_of u), 0, 0).
Proof.
  split; [|split].
  - intros base mem s t Hb Hs Ht Hns. destruct (entry_safe base mem Hb s t Hs Ht Hns) as (n & En & Hn & Hout & Hin).
    exists n. split; [done|]. split; [done|]. split; [done|]. intros i Hi.
    destruct (Hin i Hi) as (c & u & Ec & (Hcv & Hci & Hcn & _) & Hcu & Hlim). exists c, u.
    split; [done|]. split; [done|]. split; [done|]. split; [done|]. split; [done|]. intros E. by apply (Hlim E).
  - exists 1026, [0; 0; 0; 0; 0; 4], (Serialised (Some (info_of (Tuple [Array (Leaf 105); Array (Leaf 120)]))) 1026 6 0).
    exists (Tuple [Array (Leaf 105); Array (Leaf 120)]). split; [|by split_and!].
    unfold block. split; [lia|]. split; [done|]. split; [done|]. repeat (apply Forall_cons_2; [unfold is_byte; lia|]). apply Forall_nil_2.
  - set (u := Nat.iter 128 Array (Leaf 121)). exists 1024, (0 :: print u), (Serialised (Some (info_of (Leaf 118))) 1024 130 0), u.
    split; [constructor; [done|by split_and!|done|right; done|right; by split_and!]|]. split; [done|]. split; [by vm_compute|]. by vm_compute.
Qed.

Definition broken : GVariantSerialised := Serialised (Some (info_of (Array (Leaf 115)))) 1024 5 0.
Definition broken_bytes : list Z := [65; 0; 2; 9; 3].
Lemma serialised_read_safe_witness :
  exists n, xvariant_serialised_n_children 1024 broken_bytes broken = Some n /\ 0 <= n /\
    forall i, 0 <= i < n -> exists c, xvariant_serialised_get_child 1024 broken_bytes broken i = Some c /\ inside broken c.
Proof.
  destruct (proj1 serialised_read_safe 1024 broken_bytes broken (Array (Leaf 115))) as (n & En & Hn & _ & Hc).
  - unfold block. split; [lia|]. split; [done|]. split; [done|]. repeat (apply Forall_cons_2; [unfold is_byte; lia|]). apply Forall_nil_2.
  - constructor; [done|by split_and!|done|right; done|right; by split_and!].
  - done.
  - done.
  - exists n. split; [exact En|]. split; [exact Hn|]. intros i Hi. destruct (Hc i Hi) as (c & u & Ec & _ & _ & Hin & _). by exists c.
Defined.

(** ** Storing and reading back *)

(** What lies in memory after a container was stored. *)
Section stored.
Context {A W : Type} (base : Z) (gvs_filler : GVariantSerialised -> A -> list Z * W -> option (GVariantSerialised * (list Z * W))).
Context (inv : W -> Prop) (known : A -> Prop) (kid : A -> item) `{!FillerOk base gvs_filler inv known kid}.
Context (t : vtype) (xs : list A) (Hg : good t) (Hc : children_ok t (map kid xs)) (Hk : Forall known xs).
Context (s : GVariantSerialised) (pre old post : list Z) (Ht : target base s t pre old post).
Context (Hpre : Forall is_byte pre) (Hpost : Forall is_byte post).
Local Abbreviation bytes := (container_bytes t (map kid xs)).

(** The size is computed, and then the bytes of the format are stored. *)
Lemma container_stored w :
  zlen bytes < 2 ^ 55 -> inv w ->
  exists w1, xvariant_serialiser_needed_size gvs_filler (info_of t) xs (pre ++ old ++ post, w) = Some (zlen bytes, (pre ++ old ++ post, w1)) /\
    inv w1 /\
    (zlen old = zlen bytes -> exists w2,
      xvariant_serialiser_serialise base gvs_filler s xs (pre ++ old ++ post, w1) = Some (pre ++ bytes ++ post, w2) /\ inv w2).
Proof.
  intros Hl Hw.
  destruct (needed_size_ok base gvs_filler inv known kid t xs Hg Hc Hk Hl (pre ++ old ++ post) w Hw) as (w1 & -> & Hw1).
  exists w1. split; [done|]. split; [done|]. intros Ho.
  by apply (serialise_ok base gvs_filler inv known kid t xs Hg Hc Hk s pre old post Ht Ho w1 Hw1).
Qed.

Context (Hsize : zlen old = zlen bytes).
Lemma stored_block : block base (pre ++ bytes ++ post).
Proof.
  destruct Ht as [_ _ _ _ (H0 & Htop & Hroom)]. rewrite !zlen_app in *. split; [done|]. rewrite !zlen_app, <- Hsize. split; [done|]. split; [done|].
  rewrite !Forall_app. split_and!; [done|by apply container_is_bytes|done].
Qed.
Lemma stored_value : value_ok base (pre ++ bytes ++ post) s t.
Proof. by apply (target_value base kid t xs Hg Hc s pre old post Ht Hsize). Qed.
Lemma stored_bytes : has_bytes base (pre ++ bytes ++ post) s bytes.
Proof.
  split; [by rewrite (target_size _ _ _ _ _ _ Ht)|]. destruct (target_place _ _ _ _ _ _ Ht) as [->|[_ E]].
  - right. exists pre, post. split; [done|lia].
  - left. by rewrite (target_size _ _ _ _ _ _ Ht), E.
Qed.
End stored.

(** C15: storing children makes a container that gives them back. For any callback
    that fills in and stores the children as it should, the size computed is that
    of the format; storing into that much room, whatever was there, leaves exactly
    the bytes of the format, padding and offsets included, and nothing around them
    changed; and then the container counts as many children as were stored and
    gives each with its type and its bytes. The container is below [2 ^ 55] bytes;
    variants need room below the recursion limit. *)
Theorem serialised_roundtrip {A W} base (gvs_filler : GVariantSerialised -> A -> list Z * W -> option (GVariantSerialised * (list Z * W)))
    inv known kid `{!FillerOk base gvs_filler inv known kid} t xs s pre old post w :
  let bytes := container_bytes t (map kid xs) in
  good t -> container t -> children_ok t (map kid xs) -> Forall known xs -> inv w -> zlen bytes < 2 ^ 55 ->
  target base s t pre old post -> Forall is_byte pre -> Forall is_byte post -> 0 <= nested s ->
  (t = Leaf 118 -> Forall (fun x => nested s + depth (fst (kid x)) < 128) xs) ->
  exists w1, xvariant_serialiser_needed_size gvs_filler (info_of t) xs (pre ++ old ++ post, w) = Some (zlen bytes, (pre ++ old ++ post, w1)) /\
    inv w1 /\
    (zlen old = zlen bytes -> exists w2,
      xvariant_serialiser_serialise base gvs_filler s xs (pre ++ old ++ post, w1) = Some (pre ++ bytes ++ post, w2) /\ inv w2 /\
      xvariant_serialised_n_children base (pre ++ bytes ++ post) s = Some (zlen xs) /\
      forall k x, xs !! k = Some x -> exists c,
        xvariant_serialised_get_child base (pre ++ bytes ++ post) s (Z.of_nat k) = Some c /\
        child_is base (pre ++ bytes ++ post) s c (kid x)).
Proof.
  intros bytes Hg Hcont Hc Hk Hw Hl Ht Hpre Hpost Hns Hlim.
  destruct (container_stored base gvs_filler inv known kid t xs Hg Hc Hk s pre old post Ht w Hl Hw) as (w1 & -> & Hw1 & Hstore).
  exists w1. split; [done|]. split; [done|]. intros Ho. destruct (Hstore Ho) as (w2 & Es & Hw2). exists w2. split; [done|]. split; [done|].
  pose proof (stored_bytes base kid t xs s pre old post Ht Ho) as [Hs Hb].
  destruct (entry_loads base (pre ++ bytes ++ post)) with (s := s) (t := t) (l := map kid xs) as [En Hch]; try done.
  - by apply (stored_block base kid t xs Hc s pre old post Ht Hpre Hpost Ho).
  - by apply (stored_value base kid t xs Hg Hc s pre old post Ht Ho).
  - intros E. apply Forall_map. by apply Hlim.
  - split; [rewrite En; unfold zlen; by rewrite length_map|]. intros k x Hx. apply Hch. by rewrite list_lookup_fmap, Hx.
Qed.

(** The children of a dictionary entry from a byte to a string. *)
Definition entry_items : list item := [(Leaf 121, [7]); (Leaf 115, [104; 105; 0])].
Definition entry_value (base : Z) : GVariantSerialised := Serialised (Some (info_of (Entry 121 (Leaf 115)))) base 4 0.
Lemma entry_children : children_ok (Entry 121 (Leaf 115)) (map id entry_items).
Proof. split; [|done]. repeat constructor; try done; by split_and!. Qed.
Lemma entry_target : target 1024 (entry_value 1025) (Entry 121 (Leaf 115)) [9] [1; 2; 3; 4] [9].
Proof. constructor; [done|done|by left|done|by split_and!]. Qed.

Lemma serialised_roundtrip_witness :
  xvariant_serialiser_serialise 1024 (item_filler 1024) (entry_value 1025) entry_items ([9; 1; 2; 3; 4; 9], tt) =
    Some ([9; 7; 104; 105; 0; 9], tt) /\
  xvariant_serialised_n_children 1024 [9; 7; 104; 105; 0; 9] (entry_value 1025) = Some 2.
Proof.
  destruct (serialised_roundtrip 1024 (item_filler 1024) (fun _ => True) (fun _ => True) id (Entry 121 (Leaf 115)) entry_items
    (entry_value 1025) [9] [1; 2; 3; 4] [9] tt) as ([] & E & _ & H).
  - by split_and!.
  - done.
  - apply entry_children.
  - by repeat constructor.
  - done.
  - done.
  - apply entry_target.
  - by repeat constructor.
  - by repeat constructor.
  - done.
  - done.
  - destruct (H eq_refl) as ([] & Es & _ & En & _). split; [exact Es|exact En].
Defined.

(** ** The normal form *)

(** C17: the check for the normal form ends with an answer for any bytes: the
    recursion into variants is cut off at the depth limit, no assertion of its
    fails, and it reads the value and at most one byte behind it. That byte it
    does read: a tuple that ends where padding should begin, at the end of the
    memory, is read out of bounds. *)
Theorem normal_check_terminates :
  (forall base mem s t,
    block base mem -> value_ok base mem s t -> 0 <= nested s -> data s = 0 \/ data s + size s < base + zlen mem ->
    exists b, xvariant_serialised_is_normal base mem s = Some b) /\
  exists base mem s t,
    block base mem /\ value_ok base mem s t /\ nested s = 0 /\ data s + size s = base + zlen mem /\
    xvariant_serialised_is_normal base mem s = None.
Proof.
  split.
  - intros base mem s t Hb Hs Hns Hr. apply (normal_total base mem Hb _ s t Hs Hr Hns). unfold G_VARIANT_MAX_RECURSION_DEPTH. lia.
  - exists 1024, [0], (Serialised (Some (info_of (Tuple [Leaf 121; Leaf 120; Leaf 115]))) 1024 1 0), (Tuple [Leaf 121; Leaf 120; Leaf 115]).
    split; [split; [lia|]; split; [done|]; split; [done|]; repeat (apply Forall_cons_2; [unfold is_byte; lia|]); apply Forall_nil_2|].
    split; [|by split_and!]. constructor; [done|by split_and!|done|right; done|right; by split_and!].
Qed.
Lemma normal_check_terminates_witness : exists b, xvariant_serialised_is_normal 1024 (broken_bytes ++ [0]) broken = Some b.
Proof.
  apply (proj1 normal_check_terminates 1024 (broken_bytes ++ [0]) broken (Array (Leaf 115))).
  - unfold block. split; [lia|]. split; [done|]. split; [done|]. repeat (apply Forall_cons_2; [unfold is_byte; lia|]). apply Forall_nil_2.
  - constructor; [done|by split_and!|done|right; done|right; by split_and!].
  - done.
  - by right.
Defined.

(** Two ways to store strings of 82, 82 and 83 characters in an array. *)
Definition three_strings : list item :=
  map (fun n => (Leaf 115, replicate n 97 ++ [0])) [82; 82; 83]%nat.
Definition strings_form (w : Z) : list Z := body three_strings ++ offsets w (body_ends three_strings).
Definition strings_value (w : Z) : GVariantSerialised :=
  Serialised (Some (info_of (Array (Leaf 115)))) 1024 (zlen (strings_form w)) 0.

(** The bytes of a container of children in normal form. *)
Lemma normal_container {A} (kid : A -> item) n t xs :
  container t -> children_ok t (map kid xs) -> (t = Leaf 118 -> Forall (fun x => depth (fst (kid x)) <= Z.of_nat n) xs) ->
  Forall (fun x => normal_bytes n (fst (kid x)) (snd (kid x))) xs -> normal_bytes (S n) t (container_bytes t (map kid xs)).
Proof.
  intros Hcont Hc Hdep Hn. right. exists (map kid xs). split; [by destruct (container_kind t Hcont) as [k ->]|]. split; [done|]. split; [|split; [|done]].
  - intros E. apply Forall_map. eapply Forall_impl; [by apply Hdep|]. intros x Hx. cbn beta in *. lia.
  - by apply Forall_map.
Qed.

(** C19: values in normal form are accepted. A value that is a leaf is accepted
    exactly if it is one: a boolean below 2, UTF-8 text with its terminator, a
    D-Bus object path, a D-Bus signature, or a number of the right size. A
    container is accepted if its bytes are those of the format for children in
    normal form; so what the serialiser stores for such children, whatever lay in
    the memory before, is accepted. Other forms are accepted too: an array of the
    same three strings with wider offsets than needed. *)
Theorem normal_values_accepted :
  (forall base mem s t b n,
    block base mem -> value_ok base mem s t -> 0 <= nested s -> nested s + Z.of_nat n <= 128 -> has_bytes base mem s b ->
    (normal_bytes n t b -> xvariant_serialised_is_normal base mem s = Some true) /\
    (forall c, t = Leaf c -> c <> 118 -> nested s < 128 ->
      xvariant_serialised_is_normal base mem s = Some true <-> leaf_bytes c b)) /\
  (forall A W base (gvs_filler : GVariantSerialised -> A -> list Z * W -> option (GVariantSerialised * (list Z * W))) inv known kid n t xs s pre old post w,
    FillerOk base gvs_filler inv known kid ->
    good t -> container t -> children_ok t (map kid xs) -> Forall known xs -> inv w -> zlen (container_bytes t (map kid xs)) < 2 ^ 55 ->
    target base s t pre old post -> Forall is_byte pre -> Forall is_byte post ->
    0 <= nested s -> nested s + Z.of_nat n < 128 -> (t = Leaf 118 -> Forall (fun x => depth (fst (kid x)) <= Z.of_nat n) xs) ->
    Forall (fun x => normal_bytes n (fst (kid x)) (snd (kid x))) xs ->
    exists needed w1, xvariant_serialiser_needed_size gvs_filler (info_of t) xs (pre ++ old ++ post, w) = Some (needed, (pre ++ old ++ post, w1)) /\
      (zlen old = needed -> exists mem w2,
        xvariant_serialiser_serialise base gvs_filler s xs (pre ++ old ++ post, w1) = Some (mem, w2) /\
        xvariant_serialised_is_normal base mem s = Some true)) /\
  Forall (fun w =>
    value_ok 1024 (strings_form w) (strings_value w) (Array (Leaf 115)) /\
    xvariant_serialised_is_normal 1024 (strings_form w) (strings_value w) = Some true /\
    xvariant_serialised_n_children 1024 (strings_form w) (strings_value w) = Some 3 /\
    map (fun i => c ← xvariant_serialised_get_child 1024 (strings_form w) (strings_value w) i;
                  cells_at (strings_form w) (data c - 1024) (size c)) [0; 1; 2] = map (Some ∘ snd) three_strings) [1; 2].
Proof.
  split; [|split].
  - intros base mem s t b n Hb Hs Hns Hlim Hby. split.
    + intros Hn. apply (normal_accept base mem Hb n _ s t b); try done. unfold G_VARIANT_MAX_RECURSION_DEPTH. lia.
    + intros c -> Hc H128. split; [|intros Hl; apply (normal_accept base mem Hb 1 _ s (Leaf c) b); try done;
        [left; by exists c|lia|unfold G_VARIANT_MAX_RECURSION_DEPTH; lia]].
      unfold xvariant_serialised_is_normal, G_VARIANT_MAX_RECURSION_DEPTH. cbn [is_normal_fuel]. change max_depth with 128.
      rewrite (proj2 (Z.leb_gt _ _)) by done. rewrite (value_info _ _ _ _ Hs). cbn [mbind option_bind].
      rewrite (dispatch_ok _ (value_good _ _ _ _ Hs)). cbn [mbind option_bind kind_of]. rewrite (proj2 (Z.eqb_neq c 118)) by done.
      by apply leaf_exact.
  - intros A W base gvs_filler inv known kid n t xs s pre old post w HF Hg Hcont Hc Hk Hw Hl Ht Hpre Hpost Hns Hlim Hdep Hn.
    destruct (container_stored base gvs_filler inv known kid t xs Hg Hc Hk s pre old post Ht w Hl Hw) as (w1 & -> & _ & Hstore).
    eexists _, w1. split; [done|]. intros Ho. destruct (Hstore Ho) as (w2 & -> & _). eexists _, w2. split; [done|].
    apply (normal_accept base _ (stored_block base kid t xs Hc s pre old post Ht Hpre Hpost Ho) (S n) _ s t (container_bytes t (map kid xs))); try done.
    + by apply normal_container.
    + by apply (stored_value base kid t xs Hg Hc s pre old post Ht Ho).
    + by apply (stored_bytes base kid t xs s pre old post Ht Ho).
    + lia.
    + unfold G_VARIANT_MAX_RECURSION_DEPTH. lia.
  - repeat (apply Forall_cons_2; [|]); [..|apply Forall_nil_2].
    all: split; [constructor; [done|by split_and!|by vm_compute|right; done|right; by vm_compute; split_and!]|].
    all: split; [by vm_compute|]; split; by vm_compute.
Qed.

Lemma entry_normal : Forall (fun x : item => normal_bytes 1 (fst x) (snd x)) entry_items.
Proof.
  constructor; [left; exists 121; by split_and!|]. constructor; [|constructor]. left. exists 115. split_and!; [done..|].
  exists [104; 105]. split; [|reflexivity]. repeat (apply Forall_cons_2; [unfold text_char, scalar; lia|]). apply Forall_nil_2.
Qed.
Lemma normal_values_accepted_witness :
  xvariant_serialised_is_normal 1024 [9; 7; 104; 105; 0; 9] (entry_value 1025) = Some true.
Proof.
  destruct (proj1 (proj2 normal_values_accepted) _ _ 1024 (item_filler 1024) (fun _ => True) (fun _ => True) id 1%nat (Entry 121 (Leaf 115)) entry_items
    (entry_value 1025) [9] [1; 2; 3; 4] [9] tt _) as (needed & [] & E & H).
  - by split_and!.
  - done.
  - apply entry_children.
  - by repeat constructor.
  - done.
  - done.
  - apply entry_target.
  - by repeat constructor.
  - by repeat constructor.
  - done.
  - done.
  - done.
  - apply entry_normal.
  - assert (needed = 4) as -> by (vm_compute in E; congruence). destruct (H eq_refl) as (mem & [] & Es & En).
    assert (mem = [9; 7; 104; 105; 0; 9]) as <- by (vm_compute in Es; congruence). exact En.
Defined.
