(* ===== verification/Date.v ===== *)
(** * Dates: src/glib/gdate.c

    A date keeps a day number, a day, month and year, or both; functions on a
    [const] date fill in what they need, so they return the date as well. A
    failed [g_return_if_fail] leaves what was done before it. Values of the
    machine types are [Z], with the widths of the bit-fields written out. An
    argument is a value of the type of its parameter (a [GDateDay] has 8 bits, a
    [GDateYear] 16): converting it is up to the caller, as the parser does. *)

From S2P Require Import Prelude.
Local Open Scope Z_scope.
Local Open Scope xpl_scope.

(** [struct _GDate]. *)
Record xdate := XDate {
  julian_days : Z;  (* : 32 *)
  julian : bool;
  dmy : bool;
  day : Z;          (* : 6 *)
  month : Z;        (* : 4 *)
  year : Z;         (* : 16 *)
}.

Definition G_DATE_MONDAY : Z := 1.
Definition G_DATE_SUNDAY : Z := 7.
Definition G_MAXUINT16 : Z := 65535.
Definition G_MAXUINT32 : Z := 4294967295.

(** Assignments to the fields. *)
Definition set_julian_days (d : xdate) (j : Z) : xdate :=
  XDate (u32 j) (julian d) (dmy d) (day d) (month d) (year d).
Definition set_flags (d : xdate) (j m : bool) : xdate :=
  XDate (julian_days d) j m (day d) (month d) (year d).
Definition set_day (d : xdate) (x : Z) : xdate :=
  XDate (julian_days d) (julian d) (dmy d) (wrap 6 x) (month d) (year d).
Definition set_month (d : xdate) (x : Z) : xdate :=
  XDate (julian_days d) (julian d) (dmy d) (day d) (wrap 4 x) (year d).
Definition set_year (d : xdate) (x : Z) : xdate :=
  XDate (julian_days d) (julian d) (dmy d) (day d) (month d) (u16 x).

(** [memset (d, 0x0, sizeof (xdate_t))] *)
Definition zero_date : xdate := XDate 0 false false 0 0 0.

Definition days_in_months : list (list Z) :=
  [[0; 31; 28; 31; 30; 31; 30; 31; 31; 30; 31; 30; 31];
   [0; 31; 29; 31; 30; 31; 30; 31; 31; 30; 31; 30; 31]].
Definition days_in_year : list (list Z) :=
  [[0; 0; 31; 59; 90; 120; 151; 181; 212; 243; 273; 304; 334; 365];
   [0; 0; 31; 60; 91; 121; 152; 182; 213; 244; 274; 305; 335; 366]].

(** [table[idx][m]]: the tables are only read inside. *)
Definition table_at (table : list (list Z)) (idx m : Z) : Z := tbl (default [] (rd table idx)) m.

(** ** Validity *)

Definition xdate_valid (d : xdate) : bool := julian d || dmy d.
Definition xdate_valid_month (m : Z) : bool := (0 <? m) && (m <? 13).
Definition xdate_valid_year (y : Z) : bool := 0 <? y.
Definition xdate_valid_day (d : Z) : bool := (0 <? d) && (d <? 32).
Definition xdate_valid_weekday (w : Z) : bool := (0 <? w) && (w <? 8).
Definition xdate_valid_julian (j : Z) : bool := 0 <? j.

Definition xdate_is_leap_year (year : Z) : bool :=
  if negb (xdate_valid_year year) then false
  else (year `rem` 4 =? 0) && negb (year `rem` 100 =? 0) || (year `rem` 400 =? 0).

Definition leap_index (year : Z) : Z := if xdate_is_leap_year year then 1 else 0.

Definition xdate_valid_dmy (d m y : Z) : bool :=
  (0 <? m) && (m <? 13) && (0 <? d) && (0 <? y) &&
  (d <=? (if xdate_is_leap_year y then table_at days_in_months 1 m else table_at days_in_months 0 m)).

Definition xdate_get_days_in_month (month year : Z) : Z :=
  if negb (xdate_valid_year year) then 0
  else if negb (xdate_valid_month month) then 0
  else table_at days_in_months (leap_index year) month.

(** ** The two representations *)

Definition xdate_update_julian (d : xdate) : xdate :=
  if negb (dmy d) then d
  else if julian d then d
  else if negb (xdate_valid_dmy (day d) (month d) (year d)) then d
  else
    let y := u16 (year d - 1) in
    let d := set_julian_days d (u32 (y * 365)) in
    let y := y >> 2 in
    let d := set_julian_days d (julian_days d + y) in
    let y := y `quot` 25 in
    let d := set_julian_days d (julian_days d - y) in
    let d := set_julian_days d (julian_days d + (y >> 2)) in
    let idx := leap_index (year d) in
    let d := set_julian_days d (julian_days d + (table_at days_in_year idx (month d) + day d)) in
    if negb (xdate_valid_julian (julian_days d)) then d
    else set_flags d true (dmy d).

Definition xdate_update_dmy (d : xdate) : xdate :=
  if negb (julian d) then d
  else if dmy d then d
  else if negb (xdate_valid_julian (julian_days d)) then d
  else
    let A := u32 (julian_days d + 1721425 + 32045) in
    let B := u32 (u32 (4 * u32 (A + 36524)) `quot` 146097 - 1) in
    let C := u32 (A - u32 (146097 * B) `quot` 4) in
    let D := u32 (u32 (4 * u32 (C + 365)) `quot` 1461 - 1) in
    let E := u32 (C - u32 (1461 * D) `quot` 4) in
    let M := u32 (u32 (5 * u32 (E - 1)) + 2) `quot` 153 in
    let m := u32 (M + 3 - u32 (12 * (M `quot` 10))) in
    let day := u8 (u32 (E - u32 (u32 (153 * M) + 2) `quot` 5)) in
    let y := u16 (u32 (100 * B + D - 4800 + M `quot` 10)) in
    let d := set_year (set_day (set_month d m) day) y in
    set_flags d (julian d) true.

(** [if (!d->julian) xdate_update_julian (d);] and the other way round. *)
Definition need_julian (d : xdate) : xdate := if negb (julian d) then xdate_update_julian d else d.
Definition need_dmy (d : xdate) : xdate := if negb (dmy d) then xdate_update_dmy d else d.

(** ** Making dates *)

Definition xdate_new : xdate := zero_date.

(** The new date, or [NULL]. What the fields that are not set hold is a
    parameter. *)
Definition xdate_new_dmy (junk : Z) (day m y : Z) : option xdate :=
  if negb (xdate_valid_dmy day m y) then None
  else Some (XDate (u32 junk) false true (wrap 6 day) (wrap 4 m) (u16 y)).

Definition xdate_new_julian (junk : Z * Z * Z) (julian_day : Z) : option xdate :=
  let '(a, b, c) := junk in
  if negb (xdate_valid_julian julian_day) then None
  else Some (XDate (u32 julian_day) true false (wrap 6 a) (wrap 4 b) (u16 c)).

Definition xdate_clear (d : list xdate) : list xdate := map (fun _ => zero_date) d.

(** ** Reading *)

Definition xdate_get_julian (d : xdate) : Z * xdate :=
  if negb (xdate_valid d) then (0, d)
  else let d := need_julian d in if negb (julian d) then (0, d) else (julian_days d, d).

Definition xdate_get_weekday (d : xdate) : Z * xdate :=
  if negb (xdate_valid d) then (0, d)
  else
    let d := need_julian d in
    if negb (julian d) then (0, d) else (u32 (julian_days d - 1) `rem` 7 + 1, d).

(** The three getters of the other representation. *)
Definition get_field (field : xdate -> Z) (d : xdate) : Z * xdate :=
  if negb (xdate_valid d) then (0, d)
  else let d := need_dmy d in if negb (dmy d) then (0, d) else (field d, d).
Definition xdate_get_month : xdate -> Z * xdate := get_field month.
Definition xdate_get_year : xdate -> Z * xdate := get_field year.
Definition xdate_get_day : xdate -> Z * xdate := get_field day.

Definition xdate_get_day_of_year : xdate -> Z * xdate :=
  get_field (fun d => table_at days_in_year (leap_index (year d)) (month d) + day d).

Definition xdate_set_dmy (d : xdate) (day m y : Z) : xdate :=
  if negb (xdate_valid_dmy day m y) then d
  else
    let d := set_flags d false (dmy d) in
    let d := set_year (set_day (set_month d m) day) y in
    set_flags d (julian d) true.

(** The weekday of the first of January, of a [first] that is on the stack. *)
Definition first_weekday (y : Z) : Z := fst (xdate_get_weekday (xdate_set_dmy zero_date 1 1 y)).

Definition xdate_get_monday_week_of_year (d : xdate) : Z * xdate :=
  if negb (xdate_valid d) then (0, d)
  else
    let d := need_dmy d in
    if negb (dmy d) then (0, d)
    else
      let wd := u32 (first_weekday (year d) - 1) in
      let '(n, d) := xdate_get_day_of_year d in
      let n := u32 (n - 1) in
      (u32 (n + wd) `quot` 7 + (if wd =? 0 then 1 else 0), d).

Definition xdate_get_sunday_week_of_year (d : xdate) : Z * xdate :=
  if negb (xdate_valid d) then (0, d)
  else
    let d := need_dmy d in
    if negb (dmy d) then (0, d)
    else
      let wd := first_weekday (year d) in
      let wd := if wd =? 7 then 0 else wd in
      let '(n, d) := xdate_get_day_of_year d in
      let n := u32 (n - 1) in
      (u32 (n + wd) `quot` 7 + (if wd =? 0 then 1 else 0), d).

Definition xdate_get_iso8601_week_of_year (d : xdate) : Z * xdate :=
  if negb (xdate_valid d) then (0, d)
  else
    let d := need_julian d in
    if negb (julian d) then (0, d)
    else
      let j := u32 (julian_days d + 1721425) in
      let d4 := u32 (j + 31741 - j `rem` 7) `rem` 146097 in
      let d4 := (d4 `rem` 36524) `rem` 1461 in
      let L := d4 `quot` 1460 in
      let d1 := u32 (u32 (d4 - L) `rem` 365 + L) in
      (d1 `quot` 7 + 1, d).

Definition xdate_days_between (d1 d2 : xdate) : Z * xdate * xdate :=
  if negb (xdate_valid d1) then (0, d1, d2)
  else if negb (xdate_valid d2) then (0, d1, d2)
  else
    let '(j2, d2) := xdate_get_julian d2 in
    let '(j1, d1) := xdate_get_julian d1 in
    (i32 (i32 j2 - i32 j1), d1, d2).

Definition xdate_is_first_of_month (d : xdate) : bool * xdate :=
  if negb (xdate_valid d) then (false, d)
  else let d := need_dmy d in if negb (dmy d) then (false, d) else (day d =? 1, d).

Definition xdate_is_last_of_month (d : xdate) : bool * xdate :=
  if negb (xdate_valid d) then (false, d)
  else
    let d := need_dmy d in
    if negb (dmy d) then (false, d)
    else (day d =? table_at days_in_months (leap_index (year d)) (month d), d).

(** The years in which a weekday comes 53 times. *)
Definition weeks_in_year (weekday year : Z) : Z :=
  if negb (xdate_valid_year year) then 0
  else
    let d := xdate_set_dmy zero_date 1 1 year in
    let '(w, d) := xdate_get_weekday d in
    if w =? weekday then 53
    else
      let d := xdate_set_dmy d 31 12 year in
      let '(w, d) := xdate_get_weekday d in
      if w =? weekday then 53
      else if xdate_is_leap_year year then
        let d := xdate_set_dmy d 2 1 year in
        let '(w, d) := xdate_get_weekday d in
        if w =? weekday then 53
        else
          let d := xdate_set_dmy d 30 12 year in
          let '(w, d) := xdate_get_weekday d in
          if w =? weekday then 53 else 52
      else 52.
Definition xdate_get_monday_weeks_in_year : Z -> Z := weeks_in_year G_DATE_MONDAY.
Definition xdate_get_sunday_weeks_in_year : Z -> Z := weeks_in_year G_DATE_SUNDAY.

(** [struct tm]; the other fields are zero. *)
Record tm := Tm {
  tm_mday : Z; tm_mon : Z; tm_year : Z; tm_wday : Z; tm_yday : Z; tm_isdst : Z;
}.

Definition xdate_to_struct_tm (d : xdate) : option tm * xdate :=
  if negb (xdate_valid d) then (None, d)
  else
    let d := need_dmy d in
    if negb (dmy d) then (None, d)
    else
      let mday := day d in
      let mon := month d - 1 in
      let y := year d - 1900 in
      let '(w, d) := xdate_get_weekday d in
      let w := if w =? 7 then 0 else w in
      let '(yday, d) := xdate_get_day_of_year d in
      (Some (Tm mday mon y w (i32 (u32 (yday - 1))) (-1)), d).

(** ** Changing *)

(** The last step of the three setters of single fields. *)
Definition check_dmy (d : xdate) : xdate :=
  set_flags d (julian d) (xdate_valid_dmy (day d) (month d) (year d)).

Definition enter_dmy (d : xdate) : xdate :=
  let d := if julian d && negb (dmy d) then xdate_update_dmy d else d in
  set_flags d false (dmy d).

Definition xdate_set_month (d : xdate) (m : Z) : xdate :=
  if negb (xdate_valid_month m) then d else check_dmy (set_month (enter_dmy d) m).
Definition xdate_set_day (d : xdate) (day : Z) : xdate :=
  if negb (xdate_valid_day day) then d else check_dmy (set_day (enter_dmy d) day).
Definition xdate_set_year (d : xdate) (y : Z) : xdate :=
  if negb (xdate_valid_year y) then d else check_dmy (set_year (enter_dmy d) y).

Definition xdate_set_julian (d : xdate) (j : Z) : xdate :=
  if negb (xdate_valid_julian j) then d else set_flags (set_julian_days d j) true false.

(** The [struct tm] is what [localtime_r] answers. *)
Definition xdate_set_time_t (d : xdate) (t : tm) : xdate :=
  let d := set_flags d false (dmy d) in
  let d := set_year (set_day (set_month d (tm_mon t + 1)) (tm_mday t)) (tm_year t + 1900) in
  if negb (xdate_valid_dmy (day d) (month d) (year d)) then d else set_flags d (julian d) true.

Definition xdate_add_days (d : xdate) (ndays : Z) : xdate :=
  if negb (xdate_valid d) then d
  else
    let d := need_julian d in
    if negb (julian d) then d
    else if negb (ndays <=? u32 (G_MAXUINT32 - julian_days d)) then d
    else set_flags (set_julian_days d (julian_days d + ndays)) (julian d) false.

Definition xdate_subtract_days (d : xdate) (ndays : Z) : xdate :=
  if negb (xdate_valid d) then d
  else
    let d := need_julian d in
    if negb (julian d) then d
    else if negb (ndays <? julian_days d) then d
    else set_flags (set_julian_days d (julian_days d - ndays)) (julian d) false.

(** [if (d->day > days_in_months[idx][d->month])] the last day of the month. *)
Definition clip_day (d : xdate) : xdate :=
  let last := table_at days_in_months (leap_index (year d)) (month d) in
  if last <? day d then set_day d last else d.

Definition xdate_add_months (d : xdate) (nmonths : Z) : xdate :=
  if negb (xdate_valid d) then d
  else
    let d := need_dmy d in
    if negb (dmy d) then d
    else if negb (nmonths <=? u32 (G_MAXUINT32 - (month d - 1))) then d
    else
      let nmonths := u32 (nmonths + (month d - 1)) in
      let years := nmonths `quot` 12 in
      let months := nmonths `rem` 12 in
      if negb (years <=? u32 (G_MAXUINT16 - year d)) then d
      else
        let d := set_month d (months + 1) in
        let d := set_year d (year d + years) in
        set_flags (clip_day d) false (dmy d).

Definition xdate_subtract_months (d : xdate) (nmonths : Z) : xdate :=
  if negb (xdate_valid d) then d
  else
    let d := need_dmy d in
    if negb (dmy d) then d
    else
      let years := nmonths `quot` 12 in
      let months := nmonths `rem` 12 in
      if negb (years <? year d) then d
      else
        let d := set_year d (year d - years) in
        let d :=
          if months <? month d then set_month d (month d - months)
          else
            let months := u32 (months - month d) in
            let d := set_month d (12 - months) in
            set_year d (year d - 1) in
        set_flags (clip_day d) false (dmy d).

(** [if (d->month == 2 && d->day == 29)] *)
Definition clip_leap_day (d : xdate) : xdate :=
  if (month d =? 2) && (day d =? 29) then
    if negb (xdate_is_leap_year (year d)) then set_day d 28 else d
  else d.

Definition xdate_add_years (d : xdate) (nyears : Z) : xdate :=
  if negb (xdate_valid d) then d
  else
    let d := need_dmy d in
    if negb (dmy d) then d
    else if negb (nyears <=? u32 (G_MAXUINT16 - year d)) then d
    else
      let d := set_year d (year d + nyears) in
      set_flags (clip_leap_day d) false (dmy d).

Definition xdate_subtract_years (d : xdate) (nyears : Z) : xdate :=
  if negb (xdate_valid d) then d
  else
    let d := need_dmy d in
    if negb (dmy d) then d
    else if negb (nyears <? year d) then d
    else
      let d := set_year d (year d - nyears) in
      set_flags (clip_leap_day d) false (dmy d).

(** ** Comparing *)

Definition three_way (x y : Z) (equal : Z) : Z := if x <? y then -1 else if y <? x then 1 else equal.

(** [while (TRUE)]; the two dates are different objects. *)
Fixpoint compare_loop (fuel : nat) (lhs rhs : xdate) : option (Z * xdate * xdate) :=
  if julian lhs && julian rhs then
    Some (three_way (julian_days lhs) (julian_days rhs) 0, lhs, rhs)
  else if dmy lhs && dmy rhs then
    Some (three_way (year lhs) (year rhs)
            (three_way (month lhs) (month rhs) (three_way (day lhs) (day rhs) 0)), lhs, rhs)
  else
    match fuel with
    | O => None
    | S fuel =>
        let lhs := need_julian lhs in
        let rhs := need_julian rhs in
        if negb (julian lhs) then Some (0, lhs, rhs)
        else if negb (julian rhs) then Some (0, lhs, rhs)
        else compare_loop fuel lhs rhs
    end.

Definition xdate_compare (lhs rhs : xdate) : option (Z * xdate * xdate) :=
  if negb (xdate_valid lhs) then Some (0, lhs, rhs)
  else if negb (xdate_valid rhs) then Some (0, lhs, rhs)
  else compare_loop 1 lhs rhs.

Definition xdate_copy (junk : Z * Z * Z) (d : xdate) : option xdate * xdate :=
  if xdate_valid d then
    let '(j, d) := xdate_get_julian d in (xdate_new_julian junk j, d)
  else (Some d, d).

(** The bounds may be [NULL]; the three dates are different objects. *)
Definition xdate_clamp (date : xdate) (min_date max_date : option xdate) :
    option (xdate * option xdate * option xdate) :=
  if negb (xdate_valid date) then Some (date, min_date, max_date)
  else if match min_date with Some m => negb (xdate_valid m) | None => false end then Some (date, min_date, max_date)
  else if match max_date with Some m => negb (xdate_valid m) | None => false end then Some (date, min_date, max_date)
  else
    '(ok, min_date, max_date) ←
      match min_date, max_date with
      | Some mn, Some mx => '(c, mn, mx) ← xdate_compare mn mx; Some (c <=? 0, Some mn, Some mx)
      | _, _ => Some (true, min_date, max_date)
      end;
    if negb ok then Some (date, min_date, max_date)
    else
      '(date, min_date) ←
        match min_date with
        | Some mn => '(c, date, mn) ← xdate_compare date mn; Some (if c <? 0 then mn else date, Some mn)
        | None => Some (date, None)
        end;
      '(date, max_date) ←
        match max_date with
        | Some mx => '(c, mx, date) ← xdate_compare mx date; Some (if c <? 0 then mx else date, Some mx)
        | None => Some (date, None)
        end;
      Some (date, min_date, max_date).

Definition xdate_order (date1 date2 : xdate) : option (xdate * xdate) :=
  if negb (xdate_valid date1) then Some (date1, date2)
  else if negb (xdate_valid date2) then Some (date1, date2)
  else
    '(c, date1, date2) ← xdate_compare date1 date2;
    Some (if 0 <? c then (date2, date1) else (date1, date2)).
