(* ===== verification/DateCalendar.v ===== *)
(** * The Gregorian calendar

    Days by year, month and day of the month, and by number from the first of
    January of the year 1; the successor of a day; and the arithmetic by which
    gdate.c goes from a number to a date. *)

From S2P Require Import Prelude.
From S2P Require Import Date.
Local Open Scope Z_scope.

Definition leap (y : Z) : bool := (y mod 4 =? 0) && negb (y mod 100 =? 0) || (y mod 400 =? 0).

Definition month_length (y m : Z) : Z :=
  if m =? 2 then (if leap y then 29 else 28)
  else if (m =? 4) || (m =? 6) || (m =? 9) || (m =? 11) then 30 else 31.
Definition year_length (y : Z) : Z := if leap y then 366 else 365.

(** A day of the calendar: year, month and day of the month. *)
Record cday := CDay { cyear : Z; cmonth : Z; cmday : Z }.

Definition calendar_day (c : cday) : Prop :=
  1 <= cyear c /\ 1 <= cmonth c <= 12 /\ 1 <= cmday c <= month_length (cyear c) (cmonth c).

(** The day after. *)
Definition next_day (c : cday) : cday :=
  if cmday c <? month_length (cyear c) (cmonth c) then CDay (cyear c) (cmonth c) (cmday c + 1)
  else if cmonth c <? 12 then CDay (cyear c) (cmonth c + 1) 1
  else CDay (cyear c + 1) 1 1.

(** The days before a year, and those of the year before a month. *)
Definition before_year (y : Z) : Z :=
  365 * (y - 1) + (y - 1) / 4 - (y - 1) / 100 + (y - 1) / 400.
Definition before_month (y m : Z) : Z := table_at days_in_year (if leap y then 1 else 0) m.

Definition day_of_year (c : cday) : Z := before_month (cyear c) (cmonth c) + cmday c.
Definition day_number (c : cday) : Z := before_year (cyear c) + day_of_year c.

(** The last day that the fields of a date can hold: the end of 65535. *)
Definition last_day : Z := 23936166.

(** ** Years and months *)

Ltac months m := 
  let H := fresh in
  assert (m = 1 \/ m = 2 \/ m = 3 \/ m = 4 \/ m = 5 \/ m = 6 \/ m = 7 \/ m = 8 \/ m = 9 \/ m = 10 \/ m = 11 \/ m = 12)
    as H by lia;
  destruct H as [->|[->|[->|[->|[->|[->|[->|[->|[->|[->|[->| ->]]]]]]]]]]].

Lemma leap_spec y : leap y = true <-> (y mod 4 = 0 /\ y mod 100 <> 0) \/ y mod 400 = 0.
Proof. unfold leap. zcases; cbn; intuition lia. Qed.

Lemma before_next_year y : before_year (y + 1) = before_year y + year_length y.
Proof.
  unfold before_year, year_length. replace (y + 1 - 1) with y by lia.
  destruct (leap y) eqn:E.
  - apply leap_spec in E. zify_div.
  - assert (~ ((y mod 4 = 0 /\ y mod 100 <> 0) \/ y mod 400 = 0)) as E' by (rewrite <- leap_spec, E; done). zify_div.
Qed.

Lemma year_length_bounds y : 365 <= year_length y <= 366.
Proof. unfold year_length. destruct (leap y); lia. Qed.

Lemma before_year_mono y z : y < z -> before_year y + year_length y <= before_year z.
Proof. rewrite <- before_next_year. unfold before_year. intros. zify_div. Qed.

Lemma before_next_month y m :
  1 <= m <= 11 -> before_month y (m + 1) = before_month y m + month_length y m.
Proof. intros Hm. unfold before_month, month_length. destruct (leap y); months m; lia || done. Qed.
Lemma before_first_month y : before_month y 1 = 0.
Proof. unfold before_month. by destruct (leap y). Qed.
Lemma before_last_month y : before_month y 12 + month_length y 12 = year_length y.
Proof. unfold before_month, month_length, year_length. by destruct (leap y). Qed.

Lemma month_length_bounds y m : 28 <= month_length y m <= 31.
Proof. unfold month_length. zcases; cbn [orb]; destruct (leap y); lia. Qed.

Lemma before_month_mono y m m' :
  1 <= m -> m < m' <= 12 -> before_month y m + month_length y m <= before_month y m'.
Proof.
  intros Hm Hm'. unfold before_month, month_length.
  destruct (leap y); months m; months m'; try lia; vm_compute; by intros.
Qed.

Lemma day_of_year_bounds c : calendar_day c -> 1 <= day_of_year c <= year_length (cyear c).
Proof.
  destruct c as [y m d]. intros (_ & Hm & Hd). unfold day_of_year. cbn [cyear cmonth cmday] in *.
  assert (0 <= before_month y m /\ before_month y m + month_length y m <= year_length y); [|lia].
  unfold before_month, month_length, year_length. destruct (leap y); months m; split; vm_compute; by intros.
Qed.

(** ** The numbering *)

Lemma day_number_first : day_number (CDay 1 1 1) = 1.
Proof. reflexivity. Qed.

Lemma next_day_ok c : calendar_day c -> calendar_day (next_day c) /\ day_number (next_day c) = day_number c + 1.
Proof.
  destruct c as [y m d]. intros (Hy & Hm & Hd). unfold next_day, day_number, day_of_year, calendar_day in *.
  cbn [cyear cmonth cmday] in *. pose proof (month_length_bounds y (m + 1)).
  destruct (Z.ltb_spec d (month_length y m)); cbn [cyear cmonth cmday]; [lia|].
  destruct (Z.ltb_spec m 12); cbn [cyear cmonth cmday].
  - rewrite before_next_month by lia. lia.
  - assert (m = 12) as -> by lia. rewrite before_next_year, before_first_month.
    pose proof (before_last_month y). pose proof (month_length_bounds (y + 1) 1). lia.
Qed.

(** Different days have different numbers. *)
Lemma day_number_inj c c' : calendar_day c -> calendar_day c' -> day_number c = day_number c' -> c = c'.
Proof.
  intros Hc Hc' E. pose proof (day_of_year_bounds c Hc). pose proof (day_of_year_bounds c' Hc').
  destruct c as [y m d], c' as [y' m' d']. unfold day_number in E. cbn [cyear] in *.
  assert (y = y') as <-.
  { destruct (Z.lt_trichotomy y y') as [Hlt|[?|Hlt]]; [|done|]; apply before_year_mono in Hlt; lia. }
  destruct Hc as (_ & Hm & Hd), Hc' as (_ & Hm' & Hd'). unfold day_of_year in *. cbn [cyear cmonth cmday] in *.
  assert (m = m') as <-.
  { destruct (Z.lt_trichotomy m m') as [Hlt|[?|Hlt]]; [|done|].
    - pose proof (before_month_mono y m m'). lia.
    - pose proof (before_month_mono y m' m). lia. }
  f_equal. lia.
Qed.

Lemma day_number_pos c : calendar_day c -> 1 <= day_number c.
Proof.
  intros Hc. pose proof (day_of_year_bounds c Hc). destruct Hc as (Hy & _). unfold day_number.
  assert (0 <= before_year (cyear c)); [|lia]. unfold before_year. zify_div.
Qed.

(** The order of the numbers is that of the fields. *)
Lemma day_number_lt c c' : calendar_day c -> calendar_day c' ->
  (day_number c < day_number c' <->
   cyear c < cyear c' \/ cyear c = cyear c' /\ (cmonth c < cmonth c' \/ cmonth c = cmonth c' /\ cmday c < cmday c')).
Proof.
  intros Hc Hc'. pose proof (day_of_year_bounds c Hc). pose proof (day_of_year_bounds c' Hc').
  destruct c as [y m d], c' as [y' m' d']. unfold day_number. cbn [cyear cmonth cmday] in *.
  destruct (Z.lt_trichotomy y y') as [Hlt|[->|Hlt]].
  - pose proof (before_year_mono y y' Hlt). lia.
  - destruct Hc as (_ & Hm & Hd), Hc' as (_ & Hm' & Hd'). unfold day_of_year in *. cbn [cyear cmonth cmday] in *.
    destruct (Z.lt_trichotomy m m') as [Hlt|[->|Hlt]].
    + pose proof (before_month_mono y' m m'). lia.
    + lia.
    + pose proof (before_month_mono y' m' m). lia.
  - pose proof (before_year_mono y' y Hlt). lia.
Qed.

Lemma last_day_ok c : calendar_day c -> (day_number c <= last_day <-> cyear c <= 65535).
Proof.
  intros Hc. pose proof (day_of_year_bounds c Hc). unfold day_number, last_day.
  pose proof (year_length_bounds (cyear c)).
  assert (before_year 65536 = 23936166) by reflexivity. split; intros Hle.
  - destruct (Z.le_gt_cases (cyear c) 65535); [done|].
    assert (before_year 65536 <= before_year (cyear c)); [|lia]. unfold before_year in *. zify_div.
  - pose proof (before_year_mono (cyear c) 65536). lia.
Qed.

(** ** From a number to a day

    The formula counts years from the first of March, from the year -4800 on:
    [B] centuries, [D] years, [E] days and [M] months. *)

(** The days before the first of March of a year. *)
Definition before_march (y : Z) : Z := 365 * y + y / 4 - y / 100 + y / 400.

Lemma before_march_year y : before_march y = before_year (y + 1).
Proof. unfold before_march, before_year. by replace (y + 1 - 1) with y by lia. Qed.

Lemma before_march_split B D :
  0 <= D < 100 -> before_march (100 * B + D - 4800) = (146097 * B) / 4 + (1461 * D) / 4 - 1753164.
Proof. intros HD. unfold before_march. zify_div. Qed.

(** The centuries: [C] is the day in one, from 1. *)
Lemma century_bounds A :
  let B := 4 * (A + 36524) / 146097 - 1 in
  let C := A - 146097 * B / 4 in
  1 <= C <= 36524 + (if B mod 4 =? 3 then 1 else 0).
Proof. cbn zeta. zcases; zify_div. Qed.

(** The years: [E] is the day in one, from 1. *)
Lemma year_bounds C :
  1 <= C ->
  let D := 4 * (C + 365) / 1461 - 1 in
  let E := C - 1461 * D / 4 in
  0 <= D /\ 1 <= E <= 365 + (if D mod 4 =? 3 then 1 else 0).
Proof. intros HC. cbn zeta. zcases; zify_div. Qed.

(** The months. *)
Lemma month_bounds E :
  1 <= E <= 366 ->
  let M := (5 * (E - 1) + 2) / 153 in
  0 <= M <= 11 /\ 1 <= E - (153 * M + 2) / 5 /\ E <= (153 * (M + 1) + 2) / 5.
Proof. intros HE. cbn zeta. zify_div. Qed.

(** The month [M] counted from March, in a year that may be followed by a leap day. *)
Definition march_month (M : Z) : Z := M + 3 - 12 * (M / 10).

(** The months from March to December, in numbers. *)
Lemma march_table y M :
  0 <= M <= 9 ->
  month_length y (M + 3) = (153 * (M + 1) + 2) / 5 - (153 * M + 2) / 5 /\
  before_month y (M + 3) = year_length y - 306 + (153 * M + 2) / 5.
Proof.
  intros HM. unfold before_month, month_length, year_length.
  assert (M = 0 \/ M = 1 \/ M = 2 \/ M = 3 \/ M = 4 \/ M = 5 \/ M = 6 \/ M = 7 \/ M = 8 \/ M = 9) as HM' by lia.
  destruct (leap y); repeat destruct HM' as [->|HM']; subst; by vm_compute.
Qed.

Lemma march_day y M d :
  0 <= M <= 11 -> 1 <= d <= (153 * (M + 1) + 2) / 5 - (153 * M + 2) / 5 ->
  (M = 11 -> d <= month_length (y + 1) 2) ->
  let c := CDay (y + M / 10) (march_month M) d in
  1 <= cmonth c <= 12 /\ 1 <= cmday c <= month_length (cyear c) (cmonth c) /\
  day_number c = before_march y + (153 * M + 2) / 5 + d - 306.
Proof.
  intros HM Hd Hfeb. cbn zeta. unfold day_number, day_of_year. cbn [cyear cmonth cmday].
  rewrite before_march_year. destruct (Z.le_gt_cases M 9).
  - assert (march_month M = M + 3) as -> by (unfold march_month; zify_div).
    assert (M / 10 = 0) as -> by zify_div. rewrite Z.add_0_r, before_next_year.
    destruct (march_table y M) as [-> ->]; [lia|]. lia.
  - assert (M = 10 \/ M = 11) as [->|HM11] by lia.
    + change (march_month 10) with 1. change (10 / 10) with 1. rewrite before_first_month.
      change (month_length (y + 1) 1) with 31.
      change ((153 * (10 + 1) + 2) / 5) with 337 in Hd. change ((153 * 10 + 2) / 5) with 306 in *. lia.
    + specialize (Hfeb HM11). subst M. change (march_month 11) with 2. change (11 / 10) with 1.
      assert (before_month (y + 1) 2 = 31) as -> by (unfold before_month; by destruct (leap (y + 1))).
      change ((153 * 11 + 2) / 5) with 337. lia.
Qed.

(** The day with a number. *)
Definition of_number (n : Z) : cday :=
  let A := n + 1721425 + 32045 in
  let B := 4 * (A + 36524) / 146097 - 1 in
  let C := A - 146097 * B / 4 in
  let D := 4 * (C + 365) / 1461 - 1 in
  let E := C - 1461 * D / 4 in
  let M := (5 * (E - 1) + 2) / 153 in
  CDay (100 * B + D - 4800 + M / 10) (march_month M) (E - (153 * M + 2) / 5).

Lemma of_number_ok n : 1 <= n -> calendar_day (of_number n) /\ day_number (of_number n) = n.
Proof.
  intros Hn. unfold of_number. set (A := n + 1721425 + 32045).
  pose proof (century_bounds A) as HC. cbn zeta in HC |- *.
  set (B := 4 * (A + 36524) / 146097 - 1) in *. set (C := A - 146097 * B / 4) in *.
  pose proof (year_bounds C ltac:(lia)) as [HD HE]. cbn zeta in HD, HE.
  set (D := 4 * (C + 365) / 1461 - 1) in *. set (E := C - 1461 * D / 4) in *.
  assert (D < 100 /\ (D = 99 -> B mod 4 <> 3 -> E <= 365)) as [HD' HE'].
  { subst E D. revert HC. zcases; intros; zify_div. }
  assert (E <= 366) as HE366 by (destruct (D mod 4 =? 3); lia).
  pose proof (month_bounds E ltac:(lia)) as (HM & Hd1 & Hd2). cbn zeta in HM, Hd1, Hd2.
  set (M := (5 * (E - 1) + 2) / 153) in *. set (d := E - (153 * M + 2) / 5) in *.
  set (y := 100 * B + D - 4800).
  assert (M = 11 -> d <= month_length (y + 1) 2) as Hfeb.
  { intros HM11. subst d. rewrite HM11. change ((153 * 11 + 2) / 5) with 337.
    unfold month_length. cbn [Z.eqb Pos.eqb].
    destruct (leap (y + 1)) eqn:El; [lia|]. assert (E <= 365); [|lia].
    destruct (Z.eqb_spec (D mod 4) 3) as [E3|]; [|lia].
    assert (~ (((y + 1) mod 4 = 0 /\ (y + 1) mod 100 <> 0) \/ (y + 1) mod 400 = 0)) as Hl
      by (rewrite <- leap_spec, El; done).
    destruct (Z.eq_dec D 99) as [D99|].
    - apply HE'; [done|]. intros B3. apply Hl. right. subst y. rewrite D99. zify_div.
    - exfalso. apply Hl. left. subst y. zify_div. }
  destruct (march_day y M d) as (Hm & Hday & Hnum); [done|lia|done|]. cbn [cyear cmonth cmday] in *.
  assert (day_number (CDay (y + M / 10) (march_month M) d) = n) as En.
  { rewrite Hnum. subst y. rewrite before_march_split by lia. subst d. lia. }
  split; [|done]. split_and!; [|apply Hm..|apply Hday|apply Hday]. cbn [cyear].
  (* before the year 1 there are no numbers *)
  destruct (Z.le_gt_cases 1 (y + M / 10)) as [?|Hneg]; [done|].
  assert (before_year (y + M / 10) <= -366) as Hb by (unfold before_year; zify_div).
  assert (day_of_year (CDay (y + M / 10) (march_month M) d) <= 366) as Hdoy.
  { unfold day_of_year. cbn [cyear cmonth cmday].
    assert (before_month (y + M / 10) (march_month M) + month_length (y + M / 10) (march_month M) <= 366); [|lia].
    unfold before_month, month_length. destruct Hm as [Hm1 Hm2]. generalize dependent (march_month M). intros m **.
    destruct (leap _); months m; vm_compute; by intros. }
  unfold day_number in En. cbn [cyear] in En. lia.
Qed.
