(* ===== verification/DateOps.v ===== *)
(** * The operations of gdate.c on the days they denote *)

From S2P Require Import Prelude.
From S2P Require Import Date.
From S2P Require Import DateCalendar.
Local Open Scope Z_scope.

(** ** The rules of the code are those of the calendar *)

Lemma is_leap_year_ok y : 1 <= y -> xdate_is_leap_year y = leap y.
Proof.
  intros Hy. unfold xdate_is_leap_year, xdate_valid_year, leap. rewrite (proj2 (Z.ltb_lt 0 y)) by lia. cbn [negb].
  by rewrite !Z.rem_mod_nonneg by lia.
Qed.

Lemma leap_index_ok y : 1 <= y -> leap_index y = if leap y then 1 else 0.
Proof. intros Hy. unfold leap_index. by rewrite is_leap_year_ok. Qed.

Lemma month_table y m : 1 <= y -> 1 <= m <= 12 -> table_at days_in_months (leap_index y) m = month_length y m.
Proof.
  intros Hy Hm. rewrite leap_index_ok by done. unfold month_length. destruct (leap y); months m; reflexivity.
Qed.

Lemma year_table y m : 1 <= y -> table_at days_in_year (leap_index y) m = before_month y m.
Proof. intros Hy. by rewrite leap_index_ok. Qed.

Lemma valid_dmy_ok d m y : xdate_valid_dmy d m y = true <-> calendar_day (CDay y m d).
Proof.
  unfold xdate_valid_dmy, calendar_day. cbn [cyear cmonth cmday]. rewrite !andb_true_iff, !Z.ltb_lt, Z.leb_le.
  assert (0 < y -> 0 < m -> m < 13 ->
    (if xdate_is_leap_year y then table_at days_in_months 1 m else table_at days_in_months 0 m) = month_length y m) as E.
  { intros. rewrite <- month_table by lia. unfold leap_index. by destruct (xdate_is_leap_year y). }
  split.
  - intros [[[[H1 H2] H3] H4] H5]. rewrite E in H5 by done. lia.
  - intros (H1 & H2 & H3). rewrite E by lia. lia.
Qed.

(** What the fields hold, as a day. *)
Definition fields (d : xdate) : cday := CDay (year d) (month d) (day d).

(** ** The day a date denotes *)

Record denotes (d : xdate) (n : Z) : Prop := {
  denotes_range : 1 <= n <= last_day;
  denotes_some : julian d = true \/ dmy d = true;
  denotes_julian : julian d = true -> julian_days d = n;
  denotes_dmy : dmy d = true -> calendar_day (fields d) /\ day_number (fields d) = n;
}.

Lemma denotes_valid d n : denotes d n -> xdate_valid d = true.
Proof. intros Hd. unfold xdate_valid. by destruct (denotes_some d n Hd) as [-> | ->]; rewrite ?orb_true_r. Qed.

Lemma day_denotes_inj d n n' : denotes d n -> denotes d n' -> n = n'.
Proof.
  intros H1 H2. destruct (denotes_some d n H1) as [E|E].
  - by rewrite <- (denotes_julian d n H1 E), <- (denotes_julian d n' H2 E).
  - by rewrite <- (proj2 (denotes_dmy d n H1 E)), <- (proj2 (denotes_dmy d n' H2 E)).
Qed.

Lemma fields_small d n : denotes d n -> dmy d = true -> 1 <= year d <= 65535 /\ 1 <= month d <= 12 /\ 1 <= day d <= 31.
Proof.
  intros Hd Hm. destruct (denotes_dmy d n Hd Hm) as [Hc Hn]. pose proof (denotes_range d n Hd).
  pose proof (proj1 (last_day_ok _ Hc)). destruct Hc as (Hy & Hmo & Hdy).
  pose proof (month_length_bounds (year d) (month d)). cbn [fields cyear cmonth cmday] in *. lia.
Qed.

(** Storing small values in the fields. *)
Lemma set_julian_days_small d j : 0 <= j < 2 ^ 32 ->
  set_julian_days d j = XDate j (julian d) (dmy d) (day d) (month d) (year d).
Proof. intros. unfold set_julian_days. by rewrite wrap_small. Qed.

(** The day number is summed up modulo the width of its field. *)
Lemma sum_julian_days d a b :
  set_julian_days (set_julian_days d a) (julian_days (set_julian_days d a) + b) = set_julian_days d (a + b).
Proof.
  unfold set_julian_days, wrap. cbn [julian_days julian dmy day month year].
  by rewrite Z.add_mod_idemp_l by lia.
Qed.

Lemma diff_julian_days d a b :
  set_julian_days (set_julian_days d a) (julian_days (set_julian_days d a) - b) = set_julian_days d (a - b).
Proof. rewrite <- !Z.add_opp_r. apply sum_julian_days. Qed.

Lemma store_dmy d y m x :
  0 <= y < 2 ^ 16 -> 0 <= m < 2 ^ 4 -> 0 <= x < 2 ^ 6 ->
  set_year (set_day (set_month d m) x) y = XDate (julian_days d) (julian d) (dmy d) x m y.
Proof.
  intros. unfold set_year, set_day, set_month. cbn [julian_days julian dmy day month year]. by rewrite !wrap_small.
Qed.

Lemma update_julian_ok d n :
  denotes d n -> julian d = false ->
  xdate_update_julian d = XDate n true true (day d) (month d) (year d).
Proof.
  intros Hd Hj. destruct (denotes_some d n Hd) as [?|Hm]; [congruence|].
  destruct (fields_small d n Hd Hm) as (Hy & Hmo & Hdy). destruct (denotes_dmy d n Hd Hm) as [Hc Hn].
  pose proof (denotes_range d n Hd) as Hr. pose proof (day_of_year_bounds _ Hc) as Hdoy.
  unfold xdate_update_julian. rewrite Hm, Hj. cbn [negb].
  rewrite (proj2 (valid_dmy_ok (day d) (month d) (year d))) by exact Hc. cbn [negb].
  unfold last_day in Hr. set (y := year d) in *.
  assert (u16 (y - 1) = y - 1) as -> by (apply wrap_small; lia).
  rewrite (Z.shiftr_div_pow2 (y - 1) 2), (Z.quot_div_nonneg ((y - 1) / 2 ^ 2) 25), (Z.shiftr_div_pow2 _ 2) by zify_div.
  change (2 ^ 2) with 4. rewrite !Z.div_div by lia. change (4 * 25) with 100. change (100 * 4) with 400.
  unfold day_number, day_of_year, before_year in Hn. cbn [fields cyear cmonth cmday] in Hn. fold y in Hn.
  unfold day_of_year in Hdoy. cbn [fields cyear cmonth cmday] in Hdoy. fold y in Hdoy.
  pose proof (year_length_bounds y).
  rewrite (wrap_small 32 ((y - 1) * 365)) by lia.
  rewrite (sum_julian_days d ((y - 1) * 365) ((y - 1) / 4)), (diff_julian_days d _ ((y - 1) / 100)),
    (sum_julian_days d _ ((y - 1) / 400)).
  change (year (set_julian_days d _)) with y. change (month (set_julian_days d _)) with (month d).
  change (day (set_julian_days d _)) with (day d). rewrite year_table, sum_julian_days by lia.
  rewrite set_julian_days_small by zify_div. cbn [julian_days].
  match goal with |- context [xdate_valid_julian ?j] => assert (j = n) as -> by (rewrite <- Hn; lia) end.
  unfold xdate_valid_julian. rewrite (proj2 (Z.ltb_lt 0 n)) by lia. cbn [negb set_flags julian_days dmy day month year].
  by rewrite Hm.
Qed.

Lemma update_dmy_ok d n :
  denotes d n -> dmy d = false ->
  xdate_update_dmy d = XDate n true true (cmday (of_number n)) (cmonth (of_number n)) (cyear (of_number n)).
Proof.
  intros Hd Hm. destruct (denotes_some d n Hd) as [Hj|?]; [|congruence].
  pose proof (denotes_julian d n Hd Hj) as Hn. pose proof (denotes_range d n Hd) as Hr.
  destruct (of_number_ok n) as [Hc Hnum]; [lia|]. pose proof (proj1 (last_day_ok _ Hc)) as Hyear.
  rewrite Hnum in Hyear. specialize (Hyear ltac:(lia)). destruct Hc as (Hy & Hmo & Hdy).
  pose proof (month_length_bounds (cyear (of_number n)) (cmonth (of_number n))) as Hlen.
  unfold xdate_update_dmy. rewrite Hj, Hm, Hn. cbn [negb]. unfold xdate_valid_julian.
  rewrite (proj2 (Z.ltb_lt 0 n)) by lia. cbn [negb]. unfold last_day in Hr.
  remember (of_number n) as c eqn:Ec. unfold of_number in Ec. cbn zeta in Ec.
  set (A := n + 1721425 + 32045) in *. assert (1753471 <= A <= 25689636) as HA by (subst A; lia).
  rewrite (wrap_small 32 A), (wrap_small 32 (A + 36524)) by lia.
  rewrite (wrap_small 32 (4 * (A + 36524))), (Z.quot_div_nonneg (4 * (A + 36524))) by lia.
  pose proof (century_bounds A) as HC. cbn zeta in HC.
  set (B := 4 * (A + 36524) / 146097 - 1) in *. assert (47 <= B <= 703) as HB by (subst B; zify_div).
  rewrite (wrap_small 32 B), (wrap_small 32 (146097 * B)), (Z.quot_div_nonneg (146097 * B)) by lia.
  set (C := A - 146097 * B / 4) in *. assert (1 <= C <= 36525) as HC' by (destruct (B mod 4 =? 3); lia).
  rewrite (wrap_small 32 C), (wrap_small 32 (C + 365)), (wrap_small 32 (4 * (C + 365))),
    (Z.quot_div_nonneg (4 * (C + 365))) by lia.
  pose proof (year_bounds C ltac:(lia)) as [HD HE]. cbn zeta in HD, HE.
  set (D := 4 * (C + 365) / 1461 - 1) in *. assert (0 <= D <= 100) as HD' by (subst D; clear HE; zify_div).
  rewrite (wrap_small 32 D), (wrap_small 32 (1461 * D)), (Z.quot_div_nonneg (1461 * D)) by lia.
  set (E := C - 1461 * D / 4) in *. assert (1 <= E <= 366) as HE' by (destruct (D mod 4 =? 3); lia).
  rewrite (wrap_small 32 E), (wrap_small 32 (E - 1)), (wrap_small 32 (5 * (E - 1))), (wrap_small 32 (5 * (E - 1) + 2)),
    (Z.quot_div_nonneg (5 * (E - 1) + 2)) by lia.
  pose proof (month_bounds E HE') as (HM & Hd1 & Hd2). cbn zeta in HM, Hd1, Hd2.
  set (M := (5 * (E - 1) + 2) / 153) in *.
  rewrite (Z.quot_div_nonneg M 10) by lia. assert (0 <= M / 10 <= 1) as HM10 by (clear -HM; zify_div).
  rewrite (wrap_small 32 (12 * (M / 10))) by lia.
  rewrite (wrap_small 32 (153 * M)), (wrap_small 32 (153 * M + 2)), (Z.quot_div_nonneg (153 * M + 2) 5) by lia.
  change (M + 3 - 12 * (M / 10)) with (march_month M).
  assert (march_month M = cmonth c /\ E - (153 * M + 2) / 5 = cmday c /\ 100 * B + D - 4800 + M / 10 = cyear c)
    as (-> & -> & ->) by (rewrite Ec; done).
  rewrite (wrap_small 32 (cmonth c)), (wrap_small 32 (cmday c)), (wrap_small 8 (cmday c)), (wrap_small 32 (cyear c)), (wrap_small 16 (cyear c)) by lia.
  rewrite store_dmy by lia. unfold set_flags. cbn [julian_days julian dmy day month year]. by rewrite Hj, Hn.
Qed.

Lemma need_julian_ok d n :
  denotes d n -> denotes (need_julian d) n /\ julian (need_julian d) = true /\ julian_days (need_julian d) = n.
Proof.
  intros Hd. unfold need_julian. destruct (julian d) eqn:Hj; cbn [negb].
  - split; [done|split; [done|by apply Hd]].
  - rewrite (update_julian_ok d n Hd Hj). split; [|done]. destruct (denotes_some d n Hd) as [?|Hm]; [congruence|].
    constructor; cbn [julian dmy julian_days]; [by apply Hd|by left|done|]. intros _. by apply Hd.
Qed.

Lemma need_dmy_ok d n :
  denotes d n -> denotes (need_dmy d) n /\ dmy (need_dmy d) = true /\ fields (need_dmy d) = of_number n.
Proof.
  intros Hd. pose proof (denotes_range d n Hd) as [Hr _]. destruct (of_number_ok n Hr) as [Hc Hn].
  unfold need_dmy. destruct (dmy d) eqn:Hm; cbn [negb].
  - split; [done|split; [done|]]. destruct (denotes_dmy d n Hd Hm) as [Hc' Hn'].
    apply day_number_inj; [done|done|congruence].
  - rewrite (update_dmy_ok d n Hd Hm). unfold fields. cbn [julian dmy julian_days day month year].
    destruct (of_number n) as [y m x]. split; [|done].
    constructor; cbn [julian dmy julian_days]; [by apply Hd|by left|done|]. done.
Qed.

Local Opaque of_number.

(** Dates of one representation. *)
Lemma denotes_new_julian n a b c : 1 <= n <= last_day -> denotes (XDate n true false a b c) n.
Proof. intros Hn. constructor; cbn [julian dmy julian_days]; [done|by left|done|done]. Qed.

Lemma denotes_new_dmy j c :
  calendar_day c -> cyear c <= 65535 -> denotes (XDate j false true (cmday c) (cmonth c) (cyear c)) (day_number c).
Proof.
  intros Hc Hy. constructor; cbn [julian dmy julian_days].
  - split; [by apply day_number_pos|by apply last_day_ok].
  - by right.
  - done.
  - intros _. unfold fields. cbn [day month year]. by destruct c.
Qed.

Lemma calendar_small c :
  calendar_day c -> cyear c <= 65535 -> 0 <= cyear c < 2 ^ 16 /\ 0 <= cmonth c < 2 ^ 4 /\ 0 <= cmday c < 2 ^ 6.
Proof.
  intros (Hy & Hm & Hd) Hle. pose proof (month_length_bounds (cyear c) (cmonth c)). lia.
Qed.

(** ** Reading *)

(** A function that answers [v] and leaves the day as it is. *)
Record reads {A} (r : A * xdate) (v : A) (n : Z) : Prop := {
  reads_value : fst r = v;
  reads_day : denotes (snd r) n;
}.

(** The days of the week, from Monday, are numbered from 1. *)
Definition weekday (n : Z) : Z := (n - 1) mod 7 + 1.

(** How many days of the [len] from [lo] on are a given day of the week. *)
Definition count_weekdays (w lo : Z) (len : nat) : Z :=
  zlen (filter (fun n => weekday n = w) (seqZ lo (Z.of_nat len))).

Lemma count_weekdays_ok w lo len :
  1 <= w <= 7 -> count_weekdays w lo len = (lo + Z.of_nat len - 1 - w) / 7 - (lo - 1 - w) / 7.
Proof.
  intros Hw. unfold count_weekdays. induction len as [|len IH].
  - replace (lo + Z.of_nat 0 - 1 - w) with (lo - 1 - w) by lia. by rewrite Z.sub_diag.
  - rewrite Nat2Z.inj_succ, <- Z.add_1_r, seqZ_app, filter_app, zlen_app, IH by lia.
    cbn [seqZ]. change (seqZ (lo + Z.of_nat len) 1) with [lo + Z.of_nat len].
    rewrite filter_cons, filter_nil. unfold weekday. case_decide; rewrite ?zlen_cons, zlen_nil; zify_div.
Qed.

(** The first of January of the year of a day. *)
Definition january_first (n : Z) : Z := before_year (cyear (of_number n)) + 1.

Lemma day_of_year_number n : 1 <= n -> day_of_year (of_number n) = n - january_first n + 1.
Proof. intros Hn. destruct (of_number_ok n Hn) as [_ E]. unfold january_first, day_number in *. lia. Qed.

(** The ISO week: the weeks from Monday on, each in the year of its Thursday. *)
Definition iso_week (n : Z) : Z :=
  let thursday := n - weekday n + 4 in (thursday - january_first thursday) / 7 + 1.

Section reading.
Context (d : xdate) (n : Z) (Hd : denotes d n).

Lemma valid_reads : xdate_valid d = true.
Proof. by apply (denotes_valid d n). Qed.

Lemma get_julian_ok : reads (xdate_get_julian d) n n.
Proof.
  unfold xdate_get_julian. rewrite valid_reads. cbn [negb].
  destruct (need_julian_ok d n Hd) as (H1 & -> & ->). by split.
Qed.

Lemma get_weekday_ok : reads (xdate_get_weekday d) (weekday n) n.
Proof.
  unfold xdate_get_weekday. rewrite valid_reads. cbn [negb].
  destruct (need_julian_ok d n Hd) as (H1 & -> & ->). cbn [negb]. split; [|done]. cbn [fst].
  pose proof (denotes_range d n Hd). unfold last_day in *. rewrite wrap_small by lia.
  unfold weekday. by rewrite Z.rem_mod_nonneg by lia.
Qed.

Lemma get_field_ok field v :
  (forall d, fields d = of_number n -> calendar_day (fields d) -> field d = v) -> reads (get_field field d) v n.
Proof.
  intros Hf. unfold get_field. rewrite valid_reads. cbn [negb].
  destruct (need_dmy_ok d n Hd) as (H1 & -> & H3). cbn [negb]. split; [|done]. cbn [fst]. apply Hf; [done|].
  rewrite H3. apply of_number_ok. apply (denotes_range d n Hd).
Qed.

Lemma get_year_ok : reads (xdate_get_year d) (cyear (of_number n)) n.
Proof. apply get_field_ok. by intros ? <- _. Qed.
Lemma get_month_ok : reads (xdate_get_month d) (cmonth (of_number n)) n.
Proof. apply get_field_ok. by intros ? <- _. Qed.
Lemma get_day_ok : reads (xdate_get_day d) (cmday (of_number n)) n.
Proof. apply get_field_ok. by intros ? <- _. Qed.

Lemma get_day_of_year_ok : reads (xdate_get_day_of_year d) (day_of_year (of_number n)) n.
Proof.
  apply get_field_ok. intros d' <- (Hy & _). unfold day_of_year, fields. cbn [cyear cmonth cmday] in *.
  by rewrite year_table.
Qed.

Lemma is_first_ok : reads (xdate_is_first_of_month d) (cmday (of_number n) =? 1) n.
Proof.
  unfold xdate_is_first_of_month. rewrite valid_reads. cbn [negb].
  destruct (need_dmy_ok d n Hd) as (H1 & -> & <-). by split.
Qed.

Lemma is_last_ok :
  reads (xdate_is_last_of_month d) (cmday (of_number n) =? month_length (cyear (of_number n)) (cmonth (of_number n))) n.
Proof.
  unfold xdate_is_last_of_month. rewrite valid_reads. cbn [negb].
  destruct (need_dmy_ok d n Hd) as (H1 & -> & H3). cbn [negb]. split; [|done]. cbn [fst].
  destruct (of_number_ok n) as [Hc _]; [apply (denotes_range d n Hd)|]. rewrite <- H3 in *.
  destruct Hc as (Hy & Hm & _). cbn [fields cyear cmonth cmday] in *. by rewrite month_table.
Qed.
End reading.

(** A date that was set to a day of the calendar. *)
Lemma set_dmy_ok d c :
  calendar_day c -> cyear c <= 65535 -> denotes (xdate_set_dmy d (cmday c) (cmonth c) (cyear c)) (day_number c).
Proof.
  intros Hc Hy. unfold xdate_set_dmy. rewrite (proj2 (valid_dmy_ok _ _ _)) by by destruct c. cbn [negb].
  destruct (calendar_small c Hc Hy) as (H1 & H2 & H3). rewrite store_dmy by done.
  by apply denotes_new_dmy.
Qed.

Lemma january_first_number y : 1 <= y -> day_number (CDay y 1 1) = before_year y + 1.
Proof. intros Hy. unfold day_number, day_of_year. cbn [cyear cmonth cmday]. by rewrite before_first_month. Qed.

Lemma calendar_january_first y : 1 <= y -> calendar_day (CDay y 1 1).
Proof. intros Hy. pose proof (month_length_bounds y 1). unfold calendar_day. cbn [cyear cmonth cmday]. lia. Qed.

Lemma first_weekday_ok y : 1 <= y <= 65535 -> first_weekday y = weekday (before_year y + 1).
Proof.
  intros Hy. pose proof (set_dmy_ok zero_date (CDay y 1 1) (calendar_january_first y ltac:(lia)) ltac:(cbn; lia)) as Hd.
  rewrite january_first_number in Hd by lia. by apply (get_weekday_ok _ _ Hd).
Qed.

Section weeks.
Context (d : xdate) (n : Z) (Hd : denotes d n).

Lemma year_range : 1 <= cyear (of_number n) <= 65535.
Proof.
  destruct (denotes_range d n Hd) as [H1 H2]. destruct (of_number_ok n H1) as [Hc Hn].
  split; [apply Hc|]. apply last_day_ok; [done|]. by rewrite Hn.
Qed.

Lemma week_of_year_ok w wd first :
  1 <= w <= 7 -> 0 <= wd <= 6 -> 1 <= first -> first <= n <= first + 365 -> (first - w - wd) mod 7 = 0 ->
  u32 (u32 (n - first + 1 - 1) + wd) `quot` 7 + (if wd =? 0 then 1 else 0) =
    count_weekdays w first (Z.to_nat (n - first + 1)).
Proof.
  intros Hw Hwd Hf Hn Hm. rewrite count_weekdays_ok, Z2Nat.id by lia.
  rewrite (wrap_small 32 (n - first + 1 - 1)), wrap_small, Z.quot_div_nonneg by lia.
  destruct (Z.eqb_spec wd 0) as [->|]; zify_div.
Qed.

Lemma first_bounds : 1 <= january_first n /\ january_first n <= n <= january_first n + 365.
Proof.
  destruct (denotes_range d n Hd) as [H1 _]. destruct (of_number_ok n H1) as [Hc Hn].
  pose proof (day_of_year_bounds _ Hc). pose proof (year_length_bounds (cyear (of_number n))).
  pose proof (day_of_year_number n H1). pose proof year_range as [Hy _].
  assert (1 <= january_first n); [|lia].
  unfold january_first. assert (0 <= before_year (cyear (of_number n))); [|lia]. unfold before_year. zify_div.
Qed.

Lemma monday_week_ok :
  reads (xdate_get_monday_week_of_year d) (count_weekdays 1 (january_first n) (Z.to_nat (n - january_first n + 1))) n.
Proof.
  unfold xdate_get_monday_week_of_year. rewrite (denotes_valid d n Hd). cbn [negb].
  destruct (need_dmy_ok d n Hd) as (H1 & -> & H3). cbn [negb].
  destruct (get_day_of_year_ok _ n H1) as [E1 E2]. destruct (xdate_get_day_of_year _) as [k d'].
  cbn [fst snd] in *. subst k. split; [|done]. cbn [fst]. pose proof first_bounds as [Hf Hn].
  rewrite day_of_year_number by apply (denotes_range d n Hd).
  assert (year (need_dmy d) = cyear (of_number n)) as -> by (by rewrite <- H3).
  rewrite first_weekday_ok by apply year_range. fold (january_first n).
  unfold weekday. rewrite (wrap_small 32 ((january_first n - 1) mod 7 + 1 - 1)) by zify_div.
  apply week_of_year_ok; zify_div.
Qed.

Lemma sunday_week_ok :
  reads (xdate_get_sunday_week_of_year d) (count_weekdays 7 (january_first n) (Z.to_nat (n - january_first n + 1))) n.
Proof.
  unfold xdate_get_sunday_week_of_year. rewrite (denotes_valid d n Hd). cbn [negb].
  destruct (need_dmy_ok d n Hd) as (H1 & -> & H3). cbn [negb].
  destruct (get_day_of_year_ok _ n H1) as [E1 E2]. destruct (xdate_get_day_of_year _) as [k d'].
  cbn [fst snd] in *. subst k. split; [|done]. cbn [fst]. pose proof first_bounds as [Hf Hn].
  rewrite day_of_year_number by apply (denotes_range d n Hd).
  assert (year (need_dmy d) = cyear (of_number n)) as -> by (by rewrite <- H3).
  rewrite first_weekday_ok by apply year_range. fold (january_first n).
  unfold weekday. destruct (Z.eqb_spec ((january_first n - 1) mod 7 + 1) 7); apply week_of_year_ok; zify_div.
Qed.
End weeks.
