(* ===== verification/DateMove.v ===== *)
(** * Weeks, and moving a date

    The ISO week of a day, and the number of Mondays or Sundays of a year. *)

From S2P Require Import Prelude Date DateCalendar DateOps.
Local Open Scope Z_scope.

(** ** The ISO week *)

(** A number splits into cycles of 400 years, centuries, cycles of four years,
    years and days. *)
Lemma split_days t :
  1 <= t ->
  exists a b c e x, before_year (cyear (of_number t)) = 146097 * a + 36524 * b + 1461 * c + 365 * e /\
    t - 1 = 146097 * a + 36524 * b + 1461 * c + 365 * e + x /\
    0 <= a /\ 0 <= b <= 3 /\ 0 <= c <= 24 /\ 0 <= e <= 3 /\ 0 <= x <= 365 /\
    (x = 365 -> e = 3 /\ (c = 24 -> b = 3)).
Proof.
  intros Ht. destruct (of_number_ok t Ht) as [Hc Hn]. pose proof (day_of_year_bounds _ Hc) as Hdoy.
  destruct Hc as (Hy & _). unfold day_number in Hn. set (y := cyear (of_number t)) in *.
  exists ((y - 1) / 400), ((y - 1) mod 400 / 100), ((y - 1) mod 100 / 4), ((y - 1) mod 4), (day_of_year (of_number t) - 1).
  assert (before_year y = 146097 * ((y - 1) / 400) + 36524 * ((y - 1) mod 400 / 100) + 1461 * ((y - 1) mod 100 / 4) + 365 * ((y - 1) mod 4)) as E.
  { unfold before_year. zify_div. }
  split_and!; try done; try zify_div.
  - pose proof (year_length_bounds y). lia.
  - intros Hx. unfold year_length in Hdoy. destruct (leap y) eqn:El; [|lia]. apply leap_spec in El. zify_div.
Qed.

(** The remainders leave the day of the year, but at the end of a cycle. *)
Lemma iso_remainder a b c e x :
  0 <= a -> 0 <= b <= 3 -> 0 <= c <= 24 -> 0 <= e <= 3 -> 0 <= x <= 365 ->
  (x = 365 -> e = 3 /\ (c = 24 -> b = 3)) -> ~ (x = 365 /\ c = 24 /\ b = 3) ->
  let d4 := (((146097 * a + 36524 * b + 1461 * c + 365 * e + x) mod 146097) mod 36524) mod 1461 in
  (d4 - d4 / 1460) mod 365 + d4 / 1460 = x.
Proof.
  intros Ha Hb Hc He Hx Hl Hno. cbn zeta.
  assert ((146097 * a + 36524 * b + 1461 * c + 365 * e + x) mod 146097 = 36524 * b + 1461 * c + 365 * e + x) as ->.
  { symmetry. apply Z.mod_unique_pos with a; lia. }
  assert ((36524 * b + 1461 * c + 365 * e + x) mod 36524 = 1461 * c + 365 * e + x) as ->.
  { symmetry. apply Z.mod_unique_pos with b; lia. }
  assert ((1461 * c + 365 * e + x) mod 1461 = 365 * e + x) as ->.
  { symmetry. apply Z.mod_unique_pos with c; lia. }
  assert ((365 * e + x) / 1460 = 0 \/ (365 * e + x) / 1460 = 1 /\ e = 3 /\ x = 365) as [E|(E & -> & ->)].
  { destruct (Z.eq_dec (365 * e + x) 1460) as [E|].
    - rewrite E. change (1460 / 1460) with 1. right. lia.
    - left. apply Z.div_small. lia. }
  - rewrite E, Z.add_0_r, Z.sub_0_r. symmetry. apply Z.mod_unique_pos with e; [|lia].
    assert (x = 365 -> (365 * e + x) / 1460 = 1) as Hx'.
    { intros ->. destruct (Hl eq_refl) as [-> _]. reflexivity. }
    rewrite E in Hx'. lia.
  - reflexivity.
Qed.

Lemma iso_week_ok d n : denotes d n -> reads (xdate_get_iso8601_week_of_year d) (iso_week n) n.
Proof.
  intros Hd. unfold xdate_get_iso8601_week_of_year. rewrite (denotes_valid d n Hd). cbn [negb].
  destruct (need_julian_ok d n Hd) as (H1 & -> & ->). cbn [negb]. split; [|done]. cbn [fst].
  pose proof (denotes_range d n Hd) as Hr. unfold last_day in Hr.
  unfold iso_week. set (t := n - weekday n + 4).
  assert (1 <= t <= 23936170 /\ t mod 7 = 4) as [Ht Ht7] by (unfold t, weekday; zify_div).
  rewrite (wrap_small 32 (n + 1721425)), (Z.rem_mod_nonneg (n + 1721425) 7) by lia.
  assert (n + 1721425 + 31741 - (n + 1721425) mod 7 = t - 1 + 12 * 146097) as -> by (unfold t, weekday; zify_div).
  rewrite (wrap_small 32 (t - 1 + _)) by lia.
  destruct (split_days t) as (a & b & c & e & x & Ey & Et & Ha & Hb & Hc & He & Hx & Hl); [lia|].
  assert (t - 1 + 12 * 146097 = 146097 * (a + 12) + 36524 * b + 1461 * c + 365 * e + x) as -> by lia.
  assert (~ (x = 365 /\ c = 24 /\ b = 3)) as Hno.
  { intros (-> & -> & ->). destruct (Hl eq_refl) as [-> _].
    assert (t = 146097 * (a + 1)) as E by lia. rewrite E in Ht7. zify_div. }
  pose proof (iso_remainder (a + 12) b c e x ltac:(lia) Hb Hc He Hx Hl Hno) as Hiso. cbn zeta in Hiso.
  set (s := 146097 * (a + 12) + 36524 * b + 1461 * c + 365 * e + x) in *. assert (0 <= s) as Hs by lia.
  rewrite (Z.rem_mod_nonneg s) by lia.
  assert (0 <= s mod 146097) as Hs1 by (apply Z.mod_pos_bound; lia). rewrite (Z.rem_mod_nonneg (s mod 146097)) by lia.
  assert (0 <= (s mod 146097) mod 36524) as Hs2 by (apply Z.mod_pos_bound; lia).
  rewrite (Z.rem_mod_nonneg ((s mod 146097) mod 36524)) by lia.
  set (d4 := ((s mod 146097) mod 36524) mod 1461) in *.
  assert (0 <= d4 < 1461) as Hd4 by (apply Z.mod_pos_bound; lia).
  rewrite (Z.quot_div_nonneg d4 1460) by lia.
  assert (0 <= d4 / 1460 <= d4) as HL by zify_div. assert (d4 / 1460 <= 1) as HL1 by zify_div.
  rewrite (wrap_small 32 (d4 - d4 / 1460)), (Z.rem_mod_nonneg (d4 - d4 / 1460)), Hiso by lia.
  rewrite (wrap_small 32 x), Z.quot_div_nonneg by lia. f_equal. f_equal.
  unfold january_first. lia.
Qed.

(** ** The weeks of a year *)

Lemma weeks_in_year_ok w y :
  1 <= w <= 7 -> 1 <= y <= 65535 ->
  weeks_in_year w y = count_weekdays w (before_year y + 1) (Z.to_nat (year_length y)).
Proof.
  intros Hw Hy. unfold weeks_in_year, xdate_valid_year. rewrite (proj2 (Z.ltb_lt 0 y)) by lia. cbn [negb].
  set (f := before_year y + 1).
  assert (forall d c, calendar_day c -> cyear c = y -> fst (xdate_get_weekday (xdate_set_dmy d (cmday c) (cmonth c) y)) = weekday (day_number c)) as Hset.
  { intros d c Hc <-. apply (get_weekday_ok _ (day_number c)). apply set_dmy_ok; [done|lia]. }
  assert (forall m x, 1 <= m <= 12 -> 1 <= x <= month_length y m -> calendar_day (CDay y m x)) as Hcal.
  { intros m x Hm Hx. unfold calendar_day. cbn [cyear cmonth cmday]. lia. }
  pose proof (before_last_month y) as H12. change (month_length y 12) with 31 in H12.
  assert (day_number (CDay y 1 1) = f /\ day_number (CDay y 1 2) = f + 1 /\
    day_number (CDay y 12 31) = f + year_length y - 1 /\ day_number (CDay y 12 30) = f + year_length y - 2) as (N1 & N2 & N3 & N4).
  { unfold day_number, day_of_year. cbn [cyear cmonth cmday]. rewrite before_first_month. unfold f. lia. }
  pose proof (Hset zero_date (CDay y 1 1) (Hcal 1 1 ltac:(lia) ltac:(pose proof (month_length_bounds y 1); lia)) eq_refl) as W1.
  cbn [cmday cmonth] in W1. rewrite N1 in W1.
  destruct (xdate_get_weekday (xdate_set_dmy zero_date 1 1 y)) as [w1 d1]. cbn [fst] in W1. subst w1.
  pose proof (Hset d1 (CDay y 12 31) (Hcal 12 31 ltac:(lia) ltac:(change (month_length y 12) with 31; lia)) eq_refl) as W2.
  cbn [cmday cmonth] in W2. rewrite N3 in W2.
  destruct (xdate_get_weekday (xdate_set_dmy d1 31 12 y)) as [w2 d2]. cbn [fst] in W2. subst w2.
  pose proof (Hset d2 (CDay y 1 2) (Hcal 1 2 ltac:(lia) ltac:(pose proof (month_length_bounds y 1); lia)) eq_refl) as W3.
  cbn [cmday cmonth] in W3. rewrite N2 in W3.
  destruct (xdate_get_weekday (xdate_set_dmy d2 2 1 y)) as [w3 d3]. cbn [fst] in W3. subst w3.
  pose proof (Hset d3 (CDay y 12 30) (Hcal 12 30 ltac:(lia) ltac:(change (month_length y 12) with 31; lia)) eq_refl) as W4.
  cbn [cmday cmonth] in W4. rewrite N4 in W4.
  destruct (xdate_get_weekday (xdate_set_dmy d3 30 12 y)) as [w4 d4]. cbn [fst] in W4. subst w4.
  rewrite is_leap_year_ok by lia. rewrite count_weekdays_ok by done.
  unfold year_length, weekday in *. clear - Hw. destruct (leap y); zcases; zify_div.
Qed.

(** ** Changing and comparing dates *)

(** ** Days *)

Lemma add_days_ok d n k :
  denotes d n -> 0 <= k < 2 ^ 32 ->
  (n + k <= last_day -> denotes (xdate_add_days d k) (n + k)) /\
  (last_day < n + k < 2 ^ 32 ->
    let e := xdate_add_days d k in
    xdate_valid e = true /\ dmy e = false /\ fst (xdate_get_julian e) = n + k) /\
  (2 ^ 32 <= n + k -> denotes (xdate_add_days d k) n).
Proof.
  intros Hd Hk. unfold xdate_add_days. rewrite (denotes_valid d n Hd). cbn [negb].
  destruct (need_julian_ok d n Hd) as (H1 & -> & H3). cbn [negb]. rewrite H3.
  pose proof (denotes_range d n Hd) as Hr. unfold last_day, G_MAXUINT32 in *.
  rewrite (wrap_small 32 (4294967295 - n)) by lia. split; [|split]; intros Hle.
  - rewrite (proj2 (Z.leb_le k _)) by lia. cbn [negb]. rewrite set_julian_days_small by lia.
    apply denotes_new_julian. unfold last_day. lia.
  - rewrite (proj2 (Z.leb_le k _)) by lia. cbn [negb]. rewrite set_julian_days_small by lia.
    generalize (need_julian d). by intros [].
  - rewrite (proj2 (Z.leb_gt k _)) by lia. done.
Qed.

Lemma subtract_days_ok d n k :
  denotes d n -> 0 <= k ->
  denotes (xdate_subtract_days d k) (if k <? n then n - k else n).
Proof.
  intros Hd Hk. unfold xdate_subtract_days. rewrite (denotes_valid d n Hd). cbn [negb].
  destruct (need_julian_ok d n Hd) as (H1 & -> & H3). cbn [negb]. rewrite H3.
  pose proof (denotes_range d n Hd) as Hr. unfold last_day in *.
  destruct (Z.ltb_spec k n); cbn [negb]; [|done]. rewrite set_julian_days_small by lia.
  apply denotes_new_julian. unfold last_day. lia.
Qed.

(** ** Months and years *)

(** A day of a month, or its last one. *)
Definition clip (y m d : Z) : cday := CDay y m (Z.min d (month_length y m)).

Lemma clip_calendar y m d : 1 <= y -> 1 <= m <= 12 -> 1 <= d -> calendar_day (clip y m d).
Proof.
  intros Hy Hm Hd. pose proof (month_length_bounds y m). unfold calendar_day, clip. cbn [cyear cmonth cmday]. lia.
Qed.

(** The day that [k] months later or earlier has the same day of the month, as
    far as there is one. *)
Definition month_later (c : cday) (k : Z) : cday :=
  let total := 12 * cyear c + cmonth c - 1 + k in
  clip (total / 12) (total mod 12 + 1) (cmday c).

Lemma clip_day_ok j a b x y m :
  1 <= y -> 1 <= m <= 12 -> 1 <= x <= 31 ->
  clip_day (XDate j a b x m y) = XDate j a b (cmday (clip y m x)) m y.
Proof.
  intros Hy Hm Hx. unfold clip_day, clip. cbn [year month day cmday]. rewrite month_table by done.
  pose proof (month_length_bounds y m).
  destruct (Z.ltb_spec (month_length y m) x).
  - unfold set_day. cbn [julian_days julian dmy month year]. rewrite wrap_small by lia. f_equal. lia.
  - f_equal. lia.
Qed.

Lemma denotes_dmy_only j y m x :
  1 <= y <= 65535 -> 1 <= m <= 12 -> 1 <= x ->
  denotes (XDate j false true (cmday (clip y m x)) m y) (day_number (clip y m x)).
Proof.
  intros Hy Hm Hx. apply (denotes_new_dmy j (clip y m x)); [apply clip_calendar; lia|cbn; lia].
Qed.

(** The date that a date to be changed by months or years starts from. *)
Lemma start_dmy d n :
  denotes d n ->
  exists j f x m y, need_dmy d = XDate j f true x m y /\ CDay y m x = of_number n /\
    1 <= y <= 65535 /\ 1 <= m <= 12 /\ 1 <= x <= 31 /\ denotes (XDate j f true x m y) n.
Proof.
  intros Hd. destruct (need_dmy_ok d n Hd) as (H1 & H2 & H3). destruct (fields_small _ n H1 H2) as (Hy & Hm & Hx).
  destruct (need_dmy d) as [j f g x m y]. cbn in *. subst g. by exists j, f, x, m, y.
Qed.

Lemma add_months_ok d n k :
  denotes d n -> 0 <= k < 2 ^ 32 ->
  let c := month_later (of_number n) k in
  denotes (xdate_add_months d k) (if cyear c <=? 65535 then day_number c else n).
Proof.
  intros Hd Hk. cbn zeta. unfold xdate_add_months. rewrite (denotes_valid d n Hd). cbn [negb].
  destruct (start_dmy d n Hd) as (j & f & x & m & y & -> & <- & Hy & Hm & Hx & Hs). cbn [dmy negb month year].
  unfold month_later, G_MAXUINT32, G_MAXUINT16. cbn [cyear cmonth cmday clip].
  rewrite (wrap_small 32 (4294967295 - (m - 1))), (wrap_small 32 (65535 - y)) by lia.
  destruct (Z.leb_spec k (4294967295 - (m - 1))); cbn [negb].
  2: { destruct (Z.leb_spec ((12 * y + m - 1 + k) / 12) 65535); [zify_div|done]. }
  rewrite (wrap_small 32 (k + (m - 1))), Z.quot_div_nonneg, Z.rem_mod_nonneg by lia.
  assert ((12 * y + m - 1 + k) / 12 = y + (k + (m - 1)) / 12) as -> by zify_div.
  assert ((12 * y + m - 1 + k) mod 12 = (k + (m - 1)) mod 12) as -> by zify_div.
  set (q := (k + (m - 1)) / 12). set (r := (k + (m - 1)) mod 12). assert (0 <= q /\ 0 <= r < 12) as [Hq Hr] by (subst q r; zify_div).
  destruct (Z.leb_spec q (65535 - y)); cbn [negb].
  - rewrite (proj2 (Z.leb_le (y + q) 65535)) by lia.
    unfold set_month, set_year. cbn [julian_days julian dmy day month year].
    rewrite (wrap_small 4), (wrap_small 16) by lia. rewrite clip_day_ok by lia. apply denotes_dmy_only; lia.
  - by rewrite (proj2 (Z.leb_gt (y + q) 65535)) by lia.
Qed.

(** Months back: as long as the result is in the year 1 or later. The year is
    checked before a month may borrow one from it. *)
Lemma subtract_months_ok d n k :
  denotes d n -> 0 <= k < 2 ^ 32 ->
  let c := month_later (of_number n) (- k) in
  (1 <= cyear c -> denotes (xdate_subtract_months d k) (day_number c)) /\
  (cyear (of_number n) <= k / 12 -> denotes (xdate_subtract_months d k) n) /\
  (cyear c = 0 -> k / 12 < cyear (of_number n) ->
   xdate_valid (xdate_subtract_months d k) = true /\ dmy (xdate_subtract_months d k) = true /\
   year (xdate_subtract_months d k) = 0).
Proof.
  intros Hd Hk. cbn zeta. unfold xdate_subtract_months. rewrite (denotes_valid d n Hd). cbn [negb].
  destruct (start_dmy d n Hd) as (j & f & x & m & y & -> & <- & Hy & Hm & Hx & Hs). cbn [dmy negb month year].
  unfold month_later. cbn [cyear cmonth cmday clip]. rewrite Z.quot_div_nonneg, Z.rem_mod_nonneg by lia.
  set (q := k / 12). set (r := k mod 12). assert (0 <= q /\ 0 <= r < 12 /\ k = 12 * q + r) as (Hq & Hr & Ek) by (subst q r; zify_div).
  clearbody q r. subst k.
  destruct (Z.ltb_spec q y); cbn [negb].
  2: { split_and!; [intros; exfalso; zify_div|done|intros; lia]. }
  unfold set_year. cbn [julian_days julian dmy day month year]. rewrite (wrap_small 16 (y - q)) by lia.
  destruct (Z.ltb_spec r m).
  - assert ((12 * y + m - 1 + - (12 * q + r)) / 12 = y - q) as -> by zify_div.
    assert ((12 * y + m - 1 + - (12 * q + r)) mod 12 = m - r - 1) as -> by zify_div.
    unfold set_month. cbn [julian_days julian dmy day month year]. rewrite (wrap_small 4) by lia.
    rewrite clip_day_ok by lia. split_and!; [intros _|lia|lia]. replace (m - r - 1 + 1) with (m - r) by lia.
    apply denotes_dmy_only; lia.
  - assert ((12 * y + m - 1 + - (12 * q + r)) / 12 = y - q - 1) as -> by zify_div.
    assert ((12 * y + m - 1 + - (12 * q + r)) mod 12 = 12 - (r - m) - 1) as -> by zify_div.
    unfold set_month. cbn [julian_days julian dmy day month year].
    rewrite (wrap_small 32 (r - m)), (wrap_small 4), (wrap_small 16 (y - q - 1)) by lia.
    split_and!; [intros Hle|lia|intros Hz _].
    + rewrite clip_day_ok by lia. replace (12 - (r - m) - 1 + 1) with (12 - (r - m)) by lia. apply denotes_dmy_only; lia.
    + unfold clip_day. cbn [year month day]. rewrite Hz. by destruct (_ <? x).
Qed.

Lemma clip_leap_day_ok j f x m y y0 :
  1 <= y -> calendar_day (CDay y0 m x) ->
  set_flags (clip_leap_day (XDate j f true x m y)) false true =
    XDate j false true (cmday (clip y m x)) m y.
Proof.
  intros Hy (_ & Hm & Hx). cbn [cyear cmonth cmday] in *. unfold clip_leap_day. cbn [month day year].
  rewrite is_leap_year_ok by done. unfold clip, month_length in *. cbn [cmday].
  destruct (Z.eqb_spec m 2) as [->|]; cbn [andb].
  - cbn [Z.eqb Pos.eqb]. destruct (Z.eqb_spec x 29) as [->|]; [|].
    + destruct (leap y); reflexivity.
    + unfold set_flags. cbn. f_equal. destruct (leap y), (leap y0); lia.
  - unfold set_flags. cbn [julian_days dmy day month year]. f_equal.
    destruct ((m =? 4) || (m =? 6) || (m =? 9) || (m =? 11)); lia.
Qed.

Definition year_later (c : cday) (k : Z) : cday := clip (cyear c + k) (cmonth c) (cmday c).

Lemma add_years_ok d n k :
  denotes d n -> 0 <= k < 2 ^ 32 ->
  let c := year_later (of_number n) k in
  denotes (xdate_add_years d k) (if cyear c <=? 65535 then day_number c else n).
Proof.
  intros Hd Hk. cbn zeta. pose proof (of_number_ok n (proj1 (denotes_range d n Hd))) as [Hcal _].
  unfold xdate_add_years. rewrite (denotes_valid d n Hd). cbn [negb].
  destruct (start_dmy d n Hd) as (j & f & x & m & y & -> & Ec & Hy & Hm & Hx & Hs). rewrite <- Ec in *. cbn [dmy negb year].
  unfold year_later, G_MAXUINT16. cbn [cyear cmonth cmday clip]. rewrite (wrap_small 32 (65535 - y)) by lia.
  destruct (Z.leb_spec k (65535 - y)); cbn [negb].
  - rewrite (proj2 (Z.leb_le (y + k) 65535)) by lia. unfold set_year. cbn [julian_days julian dmy day month year].
    rewrite (wrap_small 16) by lia. rewrite (clip_leap_day_ok _ _ _ _ _ y) by (done || lia). apply denotes_dmy_only; lia.
  - by rewrite (proj2 (Z.leb_gt (y + k) 65535)) by lia.
Qed.

Lemma subtract_years_ok d n k :
  denotes d n -> 0 <= k < 2 ^ 32 ->
  let c := year_later (of_number n) (- k) in
  denotes (xdate_subtract_years d k) (if 1 <=? cyear c then day_number c else n).
Proof.
  intros Hd Hk. cbn zeta. pose proof (of_number_ok n (proj1 (denotes_range d n Hd))) as [Hcal _].
  unfold xdate_subtract_years. rewrite (denotes_valid d n Hd). cbn [negb].
  destruct (start_dmy d n Hd) as (j & f & x & m & y & -> & Ec & Hy & Hm & Hx & Hs). rewrite <- Ec in *. cbn [dmy negb year].
  unfold year_later. cbn [cyear cmonth cmday clip]. rewrite Z.add_opp_r.
  destruct (Z.ltb_spec k y); cbn [negb].
  - rewrite (proj2 (Z.leb_le 1 (y - k))) by lia. unfold set_year. cbn [julian_days julian dmy day month year].
    rewrite (wrap_small 16) by lia. rewrite (clip_leap_day_ok _ _ _ _ _ y) by (done || lia). apply denotes_dmy_only; lia.
  - by rewrite (proj2 (Z.leb_gt 1 (y - k))) by lia.
Qed.

(** ** Setting *)

Lemma set_julian_ok d n : 1 <= n <= last_day -> denotes (xdate_set_julian d n) n.
Proof.
  intros Hn. unfold xdate_set_julian, xdate_valid_julian. rewrite (proj2 (Z.ltb_lt 0 n)) by lia. cbn [negb].
  unfold last_day in *. rewrite set_julian_days_small by lia. by apply denotes_new_julian.
Qed.

(** A date is set to nothing that is no day. *)
Lemma set_dmy_invalid d c :
  ~ calendar_day c -> xdate_set_dmy d (cmday c) (cmonth c) (cyear c) = d.
Proof.
  intros Hc. unfold xdate_set_dmy. destruct (xdate_valid_dmy _ _ _) eqn:E; [|done].
  apply valid_dmy_ok in E. by destruct c.
Qed.

(** The date of a broken-down time, whatever the date was before. *)
Lemma set_time_t_ok d t :
  let c := CDay (tm_year t + 1900) (tm_mon t + 1) (tm_mday t) in
  calendar_day c -> cyear c <= 65535 -> denotes (xdate_set_time_t d t) (day_number c).
Proof.
  intros c Hc Hy. destruct (calendar_small c Hc Hy) as (H1 & H2 & H3). unfold xdate_set_time_t, set_flags, set_month, set_day, set_year.
  cbn [julian_days julian dmy day month year]. change (tm_mon t + 1) with (cmonth c). change (tm_mday t) with (cmday c).
  change (tm_year t + 1900) with (cyear c). rewrite (wrap_small 6), (wrap_small 4), (wrap_small 16) by done.
  rewrite (proj2 (valid_dmy_ok _ _ _)) by by destruct c. cbn [negb]. by apply (denotes_new_dmy (julian_days d) c).
Qed.

(** What setting one field leaves: the day with that field, if there is one. *)
Lemma check_dmy_ok j b x m y :
  y <= 65535 ->
  (calendar_day (CDay y m x) -> denotes (check_dmy (XDate j false b x m y)) (day_number (CDay y m x))) /\
  (~ calendar_day (CDay y m x) -> xdate_valid (check_dmy (XDate j false b x m y)) = false).
Proof.
  intros Hy. unfold check_dmy, set_flags, xdate_valid. cbn [julian_days julian dmy day month year].
  destruct (xdate_valid_dmy x m y) eqn:E.
  - apply valid_dmy_ok in E. split; [|done]. intros _. by apply (denotes_new_dmy j (CDay y m x)).
  - split; [|done]. intros Hc. apply valid_dmy_ok in Hc. congruence.
Qed.

Lemma enter_dmy_ok d n :
  denotes d n ->
  exists j y m x, enter_dmy d = XDate j false true x m y /\ CDay y m x = of_number n /\ y <= 65535.
Proof.
  intros Hd. destruct (start_dmy d n Hd) as (j & f & x & m & y & E & Ec & Hy & _ & _ & _).
  unfold enter_dmy. destruct (denotes_some d n Hd) as [Hj|Hm].
  - rewrite Hj. unfold need_dmy in E. destruct (dmy d) eqn:Hm; cbn [negb andb] in *.
    + subst d. cbn. exists j, y, m, x. split_and!; [done|done|lia].
    + rewrite E. cbn. exists j, y, m, x. split_and!; [done|done|lia].
  - unfold need_dmy in E. rewrite Hm in E |- *. cbn [negb] in *. rewrite andb_false_r, Hm. subst d. cbn.
    exists j, y, m, x. split_and!; [done|done|lia].
Qed.

(** A result that is the given day, or no date if that is none. *)
Definition sets (d : xdate) (c : cday) : Prop :=
  (calendar_day c -> denotes d (day_number c)) /\ (~ calendar_day c -> xdate_valid d = false).

Lemma set_month_ok d n m :
  denotes d n -> 1 <= m <= 12 -> sets (xdate_set_month d m) (CDay (cyear (of_number n)) m (cmday (of_number n))).
Proof.
  intros Hd Hm. unfold xdate_set_month, xdate_valid_month.
  rewrite (proj2 (Z.ltb_lt 0 m)), (proj2 (Z.ltb_lt m 13)) by lia. cbn [andb negb].
  destruct (enter_dmy_ok d n Hd) as (j & y & m' & x & -> & <- & Hy). cbn [cyear cmday].
  unfold set_month. cbn [julian_days julian dmy day month year]. rewrite wrap_small by lia. by apply check_dmy_ok.
Qed.
Lemma set_day_ok d n x :
  denotes d n -> 1 <= x <= 31 -> sets (xdate_set_day d x) (CDay (cyear (of_number n)) (cmonth (of_number n)) x).
Proof.
  intros Hd Hx. unfold xdate_set_day, xdate_valid_day.
  rewrite (proj2 (Z.ltb_lt 0 x)), (proj2 (Z.ltb_lt x 32)) by lia. cbn [andb negb].
  destruct (enter_dmy_ok d n Hd) as (j & y & m' & x' & -> & <- & Hy). cbn [cyear cmonth].
  unfold set_day. cbn [julian_days julian dmy day month year]. rewrite wrap_small by lia. by apply check_dmy_ok.
Qed.
Lemma set_year_ok d n y :
  denotes d n -> 1 <= y <= 65535 -> sets (xdate_set_year d y) (CDay y (cmonth (of_number n)) (cmday (of_number n))).
Proof.
  intros Hd Hy. unfold xdate_set_year, xdate_valid_year. rewrite (proj2 (Z.ltb_lt 0 y)) by lia. cbn [negb].
  destruct (enter_dmy_ok d n Hd) as (j & y' & m' & x' & -> & <- & Hy'). cbn [cmonth cmday].
  unfold set_year. cbn [julian_days julian dmy day month year]. rewrite wrap_small by lia. apply check_dmy_ok. lia.
Qed.

(** From nothing, one field after the other. *)
Lemma check_dmy_fields j b x m y :
  check_dmy (XDate j false b x m y) = XDate j false (xdate_valid_dmy x m y) x m y.
Proof. done. Qed.

Lemma set_day_fields j b x m y x' :
  1 <= x' <= 31 -> xdate_set_day (XDate j false b x m y) x' = XDate j false (xdate_valid_dmy x' m y) x' m y.
Proof.
  intros Hx. unfold xdate_set_day, xdate_valid_day.
  rewrite (proj2 (Z.ltb_lt 0 x')), (proj2 (Z.ltb_lt x' 32)) by lia. cbn [andb negb].
  unfold set_day. rewrite wrap_small by lia. apply check_dmy_fields.
Qed.
Lemma set_month_fields j b x m y m' :
  1 <= m' <= 12 -> xdate_set_month (XDate j false b x m y) m' = XDate j false (xdate_valid_dmy x m' y) x m' y.
Proof.
  intros Hm. unfold xdate_set_month, xdate_valid_month.
  rewrite (proj2 (Z.ltb_lt 0 m')), (proj2 (Z.ltb_lt m' 13)) by lia. cbn [andb negb].
  unfold set_month. rewrite wrap_small by lia. apply check_dmy_fields.
Qed.
Lemma set_year_fields j b x m y y' :
  1 <= y' <= 65535 -> xdate_set_year (XDate j false b x m y) y' = check_dmy (XDate j false b x m y').
Proof.
  intros Hy. unfold xdate_set_year, xdate_valid_year. rewrite (proj2 (Z.ltb_lt 0 y')) by lia. cbn [negb].
  unfold set_year. by rewrite wrap_small by lia.
Qed.

Lemma set_fields_ok x m y :
  1 <= x <= 31 -> 1 <= m <= 12 -> 1 <= y <= 65535 ->
  sets (xdate_set_year (xdate_set_month (xdate_set_day zero_date x) m) y) (CDay y m x).
Proof.
  intros Hx Hm Hy. unfold zero_date. rewrite set_day_fields, set_month_fields, set_year_fields by done.
  apply check_dmy_ok. lia.
Qed.

(** ** Comparing *)

Definition order_of (n n' : Z) : Z := three_way n n' 0.

Lemma order_of_cases n n' :
  n < n' /\ order_of n n' = -1 \/ n = n' /\ order_of n n' = 0 \/ n' < n /\ order_of n n' = 1.
Proof. unfold order_of, three_way. zcases; lia. Qed.

Lemma compare_dmy_ok d d' n n' :
  denotes d n -> denotes d' n' -> dmy d = true -> dmy d' = true ->
  three_way (year d) (year d') (three_way (month d) (month d') (three_way (day d) (day d') 0)) = order_of n n'.
Proof.
  intros Hd Hd' Hm Hm'. destruct (denotes_dmy d n Hd Hm) as [Hc <-], (denotes_dmy d' n' Hd' Hm') as [Hc' <-].
  pose proof (day_number_lt _ _ Hc Hc') as H1. pose proof (day_number_lt _ _ Hc' Hc) as H2.
  cbn [fields cyear cmonth cmday] in *.
  destruct (order_of_cases (day_number (fields d)) (day_number (fields d'))) as [[? ->]|[[? ->]|[? ->]]];
    unfold three_way; zcases; lia.
Qed.

Lemma compare_ok d d' n n' :
  denotes d n -> denotes d' n' ->
  exists e e', xdate_compare d d' = Some (order_of n n', e, e') /\ denotes e n /\ denotes e' n'.
Proof.
  intros Hd Hd'. unfold xdate_compare. rewrite (denotes_valid d n Hd), (denotes_valid d' n' Hd'). cbn [negb].
  cbn [compare_loop].
  destruct (julian d && julian d') eqn:Hj.
  { apply andb_prop in Hj as [Hj Hj']. rewrite (denotes_julian d n Hd Hj), (denotes_julian d' n' Hd' Hj').
    by exists d, d'. }
  destruct (dmy d && dmy d') eqn:Hm.
  { apply andb_prop in Hm as [Hm Hm']. rewrite (compare_dmy_ok d d' n n') by done. by exists d, d'. }
  destruct (need_julian_ok d n Hd) as (H1 & E1 & Ej), (need_julian_ok d' n' Hd') as (H2 & E2 & Ej').
  rewrite E1, E2. cbn [negb andb]. rewrite Ej, Ej'. by exists (need_julian d), (need_julian d').
Qed.

(** A date compared with itself is not changed. *)
Lemma compare_self d n : denotes d n -> xdate_compare d d = Some (0, d, d).
Proof.
  intros Hd. destruct (compare_ok d d n n Hd Hd) as (e & e' & E & _ & _). unfold xdate_compare in *.
  rewrite (denotes_valid d n Hd) in *. cbn [negb compare_loop] in *.
  assert (forall z, three_way z z 0 = 0) as Hself by (intros; unfold three_way; by rewrite Z.ltb_irrefl).
  assert (forall z k, three_way z z k = k) as Hself' by (intros; unfold three_way; by rewrite Z.ltb_irrefl).
  destruct (denotes_some d n Hd) as [Hx|Hx]; rewrite Hx; cbn [andb]; rewrite ?Hself', ?Hself; [done|].
  by destruct (julian d); cbn [andb]; rewrite ?Hself', ?Hself.
Qed.

Lemma days_between_ok d d' n n' :
  denotes d n -> denotes d' n' ->
  exists e e', xdate_days_between d d' = (n' - n, e, e') /\ denotes e n /\ denotes e' n'.
Proof.
  intros Hd Hd'. unfold xdate_days_between. rewrite (denotes_valid d n Hd), (denotes_valid d' n' Hd'). cbn [negb].
  destruct (get_julian_ok d n Hd) as [E1 H1], (get_julian_ok d' n' Hd') as [E2 H2].
  destruct (xdate_get_julian d) as [j e], (xdate_get_julian d') as [j' e']. cbn [fst snd] in *. subst j j'.
  pose proof (denotes_range d n Hd). pose proof (denotes_range d' n' Hd'). unfold last_day in *.
  rewrite !i32_small by (rewrite ?i32_small; lia). by exists e, e'.
Qed.

Lemma order_ok d d' n n' :
  denotes d n -> denotes d' n' ->
  exists e e', xdate_order d d' = Some (e, e') /\ denotes e (Z.min n n') /\ denotes e' (Z.max n n').
Proof.
  intros Hd Hd'. unfold xdate_order. rewrite (denotes_valid d n Hd), (denotes_valid d' n' Hd'). cbn [negb].
  destruct (compare_ok d d' n n' Hd Hd') as (e & e' & -> & H1 & H2). cbn [mbind option_bind].
  destruct (order_of_cases n n') as [[? ->]|[[? ->]|[? ->]]]; cbn [Z.ltb Z.compare];
    do 2 eexists; (split; [done|]); split; match goal with |- denotes ?x ?n => idtac end.
  all: rewrite ?Z.min_l, ?Z.max_r by lia; rewrite ?Z.min_r, ?Z.max_l by lia; try done.
Qed.

(** A bound that may be missing. *)
Definition bounds (b : option xdate) (n : option Z) : Prop :=
  match b, n with Some d, Some n => denotes d n | None, None => True | _, _ => False end.

Lemma clamp_ok d n lo hi l h :
  denotes d n -> bounds lo l -> bounds hi h ->
  (forall a b, l = Some a -> h = Some b -> a <= b) ->
  exists d' lo' hi', xdate_clamp d lo hi = Some (d', lo', hi') /\
    denotes d' (let n := match l with Some a => Z.max n a | None => n end in
                match h with Some b => Z.min n b | None => n end) /\
    bounds lo' l /\ bounds hi' h.
Proof.
  intros Hd Hlo Hhi Hab. unfold xdate_clamp. rewrite (denotes_valid d n Hd). cbn [negb].
  assert (forall b k, bounds b k -> match b with Some m => negb (xdate_valid m) | None => false end = false) as Hb.
  { intros [b|] [k|] Hbk; try done. by rewrite (denotes_valid b k Hbk). }
  rewrite (Hb lo l Hlo), (Hb hi h Hhi).
  (* the bounds in the right order *)
  assert (exists lo' hi', bounds lo' l /\ bounds hi' h /\
    match lo, hi with
    | Some mn, Some mx => '(c, mn, mx) ← xdate_compare mn mx; Some (c <=? 0, Some mn, Some mx)
    | _, _ => Some (true, lo, hi)
    end = Some (true, lo', hi')) as (lo' & hi' & Hlo' & Hhi' & ->).
  { destruct lo as [mn|], l as [a|], hi as [mx|], h as [b|]; try done; try (do 2 eexists; split_and!; [| |reflexivity]; done).
    destruct (compare_ok mn mx a b Hlo Hhi) as (e & e' & -> & H1 & H2). cbn [mbind option_bind].
    specialize (Hab a b eq_refl eq_refl). exists (Some e), (Some e'). split_and!; [done|done|].
    destruct (order_of_cases a b) as [[? ->]|[[? ->]|[? ->]]]; [done|done|lia]. }
  cbn [mbind option_bind negb].
  (* the lower bound *)
  set (n1 := match l with Some a => Z.max n a | None => n end).
  assert (exists d1 lo1, denotes d1 n1 /\ bounds lo1 l /\
    match lo' with
    | Some mn => '(c, date, mn) ← xdate_compare d mn; Some (if c <? 0 then mn else date, Some mn)
    | None => Some (d, None)
    end = Some (d1, lo1)) as (d1 & lo1 & Hd1 & Hlo1 & ->).
  { subst n1. destruct lo' as [mn|], l as [a|]; try done; [|by exists d, None].
    destruct (compare_ok d mn n a Hd Hlo') as (e & e' & -> & H1 & H2). cbn [mbind option_bind].
    destruct (order_of_cases n a) as [[? ->]|[[? ->]|[? ->]]]; cbn [Z.ltb Z.compare]; do 2 eexists;
      (split_and!; [| |reflexivity]); try done; rewrite ?Z.max_r, ?Z.max_l by lia; try done; subst; done. }
  cbn [mbind option_bind].
  destruct hi' as [mx|], h as [b|]; try done; cbn [mbind option_bind]; [|by exists d1, lo1, None].
  destruct (compare_ok mx d1 b n1 Hhi' Hd1) as (e & e' & -> & H1 & H2). cbn [mbind option_bind].
  destruct (order_of_cases b n1) as [[? ->]|[[? ->]|[? ->]]]; cbn [Z.ltb Z.compare]; do 3 eexists;
    (split_and!; [reflexivity| | |]); try done; rewrite ?Z.min_r, ?Z.min_l by lia; try done; subst; done.
Qed.

(** ** Copies *)

Lemma copy_date_ok junk d n :
  denotes d n -> exists e d', xdate_copy junk d = (Some e, d') /\ denotes e n /\ denotes d' n.
Proof.
  intros Hd. unfold xdate_copy. rewrite (denotes_valid d n Hd).
  destruct (get_julian_ok d n Hd) as [E H1]. destruct (xdate_get_julian d) as [j d']. cbn [fst snd] in *. subst j.
  pose proof (denotes_range d n Hd) as Hr. destruct junk as [[a b] c]. unfold xdate_new_julian, xdate_valid_julian.
  rewrite (proj2 (Z.ltb_lt 0 n)) by lia. cbn [negb]. unfold last_day in Hr. rewrite (wrap_small 32 n) by lia.
  do 2 eexists. split_and!; [reflexivity| |done]. by apply denotes_new_julian.
Qed.

Lemma to_struct_tm_ok d n :
  denotes d n ->
  reads (xdate_to_struct_tm d)
    (let c := of_number n in
     Some (Tm (cmday c) (cmonth c - 1) (cyear c - 1900) (weekday n mod 7) (day_of_year c - 1) (-1))) n.
Proof.
  intros Hd. pose proof (denotes_range d n Hd) as [Hr _]. destruct (of_number_ok n Hr) as [Hc _].
  pose proof (day_of_year_bounds _ Hc). pose proof (year_length_bounds (cyear (of_number n))).
  unfold xdate_to_struct_tm. rewrite (denotes_valid d n Hd). cbn [negb].
  destruct (need_dmy_ok d n Hd) as (H1 & -> & H3). cbn [negb].
  destruct (get_weekday_ok _ n H1) as [E2 H2]. destruct (xdate_get_weekday _) as [w d2]. cbn [fst snd] in *. subst w.
  destruct (get_day_of_year_ok _ n H2) as [E3 H4]. destruct (xdate_get_day_of_year _) as [k d3]. cbn [fst snd] in *. subst k.
  split; [|done]. cbn [fst]. unfold fields in H3. rewrite <- H3. cbn [cyear cmonth cmday]. rewrite H3.
  rewrite (wrap_small 32), i32_small by lia. do 2 f_equal.
  unfold weekday. destruct (Z.eqb_spec ((n - 1) mod 7 + 1) 7); zify_div.
Qed.
