(* ===== verification/DateParse.v ===== *)
(** * Reading a date from a text: xdate_set_parse of src/glib/gdate.c

    The names of the months, the order of day, month and year, and how years are
    counted come from the locale: they are parameters, as is the folding of the
    text that the names are looked for in. *)

From S2P Require Import Prelude.
From S2P Require Import Utf8.
From S2P Require Import Date.
Local Open Scope Z_scope.

Inductive GDateDMY := G_DATE_DAY | G_DATE_MONTH | G_DATE_YEAR.

(** [struct _GDateParseTokens]. *)
Record GDateParseTokens := Tokens { num_ints : Z; n0 : Z; n1 : Z; n2 : Z; tmonth : Z }.

Definition NUM_LEN : nat := 10.
Definition twodigit_start_year : Z := 1930.

Section parse.
Context (long_month_names long_month_names_alternative short_month_names short_month_names_alternative : Z -> option (list Z)).
(** [xutf8_normalize (xutf8_casefold (str))]. *)
Context (fold : list Z -> list Z).
Context (dmy_order : Z -> GDateDMY) (using_twodigit_years : bool) (locale_era_adjust : Z).

(** [strstr (haystack, needle) != NULL]. *)
Fixpoint strstr_found (haystack needle : list Z) : bool :=
  bool_decide (take (length needle) haystack = needle) ||
  match haystack with [] => false | _ :: haystack => strstr_found haystack needle end.

(** The longest match so far, and whether there is a better one. *)
Definition update_month_match (longest : Z) (haystack : list Z) (needle : option (list Z)) : Z * bool :=
  match needle with
  | None => (longest, false)
  | Some needle =>
      let length := zlen needle in
      if length <=? longest then (longest, false)
      else if negb (strstr_found haystack needle) then (longest, false)
      else (length, true)
  end.

(** [for (i = 1; i < 13; ++i)]: the four tables in turn. *)
Fixpoint month_loop (n : nat) (i : Z) (normalized : list Z) (longest month : Z) : Z :=
  match n with
  | O => month
  | S n =>
      let '(longest, b) := update_month_match longest normalized (long_month_names i) in
      let month := if b : bool then i else month in
      let '(longest, b) := update_month_match longest normalized (long_month_names_alternative i) in
      let month := if b : bool then i else month in
      let '(longest, b) := update_month_match longest normalized (short_month_names i) in
      let month := if b : bool then i else month in
      let '(longest, b) := update_month_match longest normalized (short_month_names_alternative i) in
      let month := if b : bool then i else month in
      month_loop n (i + 1) normalized longest month
  end.

Definition g_ascii_isdigit (c : Z) : bool := (0x30 <=? c) && (c <=? 0x39).

(** [while ( *s && g_ascii_isdigit ( *s) && i < NUM_LEN)]; the text is its bytes
    before the terminator. *)
Fixpoint take_digits (n : nat) (s : list Z) : list Z * list Z :=
  match n, s with
  | S n, c :: s' => if g_ascii_isdigit c then let '(d, r) := take_digits n s' in (c :: d, r) else ([], s)
  | _, _ => ([], s)
  end.

(** [while ( *s && pt->num_ints < 4)]: the numbers found so far. *)
Fixpoint numbers (fuel : nat) (s : list Z) (num : list (list Z)) : list (list Z) :=
  match fuel with
  | O => num
  | S fuel =>
      match s with
      | [] => num
      | _ :: _ =>
          if 4 <=? zlen num then num
          else
            let '(d, r) := take_digits NUM_LEN s in
            let num := match d with [] => num | _ => num ++ [d] end in
            match r with [] => num | _ :: r => numbers fuel r num end
      end
  end.

(** [atoi] of a string of digits; what does not fit an [int] is cut off. *)
Definition atoi (d : list Z) : Z := i32 (fold_left (fun v c => v * 10 + (c - 0x30)) d 0).

Definition xdate_fill_parse_tokens (str : list Z) : GDateParseTokens :=
  let num := numbers (length str) str [] in
  let ints := zlen num in
  let n i := match num !! i with Some d => atoi d | None => 0 end in
  let month := if ints <? 3 then month_loop 12 1 (fold str) 0 0 else 0 in
  Tokens ints (n 0%nat) (n 1%nat) (n 2%nat) month.

Definition convert_twodigit_year (y : Z) : Z :=
  if using_twodigit_years && (y <? 100) then
    let two := twodigit_start_year `rem` 100 in
    let century := (twodigit_start_year `quot` 100) * 100 in
    let century := if y <? two then century + 100 else century in
    u32 (y + century)
  else y.

(** [pt.n[i]] *)
Definition token (pt : GDateParseTokens) (i : Z) : Z :=
  if i =? 0 then n0 pt else if i =? 1 then n1 pt else n2 pt.

(** [while (i < pt.num_ints && j < 3)] *)
Fixpoint order_loop (fuel : nat) (pt : GDateParseTokens) (i j m day y : Z) : Z * Z * Z :=
  if (i <? num_ints pt) && (j <? 3) then
    match fuel with
    | O => (m, day, y)
    | S fuel =>
        match dmy_order j with
        | G_DATE_MONTH =>
            if (num_ints pt =? 2) && negb (tmonth pt =? 0) then
              order_loop fuel pt i (j + 1) (tmonth pt) day y
            else order_loop fuel pt (i + 1) (j + 1) (u32 (token pt i)) day y
        | G_DATE_DAY =>
            if (num_ints pt =? 2) && (tmonth pt =? 0) then
              order_loop fuel pt i (j + 1) m 1 y
            else order_loop fuel pt (i + 1) (j + 1) m (u32 (token pt i)) y
        | G_DATE_YEAR =>
            let y := u32 (token pt i) in
            let y := if negb (locale_era_adjust =? 0) then u32 (y + locale_era_adjust) else y in
            order_loop fuel pt (i + 1) (j + 1) m day (convert_twodigit_year y)
        end
    end
  else (m, day, y).

(** Month, day and year. The arguments of [xdate_valid_dmy] are narrower. *)
Definition choose_dmy (pt : GDateParseTokens) : Z * Z * Z :=
  if 1 <? num_ints pt then
    let '(m, day, y) := order_loop 3 pt 0 0 0 0 0 in
    if (num_ints pt =? 3) && negb (xdate_valid_dmy (u8 day) m (u16 y)) then
      let y := u32 (n0 pt) in
      let m := u32 (n1 pt) in
      let day := u32 (n2 pt) in
      (m, day, if using_twodigit_years && (y <? 100) then 0 else y)
    else if num_ints pt =? 2 then
      (if (m =? 0) && negb (tmonth pt =? 0) then tmonth pt else m, day, y)
    else (m, day, y)
  else if num_ints pt =? 1 then
    if negb (tmonth pt =? 0) then (tmonth pt, 1, u32 (n0 pt))
    else
      let m := u32 ((n0 pt `quot` 100) `rem` 100) in
      let day := u32 (n0 pt `rem` 100) in
      let y := u32 (n0 pt `quot` 10000) in
      (m, day, convert_twodigit_year y)
  else (0, 0, 0).

Definition xdate_set_parse (d : xdate) (str : list Z) : option xdate :=
  let d := zero_date in
  let str_len := zlen str in
  if 200 <? str_len then Some d
  else
    '(valid, _) ← xutf8_validate_len str 0 str_len;
    if negb valid then Some d
    else
      let pt := xdate_fill_parse_tokens str in
      if num_ints pt =? 4 then Some d
      else
        let '(m, day, y) := choose_dmy pt in
        if (y <? 8000) && xdate_valid_dmy (u8 day) m (u16 y) then
          let d := set_year (set_day (set_month d m) day) y in
          Some (set_flags d (julian d) true)
        else Some d.
End parse.
