(* ===== verification/DateText.v ===== *)
(** * What a date read from a text is *)

From S2P Require Import Prelude.
From S2P Require Import Utf8.
From S2P Require Import Utf8Codec.
From S2P Require Import Utf8Text.
From S2P Require Import Utf8Validate.
From S2P Require Import Date.
From S2P Require Import DateCalendar.
From S2P Require Import DateOps.
From S2P Require Import DateParse.
Local Open Scope Z_scope.

(** ** Texts of plain characters are valid *)

Definition plain (str : list Z) : Prop := Forall (fun b => 0 < b < 0x80) str.

Lemma plain_encs str : plain str -> encs str = str.
Proof.
  induction 1 as [|b l Hb _ IH]; [done|]. rewrite encs_cons, IH, enc_1 by lia. done.
Qed.

Lemma plain_valid str : plain str -> exists p, xutf8_validate_len str 0 (zlen str) = Some (true, p).
Proof.
  intros Hp. destruct (validate_len_ok str 0 (zlen str) str) as (cs & rest & Hv & E).
  - by apply (reads_0 str str []); rewrite app_nil_r.
  - eapply Forall_impl; [exact Hp|]. unfold is_byte. cbn. lia.
  - done.
  - rewrite <- (plain_encs str Hp) in Hv at 1. apply valid_prefix_all in Hv as [_ ->].
    + eexists. rewrite E. done.
    + eapply Forall_impl; [exact Hp|]. intros b Hb. cbn in Hb. unfold text_char, scalar. lia.
Qed.

(** ** Numbers in a text *)

Definition digit (c : Z) : Prop := 0x30 <= c <= 0x39.
(** The value of a string of digits. *)
Definition value (d : list Z) : Z := fold_left (fun v c => v * 10 + (c - 0x30)) d 0.

Lemma isdigit_ok c : g_ascii_isdigit c = true <-> digit c.
Proof. unfold g_ascii_isdigit, digit. rewrite andb_true_iff, !Z.leb_le. done. Qed.

Lemma take_digits_ok n d r :
  Forall digit d -> (length d <= n)%nat -> (match r with c :: _ => ~ digit c | [] => True end) ->
  take_digits n (d ++ r) = (d, r).
Proof.
  revert n. induction d as [|c d IH]; intros n Hd Hn Hr; cbn [app].
  - destruct n as [|n]; [done|]. destruct r as [|c r]; [done|]. cbn [take_digits].
    destruct (g_ascii_isdigit c) eqn:E; [|done]. by apply isdigit_ok in E.
  - destruct n as [|n]; cbn in Hn; [lia|]. apply Forall_cons in Hd as [Hc Hd]. cbn [take_digits].
    rewrite (proj2 (isdigit_ok c)), IH by (done || lia). done.
Qed.

(** A number followed by another character, or by nothing. *)
Lemma numbers_more fuel d c r num :
  Forall digit d -> d <> [] -> (length d <= NUM_LEN)%nat -> ~ digit c -> zlen num < 4 ->
  numbers (S fuel) (d ++ c :: r) num = numbers fuel r (num ++ [d]).
Proof.
  intros Hd Hne Hn Hc Hnum. destruct d as [|x d]; [done|]. cbn [app numbers].
  rewrite (proj2 (Z.leb_gt 4 _)) by done.
  change (x :: d ++ c :: r) with ((x :: d) ++ c :: r). by rewrite (take_digits_ok NUM_LEN (x :: d)).
Qed.
Lemma numbers_last fuel d num :
  Forall digit d -> d <> [] -> (length d <= NUM_LEN)%nat -> zlen num < 4 ->
  numbers (S fuel) d num = num ++ [d].
Proof.
  intros Hd Hne Hn Hnum. destruct d as [|x d]; [done|]. cbn [numbers].
  rewrite (proj2 (Z.leb_gt 4 _)) by done.
  pose proof (take_digits_ok NUM_LEN (x :: d) [] Hd Hn I) as E. rewrite app_nil_r in E. by rewrite E.
Qed.

Section parse.
Context (t1 t2 t3 t4 : Z -> option (list Z)) (fold : list Z -> list Z).
Context (dmy_order : Z -> GDateDMY) (using_twodigit_years : bool) (locale_era_adjust : Z).
Abbreviation set_parse := (xdate_set_parse t1 t2 t3 t4 fold dmy_order using_twodigit_years locale_era_adjust).
Abbreviation convert := (convert_twodigit_year using_twodigit_years).
Abbreviation choose := (choose_dmy dmy_order using_twodigit_years locale_era_adjust).

Lemma convert_nonneg y : 0 <= y -> 0 <= convert y.
Proof.
  intros Hy. unfold convert_twodigit_year. destruct (_ && _); [|done]. apply (wrap_range 32). lia.
Qed.

Lemma u32_nonneg x : 0 <= u32 x.
Proof. apply (wrap_range 32). lia. Qed.

Lemma order_loop_nonneg fuel pt i j m day y :
  0 <= y -> 0 <= snd (order_loop dmy_order using_twodigit_years locale_era_adjust fuel pt i j m day y).
Proof.
  revert i j m day y. induction fuel as [|fuel IH]; intros i j m day y Hy; cbn [order_loop].
  { by destruct (_ && _). }
  destruct ((i <? num_ints pt) && (j <? 3)); [|done]. destruct (dmy_order j).
  - destruct (_ && _); by apply IH.
  - destruct (_ && _); by apply IH.
  - apply IH, convert_nonneg. destruct (negb _); apply u32_nonneg.
Qed.

Lemma choose_nonneg pt : 0 <= snd (choose pt).
Proof.
  unfold choose_dmy. destruct (1 <? num_ints pt).
  - pose proof (order_loop_nonneg 3 pt 0 0 0 0 0 ltac:(lia)) as Hy.
    destruct (order_loop _ _ _ _ _ _ _ _ _) as [[m day] y]. cbn [snd] in *.
    destruct (_ && _); [|by destruct (_ =? 2)]. cbn [snd]. destruct (_ && _); [lia|apply u32_nonneg].
  - destruct (_ =? 1); [|done]. destruct (negb _); cbn [snd]; [apply u32_nonneg|apply convert_nonneg, u32_nonneg].
Qed.

(** What the last check accepts is a day, that of the day number modulo 256. *)
Lemma accepted d m x y :
  0 <= y < 8000 -> xdate_valid_dmy (u8 x) m (u16 y) = true ->
  calendar_day (CDay y m (u8 x)) /\
  set_flags (set_year (set_day (set_month zero_date m) x) y) false d = XDate 0 false d (u8 x) m y.
Proof.
  intros Hy Hv. rewrite (wrap_small 16 y) in Hv by lia. apply valid_dmy_ok in Hv. split; [done|].
  destruct Hv as (_ & Hm & Hd). cbn [cyear cmonth cmday] in *. pose proof (month_length_bounds y m).
  unfold set_flags, set_year, set_day, set_month. cbn [julian_days julian dmy day month year zero_date].
  rewrite (wrap_small 16), (wrap_small 4) by lia. f_equal.
  unfold wrap in *. change (2 ^ 6) with 64. change (2 ^ 8) with 256 in *. zify_div.
Qed.

Lemma set_parse_sound d str :
  Forall is_byte str ->
  exists d', set_parse d str = Some d' /\
    (d' = zero_date \/ exists n, denotes d' n /\ cyear (of_number n) < 8000).
Proof.
  intros Hb. unfold xdate_set_parse. destruct (200 <? zlen str); [eauto|].
  destruct (validate_len_ok str 0 (zlen str) str) as (cs & rest & _ & ->); [|done|done|].
  { by apply (reads_0 str str []); rewrite app_nil_r. }
  cbn [mbind option_bind]. destruct (bool_decide (rest = [])); cbn [negb]; [|eauto].
  destruct (num_ints _ =? 4); [eauto|].
  pose proof (choose_nonneg (xdate_fill_parse_tokens t1 t2 t3 t4 fold str)) as Hy.
  destruct (choose _) as [[m day] y]. cbn [snd] in Hy.
  destruct (Z.ltb_spec y 8000); cbn [andb]; [|eauto].
  destruct (xdate_valid_dmy (u8 day) m (u16 y)) eqn:Hv; [|eauto].
  eexists. split; [reflexivity|]. right.
  destruct (accepted true m day y ltac:(lia) Hv) as [Hc E].
  change (julian (set_year (set_day (set_month zero_date m) day) y)) with false. rewrite E.
  exists (day_number (CDay y m (u8 day))).
  assert (cyear (CDay y m (u8 day)) <= 65535) as Hle by (cbn; lia).
  split; [by apply (denotes_new_dmy 0 (CDay y m (u8 day)))|].
  pose proof (day_number_pos _ Hc) as Hp. destruct (of_number_ok _ Hp) as [Hc' Hn'].
  apply day_number_inj in Hn' as ->; [cbn; lia|done|done].
Qed.

(** ** Three numbers *)

(** The number a field of the date has in the text. *)
Definition part (x m y : Z) (f : GDateDMY) : Z :=
  match f with G_DATE_DAY => x | G_DATE_MONTH => m | G_DATE_YEAR => y end.

(** A number in a text. *)
Definition number (d : list Z) (v : Z) : Prop :=
  Forall digit d /\ d <> [] /\ (length d <= NUM_LEN)%nat /\ value d = v /\ 0 <= v < 2 ^ 31.

Lemma number_plain d v : number d v -> plain d.
Proof. intros (Hd & _). eapply Forall_impl; [exact Hd|]. unfold digit. cbn. lia. Qed.

Lemma fill_three d0 d1 d2 v0 v1 v2 c c' :
  number d0 v0 -> number d1 v1 -> number d2 v2 -> ~ digit c -> ~ digit c' ->
  xdate_fill_parse_tokens t1 t2 t3 t4 fold (d0 ++ c :: d1 ++ c' :: d2) = Tokens 3 v0 v1 v2 0.
Proof.
  intros (A1 & A2 & A3 & <- & A4) (B1 & B2 & B3 & <- & B4) (C1 & C2 & C3 & <- & C4) Hc Hc'.
  unfold xdate_fill_parse_tokens.
  assert (exists f, length (d0 ++ c :: d1 ++ c' :: d2) = S (S (S f))) as [f ->].
  { exists (length d0 + length d1 + length d2 - 1)%nat. rewrite length_app. cbn [length]. rewrite length_app. cbn [length].
    destruct d0; [done|]. cbn [length]. lia. }
  rewrite numbers_more, numbers_more, numbers_last by done. cbn [app].
  change (zlen [d0; d1; d2]) with 3. cbn [Z.ltb Z.compare Pos.compare Pos.compare_cont lookup list_lookup].
  unfold atoi. fold (value d0) (value d1) (value d2). by rewrite !i32_small by lia.
Qed.

Lemma set_parse_three d d0 d1 d2 x m y c c' :
  number d0 (part x m y (dmy_order 0)) -> number d1 (part x m y (dmy_order 1)) ->
  number d2 (part x m y (dmy_order 2)) ->
  dmy_order 0 <> dmy_order 1 -> dmy_order 0 <> dmy_order 2 -> dmy_order 1 <> dmy_order 2 ->
  0 < c < 0x80 -> ~ digit c -> 0 < c' < 0x80 -> ~ digit c' -> locale_era_adjust = 0 ->
  let cd := CDay (convert y) m (u8 x) in
  calendar_day cd -> cyear cd < 8000 ->
  exists d', set_parse d (d0 ++ c :: d1 ++ c' :: d2) = Some d' /\ denotes d' (day_number cd).
Proof.
  intros H0 H1 H2 N1 N2 N3 Hc Hc1 Hc' Hc1' Hera cd Hday Hy.
  unfold xdate_set_parse.
  assert (plain (d0 ++ c :: d1 ++ c' :: d2)) as Hp.
  { apply Forall_app. split; [by eapply number_plain|]. apply Forall_cons. split; [done|].
    apply Forall_app. split; [by eapply number_plain|]. apply Forall_cons. split; [done|]. by eapply number_plain. }
  assert (zlen (d0 ++ c :: d1 ++ c' :: d2) <= 32) as Hlen.
  { destruct H0 as (_ & _ & L0 & _), H1 as (_ & _ & L1 & _), H2 as (_ & _ & L2 & _).
    rewrite zlen_app, zlen_cons, zlen_app, zlen_cons. unfold zlen, NUM_LEN in *. lia. }
  rewrite (proj2 (Z.ltb_ge 200 _)) by lia.
  destruct (plain_valid _ Hp) as [p ->]. cbn [mbind option_bind negb].
  rewrite (fill_three d0 d1 d2 _ _ _ c c' H0 H1 H2 Hc1 Hc1'). cbn [num_ints Z.eqb Pos.eqb].
  pose proof Hday as (Hd1 & Hd2 & Hd3). cbn [cd cyear cmonth cmday] in Hd1, Hd2, Hd3, Hy.
  assert (0 <= x < 2 ^ 31 /\ 0 <= m < 2 ^ 31 /\ 0 <= y < 2 ^ 31) as (Hx & Hm & Hyr).
  { destruct H0 as (_ & _ & _ & _ & V0), H1 as (_ & _ & _ & _ & V1), H2 as (_ & _ & _ & _ & V2).
    destruct (dmy_order 0), (dmy_order 1), (dmy_order 2); try done. }
  assert (order_loop dmy_order using_twodigit_years locale_era_adjust 3
    (Tokens 3 (part x m y (dmy_order 0)) (part x m y (dmy_order 1)) (part x m y (dmy_order 2)) 0) 0 0 0 0 0 = (m, x, convert y)) as Hord.
  { rewrite Hera. cbn [order_loop]. change (0 + 1) with 1. change (1 + 1) with 2. change (2 + 1) with 3.
    cbn [num_ints tmonth Z.ltb Z.compare Pos.compare Pos.compare_cont andb Z.eqb Pos.eqb negb].
    unfold token. cbn [n0 n1 n2 Z.eqb Pos.eqb].
    destruct (dmy_order 0), (dmy_order 1), (dmy_order 2); try done; cbn [part]; by rewrite !wrap_small by lia. }
  assert (xdate_valid_dmy (u8 x) m (u16 (convert y)) = true) as Hv.
  { rewrite (wrap_small 16) by lia. by apply valid_dmy_ok. }
  unfold choose_dmy. cbn [num_ints Z.ltb Z.compare Pos.compare Pos.compare_cont Z.eqb Pos.eqb].
  rewrite Hord, Hv. cbn [andb negb]. rewrite (proj2 (Z.ltb_lt _ 8000)), Hv by done. cbn [andb].
  eexists. split; [reflexivity|].
  destruct (accepted true m x (convert y) ltac:(lia) Hv) as [Hc2 E].
  change (julian (set_year (set_day (set_month zero_date m) x) (convert y))) with false. rewrite E.
  apply (denotes_new_dmy 0 cd); [done|cbn; lia].
Qed.
End parse.
