(* ===== verification/DateCorrect.v ===== *)
(** * What gdate.c promises *)

From S2P Require Import Prelude Date DateCalendar DateOps DateMove DateParse DateText.
Local Open Scope Z_scope.

(** ** The two representations *)

(** The number that a new date of a day answers, and the day that a new date of
    a number answers. *)
Definition julian_of (junk : Z) (c : cday) : option Z :=
  option_map (fun d => fst (xdate_get_julian d)) (xdate_new_dmy junk (cmday c) (cmonth c) (cyear c)).
Definition dmy_of (junk : Z * Z * Z) (n : Z) : option cday :=
  option_map (fun d => CDay (fst (xdate_get_year d)) (fst (xdate_get_month d)) (fst (xdate_get_day d)))
    (xdate_new_julian junk n).

Lemma julian_of_ok junk c :
  calendar_day c -> cyear c <= 65535 -> julian_of junk c = Some (day_number c).
Proof.
  intros Hc Hy. unfold julian_of, xdate_new_dmy. rewrite (proj2 (valid_dmy_ok _ _ _)) by by destruct c.
  cbn [negb option_map]. destruct (calendar_small c Hc Hy) as (H1 & H2 & H3).
  rewrite (wrap_small 6), (wrap_small 4), (wrap_small 16) by done.
  destruct (get_julian_ok _ _ (denotes_new_dmy (wrap 32 junk) c Hc Hy)) as [-> _]. done.
Qed.

Lemma julian_of_none junk c : ~ calendar_day c -> julian_of junk c = None.
Proof.
  intros Hc. unfold julian_of, xdate_new_dmy. destruct (xdate_valid_dmy _ _ _) eqn:E; [|done].
  apply valid_dmy_ok in E. by destruct c.
Qed.

Lemma dmy_of_ok junk n : 1 <= n <= last_day -> dmy_of junk n = Some (of_number n).
Proof.
  intros Hn. unfold dmy_of, xdate_new_julian, xdate_valid_julian. destruct junk as [[a b] e].
  rewrite (proj2 (Z.ltb_lt 0 n)) by lia. cbn [negb option_map]. unfold last_day in Hn.
  rewrite (wrap_small 32 n) by lia.
  pose proof (denotes_new_julian n (wrap 6 a) (wrap 4 b) (wrap 16 e) Hn) as Hd.
  destruct (get_year_ok _ _ Hd) as [-> _], (get_month_ok _ _ Hd) as [-> _], (get_day_ok _ _ Hd) as [-> _].
  by destruct (of_number n).
Qed.

(** C13: up to the end of the year 65535 the two representations are the same
    days. Every number from 1 on is that of one day of the Gregorian calendar
    and leads back to it, and every day has a number that leads back to the day;
    the first of January of the year 1 has number 1, and the day after has the
    next number, across months, years and leap days. What is no day of the
    calendar makes no date. The formulas never wrap around. *)
Theorem date_conversions junk junk' :
  (forall n, 1 <= n <= last_day ->
    exists c, dmy_of junk n = Some c /\ calendar_day c /\ cyear c <= 65535 /\ julian_of junk' c = Some n) /\
  (forall c, calendar_day c -> cyear c <= 65535 ->
    exists n, julian_of junk' c = Some n /\ 1 <= n <= last_day /\ dmy_of junk n = Some c) /\
  julian_of junk' (CDay 1 1 1) = Some 1 /\
  (forall c n, calendar_day c -> cyear (next_day c) <= 65535 -> julian_of junk' c = Some n ->
    julian_of junk' (next_day c) = Some (n + 1)) /\
  (forall c, ~ calendar_day c -> julian_of junk' c = None) /\ dmy_of junk 0 = None.
Proof.
  split_and!.
  - intros n Hn. destruct (of_number_ok n) as [Hc E]; [lia|].
    assert (cyear (of_number n) <= 65535) by (apply last_day_ok; [done|lia]).
    exists (of_number n). rewrite dmy_of_ok, julian_of_ok, E by done. done.
  - intros c Hc Hy. exists (day_number c). pose proof (day_number_pos c Hc).
    pose proof (proj2 (last_day_ok c Hc) Hy). rewrite julian_of_ok, dmy_of_ok by (done || lia).
    split_and!; [done|lia|lia|]. f_equal. destruct (of_number_ok (day_number c)) as [Hc' E]; [lia|].
    by apply day_number_inj.
  - rewrite julian_of_ok; [by rewrite day_number_first| |done]. by apply calendar_january_first.
  - intros c n Hc Hy. destruct (next_day_ok c Hc) as [Hc' E].
    assert (cyear c <= 65535) as Hy'.
    { unfold next_day in Hy. revert Hy. destruct (cmday c <? month_length (cyear c) (cmonth c)), (cmonth c <? 12); cbn [cyear]; lia. }
    rewrite !julian_of_ok by done. rewrite E. by intros [= ->].
  - apply julian_of_none.
  - by destruct junk as [[]].
Qed.

Lemma date_conversions_witness :
  (exists c, dmy_of (9, 9, 9) 738000 = Some c /\ calendar_day c /\ cyear c <= 65535 /\ julian_of 9 c = Some 738000) /\
  julian_of 9 (CDay 1900 3 1) = Some 693655 /\ julian_of 9 (CDay 1900 2 28) = Some 693654 /\
  dmy_of (9, 9, 9) 738000 = Some (CDay 2021 7 29).
Proof.
  split; [|split_and!; reflexivity].
  destruct (date_conversions (9, 9, 9) 9) as [H _]. apply (H 738000). unfold last_day. lia.
Defined.

(** ** Reading *)

(** C24: the functions that read a date answer what the day it denotes is in the
    calendar, whichever representations the date has, and the date denotes the
    same day afterwards: its number, year, month and day of the month, the day
    of the year and of the week, whether it is the first or the last of its
    month, the number of Mondays or of Sundays of its year so far, the ISO week
    (that of its Thursday), and the broken-down time. A year has as many weeks
    as it has Mondays, or Sundays. *)
Theorem date_reads d n :
  denotes d n ->
  let c := of_number n in
  calendar_day c /\ day_number c = n /\ xdate_valid d = true /\
  reads (xdate_get_julian d) n n /\ reads (xdate_get_year d) (cyear c) n /\
  reads (xdate_get_month d) (cmonth c) n /\ reads (xdate_get_day d) (cmday c) n /\
  reads (xdate_get_day_of_year d) (day_of_year c) n /\ reads (xdate_get_weekday d) (weekday n) n /\
  reads (xdate_is_first_of_month d) (cmday c =? 1) n /\
  reads (xdate_is_last_of_month d) (cmday c =? month_length (cyear c) (cmonth c)) n /\
  (let first := january_first n in
   reads (xdate_get_monday_week_of_year d) (count_weekdays 1 first (Z.to_nat (n - first + 1))) n /\
   reads (xdate_get_sunday_week_of_year d) (count_weekdays 7 first (Z.to_nat (n - first + 1))) n /\
   xdate_get_monday_weeks_in_year (cyear c) = count_weekdays 1 first (Z.to_nat (year_length (cyear c))) /\
   xdate_get_sunday_weeks_in_year (cyear c) = count_weekdays 7 first (Z.to_nat (year_length (cyear c)))) /\
  reads (xdate_get_iso8601_week_of_year d) (iso_week n) n /\
  reads (xdate_to_struct_tm d)
    (Some (Tm (cmday c) (cmonth c - 1) (cyear c - 1900) (weekday n mod 7) (day_of_year c - 1) (-1))) n.
Proof.
  intros Hd. cbn zeta. destruct (of_number_ok n (proj1 (denotes_range d n Hd))) as [Hc Hn].
  pose proof (year_range d n Hd) as Hy.
  split_and!; try done.
  - by apply (denotes_valid d n).
  - by apply get_julian_ok.
  - by apply get_year_ok.
  - by apply get_month_ok.
  - by apply get_day_ok.
  - by apply get_day_of_year_ok.
  - by apply get_weekday_ok.
  - by apply is_first_ok.
  - by apply is_last_ok.
  - by apply monday_week_ok.
  - by apply sunday_week_ok.
  - by apply weeks_in_year_ok.
  - by apply weeks_in_year_ok.
  - by apply iso_week_ok.
  - by apply to_struct_tm_ok.
Qed.

(** The 29th of February 2024, a Thursday in the ISO week 9. *)
Definition some_date : xdate := XDate 0 false true 29 2 2024.

Lemma some_date_denotes : denotes some_date 738945.
Proof.
  constructor; cbn [some_date julian dmy julian_days]; [unfold last_day; lia|by right|done|].
  intros _. split; [|reflexivity]. unfold calendar_day. cbn. split; [lia|]. split; [lia|]. vm_compute. by split.
Qed.

Lemma date_reads_witness :
  (let c := of_number 738945 in
  calendar_day c /\ day_number c = 738945 /\ xdate_valid some_date = true /\
  reads (xdate_get_julian some_date) 738945 738945 /\ reads (xdate_get_year some_date) (cyear c) 738945 /\
  reads (xdate_get_month some_date) (cmonth c) 738945 /\ reads (xdate_get_day some_date) (cmday c) 738945 /\
  reads (xdate_get_day_of_year some_date) (day_of_year c) 738945 /\ reads (xdate_get_weekday some_date) (weekday 738945) 738945 /\
  reads (xdate_is_first_of_month some_date) (cmday c =? 1) 738945 /\
  reads (xdate_is_last_of_month some_date) (cmday c =? month_length (cyear c) (cmonth c)) 738945 /\
  (let first := january_first 738945 in
   reads (xdate_get_monday_week_of_year some_date) (count_weekdays 1 first (Z.to_nat (738945 - first + 1))) 738945 /\
   reads (xdate_get_sunday_week_of_year some_date) (count_weekdays 7 first (Z.to_nat (738945 - first + 1))) 738945 /\
   xdate_get_monday_weeks_in_year (cyear c) = count_weekdays 1 first (Z.to_nat (year_length (cyear c))) /\
   xdate_get_sunday_weeks_in_year (cyear c) = count_weekdays 7 first (Z.to_nat (year_length (cyear c)))) /\
  reads (xdate_get_iso8601_week_of_year some_date) (iso_week 738945) 738945 /\
  reads (xdate_to_struct_tm some_date)
    (Some (Tm (cmday c) (cmonth c - 1) (cyear c - 1900) (weekday 738945 mod 7) (day_of_year c - 1) (-1))) 738945) /\
  fst (xdate_get_weekday some_date) = 4 /\ fst (xdate_get_iso8601_week_of_year some_date) = 9 /\
  fst (xdate_is_last_of_month some_date) = true /\ xdate_get_monday_weeks_in_year 2024 = 53.
Proof.
  split; [apply (date_reads some_date 738945), some_date_denotes|split_and!; reflexivity].
Defined.

(** ** Changing and comparing *)

(** C23: the functions that set, move, compare and order dates do to the days
    they denote what they are named after. Setting a field gives the day with that
    field, or a date that is not valid; setting day, month and year, a number, or
    the day of a broken-down time gives that day. Moving by days adds to the
    number; moving by months or years keeps the day of the month, or takes the
    last one of the month; so a move by years from the 29th of February to a year
    without one gives the 28th. A move to before the year 1, or by months or years
    to after the year 65535, leaves the date alone; adding days does so only from
    [2 ^ 32] on, and between the two the date has the number of a day that the
    other representation cannot express. Comparing, the difference, ordering, clamping and
    copying agree with the order of the numbers and leave the days as they are.
    The exception is moving months back from the year 1: the year is checked
    before a month borrows one from it, and the result counts as valid although
    it lies in a year 0. *)
Theorem date_changes d n :
  denotes d n ->
  let c := of_number n in
  (forall m, 1 <= m <= 12 -> sets (xdate_set_month d m) (CDay (cyear c) m (cmday c))) /\
  (forall x, 1 <= x <= 31 -> sets (xdate_set_day d x) (CDay (cyear c) (cmonth c) x)) /\
  (forall y, 1 <= y <= 65535 -> sets (xdate_set_year d y) (CDay y (cmonth c) (cmday c))) /\
  (forall k, 1 <= k <= last_day -> denotes (xdate_set_julian d k) k) /\
  (forall c', cyear c' <= 65535 ->
    (calendar_day c' -> denotes (xdate_set_dmy d (cmday c') (cmonth c') (cyear c')) (day_number c')) /\
    (~ calendar_day c' -> xdate_set_dmy d (cmday c') (cmonth c') (cyear c') = d)) /\
  (forall t, let c' := CDay (tm_year t + 1900) (tm_mon t + 1) (tm_mday t) in
    calendar_day c' -> cyear c' <= 65535 -> denotes (xdate_set_time_t d t) (day_number c')) /\
  (forall k, 0 <= k < 2 ^ 32 ->
    (n + k <= last_day -> denotes (xdate_add_days d k) (n + k)) /\
    (last_day < n + k < 2 ^ 32 ->
      let e := xdate_add_days d k in
      xdate_valid e = true /\ dmy e = false /\ fst (xdate_get_julian e) = n + k) /\
    (2 ^ 32 <= n + k -> denotes (xdate_add_days d k) n) /\
    denotes (xdate_subtract_days d k) (if k <? n then n - k else n) /\
    (let c' := month_later c k in
     denotes (xdate_add_months d k) (if cyear c' <=? 65535 then day_number c' else n)) /\
    (let c' := month_later c (- k) in
     (1 <= cyear c' -> denotes (xdate_subtract_months d k) (day_number c')) /\
     (cyear c <= k / 12 -> denotes (xdate_subtract_months d k) n) /\
     (cyear c' = 0 -> k / 12 < cyear c ->
      xdate_valid (xdate_subtract_months d k) = true /\ dmy (xdate_subtract_months d k) = true /\
      year (xdate_subtract_months d k) = 0)) /\
    (let c' := year_later c k in
     denotes (xdate_add_years d k) (if cyear c' <=? 65535 then day_number c' else n)) /\
    (let c' := year_later c (- k) in
     denotes (xdate_subtract_years d k) (if 1 <=? cyear c' then day_number c' else n))) /\
  (forall d' n', denotes d' n' ->
    (exists e e', xdate_compare d d' = Some (order_of n n', e, e') /\ denotes e n /\ denotes e' n') /\
    (exists e e', xdate_days_between d d' = (n' - n, e, e') /\ denotes e n /\ denotes e' n') /\
    (exists e e', xdate_order d d' = Some (e, e') /\ denotes e (Z.min n n') /\ denotes e' (Z.max n n'))) /\
  xdate_compare d d = Some (0, d, d) /\
  (forall lo hi l h, bounds lo l -> bounds hi h -> (forall a b, l = Some a -> h = Some b -> a <= b) ->
    exists d' lo' hi', xdate_clamp d lo hi = Some (d', lo', hi') /\
      denotes d' (let n := match l with Some a => Z.max n a | None => n end in
                  match h with Some b => Z.min n b | None => n end) /\
      bounds lo' l /\ bounds hi' h) /\
  (forall junk, exists e d', xdate_copy junk d = (Some e, d') /\ denotes e n /\ denotes d' n).
Proof.
  intros Hd. cbn zeta. repeat apply conj.
  - intros. by apply set_month_ok.
  - intros. by apply set_day_ok.
  - intros. by apply set_year_ok.
  - intros. by apply set_julian_ok.
  - intros c' Hy. split; [intros Hc; by apply set_dmy_ok|apply set_dmy_invalid].
  - intros. by apply set_time_t_ok.
  - intros k Hk. destruct (add_days_ok d n k Hd Hk) as (? & ? & ?). pose proof (subtract_days_ok d n k Hd ltac:(lia)).
    pose proof (add_months_ok d n k Hd Hk). pose proof (subtract_months_ok d n k Hd Hk).
    pose proof (add_years_ok d n k Hd Hk). pose proof (subtract_years_ok d n k Hd Hk). cbn zeta in *. tauto.
  - intros d' n' Hd'. split_and!; [by apply compare_ok|by apply days_between_ok|by apply order_ok].
  - by apply (compare_self d n).
  - intros. by apply clamp_ok.
  - intros. by apply copy_date_ok.
Qed.

Definition first_date : xdate := XDate 1 true false 0 0 0.

Lemma first_date_denotes : denotes first_date 1.
Proof. constructor; cbn [first_date julian dmy julian_days]; [unfold last_day; lia|by left|done|done]. Qed.

Lemma date_changes_witness :
  (forall m, 1 <= m <= 12 -> sets (xdate_set_month some_date m)
    (CDay (cyear (of_number 738945)) m (cmday (of_number 738945)))) /\
  denotes (xdate_add_years some_date 1) (day_number (CDay 2025 2 28)) /\
  denotes (xdate_add_months some_date 13) (day_number (CDay 2025 3 29)) /\
  (xdate_valid (xdate_subtract_months first_date 1) = true /\ dmy (xdate_subtract_months first_date 1) = true /\
   year (xdate_subtract_months first_date 1) = 0) /\
  fst (xdate_get_julian (xdate_subtract_months first_date 1)) = 0.
Proof.
  destruct (date_changes some_date 738945 some_date_denotes) as (H1 & _ & _ & _ & _ & _ & H2 & _).
  destruct (date_changes first_date 1 first_date_denotes) as (_ & _ & _ & _ & _ & _ & H3 & _).
  refine (conj H1 (conj _ (conj _ (conj _ eq_refl)))).
  - destruct (H2 1 ltac:(lia)) as (_ & _ & _ & _ & _ & _ & H & _). exact H.
  - destruct (H2 13 ltac:(lia)) as (_ & _ & _ & _ & H & _). exact H.
  - destruct (H3 1 ltac:(lia)) as (_ & _ & _ & _ & _ & H & _). apply H; reflexivity.
Defined.

(** ** Reading a text *)

(** C25: whatever the text and the locale, [xdate_set_parse] ends, reads nothing
    outside the text, and leaves either the cleared date or a day of the
    calendar before the year 8000. Three numbers with a character between them
    are read in the order of the locale and give that day (a year below 100
    being completed where the locale asks for it). The number of the day is
    checked modulo 256 only, so that 257 passes for 1. *)
Theorem date_parse t1 t2 t3 t4 fold dmy_order twodigit era :
  let set_parse := xdate_set_parse t1 t2 t3 t4 fold dmy_order twodigit era in
  (forall d str, Forall is_byte str ->
    exists d', set_parse d str = Some d' /\
      (d' = zero_date \/ exists n, denotes d' n /\ cyear (of_number n) < 8000)) /\
  (forall d d0 d1 d2 x m y c c',
    number d0 (part x m y (dmy_order 0)) -> number d1 (part x m y (dmy_order 1)) ->
    number d2 (part x m y (dmy_order 2)) ->
    dmy_order 0 <> dmy_order 1 -> dmy_order 0 <> dmy_order 2 -> dmy_order 1 <> dmy_order 2 ->
    0 < c < 0x80 -> ~ digit c -> 0 < c' < 0x80 -> ~ digit c' -> era = 0 ->
    let day := CDay (convert_twodigit_year twodigit y) m (u8 x) in
    calendar_day day -> cyear day < 8000 ->
    exists d', set_parse d (d0 ++ c :: d1 ++ c' :: d2) = Some d' /\ denotes d' (day_number day)).
Proof.
  cbn zeta. split.
  - intros. by apply set_parse_sound.
  - intros. by apply (set_parse_three t1 t2 t3 t4 fold dmy_order twodigit era d d0 d1 d2 x m y c c').
Qed.

(** Month, day and year: 3/260/2001 passes for the fourth of March. *)
Definition american (j : Z) : GDateDMY :=
  if j =? 0 then G_DATE_MONTH else if j =? 1 then G_DATE_DAY else G_DATE_YEAR.

Lemma date_parse_witness :
  (exists d', xdate_set_parse (fun _ => None) (fun _ => None) (fun _ => None) (fun _ => None) (fun s => s) american false 0
      zero_date (ascii_bytes "3" ++ 0x2f :: ascii_bytes "260" ++ 0x2f :: ascii_bytes "2001") = Some d' /\
    denotes d' (day_number (CDay 2001 3 4))) /\
  xdate_set_parse (fun _ => None) (fun _ => None) (fun _ => None) (fun _ => None) (fun s => s) american false 0
      zero_date (ascii_bytes "2/30/2001") = Some zero_date.
Proof.
  split; [|reflexivity].
  apply (proj2 (date_parse (fun _ => None) (fun _ => None) (fun _ => None) (fun _ => None) (fun s => s) american false 0)
    zero_date (ascii_bytes "3") (ascii_bytes "260") (ascii_bytes "2001") 260 3 2001 0x2f 0x2f);
    try done; try lia.
  1-3: split; [repeat constructor; vm_compute; by intros|split; [done|split; [vm_compute; lia|split; [reflexivity|cbn; lia]]]].
  all: unfold digit; lia.
Defined.
