(* ===== verification/Digest.v ===== *)
(** * The message digests, as their standards define them

    The reference that src/glib/gchecksum.c is compared with: MD5 (RFC 1321),
    SHA-1, SHA-256, SHA-384 and SHA-512 (FIPS 180-4) and HMAC (RFC 2104). A
    message is a list of bytes; it is padded as a whole, cut into blocks, and
    the blocks are folded with a compression function whose rounds are written
    one after the other over an index. The constants are not listed: they are
    computed from what the standards say they are, the binary digits of sines
    and of roots of primes. *)

From S2P Require Import Prelude.
Local Open Scope Z_scope.
Local Open Scope xpl_scope.

(** ** Words and bytes *)

Definition be_bytes (n : nat) (x : Z) : list Z := reverse (le_bytes n x).
Definition be_value (bytes : list Z) : Z := le_value (reverse bytes).

(** A block as words of [n] bytes. *)
Fixpoint words (value : list Z -> Z) (n count : nat) (block : list Z) : list Z :=
  match count with
  | O => []
  | S count => value (take n block) :: words value n count (drop n block)
  end.

Definition rotl (w n x : Z) : Z := wrap w (x << n) or (x >> (w - n)).
Definition rotr (w n x : Z) : Z := (x >> n) or wrap w (x << (w - n)).

Definition choose (x y z : Z) : Z := (x & y) xor (Z.lnot x & z).
Definition majority (x y z : Z) : Z := (x & y) xor (x & z) xor (y & z).
Definition parity (x y z : Z) : Z := x xor y xor z.

(** ** Constants *)

(** The largest [r] below [2 ^ bits] with [r ^ k <= x]. *)
Fixpoint root (k : Z) (x : Z) (bits : nat) (r : Z) : Z :=
  match bits with
  | O => r
  | S bits =>
      let r' := r + 2 ^ Z.of_nat bits in
      root k x bits (if r' ^ k <=? x then r' else r)
  end.

Definition is_prime (p : Z) : bool := forallb (fun d => negb (p mod d =? 0)) (seqZ 2 (p - 2)).
Definition primes : list Z := Eval vm_compute in
  filter (fun p => is_prime p = true) (seqZ 2 500).

(** The first [w] bits of the fractional part of the [k]-th root of the [i]-th prime. *)
Definition root_digits (w k : Z) (i : nat) : Z :=
  match primes !! i with
  | Some p => root k (p * 2 ^ (k * w)) (Z.to_nat (w + 10)) 0 mod 2 ^ w
  | None => 0
  end.

(** [sin i], scaled by [2 ^ 256]: two hundred and sixty terms of its power
    series. *)
Fixpoint sine_terms (n : nat) (i term m : Z) : Z :=
  match n with
  | O => 0
  | S n => term + sine_terms n i (- (term * i * i / ((m + 1) * (m + 2)))) (m + 2)
  end.
Definition scaled_sine (i : Z) : Z := sine_terms 260 i (i * 2 ^ 256) 1.

Definition sine_digits (i : nat) : Z := Z.abs (scaled_sine (Z.of_nat i + 1)) / 2 ^ 224.

(** The tables, evaluated once. *)
Definition md5_constants : list Z := Eval vm_compute in map sine_digits (seq 0 64).
Definition sha256_constants : list Z := Eval vm_compute in map (root_digits 32 3) (seq 0 64).
Definition sha512_constants : list Z := Eval vm_compute in map (root_digits 64 3) (seq 0 80).

(** ** Padding and blocks *)

Section blocks.
Context {H : Type} (block : nat) (compress : H -> list Z -> H).

Fixpoint fold_blocks (n : nat) (h : H) (message : list Z) : H :=
  match n with
  | O => h
  | S n => fold_blocks n (compress h (take block message)) (drop block message)
  end.

(** All the complete blocks of a message, and what is left. *)
Definition absorb (h : H) (message : list Z) : H :=
  fold_blocks (length message / block) h message.

Definition rest (message : list Z) : list Z :=
  drop (length message / block * block) message.
End blocks.

(** One 1 bit, zeros, and a length that ends a block: [size] bytes hold it. *)
Definition pad (block size : Z) (length_bytes : Z -> list Z) (message : list Z) : list Z :=
  message ++ [0x80] ++ replicate (Z.to_nat ((- (zlen message + 1 + size)) mod block)) 0 ++
  length_bytes (8 * zlen message).

Definition add_words (w : Z) : list Z -> list Z -> list Z := zip_with (fun x y => wrap w (x + y)).

(** ** MD5 *)

Definition md5_function (i : nat) : Z -> Z -> Z -> Z :=
  match (i / 16)%nat with
  | O => choose
  | 1%nat => fun x y z => choose z x y
  | 2%nat => parity
  | _ => fun x y z => y xor (x or u32 (Z.lnot z))
  end.

Definition md5_word (i : nat) : nat :=
  match (i / 16)%nat with
  | O => i | 1%nat => 5 * i + 1 | 2%nat => 3 * i + 5 | _ => 7 * i
  end%nat mod 16.

Definition md5_shift (i : nat) : Z :=
  tbl [7; 12; 17; 22; 5; 9; 14; 20; 4; 11; 16; 23; 6; 10; 15; 21]
      (Z.of_nat (i / 16 * 4 + i mod 4)).

Definition md5_round (x : list Z) (h : list Z) (i : nat) : list Z :=
  match h with
  | [a; b; c; d] =>
      let sum := u32 (a + md5_function i b c d + nth (md5_word i) x 0 + nth i md5_constants 0) in
      [d; u32 (b + rotl 32 (md5_shift i) sum); b; c]
  | _ => h
  end.

Definition md5_compress (h block : list Z) : list Z :=
  add_words 32 h (fold_left (md5_round (words le_value 4 16 block)) (seq 0 64) h).

Definition md5_initial : list Z := [0x67452301; 0xefcdab89; 0x98badcfe; 0x10325476].

Definition md5 (message : list Z) : list Z :=
  mjoin (map (le_bytes 4) (absorb 64 md5_compress md5_initial (pad 64 8 (le_bytes 8) message))).

(** ** SHA-1 *)

(** A message schedule: the words of the block, continued by a recurrence on
    the words before. *)
Fixpoint schedule (next : (nat -> Z) -> Z) (n : nat) (w : list Z) : list Z :=
  match n with
  | O => w
  | S n =>
      schedule next n (w ++ [next (fun back => nth (length w - back) w 0)])
  end.

Definition sha1_function (i : nat) : Z -> Z -> Z -> Z :=
  match (i / 20)%nat with O => choose | 2%nat => majority | _ => parity end.

Definition sha1_constant (i : nat) : Z :=
  tbl [0x5a827999; 0x6ed9eba1; 0x8f1bbcdc; 0xca62c1d6] (Z.of_nat (i / 20)).

Definition sha1_next (w : nat -> Z) : Z :=
  rotl 32 1 (w 3%nat xor w 8%nat xor w 14%nat xor w 16%nat).

Definition sha1_round (w : list Z) (h : list Z) (i : nat) : list Z :=
  match h with
  | [a; b; c; d; e] =>
      let t := u32 (rotl 32 5 a + sha1_function i b c d + e + sha1_constant i + nth i w 0) in
      [t; a; rotl 32 30 b; c; d]
  | _ => h
  end.

Definition sha1_compress (h block : list Z) : list Z :=
  let w := schedule sha1_next 64 (words be_value 4 16 block) in
  add_words 32 h (fold_left (sha1_round w) (seq 0 80) h).

Definition sha1_initial : list Z := [0x67452301; 0xefcdab89; 0x98badcfe; 0x10325476; 0xc3d2e1f0].

Definition sha1 (message : list Z) : list Z :=
  mjoin (map (be_bytes 4) (absorb 64 sha1_compress sha1_initial (pad 64 8 (be_bytes 8) message))).

(** ** The SHA-2 family *)

Section sha2.
Context (w : Z) (S0 S1 s0 s1 : Z -> Z) (K : list Z).

Definition sha2_next (x : nat -> Z) : Z :=
  wrap w (s1 (x 2%nat) + x 7%nat + s0 (x 15%nat) + x 16%nat).

Definition sha2_round (x : list Z) (hash : list Z) (i : nat) : list Z :=
  match hash with
  | [a; b; c; d; e; f; g; h] =>
      let t1 := h + S1 e + choose e f g + nth i K 0 + nth i x 0 in
      let t2 := S0 a + majority a b c in
      [wrap w (t1 + t2); a; b; c; wrap w (d + t1); e; f; g]
  | _ => hash
  end.

Definition sha2_compress (rounds bytes : nat) (h block : list Z) : list Z :=
  let x := schedule sha2_next (rounds - 16) (words be_value bytes 16 block) in
  add_words w h (fold_left (sha2_round x) (seq 0 rounds) h).
End sha2.

Definition sha256_compress : list Z -> list Z -> list Z :=
  sha2_compress 32
    (fun x => rotr 32 2 x xor rotr 32 13 x xor rotr 32 22 x)
    (fun x => rotr 32 6 x xor rotr 32 11 x xor rotr 32 25 x)
    (fun x => rotr 32 7 x xor rotr 32 18 x xor (x >> 3))
    (fun x => rotr 32 17 x xor rotr 32 19 x xor (x >> 10))
    sha256_constants 64 4.

Definition sha512_compress : list Z -> list Z -> list Z :=
  sha2_compress 64
    (fun x => rotr 64 28 x xor rotr 64 34 x xor rotr 64 39 x)
    (fun x => rotr 64 14 x xor rotr 64 18 x xor rotr 64 41 x)
    (fun x => rotr 64 1 x xor rotr 64 8 x xor (x >> 7))
    (fun x => rotr 64 19 x xor rotr 64 61 x xor (x >> 6))
    sha512_constants 80 8.

(** The initial values: square roots of the first eight primes, or of the next eight. *)
Definition sha256_initial : list Z := Eval vm_compute in map (root_digits 32 2) (seq 0 8).
Definition sha512_initial : list Z := Eval vm_compute in map (root_digits 64 2) (seq 0 8).
Definition sha384_initial : list Z := Eval vm_compute in map (root_digits 64 2) (seq 8 8).

Definition sha256 (message : list Z) : list Z :=
  mjoin (map (be_bytes 4) (absorb 64 sha256_compress sha256_initial (pad 64 8 (be_bytes 8) message))).

Definition sha512_of (initial : list Z) (message : list Z) : list Z :=
  mjoin (map (be_bytes 8) (absorb 128 sha512_compress initial (pad 128 16 (be_bytes 16) message))).
Definition sha512 : list Z -> list Z := sha512_of sha512_initial.
Definition sha384 (message : list Z) : list Z := take 48 (sha512_of sha384_initial message).

(** ** HMAC *)

Definition hmac (block : nat) (hash : list Z -> list Z) (key message : list Z) : list Z :=
  let key := if (block <? length key)%nat then hash key else key in
  let key := key ++ replicate (block - length key) 0 in
  hash (map (Z.lxor 0x5c) key ++ hash (map (Z.lxor 0x36) key ++ message)).

(** ** The standards' own examples *)

Definition hex_of (bytes : list Z) : Z := be_value bytes.

Example md5_abc : hex_of (md5 (ascii_bytes "abc")) = 0x900150983cd24fb0d6963f7d28e17f72.
Proof. vm_compute. reflexivity. Qed.
Example sha1_abc : hex_of (sha1 (ascii_bytes "abc")) = 0xa9993e364706816aba3e25717850c26c9cd0d89d.
Proof. vm_compute. reflexivity. Qed.
Example sha256_abc : hex_of (sha256 (ascii_bytes "abc")) =
  0xba7816bf8f01cfea414140de5dae2223b00361a396177a9cb410ff61f20015ad.
Proof. vm_compute. reflexivity. Qed.
Example sha512_abc : hex_of (sha512 (ascii_bytes "abc")) =
  0xddaf35a193617abacc417349ae20413112e6fa4e89a97ea20a9eeee64b55d39a2192992a274fc1a836ba3c23a3feebbd454d4423643ce80e2a9ac94fa54ca49f.
Proof. vm_compute. reflexivity. Qed.
Example sha384_abc : hex_of (sha384 (ascii_bytes "abc")) =
  0xcb00753f45a35e8bb5a03d699ac65007272c32ab0eded1631a8b605a43ff5bed8086072ba1e7cc2358baeca134c825a7.
Proof. vm_compute. reflexivity. Qed.
Example hmac_md5_jefe :
  hex_of (hmac 64 md5 (ascii_bytes "Jefe") (ascii_bytes "what do ya want for nothing?")) =
  0x750c783e6ab0b503eaa86e310a5db738.
Proof. vm_compute. reflexivity. Qed.
