(* ===== verification/DigestBlocks.v ===== *)
(** * Folding a message block by block

    A digest is computed while the message arrives: the complete blocks are
    absorbed, the rest waits in a buffer. These lemmas, for any block size and
    any compression function, say that the state reached does not depend on how
    the message was cut. *)

From S2P Require Import Prelude Digest.

Section absorb.
Context {H : Type} (block : nat) (compress : H -> list Z -> H).
Context (Hblock : 0 < block).
Implicit Types (l d : list Z) (h : H).

Lemma absorb_short h l : length l < block -> absorb block compress h l = h.
Proof. intros. unfold absorb. by rewrite Nat.div_small. Qed.

Lemma absorb_cons h b l :
  length b = block -> absorb block compress h (b ++ l) = absorb block compress (compress h b) l.
Proof.
  intros Hb. unfold absorb. rewrite length_app, Hb.
  replace (block + length l) with (length l + 1 * block) by lia.
  rewrite Nat.div_add, Nat.add_1_r by lia. cbn [fold_blocks].
  by rewrite take_app_length', drop_app_length' by done.
Qed.

Lemma absorb_one h b : length b = block -> absorb block compress h b = compress h b.
Proof. intros. rewrite <- (app_nil_r b) at 1. rewrite absorb_cons by done. by apply absorb_short. Qed.

Lemma fold_blocks_app n h l d :
  length l = n * block ->
  absorb block compress h (l ++ d) = absorb block compress (fold_blocks block compress n h l) d.
Proof.
  revert h l. induction n as [|n IH]; intros h l Hl; cbn [fold_blocks].
  - by rewrite (nil_length_inv l) by lia.
  - rewrite <- (take_drop block l) at 1. rewrite <- app_assoc, absorb_cons
      by (rewrite length_take; lia).
    apply IH. rewrite length_drop. lia.
Qed.

(** What the compression function keeps holds of the chaining value. *)
Lemma absorb_invariant (P : H -> Prop) h l :
  P h -> (forall h b, P h -> length b = block -> P (compress h b)) -> P (absorb block compress h l).
Proof.
  intros Hh Hc. unfold absorb.
  assert (length l / block * block <= length l) as Hl.
  { rewrite Nat.mul_comm. by apply Nat.Div0.mul_div_le. }
  revert Hl. generalize (length l / block). intros n. revert h l Hh.
  induction n as [|n IH]; intros h l Hh Hl; cbn [fold_blocks]; [done|].
  apply IH; [|rewrite length_drop; lia]. apply Hc; [done|]. rewrite length_take. lia.
Qed.

Lemma rest_short l : length l < block -> rest block l = l.
Proof. intros. unfold rest. by rewrite Nat.div_small. Qed.

Lemma length_rest l : length (rest block l) = length l mod block.
Proof. unfold rest. rewrite length_drop, Nat.Div0.mod_eq by lia. lia. Qed.

Lemma rest_lt l : length (rest block l) < block.
Proof. rewrite length_rest. apply Nat.mod_upper_bound. lia. Qed.

(** The complete blocks of a message, then the rest. *)
Lemma absorb_take h l :
  absorb block compress h l =
  fold_blocks block compress (length l / block) h (take (length l / block * block) l).
Proof.
  assert (forall n h l, n * block <= length l ->
    fold_blocks block compress n h l = fold_blocks block compress n h (take (n * block) l)) as E.
  { clear h l. induction n as [|n IH]; intros h l Hl; cbn [fold_blocks]; [done|].
    rewrite IH by (rewrite length_drop; lia).
    rewrite take_take, Nat.min_l by lia. f_equal.
    rewrite skipn_firstn_comm. by replace (S n * block - block) with (n * block) by lia. }
  apply E. rewrite Nat.mul_comm. by apply Nat.Div0.mul_div_le.
Qed.

Lemma absorb_app h l d :
  absorb block compress h (l ++ d) =
  absorb block compress (absorb block compress h l) (rest block l ++ d).
Proof.
  rewrite (absorb_take h l). set (n := length l / block).
  rewrite <- (take_drop (n * block) l) at 1. rewrite <- app_assoc.
  apply fold_blocks_app. rewrite length_take. subst n.
  pose proof (Nat.Div0.mul_div_le (length l) block). lia.
Qed.

Lemma rest_app l d : rest block (l ++ d) = rest block (rest block l ++ d).
Proof.
  unfold rest at 1 2. pose proof (length_rest l) as Hr.
  pose proof (Nat.div_mod_eq (length l) block) as E. set (n := length l / block) in *.
  rewrite (length_app l), (length_app (rest block l)), Hr.
  replace (length l + length d) with (length l mod block + length d + n * block) by lia.
  rewrite Nat.div_add by lia. set (m := (length l mod block + length d) / block).
  rewrite Nat.mul_add_distr_r, Nat.add_comm, <- drop_drop. f_equal.
  rewrite drop_app_le by lia. done.
Qed.

(** A block that was started is completed. *)
Lemma absorb_complete h l d :
  length (rest block l) + length d = block ->
  absorb block compress h (l ++ d) = compress (absorb block compress h l) (rest block l ++ d).
Proof. intros. rewrite absorb_app. apply absorb_one. by rewrite length_app. Qed.

Lemma rest_complete l d : length (rest block l) + length d = block -> rest block (l ++ d) = [].
Proof.
  intros. apply nil_length_inv. rewrite rest_app, length_rest, length_app.
  replace (_ + _) with block by done. by apply Nat.Div0.mod_same.
Qed.

(** Bytes that do not complete it. *)
Lemma absorb_wait h l d :
  length (rest block l) + length d < block ->
  absorb block compress h (l ++ d) = absorb block compress h l.
Proof. intros. rewrite absorb_app. apply absorb_short. by rewrite length_app. Qed.

Lemma rest_wait l d :
  length (rest block l) + length d < block -> rest block (l ++ d) = rest block l ++ d.
Proof. intros. rewrite rest_app. apply rest_short. by rewrite length_app. Qed.
End absorb.

(** ** The buffer *)

(** The buffer starts with the bytes that wait. *)
Definition buffered (block : nat) (data message : list Z) : Prop :=
  length data = block /\ take (length (rest block message)) data = rest block message.

Section buffer.
Context (block : nat) (Hblock : 0 < block).
Implicit Types (data message d : list Z).

Lemma buffered_start data : length data = block -> buffered block data [].
Proof. intros. split; [done|]. by rewrite rest_short. Qed.

Lemma buffered_at data message d :
  buffered block data message -> length (rest block message) + length d <= block ->
  write_at data (zlen (rest block message)) d =
  Some (rest block message ++ d ++ drop (length (rest block message) + length d) data).
Proof.
  intros [Hl Ht] Hd. set (r := rest block message) in *.
  rewrite <- (take_drop (length r) data) at 1. rewrite Ht, write_at_app.
  - by rewrite drop_drop.
  - rewrite length_drop. lia.
Qed.

Lemma buffered_wait data message d :
  length data = block -> length (rest block message) + length d < block ->
  buffered block (rest block message ++ d ++ drop (length (rest block message) + length d) data)
    (message ++ d).
Proof.
  intros Hl Hd. split; [rewrite !length_app, length_drop; lia|].
  rewrite rest_wait by done. rewrite app_assoc. by apply take_app_length.
Qed.

Lemma buffered_aligned data message :
  length data = block -> rest block message = [] -> buffered block data message.
Proof. intros Hl Hr. split; [done|]. by rewrite Hr. Qed.
End buffer.

(** ** Padding *)

Section padding.
Context {H : Type} (block size : nat) (compress : H -> list Z -> H).
Context (Hblock : 0 < block) (Hsize : size <= block).
Context (length_bytes : Z -> list Z) (Hbytes : forall x, length (length_bytes x) = size).
Implicit Types (h : H) (message : list Z).

Local Abbreviation padding := (pad (Z.of_nat block) (Z.of_nat size) length_bytes).

Lemma pad_zeros message (r := length (rest block message)) :
  Z.to_nat ((- (zlen message + 1 + Z.of_nat size)) mod Z.of_nat block) =
  if r + 1 + size <=? block then block - 1 - size - r else block - 1 - r + (block - size).
Proof.
  subst r. pose proof (rest_lt block Hblock message) as Hr. rewrite length_rest in * by done.
  pose proof (Nat.div_mod_eq (length message) block) as E. unfold zlen. rewrite E at 1.
  set (r := length message mod block) in *. set (q := length message / block) in *.
  rewrite Nat2Z.inj_add, Nat2Z.inj_mul.
  assert (forall k j : Z, 0 <= k < Z.of_nat block ->
    - (Z.of_nat block * Z.of_nat q + Z.of_nat r + 1 + Z.of_nat size) = k + j * Z.of_nat block ->
    (- (Z.of_nat block * Z.of_nat q + Z.of_nat r + 1 + Z.of_nat size)) mod Z.of_nat block = k)%Z as Hmod.
  { intros k j Hk ->. rewrite Z.mod_add by lia. by apply Z.mod_small. }
  destruct (Nat.leb_spec (r + 1 + size) block).
  - rewrite (Hmod (Z.of_nat block - 1 - Z.of_nat size - Z.of_nat r) (- Z.of_nat q - 1))%Z; lia.
  - rewrite (Hmod (2 * Z.of_nat block - 1 - Z.of_nat size - Z.of_nat r) (- Z.of_nat q - 2))%Z; lia.
Qed.

(** The padding fits in the block that was started. *)
Lemma absorb_pad_one h message (r := rest block message) :
  length r + 1 + size <= block ->
  absorb block compress h (padding message) =
  compress (absorb block compress h message)
    (r ++ 0x80%Z :: replicate (block - 1 - size - length r) 0%Z ++ length_bytes (8 * zlen message)).
Proof.
  intros Hr. subst r. unfold pad. rewrite pad_zeros, (proj2 (Nat.leb_le _ _)) by lia.
  rewrite absorb_complete; [done|done|].
  autorewrite with xpl. cbn [length]. rewrite Hbytes. lia.
Qed.

(** It does not: zeros fill the block, and another one ends with the length. *)
Lemma absorb_pad_two h message (r := rest block message) :
  block < length r + 1 + size ->
  absorb block compress h (padding message) =
  compress
    (compress (absorb block compress h message) (r ++ 0x80%Z :: replicate (block - 1 - length r) 0%Z))
    (replicate (block - size) 0%Z ++ length_bytes (8 * zlen message)).
Proof.
  intros Hr. subst r. pose proof (rest_lt block Hblock message).
  unfold pad. rewrite pad_zeros, (proj2 (Nat.leb_gt _ _)) by lia.
  rewrite replicate_add, <- (app_assoc (replicate _ _)), !app_assoc, <- (app_assoc message).
  rewrite <- app_assoc. rewrite absorb_app by done.
  assert (length (rest block message) +
    length ([0x80%Z] ++ replicate (block - 1 - length (rest block message)) 0%Z) = block) as E.
  { autorewrite with xpl. cbn [length]. lia. }
  rewrite (absorb_complete _ _ Hblock h message _ E), (rest_complete _ Hblock _ _ E). cbn [app].
  apply absorb_one; [done|]. autorewrite with xpl. rewrite Hbytes. lia.
Qed.
End padding.

(** ** Message schedules *)

Section schedule.
Context (next : (nat -> Z) -> Z).
Context (Hnext : forall f g, (forall k, 0 < k -> f k = g k) -> next f = next g).
Implicit Types w : list Z.

Lemma schedule_length n w : length (schedule next n w) = length w + n.
Proof.
  revert w. induction n as [|n IH]; intros w; cbn [schedule]; [lia|].
  rewrite IH, length_app. cbn [length]. lia.
Qed.

Lemma schedule_prefix n w : exists w', schedule next n w = w ++ w'.
Proof.
  revert w. induction n as [|n IH]; intros w; cbn [schedule].
  - exists []. by rewrite app_nil_r.
  - destruct (IH (w ++ [next (fun k => nth (length w - k) w 0%Z)])) as [w' ->].
    rewrite <- app_assoc. by eexists.
Qed.

Lemma schedule_block n w i : i < length w -> nth i (schedule next n w) 0%Z = nth i w 0%Z.
Proof. intros. destruct (schedule_prefix n w) as [w' ->]. by apply app_nth1. Qed.

(** The recurrence. *)
Lemma schedule_next n w i :
  0 < length w -> length w <= i -> i < length w + n ->
  nth i (schedule next n w) 0%Z = next (fun k => nth (i - k) (schedule next n w) 0%Z).
Proof.
  revert w. induction n as [|n IH]; intros w Hw Hi Hn; cbn [schedule]; [lia|].
  set (x := next (fun k => nth (length w - k) w 0%Z)).
  destruct (Nat.eq_dec i (length w)) as [->|Hne].
  - destruct (schedule_prefix n (w ++ [x])) as [w' ->].
    rewrite <- app_assoc, app_nth2, Nat.sub_diag by lia. cbn [nth app]. subst x.
    apply Hnext. intros k Hk. symmetry. apply app_nth1. lia.
  - apply IH; rewrite length_app; cbn [length]; lia.
Qed.

(** A property of words that the recurrence keeps. *)
Lemma schedule_forall (P : Z -> Prop) n w :
  P 0%Z -> (forall f, (forall k, P (f k)) -> P (next f)) -> Forall P w -> Forall P (schedule next n w).
Proof.
  intros H0 Hstep. revert w. induction n as [|n IH]; intros w Hw; cbn [schedule]; [done|].
  apply IH, Forall_app. split; [done|]. constructor; [|done]. apply Hstep. intros k.
  rewrite nth_lookup. destruct (w !! _) as [y|] eqn:E; cbn; [|done].
  by eapply Forall_lookup_1.
Qed.
End schedule.
