(* ===== verification/ChecksumBase.v ===== *)
(** * What the four digests of src/glib/gchecksum.c share

    The rendering of a digest, the statements of the transforms, and the lemmas
    on them. A macro of a transform assigns to local variables of the function:
    it is a function from the values of these variables to their new values,
    the variables being numbered in the order of their declaration. Then the
    sums that buffer 64-byte blocks, and the words of the SHA-2 family. *)

From S2P Require Import Prelude Digest DigestBlocks.
Local Open Scope Z_scope.
Local Open Scope xpl_scope.

(** [static const xchar_t hex_digits[]]. *)
Definition hex_digits : list Z := Eval vm_compute in ascii_bytes "0123456789abcdef".

(** The string that [digest_to_string] returns, NUL included. *)
Definition digest_to_string (digest : list Z) (digest_len : nat) : list Z :=
  mjoin (map (fun byte => [tbl hex_digits (byte >> 4); tbl hex_digits (byte & 0xf)])
             (take digest_len digest)) ++ [0].

Definition reg (r : list Z) (v : nat) : Z := nth v r 0.

(** Statements one after the other. *)
Definition run {R} (statements : list (R -> R)) (r : R) : R := fold_left (fun r s => s r) statements r.

(** The loop that copies the digest: one write at a time. *)
Fixpoint copy_digest (n : nat) (i : Z) (digest source : list Z) : option (list Z) :=
  match n with
  | O => Some digest
  | S n => b ← rd source i; digest ← wr digest i b; copy_digest n (i + 1) digest source
  end.

(** [while (length >= DATASIZE)]: the body takes a block at a time; the bytes
    that are left do not make one. *)
Fixpoint chunk_loop {St} (block : nat) (body : St -> list Z -> option St) (fuel : nat)
    (st : St) (data : list Z) : option (St * list Z) :=
  if Z.of_nat block <=? zlen data then
    match fuel with
    | O => None
    | S fuel =>
        st ← body st (take block data); chunk_loop block body fuel st (drop block data)
    end
  else Some (st, data).

(** The padding that [md5_sum_close] and [sha1_sum_close] write out, up to the
    last eight bytes of a block: the same statements, on the buffer that [get]
    reads and [set] changes. *)
Definition pad_block {St} (get : St -> list Z) (set : St -> list Z -> St) (transform : St -> St)
    (bits0 : Z) (st : St) : option St :=
  let count := (bits0 >> 3) & 0x3F in
  let p := count in
  data ← wr (get st) p 0x80;
  let p := p + 1 in
  let count := 64 - 1 - count in
  if count <? 8 then
    data ← write_at data p (replicate (Z.to_nat count) 0);
    let st := transform (set st data) in
    data ← write_at (get st) 0 (replicate 56 0);
    Some (set st data)
  else
    data ← write_at data p (replicate (Z.to_nat (count - 8)) 0);
    Some (set st data).

(** ** Boolean functions

    The source computes them with fewer operations. *)

Ltac bitwise :=
  apply Z.bits_inj'; intros ? ?;
  rewrite ?Z.lxor_spec, ?Z.lor_spec, ?Z.land_spec, ?Z.lxor_spec, ?Z.lor_spec, ?Z.land_spec,
    ?Z.lnot_spec by done;
  repeat match goal with |- context [Z.testbit ?x ?n] => destruct (Z.testbit x n) end; reflexivity.

Lemma choose_xor x y z : z xor (x & (y xor z)) = choose x y z.
Proof. unfold choose. bitwise. Qed.

Lemma majority_or x y z : (x & y) or (z & (x or y)) = majority x y z.
Proof. unfold majority. bitwise. Qed.

(** ** Lemmas *)

Lemma wrap_plus_l w x y : wrap w (wrap w x + y) = wrap w (x + y).
Proof. unfold wrap. by rewrite Zplus_mod_idemp_l. Qed.

Lemma wrap_plus_r w x y : wrap w (x + wrap w y) = wrap w (x + y).
Proof. unfold wrap. by rewrite Zplus_mod_idemp_r. Qed.

Lemma tbl_nth l i : tbl l (Z.of_nat i) = nth i l 0.
Proof.
  unfold tbl. rewrite rd_ge_0, Nat2Z.id by lia.
  by rewrite nth_lookup.
Qed.

Lemma rd_nth l i : (i < length l)%nat -> rd l (Z.of_nat i) = Some (nth i l 0).
Proof.
  intros. rewrite rd_ge_0, Nat2Z.id by lia. rewrite nth_lookup.
  by destruct (lookup_lt_is_Some_2 l i) as [x ->].
Qed.

Lemma copy_digest_loop n i digest source :
  (i + n <= length source)%nat -> (i + n <= length digest)%nat ->
  copy_digest n (Z.of_nat i) digest source =
  Some (take i digest ++ take n (drop i source) ++ drop (i + n) digest).
Proof.
  revert i digest. induction n as [|n IH]; intros i digest Hs Hd; cbn [copy_digest].
  - rewrite Nat.add_0_r. change (take 0 _) with (@nil Z). cbn [app]. by rewrite take_drop.
  - destruct (lookup_lt_is_Some_2 source i) as [b Hb]; [lia|].
    rewrite rd_ge_0, Nat2Z.id, Hb by lia. cbn [mbind option_bind].
    rewrite wr_all by (unfold zlen; lia). cbn [mbind option_bind].
    rewrite Nat2Z.id. replace (Z.of_nat i + 1) with (Z.of_nat (S i)) by lia.
    rewrite IH by (rewrite ?length_insert; lia).
    rewrite (take_S_r _ _ b) by (apply list_lookup_insert_eq; lia).
    rewrite take_insert_ge, drop_insert_lt by lia.
    rewrite (drop_S source b i Hb). cbn [take]. rewrite <- app_assoc. cbn [app].
    by replace (S i + n)%nat with (i + S n)%nat by lia.
Qed.

(** The whole digest at the head of the caller's buffer. *)
Lemma copy_digest_ok digest source :
  (length source <= length digest)%nat ->
  copy_digest (length source) 0 digest source = Some (source ++ drop (length source) digest).
Proof.
  intros. change 0 with (Z.of_nat 0). rewrite copy_digest_loop by lia.
  cbn [take drop app Nat.add]. by rewrite firstn_all.
Qed.

(** Running a sequence of statements cut in groups. *)
Lemma run_app {R} (s1 s2 : list (R -> R)) r : run (s1 ++ s2) r = run s2 (run s1 r).
Proof. apply fold_left_app. Qed.

(** ** Renamed registers

    The source does not move the values along: it calls the macro with the
    names of the variables rotated. Round [i] finds the role [j] in the variable
    [j - i]; the list of the variables is the list of the roles, rotated. *)
Definition var (n i j : nat) : nat := ((j + (n - i mod n)) mod n)%nat.

Section rotation.
Context (n : nat) (Hn : n <> 0%nat) (statement round : nat -> list Z -> list Z).
Context (Hround : forall i h, length h = n -> length (round i h) = n).
Context (Hstep : forall i h, length h = n -> statement i (rotate i h) = rotate (S i) (round i h)).

Lemma length_rounds k i h :
  length h = n -> length (fold_left (fun h i => round i h) (seq i k) h) = n.
Proof. revert i h. induction k as [|k IH]; intros i h Hh; cbn [seq fold_left]; [done|]. by apply IH, Hround. Qed.

Lemma run_rotating k i h :
  length h = n ->
  run (map statement (seq i k)) (rotate i h) =
  rotate (i + k) (fold_left (fun h i => round i h) (seq i k) h).
Proof.
  revert i h. induction k as [|k IH]; intros i h Hh; cbn [seq map fold_left].
  - by rewrite Nat.add_0_r.
  - change (run (statement i :: ?s) ?r) with (run s (statement i r)).
    rewrite Hstep, IH by auto. by rewrite Nat.add_succ_comm.
Qed.

(** Full turns. *)
Lemma run_rounds k h :
  length h = n -> (k mod n = 0)%nat ->
  run (map statement (seq 0 k)) h = fold_left (fun h i => round i h) (seq 0 k) h.
Proof.
  intros Hh Hk. pose proof (run_rotating k 0 h Hh) as E. unfold rotate in E.
  rewrite length_rounds, Nat.add_0_l, Hk, Nat.Div0.mod_0_l in E by done. cbn [drop take] in E.
  by rewrite !app_nil_r in E.
Qed.
End rotation.

(** The same, for statements that also change a memory. *)
Section rotation_memory.
Context {M : Type} (n N : nat) (ok : list Z -> Prop) (Inv : nat -> M -> Prop).
Context (statement : nat -> list Z * M -> list Z * M) (round : nat -> list Z -> list Z).
Context (Hlen : forall h, ok h -> length h = n).
Context (Hround : forall i h, (i < N)%nat -> ok h -> ok (round i h)).
Context (Hstep : forall i h m, (i < N)%nat -> ok h -> Inv i m ->
  exists m', statement i (rotate i h, m) = (rotate (S i) (round i h), m') /\ Inv (S i) m').

Lemma run_rotating_memory k i h m :
  (i + k <= N)%nat -> ok h -> Inv i m ->
  let h' := fold_left (fun h i => round i h) (seq i k) h in
  exists m', run (map statement (seq i k)) (rotate i h, m) = (rotate (i + k) h', m') /\
             ok h' /\ Inv (i + k) m'.
Proof.
  revert i h m. induction k as [|k IH]; intros i h m Hk Hh Hm; cbn [seq map fold_left].
  - exists m. by rewrite Nat.add_0_r.
  - change (run (statement i :: ?s) ?r) with (run s (statement i r)).
    destruct (Hstep i h m) as (m' & -> & Hm'); [lia|done|done|].
    destruct (IH (S i) (round i h) m') as (m'' & -> & Hh' & Hm''); [lia|apply Hround; [lia|done]|done|].
    exists m''. by rewrite <- Nat.add_succ_comm.
Qed.

Lemma run_rounds_memory h m :
  (N mod n = 0)%nat -> ok h -> Inv 0%nat m ->
  let h' := fold_left (fun h i => round i h) (seq 0 N) h in
  exists m', run (map statement (seq 0 N)) (h, m) = (h', m') /\ ok h' /\ Inv N m'.
Proof.
  intros HN Hh Hm. destruct (run_rotating_memory N 0 h m (le_n _) Hh Hm) as (m' & E & Hh' & Hm').
  exists m'. split; [|done]. rewrite Nat.add_0_l in E. unfold rotate in E at 1 2.
  rewrite (Hlen _ Hh), (Hlen _ Hh'), HN, Nat.Div0.mod_0_l in E. cbn [drop take] in E.
  by rewrite !app_nil_r in E.
Qed.
End rotation_memory.

(** A register list of known length, position by position. *)
Lemma rotate_mod n i (h : list Z) :
  length h = n -> rotate i h = drop (i mod n) h ++ take (i mod n) h.
Proof. by intros <-. Qed.

Lemma rotate_succ_mod n i (h : list Z) :
  length h = n -> n <> 0%nat -> rotate (S i) h = drop (S (i mod n) mod n) h ++ take (S (i mod n) mod n) h.
Proof.
  intros <- ?. unfold rotate. by rewrite <- (Nat.Div0.add_mod_idemp_r 1 i), Nat.add_1_l.
Qed.

(** ** The streaming state *)

Section streams.
Context (block : nat) (compress : list Z -> list Z -> list Z) (initial : list Z).
Context (Hblock : (0 < block)%nat).
Implicit Types (h data message d : list Z).

(** The chaining value and the buffer represent a message. *)
Definition streams (h data message : list Z) : Prop :=
  h = absorb block compress initial message /\ buffered block data message.

Lemma streams_start data : length data = block -> streams initial data [].
Proof. intros. split; [by rewrite absorb_short|by apply buffered_start]. Qed.

Lemma streams_wait h data message d :
  streams h data message -> (length (rest block message) + length d < block)%nat ->
  exists data', write_at data (zlen (rest block message)) d = Some data' /\
                streams h data' (message ++ d).
Proof.
  intros [-> Hb] Hd. eexists. split; [apply buffered_at; (done || lia)|].
  split; [by rewrite absorb_wait|]. apply buffered_wait; [done|apply Hb|done].
Qed.

(** The block is completed; what the buffer holds afterwards does not matter. *)
Lemma streams_complete h data message d :
  streams h data message -> (length (rest block message) + length d = block)%nat ->
  exists data', write_at data (zlen (rest block message)) d = Some data' /\
    length data' = block /\ rest block (message ++ d) = [] /\
    forall data'', length data'' = block -> streams (compress h data') data'' (message ++ d).
Proof.
  intros [-> Hb] Hd. exists (rest block message ++ d). split; [|split; [|split]].
  - rewrite buffered_at by (done || lia). rewrite drop_ge by (destruct Hb; lia).
    by rewrite app_nil_r.
  - by rewrite length_app.
  - by apply rest_complete.
  - intros data'' Hl. split; [by rewrite absorb_complete|].
    apply buffered_aligned; [done|by apply rest_complete].
Qed.

(** The loop, for a state whose representation of a message the body extends. *)
Lemma chunk_loop_ok {St} (body : St -> list Z -> option St) (P : St -> list Z -> Prop) (Q : Z -> Prop) :
  (forall st message b, P st message -> Forall Q b -> length b = block ->
     exists st', body st b = Some st' /\ P st' (message ++ b)) ->
  forall fuel st message data, P st message -> Forall Q data -> (length data <= fuel)%nat ->
  exists st' done tail, chunk_loop block body fuel st data = Some (st', tail) /\
    data = done ++ tail /\ P st' (message ++ done) /\ (length tail < block)%nat.
Proof.
  intros Hbody fuel. induction fuel as [|fuel IH]; intros st message data HP HQ Hl.
  - exists st, [], data. cbn [chunk_loop]. rewrite (proj2 (Z.leb_gt _ _)) by (unfold zlen; lia).
    rewrite app_nil_r. repeat split; [done|lia].
  - cbn [chunk_loop mbind option_bind]. destruct (Z.leb_spec (Z.of_nat block) (zlen data)) as [Hge|Hlt].
    + unfold zlen in Hge.
      destruct (Hbody st message (take block data)) as (st1 & -> & HP1);
        [done|by apply Forall_take|rewrite length_take; lia|].
      cbn [mbind option_bind].
      destruct (IH st1 (message ++ take block data) (drop block data)) as (st' & d & tail & -> & E & HP' & Ht);
        [done|by apply Forall_drop|rewrite length_drop; lia|].
      exists st', (take block data ++ d), tail. rewrite <- !app_assoc in *. rewrite <- E, take_drop. done.
    + exists st, [], data. rewrite app_nil_r. unfold zlen in Hlt. repeat split; [done|lia].
Qed.
End streams.

(** ** Counting bits in two words *)

(** The wrapped sum is below an operand exactly when the sum carries. *)
Lemma sum_carries N x y :
  0 < N -> (x + y) / N = x / N + y / N + (if (x + y) mod N <? x mod N then 1 else 0).
Proof.
  intros HN. pose proof (Z.mod_pos_bound x N HN). pose proof (Z.mod_pos_bound y N HN).
  pose proof (Z_div_mod_eq_full x N) as Ex. pose proof (Z_div_mod_eq_full y N) as Ey.
  destruct (Z.ltb_spec (x mod N + y mod N) N).
  - assert ((x + y) mod N = x mod N + y mod N) as Em.
    { rewrite Z.add_mod by lia. by apply Z.mod_small; lia. }
    rewrite (proj2 (Z.ltb_ge _ _)) by lia. symmetry.
    apply Z.div_unique with (r := x mod N + y mod N); lia.
  - assert ((x + y) mod N = x mod N + y mod N - N) as Em.
    { symmetry. apply Z.mod_unique with (q := x / N + y / N + 1); lia. }
    rewrite (proj2 (Z.ltb_lt _ _)) by lia. symmetry.
    apply Z.div_unique with (r := x mod N + y mod N - N); lia.
Qed.

(** The number of bits in [n] bytes, as two 32-bit words. *)
Definition bit_count (n : Z) : Z * Z := (u32 (8 * n), u32 (8 * n / 2 ^ 32)).

Lemma bit_count_low n k :
  u32 (u32 (8 * n) + u32 (u32 k << 3)) = u32 (8 * (n + k)).
Proof.
  unfold wrap. rewrite Z.shiftl_mul_pow2 by lia.
  rewrite Z.mul_mod_idemp_l, <- Z.add_mod by lia. f_equal. lia.
Qed.

Lemma bit_count_high n k :
  u32 ((if u32 (8 * (n + k)) <? u32 (8 * n) then u32 (u32 (8 * n / 2 ^ 32) + 1)
        else u32 (8 * n / 2 ^ 32)) + (k >> 29)) = u32 (8 * (n + k) / 2 ^ 32).
Proof.
  rewrite Z.shiftr_div_pow2 by lia.
  assert (k / 2 ^ 29 = 8 * k / 2 ^ 32) as ->.
  { change (2 ^ 32) with (8 * 2 ^ 29). by rewrite Z.div_mul_cancel_l by lia. }
  rewrite Z.mul_add_distr_l, (sum_carries (2 ^ 32) (8 * n) (8 * k)) by lia. unfold wrap.
  destruct (_ <? _); rewrite Z.add_mod_idemp_l by lia.
  - rewrite <- Z.add_assoc, Z.add_mod_idemp_l by lia. f_equal. lia.
  - f_equal. lia.
Qed.

(** The number of bytes that wait, out of the bit count. *)
Lemma bit_count_waiting (message : list Z) :
  (u32 (8 * zlen message) >> 3) & 0x3f = zlen (rest 64 message).
Proof.
  change 0x3f with (2 ^ 6 - 1). rewrite land_low, Z.shiftr_div_pow2 by lia.
  unfold wrap, zlen. rewrite length_rest by lia. rewrite Nat2Z.inj_mod by lia.
  change (2 ^ 3) with 8. change (2 ^ 32) with (8 * 2 ^ 29).
  rewrite Z.mul_mod_distr_l, Z.mul_comm, Z.div_mul by lia.
  change (2 ^ 29) with (2 ^ 6 * 2 ^ 23). by rewrite Z.mod_mod_divide by (exists (2 ^ 23); lia).
Qed.

(** ** Closing *)

Lemma be_bytes_length n x : length (be_bytes n x) = n.
Proof. unfold be_bytes. by rewrite length_reverse, le_bytes_length. Qed.

Lemma le_bytes_app n m x : le_bytes (n + m) x = le_bytes n x ++ le_bytes m (x / 256 ^ Z.of_nat n).
Proof.
  revert x. induction n as [|n IH]; intros x; cbn [le_bytes app Nat.add].
  - by rewrite Z.div_1_r.
  - rewrite IH, Nat2Z.inj_succ, Z.pow_succ_r by lia. by rewrite Z.div_div by lia.
Qed.

Lemma le_bytes_wrap n x : le_bytes n (wrap (8 * Z.of_nat n) x) = le_bytes n x.
Proof.
  unfold wrap. rewrite Z.pow_mul_r by lia. change (2 ^ 8) with 256.
  revert x. induction n as [|n IH]; intros x; cbn [le_bytes]; [done|].
  rewrite Nat2Z.inj_succ, Z.pow_succ_r by lia. f_equal.
  - apply Z.mod_mod_divide. by exists (256 ^ Z.of_nat n); lia.
  - rewrite Z.rem_mul_r by lia. rewrite (Z.mul_comm 256), Z.div_add by lia.
    rewrite (Z.div_small (x mod 256)) by (by apply Z.mod_pos_bound). apply IH.
Qed.

(** The bit count, as the last eight bytes of the padding. *)
Lemma le_bytes_count n :
  le_bytes 4 (u32 (8 * n)) ++ le_bytes 4 (u32 (8 * n / 2 ^ 32)) = le_bytes 8 (8 * n).
Proof.
  change 32 with (8 * Z.of_nat 4) at 1 2. rewrite !le_bytes_wrap. symmetry. exact (le_bytes_app 4 4 _).
Qed.

Lemma be_bytes_count n :
  be_bytes 4 (u32 (8 * n / 2 ^ 32)) ++ be_bytes 4 (u32 (8 * n)) = be_bytes 8 (8 * n).
Proof. unfold be_bytes. by rewrite <- reverse_app, le_bytes_count. Qed.

Lemma wr_write_at (l : list Z) i x : (0 <= i < zlen l) -> wr l i x = write_at l i [x].
Proof.
  intros Hi. rewrite wr_all, write_at_all by (cbn; unfold zlen in *; cbn [length]; lia).
  unfold zlen in Hi. rewrite insert_take_drop by lia. cbn [length app]. by rewrite Nat.add_1_r.
Qed.

(** The last eight bytes, as two writes of four. *)
Lemma write_length (front last a b : list Z) :
  length front = 56%nat -> length last = 8%nat -> length a = 4%nat -> length b = 4%nat ->
  exists data, write_at (front ++ last) 56 a = Some data /\ write_at data 60 b = Some (front ++ a ++ b).
Proof.
  intros Hf Hl Ha Hb. replace 56 with (zlen front) by (unfold zlen; lia).
  rewrite write_at_app by lia. eexists. split; [done|].
  rewrite app_assoc. replace 60 with (zlen (front ++ a)) by (rewrite zlen_app; unfold zlen; lia).
  rewrite write_at_app by (rewrite length_drop; lia).
  rewrite drop_drop, drop_ge, app_nil_r by lia. by rewrite <- app_assoc.
Qed.

Lemma join_le_bytes_length ws : length (mjoin (map (le_bytes 4) ws)) = (4 * length ws)%nat.
Proof.
  induction ws as [|x ws IH]; [done|].
  change (mjoin (map (le_bytes 4) (x :: ws))) with (le_bytes 4 x ++ mjoin (map (le_bytes 4) ws)).
  rewrite length_app, le_bytes_length, IH. cbn [length]. lia.
Qed.

Lemma join_be_bytes_length n ws : length (mjoin (map (be_bytes n) ws)) = (n * length ws)%nat.
Proof.
  induction ws as [|x ws IH]; [by rewrite Nat.mul_0_r|].
  change (mjoin (map (be_bytes n) (x :: ws))) with (be_bytes n x ++ mjoin (map (be_bytes n) ws)).
  rewrite length_app, be_bytes_length, IH. cbn [length]. lia.
Qed.

Lemma words_length value n count block : length (words value n count block) = count.
Proof. revert block. induction count as [|c IH]; intros block; cbn [words length]; [done|]. by rewrite IH. Qed.

Lemma block_words_app value n a b l l' :
  length l = (n * a)%nat -> words value n (a + b) (l ++ l') = words value n a l ++ words value n b l'.
Proof.
  revert l. induction a as [|a IH]; intros l Hl; cbn [words Nat.add app].
  - by rewrite (nil_length_inv l) by lia.
  - rewrite take_app_le, drop_app_le by lia. f_equal. apply IH. rewrite length_drop. lia.
Qed.

(** A write right after what was written. *)
Lemma write_next (pre post d : list Z) off :
  off = zlen pre -> (length d <= length post)%nat ->
  write_at (pre ++ post) off d = Some ((pre ++ d) ++ drop (length d) post).
Proof. intros -> Hd. rewrite write_at_app by done. by rewrite app_assoc. Qed.

(** ** A sum over 64-byte blocks with a two-word bit count

    [Md5sum] and [Sha1sum] of src/glib/gchecksum.c work in the same way: the
    bytes that do not make a block wait in [data], [bits] counts what was fed,
    and the transform absorbs [data] into the chaining value. The class says
    what a structure of this kind provides; the theorems on [update] and on the
    padding are proved once, against it. *)

Class BufferedSum (St : Type) := {
  bs_chain : St -> list Z;
  bs_data : St -> list Z;
  bs_bits : St -> Z * Z;
  bs_digest : St -> list Z;
  bs_set_data : St -> list Z -> St;
  bs_transform : St -> St;
  bs_count : St -> Z -> St;
  bs_compress : list Z -> list Z -> list Z;
  bs_initial : list Z;
  bs_words : nat;
}.

Class BufferedSumLaws (St : Type) `{BufferedSum St} : Prop := {
  bs_data_set (st : St) d : bs_data (bs_set_data st d) = d;
  bs_chain_set (st : St) d : bs_chain (bs_set_data st d) = bs_chain st;
  bs_bits_set (st : St) d : bs_bits (bs_set_data st d) = bs_bits st;
  bs_digest_set (st : St) d : bs_digest (bs_set_data st d) = bs_digest st;
  bs_bits_transform (st : St) : bs_bits (bs_transform st) = bs_bits st;
  bs_digest_transform (st : St) : bs_digest (bs_transform st) = bs_digest st;
  bs_chain_transform (st : St) :
    length (bs_chain st) = bs_words -> length (bs_data st) = 64%nat ->
    bs_chain (bs_transform st) = bs_compress (bs_chain st) (bs_data st) /\
    length (bs_data (bs_transform st)) = 64%nat;
  bs_chain_count (st : St) k : bs_chain (bs_count st k) = bs_chain st;
  bs_data_count (st : St) k : bs_data (bs_count st k) = bs_data st;
  bs_digest_count (st : St) k : bs_digest (bs_count st k) = bs_digest st;
  bs_bits_count (st : St) n k :
    bs_bits st = bit_count n -> bs_bits (bs_count st k) = bit_count (n + k);
  bs_initial_words : length bs_initial = bs_words;
  bs_compress_words h b :
    length h = bs_words -> length b = 64%nat -> length (bs_compress h b) = bs_words;
}.

(** ** The update, over the class *)

Section update.
Context {St : Type} `{BufferedSum St}.

Definition bs_chunk (st : St) (chunk : list Z) : option St :=
  data ← write_at (bs_data st) 0 chunk;
  Some (bs_transform (bs_set_data st data)).

Definition bs_finish (st : St) (buffer : list Z) : option St :=
  '(st, buffer) ← chunk_loop 64 bs_chunk (length buffer) st buffer;
  data ← write_at (bs_data st) 0 buffer;
  Some (bs_set_data st data).

Definition bs_update (st : St) (buffer : list Z) : option St :=
  let waiting := (fst (bs_bits st) >> 3) & 0x3F in
  let st := bs_count st (zlen buffer) in
  if waiting =? 0 then bs_finish st buffer
  else
    let fill := u32 (64 - waiting) in
    if zlen buffer <? fill then
      data ← write_at (bs_data st) waiting buffer;
      Some (bs_set_data st data)
    else
      data ← write_at (bs_data st) waiting (take (Z.to_nat fill) buffer);
      bs_finish (bs_transform (bs_set_data st data)) (drop (Z.to_nat fill) buffer).
End update.

Section laws.
Context {St : Type} `{BufferedSumLaws St}.
Implicit Types (st : St) (message d : list Z).

(** The chaining value and the buffer represent the message. *)
Definition bs_holds st message : Prop :=
  streams 64 bs_compress bs_initial (bs_chain st) (bs_data st) message.

Definition bs_state st message : Prop :=
  bs_holds st message /\ bs_bits st = bit_count (zlen message).

Definition bs_same st st' : Prop := bs_bits st' = bs_bits st /\ bs_digest st' = bs_digest st.

Lemma bs_absorb_words message : length (absorb 64 bs_compress bs_initial message) = bs_words.
Proof. apply absorb_invariant; [lia|apply bs_initial_words|apply bs_compress_words]. Qed.

Lemma bs_chain_words st message : bs_holds st message -> length (bs_chain st) = bs_words.
Proof. intros [-> _]. apply bs_absorb_words. Qed.

Lemma bs_same_set st d : bs_same st (bs_set_data st d).
Proof. split; [apply bs_bits_set|apply bs_digest_set]. Qed.

Lemma bs_same_transform st st' : bs_same st st' -> bs_same st (bs_transform st').
Proof. intros [E1 E2]. split; [by rewrite bs_bits_transform|by rewrite bs_digest_transform]. Qed.

(** The block that waits is completed and transformed. *)
Lemma bs_complete st message d :
  bs_holds st message -> (length (rest 64 message) + length d = 64)%nat ->
  exists data, write_at (bs_data st) (zlen (rest 64 message)) d = Some data /\
    let st' := bs_transform (bs_set_data st data) in
    bs_holds st' (message ++ d) /\ bs_same st st' /\ rest 64 (message ++ d) = [].
Proof.
  intros Hs Hl.
  destruct (streams_complete 64 bs_compress bs_initial ltac:(lia) _ _ _ _ Hs Hl)
    as (data & Hw & Hlen & Hr & Hnext).
  exists data. split; [done|]. split; [|split; [apply bs_same_transform, bs_same_set|done]].
  destruct (bs_chain_transform (bs_set_data st data)) as [Hc Hd].
  - rewrite bs_chain_set. by eapply bs_chain_words.
  - by rewrite bs_data_set.
  - unfold bs_holds. rewrite Hc, bs_chain_set, bs_data_set. by apply Hnext.
Qed.

Lemma bs_wait st message d :
  bs_holds st message -> (length (rest 64 message) + length d < 64)%nat ->
  exists data, write_at (bs_data st) (zlen (rest 64 message)) d = Some data /\
    bs_holds (bs_set_data st data) (message ++ d).
Proof.
  intros Hs Hl.
  destruct (streams_wait 64 bs_compress bs_initial ltac:(lia) _ _ _ _ Hs Hl) as (data & Hw & Hb).
  exists data. unfold bs_holds. by rewrite bs_chain_set, bs_data_set.
Qed.

(** Between two turns of the loop, no byte waits. *)
Definition bs_aligned (st0 st : St) message : Prop :=
  bs_holds st message /\ bs_same st0 st /\ rest 64 message = [].

Lemma bs_chunk_ok st0 st message b :
  bs_aligned st0 st message -> Forall (fun _ => True) b -> length b = 64%nat ->
  exists st', bs_chunk st b = Some st' /\ bs_aligned st0 st' (message ++ b).
Proof.
  intros (Hh & [Hb Hd] & Hr) _ Hl.
  destruct (bs_complete st message b Hh) as (data & Hw & Hh' & [Hb' Hd'] & Hr'); [by rewrite Hr|].
  rewrite Hr, zlen_nil in Hw. unfold bs_chunk. rewrite Hw. eexists. split; [done|].
  split; [done|]. split; [|done]. split; congruence.
Qed.

Lemma bs_finish_ok st0 st message d :
  bs_aligned st0 st message ->
  exists st', bs_finish st d = Some st' /\ bs_holds st' (message ++ d) /\ bs_same st0 st'.
Proof.
  intros Ha. unfold bs_finish.
  destruct (chunk_loop_ok 64 ltac:(lia) bs_chunk (bs_aligned st0) (fun _ => True) (bs_chunk_ok st0) _
    st message d Ha (Forall_true _ _ (fun _ => I)) (le_n _))
    as (st' & d1 & d2 & -> & -> & (Hh & [Hb Hd] & Hr) & Hl).
  cbn [mbind option_bind]. destruct (bs_wait st' (message ++ d1) d2 Hh) as (data & Hw & Hh').
  - by rewrite Hr.
  - rewrite Hr, zlen_nil in Hw. rewrite Hw. eexists. split; [done|]. rewrite app_assoc.
    split; [done|]. split; [by rewrite bs_bits_set|by rewrite bs_digest_set].
Qed.

(** Feeding bytes appends them to the message; no write leaves the buffer. *)
Lemma bs_update_ok st message d :
  bs_state st message ->
  exists st', bs_update st d = Some st' /\ bs_state st' (message ++ d) /\ bs_digest st' = bs_digest st.
Proof.
  intros [Hh Hb]. unfold bs_update, bs_state. rewrite zlen_app.
  pose proof (bs_bits_count st _ (zlen d) Hb) as Hb'. pose proof (bs_digest_count st (zlen d)) as Hd.
  assert (bs_holds (bs_count st (zlen d)) message) as Hh'
    by (unfold bs_holds; by rewrite bs_chain_count, bs_data_count).
  rewrite Hb. cbn [fst bit_count]. rewrite bit_count_waiting, <- Hd. revert Hh' Hb'.
  generalize (bs_count st (zlen d)). clear dependent st. intros st Hh Hb.
  pose proof (rest_lt 64 ltac:(lia) message) as Hr. set (r := zlen (rest 64 message)).
  assert (r = Z.of_nat (length (rest 64 message))) as Er by done.
  assert (forall st1 message1, bs_holds st1 message1 /\ bs_same st st1 ->
    (bs_holds st1 message1 /\ bs_bits st1 = bit_count (zlen message + zlen d)) /\
    bs_digest st1 = bs_digest st) as Hend by (intros st1 m (H1 & H2 & H3); by rewrite H2, Hb).
  destruct (Z.eqb_spec r 0) as [E|E].
  - destruct (bs_finish_ok st st message d) as (st' & -> & Hst'); [|by exists st'; auto].
    repeat split; [apply Hh..|]. apply nil_length_inv. lia.
  - rewrite (wrap_small 32 (64 - r)) by lia.
    destruct (Z.ltb_spec (zlen d) (64 - r)) as [Hlt|Hge].
    + unfold zlen in Hlt. destruct (bs_wait st message d Hh) as (data & Hw & Hh'); [lia|].
      subst r. rewrite Hw. eexists. split; [done|]. apply Hend. split; [done|apply bs_same_set].
    + unfold zlen in Hge. set (n := Z.to_nat (64 - r)). assert (n <= length d)%nat by lia.
      destruct (bs_complete st message (take n d) Hh) as (data & Hw & Hh' & Hs & Hr');
        [rewrite length_take; lia|]. subst r. rewrite Hw. cbn [mbind option_bind].
      destruct (bs_finish_ok st _ _ (drop n d) (conj Hh' (conj Hs Hr'))) as (st' & -> & Hst').
      rewrite <- app_assoc, take_drop in Hst'. by exists st'; auto.
Qed.
End laws.

(** ** The padding *)

Section pad_block.
Context {St : Type} (get : St -> list Z) (set : St -> list Z -> St) (transform : St -> St).
Context (chain : St -> list Z) (compress : list Z -> list Z -> list Z) (initial : list Z).
Context (message : list Z) (st : St).
Context (Hget : forall st d, get (set st d) = d) (Hchain : forall st d, chain (set st d) = chain st).
Context (Hst : streams 64 compress initial (chain st) (get st) message).
Context (Htransform : forall d, length d = 64%nat ->
  chain (transform (set st d)) = compress (chain st) d /\ length (get (transform (set st d))) = 64%nat).

Lemma pad_block_ok length_bytes :
  (forall x, length (length_bytes x) = 8%nat) ->
  exists st' front last, pad_block get set transform (u32 (8 * zlen message)) st = Some st' /\
    get st' = front ++ last /\ length front = 56%nat /\ length last = 8%nat /\
    (chain st' = chain st \/ exists d, length d = 64%nat /\ chain st' = compress (chain st) d) /\
    absorb 64 compress initial (pad 64 8 length_bytes message) =
    compress (chain st') (front ++ length_bytes (8 * zlen message)).
Proof.
  intros Hbytes. unfold pad_block. rewrite bit_count_waiting.
  destruct Hst as [Hc Hb]. pose proof (rest_lt 64 ltac:(lia) message) as Hr.
  rewrite wr_write_at by (destruct Hb; unfold zlen; lia).
  rewrite (buffered_at 64 ltac:(lia) (get st) message [0x80] Hb) by (cbn [length]; lia).
  cbn [mbind option_bind length]. rewrite app_assoc.
  set (r := rest 64 message) in *. set (tail := drop (length r + 1) (get st)).
  assert (length tail = 63 - length r)%nat as Ht.
  { subst tail. rewrite length_drop, (proj1 Hb). lia. }
  replace (zlen r + 1) with (zlen (r ++ [0x80])) by (by rewrite zlen_app).
  destruct (Z.ltb_spec (64 - 1 - zlen r) 8) as [Hlt|Hge].
  - unfold zlen in Hlt. replace (Z.to_nat (64 - 1 - zlen r)) with (63 - length r)%nat by (unfold zlen; lia).
    rewrite write_at_app, length_replicate, drop_ge, app_nil_r by (rewrite ?length_replicate; lia).
    cbn [mbind option_bind]. rewrite <- (app_assoc r).
    destruct (Htransform (r ++ [0x80] ++ replicate (63 - length r) 0)) as [Hc' Hl'].
    { autorewrite with xpl. cbn [length]. lia. }
    revert Hc' Hl'. generalize (transform (set st (r ++ [0x80] ++ replicate (63 - length r) 0))).
    intros st1 Hc' Hl'. rewrite write_at_all by (unfold zlen; rewrite ?length_replicate; lia).
    cbn [mbind option_bind]. change (take (Z.to_nat 0) (get st1)) with (@nil Z).
    rewrite length_replicate, Nat.add_0_l.
    eexists _, (replicate 56 0), (drop 56 (get st1)). split; [done|].
    rewrite Hget, Hchain, Hc', length_replicate, length_drop, Hl', Hc.
    do 3 (split; [done|]). split.
    { right. eexists. split; [|done]. autorewrite with xpl. cbn [length]. lia. }
    rewrite (absorb_pad_two 64 8 compress ltac:(lia) ltac:(lia) length_bytes Hbytes); [done|subst r; lia].
  - unfold zlen in Hge. replace (Z.to_nat (64 - 1 - zlen r - 8)) with (55 - length r)%nat by (unfold zlen; lia).
    rewrite write_at_app by (rewrite ?length_replicate; lia).
    cbn [mbind option_bind]. rewrite length_replicate, app_assoc.
    eexists _, ((r ++ [0x80]) ++ replicate (55 - length r) 0), (drop (55 - length r) tail). split; [done|].
    rewrite Hget, Hchain, Hc. autorewrite with xpl. cbn [length]. repeat split; [lia..|by left|].
    rewrite (absorb_pad_one 64 8 compress ltac:(lia) ltac:(lia) length_bytes Hbytes); [|subst r; lia].
    by rewrite <- !app_assoc.
Qed.
End pad_block.

(** What neither the buffer nor the transform touches stays. *)
Lemma pad_block_frame {St} (get : St -> list Z) set transform (Q : St -> Prop) bits0 st st' :
  (forall st d, Q st -> Q (set st d)) -> (forall st, Q st -> Q (transform st)) ->
  Q st -> pad_block get set transform bits0 st = Some st' -> Q st'.
Proof.
  intros Hset Htr HQ E. unfold pad_block in E.
  destruct (wr _ _ _) as [data|]; [|done]. cbn [mbind option_bind] in E.
  destruct (_ <? _).
  - destruct (write_at _ _ _) as [data1|]; [|done]. cbn [mbind option_bind] in E.
    destruct (write_at _ _ _) as [data2|]; [|done]. injection E as <-. auto.
  - destruct (write_at _ _ _) as [data1|]; [|done]. injection E as <-. auto.
Qed.

Section close.
Context {St : Type} `{BufferedSumLaws St}.

(** Up to the last eight bytes of the padded message. *)
Lemma bs_pad_ok (st : St) (message : list Z) length_bytes :
  bs_state st message -> (forall x, length (length_bytes x) = 8%nat) ->
  exists st' front last,
    pad_block bs_data bs_set_data bs_transform (fst (bs_bits st)) st = Some st' /\
    bs_data st' = front ++ last /\ length front = 56%nat /\ length last = 8%nat /\
    bs_same st st' /\ length (bs_chain st') = bs_words /\
    absorb 64 bs_compress bs_initial (pad 64 8 length_bytes message) =
    bs_compress (bs_chain st') (front ++ length_bytes (8 * zlen message)).
Proof.
  intros [Hh Hb] Hbytes. rewrite Hb. cbn [fst bit_count].
  pose proof (bs_chain_words st message Hh) as Hw.
  assert (forall d, length d = 64%nat ->
    bs_chain (bs_transform (bs_set_data st d)) = bs_compress (bs_chain st) d /\
    length (bs_data (bs_transform (bs_set_data st d))) = 64%nat) as Ht.
  { intros d Hd. destruct (bs_chain_transform (bs_set_data st d)) as [-> ?];
      rewrite ?bs_chain_set, ?bs_data_set; done. }
  destruct (pad_block_ok bs_data bs_set_data bs_transform bs_chain bs_compress bs_initial message st
    bs_data_set bs_chain_set Hh Ht length_bytes Hbytes) as (st' & front & last & Hp & Hd & Hf & Hl & Hc & Ha).
  exists st', front, last. split; [done|]. split; [done|]. split; [done|]. split; [done|].
  split; [|split; [|done]].
  - revert Hp. apply (pad_block_frame _ _ _ (bs_same st)); [| |done].
    + intros st1 d [E1 E2]. split; [by rewrite bs_bits_set|by rewrite bs_digest_set].
    + intros st1. apply bs_same_transform.
  - destruct Hc as [-> | (d & Hd' & ->)]; [done|by apply bs_compress_words].
Qed.
End close.

(** ** Words of the SHA-2 family

    What the proofs on SHA-256 and on SHA-512 share: big-endian words read and
    stored byte by byte, the optimised Boolean functions, and the ranges of the
    chaining value and of the message schedule. *)

Definition is_word (w x : Z) : Prop := 0 <= x < 2 ^ w.

(** A complement cut to the width of the word it is masked with. *)
Lemma land_wrap_l w x z : is_word w z -> 0 <= w -> wrap w x & z = x & z.
Proof.
  intros Hz Hw. unfold wrap. rewrite <- Z.land_ones by done.
  rewrite <- Z.land_assoc, (Z.land_comm (Z.ones w)), Z.land_ones by done.
  by rewrite (Z.mod_small z).
Qed.

(** ** Bytes of words *)

Lemma is_byte_bounds b : is_byte b -> 0 <= b < 256.
Proof. done. Qed.

Lemma be_value_cons b l : be_value (b :: l) = b * 256 ^ Z.of_nat (length l) + be_value l.
Proof.
  unfold be_value. rewrite reverse_cons.
  assert (forall l1, le_value (l1 ++ [b]) = le_value l1 + b * 256 ^ Z.of_nat (length l1)) as E.
  { induction l1 as [|x l1 IH]; [cbn; lia|]. cbn [app le_value length].
    rewrite IH, Nat2Z.inj_succ, Z.pow_succ_r by lia. ring. }
  rewrite E, length_reverse. lia.
Qed.

Lemma be_value_range l : Forall is_byte l -> 0 <= be_value l < 256 ^ Z.of_nat (length l).
Proof.
  induction 1 as [|b l Hb _ IH]; [done|]. rewrite be_value_cons. cbn [length].
  rewrite Nat2Z.inj_succ, Z.pow_succ_r by lia. unfold is_byte in Hb. nia.
Qed.

(** A byte in front of a value. *)
Lemma lor_be_value b l k :
  Forall is_byte l -> k = 8 * Z.of_nat (length l) -> (b << k) or be_value l = be_value (b :: l).
Proof.
  intros Hl ->. pose proof (be_value_range l Hl) as Hr.
  rewrite be_value_cons. change 256 with (2 ^ 8) in *. rewrite <- Z.pow_mul_r in * by lia.
  apply lor_shiftl_add; lia.
Qed.

Lemma be_value_one b : be_value [b] = b.
Proof. unfold be_value. cbn. lia. Qed.

Lemma be_bytes_cons n x : be_bytes (S n) x = be_bytes n (x / 256) ++ [x mod 256].
Proof. unfold be_bytes. cbn [le_bytes]. by rewrite reverse_cons. Qed.

(** ** Blocks as words *)

Lemma words_map value n count l :
  words value n count l = map (fun i => value (take n (drop (n * i) l))) (seq 0 count).
Proof.
  revert l. induction count as [|c IH]; intros l; cbn [words]; [done|].
  rewrite IH. cbn [seq map]. rewrite Nat.mul_0_r. f_equal.
  rewrite <- seq_shift, map_map. apply map_ext. intros i. rewrite drop_drop.
  by replace (n * S i)%nat with (n + n * i)%nat by lia.
Qed.

(** The cells of a range, one by one. *)
Lemma take_cells n k (l : list Z) :
  (k + n <= length l)%nat -> take n (drop k l) = map (fun j => tbl l (Z.of_nat (k + j))) (seq 0 n).
Proof.
  intros H. apply list_eq. intros i. rewrite list_lookup_fmap.
  destruct (Nat.lt_ge_cases i n) as [Hi|Hi].
  - rewrite lookup_take_lt, lookup_drop, lookup_seq_lt by done. cbn [fmap option_fmap option_map Nat.add].
    rewrite tbl_nth, nth_lookup. by destruct (lookup_lt_is_Some_2 l (k + i)) as [x ->]; [lia|].
  - rewrite lookup_ge_None_2 by (rewrite length_take; lia).
    by rewrite lookup_seq_ge.
Qed.

Lemma words_range n count l :
  Forall is_byte l -> Forall (is_word (8 * Z.of_nat n)) (words be_value n count l).
Proof.
  intros Hl. rewrite words_map. apply Forall_fmap, Forall_true. intros i. unfold is_word, compose.
  pose proof (be_value_range (take n (drop (n * i) l)) (Forall_take _ _ _ (Forall_drop _ _ _ Hl))) as Hr.
  split; [apply Hr|]. eapply Z.lt_le_trans; [apply Hr|].
  change 256 with (2 ^ 8). rewrite <- Z.pow_mul_r by lia. apply Z.pow_le_mono_r; [lia|].
  rewrite length_take. lia.
Qed.

(** ** The chaining value and the schedule *)

Section sha2.
Context (w : Z) (S0 S1 s0 s1 : Z -> Z) (K : list Z) (rounds bytes : nat).
Context (Hw : 0 <= w) (Hbytes : w = 8 * Z.of_nat bytes).

Definition words_ok (h : list Z) : Prop := length h = 8%nat /\ Forall (is_word w) h.

Lemma wrap_is_word x : is_word w (wrap w x).
Proof. by apply wrap_range. Qed.

Lemma sha2_round_ok x h i : words_ok h -> words_ok (sha2_round w S0 S1 K x h i).
Proof.
  intros [Hl Hh]. destruct h as [|a [|b [|c [|d [|e [|f [|g [|h [|]]]]]]]]]; try done.
  split; [done|]. repeat (apply Forall_cons in Hh as [? Hh]).
  repeat (apply Forall_cons; split; [done || apply wrap_is_word|]). done.
Qed.

Lemma sha2_rounds_ok x l h : words_ok h -> words_ok (fold_left (sha2_round w S0 S1 K x) l h).
Proof. revert h. induction l as [|i l IH]; intros h Hh; cbn [fold_left]; [done|]. by apply IH, sha2_round_ok. Qed.

Lemma sha2_compress_ok h b :
  words_ok h -> words_ok (sha2_compress w S0 S1 s0 s1 K rounds bytes h b).
Proof.
  intros Hh. unfold sha2_compress. cbv zeta. set (x := schedule _ _ _).
  destruct (sha2_rounds_ok x (seq 0 rounds) h Hh) as [Hl _]. unfold add_words.
  split; [rewrite length_zip_with, Hl, (proj1 Hh); done|].
  apply Forall_zip_with_fst with (P := fun _ => True); [by apply Forall_true|].
  apply Forall_true. intros y z _. apply wrap_is_word.
Qed.

Definition sha2_words (block : list Z) : list Z :=
  schedule (sha2_next w s0 s1) (rounds - 16) (words be_value bytes 16 block).

Lemma sha2_compress_eq h b :
  sha2_compress w S0 S1 s0 s1 K rounds bytes h b =
  add_words w h (fold_left (sha2_round w S0 S1 K (sha2_words b)) (seq 0 rounds) h).
Proof. unfold sha2_compress, sha2_words. cbv zeta. reflexivity. Qed.

Lemma sha2_next_ext f g :
  (forall k, (0 < k)%nat -> f k = g k) -> sha2_next w s0 s1 f = sha2_next w s0 s1 g.
Proof. intros E. unfold sha2_next. by rewrite !E by lia. Qed.

Lemma sha2_words_range b i : Forall is_byte b -> is_word w (nth i (sha2_words b) 0).
Proof.
  intros Hb. assert (Forall (is_word w) (sha2_words b)) as Hf.
  { apply schedule_forall.
    - split; [lia|]. by apply Z.pow_pos_nonneg.
    - intros f _. apply wrap_is_word.
    - rewrite Hbytes. by apply words_range. }
  rewrite nth_lookup. destruct (_ !! i) as [x|] eqn:E; [by eapply Forall_lookup_1|].
  split; [done|]. by apply Z.pow_pos_nonneg.
Qed.

Lemma sha2_words_block b i :
  (i < 16)%nat -> nth i (sha2_words b) 0 = nth i (words be_value bytes 16 b) 0.
Proof. intros. unfold sha2_words. apply schedule_block. by rewrite words_length. Qed.

Lemma sha2_words_next b i :
  (16 <= i)%nat -> (i < rounds)%nat ->
  nth i (sha2_words b) 0 =
  wrap w (s1 (nth (i - 2) (sha2_words b) 0) + nth (i - 7) (sha2_words b) 0 +
          s0 (nth (i - 15) (sha2_words b) 0) + nth (i - 16) (sha2_words b) 0).
Proof.
  intros H1 H2. unfold sha2_words at 1.
  by rewrite (schedule_next _ sha2_next_ext) by (rewrite ?words_length; lia).
Qed.
End sha2.
