(* ===== verification/Md5.v ===== *)
(** * MD5: src/glib/gchecksum.c

    [md5_sum_init], [md5_transform], [md5_sum_update], [md5_sum_close] and the
    accessors. The 64-byte buffer is memory: the [data32] view of the union
    reads it as little-endian words (the host is little-endian, so
    [md5_byte_reverse] is empty). A write outside a buffer is [None]. *)

From S2P Require Import Prelude Digest ChecksumBase.
Local Open Scope Z_scope.
Local Open Scope xpl_scope.

(** ** Data *)

Definition MD5_DATASIZE : Z := 64.
Definition MD5_DIGEST_LEN : Z := 16.

Record Md5sum := {
  md5_buf : list Z;
  md5_bits0 : Z;
  md5_bits1 : Z;
  md5_data : list Z;
  md5_digest : list Z;
}.

(** ** The compression function *)

#[local] Abbreviation A := 0%nat.
#[local] Abbreviation B := 1%nat.
#[local] Abbreviation C := 2%nat.
#[local] Abbreviation D := 3%nat.

Definition F1 (x y z : Z) : Z := z xor (x & (y xor z)).
Definition F2 (x y z : Z) : Z := F1 z x y.
Definition F3 (x y z : Z) : Z := x xor y xor z.
Definition F4 (x y z : Z) : Z := y xor (x or u32 (Z.lnot z)).

Definition md5_step (f : Z -> Z -> Z -> Z) (w x y z : nat) (data s : Z) (r : list Z) : list Z :=
  let v := u32 (reg r w + (f (reg r x) (reg r y) (reg r z) + data)) in
  let v := u32 (v << s) or (v >> (32 - s)) in
  <[w := u32 (v + reg r x)]> r.

Definition md5_steps (inp : Z -> Z) : list (list Z -> list Z) := [
  md5_step F1 A B C D (inp 0 + 0xd76aa478) 7;
  md5_step F1 D A B C (inp 1 + 0xe8c7b756) 12;
  md5_step F1 C D A B (inp 2 + 0x242070db) 17;
  md5_step F1 B C D A (inp 3 + 0xc1bdceee) 22;
  md5_step F1 A B C D (inp 4 + 0xf57c0faf) 7;
  md5_step F1 D A B C (inp 5 + 0x4787c62a) 12;
  md5_step F1 C D A B (inp 6 + 0xa8304613) 17;
  md5_step F1 B C D A (inp 7 + 0xfd469501) 22;
  md5_step F1 A B C D (inp 8 + 0x698098d8) 7;
  md5_step F1 D A B C (inp 9 + 0x8b44f7af) 12;
  md5_step F1 C D A B (inp 10 + 0xffff5bb1) 17;
  md5_step F1 B C D A (inp 11 + 0x895cd7be) 22;
  md5_step F1 A B C D (inp 12 + 0x6b901122) 7;
  md5_step F1 D A B C (inp 13 + 0xfd987193) 12;
  md5_step F1 C D A B (inp 14 + 0xa679438e) 17;
  md5_step F1 B C D A (inp 15 + 0x49b40821) 22;
  md5_step F2 A B C D (inp 1 + 0xf61e2562) 5;
  md5_step F2 D A B C (inp 6 + 0xc040b340) 9;
  md5_step F2 C D A B (inp 11 + 0x265e5a51) 14;
  md5_step F2 B C D A (inp 0 + 0xe9b6c7aa) 20;
  md5_step F2 A B C D (inp 5 + 0xd62f105d) 5;
  md5_step F2 D A B C (inp 10 + 0x02441453) 9;
  md5_step F2 C D A B (inp 15 + 0xd8a1e681) 14;
  md5_step F2 B C D A (inp 4 + 0xe7d3fbc8) 20;
  md5_step F2 A B C D (inp 9 + 0x21e1cde6) 5;
  md5_step F2 D A B C (inp 14 + 0xc33707d6) 9;
  md5_step F2 C D A B (inp 3 + 0xf4d50d87) 14;
  md5_step F2 B C D A (inp 8 + 0x455a14ed) 20;
  md5_step F2 A B C D (inp 13 + 0xa9e3e905) 5;
  md5_step F2 D A B C (inp 2 + 0xfcefa3f8) 9;
  md5_step F2 C D A B (inp 7 + 0x676f02d9) 14;
  md5_step F2 B C D A (inp 12 + 0x8d2a4c8a) 20;
  md5_step F3 A B C D (inp 5 + 0xfffa3942) 4;
  md5_step F3 D A B C (inp 8 + 0x8771f681) 11;
  md5_step F3 C D A B (inp 11 + 0x6d9d6122) 16;
  md5_step F3 B C D A (inp 14 + 0xfde5380c) 23;
  md5_step F3 A B C D (inp 1 + 0xa4beea44) 4;
  md5_step F3 D A B C (inp 4 + 0x4bdecfa9) 11;
  md5_step F3 C D A B (inp 7 + 0xf6bb4b60) 16;
  md5_step F3 B C D A (inp 10 + 0xbebfbc70) 23;
  md5_step F3 A B C D (inp 13 + 0x289b7ec6) 4;
  md5_step F3 D A B C (inp 0 + 0xeaa127fa) 11;
  md5_step F3 C D A B (inp 3 + 0xd4ef3085) 16;
  md5_step F3 B C D A (inp 6 + 0x04881d05) 23;
  md5_step F3 A B C D (inp 9 + 0xd9d4d039) 4;
  md5_step F3 D A B C (inp 12 + 0xe6db99e5) 11;
  md5_step F3 C D A B (inp 15 + 0x1fa27cf8) 16;
  md5_step F3 B C D A (inp 2 + 0xc4ac5665) 23;
  md5_step F4 A B C D (inp 0 + 0xf4292244) 6;
  md5_step F4 D A B C (inp 7 + 0x432aff97) 10;
  md5_step F4 C D A B (inp 14 + 0xab9423a7) 15;
  md5_step F4 B C D A (inp 5 + 0xfc93a039) 21;
  md5_step F4 A B C D (inp 12 + 0x655b59c3) 6;
  md5_step F4 D A B C (inp 3 + 0x8f0ccc92) 10;
  md5_step F4 C D A B (inp 10 + 0xffeff47d) 15;
  md5_step F4 B C D A (inp 1 + 0x85845dd1) 21;
  md5_step F4 A B C D (inp 8 + 0x6fa87e4f) 6;
  md5_step F4 D A B C (inp 15 + 0xfe2ce6e0) 10;
  md5_step F4 C D A B (inp 6 + 0xa3014314) 15;
  md5_step F4 B C D A (inp 13 + 0x4e0811a1) 21;
  md5_step F4 A B C D (inp 4 + 0xf7537e82) 6;
  md5_step F4 D A B C (inp 11 + 0xbd3af235) 10;
  md5_step F4 C D A B (inp 2 + 0x2ad7d2bb) 15;
  md5_step F4 B C D A (inp 9 + 0xeb86d391) 21].

Definition md5_transform (buf inp : list Z) : list Z :=
  let r := run (md5_steps (tbl inp))
             [reg buf A; reg buf B; reg buf C; reg buf D] in
  [u32 (reg buf A + reg r A); u32 (reg buf B + reg r B);
   u32 (reg buf C + reg r C); u32 (reg buf D + reg r D)].

(** The [data32] view. *)
Definition data32 (data : list Z) : list Z := words le_value 4 16 data.

(** ** Operations *)

Definition md5_sum_init (md5 : Md5sum) : Md5sum := {|
  md5_buf := [0x67452301; 0xefcdab89; 0x98badcfe; 0x10325476];
  md5_bits0 := 0; md5_bits1 := 0;
  md5_data := md5_data md5; md5_digest := md5_digest md5;
|}.

Definition md5_set_data (md5 : Md5sum) (data : list Z) : Md5sum := {|
  md5_buf := md5_buf md5; md5_bits0 := md5_bits0 md5; md5_bits1 := md5_bits1 md5;
  md5_data := data; md5_digest := md5_digest md5;
|}.

(** [md5_transform (md5->buf, md5->u.data32)]. *)
Definition md5_transform_data (md5 : Md5sum) : Md5sum := {|
  md5_buf := md5_transform (md5_buf md5) (data32 (md5_data md5));
  md5_bits0 := md5_bits0 md5; md5_bits1 := md5_bits1 md5;
  md5_data := md5_data md5; md5_digest := md5_digest md5;
|}.

(** The bit count at the head of [md5_sum_update]. *)
Definition md5_count (md5 : Md5sum) (length : Z) : Md5sum :=
  let bit := md5_bits0 md5 in
  let bits0 := u32 (bit + u32 (u32 length << 3)) in
  let bits1 := if bits0 <? bit then u32 (md5_bits1 md5 + 1) else md5_bits1 md5 in
  {| md5_buf := md5_buf md5; md5_bits0 := bits0; md5_bits1 := u32 (bits1 + (length >> 29));
     md5_data := md5_data md5; md5_digest := md5_digest md5 |}.

(** The body of [while (length >= MD5_DATASIZE)]. *)
Definition md5_chunk (md5 : Md5sum) (chunk : list Z) : option Md5sum :=
  buffer ← write_at (md5_data md5) 0 chunk;
  Some (md5_transform_data (md5_set_data md5 buffer)).

(** From the loop to the end of [md5_sum_update]. *)
Definition md5_finish (md5 : Md5sum) (data : list Z) : option Md5sum :=
  '(md5, data) ← chunk_loop 64 md5_chunk (length data) md5 data;
  buffer ← write_at (md5_data md5) 0 data;
  Some (md5_set_data md5 buffer).

Definition md5_sum_update (md5 : Md5sum) (data : list Z) : option Md5sum :=
  let bit := (md5_bits0 md5 >> 3) & 0x3f in
  let md5 := md5_count md5 (zlen data) in
  if bit =? 0 then md5_finish md5 data
  else
    let p := bit in
    let bit := u32 (MD5_DATASIZE - bit) in
    if zlen data <? bit then
      buffer ← write_at (md5_data md5) p data;
      Some (md5_set_data md5 buffer)
    else
      buffer ← write_at (md5_data md5) p (take (Z.to_nat bit) data);
      md5_finish (md5_transform_data (md5_set_data md5 buffer)) (drop (Z.to_nat bit) data).

Definition md5_sum_close (md5 : Md5sum) : option Md5sum :=
  md5 ← pad_block md5_data md5_set_data md5_transform_data (md5_bits0 md5) md5;
  buffer ← write_at (md5_data md5) 56 (le_bytes 4 (md5_bits0 md5));
  buffer ← write_at buffer 60 (le_bytes 4 (md5_bits1 md5));
  let md5 := md5_transform_data (md5_set_data md5 buffer) in
  digest ← write_at (md5_digest md5) 0 (mjoin (map (le_bytes 4) (md5_buf md5)));
  Some {| md5_buf := replicate 4 0; md5_bits0 := md5_bits0 md5; md5_bits1 := md5_bits1 md5;
          md5_data := replicate 64 0; md5_digest := digest |}.

Definition md5_sum_to_string (md5 : Md5sum) : list Z := digest_to_string (md5_digest md5) 16.

Definition md5_sum_digest (md5 : Md5sum) (digest : list Z) : option (list Z) :=
  copy_digest 16 0 digest (md5_digest md5).
