(* ===== verification/Md5Stream.v ===== *)
(** * MD5 is the RFC 1321 digest

    The transform computes the compression function of the standard, and the
    buffer and the bit count represent the message that was fed. *)

From S2P Require Import Prelude Digest DigestBlocks ChecksumBase Md5.
Local Open Scope Z_scope.
Local Open Scope xpl_scope.

(** ** The transform *)

Definition md5_F (i : nat) : Z -> Z -> Z -> Z :=
  match (i / 16)%nat with O => F1 | 1%nat => F2 | 2%nat => F3 | _ => F4 end.

Definition md5_statement (inp : Z -> Z) (i : nat) : list Z -> list Z :=
  md5_step (md5_F i) (var 4 i 0) (var 4 i 1) (var 4 i 2) (var 4 i 3)
    (inp (Z.of_nat (md5_word i)) + nth i md5_constants 0) (md5_shift i).

(** The sixty-four lines of the source, constants, words and shifts included. *)
Lemma md5_steps_eq inp : md5_steps inp = map (md5_statement inp) (seq 0 64).
Proof. reflexivity. Qed.

Lemma md5_F_ok i x y z : md5_F i x y z = md5_function i x y z.
Proof.
  unfold md5_F, md5_function. destruct (i / 16)%nat as [|[|[|k]]]; [|unfold F2| |done].
  - apply choose_xor.
  - apply choose_xor.
  - done.
Qed.

Lemma md5_round_length x i h : length h = 4%nat -> length (md5_round x h i) = 4%nat.
Proof. intros. by destruct h as [|a [|b [|c [|d [|]]]]]. Qed.

Lemma md5_step_ok x i h :
  length h = 4%nat -> md5_statement (tbl x) i (rotate i h) = rotate (S i) (md5_round x h i).
Proof.
  intros Hh. rewrite (rotate_mod 4), (rotate_succ_mod 4) by (try apply md5_round_length; done).
  destruct h as [|a [|b [|c [|d [|]]]]]; try done. clear Hh.
  unfold md5_statement, md5_step, md5_round, var. rewrite tbl_nth.
  generalize (nth i md5_constants 0) (md5_shift i) (nth (md5_word i) x 0). intros k s w.
  assert (i mod 4 < 4)%nat as Hi by (by apply Nat.mod_upper_bound).
  destruct (i mod 4)%nat as [|[|[|[|n]]]]; [| | | |lia]; cbn -[md5_function md5_F Z.shiftl Z.shiftr Z.lor wrap];
  rewrite md5_F_ok, Z.add_comm, !Z.add_assoc, (Z.add_comm _ w), !Z.add_assoc; try done.
Qed.

Lemma md5_rounds_length x h :
  length h = 4%nat -> length (fold_left (md5_round x) (seq 0 64) h) = 4%nat.
Proof. exact (length_rounds 4 (fun i h => md5_round x h i) (fun i h => md5_round_length x i h) 64 0 h). Qed.

Lemma md5_compress_length h b : length h = 4%nat -> length (md5_compress h b) = 4%nat.
Proof.
  intros Hh. unfold md5_compress, add_words. rewrite length_zip_with, md5_rounds_length by done. lia.
Qed.

Lemma md5_transform_ok buf data :
  length buf = 4%nat -> md5_transform buf (data32 data) = md5_compress buf data.
Proof.
  intros Hb. unfold md5_transform, md5_compress. rewrite md5_steps_eq. fold (data32 data).
  destruct buf as [|a [|b [|c [|d [|]]]]]; try done. cbn [reg nth].
  rewrite (run_rounds 4 (md5_statement (tbl (data32 data)))
    (fun i h => md5_round (data32 data) h i) (fun i h => md5_round_length _ i h)
    (fun i h => md5_step_ok _ i h)) by done.
  change (fun (h : list Z) i => md5_round (data32 data) h i) with (md5_round (data32 data)).
  pose proof (md5_rounds_length (data32 data) [a; b; c; d] eq_refl) as Hl. revert Hl.
  generalize (fold_left (md5_round (data32 data)) (seq 0 64) [a; b; c; d]).
  intros r Hr. by destruct r as [|a' [|b' [|c' [|d' [|]]]]].
Qed.

(** ** The sum *)

#[export] Instance md5_buffered : BufferedSum Md5sum := {|
  bs_chain := md5_buf; bs_data := md5_data; bs_bits md5 := (md5_bits0 md5, md5_bits1 md5);
  bs_digest := md5_digest; bs_set_data := md5_set_data; bs_transform := md5_transform_data;
  bs_count := md5_count; bs_compress := md5_compress; bs_initial := md5_initial; bs_words := 4;
|}.

#[export] Instance md5_buffered_laws : BufferedSumLaws Md5sum.
Proof.
  split; try done.
  - intros md5 Hc Hd. split; [exact (md5_transform_ok _ _ Hc)|exact Hd].
  - intros md5 n k [= H0 H1]. unfold bit_count. cbn [bs_bits bs_count md5_buffered md5_count md5_bits0 md5_bits1].
    by rewrite H0, H1, bit_count_low, bit_count_high.
  - intros h b Hh _. by apply md5_compress_length.
Qed.

Lemma md5_absorb_words message : length (absorb 64 md5_compress md5_initial message) = 4%nat.
Proof. exact (bs_absorb_words (St := Md5sum) message). Qed.

Lemma md5_update_eq md5 d : md5_sum_update md5 d = bs_update md5 d.
Proof. done. Qed.

(** The sizes that the code relies on. *)
Definition md5_sized (md5 : Md5sum) : Prop :=
  length (md5_data md5) = 64%nat /\ length (md5_digest md5) = 16%nat.

(** A sum that was fed a message. *)
Definition md5_state (md5 : Md5sum) (message : list Z) : Prop :=
  bs_state md5 message /\ length (md5_digest md5) = 16%nat.

Lemma md5_sum_init_ok md5 : md5_sized md5 -> md5_state (md5_sum_init md5) [].
Proof. intros [Hl Hd]. split; [|done]. split; [|done]. by apply streams_start; [lia|]. Qed.

Lemma md5_sum_update_ok md5 message d :
  md5_state md5 message ->
  exists md5', md5_sum_update md5 d = Some md5' /\ md5_state md5' (message ++ d).
Proof.
  intros [Hs Hd]. rewrite md5_update_eq. destruct (bs_update_ok md5 message d Hs) as (md5' & -> & Hs' & E).
  exists md5'. split; [done|]. split; [done|]. cbn in E. by rewrite E.
Qed.

(** The digest of a closed sum is that of the message it was fed. *)
Lemma md5_sum_close_ok md5 message :
  md5_state md5 message ->
  exists md5', md5_sum_close md5 = Some md5' /\ md5_digest md5' = Digest.md5 message /\ md5_sized md5'.
Proof.
  intros [Hs Hd]. pose proof Hs as [_ Hb]. unfold md5_sum_close.
  destruct (bs_pad_ok md5 message (le_bytes 8) Hs (le_bytes_length 8))
    as (md5' & front & last & Hp & Hdata & Hf & Hl & [Hb' Hd'] & Hlen & Ha).
  cbn [bs_data bs_set_data bs_transform bs_bits bs_digest bs_chain bs_words bs_compress bs_initial
    md5_buffered fst] in *.
  rewrite Hp. cbn [mbind option_bind]. rewrite Hb in Hb'. injection Hb' as -> ->.
  destruct (write_length front last (le_bytes 4 (u32 (8 * zlen message)))
    (le_bytes 4 (u32 (8 * zlen message / 2 ^ 32)))) as (data & Hw1 & Hw2); [done..|].
  rewrite Hdata, Hw1. cbn [mbind option_bind]. rewrite Hw2, le_bytes_count. cbn [mbind option_bind].
  cbn [md5_transform_data md5_set_data md5_buf md5_data md5_digest].
  rewrite md5_transform_ok, <- Ha, Hd' by done. fold (Digest.md5 message).
  assert (length (Digest.md5 message) = 16%nat) as Hm.
  { unfold Digest.md5. by rewrite join_le_bytes_length, md5_absorb_words. }
  rewrite write_at_all by (unfold zlen; rewrite ?Hd, ?Hm; lia). cbn [mbind option_bind].
  rewrite Hm, drop_ge, app_nil_r by lia. eexists. by repeat split.
Qed.
