(* ===== verification/Sha1.v ===== *)
(** * SHA-1: src/glib/gchecksum.c

    [sha1_sum_init], [sha1_transform], [sha1_sum_update], [sha1_sum_close] and
    the accessors. The sixteen words of [data] are memory of a little-endian
    host: 64 bytes that [memcpy] fills, that [sha_byte_reverse] turns into
    big-endian words, and that the transform overwrites with the words it
    expands. *)

From S2P Require Import Prelude Digest ChecksumBase.
Local Open Scope Z_scope.
Local Open Scope xpl_scope.

(** ** Data *)

Definition SHA1_DATASIZE : Z := 64.
Definition SHA1_DIGEST_LEN : Z := 20.

Record Sha1sum := {
  sha1_buf : list Z;
  sha1_bits0 : Z;
  sha1_bits1 : Z;
  sha1_data : list Z;
  sha1_digest : list Z;
}.

(** Swaps the bytes of [n] words. *)
Fixpoint swap_words (n : nat) (buffer : list Z) : list Z :=
  match n with
  | O => buffer
  | S n => reverse (take 4 buffer) ++ swap_words n (drop 4 buffer)
  end.

Definition sha_byte_reverse (buffer : list Z) (length : Z) : list Z :=
  swap_words (Z.to_nat (length / 4)) buffer.

(** ** The compression function *)

#[local] Abbreviation A := 0%nat.
#[local] Abbreviation B := 1%nat.
#[local] Abbreviation C := 2%nat.
#[local] Abbreviation D := 3%nat.
#[local] Abbreviation E := 4%nat.

Definition f1 (x y z : Z) : Z := z xor (x & (y xor z)).
Definition f2 (x y z : Z) : Z := x xor y xor z.
Definition f3 (x y z : Z) : Z := (x & y) or (z & (x or y)).
Definition f4 (x y z : Z) : Z := x xor y xor z.

Definition K1 : Z := 0x5A827999.
Definition K2 : Z := 0x6ED9EBA1.
Definition K3 : Z := 0x8F1BBCDC.
Definition K4 : Z := 0xCA62C1D6.

Definition ROTL (n X : Z) : Z := u32 (X << n) or (X >> (32 - n)).

(** An operand of a sub-round: its value, and the words after its evaluation. *)
Definition word (i : Z) (W : list Z) : Z * list Z := (tbl W i, W).

Definition expand (i : Z) (W : list Z) : Z * list Z :=
  let v := ROTL 1 (tbl W (i & 15) xor tbl W ((i - 14) & 15) xor
                   tbl W ((i - 8) & 15) xor tbl W ((i - 3) & 15)) in
  (v, <[Z.to_nat (i & 15) := v]> W).

Definition subRound (a b c d e : nat) (f : Z -> Z -> Z -> Z) (k : Z)
    (data : list Z -> Z * list Z) (st : list Z * list Z) : list Z * list Z :=
  let '(r, W) := st in
  let '(x, W) := data W in
  let r := <[e := u32 (reg r e + (ROTL 5 (reg r a) + f (reg r b) (reg r c) (reg r d) + k + x))]> r in
  let r := <[b := ROTL 30 (reg r b)]> r in
  (r, W).

Definition sha1_sub_rounds : list (list Z * list Z -> list Z * list Z) := [
  subRound A B C D E f1 K1 (word 0);
  subRound E A B C D f1 K1 (word 1);
  subRound D E A B C f1 K1 (word 2);
  subRound C D E A B f1 K1 (word 3);
  subRound B C D E A f1 K1 (word 4);
  subRound A B C D E f1 K1 (word 5);
  subRound E A B C D f1 K1 (word 6);
  subRound D E A B C f1 K1 (word 7);
  subRound C D E A B f1 K1 (word 8);
  subRound B C D E A f1 K1 (word 9);
  subRound A B C D E f1 K1 (word 10);
  subRound E A B C D f1 K1 (word 11);
  subRound D E A B C f1 K1 (word 12);
  subRound C D E A B f1 K1 (word 13);
  subRound B C D E A f1 K1 (word 14);
  subRound A B C D E f1 K1 (word 15);
  subRound E A B C D f1 K1 (expand 16);
  subRound D E A B C f1 K1 (expand 17);
  subRound C D E A B f1 K1 (expand 18);
  subRound B C D E A f1 K1 (expand 19);
  subRound A B C D E f2 K2 (expand 20);
  subRound E A B C D f2 K2 (expand 21);
  subRound D E A B C f2 K2 (expand 22);
  subRound C D E A B f2 K2 (expand 23);
  subRound B C D E A f2 K2 (expand 24);
  subRound A B C D E f2 K2 (expand 25);
  subRound E A B C D f2 K2 (expand 26);
  subRound D E A B C f2 K2 (expand 27);
  subRound C D E A B f2 K2 (expand 28);
  subRound B C D E A f2 K2 (expand 29);
  subRound A B C D E f2 K2 (expand 30);
  subRound E A B C D f2 K2 (expand 31);
  subRound D E A B C f2 K2 (expand 32);
  subRound C D E A B f2 K2 (expand 33);
  subRound B C D E A f2 K2 (expand 34);
  subRound A B C D E f2 K2 (expand 35);
  subRound E A B C D f2 K2 (expand 36);
  subRound D E A B C f2 K2 (expand 37);
  subRound C D E A B f2 K2 (expand 38);
  subRound B C D E A f2 K2 (expand 39);
  subRound A B C D E f3 K3 (expand 40);
  subRound E A B C D f3 K3 (expand 41);
  subRound D E A B C f3 K3 (expand 42);
  subRound C D E A B f3 K3 (expand 43);
  subRound B C D E A f3 K3 (expand 44);
  subRound A B C D E f3 K3 (expand 45);
  subRound E A B C D f3 K3 (expand 46);
  subRound D E A B C f3 K3 (expand 47);
  subRound C D E A B f3 K3 (expand 48);
  subRound B C D E A f3 K3 (expand 49);
  subRound A B C D E f3 K3 (expand 50);
  subRound E A B C D f3 K3 (expand 51);
  subRound D E A B C f3 K3 (expand 52);
  subRound C D E A B f3 K3 (expand 53);
  subRound B C D E A f3 K3 (expand 54);
  subRound A B C D E f3 K3 (expand 55);
  subRound E A B C D f3 K3 (expand 56);
  subRound D E A B C f3 K3 (expand 57);
  subRound C D E A B f3 K3 (expand 58);
  subRound B C D E A f3 K3 (expand 59);
  subRound A B C D E f4 K4 (expand 60);
  subRound E A B C D f4 K4 (expand 61);
  subRound D E A B C f4 K4 (expand 62);
  subRound C D E A B f4 K4 (expand 63);
  subRound B C D E A f4 K4 (expand 64);
  subRound A B C D E f4 K4 (expand 65);
  subRound E A B C D f4 K4 (expand 66);
  subRound D E A B C f4 K4 (expand 67);
  subRound C D E A B f4 K4 (expand 68);
  subRound B C D E A f4 K4 (expand 69);
  subRound A B C D E f4 K4 (expand 70);
  subRound E A B C D f4 K4 (expand 71);
  subRound D E A B C f4 K4 (expand 72);
  subRound C D E A B f4 K4 (expand 73);
  subRound B C D E A f4 K4 (expand 74);
  subRound A B C D E f4 K4 (expand 75);
  subRound E A B C D f4 K4 (expand 76);
  subRound D E A B C f4 K4 (expand 77);
  subRound C D E A B f4 K4 (expand 78);
  subRound B C D E A f4 K4 (expand 79)].

(** The new [buf], and what is left in [in]. *)
Definition sha1_transform (buf inp : list Z) : list Z * list Z :=
  let '(r, W) := run sha1_sub_rounds
    ([reg buf A; reg buf B; reg buf C; reg buf D; reg buf E], inp) in
  ([u32 (reg buf A + reg r A); u32 (reg buf B + reg r B); u32 (reg buf C + reg r C);
    u32 (reg buf D + reg r D); u32 (reg buf E + reg r E)], W).

(** ** Operations *)

Definition sha1_sum_init (sha1 : Sha1sum) : Sha1sum := {|
  sha1_buf := [0x67452301; 0xEFCDAB89; 0x98BADCFE; 0x10325476; 0xC3D2E1F0];
  sha1_bits0 := 0; sha1_bits1 := 0;
  sha1_data := sha1_data sha1; sha1_digest := sha1_digest sha1;
|}.

Definition sha1_set_data (sha1 : Sha1sum) (data : list Z) : Sha1sum := {|
  sha1_buf := sha1_buf sha1; sha1_bits0 := sha1_bits0 sha1; sha1_bits1 := sha1_bits1 sha1;
  sha1_data := data; sha1_digest := sha1_digest sha1;
|}.

(** [sha1_transform (sha1->buf, sha1->data)]: the words are read from the
    bytes and written back. *)
Definition sha1_transform_words (sha1 : Sha1sum) : Sha1sum :=
  let '(buf, W) := sha1_transform (sha1_buf sha1) (words le_value 4 16 (sha1_data sha1)) in
  {| sha1_buf := buf; sha1_bits0 := sha1_bits0 sha1; sha1_bits1 := sha1_bits1 sha1;
     sha1_data := mjoin (map (le_bytes 4) W); sha1_digest := sha1_digest sha1 |}.

Definition sha1_transform_data (sha1 : Sha1sum) : Sha1sum :=
  sha1_transform_words (sha1_set_data sha1 (sha_byte_reverse (sha1_data sha1) SHA1_DATASIZE)).

(** The bit count at the head of [sha1_sum_update]. *)
Definition sha1_count (sha1 : Sha1sum) (count : Z) : Sha1sum :=
  let tmp := sha1_bits0 sha1 in
  let bits0 := u32 (tmp + u32 (u32 count << 3)) in
  let bits1 := if bits0 <? tmp then u32 (sha1_bits1 sha1 + 1) else sha1_bits1 sha1 in
  {| sha1_buf := sha1_buf sha1; sha1_bits0 := bits0; sha1_bits1 := u32 (bits1 + (count >> 29));
     sha1_data := sha1_data sha1; sha1_digest := sha1_digest sha1 |}.

(** The body of [while (count >= SHA1_DATASIZE)]. *)
Definition sha1_chunk (sha1 : Sha1sum) (chunk : list Z) : option Sha1sum :=
  data ← write_at (sha1_data sha1) 0 chunk;
  Some (sha1_transform_data (sha1_set_data sha1 data)).

(** From the loop to the end of [sha1_sum_update]. *)
Definition sha1_finish (sha1 : Sha1sum) (buffer : list Z) : option Sha1sum :=
  '(sha1, buffer) ← chunk_loop 64 sha1_chunk (length buffer) sha1 buffer;
  data ← write_at (sha1_data sha1) 0 buffer;
  Some (sha1_set_data sha1 data).

Definition sha1_sum_update (sha1 : Sha1sum) (buffer : list Z) : option Sha1sum :=
  let dataCount := (sha1_bits0 sha1 >> 3) & 0x3F in
  let sha1 := sha1_count sha1 (zlen buffer) in
  if dataCount =? 0 then sha1_finish sha1 buffer
  else
    let p := dataCount in
    let dataCount := u32 (SHA1_DATASIZE - dataCount) in
    if zlen buffer <? dataCount then
      data ← write_at (sha1_data sha1) p buffer;
      Some (sha1_set_data sha1 data)
    else
      data ← write_at (sha1_data sha1) p (take (Z.to_nat dataCount) buffer);
      sha1_finish (sha1_transform_data (sha1_set_data sha1 data)) (drop (Z.to_nat dataCount) buffer).

Definition sha1_sum_close (sha1 : Sha1sum) : option Sha1sum :=
  sha1 ← pad_block sha1_data sha1_set_data sha1_transform_data (sha1_bits0 sha1) sha1;
  data ← write_at (sha1_data sha1) 56 (le_bytes 4 (sha1_bits1 sha1));
  data ← write_at data 60 (le_bytes 4 (sha1_bits0 sha1));
  let sha1 := sha1_transform_words (sha1_set_data sha1 (sha_byte_reverse data (SHA1_DATASIZE - 8))) in
  digest ← write_at (sha1_digest sha1) 0
             (sha_byte_reverse (mjoin (map (le_bytes 4) (sha1_buf sha1))) SHA1_DIGEST_LEN);
  Some {| sha1_buf := replicate 5 0; sha1_bits0 := sha1_bits0 sha1; sha1_bits1 := sha1_bits1 sha1;
          sha1_data := replicate 64 0; sha1_digest := digest |}.

Definition sha1_sum_to_string (sha1 : Sha1sum) : list Z := digest_to_string (sha1_digest sha1) 20.

Definition sha1_sum_digest (sha1 : Sha1sum) (digest : list Z) : option (list Z) :=
  copy_digest 20 0 digest (sha1_digest sha1).
