(* ===== verification/Sha1Stream.v ===== *)
(** * SHA-1 is the FIPS 180-4 digest

    The sixteen words of the circular buffer are the last sixteen of the
    message schedule, the sub-rounds are the rounds of the standard with the
    variables renamed, and the state represents the message that was fed. *)

From S2P Require Import Prelude Digest DigestBlocks ChecksumBase Sha1.
Local Open Scope Z_scope.
Local Open Scope xpl_scope.

(** ** The transform *)

Definition sha1_f (i : nat) : Z -> Z -> Z -> Z :=
  match (i / 20)%nat with O => f1 | 1%nat => f2 | 2%nat => f3 | _ => f4 end.

Definition sha1_operand (i : nat) : list Z -> Z * list Z :=
  if (i <? 16)%nat then word (Z.of_nat i) else expand (Z.of_nat i).

Definition sha1_statement (i : nat) : list Z * list Z -> list Z * list Z :=
  subRound (var 5 i 0) (var 5 i 1) (var 5 i 2) (var 5 i 3) (var 5 i 4) (sha1_f i)
    (sha1_constant i) (sha1_operand i).

(** The eighty lines of the source. *)
Lemma sha1_sub_rounds_eq : sha1_sub_rounds = map sha1_statement (seq 0 80).
Proof. reflexivity. Qed.

Lemma sha1_f_ok i x y z : (i < 80)%nat -> sha1_f i x y z = sha1_function i x y z.
Proof.
  intros Hi. unfold sha1_f, sha1_function.
  destruct (i / 20)%nat as [|[|[|k]]]; [|done| |done].
  - apply choose_xor.
  - apply majority_or.
Qed.

Definition sha1_words (block : list Z) : list Z := schedule sha1_next 64 (words be_value 4 16 block).

Lemma sha1_next_ext f g : (forall k, (0 < k)%nat -> f k = g k) -> sha1_next f = sha1_next g.
Proof. intros E. unfold sha1_next. by rewrite !E by lia. Qed.

Section transform.
Context (block : list Z).
Local Abbreviation w := (sha1_words block).

(** Before round [i], the circular buffer holds the words [i - 16] to [i - 1]
    (or the block, at first). *)
Definition sha1_ring (i : nat) (W : list Z) : Prop :=
  length W = 16%nat /\
  forall k, (k < Nat.max i 16)%nat -> (Nat.max i 16 <= k + 16)%nat -> nth (k mod 16) W 0 = nth k w 0.

Lemma sha1_ring_start : sha1_ring 0 (words be_value 4 16 block).
Proof.
  split; [apply words_length|]. intros k Hk _. rewrite Nat.mod_small by lia.
  unfold sha1_words. by rewrite schedule_block by (rewrite words_length; lia).
Qed.

(** A word of the ring, by its distance. *)
Lemma sha1_ring_at i W back b :
  sha1_ring i W -> b = Z.of_nat back -> (16 <= i)%nat -> (0 < back <= 16)%nat ->
  tbl W ((Z.of_nat i - b) & 15) = nth (i - back) w 0.
Proof.
  intros [Hl HW] -> Hi Hb. change 15 with (2 ^ 4 - 1). rewrite land_low by lia.
  rewrite <- Nat2Z.inj_sub by lia. change (2 ^ 4) with (Z.of_nat 16).
  rewrite <- Nat2Z.inj_mod, tbl_nth. apply HW; lia.
Qed.

Lemma sha1_operand_ok i W :
  (i < 80)%nat -> sha1_ring i W ->
  exists W', sha1_operand i W = (nth i w 0, W') /\ sha1_ring (S i) W'.
Proof.
  intros Hi Hr. unfold sha1_operand. destruct (Nat.ltb_spec i 16) as [Hlt|Hge].
  - exists W. destruct Hr as [Hl HW]. unfold word. rewrite tbl_nth.
    rewrite <- (HW i) by lia. rewrite Nat.mod_small by lia. split; [done|].
    split; [done|]. by rewrite Nat.max_r in * by lia.
  - unfold expand. rewrite (sha1_ring_at i W 14 14), (sha1_ring_at i W 8 8), (sha1_ring_at i W 3 3) by (done || lia).
    assert (Z.of_nat i & 15 = (Z.of_nat i - 16) & 15) as E.
    { change 15 with (2 ^ 4 - 1). rewrite !land_low by lia. change (2 ^ 4) with (Z.of_nat 16).
      change 16 with (Z.of_nat 16). rewrite Zminus_mod, Z_mod_same_full, Z.sub_0_r, Z.mod_mod by lia. done. }
    replace (tbl W (Z.of_nat i & 15)) with (nth (i - 16) w 0)
      by (rewrite E; symmetry; apply (sha1_ring_at i W 16 16); (done || lia)).
    assert (ROTL 1 (nth (i - 16) w 0 xor nth (i - 14) w 0 xor nth (i - 8) w 0 xor nth (i - 3) w 0) =
      nth i w 0) as ->.
    { unfold sha1_words at 5. rewrite (schedule_next _ sha1_next_ext) by (rewrite ?words_length; lia).
      unfold sha1_next, rotl, ROTL. fold (sha1_words block).
      replace (nth (i - 16) w 0 xor nth (i - 14) w 0 xor nth (i - 8) w 0 xor nth (i - 3) w 0) with
        (nth (i - 3) w 0 xor nth (i - 8) w 0 xor nth (i - 14) w 0 xor nth (i - 16) w 0); [done|bitwise]. }
    eexists. split; [done|]. destruct Hr as [Hl HW]. split; [by rewrite length_insert|].
    intros k Hk1 Hk2. change 15 with (2 ^ 4 - 1). rewrite land_low by lia.
    change (2 ^ 4) with (Z.of_nat 16). rewrite <- Nat2Z.inj_mod, Nat2Z.id, nth_lookup.
    destruct (Nat.eq_dec k i) as [->|Hne].
    + by rewrite list_lookup_insert_eq by (rewrite Hl; by apply Nat.mod_upper_bound).
    + rewrite list_lookup_insert_ne, <- nth_lookup; [apply HW; lia|].
      intros Em. assert (i = k + 16 \/ k = i)%nat; [|lia].
      pose proof (Nat.div_mod_eq i 16). pose proof (Nat.div_mod_eq k 16). lia.
Qed.

Lemma sha1_round_length i h : length h = 5%nat -> length (sha1_round w h i) = 5%nat.
Proof. intros. by destruct h as [|a [|b [|c [|d [|e [|]]]]]]. Qed.

Lemma sha1_step_ok i h W :
  (i < 80)%nat -> length h = 5%nat -> sha1_ring i W ->
  exists W', sha1_statement i (rotate i h, W) = (rotate (S i) (sha1_round w h i), W') /\
             sha1_ring (S i) W'.
Proof.
  intros Hi Hh HW. destruct (sha1_operand_ok i W Hi HW) as (W' & E & HW').
  exists W'. split; [|done]. unfold sha1_statement, subRound. rewrite E.
  rewrite (rotate_mod 5), (rotate_succ_mod 5) by (try apply sha1_round_length; done).
  f_equal. destruct h as [|a [|b [|c [|d [|e [|]]]]]]; try done. clear Hh E HW.
  unfold sha1_round, var. generalize (nth i w 0) (sha1_constant i). intros x k.
  assert (i mod 5 < 5)%nat as Hm by (by apply Nat.mod_upper_bound).
  destruct (i mod 5)%nat as [|[|[|[|[|n]]]]]; [| | | | |lia];
    cbn -[sha1_f sha1_function Z.shiftl Z.shiftr Z.lor wrap ROTL rotl];
    rewrite (sha1_f_ok i) by done;
    rewrite (Z.add_comm e), <- !Z.add_assoc, ?(Z.add_comm e), <- !Z.add_assoc; try done.
Qed.

Lemma sha1_compress_eq h :
  sha1_compress h block = add_words 32 h (fold_left (sha1_round w) (seq 0 80) h).
Proof. unfold sha1_compress, sha1_words. cbv zeta. reflexivity. Qed.

Lemma sha1_transform_ok buf :
  length buf = 5%nat ->
  exists W, sha1_transform buf (words be_value 4 16 block) = (sha1_compress buf block, W) /\
            length W = 16%nat /\ length (sha1_compress buf block) = 5%nat.
Proof.
  intros Hb. unfold sha1_transform. rewrite sha1_sub_rounds_eq.
  destruct buf as [|a [|b [|c [|d [|e [|]]]]]]; try done. cbn [reg nth].
  destruct (run_rounds_memory 5 80 (fun h => length h = 5%nat) sha1_ring sha1_statement
    (fun i h => sha1_round w h i) (fun h Hh => Hh) (fun i h _ => sha1_round_length i h) sha1_step_ok
    [a; b; c; d; e] _ eq_refl eq_refl sha1_ring_start) as (W & -> & Hl & HW).
  exists W. rewrite sha1_compress_eq. revert Hl.
  change (fun (h : list Z) i => sha1_round w h i) with (sha1_round w).
  generalize (fold_left (sha1_round w) (seq 0 80) [a; b; c; d; e]).
  intros r Hr. destruct r as [|a' [|b' [|c' [|d' [|e' [|]]]]]]; try done.
  split; [done|]. by split; [apply HW|].
Qed.
End transform.

(** ** Bytes and words *)

Lemma swap_words_length n l : (4 * n <= length l)%nat -> length (swap_words n l) = length l.
Proof.
  revert l. induction n as [|n IH]; intros l Hl; cbn [swap_words]; [done|].
  rewrite length_app, length_reverse, length_take, IH, length_drop by (rewrite length_drop; lia). lia.
Qed.

(** The words read after the bytes of [n] of them were swapped. *)
Lemma words_swap n l rest :
  length l = (4 * n)%nat -> words le_value 4 n (swap_words n l ++ rest) = words be_value 4 n l.
Proof.
  revert l. induction n as [|n IH]; intros l Hl; cbn [swap_words words]; [done|].
  assert (length (reverse (take 4 l)) = 4%nat) as E by (rewrite length_reverse, length_take; lia).
  rewrite <- app_assoc, take_app_length', drop_app_length' by done.
  rewrite IH by (rewrite length_drop; lia). done.
Qed.

Lemma swap_words_app n l rest :
  (4 * n <= length l)%nat -> swap_words n (l ++ rest) = swap_words n l ++ rest.
Proof.
  revert l. induction n as [|n IH]; intros l Hl; cbn [swap_words]; [done|].
  rewrite take_app_le, drop_app_le, IH by (rewrite ?length_drop; lia). by rewrite app_assoc.
Qed.

(** A word stored by a little-endian host, swapped, is in big-endian order. *)
Lemma swap_le_bytes ws :
  swap_words (length ws) (mjoin (map (le_bytes 4) ws)) = mjoin (map (be_bytes 4) ws).
Proof.
  induction ws as [|x ws IH]; [done|].
  change (mjoin (map (le_bytes 4) (x :: ws))) with (le_bytes 4 x ++ mjoin (map (le_bytes 4) ws)).
  change (mjoin (map (be_bytes 4) (x :: ws))) with (be_bytes 4 x ++ mjoin (map (be_bytes 4) ws)).
  cbn [length swap_words].
  rewrite take_app_length', drop_app_length' by (symmetry; apply le_bytes_length). by rewrite IH.
Qed.

(** ** The sum *)

#[local] Opaque sha1_transform.

Lemma sha1_transform_words_ok sha1 block :
  length (sha1_buf sha1) = 5%nat -> words le_value 4 16 (sha1_data sha1) = words be_value 4 16 block ->
  sha1_buf (sha1_transform_words sha1) = sha1_compress (sha1_buf sha1) block /\
  length (sha1_data (sha1_transform_words sha1)) = 64%nat.
Proof.
  intros Hb E. unfold sha1_transform_words. rewrite E.
  destruct (sha1_transform_ok block _ Hb) as (W & -> & HW & _). split; [done|].
  cbn [sha1_data]. by rewrite join_le_bytes_length, HW.
Qed.

#[export] Instance sha1_buffered : BufferedSum Sha1sum := {|
  bs_chain := sha1_buf; bs_data := sha1_data; bs_bits sha1 := (sha1_bits0 sha1, sha1_bits1 sha1);
  bs_digest := sha1_digest; bs_set_data := sha1_set_data; bs_transform := sha1_transform_data;
  bs_count := sha1_count; bs_compress := sha1_compress; bs_initial := sha1_initial; bs_words := 5;
|}.

Lemma sha1_transform_same sha1 :
  sha1_bits0 (sha1_transform_words sha1) = sha1_bits0 sha1 /\
  sha1_bits1 (sha1_transform_words sha1) = sha1_bits1 sha1 /\
  sha1_digest (sha1_transform_words sha1) = sha1_digest sha1.
Proof. unfold sha1_transform_words. by destruct (sha1_transform _ _). Qed.

#[export] Instance sha1_buffered_laws : BufferedSumLaws Sha1sum.
Proof.
  split; try done.
  - intros sha1 Hc Hd. apply (sha1_transform_words_ok (sha1_set_data sha1 _)); [exact Hc|].
    cbn [sha1_set_data sha1_data]. rewrite <- (app_nil_r (sha_byte_reverse _ _)).
    by apply (words_swap 16).
  - intros sha1 n k [= H0 H1]. unfold bit_count.
    cbn [bs_bits bs_count sha1_buffered sha1_count sha1_bits0 sha1_bits1].
    by rewrite H0, H1, bit_count_low, bit_count_high.
  - intros h b Hh _. by destruct (sha1_transform_ok b h Hh) as (W & _ & _ & E).
Qed.

Lemma sha1_absorb_words message : length (absorb 64 sha1_compress sha1_initial message) = 5%nat.
Proof. exact (bs_absorb_words (St := Sha1sum) message). Qed.

Lemma sha1_update_eq sha1 d : sha1_sum_update sha1 d = bs_update sha1 d.
Proof. reflexivity. Qed.

(** The sizes that the code relies on. *)
Definition sha1_sized (sha1 : Sha1sum) : Prop :=
  length (sha1_data sha1) = 64%nat /\ length (sha1_digest sha1) = 20%nat.

(** A sum that was fed a message. *)
Definition sha1_state (sha1 : Sha1sum) (message : list Z) : Prop :=
  bs_state sha1 message /\ length (sha1_digest sha1) = 20%nat.

Lemma sha1_sum_init_ok sha1 : sha1_sized sha1 -> sha1_state (sha1_sum_init sha1) [].
Proof. intros [Hl Hd]. split; [|done]. split; [|done]. by apply streams_start; [lia|]. Qed.

Lemma sha1_sum_update_ok sha1 message d :
  sha1_state sha1 message ->
  exists sha1', sha1_sum_update sha1 d = Some sha1' /\ sha1_state sha1' (message ++ d).
Proof.
  intros [Hs Hd]. rewrite sha1_update_eq. destruct (bs_update_ok sha1 message d Hs) as (sha1' & -> & Hs' & E).
  exists sha1'. split; [done|]. split; [done|]. cbn in E. by rewrite E.
Qed.

(** The length is stored as two words, and the swap leaves these alone. *)
Lemma sha1_last_words front n :
  length front = 56%nat ->
  words le_value 4 16 (sha_byte_reverse
    (front ++ le_bytes 4 (u32 (8 * n / 2 ^ 32)) ++ le_bytes 4 (u32 (8 * n))) (SHA1_DATASIZE - 8)) =
  words be_value 4 16 (front ++ be_bytes 8 (8 * n)).
Proof.
  intros Hf. rewrite <- be_bytes_count. change (sha_byte_reverse ?l _) with (swap_words 14 l).
  rewrite swap_words_app by lia. change 16%nat with (14 + 2)%nat.
  rewrite !block_words_app by (rewrite ?swap_words_length; lia). f_equal.
  rewrite <- (app_nil_r (swap_words 14 front)). by apply words_swap.
Qed.

(** The digest of a closed sum is that of the message it was fed. *)
Lemma sha1_sum_close_ok sha1 message :
  sha1_state sha1 message ->
  exists sha1', sha1_sum_close sha1 = Some sha1' /\ sha1_digest sha1' = Digest.sha1 message /\ sha1_sized sha1'.
Proof.
  intros [Hs Hd]. pose proof Hs as [_ Hb]. unfold sha1_sum_close.
  destruct (bs_pad_ok sha1 message (be_bytes 8) Hs (be_bytes_length 8))
    as (sha1' & front & last & Hp & Hdata & Hf & Hl & [Hb' Hd'] & Hlen & Ha).
  cbn [bs_data bs_set_data bs_transform bs_bits bs_digest bs_chain bs_words bs_compress bs_initial
    sha1_buffered fst] in *.
  rewrite Hp. cbn [mbind option_bind]. rewrite Hb in Hb'. injection Hb' as -> ->.
  destruct (write_length front last (le_bytes 4 (u32 (8 * zlen message / 2 ^ 32)))
    (le_bytes 4 (u32 (8 * zlen message)))) as (data & Hw1 & Hw2); [done..|].
  rewrite Hdata, Hw1. cbn [mbind option_bind]. rewrite Hw2. cbn [mbind option_bind].
  set (st := sha1_set_data _ _). destruct (sha1_transform_words_ok st
    (front ++ be_bytes 8 (8 * zlen message)) Hlen (sha1_last_words front _ Hf)) as [Hc _].
  destruct (sha1_transform_same st) as (_ & _ & ->). rewrite Hc.
  change (sha1_buf st) with (sha1_buf sha1'). change (sha1_digest st) with (sha1_digest sha1').
  rewrite <- Ha, Hd'.
  assert (sha_byte_reverse (mjoin (map (le_bytes 4)
    (absorb 64 sha1_compress sha1_initial (pad 64 8 (be_bytes 8) message)))) SHA1_DIGEST_LEN =
    Digest.sha1 message) as ->.
  { pose proof (swap_le_bytes (absorb 64 sha1_compress sha1_initial (pad 64 8 (be_bytes 8) message))) as E.
    rewrite sha1_absorb_words in E. exact E. }
  assert (length (Digest.sha1 message) = 20%nat) as Hm.
  { unfold Digest.sha1. by rewrite join_be_bytes_length, sha1_absorb_words. }
  rewrite write_at_all by (unfold zlen; rewrite ?Hd, ?Hm; lia). cbn [mbind option_bind].
  rewrite Hm, drop_ge, app_nil_r by lia. eexists. by repeat split.
Qed.
