(* ===== verification/Sha256.v ===== *)
(** * SHA-256: src/glib/gchecksum.c

    [sha256_sum_init], [sha256_transform], [sha256_sum_update],
    [sha256_sum_close] and the accessors. Here [bits] counts bytes. *)

From S2P Require Import Prelude Digest ChecksumBase.
Local Open Scope Z_scope.
Local Open Scope xpl_scope.

(** ** Data *)

Definition SHA256_DATASIZE : Z := 64.
Definition SHA256_DIGEST_LEN : Z := 32.

Record Sha256sum := {
  sha256_buf : list Z;
  sha256_bits0 : Z;
  sha256_bits1 : Z;
  sha256_data : list Z;
  sha256_digest : list Z;
}.

(** ** The compression function *)

#[local] Abbreviation A := 0%nat.
#[local] Abbreviation B := 1%nat.
#[local] Abbreviation C := 2%nat.
#[local] Abbreviation D := 3%nat.
#[local] Abbreviation E := 4%nat.
#[local] Abbreviation F := 5%nat.
#[local] Abbreviation G := 6%nat.
#[local] Abbreviation H := 7%nat.

Definition GET_UINT32 (b : list Z) (i : Z) : Z :=
  (tbl b i << 24) or (tbl b (i + 1) << 16) or (tbl b (i + 2) << 8) or tbl b (i + 3).

(** The four bytes that [PUT_UINT32] stores. *)
Definition PUT_UINT32 (n : Z) : list Z := [u8 (n >> 24); u8 (n >> 16); u8 (n >> 8); u8 n].

Definition SHR (x n : Z) : Z := (x & 0xFFFFFFFF) >> n.
Definition ROTR (x n : Z) : Z := SHR x n or u32 (x << (32 - n)).

Definition S0 (x : Z) : Z := ROTR x 7 xor ROTR x 18 xor SHR x 3.
Definition S1 (x : Z) : Z := ROTR x 17 xor ROTR x 19 xor SHR x 10.
Definition S2 (x : Z) : Z := ROTR x 2 xor ROTR x 13 xor ROTR x 22.
Definition S3 (x : Z) : Z := ROTR x 6 xor ROTR x 11 xor ROTR x 25.

Definition F0 (x y z : Z) : Z := (x & y) or (z & (x or y)).
Definition F1 (x y z : Z) : Z := z xor (x & (y xor z)).

(** [W[t]], and [R(t)], which computes it first: the value, and [W] after it. *)
Definition word (t : Z) (W : list Z) : Z * list Z := (tbl W t, W).

Definition R (t : Z) (W : list Z) : Z * list Z :=
  let v := u32 (S1 (tbl W (t - 2)) + tbl W (t - 7) + S0 (tbl W (t - 15)) + tbl W (t - 16)) in
  (v, <[Z.to_nat t := v]> W).

Definition P (a b c d e f g h : nat) (x : list Z -> Z * list Z) (K : Z)
    (st : list Z * list Z) : list Z * list Z :=
  let '(r, W) := st in
  let '(x, W) := x W in
  let temp1 := u32 (reg r h + S3 (reg r e) + F1 (reg r e) (reg r f) (reg r g) + K + x) in
  let temp2 := u32 (S2 (reg r a) + F0 (reg r a) (reg r b) (reg r c)) in
  let r := <[d := u32 (reg r d + temp1)]> r in
  let r := <[h := u32 (temp1 + temp2)]> r in
  (r, W).

Definition sha256_rounds : list (list Z * list Z -> list Z * list Z) := [
  P A B C D E F G H (word 0) 0x428A2F98;
  P H A B C D E F G (word 1) 0x71374491;
  P G H A B C D E F (word 2) 0xB5C0FBCF;
  P F G H A B C D E (word 3) 0xE9B5DBA5;
  P E F G H A B C D (word 4) 0x3956C25B;
  P D E F G H A B C (word 5) 0x59F111F1;
  P C D E F G H A B (word 6) 0x923F82A4;
  P B C D E F G H A (word 7) 0xAB1C5ED5;
  P A B C D E F G H (word 8) 0xD807AA98;
  P H A B C D E F G (word 9) 0x12835B01;
  P G H A B C D E F (word 10) 0x243185BE;
  P F G H A B C D E (word 11) 0x550C7DC3;
  P E F G H A B C D (word 12) 0x72BE5D74;
  P D E F G H A B C (word 13) 0x80DEB1FE;
  P C D E F G H A B (word 14) 0x9BDC06A7;
  P B C D E F G H A (word 15) 0xC19BF174;
  P A B C D E F G H (R 16) 0xE49B69C1;
  P H A B C D E F G (R 17) 0xEFBE4786;
  P G H A B C D E F (R 18) 0x0FC19DC6;
  P F G H A B C D E (R 19) 0x240CA1CC;
  P E F G H A B C D (R 20) 0x2DE92C6F;
  P D E F G H A B C (R 21) 0x4A7484AA;
  P C D E F G H A B (R 22) 0x5CB0A9DC;
  P B C D E F G H A (R 23) 0x76F988DA;
  P A B C D E F G H (R 24) 0x983E5152;
  P H A B C D E F G (R 25) 0xA831C66D;
  P G H A B C D E F (R 26) 0xB00327C8;
  P F G H A B C D E (R 27) 0xBF597FC7;
  P E F G H A B C D (R 28) 0xC6E00BF3;
  P D E F G H A B C (R 29) 0xD5A79147;
  P C D E F G H A B (R 30) 0x06CA6351;
  P B C D E F G H A (R 31) 0x14292967;
  P A B C D E F G H (R 32) 0x27B70A85;
  P H A B C D E F G (R 33) 0x2E1B2138;
  P G H A B C D E F (R 34) 0x4D2C6DFC;
  P F G H A B C D E (R 35) 0x53380D13;
  P E F G H A B C D (R 36) 0x650A7354;
  P D E F G H A B C (R 37) 0x766A0ABB;
  P C D E F G H A B (R 38) 0x81C2C92E;
  P B C D E F G H A (R 39) 0x92722C85;
  P A B C D E F G H (R 40) 0xA2BFE8A1;
  P H A B C D E F G (R 41) 0xA81A664B;
  P G H A B C D E F (R 42) 0xC24B8B70;
  P F G H A B C D E (R 43) 0xC76C51A3;
  P E F G H A B C D (R 44) 0xD192E819;
  P D E F G H A B C (R 45) 0xD6990624;
  P C D E F G H A B (R 46) 0xF40E3585;
  P B C D E F G H A (R 47) 0x106AA070;
  P A B C D E F G H (R 48) 0x19A4C116;
  P H A B C D E F G (R 49) 0x1E376C08;
  P G H A B C D E F (R 50) 0x2748774C;
  P F G H A B C D E (R 51) 0x34B0BCB5;
  P E F G H A B C D (R 52) 0x391C0CB3;
  P D E F G H A B C (R 53) 0x4ED8AA4A;
  P C D E F G H A B (R 54) 0x5B9CCA4F;
  P B C D E F G H A (R 55) 0x682E6FF3;
  P A B C D E F G H (R 56) 0x748F82EE;
  P H A B C D E F G (R 57) 0x78A5636F;
  P G H A B C D E F (R 58) 0x84C87814;
  P F G H A B C D E (R 59) 0x8CC70208;
  P E F G H A B C D (R 60) 0x90BEFFFA;
  P D E F G H A B C (R 61) 0xA4506CEB;
  P C D E F G H A B (R 62) 0xBEF9A3F7;
  P B C D E F G H A (R 63) 0xC67178F2].

(** The words of the block; the rest of [W] is not read before it is written. *)
Definition sha256_load (data : list Z) : list Z :=
  [GET_UINT32 data 0; GET_UINT32 data 4; GET_UINT32 data 8; GET_UINT32 data 12;
   GET_UINT32 data 16; GET_UINT32 data 20; GET_UINT32 data 24; GET_UINT32 data 28;
   GET_UINT32 data 32; GET_UINT32 data 36; GET_UINT32 data 40; GET_UINT32 data 44;
   GET_UINT32 data 48; GET_UINT32 data 52; GET_UINT32 data 56; GET_UINT32 data 60]
  ++ replicate 48 0.

Definition sha256_transform (buf data : list Z) : list Z :=
  let '(r, _) := run sha256_rounds
    ([reg buf A; reg buf B; reg buf C; reg buf D; reg buf E; reg buf F; reg buf G; reg buf H],
     sha256_load data) in
  [u32 (reg buf A + reg r A); u32 (reg buf B + reg r B); u32 (reg buf C + reg r C);
   u32 (reg buf D + reg r D); u32 (reg buf E + reg r E); u32 (reg buf F + reg r F);
   u32 (reg buf G + reg r G); u32 (reg buf H + reg r H)].

(** ** Operations *)

Definition sha256_sum_init (sha256 : Sha256sum) : Sha256sum := {|
  sha256_buf := [0x6a09e667; 0xbb67ae85; 0x3c6ef372; 0xa54ff53a;
                 0x510e527f; 0x9b05688c; 0x1f83d9ab; 0x5be0cd19];
  sha256_bits0 := 0; sha256_bits1 := 0;
  sha256_data := sha256_data sha256; sha256_digest := sha256_digest sha256;
|}.

Definition sha256_set_data (sha256 : Sha256sum) (data : list Z) : Sha256sum := {|
  sha256_buf := sha256_buf sha256; sha256_bits0 := sha256_bits0 sha256;
  sha256_bits1 := sha256_bits1 sha256; sha256_data := data; sha256_digest := sha256_digest sha256;
|}.

(** [sha256_transform (sha256->buf, input)]. *)
Definition sha256_transform_input (sha256 : Sha256sum) (input : list Z) : Sha256sum := {|
  sha256_buf := sha256_transform (sha256_buf sha256) input; sha256_bits0 := sha256_bits0 sha256;
  sha256_bits1 := sha256_bits1 sha256; sha256_data := sha256_data sha256;
  sha256_digest := sha256_digest sha256;
|}.

Definition sha256_count (sha256 : Sha256sum) (length : Z) : Sha256sum :=
  let bits0 := u32 (sha256_bits0 sha256 + length) in
  let bits0 := bits0 & 0xFFFFFFFF in
  {| sha256_buf := sha256_buf sha256; sha256_bits0 := bits0;
     sha256_bits1 := if bits0 <? length then u32 (sha256_bits1 sha256 + 1) else sha256_bits1 sha256;
     sha256_data := sha256_data sha256; sha256_digest := sha256_digest sha256 |}.

(** From the loop to the end of [sha256_sum_update]. *)
Definition sha256_finish (sha256 : Sha256sum) (left : Z) (input : list Z) : option Sha256sum :=
  '(sha256, input) ← chunk_loop 64 (fun st chunk => Some (sha256_transform_input st chunk))
                       (length input) sha256 input;
  if zlen input =? 0 then Some sha256
  else
    data ← write_at (sha256_data sha256) left input;
    Some (sha256_set_data sha256 data).

Definition sha256_sum_update (sha256 : Sha256sum) (input : list Z) : option Sha256sum :=
  if zlen input =? 0 then Some sha256
  else
    let left := sha256_bits0 sha256 & 0x3F in
    let fill := 64 - left in
    let sha256 := sha256_count sha256 (zlen input) in
    if (0 <? left) && (fill <=? zlen input) then
      data ← write_at (sha256_data sha256) left (take (Z.to_nat fill) input);
      let sha256 := sha256_set_data sha256 data in
      let sha256 := sha256_transform_input sha256 (sha256_data sha256) in
      sha256_finish sha256 0 (drop (Z.to_nat fill) input)
    else sha256_finish sha256 left input.

Definition sha256_padding : list Z := 0x80 :: replicate 63 0.

Definition sha256_sum_close (sha256 : Sha256sum) : option Sha256sum :=
  let high := (sha256_bits0 sha256 >> 29) or u32 (sha256_bits1 sha256 << 3) in
  let low := u32 (sha256_bits0 sha256 << 3) in
  let msglen := PUT_UINT32 high ++ PUT_UINT32 low in
  let last := sha256_bits0 sha256 & 0x3F in
  let padn := if last <? 56 then 56 - last else 120 - last in
  sha256 ← sha256_sum_update sha256 (take (Z.to_nat padn) sha256_padding);
  sha256 ← sha256_sum_update sha256 msglen;
  digest ← write_at (sha256_digest sha256) 0 (mjoin (map PUT_UINT32 (sha256_buf sha256)));
  Some {| sha256_buf := sha256_buf sha256; sha256_bits0 := sha256_bits0 sha256;
          sha256_bits1 := sha256_bits1 sha256; sha256_data := sha256_data sha256;
          sha256_digest := digest |}.

Definition sha256_sum_to_string (sha256 : Sha256sum) : list Z :=
  digest_to_string (sha256_digest sha256) 32.

Definition sha256_sum_digest (sha256 : Sha256sum) (digest : list Z) : option (list Z) :=
  copy_digest 32 0 digest (sha256_digest sha256).
