(* ===== verification/Sha256Stream.v ===== *)
(** * SHA-256 is the FIPS 180-4 digest *)

From S2P Require Import Prelude Digest DigestBlocks ChecksumBase Sha256.
Local Open Scope Z_scope.
Local Open Scope xpl_scope.

(** ** The transform *)

Abbreviation sigma_s0 := (fun x => rotr 32 7 x xor rotr 32 18 x xor (x >> 3)).
Abbreviation sigma_s1 := (fun x => rotr 32 17 x xor rotr 32 19 x xor (x >> 10)).
Abbreviation sigma_S0 := (fun x => rotr 32 2 x xor rotr 32 13 x xor rotr 32 22 x).
Abbreviation sigma_S1 := (fun x => rotr 32 6 x xor rotr 32 11 x xor rotr 32 25 x).
Abbreviation sha256_words := (sha2_words 32 sigma_s0 sigma_s1 64 4).
Abbreviation sha256_round := (sha2_round 32 sigma_S0 sigma_S1 sha256_constants).

Lemma SHR_ok x n : is_word 32 x -> SHR x n = x >> n.
Proof.
  intros Hx. unfold SHR. change 0xFFFFFFFF with (2 ^ 32 - 1). rewrite land_low by lia.
  by rewrite Z.mod_small.
Qed.

Lemma ROTR_ok x n : is_word 32 x -> ROTR x n = rotr 32 n x.
Proof. intros. unfold ROTR, rotr. by rewrite SHR_ok. Qed.

Lemma S0_ok x : is_word 32 x -> S0 x = sigma_s0 x.
Proof. intros. unfold S0. by rewrite !ROTR_ok, SHR_ok. Qed.
Lemma S1_ok x : is_word 32 x -> S1 x = sigma_s1 x.
Proof. intros. unfold S1. by rewrite !ROTR_ok, SHR_ok. Qed.
Lemma S2_ok x : is_word 32 x -> S2 x = sigma_S0 x.
Proof. intros. unfold S2. by rewrite !ROTR_ok. Qed.
Lemma S3_ok x : is_word 32 x -> S3 x = sigma_S1 x.
Proof. intros. unfold S3. by rewrite !ROTR_ok. Qed.

Definition sha256_operand (i : nat) : list Z -> Z * list Z :=
  if (i <? 16)%nat then word (Z.of_nat i) else R (Z.of_nat i).

Definition sha256_statement (i : nat) : list Z * list Z -> list Z * list Z :=
  P (var 8 i 0) (var 8 i 1) (var 8 i 2) (var 8 i 3) (var 8 i 4) (var 8 i 5) (var 8 i 6) (var 8 i 7)
    (sha256_operand i) (nth i sha256_constants 0).

(** The sixty-four lines of the source. *)
Lemma sha256_rounds_eq : sha256_rounds = map sha256_statement (seq 0 64).
Proof. reflexivity. Qed.

Lemma GET_UINT32_ok data k :
  Forall is_byte data -> (k + 4 <= length data)%nat ->
  GET_UINT32 data (Z.of_nat k) = be_value (take 4 (drop k data)).
Proof.
  intros Hb Hk. pose proof (Forall_take is_byte 4 _ (Forall_drop is_byte k _ Hb)) as Hf.
  revert Hf. rewrite take_cells by done. cbn [seq map]. rewrite Nat.add_0_r.
  replace (Z.of_nat (k + 1)) with (Z.of_nat k + 1) by lia.
  replace (Z.of_nat (k + 2)) with (Z.of_nat k + 2) by lia.
  replace (Z.of_nat (k + 3)) with (Z.of_nat k + 3) by lia.
  unfold GET_UINT32. generalize (tbl data (Z.of_nat k)) (tbl data (Z.of_nat k + 1))
    (tbl data (Z.of_nat k + 2)) (tbl data (Z.of_nat k + 3)). intros a b c d Hf.
  repeat (apply Forall_cons in Hf as [? Hf]).
  set (v := be_value [a; b; c; d]). rewrite <- !Z.lor_assoc, <- (be_value_one d).
  by rewrite !lor_be_value by (reflexivity || (repeat (apply Forall_cons; split; [done|]); by apply Forall_nil)).
Qed.

Lemma sha256_load_ok data :
  Forall is_byte data -> length data = 64%nat ->
  sha256_load data = words be_value 4 16 data ++ replicate 48 0.
Proof.
  intros Hb Hl. rewrite words_map. unfold sha256_load. f_equal.
  assert (forall i, (i < 16)%nat ->
    be_value (take 4 (drop (4 * i) data)) = GET_UINT32 data (Z.of_nat (4 * i))) as E.
  { intros i Hi. symmetry. apply GET_UINT32_ok; [done|lia]. }
  cbn [seq map]. rewrite !E by lia. reflexivity.
Qed.

Section transform.
Context (data : list Z) (Hbytes : Forall is_byte data) (Hlength : length data = 64%nat).
Local Abbreviation w := (sha256_words data).

(** Before round [i], the words below [i] (and those of the block) are in [W]. *)
Definition sha256_loaded (i : nat) (W : list Z) : Prop :=
  length W = 64%nat /\ forall k, (k < Nat.max i 16)%nat -> tbl W (Z.of_nat k) = nth k w 0.

Lemma w_word k : is_word 32 (nth k w 0).
Proof. by apply sha2_words_range. Qed.

Lemma sha256_loaded_start : sha256_loaded 0 (sha256_load data).
Proof.
  rewrite sha256_load_ok by done. split; [by rewrite length_app, words_length|].
  intros k Hk. rewrite tbl_nth, app_nth1 by (rewrite words_length; lia).
  by rewrite sha2_words_block by lia.
Qed.

Lemma sha256_operand_ok i W :
  (i < 64)%nat -> sha256_loaded i W ->
  exists W', sha256_operand i W = (nth i w 0, W') /\ sha256_loaded (S i) W'.
Proof.
  intros Hi [Hl HW]. unfold sha256_operand. destruct (Nat.ltb_spec i 16) as [Hlt|Hge].
  - exists W. unfold word. rewrite HW by lia. split; [done|]. split; [done|].
    intros k Hk. apply HW. lia.
  - unfold R. assert (forall b back, b = Z.of_nat back -> (0 < back <= 16)%nat ->
      tbl W (Z.of_nat i - b) = nth (i - back) w 0) as Hback.
    { intros ? back -> Hb. rewrite <- Nat2Z.inj_sub by lia. apply HW. lia. }
    rewrite (Hback 2 2%nat), (Hback 7 7%nat), (Hback 15 15%nat), (Hback 16 16%nat) by (done || lia).
    rewrite S0_ok, S1_ok by apply w_word. rewrite <- (sha2_words_next 32 sigma_s0 sigma_s1 64 4 data i) by lia.
    eexists. split; [done|]. split; [by rewrite length_insert|].
    intros k Hk. rewrite Nat2Z.id, tbl_nth, nth_lookup. destruct (Nat.eq_dec k i) as [->|Hne].
    + by rewrite list_lookup_insert_eq by lia.
    + rewrite list_lookup_insert_ne, <- nth_lookup, <- tbl_nth by done. apply HW. lia.
Qed.

Lemma sha256_step_ok i h W :
  (i < 64)%nat -> words_ok 32 h -> sha256_loaded i W ->
  exists W', sha256_statement i (rotate i h, W) = (rotate (S i) (sha256_round w h i), W') /\
             sha256_loaded (S i) W'.
Proof.
  intros Hi Hh HW. destruct (sha256_operand_ok i W Hi HW) as (W' & E & HW').
  exists W'. split; [|done]. unfold sha256_statement, P. rewrite E.
  pose proof (sha2_round_ok 32 sigma_S0 sigma_S1 sha256_constants ltac:(lia) w h i Hh) as [Hl' _].
  destruct Hh as [Hl Hh]. rewrite (rotate_mod 8), (rotate_succ_mod 8) by done.
  f_equal. destruct h as [|a [|b [|c [|d [|e [|f [|g [|h [|]]]]]]]]]; try done. clear Hl Hl' E HW.
  repeat (apply Forall_cons in Hh as [? Hh]).
  unfold sha2_round, var. generalize (nth i w 0) (nth i sha256_constants 0). intros x k.
  assert (i mod 8 < 8)%nat as Hm by (by apply Nat.mod_upper_bound).
  rewrite <- S2_ok, <- S3_ok, <- majority_or, <- choose_xor by done.
  destruct (i mod 8)%nat as [|[|[|[|[|[|[|[|n]]]]]]]]; [| | | | | | | |lia];
    cbn -[S2 S3 F0 F1 wrap Z.land Z.lor Z.lxor]; unfold F0, F1;
    by rewrite wrap_plus_r, wrap_plus_l, wrap_plus_r.
Qed.

Lemma sha256_transform_ok buf :
  words_ok 32 buf -> sha256_transform buf data = sha256_compress buf data.
Proof.
  intros Hb. pose proof Hb as [Hl _]. unfold sha256_transform. rewrite sha256_rounds_eq.
  destruct buf as [|a [|b [|c [|d [|e [|f [|g [|h [|]]]]]]]]]; try done. cbn [reg nth].
  destruct (run_rounds_memory 8 64 (words_ok 32) sha256_loaded sha256_statement
    (fun i h => sha256_round w h i) (fun h Hh => proj1 Hh)
    (fun i h _ => sha2_round_ok 32 sigma_S0 sigma_S1 sha256_constants ltac:(lia) w h i)
    sha256_step_ok [a; b; c; d; e; f; g; h] _ eq_refl Hb sha256_loaded_start) as (W & -> & Hr & _).
  unfold sha256_compress. rewrite sha2_compress_eq. revert Hr.
  change (fun (h : list Z) i => sha256_round w h i) with (sha256_round w).
  generalize (fold_left (sha256_round w) (seq 0 64) [a; b; c; d; e; f; g; h]). intros r [Hr _].
  by destruct r as [|a' [|b' [|c' [|d' [|e' [|f' [|g' [|h' [|]]]]]]]]].
Qed.
End transform.

(** ** The sum *)

#[local] Opaque sha256_transform.

(** The number of bytes, as two words. *)
Definition sha256_counted (sha256 : Sha256sum) (n : Z) : Prop :=
  sha256_bits0 sha256 = u32 n /\ sha256_bits1 sha256 = u32 (n / 2 ^ 32).

Definition sha256_holds (sha256 : Sha256sum) (message : list Z) : Prop :=
  streams 64 sha256_compress sha256_initial (sha256_buf sha256) (sha256_data sha256) message /\
  Forall is_byte message /\ length (sha256_digest sha256) = 32%nat.

Definition sha256_state (sha256 : Sha256sum) (message : list Z) : Prop :=
  sha256_holds sha256 message /\ sha256_counted sha256 (zlen message).

Definition sha256_sized (sha256 : Sha256sum) : Prop :=
  length (sha256_data sha256) = 64%nat /\ length (sha256_digest sha256) = 32%nat.

Lemma sha256_sum_init_ok sha256 : sha256_sized sha256 -> sha256_state (sha256_sum_init sha256) [].
Proof.
  intros [Hl Hd]. split; [|done]. split; [|by split; [apply Forall_nil|]].
  by apply streams_start; [lia|].
Qed.

Lemma sha256_initial_ok : words_ok 32 sha256_initial.
Proof.
  split; [done|]. repeat (apply Forall_cons; split; [split; [done|reflexivity]|]). by apply Forall_nil.
Qed.

Lemma sha256_absorb_ok message : words_ok 32 (absorb 64 sha256_compress sha256_initial message).
Proof.
  apply absorb_invariant; [lia|apply sha256_initial_ok|].
  intros h b Hh _. by apply (sha2_compress_ok 32); [lia|].
Qed.

(** The carry: right when less than 4 GiB are fed at a time. *)
Lemma sha256_count_ok sha256 n k :
  0 <= n -> 0 <= k < 2 ^ 32 -> sha256_counted sha256 n -> sha256_counted (sha256_count sha256 k) (n + k).
Proof.
  intros Hn Hk [H0 H1]. unfold sha256_counted. cbn [sha256_count sha256_bits0 sha256_bits1].
  rewrite H0, H1, wrap_plus_l. change 0xFFFFFFFF with (2 ^ 32 - 1). rewrite land_low by lia.
  change (u32 (n + k) mod 2 ^ 32) with (u32 (u32 (n + k))). rewrite (wrap_small 32 (u32 _)) by (apply wrap_range; lia).
  split; [done|]. rewrite Z.add_comm, (sum_carries (2 ^ 32) k n) by lia.
  rewrite (Z.div_small k), (Z.mod_small k) by lia. unfold wrap.
  destruct (_ <? _); [|f_equal; lia].
  by rewrite Z.add_mod_idemp_l by lia.
Qed.

(** The number of bytes that wait. *)
Lemma sha256_waiting (message : list Z) : u32 (zlen message) & 0x3F = zlen (rest 64 message).
Proof.
  change 0x3F with (2 ^ 6 - 1). rewrite land_low by lia. unfold wrap, zlen. rewrite length_rest by lia.
  rewrite Nat2Z.inj_mod. change (2 ^ 32) with (2 ^ 6 * 2 ^ 26). by rewrite Z.mod_mod_divide by (exists (2 ^ 26); lia).
Qed.

(** The transform of a block that ends the message fed so far. *)
Lemma sha256_absorb_block sha256 message d block data :
  sha256_holds sha256 message -> Forall is_byte d ->
  (length (rest 64 message) + length d = 64)%nat -> block = rest 64 message ++ d ->
  length data = 64%nat ->
  let sha256' := sha256_transform_input (sha256_set_data sha256 data) block in
  sha256_holds sha256' (message ++ d) /\ rest 64 (message ++ d) = [].
Proof.
  intros ([Hc Hb] & Hm & Hd) Hf Hl -> Hlen.
  destruct (streams_complete 64 sha256_compress sha256_initial ltac:(lia) _ _ message d (conj Hc Hb) Hl)
    as (data' & Hw & _ & Hr & Hnext).
  rewrite (buffered_at 64 ltac:(lia) _ message d Hb), drop_ge, app_nil_r in Hw by (destruct Hb; lia).
  injection Hw as <-. split; [|done]. split; [|split; [by apply Forall_app|done]].
  cbn [sha256_transform_input sha256_set_data sha256_buf sha256_data].
  rewrite sha256_transform_ok; [by apply Hnext| | |].
  - apply Forall_app. split; [by apply Forall_drop|done].
  - by rewrite length_app.
  - rewrite Hc. apply sha256_absorb_ok.
Qed.

Definition sha256_bits (sha256 : Sha256sum) : Z * Z := (sha256_bits0 sha256, sha256_bits1 sha256).

Definition sha256_aligned (bits : Z * Z) (sha256 : Sha256sum) (message : list Z) : Prop :=
  sha256_holds sha256 message /\ sha256_bits sha256 = bits /\ rest 64 message = [].

Lemma sha256_body_ok bits sha256 message b :
  sha256_aligned bits sha256 message -> Forall is_byte b -> length b = 64%nat ->
  exists sha256', Some (sha256_transform_input sha256 b) = Some sha256' /\
                  sha256_aligned bits sha256' (message ++ b).
Proof.
  intros (Hh & Hb & Hr) Hf Hl. eexists. split; [done|].
  destruct (sha256_absorb_block sha256 message b b (sha256_data sha256) Hh Hf) as [Hh' Hr'];
    [by rewrite Hr|by rewrite Hr|apply Hh|]. by repeat split; [apply Hh'..| |].
Qed.

(** Bytes that do not complete a block; no byte, no write. *)
Lemma sha256_stash sha256 message d :
  sha256_holds sha256 message -> Forall is_byte d -> (length (rest 64 message) + length d < 64)%nat ->
  exists sha256',
    (if zlen d =? 0 then Some sha256
     else data ← write_at (sha256_data sha256) (zlen (rest 64 message)) d;
          Some (sha256_set_data sha256 data)) = Some sha256' /\
    sha256_holds sha256' (message ++ d) /\ sha256_bits sha256' = sha256_bits sha256.
Proof.
  intros (Hs & Hm & Hd) Hf Hl. destruct (Z.eqb_spec (zlen d) 0) as [E|E].
  - rewrite (nil_length_inv d) by (unfold zlen in E; lia). rewrite app_nil_r. by exists sha256.
  - destruct (streams_wait 64 sha256_compress sha256_initial ltac:(lia) _ _ message d Hs Hl) as (data & -> & Hs').
    eexists. split; [done|]. split; [|done]. split; [done|]. split; [by apply Forall_app|done].
Qed.

Lemma sha256_finish_ok bits sha256 message d :
  sha256_aligned bits sha256 message -> Forall is_byte d ->
  exists sha256', sha256_finish sha256 0 d = Some sha256' /\
    sha256_holds sha256' (message ++ d) /\ sha256_bits sha256' = bits.
Proof.
  intros Ha Hf. unfold sha256_finish.
  destruct (chunk_loop_ok 64 ltac:(lia) _ (sha256_aligned bits) is_byte (sha256_body_ok bits) _
    sha256 message d Ha Hf (le_n _)) as (st' & d1 & d2 & -> & -> & (Hh & Hb & Hr) & Hl).
  cbn [mbind option_bind]. apply Forall_app in Hf as [_ Hf].
  destruct (sha256_stash st' (message ++ d1) d2 Hh Hf) as (st2 & E & Hh2 & Hb2); [by rewrite Hr|].
  rewrite Hr in E. exists st2. split; [exact E|]. split; [by rewrite app_assoc|congruence].
Qed.

(** Less than a block: the loop does not run. *)
Lemma sha256_finish_short sha256 left d :
  zlen d < 64 ->
  sha256_finish sha256 left d =
  (if zlen d =? 0 then Some sha256
   else data ← write_at (sha256_data sha256) left d; Some (sha256_set_data sha256 data)).
Proof.
  intros Hd. unfold sha256_finish. destruct (length d); cbn [chunk_loop];
    by rewrite (proj2 (Z.leb_gt _ _)) by (change (Z.of_nat 64) with 64; lia).
Qed.

Lemma sha256_sum_update_ok sha256 message d :
  sha256_state sha256 message -> Forall is_byte d -> zlen d < 2 ^ 32 ->
  exists sha256', sha256_sum_update sha256 d = Some sha256' /\ sha256_state sha256' (message ++ d).
Proof.
  intros [Hh Hb] Hf Hlen. unfold sha256_sum_update. destruct (Z.eqb_spec (zlen d) 0) as [E|E].
  { rewrite (nil_length_inv d) by (unfold zlen in E; lia). rewrite app_nil_r. by exists sha256. }
  pose proof (zlen_nonneg d) as Hd0. pose proof (zlen_nonneg message) as Hm0.
  pose proof (sha256_count_ok sha256 _ (zlen d) Hm0 ltac:(lia) Hb) as Hb'.
  rewrite (proj1 Hb), sha256_waiting. unfold sha256_state. rewrite zlen_app.
  change (sha256_holds (sha256_count sha256 (zlen d)) message) in Hh.
  revert Hh Hb'. generalize (sha256_count sha256 (zlen d)). clear sha256 Hb. intros sha256 Hh Hb.
  assert (forall r, (exists sha256', r = Some sha256' /\ sha256_holds sha256' (message ++ d) /\
      sha256_bits sha256' = sha256_bits sha256) ->
    exists sha256', r = Some sha256' /\ sha256_holds sha256' (message ++ d) /\
      sha256_counted sha256' (zlen message + zlen d)) as Hend.
  { intros r (st & -> & H & [= H1 H2]). exists st. do 2 (split; [done|]). unfold sha256_counted. by rewrite H1, H2. }
  pose proof (rest_lt 64 ltac:(lia) message) as Hr. remember (zlen (rest 64 message)) as r eqn:Er.
  unfold zlen in Er. destruct (Z.ltb_spec 0 r) as [Hpos|Hzero].
  - destruct (Z.leb_spec (64 - r) (zlen d)) as [Hge|Hlt]; cbn [andb].
    + unfold zlen in Hge. remember (Z.to_nat (64 - r)) as n eqn:En.
      assert (length (rest 64 message) + length (take n d) = 64)%nat as Hn by (rewrite length_take; lia).
      pose proof Hh as (Hs & _).
      rewrite Er. change (Z.of_nat (length (rest 64 message))) with (zlen (rest 64 message)).
      rewrite (buffered_at 64 ltac:(lia) _ message _ (proj2 Hs)) by lia.
      rewrite Hn, (drop_ge _ 64) by (rewrite (proj1 (proj2 Hs)); lia). rewrite app_nil_r. cbn [mbind option_bind].
      apply Hend. destruct (sha256_absorb_block sha256 message (take n d) (rest 64 message ++ take n d)
        (rest 64 message ++ take n d) Hh) as [Hh' Hr']; [by apply Forall_take|done|done|by rewrite length_app|].
      replace (message ++ d) with ((message ++ take n d) ++ drop n d) by (by rewrite <- app_assoc, take_drop).
      apply sha256_finish_ok; [by split; [|split]|by apply Forall_drop].
    + rewrite sha256_finish_short by lia. apply Hend. subst r. apply sha256_stash; [done|done|].
      unfold zlen in Hlt. lia.
  - cbn [andb]. assert (rest 64 message = []) as E0 by (apply nil_length_inv; lia).
    replace r with 0 by lia. apply Hend. by apply sha256_finish_ok; [split; [|split]|].
Qed.

(** ** Closing *)

Lemma PUT_UINT32_ok n : PUT_UINT32 n = be_bytes 4 n.
Proof.
  unfold PUT_UINT32. rewrite !be_bytes_cons, !Z.div_div, !Z.shiftr_div_pow2 by lia. done.
Qed.

(** The bytes of the padding, up to the length. *)
Lemma sha256_padding_ok message (last := length (rest 64 message)) :
  take (if (last <? 56)%nat then 56 - last else 120 - last) sha256_padding =
  0x80 :: replicate (Z.to_nat ((- (zlen message + 1 + 8)) mod 64)) 0.
Proof.
  pose proof (rest_lt 64 ltac:(lia) message) as Hr. fold last in Hr.
  pose proof (pad_zeros 64 8 ltac:(lia) ltac:(lia) message) as E. fold last in E.
  change (Z.of_nat 8) with 8 in E. change (Z.of_nat 64) with 64 in E. rewrite E. unfold sha256_padding.
  destruct (Nat.ltb_spec last 56); destruct (Nat.leb_spec (last + 1 + 8) 64); try lia.
  - replace (56 - last)%nat with (S (64 - 1 - 8 - last)) by lia. cbn [take].
    by rewrite take_replicate, Nat.min_l by lia.
  - replace (120 - last)%nat with (S (64 - 1 - last + (64 - 8))) by lia. cbn [take].
    by rewrite take_replicate, Nat.min_l by lia.
Qed.

(** The length in bits, out of the two words that count bytes. *)
Lemma sha256_length_bytes n :
  0 <= n ->
  PUT_UINT32 ((u32 n >> 29) or u32 (u32 (n / 2 ^ 32) << 3)) ++ PUT_UINT32 (u32 (u32 n << 3)) =
  be_bytes 8 (8 * n).
Proof.
  intros Hn. rewrite !PUT_UINT32_ok, <- be_bytes_count. f_equal; f_equal.
  - rewrite Z.lor_comm, Z.shiftr_div_pow2, Z.shiftl_mul_pow2 by lia. unfold wrap.
    assert (0 <= n mod 2 ^ 32 / 2 ^ 29 < 2 ^ 3) as Hr by zify_div.
    replace (((n / 2 ^ 32) mod 2 ^ 32 * 2 ^ 3) mod 2 ^ 32) with ((n / 2 ^ 32) mod 2 ^ 29 * 2 ^ 3)
      by zify_div.
    rewrite lor_mul_add by lia. zify_div.
  - unfold wrap. rewrite Z.shiftl_mul_pow2, Z.mul_mod_idemp_l by lia. f_equal. lia.
Qed.

Lemma is_byte_u8 x : is_byte (u8 x).
Proof. apply (wrap_range 8). lia. Qed.

Lemma PUT_UINT32_bytes n : Forall is_byte (PUT_UINT32 n).
Proof. repeat (apply Forall_cons; split; [apply is_byte_u8|]). by apply Forall_nil. Qed.

Lemma sha256_padding_bytes n : Forall is_byte (take n sha256_padding).
Proof.
  apply Forall_take. apply Forall_cons. split; [unfold is_byte; lia|].
  apply Forall_replicate. unfold is_byte. lia.
Qed.

(** The digest of a closed sum is that of the message it was fed. *)
Lemma sha256_sum_close_ok sha256 message :
  sha256_state sha256 message ->
  exists sha256', sha256_sum_close sha256 = Some sha256' /\
    sha256_digest sha256' = Digest.sha256 message /\ sha256_sized sha256'.
Proof.
  intros Hst. pose proof Hst as [_ [H0 H1]]. unfold sha256_sum_close.
  rewrite H0, H1, sha256_length_bytes, sha256_waiting by apply zlen_nonneg.
  pose proof (rest_lt 64 ltac:(lia) message) as Hr. pose proof (sha256_padding_ok message) as Hp. cbv zeta in Hp.
  replace (Z.to_nat (if zlen (rest 64 message) <? 56 then 56 - zlen (rest 64 message) else 120 - zlen (rest 64 message)))
    with (if (length (rest 64 message) <? 56)%nat then 56 - length (rest 64 message) else 120 - length (rest 64 message))%nat
    by (unfold zlen; zcases; destruct (Nat.ltb_spec (length (rest 64 message)) 56); lia).
  pose proof (sha256_padding_bytes (if (length (rest 64 message) <? 56)%nat then 56 - length (rest 64 message)
    else 120 - length (rest 64 message))) as Hf. rewrite Hp in *.
  destruct (sha256_sum_update_ok sha256 message _ Hst Hf) as (st1 & -> & Hst1).
  { rewrite zlen_cons. unfold zlen. rewrite length_replicate. zify_div. }
  cbn [mbind option_bind].
  assert (Forall is_byte (be_bytes 8 (8 * zlen message))) as Hf2.
  { rewrite <- sha256_length_bytes by apply zlen_nonneg. apply Forall_app. split; apply PUT_UINT32_bytes. }
  destruct (sha256_sum_update_ok st1 _ _ Hst1 Hf2) as (st2 & -> & [([Hc Hb] & _ & Hd) _]);
    [unfold zlen; rewrite be_bytes_length; lia|].
  cbn [mbind option_bind].
  assert (mjoin (map PUT_UINT32 (sha256_buf st2)) = Digest.sha256 message) as ->.
  { unfold Digest.sha256. rewrite Hc, <- app_assoc. f_equal. apply map_ext, PUT_UINT32_ok. }
  assert (length (Digest.sha256 message) = 32%nat) as Hm.
  { unfold Digest.sha256. by rewrite join_be_bytes_length, (proj1 (sha256_absorb_ok _)). }
  rewrite write_at_all by (unfold zlen; rewrite ?Hd, ?Hm; lia). cbn [mbind option_bind].
  rewrite Hm, drop_ge, app_nil_r by lia. eexists. split; [done|]. split; [done|]. split; [apply Hb|done].
Qed.
