(* ===== verification/Sha512.v ===== *)
(** * SHA-384 and SHA-512: src/glib/gchecksum.c

    [sha384_sum_init], [sha512_sum_init], [sha512_transform],
    [sha512_sum_update], [sha512_sum_close] and the accessors. *)

From S2P Require Import Prelude Digest ChecksumBase.
Local Open Scope Z_scope.
Local Open Scope xpl_scope.

(** ** Data *)

Definition SHA2_BLOCK_LEN : Z := 128.
Definition SHA384_DIGEST_LEN : Z := 48.
Definition SHA512_DIGEST_LEN : Z := 64.

Record Sha512sum := {
  sha512_H : list Z;
  sha512_block : list Z;
  sha512_block_len : Z;
  sha512_data_len0 : Z;
  sha512_data_len1 : Z;
  sha512_digest : list Z;
}.

Definition SHA2_K : list Z := [
  0x428a2f98d728ae22; 0x7137449123ef65cd;
  0xb5c0fbcfec4d3b2f; 0xe9b5dba58189dbbc;
  0x3956c25bf348b538; 0x59f111f1b605d019;
  0x923f82a4af194f9b; 0xab1c5ed5da6d8118;
  0xd807aa98a3030242; 0x12835b0145706fbe;
  0x243185be4ee4b28c; 0x550c7dc3d5ffb4e2;
  0x72be5d74f27b896f; 0x80deb1fe3b1696b1;
  0x9bdc06a725c71235; 0xc19bf174cf692694;
  0xe49b69c19ef14ad2; 0xefbe4786384f25e3;
  0x0fc19dc68b8cd5b5; 0x240ca1cc77ac9c65;
  0x2de92c6f592b0275; 0x4a7484aa6ea6e483;
  0x5cb0a9dcbd41fbd4; 0x76f988da831153b5;
  0x983e5152ee66dfab; 0xa831c66d2db43210;
  0xb00327c898fb213f; 0xbf597fc7beef0ee4;
  0xc6e00bf33da88fc2; 0xd5a79147930aa725;
  0x06ca6351e003826f; 0x142929670a0e6e70;
  0x27b70a8546d22ffc; 0x2e1b21385c26c926;
  0x4d2c6dfc5ac42aed; 0x53380d139d95b3df;
  0x650a73548baf63de; 0x766a0abb3c77b2a8;
  0x81c2c92e47edaee6; 0x92722c851482353b;
  0xa2bfe8a14cf10364; 0xa81a664bbc423001;
  0xc24b8b70d0f89791; 0xc76c51a30654be30;
  0xd192e819d6ef5218; 0xd69906245565a910;
  0xf40e35855771202a; 0x106aa07032bbd1b8;
  0x19a4c116b8d2d0c8; 0x1e376c085141ab53;
  0x2748774cdf8eeb99; 0x34b0bcb5e19b48a8;
  0x391c0cb3c5c95a63; 0x4ed8aa4ae3418acb;
  0x5b9cca4f7763e373; 0x682e6ff3d6b2b8a3;
  0x748f82ee5defb2fc; 0x78a5636f43172f60;
  0x84c87814a1f0ab72; 0x8cc702081a6439ec;
  0x90befffa23631e28; 0xa4506cebde82bde9;
  0xbef9a3f7b2c67915; 0xc67178f2e372532b;
  0xca273eceea26619c; 0xd186b8c721c0c207;
  0xeada7dd6cde0eb1e; 0xf57d4f7fee6ed178;
  0x06f067aa72176fba; 0x0a637dc5a2c898a6;
  0x113f9804bef90dae; 0x1b710b35131c471b;
  0x28db77f523047d84; 0x32caab7b40c72493;
  0x3c9ebe0a15c9bebc; 0x431d67c49c100d4c;
  0x4cc5d4becb3e42b6; 0x597f299cfc657e2a;
  0x5fcb6fab3ad6faec; 0x6c44198c4a475817].

(** ** The compression function *)

Definition Ch (x y z : Z) : Z := (x & y) xor (u64 (Z.lnot x) & z).
Definition Maj (x y z : Z) : Z := (x & y) xor (x & z) xor (y & z).
Definition SHR (n x : Z) : Z := x >> n.
Definition ROTR (n x : Z) : Z := SHR n x or u64 (x << (64 - n)).
Definition SIGMA0 (x : Z) : Z := ROTR 28 x xor ROTR 34 x xor ROTR 39 x.
Definition SIGMA1 (x : Z) : Z := ROTR 14 x xor ROTR 18 x xor ROTR 41 x.
Definition sigma0 (x : Z) : Z := ROTR 1 x xor ROTR 8 x xor SHR 7 x.
Definition sigma1 (x : Z) : Z := ROTR 19 x xor ROTR 61 x xor SHR 6 x.

(** The eight bytes that [PUT_UINT64] stores. *)
Definition PUT_UINT64 (n : Z) : list Z :=
  [u8 (n >> 56); u8 (n >> 48); u8 (n >> 40); u8 (n >> 32);
   u8 (n >> 24); u8 (n >> 16); u8 (n >> 8); u8 n].

(** [M[i]]. *)
Definition sha512_load (data : list Z) (i : nat) : Z :=
  let p := Z.of_nat i * 8 in
  (tbl data (p + 0) << 56) or (tbl data (p + 1) << 48) or (tbl data (p + 2) << 40) or
  (tbl data (p + 3) << 32) or (tbl data (p + 4) << 24) or (tbl data (p + 5) << 16) or
  (tbl data (p + 6) << 8) or tbl data (p + 7).

(** The body of the loop that prepares [W]; a word is not read before it is set. *)
Definition sha512_prepare (M : list Z) (W : list Z) (t : nat) : list Z :=
  if (t <? 16)%nat then <[t := nth t M 0]> W
  else <[t := u64 (sigma1 (nth (t - 2) W 0) + nth (t - 7) W 0 +
                   sigma0 (nth (t - 15) W 0) + nth (t - 16) W 0)]> W.

(** The body of the main loop, on [a], ..., [h]. *)
Definition sha512_turn (W : list Z) (r : list Z) (t : nat) : list Z :=
  match r with
  | [a; b; c; d; e; f; g; h] =>
      let T1 := u64 (h + SIGMA1 e + Ch e f g + nth t SHA2_K 0 + nth t W 0) in
      let T2 := u64 (SIGMA0 a + Maj a b c) in
      let h := g in
      let g := f in
      let f := e in
      let e := u64 (d + T1) in
      let d := c in
      let c := b in
      let b := a in
      let a := u64 (T1 + T2) in
      [a; b; c; d; e; f; g; h]
  | _ => r
  end.

Definition sha512_transform (H data : list Z) : list Z :=
  let M := map (sha512_load data) (seq 0 16) in
  let W := fold_left (sha512_prepare M) (seq 0 80) (replicate 80 0) in
  let r := fold_left (sha512_turn W) (seq 0 80) (map (reg H) (seq 0 8)) in
  map (fun i => u64 (reg H i + reg r i)) (seq 0 8).

(** ** Operations *)

Definition sha512_start (H : list Z) (sha512 : Sha512sum) : Sha512sum := {|
  sha512_H := H; sha512_block := sha512_block sha512; sha512_block_len := 0;
  sha512_data_len0 := 0; sha512_data_len1 := 0; sha512_digest := sha512_digest sha512;
|}.

Definition sha384_sum_init : Sha512sum -> Sha512sum :=
  sha512_start
    [0xcbbb9d5dc1059ed8; 0x629a292a367cd507; 0x9159015a3070dd17; 0x152fecd8f70e5939;
     0x67332667ffc00b31; 0x8eb44a8768581511; 0xdb0c2e0d64f98fa7; 0x47b5481dbefa4fa4].

Definition sha512_sum_init : Sha512sum -> Sha512sum :=
  sha512_start
    [0x6a09e667f3bcc908; 0xbb67ae8584caa73b; 0x3c6ef372fe94f82b; 0xa54ff53a5f1d36f1;
     0x510e527fade682d1; 0x9b05688c2b3e6c1f; 0x1f83d9abfb41bd6b; 0x5be0cd19137e2179].

Definition sha512_set_block (sha512 : Sha512sum) (block : list Z) (block_len : Z) : Sha512sum := {|
  sha512_H := sha512_H sha512; sha512_block := block; sha512_block_len := block_len;
  sha512_data_len0 := sha512_data_len0 sha512; sha512_data_len1 := sha512_data_len1 sha512;
  sha512_digest := sha512_digest sha512;
|}.

(** [sha512_transform (sha512->H, sha512->block)]. *)
Definition sha512_transform_block (sha512 : Sha512sum) : Sha512sum := {|
  sha512_H := sha512_transform (sha512_H sha512) (sha512_block sha512);
  sha512_block := sha512_block sha512; sha512_block_len := sha512_block_len sha512;
  sha512_data_len0 := sha512_data_len0 sha512; sha512_data_len1 := sha512_data_len1 sha512;
  sha512_digest := sha512_digest sha512;
|}.

Definition sha512_count (sha512 : Sha512sum) (length : Z) : Sha512sum :=
  let data_len0 := u64 (sha512_data_len0 sha512 + u64 (length * 8)) in
  {| sha512_H := sha512_H sha512; sha512_block := sha512_block sha512;
     sha512_block_len := sha512_block_len sha512; sha512_data_len0 := data_len0;
     sha512_data_len1 := if data_len0 <? length then u64 (sha512_data_len1 sha512 + 1)
                         else sha512_data_len1 sha512;
     sha512_digest := sha512_digest sha512 |}.

(** The body of [while (length >= SHA2_BLOCK_LEN)]. *)
Definition sha512_chunk (sha512 : Sha512sum) (chunk : list Z) : option Sha512sum :=
  block ← write_at (sha512_block sha512) 0 chunk;
  Some (sha512_transform_block (sha512_set_block sha512 block (sha512_block_len sha512))).

(** From the loop to the end of [sha512_sum_update]. *)
Definition sha512_finish (sha512 : Sha512sum) (buffer : list Z) : option Sha512sum :=
  '(sha512, buffer) ← chunk_loop 128 sha512_chunk (length buffer) sha512 buffer;
  if 0 <? zlen buffer then
    block ← write_at (sha512_block sha512) 0 buffer;
    Some (sha512_set_block sha512 block (u8 (zlen buffer)))
  else Some sha512.

Definition sha512_sum_update (sha512 : Sha512sum) (buffer : list Z) : option Sha512sum :=
  if zlen buffer =? 0 then Some sha512
  else
    let sha512 := sha512_count sha512 (zlen buffer) in
    let block_left := u64 (SHA2_BLOCK_LEN - sha512_block_len sha512) in
    if 0 <? block_left then
      let fill_len := Z.min block_left (zlen buffer) in
      block ← write_at (sha512_block sha512) (sha512_block_len sha512) (take (Z.to_nat fill_len) buffer);
      let sha512 := sha512_set_block sha512 block (u8 (sha512_block_len sha512 + fill_len)) in
      let sha512 :=
        if sha512_block_len sha512 =? SHA2_BLOCK_LEN then
          let sha512 := sha512_transform_block sha512 in
          sha512_set_block sha512 (sha512_block sha512) 0
        else sha512 in
      sha512_finish sha512 (drop (Z.to_nat fill_len) buffer)
    else sha512_finish sha512 buffer.

(** The [pad_len] first bytes of [pad]. *)
Definition sha512_pad (sha512 : Sha512sum) : option (list Z) :=
  let l := u32 (sha512_block_len sha512 * 8) in
  let zeros := i32 (896 - (l + 1)) in
  let zeros := if zeros <? 0 then zeros + 128 * 8 else zeros in
  let pad := replicate 256 0 in
  pad ← wr pad 0 0x80;
  let zeros := zeros - 7 in
  let pad_len := 1 in
  pad ← write_at pad pad_len (replicate (Z.to_nat (Z.quot zeros 8)) 0);
  let pad_len := u32 (pad_len + Z.quot zeros 8) in
  pad ← write_at pad pad_len (PUT_UINT64 (sha512_data_len1 sha512));
  let pad_len := u32 (pad_len + 8) in
  pad ← write_at pad pad_len (PUT_UINT64 (sha512_data_len0 sha512));
  let pad_len := u32 (pad_len + 8) in
  Some (take (Z.to_nat pad_len) pad).

Definition sha512_sum_close (sha512 : Sha512sum) : option Sha512sum :=
  pad ← sha512_pad sha512;
  sha512 ← sha512_sum_update sha512 pad;
  digest ← write_at (sha512_digest sha512) 0
             (mjoin (map (fun i => PUT_UINT64 (reg (sha512_H sha512) i)) (seq 0 8)));
  Some {| sha512_H := sha512_H sha512; sha512_block := sha512_block sha512;
          sha512_block_len := sha512_block_len sha512; sha512_data_len0 := sha512_data_len0 sha512;
          sha512_data_len1 := sha512_data_len1 sha512; sha512_digest := digest |}.

Definition sha384_sum_to_string (sha512 : Sha512sum) : list Z := digest_to_string (sha512_digest sha512) 48.
Definition sha512_sum_to_string (sha512 : Sha512sum) : list Z := digest_to_string (sha512_digest sha512) 64.

(** [memcpy (digest, sha512->digest, SHA384_DIGEST_LEN)]. *)
Definition sha384_sum_digest (sha512 : Sha512sum) (digest : list Z) : option (list Z) :=
  write_at digest 0 (take 48 (sha512_digest sha512)).
Definition sha512_sum_digest (sha512 : Sha512sum) (digest : list Z) : option (list Z) :=
  write_at digest 0 (take 64 (sha512_digest sha512)).
