(* ===== verification/Sha512Stream.v ===== *)
(** * SHA-384 and SHA-512 are the FIPS 180-4 digests *)

From S2P Require Import Prelude Digest DigestBlocks ChecksumBase Sha512.
Local Open Scope Z_scope.
Local Open Scope xpl_scope.

(** ** The transform *)

Abbreviation sigma512_s0 := (fun x => rotr 64 1 x xor rotr 64 8 x xor (x >> 7)).
Abbreviation sigma512_s1 := (fun x => rotr 64 19 x xor rotr 64 61 x xor (x >> 6)).
Abbreviation sigma512_S0 := (fun x => rotr 64 28 x xor rotr 64 34 x xor rotr 64 39 x).
Abbreviation sigma512_S1 := (fun x => rotr 64 14 x xor rotr 64 18 x xor rotr 64 41 x).
Abbreviation sha512_words := (sha2_words 64 sigma512_s0 sigma512_s1 80 8).
Abbreviation sha512_round := (sha2_round 64 sigma512_S0 sigma512_S1 sha512_constants).

(** The constants of the source are the cube roots. *)
Lemma SHA2_K_ok : SHA2_K = sha512_constants.
Proof. reflexivity. Qed.

Lemma Ch_ok x y z : is_word 64 z -> Ch x y z = choose x y z.
Proof. intros Hz. unfold Ch, choose. by rewrite land_wrap_l. Qed.

Lemma sha512_load_ok data i :
  Forall is_byte data -> (8 * i + 8 <= length data)%nat ->
  sha512_load data i = be_value (take 8 (drop (8 * i) data)).
Proof.
  intros Hb Hk. pose proof (Forall_take is_byte 8 _ (Forall_drop is_byte (8 * i) _ Hb)) as Hf.
  revert Hf. rewrite take_cells by done. unfold sha512_load. cbn [seq map].
  replace (Z.of_nat i * 8) with (Z.of_nat (8 * i)) by lia.
  rewrite !Nat2Z.inj_add.
  change (Z.of_nat 0) with 0. change (Z.of_nat 1) with 1. change (Z.of_nat 2) with 2. change (Z.of_nat 3) with 3.
  change (Z.of_nat 4) with 4. change (Z.of_nat 5) with 5. change (Z.of_nat 6) with 6. change (Z.of_nat 7) with 7.
  generalize (tbl data (Z.of_nat (8 * i) + 0)) (tbl data (Z.of_nat (8 * i) + 1))
    (tbl data (Z.of_nat (8 * i) + 2)) (tbl data (Z.of_nat (8 * i) + 3))
    (tbl data (Z.of_nat (8 * i) + 4)) (tbl data (Z.of_nat (8 * i) + 5))
    (tbl data (Z.of_nat (8 * i) + 6)) (tbl data (Z.of_nat (8 * i) + 7)).
  intros a b c d e f g h Hf. repeat (apply Forall_cons in Hf as [? Hf]).
  set (v := be_value [a; b; c; d; e; f; g; h]). rewrite <- !Z.lor_assoc, <- (be_value_one h).
  by rewrite !lor_be_value
    by (reflexivity || (repeat (apply Forall_cons; split; [done|]); by apply Forall_nil)).
Qed.

#[local] Opaque sha2_words.

Section transform.
Context (data : list Z) (Hbytes : Forall is_byte data) (Hlength : length data = 128%nat).
Local Abbreviation w := (sha512_words data).

Lemma sha512_M i : (i < 16)%nat -> nth i (map (sha512_load data) (seq 0 16)) 0 = nth i w 0.
Proof.
  intros Hi. rewrite sha2_words_block by done. rewrite words_map. f_equal.
  apply map_ext_in. intros k Hk. apply in_seq in Hk. apply sha512_load_ok; [done|lia].
Qed.

(** After [t] turns, the first [t] words are those of the schedule. *)
Lemma sha512_prepare_ok t :
  (t <= 80)%nat ->
  let W := fold_left (sha512_prepare (map (sha512_load data) (seq 0 16))) (seq 0 t) (replicate 80 0) in
  length W = 80%nat /\ forall k, (k < t)%nat -> nth k W 0 = nth k w 0.
Proof.
  cbv zeta. induction t as [|t IH]; intros Ht; [split; [done|lia]|].
  rewrite (seq_S t 0), fold_left_app. cbn [fold_left Nat.add]. destruct IH as [Hl HW]; [lia|].
  revert Hl HW. generalize (fold_left (sha512_prepare (map (sha512_load data) (seq 0 16))) (seq 0 t) (replicate 80 0)).
  intros W Hl HW. unfold sha512_prepare.
  assert (forall v, v = nth t w 0 -> length (<[t:=v]> W) = 80%nat /\
    forall k, (k < S t)%nat -> nth k (<[t:=v]> W) 0 = nth k w 0) as Hins.
  { intros v ->. rewrite length_insert. split; [done|]. intros k Hk. rewrite nth_lookup.
    destruct (Nat.eq_dec k t) as [->|Hne].
    - by rewrite list_lookup_insert_eq by lia.
    - rewrite list_lookup_insert_ne, <- nth_lookup by done. apply HW. lia. }
  destruct (Nat.ltb_spec t 16); apply Hins.
  - by apply sha512_M.
  - rewrite !HW by lia.
    rewrite (sha2_words_next 64 sigma512_s0 sigma512_s1 80 8 data t ltac:(lia) ltac:(lia)).
    by generalize (nth (t - 2) w 0) (nth (t - 7) w 0) (nth (t - 15) w 0) (nth (t - 16) w 0).
Qed.

Lemma sha512_turn_ok W r t :
  nth t W 0 = nth t w 0 -> words_ok 64 r -> sha512_turn W r t = sha512_round w r t.
Proof.
  intros E [Hl Hr]. destruct r as [|a [|b [|c [|d [|e [|f [|g [|h [|]]]]]]]]]; try discriminate Hl.
  repeat (apply Forall_cons in Hr as [? Hr]). unfold sha512_turn, sha2_round.
  rewrite E, SHA2_K_ok. generalize (nth t w 0) (nth t sha512_constants 0). intros x k.
  by rewrite Ch_ok, wrap_plus_l, !wrap_plus_r by done.
Qed.

Lemma sha512_turns_ok W l r :
  Forall (fun t => nth t W 0 = nth t w 0) l -> words_ok 64 r ->
  fold_left (sha512_turn W) l r = fold_left (sha512_round w) l r.
Proof.
  intros Hl. revert r. induction Hl as [|t l Ht _ IH]; intros r Hr; cbn [fold_left]; [done|].
  rewrite sha512_turn_ok by done. by apply IH, sha2_round_ok.
Qed.

Lemma sha512_transform_ok H :
  words_ok 64 H -> sha512_transform H data = sha512_compress H data.
Proof.
  intros HH. unfold sha512_transform. destruct (sha512_prepare_ok 80 (le_n _)) as [_ HW].
  revert HW. generalize (fold_left (sha512_prepare (map (sha512_load data) (seq 0 16))) (seq 0 80) (replicate 80 0)).
  intros W HW. unfold sha512_compress. rewrite sha2_compress_eq.
  assert (map (reg H) (seq 0 8) = H) as ->.
  { destruct HH as [Hl _]. by destruct H as [|a [|b [|c [|d [|e [|f [|g [|h [|]]]]]]]]]. }
  rewrite sha512_turns_ok; [| |done].
  - pose proof (sha2_rounds_ok 64 sigma512_S0 sigma512_S1 sha512_constants ltac:(lia) w (seq 0 80) H HH) as [Hl _].
    destruct HH as [HlH _]. revert Hl. generalize (fold_left (sha512_round w) (seq 0 80) H). intros r Hl.
    destruct H as [|a [|b [|c [|d [|e [|f [|g [|h [|]]]]]]]]]; try discriminate HlH.
    by destruct r as [|a' [|b' [|c' [|d' [|e' [|f' [|g' [|h' [|]]]]]]]]].
  - apply Forall_forall. intros t Ht. apply elem_of_seq in Ht. apply HW. lia.
Qed.
End transform.

(** ** The sum *)

#[local] Opaque sha512_transform.

Definition sha512_lens (sha512 : Sha512sum) : Z * Z :=
  (sha512_data_len0 sha512, sha512_data_len1 sha512).

Definition sha512_sized (sha512 : Sha512sum) : Prop :=
  length (sha512_block sha512) = 128%nat /\ length (sha512_digest sha512) = 64%nat.

Section initial.
Context (initial : list Z) (Hinitial : words_ok 64 initial).

Definition sha512_holds (sha512 : Sha512sum) (message : list Z) : Prop :=
  streams 128 sha512_compress initial (sha512_H sha512) (sha512_block sha512) message /\
  sha512_block_len sha512 = zlen (rest 128 message) /\
  Forall is_byte message /\ length (sha512_digest sha512) = 64%nat.

(** A sum that was fed a message of less than 2 ^ 61 bytes. *)
Definition sha512_state (sha512 : Sha512sum) (message : list Z) : Prop :=
  sha512_holds sha512 message /\ sha512_lens sha512 = (8 * zlen message, 0) /\
  zlen message < 2 ^ 61.

Lemma sha512_start_ok sha512 : sha512_sized sha512 -> sha512_state (sha512_start initial sha512) [].
Proof.
  intros [Hl Hd]. split; [|done]. split; [|split; [done|by split; [apply Forall_nil|]]].
  by apply streams_start; [lia|].
Qed.

Lemma sha512_absorb_ok message : words_ok 64 (absorb 128 sha512_compress initial message).
Proof.
  apply absorb_invariant; [lia|done|]. intros h b Hh _. by apply (sha2_compress_ok 64); [lia|].
Qed.

(** The block is completed and transformed. *)
Lemma sha512_complete sha512 message d len :
  sha512_holds sha512 message -> Forall is_byte d -> (length (rest 128 message) + length d = 128)%nat ->
  exists block, write_at (sha512_block sha512) (zlen (rest 128 message)) d = Some block /\
    let sha512' := sha512_transform_block (sha512_set_block sha512 block len) in
    sha512_holds (sha512_set_block sha512' (sha512_block sha512') 0) (message ++ d) /\
    rest 128 (message ++ d) = [].
Proof.
  intros (Hs & _ & Hm & Hd) Hf Hl. pose proof Hs as [Hc Hb].
  destruct (streams_complete 128 sha512_compress initial ltac:(lia) _ _ message d Hs Hl)
    as (block & Hw & Hlen & Hr & Hnext).
  exists block. split; [done|]. split; [|done]. split; [|split; [by rewrite Hr|split; [by apply Forall_app|done]]].
  cbn [sha512_transform_block sha512_set_block sha512_H sha512_block].
  rewrite sha512_transform_ok; [by apply Hnext| |done|rewrite Hc; apply sha512_absorb_ok].
  rewrite (buffered_at 128 ltac:(lia) _ message d Hb), drop_ge, app_nil_r in Hw by (destruct Hb; lia).
  injection Hw as <-. apply Forall_app. split; [by apply Forall_drop|done].
Qed.

Lemma sha512_wait sha512 message d :
  sha512_holds sha512 message -> Forall is_byte d -> (length (rest 128 message) + length d < 128)%nat ->
  exists block, write_at (sha512_block sha512) (zlen (rest 128 message)) d = Some block /\
    sha512_holds (sha512_set_block sha512 block (zlen (rest 128 message) + zlen d)) (message ++ d).
Proof.
  intros (Hs & _ & Hm & Hd) Hf Hl.
  destruct (streams_wait 128 sha512_compress initial ltac:(lia) _ _ message d Hs Hl) as (block & Hw & Hs').
  exists block. split; [done|]. split; [done|]. split; [|split; [by apply Forall_app|done]].
  cbn [sha512_set_block sha512_block_len]. rewrite rest_wait by (lia || done). by rewrite zlen_app.
Qed.

Definition sha512_aligned (lens : Z * Z) (sha512 : Sha512sum) (message : list Z) : Prop :=
  sha512_holds sha512 message /\ sha512_lens sha512 = lens /\ rest 128 message = [].

Lemma sha512_chunk_ok lens sha512 message b :
  sha512_aligned lens sha512 message -> Forall is_byte b -> length b = 128%nat ->
  exists sha512', sha512_chunk sha512 b = Some sha512' /\ sha512_aligned lens sha512' (message ++ b).
Proof.
  intros (Hh & Hb & Hr) Hf Hl. pose proof Hh as (_ & Hlen & _).
  destruct (sha512_complete sha512 message b (sha512_block_len sha512) Hh Hf) as (block & Hw & Hh' & Hr');
    [by rewrite Hr|].
  rewrite Hr in Hw. unfold sha512_chunk. change (zlen []) with 0 in Hw. rewrite Hw. eexists. split; [done|].
  split; [|done]. destruct Hh' as (H1 & _ & H2). split; [exact H1|].
  split; [|exact H2]. rewrite Hr'. cbn. by rewrite Hlen, Hr.
Qed.

Lemma sha512_finish_ok lens sha512 message d :
  sha512_aligned lens sha512 message -> Forall is_byte d ->
  exists sha512', sha512_finish sha512 d = Some sha512' /\
    sha512_holds sha512' (message ++ d) /\ sha512_lens sha512' = lens.
Proof.
  intros Ha Hf. unfold sha512_finish.
  destruct (chunk_loop_ok 128 ltac:(lia) sha512_chunk (sha512_aligned lens) is_byte (sha512_chunk_ok lens) _
    sha512 message d Ha Hf (le_n _)) as (st' & d1 & d2 & -> & -> & (Hh & Hb & Hr) & Hl).
  cbn [mbind option_bind]. apply Forall_app in Hf as [_ Hf]. rewrite app_assoc.
  destruct (Z.ltb_spec 0 (zlen d2)) as [Hpos|Hz].
  - destruct (sha512_wait st' (message ++ d1) d2 Hh Hf) as (block & Hw & Hh'); [by rewrite Hr|].
    rewrite Hr in Hw, Hh'. change (zlen []) with 0 in *. rewrite Hw. eexists. split; [done|].
    rewrite (wrap_small 8 (zlen d2)) by (unfold zlen in *; lia). done.
  - rewrite (nil_length_inv d2) by (unfold zlen in Hz; lia). rewrite app_nil_r. by exists st'.
Qed.

(** Feeding bytes appends them to the message; no write leaves the block. *)
Lemma sha512_update_holds sha512 message d :
  sha512_holds sha512 message -> Forall is_byte d ->
  exists sha512', sha512_sum_update sha512 d = Some sha512' /\ sha512_holds sha512' (message ++ d) /\
    sha512_lens sha512' = if zlen d =? 0 then sha512_lens sha512 else sha512_lens (sha512_count sha512 (zlen d)).
Proof.
  intros Hh Hf. unfold sha512_sum_update. destruct (Z.eqb_spec (zlen d) 0) as [E|E].
  { rewrite (nil_length_inv d) by (unfold zlen in E; lia). rewrite app_nil_r. by exists sha512. }
  change (sha512_holds (sha512_count sha512 (zlen d)) message) in Hh. revert Hh.
  generalize (sha512_count sha512 (zlen d)). clear sha512. intros sha512 Hh.
  pose proof (rest_lt 128 ltac:(lia) message) as Hr. pose proof Hh as (_ & Hbl & _).
  rewrite Hbl. remember (zlen (rest 128 message)) as r eqn:Er. pose proof Er as Er'. unfold zlen in Er'.
  unfold SHA2_BLOCK_LEN. rewrite (wrap_small 64 (128 - r)) by lia.
  rewrite (proj2 (Z.ltb_lt 0 (128 - r))) by lia.
  remember (Z.to_nat (Z.min (128 - r) (zlen d))) as n eqn:En. pose proof (zlen_nonneg d) as Hd.
  destruct (Z.le_gt_cases (128 - r) (zlen d)) as [Hge|Hlt].
  - rewrite Z.min_l in * by lia. replace (r + (128 - r)) with 128 by lia. unfold zlen in Hge.
    destruct (sha512_complete sha512 message (take n d) (u8 128) Hh) as (block & Hw & Hh' & Hr');
      [by apply Forall_take|rewrite length_take; lia|].
    rewrite Er, Hw. cbn [mbind option_bind sha512_set_block sha512_block_len].
    rewrite (wrap_small 8 128) by lia. rewrite Z.eqb_refl. rewrite (wrap_small 8 128) in Hh' by lia.
    replace (message ++ d) with ((message ++ take n d) ++ drop n d) by (by rewrite <- app_assoc, take_drop).
    apply sha512_finish_ok; [by split; [|split]|by apply Forall_drop].
  - rewrite Z.min_r in * by lia. assert (n = length d) as -> by (unfold zlen in En; lia).
    rewrite firstn_all, drop_all. unfold zlen in Hlt.
    destruct (sha512_wait sha512 message d Hh Hf) as (block & Hw & Hh'); [lia|].
    rewrite Er, Hw, <- Er in *. cbn [mbind option_bind sha512_set_block sha512_block_len].
    rewrite (wrap_small 8 (r + zlen d)) by (unfold zlen; lia).
    rewrite (proj2 (Z.eqb_neq _ 128)) by (unfold zlen; lia).
    eexists. split; [done|]. done.
Qed.

Lemma sha512_sum_update_ok sha512 message d :
  sha512_state sha512 message -> Forall is_byte d -> zlen message + zlen d < 2 ^ 61 ->
  exists sha512', sha512_sum_update sha512 d = Some sha512' /\ sha512_state sha512' (message ++ d).
Proof.
  intros (Hh & Hl & _) Hf Hlen. destruct (sha512_update_holds sha512 message d Hh Hf) as (st & -> & Hh' & E).
  exists st. split; [done|]. split; [done|]. rewrite zlen_app. split; [|done]. rewrite E.
  destruct (Z.eqb_spec (zlen d) 0) as [E0|E0]; [rewrite Hl; f_equal; lia|].
  injection Hl as H0 H1. unfold sha512_lens. cbn [sha512_count sha512_data_len0 sha512_data_len1].
  pose proof (zlen_nonneg d). pose proof (zlen_nonneg message).
  rewrite H0, H1, (wrap_small 64 (zlen d * 8)) by lia.
  rewrite (wrap_small 64 (8 * zlen message + zlen d * 8)) by lia.
  rewrite (proj2 (Z.ltb_ge _ _)) by lia. f_equal. lia.
Qed.

(** The bytes that [sha512_sum_close] feeds. *)
Lemma sha512_pad_ok sha512 r z :
  sha512_block_len sha512 = Z.of_nat r -> (r < 128)%nat ->
  z = (if (r + 1 + 16 <=? 128)%nat then 128 - 1 - 16 - r else 128 - 1 - r + (128 - 16))%nat ->
  sha512_pad sha512 =
  Some (0x80 :: replicate z 0 ++ PUT_UINT64 (sha512_data_len1 sha512) ++ PUT_UINT64 (sha512_data_len0 sha512)).
Proof.
  intros El Hr Hz. unfold sha512_pad. rewrite El.
  assert (length (PUT_UINT64 (sha512_data_len1 sha512)) = 8%nat) as Ha by done.
  assert (length (PUT_UINT64 (sha512_data_len0 sha512)) = 8%nat) as Hb by done. revert Ha Hb.
  generalize (PUT_UINT64 (sha512_data_len1 sha512)) (PUT_UINT64 (sha512_data_len0 sha512)). intros a b Ha Hb.
  cbv zeta. rewrite (wrap_small 32 (Z.of_nat r * 8)), i32_small by lia.
  assert (Z.quot ((if 896 - (Z.of_nat r * 8 + 1) <? 0 then 896 - (Z.of_nat r * 8 + 1) + 128 * 8
                   else 896 - (Z.of_nat r * 8 + 1)) - 7) 8 = Z.of_nat z) as ->.
  { rewrite Z.quot_div_nonneg by (zcases; lia). subst z.
    destruct (Nat.leb_spec (r + 1 + 16) 128); zcases; zify_div. }
  assert (z <= 239)%nat as Hz' by (destruct (Nat.leb_spec (r + 1 + 16) 128); lia). clear Hz Hr.
  rewrite (wrap_small 32 (1 + Z.of_nat z)) by lia. rewrite (wrap_small 32 (1 + Z.of_nat z + 8)) by lia.
  rewrite (wrap_small 32 (1 + Z.of_nat z + 8 + 8)) by lia. rewrite Nat2Z.id.
  change (wr (replicate 256 0) 0 0x80) with (Some ([0x80] ++ replicate 255 0)).
  cbn [mbind option_bind]. rewrite write_next by (rewrite ?length_replicate; done || lia).
  cbn [mbind option_bind]. rewrite length_replicate, drop_replicate.
  rewrite write_next by (autorewrite with xpl; cbn [length]; unfold zlen; rewrite ?length_replicate; lia).
  cbn [mbind option_bind]. rewrite Ha, drop_replicate.
  rewrite write_next by (autorewrite with xpl; cbn [length]; unfold zlen; rewrite ?length_replicate; lia).
  cbn [mbind option_bind]. f_equal. rewrite take_app_length'.
  - by rewrite <- !app_assoc.
  - autorewrite with xpl. cbn [length]. lia.
Qed.

Lemma PUT_UINT64_ok n : PUT_UINT64 n = be_bytes 8 n.
Proof.
  unfold PUT_UINT64. rewrite !be_bytes_cons, !Z.div_div, !Z.shiftr_div_pow2 by lia. done.
Qed.

Lemma PUT_UINT64_bytes n : Forall is_byte (PUT_UINT64 n).
Proof. repeat (apply Forall_cons; split; [apply (wrap_range 8); lia|]). by apply Forall_nil. Qed.

Lemma sha512_length_bytes n : 0 <= n < 2 ^ 61 -> PUT_UINT64 0 ++ PUT_UINT64 (8 * n) = be_bytes 16 (8 * n).
Proof.
  intros Hn. rewrite !PUT_UINT64_ok. unfold be_bytes. rewrite <- reverse_app.
  rewrite (le_bytes_app 8 8). change (256 ^ Z.of_nat 8) with (2 ^ 64). by rewrite Z.div_small by lia.
Qed.

(** The digest of a closed sum is that of the message it was fed. *)
Lemma sha512_sum_close_ok sha512 message :
  sha512_state sha512 message ->
  exists sha512', sha512_sum_close sha512 = Some sha512' /\
    sha512_digest sha512' = sha512_of initial message /\ sha512_sized sha512'.
Proof.
  intros (Hh & [= H0 H1] & Hlen). pose proof Hh as (_ & Hbl & _). unfold sha512_sum_close.
  pose proof (pad_zeros 128 16 ltac:(lia) ltac:(lia) message) as Hz. cbv zeta in Hz.
  rewrite (sha512_pad_ok sha512 _ _ Hbl (rest_lt 128 ltac:(lia) message) Hz), H0, H1,
    sha512_length_bytes by (pose proof (zlen_nonneg message); lia). cbn [mbind option_bind].
  set (padding := 0x80 :: _). assert (Forall is_byte padding) as Hf.
  { apply Forall_cons. split; [unfold is_byte; lia|]. apply Forall_app.
    split; [apply Forall_replicate; unfold is_byte; lia|].
    rewrite <- sha512_length_bytes by (pose proof (zlen_nonneg message); lia).
    apply Forall_app. split; apply PUT_UINT64_bytes. }
  destruct (sha512_update_holds sha512 message padding Hh Hf) as (st & -> & ([Hc Hb] & _ & _ & Hd) & _).
  cbn [mbind option_bind].
  destruct (sha512_absorb_ok (message ++ padding)) as [Hl _].
  assert (mjoin (map (fun i => PUT_UINT64 (reg (sha512_H st) i)) (seq 0 8)) = sha512_of initial message) as ->.
  { unfold sha512_of, pad. change (message ++ [0x80] ++ _) with (message ++ padding).
    rewrite <- Hc in *. revert Hl. generalize (sha512_H st). intros h Hl.
    destruct h as [|a [|b [|c [|d [|e [|f [|g [|h [|]]]]]]]]]; try discriminate Hl.
    cbn [seq map reg nth]. by rewrite !PUT_UINT64_ok. }
  assert (length (sha512_of initial message) = 64%nat) as Hm.
  { unfold sha512_of. by rewrite join_be_bytes_length, (proj1 (sha512_absorb_ok _)). }
  rewrite write_at_all by (unfold zlen; rewrite ?Hd, ?Hm; lia). cbn [mbind option_bind].
  rewrite Hm, drop_ge, app_nil_r by lia. eexists. split; [done|]. split; [done|]. split; [apply Hb|done].
Qed.
End initial.

Lemma sha512_initial_ok : words_ok 64 sha512_initial.
Proof.
  split; [done|]. repeat (apply Forall_cons; split; [split; [done|reflexivity]|]). by apply Forall_nil.
Qed.

Lemma sha384_initial_ok : words_ok 64 sha384_initial.
Proof.
  split; [done|]. repeat (apply Forall_cons; split; [split; [done|reflexivity]|]). by apply Forall_nil.
Qed.
