(* ===== verification/Checksum.v ===== *)
(** * Checksums: the public functions of src/glib/gchecksum.c

    A [xchecksum_t] has a type, the member of the union that the type selects,
    and, once it is closed, the digest as a string. A NULL checksum, which every
    function refuses, is not represented; a NULL pointer to data is [None]. The
    outer [option] of a result is [None] where the code would abort or go out of
    a buffer. *)

From S2P Require Import Prelude Utf8 ChecksumBase Md5 Sha1 Sha256 Sha512.
Local Open Scope Z_scope.
Local Open Scope xpl_scope.

(** ** Data *)

Inductive GChecksumType :=
  | G_CHECKSUM_MD5 | G_CHECKSUM_SHA1 | G_CHECKSUM_SHA256 | G_CHECKSUM_SHA512 | G_CHECKSUM_SHA384.

(** [IS_VALID_TYPE]: the [int] that a caller passes as a type. *)
Definition checksum_type (n : Z) : option GChecksumType :=
  match n with
  | 0 => Some G_CHECKSUM_MD5
  | 1 => Some G_CHECKSUM_SHA1
  | 2 => Some G_CHECKSUM_SHA256
  | 3 => Some G_CHECKSUM_SHA512
  | 4 => Some G_CHECKSUM_SHA384
  | _ => None
  end.

Inductive sum_t :=
  | sum_md5 (md5 : Md5sum)
  | sum_sha1 (sha1 : Sha1sum)
  | sum_sha256 (sha256 : Sha256sum)
  | sum_sha512 (sha512 : Sha512sum).

Record xchecksum_t := {
  ck_type : GChecksumType;
  ck_digest_str : option (list Z);
  ck_sum : sum_t;
}.

(** The member that a type uses, in memory that [g_slice_new0] cleared. *)
Definition sum_new0 (type : GChecksumType) : sum_t :=
  match type with
  | G_CHECKSUM_MD5 =>
      sum_md5 {| md5_buf := replicate 4 0; md5_bits0 := 0; md5_bits1 := 0;
                 md5_data := replicate 64 0; md5_digest := replicate 16 0 |}
  | G_CHECKSUM_SHA1 =>
      sum_sha1 {| sha1_buf := replicate 5 0; sha1_bits0 := 0; sha1_bits1 := 0;
                  sha1_data := replicate 64 0; sha1_digest := replicate 20 0 |}
  | G_CHECKSUM_SHA256 =>
      sum_sha256 {| sha256_buf := replicate 8 0; sha256_bits0 := 0; sha256_bits1 := 0;
                    sha256_data := replicate 64 0; sha256_digest := replicate 32 0 |}
  | G_CHECKSUM_SHA512 | G_CHECKSUM_SHA384 =>
      sum_sha512 {| sha512_H := replicate 8 0; sha512_block := replicate 128 0;
                    sha512_block_len := 0; sha512_data_len0 := 0; sha512_data_len1 := 0;
                    sha512_digest := replicate 64 0 |}
  end.

(** ** Types *)

Definition type_length (type : GChecksumType) : Z :=
  match type with
  | G_CHECKSUM_MD5 => MD5_DIGEST_LEN
  | G_CHECKSUM_SHA1 => SHA1_DIGEST_LEN
  | G_CHECKSUM_SHA256 => SHA256_DIGEST_LEN
  | G_CHECKSUM_SHA384 => SHA384_DIGEST_LEN
  | G_CHECKSUM_SHA512 => SHA512_DIGEST_LEN
  end.

Definition xchecksum_type_get_length (n : Z) : Z :=
  match checksum_type n with Some type => type_length type | None => -1 end.

(** ** Creation *)

Definition xchecksum_reset (checksum : xchecksum_t) : option xchecksum_t :=
  sum ← match ck_type checksum, ck_sum checksum with
        | G_CHECKSUM_MD5, sum_md5 md5 => Some (sum_md5 (md5_sum_init md5))
        | G_CHECKSUM_SHA1, sum_sha1 sha1 => Some (sum_sha1 (sha1_sum_init sha1))
        | G_CHECKSUM_SHA256, sum_sha256 sha256 => Some (sum_sha256 (sha256_sum_init sha256))
        | G_CHECKSUM_SHA384, sum_sha512 sha512 => Some (sum_sha512 (sha384_sum_init sha512))
        | G_CHECKSUM_SHA512, sum_sha512 sha512 => Some (sum_sha512 (sha512_sum_init sha512))
        | _, _ => None
        end;
  Some {| ck_type := ck_type checksum; ck_digest_str := None; ck_sum := sum |}.

Definition xchecksum_new (n : Z) : option (option xchecksum_t) :=
  match checksum_type n with
  | None => Some None
  | Some type =>
      checksum ← xchecksum_reset
        {| ck_type := type; ck_digest_str := None; ck_sum := sum_new0 type |};
      Some (Some checksum)
  end.

(** [xstrdup]: the bytes up to the NUL that ends the string. *)
Definition xstrdup (str : list Z) : list Z := cstr str ++ [0].

Definition xchecksum_copy (checksum : xchecksum_t) : xchecksum_t := {|
  ck_type := ck_type checksum;
  ck_digest_str := xstrdup <$> ck_digest_str checksum;
  ck_sum := ck_sum checksum;
|}.

(** ** Update *)

Definition sum_update (type : GChecksumType) (sum : sum_t) (data : list Z) : option sum_t :=
  match type, sum with
  | G_CHECKSUM_MD5, sum_md5 md5 => sum_md5 <$> md5_sum_update md5 data
  | G_CHECKSUM_SHA1, sum_sha1 sha1 => sum_sha1 <$> sha1_sum_update sha1 data
  | G_CHECKSUM_SHA256, sum_sha256 sha256 => sum_sha256 <$> sha256_sum_update sha256 data
  | G_CHECKSUM_SHA384, sum_sha512 sha512 => sum_sha512 <$> sha512_sum_update sha512 data
  | G_CHECKSUM_SHA512, sum_sha512 sha512 => sum_sha512 <$> sha512_sum_update sha512 data
  | _, _ => None
  end.

Definition xchecksum_update (checksum : xchecksum_t) (data : option (list Z)) (length : Z)
  : option xchecksum_t :=
  if negb ((length =? 0) || (if data is Some _ then true else false)) then Some checksum
  else
    let data := default [] data in
    length ← (if length <? 0 then c_strlen data else Some length);
    match ck_digest_str checksum with
    | Some _ => Some checksum
    | None =>
        data ← cells_at data 0 length;
        sum ← sum_update (ck_type checksum) (ck_sum checksum) data;
        Some {| ck_type := ck_type checksum; ck_digest_str := None; ck_sum := sum |}
    end.

(** ** Digest *)

(** Closes the sum, and renders its digest. *)
Definition sum_close (type : GChecksumType) (sum : sum_t) : option (sum_t * list Z) :=
  match type, sum with
  | G_CHECKSUM_MD5, sum_md5 md5 =>
      md5 ← md5_sum_close md5; Some (sum_md5 md5, md5_sum_to_string md5)
  | G_CHECKSUM_SHA1, sum_sha1 sha1 =>
      sha1 ← sha1_sum_close sha1; Some (sum_sha1 sha1, sha1_sum_to_string sha1)
  | G_CHECKSUM_SHA256, sum_sha256 sha256 =>
      sha256 ← sha256_sum_close sha256; Some (sum_sha256 sha256, sha256_sum_to_string sha256)
  | G_CHECKSUM_SHA384, sum_sha512 sha512 =>
      sha512 ← sha512_sum_close sha512; Some (sum_sha512 sha512, sha384_sum_to_string sha512)
  | G_CHECKSUM_SHA512, sum_sha512 sha512 =>
      sha512 ← sha512_sum_close sha512; Some (sum_sha512 sha512, sha512_sum_to_string sha512)
  | _, _ => None
  end.

Definition sum_digest (type : GChecksumType) (sum : sum_t) (buffer : list Z) : option (list Z) :=
  match type, sum with
  | G_CHECKSUM_MD5, sum_md5 md5 => md5_sum_digest md5 buffer
  | G_CHECKSUM_SHA1, sum_sha1 sha1 => sha1_sum_digest sha1 buffer
  | G_CHECKSUM_SHA256, sum_sha256 sha256 => sha256_sum_digest sha256 buffer
  | G_CHECKSUM_SHA384, sum_sha512 sha512 => sha384_sum_digest sha512 buffer
  | G_CHECKSUM_SHA512, sum_sha512 sha512 => sha512_sum_digest sha512 buffer
  | _, _ => None
  end.

Definition xchecksum_get_string (checksum : xchecksum_t) : option (list Z * xchecksum_t) :=
  match ck_digest_str checksum with
  | Some str => Some (str, checksum)
  | None =>
      '(sum, str) ← sum_close (ck_type checksum) (ck_sum checksum);
      Some (str, {| ck_type := ck_type checksum; ck_digest_str := Some str; ck_sum := sum |})
  end.

(** The checksum, the caller's buffer and [digest_len] afterwards. *)
Definition xchecksum_get_digest (checksum : xchecksum_t) (buffer : list Z) (digest_len : Z)
  : option (xchecksum_t * list Z * Z) :=
  let len := type_length (ck_type checksum) in
  if digest_len <? len then Some (checksum, buffer, digest_len)
  else
    checksum ←
      match ck_digest_str checksum with
      | Some _ => Some checksum
      | None =>
          '(sum, str) ← sum_close (ck_type checksum) (ck_sum checksum);
          Some {| ck_type := ck_type checksum; ck_digest_str := Some str; ck_sum := sum |}
      end;
    buffer ← sum_digest (ck_type checksum) (ck_sum checksum) buffer;
    Some (checksum, buffer, len).

(** ** In one go *)

Definition g_compute_checksum_for_data (n : Z) (data : option (list Z)) (length : Z)
  : option (option (list Z)) :=
  if negb ((length =? 0) || (if data is Some _ then true else false)) then Some None
  else
    checksum ← xchecksum_new n;
    match checksum with
    | None => Some None
    | Some checksum =>
        checksum ← xchecksum_update checksum data (i64 length);
        '(str, _) ← xchecksum_get_string checksum;
        Some (Some (xstrdup str))
    end.

Definition g_compute_checksum_for_string (n : Z) (str : option (list Z)) (length : Z)
  : option (option (list Z)) :=
  if negb ((length =? 0) || (if str is Some _ then true else false)) then Some None
  else
    length ← (if length <? 0 then c_strlen (default [] str) else Some length);
    g_compute_checksum_for_data n str length.

(** The bytes of the [xbytes_t]. *)
Definition g_compute_checksum_for_bytes (n : Z) (data : list Z) : option (option (list Z)) :=
  g_compute_checksum_for_data n (Some data) (zlen data).
