(* ===== verification/ChecksumCorrect.v ===== *)
(** * What a checksum promises

    The contract between src/glib/gchecksum.c and its callers: a checksum is
    open on the message it was fed, or closed on it; [update] appends, the two
    accessors close and return the digest that the standard defines. A client
    is proved against the class; the instance is proved for the code. The
    properties follow. *)

From S2P Require Import Prelude Utf8 Digest DigestBlocks ChecksumBase Md5 Md5Stream Sha1.
From S2P Require Import Sha1Stream Sha256 Sha256Stream Sha512 Sha512Stream Checksum.
Local Open Scope Z_scope.
Local Open Scope xpl_scope.

(** ** The promise *)

Definition digest_of (type : GChecksumType) : list Z -> list Z :=
  match type with
  | G_CHECKSUM_MD5 => Digest.md5
  | G_CHECKSUM_SHA1 => Digest.sha1
  | G_CHECKSUM_SHA256 => Digest.sha256
  | G_CHECKSUM_SHA512 => Digest.sha512
  | G_CHECKSUM_SHA384 => Digest.sha384
  end.

(** Two lower-case hexadecimal digits for each byte. *)
Definition hex_char (d : Z) : Z := if d <? 10 then 48 + d else 87 + d.
Definition hex_string (bytes : list Z) : list Z :=
  mjoin (map (fun b => [hex_char (b / 16); hex_char (b mod 16)]) bytes).

(** What may be fed at once to a checksum on [message]: the bit count of MD5
    and SHA-1 wraps, as their standards say; that of SHA-256 carries once, and
    that of SHA-512 is right below 2 ^ 64 bits. *)
Definition may_feed (type : GChecksumType) (message d : list Z) : Prop :=
  Forall is_byte d /\
  match type with
  | G_CHECKSUM_MD5 | G_CHECKSUM_SHA1 => True
  | G_CHECKSUM_SHA256 => zlen d < 2 ^ 32
  | G_CHECKSUM_SHA512 | G_CHECKSUM_SHA384 => zlen message + zlen d < 2 ^ 61
  end.

Class ChecksumContract (opened closed : xchecksum_t -> GChecksumType -> list Z -> Prop) : Prop := {
  contract_opened_type c type m : opened c type m -> ck_type c = type;
  contract_closed_type c type m : closed c type m -> ck_type c = type;
  contract_new n type :
    checksum_type n = Some type -> exists c, xchecksum_new n = Some (Some c) /\ opened c type [];
  contract_reset c type m :
    opened c type m \/ closed c type m -> exists c', xchecksum_reset c = Some c' /\ opened c' type [];
  contract_update c type m data len d :
    opened c type m -> 0 <= len -> cells_at data 0 len = Some d -> may_feed type m d ->
    exists c', xchecksum_update c (Some data) len = Some c' /\ opened c' type (m ++ d);
  contract_update_closed c type m data len :
    closed c type m -> 0 <= len -> xchecksum_update c (Some data) len = Some c;
  contract_get_string c type m :
    opened c type m -> exists c', xchecksum_get_string c = Some (hex_string (digest_of type m) ++ [0], c') /\
                                  closed c' type m;
  contract_get_string_closed c type m :
    closed c type m -> xchecksum_get_string c = Some (hex_string (digest_of type m) ++ [0], c);
  contract_get_digest c type m buffer digest_len :
    opened c type m \/ closed c type m -> type_length type <= digest_len -> digest_len <= zlen buffer ->
    exists c', xchecksum_get_digest c buffer digest_len =
        Some (c', digest_of type m ++ drop (Z.to_nat (type_length type)) buffer, type_length type) /\
      closed c' type m;
  contract_get_digest_short c buffer digest_len :
    digest_len < type_length (ck_type c) -> xchecksum_get_digest c buffer digest_len = Some (c, buffer, digest_len);
  contract_copy_opened c type m : opened c type m -> opened (xchecksum_copy c) type m;
  contract_copy_closed c type m : closed c type m -> closed (xchecksum_copy c) type m;
}.

(** ** Digests are bytes *)

Lemma be_bytes_bytes n x : Forall is_byte (be_bytes n x).
Proof. unfold be_bytes. apply Forall_reverse, le_bytes_ok. Qed.

Lemma join_bytes (f : Z -> list Z) l : (forall x, Forall is_byte (f x)) -> Forall is_byte (mjoin (map f l)).
Proof.
  intros Hf. induction l as [|x l IH]; [by apply Forall_nil|].
  change (mjoin (map f (x :: l))) with (f x ++ mjoin (map f l)). by apply Forall_app.
Qed.

Lemma digest_of_bytes type m : Forall is_byte (digest_of type m).
Proof.
  destruct type; cbn [digest_of].
  - apply join_bytes, le_bytes_ok.
  - apply join_bytes, be_bytes_bytes.
  - apply join_bytes, be_bytes_bytes.
  - apply join_bytes, be_bytes_bytes.
  - apply Forall_take, join_bytes, be_bytes_bytes.
Qed.

Lemma sha512_of_length initial m : words_ok 64 initial -> length (sha512_of initial m) = 64%nat.
Proof. intros Hi. unfold sha512_of. by rewrite join_be_bytes_length, (proj1 (sha512_absorb_ok _ Hi _)). Qed.

Lemma digest_of_length type m : length (digest_of type m) = Z.to_nat (type_length type).
Proof.
  destruct type; cbn [digest_of].
  - unfold Digest.md5. by rewrite join_le_bytes_length, md5_absorb_words.
  - unfold Digest.sha1. by rewrite join_be_bytes_length, sha1_absorb_words.
  - unfold Digest.sha256. by rewrite join_be_bytes_length, (proj1 (sha256_absorb_ok _)).
  - apply sha512_of_length, sha512_initial_ok.
  - unfold Digest.sha384. rewrite length_take, sha512_of_length by apply sha384_initial_ok. done.
Qed.

(** ** Rendering *)

Lemma hex_digits_ok d : 0 <= d < 16 -> tbl hex_digits d = hex_char d.
Proof.
  intros Hd. apply Z.eqb_eq, (range_check (fun d => tbl hex_digits d =? hex_char d) 0 16 d); [|lia].
  vm_compute. reflexivity.
Qed.

Lemma digest_to_string_ok l n :
  Forall is_byte l -> digest_to_string l n = hex_string (take n l) ++ [0].
Proof.
  intros Hl. unfold digest_to_string, hex_string. f_equal. f_equal. apply map_ext_in. intros b Hb.
  apply (Forall_take _ n) in Hl. rewrite Forall_forall in Hl. apply list_elem_of_In in Hb.
  specialize (Hl b Hb). unfold is_byte in Hl.
  change 0xf with (2 ^ 4 - 1). rewrite Z.shiftr_div_pow2, land_low by lia.
  rewrite !hex_digits_ok; [done|zify_div..].
Qed.

Lemma hex_string_nonzero l : Forall is_byte l -> Forall (fun c => c <> 0) (hex_string l).
Proof.
  intros Hl. induction Hl as [|b l Hb _ IH]; [by apply Forall_nil|].
  change (hex_string (b :: l)) with ([hex_char (b / 16); hex_char (b mod 16)] ++ hex_string l).
  assert (forall d, 0 <= d -> hex_char d <> 0) as Hd by (intros d ?; unfold hex_char; zcases; lia).
  unfold is_byte in Hb.
  apply Forall_app. split; [|done]. repeat (apply Forall_cons; split; [apply Hd; zify_div|]). by apply Forall_nil.
Qed.

(** ** The states of a sum *)

Definition sum_opened (type : GChecksumType) (sum : sum_t) (m : list Z) : Prop :=
  match type, sum with
  | G_CHECKSUM_MD5, sum_md5 md5 => md5_state md5 m
  | G_CHECKSUM_SHA1, sum_sha1 sha1 => sha1_state sha1 m
  | G_CHECKSUM_SHA256, sum_sha256 sha256 => sha256_state sha256 m
  | G_CHECKSUM_SHA512, sum_sha512 sha512 => sha512_state sha512_initial sha512 m
  | G_CHECKSUM_SHA384, sum_sha512 sha512 => sha512_state sha384_initial sha512 m
  | _, _ => False
  end.

Definition sum_closed (type : GChecksumType) (sum : sum_t) (m : list Z) : Prop :=
  match type, sum with
  | G_CHECKSUM_MD5, sum_md5 md5 => md5_digest md5 = Digest.md5 m /\ md5_sized md5
  | G_CHECKSUM_SHA1, sum_sha1 sha1 => sha1_digest sha1 = Digest.sha1 m /\ sha1_sized sha1
  | G_CHECKSUM_SHA256, sum_sha256 sha256 => sha256_digest sha256 = Digest.sha256 m /\ sha256_sized sha256
  | G_CHECKSUM_SHA512, sum_sha512 sha512 => sha512_digest sha512 = sha512_of sha512_initial m /\ sha512_sized sha512
  | G_CHECKSUM_SHA384, sum_sha512 sha512 => sha512_digest sha512 = sha512_of sha384_initial m /\ sha512_sized sha512
  | _, _ => False
  end.

(** The structure has its sizes, whatever it was used for. *)
Definition sum_sized (type : GChecksumType) (sum : sum_t) : Prop :=
  match type, sum with
  | G_CHECKSUM_MD5, sum_md5 md5 => md5_sized md5
  | G_CHECKSUM_SHA1, sum_sha1 sha1 => sha1_sized sha1
  | G_CHECKSUM_SHA256, sum_sha256 sha256 => sha256_sized sha256
  | (G_CHECKSUM_SHA512 | G_CHECKSUM_SHA384), sum_sha512 sha512 => sha512_sized sha512
  | _, _ => False
  end.

Lemma sum_opened_sized type sum m : sum_opened type sum m -> sum_sized type sum.
Proof.
  destruct type, sum; try done; cbn [sum_opened sum_sized].
  - intros [[[_ [Hl _]] _] Hd]. done.
  - intros [[[_ [Hl _]] _] Hd]. done.
  - intros [[[_ [Hl _]] [_ Hd]] _]. done.
  - intros [[[_ [Hl _]] (_ & _ & Hd)] _]. done.
  - intros [[[_ [Hl _]] (_ & _ & Hd)] _]. done.
Qed.

Lemma sum_closed_sized type sum m : sum_closed type sum m -> sum_sized type sum.
Proof. by destruct type, sum; try done; intros [_ H]. Qed.

Lemma sum_update_ok type sum m d :
  sum_opened type sum m -> may_feed type m d ->
  exists sum', sum_update type sum d = Some sum' /\ sum_opened type sum' (m ++ d).
Proof.
  intros Hs [Hf Hm]. destruct type, sum; try done; cbn [sum_opened sum_update] in *.
  - destruct (md5_sum_update_ok md5 m d Hs) as (s & -> & Hs'). by eexists.
  - destruct (sha1_sum_update_ok sha1 m d Hs) as (s & -> & Hs'). by eexists.
  - destruct (sha256_sum_update_ok sha256 m d Hs Hf Hm) as (s & -> & Hs'). by eexists.
  - destruct (sha512_sum_update_ok _ sha512_initial_ok sha512 m d Hs Hf Hm) as (s & -> & Hs'). by eexists.
  - destruct (sha512_sum_update_ok _ sha384_initial_ok sha512 m d Hs Hf Hm) as (s & -> & Hs'). by eexists.
Qed.

Lemma sum_close_ok type sum m :
  sum_opened type sum m ->
  exists sum', sum_close type sum = Some (sum', hex_string (digest_of type m) ++ [0]) /\ sum_closed type sum' m.
Proof.
  intros Hs. pose proof (digest_of_bytes type m) as Hb. pose proof (digest_of_length type m) as Hl.
  destruct type, sum; try done; cbn [sum_opened sum_close sum_closed digest_of] in *.
  - destruct (md5_sum_close_ok md5 m Hs) as (s & -> & E & Hs'). cbn [mbind option_bind].
    unfold md5_sum_to_string. rewrite E, digest_to_string_ok, take_ge by (done || (rewrite Hl; vm_compute; lia)). by eexists.
  - destruct (sha1_sum_close_ok sha1 m Hs) as (s & -> & E & Hs'). cbn [mbind option_bind].
    unfold sha1_sum_to_string. rewrite E, digest_to_string_ok, take_ge by (done || (rewrite Hl; vm_compute; lia)). by eexists.
  - destruct (sha256_sum_close_ok sha256 m Hs) as (s & -> & E & Hs'). cbn [mbind option_bind].
    unfold sha256_sum_to_string. rewrite E, digest_to_string_ok, take_ge by (done || (rewrite Hl; vm_compute; lia)). by eexists.
  - destruct (sha512_sum_close_ok _ sha512_initial_ok sha512 m Hs) as (s & -> & E & Hs'). cbn [mbind option_bind].
    unfold sha512_sum_to_string. change (sha512_of sha512_initial m) with (Digest.sha512 m) in *. rewrite E, digest_to_string_ok, take_ge by (done || (rewrite Hl; vm_compute; lia)). by eexists.
  - destruct (sha512_sum_close_ok _ sha384_initial_ok sha512 m Hs) as (s & -> & E & Hs'). cbn [mbind option_bind].
    unfold sha384_sum_to_string. rewrite E, digest_to_string_ok by (apply join_bytes, be_bytes_bytes). by eexists.
Qed.

Lemma sum_digest_ok type sum m buffer :
  sum_closed type sum m -> type_length type <= zlen buffer ->
  sum_digest type sum buffer = Some (digest_of type m ++ drop (Z.to_nat (type_length type)) buffer).
Proof.
  intros Hs Hb. pose proof (digest_of_length type m) as Hl.
  destruct type, sum; try done; destruct Hs as [E _]; cbn [sum_digest digest_of] in *; unfold zlen in Hb; cbn in Hb.
  - unfold md5_sum_digest. rewrite E. change 16%nat with (Z.to_nat (type_length G_CHECKSUM_MD5)).
    rewrite <- Hl. apply copy_digest_ok. rewrite Hl. cbn. lia.
  - unfold sha1_sum_digest. rewrite E. change 20%nat with (Z.to_nat (type_length G_CHECKSUM_SHA1)).
    rewrite <- Hl. apply copy_digest_ok. rewrite Hl. cbn. lia.
  - unfold sha256_sum_digest. rewrite E. change 32%nat with (Z.to_nat (type_length G_CHECKSUM_SHA256)).
    rewrite <- Hl. apply copy_digest_ok. rewrite Hl. cbn. lia.
  - unfold sha512_sum_digest. change (sha512_of sha512_initial m) with (Digest.sha512 m) in E.
    rewrite E, take_ge by (rewrite Hl; vm_compute; lia).
    rewrite write_at_all by (unfold zlen; rewrite ?Hl; cbn; lia). by rewrite Hl.
  - unfold sha384_sum_digest. rewrite E. fold (Digest.sha384 m).
    rewrite write_at_all by (unfold zlen; rewrite ?Hl; cbn; lia). by rewrite Hl.
Qed.

(** ** The contract is kept *)

Definition opened (c : xchecksum_t) (type : GChecksumType) (m : list Z) : Prop :=
  ck_type c = type /\ ck_digest_str c = None /\ sum_opened type (ck_sum c) m.

Definition closed (c : xchecksum_t) (type : GChecksumType) (m : list Z) : Prop :=
  ck_type c = type /\ ck_digest_str c = Some (hex_string (digest_of type m) ++ [0]) /\
  sum_closed type (ck_sum c) m.

Lemma reset_ok c type :
  ck_type c = type -> sum_sized type (ck_sum c) ->
  exists c', xchecksum_reset c = Some c' /\ opened c' type [].
Proof.
  intros Ht Hs. unfold xchecksum_reset. rewrite Ht.
  destruct type, (ck_sum c) as [md5|sha1|sha256|sha512]; try done; cbn [sum_sized mbind option_bind] in *;
    eexists; (split; [done|]); (split; [done|]); (split; [done|]); cbn [ck_sum sum_opened].
  - by apply md5_sum_init_ok.
  - by apply sha1_sum_init_ok.
  - by apply sha256_sum_init_ok.
  - by apply sha512_start_ok.
  - by apply sha512_start_ok.
Qed.

Lemma get_digest_closed c type m buffer digest_len :
  closed c type m -> type_length type <= digest_len -> digest_len <= zlen buffer ->
  xchecksum_get_digest c buffer digest_len =
  Some (c, digest_of type m ++ drop (Z.to_nat (type_length type)) buffer, type_length type).
Proof.
  intros (Ht & Hd & Hs) Hl Hb. unfold xchecksum_get_digest. rewrite Ht, Hd.
  rewrite (proj2 (Z.ltb_ge _ _)) by done. cbn [mbind option_bind]. rewrite Ht.
  rewrite (sum_digest_ok type (ck_sum c) m buffer) by (done || lia). done.
Qed.

Lemma strdup_hex type m : xstrdup (hex_string (digest_of type m) ++ [0]) = hex_string (digest_of type m) ++ [0].
Proof. unfold xstrdup. by rewrite cstr_app_nul by apply hex_string_nonzero, digest_of_bytes. Qed.

#[export] Instance checksum_contract : ChecksumContract opened closed.
Proof.
  split.
  - by intros c type m (? & _).
  - by intros c type m (? & _).
  - intros n type Hn. unfold xchecksum_new. rewrite Hn.
    destruct (reset_ok {| ck_type := type; ck_digest_str := None; ck_sum := sum_new0 type |} type) as (c & -> & Hc);
      [done|by destruct type|]. by exists c.
  - intros c type m Hc. apply reset_ok; [by destruct Hc as [(? & _)|(? & _)]|].
    destruct Hc as [(_ & _ & Hs)|(_ & _ & Hs)]; [by eapply sum_opened_sized|by eapply sum_closed_sized].
  - intros c type m data len d (Ht & Hd & Hs) Hlen Hdata Hm. unfold xchecksum_update. rewrite orb_true_r.
    cbn [negb]. change (default [] (Some data)) with data. rewrite (proj2 (Z.ltb_ge len 0)) by done. cbn [mbind option_bind].
    rewrite Hd, Ht, Hdata. cbn [mbind option_bind].
    destruct (sum_update_ok type (ck_sum c) m d Hs Hm) as (s & -> & Hs'). cbn [mbind option_bind].
    eexists. by split.
  - intros c type m data len (_ & Hd & _) Hlen. unfold xchecksum_update. rewrite orb_true_r.
    cbn [negb]. change (default [] (Some data)) with data. rewrite (proj2 (Z.ltb_ge len 0)) by done. cbn [mbind option_bind]. by rewrite Hd.
  - intros c type m (Ht & Hd & Hs). unfold xchecksum_get_string. rewrite Hd, Ht.
    destruct (sum_close_ok type (ck_sum c) m Hs) as (s & -> & Hs'). cbn [mbind option_bind]. by eexists.
  - intros c type m (Ht & Hd & Hs). unfold xchecksum_get_string. by rewrite Hd.
  - intros c type m buffer digest_len [(<- & Hd & Hs)|Hc] Hl Hb; [|exists c; split; [by apply get_digest_closed|done]].
    destruct (sum_close_ok (ck_type c) (ck_sum c) m Hs) as (s & E & Hs').
    set (c' := {| ck_type := ck_type c; ck_digest_str := Some (hex_string (digest_of (ck_type c) m) ++ [0]); ck_sum := s |}).
    assert (closed c' (ck_type c) m) as Hc' by done. exists c'. split; [|done].
    rewrite <- (get_digest_closed c' (ck_type c) m buffer digest_len Hc' Hl Hb). unfold xchecksum_get_digest.
    change (ck_type c') with (ck_type c).
    rewrite (proj2 (Z.ltb_ge digest_len (type_length (ck_type c)))), Hd, E by done. reflexivity.
  - intros c buffer digest_len Hl. unfold xchecksum_get_digest. by rewrite (proj2 (Z.ltb_lt _ _)) by done.
  - intros c type m (Ht & Hd & Hs). split; [done|]. split; [|done]. cbn. by rewrite Hd.
  - intros c type m (Ht & Hd & Hs). split; [done|]. split; [|done]. cbn. rewrite Hd. cbn. by rewrite strdup_hex.
Qed.

(** ** Checksums: the claims

    The calls that a program makes on a [xchecksum_t], in any order, against an
    abstract session that only knows the message. *)

(** ** Calls *)

Inductive checksum_call :=
  | call_update (data : option (list Z)) (length : Z)
  | call_get_string
  | call_get_digest (buffer : list Z) (digest_len : Z)
  | call_reset
  | call_copy.

Inductive checksum_answer :=
  | answer_none
  | answer_string (str : list Z)
  | answer_digest (buffer : list Z) (digest_len : Z).

(** The code; after [call_copy] the program goes on with the copy. *)
Definition checksum_run (c : xchecksum_t) (call : checksum_call) : option (xchecksum_t * checksum_answer) :=
  match call with
  | call_update data length => c ← xchecksum_update c data length; Some (c, answer_none)
  | call_get_string => '(str, c) ← xchecksum_get_string c; Some (c, answer_string str)
  | call_get_digest buffer digest_len =>
      '(c, buffer, len) ← xchecksum_get_digest c buffer digest_len; Some (c, answer_digest buffer len)
  | call_reset => c ← xchecksum_reset c; Some (c, answer_none)
  | call_copy => Some (xchecksum_copy c, answer_none)
  end.

Fixpoint checksum_runs (c : xchecksum_t) (calls : list checksum_call) : option (list checksum_answer) :=
  match calls with
  | [] => Some []
  | call :: calls =>
      '(c, a) ← checksum_run c call; answers ← checksum_runs c calls; Some (a :: answers)
  end.

(** ** The abstract session *)

Inductive session := session_open (message : list Z) | session_closed (message : list Z).

(** The bytes that [update] is given: up to the NUL, or that many. *)
Definition given (data : option (list Z)) (length : Z) : list Z :=
  match data with
  | None => []
  | Some buf => if length <? 0 then cstr buf else take (Z.to_nat length) buf
  end.

Definition session_message (s : session) : list Z :=
  match s with session_open m | session_closed m => m end.

Definition session_step (digest : list Z -> list Z) (len : Z) (s : session) (call : checksum_call)
  : session * checksum_answer :=
  let d := digest (session_message s) in
  let close := session_closed (session_message s) in
  match call with
  | call_update data length =>
      (match s with session_open m => session_open (m ++ given data length) | _ => s end, answer_none)
  | call_get_string => (close, answer_string (hex_string d ++ [0]))
  | call_get_digest buffer digest_len =>
      if digest_len <? len then (s, answer_digest buffer digest_len)
      else (close, answer_digest (d ++ drop (Z.to_nat len) buffer) len)
  | call_reset => (session_open [], answer_none)
  | call_copy => (s, answer_none)
  end.

Fixpoint session_steps (digest : list Z -> list Z) (len : Z) (s : session) (calls : list checksum_call)
  : list checksum_answer :=
  match calls with
  | [] => []
  | call :: calls =>
      let '(s, a) := session_step digest len s call in a :: session_steps digest len s calls
  end.

(** What the caller must respect: the lengths are those of the buffers, a
    negative length comes with a NUL-terminated string, and the count of bytes
    stays within what the algorithm can count. *)
Definition readable (data : option (list Z)) (length : Z) : Prop :=
  match data with
  | None => True
  | Some buf => if length <? 0 then is_Some (c_strlen buf) else length <= zlen buf
  end.

Definition call_ok (feed : list Z -> list Z -> Prop) (len : Z) (s : session) (call : checksum_call) : Prop :=
  match call with
  | call_update data length =>
      readable data length /\
      match s with session_open m => feed m (given data length) | _ => True end
  | call_get_digest buffer digest_len => len <= digest_len -> digest_len <= zlen buffer
  | _ => True
  end.

Fixpoint calls_ok digest (feed : list Z -> list Z -> Prop) (len : Z) (s : session) (calls : list checksum_call)
  : Prop :=
  match calls with
  | [] => True
  | call :: calls =>
      call_ok feed len s call /\ calls_ok digest feed len (fst (session_step digest len s call)) calls
  end.

(** ** Reading the argument of [update] *)

Lemma c_strlen_cells buf n : c_strlen buf = Some n -> cells_at buf 0 n = Some (cstr buf) /\ 0 <= n.
Proof.
  unfold c_strlen. destruct (Nat.ltb_spec (length (cstr buf)) (length buf)) as [Hlt|]; [|done].
  intros [= <-]. split; [|lia].
  assert (forall l, take (length (cstr l)) l = cstr l) as E.
  { induction l as [|b l IH]; [done|]. cbn [cstr]. destruct (Z.eqb_spec b 0); [done|].
    cbn [length take]. by rewrite IH. }
  unfold cells_at. rewrite (proj2 (Z.ltb_ge (Z.of_nat _) 0)) by lia.
  rewrite (proj2 (Z.ltb_ge (zlen buf) _)) by (unfold zlen; lia).
  cbn [orb Z.ltb]. change (0 <? 0) with false. cbn [orb]. by rewrite Nat2Z.id, drop_0, E.
Qed.

Lemma cells_at_take (buf : list Z) n : 0 <= n <= zlen buf -> cells_at buf 0 n = Some (take (Z.to_nat n) buf).
Proof.
  intros Hn. unfold cells_at. change (0 <? 0) with false.
  rewrite (proj2 (Z.ltb_ge n 0)), (proj2 (Z.ltb_ge (zlen buf) _)) by lia. by rewrite drop_0.
Qed.

Section contract.
Context {opened closed : xchecksum_t -> GChecksumType -> list Z -> Prop} `{!ChecksumContract opened closed}.

(** Whatever the argument, an update reads [given] and appends it. *)
Lemma update_opened c type m data len :
  opened c type m -> readable data len -> may_feed type m (given data len) ->
  exists c', xchecksum_update c data len = Some c' /\ opened c' type (m ++ given data len).
Proof.
  intros Hc Hr Hf. destruct data as [buf|]; cbn [readable given] in *.
  - destruct (Z.ltb_spec len 0) as [Hneg|Hpos].
    + destruct Hr as [n Hn]. destruct (c_strlen_cells buf n Hn) as [Hcells Hn0].
      destruct (contract_update c type m buf n (cstr buf) Hc Hn0 Hcells Hf) as (c' & E & Hc').
      exists c'. split; [|done]. rewrite <- E. unfold xchecksum_update. rewrite !orb_true_r. cbn [negb].
      change (default [] (Some buf)) with buf.
      by rewrite (proj2 (Z.ltb_lt len 0)), (proj2 (Z.ltb_ge n 0)), Hn by done.
    + apply contract_update; [done|done|by apply cells_at_take|done].
  - destruct (Z.eqb_spec len 0) as [->|Hne].
    + exact (contract_update c type m [] 0 [] Hc (Z.le_refl 0) eq_refl Hf).
    + exists c. rewrite app_nil_r. split; [|done]. unfold xchecksum_update.
      by rewrite (proj2 (Z.eqb_neq _ _)) by done.
Qed.

Lemma update_closed c type m data len :
  closed c type m -> readable data len -> xchecksum_update c data len = Some c.
Proof.
  intros Hc Hr. destruct data as [buf|]; cbn [readable] in Hr.
  - destruct (Z.ltb_spec len 0) as [Hneg|Hpos]; [|by eapply contract_update_closed].
    destruct Hr as [n Hn]. destruct (c_strlen_cells buf n Hn) as [_ Hn0].
    transitivity (xchecksum_update c (Some buf) n); [|by eapply contract_update_closed].
    unfold xchecksum_update. rewrite !orb_true_r. cbn [negb]. change (default [] (Some buf)) with buf.
    by rewrite (proj2 (Z.ltb_lt len 0)), (proj2 (Z.ltb_ge n 0)), Hn by done.
  - destruct (Z.eqb_spec len 0) as [->|Hne].
    + exact (contract_update_closed c type m [] 0 Hc (Z.le_refl 0)).
    + unfold xchecksum_update. by rewrite (proj2 (Z.eqb_neq _ _)) by done.
Qed.

(** ** The refinement *)

Definition in_session (c : xchecksum_t) (type : GChecksumType) (s : session) : Prop :=
  match s with session_open m => opened c type m | session_closed m => closed c type m end.

Lemma in_session_type c type s : in_session c type s -> ck_type c = type.
Proof. destruct s as [m|m]; [apply (contract_opened_type c type m)|apply (contract_closed_type c type m)]. Qed.

Lemma in_session_either c type s :
  in_session c type s -> opened c type (session_message s) \/ closed c type (session_message s).
Proof. destruct s; [by left|by right]. Qed.

Lemma checksum_run_ok c type s call :
  in_session c type s -> call_ok (may_feed type) (type_length type) s call ->
  let '(s', a) := session_step (digest_of type) (type_length type) s call in
  exists c', checksum_run c call = Some (c', a) /\ in_session c' type s'.
Proof.
  intros Hc Hok. pose proof (in_session_type c type s Hc) as Ht. destruct call as [data len| |buffer len| |];
    cbn [session_step checksum_run call_ok] in *.
  - destruct Hok as [Hr Hf]. destruct s as [m|m].
    + destruct (update_opened c type m data len Hc Hr Hf) as (c' & -> & Hc'). by exists c'.
    + rewrite (update_closed c type m data len Hc Hr). by exists c.
  - destruct s as [m|m].
    + destruct (contract_get_string c type m Hc) as (c' & -> & Hc'). by exists c'.
    + rewrite (contract_get_string_closed c type m Hc). by exists c.
  - destruct (Z.ltb_spec len (type_length type)) as [Hlt|Hge].
    + rewrite contract_get_digest_short by (by rewrite Ht). by exists c.
    + destruct (contract_get_digest c type (session_message s) buffer len (in_session_either c type s Hc) Hge (Hok Hge))
        as (c' & -> & Hc'). by exists c'.
  - destruct (contract_reset c type _ (in_session_either c type s Hc)) as (c' & -> & Hc'). by exists c'.
  - eexists. split; [done|]. destruct s as [m|m];
      [exact (contract_copy_opened c type m Hc)|exact (contract_copy_closed c type m Hc)].
Qed.

Lemma checksum_runs_ok c type s calls :
  in_session c type s -> calls_ok (digest_of type) (may_feed type) (type_length type) s calls ->
  checksum_runs c calls = Some (session_steps (digest_of type) (type_length type) s calls).
Proof.
  revert c s. induction calls as [|call calls IH]; intros c s Hc Hok; [done|].
  cbn [checksum_runs session_steps calls_ok] in *. destruct Hok as [Hcall Hcalls].
  pose proof (checksum_run_ok c type s call Hc Hcall) as Hrun.
  destruct (session_step _ _ s call) as [s' a]. destruct Hrun as (c' & -> & Hc'). cbn [mbind option_bind].
  by rewrite (IH c' s' Hc' Hcalls).
Qed.
End contract.

Lemma compute_for_data n type data :
  checksum_type n = Some type -> may_feed type [] data -> zlen data < 2 ^ 63 ->
  forall buf, take (length data) buf = data -> (length data <= length buf)%nat ->
  g_compute_checksum_for_data n (Some buf) (zlen data) =
  Some (Some (hex_string (digest_of type data) ++ [0])).
Proof.
  intros Hn Hf Hl buf Hb Hle. unfold g_compute_checksum_for_data. rewrite orb_true_r. cbn [negb].
  destruct (contract_new n type Hn) as (c & -> & Hc). cbn [mbind option_bind].
  pose proof (zlen_nonneg data) as Hd.
  assert (i64 (zlen data) = zlen data) as -> by (unfold i64; rewrite Z.mod_small; lia).
  destruct (contract_update c type [] buf (zlen data) data Hc Hd) as (c1 & -> & Hc1); [|done|].
  { rewrite cells_at_take by (unfold zlen in *; lia). unfold zlen. by rewrite Nat2Z.id, Hb. }
  cbn [mbind option_bind]. destruct (contract_get_string c1 type data Hc1) as (c2 & -> & _).
  cbn [mbind option_bind]. by rewrite strdup_hex.
Qed.

(** C11: A checksum computes the digest that its standard defines (RFC 1321,
    FIPS 180-4), however the message is cut: any sequence of updates, readings
    as a string or as bytes, resets and copies on a new checksum of a valid
    type answers what an abstract session on the message answers. A checksum
    that was read is closed: later updates do not change what is read. The limits
    are those of [may_feed]: an update of SHA-256 has less than [2 ^ 32] bytes, a
    message of SHA-384 or SHA-512 less than [2 ^ 61]; beyond them the counts of
    the program are wrong ([sha256_counts_8_gib_as_4], [sha512_misses_carry]). *)
Theorem checksum_refines n type calls :
  checksum_type n = Some type ->
  calls_ok (digest_of type) (may_feed type) (type_length type) (session_open []) calls ->
  exists c, xchecksum_new n = Some (Some c) /\
    checksum_runs c calls = Some (session_steps (digest_of type) (type_length type) (session_open []) calls).
Proof.
  intros Hn Hok. destruct (contract_new n type Hn) as (c & E & Hc). exists c. split; [done|].
  by apply checksum_runs_ok.
Qed.

Lemma checksum_refines_witness :
  checksum_type 2 = Some G_CHECKSUM_SHA256 /\
  exists c, xchecksum_new 2 = Some (Some c) /\
    checksum_runs c [call_update (Some (ascii_bytes "ab")) 2; call_update (Some (ascii_bytes "cd" ++ [0])) 1;
                     call_get_string; call_update (Some (ascii_bytes "d")) 1; call_get_string] =
    Some [answer_none; answer_none;
          answer_string (ascii_bytes "ba7816bf8f01cfea414140de5dae2223b00361a396177a9cb410ff61f20015ad" ++ [0]);
          answer_none;
          answer_string (ascii_bytes "ba7816bf8f01cfea414140de5dae2223b00361a396177a9cb410ff61f20015ad" ++ [0])].
Proof.
  split; [reflexivity|].
  destruct (checksum_refines 2 G_CHECKSUM_SHA256
    [call_update (Some (ascii_bytes "ab")) 2; call_update (Some (ascii_bytes "cd" ++ [0])) 1;
     call_get_string; call_update (Some (ascii_bytes "d")) 1; call_get_string]) as (c & E & R).
  - reflexivity.
  - cbn. repeat split; try (unfold zlen; cbn; lia); solve_bytes.
  - exists c. split; [exact E|]. rewrite R. vm_compute. reflexivity.
Defined.

(** C38: The functions that compute a checksum in one go, on bytes and on a
    NUL-terminated string, return the hexadecimal digest that the standard
    defines; a type that is not one gives NULL. The data is within the limits of
    [may_feed]: less than [2 ^ 32] bytes for SHA-256, which would miscount a single
    update of 8 GiB, and less than [2 ^ 61] for SHA-384 and SHA-512. *)
Theorem checksum_in_one_go n data :
  zlen data < 2 ^ 63 ->
  match checksum_type n with
  | Some type =>
      may_feed type [] data ->
      g_compute_checksum_for_bytes n data = Some (Some (hex_string (digest_of type data) ++ [0])) /\
      (Forall (fun b => b <> 0) data ->
       g_compute_checksum_for_string n (Some (data ++ [0])) (-1) =
       Some (Some (hex_string (digest_of type data) ++ [0])))
  | None =>
      g_compute_checksum_for_bytes n data = Some None /\
      g_compute_checksum_for_string n (Some (data ++ [0])) (-1) = Some None
  end.
Proof.
  intros Hl. destruct (checksum_type n) as [type|] eqn:Hn.
  - intros Hf. pose proof (compute_for_data n type data Hn Hf Hl) as H. split.
    + apply H; [apply firstn_all|lia].
    + intros Hz. unfold g_compute_checksum_for_string. rewrite orb_true_r. cbn [negb].
      change (-1 <? 0) with true. unfold c_strlen. change (default [] (Some (data ++ [0]))) with (data ++ [0]).
      rewrite cstr_app_nul, (proj2 (Nat.ltb_lt _ _)) by (done || (rewrite length_app; cbn; lia)).
      cbn [mbind option_bind]. apply H; [apply take_app_length|rewrite length_app; lia].
  - unfold g_compute_checksum_for_bytes, g_compute_checksum_for_string, g_compute_checksum_for_data, xchecksum_new.
    rewrite !orb_true_r, Hn. cbn [negb mbind option_bind]. split; [done|].
    change (-1 <? 0) with true. unfold c_strlen. change (default [] (Some (data ++ [0]))) with (data ++ [0]).
    rewrite (proj2 (Nat.ltb_lt _ _)); [cbn [mbind option_bind]; by rewrite orb_true_r|]. clear. rewrite length_app. cbn [length].
    induction data as [|b data IH]; [vm_compute; lia|cbn [cstr app length]]. destruct (b =? 0); cbn [length]; lia.
Qed.

Lemma checksum_in_one_go_witness :
  g_compute_checksum_for_bytes 0 (ascii_bytes "abc") =
    Some (Some (ascii_bytes "900150983cd24fb0d6963f7d28e17f72" ++ [0])) /\
  g_compute_checksum_for_bytes 5 (ascii_bytes "abc") = Some None.
Proof.
  split.
  - destruct (checksum_in_one_go 0 (ascii_bytes "abc")) as [E _]; [reflexivity| |].
    + split; [cbn; solve_bytes|exact I].
    + rewrite E. vm_compute. reflexivity.
  - exact (proj1 (checksum_in_one_go 5 (ascii_bytes "abc") eq_refl)).
Defined.

(** ** Beyond the bounds *)

(** One update of 8 GiB carries once into the second word of the byte count of
    SHA-256: 4 GiB are counted. *)
Lemma sha256_counts_8_gib_as_4 sha256 :
  sha256_bits (sha256_count (sha256_sum_init sha256) (2 ^ 33)) = (0, 1).
Proof. reflexivity. Qed.

(** After 2 ^ 61 - 1 bytes, two more overflow the first word of the bit count
    of SHA-512, and the test for the carry misses it. *)
Lemma sha512_misses_carry sha512 :
  sha512_lens sha512 = (2 ^ 64 - 8, 0) -> sha512_lens (sha512_count sha512 2) = (8, 0).
Proof.
  intros [= H0 H1]. unfold sha512_lens. cbn [sha512_count sha512_data_len0 sha512_data_len1].
  rewrite H0, H1. reflexivity.
Qed.
