(* ===== verification/Hmac.v ===== *)
(** * HMAC: src/glib/ghmac.c

    A [xhmac_t] holds two checksums, that of the inner and that of the outer
    message; every operation works through the functions of gchecksum.c. NULL
    objects, which every function refuses, are not represented. *)

From S2P Require Import Prelude Utf8 ChecksumBase Checksum.
Local Open Scope Z_scope.
Local Open Scope xpl_scope.

Record xhmac_t := {
  hm_ref_count : Z;
  hm_digest_type : GChecksumType;
  hm_digesti : xchecksum_t;
  hm_digesto : xchecksum_t;
}.

Definition hmac_block_size (type : GChecksumType) : Z :=
  match type with
  | G_CHECKSUM_MD5 | G_CHECKSUM_SHA1 => 64
  | G_CHECKSUM_SHA256 => 64
  | G_CHECKSUM_SHA384 | G_CHECKSUM_SHA512 => 128
  end.

Definition g_hmac_new (n : Z) (key : list Z) (key_len : Z) : option (option xhmac_t) :=
  checksum ← xchecksum_new n;
  match checksum with
  | None => Some None
  | Some digesti =>
      let block_size := hmac_block_size (ck_type digesti) in
      digesto ← xchecksum_new n;
      match digesto with
      | None => None
      | Some digesto =>
          let buffer := replicate (Z.to_nat block_size) 0 in
          '(digesti, buffer) ←
            (if block_size <? key_len then
               digesti ← xchecksum_update digesti (Some key) (i64 key_len);
               '(digesti, buffer, _) ← xchecksum_get_digest digesti buffer block_size;
               digesti ← xchecksum_reset digesti;
               Some (digesti, buffer)
             else
               key ← cells_at key 0 key_len;
               buffer ← write_at buffer 0 key;
               Some (digesti, buffer));
          let pad := map (fun b => 0x36 xor b) buffer in
          digesti ← xchecksum_update digesti (Some pad) block_size;
          let pad := map (fun b => 0x5c xor b) buffer in
          digesto ← xchecksum_update digesto (Some pad) block_size;
          Some (Some {| hm_ref_count := 1; hm_digest_type := ck_type digesti;
                        hm_digesti := digesti; hm_digesto := digesto |})
      end
  end.

Definition g_hmac_copy (hmac : xhmac_t) : xhmac_t := {|
  hm_ref_count := 1;
  hm_digest_type := hm_digest_type hmac;
  hm_digesti := xchecksum_copy (hm_digesti hmac);
  hm_digesto := xchecksum_copy (hm_digesto hmac);
|}.

Definition g_hmac_ref (hmac : xhmac_t) : xhmac_t := {|
  hm_ref_count := i32 (hm_ref_count hmac + 1);
  hm_digest_type := hm_digest_type hmac;
  hm_digesti := hm_digesti hmac;
  hm_digesto := hm_digesto hmac;
|}.

(** [None] once the last reference is dropped and the structure is freed. *)
Definition g_hmac_unref (hmac : xhmac_t) : option xhmac_t :=
  let ref_count := i32 (hm_ref_count hmac - 1) in
  if ref_count =? 0 then None
  else Some {| hm_ref_count := ref_count; hm_digest_type := hm_digest_type hmac;
               hm_digesti := hm_digesti hmac; hm_digesto := hm_digesto hmac |}.

Definition hmac_set (hmac : xhmac_t) (digesti digesto : xchecksum_t) : xhmac_t := {|
  hm_ref_count := hm_ref_count hmac;
  hm_digest_type := hm_digest_type hmac;
  hm_digesti := digesti;
  hm_digesto := digesto;
|}.

Definition g_hmac_update (hmac : xhmac_t) (data : option (list Z)) (length : Z) : option xhmac_t :=
  if negb ((length =? 0) || (if data is Some _ then true else false)) then Some hmac
  else
    digesti ← xchecksum_update (hm_digesti hmac) data length;
    Some (hmac_set hmac digesti (hm_digesto hmac)).

(** The structure, the caller's buffer and [digest_len] afterwards. *)
Definition g_hmac_get_digest (hmac : xhmac_t) (buffer : list Z) (digest_len : Z)
  : option (xhmac_t * list Z * Z) :=
  let len := type_length (hm_digest_type hmac) in
  if digest_len <? len then Some (hmac, buffer, digest_len)
  else
    '(digesti, buffer, len) ← xchecksum_get_digest (hm_digesti hmac) buffer len;
    digesto ← xchecksum_update (hm_digesto hmac) (Some buffer) len;
    '(digesto, buffer, digest_len) ← xchecksum_get_digest digesto buffer digest_len;
    Some (hmac_set hmac digesti digesto, buffer, digest_len).

(** The buffer on the stack is written before it is read. *)
Definition g_hmac_get_string (hmac : xhmac_t) : option (list Z * xhmac_t) :=
  let digest_len := type_length (hm_digest_type hmac) in
  '(hmac, _, _) ← g_hmac_get_digest hmac (replicate (Z.to_nat digest_len) 0) digest_len;
  '(str, digesto) ← xchecksum_get_string (hm_digesto hmac);
  Some (str, hmac_set hmac (hm_digesti hmac) digesto).

Definition g_compute_hmac_for_data (n : Z) (key : list Z) (key_len : Z) (data : option (list Z)) (length : Z)
  : option (option (list Z)) :=
  if negb ((length =? 0) || (if data is Some _ then true else false)) then Some None
  else
    hmac ← g_hmac_new n key key_len;
    match hmac with
    | None => Some None
    | Some hmac =>
        hmac ← g_hmac_update hmac data (i64 length);
        '(str, hmac) ← g_hmac_get_string hmac;
        let _ := g_hmac_unref hmac in
        Some (Some (xstrdup str))
    end.

(** The bytes of the two [xbytes_t]. *)
Definition g_compute_hmac_for_bytes (n : Z) (key data : list Z) : option (option (list Z)) :=
  g_compute_hmac_for_data n key (zlen key) (Some data) (zlen data).

Definition g_compute_hmac_for_string (n : Z) (key : list Z) (key_len : Z) (str : option (list Z)) (length : Z)
  : option (option (list Z)) :=
  if negb ((length =? 0) || (if str is Some _ then true else false)) then Some None
  else
    length ← (if length <? 0 then c_strlen (default [] str) else Some length);
    g_compute_hmac_for_data n key key_len str length.
