(* ===== verification/HmacCorrect.v ===== *)
(** * HMAC: the properties

    Proved against the contract of the checksums, for any implementation that
    keeps it. *)

From S2P Require Import Prelude Utf8 Digest DigestBlocks ChecksumBase Checksum ChecksumCorrect.
From S2P Require Import Hmac.
Local Open Scope Z_scope.
Local Open Scope xpl_scope.

(** ** Calls *)

Inductive hmac_call :=
  | hmac_update (data : option (list Z)) (length : Z)
  | hmac_get_string
  | hmac_get_digest (buffer : list Z) (digest_len : Z)
  | hmac_copy
  | hmac_ref.

Definition hmac_run (h : xhmac_t) (call : hmac_call) : option (xhmac_t * checksum_answer) :=
  match call with
  | hmac_update data length => h ← g_hmac_update h data length; Some (h, answer_none)
  | hmac_get_string => '(str, h) ← g_hmac_get_string h; Some (h, answer_string str)
  | hmac_get_digest buffer digest_len =>
      '(h, buffer, len) ← g_hmac_get_digest h buffer digest_len; Some (h, answer_digest buffer len)
  | hmac_copy => Some (g_hmac_copy h, answer_none)
  | hmac_ref => Some (g_hmac_ref h, answer_none)
  end.

Fixpoint hmac_runs (h : xhmac_t) (calls : list hmac_call) : option (list checksum_answer) :=
  match calls with
  | [] => Some []
  | call :: calls => '(h, a) ← hmac_run h call; answers ← hmac_runs h calls; Some (a :: answers)
  end.

(** The same calls, on the abstract session of a checksum: neither a copy nor a
    reference changes it. *)
Definition as_checksum (call : hmac_call) : checksum_call :=
  match call with
  | hmac_update data length => call_update data length
  | hmac_get_string => call_get_string
  | hmac_get_digest buffer digest_len => call_get_digest buffer digest_len
  | hmac_copy | hmac_ref => call_copy
  end.

Definition hmac_of (type : GChecksumType) (key : list Z) : list Z -> list Z :=
  Digest.hmac (Z.to_nat (hmac_block_size type)) (digest_of type) key.

(** What may be fed to the inner checksum, which has been fed a block already. *)
Definition hmac_may_feed (type : GChecksumType) (m d : list Z) : Prop :=
  may_feed type (replicate (Z.to_nat (hmac_block_size type)) 0 ++ m) d.

Definition key_ok (type : GChecksumType) (key : list Z) : Prop :=
  may_feed type [] key /\ zlen key < 2 ^ 63.

Lemma size_range type : 64 <= hmac_block_size type <= 128 /\ type_length type <= hmac_block_size type.
Proof. destruct type; vm_compute; intuition congruence. Qed.

Section contract.
Context {opened closed : xchecksum_t -> GChecksumType -> list Z -> Prop} `{!ChecksumContract opened closed}.
Context (type : GChecksumType) (key : list Z) (Hkey : key_ok type key).

Local Abbreviation size := (hmac_block_size type).

(** The key, hashed when it is longer than a block, filled up with zeros. *)
Definition padded_key : list Z :=
  let k := if (Z.to_nat size <? length key)%nat then digest_of type key else key in
  k ++ replicate (Z.to_nat size - length k) 0.

Definition inner : list Z := map (Z.lxor 0x36) padded_key.
Definition outer : list Z := map (Z.lxor 0x5c) padded_key.

Lemma hmac_of_eq m : hmac_of type key m = digest_of type (outer ++ digest_of type (inner ++ m)).
Proof. reflexivity. Qed.

Lemma padded_key_length : length padded_key = Z.to_nat size.
Proof using type key.
  pose proof (size_range type) as Hs. pose proof (digest_of_length type key) as Hd. unfold padded_key.
  rewrite length_app, length_replicate. destruct (Nat.ltb_spec (Z.to_nat size) (length key)); lia.
Qed.

Lemma padded_key_bytes : Forall is_byte padded_key.
Proof.
  unfold padded_key. apply Forall_app. split; [|apply Forall_replicate; unfold is_byte; lia].
  destruct (_ <? _)%nat; [apply digest_of_bytes|apply Hkey].
Qed.

Lemma xor_bytes x l : (x = 0x36 \/ x = 0x5c) -> Forall is_byte l -> Forall is_byte (map (Z.lxor x) l).
Proof.
  intros Hx Hl. apply Forall_fmap. eapply Forall_impl; [exact Hl|]. intros b Hb. unfold compose, is_byte in *.
  assert ((0 <=? Z.lxor x b) && (Z.lxor x b <? 256) = true) as Hc; [|zprops; lia].
  destruct Hx as [-> | ->]; revert Hb.
  - apply (range_check (fun b => (0 <=? Z.lxor 0x36 b) && (Z.lxor 0x36 b <? 256)) 0 256). vm_compute. reflexivity.
  - apply (range_check (fun b => (0 <=? Z.lxor 0x5c b) && (Z.lxor 0x5c b <? 256)) 0 256). vm_compute. reflexivity.
Qed.

Lemma block_may_feed x m :
  (x = 0x36 \/ x = 0x5c) -> zlen m < 2 ^ 60 -> may_feed type m (map (Z.lxor x) padded_key).
Proof.
  intros Hx Hm. split; [apply xor_bytes; [done|apply padded_key_bytes]|].
  assert (zlen (map (Z.lxor x) padded_key) = size) as ->.
  { unfold zlen. rewrite length_map, padded_key_length. pose proof (size_range type). lia. }
  pose proof (size_range type). destruct type; try done; lia.
Qed.

(** A block of the size of the key pads. *)
Lemma xor_cells x : 0 <= size -> cells_at (map (Z.lxor x) padded_key) 0 size = Some (map (Z.lxor x) padded_key).
Proof.
  intros Hs. assert (zlen (map (Z.lxor x) padded_key) = size) as E.
  { unfold zlen. rewrite length_map, padded_key_length. lia. }
  rewrite cells_at_take by lia. f_equal. apply take_ge. rewrite length_map, padded_key_length. lia.
Qed.

(** ** The states *)

Definition in_hmac (h : xhmac_t) (s : session) : Prop :=
  hm_digest_type h = type /\
  match s with
  | session_open m => opened (hm_digesti h) type (inner ++ m) /\ opened (hm_digesto h) type outer
  | session_closed m =>
      closed (hm_digesti h) type (inner ++ m) /\
      closed (hm_digesto h) type (outer ++ digest_of type (inner ++ m))
  end.

(** The key is hashed or copied into the block. *)
Lemma hmac_key_ok c :
  opened c type [] ->
  exists c', (if size <? zlen key then
                digesti ← xchecksum_update c (Some key) (i64 (zlen key));
                '(digesti, buffer, _) ← xchecksum_get_digest digesti (replicate (Z.to_nat size) 0) size;
                digesti ← xchecksum_reset digesti;
                Some (digesti, buffer)
              else
                key ← cells_at key 0 (zlen key);
                buffer ← write_at (replicate (Z.to_nat size) 0) 0 key;
                Some (c, buffer)) = Some (c', padded_key) /\ opened c' type [].
Proof.
  intros Hc. destruct Hkey as [Hf Hl]. pose proof (size_range type) as [Hs Ht]. pose proof (zlen_nonneg key) as H0.
  unfold padded_key. pose proof (digest_of_length type key) as Hd.
  destruct (Z.ltb_spec size (zlen key)) as [Hlong|Hshort]; unfold zlen in *.
  - rewrite (proj2 (Nat.ltb_lt _ _)) by lia.
    assert (i64 (Z.of_nat (length key)) = Z.of_nat (length key)) as -> by (unfold i64; rewrite Z.mod_small; lia).
    destruct (contract_update c type [] key (Z.of_nat (length key)) key Hc H0) as (c1 & -> & Hc1); [|done|].
    { rewrite cells_at_take by (unfold zlen; lia). by rewrite Nat2Z.id, firstn_all. }
    cbn [mbind option_bind].
    destruct (contract_get_digest c1 type key (replicate (Z.to_nat size) 0) size (or_introl Hc1) Ht)
      as (c2 & -> & Hc2); [unfold zlen; rewrite length_replicate; lia|].
    cbn [mbind option_bind]. destruct (contract_reset c2 type key (or_intror Hc2)) as (c3 & -> & Hc3).
    cbn [mbind option_bind]. exists c3. rewrite drop_replicate, Hd. done.
  - rewrite (proj2 (Nat.ltb_ge _ _)) by lia. rewrite cells_at_take by (unfold zlen; lia).
    rewrite Nat2Z.id, firstn_all. cbn [mbind option_bind].
    rewrite write_at_all by (unfold zlen; rewrite ?length_replicate; lia). cbn [mbind option_bind].
    rewrite drop_replicate. by exists c.
Qed.

Lemma g_hmac_new_ok n :
  checksum_type n = Some type ->
  exists h, g_hmac_new n key (zlen key) = Some (Some h) /\ in_hmac h (session_open []).
Proof.
  intros Hn. unfold g_hmac_new. destruct (contract_new n type Hn) as (ci & -> & Hci). cbn [mbind option_bind].
  rewrite (contract_opened_type ci type [] Hci). pose proof (size_range type) as [Hs _].
  assert (0 <= size) as Hs0 by lia.
  destruct (hmac_key_ok ci Hci) as (c1 & -> & Hc1). cbn [mbind option_bind].
  destruct (contract_update c1 type [] _ size _ Hc1 Hs0 (xor_cells 0x36 Hs0)) as (c2 & E2 & Hc2);
    [by apply block_may_feed; [left|]|].
  destruct (contract_update ci type [] _ size _ Hci Hs0 (xor_cells 0x5c Hs0)) as (c3 & E3 & Hc3);
    [by apply block_may_feed; [right|]|].
  change (map (fun b => 0x36 xor b) padded_key) with (map (Z.lxor 0x36) padded_key).
  change (map (fun b => 0x5c xor b) padded_key) with (map (Z.lxor 0x5c) padded_key).
  rewrite E2. cbn [mbind option_bind]. rewrite E3. cbn [mbind option_bind].
  eexists. split; [done|]. split; [by apply (contract_opened_type c2 type _ Hc2)|].
  cbn [hm_digesti hm_digesto]. by rewrite app_nil_r.
Qed.

Lemma update_open_ok h m data len :
  in_hmac h (session_open m) -> readable data len -> may_feed type (inner ++ m) (given data len) ->
  exists h', g_hmac_update h data len = Some h' /\ in_hmac h' (session_open (m ++ given data len)).
Proof.
  intros (Ht & Hi & Ho) Hr Hf. unfold g_hmac_update.
  destruct (update_opened (hm_digesti h) type (inner ++ m) data len Hi Hr Hf) as (c & E & Hc).
  destruct (negb _) eqn:Eg.
  - exists h. split; [done|]. destruct data; [by rewrite orb_true_r in Eg|].
    cbn [given]. by rewrite app_nil_r.
  - rewrite E. cbn [mbind option_bind]. eexists. split; [done|]. split; [done|]. by rewrite app_assoc.
Qed.

Lemma update_closed_ok h m data len :
  in_hmac h (session_closed m) -> readable data len ->
  exists h', g_hmac_update h data len = Some h' /\ in_hmac h' (session_closed m).
Proof.
  intros (Ht & Hi & Ho) Hr. unfold g_hmac_update. destruct (negb _); [by exists h|].
  rewrite (update_closed (hm_digesti h) type _ data len Hi Hr). cbn [mbind option_bind]. by eexists.
Qed.

Lemma outer_update c m buffer :
  opened c type outer ->
  exists c', xchecksum_update c (Some (digest_of type (inner ++ m) ++ buffer)) (type_length type) = Some c' /\
    opened c' type (outer ++ digest_of type (inner ++ m)).
Proof.
  intros Hc. pose proof (digest_of_length type (inner ++ m)) as Hd. pose proof (size_range type) as [Hs Hl].
  assert (0 <= type_length type) as H0 by (destruct type; vm_compute; congruence).
  apply (contract_update c type outer _ _ _ Hc H0).
  - rewrite cells_at_take by (rewrite zlen_app; unfold zlen; lia). by rewrite take_app_length'.
  - split; [apply digest_of_bytes|].
    assert (zlen outer = size) as E by (unfold zlen, outer; rewrite length_map, padded_key_length; lia).
    assert (zlen (digest_of type (inner ++ m)) = type_length type) as E' by (unfold zlen; rewrite Hd; lia).
    rewrite E, E'. clear. destruct type; try done; vm_compute; congruence.
Qed.

Lemma get_digest_ok h s buffer len :
  in_hmac h s -> type_length type <= len -> len <= zlen buffer ->
  let m := session_message s in
  exists h', g_hmac_get_digest h buffer len =
      Some (h', hmac_of type key m ++ drop (Z.to_nat (type_length type)) buffer, type_length type) /\
    in_hmac h' (session_closed m).
Proof.
  intros (Ht & Hs) Hl Hb m. unfold g_hmac_get_digest. rewrite Ht, (proj2 (Z.ltb_ge _ _)) by done.
  assert (opened (hm_digesti h) type (inner ++ m) \/ closed (hm_digesti h) type (inner ++ m)) as Hi
    by (destruct s; [left|right]; apply Hs).
  destruct (contract_get_digest (hm_digesti h) type _ buffer _ Hi (Z.le_refl _)) as (ci & -> & Hci); [lia|].
  cbn [mbind option_bind].
  pose proof (digest_of_length type (inner ++ m)) as Hd.
  set (buffer1 := digest_of type (inner ++ m) ++ drop (Z.to_nat (type_length type)) buffer).
  assert (0 <= type_length type) as H0 by (destruct type; vm_compute; congruence).
  assert (exists co, xchecksum_update (hm_digesto h) (Some buffer1) (type_length type) = Some co /\
    (opened co type (outer ++ digest_of type (inner ++ m)) \/ closed co type (outer ++ digest_of type (inner ++ m))))
    as (co & -> & Hco).
  { destruct s as [m'|m']; destruct Hs as [_ Ho].
    - destruct (outer_update (hm_digesto h) m (drop (Z.to_nat (type_length type)) buffer) Ho) as (co & E & Hco).
      exists co. auto.
    - exists (hm_digesto h). split; [exact (contract_update_closed _ type _ _ _ Ho H0)|by right]. }
  cbn [mbind option_bind].
  destruct (contract_get_digest co type _ buffer1 len Hco Hl) as (co' & -> & Hco').
  { subst buffer1. unfold zlen in *. rewrite length_app, length_drop, Hd. lia. }
  cbn [mbind option_bind]. exists (hmac_set h ci co'). split; [|by split; [|split]].
  do 3 f_equal. subst buffer1. rewrite <- Hd, drop_app_length. reflexivity.
Qed.

Lemma get_string_ok h s :
  in_hmac h s ->
  exists h', g_hmac_get_string h = Some (hex_string (hmac_of type key (session_message s)) ++ [0], h') /\
    in_hmac h' (session_closed (session_message s)).
Proof.
  intros Hs. pose proof Hs as [Ht _]. unfold g_hmac_get_string. rewrite Ht.
  destruct (get_digest_ok h s (replicate (Z.to_nat (type_length type)) 0) (type_length type) Hs (Z.le_refl _))
    as (h' & -> & Hh'); [unfold zlen; rewrite length_replicate; lia|].
  cbn [mbind option_bind]. destruct Hh' as (Ht' & Hi & Ho).
  rewrite (contract_get_string_closed (hm_digesto h') type _ Ho). cbn [mbind option_bind].
  eexists. by split; [|split].
Qed.

Lemma hmac_run_ok h s call :
  in_hmac h s -> call_ok (fun m => may_feed type (inner ++ m)) (type_length type) s (as_checksum call) ->
  let '(s', a) := session_step (hmac_of type key) (type_length type) s (as_checksum call) in
  exists h', hmac_run h call = Some (h', a) /\ in_hmac h' s'.
Proof.
  intros Hh Hok. destruct call as [data len| |buffer len| |]; cbn [session_step as_checksum hmac_run call_ok] in *.
  - destruct Hok as [Hr Hf]. destruct s as [m|m].
    + destruct (update_open_ok h m data len Hh Hr Hf) as (h' & -> & Hh'). by exists h'.
    + destruct (update_closed_ok h m data len Hh Hr) as (h' & -> & Hh'). by exists h'.
  - destruct (get_string_ok h s Hh) as (h' & -> & Hh'). by exists h'.
  - destruct (Z.ltb_spec len (type_length type)) as [Hlt|Hge].
    + unfold g_hmac_get_digest. destruct Hh as [Ht Hs]. rewrite Ht, (proj2 (Z.ltb_lt _ _)) by done. by exists h.
    + destruct (get_digest_ok h s buffer len Hh Hge (Hok Hge)) as (h' & -> & Hh'). by exists h'.
  - eexists. split; [done|]. destruct Hh as [Ht Hs]. split; [done|].
    destruct s as [m|m]; destruct Hs as [Hi Ho]; cbn [g_hmac_copy hm_digesti hm_digesto].
    + split; [exact (contract_copy_opened _ _ _ Hi)|exact (contract_copy_opened _ _ _ Ho)].
    + split; [exact (contract_copy_closed _ _ _ Hi)|exact (contract_copy_closed _ _ _ Ho)].
  - eexists. by split.
Qed.

Lemma hmac_runs_ok h s calls :
  in_hmac h s ->
  calls_ok (hmac_of type key) (fun m => may_feed type (inner ++ m)) (type_length type) s (map as_checksum calls) ->
  hmac_runs h calls = Some (session_steps (hmac_of type key) (type_length type) s (map as_checksum calls)).
Proof.
  revert h s. induction calls as [|call calls IH]; intros h s Hh Hok; [done|].
  cbn [hmac_runs session_steps calls_ok map] in *. destruct Hok as [Hcall Hcalls].
  pose proof (hmac_run_ok h s call Hh Hcall) as Hrun.
  destruct (session_step _ _ s (as_checksum call)) as [s' a]. destruct Hrun as (h' & -> & Hh').
  cbn [mbind option_bind]. by rewrite (IH h' s' Hh' Hcalls).
Qed.
End contract.

(** What may be fed depends on the length of the inner message only. *)
Lemma may_feed_length type m m' d : length m = length m' -> may_feed type m d -> may_feed type m' d.
Proof. unfold may_feed, zlen. by intros ->. Qed.

Lemma hmac_feed type key m d : hmac_may_feed type m d -> may_feed type (inner type key ++ m) d.
Proof.
  apply may_feed_length. rewrite !length_app, length_replicate. unfold inner. by rewrite length_map, padded_key_length.
Qed.

Lemma call_ok_impl (feed feed' : list Z -> list Z -> Prop) len s call :
  (forall m d, feed m d -> feed' m d) -> call_ok feed len s call -> call_ok feed' len s call.
Proof.
  intros Hf. destruct call as [data l| | | |]; try done. cbn [call_ok]. intros [Hr Hs]. split; [done|].
  destruct s; auto.
Qed.

Lemma calls_ok_impl (feed feed' : list Z -> list Z -> Prop) digest len s calls :
  (forall m d, feed m d -> feed' m d) -> calls_ok digest feed len s calls -> calls_ok digest feed' len s calls.
Proof.
  intros Hf. revert s. induction calls as [|call calls IH]; intros s; [done|]. cbn [calls_ok].
  intros [Hc Hcs]. split; [by eapply call_ok_impl|by apply IH].
Qed.

(** C12: A [xhmac_t] computes the HMAC of RFC 2104 over the digest of its type:
    any sequence of updates, readings, copies and references on a new one answers
    what an abstract session on the message answers with HMAC as its digest; once
    read, it is closed. The key may be longer than a block; it and the message are
    within the limits of the checksums: the key and each update of SHA-256 have
    less than [2 ^ 32] bytes, the key and the message of SHA-384 and SHA-512, with
    the block before it, less than [2 ^ 61]. *)
Theorem hmac_refines n type key calls :
  checksum_type n = Some type -> key_ok type key ->
  calls_ok (hmac_of type key) (hmac_may_feed type) (type_length type) (session_open []) (map as_checksum calls) ->
  exists h, g_hmac_new n key (zlen key) = Some (Some h) /\
    hmac_runs h calls =
    Some (session_steps (hmac_of type key) (type_length type) (session_open []) (map as_checksum calls)).
Proof.
  intros Hn Hkey Hok. destruct (g_hmac_new_ok type key Hkey n Hn) as (h & E & Hh). exists h. split; [done|].
  apply (hmac_runs_ok type key Hkey); [done|]. eapply calls_ok_impl; [|exact Hok]. apply hmac_feed.
Qed.

Lemma hmac_refines_witness :
  checksum_type 0 = Some G_CHECKSUM_MD5 /\
  exists h, g_hmac_new 0 (ascii_bytes "Jefe") 4 = Some (Some h) /\
    hmac_runs h [hmac_update (Some (ascii_bytes "what do ya want ")) 16; hmac_ref;
                 hmac_update (Some (ascii_bytes "for nothing?" ++ [0])) (-1); hmac_get_string;
                 hmac_update (Some [33]) 1; hmac_copy; hmac_get_string] =
    Some [answer_none; answer_none; answer_none;
          answer_string (ascii_bytes "750c783e6ab0b503eaa86e310a5db738" ++ [0]);
          answer_none; answer_none;
          answer_string (ascii_bytes "750c783e6ab0b503eaa86e310a5db738" ++ [0])].
Proof.
  split; [reflexivity|].
  destruct (hmac_refines 0 G_CHECKSUM_MD5 (ascii_bytes "Jefe")
    [hmac_update (Some (ascii_bytes "what do ya want ")) 16; hmac_ref;
     hmac_update (Some (ascii_bytes "for nothing?" ++ [0])) (-1); hmac_get_string;
     hmac_update (Some [33]) 1; hmac_copy; hmac_get_string]) as (h & E & R).
  - reflexivity.
  - split; [split; [cbn; solve_bytes|exact I]|reflexivity].
  - cbn. repeat split; try exact I; try (unfold zlen; cbn; lia); try solve_bytes. by eexists.
  - exists h. split; [exact E|]. rewrite R. vm_compute. reflexivity.
Defined.

Lemma compute_hmac_for_data n type key data :
  checksum_type n = Some type -> key_ok type key -> hmac_may_feed type [] data -> zlen data < 2 ^ 63 ->
  forall buf, take (length data) buf = data -> (length data <= length buf)%nat ->
  g_compute_hmac_for_data n key (zlen key) (Some buf) (zlen data) =
  Some (Some (hex_string (hmac_of type key data) ++ [0])).
Proof.
  intros Hn Hkey Hf Hl buf Hb Hle. unfold g_compute_hmac_for_data. rewrite orb_true_r. cbn [negb].
  destruct (g_hmac_new_ok type key Hkey n Hn) as (h & -> & Hh). cbn [mbind option_bind].
  pose proof (zlen_nonneg data) as H0.
  assert (i64 (zlen data) = zlen data) as -> by (unfold i64; rewrite Z.mod_small; lia).
  assert (given (Some buf) (zlen data) = data) as Eg.
  { cbn [given]. rewrite (proj2 (Z.ltb_ge _ _)) by done. unfold zlen. by rewrite Nat2Z.id. }
  destruct (update_open_ok type key h [] (Some buf) (zlen data) Hh) as (h' & -> & Hh').
  - cbn [readable]. rewrite (proj2 (Z.ltb_ge _ _)) by done. unfold zlen. lia.
  - rewrite Eg. by apply hmac_feed.
  - rewrite Eg in Hh'. cbn [mbind option_bind app] in *.
    destruct (get_string_ok type key Hkey h' _ Hh') as (h2 & -> & _). cbn [mbind option_bind session_message].
    rewrite hmac_of_eq. by rewrite strdup_hex.
Qed.

(** The functions that compute an HMAC in one go return the hexadecimal
    HMAC of RFC 2104, or NULL for a type that is not one. *)
Theorem hmac_in_one_go n key data :
  zlen key < 2 ^ 63 -> zlen data < 2 ^ 63 ->
  match checksum_type n with
  | Some type =>
      may_feed type [] key -> hmac_may_feed type [] data ->
      g_compute_hmac_for_bytes n key data = Some (Some (hex_string (hmac_of type key data) ++ [0])) /\
      (Forall (fun b => b <> 0) data ->
       g_compute_hmac_for_string n key (zlen key) (Some (data ++ [0])) (-1) =
       Some (Some (hex_string (hmac_of type key data) ++ [0])))
  | None => g_compute_hmac_for_bytes n key data = Some None
  end.
Proof.
  intros Hlk Hl. destruct (checksum_type n) as [type|] eqn:Hn.
  - intros Hk Hf. pose proof (compute_hmac_for_data n type key data Hn (conj Hk Hlk) Hf Hl) as H.
    split; [apply H; [apply firstn_all|lia]|]. intros Hz. unfold g_compute_hmac_for_string.
    rewrite orb_true_r. cbn [negb]. change (-1 <? 0) with true. unfold c_strlen.
    change (default [] (Some (data ++ [0]))) with (data ++ [0]).
    rewrite cstr_app_nul, (proj2 (Nat.ltb_lt _ _)) by (done || (rewrite length_app; cbn; lia)).
    cbn [mbind option_bind]. apply H; [apply take_app_length|rewrite length_app; lia].
  - unfold g_compute_hmac_for_bytes, g_compute_hmac_for_data, g_hmac_new, xchecksum_new.
    by rewrite orb_true_r, Hn.
Qed.

Lemma hmac_in_one_go_witness :
  g_compute_hmac_for_bytes 0 (ascii_bytes "Jefe") (ascii_bytes "what do ya want for nothing?") =
  Some (Some (ascii_bytes "750c783e6ab0b503eaa86e310a5db738" ++ [0])).
Proof.
  destruct (hmac_in_one_go 0 (ascii_bytes "Jefe") (ascii_bytes "what do ya want for nothing?")) as [E _];
    [reflexivity|reflexivity| | |].
  - split; [cbn; solve_bytes|exact I].
  - split; [cbn; solve_bytes|exact I].
  - rewrite E. vm_compute. reflexivity.
Defined.
